(* ===== verification/_CoqProject ===== *)
-Q . S2P
Prelude.v
BitLists.v
Pmm.v
Heap.v
Huffman.v
Inflate.v
Rfc1951.v
Gzip.v
Sha256.v
CString.v
Kstdlib.v
Tar.v
Vmm.v
PageTables.v
AddressSpaces.v
VmmPmm.v
Uvm.v
UserMemory.v
UvmPmm.v
Sched.v
SchedCorrect.v
WaitQueues.v
Lifecycle.v
LifecycleCorrect.v
Net.v
Tcp.v
Stack.v
StackSafe.v
Wire.v
Datagrams.v
Streams.v
UnixSock.v
UnixRing.v
UnixInv.v
UnixCalls.v
UnixLinks.v
UnixHeap.v
UnixCorrect.v
Blkdev.v
Ext2.v
Ext2Store.v
Ext2Alloc.v
Ext2Tree.v
Ext2Inodes.v
Ext2Files.v
Ext2Dirs.v
Ext2Create.v
Ext2Mkfs.v
Ext2Spec.v
Ext2Correct.v
Ext2Disks.v
