(* ===== verification/Prelude.v ===== *)
(** * Kil0yOS: a verification development

    Kil0yOS is an operating system for x86-64, written in C. This library
    translates parts of its kernel (src/src/kernel, src/include) into functions
    on explicit states and proves what they do.

    ** The parts and how they interact

    The physical memory manager hands out page frames; the page-table code
    builds address spaces from them; user memory maps, copies and frees the
    pages of processes. The kernel heap serves the rest of the kernel. The
    scheduler shares the CPU among kernel tasks and user processes; wait
    queues, futexes and the calls that end and await processes block and resume
    them. The network stack takes frames from a card, runs ARP, IPv4, ICMP, UDP
    and TCP over them, and wakes readers through a wait queue. Unix sockets
    connect processes on the machine; they live in the kernel heap. The ext2 driver
    keeps files and directories on a block device, a disk or a partition of
    one. The package code decompresses, checks and unpacks archives.

    ** Files and sources

    - Prelude.v: results of C code ([res], its monad, [post] and [total]),
      machine integers with their wrap-around, arrays with bounds, loops, the
      generic lemmas and tactics. BitLists.v: numbers and bytes as lists of
      bits, for the standards below.
    - Pmm.v, Heap.v: the frame allocator and the kernel heap of mm/memory.c.
    - Vmm.v: the page tables of mm/memory.c, over the class [FrameAlloc] of
      frame allocators; PageTables.v and AddressSpaces.v: its correctness;
      VmmPmm.v: Pmm.v is an instance of the class.
    - Uvm.v: core/uvm.c, the memory groups of core/process.c and the memory calls
      of core/syscall_lnx.c; UserMemory.v: its correctness; UvmPmm.v: concrete
      machines.
    - Sched.v: sched/scheduler.c, sched/wait.c and the process table of
      core/process.c; SchedCorrect.v: conservation and fairness; WaitQueues.v:
      the queues implement lists.
    - Lifecycle.v: futexes and wait4 of core/syscall_lnx.c, exit, kill and
      threads of core/process.c; LifecycleCorrect.v: their correctness.
    - Net.v, Tcp.v, Stack.v: net/netif.c, ethernet.c, arp.c, ipv4.c, icmp.c, udp.c,
      tcp.c; StackSafe.v: safety and termination of all of it; Wire.v:
      encoding and decoding of packets; Datagrams.v, Streams.v: two machines.
    - UnixSock.v: net/unix_sock.c, over the class [KernelHeap] of allocators.
      UnixRing.v: the ring as a queue of bytes and of messages; UnixInv.v: the
      links between sockets; UnixCalls.v, UnixLinks.v: each call; UnixHeap.v: Heap.v
      is an instance of the class; UnixCorrect.v: runs and theorems.
    - Blkdev.v: drivers/blkdev.c, over the class [BlkDriver] of disk drivers with
      the laws [BlkLaws]; a partition is again an instance.
    - Ext2.v: fs/ext2.c on such a device. Ext2Store.v: the device as a store of
      blocks, with a calculus of weakest preconditions; Ext2Alloc.v: bitmaps and
      layout; Ext2Tree.v: block pointers; Ext2Inodes.v, Ext2Files.v, Ext2Dirs.v,
      Ext2Create.v, Ext2Mkfs.v: inodes, files, directories, creation, mkfs and
      probe; Ext2Spec.v: the abstract file system; Ext2Correct.v and
      Ext2Disks.v: the theorems.
    - Huffman.v, Inflate.v, Gzip.v: pkg/inflate.c; Sha256.v: pkg/sha256.c;
      Tar.v: pkg/tar.c over the class [FsOps] of file systems. The standards
      the package code implements are written down from the documents, apart
      from the code: [Deflate] of Rfc1951.v, [Rfc1952] of Gzip.v and [Fips] of
      Sha256.v. The definitions [dec_...] of Inflate.v and Gzip.v are decoders
      on bit streams that compute what the code computes, its departures from
      the standards included.
    - CString.v, Kstdlib.v: lib/string.c and lib/stdlib.c.

    A C function is one definition of the same name; a loop inside it that
    needs a name of its own is a separate one next to it. The statics of a file are
    the fields of a record ([pmm], [heap], [vmm], [sched], [waits], [net], [unet]),
    passed through. A C return code stays a number; [Err] is an error path,
    [Fault] an access outside an object, [Timeout] the end of a fuel.

    ** What the theorems show

    - Memory: no page is handed out twice and none that is reserved; every
      heap that requests below the size wrap can build is well formed, and
      blocks are disjoint and keep their bytes; mapping, unmapping, creating, destroying and forking
      address spaces change exactly the translations they name, in the space
      they name, and account for every frame, as long as the regions of a
      process record its mappings; bytes copied to a user range are
      read back through its mappings.
    - Processes: a timer interrupt loses and invents no context, except that
      a requested switch to the main task drops the frame it finds; kernel
      tasks are served round robin; the linked wait queues refine lists under
      any sequence of calls; a parked, forked or awaited process resumes with
      the registers, results and memory it should have.
    - Network: on any frames and calls the stack stays within its objects and
      every call returns whose wait has an end; a datagram and an ARP exchange
      arrive; TCP delivers the peer's stream, while the connection is open, in
      order under loss, repetition and reordering. Any
      calls on Unix sockets are memory safe and leak no memory, and streams and
      messages arrive in order where each socket is written to as its type asks.
    - Files: programs of creations, writes and reads on a reliable device
      refine a finite map from inodes to files and directories; whatever
      transfers or allocations fail, the invariant of the file system and all
      other files stay; mkfs and probe agree; a probe of any disk is well typed;
      a partition keeps to its sectors.
    - Packages: the decompressor returns what RFC 1951 and RFC 1952 say on
      every valid file without the three features named in Rfc1951.v, and on
      every byte string ends, with the result of the bit-stream decoder;
      SHA-256 is the function of FIPS 180-4; archives built by a reference
      writer are found and unpacked.
    - Departures: theorems that show where the code does not do what it
      means to or what its comments say, on general or concrete inputs.

    ** Fuel and bounds

    Loops whose end is not structural take a fuel computed from the data (the
    length of an input, the number of pages, the milliseconds until a
    deadline, the entries that fit in a directory block), and the totality
    theorems show that it does not run out: results are stated as equations
    with [Ok] or as [total]. Integers have the width of their C type where the
    code can wrap; addresses are modulo 2^64. The network's clock is taken not
    to wrap at 2^64 microseconds.

    ** What is not modelled

    Device drivers (network cards, disks, USB, audio, video, keyboard, timer),
    boot code, descriptor tables and interrupt entry are port and memory-mapped
    I/O or assembly; where a model needs a device it is an argument (the frames
    that arrive, what a driver returns, the sectors of a disk, the FPU state
    after fninit, and in Lifecycle.v the translation of user addresses). The tree of
    paths, mount points, overlay and FAT layer of fs/fs.c above the ext2
    driver, open files and the calls on them, the program loader, the DHCP, DNS, TFTP and HTTP
    clients, the zstd decoder, the package database and the shell are not
    modelled. Log output is left out throughout. A call is one step: the
    kernel masks interrupts or runs on one CPU where the models
    assume it. *)

(** ** Results, integers, arrays and loops *)

From Stdlib Require Export ZArith Lia.
From stdpp Require Export base list gmap numbers.

(* Nothing below relies on implicit generalisation. *)
Generalizable No Variables.

Open Scope Z_scope.

(** ** Results of C code

    [Ok] is a normal return, [Err] a return through an error path (with the
    C return code), [Fault] an access outside an object (undefined behaviour
    in C, or a trap), [Timeout] exhaustion of a model's fuel. Theorems about
    totality exclude [Timeout], theorems about memory safety exclude [Fault]. *)

Inductive res (A : Type) : Type :=
  | Ok (a : A)
  | Err (code : Z)
  | Fault
  | Timeout.

Arguments Ok {A} a.
Arguments Err {A} code.
Arguments Fault {A}.
Arguments Timeout {A}.

#[global] Instance res_ret : MRet res := fun A a => Ok a.

#[global] Instance res_bind : MBind res := fun A B f m =>
  match m with
  | Ok a => f a
  | Err c => Err c
  | Fault => Fault
  | Timeout => Timeout
  end.

#[global] Instance res_inhabited {A} : Inhabited (res A) := populate Fault.

(** [post Q E r]: [r] is a normal result satisfying [Q] or an error return
    whose code satisfies [E]; it is neither a fault nor out of fuel. *)
Definition post {A} (Q : A -> Prop) (E : Z -> Prop) (r : res A) : Prop :=
  match r with
  | Ok a => Q a
  | Err c => E c
  | Fault => False
  | Timeout => False
  end.

(** [total Q r]: [r] is a normal result satisfying [Q]. *)
Definition total {A} (Q : A -> Prop) (r : res A) : Prop := post Q (fun _ => False) r.

(** Linux error numbers that several system calls return. *)
Definition L_EAGAIN : Z := 11.
Definition L_ENOMEM : Z := 12.
Definition L_EINVAL : Z := 22.

(** ** Machine integers *)

Definition u8 (z : Z) : Z := z mod 256.
Definition u16 (z : Z) : Z := z mod 65536.
Definition u32 (z : Z) : Z := z mod 4294967296.
Definition u64 (z : Z) : Z := z mod 18446744073709551616.
Definition s8 (z : Z) : Z := (z + 128) mod 256 - 128.
Definition s32 (z : Z) : Z := (z + 2147483648) mod 4294967296 - 2147483648.
Definition s64 (z : Z) : Z :=
  (z + 9223372036854775808) mod 18446744073709551616 - 9223372036854775808.

(** A C condition on an integer. *)
Definition truthy (z : Z) : bool := negb (z =? 0).

Definition is_byte (z : Z) : Prop := 0 <= z < 256.

#[global] Instance is_byte_dec z : Decision (is_byte z).
Proof. unfold is_byte. apply _. Defined.

(** ** Arrays indexed by Z *)

Section arrays.
Context {A : Type}.

Definition zget (l : list A) (i : Z) : option A :=
  if 0 <=? i then l !! Z.to_nat i else None.

Definition zset (l : list A) (i : Z) (v : A) : list A :=
  if 0 <=? i then <[Z.to_nat i := v]> l else l.

Definition zlen (l : list A) : Z := Z.of_nat (length l).

(** Load and store, faulting out of range. *)
Definition ld (l : list A) (i : Z) : res A :=
  match zget l i with Some v => Ok v | None => Fault end.

Definition st (l : list A) (i : Z) (v : A) : res (list A) :=
  if (0 <=? i) && (i <? zlen l) then Ok (zset l i v) else Fault.
End arrays.

(** ** Loops *)

Section loops.
Context {S R : Type}.

(** [n] iterations of a counted loop whose index starts at [i]. *)
Fixpoint for_from (n : nat) (i : Z) (body : Z -> S -> res S) (s : S) : res S :=
  match n with
  | O => Ok s
  | Datatypes.S n' => body i s ≫= for_from n' (i + 1) body
  end.

(** [for (i = lo; i < hi; i++)] *)
Definition for_ (lo hi : Z) (body : Z -> S -> res S) (s : S) : res S :=
  for_from (Z.to_nat (hi - lo)) lo body s.

(** A loop whose body either continues with a state or leaves with a result. *)
Fixpoint loop (fuel : nat) (body : S -> res (S + R)) (s : S) : res R :=
  match fuel with
  | O => Timeout
  | Datatypes.S fuel' =>
      body s ≫= fun r =>
        match r with
        | inl s' => loop fuel' body s'
        | inr x => Ok x
        end
  end.
End loops.

(** ** Automation *)

Create HintDb kil discriminated.

(** Case analysis on the integer comparisons of the goal or a hypothesis. *)
Ltac zcase :=
  match goal with
  | |- context [?a =? ?b] => destruct (Z.eqb_spec a b)
  | |- context [?a <? ?b] => destruct (Z.ltb_spec a b)
  | |- context [?a <=? ?b] => destruct (Z.leb_spec a b)
  | H : context [?a =? ?b] |- _ => destruct (Z.eqb_spec a b)
  | H : context [?a <? ?b] |- _ => destruct (Z.ltb_spec a b)
  | H : context [?a <=? ?b] |- _ => destruct (Z.leb_spec a b)
  end.

Ltac zcases := repeat (zcase; simpl in *; try lia).

(** Unfold the wrap-around functions and let [lia] reason about [mod]. *)
Ltac mlia := Z.to_euclidean_division_equations; lia.
Ltac cint_lia := unfold u8, u16, u32, u64, s8, s32, s64, is_byte in *; mlia.

(** ** Lemmas on results *)

Section res_lemmas.
Context {A B : Type}.

Lemma bind_Ok (m : res A) (f : A -> res B) b :
  m ≫= f = Ok b <-> exists a, m = Ok a /\ f a = Ok b.
Proof.
  split; [|intros (a & -> & H); exact H].
  destruct m; simpl; try discriminate. eauto.
Qed.

(** As rewriting rules, which keep the kernel from comparing the two sides by
    evaluation. *)
Lemma Ok_bind (a : A) (f : A -> res B) : Ok a ≫= f = f a.
Proof. reflexivity. Qed.

Lemma Err_bind c (f : A -> res B) : Err c ≫= f = Err c.
Proof. reflexivity. Qed.

Lemma post_bind (Q : A -> Prop) (Q' : B -> Prop) E (m : res A) (f : A -> res B) :
  post Q E m -> (forall a, Q a -> post Q' E (f a)) -> post Q' E (m ≫= f).
Proof. destruct m; simpl; auto; contradiction. Qed.

Lemma post_mono (Q Q' : A -> Prop) (E E' : Z -> Prop) (m : res A) :
  post Q E m -> (forall a, Q a -> Q' a) -> (forall c, E c -> E' c) -> post Q' E' m.
Proof. destruct m; simpl; auto. Qed.

Lemma post_conseq (Q Q' : A -> Prop) (E : Z -> Prop) (m : res A) :
  post Q E m -> (forall a, Q a -> Q' a) -> post Q' E m.
Proof. destruct m; simpl; auto. Qed.

Lemma total_Ok (Q : A -> Prop) m : total Q m <-> exists a, m = Ok a /\ Q a.
Proof.
  unfold total. destruct m; simpl; split; intros H; try done; try (by destruct H as (? & ? & ?)).
  - eauto.
  - destruct H as (? & [= <-] & ?). done.
Qed.

Lemma total_bind (Q : A -> Prop) (Q' : B -> Prop) (m : res A) (f : A -> res B) :
  total Q m -> (forall a, Q a -> total Q' (f a)) -> total Q' (m ≫= f).
Proof. apply post_bind. Qed.
End res_lemmas.

(** ** Lemmas on loops *)

Section loop_lemmas.
Context {S R : Type}.

Lemma for_from_post (I : Z -> S -> Prop) E n i (body : Z -> S -> res S) s :
  I i s ->
  (forall j s, i <= j < i + Z.of_nat n -> I j s -> post (I (j + 1)) E (body j s)) ->
  post (I (i + Z.of_nat n)) E (for_from n i body s).
Proof.
  revert i s. induction n as [|n IH]; intros i s Hi Hb; cbn [for_from].
  - by rewrite Z.add_0_r.
  - eapply post_bind; [apply Hb; [lia|done]|].
    intros s' Hs'. replace (i + Z.of_nat (Datatypes.S n)) with (i + 1 + Z.of_nat n) by lia.
    apply IH; [done|]. intros j t Hj Ht. apply Hb; [lia|done].
Qed.

Lemma for_post (I : Z -> S -> Prop) E lo hi (body : Z -> S -> res S) s :
  lo <= hi ->
  I lo s ->
  (forall j s, lo <= j < hi -> I j s -> post (I (j + 1)) E (body j s)) ->
  post (I hi) E (for_ lo hi body s).
Proof.
  intros Hle Hi Hb. unfold for_.
  replace hi with (lo + Z.of_nat (Z.to_nat (hi - lo))) at 1 by lia.
  apply for_from_post; [done|]. intros j t Hj. apply Hb. lia.
Qed.

(** A loop with a decreasing measure ends within its fuel. *)
Lemma loop_post (I : S -> Prop) (Q : R -> Prop) E (mu : S -> nat) fuel body s :
  (mu s < fuel)%nat ->
  I s ->
  (forall s, I s ->
     post (fun r => match r with inl s' => I s' /\ (mu s' < mu s)%nat | inr x => Q x end)
          E (body s)) ->
  post Q E (loop fuel body s).
Proof.
  intros Hf Hi Hb. revert s Hf Hi. induction fuel as [|fuel IH]; intros s Hf Hi; [lia|].
  cbn [loop]. eapply post_bind; [by apply Hb|].
  intros [s'|x]; simpl; [|done]. intros [Hi' Hlt]. apply IH; [lia|done].
Qed.
End loop_lemmas.

(** ** Lemmas on arrays *)

Section array_lemmas.
Context {A : Type}.
Implicit Types l : list A.

Lemma zlen_nonneg l : 0 <= zlen l.
Proof. unfold zlen. lia. Qed.

Lemma zget_Some_range l i v : zget l i = Some v -> 0 <= i < zlen l.
Proof.
  unfold zget, zlen. intros Hv. zcases; [|done].
  apply lookup_lt_Some in Hv. lia.
Qed.

Lemma zget_in_range l i : 0 <= i < zlen l -> exists v, zget l i = Some v.
Proof.
  unfold zget, zlen. intros H. zcases.
  apply lookup_lt_is_Some_2. lia.
Qed.

Lemma zget_out_of_range l i : ~ (0 <= i < zlen l) -> zget l i = None.
Proof.
  unfold zget, zlen. intros H. zcases; [|done].
  apply lookup_ge_None_2. lia.
Qed.

Lemma zlen_zset l i v : zlen (zset l i v) = zlen l.
Proof. unfold zset, zlen. zcases; by rewrite ?length_insert. Qed.

Lemma zget_zset_eq l i v : 0 <= i < zlen l -> zget (zset l i v) i = Some v.
Proof.
  unfold zget, zset, zlen. intros H. zcases.
  apply list_lookup_insert_eq. lia.
Qed.

Lemma zget_zset_ne l i j v : i <> j -> zget (zset l i v) j = zget l j.
Proof.
  unfold zget, zset. intros H. zcases; try done.
  apply list_lookup_insert_ne. lia.
Qed.

Lemma zget_zset l i j v :
  0 <= i < zlen l -> zget (zset l i v) j = if i =? j then Some v else zget l j.
Proof.
  intros H. zcases; [subst; by apply zget_zset_eq | by apply zget_zset_ne].
Qed.

Lemma zlen_replicate n (v : A) : zlen (replicate n v) = Z.of_nat n.
Proof. unfold zlen. by rewrite length_replicate. Qed.

Lemma zget_replicate n (v : A) k : 0 <= k < Z.of_nat n -> zget (replicate n v) k = Some v.
Proof. intros. unfold zget. zcases. apply lookup_replicate_2. lia. Qed.

Lemma ld_ok l i v : zget l i = Some v -> ld l i = Ok v.
Proof. unfold ld. by intros ->. Qed.

Lemma ld_post (Q : A -> Prop) E l i :
  0 <= i < zlen l -> (forall v, zget l i = Some v -> Q v) -> post Q E (ld l i).
Proof.
  intros H HQ. destruct (zget_in_range l i H) as [v Hv].
  rewrite (ld_ok _ _ _ Hv). simpl. eauto.
Qed.

Lemma st_ok l i v : 0 <= i < zlen l -> st l i v = Ok (zset l i v).
Proof. unfold st. intros H. zcases. done. Qed.

Lemma zget_ext l l' : zlen l = zlen l' -> (forall i, 0 <= i < zlen l -> zget l i = zget l' i) -> l = l'.
Proof.
  intros Hlen H. apply list_eq. intros i.
  destruct (decide (i < length l)%nat) as [Hi|Hi].
  - specialize (H (Z.of_nat i)). unfold zget, zlen in *.
    destruct (Z.leb_spec 0 (Z.of_nat i)); [|lia].
    rewrite Nat2Z.id in H. apply H. lia.
  - unfold zlen in *. rewrite !lookup_ge_None_2; [done|lia|lia].
Qed.

Lemma Forall_zset (P : A -> Prop) l i v : Forall P l -> P v -> Forall P (zset l i v).
Proof. intros. unfold zset. zcases; auto. apply Forall_insert; auto. Qed.

Lemma Forall_zget (P : A -> Prop) l i v : Forall P l -> zget l i = Some v -> P v.
Proof. unfold zget. intros Hl Hv. zcases; [|done]. eapply Forall_lookup_1; eauto. Qed.
End array_lemmas.


(** ** Lemmas on lists of integers *)

Lemma take_zget (l : list Z) i v :
  0 <= i -> zget l i = Some v -> take (Z.to_nat (i + 1)) l = take (Z.to_nat i) l ++ [v].
Proof.
  unfold zget. intros Hi Hv. zcases. replace (Z.to_nat (i + 1)) with (S (Z.to_nat i)) by lia.
  by apply take_S_r.
Qed.

(** Storing at the fill pointer of a zero-filled array. *)
Lemma st_append (P : list Z) n i v :
  i = zlen P -> i < n -> st (P ++ replicate (Z.to_nat n - length P) 0) i v =
    Ok ((P ++ [v]) ++ replicate (Z.to_nat n - length (P ++ [v])) 0).
Proof.
  intros -> Hn. pose proof (zlen_nonneg P). rewrite st_ok.
  2:{ unfold zlen in *. rewrite length_app, length_replicate. lia. }
  f_equal. unfold zset, zlen in *. zcases. rewrite Nat2Z.id.
  rewrite insert_app_r_alt by lia. rewrite Nat.sub_diag.
  replace (Z.to_nat n - length P)%nat with (S (Z.to_nat n - length (P ++ [v]))).
  2:{ rewrite length_app. simpl. lia. }
  cbn [replicate]. by rewrite <- app_assoc.
Qed.

Lemma zlen_app {A} (l l' : list A) : zlen (l ++ l') = zlen l + zlen l'.
Proof. unfold zlen. rewrite length_app. lia. Qed.

Lemma zget_app_r {A} (l l' : list A) i : zlen l <= i -> zget (l ++ l') i = zget l' (i - zlen l).
Proof.
  intros H. unfold zget, zlen in *. destruct (Z.leb_spec 0 i); [|lia].
  destruct (Z.leb_spec 0 (i - Z.of_nat (length l))); [|lia].
  rewrite lookup_app_r by lia. f_equal. lia.
Qed.

Lemma zget_app_l (l l' : list Z) i : i < zlen l -> zget (l ++ l') i = zget l i.
Proof. unfold zget, zlen. intros. zcases; [|done]. apply lookup_app_l. lia. Qed.

Lemma zget_take (l : list Z) n i : i < n -> zget (take (Z.to_nat n) l) i = zget l i.
Proof. unfold zget. intros. zcases; [|done]. apply lookup_take_lt. lia. Qed.

Lemma zget_drop (l : list Z) n i : 0 <= n -> 0 <= i -> zget (drop (Z.to_nat n) l) i = zget l (n + i).
Proof.
  unfold zget. intros. zcases. rewrite lookup_drop. f_equal. lia.
Qed.

Lemma take_eq_zget (l l' : list Z) n :
  0 <= n <= zlen l -> n <= zlen l' -> (forall i, 0 <= i < n -> zget l i = zget l' i) ->
  take (Z.to_nat n) l = take (Z.to_nat n) l'.
Proof.
  intros Hn Hn' H. apply zget_ext.
  - unfold zlen in *. rewrite !length_take. lia.
  - intros i Hi. unfold zlen in *. rewrite length_take in Hi. rewrite !zget_take by lia. apply H. lia.
Qed.

Lemma zlen_snoc (l : list Z) x : zlen (l ++ [x]) = zlen l + 1.
Proof. unfold zlen. rewrite length_app. simpl. lia. Qed.

Lemma seqZ_succ n : 0 <= n -> seqZ 0 (Z.succ n) = seqZ 0 n ++ [n].
Proof. intros. rewrite <- Z.add_1_r, seqZ_app by lia. done. Qed.

(** ** Counting *)

Section counting.
Context {A : Type}.

Definition countb (f : A -> bool) (l : list A) : Z := zlen (List.filter f l).

Lemma countb_nil f : countb f [] = 0.
Proof. done. Qed.

Lemma countb_cons f x l : countb f (x :: l) = (if f x then 1 else 0) + countb f l.
Proof. unfold countb, zlen. simpl. destruct (f x); simpl; lia. Qed.

Lemma countb_app f l l' : countb f (l ++ l') = countb f l + countb f l'.
Proof. unfold countb, zlen. rewrite List.filter_app, length_app. lia. Qed.

Lemma countb_ext f g l : (forall x, x ∈ l -> f x = g x) -> countb f l = countb g l.
Proof.
  induction l as [|x l IH]; intros H; [done|].
  rewrite !countb_cons, (H x), IH; [done| |]; set_solver.
Qed.

Lemma countb_bounds f l : 0 <= countb f l <= zlen l.
Proof.
  induction l as [|x l IH]; [done|].
  rewrite countb_cons. unfold zlen in *. simpl. destruct (f x); lia.
Qed.

Lemma countb_negb f l : countb f l + countb (fun x => negb (f x)) l = zlen l.
Proof.
  induction l as [|x l IH]; [done|].
  rewrite !countb_cons. unfold zlen in *. simpl. destruct (f x); simpl; lia.
Qed.

Lemma countb_all f l : (forall x, x ∈ l -> f x = true) -> countb f l = zlen l.
Proof.
  induction l as [|x l IH]; intros H; [done|].
  rewrite countb_cons, (H x), IH by set_solver. unfold zlen. simpl. lia.
Qed.

(** Flipping one element of a duplicate-free list moves the count by one. *)
Lemma countb_flip f g x l :
  NoDup l -> x ∈ l -> f x = false -> g x = true -> (forall y, y <> x -> f y = g y) ->
  countb g l = countb f l + 1.
Proof.
  intros Hnd Hx Hf Hg Hne. induction l as [|y l IH]; [set_solver|].
  apply list.NoDup_cons in Hnd as [Hy Hnd]. rewrite !countb_cons.
  apply elem_of_cons in Hx as [<-|Hx].
  - rewrite Hf, Hg. rewrite (countb_ext f g l); [lia|].
    intros z Hz. apply Hne. set_solver.
  - rewrite IH by done. rewrite (Hne y) by set_solver. lia.
Qed.
End counting.

(** ** Bits of machine integers *)

Lemma u8_testbit z k : 0 <= k < 8 -> Z.testbit (u8 z) k = Z.testbit z k.
Proof. intros. unfold u8. change 256 with (2 ^ 8). apply Z.mod_pow2_bits_low. lia. Qed.

Lemma u8_range z : is_byte (u8 z).
Proof. cint_lia. Qed.

Lemma u64_small z : 0 <= z < 18446744073709551616 -> u64 z = z.
Proof. intros. unfold u64. by apply Z.mod_small. Qed.

Lemma u32_small z : 0 <= z < 4294967296 -> u32 z = z.
Proof. intros. unfold u32. by apply Z.mod_small. Qed.

Lemma truthy_bit b k : 0 <= k -> truthy (Z.land (Z.shiftr b k) 1) = Z.testbit b k.
Proof.
  intros Hk. unfold truthy.
  assert (Z.land (Z.shiftr b k) 1 = Z.b2z (Z.testbit b k)) as ->.
  { change 1 with (Z.ones 1). rewrite Z.land_ones by lia. change (2 ^ 1) with 2.
    rewrite <- Z.bit0_mod, Z.shiftr_spec by lia. done. }
  by destruct (Z.testbit b k).
Qed.

(** Masking with [~(2^k - 1)] in width [w] rounds down to a multiple of [2^k]. *)
Lemma land_align w k x :
  0 <= k <= w -> 0 <= x < 2 ^ w -> Z.land x (2 ^ w - 2 ^ k) = x - x mod 2 ^ k.
Proof.
  intros Hk Hx.
  replace (2 ^ w - 2 ^ k) with (Z.shiftl (Z.ones (w - k)) k).
  2:{ rewrite Z.shiftl_mul_pow2, Z.ones_equiv by lia.
      replace w with ((w - k) + k) at 2 by lia. rewrite Z.pow_add_r by lia. lia. }
  replace (x - x mod 2 ^ k) with (Z.shiftl (Z.shiftr x k) k).
  2:{ rewrite Z.shiftl_mul_pow2, Z.shiftr_div_pow2 by lia.
      pose proof (Z.pow_pos_nonneg 2 k). pose proof (Z.div_mod x (2 ^ k)). lia. }
  apply Z.bits_inj'. intros i Hi. rewrite Z.land_spec, !Z.shiftl_spec by lia.
  destruct (Z_lt_le_dec i k); [by rewrite !(Z.testbit_neg_r _ (i - k)), andb_false_r by lia|].
  rewrite Z.shiftr_spec by lia. replace (i - k + k) with i by lia.
  destruct (Z_lt_le_dec i w).
  - rewrite Z.ones_spec_low by lia. by rewrite andb_true_r.
  - rewrite Z.ones_spec_high by lia. rewrite andb_false_r.
    rewrite <- (Z.mod_small x (2 ^ w)) by lia. symmetry. apply Z.mod_pow2_bits_high; lia.
Qed.

(** A field placed above the bits already there. *)
Lemma lor_shift_add a b k : 0 <= k -> 0 <= a < 2 ^ k -> 0 <= b -> Z.lor a (Z.shiftl b k) = a + 2 ^ k * b.
Proof.
  intros Hk Ha Hb. rewrite Z.shiftl_mul_pow2, Z.mul_comm by lia.
  rewrite <- Z.lxor_lor, <- Z.add_nocarry_lxor; [done| |];
    apply Z.bits_inj'; intros i Hi; rewrite Z.land_spec, Z.bits_0, (Z.mul_comm _ b);
    (destruct (Z_lt_le_dec i k);
     [by rewrite Z.mul_pow2_bits_low, andb_false_r by lia
     |rewrite <- (Z.mod_small a (2 ^ k)), Z.mod_pow2_bits_high by lia; done]).
Qed.

Lemma mask_bits lo hi k : 0 <= lo <= hi -> 0 <= k -> Z.testbit (2 ^ hi - 2 ^ lo) k = (lo <=? k) && (k <? hi).
Proof.
  intros Hlh Hk. replace (2 ^ hi - 2 ^ lo) with (Z.shiftl (Z.ones (hi - lo)) lo).
  2:{ rewrite Z.shiftl_mul_pow2, Z.ones_equiv by lia.
      replace hi with ((hi - lo) + lo) at 2 by lia. rewrite Z.pow_add_r by lia. lia. }
  rewrite Z.shiftl_spec by lia. destruct (Z.leb_spec lo k); simpl.
  - rewrite Z.testbit_ones by lia. destruct (Z.leb_spec 0 (k - lo)); [|lia].
    destruct (Z.ltb_spec (k - lo) (hi - lo)), (Z.ltb_spec k hi); lia || done.
  - by apply Z.testbit_neg_r; lia.
Qed.

Lemma ones_bits n k : 0 <= n -> 0 <= k -> Z.testbit (2 ^ n - 1) k = (k <? n).
Proof. intros. change 1 with (2 ^ 0). rewrite mask_bits by lia. destruct (Z.leb_spec 0 k); [done|lia]. Qed.

Lemma pow2_bits n k : 0 <= n -> Z.testbit (2 ^ n) k = (k =? n).
Proof. intros. rewrite Z.pow2_bits_eqb by lia. apply Z.eqb_sym. Qed.

Lemma truthy_land_pow2 e k : 0 <= k -> truthy (Z.land e (2 ^ k)) = Z.testbit e k.
Proof.
  intros Hk. unfold truthy. destruct (Z.testbit e k) eqn:E.
  - destruct (Z.eqb_spec (Z.land e (2 ^ k)) 0) as [H0|]; [|done].
    assert (Z.testbit (Z.land e (2 ^ k)) k = true) as Hb.
    { rewrite Z.land_spec, pow2_bits, E, Z.eqb_refl by lia. done. }
    rewrite H0, Z.bits_0 in Hb. done.
  - assert (Z.land e (2 ^ k) = 0) as ->; [|done].
    apply Z.bits_inj'. intros i Hi. rewrite Z.land_spec, pow2_bits, Z.bits_0 by lia.
    destruct (Z.eqb_spec i k) as [->|]; [by rewrite E|apply andb_false_r].
Qed.

Lemma aligned_bits p n k : 0 <= n -> p mod 2 ^ n = 0 -> 0 <= k < n -> Z.testbit p k = false.
Proof.
  intros Hn Hp Hk. rewrite <- (Z.mod_pow2_bits_low p n k) by lia. rewrite Hp. apply Z.bits_0.
Qed.

Lemma small_bits p n k : 0 <= p < 2 ^ n -> 0 <= n <= k -> Z.testbit p k = false.
Proof. intros Hp Hn. rewrite <- (Z.mod_small p (2 ^ n)) by lia. apply Z.mod_pow2_bits_high. lia. Qed.

(** The bits of a sum of a multiple of [2 ^ n] and a number below it. *)
Lemma add_aligned_bits a b n i :
  0 <= n -> a mod 2 ^ n = 0 -> 0 <= b < 2 ^ n -> 0 <= i ->
  Z.testbit (a + b) i = if i <? n then Z.testbit b i else Z.testbit a i.
Proof.
  intros Hn Ha Hb Hi. destruct (Z.ltb_spec i n).
  - rewrite <- (Z.mod_pow2_bits_low (a + b) n) by lia. rewrite Zplus_mod, Ha, Z.add_0_l, Z.mod_mod by lia.
    by rewrite (Z.mod_small b) by lia.
  - rewrite <- (Z.sub_add n i), <- !(Z.div_pow2_bits _ n (i - n)) by lia. f_equal.
    apply Z.div_exact in Ha; [|lia]. rewrite Ha at 1.
    rewrite Z.mul_comm, Z.div_add_l, (Z.div_small b) by lia. lia.
Qed.

(** ** Little-endian words in byte buffers *)

Fixpoint le_bytes (n : nat) (buf : list Z) (off : Z) : res Z :=
  match n with
  | O => Ok 0
  | S n' => b ← ld buf off; r ← le_bytes n' buf (off + 1); Ok (b + 256 * r)
  end.

Definition ld16 (buf : list Z) (off : Z) : res Z := le_bytes 2 buf off.
Definition ld32 (buf : list Z) (off : Z) : res Z := le_bytes 4 buf off.
Definition ld64 (buf : list Z) (off : Z) : res Z := le_bytes 8 buf off.

Lemma le_bytes_total n buf off :
  Forall is_byte buf -> 0 <= off -> off + Z.of_nat n <= zlen buf ->
  total (fun v => 0 <= v < 256 ^ Z.of_nat n) (le_bytes n buf off).
Proof.
  intros Hb. revert off. induction n as [|n IH]; intros off Ho Hl; [done|].
  cbn [le_bytes]. apply total_bind with (Q := is_byte).
  { apply ld_post; [lia|]. intros v Hv. eapply Forall_zget; eauto. }
  intros b Hby. eapply total_bind; [apply IH; lia|]. intros r Hr.
  unfold is_byte in Hby. unfold total, post.
  replace (Z.of_nat (S n)) with (1 + Z.of_nat n) by lia.
  rewrite Z.pow_add_r by lia. change (256 ^ 1) with 256.
  revert Hr. generalize (256 ^ Z.of_nat n). lia.
Qed.

(** Bytes up to the first NUL. *)
Fixpoint c_string (l : list Z) : list Z :=
  match l with
  | [] => []
  | c :: l' => if c =? 0 then [] else c :: c_string l'
  end.

(** A field in memory, least significant byte first. *)
Definition le16 (v : Z) : list Z := [v mod 256; v / 256 mod 256].
Definition le32 (v : Z) : list Z := [v mod 256; v / 256 mod 256; v / 65536 mod 256; v / 16777216 mod 256].

(** The [n] bytes at [off] of an object. *)
Definition slice (l : list Z) (off n : Z) : res (list Z) :=
  if (0 <=? off) && (0 <=? n) && (off + n <=? zlen l) then Ok (take (Z.to_nat n) (drop (Z.to_nat off) l)) else Fault.

Lemma slice_ok l off k : 0 <= off -> 0 <= k -> off + k <= zlen l ->
  slice l off k = Ok (take (Z.to_nat k) (drop (Z.to_nat off) l)) /\ zlen (take (Z.to_nat k) (drop (Z.to_nat off) l)) = k.
Proof.
  intros Ho Hk Hl. unfold slice. rewrite !(proj2 (Z.leb_le _ _)) by lia. split; [done|]. unfold zlen in *.
  rewrite length_take, length_drop. lia.
Qed.

Lemma slice_total l off k : 0 <= off -> 0 <= k -> off + k <= zlen l -> total (fun d => zlen d = k) (slice l off k).
Proof. intros Ho Hk Hl. destruct (slice_ok l off k Ho Hk Hl) as [-> H]. exact H. Qed.

Lemma zlen_le16 v : zlen (le16 v) = 2.
Proof. done. Qed.

Lemma zlen_le32 v : zlen (le32 v) = 4.
Proof. done. Qed.

Lemma le_bytes_loads k buf off : 0 <= off -> off + Z.of_nat k <= zlen buf -> total (fun _ => True) (le_bytes k buf off).
Proof.
  revert off. induction k as [|k IH]; intros off Ho Hl; [done|]. cbn [le_bytes]. apply total_bind with (Q := fun _ => True).
  - apply ld_post; [lia|done].
  - intros b _. apply total_bind with (Q := fun _ => True); [apply IH; lia|done].
Qed.

Lemma ld16_total buf off : 0 <= off -> off + 2 <= zlen buf -> total (fun _ => True) (ld16 buf off).
Proof. intros. apply le_bytes_loads; cbn; lia. Qed.

Lemma ld32_total buf off : 0 <= off -> off + 4 <= zlen buf -> total (fun _ => True) (ld32 buf off).
Proof. intros. apply le_bytes_loads; cbn; lia. Qed.

Lemma ld_total (buf : list Z) off : 0 <= off < zlen buf -> total (fun _ => True) (ld buf off).
Proof. intros. by apply ld_post. Qed.

Lemma ld_at {A} (P : list A) x S : ld (P ++ x :: S) (zlen P) = Ok x.
Proof. unfold ld. rewrite zget_app_r, Z.sub_diag by lia. done. Qed.

Lemma ld16_at P w S : 0 <= w < 65536 -> ld16 (P ++ le16 w ++ S) (zlen P) = Ok w.
Proof.
  intros Hw. unfold ld16, le16. cbn [le_bytes app]. rewrite ld_at. cbn.
  pose proof (ld_at (P ++ [w mod 256]) (w / 256 mod 256) S) as E. rewrite <- app_assoc, zlen_snoc in E. cbn in E. rewrite E. cbn.
  f_equal. mlia.
Qed.

Lemma ld32_at P w S : 0 <= w < 2 ^ 32 -> ld32 (P ++ le32 w ++ S) (zlen P) = Ok w.
Proof.
  intros Hw. unfold ld32, le32. set (a := w mod 256). set (b := w / 256 mod 256). set (c := w / 65536 mod 256). set (d := w / 16777216 mod 256).
  cbn [le_bytes app]. rewrite ld_at. cbn.
  pose proof (ld_at (P ++ [a]) b (c :: d :: S)) as E1. pose proof (ld_at (P ++ [a; b]) c (d :: S)) as E2.
  pose proof (ld_at (P ++ [a; b; c]) d S) as E3. rewrite <- app_assoc, zlen_app in E1, E2, E3. cbn [app] in E1, E2, E3.
  change (zlen [a]) with 1 in E1. change (zlen [a; b]) with 2 in E2. change (zlen [a; b; c]) with 3 in E3.
  rewrite E1. cbn. replace (zlen P + 1 + 1) with (zlen P + 2) by lia. rewrite E2. cbn.
  replace (zlen P + 2 + 1) with (zlen P + 3) by lia. rewrite E3. cbn. f_equal. subst a b c d. mlia.
Qed.

Lemma slice_at P D S : slice (P ++ D ++ S) (zlen P) (zlen D) = Ok D.
Proof.
  pose proof (zlen_nonneg P). pose proof (zlen_nonneg D). pose proof (zlen_nonneg S).
  destruct (slice_ok (P ++ D ++ S) (zlen P) (zlen D)) as [-> _]; [lia|lia|rewrite !zlen_app; lia|].
  f_equal. unfold zlen. rewrite !Nat2Z.id, drop_app_length, take_app_length. done.
Qed.

Lemma bytes_le16 v : Forall is_byte (le16 v).
Proof. repeat constructor; unfold is_byte; mlia. Qed.

Lemma bytes_le32 v : Forall is_byte (le32 v).
Proof. repeat constructor; unfold is_byte; mlia. Qed.

(** A copy of the bytes [b] over an object from [off] on. *)
Definition splice (l : list Z) (off : Z) (b : list Z) : res (list Z) :=
  if (0 <=? off) && (off + zlen b <=? zlen l)
  then Ok (take (Z.to_nat off) l ++ b ++ drop (Z.to_nat (off + zlen b)) l) else Fault.

Lemma splice_ok l off b : 0 <= off -> off + zlen b <= zlen l ->
  exists l', splice l off b = Ok l' /\ zlen l' = zlen l /\
    (forall i, 0 <= i < zlen b -> zget l' (off + i) = zget b i) /\
    (forall i, i < off \/ off + zlen b <= i -> zget l' i = zget l i).
Proof.
  intros Ho Hl. unfold splice. rewrite !(proj2 (Z.leb_le _ _)) by lia. eexists. split; [done|].
  assert (zlen (take (Z.to_nat off) l) = off) as Ht by (unfold zlen in *; rewrite length_take; lia).
  pose proof (zlen_nonneg b). split_and!.
  - rewrite !zlen_app, Ht. unfold zlen in *. rewrite length_drop. lia.
  - intros i Hi. rewrite zget_app_r by lia. rewrite zget_app_l by lia. f_equal. lia.
  - intros i [Hi|Hi].
    + rewrite zget_app_l by lia. by apply zget_take.
    + rewrite zget_app_r, zget_app_r by lia. rewrite zget_drop by lia. f_equal. lia.
Qed.

Lemma le_bytes_ext n l l' off off' :
  (forall i, 0 <= i < Z.of_nat n -> zget l (off + i) = zget l' (off' + i)) -> le_bytes n l off = le_bytes n l' off'.
Proof.
  revert off off'. induction n as [|n IH]; intros off off' H; [done|]. cbn [le_bytes].
  pose proof (H 0 ltac:(lia)) as H0. rewrite !Z.add_0_r in H0. unfold ld at 1 2. rewrite H0.
  destruct (zget l' off'); [|done]. cbn. erewrite IH; [done|]. intros i Hi.
  specialize (H (i + 1) ltac:(lia)). by rewrite !(Z.add_comm i), !Z.add_assoc in H.
Qed.

#[export] Hint Rewrite @zlen_zset : kil.
