(* ===== verification/BitLists.v ===== *)
(** * BitLists: numbers as lists of bits

    The reference definitions of the digest, of the CRC and of the compressed
    formats work on lists of bits, least significant bit first. This file has
    the value of such a list, the bit string of a byte string and the sum of
    two bit strings. *)

From S2P Require Import Prelude.

(** The number with these bits, least significant first. *)
Fixpoint bits_z (l : list bool) : Z :=
  match l with
  | [] => 0
  | b :: l' => Z.b2z b + 2 * bits_z l'
  end.

Definition byte_bits (b : Z) : list bool := Z.testbit b <$> seqZ 0 8.

(** The bits of a byte string: the bytes in order, each one least significant
    bit first. *)
Definition stream_of (l : list Z) : list bool := l ≫= byte_bits.

(** Sum modulo two; the shorter list is continued with zeros. *)
Fixpoint xorl (a b : list bool) : list bool :=
  match a, b with
  | [], _ => b
  | _, [] => a
  | x :: a', y :: b' => xorb x y :: xorl a' b'
  end.

(** ** Values and bits *)

Lemma bits_z_range l : 0 <= bits_z l < 2 ^ Z.of_nat (length l).
Proof.
  induction l as [|b l IH]; [cbn; lia|]. cbn [bits_z length]. rewrite Nat2Z.inj_succ, Z.pow_succ_r by lia.
  destruct b; cbn [Z.b2z]; lia.
Qed.

Lemma testbit_bits_z l i : 0 <= i -> Z.testbit (bits_z l) i = default false (l !! Z.to_nat i).
Proof.
  revert i. induction l as [|b l IH]; intros i Hi; cbn [bits_z]; [by rewrite Z.bits_0|].
  rewrite Z.add_comm. destruct (Z.eq_dec i 0) as [->|].
  - rewrite Z.testbit_0_r. done.
  - replace i with (Z.succ (i - 1)) at 1 by lia. rewrite Z.testbit_succ_r, IH by lia.
    by replace (Z.to_nat i) with (S (Z.to_nat (i - 1))) by lia.
Qed.

Lemma bits_z_inj a b : length a = length b -> bits_z a = bits_z b -> a = b.
Proof.
  revert b. induction a as [|x a IH]; intros [|y b] Hl He; try done. cbn [bits_z] in He. cbn in Hl.
  assert (Z.b2z x = Z.b2z y /\ bits_z a = bits_z b) as [Hx Ha] by (destruct x, y; cbn [Z.b2z] in *; lia).
  f_equal; [by destruct x, y|]. apply IH; [lia|done].
Qed.

Lemma bits_z_app a b : bits_z (a ++ b) = bits_z a + 2 ^ Z.of_nat (length a) * bits_z b.
Proof.
  induction a as [|x a IH]; cbn [bits_z app length]; [cbn; lia|]. rewrite IH, Nat2Z.inj_succ, Z.pow_succ_r by lia. lia.
Qed.

(** A number is what its first bits spell, as long as it fits. *)
Lemma bits_z_testbit n x : 0 <= n -> 0 <= x < 2 ^ n -> bits_z (Z.testbit x <$> seqZ 0 n) = x.
Proof.
  intros Hn Hx. apply Z.bits_inj'. intros i Hi. rewrite testbit_bits_z, list_lookup_fmap by done.
  destruct (Z_lt_le_dec i n).
  - rewrite lookup_seqZ_lt by lia. cbn. f_equal. lia.
  - rewrite lookup_seqZ_ge by lia. cbn. symmetry. by apply (small_bits x n).
Qed.

Lemma bits_z_byte b : is_byte b -> bits_z (byte_bits b) = b.
Proof. intros Hb. apply bits_z_testbit; [lia|]. unfold is_byte in Hb. lia. Qed.

Lemma length_byte_bits b : length (byte_bits b) = 8%nat.
Proof. done. Qed.

Lemma length_stream l : length (stream_of l) = (8 * length l)%nat.
Proof. induction l as [|b l IH]; [done|]. unfold stream_of in *. cbn [mbind list_bind]. rewrite length_app, IH, length_byte_bits. cbn. lia. Qed.

Lemma stream_app a b : stream_of (a ++ b) = stream_of a ++ stream_of b.
Proof. apply bind_app. Qed.

(** ** Sums *)

Lemma lookup_xorl a b i : default false (xorl a b !! i) = xorb (default false (a !! i)) (default false (b !! i)).
Proof.
  revert b i. induction a as [|x a IH]; intros [|y b] [|i]; cbn; rewrite ?xorb_false_r; try done; apply IH.
Qed.

Lemma xorl_bits a b : bits_z (xorl a b) = Z.lxor (bits_z a) (bits_z b).
Proof.
  apply Z.bits_inj'. intros i Hi. rewrite Z.lxor_spec, !testbit_bits_z by done. apply lookup_xorl.
Qed.

Lemma length_xorl a b : length (xorl a b) = (length a `max` length b)%nat.
Proof. revert b. induction a as [|x a IH]; intros [|y b]; cbn; [done..|]. by rewrite IH. Qed.

Lemma xorl_assoc a b c : xorl a (xorl b c) = xorl (xorl a b) c.
Proof.
  revert b c. induction a as [|x a IH]; intros [|y b] [|z c]; cbn; try done. by rewrite IH, xorb_assoc.
Qed.

Lemma xorl_comm a b : xorl a b = xorl b a.
Proof. revert b. induction a as [|x a IH]; intros [|y b]; cbn; try done. by rewrite IH, xorb_comm. Qed.

Lemma xorl_nil_r a : xorl a [] = a.
Proof. by destruct a. Qed.

Lemma xorl_zeros a n : (n <= length a)%nat -> xorl a (replicate n false) = a.
Proof.
  revert a. induction n as [|n IH]; intros [|x a] Hn; cbn in *; try done; [lia|]. rewrite IH, xorb_false_r by lia. done.
Qed.
