(* ===== verification/Pmm.v ===== *)
(** * Pmm: the physical page allocator of src/src/kernel/mm/memory.c

    The bitmap, the incremental used-page counter, the next-fit hint and the
    usable-range table are the fields of [pmm]; every function of the PMM part
    of memory.c is one definition. The boot data [pmm_init] reads (the
    multiboot2 body, the EFI memory map, the framebuffer range and the linker
    symbols) are its arguments. *)

From S2P Require Import Prelude.

Definition PAGE_SIZE : Z := 4096.
Definition PMM_MAX_PAGES : Z := 1048576.
Definition PMM_USABLE_MAX : Z := 32.

Record pmm : Type := mk_pmm {
  pmm_bitmap : list Z;            (* PMM_MAX_PAGES / 8 bytes *)
  pmm_last_page : Z;              (* next-fit hint *)
  pmm_used_pages : Z;             (* number of set bits, kept incrementally *)
  pmm_ram_top : Z;
  pmm_usable : list (Z * Z);      (* (base, len), at most PMM_USABLE_MAX *)
}.

Definition with_bitmap (st : pmm) (bm : list Z) (used : Z) : pmm :=
  mk_pmm bm (pmm_last_page st) used (pmm_ram_top st) (pmm_usable st).
Definition with_last (st : pmm) (p : Z) : pmm :=
  mk_pmm (pmm_bitmap st) p (pmm_used_pages st) (pmm_ram_top st) (pmm_usable st).
Definition with_ram_top (st : pmm) (t : Z) : pmm :=
  mk_pmm (pmm_bitmap st) (pmm_last_page st) (pmm_used_pages st) t (pmm_usable st).
Definition with_usable (st : pmm) (u : list (Z * Z)) : pmm :=
  mk_pmm (pmm_bitmap st) (pmm_last_page st) (pmm_used_pages st) (pmm_ram_top st) u.

(** The static initialisers: a zeroed bitmap with the counter already at its
    all-set value, consistent only once [pmm_init] has filled the bitmap. *)
Definition pmm_boot : pmm :=
  mk_pmm (replicate (Z.to_nat (PMM_MAX_PAGES / 8)) 0) 0 PMM_MAX_PAGES 0 [].

(** ** Bitmap primitives *)

Definition bm_byte (bm : list Z) (i : Z) : Z := default 0 (zget bm i).

(** [(pmm_bitmap[page / 8] >> (page % 8)) & 1] *)
Definition bm_bit (bm : list Z) (page : Z) : Z :=
  Z.land (Z.shiftr (bm_byte bm (page / 8)) (page mod 8)) 1.

Definition bitmap_set (st : pmm) (page : Z) : pmm :=
  if page <? PMM_MAX_PAGES then
    if negb (truthy (bm_bit (pmm_bitmap st) page)) then
      with_bitmap st
        (zset (pmm_bitmap st) (page / 8)
           (u8 (Z.lor (bm_byte (pmm_bitmap st) (page / 8)) (Z.shiftl 1 (page mod 8)))))
        (u64 (pmm_used_pages st + 1))
    else st
  else st.

Definition bitmap_clear (st : pmm) (page : Z) : pmm :=
  if page <? PMM_MAX_PAGES then
    if truthy (bm_bit (pmm_bitmap st) page) then
      with_bitmap st
        (zset (pmm_bitmap st) (page / 8)
           (u8 (Z.land (bm_byte (pmm_bitmap st) (page / 8))
                  (Z.lnot (Z.shiftl 1 (page mod 8))))))
        (u64 (pmm_used_pages st - 1))
    else st
  else st.

Definition bitmap_test (st : pmm) (page : Z) : bool :=
  if PMM_MAX_PAGES <=? page then true else truthy (bm_bit (pmm_bitmap st) page).

(** ** Regions *)

(** Apply [f] to the pages [p, p+1, ...], [n] of them. *)
Fixpoint pages_iter (n : nat) (p : Z) (f : pmm -> Z -> pmm) (st : pmm) : pmm :=
  match n with
  | O => st
  | S n' => pages_iter n' (p + 1) f (f st p)
  end.

Definition pmm_mark_region (st : pmm) (base length : Z) (used : bool) : pmm :=
  let start_page := base / PAGE_SIZE in
  let end_page := u64 (base + length + PAGE_SIZE - 1) / PAGE_SIZE in
  let end_page := if PMM_MAX_PAGES <? end_page then PMM_MAX_PAGES else end_page in
  pages_iter (Z.to_nat (end_page - start_page)) start_page
    (if used then bitmap_set else bitmap_clear) st.

Definition cap4g : Z := PMM_MAX_PAGES * PAGE_SIZE.

Definition pmm_note_usable (st : pmm) (base len : Z) : pmm :=
  let len := if cap4g <? u64 (base + len) then u64 (cap4g - base) else len in
  if (cap4g <=? base) || (len =? 0) then st
  else if Z.of_nat (length (pmm_usable st)) <? PMM_USABLE_MAX then
    with_usable st (pmm_usable st ++ [(base, len)])
  else
    match zget (pmm_usable st) (PMM_USABLE_MAX - 1) with
    | Some (b, l) =>
        with_usable st (zset (pmm_usable st) (PMM_USABLE_MAX - 1) (b, u64 (l + len)))
    | None => st
    end.

(** ** Allocation *)

(** First clear bit among [n] pages from [p] on. *)
Fixpoint scan_free (n : nat) (p : Z) (st : pmm) : option Z :=
  match n with
  | O => None
  | S n' => if negb (bitmap_test st p) then Some p else scan_free n' (p + 1) st
  end.

Definition take_page (st : pmm) (p : Z) : Z * pmm :=
  (u64 (p * PAGE_SIZE), with_last (bitmap_set st p) (p + 1)).

Definition pmm_alloc_page (st : pmm) : Z * pmm :=
  match scan_free (Z.to_nat (PMM_MAX_PAGES - pmm_last_page st)) (pmm_last_page st) st with
  | Some p => take_page st p
  | None =>
      match scan_free (Z.to_nat (pmm_last_page st)) 0 st with
      | Some p => take_page st p
      | None => (0, st)
      end
  end.

(** The inner loop of [pmm_alloc_pages]: start of the first run of [count]
    clear bits among [n] pages from [p] on, given the run being counted. *)
Fixpoint scan_run (n : nat) (p consecutive start count : Z) (st : pmm) : option Z :=
  match n with
  | O => None
  | S n' =>
      if negb (bitmap_test st p) then
        let start := if consecutive =? 0 then p else start in
        let consecutive := consecutive + 1 in
        if count <=? consecutive then Some start
        else scan_run n' (p + 1) consecutive start count st
      else scan_run n' (p + 1) 0 start count st
  end.

Definition scan_segment (base count : Z) (st : pmm) : option Z :=
  if base <? PMM_MAX_PAGES
  then scan_run (Z.to_nat (PMM_MAX_PAGES - base)) base 0 0 count st
  else None.

Definition take_run (st : pmm) (start count : Z) : Z * pmm :=
  (u64 (start * PAGE_SIZE),
   with_last (pages_iter (Z.to_nat count) start bitmap_set st) (start + count)).

Definition pmm_alloc_pages (st : pmm) (count : Z) : Z * pmm :=
  if count =? 0 then (0, st)
  else if count =? 1 then pmm_alloc_page st
  else
    match scan_segment (pmm_last_page st) count st with
    | Some start => take_run st start count
    | None =>
        if pmm_last_page st =? 0 then (0, st)
        else
          match scan_segment 0 count st with
          | Some start => take_run st start count
          | None => (0, st)
          end
    end.

Definition pmm_free_page (st : pmm) (phys : Z) : pmm :=
  if phys =? 0 then st
  else
    let p := phys / PAGE_SIZE in
    if p <? PMM_MAX_PAGES then bitmap_clear st p else st.

Fixpoint free_pages_from (n : nat) (i : Z) (phys : Z) (st : pmm) : pmm :=
  match n with
  | O => st
  | S n' => free_pages_from n' (i + 1) phys (pmm_free_page st (u64 (phys + i * PAGE_SIZE)))
  end.

Definition pmm_free_pages (st : pmm) (phys count : Z) : pmm :=
  free_pages_from (Z.to_nat count) 0 phys st.

(** Total, used and free pages. *)
Definition pmm_get_stats (st : pmm) : Z * Z * Z :=
  let total := pmm_ram_top st / PAGE_SIZE in
  let total := if total =? 0 then PMM_MAX_PAGES else total in
  let above := u64 (PMM_MAX_PAGES - total) in
  let used := u64 (pmm_used_pages st - above) in
  let used := if total <? used then total else used in
  (total, used, u64 (total - used)).

(** ** Boot-time initialisation *)

Definition MB2_TAG_END : Z := 0.
Definition MB2_TAG_MMAP : Z := 6.

(** Common tail of the two memory-map parsers: one usable range below 4 GiB. *)
Definition pmm_add_usable (st : pmm) (base len : Z) : pmm :=
  let len := if cap4g <? u64 (base + len) then cap4g - base else len in
  let st := pmm_mark_region st base len false in
  let st := pmm_note_usable st base len in
  if pmm_ram_top st <? u64 (base + len) then with_ram_top st (u64 (base + len)) else st.

(** One entry of the multiboot2 memory map. *)
Definition mb2_entry (info : list Z) (tag entry_size : Z) (i : Z) (st : pmm) : res pmm :=
  let e := tag + 16 + u32 (i * entry_size) in
  base ← ld64 info e;
  len ← ld64 info (e + 8);
  mtype ← ld32 info (e + 16);
  if (mtype =? 1) && (base <? cap4g) then Ok (pmm_add_usable st base len) else Ok st.

(** The tag walk. The state is the tag offset, whether a memory map was seen
    and the allocator. *)
Definition mb2_step (info : list Z) (total_size : Z) (s : Z * bool * pmm)
  : res ((Z * bool * pmm) + (bool * pmm)) :=
  let '(tag, have, st) := s in
  if tag <? total_size then
    type ← ld32 info tag;
    if type =? MB2_TAG_END then Ok (inr (have, st))
    else
      size ← ld32 info (tag + 4);
      hs ← (if type =? MB2_TAG_MMAP then
              entry_size ← ld32 info (tag + 8);
              if entry_size =? 0 then Fault
              else
                let data_size := u32 (size - 16) in
                let num_entries := data_size / entry_size in
                st' ← for_ 0 num_entries (mb2_entry info tag entry_size) st;
                Ok (true, st')
            else Ok (have, st));
      let '(have', st') := (hs : bool * pmm) in
      let advance := Z.land (u32 (size + 7)) (4294967295 - 7) in
      if advance =? 0 then Ok (inr (have', st'))
      else Ok (inl (tag + advance, have', st'))
  else Ok (inr (have, st)).

Definition mb2_parse (info : list Z) (st : pmm) : res (bool * pmm) :=
  total_size ← ld32 info 0;
  loop (Z.to_nat total_size + 2) (mb2_step info total_size) (8, false, st).

(** The EFI memory map: descriptors of [dsz] bytes. *)
Definition efi_step (map : list Z) (size dsz : Z) (s : Z * pmm) : res ((Z * pmm) + pmm) :=
  let '(off, st) := s in
  if u32 (off + dsz) <=? size then
    etype ← ld32 map off;
    base ← ld64 map (off + 8);
    pages ← ld64 map (off + 24);
    let st' :=
      if (etype =? 7) && (base <? cap4g)
      then pmm_add_usable st base (u64 (pages * PAGE_SIZE)) else st in
    Ok (inl (u32 (off + dsz), st'))
  else Ok (inr st).

Definition efi_parse (map : list Z) (size dsz : Z) (st : pmm) : res pmm :=
  let dsz := if dsz <? 40 then 40 else dsz in
  loop (Z.to_nat size + 2) (efi_step map size dsz) (0, st).

Record boot_env : Type := mk_boot_env {
  mb_info : option (Z * list Z);        (* physical address and body of the boot info *)
  efi_map : option (list Z * Z * Z);    (* map, size, descriptor size *)
  kernel_start : Z;
  kernel_end : Z;
  bitmap_addr : Z;
  fb_base : Z;
  fb_size : Z;
}.

(** The reservations made once the memory map has been read. *)
Definition pmm_reserve (env : boot_env) (st : pmm) : res pmm :=
  let st := pmm_mark_region st (kernel_start env) (u64 (kernel_end env - kernel_start env)) true in
  let st := pmm_mark_region st (bitmap_addr env) (PMM_MAX_PAGES / 8) true in
  let st := pmm_mark_region st 0 2097152 true in
  st ← match mb_info env with
       | Some (addr, info) =>
           total_size ← ld32 info 0;
           Ok (pmm_mark_region st addr total_size true)
       | None => Ok st
       end;
  if negb (fb_base env =? 0) && negb (fb_size env =? 0)
  then Ok (pmm_mark_region st (fb_base env) (fb_size env) true)
  else Ok st.

Definition pmm_init (env : boot_env) (st : pmm) : res pmm :=
  let st := with_bitmap st (replicate (Z.to_nat (PMM_MAX_PAGES / 8)) 255) (pmm_used_pages st) in
  r ← match mb_info env with
      | Some (_, info) => mb2_parse info st
      | None => Ok (false, st)
      end;
  let '(have_mmap, st) := (r : bool * pmm) in
  st ← match efi_map env with
       | Some (map, size, dsz) => if have_mmap then Ok st else efi_parse map size dsz st
       | None => Ok st
       end;
  pmm_reserve env st.

(** ** What the bitmap means *)

Definition page_used (bm : list Z) (p : Z) : bool := Z.testbit (bm_byte bm (p / 8)) (p mod 8).

(** Number of set bits: the value [pmm_used_pages] tracks. *)
Definition used_count (bm : list Z) : Z := countb (page_used bm) (seqZ 0 PMM_MAX_PAGES).

Record pmm_wf (st : pmm) : Prop := {
  wf_len : zlen (pmm_bitmap st) = PMM_MAX_PAGES / 8;
  wf_count : pmm_used_pages st = used_count (pmm_bitmap st);
  wf_hint : 0 <= pmm_last_page st <= PMM_MAX_PAGES;
}.

(** Two states that agree on everything but the bitmap's view of some pages. *)
Definition same_pages_except (P : Z -> Prop) (st st' : pmm) : Prop :=
  forall q, 0 <= q -> ~ P q -> page_used (pmm_bitmap st') q = page_used (pmm_bitmap st) q.

#[local] Opaque PMM_MAX_PAGES.

Lemma max_pages_facts :
  0 < PMM_MAX_PAGES /\ PMM_MAX_PAGES mod 8 = 0 /\ PMM_MAX_PAGES * PAGE_SIZE = 4294967296.
Proof. done. Qed.

Ltac pmm_facts := pose proof max_pages_facts; unfold PAGE_SIZE in *.

Section bits.
Implicit Types bm : list Z.

Lemma bm_bit_used bm p : truthy (bm_bit bm p) = page_used bm p.
Proof. unfold bm_bit, page_used. apply truthy_bit. mlia. Qed.

Lemma page_used_zset bm p q v :
  zlen bm = PMM_MAX_PAGES / 8 -> 0 <= p < PMM_MAX_PAGES ->
  page_used (zset bm (p / 8) v) q =
  if p / 8 =? q / 8 then Z.testbit v (q mod 8) else page_used bm q.
Proof.
  intros Hlen Hp. pmm_facts. unfold page_used, bm_byte.
  rewrite zget_zset by (rewrite Hlen; mlia). by zcase.
Qed.

Lemma set_byte_bit b k j :
  0 <= k < 8 -> 0 <= j < 8 ->
  Z.testbit (u8 (Z.lor b (Z.shiftl 1 k))) j = (k =? j) || Z.testbit b j.
Proof.
  intros. rewrite u8_testbit, Z.lor_spec, Z.shiftl_spec by lia.
  rewrite orb_comm. f_equal. zcase.
  - subst. by rewrite Z.sub_diag.
  - destruct (Z_lt_le_dec (j - k) 0); [by rewrite Z.testbit_neg_r|].
    change 1 with (2 ^ 0). apply Z.pow2_bits_false. lia.
Qed.

Lemma clear_byte_bit b k j :
  0 <= k < 8 -> 0 <= j < 8 ->
  Z.testbit (u8 (Z.land b (Z.lnot (Z.shiftl 1 k)))) j = negb (k =? j) && Z.testbit b j.
Proof.
  intros. rewrite u8_testbit, Z.land_spec, Z.lnot_spec, Z.shiftl_spec by lia.
  rewrite andb_comm. f_equal. f_equal. zcase.
  - subst. by rewrite Z.sub_diag.
  - destruct (Z_lt_le_dec (j - k) 0); [by rewrite Z.testbit_neg_r|].
    change 1 with (2 ^ 0). apply Z.pow2_bits_false. lia.
Qed.

Lemma same_page p q : p / 8 = q / 8 -> (p mod 8 =? q mod 8) = (p =? q).
Proof. intros. repeat zcase; try done; exfalso; mlia. Qed.

Lemma used_count_bounds bm : 0 <= used_count bm <= PMM_MAX_PAGES.
Proof.
  pmm_facts. unfold used_count.
  pose proof (countb_bounds (page_used bm) (seqZ 0 PMM_MAX_PAGES)) as Hb.
  unfold zlen in Hb. rewrite length_seqZ in Hb. lia.
Qed.

Lemma used_count_flip bm bm' p :
  0 <= p < PMM_MAX_PAGES -> page_used bm p = false -> page_used bm' p = true ->
  (forall q, q <> p -> page_used bm q = page_used bm' q) ->
  used_count bm' = used_count bm + 1.
Proof.
  intros. apply countb_flip with p; [apply NoDup_seqZ|apply elem_of_seqZ; lia|done..].
Qed.
End bits.

(** ** Setting and clearing one page *)

Section set_clear.
Implicit Types st : pmm.

Lemma bitmap_set_used st p q :
  zlen (pmm_bitmap st) = PMM_MAX_PAGES / 8 -> 0 <= p < PMM_MAX_PAGES -> 0 <= q ->
  page_used (pmm_bitmap (bitmap_set st p)) q = (p =? q) || page_used (pmm_bitmap st) q.
Proof.
  intros Hlen Hp Hq. unfold bitmap_set. rewrite bm_bit_used.
  destruct (Z.ltb_spec p PMM_MAX_PAGES); [|lia].
  destruct (page_used (pmm_bitmap st) p) eqn:Hu; simpl.
  { zcase; [by subst|done]. }
  rewrite page_used_zset by done. zcase.
  - rewrite set_byte_bit by mlia. unfold page_used. rewrite e.
    by rewrite same_page.
  - zcase; [by subst|done].
Qed.

Lemma bitmap_clear_used st p q :
  zlen (pmm_bitmap st) = PMM_MAX_PAGES / 8 -> 0 <= p < PMM_MAX_PAGES -> 0 <= q ->
  page_used (pmm_bitmap (bitmap_clear st p)) q = negb (p =? q) && page_used (pmm_bitmap st) q.
Proof.
  intros Hlen Hp Hq. unfold bitmap_clear. rewrite bm_bit_used.
  destruct (Z.ltb_spec p PMM_MAX_PAGES); [|lia].
  destruct (page_used (pmm_bitmap st) p) eqn:Hu; simpl.
  2:{ zcase; [by subst|done]. }
  rewrite page_used_zset by done. zcase.
  - rewrite clear_byte_bit by mlia. unfold page_used. rewrite e.
    by rewrite same_page.
  - zcase; [by subst|done].
Qed.

Lemma bitmap_set_fields st p :
  pmm_last_page (bitmap_set st p) = pmm_last_page st /\
  pmm_ram_top (bitmap_set st p) = pmm_ram_top st /\
  pmm_usable (bitmap_set st p) = pmm_usable st /\
  zlen (pmm_bitmap (bitmap_set st p)) = zlen (pmm_bitmap st).
Proof. unfold bitmap_set. repeat case_match; simpl; by rewrite ?zlen_zset. Qed.

Lemma bitmap_clear_fields st p :
  pmm_last_page (bitmap_clear st p) = pmm_last_page st /\
  pmm_ram_top (bitmap_clear st p) = pmm_ram_top st /\
  pmm_usable (bitmap_clear st p) = pmm_usable st /\
  zlen (pmm_bitmap (bitmap_clear st p)) = zlen (pmm_bitmap st).
Proof. unfold bitmap_clear. repeat case_match; simpl; by rewrite ?zlen_zset. Qed.
End set_clear.

(** ** Iterating over pages *)

Section iter.
Implicit Types st : pmm.

Lemma pages_iter_inv (I : pmm -> Prop) f n p st :
  I st -> (forall q s, p <= q < p + Z.of_nat n -> I s -> I (f s q)) -> I (pages_iter n p f st).
Proof.
  revert p st. induction n as [|n IH]; intros p st H0 Hf; [done|].
  cbn [pages_iter]. apply IH; [apply Hf; [lia|done]|].
  intros q s Hq. apply Hf. lia.
Qed.

Lemma bitmap_set_wf st p : pmm_wf st -> 0 <= p -> pmm_wf (bitmap_set st p).
Proof.
  intros [Hlen Hcnt Hh] Hp. pose proof (bitmap_set_fields st p) as (Hl & _ & _ & Hlen').
  constructor; [congruence| |lia].
  destruct (Z_lt_le_dec p PMM_MAX_PAGES) as [Hlt|Hge].
  2:{ unfold bitmap_set. by destruct (Z.ltb_spec p PMM_MAX_PAGES); [lia|]. }
  destruct (page_used (pmm_bitmap st) p) eqn:Hu.
  { unfold bitmap_set. rewrite bm_bit_used, Hu. by case_match. }
  rewrite (used_count_flip (pmm_bitmap st) _ p).
  - unfold bitmap_set. rewrite bm_bit_used, Hu.
    destruct (Z.ltb_spec p PMM_MAX_PAGES); [|lia]. simpl. rewrite <- Hcnt.
    pose proof (used_count_bounds (pmm_bitmap st)). pmm_facts. apply u64_small. lia.
  - lia.
  - done.
  - rewrite bitmap_set_used by lia. by rewrite Z.eqb_refl.
  - intros q Hq. destruct (Z_lt_le_dec q 0) as [Hneg|].
    + unfold bitmap_set. repeat case_match; try done. simpl.
      rewrite page_used_zset by (done || lia). case_match; [exfalso; mlia|done].
    + rewrite bitmap_set_used by lia. by zcase.
Qed.

Lemma bitmap_clear_wf st p : pmm_wf st -> 0 <= p -> pmm_wf (bitmap_clear st p).
Proof.
  intros [Hlen Hcnt Hh] Hp. pose proof (bitmap_clear_fields st p) as (Hl & _ & _ & Hlen').
  constructor; [congruence| |lia].
  destruct (Z_lt_le_dec p PMM_MAX_PAGES) as [Hlt|Hge].
  2:{ unfold bitmap_clear. by destruct (Z.ltb_spec p PMM_MAX_PAGES); [lia|]. }
  destruct (page_used (pmm_bitmap st) p) eqn:Hu.
  2:{ unfold bitmap_clear. rewrite bm_bit_used, Hu. by case_match. }
  assert (used_count (pmm_bitmap st) = used_count (pmm_bitmap (bitmap_clear st p)) + 1) as Hc.
  { apply used_count_flip with p; [lia| |done|].
    - rewrite bitmap_clear_used by lia. by rewrite Z.eqb_refl.
    - intros q Hq. destruct (Z_lt_le_dec q 0) as [Hneg|].
      + unfold bitmap_clear. repeat case_match; try done. simpl.
        rewrite page_used_zset by (done || lia). case_match; [exfalso; mlia|done].
      + rewrite bitmap_clear_used by lia. by zcase. }
  revert Hc. unfold bitmap_clear. rewrite bm_bit_used, Hu.
  destruct (Z.ltb_spec p PMM_MAX_PAGES); [|lia]. simpl. intros Hc.
  pose proof (used_count_bounds (pmm_bitmap st)). pmm_facts.
  match type of Hc with _ = used_count ?b + 1 => pose proof (used_count_bounds b) end.
  rewrite u64_small by lia. lia.
Qed.

Lemma pages_iter_set st n p :
  pmm_wf st -> 0 <= p -> p + Z.of_nat n <= PMM_MAX_PAGES ->
  pmm_wf (pages_iter n p bitmap_set st) /\
  forall q, 0 <= q ->
    page_used (pmm_bitmap (pages_iter n p bitmap_set st)) q =
    (p <=? q) && (q <? p + Z.of_nat n) || page_used (pmm_bitmap st) q.
Proof.
  revert p st. induction n as [|n IH]; intros p st Hwf Hp Hn; cbn [pages_iter].
  { split; [done|]. intros q Hq. by zcases. }
  destruct (IH (p + 1) (bitmap_set st p)) as [H1 H2]; [by apply bitmap_set_wf|lia..|].
  split; [done|]. intros q Hq. rewrite H2, bitmap_set_used by (lia || apply Hwf).
  destruct (page_used (pmm_bitmap st) q); [by rewrite !orb_true_r|].
  rewrite !orb_false_r. by zcases.
Qed.

Lemma pages_iter_clear st n p :
  pmm_wf st -> 0 <= p -> p + Z.of_nat n <= PMM_MAX_PAGES ->
  pmm_wf (pages_iter n p bitmap_clear st) /\
  forall q, 0 <= q ->
    page_used (pmm_bitmap (pages_iter n p bitmap_clear st)) q =
    negb ((p <=? q) && (q <? p + Z.of_nat n)) && page_used (pmm_bitmap st) q.
Proof.
  revert p st. induction n as [|n IH]; intros p st Hwf Hp Hn; cbn [pages_iter].
  { split; [done|]. intros q Hq. by zcases. }
  destruct (IH (p + 1) (bitmap_clear st p)) as [H1 H2]; [by apply bitmap_clear_wf|lia..|].
  split; [done|]. intros q Hq. rewrite H2, bitmap_clear_used by (lia || apply Hwf).
  destruct (page_used (pmm_bitmap st) q); [|by rewrite !andb_false_r].
  rewrite !andb_true_r. by zcases.
Qed.

Lemma pages_iter_fields f n p st :
  f = bitmap_set \/ f = bitmap_clear ->
  pmm_last_page (pages_iter n p f st) = pmm_last_page st /\
  pmm_ram_top (pages_iter n p f st) = pmm_ram_top st /\
  pmm_usable (pages_iter n p f st) = pmm_usable st.
Proof.
  intros Hf. apply (pages_iter_inv (fun s =>
    pmm_last_page s = pmm_last_page st /\ pmm_ram_top s = pmm_ram_top st /\
    pmm_usable s = pmm_usable st)); [done|].
  intros q s _ (<- & <- & <-). destruct Hf as [-> | ->].
  - destruct (bitmap_set_fields s q) as (? & ? & ? & ?); auto.
  - destruct (bitmap_clear_fields s q) as (? & ? & ? & ?); auto.
Qed.
End iter.

(** ** Regions *)

(** Page [q] meets the byte range [base, base + length). *)
Definition in_region (base length q : Z) : bool :=
  (base / PAGE_SIZE <=? q) && (q <? (base + length + PAGE_SIZE - 1) / PAGE_SIZE).

Lemma pmm_mark_region_spec st base length used :
  pmm_wf st -> 0 <= base -> 0 <= length -> base + length + PAGE_SIZE <= 18446744073709551616 ->
  pmm_wf (pmm_mark_region st base length used) /\
  forall q, 0 <= q < PMM_MAX_PAGES ->
    page_used (pmm_bitmap (pmm_mark_region st base length used)) q =
    if in_region base length q then used else page_used (pmm_bitmap st) q.
Proof.
  intros Hwf Hb Hl Hov. unfold pmm_mark_region, in_region. pmm_facts.
  rewrite u64_small by lia.
  set (sp := base / 4096). set (e := (base + length + 4096 - 1) / 4096).
  set (ep := if PMM_MAX_PAGES <? e then PMM_MAX_PAGES else e).
  assert (0 <= sp) by (subst sp; mlia).
  assert (ep = Z.min PMM_MAX_PAGES e) as Hep by (subst ep; zcases).
  destruct (Z_le_gt_dec sp ep) as [Hle|Hgt].
  - destruct used; [destruct (pages_iter_set st (Z.to_nat (ep - sp)) sp) as [H1 H2]
                   |destruct (pages_iter_clear st (Z.to_nat (ep - sp)) sp) as [H1 H2]];
      try (done || lia); (split; [done|]); intros q Hq; rewrite H2 by lia.
    all: rewrite Hep; destruct (page_used (pmm_bitmap st) q); rewrite ?orb_true_r, ?andb_false_r;
      by zcases.
  - replace (Z.to_nat (ep - sp)) with 0%nat by lia. simpl. split; [done|].
    intros q Hq. by zcases.
Qed.

(** ** Scanning *)

Section scans.
Implicit Types st : pmm.

Lemma bitmap_test_used st p :
  0 <= p < PMM_MAX_PAGES -> bitmap_test st p = page_used (pmm_bitmap st) p.
Proof. intros. unfold bitmap_test. rewrite bm_bit_used. by zcases. Qed.

Lemma scan_free_Some st n p r :
  scan_free n p st = Some r ->
  p <= r < p + Z.of_nat n /\ bitmap_test st r = false /\
  forall q, p <= q < r -> bitmap_test st q = true.
Proof.
  revert p. induction n as [|n IH]; intros p; cbn [scan_free]; [done|].
  destruct (bitmap_test st p) eqn:Ht; simpl.
  - intros (Hr & Hf & Hb)%IH. split; [lia|]. split; [done|]. intros q Hq.
    destruct (decide (q = p)) as [->|]; [done|]. apply Hb. lia.
  - intros [= <-]. split; [lia|]. split; [done|]. lia.
Qed.

Lemma scan_free_None st n p :
  scan_free n p st = None -> forall q, p <= q < p + Z.of_nat n -> bitmap_test st q = true.
Proof.
  revert p. induction n as [|n IH]; intros p; cbn [scan_free]; [lia|].
  destruct (bitmap_test st p) eqn:Ht; simpl; [|done].
  intros H q Hq. destruct (decide (q = p)) as [->|]; [done|]. apply (IH _ H). lia.
Qed.

(** [run_free st s c]: the [c] pages from [s] on are all clear. *)
Definition run_free st (s c : Z) : Prop := forall q, s <= q < s + c -> bitmap_test st q = false.

Lemma scan_run_Some st n p c start count s :
  0 <= c -> 0 < count -> (0 < c -> start = p - c) -> run_free st (p - c) c ->
  scan_run n p c start count st = Some s ->
  p - c <= s /\ s + count <= p + Z.of_nat n /\ run_free st s count.
Proof.
  revert p c start. induction n as [|n IH]; intros p c start Hc Hcnt Hs Hr; cbn [scan_run]; [done|].
  destruct (bitmap_test st p) eqn:Ht; cbn [negb].
  - intros H. apply IH in H; try lia.
    + intuition lia.
    + intros q Hq. lia.
  - set (start' := if c =? 0 then p else start).
    assert (start' = p - c) as Hst by (subst start'; zcases).
    assert (run_free st (p - c) (c + 1)) as Hr'.
    { intros q Hq. destruct (decide (q = p)) as [->|]; [done|]. apply Hr. lia. }
    destruct (Z.leb_spec count (c + 1)) as [Hle|Hgt].
    + intros [= <-]. rewrite Hst. split; [lia|]. split; [lia|].
      intros q Hq. apply Hr'. lia.
    + intros H. apply IH in H; try lia.
      * intuition lia.
      * intros q Hq. apply Hr'. lia.
Qed.

Lemma scan_run_None st n p c start count s :
  0 <= c < count -> scan_run n p c start count st = None ->
  p - c <= s -> s + count <= p + Z.of_nat n -> ~ run_free st s count.
Proof.
  revert p c start. induction n as [|n IH]; intros p c start Hc; cbn [scan_run]; [lia|].
  destruct (bitmap_test st p) eqn:Ht; cbn [negb].
  - intros H Hs1 Hs2 Hr. destruct (Z_le_gt_dec s p).
    + specialize (Hr p). rewrite Ht in Hr. discriminate Hr. lia.
    + eapply (IH (p + 1) 0); eauto; lia.
  - destruct (Z.leb_spec count (c + 1)); [done|].
    intros H' Hs1 Hs2. eapply (IH (p + 1) (c + 1)); eauto; lia.
Qed.

Lemma scan_segment_Some st base count s :
  0 <= base -> 0 < count -> scan_segment base count st = Some s ->
  base <= s /\ s + count <= PMM_MAX_PAGES /\ run_free st s count.
Proof.
  intros Hb Hc. unfold scan_segment. zcase; [|done]. intros Hs.
  apply scan_run_Some in Hs; try lia; intuition (lia || eauto).
  intros q Hq. lia.
Qed.

Lemma scan_segment_None st base count s :
  0 <= base -> 0 < count -> scan_segment base count st = None ->
  base <= s -> s + count <= PMM_MAX_PAGES -> ~ run_free st s count.
Proof.
  intros Hb Hc. unfold scan_segment. zcase; [|lia]. intros Hs Hs1 Hs2.
  eapply scan_run_None; eauto; lia.
Qed.
End scans.

(** ** Allocation of one page *)

(** Page [p] is taken in [st'] and nothing else changed hands. *)
Definition took_pages (st st' : pmm) (p count : Z) : Prop :=
  (forall q, p <= q < p + count ->
     page_used (pmm_bitmap st) q = false /\ page_used (pmm_bitmap st') q = true) /\
  same_pages_except (fun q => p <= q < p + count) st st' /\
  pmm_used_pages st' = pmm_used_pages st + count /\
  pmm_last_page st' = p + count.

Lemma with_last_wf st p : pmm_wf st -> 0 <= p <= PMM_MAX_PAGES -> pmm_wf (with_last st p).
Proof. intros [H1 H2 H3] Hp. by constructor. Qed.

(** Each page of a clear run adds one to the count. *)
Lemma pages_iter_set_count n p st :
  pmm_wf st -> 0 <= p -> p + Z.of_nat n <= PMM_MAX_PAGES -> run_free st p (Z.of_nat n) ->
  used_count (pmm_bitmap (pages_iter n p bitmap_set st)) = used_count (pmm_bitmap st) + Z.of_nat n.
Proof.
  revert p st. induction n as [|n IH]; intros p st Hs Hp Hle Hf; cbn [pages_iter]; [lia|].
  rewrite IH; [|by apply bitmap_set_wf|lia|lia|].
  - rewrite <- (wf_count _ (bitmap_set_wf _ p Hs Hp)), <- (wf_count _ Hs).
    unfold bitmap_set. rewrite bm_bit_used, <- bitmap_test_used, (Hf p) by lia.
    destruct (Z.ltb_spec p PMM_MAX_PAGES); [|lia]. simpl.
    pose proof (used_count_bounds (pmm_bitmap st)). rewrite (wf_count _ Hs). pmm_facts.
    rewrite u64_small by lia. lia.
  - intros q Hq. rewrite bitmap_test_used, bitmap_set_used by (lia || apply Hs).
    destruct (Z.eqb_spec p q); [lia|]. simpl. rewrite <- bitmap_test_used by lia. apply Hf. lia.
Qed.

(** Taking a run of clear pages updates bitmap, counter and hint together. *)
Lemma take_run_spec st p count :
  pmm_wf st -> 0 <= p -> 0 <= count -> p + count <= PMM_MAX_PAGES -> run_free st p count ->
  let st' := with_last (pages_iter (Z.to_nat count) p bitmap_set st) (p + count) in
  pmm_wf st' /\ took_pages st st' p count.
Proof.
  intros Hwf Hp Hc Hle Hfree st'.
  destruct (pages_iter_set st (Z.to_nat count) p) as [Hwf' Hu]; [done|lia..|].
  assert (pmm_wf st') as Hw by (apply with_last_wf; [done|lia]).
  split; [done|]. split; [|split; [|split; [|done]]].
  - intros q Hq. split.
    + rewrite <- bitmap_test_used by lia. by apply Hfree.
    + simpl. rewrite Hu by lia. by zcases.
  - intros q Hq Hnot. simpl. rewrite Hu by lia. by zcases.
  - rewrite (wf_count _ Hw), (wf_count _ Hwf). unfold st'. simpl.
    rewrite pages_iter_set_count by (rewrite ?Z2Nat.id; done || lia). lia.
Qed.

Lemma take_page_eq st p :
  0 <= p < PMM_MAX_PAGES ->
  take_page st p = (p * PAGE_SIZE, with_last (pages_iter 1 p bitmap_set st) (p + 1)).
Proof. intros. pmm_facts. unfold take_page. rewrite u64_small; [done|]. unfold PAGE_SIZE. lia. Qed.

Lemma all_used_test st lo hi :
  0 <= lo -> hi <= PMM_MAX_PAGES -> (forall q, lo <= q < hi -> bitmap_test st q = true) ->
  forall q, lo <= q < hi -> page_used (pmm_bitmap st) q = true.
Proof. intros ? ? H q Hq. rewrite <- bitmap_test_used by lia. by apply H. Qed.

(** ** Correctness of the allocator *)

(** The two outcomes of [pmm_alloc_page]. *)
Lemma alloc_page_cases st a st' :
  pmm_wf st -> page_used (pmm_bitmap st) 0 = true -> pmm_alloc_page st = (a, st') ->
  pmm_wf st' /\
  ((a = 0 /\ st' = st /\ forall q, 0 <= q < PMM_MAX_PAGES -> page_used (pmm_bitmap st) q = true) \/
   (exists p, 0 < p < PMM_MAX_PAGES /\ a = p * PAGE_SIZE /\ took_pages st st' p 1 /\
      (forall q, pmm_last_page st <= q < PMM_MAX_PAGES -> q < p \/ p < pmm_last_page st ->
         page_used (pmm_bitmap st) q = true) /\
      (p < pmm_last_page st -> forall q, 0 <= q < p -> page_used (pmm_bitmap st) q = true))).
Proof.
  intros Hwf H0 Hall. pose proof (wf_hint _ Hwf) as Hh. unfold pmm_alloc_page in Hall.
  assert (forall p, 0 <= p < PMM_MAX_PAGES -> bitmap_test st p = false -> take_page st p = (a, st') ->
    0 < p < PMM_MAX_PAGES /\ a = p * PAGE_SIZE /\ pmm_wf st' /\ took_pages st st' p 1) as Htake.
  { intros p Hp Hf Ht. rewrite take_page_eq in Ht by done. inv Ht.
    destruct (take_run_spec st p 1) as [Hw Ht]; [done|lia..| |].
    { intros q Hq. by replace q with p by lia. }
    split; [|done]. rewrite bitmap_test_used in Hf by done.
    destruct (decide (p = 0)); [subst; congruence|lia]. }
  destruct (scan_free _ (pmm_last_page st) st) as [p|] eqn:Hs1.
  - apply scan_free_Some in Hs1 as (Hr & Hf & Hb). apply Htake in Hall as (? & ? & ? & ?); [|lia|done].
    split; [done|]. right. exists p. split_and!; try done; try lia; intros.
    apply (all_used_test st (pmm_last_page st) p); (done || lia).
  - pose proof (scan_free_None _ _ _ Hs1) as Hhi.
    destruct (scan_free _ 0 st) as [p|] eqn:Hs2.
    + apply scan_free_Some in Hs2 as (Hr & Hf & Hb).
      apply Htake in Hall as (? & ? & ? & ?); [|lia|done].
      split; [done|]. right. exists p. split_and!; try done; try lia; intros.
      * eapply (all_used_test st (pmm_last_page st) PMM_MAX_PAGES); try lia. intros; apply Hhi; lia.
      * apply (all_used_test st 0 p); (done || lia).
    + pose proof (scan_free_None _ _ _ Hs2) as Hlo. inv Hall. split; [done|]. left.
      split; [done|]. split; [done|]. intros q Hq. rewrite <- bitmap_test_used by lia.
      destruct (Z_lt_le_dec q (pmm_last_page st')); [apply Hlo|apply Hhi]; lia.
Qed.

(** The two outcomes of [pmm_alloc_pages]. *)
Lemma alloc_pages_cases st count a st' :
  pmm_wf st -> page_used (pmm_bitmap st) 0 = true -> 1 < count -> pmm_alloc_pages st count = (a, st') ->
  pmm_wf st' /\
  ((a = 0 /\ st' = st /\ forall s, 0 <= s -> s + count <= PMM_MAX_PAGES -> ~ run_free st s count) \/
   (exists s, 0 < s /\ s + count <= PMM_MAX_PAGES /\ a = s * PAGE_SIZE /\ took_pages st st' s count)).
Proof.
  intros Hwf H0 Hc. pose proof (wf_hint _ Hwf) as Hh. unfold pmm_alloc_pages.
  destruct (Z.eqb_spec count 0); [lia|]. destruct (Z.eqb_spec count 1); [lia|].
  assert (forall base s, 0 <= base -> scan_segment base count st = Some s -> take_run st s count = (a, st') ->
    pmm_wf st' /\ exists s, 0 < s /\ s + count <= PMM_MAX_PAGES /\ a = s * PAGE_SIZE /\ took_pages st st' s count)
    as Htake.
  { intros base s Hb Hs Ht. apply scan_segment_Some in Hs as (Hs1 & Hs2 & Hs3); [|lia..].
    unfold take_run in Ht. inv Ht. destruct (take_run_spec st s count) as [Hw Ht]; [done|lia..|done|].
    split; [done|]. exists s. pmm_facts. rewrite u64_small by lia. split_and!; try done.
    specialize (Hs3 0). rewrite bitmap_test_used, H0 in Hs3 by lia.
    destruct (decide (s = 0)); [|lia]. subst. discriminate Hs3. lia. }
  destruct (scan_segment (pmm_last_page st) count st) as [s|] eqn:Hs1.
  { intros Ht. destruct (Htake (pmm_last_page st) s ltac:(lia) Hs1 Ht) as [? ?]. auto. }
  destruct (Z.eqb_spec (pmm_last_page st) 0) as [Hz|Hz].
  { intros [= <- <-]. split; [done|]. left. split; [done|]. split; [done|].
    intros s Hs Hle. apply (scan_segment_None st (pmm_last_page st)); (done || lia). }
  destruct (scan_segment 0 count st) as [s|] eqn:Hs2.
  { intros Ht. destruct (Htake 0 s ltac:(lia) Hs2 Ht) as [? ?]. auto. }
  intros [= <- <-]. split; [done|]. left. split; [done|]. split; [done|].
  intros s Hs Hle. apply (scan_segment_None st 0); (done || lia).
Qed.

(** [pmm_alloc_page] is a next-fit allocator. With page 0 reserved (its
    address doubles as the failure value), it returns 0 exactly when no page
    is clear and then changes nothing; otherwise it returns the first clear
    page at or after the hint, cyclically, takes that page and only that page,
    and keeps the counter equal to the number of set bits. *)
Theorem pmm_alloc_page_correct st a st' :
  pmm_wf st -> page_used (pmm_bitmap st) 0 = true -> pmm_alloc_page st = (a, st') ->
  pmm_wf st' /\
  ((a = 0 /\ st' = st /\ forall q, 0 <= q < PMM_MAX_PAGES -> page_used (pmm_bitmap st) q = true) \/
   (exists p, 0 < p < PMM_MAX_PAGES /\ a = p * PAGE_SIZE /\ took_pages st st' p 1 /\
      (forall q, pmm_last_page st <= q < PMM_MAX_PAGES -> q < p \/ p < pmm_last_page st ->
         page_used (pmm_bitmap st) q = true) /\
      (p < pmm_last_page st -> forall q, 0 <= q < p -> page_used (pmm_bitmap st) q = true))).
Proof. intros. by apply alloc_page_cases. Qed.

(** [pmm_alloc_pages] returns a run of [count] pages that were all clear,
    takes exactly that run, and fails (returning 0, state unchanged) only
    when the whole bitmap holds no such run: the two-segment scan misses no
    candidate. *)
Theorem pmm_alloc_pages_correct st count a st' :
  pmm_wf st -> page_used (pmm_bitmap st) 0 = true -> 1 < count -> pmm_alloc_pages st count = (a, st') ->
  pmm_wf st' /\
  ((a = 0 /\ st' = st /\ forall s, 0 <= s -> s + count <= PMM_MAX_PAGES -> ~ run_free st s count) \/
   (exists s, 0 < s /\ s + count <= PMM_MAX_PAGES /\ a = s * PAGE_SIZE /\ took_pages st st' s count)).
Proof. intros. by apply alloc_pages_cases. Qed.

(** The page freed by an address inside it. *)
Lemma pmm_free_page_spec st p :
  pmm_wf st -> 0 < p < PMM_MAX_PAGES ->
  pmm_free_page st (p * PAGE_SIZE) = bitmap_clear st p /\ pmm_wf (pmm_free_page st (p * PAGE_SIZE)).
Proof.
  intros Hwf Hp. pmm_facts. unfold pmm_free_page.
  destruct (Z.eqb_spec (p * 4096) 0); [lia|]. unfold PAGE_SIZE. rewrite Z.div_mul by lia.
  destruct (Z.ltb_spec p PMM_MAX_PAGES); [|lia]. split; [done|]. apply bitmap_clear_wf; [done|lia].
Qed.

Lemma pmm_free_page_wf st a : pmm_wf st -> 0 <= a -> pmm_wf (pmm_free_page st a).
Proof.
  intros. unfold pmm_free_page, PAGE_SIZE. repeat case_match; try done.
  apply bitmap_clear_wf; [done|mlia].
Qed.

Lemma free_pages_from_iter n i p st :
  0 < p + i -> 0 <= p -> 0 <= i -> p + i + Z.of_nat n <= PMM_MAX_PAGES ->
  free_pages_from n i (p * PAGE_SIZE) st = pages_iter n (p + i) bitmap_clear st.
Proof.
  revert i st. induction n as [|n IH]; intros i st Hpi Hp Hi Hle; [done|].
  cbn [free_pages_from pages_iter]. rewrite IH by lia. f_equal; [lia|].
  pmm_facts. rewrite u64_small by lia. unfold pmm_free_page, PAGE_SIZE.
  destruct (Z.eqb_spec (p * 4096 + i * 4096) 0); [lia|].
  replace ((p * 4096 + i * 4096) / 4096) with (p + i) by mlia.
  destruct (Z.ltb_spec (p + i) PMM_MAX_PAGES); [done|lia].
Qed.

Lemma used_count_ext bm bm' :
  (forall q, 0 <= q -> page_used bm' q = page_used bm q) -> used_count bm' = used_count bm.
Proof. intros H. apply countb_ext. intros q Hq%elem_of_seqZ. apply H. lia. Qed.

(** Clearing a run that was just taken gives back the earlier page view. *)
Lemma untake_run st st' p count :
  pmm_wf st -> pmm_wf st' -> 0 < p -> 0 <= count -> p + count <= PMM_MAX_PAGES ->
  took_pages st st' p count ->
  let st'' := pmm_free_pages st' (p * PAGE_SIZE) count in
  pmm_wf st'' /\ pmm_used_pages st'' = pmm_used_pages st /\
  forall q, 0 <= q -> page_used (pmm_bitmap st'') q = page_used (pmm_bitmap st) q.
Proof.
  intros Hwf Hwf' Hp Hc Hle (Htook & Hsame & _). unfold pmm_free_pages.
  rewrite free_pages_from_iter by lia. rewrite Z.add_0_r.
  destruct (pages_iter_clear st' (Z.to_nat count) p) as [Hw Hu]; [done|lia..|].
  assert (forall q, 0 <= q -> page_used (pmm_bitmap (pages_iter (Z.to_nat count) p bitmap_clear st')) q
                              = page_used (pmm_bitmap st) q) as Hview.
  { intros q Hq. rewrite Hu by done. destruct (decide (p <= q < p + count)) as [Hin|Hout].
    - rewrite (proj1 (Htook q Hin)). by zcases.
    - rewrite Hsame by done. by zcases. }
  split; [done|]. split; [|done].
  rewrite (wf_count _ Hw), (wf_count _ Hwf). by apply used_count_ext.
Qed.

(** freeing what [pmm_alloc_pages] returned restores the used/free state
    of every page and the counter. *)
Theorem pmm_alloc_free_roundtrip st count a st' :
  pmm_wf st -> page_used (pmm_bitmap st) 0 = true -> 1 <= count ->
  pmm_alloc_pages st count = (a, st') -> a <> 0 ->
  let st'' := pmm_free_pages st' a count in
  pmm_wf st'' /\ pmm_used_pages st'' = pmm_used_pages st /\
  forall q, 0 <= q -> page_used (pmm_bitmap st'') q = page_used (pmm_bitmap st) q.
Proof.
  intros Hwf H0 Hc Hall Ha.
  assert (pmm_wf st' /\ exists p, 0 < p /\ p + count <= PMM_MAX_PAGES /\ a = p * PAGE_SIZE /\
            took_pages st st' p count) as (Hwf' & p & Hp & Hle & -> & Ht).
  { destruct (decide (count = 1)) as [->|].
    - change (pmm_alloc_pages st 1) with (pmm_alloc_page st) in Hall.
      destruct (alloc_page_cases st a st') as [Hw [(? & _)|(p & ? & ? & ? & _)]]; [done..|].
      split; [done|]. exists p. split_and!; (done || lia).
    - destruct (alloc_pages_cases st count a st') as [Hw [(? & _)|?]]; try done. lia. }
  apply untake_run; (done || lia).
Qed.

(** on a page-aligned top of RAM above which every page is still marked,
    the O(1) statistics equal a walk over the pages below it: total, set and
    clear pages. *)
Theorem pmm_get_stats_correct st top :
  pmm_wf st -> 0 < top <= PMM_MAX_PAGES -> pmm_ram_top st = top * PAGE_SIZE ->
  (forall q, top <= q < PMM_MAX_PAGES -> page_used (pmm_bitmap st) q = true) ->
  pmm_get_stats st =
    (top, countb (page_used (pmm_bitmap st)) (seqZ 0 top),
     countb (fun q => negb (page_used (pmm_bitmap st) q)) (seqZ 0 top)).
Proof.
  intros Hwf Htop Hram Habove. pmm_facts. unfold pmm_get_stats. rewrite Hram.
  unfold PAGE_SIZE. rewrite Z.div_mul by lia.
  destruct (Z.eqb_spec top 0); [lia|].
  assert (pmm_used_pages st = countb (page_used (pmm_bitmap st)) (seqZ 0 top) + (PMM_MAX_PAGES - top)) as Hu.
  { rewrite (wf_count _ Hwf). unfold used_count.
    replace PMM_MAX_PAGES with (top + (PMM_MAX_PAGES - top)) at 1 by lia.
    rewrite seqZ_app, countb_app by lia. f_equal.
    rewrite countb_all; [unfold zlen; rewrite length_seqZ; lia|].
    intros q Hq%elem_of_seqZ. apply Habove. lia. }
  pose proof (countb_bounds (page_used (pmm_bitmap st)) (seqZ 0 top)) as Hb.
  unfold zlen in Hb. rewrite length_seqZ in Hb.
  rewrite (u64_small (PMM_MAX_PAGES - top)) by lia. rewrite u64_small by lia.
  rewrite Hu. replace (_ + (PMM_MAX_PAGES - top) - (PMM_MAX_PAGES - top))
    with (countb (page_used (pmm_bitmap st)) (seqZ 0 top)) by lia.
  destruct (Z.ltb_spec top (countb (page_used (pmm_bitmap st)) (seqZ 0 top))); [lia|].
  f_equal. rewrite u64_small by lia.
  pose proof (countb_negb (page_used (pmm_bitmap st)) (seqZ 0 top)) as Hn.
  unfold zlen in Hn. rewrite length_seqZ in Hn. lia.
Qed.

(** ** Ownership *)

(** A client of the allocator: it obtains runs of pages and gives back only
    pages it owns. The second component is the set of owned pages. *)
Definition run_set (p count : Z) : gset Z := list_to_set (seqZ p count).

Inductive pmm_client : pmm * gset Z -> pmm * gset Z -> Prop :=
  | client_alloc st owned count a st' :
      1 <= count -> pmm_alloc_pages st count = (a, st') -> a <> 0 ->
      pmm_client (st, owned) (st', owned ∪ run_set (a / PAGE_SIZE) count)
  | client_oom st owned count st' :
      pmm_alloc_pages st count = (0, st') -> 0 <= count -> pmm_client (st, owned) (st', owned)
  | client_free st owned p :
      p ∈ owned -> pmm_client (st, owned) (pmm_free_page st (p * PAGE_SIZE), owned ∖ {[p]}).

(** The invariant: the state is well formed, page 0 and the reserved pages
    are marked and unowned, owned pages are marked. *)
Record client_inv (R : gset Z) (s : pmm * gset Z) : Prop := {
  ci_wf : pmm_wf s.1;
  ci_zero : 0 ∈ R;
  ci_res : forall q, q ∈ R -> 0 <= q < PMM_MAX_PAGES /\ page_used (pmm_bitmap s.1) q = true /\ q ∉ s.2;
  ci_own : forall q, q ∈ s.2 -> 0 < q < PMM_MAX_PAGES /\ page_used (pmm_bitmap s.1) q = true;
}.

Lemma elem_of_run_set q p count : q ∈ run_set p count <-> p <= q < p + count.
Proof. unfold run_set. rewrite elem_of_list_to_set, elem_of_seqZ. done. Qed.

(** Any allocation, of one page or several, in one statement. *)
Lemma alloc_any_cases st count a st' :
  pmm_wf st -> page_used (pmm_bitmap st) 0 = true -> 0 <= count ->
  pmm_alloc_pages st count = (a, st') ->
  pmm_wf st' /\
  ((a = 0 /\ st' = st) \/
   exists p, 0 < p /\ p + count <= PMM_MAX_PAGES /\ a = p * PAGE_SIZE /\ took_pages st st' p count).
Proof.
  intros Hwf H0 Hc Hall.
  destruct (decide (count = 0)) as [->|]; [by inv Hall; auto|].
  destruct (decide (count = 1)) as [->|].
  - change (pmm_alloc_pages st 1) with (pmm_alloc_page st) in Hall.
    destruct (alloc_page_cases st a st') as [Hw [(? & ? & _)|(p & ? & ? & ? & _)]]; auto.
    split; [done|]. right. exists p. split_and!; (done || lia).
  - destruct (alloc_pages_cases st count a st') as [Hw [(? & ? & _)|?]]; auto. lia.
Qed.

Lemma client_step_inv R s s' : client_inv R s -> pmm_client s s' -> client_inv R s'.
Proof.
  intros [Hwf HR0 Hres Hown] Hs. destruct (Hres 0 HR0) as (_ & H0 & _).
  inv Hs; simpl in *.
  - destruct (alloc_any_cases st count a st') as [Hw [(? & _)|(p & Hp & Hle & -> & Ht & Hsame & _)]];
      [done..|lia|done|done|].
    unfold PAGE_SIZE. rewrite Z.div_mul by lia. constructor; simpl; [done|done| |].
    + intros q Hq. destruct (Hres q Hq) as (Hr & Hu & Hn).
      assert (~ p <= q < p + count) as Hout.
      { intros Hin. destruct (Ht q Hin). congruence. }
      rewrite Hsame by (done || lia). rewrite not_elem_of_union, elem_of_run_set. auto.
    + intros q [Hq|Hq%elem_of_run_set]%elem_of_union.
      * destruct (Hown q Hq) as [Hr Hu]. split; [done|].
        destruct (decide (p <= q < p + count)) as [Hin|Hout]; [by apply Ht|].
        rewrite Hsame by (done || lia). done.
      * split; [lia|]. by apply Ht.
  - destruct (alloc_any_cases st count 0 st') as [Hw [(_ & ->)|(p & ? & ? & He & _)]]; [done..| |].
    + by constructor.
    + exfalso. unfold PAGE_SIZE in He. lia.
  - rename H into Hin. destruct (Hown p Hin) as [Hp Hu].
    destruct (pmm_free_page_spec st p Hwf Hp) as [Heq Hw]. constructor; simpl; [done|done| |].
    + intros q Hq. destruct (Hres q Hq) as (Hr & Hq1 & Hq2). split; [done|].
      rewrite Heq, bitmap_clear_used by (apply Hwf || lia). split; [|set_solver].
      destruct (Z.eqb_spec p q) as [->|]; [done|]. done.
    + intros q Hq. destruct (Hown q) as [Hr Hq1]; [set_solver|]. split; [done|].
      rewrite Heq, bitmap_clear_used by (apply Hwf || lia).
      destruct (Z.eqb_spec p q) as [->|]; [set_solver|]. done.
Qed.

(** C15: no page is handed out twice. From any state in which the reserved
    pages (page 0 among them) are marked, whatever sequence of allocations
    and of frees of owned pages a client performs, a further allocation
    returns a run disjoint from the reserved pages and from every page still
    owned. *)
Theorem pmm_no_double_allocation R st0 st owned count a st' :
  client_inv R (st0, ∅) -> rtc pmm_client (st0, ∅) (st, owned) ->
  1 <= count -> pmm_alloc_pages st count = (a, st') -> a <> 0 ->
  exists p, a = p * PAGE_SIZE /\ p + count <= PMM_MAX_PAGES /\
            run_set p count ## R /\ run_set p count ## owned.
Proof.
  intros Hinit Hrtc Hc Hall Ha.
  assert (client_inv R (st, owned)) as Hinv.
  { remember (st0, ∅) as s0 eqn:E0. remember (st, owned) as s1. clear E0.
    induction Hrtc; [done|]. eauto using client_step_inv. }
  destruct Hinv as [Hwf HR0 Hres Hown]. simpl in *.
  destruct (alloc_any_cases st count a st') as [Hw [(? & _)|(p & Hp & Hle & -> & Ht & _)]];
    [done|by apply Hres|lia|done|done|].
  exists p. split_and!; [done|done| |].
  - intros q Hq%elem_of_run_set HR. destruct (Ht q Hq), (Hres q HR) as (_ & ? & _). congruence.
  - intros q Hq%elem_of_run_set HR. destruct (Ht q Hq), (Hown q HR). congruence.
Qed.

(** ** Initialisation *)

Section init.
Implicit Types st : pmm.

Lemma pmm_mark_region_wf st base length used :
  pmm_wf st -> 0 <= base -> pmm_wf (pmm_mark_region st base length used).
Proof.
  intros Hwf Hb. unfold pmm_mark_region. apply pages_iter_inv; [done|].
  intros q s Hq Hs. assert (0 <= q) by (unfold PAGE_SIZE in Hq; mlia).
  destruct used; auto using bitmap_set_wf, bitmap_clear_wf.
Qed.

Lemma pmm_note_usable_bitmap st base len :
  pmm_bitmap (pmm_note_usable st base len) = pmm_bitmap st /\
  pmm_used_pages (pmm_note_usable st base len) = pmm_used_pages st /\
  pmm_last_page (pmm_note_usable st base len) = pmm_last_page st.
Proof. unfold pmm_note_usable. repeat case_match; done. Qed.

Lemma pmm_add_usable_bitmap st base len :
  pmm_bitmap (pmm_add_usable st base len) =
  pmm_bitmap (pmm_mark_region st base
                (if cap4g <? u64 (base + len) then cap4g - base else len) false).
Proof.
  unfold pmm_add_usable. cbv zeta. set (l := if cap4g <? _ then _ else len).
  destruct (pmm_note_usable_bitmap (pmm_mark_region st base l false) base l) as (<- & _).
  by case_match.
Qed.

Lemma pmm_add_usable_wf st base len : pmm_wf st -> 0 <= base -> pmm_wf (pmm_add_usable st base len).
Proof.
  intros Hwf Hb. unfold pmm_add_usable. cbv zeta.
  set (len' := if cap4g <? _ then _ else len).
  assert (pmm_wf (pmm_note_usable (pmm_mark_region st base len' false) base len')) as [H1 H2 H3].
  { destruct (pmm_mark_region_wf st base len' false Hwf Hb) as [H1 H2 H3].
    destruct (pmm_note_usable_bitmap (pmm_mark_region st base len' false) base len') as (E1 & E2 & E3).
    constructor; congruence. }
  case_match; by constructor.
Qed.

(** A set bit stays set when a region is reserved. *)
Lemma pmm_reserve_mono st base length q :
  pmm_wf st -> 0 <= base -> 0 <= q -> page_used (pmm_bitmap st) q = true ->
  page_used (pmm_bitmap (pmm_mark_region st base length true)) q = true.
Proof.
  intros Hwf Hb Hq Hu. unfold pmm_mark_region.
  apply (pages_iter_inv (fun s => pmm_wf s /\ page_used (pmm_bitmap s) q = true)); [done|].
  intros p s Hp [Hs Hsq]. assert (0 <= p) by (unfold PAGE_SIZE in Hp; mlia).
  split; [by apply bitmap_set_wf|].
  destruct (Z_lt_le_dec p PMM_MAX_PAGES).
  - rewrite bitmap_set_used by (lia || apply Hs). by rewrite Hsq, orb_true_r.
  - unfold bitmap_set. by destruct (Z.ltb_spec p PMM_MAX_PAGES); [lia|].
Qed.
End init.

(** The tag list of a multiboot2 boot-info body, from offset [tag] on. *)
Inductive mb2_wf (info : list Z) (total : Z) : Z -> Prop :=
  | mb2_past tag : total <= tag -> mb2_wf info total tag
  | mb2_end tag : ld32 info tag = Ok MB2_TAG_END -> mb2_wf info total tag
  | mb2_mmap tag size es :
      ld32 info tag = Ok MB2_TAG_MMAP -> ld32 info (tag + 4) = Ok size ->
      ld32 info (tag + 8) = Ok es -> 16 <= size < 4294967280 -> 24 <= es ->
      tag + size <= zlen info -> mb2_wf info total (tag + (size + 7) / 8 * 8) ->
      mb2_wf info total tag
  | mb2_other tag type size :
      ld32 info tag = Ok type -> type <> MB2_TAG_END -> type <> MB2_TAG_MMAP ->
      ld32 info (tag + 4) = Ok size -> 8 <= size < 4294967280 ->
      mb2_wf info total (tag + (size + 7) / 8 * 8) -> mb2_wf info total tag.

Lemma mb2_advance size : 0 <= size < 4294967280 ->
  Z.land (u32 (size + 7)) (4294967295 - 7) = (size + 7) / 8 * 8.
Proof.
  intros. rewrite u32_small by lia. change (4294967295 - 7) with (2 ^ 32 - 2 ^ 3).
  rewrite land_align by lia. change (2 ^ 3) with 8. mlia.
Qed.

Lemma mb2_entries_total info tag size es st :
  Forall is_byte info -> 0 <= tag -> 16 <= size < 4294967280 -> 24 <= es ->
  tag + size <= zlen info -> pmm_wf st ->
  total pmm_wf (for_ 0 (u32 (size - 16) / es) (mb2_entry info tag es) st).
Proof.
  intros Hb Ht Hs He Hl Hwf. rewrite u32_small by lia.
  assert ((size - 16) / es * es <= size - 16) by (rewrite Z.mul_comm; apply Z.mul_div_le; lia).
  apply (for_post (fun _ s => pmm_wf s)); [apply Z.div_pos; lia|done|].
  intros i s Hi Hs'. unfold mb2_entry.
  assert (i * es + es <= size - 16) by nia.
  rewrite u32_small by nia. cbv zeta.
  eapply total_bind; [apply le_bytes_total; [done|nia|simpl; lia]|]. intros base Hbase.
  eapply total_bind; [apply le_bytes_total; [done|nia|simpl; lia]|]. intros len _.
  eapply total_bind; [apply le_bytes_total; [done|nia|simpl; lia]|]. intros ty _.
  case_match; [|done]. apply pmm_add_usable_wf; [done|apply Hbase].
Qed.

Lemma mb2_parse_total info total_size st :
  Forall is_byte info -> ld32 info 0 = Ok total_size -> 0 <= total_size ->
  mb2_wf info total_size 8 -> pmm_wf st ->
  total (fun r => pmm_wf r.2) (mb2_parse info st).
Proof.
  intros Hb Hts Hpos Htags Hwf. unfold mb2_parse. rewrite Hts. simpl.
  apply (loop_post (fun s => 8 <= s.1.1 /\ mb2_wf info total_size s.1.1 /\ pmm_wf s.2)
           _ _ (fun s => Z.to_nat (total_size - s.1.1))); [simpl; lia|done|].
  intros [[tag have] s] (Htag & Hw & Hs); simpl in *.
  destruct (Z.ltb_spec tag total_size); [|done].
  destruct Hw as [tag Hp|tag Hend|tag size es Hty Hsz Hes Hs1 He Hl Hn|tag ty size Hty Hne Hnm Hsz Hs1 Hn].
  - lia.
  - rewrite Hend. simpl. done.
  - rewrite Hty. simpl. rewrite Hsz. simpl. rewrite Hes. simpl.
    destruct (Z.eqb_spec es 0); [lia|].
    pose proof (mb2_entries_total info tag size es s Hb ltac:(lia) Hs1 He Hl Hs) as Hfor.
    apply total_Ok in Hfor as (s' & -> & Hs'). simpl.
    rewrite mb2_advance by lia. destruct (Z.eqb_spec ((size + 7) / 8 * 8) 0); [mlia|].
    simpl. split_and!; try done; mlia.
  - rewrite Hty. simpl. destruct (Z.eqb_spec ty MB2_TAG_END); [done|].
    rewrite Hsz. simpl. destruct (Z.eqb_spec ty MB2_TAG_MMAP); [done|]. simpl.
    rewrite mb2_advance by lia. destruct (Z.eqb_spec ((size + 7) / 8 * 8) 0); [mlia|].
    simpl. split_and!; try done; mlia.
Qed.

Lemma efi_parse_total map size dsz st :
  Forall is_byte map -> 0 <= size <= zlen map -> 0 <= dsz -> size + Z.max 40 dsz < 4294967296 ->
  pmm_wf st -> total pmm_wf (efi_parse map size dsz st).
Proof.
  intros Hb Hs Hd Hov Hwf. unfold efi_parse.
  set (d := if dsz <? 40 then 40 else dsz).
  assert (d = Z.max 40 dsz) as Hd' by (subst d; zcases).
  apply (loop_post (fun s => 0 <= s.1 <= size /\ pmm_wf s.2) _ _
           (fun s => Z.to_nat (size - s.1))); [simpl; lia|simpl; split; [lia|done]|].
  intros [off s] [Ho Hs']; simpl in *. rewrite u32_small by lia.
  destruct (Z.leb_spec (off + d) size); [|done].
  eapply post_bind; [apply le_bytes_total; [done|lia|simpl; lia]|]. intros ty _.
  eapply post_bind; [apply le_bytes_total; [done|lia|simpl; lia]|]. intros base Hbase.
  eapply post_bind; [apply le_bytes_total; [done|lia|simpl; lia]|]. intros pages _.
  simpl. split; [split; [lia|]|lia].
  case_match; [|done]. apply pmm_add_usable_wf; [done|apply Hbase].
Qed.

(** The byte ranges [pmm_init] reserves, given the boot-info size. *)
Definition reserved_regions (env : boot_env) : list (Z * Z) :=
  [(kernel_start env, kernel_end env - kernel_start env);
   (bitmap_addr env, PMM_MAX_PAGES / 8);
   (0, 2097152)] ++
  match mb_info env with
  | Some (addr, info) =>
      match ld32 info 0 with Ok size => [(addr, size)] | _ => [] end
  | None => []
  end ++
  (if negb (fb_base env =? 0) && negb (fb_size env =? 0) then [(fb_base env, fb_size env)] else []).

Record boot_env_wf (env : boot_env) : Prop := {
  bw_mb : forall addr info, mb_info env = Some (addr, info) ->
    Forall is_byte info /\ exists size, ld32 info 0 = Ok size /\ 0 <= size /\ mb2_wf info size 8;
  bw_efi : forall map size dsz, efi_map env = Some (map, size, dsz) ->
    Forall is_byte map /\ 0 <= size <= zlen map /\ 0 <= dsz /\ size + Z.max 40 dsz < 4294967296;
  bw_regions : forall b l, (b, l) ∈ reserved_regions env ->
    0 <= b /\ 0 <= l /\ b + l + PAGE_SIZE <= 18446744073709551616;
}.

(** Fold of [pmm_mark_region _ _ _ true] over a list of ranges. *)
Lemma mark_all_reserved rs st :
  pmm_wf st ->
  (forall b l, (b, l) ∈ rs -> 0 <= b /\ 0 <= l /\ b + l + PAGE_SIZE <= 18446744073709551616) ->
  let st' := foldl (fun s r => pmm_mark_region s r.1 r.2 true) st rs in
  pmm_wf st' /\
  (forall q, 0 <= q -> page_used (pmm_bitmap st) q = true -> page_used (pmm_bitmap st') q = true) /\
  (forall b l q, (b, l) ∈ rs -> 0 <= q < PMM_MAX_PAGES -> in_region b l q = true ->
     page_used (pmm_bitmap st') q = true).
Proof.
  revert st. induction rs as [|[b l] rs IH]; intros st Hwf Hrs; cbn [foldl fst snd].
  { split_and!; [done|done|set_solver]. }
  destruct (Hrs b l) as (Hb & Hl & Hov); [set_solver|].
  destruct (pmm_mark_region_spec st b l true Hwf Hb Hl Hov) as [Hwf' Hu].
  destruct (IH (pmm_mark_region st b l true)) as (H1 & H2 & H3); [done|set_solver|].
  split_and!; [done| |].
  - intros q Hq Hs. apply H2; [done|]. by apply pmm_reserve_mono.
  - intros b' l' q [[= -> ->]|Hin]%elem_of_cons Hq Hreg; [|by eapply H3].
    apply H2; [lia|]. rewrite Hu by done. by rewrite Hreg.
Qed.

Lemma pmm_reserve_fold env st :
  boot_env_wf env -> pmm_reserve env st =
  Ok (foldl (fun s r => pmm_mark_region s r.1 r.2 true) st (reserved_regions env)).
Proof.
  intros [Hmb _ Hr]. unfold pmm_reserve, reserved_regions in *.
  assert (u64 (kernel_end env - kernel_start env) = kernel_end env - kernel_start env) as ->.
  { destruct (Hr (kernel_start env) (kernel_end env - kernel_start env)); [set_solver|].
    unfold PAGE_SIZE in *. apply u64_small. lia. }
  destruct (mb_info env) as [[addr info]|].
  - destruct (Hmb _ _ eq_refl) as (_ & size & Hs & _). rewrite Hs. simpl. by destruct (negb _ && _).
  - simpl. by destruct (negb _ && _).
Qed.

Lemma page_used_full q :
  0 <= q < PMM_MAX_PAGES -> page_used (replicate (Z.to_nat (PMM_MAX_PAGES / 8)) 255) q = true.
Proof.
  intros Hq. pmm_facts. unfold page_used, bm_byte, zget.
  destruct (Z.leb_spec 0 (q / 8)); [|mlia].
  rewrite lookup_replicate_2 by mlia. simpl.
  change 255 with (Z.ones 8). apply Z.ones_spec_low. mlia.
Qed.

(** The state right after [pmm_init]'s memset. *)
Lemma pmm_full_wf st :
  pmm_used_pages st = PMM_MAX_PAGES -> 0 <= pmm_last_page st <= PMM_MAX_PAGES ->
  pmm_wf (with_bitmap st (replicate (Z.to_nat (PMM_MAX_PAGES / 8)) 255) (pmm_used_pages st)).
Proof.
  intros Hu Hl. pmm_facts. constructor; simpl; [|rewrite Hu|done].
  - unfold zlen. rewrite length_replicate. mlia.
  - unfold used_count. rewrite countb_all.
    + unfold zlen. rewrite length_seqZ. lia.
    + intros q Hq%elem_of_seqZ. apply page_used_full. lia.
Qed.

(** on a well-formed boot environment [pmm_init] terminates without a
    fault, leaves the allocator well formed, and every page that meets the
    kernel image, the bitmap, the first 2 MiB, the boot info or the
    framebuffer is marked, whatever the memory maps declared usable. *)
Theorem pmm_init_reserves env :
  boot_env_wf env ->
  exists st, pmm_init env pmm_boot = Ok st /\ pmm_wf st /\
    forall b l q, (b, l) ∈ reserved_regions env -> 0 <= q < PMM_MAX_PAGES ->
      in_region b l q = true -> page_used (pmm_bitmap st) q = true.
Proof.
  intros Henv. pose proof Henv as [Hmb Hefi Hreg]. unfold pmm_init.
  set (st0 := with_bitmap pmm_boot _ _).
  assert (pmm_wf st0) as Hwf0.
  { apply pmm_full_wf; [done|]. simpl. pmm_facts. lia. }
  assert (total (fun r => pmm_wf r.2)
    match mb_info env with Some (_, info) => mb2_parse info st0 | None => Ok (false, st0) end) as H1.
  { destruct (mb_info env) as [[addr info]|] eqn:E; [|done].
    destruct (Hmb _ _ eq_refl) as (Hb & size & Hs & Hpos & Ht). by eapply mb2_parse_total. }
  apply total_Ok in H1 as ([have st1] & Heq & Hwf1). cbv zeta. rewrite Heq. simpl.
  assert (total pmm_wf
    match efi_map env with
    | Some (map, size, dsz) => if have then Ok st1 else efi_parse map size dsz st1
    | None => Ok st1 end) as H2.
  { destruct (efi_map env) as [[[map size] dsz]|] eqn:E; [|done]. destruct have; [done|].
    destruct (Hefi _ _ _ eq_refl) as (? & ? & ? & ?). by apply efi_parse_total. }
  apply total_Ok in H2 as (st2 & -> & Hwf2). simpl. rewrite pmm_reserve_fold by done.
  destruct (mark_all_reserved (reserved_regions env) st2) as (Hw & _ & Hm); [done|done|].
  eexists. split_and!; [done|done|]. intros. by eapply Hm.
Qed.

(** a usable range that does not end on a page boundary frees the page
    its last bytes share with whatever follows: the range is rounded outward,
    so the allocator may hand out memory the map never declared usable. *)
Theorem pmm_usable_rounds_outward st base len :
  pmm_wf st -> 0 <= base -> 0 < len -> base + len <= cap4g -> (base + len) mod PAGE_SIZE <> 0 ->
  page_used (pmm_bitmap (pmm_add_usable st base len)) ((base + len) / PAGE_SIZE) = false.
Proof.
  intros Hwf Hb Hl Hcap Hmod. rewrite pmm_add_usable_bitmap. unfold cap4g in *. pmm_facts.
  rewrite (u64_small (base + len)) by lia.
  destruct (Z.ltb_spec (PMM_MAX_PAGES * 4096) (base + len)); [lia|].
  destruct (pmm_mark_region_spec st base len false) as [_ Hu]; [done|unfold PAGE_SIZE; lia..|].
  rewrite Hu by mlia. unfold in_region, PAGE_SIZE.
  repeat zcase; try done; exfalso; mlia.
Qed.

(** ** Concrete states *)

Definition pmm_full : pmm :=
  with_bitmap pmm_boot (replicate (Z.to_nat (PMM_MAX_PAGES / 8)) 255) PMM_MAX_PAGES.

(** All pages marked but the four from 2 MiB on. *)
Definition pmm_example : pmm := pmm_mark_region pmm_full 2097152 16384 false.

Lemma pmm_example_wf : pmm_wf pmm_example.
Proof.
  apply pmm_mark_region_wf; [|lia]. apply (pmm_full_wf pmm_boot); [done|]. pmm_facts. simpl. lia.
Qed.

Lemma pmm_example_zero : page_used (pmm_bitmap pmm_example) 0 = true.
Proof. vm_compute. reflexivity. Qed.

Lemma pmm_alloc_page_correct_witness :
  (pmm_alloc_page pmm_example).1 = 512 * PAGE_SIZE /\ pmm_wf (pmm_alloc_page pmm_example).2.
Proof.
  split; [vm_compute; reflexivity|].
  exact (proj1 (pmm_alloc_page_correct pmm_example _ _ pmm_example_wf pmm_example_zero
                  (surjective_pairing _))).
Defined.

Lemma pmm_alloc_pages_correct_witness :
  (pmm_alloc_pages pmm_example 3).1 = 512 * PAGE_SIZE /\ pmm_wf (pmm_alloc_pages pmm_example 3).2.
Proof.
  split; [vm_compute; reflexivity|].
  exact (proj1 (pmm_alloc_pages_correct pmm_example 3 _ _ pmm_example_wf pmm_example_zero
                  ltac:(lia) (surjective_pairing _))).
Defined.

Lemma pmm_alloc_free_roundtrip_witness :
  pmm_used_pages (pmm_free_pages (pmm_alloc_pages pmm_example 3).2 (pmm_alloc_pages pmm_example 3).1 3)
  = pmm_used_pages pmm_example.
Proof.
  exact (proj1 (proj2 (pmm_alloc_free_roundtrip pmm_example 3 _ _ pmm_example_wf pmm_example_zero
                  ltac:(lia) (surjective_pairing _) ltac:(vm_compute; discriminate)))).
Defined.

Lemma with_ram_top_bitmap st t : pmm_bitmap (with_ram_top st t) = pmm_bitmap st.
Proof. reflexivity. Qed.

Lemma with_ram_top_wf st t : pmm_wf st -> pmm_wf (with_ram_top st t).
Proof. intros [H1 H2 H3]. by constructor. Qed.

Lemma with_ram_top_eq st t : pmm_ram_top (with_ram_top st t) = t.
Proof. reflexivity. Qed.

Lemma pmm_full_is_wf : pmm_wf pmm_full.
Proof. apply (pmm_full_wf pmm_boot); [reflexivity|]. pmm_facts. simpl. lia. Qed.

Lemma pmm_stats_example_above q :
  516 <= q < PMM_MAX_PAGES -> page_used (pmm_bitmap (with_ram_top pmm_example (516 * PAGE_SIZE))) q = true.
Proof.
  intros Hq. rewrite with_ram_top_bitmap. unfold pmm_example.
  destruct (pmm_mark_region_spec pmm_full 2097152 16384 false) as [_ Hu];
    [exact pmm_full_is_wf|lia|lia|unfold PAGE_SIZE; lia|].
  rewrite Hu by lia. unfold in_region. change ((2097152 + 16384 + PAGE_SIZE - 1) / PAGE_SIZE) with 516.
  destruct (Z.ltb_spec q 516); [lia|]. rewrite andb_false_r. apply page_used_full. lia.
Qed.

Lemma pmm_get_stats_correct_witness :
  pmm_get_stats (with_ram_top pmm_example (516 * PAGE_SIZE)) = (516, 512, 4).
Proof.
  rewrite (pmm_get_stats_correct (with_ram_top pmm_example (516 * PAGE_SIZE)) 516).
  - vm_compute. reflexivity.
  - exact (with_ram_top_wf _ _ pmm_example_wf).
  - pmm_facts. lia.
  - apply with_ram_top_eq.
  - exact pmm_stats_example_above.
Defined.

Lemma pmm_no_double_allocation_witness :
  exists p, (pmm_alloc_pages (pmm_alloc_pages pmm_example 2).2 1).1 = p * PAGE_SIZE /\
            run_set p 1 ## run_set 512 2.
Proof.
  destruct (pmm_no_double_allocation {[0]} pmm_example (pmm_alloc_pages pmm_example 2).2
              (∅ ∪ run_set ((pmm_alloc_pages pmm_example 2).1 / PAGE_SIZE) 2) 1
              (pmm_alloc_pages (pmm_alloc_pages pmm_example 2).2 1).1
              (pmm_alloc_pages (pmm_alloc_pages pmm_example 2).2 1).2) as (p & Hp & _ & _ & Hd).
  - pmm_facts. constructor; simpl; [exact pmm_example_wf|set_solver| |set_solver].
    intros q ->%elem_of_singleton. split; [lia|]. split; [exact pmm_example_zero|set_solver].
  - apply rtc_once, client_alloc; [lia|apply surjective_pairing|vm_compute; discriminate].
  - lia.
  - apply surjective_pairing.
  - vm_compute. discriminate.
  - exists p. split; [exact Hp|].
    assert ((pmm_alloc_pages pmm_example 2).1 / PAGE_SIZE = 512) as E by (vm_compute; reflexivity).
    rewrite E in Hd. set_solver.
Defined.

Lemma pmm_usable_rounds_outward_witness :
  page_used (pmm_bitmap (pmm_add_usable pmm_example 4194304 6144)) 1025 = false.
Proof.
  apply (pmm_usable_rounds_outward pmm_example 4194304 6144 pmm_example_wf); vm_compute; try done.
  all: intros H; discriminate H.
Defined.

(** A boot with one memory-map entry, 8 MiB of RAM from 2 MiB on. *)
Fixpoint le_enc (n : nat) (z : Z) : list Z :=
  match n with O => [] | S n' => z mod 256 :: le_enc n' (z / 256) end.

Definition boot_info_example : list Z :=
  le_enc 4 56 ++ le_enc 4 0 ++
  le_enc 4 6 ++ le_enc 4 40 ++ le_enc 4 24 ++ le_enc 4 0 ++
  le_enc 8 2097152 ++ le_enc 8 8388608 ++ le_enc 4 1 ++ le_enc 4 0 ++
  le_enc 4 0 ++ le_enc 4 8.

Definition boot_env_example : boot_env :=
  {| mb_info := Some (65536, boot_info_example); efi_map := None;
     kernel_start := 1048576; kernel_end := 3145728; bitmap_addr := 2500000;
     fb_base := 0; fb_size := 0 |}.

Lemma boot_env_example_wf : boot_env_wf boot_env_example.
Proof.
  constructor.
  - intros addr info [= <- <-]. split; [vm_compute; repeat constructor; done|].
    exists 56. split; [reflexivity|]. split; [lia|].
    apply (mb2_mmap _ _ 8 40 24); [reflexivity|reflexivity|reflexivity|lia|lia|vm_compute; discriminate|].
    apply mb2_end. reflexivity.
  - discriminate.
  - intros b l Hin. vm_compute in Hin.
    repeat (apply elem_of_cons in Hin as [[= -> ->]|Hin]; [vm_compute; intuition discriminate|]).
    set_solver.
Qed.

Lemma pmm_init_reserves_witness :
  exists st, pmm_init boot_env_example pmm_boot = Ok st /\ page_used (pmm_bitmap st) 600 = true.
Proof.
  destruct (pmm_init_reserves boot_env_example boot_env_example_wf) as (st & Heq & _ & Hres).
  exists st. split; [exact Heq|].
  apply (Hres 1048576 2097152 600); [|pmm_facts; lia|vm_compute; reflexivity].
  unfold reserved_regions. simpl. left.
Defined.
