(* ===== verification/Heap.v ===== *)
(** * Heap: the kernel heap of src/src/kernel/mm/memory.c

    A first-fit allocator over one arena. Every block starts with a 24-byte
    header [heap_block] linked to the next one by address; the headers are the
    map [hdrs] from header addresses to their contents (a merged block's old
    header stays in memory, as in C), the payload bytes the map [bytes].
    Address 0 is the null pointer. Reading a header where none was ever
    written is a [Fault]. Pointer and size arithmetic is modulo 2^64. *)

From S2P Require Import Prelude Pmm.

Record heap_block : Type := mk_block {
  b_size : Z;
  b_next : Z;
  b_free : bool;
  b_magic : Z;
}.

Record heap : Type := mk_heap {
  heap_start : Z;
  heap_end : Z;
  heap_list : Z;
  hdrs : gmap Z heap_block;
  bytes : gmap Z Z;
}.

Definition HEAP_MAGIC : Z := 1264144211.    (* 0x4B594F53 *)
(** [sizeof(heap_block_t)] *)
Notation HDR := 24.

Definition rd (h : heap) (a : Z) : res heap_block :=
  match hdrs h !! a with Some b => Ok b | None => Fault end.

Definition wr (h : heap) (a : Z) (b : heap_block) : heap :=
  mk_heap (heap_start h) (heap_end h) (heap_list h) (<[a := b]> (hdrs h)) (bytes h).

Definition set_free (b : heap_block) (f : bool) : heap_block :=
  mk_block (b_size b) (b_next b) f (b_magic b).

Lemma rd_ok h a b : hdrs h !! a = Some b -> rd h a = Ok b.
Proof. unfold rd. by intros ->. Qed.

(** List walks visit each header at most once, so the number of headers
    bounds their length. *)
Definition walk_fuel (h : heap) : nat := S (size (hdrs h)).

(** ** Diagnostics *)

Fixpoint free_bytes_from (fuel : nat) (h : heap) (it acc : Z) : res Z :=
  match fuel with
  | O => Timeout
  | S fuel' =>
      if it =? 0 then Ok acc
      else
        b ← rd h it;
        free_bytes_from fuel' h (b_next b) (if b_free b then u64 (acc + b_size b) else acc)
  end.

Definition heap_free_bytes (h : heap) : res Z := free_bytes_from (walk_fuel h) h (heap_list h) 0.

Record heap_stats : Type := mk_stats {
  hs_arena : Z;
  hs_used_bytes : Z;
  hs_free_bytes : Z;
  hs_largest_free : Z;
  hs_free_blocks : Z;
}.

(** The loop of [heap_get_stats]: free bytes, free blocks, largest block. *)
Fixpoint stats_from (fuel : nat) (h : heap) (it fb fn lf : Z) : res (Z * Z * Z) :=
  match fuel with
  | O => Timeout
  | S fuel' =>
      if it =? 0 then Ok (fb, fn, lf)
      else
        b ← rd h it;
        if b_free b then
          stats_from fuel' h (b_next b) (u64 (fb + b_size b)) (u64 (fn + 1))
            (if lf <? b_size b then b_size b else lf)
        else stats_from fuel' h (b_next b) fb fn lf
  end.

Definition heap_get_stats (h : heap) : res heap_stats :=
  let arena := u64 (heap_end h - heap_start h) in
  r ← stats_from (walk_fuel h) h (heap_list h) 0 0 0;
  let '(fb, fn, lf) := (r : Z * Z * Z) in
  Ok (mk_stats arena (u64 (arena - fb)) fb lf fn).

(** Integrity walk: 0 when clean, -1 on a range, order, magic or adjacency
    violation. The header is only read once its address is in range. *)
Fixpoint verify_from (fuel : nat) (h : heap) (it last : Z) : res Z :=
  match fuel with
  | O => Timeout
  | S fuel' =>
      if it =? 0 then Ok 0
      else if (it <? heap_start h) || (heap_end h <=? it) || (negb (last =? 0) && (it <=? last))
      then Ok (-1)
      else
        b ← rd h it;
        if negb (b_magic b =? HEAP_MAGIC) then Ok (-1)
        else if negb (b_next b =? 0) && negb (b_next b =? u64 (it + HDR + b_size b)) then Ok (-1)
        else verify_from fuel' h (b_next b) it
  end.

Definition heap_verify (h : heap) : res Z := verify_from (walk_fuel h) h (heap_list h) 0.

(** ** Initialisation *)

Record memory_map : Type := mk_mmap {
  base_addr_low : Z;
  base_addr_high : Z;
  length_low : Z;
  length_high : Z;
  mm_type : Z;
}.

Definition entry_base (e : memory_map) : Z := Z.lor (Z.shiftl (base_addr_high e) 32) (base_addr_low e).
Definition entry_length (e : memory_map) : Z := Z.lor (Z.shiftl (length_high e) 32) (length_low e).

(** The largest type-1 entry at or above [heap_base]: (size, start). *)
Definition pick_arena (heap_base : Z) (map : list memory_map) (start : Z) : Z * Z :=
  foldl (fun acc e =>
    let '(largest_size, largest_start) := acc in
    if negb (mm_type e =? 1) then acc
    else
      if (largest_size <? entry_length e) && (heap_base <=? entry_base e)
      then (entry_length e, entry_base e) else acc)
    (0, start) map.

(** The arena bounds chosen by [memory_init]. *)
Definition arena_bounds (kernel_end : Z) (map : list memory_map) : Z * Z :=
  let hb := Z.land (u64 (kernel_end + 4095)) (18446744073709551615 - 4095) in
  let heap_base := if hb <? 2097152 then 2097152 else hb in
  let default_end := u64 (heap_base + 33554432) in
  match map with
  | [] => (heap_base, default_end)
  | _ =>
      let '(largest_size, largest_start) := pick_arena heap_base map heap_base in
      if 1048576 <? largest_size then
        (largest_start,
         u64 (largest_start + (if 33554432 <? largest_size then 33554432 else largest_size)))
      else (heap_base, default_end)
  end.

Definition memory_init (kernel_end : Z) (map : list memory_map) (st : pmm) : heap * pmm :=
  let '(start, end_) := arena_bounds kernel_end map in
  (mk_heap start end_ start
     {[start := mk_block (u64 (end_ - start - HDR)) 0 true HEAP_MAGIC]} ∅,
   pmm_mark_region st start (u64 (end_ - start)) true).

(** ** Allocation *)

(** [size == 0 ? 8 : size], rounded up to 8 *)
Definition round_request (size : Z) : Z :=
  let size := if size =? 0 then 8 else size in
  Z.land (u64 (size + 7)) (18446744073709551615 - 7).

(** Take the free block [b] at [current]: split it when the leftover can hold
    a header, otherwise use it whole. *)
Definition take_block (h : heap) (current : Z) (b : heap_block) (size : Z) : heap :=
  if HDR <? u64 (b_size b - size) then
    let remaining := u64 (b_size b - size - HDR) in
    let new_block := u64 (current + HDR + size) in
    let h := wr h new_block (mk_block remaining (b_next b) true HEAP_MAGIC) in
    wr h current (mk_block size new_block false HEAP_MAGIC)
  else wr h current (mk_block (b_size b) (b_next b) false HEAP_MAGIC).

(** First fit. The result is the payload address, or the last block walked
    when nothing fits. *)
Fixpoint find_fit (fuel : nat) (h : heap) (current prev size : Z) : res (Z * heap + Z) :=
  match fuel with
  | O => Timeout
  | S fuel' =>
      if current =? 0 then Ok (inr prev)
      else
        b ← rd h current;
        if b_free b && (size <=? b_size b)
        then Ok (inl (u64 (current + HDR), take_block h current b size))
        else find_fit fuel' h (b_next b) current size
  end.

(** The tail of [kmalloc]: append a block behind the last one if the arena
    has room. Returns 0 (NULL) otherwise. *)
Definition grow (h : heap) (prev size : Z) : res (Z * heap) :=
  new_addr ← (if negb (prev =? 0) then b ← rd h prev; Ok (u64 (prev + HDR + b_size b))
              else if negb (heap_list h =? 0)
              then b ← rd h (heap_list h); Ok (u64 (heap_list h + HDR + b_size b))
              else Ok (heap_start h));
  if u64 (new_addr + HDR + size) <=? heap_end h then
    let h' := wr h new_addr (mk_block size 0 false HEAP_MAGIC) in
    h'' ← (if negb (prev =? 0) then
             pb ← rd h' prev;
             Ok (wr h' prev (mk_block (b_size pb) new_addr (b_free pb) (b_magic pb)))
           else if heap_list h =? 0
           then Ok (mk_heap (heap_start h') (heap_end h') new_addr (hdrs h') (bytes h'))
           else Ok h');
    Ok (u64 (new_addr + HDR), h'')
  else Ok (0, h).

Definition kmalloc (h : heap) (size : Z) : res (Z * heap) :=
  let size := round_request size in
  r ← find_fit (walk_fuel h) h (heap_list h) 0 size;
  match r with
  | inl ph => Ok ph
  | inr prev => grow h prev size
  end.

(** ** Release *)

(** The merge pass of [kfree]: walk while [current <= block], folding a free
    successor into a free block and re-checking the same block. *)
Fixpoint merge_from (fuel : nat) (h : heap) (current block : Z) : res heap :=
  match fuel with
  | O => Timeout
  | S fuel' =>
      if current =? 0 then Ok h
      else
        b ← rd h current;
        if (b_next b =? 0) || (block <? current) then Ok h
        else
          n ← rd h (b_next b);
          if b_free b && b_free n then
            merge_from fuel'
              (wr h current
                 (mk_block (u64 (b_size b + (HDR + b_size n))) (b_next n) (b_free b) (b_magic b)))
              current block
          else merge_from fuel' h (b_next b) block
  end.

(** [true] when the local integrity check of [kfree] finds no corruption. *)
Definition kfree_check (h : heap) (block : Z) (b : heap_block) : res bool :=
  if negb (b_magic b =? HEAP_MAGIC) then Ok false
  else if negb (b_next b =? 0) then
    if negb (b_next b =? u64 (block + HDR + b_size b)) then Ok false
    else if (b_next b <? heap_start h) || (heap_end h <=? b_next b) then Ok false
    else n ← rd h (b_next b); Ok (b_magic n =? HEAP_MAGIC)
  else Ok true.

Definition kfree (h : heap) (ptr : Z) : res heap :=
  if ptr =? 0 then Ok h
  else if (ptr <? u64 (heap_start h + HDR)) || (heap_end h <=? ptr) then Ok h
  else
    let block := u64 (ptr - HDR) in
    if (block <? heap_start h) || (heap_end h <=? block) then Ok h
    else
      b ← rd h block;
      ok ← kfree_check h block b;
      if negb ok then Ok h    (* corrupt: the block is leaked *)
      else
        let h' := wr h block (set_free b true) in
        merge_from (walk_fuel h' + walk_fuel h') h' (heap_list h') block.

(** ** The derived allocators *)

(** [memset] and [memcpy] on the payload. *)
Definition fill_bytes (m : gmap Z Z) (p n v : Z) : gmap Z Z :=
  foldl (fun m i => <[p + i := v]> m) m (seqZ 0 n).

Definition copy_bytes (m : gmap Z Z) (dst src n : Z) : gmap Z Z :=
  foldl (fun m i => partial_alter (fun _ => m !! (src + i)) (dst + i) m) m (seqZ 0 n).

Definition with_bytes (h : heap) (m : gmap Z Z) : heap :=
  mk_heap (heap_start h) (heap_end h) (heap_list h) (hdrs h) m.

Definition kcalloc (h : heap) (nmemb size : Z) : res (Z * heap) :=
  if negb (nmemb =? 0) && (18446744073709551615 / nmemb <? size) then Ok (0, h)
  else
    let total := u64 (nmemb * size) in
    r ← kmalloc h total;
    let '(ptr, h') := (r : Z * heap) in
    if ptr =? 0 then Ok (ptr, h')
    else Ok (ptr, with_bytes h' (fill_bytes (bytes h') ptr total 0)).

Definition krealloc (h : heap) (ptr size : Z) : res (Z * heap) :=
  if ptr =? 0 then kmalloc h size
  else if size =? 0 then h' ← kfree h ptr; Ok (0, h')
  else
    let block := u64 (ptr - HDR) in
    b ← rd h block;
    if size <=? b_size b then Ok (ptr, h)
    else
      r ← kmalloc h size;
      let '(new_ptr, h') := (r : Z * heap) in
      if new_ptr =? 0 then Ok (new_ptr, h')
      else
        b' ← rd h' block;
        let h'' := with_bytes h' (copy_bytes (bytes h') new_ptr ptr (b_size b')) in
        h3 ← kfree h'' ptr;
        Ok (new_ptr, h3).

(** ** The abstract heap

    The arena is a sequence of blocks (size, free), laid out back to back. *)

Notation ablock := (Z * bool)%type.

(** Address behind a sequence of blocks starting at [a]. *)
Fixpoint end_of (a : Z) (l : list ablock) : Z :=
  match l with
  | [] => a
  | (s, _) :: l' => end_of (a + HDR + s) l'
  end.

(** The header chain at [a] represents [l]. *)
Fixpoint layout (m : gmap Z heap_block) (a : Z) (l : list ablock) : Prop :=
  match l with
  | [] => True
  | (s, f) :: l' =>
      0 < s /\
      m !! a = Some (mk_block s (match l' with [] => 0 | _ => a + HDR + s end) f HEAP_MAGIC) /\
      layout m (a + HDR + s) l'
  end.

(** No two neighbouring free blocks. *)
Fixpoint coalesced (l : list ablock) : Prop :=
  match l with
  | (_, f) :: ((_, f') :: _) as l' => (f && f' = false) /\ coalesced l'
  | _ => True
  end.

Definition aligned (l : list ablock) : Prop := Forall (fun b => b.1 mod 8 = 0) l.

Record heap_inv (h : heap) (l : list ablock) : Prop := {
  hi_start : 0 < heap_start h;
  hi_align : heap_start h mod 8 = 0;
  hi_list : heap_list h = heap_start h;
  hi_layout : layout (hdrs h) (heap_start h) l;
  hi_end : end_of (heap_start h) l = heap_end h;
  hi_width : heap_end h < 18446744073709551616;
  hi_nonempty : l <> [];
  hi_sizes : aligned l;
  hi_coalesced : coalesced l;
}.

(** First fit on the abstract heap: payload address and new sequence. *)
Fixpoint amalloc (a : Z) (l : list ablock) (size : Z) : option (Z * list ablock) :=
  match l with
  | [] => None
  | (s, f) :: l' =>
      if f && (size <=? s) then
        Some (a + HDR,
              if HDR <? s - size then (size, false) :: (s - size - HDR, true) :: l'
              else (s, false) :: l')
      else
        match amalloc (a + HDR + s) l' size with
        | Some (p, l'') => Some (p, (s, f) :: l'')
        | None => None
        end
  end.

(** Maximal merging of neighbouring free blocks. *)
Fixpoint coalesce (l : list ablock) : list ablock :=
  match l with
  | [] => []
  | (s, f) :: l' =>
      match coalesce l' with
      | (s', f') :: r => if f && f' then (s + (HDR + s'), f) :: r else (s, f) :: (s', f') :: r
      | [] => [(s, f)]
      end
  end.

(** Mark the block with payload address [p] free. *)
Fixpoint amark (a : Z) (l : list ablock) (p : Z) : list ablock :=
  match l with
  | [] => []
  | (s, f) :: l' =>
      if p =? a + HDR then (s, true) :: l' else (s, f) :: amark (a + HDR + s) l' p
  end.

Definition afree (a : Z) (l : list ablock) (p : Z) : list ablock := coalesce (amark a l p).

(** The live blocks: payload address and size. *)
Fixpoint live (a : Z) (l : list ablock) : list (Z * Z) :=
  match l with
  | [] => []
  | (s, f) :: l' =>
      if f then live (a + HDR + s) l' else (a + HDR, s) :: live (a + HDR + s) l'
  end.

(** ** Layout lemmas *)

Lemma end_of_app a l l' : end_of a (l ++ l') = end_of (end_of a l) l'.
Proof. revert a. induction l as [|[s f] l IH]; intros a; simpl; auto. Qed.

Lemma end_of_ge m a l : layout m a l -> a <= end_of a l.
Proof.
  revert a. induction l as [|[s f] l IH]; intros a; simpl; [lia|].
  intros (Hs & _ & Hl). apply IH in Hl. lia.
Qed.

Lemma layout_frame m m' a l :
  (forall x, a <= x -> m' !! x = m !! x) -> layout m a l -> layout m' a l.
Proof.
  revert a. induction l as [|[s f] l IH]; intros a Hm; simpl; [done|].
  intros (Hs & Ha & Hl). split; [done|]. split; [by rewrite Hm by lia|].
  apply IH; [|done]. intros x Hx. apply Hm. lia.
Qed.

(** Replacing the header at [a] leaves the rest of the chain alone. *)
Lemma layout_insert_below m a b x l :
  x < a -> layout m a l -> layout (<[x := b]> m) a l.
Proof. intros. apply layout_frame with m; [|done]. intros. rewrite lookup_insert_ne by lia. done. Qed.

(** Header addresses of the chain. *)
Fixpoint addrs (a : Z) (l : list ablock) : list Z :=
  match l with [] => [] | (s, _) :: l' => a :: addrs (a + HDR + s) l' end.

Lemma addrs_ge m a l x : layout m a l -> x ∈ addrs a l -> a <= x /\ is_Some (m !! x).
Proof.
  revert a. induction l as [|[s f] l IH]; intros a; simpl; [set_solver|].
  intros (Hs & Ha & Hl) [->|Hx]%elem_of_cons; [eauto with lia|].
  destruct (IH _ Hl Hx). split; [lia|done].
Qed.

Lemma addrs_nodup m a l : layout m a l -> NoDup (addrs a l).
Proof.
  revert a. induction l as [|[s f] l IH]; intros a; simpl; [constructor|].
  intros (Hs & Ha & Hl). constructor; [|by apply IH].
  intros Hx. destruct (addrs_ge _ _ _ _ Hl Hx). lia.
Qed.

Lemma layout_size m a l : layout m a l -> (length l <= size m)%nat.
Proof.
  intros Hl. assert (length l = length (addrs a l)) as ->.
  { clear Hl. revert a. induction l as [|[s f] l IH]; intros a; simpl; auto. }
  rewrite <- size_dom, <- (size_list_to_set (C := gset Z) (addrs a l)) by eauto using addrs_nodup.
  apply subseteq_size. intros x. rewrite elem_of_list_to_set, elem_of_dom.
  intros Hx. by destruct (addrs_ge _ _ _ _ Hl Hx).
Qed.

(** Two heaps over the same arena that agree on headers below [a]. *)
Definition same_below (a : Z) (h h' : heap) : Prop :=
  heap_start h' = heap_start h /\ heap_end h' = heap_end h /\ heap_list h' = heap_list h /\
  bytes h' = bytes h /\ forall x, x < a -> hdrs h' !! x = hdrs h !! x.

#[global] Instance same_below_refl a : Reflexive (same_below a).
Proof. by repeat split. Qed.

Lemma same_below_mono a a' h h' : a <= a' -> same_below a' h h' -> same_below a h h'.
Proof. intros Ha (? & ? & ? & ? & Hx). repeat split; try done. intros x ?. apply Hx. lia. Qed.

Lemma wr_same_below a x h b : a <= x -> same_below a h (wr h x b).
Proof. intros Ha. repeat split; try done. intros y Hy. simpl. by rewrite lookup_insert_ne by lia. Qed.

Lemma same_below_trans a h1 h2 h3 : same_below a h1 h2 -> same_below a h2 h3 -> same_below a h1 h3.
Proof.
  intros (E1 & E2 & E3 & E4 & Hx) (F1 & F2 & F3 & F4 & Hy).
  split_and!; try congruence. intros x ?. rewrite Hy, Hx; done.
Qed.

(** Rebuild a chain from its head and an updated tail. *)
Lemma layout_cons_same h h' a s f l l' :
  layout (hdrs h) a ((s, f) :: l) -> l <> [] -> l' <> [] ->
  same_below (a + HDR + s) h h' -> layout (hdrs h') (a + HDR + s) l' ->
  layout (hdrs h') a ((s, f) :: l').
Proof.
  intros (Hs & Ha & _) Hne Hne' (_ & _ & _ & _ & Hx) Hl'.
  split; [done|]. split; [|done]. rewrite Hx, Ha by lia.
  destruct l, l'; done.
Qed.

(** ** Requests *)

Lemma round_request_eq size :
  0 <= size <= 18446744073709551608 ->
  round_request size = ((if size =? 0 then 8 else size) + 7) / 8 * 8.
Proof.
  intros H. unfold round_request.
  set (s := if size =? 0 then 8 else size). assert (0 < s <= 18446744073709551608) by (subst s; zcases).
  rewrite u64_small by lia. change (18446744073709551615 - 7) with (2 ^ 64 - 2 ^ 3).
  rewrite land_align by lia. change (2 ^ 3) with 8. mlia.
Qed.

Lemma round_request_bounds size :
  0 <= size <= 18446744073709551608 ->
  0 < round_request size /\ size <= round_request size <= size + 8 /\ round_request size mod 8 = 0.
Proof. intros H. rewrite round_request_eq by done. zcases; mlia. Qed.

(** ** [kmalloc] implements first fit *)

Lemma take_block_spec h a s l size :
  layout (hdrs h) a ((s, true) :: l) -> 0 < a -> end_of a ((s, true) :: l) < 18446744073709551616 ->
  0 < size <= s ->
  let b := mk_block s (match l with [] => 0 | _ => a + HDR + s end) true HEAP_MAGIC in
  let h' := take_block h a b size in
  same_below a h h' /\
  layout (hdrs h') a
    (if HDR <? s - size then (size, false) :: (s - size - HDR, true) :: l else (s, false) :: l).
Proof.
  intros Hlay Ha Hend Hsz b h'. pose proof (end_of_ge _ _ _ Hlay) as Hge.
  destruct Hlay as (Hs & _ & Hl). simpl in Hend. pose proof (end_of_ge _ _ _ Hl).
  subst b h'. unfold take_block. simpl. rewrite u64_small by lia.
  destruct (Z.ltb_spec 24 (s - size)).
  - rewrite !u64_small by lia. split.
    + eapply same_below_trans; [apply wr_same_below|apply wr_same_below]; lia.
    + simpl. split; [lia|]. split; [apply lookup_insert_eq|]. split; [lia|].
      rewrite lookup_insert_ne by lia. replace (a + 24 + size + 24 + (s - size - 24)) with (a + 24 + s) by lia.
      split; [by rewrite lookup_insert_eq|]. apply layout_insert_below; [lia|].
      apply layout_insert_below; [lia|done].
  - split; [apply wr_same_below; lia|]. simpl. split; [lia|].
    split; [apply lookup_insert_eq|]. apply layout_insert_below; [lia|done].
Qed.

(** Address of the last block, [prev] for none. *)
Fixpoint last_addr (prev a : Z) (l : list ablock) : Z :=
  match l with [] => prev | (s, _) :: l' => last_addr a (a + HDR + s) l' end.

Definition head_ptr (a : Z) (l : list ablock) : Z := match l with [] => 0 | _ => a end.

Lemma amalloc_nonempty a l size p l' : amalloc a l size = Some (p, l') -> l' <> [].
Proof. destruct l as [|[s f] l]; simpl; [done|]. intros. repeat case_match; simplify_eq; done. Qed.

Lemma find_fit_spec h l a fuel prev size :
  layout (hdrs h) a l -> 0 < a -> end_of a l < 18446744073709551616 -> 0 < size ->
  (length l < fuel)%nat ->
  match amalloc a l size with
  | Some (p, l') => exists h', find_fit fuel h (head_ptr a l) prev size = Ok (inl (p, h')) /\
                               same_below a h h' /\ layout (hdrs h') a l'
  | None => find_fit fuel h (head_ptr a l) prev size = Ok (inr (last_addr prev a l))
  end.
Proof.
  revert a fuel prev. induction l as [|[s f] l IH]; intros a fuel prev Hlay Ha Hend Hsz Hf;
    (destruct fuel as [|fuel]; [simpl in *; lia|]); [done|].
  cbn [amalloc find_fit head_ptr last_addr]. destruct (Z.eqb_spec a 0); [lia|].
  pose proof Hlay as (Hs & Hm & Hl). rewrite (rd_ok _ _ _ Hm). simpl.
  destruct (f && (size <=? s)) eqn:Efit.
  - apply andb_true_iff in Efit as [-> Hle%Z.leb_le].
    destruct (take_block_spec h a s l size) as [Hb Hl']; [done..|lia|].
    pose proof (end_of_ge _ _ _ Hl). simpl in Hend.
    eexists. split; [|split; [exact Hb|exact Hl']].
    rewrite u64_small by lia. done.
  - simpl in Hend. specialize (IH (a + HDR + s) fuel a).
    destruct (amalloc (a + 24 + s) l size) as [[p l']|] eqn:Eam.
    + destruct IH as (h' & Hf' & Hsb & Hl'); [done|lia|done|done|simpl in *; lia|].
      assert (l <> []) as Hne by (intros ->; done).
      exists h'. split; [|split].
      * rewrite <- Hf'. by destruct l.
      * eapply same_below_mono; [|done]. lia.
      * eapply (layout_cons_same h h' a s f l l'); eauto using amalloc_nonempty.
    + rewrite <- IH; [by destruct l|done|lia|done|done|simpl in *; lia].
Qed.

Lemma last_addr_spec m prev a l :
  layout m a l -> l <> [] -> 0 < a ->
  exists b, m !! last_addr prev a l = Some b /\ 0 < b_size b /\ 0 < last_addr prev a l /\
            last_addr prev a l + HDR + b_size b = end_of a l.
Proof.
  revert prev a. induction l as [|[s f] l IH]; intros prev a Hlay Hne Ha; [done|].
  destruct Hlay as (Hs & Hm & Hl). simpl. destruct l as [|[s' f'] l].
  - exists (mk_block s 0 f HEAP_MAGIC). simpl. split_and!; (done || lia).
  - apply IH; [done|done|]. lia.
Qed.

(** Abstract first fit keeps the arena tiled, aligned and coalesced. *)
Lemma amalloc_end a l size p l' : amalloc a l size = Some (p, l') -> end_of a l' = end_of a l.
Proof.
  revert a p l'. induction l as [|[s f] l IH]; intros a p l'; simpl; [done|].
  destruct (f && (size <=? s)).
  - intros [= <- <-]. destruct (Z.ltb_spec 24 (s - size)); simpl; [|done]. f_equal. lia.
  - destruct (amalloc (a + 24 + s) l size) as [[q l'']|] eqn:E; [|done].
    intros [= <- <-]. simpl. eauto.
Qed.

Lemma amalloc_aligned a l size p l' :
  amalloc a l size = Some (p, l') -> size mod 8 = 0 -> aligned l -> aligned l'.
Proof.
  revert a p l'. induction l as [|[s f] l IH]; intros a p l'; simpl; [done|].
  unfold aligned in *. intros Ham Hsz [Hs Hl]%list.Forall_cons. simpl in Hs.
  destruct (f && (size <=? s)).
  - simplify_eq. destruct (Z.ltb_spec 24 (s - size)); repeat constructor; simpl; (done || mlia).
  - destruct (amalloc (a + 24 + s) l size) as [[q l'']|] eqn:E; [|done].
    simplify_eq. constructor; [done|]. eauto.
Qed.

Lemma amalloc_coalesced a l size p l' :
  amalloc a l size = Some (p, l') -> coalesced l ->
  coalesced l' /\ (forall s f r, l = (s, f) :: r -> exists s' f' r', l' = (s', f') :: r' /\ (f = false -> f' = false)).
Proof.
  revert a p l'. induction l as [|[s f] l IH]; intros a p l'; cbn [amalloc]; [done|].
  intros Ham Hc. destruct (f && (size <=? s)) eqn:Ef.
  - apply andb_true_iff in Ef as [-> _]. simplify_eq.
    assert (forall x, coalesced ((x, true) :: l)) as Hx by (intros x; destruct l as [|[]]; exact Hc).
    assert (coalesced l) by (destruct l as [|[]]; [done|exact (proj2 Hc)]).
    split; [|intros ? ? ? [= <- <- <-]; destruct (24 <? s - size); eauto 10].
    destruct (24 <? s - size); [split; [done|exact (Hx _)]|]. destruct l as [|[]]; done.
  - destruct (amalloc (a + 24 + s) l size) as [[q l'']|] eqn:E; [|done]. simplify_eq.
    assert (coalesced l) as Hl by (destruct l as [|[]]; [done|exact (proj2 Hc)]).
    destruct (IH _ _ _ E Hl) as [Hc' Hhd]. split; [|intros ? ? ? [= <- <- <-]; eauto].
    destruct l as [|[s1 f1] l1]; [done|].
    destruct (Hhd s1 f1 l1 eq_refl) as (s2 & f2 & r2 & -> & Himp). split; [|done].
    destruct Hc as [Hff _]. destruct f; [|done]. simpl in *. auto.
Qed.

Lemma heap_inv_head h l : heap_inv h l -> head_ptr (heap_start h) l = heap_list h.
Proof. intros [? ? -> ? ? ? Hne ? ?]. by destruct l. Qed.

(** [kmalloc] is first fit on the abstract heap, and fails without effect
    when nothing fits. *)
Lemma kmalloc_refines h l size :
  heap_inv h l -> 0 <= size -> heap_end h + size + 40 < 18446744073709551616 ->
  match amalloc (heap_start h) l (round_request size) with
  | Some (p, l') => exists h', kmalloc h size = Ok (p, h') /\ heap_inv h' l' /\
                               heap_start h' = heap_start h /\ heap_end h' = heap_end h /\
                               bytes h' = bytes h
  | None => kmalloc h size = Ok (0, h)
  end.
Proof.
  intros Hinv Hsz Hw. pose proof Hinv as [Hst Hal Hli Hlay Hend Hwd Hne Has Hco].
  pose proof (end_of_ge _ _ _ Hlay).
  destruct (round_request_bounds size) as (Hr1 & Hr2 & Hr3); [lia|].
  pose proof (find_fit_spec h l (heap_start h) (walk_fuel h) 0 (round_request size)) as Hff.
  pose proof (layout_size _ _ _ Hlay) as Hlen.
  specialize (Hff Hlay Hst ltac:(lia) ltac:(lia) ltac:(unfold walk_fuel; lia)).
  rewrite (heap_inv_head _ _ Hinv) in Hff. unfold kmalloc. cbv zeta.
  destruct (amalloc (heap_start h) l (round_request size)) as [[p l']|] eqn:Eam.
  - destruct Hff as (h' & -> & (E1 & E2 & E3 & E4 & _) & Hl'). exists h'. simpl.
    split; [done|]. split; [|done]. constructor; rewrite ?E1, ?E2; try done; try congruence.
    + rewrite (amalloc_end _ _ _ _ _ Eam). done.
    + by eapply amalloc_nonempty.
    + by eapply amalloc_aligned.
    + by eapply amalloc_coalesced.
  - rewrite Hff. simpl. unfold grow.
    destruct (last_addr_spec (hdrs h) 0 (heap_start h) l) as (b & Hb & Hbpos & Hpos & Hle); [done..|].
    destruct (Z.eqb_spec (last_addr 0 (heap_start h) l) 0); [lia|]. simpl.
    rewrite (rd_ok _ _ _ Hb). simpl. rewrite Hle, Hend.
    rewrite (u64_small (heap_end h)) by lia.
    rewrite (u64_small (heap_end h + 24 + round_request size)) by lia.
    destruct (Z.leb_spec (heap_end h + 24 + round_request size) (heap_end h)); [lia|done].
Qed.

(** ** [kfree]: the merge pass *)

(** The merge pass on the abstract heap, with the current block split off. *)
Fixpoint amerge (a : Z) (cur : ablock) (rest : list ablock) (block : Z) : list ablock :=
  match rest with
  | [] => [cur]
  | n :: rest' =>
      if block <? a then cur :: rest
      else if cur.2 && n.2 then amerge a (cur.1 + (HDR + n.1), cur.2) rest' block
      else cur :: amerge (a + HDR + cur.1) n rest' block
  end.

Lemma amerge_nonempty a cur rest block : amerge a cur rest block <> [].
Proof.
  revert a cur. induction rest as [|n rest IH]; intros a cur; simpl; [done|].
  repeat case_match; auto.
Qed.

Lemma merge_from_spec rest : forall h a s f fuel block,
  layout (hdrs h) a ((s, f) :: rest) -> 0 < a -> end_of a ((s, f) :: rest) < 18446744073709551616 ->
  (length rest < fuel)%nat ->
  exists h', merge_from fuel h a block = Ok h' /\ same_below a h h' /\
             layout (hdrs h') a (amerge a (s, f) rest block).
Proof.
  induction rest as [|[s2 f2] rest IH]; intros h a s f fuel block Hlay Ha Hend Hf;
    (destruct fuel as [|fuel]; [simpl in Hf; lia|]); cbn [merge_from amerge fst snd].
  - destruct (Z.eqb_spec a 0); [lia|]. pose proof Hlay as (Hs & Hm & _).
    rewrite (rd_ok _ _ _ Hm). simpl. exists h. split; [done|split; [reflexivity|exact Hlay]].
  - destruct (Z.eqb_spec a 0); [lia|].
    pose proof Hlay as (Hs & Hm & Hs2 & Hm2 & Hl2). simpl in Hend.
    pose proof (end_of_ge _ _ _ Hl2).
    rewrite (rd_ok _ _ _ Hm). simpl. destruct (Z.eqb_spec (a + 24 + s) 0); [lia|]. simpl.
    destruct (Z.ltb_spec block a); [exists h; split; [done|split; [reflexivity|exact Hlay]]|].
    rewrite (rd_ok _ _ _ Hm2). simpl. destruct (f && f2) eqn:Ef.
    + rewrite u64_small by lia. set (h1 := wr h a _).
      destruct (IH h1 a (s + (24 + s2)) f fuel block) as (h' & Hr & Hsb & Hl');
        [|done|simpl; replace (a + 24 + (s + (24 + s2))) with (a + 24 + s + 24 + s2) by lia; done|simpl in Hf; lia|].
      { subst h1. simpl. replace (a + 24 + (s + (24 + s2))) with (a + 24 + s + 24 + s2) by lia.
        split; [lia|]. split; [by rewrite lookup_insert_eq|]. apply layout_insert_below; [lia|done]. }
      exists h'. split; [done|]. split; [|done].
      eapply same_below_trans; [|done]. apply wr_same_below. lia.
    + destruct (IH h (a + 24 + s) s2 f2 fuel block) as (h' & Hr & Hsb & Hl');
        [by split_and!|lia|done|simpl in Hf; lia|].
      exists h'. split; [done|]. split; [eapply same_below_mono; [|done]; lia|].
      by eapply layout_cons_same; eauto using amerge_nonempty.
Qed.

(** Abstract facts on the merge pass. *)
Lemma amerge_end a cur rest block : end_of a (amerge a cur rest block) = end_of a (cur :: rest).
Proof.
  revert a cur. induction rest as [|[s2 f2] rest IH]; intros a [s f]; simpl; [done|].
  repeat case_match; try done; rewrite ?IH; simpl; [f_equal; lia|].
  by rewrite IH.
Qed.

Definition nonneg (l : list ablock) : Prop := Forall (fun b => 0 <= b.1) l.

Lemma layout_nonneg m a l : layout m a l -> nonneg l.
Proof.
  revert a. induction l as [|[s f] l IH]; intros a; simpl; [constructor|].
  intros (Hs & _ & Hl). constructor; [simpl; lia|]. by eapply IH.
Qed.

Lemma nonneg_end_of a l : nonneg l -> a <= end_of a l.
Proof.
  revert a. induction l as [|[s f] l IH]; intros a; simpl; [lia|].
  intros [Hs H]%list.Forall_cons. simpl in Hs. apply (IH (a + HDR + s)) in H. lia.
Qed.

Lemma coalesced_tail b l : coalesced (b :: l) -> coalesced l.
Proof. destruct b, l as [|[]]; [done|]. intros [_ H]. exact H. Qed.

Lemma coalesce_id l : coalesced l -> coalesce l = l.
Proof.
  induction l as [|[s f] l IH]; intros Hc; [done|]. cbn [coalesce].
  rewrite IH by (by eapply coalesced_tail). destruct l as [|[s' f'] l]; [done|].
  destruct Hc as [-> _]. done.
Qed.

(** Merging keeps the first block's flag. *)
Lemma coalesce_head s f l : exists s' r, coalesce ((s, f) :: l) = (s', f) :: r.
Proof. cbn [coalesce]. destruct (coalesce l) as [|[s' f'] r]; [eauto|]. destruct f, f'; simpl; eauto. Qed.

Lemma coalesce_coalesced l : coalesced (coalesce l).
Proof.
  induction l as [|[s f] l IH]; [done|]. cbn [coalesce].
  destruct (coalesce l) as [|[s' f'] r] eqn:E; [done|].
  destruct (f && f') eqn:Ef; [|done].
  apply andb_true_iff in Ef as [-> ->]. destruct r as [|[]]; exact IH.
Qed.

Lemma coalesce_end a l : end_of a (coalesce l) = end_of a l.
Proof.
  revert a. induction l as [|[s f] l IH]; intros a; [done|]. cbn [coalesce end_of].
  rewrite <- IH. destruct (coalesce l) as [|[s' f'] r]; [done|].
  destruct (f && f'); simpl; [f_equal; lia|done].
Qed.

Lemma coalesce_aligned l : aligned l -> aligned (coalesce l).
Proof.
  unfold aligned. induction l as [|[s f] l IH]; [done|]. cbn [coalesce].
  intros [Hs Hl]%list.Forall_cons. simpl in Hs. apply IH in Hl.
  destruct (coalesce l) as [|[s' f'] r]; [by repeat constructor|].
  apply list.Forall_cons in Hl as [Hs' Hr]. simpl in Hs'.
  destruct (f && f'); repeat constructor; simpl; (done || mlia).
Qed.

Lemma coalesce_live a l : live a (coalesce l) = live a l.
Proof.
  revert a. induction l as [|[s f] l IH]; intros a; [done|]. cbn [coalesce live].
  rewrite <- IH. destruct (coalesce l) as [|[s' f'] r]; [done|].
  destruct f, f'; simpl; try done. f_equal. lia.
Qed.

(** Past the released block the pass stops; on a free block that covers it,
    it folds at most one successor. *)
Lemma amerge_stop a cur rest block : block < a -> amerge a cur rest block = cur :: rest.
Proof. intros. destruct rest; simpl; [done|]. destruct (Z.ltb_spec block a); [done|lia]. Qed.

Lemma amerge_base a s rest block :
  coalesced rest -> nonneg rest -> 0 <= s -> a <= block < a + HDR + s ->
  amerge a (s, true) rest block = coalesce ((s, true) :: rest).
Proof.
  intros Hc Hn Hs Hb. cbn [coalesce]. rewrite (coalesce_id rest) by done.
  destruct rest as [|[s1 f1] rest]; [done|]. cbn [amerge fst snd].
  apply list.Forall_cons in Hn as [Hs1 Hn]. simpl in Hs1.
  destruct (Z.ltb_spec block a); [lia|]. destruct f1; cbn [andb].
  - destruct rest as [|[s2 f2] rest]; [done|]. destruct Hc as [Hf _]. cbn [andb] in Hf. subst f2.
    cbn [amerge fst snd andb]. destruct (Z.ltb_spec block a); [lia|].
    rewrite amerge_stop by lia. done.
  - rewrite amerge_stop by lia. done.
Qed.

(** The pass over a coalesced heap in which one block was just released is
    the maximal merge. *)
Lemma amerge_coalesce l1 s l2 : forall a cur rest,
  l1 ++ (s, true) :: l2 = cur :: rest -> coalesced (l1 ++ (s, false) :: l2) ->
  nonneg (l1 ++ (s, true) :: l2) ->
  amerge a cur rest (end_of a l1) = coalesce (cur :: rest).
Proof.
  induction l1 as [|[s0 f0] l1 IH]; intros a cur rest Heq Hc Hn; simpl in Heq; inv Heq.
  - simpl end_of. apply list.Forall_cons in Hn as [Hs Hn]. simpl in Hs.
    apply amerge_base; [exact (coalesced_tail _ _ Hc)|done|done|lia].
  - apply list.Forall_cons in Hn as [Hs0 Hn]. simpl in Hs0. cbn [end_of].
    assert (exists n rest', l1 ++ (s, true) :: l2 = n :: rest') as (n & rest' & Hr).
    { destruct l1; simpl; eauto. }
    rewrite Hr. cbn [amerge fst snd]. assert (a + 24 + s0 <= end_of (a + 24 + s0) l1) as Hge.
    { apply nonneg_end_of. by apply Forall_app in Hn as [Hn1 _]. }
    destruct (Z.ltb_spec (end_of (a + 24 + s0) l1) a); [lia|].
    destruct l1 as [|[s1 f1] l1].
    + simpl in Hr. inv Hr. cbn [end_of fst snd] in *. rewrite andb_true_r. destruct f0.
      * apply list.Forall_cons in Hn as [Hs Hn]. simpl in Hs.
        pose proof (coalesced_tail (s, false) rest' (coalesced_tail (s0, true) ((s, false) :: rest') Hc)) as Hc'.
        rewrite amerge_base; [|done|done|lia|lia].
        cbn [coalesce]. rewrite coalesce_id by done.
        destruct rest' as [|[s2 f2] r]; [done|]. destruct f2; [|done]. simpl. do 2 f_equal. lia.
      * rewrite (IH (a + 24 + s0)); [|done|exact (coalesced_tail _ _ Hc)|done].
        cbn [coalesce]. by destruct (coalesce rest') as [|[]]; [|case_match].
    + simpl in Hr. inv Hr. cbn [fst snd]. destruct Hc as [Hff Hc].
      rewrite Hff. rewrite (IH (a + 24 + s0)); [|done|done|done].
      destruct (coalesce_head s1 f1 (l1 ++ (s, true) :: l2)) as (s' & r & E).
      cbn [coalesce] in E |- *. rewrite E. by rewrite Hff.
Qed.

(** ** [kfree] implements release and maximal merging *)

Lemma live_split a l p s :
  (p, s) ∈ live a l -> exists l1 l2, l = l1 ++ (s, false) :: l2 /\ p = end_of a l1 + HDR.
Proof.
  revert a. induction l as [|[s0 f0] l IH]; intros a; simpl; [set_solver|].
  destruct f0.
  - intros (l1 & l2 & -> & ->)%IH. exists ((s0, true) :: l1), l2. done.
  - intros [[= -> ->]|(l1 & l2 & -> & ->)%IH]%elem_of_cons.
    + exists [], l. done.
    + exists ((s0, false) :: l1), l2. done.
Qed.

Lemma layout_app_inv m a l1 l2 : layout m a (l1 ++ l2) -> layout m (end_of a l1) l2.
Proof.
  revert a. induction l1 as [|[s f] l1 IH]; intros a; simpl; [done|]. intros (_ & _ & H). auto.
Qed.

Lemma layout_mark m a l1 s l2 :
  layout m a (l1 ++ (s, false) :: l2) ->
  layout (<[end_of a l1 := mk_block s (match l2 with [] => 0 | _ => end_of a l1 + HDR + s end) true HEAP_MAGIC]> m)
    a (l1 ++ (s, true) :: l2).
Proof.
  revert a. induction l1 as [|[s0 f0] l1 IH]; intros a; simpl.
  - intros (Hs & Hm & Hl). split; [done|]. split; [apply lookup_insert_eq|].
    apply layout_insert_below; [lia|done].
  - intros (Hs & Hm & Hl). split; [done|]. split; [|by apply IH].
    assert (a + 24 + s0 <= end_of (a + 24 + s0) l1).
    { apply nonneg_end_of. apply layout_nonneg in Hl. by apply Forall_app in Hl as [Hn _]. }
    rewrite lookup_insert_ne by lia. rewrite Hm. by destruct l1.
Qed.

Lemma amark_split a l1 s l2 :
  nonneg l1 -> amark a (l1 ++ (s, false) :: l2) (end_of a l1 + HDR) = l1 ++ (s, true) :: l2.
Proof.
  revert a. induction l1 as [|[s0 f0] l1 IH]; intros a Hn; simpl.
  - by rewrite Z.eqb_refl.
  - apply list.Forall_cons in Hn as [Hs0 Hn]. simpl in Hs0. rewrite IH by done.
    destruct (Z.eqb_spec (end_of (a + 24 + s0) l1 + 24) (a + 24)) as [E|]; [|done].
    pose proof (nonneg_end_of (a + 24 + s0) l1 Hn). lia.
Qed.

Lemma layout_mid_header h l1 s l2 :
  heap_inv h (l1 ++ (s, false) :: l2) ->
  let block := end_of (heap_start h) l1 in
  0 < s /\ heap_start h <= block /\ block + HDR + s <= heap_end h /\
  hdrs h !! block = Some (mk_block s (match l2 with [] => 0 | _ => block + HDR + s end) false HEAP_MAGIC) /\
  layout (hdrs h) (block + HDR + s) l2 /\
  end_of (block + HDR + s) l2 = heap_end h.
Proof.
  intros [Hst Hal Hli Hlay Hend Hwd Hne Has Hco]. simpl.
  pose proof (layout_app_inv _ _ _ _ Hlay) as (Hs & Hm & Hl).
  rewrite end_of_app in Hend. simpl in Hend. pose proof (end_of_ge _ _ _ Hl).
  assert (heap_start h <= end_of (heap_start h) l1).
  { apply nonneg_end_of. apply layout_nonneg in Hlay. by apply Forall_app in Hlay as [? _]. }
  split_and!; (done || lia).
Qed.

Lemma kfree_refines h l p s :
  heap_inv h l -> (p, s) ∈ live (heap_start h) l ->
  exists h', kfree h p = Ok h' /\ heap_inv h' (afree (heap_start h) l p) /\
             heap_start h' = heap_start h /\ heap_end h' = heap_end h /\ bytes h' = bytes h.
Proof.
  intros Hinv Hlive. apply live_split in Hlive as (l1 & l2 & -> & ->).
  destruct (layout_mid_header h l1 s l2 Hinv) as (Hs & Hge & Hle & Hm & Hl2 & He2).
  destruct Hinv as [Hst Hal Hli Hlay Hend Hwd Hne Has Hco].
  set (block := end_of (heap_start h) l1) in *.
  pose proof (layout_nonneg _ _ _ Hlay) as Hnn.
  assert (nonneg l1 /\ nonneg l2) as [Hn1 Hn2].
  { apply Forall_app in Hnn as [? [_ ?]%list.Forall_cons]. done. }
  assert (l1 ++ (s, true) :: l2 <> []) as Hne' by (by destruct l1).
  assert (exists cur rest, l1 ++ (s, true) :: l2 = cur :: rest) as ([s0 f0] & rest & Hcr).
  { destruct (l1 ++ (s, true) :: l2) eqn:E; [done|eauto]. }
  set (nx := match l2 with [] => 0 | _ => block + 24 + s end) in *.
  pose proof (layout_mark _ _ _ _ _ Hlay) as Hmk. fold block nx in Hmk.
  set (h1 := wr h block (mk_block s nx true HEAP_MAGIC)).
  assert (layout (hdrs h1) (heap_start h) ((s0, f0) :: rest)) as Hl1.
  { rewrite <- Hcr. exact Hmk. }
  assert (end_of (heap_start h) ((s0, f0) :: rest) = heap_end h) as He1.
  { rewrite <- Hcr, <- Hend, !end_of_app. done. }
  destruct (merge_from_spec rest h1 (heap_start h) s0 f0 (walk_fuel h1 + walk_fuel h1) block)
    as (h' & Hmerge & (E1 & E2 & E3 & E4 & _) & Hl'); [done|done|lia| |].
  { pose proof (layout_size _ _ _ Hl1) as Hsz. unfold walk_fuel. cbn [length] in Hsz. lia. }
  rewrite (amerge_coalesce l1 s l2) in Hl'; [|done|done|].
  2:{ apply Forall_app. split; [done|]. constructor; [simpl; lia|done]. }
  exists h'. split.
  - unfold kfree. destruct (Z.eqb_spec (block + 24) 0); [lia|].
    rewrite (u64_small (heap_start h + 24)), (u64_small (block + 24 - 24)) by lia.
    replace (block + 24 - 24) with block by lia.
    destruct (Z.ltb_spec (block + 24) (heap_start h + 24)); [lia|].
    destruct (Z.leb_spec (heap_end h) (block + 24)); [lia|].
    destruct (Z.ltb_spec block (heap_start h)); [lia|].
    destruct (Z.leb_spec (heap_end h) block); [lia|]. cbn [orb].
    rewrite (rd_ok _ _ _ Hm). cbn [mbind res_bind].
    assert (kfree_check h block (mk_block s nx false HEAP_MAGIC) = Ok true) as ->.
    { unfold kfree_check. simpl. subst nx. destruct l2 as [|[s2 f2] l2]; [done|].
      destruct Hl2 as (Hs2 & Hm2 & Hl3). pose proof (end_of_ge _ _ _ Hl3). simpl in He2.
      destruct (Z.eqb_spec (block + 24 + s) 0); [lia|]. rewrite u64_small by lia.
      rewrite Z.eqb_refl. simpl. destruct (Z.ltb_spec (block + 24 + s) (heap_start h)); [lia|].
      destruct (Z.leb_spec (heap_end h) (block + 24 + s)); [lia|].
      simpl. rewrite (rd_ok _ _ _ Hm2). done. }
    simpl. rewrite Hli. exact Hmerge.
  - unfold afree.
    assert (amark (heap_start h) (l1 ++ (s, false) :: l2) (block + 24) = (s0, f0) :: rest) as ->.
    { rewrite <- Hcr. by apply amark_split. }
    split; [|done].
    constructor; rewrite ?E1, ?E2; try done.
    + by rewrite E3.
    + by rewrite coalesce_end.
    + destruct (coalesce_head s0 f0 rest) as (? & ? & ->). done.
    + apply coalesce_aligned. rewrite <- Hcr.
      apply Forall_app in Has as [? [? ?]%list.Forall_cons]. apply Forall_app.
      split; [done|]. by constructor.
    + apply coalesce_coalesced.
Qed.

(** ** Live blocks *)

(** Live blocks come in address order, each header and payload apart from
    the next. *)
Lemma live_bounds a l p s : nonneg l -> (p, s) ∈ live a l -> a + HDR <= p /\ p + s <= end_of a l.
Proof.
  revert a. induction l as [|[s0 f0] l IH]; intros a Hn; simpl; [set_solver|].
  apply list.Forall_cons in Hn as [Hs0 Hn]. simpl in Hs0.
  pose proof (nonneg_end_of (a + 24 + s0) l Hn).
  destruct f0; [|intros [[= -> ->]|Hin]%elem_of_cons; [lia|revert Hin]];
    intros Hin%IH; try done; lia.
Qed.

Lemma live_app a l1 l2 : live a (l1 ++ l2) = live a l1 ++ live (end_of a l1) l2.
Proof. revert a. induction l1 as [|[s f] l1 IH]; intros a; simpl; [done|]. rewrite IH. by destruct f. Qed.

(** First fit turns one free block into a live one and keeps the others. *)
Lemma amalloc_live a l size p l' :
  amalloc a l size = Some (p, l') -> nonneg l -> 0 <= size ->
  exists s pre post, size <= s /\ live a l = pre ++ post /\ live a l' = pre ++ (p, s) :: post /\
    a + HDR <= p /\ p + s <= end_of a l /\
    (forall q t, (q, t) ∈ pre -> q + t <= p - HDR) /\ (forall q t, (q, t) ∈ post -> p + s <= q - HDR).
Proof.
  revert a p l'. induction l as [|[s0 f0] l IH]; intros a p l'; cbn [amalloc]; [done|].
  intros Ham Hn Hsz. apply list.Forall_cons in Hn as [Hs0 Hn]. simpl in Hs0.
  pose proof (nonneg_end_of (a + 24 + s0) l Hn) as Hge.
  destruct (f0 && (size <=? s0)) eqn:Ef.
  - apply andb_true_iff in Ef as [-> Hle%Z.leb_le]. injection Ham as <- <-. simpl.
    exists (if 24 <? s0 - size then size else s0), [], (live (a + 24 + s0) l).
    destruct (Z.ltb_spec 24 (s0 - size)).
    + simpl. replace (a + 24 + size + 24 + (s0 - size - 24)) with (a + 24 + s0) by lia.
      split_and!; try done; try lia; [set_solver|].
      intros q t Hin%live_bounds; [lia|done].
    + simpl. split_and!; try done; try lia; [set_solver|].
      intros q t Hin%live_bounds; [lia|done].
  - destruct (amalloc (a + 24 + s0) l size) as [[q l'']|] eqn:E; [|done]. injection Ham as <- <-.
    destruct (IH _ _ _ E Hn Hsz) as (s & pre & post & Hs & El & El' & Hp1 & Hp2 & Hpre & Hpost).
    simpl. destruct f0.
    + exists s, pre, post. split_and!; try done; lia.
    + exists s, ((a + 24, s0) :: pre), post. rewrite El, El'. split_and!; try done; try lia.
      intros q' t [[= -> ->]|Hin]%elem_of_cons; [lia|]. by apply Hpre.
Qed.

Lemma amalloc_None a l size s :
  amalloc a l size = None -> (s, true) ∈ l -> s < size.
Proof.
  revert a. induction l as [|[s0 f0] l IH]; intros a; cbn [amalloc]; [set_solver|].
  destruct (f0 && (size <=? s0)) eqn:Ef; [done|].
  destruct (amalloc (a + 24 + s0) l size) as [[]|] eqn:E; [done|].
  intros _ [[= -> <-]|Hin]%elem_of_cons; [|by eapply IH].
  destruct (Z.leb_spec size s0); [done|lia].
Qed.

Lemma amalloc_fits a l size p l' :
  amalloc a l size = Some (p, l') -> exists s, (s, true) ∈ l /\ size <= s.
Proof.
  revert a p l'. induction l as [|[s f] l IH]; intros a p l'; simpl; [done|]. destruct (f && _) eqn:E.
  - apply andb_prop in E as [-> ?%Z.leb_le]. intros _. exists s. split; [apply list_elem_of_here|lia].
  - destruct (amalloc _ l size) as [[q k]|] eqn:Ea; [|done]. intros _. destruct (IH _ _ _ Ea) as (t & ? & ?).
    exists t. split; [by apply list_elem_of_further|done].
Qed.

Lemma amalloc_aligned_ptr a l size p l' :
  amalloc a l size = Some (p, l') -> aligned l -> a mod 8 = 0 -> p mod 8 = 0.
Proof.
  revert a p l'. induction l as [|[s0 f0] l IH]; intros a p l'; cbn [amalloc]; [done|].
  intros Ham [Hs Hl]%list.Forall_cons Ha. simpl in Hs.
  destruct (f0 && (size <=? s0)); [injection Ham as <- _; mlia|].
  destruct (amalloc (a + 24 + s0) l size) as [[q l'']|] eqn:E; [|done]. injection Ham as <- _.
  eapply IH; [done..|mlia].
Qed.

(** Releasing what first fit returned gives back the same sequence. *)
Lemma afree_amalloc a l size p l' :
  amalloc a l size = Some (p, l') -> coalesced l -> nonneg l -> 0 <= size -> afree a l' p = l.
Proof.
  unfold afree. revert a p l'. induction l as [|[s0 f0] l IH]; intros a p l'; cbn [amalloc]; [done|].
  intros Ham Hc Hn Hsz. apply list.Forall_cons in Hn as [Hs0 Hn]. simpl in Hs0.
  pose proof (coalesced_tail _ _ Hc) as Hcl.
  destruct (f0 && (size <=? s0)) eqn:Ef.
  - apply andb_true_iff in Ef as [-> Hle%Z.leb_le]. injection Ham as <- <-.
    destruct (24 <? s0 - size); cbn [amark]; rewrite Z.eqb_refl; [|by apply coalesce_id].
    cbn [coalesce]. rewrite (coalesce_id l) by done. destruct l as [|[s1 f1] l]; simpl.
    + do 2 f_equal. lia.
    + destruct Hc as [Hf _]. simpl in Hf. subst f1. simpl. do 2 f_equal. lia.
  - destruct (amalloc (a + 24 + s0) l size) as [[q l'']|] eqn:E; [|done]. injection Ham as <- <-.
    destruct (amalloc_live _ _ _ _ _ E Hn Hsz) as (_ & _ & _ & _ & _ & _ & Hge & _).
    cbn [amark]. destruct (Z.eqb_spec q (a + 24)); [lia|].
    cbn [coalesce]. rewrite (IH _ _ _ E Hcl Hn Hsz).
    destruct l as [|[s1 f1] l]; [done|]. destruct Hc as [-> _]. done.
Qed.

Lemma afree_live a l p s :
  nonneg l -> (p, s) ∈ live a l ->
  exists pre post, live a l = pre ++ (p, s) :: post /\ live a (afree a l p) = pre ++ post.
Proof.
  intros Hn Hin. apply live_split in Hin as (l1 & l2 & -> & ->).
  apply Forall_app in Hn as [Hn1 _]. unfold afree. rewrite coalesce_live, amark_split by done.
  rewrite !live_app. simpl. eauto.
Qed.

Lemma heap_inv_nonneg h l : heap_inv h l -> nonneg l.
Proof. intros Hi. eapply layout_nonneg, hi_layout, Hi. Qed.

(** ** Payload bytes *)

Lemma seqZ_snoc n : seqZ 0 (Z.of_nat (S n)) = seqZ 0 (Z.of_nat n) ++ [Z.of_nat n].
Proof. rewrite seqZ_S. done. Qed.

Lemma fill_bytes_lookup m p n v x :
  0 <= n -> fill_bytes m p n v !! x = if (p <=? x) && (x <? p + n) then Some v else m !! x.
Proof.
  intros Hn. rewrite <- (Z2Nat.id n) by done. generalize (Z.to_nat n) as k. clear n Hn.
  unfold fill_bytes. induction k as [|k IH]; [simpl; zcases; done|].
  rewrite seqZ_snoc, foldl_app. cbn [foldl].
  destruct (decide (p + Z.of_nat k = x)) as [<-|Hne].
  - rewrite lookup_insert_eq. zcases. done.
  - rewrite lookup_insert_ne by done. rewrite IH. zcases; done.
Qed.

Lemma copy_bytes_lookup m dst src n x :
  0 <= n -> dst + n <= src \/ src + n <= dst ->
  copy_bytes m dst src n !! x = if (dst <=? x) && (x <? dst + n) then m !! (src + (x - dst)) else m !! x.
Proof.
  intros Hn. rewrite <- (Z2Nat.id n) by done. generalize (Z.to_nat n) as k. clear n Hn.
  unfold copy_bytes. intros k Hd. revert x Hd. induction k as [|k IH]; intros x Hd; [simpl; zcases; done|].
  rewrite seqZ_snoc, foldl_app. cbn [foldl].
  destruct (decide (dst + Z.of_nat k = x)) as [<-|Hne].
  - rewrite lookup_partial_alter_eq, IH by lia.
    replace (dst + Z.of_nat k - dst) with (Z.of_nat k) by lia. zcases; done.
  - rewrite lookup_partial_alter_ne by done. rewrite IH by lia. zcases; done.
Qed.

Lemma with_bytes_inv h l m : heap_inv h l -> heap_inv (with_bytes h m) l.
Proof. intros []. by constructor. Qed.

(** ** Theorems on allocation and release *)

(** What a successful allocation guarantees: a block of at least the
    requested size, 8-aligned and inside the arena, whose header and payload
    are apart from those of every block that was live, all of which stay live. *)
Definition fresh_block (h h' : heap) (l l' : list ablock) (p size : Z) : Prop :=
  exists s pre post,
    live (heap_start h) l = pre ++ post /\ live (heap_start h) l' = pre ++ (p, s) :: post /\
    size <= s /\ p mod 8 = 0 /\ heap_start h + HDR <= p /\ p + s <= heap_end h /\
    (forall q t, (q, t) ∈ live (heap_start h) l -> q + t <= p - HDR \/ p + s <= q - HDR).

Lemma kmalloc_cases h l size :
  heap_inv h l -> 0 <= size -> heap_end h + size + 40 < 18446744073709551616 ->
  (kmalloc h size = Ok (0, h) /\ forall s, (s, true) ∈ l -> s < round_request size) \/
  (exists p h' l', kmalloc h size = Ok (p, h') /\ heap_inv h' l' /\ 0 < p /\
     amalloc (heap_start h) l (round_request size) = Some (p, l') /\
     heap_start h' = heap_start h /\ heap_end h' = heap_end h /\ bytes h' = bytes h /\
     fresh_block h h' l l' p size).
Proof.
  intros Hinv Hsz Hw. pose proof (kmalloc_refines h l size Hinv Hsz Hw) as Hr.
  pose proof (end_of_ge _ _ _ (hi_layout _ _ Hinv)) as Hge. rewrite (hi_end _ _ Hinv) in Hge.
  pose proof (hi_start _ _ Hinv).
  destruct (round_request_bounds size) as (Hr1 & Hr2 & Hr3); [lia|].
  destruct (amalloc (heap_start h) l (round_request size)) as [[p l']|] eqn:Eam.
  - right. destruct Hr as (h' & Hk & Hi' & E1 & E2 & E3).
    destruct (amalloc_live _ _ _ _ _ Eam) as (s & pre & post & Hs & El & El' & Hp1 & Hp2 & Hpre & Hpost);
      [by eapply heap_inv_nonneg|lia|].
    exists p, h', l'. split_and!; try done; [lia|].
    exists s, pre, post. rewrite (hi_end _ _ Hinv) in Hp2. split_and!; try done; try lia.
    + eapply amalloc_aligned_ptr; [done|apply Hinv|apply Hinv].
    + intros q t. rewrite El. intros [Hin|Hin]%elem_of_app; [left; by eapply Hpre|right; by eapply Hpost].
  - left. split; [done|]. intros s. by apply amalloc_None with (heap_start h).
Qed.

(** C14: For a request with [heap_end + size + 40 < 2^64] - so that neither the
    rounding nor the bound check wraps; the last theorem of this file is about
    the requests beyond - [kmalloc] on a well-formed heap returns: NULL with
    the heap unchanged exactly when no free block can hold the rounded
    request, and otherwise an 8-aligned block inside the arena, at least as large as the
    request, whose header and payload overlap no live block; the heap stays
    well formed and every live block stays live. *)
Theorem kmalloc_correct h l size :
  heap_inv h l -> 0 <= size -> heap_end h + size + 40 < 18446744073709551616 ->
  (kmalloc h size = Ok (0, h) /\ forall s, (s, true) ∈ l -> s < round_request size) \/
  ((exists s, (s, true) ∈ l /\ round_request size <= s) /\
   exists p h' l', kmalloc h size = Ok (p, h') /\ 0 < p /\ heap_inv h' l' /\ bytes h' = bytes h /\
     heap_end h' = heap_end h /\ fresh_block h h' l l' p size).
Proof.
  intros Hi Hs Hw. destruct (kmalloc_cases h l size Hi Hs Hw) as [?|(p & h' & l' & ? & ? & ? & Ha & ?)]; [by left|].
  right. split; [by eapply amalloc_fits|]. exists p, h', l'. naive_solver.
Qed.

(** [kfree] of a live block always returns, removes exactly that block
    from the live blocks, leaves the payload of the others alone, and leaves
    no two neighbouring free blocks. *)
Theorem kfree_correct h l p s :
  heap_inv h l -> (p, s) ∈ live (heap_start h) l ->
  exists h' l' pre post, kfree h p = Ok h' /\ heap_inv h' l' /\ bytes h' = bytes h /\
    live (heap_start h) l = pre ++ (p, s) :: post /\ live (heap_start h') l' = pre ++ post /\
    coalesced l'.
Proof.
  intros Hi Hl. destruct (kfree_refines h l p s Hi Hl) as (h' & Hk & Hi' & E1 & E2 & E3).
  destruct (afree_live (heap_start h) l p s) as (pre & post & Hpre & Hpost); [by eapply heap_inv_nonneg|done|].
  exists h', (afree (heap_start h) l p), pre, post. rewrite E1.
  split_and!; try done. apply Hi'.
Qed.

(** releasing a block right after allocating it restores the heap: the
    same sequence of blocks, sizes and free flags, so allocation and release
    never fragment the arena by themselves. *)
Theorem kmalloc_kfree_roundtrip h l size p h' :
  heap_inv h l -> 0 <= size -> heap_end h + size + 40 < 18446744073709551616 ->
  kmalloc h size = Ok (p, h') -> p <> 0 ->
  exists h'', kfree h' p = Ok h'' /\ heap_inv h'' l /\ bytes h'' = bytes h.
Proof.
  intros Hi Hs Hw Hk Hp.
  destruct (kmalloc_cases h l size Hi Hs Hw)
    as [[Hk0 _]|(q & h1 & l1 & Hk1 & Hi1 & _ & Ham & E1 & E2 & E3 & s & pre & post & _ & Hl1 & _)];
    [congruence|].
  rewrite Hk in Hk1. simplify_eq.
  destruct (kfree_refines h1 l1 q s Hi1) as (h2 & Hk2 & Hi2 & F1 & F2 & F3).
  { rewrite E1, Hl1. set_solver. }
  exists h2. split; [done|]. split; [|congruence].
  destruct (round_request_bounds size) as (? & ? & ?);
    [pose proof (end_of_ge _ _ _ (hi_layout _ _ Hi)); pose proof (hi_end _ _ Hi); pose proof (hi_start _ _ Hi); lia|].
  rewrite E1, (afree_amalloc _ _ _ _ _ Ham) in Hi2; [done|apply Hi|by eapply heap_inv_nonneg|lia].
Qed.

(** ** Integrity check *)

(** The chain [heap_verify] accepts: headers in the arena, in strictly
    increasing order, with the magic value, each next pointer null or exactly
    behind the block. *)
Fixpoint chain_ok (h : heap) (last it : Z) (l : list (Z * heap_block)) : Prop :=
  match l with
  | [] => it = 0
  | (x, b) :: l' =>
      it = x /\ x <> 0 /\ heap_start h <= x < heap_end h /\ (last <> 0 -> last < x) /\
      hdrs h !! x = Some b /\ b_magic b = HEAP_MAGIC /\
      (b_next b = 0 \/ b_next b = u64 (x + HDR + b_size b)) /\ chain_ok h x (b_next b) l'
  end.

Lemma verify_from_sound fuel h it last :
  verify_from fuel h it last = Ok 0 -> exists l, chain_ok h last it l.
Proof.
  revert it last. induction fuel as [|fuel IH]; intros it last; cbn [verify_from]; [done|].
  destruct (Z.eqb_spec it 0); [exists []; done|].
  destruct ((it <? heap_start h) || (heap_end h <=? it) || negb (last =? 0) && (it <=? last)) eqn:Er; [done|].
  apply orb_false_iff in Er as [[Er1%Z.ltb_ge Er2%Z.leb_gt]%orb_false_iff Er3].
  destruct (hdrs h !! it) as [b|] eqn:Hb; unfold rd; rewrite Hb; simpl; [|done].
  destruct (Z.eqb_spec (b_magic b) HEAP_MAGIC); simpl; [|done].
  destruct (negb (b_next b =? 0) && negb (b_next b =? u64 (it + 24 + b_size b))) eqn:En; [done|].
  intros [l Hl]%IH. exists ((it, b) :: l). simpl. split_and!; try done.
  - intros Hne. destruct (Z.eqb_spec last 0); [done|]. simpl in Er3. apply Z.leb_gt in Er3. done.
  - destruct (Z.eqb_spec (b_next b) 0); [by left|].
    destruct (Z.eqb_spec (b_next b) (u64 (it + 24 + b_size b))); [by right|done].
Qed.

Lemma verify_from_complete l : forall fuel h it last,
  chain_ok h last it l -> (length l < fuel)%nat -> verify_from fuel h it last = Ok 0.
Proof.
  induction l as [|[x b] l IH]; intros fuel h it last Hc Hf;
    (destruct fuel as [|fuel]; [simpl in Hf; lia|]); cbn [verify_from].
  - simpl in Hc. by subst.
  - destruct Hc as (-> & Hx0 & Hr & Ho & Hb & Hm & Hn & Hc). destruct (Z.eqb_spec x 0); [done|].
    rewrite (rd_ok _ _ _ Hb). simpl.
    destruct (Z.ltb_spec x (heap_start h)); [lia|]. destruct (Z.leb_spec (heap_end h) x); [lia|].
    assert (negb (last =? 0) && (x <=? last) = false) as ->.
    { destruct (Z.eqb_spec last 0); [done|]. simpl. apply Z.leb_gt. auto. }
    simpl. rewrite Hm, Z.eqb_refl. simpl.
    assert (negb (b_next b =? 0) && negb (b_next b =? u64 (x + 24 + b_size b)) = false) as ->.
    { destruct Hn as [-> | ->]; [done|]. rewrite Z.eqb_refl. apply andb_false_r. }
    apply IH; [done|]. simpl in Hf. lia.
Qed.

Lemma chain_ok_in l : forall h last it x,
  chain_ok h last it l -> x ∈ l.*1 -> (last <> 0 -> last < x) /\ is_Some (hdrs h !! x).
Proof.
  induction l as [|[y b] l IH]; intros h last it x Hc; [set_solver|].
  destruct Hc as (-> & Hy0 & _ & Ho & Hb & _ & _ & Hc). intros [->|Hx]%elem_of_cons; [eauto|].
  destruct (IH _ _ _ x Hc Hx) as [H1 H2]. split; [|done]. intros Hl. specialize (H1 Hy0).
  specialize (Ho Hl). lia.
Qed.

Lemma chain_ok_nodup l : forall h last it, chain_ok h last it l -> NoDup l.*1.
Proof.
  induction l as [|[y b] l IH]; intros h last it Hc; [constructor|].
  destruct Hc as (-> & Hy0 & _ & _ & _ & _ & _ & Hc). constructor; [|by eapply IH].
  intros Hin. destruct (chain_ok_in _ _ _ _ _ Hc Hin) as [H _]. specialize (H Hy0). simpl in H. lia.
Qed.

Lemma chain_ok_size h last it l : chain_ok h last it l -> (length l <= size (hdrs h))%nat.
Proof.
  intros Hc. rewrite <- (length_fmap fst), <- size_dom, <- (size_list_to_set (C := gset Z) (l.*1))
    by (by eapply chain_ok_nodup).
  apply subseteq_size. intros x. rewrite elem_of_list_to_set, elem_of_dom.
  intros Hx. by destruct (chain_ok_in _ _ _ _ _ Hc Hx).
Qed.

(** [heap_verify] reports a clean heap exactly when the block list is a
    finite chain of headers inside the arena, in increasing order, with
    intact magic values and physically adjacent links. *)
Theorem heap_verify_iff h : heap_verify h = Ok 0 <-> exists l, chain_ok h 0 (heap_list h) l.
Proof.
  split; [apply verify_from_sound|]. intros [l Hl]. unfold heap_verify.
  apply verify_from_complete with l; [done|]. apply chain_ok_size in Hl. unfold walk_fuel. lia.
Qed.

Lemma layout_chain h l last a :
  layout (hdrs h) a l -> 0 < a -> heap_start h <= a -> end_of a l = heap_end h ->
  heap_end h < 18446744073709551616 -> (last <> 0 -> last < a) ->
  exists c, chain_ok h last (head_ptr a l) c.
Proof.
  revert last a. induction l as [|[s f] l IH]; intros last a Hl Ha Hst He Hw Hlast; [by exists []|].
  destruct Hl as (Hs & Hm & Hl). simpl in He. pose proof (end_of_ge _ _ _ Hl).
  destruct (IH a (a + 24 + s)) as [c Hc]; [done|lia|lia|done|done|lia|].
  exists ((a, mk_block s (head_ptr (a + HDR + s) l) f HEAP_MAGIC) :: c). simpl.
  rewrite u64_small by lia. split_and!; try done; try lia.
  destruct l; auto.
Qed.

Lemma heap_inv_verify h l : heap_inv h l -> heap_verify h = Ok 0.
Proof.
  intros Hi. pose proof Hi as [? ? Hli Hlay Hend Hwd Hne ? ?].
  destruct (layout_chain h l 0 (heap_start h)) as [c Hc]; [done..|lia|].
  rewrite (heap_inv_head _ _ Hi) in Hc. unfold heap_verify.
  apply verify_from_complete with c; [done|]. apply chain_ok_size in Hc. unfold walk_fuel. lia.
Qed.

(** ** Statistics *)

Definition free_sum (l : list ablock) : Z := foldr (fun (b : ablock) acc => if b.2 then b.1 + acc else acc) 0 l.
Definition max_free (l : list ablock) : Z := foldr (fun (b : ablock) acc => if b.2 then Z.max b.1 acc else acc) 0 l.

Lemma free_sum_bound m a l : layout m a l -> 0 <= free_sum l <= end_of a l - a.
Proof.
  revert a. induction l as [|[s f] l IH]; intros a; simpl; [lia|].
  intros (Hs & _ & Hl%IH). destruct f; simpl; lia.
Qed.

Lemma free_bytes_from_spec l : forall fuel h a acc,
  layout (hdrs h) a l -> 0 < a -> (length l < fuel)%nat -> 0 <= acc ->
  acc + free_sum l < 18446744073709551616 ->
  free_bytes_from fuel h (head_ptr a l) acc = Ok (acc + free_sum l).
Proof.
  induction l as [|[s f] l IH]; intros fuel h a acc Hl Ha Hf Hacc Hw;
    (destruct fuel as [|fuel]; [simpl in Hf; lia|]); cbn [free_bytes_from head_ptr free_sum foldr fst snd].
  - simpl. f_equal. lia.
  - destruct (Z.eqb_spec a 0); [lia|]. pose proof Hl as (Hs & Hm & Hl'). simpl in Hw, Hf.
    rewrite (rd_ok _ _ _ Hm). simpl.
    change (match l with [] => 0 | _ => a + 24 + s end) with (head_ptr (a + 24 + s) l).
    pose proof (free_sum_bound _ _ _ Hl') as Hb. unfold free_sum in *.
    destruct f; simpl in *; [rewrite u64_small by lia|]; rewrite IH by (done || lia || (unfold free_sum; lia));
      unfold free_sum; f_equal; lia.
Qed.

Lemma stats_from_spec l : forall fuel h a fb fn lf,
  layout (hdrs h) a l -> 0 < a -> (length l < fuel)%nat -> 0 <= fb -> 0 <= fn -> 0 <= lf ->
  fb + free_sum l < 18446744073709551616 -> fn + zlen l < 18446744073709551616 ->
  stats_from fuel h (head_ptr a l) fb fn lf =
  Ok (fb + free_sum l, fn + countb snd l, Z.max lf (max_free l)).
Proof.
  induction l as [|[s f] l IH]; intros fuel h a fb fn lf Hl Ha Hf Hfb Hfn Hlf Hw1 Hw2;
    (destruct fuel as [|fuel]; [simpl in Hf; lia|]); cbn [stats_from head_ptr].
  - simpl. rewrite countb_nil.
    unfold free_sum, max_free; simpl. repeat f_equal; lia.
  - destruct (Z.eqb_spec a 0); [lia|]. pose proof Hl as (Hs & Hm & Hl').
    simpl in Hf. rewrite (rd_ok _ _ _ Hm). simpl. rewrite countb_cons. unfold zlen in Hw2. simpl in Hw2.
    change (match l with [] => 0 | _ => a + 24 + s end) with (head_ptr (a + 24 + s) l).
    pose proof (free_sum_bound _ _ _ Hl') as Hb. unfold free_sum, max_free in *.
    cbn [foldr fst snd] in *. destruct f; cbn [b_free b_size b_next] in *.
    + rewrite !u64_small by lia.
      assert ((if lf <? s then s else lf) = Z.max lf s) as -> by zcases.
      rewrite IH by (done || lia || (unfold zlen; lia)).
      rewrite Z.max_assoc, !Z.add_assoc. done.
    + rewrite IH by (done || lia || (unfold zlen; lia)). done.
Qed.

Lemma layout_count m a l : layout m a l -> zlen l * HDR <= end_of a l - a.
Proof.
  revert a. induction l as [|[s f] l IH]; intros a; unfold zlen in *; simpl; [lia|].
  intros (Hs & _ & Hl%IH). lia.
Qed.

(** the statistics of [heap_get_stats] are exact: arena size, sum, count
    and maximum over the free blocks, and everything else counted as used;
    [heap_free_bytes] agrees with them. *)
Theorem heap_get_stats_correct h l :
  heap_inv h l ->
  heap_get_stats h =
    Ok (mk_stats (heap_end h - heap_start h) (heap_end h - heap_start h - free_sum l)
          (free_sum l) (max_free l) (countb snd l)) /\
  heap_free_bytes h = Ok (free_sum l).
Proof.
  intros Hi. pose proof Hi as [Hst ? Hli Hlay Hend Hwd Hne ? ?].
  pose proof (free_sum_bound _ _ _ Hlay). pose proof (layout_count _ _ _ Hlay).
  pose proof (layout_size _ _ _ Hlay). pose proof (zlen_nonneg l).
  unfold heap_get_stats, heap_free_bytes. rewrite <- (heap_inv_head _ _ Hi).
  rewrite (stats_from_spec l) by (done || lia || (unfold walk_fuel; lia)).
  rewrite (free_bytes_from_spec l) by (done || lia || (unfold walk_fuel; lia)).
  simpl. rewrite (u64_small (heap_end h - heap_start h)), u64_small by lia.
  assert (0 <= max_free l) as Hm.
  { unfold max_free. clear. induction l as [|[s f] l IH]; simpl; [lia|]. destruct f; simpl; lia. }
  rewrite Z.max_r by lia. done.
Qed.

(** [kcalloc] refuses exactly the products that overflow; otherwise it
    behaves as [kmalloc] of the product and the returned block is zero-filled,
    with no other payload byte changed. *)
Theorem kcalloc_correct h l nmemb size :
  heap_inv h l -> 0 <= nmemb -> 0 <= size ->
  heap_end h + nmemb * size + 40 < 18446744073709551616 ->
  kcalloc h nmemb size = Ok (0, h) \/
  (exists p h' l', kcalloc h nmemb size = Ok (p, h') /\ 0 < p /\ heap_inv h' l' /\
     fresh_block h h' l l' p (nmemb * size) /\
     (forall x, p <= x < p + nmemb * size -> bytes h' !! x = Some 0) /\
     (forall x, ~ (p <= x < p + nmemb * size) -> bytes h' !! x = bytes h !! x)).
Proof.
  intros Hi Hn Hs Hw. unfold kcalloc.
  pose proof (end_of_ge _ _ _ (hi_layout _ _ Hi)) as Hge. rewrite (hi_end _ _ Hi) in Hge.
  pose proof (hi_start _ _ Hi).
  destruct (negb (nmemb =? 0) && (18446744073709551615 / nmemb <? size)) eqn:Eov; [by left|].
  rewrite u64_small by nia. cbv zeta.
  destruct (kmalloc_cases h l (nmemb * size) Hi ltac:(nia) ltac:(lia))
    as [[-> _]|(p & h' & l' & -> & Hi' & Hp & _ & _ & _ & E3 & Hf)]; simpl; [by left|right].
  destruct (Z.eqb_spec p 0); [lia|]. eexists p, _, l'.
  split; [done|]. split; [done|]. split; [by apply with_bytes_inv|]. split; [done|]. simpl.
  split; intros x Hx; rewrite fill_bytes_lookup, E3 by nia; zcases; done.
Qed.

(** A live block's header, as [rd] finds it. *)
Lemma live_header h l p s :
  heap_inv h l -> (p, s) ∈ live (heap_start h) l ->
  exists b, rd h (u64 (p - HDR)) = Ok b /\ b_size b = s /\ 0 < s /\ heap_start h + HDR <= p.
Proof.
  intros Hi Hl. apply live_split in Hl as (l1 & l2 & -> & ->).
  destruct (layout_mid_header h l1 s l2 Hi) as (Hs & Hge & Hle & Hm & _ & _).
  pose proof (hi_start _ _ Hi). pose proof (hi_width _ _ Hi).
  replace (end_of (heap_start h) l1 + 24 - 24) with (end_of (heap_start h) l1) by lia.
  rewrite u64_small by lia. rewrite (rd_ok _ _ _ Hm). eexists. split_and!; (done || lia).
Qed.

(** Distinct live blocks are apart. *)
Lemma live_apart a l : forall pre p s post q t,
  nonneg l -> live a l = pre ++ (p, s) :: post -> (q, t) ∈ pre ++ post ->
  q + t <= p - HDR \/ p + s <= q - HDR.
Proof.
  revert a. induction l as [|[s0 f0] l IH]; intros a pre p s post q t Hn; simpl.
  { by destruct pre. }
  apply list.Forall_cons in Hn as [Hs0 Hn]. simpl in Hs0. destruct f0; [by apply IH|].
  destruct pre as [|x pre]; simpl; intros Heq.
  - injection Heq as <- <- <-. intros Hin. right. apply live_bounds in Hin; [lia|done].
  - injection Heq as <- Hl. intros [[= -> ->]|Hin]%elem_of_cons; [|by eapply IH].
    left. assert ((p, s) ∈ live (a + 24 + s0) l) as Hp by (rewrite Hl; set_solver).
    apply live_bounds in Hp; [lia|done].
Qed.

(** The two outcomes of growing a live block. *)
Lemma krealloc_grow h l ptr s size :
  heap_inv h l -> (ptr, s) ∈ live (heap_start h) l -> s < size ->
  heap_end h + size + 40 < 18446744073709551616 ->
  krealloc h ptr size = Ok (0, h) \/
  (exists p h' l', krealloc h ptr size = Ok (p, h') /\ 0 < p /\ heap_inv h' l' /\
     (exists t, size <= t /\ (p, t) ∈ live (heap_start h') l') /\
     (ptr, s) ∉ live (heap_start h') l' /\
     (forall i, 0 <= i < s -> bytes h' !! (p + i) = bytes h !! (ptr + i)) /\
     (forall q t i, (q, t) ∈ live (heap_start h) l -> q <> ptr -> 0 <= i < t ->
        (q, t) ∈ live (heap_start h') l' /\ bytes h' !! (q + i) = bytes h !! (q + i))).
Proof.
  intros Hi Hl Hlt Hw. destruct (live_header h l ptr s Hi Hl) as (b & Hb & Hbs & Hs & Hptr).
  pose proof (hi_start _ _ Hi). unfold krealloc.
  destruct (Z.eqb_spec ptr 0); [lia|]. destruct (Z.eqb_spec size 0); [lia|]. cbv zeta.
  rewrite Hb. simpl. rewrite Hbs. destruct (Z.leb_spec size s); [lia|].
  destruct (kmalloc_cases h l size Hi ltac:(lia) Hw)
    as [[-> _]|(p & h1 & l1 & -> & Hi1 & Hp & _ & E1 & E2 & E3 & t & pre & post & El & El1 & Ht & _ & _ & _ & Hap)];
    simpl; [by left|right].
  destruct (Z.eqb_spec p 0); [lia|].
  assert (forall q u, (q, u) ∈ live (heap_start h) l -> (q, u) ∈ live (heap_start h1) l1) as Hkeep.
  { intros q u. rewrite E1, El, El1. set_solver. }
  destruct (live_header h1 l1 ptr s Hi1 (Hkeep _ _ Hl)) as (b1 & -> & Hb1s & _). simpl. rewrite Hb1s.
  set (h2 := with_bytes h1 (copy_bytes (bytes h1) p ptr s)).
  assert (heap_inv h2 l1) as Hi2 by (by apply with_bytes_inv).
  destruct (kfree_refines h2 l1 ptr s Hi2 (Hkeep _ _ Hl)) as (h3 & -> & Hi3 & F1 & F2 & F3). simpl.
  destruct (afree_live (heap_start h2) l1 ptr s) as (pr & po & Hpr & Hpo);
    [by eapply heap_inv_nonneg|by apply Hkeep|].
  pose proof (live_apart (heap_start h2) l1 pr ptr s po) as Hapart.
  pose proof (Hap ptr s Hl) as Hdis.
  exists p, h3, (afree (heap_start h2) l1 ptr). rewrite F1, Hpo, F3. simpl. rewrite E3.
  split_and!; try done.
  - exists t. split; [done|]. assert ((p, t) ∈ live (heap_start h2) l1) as Hin by (simpl; rewrite E1, El1; set_solver).
    rewrite Hpr in Hin. apply elem_of_app in Hin as [?|[[= -> ->]|?]%elem_of_cons]; [set_solver|lia|set_solver].
  - intros Hin. destruct (Hapart ptr s) as [?|?]; try done; [by eapply heap_inv_nonneg|lia|lia].
  - intros i Hi0. rewrite copy_bytes_lookup by lia. zcases. f_equal. lia.
  - intros q u i Hq Hne Hi0. split.
    + assert ((q, u) ∈ live (heap_start h2) l1) as Hin by (by apply Hkeep).
      rewrite Hpr in Hin. apply elem_of_app in Hin as [?|[[= -> ->]|?]%elem_of_cons]; [set_solver|done|set_solver].
    + rewrite copy_bytes_lookup by lia. specialize (Hap q u Hq). zcases; done.
Qed.

(** growing a live block with [krealloc] either fails and leaves the heap
    alone, or moves it: the new block holds the old block's bytes, the old
    block is no longer live, every other live block keeps its bytes. *)
Theorem krealloc_moves h l ptr s size :
  heap_inv h l -> (ptr, s) ∈ live (heap_start h) l -> s < size ->
  heap_end h + size + 40 < 18446744073709551616 ->
  krealloc h ptr size = Ok (0, h) \/
  (exists p h' l', krealloc h ptr size = Ok (p, h') /\ 0 < p /\ heap_inv h' l' /\
     (exists t, size <= t /\ (p, t) ∈ live (heap_start h') l') /\
     (ptr, s) ∉ live (heap_start h') l' /\
     (forall i, 0 <= i < s -> bytes h' !! (p + i) = bytes h !! (ptr + i)) /\
     (forall q t i, (q, t) ∈ live (heap_start h) l -> q <> ptr -> 0 <= i < t ->
        (q, t) ∈ live (heap_start h') l' /\ bytes h' !! (q + i) = bytes h !! (q + i))).
Proof. apply krealloc_grow. Qed.

(** ** Reachable heaps *)

(** One request of a client: sizes below the wrap-around bound, frees and
    reallocations of live blocks only. *)
Inductive heap_step (h : heap) : heap -> Prop :=
  | step_malloc size p h' :
      0 <= size -> heap_end h + size + 40 < 18446744073709551616 ->
      kmalloc h size = Ok (p, h') -> heap_step h h'
  | step_calloc n size p h' :
      0 <= n -> 0 <= size -> heap_end h + n * size + 40 < 18446744073709551616 ->
      kcalloc h n size = Ok (p, h') -> heap_step h h'
  | step_realloc l ptr s size p h' :
      heap_inv h l -> (ptr, s) ∈ live (heap_start h) l ->
      0 <= size -> heap_end h + size + 40 < 18446744073709551616 ->
      krealloc h ptr size = Ok (p, h') -> heap_step h h'
  | step_free l p s h' :
      heap_inv h l -> (p, s) ∈ live (heap_start h) l -> kfree h p = Ok h' -> heap_step h h'
  | step_write m : heap_step h (with_bytes h m).

(** Every request of a step returns, with a well-formed heap. *)
Lemma kmalloc_total h l size :
  heap_inv h l -> 0 <= size -> heap_end h + size + 40 < 18446744073709551616 ->
  exists p h' l', kmalloc h size = Ok (p, h') /\ heap_inv h' l'.
Proof. intros Hi Hs Hw. destruct (kmalloc_cases h l size Hi Hs Hw) as [[? _]|(p & h' & l' & ? & ? & _)]; eauto. Qed.

Lemma kcalloc_total h l n size :
  heap_inv h l -> 0 <= n -> 0 <= size -> heap_end h + n * size + 40 < 18446744073709551616 ->
  exists p h' l', kcalloc h n size = Ok (p, h') /\ heap_inv h' l'.
Proof.
  intros Hi Hn Hs Hw. unfold kcalloc. destruct (negb (n =? 0) && _); [eauto|].
  pose proof (hi_start _ _ Hi). pose proof (end_of_ge _ _ _ (hi_layout _ _ Hi)). pose proof (hi_end _ _ Hi).
  rewrite u64_small by nia. cbv zeta.
  destruct (kmalloc_total h l (n * size) Hi ltac:(nia) Hw) as (p & h' & l' & -> & Hi'). simpl.
  destruct (p =? 0); [eauto|]. eexists p, _, l'. split; [done|by apply with_bytes_inv].
Qed.

Lemma krealloc_total h l ptr s size :
  heap_inv h l -> (ptr, s) ∈ live (heap_start h) l -> 0 <= size -> heap_end h + size + 40 < 18446744073709551616 ->
  exists p h' l', krealloc h ptr size = Ok (p, h') /\ heap_inv h' l'.
Proof.
  intros Hi Hl Hsz Hw. destruct (live_header h l ptr s Hi Hl) as (b & Hb & Hbs & Hs & Hptr).
  pose proof (hi_start _ _ Hi). destruct (decide (s < size)) as [Hlt|Hge].
  { destruct (krealloc_grow h l ptr s size Hi Hl Hlt Hw) as [-> |(q & h1 & l1 & -> & _ & Hi1 & _)]; eauto. }
  unfold krealloc. destruct (Z.eqb_spec ptr 0); [lia|]. destruct (Z.eqb_spec size 0).
  - destruct (kfree_refines h l ptr s Hi Hl) as (h1 & -> & Hi1 & _). simpl. by eexists 0, h1, _.
  - cbv zeta. rewrite Hb. simpl. rewrite Hbs. destruct (Z.leb_spec size s); [by exists ptr, h, l|lia].
Qed.

Lemma heap_step_inv h h' l : heap_inv h l -> heap_step h h' -> exists l', heap_inv h' l'.
Proof.
  intros Hi Hs. destruct Hs as [size p h' Hsz Hw Hk|n size p h' Hn Hsz Hw Hk|l0 ptr s size p h' Hi0 Hl Hsz Hw Hk
                               |l0 p s h' Hi0 Hl Hk|m].
  - destruct (kmalloc_total h l size Hi Hsz Hw) as (q & h1 & l1 & E & ?). rewrite Hk in E. simplify_eq. eauto.
  - destruct (kcalloc_total h l n size Hi Hn Hsz Hw) as (q & h1 & l1 & E & ?). rewrite Hk in E. simplify_eq. eauto.
  - destruct (krealloc_total h l0 ptr s size Hi0 Hl Hsz Hw) as (q & h1 & l1 & E & ?). rewrite Hk in E. simplify_eq. eauto.
  - destruct (kfree_refines h l0 p s Hi0 Hl) as (h1 & E & ? & _). rewrite Hk in E. simplify_eq. eauto.
  - eauto using with_bytes_inv.
Qed.

(** C13: Every heap reachable from a well-formed one by allocations whose size
    stays below the wrap-around bound, reallocations and releases of live
    blocks, and payload writes is well formed: the integrity check passes, and
    in it every call returns - [kmalloc] and [kcalloc] of a size below the
    bound, [krealloc] of a live block to such a size, [kfree] of a live
    block.  A request above the bound is outside the claim: it can leave the
    arena, as the last theorem of this file shows. *)
Theorem heap_reachable_clean h0 l0 h :
  heap_inv h0 l0 -> rtc heap_step h0 h ->
  heap_verify h = Ok 0 /\
  exists l, heap_inv h l /\
    (forall size, 0 <= size -> heap_end h + size + 40 < 18446744073709551616 ->
       exists p h', kmalloc h size = Ok (p, h')) /\
    (forall n size, 0 <= n -> 0 <= size -> heap_end h + n * size + 40 < 18446744073709551616 ->
       exists p h', kcalloc h n size = Ok (p, h')) /\
    (forall ptr s size, (ptr, s) ∈ live (heap_start h) l -> 0 <= size ->
       heap_end h + size + 40 < 18446744073709551616 -> exists p h', krealloc h ptr size = Ok (p, h')) /\
    (forall p s, (p, s) ∈ live (heap_start h) l -> exists h', kfree h p = Ok h').
Proof.
  intros Hi Hr. assert (exists l, heap_inv h l) as [l Hl].
  { revert l0 Hi. induction Hr as [h|h h1 h2 Hs _ IH]; intros l0 Hi; [eauto|].
    destruct (heap_step_inv _ _ _ Hi Hs) as [l1 Hi1]. eauto. }
  split; [by eapply heap_inv_verify|]. exists l. split_and!; [done|..].
  - intros size Hs Hw. destruct (kmalloc_total h l size Hl Hs Hw) as (p & h' & _ & ? & _). eauto.
  - intros n size Hn Hs Hw. destruct (kcalloc_total h l n size Hl Hn Hs Hw) as (p & h' & _ & ? & _). eauto.
  - intros ptr s size Hp Hs Hw. destruct (krealloc_total h l ptr s size Hl Hp Hs Hw) as (p & h' & _ & ? & _). eauto.
  - intros p s Hp. destruct (kfree_refines h l p s Hl Hp) as (h' & ? & _). eauto.
Qed.

(** ** Initialisation *)

(** A usable entry of the boot map: 8-aligned, and not reaching the top of
    the address space. *)
Definition entry_ok (e : memory_map) : Prop :=
  mm_type e = 1 ->
  0 <= entry_base e /\ entry_base e mod 8 = 0 /\ entry_length e mod 8 = 0 /\
  entry_base e + entry_length e + PAGE_SIZE < 18446744073709551616.

Lemma pick_arena_spec hb map start :
  pick_arena hb map start = (0, start) \/
  exists e, e ∈ map /\ mm_type e = 1 /\ hb <= entry_base e /\
            pick_arena hb map start = (entry_length e, entry_base e).
Proof.
  unfold pick_arena. generalize 0 as sz. revert start.
  induction map as [|e map IH]; intros start sz; cbn [foldl]; [by left|].
  destruct (Z.eqb_spec (mm_type e) 1); simpl.
  - destruct ((sz <? entry_length e) && (hb <=? entry_base e)) eqn:E.
    + apply andb_true_iff in E as [_ Hb%Z.leb_le]. right.
      destruct (IH (entry_base e) (entry_length e)) as [-> |(e' & Hin & ? & ? & ->)].
      * exists e. split_and!; (done || set_solver).
      * exists e'. split_and!; (done || set_solver).
    + destruct (IH start sz) as [-> |(e' & Hin & ? & ? & ->)]; [by left|right].
      exists e'. split_and!; (done || set_solver).
  - destruct (IH start sz) as [-> |(e' & Hin & ? & ? & ->)]; [by left|right].
    exists e'. split_and!; (done || set_solver).
Qed.

Lemma arena_bounds_spec kend map s e :
  0 <= kend < 9223372036854775808 -> Forall entry_ok map -> arena_bounds kend map = (s, e) ->
  kend <= s /\ 2097152 <= s /\ s mod 8 = 0 /\ (e - s) mod 8 = 0 /\
  1048576 < e - s <= 33554432 /\ e + PAGE_SIZE < 18446744073709551616.
Proof.
  intros Hk Hmap. unfold arena_bounds, PAGE_SIZE in *.
  rewrite u64_small by lia. change (18446744073709551615 - 4095) with (2 ^ 64 - 2 ^ 12).
  rewrite land_align by lia. change (2 ^ 12) with 4096.
  set (hb := kend + 4095 - (kend + 4095) mod 4096).
  assert (kend <= hb <= kend + 4095 /\ hb mod 8 = 0) as [Hhb Hhb8] by (subst hb; split; mlia).
  set (base := if hb <? 2097152 then 2097152 else hb).
  assert (kend <= base /\ 2097152 <= base <= 2097152 + kend + 4095 /\ base mod 8 = 0) as (Hb1 & Hb2 & Hb3).
  { subst base. destruct (Z.ltb_spec hb 2097152); split_and!; try lia. done. }
  assert (forall s e, (base, u64 (base + 33554432)) = (s, e) ->
    kend <= s /\ 2097152 <= s /\ s mod 8 = 0 /\ (e - s) mod 8 = 0 /\
    1048576 < e - s <= 33554432 /\ e + 4096 < 18446744073709551616) as Hdef.
  { intros ? ? [= <- <-]. rewrite u64_small by lia. split_and!; mlia. }
  destruct map as [|m0 map]; [apply Hdef|].
  destruct (pick_arena_spec base (m0 :: map) base) as [-> |(en & Hin & Hty & Hge & ->)]; [apply Hdef|].
  destruct (Z.ltb_spec 1048576 (entry_length en)); [|apply Hdef].
  rewrite list.Forall_forall in Hmap. destruct (Hmap en Hin Hty) as (H1 & H2 & H3 & H4). unfold PAGE_SIZE in H4.
  intros [= <- <-]. destruct (Z.ltb_spec 33554432 (entry_length en));
    rewrite u64_small by lia; split_and!; mlia.
Qed.

Lemma memory_init_bounds kend map st h st' :
  memory_init kend map st = (h, st') -> arena_bounds kend map = (heap_start h, heap_end h).
Proof. unfold memory_init. destruct (arena_bounds kend map). intros H. inv H. done. Qed.

(** [memory_init] builds a well-formed heap above the kernel image, of
    more than 1 MiB and at most 32 MiB, and marks every physical page of the
    arena in the page allocator, so the PMM never hands out heap memory. *)
Theorem memory_init_correct kend map st h st' :
  0 <= kend < 9223372036854775808 -> Forall entry_ok map -> pmm_wf st ->
  memory_init kend map st = (h, st') ->
  heap_inv h [(heap_end h - heap_start h - HDR, true)] /\
  kend <= heap_start h /\ 1048576 < heap_end h - heap_start h <= 33554432 /\
  pmm_wf st' /\
  forall q, 0 <= q < PMM_MAX_PAGES -> in_region (heap_start h) (heap_end h - heap_start h) q = true ->
    page_used (pmm_bitmap st') q = true.
Proof.
  intros Hk Hmap Hwf. unfold memory_init. destruct (arena_bounds kend map) as [s e] eqn:Eab.
  destruct (arena_bounds_spec kend map s e Hk Hmap Eab) as (H1 & H2 & H3 & H4 & H5 & H6).
  unfold PAGE_SIZE in H6. intros [= <- <-]. simpl. rewrite !u64_small by lia.
  destruct (pmm_mark_region_spec st s (e - s) true Hwf) as [Hwf' Hu]; [lia|lia|unfold PAGE_SIZE; lia|].
  split; [|split_and!; try done; try lia].
  - constructor; simpl; try done; try lia.
    + split; [lia|]. split; [by rewrite lookup_singleton_eq|done].
    + constructor; [|constructor]. simpl. mlia.
  - intros q Hq Hin. rewrite Hu by done. by rewrite Hin.
Qed.

Lemma amalloc_too_big m a l size : layout m a l -> end_of a l - a < size -> amalloc a l size = None.
Proof.
  revert a. induction l as [|[s f] l IH]; intros a; cbn [layout amalloc end_of]; [done|].
  intros (Hs & _ & Hl) Hlt. pose proof (end_of_ge _ _ _ Hl).
  destruct (Z.leb_spec size s); [lia|]. rewrite andb_false_r.
  rewrite IH; [done|done|lia].
Qed.

(** C40: the size arithmetic of [kmalloc] is not guarded against wrap-around:
    on every well-formed heap a request of 2^64 - 24 bytes does not fail. The
    bounds test of the tail wraps, a block header is written at [heap_end],
    outside the arena, and a pointer behind it is returned. *)
Theorem kmalloc_wraps_past_arena h l :
  heap_inv h l -> heap_end h + HDR < 18446744073709551616 ->
  exists h', kmalloc h 18446744073709551592 = Ok (heap_end h + HDR, h') /\
    hdrs h' !! heap_end h = Some (mk_block 18446744073709551592 0 false HEAP_MAGIC).
Proof.
  intros Hi Hw. pose proof Hi as [Hst Hal Hli Hlay Hend Hwd Hne Has Hco].
  pose proof (end_of_ge _ _ _ Hlay). unfold kmalloc.
  assert (round_request 18446744073709551592 = 18446744073709551592) as -> by reflexivity. cbv zeta.
  pose proof (find_fit_spec h l (heap_start h) (walk_fuel h) 0 18446744073709551592) as Hff.
  pose proof (layout_size _ _ _ Hlay).
  specialize (Hff Hlay Hst ltac:(lia) ltac:(lia) ltac:(unfold walk_fuel; lia)).
  rewrite (amalloc_too_big (hdrs h)), (heap_inv_head _ _ Hi) in Hff by (done || lia).
  rewrite Hff. simpl. unfold grow.
  destruct (last_addr_spec (hdrs h) 0 (heap_start h) l) as (b & Hb & Hbpos & Hpos & Hle); [done..|].
  set (la := last_addr 0 (heap_start h) l) in *.
  destruct (Z.eqb_spec la 0); [lia|]. cbn [negb].
  rewrite (rd_ok _ _ _ Hb). cbn [mbind res_bind]. rewrite Hle, Hend.
  rewrite (u64_small (heap_end h)) by lia.
  replace (u64 (heap_end h + 24 + 18446744073709551592)) with (heap_end h)
    by (unfold u64; rewrite <- (Z.mod_small (heap_end h) 18446744073709551616) at 1 by lia;
        rewrite <- (Z_mod_plus_full (heap_end h) 1); f_equal; lia).
  rewrite Z.leb_refl. cbn [negb].
  rewrite (rd_ok _ la b) by (simpl; by rewrite lookup_insert_ne by lia).
  simpl. eexists. rewrite u64_small by lia. split; [done|].
  simpl. rewrite lookup_insert_ne by lia. by rewrite lookup_insert_eq.
Qed.

(** ** Concrete heaps *)

(** A fresh one-page arena, and the same arena after [kmalloc(100)]. *)
Definition heap_example : heap :=
  mk_heap 4096 8192 4096 {[4096 := mk_block 4072 0 true HEAP_MAGIC]} ∅.

Definition heap_example1 : heap :=
  mk_heap 4096 8192 4096
    (<[4096 := mk_block 104 4224 false HEAP_MAGIC]>
       (<[4224 := mk_block 3944 0 true HEAP_MAGIC]> (hdrs heap_example))) ∅.

Lemma heap_example_inv : heap_inv heap_example [(4072, true)].
Proof. constructor; simpl; try done. constructor; [done|constructor]. Qed.

Lemma heap_example1_inv : heap_inv heap_example1 [(104, false); (3944, true)].
Proof. constructor; simpl; try done. repeat constructor. Qed.

Lemma heap_example1_live : (4120, 104) ∈ live (heap_start heap_example1) [(104, false); (3944, true)].
Proof. left. Qed.

Lemma kmalloc_correct_witness :
  kmalloc heap_example 100 = Ok (4120, heap_example1) /\
  exists l', heap_inv heap_example1 l' /\ fresh_block heap_example heap_example1 [(4072, true)] l' 4120 100.
Proof.
  assert (kmalloc heap_example 100 = Ok (4120, heap_example1)) as E by reflexivity.
  split; [exact E|].
  destruct (kmalloc_correct heap_example [(4072, true)] 100 heap_example_inv) as
    [[H _]|(_ & p & h' & l' & H & _ & Hi & _ & _ & Hf)]; [done|done| |].
  - rewrite E in H. discriminate H.
  - rewrite E in H. injection H as <- <-. exists l'. split; [exact Hi|exact Hf].
Defined.

Lemma kfree_correct_witness : exists h', kfree heap_example1 4120 = Ok h' /\ b_size <$> hdrs h' !! 4096 = Some 4072.
Proof.
  destruct (kfree_correct heap_example1 _ 4120 104 heap_example1_inv heap_example1_live)
    as (h' & l' & pre & post & Hk & _).
  exists h'. split; [exact Hk|]. vm_compute in Hk. injection Hk as <-. reflexivity.
Defined.

Lemma kmalloc_kfree_roundtrip_witness :
  exists h'', kfree heap_example1 4120 = Ok h'' /\ heap_inv h'' [(4072, true)].
Proof.
  destruct (kmalloc_kfree_roundtrip heap_example [(4072, true)] 100 4120 heap_example1 heap_example_inv)
    as (h'' & Hk & Hi & _); [done|done|reflexivity|done|].
  exists h''. split; [exact Hk|exact Hi].
Defined.

Lemma heap_get_stats_correct_witness :
  heap_get_stats heap_example1 = Ok (mk_stats 4096 152 3944 3944 1).
Proof. exact (proj1 (heap_get_stats_correct _ _ heap_example1_inv)). Defined.

Lemma kcalloc_correct_witness :
  exists p h', kcalloc heap_example 4 8 = Ok (p, h') /\ bytes h' !! (p + 31) = Some 0.
Proof.
  destruct (kcalloc_correct heap_example [(4072, true)] 4 8 heap_example_inv)
    as [H|(p & h' & l' & Hk & Hp & _ & _ & Hz & _)]; [done|done|done| |].
  - vm_compute in H. discriminate H.
  - exists p, h'. split; [exact Hk|]. apply Hz. lia.
Defined.

Lemma krealloc_moves_witness :
  exists p h', krealloc (with_bytes heap_example1 {[4120 := 7]}) 4120 200 = Ok (p, h') /\
               bytes h' !! p = Some 7.
Proof.
  destruct (krealloc_moves (with_bytes heap_example1 {[4120 := 7]}) [(104, false); (3944, true)] 4120 104 200)
    as [H|(p & h' & l' & Hk & _ & _ & _ & _ & Hc & _)].
  - apply with_bytes_inv, heap_example1_inv.
  - exact heap_example1_live.
  - lia.
  - done.
  - vm_compute in H. discriminate H.
  - exists p, h'. split; [exact Hk|]. specialize (Hc 0). rewrite !Z.add_0_r in Hc.
    rewrite Hc by lia. reflexivity.
Defined.

Lemma heap_reachable_clean_witness : heap_verify heap_example1 = Ok 0.
Proof.
  refine (proj1 (heap_reachable_clean heap_example [(4072, true)] heap_example1 heap_example_inv _)).
  apply rtc_once, (step_malloc _ 100 4120); [done|done|reflexivity].
Defined.

Lemma memory_init_correct_witness :
  exists h st', memory_init 3000000 [mk_mmap 4194304 0 8388608 0 1] pmm_full = (h, st') /\
    heap_start h = 4194304 /\ page_used (pmm_bitmap st') 1024 = true.
Proof.
  destruct (memory_init 3000000 [mk_mmap 4194304 0 8388608 0 1] pmm_full) as [h st'] eqn:E.
  assert ((4194304, 12582912) = (heap_start h, heap_end h)) as Eb.
  { rewrite <- (memory_init_bounds _ _ _ _ _ E). reflexivity. }
  injection Eb as E1 E2.
  exists h, st'. split; [reflexivity|]. split; [exact (eq_sym E1)|].
  destruct (memory_init_correct 3000000 [mk_mmap 4194304 0 8388608 0 1] pmm_full h st')
    as (_ & _ & _ & _ & Hu); [lia| |exact pmm_full_is_wf|exact E|].
  - constructor; [|constructor]. intros _. vm_compute. intuition discriminate.
  - apply Hu; [unfold PMM_MAX_PAGES; lia|]. rewrite <- E1, <- E2. reflexivity.
Defined.

Lemma kmalloc_wraps_past_arena_witness :
  exists h', kmalloc heap_example1 18446744073709551592 = Ok (8216, h').
Proof.
  destruct (kmalloc_wraps_past_arena heap_example1 _ heap_example1_inv) as (h' & Hk & _); [done|].
  exists h'. exact Hk.
Defined.
