(* ===== verification/Huffman.v ===== *)
(** * Huffman: bit reader and Huffman tables of src/src/kernel/pkg/inflate.c

    The input half of [inf_state_t] is [reader]; [huff] is [huff_t], with the
    32768-entry lookup table as a finite map (absent entries are the zeroes of
    the memset). The reference definitions at the end of the first part are
    the bit stream a reader stands for and the canonical code of RFC 1951
    3.2.2, decoded one bit at a time. *)

From S2P Require Import Prelude.

(** ** The bit accumulator *)

Record reader : Type := mk_reader {
  in_ : list Z;
  in_pos : Z;
  bitbuf : Z;      (* uint64_t *)
  bitcnt : Z;
}.

(** Each turn adds 8 bits and the loop stops above 56, so nine tests are
    enough. *)
Fixpoint refill_loop (fuel : nat) (r : reader) : res reader :=
  match fuel with
  | O => Timeout
  | S fuel' =>
      if (bitcnt r <=? 56) && (in_pos r <? zlen (in_ r)) then
        b ← ld (in_ r) (in_pos r);
        refill_loop fuel'
          (mk_reader (in_ r) (in_pos r + 1)
             (Z.lor (bitbuf r) (u64 (Z.shiftl b (bitcnt r)))) (bitcnt r + 8))
      else Ok r
  end.

Definition refill (r : reader) : res reader := refill_loop 9 r.

Definition drop_bits (r : reader) (n : Z) : reader :=
  mk_reader (in_ r) (in_pos r) (Z.shiftr (bitbuf r) n) (bitcnt r - n).

Definition get_bits (r : reader) (n : Z) : res (Z * reader) :=
  r ← (if 0 <? n then refill r else Ok r);
  if bitcnt r <? n then Err (-1)
  else Ok (u32 (Z.land (bitbuf r) (u64 (Z.shiftl 1 n) - 1)), drop_bits r n).

(** ** Huffman tables *)

Definition INFLATE_MAX_BITS : Z := 15.
Definition HTAB_SIZE : Z := 32768.

Definition HENT (sym len : Z) : Z := u16 (Z.lor (Z.lor 1 (Z.shiftl len 1)) (Z.shiftl sym 5)).
Definition HENT_VALID (e : Z) : bool := truthy (Z.land e 1).
Definition HENT_LEN (e : Z) : Z := Z.land (Z.shiftr e 1) 15.
Definition HENT_SYM (e : Z) : Z := Z.shiftr e 5.

Record huff : Type := mk_huff {
  count : list Z;         (* codes per length, 16 entries *)
  sym : list Z;           (* symbols sorted by (length, symbol), 320 entries *)
  table : gmap Z Z;       (* direct 15-bit lookup *)
}.

Definition huff_zero : huff := mk_huff (replicate 16 0) (replicate 320 0) ∅.

(** First code of each length and the number of codes:
    (code, next_code, total). *)
Definition next_codes (h : huff) : res (Z * list Z * Z) :=
  for_ 1 (INFLATE_MAX_BITS + 1) (fun len s =>
    let '(code, next_code, total) := s in
    cp ← ld (count h) (len - 1);
    let code := u16 (Z.shiftl (code + cp) 1) in
    next_code ← st next_code len code;
    c ← ld (count h) len;
    Ok (code, next_code, u32 (total + c)))
    (0, replicate 16 0, 0).

(** The over-subscription check: codes left after each length. *)
Definition kraft_check (h : huff) : res Z :=
  for_ 1 (INFLATE_MAX_BITS + 1) (fun len left =>
    let left := u32 (Z.shiftl left 1) in
    c ← ld (count h) len;
    if left <? c then Err (-1) else Ok (left - c)) 1.

(** The low [len] bits of [c], reversed. *)
Definition bit_reverse (c len : Z) : Z :=
  foldl (fun rev b =>
    if truthy (Z.land c (Z.shiftl 1 b)) then Z.lor rev (Z.shiftl 1 (len - 1 - b)) else rev)
    0 (seqZ 0 len).

(** [for (j = rev; j < HTAB_SIZE; j += stride) table[j] = ent]; the table
    size over the stride bounds the number of turns. *)
Fixpoint fill_from (fuel : nat) (t : gmap Z Z) (j stride ent : Z) : gmap Z Z :=
  match fuel with
  | O => t
  | S fuel' =>
      if j <? HTAB_SIZE then fill_from fuel' (<[j := ent]> t) (j + stride) stride ent else t
  end.

(** One code: entry of the next symbol of length [len]. *)
Definition place_code (h : huff) (len : Z) (s : gmap Z Z * Z * list Z) : res (gmap Z Z * Z * list Z) :=
  let '(t, sym_idx, next_code) := s in
  c ← ld next_code len;
  next_code ← st next_code len (u16 (c + 1));
  sy ← ld (sym h) sym_idx;
  let rev := bit_reverse c len in
  let stride := Z.shiftl 1 len in
  let t := fill_from (Z.to_nat (HTAB_SIZE / stride) + 1) t rev stride (HENT sy len) in
  Ok (t, u16 (sym_idx + 1), next_code).

Definition fill_table (h : huff) (next_code : list Z) : res (gmap Z Z * Z * list Z) :=
  for_ 1 (INFLATE_MAX_BITS + 1) (fun len s =>
    c ← ld (count h) len;
    for_ 0 c (fun _ s => place_code h len s) s)
    (∅, 0, next_code).

Definition huff_build (h : huff) : res huff :=
  r ← next_codes h;
  let '(_, next_code, total) := (r : Z * list Z * Z) in
  if (total =? 0) || (320 <? total) then Err (-1)
  else
    _ ← kraft_check h;
    r ← fill_table h next_code;
    let '(t, _, _) := (r : gmap Z Z * Z * list Z) in
    Ok (mk_huff (count h) (sym h) t).

Definition huff_decode (r : reader) (h : huff) : res (Z * reader) :=
  r ← refill r;
  if bitcnt r <? 1 then Err (-1)
  else
    let e := default 0 (table h !! Z.land (bitbuf r) (HTAB_SIZE - 1)) in
    if negb (HENT_VALID e) then Err (-1)
    else if bitcnt r <? HENT_LEN e then Err (-1)
    else Ok (HENT_SYM e, drop_bits r (HENT_LEN e)).

(** ** Reference definitions

    A bit stream is a number and its length: bit [i] is the [i]-th bit to be
    read. Reading [n] bits divides by [2^n]. *)

Record bits : Type := mk_bits { bs_val : Z; bs_len : Z }.

Definition take_bits (n : Z) (b : bits) : option (Z * bits) :=
  if bs_len b <? n then None
  else Some (bs_val b mod 2 ^ n, mk_bits (bs_val b / 2 ^ n) (bs_len b - n)).

(** Little-endian value of a byte string: the bits of its bytes, each byte
    least significant bit first. *)
Fixpoint le_val (l : list Z) : Z :=
  match l with
  | [] => 0
  | b :: l' => b + 256 * le_val l'
  end.

Definition bits_of (l : list Z) : bits := mk_bits (le_val l) (8 * zlen l).

Definition cnt (h : huff) (len : Z) : Z := default 0 (zget (count h) len).
Definition symat (h : huff) (i : Z) : Z := default 0 (zget (sym h) i).

(** Canonical decoding one bit at a time: [first] is the first code of length
    [len], [index] the number of shorter codes. *)
Fixpoint canon_go (fuel : nat) (h : huff) (len code first index : Z) (b : bits) : option (Z * bits) :=
  match fuel with
  | O => None
  | S fuel' =>
      '(bit, b) ← take_bits 1 b;
      let code := code + bit in
      if code - cnt h len <? first then Some (symat h (index + (code - first)), b)
      else canon_go fuel' h (len + 1) (2 * code) (2 * (first + cnt h len)) (index + cnt h len) b
  end.

Definition canon_decode (h : huff) (b : bits) : option (Z * bits) := canon_go 15 h 1 0 0 0 b.

(** Well-formed length counts and symbols, before the table is built. *)
Definition huff_wf (h : huff) : Prop :=
  zlen (count h) = 16 /\ cnt h 0 = 0 /\ Forall (fun c => 0 <= c < 65536) (count h) /\
  zlen (sym h) = 320 /\ Forall (fun s => 0 <= s < 2048) (sym h).

(** The reader's buffered bits followed by the bytes not yet read. *)
Definition rest (r : reader) : list Z := drop (Z.to_nat (in_pos r)) (in_ r).

Definition rbits (r : reader) : bits :=
  mk_bits (bitbuf r + 2 ^ bitcnt r * le_val (rest r)) (bitcnt r + 8 * zlen (rest r)).

Definition reader_wf (r : reader) : Prop :=
  Forall is_byte (in_ r) /\ 0 <= in_pos r <= zlen (in_ r) /\
  0 <= bitcnt r <= 64 /\ 0 <= bitbuf r < 2 ^ bitcnt r /\ bitcnt r <= 8 * in_pos r.

(** ** The reader implements the bit stream *)

Lemma le_val_bounds l : Forall is_byte l -> 0 <= le_val l < 2 ^ (8 * zlen l).
Proof.
  induction 1 as [|b l Hb Hl IH]; [done|].
  cbn [le_val]. replace (8 * zlen (b :: l)) with (8 + 8 * zlen l) by (unfold zlen; simpl; lia).
  rewrite Z.pow_add_r by (unfold zlen; lia). change (2 ^ 8) with 256.
  revert IH. unfold is_byte in Hb. generalize (2 ^ (8 * zlen l)). lia.
Qed.

Lemma rest_cons r b :
  0 <= in_pos r -> zget (in_ r) (in_pos r) = Some b ->
  rest r = b :: drop (Z.to_nat (in_pos r + 1)) (in_ r).
Proof.
  unfold rest, zget. intros Hp Hb. zcases.
  replace (Z.to_nat (in_pos r + 1)) with (S (Z.to_nat (in_pos r))) by lia.
  by apply drop_S.
Qed.

Lemma rest_bytes r : reader_wf r -> Forall is_byte (rest r).
Proof. intros (Hb & _). by apply Forall_drop. Qed.

Lemma zlen_rest r : 0 <= in_pos r <= zlen (in_ r) -> zlen (rest r) = zlen (in_ r) - in_pos r.
Proof. intros H. unfold rest, zlen in *. rewrite length_drop. lia. Qed.

Definition full (r : reader) : Prop := 56 < bitcnt r \/ in_pos r = zlen (in_ r).

Lemma refill_loop_spec fuel r :
  reader_wf r -> 65 - bitcnt r <= 8 * Z.of_nat fuel -> (0 < fuel)%nat ->
  total (fun r' => reader_wf r' /\ rbits r' = rbits r /\ full r' /\ in_ r' = in_ r) (refill_loop fuel r).
Proof.
  revert r. induction fuel as [|fuel IH]; intros r Hwf Hf Hpos; [lia|].
  cbn [refill_loop].
  destruct (Z.leb_spec (bitcnt r) 56) as [H56|]; simpl; [|unfold full; split_and!; auto; lia].
  destruct (Z.ltb_spec (in_pos r) (zlen (in_ r))) as [Hlt|]; simpl.
  2:{ destruct Hwf as (?&?&?&?&?). unfold full, reader_wf. split_and!; auto; lia. }
  pose proof Hwf as (Hby & Hpos' & Hcnt & Hbuf & Hc8).
  eapply total_bind; [apply ld_post; [lia|]; intros v Hv; exact Hv|]. intros b Hb.
  pose proof (Forall_zget _ _ _ _ Hby Hb) as Hb8. unfold is_byte in Hb8.
  set (r' := mk_reader _ _ _ _).
  assert (2 ^ (bitcnt r + 8) = 2 ^ bitcnt r * 256) as Hp8 by (rewrite Z.pow_add_r by lia; done).
  assert (2 ^ (bitcnt r + 8) <= 2 ^ 64) as Hp64 by (apply Z.pow_le_mono_r; lia).
  assert (Z.lor (bitbuf r) (u64 (Z.shiftl b (bitcnt r))) = bitbuf r + 2 ^ bitcnt r * b) as Hlor.
  { rewrite u64_small; [apply lor_shift_add; lia|]. rewrite Z.shiftl_mul_pow2 by lia.
    change 18446744073709551616 with (2 ^ 64). nia. }
  assert (reader_wf r') as Hwf'.
  { unfold reader_wf, r'; simpl. rewrite Hlor, Hp8. split_and!; auto; nia. }
  assert (rbits r' = rbits r) as Hbits.
  { unfold rbits. rewrite (rest_cons r b) by (tauto || lia). unfold r', rest; simpl.
    rewrite Hlor, Hp8. unfold zlen; simpl. f_equal; [ring|lia]. }
  eapply post_conseq; [apply (IH r' Hwf'); unfold r'; simpl; lia|].
  intros r'' (? & ? & ? & ?). rewrite Hbits in *. auto.
Qed.

Lemma refill_spec r :
  reader_wf r -> total (fun r' => reader_wf r' /\ rbits r' = rbits r /\ full r' /\ in_ r' = in_ r) (refill r).
Proof. intros H. apply refill_loop_spec; [done| |lia]. destruct H as (_ & _ & ? & _). lia. Qed.

(** The low [n] buffered bits are the next [n] bits of the stream. *)
Lemma rbits_low r n :
  reader_wf r -> 0 <= n <= bitcnt r -> bs_val (rbits r) mod 2 ^ n = bitbuf r mod 2 ^ n.
Proof.
  intros (_ & _ & Hc & _) Hn. unfold rbits; simpl.
  replace (bitcnt r) with (n + (bitcnt r - n)) at 1 by lia.
  rewrite Z.pow_add_r by lia. rewrite <- Z.mul_assoc, (Z.mul_comm (2 ^ n)).
  apply Z.mod_add. pose proof (Z.pow_pos_nonneg 2 n). lia.
Qed.

Lemma drop_bits_spec r n :
  reader_wf r -> 0 <= n <= bitcnt r ->
  reader_wf (drop_bits r n) /\
  rbits (drop_bits r n) = mk_bits (bs_val (rbits r) / 2 ^ n) (bs_len (rbits r) - n).
Proof.
  intros Hwf Hn. pose proof Hwf as (Hby & Hpos & Hc & Hbuf & Hc8).
  assert (2 ^ bitcnt r = 2 ^ n * 2 ^ (bitcnt r - n)) as Hp.
  { rewrite <- Z.pow_add_r by lia. f_equal. lia. }
  pose proof (Z.pow_pos_nonneg 2 n ltac:(lia) ltac:(lia)).
  pose proof (Z.pow_pos_nonneg 2 (bitcnt r - n) ltac:(lia) ltac:(lia)).
  split.
  - unfold reader_wf, drop_bits; simpl. rewrite Z.shiftr_div_pow2 by lia.
    split_and!; auto; try lia.
    + apply Z.div_pos; lia.
    + apply Z.div_lt_upper_bound; lia.
  - unfold rbits, drop_bits, rest; simpl. rewrite Z.shiftr_div_pow2, Hp by lia.
    f_equal; [|lia].
    rewrite <- Z.mul_assoc, (Z.mul_comm (2 ^ n) (_ * _)), Z.div_add by lia. done.
Qed.

(** The reader is exhausted exactly when the stream is short. *)
Lemma full_short r n : reader_wf r -> full r -> n <= 57 -> bitcnt r < n <-> bs_len (rbits r) < n.
Proof.
  intros (_ & Hpos & _) Hfull Hn. unfold rbits; simpl. rewrite zlen_rest by done.
  unfold full in *. lia.
Qed.

(** What [get_bits] and [huff_decode] promise about a step of the stream. *)
Definition step_ok {A} (r : reader) (want : option (A * bits)) (got : res (A * reader)) : Prop :=
  match want with
  | None => got = Err (-1)
  | Some (v, b) =>
      exists r', got = Ok (v, r') /\ reader_wf r' /\ rbits r' = b /\ in_ r' = in_ r
  end.

Lemma get_bits_spec r n :
  reader_wf r -> 0 < n <= 32 -> step_ok r (take_bits n (rbits r)) (get_bits r n).
Proof.
  intros Hwf Hn. unfold get_bits. destruct (Z.ltb_spec 0 n); [|lia].
  pose proof (refill_spec r Hwf) as (r' & -> & Hwf' & Hb & Hfull & Hin)%total_Ok. simpl.
  rewrite <- Hb. unfold take_bits, step_ok.
  pose proof (full_short r' n Hwf' Hfull ltac:(lia)) as Hshort.
  destruct (Z.ltb_spec (bitcnt r') n), (Z.ltb_spec (bs_len (rbits r')) n); try (exfalso; lia).
  { done. }
  destruct (drop_bits_spec r' n Hwf' ltac:(lia)) as [Hwfd Hd].
  exists (drop_bits r' n). split_and!; auto. do 2 f_equal.
  rewrite rbits_low by (auto; lia).
  assert (2 ^ n <= 2 ^ 32) by (apply Z.pow_le_mono_r; lia).
  pose proof (Z.pow_pos_nonneg 2 n).
  rewrite u64_small by (rewrite Z.shiftl_mul_pow2; lia).
  rewrite Z.shiftl_mul_pow2, Z.mul_1_l, Z.sub_1_r, <- Z.ones_equiv, Z.land_ones by lia.
  apply u32_small. pose proof (Z.mod_pos_bound (bitbuf r') (2 ^ n)). lia.
Qed.

(** ** Canonical codes *)

(** First code of length [len], and number of codes shorter than [len]. *)
Fixpoint first_nat (h : huff) (n : nat) : Z :=
  match n with
  | O => 0
  | S n' => 2 * (first_nat h n' + cnt h (Z.of_nat n'))
  end.

Fixpoint index_nat (h : huff) (n : nat) : Z :=
  match n with
  | O => 0
  | S n' => index_nat h n' + cnt h (Z.of_nat n')
  end.

Definition first (h : huff) (len : Z) : Z := first_nat h (Z.to_nat len).
Definition index (h : huff) (len : Z) : Z := index_nat h (Z.to_nat len).

(** The first [n] bits of [x] read as a code, most significant bit first. *)
Fixpoint crev_nat (x : Z) (n : nat) : Z :=
  match n with
  | O => 0
  | S n' => 2 * crev_nat x n' + Z.b2z (Z.testbit x (Z.of_nat n'))
  end.

Definition crev (x len : Z) : Z := crev_nat x (Z.to_nat len).

Lemma first_succ h l : 0 <= l -> first h (l + 1) = 2 * (first h l + cnt h l).
Proof.
  intros. unfold first. replace (Z.to_nat (l + 1)) with (S (Z.to_nat l)) by lia.
  cbn [first_nat]. by rewrite Z2Nat.id by lia.
Qed.

Lemma index_succ h l : 0 <= l -> index h (l + 1) = index h l + cnt h l.
Proof.
  intros. unfold index. replace (Z.to_nat (l + 1)) with (S (Z.to_nat l)) by lia.
  cbn [index_nat]. by rewrite Z2Nat.id by lia.
Qed.

Lemma crev_succ x l : 0 <= l -> crev x (l + 1) = 2 * crev x l + Z.b2z (Z.testbit x l).
Proof.
  intros. unfold crev. replace (Z.to_nat (l + 1)) with (S (Z.to_nat l)) by lia.
  cbn [crev_nat]. by rewrite Z2Nat.id by lia.
Qed.

Lemma crev_bounds x l : 0 <= l -> 0 <= crev x l < 2 ^ l.
Proof.
  revert l. apply natlike_ind; [done|]. intros l Hl IH.
  rewrite <- Z.add_1_r, crev_succ, Z.pow_add_r by lia. change (2 ^ 1) with 2.
  destruct (Z.testbit x l); simpl; lia.
Qed.

Lemma crev_testbit x l k :
  0 <= l -> 0 <= k -> Z.testbit (crev x l) k = (k <? l) && Z.testbit x (l - 1 - k).
Proof.
  intros Hl Hk. revert k Hk. revert l Hl. apply (natlike_ind (fun l => forall k, 0 <= k -> _)).
  { intros k Hk. simpl. zcases. by rewrite Z.bits_0. }
  intros l Hl IH k Hk. rewrite <- Z.add_1_r, crev_succ by lia.
  destruct (Z.eq_dec k 0) as [->|Hk0].
  - rewrite Z.testbit_0_r.
    destruct (Z.ltb_spec 0 (l + 1)); [|lia]. by replace (l + 1 - 1 - 0) with l by lia.
  - replace k with (Z.succ (k - 1)) at 1 by lia.
    rewrite Z.testbit_succ_r, IH by lia.
    replace (l + 1 - 1 - k) with (l - 1 - (k - 1)) by lia.
    destruct (Z.ltb_spec (k - 1) l), (Z.ltb_spec k (l + 1)); try lia; done.
Qed.

(** Only the first [l] bits matter. *)
Lemma crev_mod x l m : 0 <= l <= m -> crev (x mod 2 ^ m) l = crev x l.
Proof.
  intros H. apply Z.bits_inj'. intros k Hk. rewrite !crev_testbit by lia.
  destruct (Z.ltb_spec k l); [|done]. simpl. apply Z.mod_pow2_bits_low. lia.
Qed.

Lemma bit_reverse_testbit c len k :
  0 <= len -> 0 <= k -> Z.testbit (bit_reverse c len) k = (k <? len) && Z.testbit c (len - 1 - k).
Proof.
  intros Hlen Hk. unfold bit_reverse.
  assert (forall n, 0 <= n <= len ->
    Z.testbit (foldl (fun rev b =>
      if truthy (Z.land c (Z.shiftl 1 b)) then Z.lor rev (Z.shiftl 1 (len - 1 - b)) else rev)
      0 (seqZ 0 n)) k = (k <? len) && (len - 1 - k <? n) && Z.testbit c (len - 1 - k)) as H.
  { intros n [Hn Hnl]. revert n Hn Hnl. apply (natlike_ind (fun n => n <= len -> _)).
    { intros _. simpl. rewrite Z.bits_0. destruct (Z.ltb_spec k len); [|done].
      destruct (Z.ltb_spec (len - 1 - k) 0); [lia|done]. }
    intros n Hn IH Hnl. rewrite seqZ_succ, foldl_app by lia. cbn [foldl].
    rewrite (Z.shiftl_mul_pow2 1 n), Z.mul_1_l, truthy_land_pow2 by lia.
    assert (forall r, Z.testbit (if Z.testbit c n then Z.lor r (Z.shiftl 1 (len - 1 - n)) else r) k
      = Z.testbit r k || Z.testbit c n && (k =? len - 1 - n)) as ->.
    { intros r. destruct (Z.testbit c n); simpl; [|by rewrite orb_false_r].
      rewrite Z.lor_spec, Z.shiftl_mul_pow2, Z.mul_1_l, Z.pow2_bits_eqb by lia.
      by rewrite (Z.eqb_sym k). }
    rewrite IH by lia.
    destruct (Z.ltb_spec k len), (Z.ltb_spec (len - 1 - k) n), (Z.ltb_spec (len - 1 - k) (Z.succ n)),
      (Z.eqb_spec k (len - 1 - n)); try lia; simpl; rewrite ?andb_false_r, ?orb_false_r; try done.
    replace (len - 1 - k) with n by lia. by rewrite andb_true_r. }
  rewrite H by lia. destruct (Z.ltb_spec k len), (Z.ltb_spec (len - 1 - k) len); try lia; done.
Qed.

Lemma bit_reverse_bounds c len : 0 <= len -> 0 <= bit_reverse c len < 2 ^ len.
Proof.
  intros Hl.
  assert (bit_reverse c len = bit_reverse c len mod 2 ^ len) as ->;
    [|apply Z.mod_pos_bound; apply Z.pow_pos_nonneg; lia].
  apply Z.bits_inj'. intros k Hk. destruct (Z_lt_le_dec k len).
  - by rewrite Z.mod_pow2_bits_low by lia.
  - rewrite Z.mod_pow2_bits_high by lia. rewrite bit_reverse_testbit by lia. by zcases.
Qed.

(** A table index starts with the code [c] exactly when its low bits are the
    reversed code. *)
Lemma crev_bit_reverse x c len :
  0 <= len -> 0 <= c < 2 ^ len -> x mod 2 ^ len = bit_reverse c len <-> crev x len = c.
Proof.
  intros Hl Hc. split.
  - intros H. apply Z.bits_inj'. intros k Hk. rewrite <- (crev_mod x len len), H by lia.
    rewrite crev_testbit by lia.
    destruct (Z.ltb_spec k len); simpl.
    + rewrite bit_reverse_testbit by lia.
      replace (len - 1 - (len - 1 - k)) with k by lia. by zcases.
    + rewrite <- (Z.mod_small c (2 ^ len)) by lia. by rewrite Z.mod_pow2_bits_high by lia.
  - intros <-. apply Z.bits_inj'. intros k Hk. rewrite bit_reverse_testbit by lia.
    destruct (Z.ltb_spec k len); simpl.
    + rewrite Z.mod_pow2_bits_low, crev_testbit by lia.
      replace (len - 1 - (len - 1 - k)) with k by lia. by zcases.
    + by rewrite Z.mod_pow2_bits_high by lia.
Qed.

(** ** Building the table *)

Definition kraft_ok (h : huff) : Prop := forall l, 1 <= l <= 15 -> first h l + cnt h l <= 2 ^ l.

(** The code of length [l] that index [x] starts with has been placed, when
    the lengths below [L] and the first [i] codes of length [L] have. *)
Definition covered (h : huff) (L i x l : Z) : Prop :=
  1 <= l <= 15 /\ first h l <= crev x l /\
  ((l < L /\ crev x l < first h l + cnt h l) \/ (l = L /\ crev x l < first h l + i)).

Definition entry (h : huff) (x l : Z) : Z := HENT (symat h (index h l + (crev x l - first h l))) l.

(** The table maps an index to the code it starts with, if any. *)
Definition table_ok (h : huff) (L i : Z) (t : gmap Z Z) : Prop :=
  forall x, 0 <= x < HTAB_SIZE ->
    (forall l, covered h L i x l -> t !! x = Some (entry h x l)) /\
    (forall e, t !! x = Some e -> exists l, covered h L i x l).

Section build.
Context (h : huff) (Hwf : huff_wf h).

Lemma cnt_bounds l : 0 <= cnt h l < 65536.
Proof using Hwf.
  destruct Hwf as (_ & _ & Hc & _). unfold cnt.
  destruct (zget (count h) l) eqn:E; simpl; [|lia]. by eapply Forall_zget in E; [|exact Hc].
Qed.

Lemma ld_count l : 0 <= l < 16 -> ld (count h) l = Ok (cnt h l).
Proof using Hwf.
  intros Hl. destruct Hwf as (Hlen & _). unfold cnt.
  destruct (zget_in_range (count h) l ltac:(lia)) as [v Hv].
  rewrite Hv. by apply ld_ok.
Qed.

Lemma first_nonneg l : 0 <= l -> 0 <= first h l.
Proof using Hwf.
  revert l. apply natlike_ind; [done|]. intros l Hl IH.
  rewrite <- Z.add_1_r, first_succ by lia. pose proof (cnt_bounds l). lia.
Qed.

Lemma index_nonneg l : 0 <= l -> 0 <= index h l.
Proof using Hwf.
  revert l. apply natlike_ind; [done|]. intros l Hl IH.
  rewrite <- Z.add_1_r, index_succ by lia. pose proof (cnt_bounds l). lia.
Qed.

Lemma index_mono l m : 0 <= l <= m -> index h l <= index h m.
Proof using Hwf.
  intros [Hl Hm]. replace m with (l + (m - l)) by lia.
  generalize (m - l) (ltac:(lia) : 0 <= m - l). apply natlike_ind; [rewrite Z.add_0_r; lia|].
  intros d Hd IH. replace (l + Z.succ d) with (l + d + 1) by lia.
  rewrite index_succ by lia. pose proof (cnt_bounds (l + d)). lia.
Qed.

Lemma kraft_check_spec :
  post (fun _ => kraft_ok h) (fun c => c = -1 /\ ~ kraft_ok h) (kraft_check h).
Proof using Hwf.
  unfold kraft_check, INFLATE_MAX_BITS.
  eapply post_conseq.
  { apply (for_post (fun l left => 0 <= left <= 2 ^ (l - 1) /\ first h l + 2 * left = 2 ^ l /\
      forall l', 1 <= l' < l -> first h l' + cnt h l' <= 2 ^ l')); [lia| |].
    { pose proof Hwf as (_ & H0 & _). replace (first h 1) with (2 * (0 + cnt h 0)) by done.
      rewrite H0. split_and!; [done|done|done|intros; lia]. }
    intros l left Hl (Hr & Hs & Hk).
    assert (2 ^ (l - 1) <= 2 ^ 14) by (apply Z.pow_le_mono_r; lia).
    assert (2 ^ (l + 1) = 2 * 2 ^ l) as E1 by (rewrite Z.pow_add_r; lia).
    assert (2 ^ l = 2 * 2 ^ (l - 1)) as E2.
    { replace l with (1 + (l - 1)) at 1 by lia. rewrite Z.pow_add_r; lia. }
    rewrite Z.shiftl_mul_pow2, u32_small, ld_count by lia. simpl. pose proof (cnt_bounds l).
    zcase; simpl; [split; [done|]; intros Hko; specialize (Hko l); lia|]. rewrite first_succ, E1 by lia.
    replace (l + 1 - 1) with l by lia. split_and!; [lia|lia|lia|].
    intros l' Hl'. destruct (Z.eq_dec l' l) as [->|]; [lia|apply Hk; lia]. }
  intros left (_ & _ & Hk) l Hl. apply Hk. lia.
Qed.

Lemma first_le_pow l : kraft_ok h -> 0 <= l <= 16 -> first h l <= 2 ^ l.
Proof using Hwf.
  intros Hk Hl. destruct (Z.eq_dec l 0) as [->|]; [done|].
  replace l with (l - 1 + 1) by lia. rewrite first_succ, Z.pow_add_r by lia.
  change (2 ^ 1) with 2.
  destruct (Z.eq_dec l 1) as [->|].
  - pose proof Hwf as (_ & H0 & _). change (1 - 1) with 0. rewrite H0. done.
  - specialize (Hk (l - 1) ltac:(lia)). lia.
Qed.

(** The running code wraps only if some length is over-subscribed. *)
Lemma next_codes_spec :
  total (fun r => let '(_, nc, tot) := r in
    zlen nc = 16 /\ tot = index h 16 /\ (kraft_ok h -> forall l, 1 <= l <= 15 -> zget nc l = Some (first h l)))
  (next_codes h).
Proof using Hwf.
  unfold next_codes, INFLATE_MAX_BITS.
  eapply post_conseq.
  { apply (for_post (fun l s => let '(code, nc, tot) := s in
      0 <= code < 65536 /\ zlen nc = 16 /\ tot = index h l /\ 0 <= tot <= 65535 * l /\
      (kraft_ok h -> (forall l', 1 <= l' < l -> zget nc l' = Some (first h l')) /\ code = first h (l - 1))));
      [lia| |].
    { pose proof Hwf as (_ & H0 & _). replace (index h 1) with (0 + cnt h 0) by done. rewrite H0.
      split_and!; try done; try lia. intros _. split; [|done]. intros; lia. }
    intros l [[code nc] tot] Hl (Hc & Hlen & -> & Ht & Hk).
    rewrite !ld_count by lia. cbn [mbind res_bind].
    rewrite st_ok by lia. cbn [mbind res_bind post].
    pose proof (cnt_bounds (l - 1)). pose proof (cnt_bounds l).
    rewrite zlen_zset, index_succ, u32_small by lia. rewrite Z.shiftl_mul_pow2 by lia.
    split_and!; try done; try lia; try (unfold u16; apply Z.mod_pos_bound; lia).
    intros Hkr. destruct (Hk Hkr) as [Hg ->].
    assert (u16 ((first h (l - 1) + cnt h (l - 1)) * 2 ^ 1) = first h l) as Hfl.
    { replace ((first h (l - 1) + cnt h (l - 1)) * 2 ^ 1) with (first h l).
      2:{ replace l with (l - 1 + 1) at 1 by lia. rewrite first_succ by lia. change (2 ^ 1) with 2. lia. }
      unfold u16. apply Z.mod_small.
      pose proof (first_nonneg l ltac:(lia)). pose proof (first_le_pow l Hkr ltac:(lia)).
      assert (2 ^ l <= 2 ^ 15) by (apply Z.pow_le_mono_r; lia). lia. }
    rewrite Hfl. replace (l + 1 - 1) with l by lia. split; [|done].
    intros l' Hl'. rewrite zget_zset by lia.
    destruct (Z.eqb_spec l l') as [<-|]; [done|]. apply Hg. lia. }
  intros [[code nc] tot] (_ & Hlen & -> & _ & Hk). split_and!; try done.
  intros Hkr l Hl. apply (Hk Hkr). lia.
Qed.
End build.

Lemma fill_from_lookup fuel t j stride ent x :
  0 < stride -> HTAB_SIZE <= j + stride * Z.of_nat fuel ->
  fill_from fuel t j stride ent !! x =
    if decide (j <= x < HTAB_SIZE /\ (x - j) mod stride = 0) then Some ent else t !! x.
Proof.
  intros Hs. revert t j. induction fuel as [|fuel IH]; intros t j Hf; cbn [fill_from].
  { rewrite decide_False; [done|]. intros []; lia. }
  destruct (Z.ltb_spec j HTAB_SIZE) as [Hj|Hj].
  2:{ rewrite decide_False; [done|]. intros []; lia. }
  rewrite IH by nia.
  destruct (decide (x = j)) as [->|Hne].
  - rewrite decide_False by (intros []; lia). rewrite lookup_insert_eq, decide_True; [done|].
    rewrite Z.sub_diag, Z.mod_0_l by lia. lia.
  - rewrite lookup_insert_ne by done. replace (x - (j + stride)) with (x - j + (-1) * stride) by lia.
    rewrite Z.mod_add by lia. apply decide_ext. split; intros [H1 H2]; split; auto; [lia|].
    split; [|lia].
    destruct (Z_lt_le_dec x (j + stride)); [|lia]. rewrite Z.mod_small in H2; lia.
Qed.

(** The indices a code's fill loop visits are those that start with it. *)
Lemma fill_hits x c L :
  0 <= L -> 0 <= c < 2 ^ L -> 0 <= x < HTAB_SIZE ->
  (bit_reverse c L <= x < HTAB_SIZE /\ (x - bit_reverse c L) mod 2 ^ L = 0) <-> crev x L = c.
Proof.
  intros HL Hc Hx. pose proof (bit_reverse_bounds c L HL).
  assert (0 < 2 ^ L) by (apply Z.pow_pos_nonneg; lia).
  rewrite <- crev_bit_reverse by lia. split.
  - intros [_ Hm]. apply Z.mod_divide in Hm as [q Hq]; [|lia].
    replace x with (bit_reverse c L + q * 2 ^ L) by lia.
    rewrite Z.mod_add by lia. apply Z.mod_small. lia.
  - intros <-. pose proof (Z.mod_le x (2 ^ L)). split; [lia|].
    rewrite (Z.div_mod x (2 ^ L)) at 1 by lia.
    replace (2 ^ L * (x / 2 ^ L) + x mod 2 ^ L - x mod 2 ^ L) with ((x / 2 ^ L) * 2 ^ L) by lia.
    apply Z.mod_mul. lia.
Qed.

Section fill.
Context (h : huff) (Hwf : huff_wf h) (Hk : kraft_ok h) (Htot : index h 16 <= 320).

(** No code is a prefix of a longer one. *)
Lemma prefix_free x l m :
  0 <= l < m -> crev x l < first h l + cnt h l -> crev x m < first h m.
Proof using Hwf.
  intros [Hl Hm] Hc. replace m with (l + 1 + (m - (l + 1))) by lia.
  generalize (m - (l + 1)) (ltac:(lia) : 0 <= m - (l + 1)). apply natlike_ind.
  { rewrite Z.add_0_r, crev_succ, first_succ by lia. destruct (Z.testbit x l); simpl; lia. }
  intros d Hd IH. replace (l + 1 + Z.succ d) with (l + 1 + d + 1) by lia.
  rewrite crev_succ, first_succ by lia. pose proof (cnt_bounds h Hwf (l + 1 + d)).
  destruct (Z.testbit x (l + 1 + d)); simpl; lia.
Qed.

Lemma covered_next L i x l :
  1 <= L <= 15 -> 0 <= i -> covered h L (i + 1) x l <->
  covered h L i x l \/ (l = L /\ crev x L = first h L + i).
Proof.
  intros HL Hi. unfold covered. split.
  - intros (? & ? & [[? ?]|[-> ?]]); [left; split_and!; auto; lia|].
    destruct (Z.eq_dec (crev x L) (first h L + i)); [by right|]. left. split_and!; auto; lia.
  - intros [(? & ? & [[? ?]|[-> ?]])|[-> Hx]]; split_and!; auto; lia.
Qed.

(** Indices that start with the code being placed are not covered yet. *)
Lemma covered_fresh L i x l :
  1 <= L <= 15 -> 0 <= i -> crev x L = first h L + i -> ~ covered h L i x l.
Proof using Hwf.
  intros HL Hi Hx (Hl & Hf & [[Hlt Hc]|[-> Hc]]); [|lia].
  pose proof (prefix_free x l L ltac:(lia) Hc). lia.
Qed.

Lemma table_ok_place L i t :
  1 <= L <= 15 -> 0 <= i < cnt h L -> table_ok h L i t ->
  table_ok h L (i + 1)
    (fill_from (Z.to_nat (HTAB_SIZE / 2 ^ L) + 1) t (bit_reverse (first h L + i) L) (2 ^ L)
       (HENT (symat h (index h L + i)) L)).
Proof using Hwf Hk.
  intros HL Hi Ht x Hx. destruct (Ht x Hx) as [Ht1 Ht2].
  assert (0 <= first h L + i < 2 ^ L) as Hc.
  { pose proof (first_nonneg h Hwf L). specialize (Hk L HL). lia. }
  pose proof (fill_hits x _ L ltac:(lia) Hc Hx) as Hhit.
  pose proof (bit_reverse_bounds (first h L + i) L ltac:(lia)) as Hrev.
  assert (0 < 2 ^ L) by (apply Z.pow_pos_nonneg; lia).
  assert (HTAB_SIZE <= bit_reverse (first h L + i) L + 2 ^ L * Z.of_nat (Z.to_nat (HTAB_SIZE / 2 ^ L) + 1)) as Hfuel.
  { rewrite Nat2Z.inj_add, Z2Nat.id by (apply Z.div_pos; unfold HTAB_SIZE; lia).
    pose proof (Z.div_mod HTAB_SIZE (2 ^ L)). pose proof (Z.mod_pos_bound HTAB_SIZE (2 ^ L)). lia. }
  rewrite fill_from_lookup by done.
  destruct (decide (crev x L = first h L + i)) as [Hx'|Hx'];
    [rewrite decide_True by tauto|rewrite decide_False by tauto]; split.
  - intros l Hcov. apply covered_next in Hcov as [Hcov|[-> _]]; [|unfold entry|lia|lia].
    + by apply (covered_fresh L i x l ltac:(lia) ltac:(lia) Hx') in Hcov.
    + by replace (crev x L - first h L) with i by lia.
  - intros e _. exists L. apply covered_next; [lia|lia|]. by right.
  - intros l Hcov. apply covered_next in Hcov as [Hcov|[-> ?]]; [auto|lia|lia|lia].
  - intros e He. destruct (Ht2 e He) as [l Hl]. exists l. apply covered_next; [lia|lia|]. by left.
Qed.

(** State of the fill loops when the first [i] codes of length [L] are in. *)
Definition fill_inv (L i : Z) (s : gmap Z Z * Z * list Z) : Prop :=
  let '(t, si, nc) := s in
  table_ok h L i t /\ si = index h L + i /\ zlen nc = 16 /\ zget nc L = Some (first h L + i) /\
  (forall l, L < l <= 15 -> zget nc l = Some (first h l)).

Lemma place_code_spec L i s :
  1 <= L <= 15 -> 0 <= i < cnt h L -> fill_inv L i s ->
  total (fill_inv L (i + 1)) (place_code h L s).
Proof using Hwf Hk Htot.
  intros HL Hi. destruct s as [[t si] nc]. intros (Ht & -> & Hlen & Hg & Hl).
  unfold place_code. rewrite (ld_ok _ _ _ Hg). cbn [mbind res_bind].
  rewrite st_ok by lia. cbn [mbind res_bind].
  pose proof (index_mono h Hwf (L + 1) 16 ltac:(lia)) as Hm. rewrite index_succ in Hm by lia.
  pose proof (index_nonneg h Hwf L ltac:(lia)).
  assert (ld (sym h) (index h L + i) = Ok (symat h (index h L + i))) as ->.
  { destruct Hwf as (_ & _ & _ & Hsl & _).
    destruct (zget_in_range (sym h) (index h L + i) ltac:(lia)) as [v Hv].
    unfold symat. rewrite Hv. by apply ld_ok. }
  cbn [mbind res_bind]. rewrite Z.shiftl_mul_pow2, Z.mul_1_l by lia.
  assert (first h L + i + 1 <= 2 ^ 15).
  { specialize (Hk L HL). assert (2 ^ L <= 2 ^ 15) by (apply Z.pow_le_mono_r; lia). lia. }
  pose proof (first_nonneg h Hwf L ltac:(lia)).
  unfold total, post, fill_inv. split_and!.
  - by apply table_ok_place.
  - unfold u16. rewrite Z.mod_small; lia.
  - by rewrite zlen_zset.
  - rewrite zget_zset_eq by lia. f_equal. unfold u16. rewrite Z.mod_small; lia.
  - intros l Hl'. rewrite zget_zset_ne by lia. apply Hl. lia.
Qed.

Lemma covered_len L x l : 1 <= L <= 15 -> covered h L (cnt h L) x l <-> covered h (L + 1) 0 x l.
Proof.
  intros HL. unfold covered. split.
  - intros (? & ? & [[? ?]|[-> ?]]); split_and!; auto; try lia; left; lia.
  - intros (? & ? & [[? ?]|[-> ?]]); split_and!; auto; try lia.
    destruct (Z.eq_dec l L) as [->|]; [right; lia|left; lia].
Qed.

Lemma fill_table_spec nc :
  zlen nc = 16 -> (forall l, 1 <= l <= 15 -> zget nc l = Some (first h l)) ->
  total (fun s => let '(t, _, _) := s in table_ok h 16 0 t) (fill_table h nc).
Proof using Hwf Hk Htot.
  intros Hlen Hg. unfold fill_table, INFLATE_MAX_BITS.
  eapply post_conseq.
  { apply (for_post (fun L s => let '(t, si, nc) := s in
      table_ok h L 0 t /\ si = index h L /\ zlen nc = 16 /\
      (forall l, L <= l <= 15 -> zget nc l = Some (first h l)))); [lia| |].
    { pose proof Hwf as (_ & H0 & _). replace (index h 1) with (0 + cnt h 0) by done. rewrite H0.
      split_and!; auto. intros x Hx. split; [|done].
      intros l (? & ? & [[? ?]|[-> ?]]); lia. }
    intros L [[t si] nc'] HL (Ht & -> & Hlen' & Hg').
    rewrite ld_count by (auto; lia). cbn [mbind res_bind].
    eapply post_conseq.
    { apply (for_post (fill_inv L)); [apply cnt_bounds; auto| |].
      - unfold fill_inv. rewrite !Z.add_0_r. split_and!; auto; intros; apply Hg'; lia.
      - intros i s Hi Hs. apply place_code_spec; [lia|done|done]. }
    intros [[t' si'] nc''] (Ht' & -> & Hlen'' & _ & Hg''). rewrite index_succ by lia.
    split_and!; auto; [|intros; apply Hg''; lia].
    intros x Hx. destruct (Ht' x Hx) as [H1 H2]. split.
    - intros l Hl. apply H1. by apply covered_len; [lia|].
    - intros e He. destruct (H2 e He) as [l Hl]. exists l. by apply covered_len; [lia|]. }
  intros [[t si] nc'] (Ht & _). done.
Qed.
End fill.

(** The counts describe a non-empty prefix code of at most 320 symbols. *)
Definition codes_ok (h : huff) : Prop := kraft_ok h /\ 0 < index h 16 <= 320.

(** A built table: same counts and symbols, table as the canonical code says. *)
Definition huff_built (h : huff) : Prop :=
  huff_wf h /\ kraft_ok h /\ 0 < index h 16 <= 320 /\ table_ok h 16 0 (table h).

(** The codes depend on the counts and symbols only. *)
Lemma same_codes h h' :
  count h' = count h -> sym h' = sym h ->
  (forall l, cnt h' l = cnt h l) /\ (forall i, symat h' i = symat h i) /\
  (forall l, first h' l = first h l) /\ (forall l, index h' l = index h l).
Proof.
  intros Hc Hs. assert (forall l, cnt h' l = cnt h l) as Hcnt by (intros; unfold cnt; by rewrite Hc).
  split_and!; auto.
  - intros. unfold symat. by rewrite Hs.
  - intros l. unfold first. induction (Z.to_nat l) as [|n IH]; [done|]. cbn. by rewrite IH, Hcnt.
  - intros l. unfold index. induction (Z.to_nat l) as [|n IH]; [done|]. cbn. by rewrite IH, Hcnt.
Qed.

Lemma huff_built_intro h t :
  huff_wf h -> kraft_ok h -> 0 < index h 16 <= 320 -> table_ok h 16 0 t ->
  huff_built (mk_huff (count h) (sym h) t).
Proof.
  intros Hwf Hk Hi Ht. set (h' := mk_huff _ _ _).
  destruct (same_codes h h' eq_refl eq_refl) as (Hc & Hs & Hf & Hx).
  unfold huff_built, huff_wf, kraft_ok, table_ok, covered, entry.
  setoid_rewrite Hc. setoid_rewrite Hx. setoid_rewrite Hf. setoid_rewrite Hs.
  split_and!; try apply Hwf; try apply Hi; [apply Hk|apply Ht].
Qed.

Lemma huff_build_spec h :
  huff_wf h ->
  post (fun h' => codes_ok h /\ huff_built h' /\ count h' = count h /\ sym h' = sym h)
    (fun c => c = -1 /\ ~ codes_ok h) (huff_build h).
Proof.
  intros Hwf. unfold huff_build.
  pose proof (next_codes_spec h Hwf) as ([[code nc] tot] & -> & Hlen & -> & Hnc)%total_Ok.
  cbn [mbind res_bind].
  unfold codes_ok.
  destruct (Z.eqb_spec (index h 16) 0); [cbn [post]; split; [done|]; lia|].
  destruct (Z.ltb_spec 320 (index h 16)); [cbn [post]; split; [done|]; lia|]. cbn [orb].
  pose proof (index_nonneg h Hwf 16 ltac:(lia)).
  eapply post_bind.
  { eapply post_mono; [apply kraft_check_spec; done|intros ? Hk; exact Hk|]. intros c [-> Hk]. tauto. }
  intros left Hk; cbv beta in Hk.
  pose proof (fill_table_spec h Hwf Hk ltac:(lia) nc Hlen (Hnc Hk)) as ([[t si] nc'] & -> & Ht)%total_Ok.
  cbn [mbind res_bind post]. split_and!; [done|lia|lia|apply huff_built_intro; auto; lia|done|done].
Qed.

(** ** Decoding *)

Lemma HENT_fields s l : 0 <= s < 2048 -> 0 <= l < 16 ->
  HENT_VALID (HENT s l) = true /\ HENT_LEN (HENT s l) = l /\ HENT_SYM (HENT s l) = s.
Proof.
  intros Hs Hl. unfold HENT_VALID, HENT_LEN, HENT_SYM, HENT.
  assert (Z.lor (Z.lor 1 (Z.shiftl l 1)) (Z.shiftl s 5) = 1 + 2 * l + 32 * s) as ->.
  { rewrite (lor_shift_add 1 l 1) by lia. rewrite lor_shift_add by (change (2 ^ 5) with 32; lia).
    change (2 ^ 5) with 32. lia. }
  unfold u16. rewrite Z.mod_small by lia. split_and!.
  - unfold truthy. rewrite (Z.land_ones _ 1 ltac:(lia) : Z.land _ 1 = _).
    change (2 ^ 1) with 2. destruct (Z.eqb_spec ((1 + 2 * l + 32 * s) mod 2) 0); [mlia|done].
  - change 15 with (Z.ones 4). rewrite Z.land_ones, Z.shiftr_div_pow2 by lia.
    change (2 ^ 1) with 2. change (2 ^ 4) with 16. mlia.
  - rewrite Z.shiftr_div_pow2 by lia. change (2 ^ 5) with 32. mlia.
Qed.

Lemma symat_bounds h i : huff_wf h -> 0 <= symat h i < 2048.
Proof.
  intros (_ & _ & _ & _ & Hs). unfold symat.
  destruct (zget (sym h) i) eqn:E; simpl; [|lia]. by eapply Forall_zget in E; [|exact Hs].
Qed.

(** What a table lookup on the first 15 bits says about the stream. *)
Definition lookup_decode (h : huff) (b : bits) : option (Z * bits) :=
  match table h !! (bs_val b mod HTAB_SIZE) with
  | None => None
  | Some e =>
      if bs_len b <? HENT_LEN e then None
      else Some (HENT_SYM e, mk_bits (bs_val b / 2 ^ HENT_LEN e) (bs_len b - HENT_LEN e))
  end.

Lemma canon_go_lookup fuel h l b :
  huff_built h -> 1 <= l -> l + Z.of_nat fuel = 16 -> l - 1 <= bs_len b ->
  (forall m, 1 <= m < l -> first h m + cnt h m <= crev (bs_val b) m) -> first h l <= 2 * crev (bs_val b) (l - 1) ->
  canon_go fuel h l (2 * crev (bs_val b) (l - 1)) (first h l) (index h l)
    (mk_bits (bs_val b / 2 ^ (l - 1)) (bs_len b - (l - 1))) = lookup_decode h b.
Proof.
  intros (Hwf & Hk & Hi & Ht). revert l. induction fuel as [|fuel IH]; intros l Hl Hf Hn Hm Hfl.
  all: unfold lookup_decode; destruct (Ht (bs_val b mod HTAB_SIZE)) as [Ht1 Ht2];
    [apply Z.mod_pos_bound; done|]; change HTAB_SIZE with (2 ^ 15) in *.
  { (* no length matches *)
    cbn [canon_go]. destruct (table h !! _) as [e|] eqn:E; [|done]. destruct (Ht2 e eq_refl) as (m & ? & ? & Hc).
    rewrite crev_mod in * by lia. specialize (Hm m). lia. }
  cbn [canon_go]. unfold take_bits. cbn [bs_len bs_val].
  destruct (Z.ltb_spec (bs_len b - (l - 1)) 1) as [Hshort|Hlong]; cbn [mbind option_bind].
  { destruct (table h !! _) as [e|] eqn:E; [|done]. destruct (Ht2 e eq_refl) as (m & Hcov).
    pose proof (Ht1 m Hcov) as [= ->]. destruct Hcov as (? & ? & Hc). rewrite crev_mod in * by lia.
    destruct (HENT_fields (symat h (index h m + (crev (bs_val b mod 2 ^ 15) m - first h m))) m) as (_ & HL & _);
      [by apply symat_bounds|lia|]. unfold entry. rewrite HL. zcases; [done|]. specialize (Hm m). lia. }
  assert (2 * crev (bs_val b) (l - 1) + (bs_val b / 2 ^ (l - 1)) mod 2 ^ 1 = crev (bs_val b) l) as Hbit.
  { replace l with (l - 1 + 1) at 3 by lia. rewrite crev_succ, Z.testbit_spec' by lia. done. }
  rewrite Hbit, Z.div_div, <- Z.pow_add_r by (try apply Z.pow_nonzero; lia).
  replace (l - 1 + 1) with l by lia. replace (bs_len b - (l - 1) - 1) with (bs_len b - l) by lia.
  destruct (Z.ltb_spec (crev (bs_val b) l - cnt h l) (first h l)) as [Hc|Hc].
  - assert (first h l <= crev (bs_val b) l) as Hge.
    { pose proof (Z.mod_pos_bound (bs_val b / 2 ^ (l - 1)) (2 ^ 1)). lia. }
    rewrite (Ht1 l) by (unfold covered; rewrite crev_mod by lia; split_and!; lia).
    unfold entry. rewrite crev_mod by lia.
    destruct (HENT_fields (symat h (index h l + (crev (bs_val b) l - first h l))) l) as (_ & HL & HS);
      [by apply symat_bounds|lia|]. rewrite HL, HS. zcases. done.
  - rewrite <- index_succ, <- first_succ by lia.
    replace (crev (bs_val b) l) with (crev (bs_val b) (l + 1 - 1)) by (f_equal; lia).
    replace (2 ^ l) with (2 ^ (l + 1 - 1)) by (f_equal; lia).
    replace (bs_len b - l) with (bs_len b - (l + 1 - 1)) by lia.
    apply IH; try lia.
    + intros m Hml. destruct (Z.eq_dec m l) as [->|]; [lia|apply Hm; lia].
    + rewrite first_succ by lia. replace (l + 1 - 1) with l by lia. lia.
Qed.

Lemma canon_decode_lookup h b : huff_built h -> 0 <= bs_len b -> canon_decode h b = lookup_decode h b.
Proof.
  intros Hh Hlen. unfold canon_decode.
  pose proof Hh as ((_ & H0 & _) & _). assert (first h 1 = 0) as Hf.
  { replace (first h 1) with (2 * (0 + cnt h 0)) by done. by rewrite H0. }
  assert (index h 1 = 0) as Hi.
  { replace (index h 1) with (0 + cnt h 0) by done. by rewrite H0. }
  rewrite <- (canon_go_lookup 15 h 1 b Hh); try lia.
  - rewrite Hf, Hi. change (1 - 1) with 0. rewrite Z.pow_0_r, Z.div_1_r, Z.sub_0_r. by destruct b.
  - rewrite Hf. done.
Qed.

(** The reader decodes one symbol of the canonical code. *)
Lemma huff_decode_spec r h :
  huff_built h -> reader_wf r -> step_ok r (canon_decode h (rbits r)) (huff_decode r h).
Proof.
  intros Hh Hwf. unfold huff_decode.
  pose proof (refill_spec r Hwf) as (r' & -> & Hwf' & Hb & Hfull & Hin)%total_Ok.
  cbn [mbind res_bind]. rewrite <- Hb.
  assert (0 <= bs_len (rbits r')) as Hlen0.
  { pose proof Hwf' as (_ & Hp & Hc & _). unfold rbits; simpl. rewrite zlen_rest; lia. }
  rewrite canon_decode_lookup by done.
  assert (Z.land (bitbuf r') (HTAB_SIZE - 1) = bs_val (rbits r') mod HTAB_SIZE) as ->.
  { change (HTAB_SIZE - 1) with (Z.ones 15). rewrite Z.land_ones by lia. change HTAB_SIZE with (2 ^ 15).
    destruct (Z_lt_le_dec (bitcnt r') 15) as [Hs|Hs]; [|by rewrite rbits_low by (auto; lia)].
    unfold rbits, rest. destruct Hfull as [|He]; [lia|]. rewrite He. unfold zlen.
    rewrite Nat2Z.id, drop_all. simpl. by rewrite Z.mul_0_r, Z.add_0_r. }
  unfold lookup_decode, step_ok. destruct Hh as (Hhw & _ & _ & Ht).
  destruct (Ht (bs_val (rbits r') mod HTAB_SIZE)) as [Ht1 Ht2]; [apply Z.mod_pos_bound; done|].
  destruct (table h !! _) as [e|]; [change (default 0 (Some e)) with e|by simpl; destruct (bitcnt r' <? 1)].
  destruct (Ht2 e eq_refl) as [l Hcov]. assert (e = entry h (bs_val (rbits r') mod HTAB_SIZE) l) as -> by (specialize (Ht1 l Hcov); congruence). destruct Hcov as (Hl & _).
  destruct (HENT_fields (symat h (index h l + (crev (bs_val (rbits r') mod HTAB_SIZE) l - first h l))) l)
    as (HV & HL & HS); [by apply symat_bounds|lia|].
  unfold entry. rewrite HV, HL, HS. pose proof (full_short r' l Hwf' Hfull ltac:(lia)).
  destruct (Z.ltb_spec (bitcnt r') 1), (Z.ltb_spec (bitcnt r') l), (Z.ltb_spec (bs_len (rbits r')) l);
    try (exfalso; lia); try done. simpl.
  destruct (drop_bits_spec r' l Hwf' ltac:(lia)) as [Hwfd Hd]. exists (drop_bits r' l). auto.
Qed.

Lemma canon_decode_ext h h' b : count h' = count h -> sym h' = sym h -> canon_decode h' b = canon_decode h b.
Proof.
  intros Hc Hs. unfold canon_decode.
  cut (forall n len code f i b, canon_go n h' len code f i b = canon_go n h len code f i b); [auto|].
  induction n as [|n IH]; intros len code f i b'; [done|]. cbn [canon_go].
  destruct (same_codes h h' Hc Hs) as (Hcnt & Hsym & _).
  destruct (take_bits 1 b') as [[bit b'']|]; [|done]. cbn [mbind option_bind]. by rewrite Hcnt, Hsym, IH.
Qed.

(** Table lookup is canonical Huffman decoding. [huff_build] rejects
    exactly the length counts that are empty, too many or over-subscribed;
    with the table it builds, [huff_decode] on any reader takes from the bit
    stream the symbol that decoding one bit at a time finds, and leaves the
    reader on the rest of the stream; it fails when no code matches or the
    stream ends inside a code. *)
Theorem huff_decode_correct h r :
  huff_wf h -> reader_wf r ->
  post (fun h' => codes_ok h /\ step_ok r (canon_decode h (rbits r)) (huff_decode r h'))
    (fun c => c = -1 /\ ~ codes_ok h) (huff_build h).
Proof.
  intros Hwf Hr. eapply post_mono; [by apply huff_build_spec| |done].
  intros h' (Hok & Hb & Hc & Hs). split; [done|].
  rewrite <- (canon_decode_ext h h') by done. by apply huff_decode_spec.
Qed.

(** Whether a result is a normal return. *)
Definition to_bool {A} (r : res A) : bool := match r with Ok _ => true | _ => false end.

(** The codes A = 0, B = 10, C = 11 and the stream C, A, B. *)
Definition abc_code : huff :=
  mk_huff [0;1;2;0;0;0;0;0;0;0;0;0;0;0;0;0] ([65;66;67] ++ replicate 317 0) ∅.

Definition abc_reader : reader := mk_reader [11] 0 0 0.

Lemma huff_decode_correct_witness :
  match huff_build abc_code with
  | Ok h' =>
      match huff_decode abc_reader h' with
      | Ok (s, r') => s = 67 /\ rbits r' = mk_bits 2 6
      | _ => False
      end
  | _ => False
  end.
Proof.
  assert (huff_wf abc_code) as Hwf.
  { split_and!; try reflexivity; apply (bool_decide_unpack _); vm_compute; reflexivity. }
  assert (reader_wf abc_reader) as Hr.
  { split_and!; try (vm_compute; congruence). apply (bool_decide_unpack _). vm_compute. reflexivity. }
  assert (canon_decode abc_code (rbits abc_reader) = Some (67, mk_bits 2 6)) as Hd by (vm_compute; reflexivity).
  assert (codes_ok abc_code) as Hok.
  { split; [|vm_compute; split; congruence]. intros l Hl.
    assert (Forall (fun l => first abc_code l + cnt abc_code l <= 2 ^ l) (seqZ 1 15)) as H.
    { apply (bool_decide_unpack _). vm_compute. reflexivity. }
    rewrite list.Forall_forall in H. apply H, elem_of_seqZ. lia. }
  pose proof (huff_decode_correct abc_code abc_reader Hwf Hr) as H. rewrite Hd in H.
  destruct (huff_build abc_code) as [h'|c| |]; cbn [post] in H; try contradiction.
  - destruct H as [_ (r' & -> & _ & Hb & _)]. split; [reflexivity|exact Hb].
  - destruct H as [_ H]. contradiction.
Defined.

(** Encode/decode round trip. A stream that starts with the [k]-th code
    of length [len], written first bit first as RFC 1951 packs it, decodes to
    the [k]-th symbol of that length and continues right after the code. *)
Theorem huff_code_roundtrip h h' r len k v n :
  huff_wf h -> huff_build h = Ok h' -> reader_wf r ->
  1 <= len <= 15 -> 0 <= k < cnt h len -> 0 <= n ->
  rbits r = mk_bits (bit_reverse (first h len + k) len + 2 ^ len * v) (len + n) ->
  exists r', huff_decode r h' = Ok (symat h (index h len + k), r') /\ rbits r' = mk_bits v n.
Proof.
  intros Hwf Hb Hr Hlen Hk Hn Hbits.
  pose proof (huff_build_spec h Hwf) as Hp. rewrite Hb in Hp. cbn [post] in Hp.
  destruct Hp as ((Hkr & _) & Hbuilt & Hc & Hs).
  pose proof (huff_decode_spec r h' Hbuilt Hr) as Hd.
  rewrite canon_decode_lookup, Hbits in Hd by (try done; rewrite Hbits; simpl; lia).
  unfold lookup_decode in Hd. cbn [bs_val bs_len] in Hd. set (x := _ + _ * v) in Hd.
  destruct (same_codes h h' Hc Hs) as (Hcnt & Hsym & Hfirst & Hindex).
  pose proof (first_nonneg h Hwf len ltac:(lia)). specialize (Hkr len Hlen).
  pose proof (bit_reverse_bounds (first h len + k) len ltac:(lia)) as Hrev.
  assert (x mod 2 ^ len = bit_reverse (first h len + k) len) as Hx.
  { unfold x. rewrite (Z.mul_comm (2 ^ len)), Z.mod_add by lia. apply Z.mod_small. lia. }
  assert (crev (x mod HTAB_SIZE) len = first h len + k) as Hcr.
  { change HTAB_SIZE with (2 ^ 15). rewrite crev_mod by lia. apply crev_bit_reverse; [lia|lia|done]. }
  destruct Hbuilt as (Hwf' & _ & _ & Ht). destruct (Ht (x mod HTAB_SIZE)) as [Ht1 _]; [by apply Z.mod_pos_bound|].
  rewrite (Ht1 len) in Hd by (unfold covered; rewrite Hcr, Hfirst, Hcnt; split_and!; lia).
  unfold entry in Hd. rewrite Hcr, Hfirst, Hindex, Hsym in Hd.
  replace (index h len + (first h len + k - first h len)) with (index h len + k) in Hd by lia.
  destruct (HENT_fields (symat h (index h len + k)) len) as (_ & HL & HS); [by apply symat_bounds|lia|].
  rewrite HL, HS in Hd. destruct (Z.ltb_spec (len + n) len); [lia|].
  destruct Hd as (r' & -> & _ & Hb' & _). exists r'. split; [done|]. rewrite Hb'. f_equal; [|lia].
  unfold x. rewrite (Z.mul_comm (2 ^ len)), Z.div_add by lia. rewrite Z.div_small by lia. lia.
Qed.

Lemma huff_code_roundtrip_witness :
  match huff_build abc_code with
  | Ok h' => exists r', huff_decode abc_reader h' = Ok (67, r') /\ rbits r' = mk_bits 2 6
  | _ => False
  end.
Proof.
  assert (huff_wf abc_code) as Hwf.
  { split_and!; try reflexivity; apply (bool_decide_unpack _); vm_compute; reflexivity. }
  assert (reader_wf abc_reader) as Hr.
  { split_and!; try (vm_compute; congruence). apply (bool_decide_unpack _). vm_compute. reflexivity. }
  destruct (huff_build abc_code) as [h'|c| |] eqn:E.
  - apply (huff_code_roundtrip abc_code h' abc_reader 2 1 2 6 Hwf E Hr);
      [lia|vm_compute; split; congruence|lia|vm_compute; reflexivity].
  - assert (to_bool (huff_build abc_code) = true) as H by (vm_compute; reflexivity). rewrite E in H. discriminate H.
  - assert (to_bool (huff_build abc_code) = true) as H by (vm_compute; reflexivity). rewrite E in H. discriminate H.
  - assert (to_bool (huff_build abc_code) = true) as H by (vm_compute; reflexivity). rewrite E in H. discriminate H.
Defined.
