(* ===== verification/Inflate.v ===== *)
(** * Inflate: DEFLATE blocks of src/src/kernel/pkg/inflate.c

    [inf_state] is [inf_state_t]; the sink callback is a function on a
    context type, [None] standing for a non-zero return. The bit-stream
    decoder [dec_inflate] states what the code computes, its departures from
    RFC 1951 included, on a bit stream and an unbounded output history; the
    lemmas show that the code's bit buffer, lookup tables and sliding window
    compute just that. The format itself, and how the code relates to it, is
    in Rfc1951. *)

From S2P Require Import Prelude Huffman.

Definition INF_KEEP : Z := 32768.
Definition INF_BUFSZ : Z := 65536.

Definition len_base : list Z :=
  [3;4;5;6;7;8;9;10;11;13;15;17;19;23;27;31;35;43;51;59;67;83;99;115;131;163;195;227;258].
Definition len_ext : list Z :=
  [0;0;0;0;0;0;0;0;1;1;1;1;2;2;2;2;3;3;3;3;4;4;4;4;5;5;5;5;0].
Definition dist_base : list Z :=
  [1;2;3;4;5;7;9;13;17;25;33;49;65;97;129;193;257;385;513;769;
   1025;1537;2049;3073;4097;6145;8193;12289;16385;24577].
Definition dist_ext : list Z :=
  [0;0;0;0;1;1;2;2;3;3;4;4;5;5;6;6;7;7;8;8;9;9;10;10;11;11;12;12;13;13].
Definition clc_order : list Z := [16;17;18;0;8;7;9;6;10;5;11;4;12;3;13;2;14;1;15].

(** Read [n] bytes from the start of a buffer. *)
Definition slice0 (l : list Z) (n : Z) : res (list Z) :=
  if n <=? zlen l then Ok (take (Z.to_nat n) l) else Fault.

(** ** Tables *)

(** [count[x]++] *)
Definition incr (l : list Z) (x : Z) : res (list Z) :=
  v ← ld l x; st l x (u16 (v + 1)).

(** Counts of the non-zero code lengths of [n] symbols from [lens[off]]. *)
Definition count_lens (lens : list Z) (off n : Z) (h : huff) : res huff :=
  for_ 0 n (fun i h =>
    l ← ld lens (off + i);
    if truthy l then c ← incr (count h) l; Ok (mk_huff c (sym h) (table h)) else Ok h) h.

(** Symbols in order of length, then symbol: (sym, idx). *)
Definition sort_syms (lens : list Z) (off n : Z) (h : huff) : res huff :=
  r ← for_ 1 (INFLATE_MAX_BITS + 1) (fun len s =>
    for_ 0 n (fun i s =>
      let '(sy, idx) := (s : list Z * Z) in
      l ← ld lens (off + i);
      if l =? len then sy ← st sy idx (u16 i); Ok (sy, idx + 1) else Ok (sy, idx)) s)
    (sym h, 0);
  Ok (mk_huff (count h) (fst r) (table h)).

Record fixed_tables : Type := mk_fixed {
  fixed_ready : bool;
  fixed_lit : huff;
  fixed_dist : huff;
}.

Definition fixed_boot : fixed_tables := mk_fixed false huff_zero huff_zero.

Definition repeat_incr (lo hi x : Z) (c : list Z) : res (list Z) :=
  for_ lo hi (fun _ c => incr c x) c.

Definition fixed_len (s : Z) : Z :=
  if s <? 144 then 8 else if s <? 256 then 9 else if s <? 280 then 7 else 8.

(** The counts and symbols of the fixed codes, before [huff_build]. *)
Definition fixed_lit_syms : res huff :=
  c ← repeat_incr 0 144 8 (count huff_zero);
  c ← repeat_incr 144 256 9 c;
  c ← repeat_incr 256 280 7 c;
  c ← repeat_incr 280 288 8 c;
  r ← for_ 1 (INFLATE_MAX_BITS + 1) (fun len s =>
    for_ 0 288 (fun i s =>
      let '(sy, idx) := (s : list Z * Z) in
      if fixed_len i =? len then sy ← st sy idx (u16 i); Ok (sy, idx + 1) else Ok (sy, idx)) s)
    (sym huff_zero, 0);
  Ok (mk_huff c (fst r) ∅).

Definition fixed_dist_syms : res huff :=
  c ← repeat_incr 0 30 5 (count huff_zero);
  sy ← for_ 0 30 (fun i sy => st sy i (u16 i)) (sym huff_zero);
  Ok (mk_huff c sy ∅).

Definition build_fixed (fx : fixed_tables) : res fixed_tables :=
  if fixed_ready fx then Ok fx
  else
    lit ← fixed_lit_syms;
    dist ← fixed_dist_syms;
    match huff_build lit with
    | Ok lit' =>
        match huff_build dist with
        | Ok dist' => Ok (mk_fixed true lit' dist')
        | Err _ => Ok (mk_fixed false lit' dist)
        | Fault => Fault
        | Timeout => Timeout
        end
    | Err _ => Ok (mk_fixed false lit dist)
    | Fault => Fault
    | Timeout => Timeout
    end.

(** [while (rep-- && cur < n) lens[cur++] = v] *)
Fixpoint rep_lens (rep : nat) (n v : Z) (lens : list Z) (cur : Z) : res (list Z * Z) :=
  match rep with
  | O => Ok (lens, cur)
  | S rep' =>
      if cur <? n then
        lens ← st lens cur v;
        rep_lens rep' n v lens (cur + 1)
      else Ok (lens, cur)
  end.

Record lens_state : Type := mk_lens {
  ls_rd : reader;
  ls_lens : list Z;
  ls_cur : Z;
  ls_last : Z;
}.

(** One turn of the code-length loop. *)
Definition read_len_step (clc : huff) (n : Z) (s : lens_state) : res (lens_state + lens_state) :=
  if ls_cur s <? n then
    r ← huff_decode (ls_rd s) clc;
    let '(sy, rd) := (r : Z * reader) in
    if sy <? 16 then
      lens ← st (ls_lens s) (ls_cur s) (u8 sy);
      Ok (inl (mk_lens rd lens (ls_cur s + 1) sy))
    else
      let run base nb v :=
        r ← get_bits rd nb;
        let '(x, rd) := (r : Z * reader) in
        r ← rep_lens (Z.to_nat (base + x)) n v (ls_lens s) (ls_cur s);
        let '(lens, cur) := (r : list Z * Z) in
        Ok (inl (mk_lens rd lens cur (ls_last s))) in
      if sy =? 16 then
        if ls_last s <? 0 then Err (-1) else run 3 2 (u8 (ls_last s))
      else if sy =? 17 then run 3 3 0
      else run 11 7 0
  else Ok (inr s).

(** Every turn advances [cur], so [n + 1] turns are enough. *)
Definition read_lens (clc : huff) (n : Z) (rd : reader) : res lens_state :=
  loop (Z.to_nat n + 1) (read_len_step clc n) (mk_lens rd (replicate 320 0) 0 (-1)).

(** The 3-bit lengths of the code-length alphabet: (reader, clc_len, clc). *)
Definition clc_step (i : Z) (s : reader * (list Z * huff)) : res (reader * (list Z * huff)) :=
  let '(rd, (cl, h)) := s in
  r ← get_bits rd 3;
  let '(v, rd) := (r : Z * reader) in
  o ← ld clc_order i;
  cl ← st cl o (u8 v);
  if truthy v then c ← incr (count h) v; Ok (rd, (cl, mk_huff c (sym h) (table h)))
  else Ok (rd, (cl, h)).

Definition read_clc (hclen : Z) (rd : reader) : res (reader * (list Z * huff)) :=
  for_ 0 hclen clc_step (rd, (replicate 19 0, huff_zero)).

Definition inflate_dynamic_tables (rd : reader) : res (reader * huff * huff) :=
  r ← get_bits rd 5; let '(v, rd) := (r : Z * reader) in let hlit := v + 257 in
  r ← get_bits rd 5; let '(v, rd) := (r : Z * reader) in let hdist := v + 1 in
  r ← get_bits rd 4; let '(v, rd) := (r : Z * reader) in let hclen := v + 4 in
  if (286 <? hlit) || (30 <? hdist) then Err (-1)
  else
    r ← read_clc hclen rd;
    let '(rd, (cl, clc)) := (r : reader * (list Z * huff)) in
    clc ← sort_syms cl 0 19 clc;
    clc ← huff_build clc;
    ls ← read_lens clc (hlit + hdist) rd;
    let lens := ls_lens ls in
    eob ← ld lens 256;
    if eob =? 0 then Err (-1)
    else
      lit ← count_lens lens 0 hlit huff_zero;
      lit ← sort_syms lens 0 hlit lit;
      lit ← huff_build lit;
      dist ← count_lens lens hlit hdist huff_zero;
      dist ← sort_syms lens hlit hdist dist;
      dist ← huff_build dist;
      Ok (ls_rd ls, lit, dist).

(** ** Output window and blocks *)

Record inf_state (C : Type) : Type := mk_inf {
  rd : reader;
  out : list Z;
  out_cap : Z;
  out_len : Z;
  has_sink : bool;
  sink_ctx : C;
  flushed : Z;
}.

Arguments mk_inf {C}.
Arguments rd {C}.
Arguments out {C}.
Arguments out_cap {C}.
Arguments out_len {C}.
Arguments has_sink {C}.
Arguments sink_ctx {C}.
Arguments flushed {C}.

Definition with_rd {C} (s : inf_state C) (r : reader) : inf_state C :=
  mk_inf r (out s) (out_cap s) (out_len s) (has_sink s) (sink_ctx s) (flushed s).

(** Upper bound on the turns of a loop that reads at least one bit per turn. *)
Definition bits_left (r : reader) : nat := Z.to_nat (bitcnt r + 8 * (zlen (in_ r) - in_pos r)).

(** Extra bits of a length or distance code: none are read for zero. *)
Definition extra_bits (r : reader) (n : Z) : res (Z * reader) :=
  if truthy n then get_bits r n else Ok (0, r).

(** Length and distance of a match, from the length symbol less 257. *)
Definition read_match (dist : huff) (sy : Z) (r : reader) : res (Z * Z * reader) :=
  if 29 <=? sy then Err (-1)
  else
    le ← ld len_ext sy;
    e ← extra_bits r le; let '(extra, r2) := (e : Z * reader) in
    lb ← ld len_base sy;
    let length := u32 (lb + extra) in
    d ← huff_decode r2 dist; let '(dsym, r3) := (d : Z * reader) in
    if 30 <=? dsym then Err (-1)
    else
      de ← ld dist_ext dsym;
      e ← extra_bits r3 de; let '(extra, r4) := (e : Z * reader) in
      db ← ld dist_base dsym;
      let distance := u32 (db + extra) in
      Ok (length, distance, r4).

Section blocks.
Context {C : Type} (sink : C -> list Z -> option C).

Definition out_flush (s : inf_state C) : res (inf_state C) :=
  let keep := if out_len s <? INF_KEEP then out_len s else INF_KEEP in
  let flush_n := out_len s - keep in
  if truthy flush_n then
    d ← slice0 (out s) flush_n;
    match sink (sink_ctx s) d with
    | None => Err (-1)
    | Some c =>
        o ← for_ 0 keep (fun i o => v ← ld o (flush_n + i); st o i v) (out s);
        Ok (mk_inf (rd s) o (out_cap s) keep (has_sink s) c (flushed s + flush_n))
    end
  else Ok (mk_inf (rd s) (out s) (out_cap s) keep (has_sink s) (sink_ctx s) (flushed s)).

(** [if (out_len >= out_cap) { if (!sink || out_flush(s) != 0) return -1; }] *)
Definition make_room (s : inf_state C) : res (inf_state C) :=
  if out_cap s <=? out_len s then
    if negb (has_sink s) then Err (-1) else out_flush s
  else Ok s.

(** [out[out_len++] = b] *)
Definition put_byte (s : inf_state C) (b : Z) : res (inf_state C) :=
  o ← st (out s) (out_len s) b;
  Ok (mk_inf (rd s) o (out_cap s) (out_len s + 1) (has_sink s) (sink_ctx s) (flushed s)).

Definition stored_step (_ : Z) (s : inf_state C) : res (inf_state C) :=
  s ← make_room s;
  r ← get_bits (rd s) 8; let '(b, r) := (r : Z * reader) in
  put_byte (with_rd s r) (u8 b).

Definition inflate_stored (s : inf_state C) : res (inf_state C) :=
  let s := with_rd s (drop_bits (rd s) (Z.land (bitcnt (rd s)) 7)) in
  r ← get_bits (rd s) 16; let '(len, r1) := (r : Z * reader) in
  r ← get_bits r1 16; let '(nlen, r2) := (r : Z * reader) in
  if negb (Z.lxor len 65535 =? nlen) then Err (-1)
  else if negb (has_sink s) && (out_cap s <? out_len s + len) then Err (-1)
  else for_ 0 len stored_step (with_rd s r2).

(** One turn of the match copy loop; the state carries [from]. *)
Definition copy_step (distance : Z) (_ : Z) (p : inf_state C * Z) : res (inf_state C * Z) :=
  let '(s, from) := p in
  p ← (if out_cap s <=? out_len s then
         s ← make_room s; Ok (s, out_len s - distance)
       else Ok (s, from));
  let '(s, from) := (p : inf_state C * Z) in
  v ← ld (out s) from;
  s ← put_byte s v;
  Ok (s, from + 1).

Definition copy_match (distance length : Z) (s : inf_state C) : res (inf_state C) :=
  r ← for_ 0 length (copy_step distance) (s, out_len s - distance);
  Ok (fst r).

Definition inflate_codes_step (lit dist : huff) (s : inf_state C) : res (inf_state C + inf_state C) :=
  r ← huff_decode (rd s) lit; let '(sy, r1) := (r : Z * reader) in
  let s := with_rd s r1 in
  if sy <? 256 then
    s ← make_room s;
    s ← put_byte s (u8 sy);
    Ok (inl s)
  else if sy =? 256 then Ok (inr s)
  else
    m ← read_match dist (sy - 257) (rd s);
    let '(length, distance, r4) := (m : Z * Z * reader) in
    if out_len s <? distance then Err (-1)
    else
      s ← copy_match distance length (with_rd s r4);
      Ok (inl s).

Definition inflate_codes (lit dist : huff) (s : inf_state C) : res (inf_state C) :=
  loop (S (bits_left (rd s))) (inflate_codes_step lit dist) s.

Definition inflate_block (p : fixed_tables * inf_state C) :
    res ((fixed_tables * inf_state C) + (fixed_tables * inf_state C)) :=
  let '(fx, s) := p in
  r ← get_bits (rd s) 1; let '(last, r1) := (r : Z * reader) in
  r ← get_bits r1 2; let '(type, r2) := (r : Z * reader) in
  let s := with_rd s r2 in
  p ← (if type =? 0 then s ← inflate_stored s; Ok (fx, s)
       else if type =? 1 then
         fx ← build_fixed fx;
         if negb (fixed_ready fx) then Err (-1)
         else s ← inflate_codes (fixed_lit fx) (fixed_dist fx) s; Ok (fx, s)
       else if type =? 2 then
         r ← inflate_dynamic_tables (rd s);
         let '(r3, lit, dist) := (r : reader * huff * huff) in
         s ← inflate_codes lit dist (with_rd s r3); Ok (fx, s)
       else Err (-1));
  Ok (if truthy last then inr p else inl p).

Definition inflate_raw (fx : fixed_tables) (s : inf_state C) : res (fixed_tables * inf_state C) :=
  loop (S (bits_left (rd s))) inflate_block (fx, s).
End blocks.

(** ** Bit-stream decoder

    What the code decodes, on a bit stream and the whole output so far. It is
    not the format: [dec_lens] repeats the last length that was sent
    explicitly, and [dec_code] wants a code to be non-empty, as the code
    does. *)

(** Symbols of code length [len], and the code of a list of lengths. *)
Definition positions (l : list Z) (len : Z) : list Z :=
  List.filter (fun i => bool_decide (zget l i = Some len)) (seqZ 0 (zlen l)).

Definition lens_syms (l : list Z) (n : Z) : list Z := mjoin (positions l <$> seqZ 1 n).

Definition lens_count (l : list Z) (k : Z) : Z := if k =? 0 then 0 else countb (Z.eqb k) l.

Definition lens_huff (l : list Z) : huff :=
  mk_huff (lens_count l <$> seqZ 0 16)
    (lens_syms l 15 ++ replicate (320 - length (lens_syms l 15)) 0) ∅.

Definition codes_okb (h : huff) : bool :=
  forallb (fun l => first h l + cnt h l <=? 2 ^ l) (seqZ 1 15) &&
  (0 <? index h 16) && (index h 16 <=? 320).

Definition dec_code (l : list Z) : option huff :=
  if codes_okb (lens_huff l) then Some (lens_huff l) else None.

(** Code lengths. [last] is the length a repeat code copies: the last length
    that was sent explicitly. *)
Fixpoint dec_lens (fuel : nat) (clc : huff) (n : Z) (acc : list Z) (last : option Z) (b : bits)
    : option (list Z * bits) :=
  match fuel with
  | O => None
  | S fuel' =>
      if n <=? zlen acc then Some (acc, b)
      else
        '(s, b) ← canon_decode clc b;
        let run base nb v :=
          '(x, b) ← take_bits nb b;
          dec_lens fuel' clc n (take (Z.to_nat n) (acc ++ replicate (Z.to_nat (base + x)) v)) last b in
        if s <? 16 then dec_lens fuel' clc n (acc ++ [s]) (Some s) b
        else if s =? 16 then l ← last; run 3 2 l
        else if s =? 17 then run 3 3 0
        else run 11 7 0
  end.

Fixpoint dec_clc (order : list Z) (l : list Z) (b : bits) : option (list Z * bits) :=
  match order with
  | [] => Some (l, b)
  | o :: order' => '(v, b) ← take_bits 3 b; dec_clc order' (zset l o v) b
  end.

Definition dec_dynamic (b : bits) : option (huff * huff * bits) :=
  '(v, b) ← take_bits 5 b; let hlit := v + 257 in
  '(v, b) ← take_bits 5 b; let hdist := v + 1 in
  '(v, b) ← take_bits 4 b; let hclen := v + 4 in
  if (286 <? hlit) || (30 <? hdist) then None
  else
    '(cl, b) ← dec_clc (take (Z.to_nat hclen) clc_order) (replicate 19 0) b;
    clc ← dec_code cl;
    '(lens, b) ← dec_lens (Z.to_nat (hlit + hdist) + 1) clc (hlit + hdist) [] None b;
    if default 0 (zget lens 256) =? 0 then None
    else
      lit ← dec_code (take (Z.to_nat hlit) lens);
      dist ← dec_code (drop (Z.to_nat hlit) lens);
      Some (lit, dist, b).

(** [n] bytes at distance [d], each appended before the next is read. *)
Fixpoint lz_copy (n : nat) (d : Z) (hist : list Z) : list Z :=
  match n with
  | O => hist
  | S n' => lz_copy n' d (hist ++ [default 0 (zget hist (zlen hist - d))])
  end.

Definition take_ext (n : Z) (b : bits) : option (Z * bits) :=
  if n =? 0 then Some (0, b) else take_bits n b.

Definition tab (t : list Z) (i : Z) : Z := default 0 (zget t i).

(** Length and distance of a match whose length symbol is [sy + 257]. *)
Definition dec_match (dist : huff) (sy : Z) (b : bits) : option (Z * Z * bits) :=
  if 29 <=? sy then None
  else
    '(x, b) ← take_ext (tab len_ext sy) b;
    '(ds, b) ← canon_decode dist b;
    if 30 <=? ds then None
    else
      '(y, b) ← take_ext (tab dist_ext ds) b;
      Some (tab len_base sy + x, tab dist_base ds + y, b).

Fixpoint dec_codes (fuel : nat) (lit dist : huff) (b : bits) (hist : list Z) : option (bits * list Z) :=
  match fuel with
  | O => None
  | S fuel' =>
      '(sy, b) ← canon_decode lit b;
      if sy <? 256 then dec_codes fuel' lit dist b (hist ++ [sy])
      else if sy =? 256 then Some (b, hist)
      else
        '(n, d, b) ← dec_match dist (sy - 257) b;
        if zlen hist <? d then None
        else dec_codes fuel' lit dist b (lz_copy (Z.to_nat n) d hist)
  end.

Fixpoint dec_bytes (n : nat) (b : bits) (hist : list Z) : option (bits * list Z) :=
  match n with
  | O => Some (b, hist)
  | S n' => '(v, b) ← take_bits 8 b; dec_bytes n' b (hist ++ [v])
  end.

(** A stored block starts at the next byte boundary. *)
Definition dec_stored (b : bits) (hist : list Z) : option (bits * list Z) :=
  '(_, b) ← take_bits (bs_len b mod 8) b;
  '(len, b) ← take_bits 16 b;
  '(nlen, b) ← take_bits 16 b;
  if negb (Z.lxor len 65535 =? nlen) then None else dec_bytes (Z.to_nat len) b hist.

Definition fixed_lit_lens : list Z :=
  replicate 144 8 ++ replicate 112 9 ++ replicate 24 7 ++ replicate 8 8.
Definition fixed_dist_lens : list Z := replicate 30 5.

Definition bits_fuel (b : bits) : nat := S (Z.to_nat (bs_len b)).

Definition dec_block (b : bits) (hist : list Z) : option (bool * (bits * list Z)) :=
  '(last, b) ← take_bits 1 b;
  '(type, b) ← take_bits 2 b;
  r ← (if type =? 0 then dec_stored b hist
       else if type =? 1 then
         dec_codes (bits_fuel b) (lens_huff fixed_lit_lens) (lens_huff fixed_dist_lens) b hist
       else if type =? 2 then
         '(lit, dist, b) ← dec_dynamic b; dec_codes (bits_fuel b) lit dist b hist
       else None);
  Some (truthy last, r).

Fixpoint dec_blocks (fuel : nat) (b : bits) (hist : list Z) : option (bits * list Z) :=
  match fuel with
  | O => None
  | S fuel' =>
      '(last, (b, hist)) ← dec_block b hist;
      if (last : bool) then Some (b, hist) else dec_blocks fuel' b hist
  end.

Definition dec_inflate (b : bits) : option (bits * list Z) := dec_blocks (bits_fuel b) b [].

(** ** Counts and symbols *)

Definition is_len (x : Z) : Prop := 0 <= x < 16.

Lemma zget_fmap_seqZ (f : Z -> Z) n k : 0 <= k < n -> zget (f <$> seqZ 0 n) k = Some (f k).
Proof.
  intros Hk. unfold zget. zcases. rewrite list_lookup_fmap.
  rewrite (lookup_seqZ_lt 0 n (Z.to_nat k)) by lia. simpl. do 2 f_equal. lia.
Qed.

Lemma zlen_fmap_seqZ (f : Z -> Z) n : 0 <= n -> zlen (f <$> seqZ 0 n) = n.
Proof. intros. unfold zlen. rewrite length_fmap, length_seqZ. lia. Qed.

Lemma counts_ext (c : list Z) (f : Z -> Z) :
  zlen c = 16 -> (forall k, 0 <= k < 16 -> zget c k = Some (f k)) -> c = f <$> seqZ 0 16.
Proof.
  intros Hl H. apply zget_ext; [by rewrite zlen_fmap_seqZ|].
  intros k Hk. rewrite zget_fmap_seqZ by lia. apply H. lia.
Qed.

Lemma lens_count_snoc l v k :
  lens_count (l ++ [v]) k = lens_count l k + (if (k =? v) && truthy k then 1 else 0).
Proof.
  unfold lens_count, truthy. destruct (Z.eqb_spec k 0); simpl; [by rewrite andb_false_r|].
  rewrite countb_app, countb_cons, countb_nil, andb_true_r. destruct (k =? v); lia.
Qed.

Lemma lens_count_bounds l k : 0 <= lens_count l k <= zlen l.
Proof.
  unfold lens_count. pose proof (countb_bounds (Z.eqb k) l). destruct (k =? 0); lia.
Qed.

(** [count[v]++] adds the length [v] to the counts. *)
Lemma incr_spec c l v :
  zlen c = 16 -> 0 < v < 16 -> zlen l < 65535 -> (forall k, 0 <= k < 16 -> zget c k = Some (lens_count l k)) ->
  total (fun c' => zlen c' = 16 /\
    forall k, 0 <= k < 16 -> zget c' k = Some (lens_count l k + if k =? v then 1 else 0)) (incr c v).
Proof.
  intros Hl Hv Hz Hc. unfold incr. rewrite (ld_ok _ _ _ (Hc v ltac:(lia))). cbn [mbind res_bind].
  rewrite st_ok by lia. unfold total, post. rewrite zlen_zset. split; [done|].
  intros k Hk. rewrite zget_zset, (Z.eqb_sym k) by lia. destruct (Z.eqb_spec v k) as [<-|].
  - f_equal. pose proof (lens_count_bounds l v). unfold u16. apply Z.mod_small. lia.
  - rewrite Hc by done. f_equal. lia.
Qed.

Section segment.
Context (lens : list Z) (off n : Z) (l : list Z).
Context (Hn : 0 <= n <= 320) (Hl : zlen l = n) (Hlen : Forall is_len l).
Context (Hseg : forall i, 0 <= i < n -> zget lens (off + i) = zget l i).

Lemma seg_get i : 0 <= i < n -> exists v, zget l i = Some v /\ ld lens (off + i) = Ok v /\ is_len v.
Proof using Hl Hlen Hseg.
  intros Hi. destruct (zget_in_range l i ltac:(lia)) as [v Hv]. exists v. split_and!; [done| |].
  - apply ld_ok. by rewrite Hseg.
  - by eapply Forall_zget.
Qed.

Lemma count_lens_spec :
  total (fun h => h = mk_huff (lens_count l <$> seqZ 0 16) (replicate 320 0) ∅)
    (count_lens lens off n huff_zero).
Proof using Hn Hl Hlen Hseg.
  unfold count_lens. eapply post_conseq.
  { apply (for_post (fun i h => sym h = replicate 320 0 /\ table h = ∅ /\ zlen (count h) = 16 /\
      forall k, 0 <= k < 16 -> zget (count h) k = Some (lens_count (take (Z.to_nat i) l) k))); [lia| |].
    { split_and!; try done. intros k Hk. replace (lens_count _ k) with 0 by (unfold lens_count; by destruct (k =? 0)).
      change (count huff_zero) with (replicate 16 0). by apply zget_replicate. }
    intros i h Hi (Hs & Ht & Hc16 & Hc). destruct (seg_get i Hi) as (v & Hv & -> & Hvr).
    cbn [mbind res_bind]. rewrite (take_zget l i v) by (done || lia).
    unfold is_len in Hvr. unfold truthy at 1.
    destruct (Z.eqb_spec v 0) as [->|Hv0]; cbn [negb post].
    - split_and!; try done. intros k Hk. rewrite Hc, lens_count_snoc by done. f_equal.
      unfold truthy. destruct (k =? 0); simpl; lia.
    - eapply total_bind; [apply (incr_spec _ (take (Z.to_nat i) l)); try done; try lia;
        unfold zlen in *; rewrite length_take; lia|].
      intros c (Hc16' & Hc'). cbn [total post count sym table].
      split_and!; try done. intros k Hk. rewrite Hc', lens_count_snoc by done. do 2 f_equal.
      unfold truthy. destruct (Z.eqb_spec k v), (Z.eqb_spec k 0); simpl; lia. }
  intros [c s t] (Hs & Ht & Hc16 & Hc). cbn [count sym table] in *. subst s t. f_equal. apply counts_ext; [done|].
  intros k Hk. rewrite Hc by done. unfold zlen in Hl. rewrite take_ge by lia. done.
Qed.

(** Symbols placed when lengths below [len] and symbols below [i] are done. *)
Definition placed (len i : Z) : list Z :=
  lens_syms l (len - 1) ++ List.filter (fun j => bool_decide (zget l j = Some len)) (seqZ 0 i).

Lemma placed_next len i :
  0 <= i -> placed len (i + 1) = placed len i ++ (if bool_decide (zget l i = Some len) then [i] else []).
Proof.
  intros Hi. unfold placed. rewrite Z.add_1_r, seqZ_succ, List.filter_app, app_assoc by lia.
  simpl. by destruct (bool_decide _).
Qed.

Lemma placed_len len : 1 <= len -> placed len n = placed (len + 1) 0.
Proof using Hl.
  intros Hlen1. unfold placed, lens_syms. replace (len + 1 - 1) with (len - 1 + 1) by lia.
  rewrite seqZ_app by lia. rewrite fmap_app, join_app. simpl. rewrite !app_nil_r.
  f_equal. unfold positions. by replace (1 + (len - 1)) with len by lia; rewrite Hl.
Qed.
End segment.

Lemma zlen_positions l k : zlen (positions l k) = countb (Z.eqb k) l.
Proof.
  unfold positions, countb, zlen.
  assert (forall d (l2 l1 : list Z), d = Z.of_nat (length l1) ->
    length (List.filter (fun i => bool_decide (zget (l1 ++ l2) i = Some k)) (seqZ d (Z.of_nat (length l2))))
    = length (List.filter (Z.eqb k) l2)) as H.
  { intros d l2. revert d. induction l2 as [|x l2 IH]; intros d l1 Hd; [done|].
    replace (Z.of_nat (length (x :: l2))) with (Z.succ (Z.of_nat (length l2))) by (simpl; lia).
    rewrite seqZ_cons by lia. rewrite Z.pred_succ. cbn [List.filter].
    replace (zget (l1 ++ x :: l2) d) with (Some x).
    2:{ unfold zget. zcases. by rewrite lookup_app_r, Hd, Nat2Z.id, Nat.sub_diag by lia. }
    specialize (IH (Z.succ d) (l1 ++ [x])). rewrite <- app_assoc in IH. simpl in IH.
    assert (bool_decide (Some x = Some k) = (k =? x)) as ->.
    { destruct (Z.eqb_spec k x); [apply bool_decide_eq_true_2; congruence|apply bool_decide_eq_false_2; congruence]. }
    destruct (k =? x); simpl; rewrite IH; try done; rewrite length_app; simpl; lia. }
  specialize (H 0 l [] eq_refl). simpl in H. lia.
Qed.

(** Each symbol has one length. *)
Lemma lens_syms_length l m : 0 <= m -> zlen (lens_syms l m) = foldr (fun k a => countb (Z.eqb k) l + a) 0 (seqZ 1 m).
Proof.
  intros _. unfold lens_syms. induction (seqZ 1 m) as [|k ks IH]; [done|].
  change (mjoin (positions l <$> k :: ks)) with (positions l k ++ mjoin (positions l <$> ks)).
  cbn [foldr]. by rewrite <- IH, zlen_app, zlen_positions.
Qed.

Lemma countb_eqb_nodup x ks : NoDup ks -> countb (fun k => k =? x) ks <= 1.
Proof.
  induction 1 as [|k ks Hk Hnd IH]; [done|]. rewrite countb_cons.
  destruct (Z.eqb_spec k x) as [->|]; [|lia].
  rewrite (countb_ext _ (fun _ => false)).
  - unfold countb. assert (List.filter (fun _ : Z => false) ks = []) as -> by (clear; induction ks; auto). done.
  - intros y Hy. apply Z.eqb_neq. intros ->. done.
Qed.

Lemma lens_syms_bound l : zlen (lens_syms l 15) <= zlen l.
Proof.
  rewrite lens_syms_length by lia. induction l as [|x l IH].
  - vm_compute. discriminate.
  - assert (forall ks, foldr (fun k a => countb (Z.eqb k) (x :: l) + a) 0 ks =
      countb (fun k => k =? x) ks + foldr (fun k a => countb (Z.eqb k) l + a) 0 ks) as ->.
    { induction ks as [|k ks IHk]; [done|]. cbn [foldr]. rewrite IHk, !countb_cons. lia. }
    unfold zlen in *. simpl length.
    assert (countb (fun k => k =? x) (seqZ 1 15) <= 1); [|lia].
    apply countb_eqb_nodup, NoDup_seqZ.
Qed.

Lemma lens_syms_prefix l m m' : 0 <= m <= m' -> lens_syms l m `prefix_of` lens_syms l m'.
Proof.
  intros Hm. unfold lens_syms. replace m' with (m + (m' - m)) by lia.
  rewrite seqZ_app, fmap_app, join_app by lia. by apply prefix_app_r.
Qed.

Lemma placed_prefix l len i :
  1 <= len <= 15 -> 0 <= i <= zlen l -> placed l len i `prefix_of` lens_syms l 15.
Proof.
  intros Hlen Hi. trans (placed l len (zlen l)).
  - unfold placed. replace (zlen l) with (i + (zlen l - i)) by lia.
    rewrite (seqZ_app 0), List.filter_app by lia. rewrite app_assoc. by apply prefix_app_r.
  - rewrite (placed_len (zlen l) l eq_refl) by lia. unfold placed. simpl. rewrite app_nil_r.
    apply lens_syms_prefix. lia.
Qed.

Section segment_sort.
Context (lens : list Z) (off n : Z) (l : list Z).
Context (Hn : 0 <= n <= 320) (Hl : zlen l = n) (Hlen : Forall is_len l).
Context (Hseg : forall i, 0 <= i < n -> zget lens (off + i) = zget l i).

Definition sorted_so_far (len i : Z) (s : list Z * Z) : Prop :=
  s = (placed l len i ++ replicate (Z.to_nat 320 - length (placed l len i)) 0, zlen (placed l len i)).

Lemma sort_syms_spec h :
  sym h = replicate 320 0 ->
  total (fun h' => h' = mk_huff (count h)
      (lens_syms l 15 ++ replicate (320 - length (lens_syms l 15)) 0) (table h))
    (sort_syms lens off n h).
Proof using Hn Hl Hlen Hseg.
  intros Hz. unfold sort_syms, INFLATE_MAX_BITS. rewrite Hz.
  eapply total_bind.
  { apply (for_post (fun len s => sorted_so_far len 0 s)); [lia|done|].
    intros len s Hlen1 Hs. eapply post_conseq.
    { apply (for_post (fun i s => sorted_so_far len i s)); [lia|exact Hs|].
      intros i s' Hi ->. destruct (seg_get lens off n l Hl Hlen Hseg i Hi) as (v & Hv & -> & Hvr).
      cbn [mbind res_bind]. unfold sorted_so_far. rewrite placed_next, Hv by lia.
      pose proof (placed_prefix l len (i + 1) ltac:(lia) ltac:(lia)) as Hp%prefix_length.
      rewrite placed_next, Hv in Hp by lia. pose proof (lens_syms_bound l) as Hb.
      destruct (Z.eqb_spec v len) as [->|Hne].
      - rewrite bool_decide_eq_true_2 in * by done. unfold u16. rewrite Z.mod_small by lia.
        rewrite length_app in Hp. simpl in Hp. unfold zlen in Hb, Hl.
        rewrite st_append by (unfold zlen; lia). cbn [mbind res_bind post]. f_equal.
        unfold zlen. rewrite length_app. simpl. lia.
      - rewrite bool_decide_eq_false_2 by congruence. rewrite app_nil_r. done. }
    intros s' ->. unfold sorted_so_far. by rewrite (placed_len n l Hl) by lia. }
  intros s ->. unfold total. cbn [post fst]. unfold placed. simpl. by rewrite app_nil_r.
Qed.
End segment_sort.

(** ** Codes of length lists *)

Lemma lens_syms_range l m : Forall (fun s => 0 <= s < zlen l) (lens_syms l m).
Proof.
  unfold lens_syms. apply Forall_join, Forall_fmap, list.Forall_forall. intros len _.
  unfold compose, positions. apply list.Forall_forall. intros s Hs%list_elem_of_In%List.filter_In.
  destruct Hs as [Hs%list_elem_of_In%elem_of_seqZ _]. lia.
Qed.

Lemma lens_huff_wf l : zlen l <= 320 -> huff_wf (lens_huff l).
Proof.
  intros Hl. pose proof (lens_syms_bound l) as Hb. unfold huff_wf, lens_huff, cnt. cbn [count sym].
  split_and!.
  - by apply zlen_fmap_seqZ.
  - rewrite zget_fmap_seqZ by lia. done.
  - apply Forall_fmap, list.Forall_forall. intros k _. simpl. pose proof (lens_count_bounds l k). lia.
  - unfold zlen in *. rewrite length_app, length_replicate. lia.
  - apply Forall_app_2.
    + eapply list.Forall_impl; [apply lens_syms_range|]. simpl. lia.
    + apply Forall_replicate. lia.
Qed.

Lemma codes_okb_spec h : codes_okb h = true <-> codes_ok h.
Proof.
  unfold codes_okb, codes_ok, kraft_ok. rewrite !andb_true_iff, List.forallb_forall.
  setoid_rewrite <- list_elem_of_In. setoid_rewrite elem_of_seqZ. setoid_rewrite Z.leb_le.
  rewrite Z.ltb_lt. split.
  - intros [[H ?] ?]. split; [|lia]. intros l Hl. apply H. lia.
  - intros [H ?]. split_and!; [|lia|lia]. intros l Hl. apply H. lia.
Qed.

(** [huff_build] accepts exactly the prefix codes. *)
Lemma huff_build_lens l :
  zlen l <= 320 ->
  match dec_code l with
  | None => huff_build (lens_huff l) = Err (-1)
  | Some h => exists h', huff_build (lens_huff l) = Ok h' /\ huff_built h' /\
                count h' = count h /\ sym h' = sym h
  end.
Proof.
  intros Hl. pose proof (huff_build_spec _ (lens_huff_wf l Hl)) as H.
  unfold dec_code. revert H. generalize (lens_huff l). intros h H.
  destruct (codes_okb h) eqn:E.
  - apply codes_okb_spec in E. destruct (huff_build h) as [h'|c| |]; cbn [post] in H.
    + exists h'. destruct H as (_ & H). split; [done|exact H].
    + by destruct H.
    + done.
    + done.
  - assert (~ codes_ok h) as Hn by (rewrite <- codes_okb_spec; congruence).
    destruct (huff_build h) as [h'|c| |]; cbn [post] in H.
    + by destruct H.
    + by destruct H as [-> _].
    + done.
    + done.
Qed.

(** A decoded symbol comes from the table and costs at least one bit. *)
Lemma canon_decode_bounds h b s b' :
  huff_wf h -> 0 <= bs_len b -> canon_decode h b = Some (s, b') ->
  0 <= s < 2048 /\ 0 <= bs_len b' < bs_len b.
Proof.
  intros Hwf Hb. unfold canon_decode. revert Hb.
  cut (forall n b len code f i, 0 <= bs_len b -> canon_go n h len code f i b = Some (s, b') ->
    0 <= s < 2048 /\ 0 <= bs_len b' < bs_len b); [eauto|].
  clear b. induction n as [|n IH]; intros b len code f i Hb; [done|]. cbn [canon_go].
  unfold take_bits at 1. destruct (Z.ltb_spec (bs_len b) 1); [done|]. cbn [mbind option_bind].
  destruct (_ <? _).
  - intros [= <- <-]. split; [by apply symat_bounds|]. simpl. lia.
  - intros H'. apply IH in H'; simpl in *; lia.
Qed.

Lemma take_bits_bounds n b v b' :
  0 <= n -> take_bits n b = Some (v, b') -> 0 <= v < 2 ^ n /\ bs_len b' = bs_len b - n /\ 0 <= bs_len b'.
Proof.
  intros Hn. unfold take_bits. destruct (Z.ltb_spec (bs_len b) n); [done|]. intros [= <- <-]. simpl.
  split; [|lia]. apply Z.mod_pos_bound. apply Z.pow_pos_nonneg; lia.
Qed.

(** ** Dynamic tables *)

(** What a step that reads from the stream and computes a value promises. *)
Definition reads {A B} (rel : B -> A -> Prop) (inp : list Z) (want : option (A * bits)) (got : res (reader * B)) : Prop :=
  match want with
  | None => got = Err (-1)
  | Some (a, b) => exists r x, got = Ok (r, x) /\ rel x a /\ reader_wf r /\ rbits r = b /\ in_ r = inp
  end.

Lemma step_bind {A B} r (want : option (A * bits)) got (f : A * reader -> res B)
    (g : A * bits -> option B) (P : res B -> option B -> Prop) :
  step_ok r want got -> P (Err (-1)) None ->
  (forall v r' b, want = Some (v, b) -> reader_wf r' -> rbits r' = b -> in_ r' = in_ r -> P (f (v, r')) (g (v, b))) ->
  P (got ≫= f) (want ≫= g).
Proof.
  intros Hs HN HS. destruct want as [[v b]|]; simpl in *.
  - destruct Hs as (r' & -> & Hwf & Hb & Hin). simpl. by apply HS.
  - by rewrite Hs.
Qed.

Lemma countb_zset (f : Z -> bool) l o a v :
  zget l o = Some a ->
  countb f (zset l o v) + (if f a then 1 else 0) = countb f l + (if f v then 1 else 0).
Proof.
  unfold zget, zset. intros Ha. destruct (Z.leb_spec 0 o); [|done].
  pose proof (lookup_lt_Some _ _ _ Ha). rewrite insert_take_drop by done.
  rewrite <- (take_drop_middle l _ a Ha) at 3.
  rewrite !countb_app, !countb_cons. lia.
Qed.

Lemma lens_count_zset l o v k :
  zget l o = Some 0 ->
  lens_count (zset l o v) k = lens_count l k + (if (k =? v) && truthy v then 1 else 0).
Proof.
  intros Ho. unfold lens_count, truthy. pose proof (countb_zset (Z.eqb k) l o 0 v Ho).
  destruct (Z.eqb_spec k 0), (Z.eqb_spec k v), (Z.eqb_spec v 0); simpl in *; lia.
Qed.

(** The code-length code read so far, with its counts. *)
Definition clc_rel (x : list Z * huff) (cl : list Z) : Prop :=
  fst x = cl /\ zlen cl = 19 /\ Forall is_len cl /\
  snd x = mk_huff (lens_count cl <$> seqZ 0 16) (replicate 320 0) ∅.

Lemma clc_step_spec r cl h i o :
  reader_wf r -> clc_rel (cl, h) cl -> zget clc_order i = Some o -> zget cl o = Some 0 ->
  reads clc_rel (in_ r) ('(v, b) ← take_bits 3 (rbits r); Some (zset cl o v, b)) (clc_step i (r, (cl, h))).
Proof.
  intros Hwf (_ & Hl & Hf & Hh) Ho Hc. cbn [fst snd] in Hh. unfold clc_step.
  pattern (get_bits r 3), (take_bits 3 (rbits r)).
  pose proof (get_bits_spec r 3 Hwf ltac:(lia)) as Hs.
  destruct (take_bits 3 (rbits r)) as [[v b]|] eqn:E; simpl in Hs.
  2:{ by rewrite Hs. }
  destruct Hs as (r' & -> & Hwf' & Hb & Hin). apply take_bits_bounds in E as (Hv & _); [|lia].
  change (2 ^ 3) with 8 in Hv. cbn [mbind res_bind option_bind]. rewrite (ld_ok _ _ _ Ho).
  cbn [mbind res_bind]. assert (u8 v = v) as -> by (unfold u8; apply Z.mod_small; lia).
  pose proof (zget_Some_range _ _ _ Hc). rewrite st_ok by lia. cbn [mbind res_bind].
  assert (Forall is_len (zset cl o v)) as Hf' by (apply Forall_zset; [done|unfold is_len; lia]).
  unfold truthy at 1. destruct (Z.eqb_spec v 0) as [->|Hv0]; cbn [negb reads].
  - exists r', (zset cl o 0, h). unfold clc_rel. cbn [fst snd]. rewrite zlen_zset. split_and!; try done.
    rewrite Hh. f_equal. apply list_fmap_ext. intros _ k _. rewrite lens_count_zset by done.
    rewrite andb_false_r. lia.
  - rewrite Hh. cbn [count sym table].
    pose proof (incr_spec (lens_count cl <$> seqZ 0 16) cl v (zlen_fmap_seqZ _ 16 ltac:(lia)) ltac:(lia)
      ltac:(lia) (fun k Hk => zget_fmap_seqZ _ _ _ Hk)) as (c & -> & Hc16 & Hck)%total_Ok.
    cbn [mbind res_bind]. exists r', (zset cl o v, mk_huff c (replicate 320 0) ∅).
    unfold clc_rel. cbn [fst snd]. rewrite zlen_zset. split_and!; try done.
    f_equal. apply counts_ext; [done|]. intros k Hk. rewrite Hck, lens_count_zset by done.
    unfold truthy. destruct (Z.eqb_spec v 0); [lia|]. by rewrite andb_true_r.
Qed.

Lemma clc_loop_spec n i r cl h :
  reader_wf r -> clc_rel (cl, h) cl -> 0 <= i -> (Z.to_nat i + n <= 19)%nat ->
  (forall j o, i <= j -> zget clc_order j = Some o -> zget cl o = Some 0) ->
  reads clc_rel (in_ r) (dec_clc (take n (drop (Z.to_nat i) clc_order)) cl (rbits r))
    (for_from n i clc_step (r, (cl, h))).
Proof.
  revert i r cl h. induction n as [|n IH]; intros i r cl h Hwf Hrel Hi Hn Hz.
  { rewrite take_0. cbn. exists r, (cl, h). auto. }
  destruct (zget_in_range clc_order i) as [o Ho]; [unfold zlen; simpl; lia|].
  pose proof (clc_step_spec r cl h i o Hwf Hrel Ho (Hz i o ltac:(lia) Ho)) as Hs.
  assert (drop (Z.to_nat i) clc_order = o :: drop (Z.to_nat (i + 1)) clc_order) as ->.
  { unfold zget in Ho. destruct (Z.leb_spec 0 i); [|lia].
    replace (Z.to_nat (i + 1)) with (S (Z.to_nat i)) by lia. by apply drop_S. }
  cbn [take dec_clc for_from].
  destruct (take_bits 3 (rbits r)) as [[v b]|] eqn:E; cbn [mbind option_bind] in *; cbn [reads] in Hs.
  2:{ by rewrite Hs. }
  destruct Hs as (r' & [cl' h'] & -> & Hrel' & Hwf' & <- & Hin). cbn [mbind res_bind]. rewrite <- Hin.
  destruct Hrel' as (Hcl & Hrel''). cbn [fst] in Hcl. subst cl'.
  apply IH; [done|done|lia|lia|].
  intros j o' Hj Ho'. rewrite zget_zset_ne; [apply (Hz j); [lia|done]|].
  intros ->. pose proof (zget_Some_range _ _ _ Ho'). pose proof (zget_Some_range _ _ _ Ho).
  assert (NoDup clc_order) as Hnd by (by apply (bool_decide_unpack _)).
  unfold zget in Ho, Ho'. destruct (Z.leb_spec 0 i); [|lia]. destruct (Z.leb_spec 0 j); [|lia].
  pose proof (NoDup_lookup _ _ _ _ Hnd Ho Ho'). lia.
Qed.

Definition padded (acc : list Z) : list Z := acc ++ replicate (Z.to_nat 320 - length acc) 0.

Lemma rep_lens_spec rep n v acc :
  zlen acc <= n <= 320 ->
  rep_lens rep n v (padded acc) (zlen acc) =
    Ok (padded (take (Z.to_nat n) (acc ++ replicate rep v)), zlen (take (Z.to_nat n) (acc ++ replicate rep v))).
Proof.
  revert acc. induction rep as [|rep IH]; intros acc Hn; cbn [rep_lens replicate].
  { unfold zlen in Hn. rewrite app_nil_r, take_ge by lia. done. }
  destruct (Z.ltb_spec (zlen acc) n) as [Hlt|Hge].
  - unfold padded at 1. rewrite st_append by lia. cbn [mbind res_bind]. fold (padded (acc ++ [v])).
    replace (zlen acc + 1) with (zlen (acc ++ [v])) by (unfold zlen; rewrite length_app; simpl; lia).
    rewrite IH.
    + by rewrite <- app_assoc.
    + unfold zlen in *. rewrite length_app. simpl. lia.
  - unfold zlen in *. rewrite take_app_le, take_ge by lia. done.
Qed.

Definition lens_rel (inp : list Z) (n : Z) (s : lens_state) (acc : list Z) (last : option Z) (b : bits) : Prop :=
  ls_lens s = padded acc /\ ls_cur s = zlen acc /\ zlen acc <= n /\ Forall is_len acc /\
  match last with None => ls_last s = -1 | Some x => ls_last s = x /\ is_len x end /\
  reader_wf (ls_rd s) /\ rbits (ls_rd s) = b /\ in_ (ls_rd s) = inp.

(** One repeat run of the code-length loop. *)
Lemma run_spec inp n s acc last r nb base v :
  lens_rel inp n s acc last (rbits (ls_rd s)) -> reader_wf r -> in_ r = inp -> n <= 320 -> 0 < nb <= 7 -> 3 <= base ->
  is_len v -> zlen acc < n ->
  match take_bits nb (rbits r) with
  | None => get_bits r nb = Err (-1)
  | Some (x, b) =>
      let acc' := take (Z.to_nat n) (acc ++ replicate (Z.to_nat (base + x)) v) in
      exists r', get_bits r nb = Ok (x, r') /\
        rep_lens (Z.to_nat (base + x)) n v (ls_lens s) (ls_cur s) = Ok (padded acc', zlen acc') /\
        lens_rel inp n (mk_lens r' (padded acc') (zlen acc') (ls_last s)) acc' last b /\ zlen acc < zlen acc'
  end.
Proof.
  intros (Hp & Hc & Hle & Hf & Hlast & _) Hwf Hin Hn Hnb Hbase Hv Hlt.
  pose proof (get_bits_spec r nb Hwf ltac:(lia)) as Hg.
  destruct (take_bits nb (rbits r)) as [[x b]|] eqn:E; cbn [step_ok] in Hg; [|done].
  destruct Hg as (r' & -> & Hwf' & Hb & Hin'). apply take_bits_bounds in E as (Hx & _); [|lia].
  exists r'. rewrite Hp, Hc, rep_lens_spec by lia. split_and!; [done|done| |].
  - unfold lens_rel. cbn [ls_lens ls_cur ls_last ls_rd]. split_and!; try done; try congruence.
    + unfold zlen in *. rewrite length_take. lia.
    + apply Forall_take, Forall_app_2; [done|]. by apply Forall_replicate.
  - unfold zlen in *. rewrite length_take, length_app, length_replicate. lia.
Qed.

Definition lens_done (inp : list Z) (n : Z) (want : option (list Z * bits)) (got : res lens_state) : Prop :=
  match want with
  | None => got = Err (-1)
  | Some (lens, b) => exists s, got = Ok s /\ ls_lens s = padded lens /\ zlen lens = n /\ Forall is_len lens /\
      reader_wf (ls_rd s) /\ rbits (ls_rd s) = b /\ in_ (ls_rd s) = inp
  end.

Lemma bs_len_nonneg r : reader_wf r -> 0 <= bs_len (rbits r).
Proof. intros (_ & Hp & Hc & _). unfold rbits; simpl. rewrite zlen_rest; lia. Qed.

Lemma dec_lens_ext fuel clc clc' n acc last b :
  count clc' = count clc -> sym clc' = sym clc ->
  dec_lens fuel clc' n acc last b = dec_lens fuel clc n acc last b.
Proof.
  intros Hc Hs. revert acc last b. induction fuel as [|fuel IH]; intros acc last b; [done|].
  cbn [dec_lens]. destruct (n <=? zlen acc); [done|]. rewrite (canon_decode_ext clc clc') by done.
  destruct (canon_decode clc b) as [[s b']|]; [|done]. cbn [mbind option_bind].
  assert (forall nb base v,
    ('(x, b) ← take_bits nb b'; dec_lens fuel clc' n (take (Z.to_nat n) (acc ++ replicate (Z.to_nat (base + x)) v)) last b)
    = ('(x, b) ← take_bits nb b'; dec_lens fuel clc n (take (Z.to_nat n) (acc ++ replicate (Z.to_nat (base + x)) v)) last b))
    as Hrun by (intros; destruct (take_bits nb b') as [[x b'']|]; [apply IH|done]).
  destruct (s <? 16); [apply IH|]. destruct (s =? 16); [destruct last; [apply Hrun|done]|].
  destruct (s =? 17); apply Hrun.
Qed.

Lemma read_lens_loop inp fuel clc n s acc last :
  huff_built clc -> n <= 320 -> n - zlen acc < Z.of_nat fuel ->
  lens_rel inp n s acc last (rbits (ls_rd s)) ->
  lens_done inp n (dec_lens fuel clc n acc last (rbits (ls_rd s))) (loop fuel (read_len_step clc n) s).
Proof.
  intros Hh Hn. revert s acc last. induction fuel as [|fuel IH]; intros s acc last Hfuel Hrel.
  { pose proof Hrel as (_ & _ & ? & _). lia. }
  cbn [dec_lens loop]. unfold read_len_step at 2.
  pose proof Hrel as (Hp & Hc & Hle & Hf & Hlast & Hwf & _ & Hin). rewrite Hc.
  destruct (Z.ltb_spec (zlen acc) n) as [Hlt|Hge], (Z.leb_spec n (zlen acc)); try lia.
  2:{ cbn. exists s. split_and!; try done. lia. }
  pose proof (huff_decode_spec (ls_rd s) clc Hh Hwf) as Hd.
  destruct (canon_decode clc (rbits (ls_rd s))) as [[sy b]|] eqn:E; cbn [step_ok] in Hd.
  2:{ by rewrite Hd. }
  destruct Hd as (r' & -> & Hwf' & <- & Hin').
  apply canon_decode_bounds in E as (Hsy & _); [|apply Hh|by apply bs_len_nonneg].
  cbn [mbind res_bind option_bind].
  assert (forall nb base v, 0 < nb <= 7 -> 3 <= base -> is_len v ->
    lens_done inp n
      ('(x, b) ← take_bits nb (rbits r');
       dec_lens fuel clc n (take (Z.to_nat n) (acc ++ replicate (Z.to_nat (base + x)) v)) last b)
      ((r ← get_bits r' nb;
        let '(x, rd) := (r : Z * reader) in
        r ← rep_lens (Z.to_nat (base + x)) n v (ls_lens s) (zlen acc);
        let '(lens, cur) := (r : list Z * Z) in Ok (inl (mk_lens rd lens cur (ls_last s))))
       ≫= fun r => match r with inl s' => loop fuel (read_len_step clc n) s' | inr x => Ok x end)) as Hrun.
  { intros nb base v Hnb Hb Hv.
    pose proof (run_spec inp n s acc last r' nb base v Hrel Hwf' ltac:(congruence) Hn Hnb Hb Hv Hlt) as Hr.
    rewrite Hc in Hr.
    destruct (take_bits nb (rbits r')) as [[x b]|]; [|by rewrite Hr].
    destruct Hr as (r'' & -> & Hrep & Hrel' & Hgrow). cbn [mbind res_bind option_bind]. rewrite Hrep.
    cbn [mbind res_bind]. pose proof Hrel' as (_ & _ & _ & _ & _ & _ & Hb' & _). cbn [ls_rd] in Hb'. rewrite <- Hb'.
    apply (IH (mk_lens _ _ _ _)); [lia|]. cbn [ls_rd]. by rewrite Hb'. }
  destruct (Z.ltb_spec sy 16) as [Hs16|Hs16].
  - rewrite Hp. unfold padded. rewrite st_append by lia. cbn [mbind res_bind].
    assert (u8 sy = sy) as -> by (unfold u8; apply Z.mod_small; lia).
    apply (IH (mk_lens _ _ _ _)); cbn [ls_rd].
    + unfold zlen in *. rewrite length_app. simpl. lia.
    + unfold lens_rel. cbn [ls_rd ls_cur ls_last ls_lens].
      assert (zlen (acc ++ [sy]) = zlen acc + 1) as -> by (unfold zlen; rewrite length_app; simpl; lia).
      assert (is_len sy) by (unfold is_len; lia).
      split_and!; try done; try lia; try congruence.
      apply Forall_app_2; [done|]. by apply list.Forall_cons.
  - destruct (Z.eqb_spec sy 16) as [->|].
    + destruct last as [x|]; cbn [mbind option_bind].
      * destruct Hlast as [Hx Hxr]. rewrite Hx in *. unfold is_len in Hxr.
        destruct (Z.ltb_spec x 0); [lia|].
        assert (u8 x = x) as -> by (unfold u8; apply Z.mod_small; lia). apply Hrun; [lia|lia|done].
      * rewrite Hlast. done.
    + destruct (Z.eqb_spec sy 17); apply Hrun; try lia; by unfold is_len.
Qed.

(** A built decoder for the code [h]. *)
Definition decoder_for (h' h : huff) : Prop :=
  huff_built h' /\ count h' = count h /\ sym h' = sym h.

Lemma sort_counted lens off n l :
  0 <= n <= 320 -> zlen l = n -> Forall is_len l ->
  (forall i, 0 <= i < n -> zget lens (off + i) = zget l i) ->
  sort_syms lens off n (mk_huff (lens_count l <$> seqZ 0 16) (replicate 320 0) ∅) = Ok (lens_huff l).
Proof.
  intros Hn Hl Hf Hseg. set (h := mk_huff _ _ _).
  pose proof (sort_syms_spec lens off n l Hn Hl Hf Hseg h eq_refl) as (h2 & -> & ->)%total_Ok. done.
Qed.

(** Counting, sorting and building gives the decoder of the length list. *)
Lemma build_segment lens off n l {B} (k : huff -> res B) (P : res B -> Prop) :
  0 <= n <= 320 -> zlen l = n -> Forall is_len l ->
  (forall i, 0 <= i < n -> zget lens (off + i) = zget l i) ->
  match dec_code l with
  | None => P (Err (-1))
  | Some h => forall h', decoder_for h' h -> P (k h')
  end ->
  P (h ← count_lens lens off n huff_zero; h ← sort_syms lens off n h; h ← huff_build h; k h).
Proof.
  intros Hn Hl Hf Hseg HP.
  pose proof (count_lens_spec lens off n l Hn Hl Hf Hseg) as (h1 & -> & ->)%total_Ok. rewrite Ok_bind.
  rewrite (sort_counted lens off n l) by done. rewrite Ok_bind. pose proof (huff_build_lens l ltac:(lia)) as Hb.
  destruct (dec_code l) as [h|].
  - destruct Hb as (h' & -> & ?). rewrite Ok_bind. by apply HP.
  - rewrite Hb, Err_bind. exact HP.
Qed.

Lemma build_clc cl h {B} (k : huff -> res B) (P : res B -> Prop) :
  clc_rel (cl, h) cl ->
  match dec_code cl with
  | None => P (Err (-1))
  | Some h => forall h', decoder_for h' h -> P (k h')
  end ->
  P (h ← sort_syms cl 0 19 h; h ← huff_build h; k h).
Proof.
  intros (_ & Hl & Hf & Hh) HP. cbn [snd] in Hh. rewrite Hh.
  rewrite (sort_counted cl 0 19 cl) by (done || lia). rewrite Ok_bind. pose proof (huff_build_lens cl ltac:(lia)) as Hb.
  destruct (dec_code cl) as [h0|].
  - destruct Hb as (h' & -> & ?). rewrite Ok_bind. by apply HP.
  - rewrite Hb, Err_bind. exact HP.
Qed.

Definition dynamic_done (inp : list Z) (want : option (huff * huff * bits)) (got : res (reader * huff * huff)) : Prop :=
  match want with
  | None => got = Err (-1)
  | Some (lit, dist, b) => exists r lit' dist', got = Ok (r, lit', dist') /\
      decoder_for lit' lit /\ decoder_for dist' dist /\ reader_wf r /\ rbits r = b /\ in_ r = inp
  end.

(** Instantiate [get_bits_spec] and split on whether the stream is long
    enough. *)
Ltac read_bits r n v r' Hwf Hv :=
  let Hg := fresh "Hg" in let E := fresh "E" in
  pose proof (get_bits_spec r n Hwf ltac:(lia)) as Hg;
  destruct (take_bits n (rbits r)) as [[v ?b]|] eqn:E; cbn [step_ok] in Hg;
  [ destruct Hg as (r' & -> & ? & <- & ?); apply take_bits_bounds in E as (Hv & _); [|lia];
    cbn [mbind res_bind option_bind]
  | rewrite Hg; try done ].

Lemma clc_order_zeros j o : zget clc_order j = Some o -> zget (replicate 19 0) o = Some 0.
Proof.
  intros Ho. apply zget_replicate.
  assert (Forall (fun x => 0 <= x < 19) clc_order) as Hall by (by apply (bool_decide_unpack _)).
  by apply (Forall_zget _ _ _ _ Hall) in Ho.
Qed.

Lemma read_clc_spec hclen r :
  reader_wf r -> 0 <= hclen <= 19 ->
  reads clc_rel (in_ r) (dec_clc (take (Z.to_nat hclen) clc_order) (replicate 19 0) (rbits r)) (read_clc hclen r).
Proof.
  intros Hwf Hh. unfold read_clc, for_. rewrite Z.sub_0_r.
  apply (clc_loop_spec (Z.to_nat hclen) 0 r _ _ Hwf); [|lia|lia|].
  - split_and!; [done|done|by apply Forall_replicate|done].
  - intros j o _. apply clc_order_zeros.
Qed.

(** The code lengths, from the reader after the code-length code. *)
Lemma read_lens_spec clc' clc n r :
  decoder_for clc' clc -> 0 <= n <= 320 -> reader_wf r ->
  lens_done (in_ r) n (dec_lens (Z.to_nat n + 1) clc n [] None (rbits r)) (read_lens clc' n r).
Proof.
  intros (Hb & Hc & Hs) Hn Hwf. unfold read_lens. rewrite <- (dec_lens_ext _ clc clc') by done.
  apply (read_lens_loop (in_ r) _ clc' n (mk_lens r (replicate 320 0) 0 (-1)) [] None); [done|lia| |].
  - unfold zlen. simpl. lia.
  - unfold lens_rel. cbn [ls_rd ls_lens ls_cur ls_last]. split_and!; try done; try lia. unfold zlen. simpl. lia.
Qed.

Lemma dynamic_spec r :
  reader_wf r -> dynamic_done (in_ r) (dec_dynamic (rbits r)) (inflate_dynamic_tables r).
Proof.
  intros Hwf. unfold dec_dynamic, inflate_dynamic_tables.
  read_bits r 5 v1 r1 Hwf Hv1. read_bits r1 5 v2 r2 H Hv2. read_bits r2 4 v3 r3 H1 Hv3.
  change (2 ^ 5) with 32 in *. change (2 ^ 4) with 16 in *.
  destruct ((286 <? v1 + 257) || (30 <? v2 + 1)) eqn:Hlim; [done|].
  apply orb_false_iff in Hlim as [Hlim1%Z.ltb_ge Hlim2%Z.ltb_ge].
  pose proof (read_clc_spec (v3 + 4) r3 H3 ltac:(lia)) as Hclc.
  destruct (dec_clc _ _ _) as [[cl b]|] eqn:Eclc; cbn [reads] in Hclc; [|by rewrite Hclc].
  destruct Hclc as (r4 & [cl' h] & -> & Hrel & Hwf4 & <- & Hin4).
  cbn [mbind res_bind option_bind]. pose proof Hrel as (Hcl & _). cbn [fst] in Hcl. subst cl'.
  apply build_clc; [done|]. destruct (dec_code cl) as [clc|]; cbn [mbind option_bind]; [|done].
  intros clc' Hdec.
  pose proof (read_lens_spec clc' clc (v1 + 257 + (v2 + 1)) r4 Hdec ltac:(lia) Hwf4) as Hl.
  destruct (dec_lens _ _ _ _ _ _) as [[lens b]|]; cbn [lens_done] in Hl; [|by rewrite Hl].
  destruct Hl as (ls & -> & Hpad & Hlen & Hf & Hwf5 & <- & Hin5). cbn [mbind res_bind option_bind].
  rewrite Hpad. destruct (zget_in_range lens 256 ltac:(lia)) as [eob Heob].
  rewrite (ld_ok _ 256 eob) by (unfold padded; by rewrite zget_app_l by lia).
  rewrite Heob. cbn [mbind res_bind default from_option id]. destruct (eob =? 0); [done|].
  apply (build_segment _ _ _ (take (Z.to_nat (v1 + 257)) lens)); [lia| |by apply Forall_take| |].
  { unfold zlen in *. rewrite length_take. lia. }
  { intros i Hi. unfold padded. rewrite zget_take, zget_app_l by lia. by rewrite Z.add_0_l. }
  destruct (dec_code (take _ lens)) as [lit|]; cbn [mbind option_bind]; [|done]. intros lit' Hlit.
  apply (build_segment _ _ _ (drop (Z.to_nat (v1 + 257)) lens)); [lia| |by apply Forall_drop| |].
  { unfold zlen in *. rewrite length_drop. lia. }
  { intros i Hi. unfold padded. rewrite zget_drop, zget_app_l by lia. done. }
  destruct (dec_code (drop _ lens)) as [dist|]; cbn [mbind option_bind]; [|done]. intros dist' Hdist.
  exists (ls_rd ls), lit', dist'. split_and!; try done. congruence.
Qed.

(** ** Blocks: the window implements the output history *)

(** The window sizes, as equations. *)
Lemma INF_sizes : INF_KEEP = 32768 /\ INF_BUFSZ = 65536.
Proof. done. Qed.

#[local] Opaque INF_KEEP INF_BUFSZ.

(** A sink that does not depend on how its input is cut. *)
Class StreamSink {C : Type} (sink : C -> list Z -> option C) : Prop := {
  sink_app : forall c d d', sink c (d ++ d') = (c' ← sink c d; sink c' d');
}.

Section refinement.
Context {C : Type} (sink : C -> list Z -> option C) `{!StreamSink sink} (c0 : C) (inp : list Z).

Lemma sink_prefix d d' : d `prefix_of` d' -> sink c0 d = None -> sink c0 d' = None.
Proof using StreamSink0. intros [k ->] Hd. by rewrite sink_app, Hd. Qed.

(** [s] has read the stream down to [b] and produced [hist]: a flushed part,
    given to the sink, and the window; once something was flushed the window
    keeps at least [INF_KEEP] bytes. *)
Definition repr (s : inf_state C) (b : bits) (hist : list Z) : Prop :=
  reader_wf (rd s) /\ rbits (rd s) = b /\ in_ (rd s) = inp /\
  out_cap s = INF_BUFSZ /\ zlen (out s) = INF_BUFSZ /\ 0 <= out_len s <= INF_BUFSZ /\ has_sink s = true /\
  exists F, hist = F ++ take (Z.to_nat (out_len s)) (out s) /\ sink c0 F = Some (sink_ctx s) /\
    flushed s = zlen F /\ (F = [] \/ INF_KEEP <= out_len s).

(** The code's result [got] follows the reference [want], unless the sink
    refuses the output. *)
Definition follows (want : option (bits * list Z)) (got : res (inf_state C)) : Prop :=
  match want with
  | None => got = Err (-1)
  | Some (b, hist) => (exists s, got = Ok s /\ repr s b hist) \/ (got = Err (-1) /\ sink c0 hist = None)
  end.

Definition extends (hist : list Z) (want : option (bits * list Z)) : Prop :=
  match want with None => True | Some (_, hist') => hist `prefix_of` hist' end.

Lemma follows_refused hist want : extends hist want -> sink c0 hist = None -> follows want (Err (-1)).
Proof using StreamSink0.
  destruct want as [[b h]|]; simpl; [|done]. intros Hp Hs. right. split; [done|]. by eapply sink_prefix.
Qed.

Lemma repr_rd s b hist r : repr s b hist -> reader_wf r -> in_ r = inp -> repr (with_rd s r) (rbits r) hist.
Proof. intros (_ & _ & _ & H) ? ?. split_and!; try done; apply H. Qed.

(** The slide: a forward copy to a lower address. *)
Lemma slide_spec (o : list Z) keep d :
  0 <= keep -> 0 < d -> d + keep <= zlen o ->
  total (fun o' => zlen o' = zlen o /\ forall i, 0 <= i < keep -> zget o' i = zget o (d + i))
    (for_ 0 keep (fun i o => v ← ld o (d + i); st o i v) o).
Proof.
  intros Hk Hd Hlen. eapply post_conseq.
  { apply (for_post (fun j o' => zlen o' = zlen o /\
      (forall i, 0 <= i < j -> zget o' i = zget o (d + i)) /\ (forall i, j <= i -> zget o' i = zget o i)));
      [lia|split_and!; [done|lia|done]|].
    intros j o' Hj (Hl & Hlo & Hhi).
    destruct (zget_in_range o' (d + j) ltac:(lia)) as [v Hv]. rewrite (ld_ok _ _ _ Hv), Ok_bind.
    rewrite st_ok by lia. cbn [post]. rewrite zlen_zset. split_and!; [done| |].
    - intros i Hi. rewrite zget_zset by lia. destruct (Z.eqb_spec j i) as [<-|]; [|apply Hlo; lia].
      rewrite <- Hv. apply Hhi. lia.
    - intros i Hi. rewrite zget_zset_ne by lia. apply Hhi. lia. }
  intros o' (Hl & Hlo & _). auto.
Qed.

Lemma flush_spec s b hist :
  repr s b hist -> INF_BUFSZ <= out_len s ->
  (exists s', out_flush sink s = Ok s' /\ repr s' b hist /\ out_len s' = INF_KEEP) \/
  (out_flush sink s = Err (-1) /\ sink c0 hist = None).
Proof using StreamSink0.
  intros (Hwf & Hb & Hin & Hcap & Hlen & Hol & Hsink & F & Hh & HF & Hfl & Hk) Hfull.
  pose proof INF_sizes as [HK HB]. unfold out_flush. rewrite (Z.le_antisymm _ _ (proj2 Hol) Hfull) in *.
  destruct (Z.ltb_spec INF_BUFSZ INF_KEEP); [lia|]. set (n := INF_BUFSZ - INF_KEEP).
  assert (n = INF_KEEP) as Hn by lia. clearbody n. subst n.
  unfold truthy. destruct (Z.eqb_spec INF_KEEP 0); [lia|]. cbn [negb].
  unfold slice0. destruct (Z.leb_spec INF_KEEP (zlen (out s))); [|lia]. rewrite Ok_bind.
  set (d := take (Z.to_nat INF_KEEP) (out s)).
  assert (hist = (F ++ d) ++ drop (Z.to_nat INF_KEEP) (out s)) as Hh'.
  { rewrite Hh, <- app_assoc. unfold d. rewrite take_drop. f_equal. apply take_ge.
    unfold zlen in Hlen. lia. }
  assert (sink c0 (F ++ d) = sink (sink_ctx s) d) as Hsd by (rewrite sink_app, HF; done).
  destruct (sink (sink_ctx s) d) as [c|] eqn:Ed.
  2:{ right. split; [done|]. rewrite Hh'. eapply sink_prefix; [by apply prefix_app_r|done]. }
  left.
  pose proof (slide_spec (out s) INF_KEEP INF_KEEP ltac:(lia) ltac:(lia) ltac:(lia)) as (o & Ho & Hol' & Hcp)%total_Ok.
  rewrite Ho, Ok_bind.
  eexists. split; [done|]. split; [|done]. unfold repr. cbn [rd out out_cap out_len has_sink sink_ctx flushed].
  split_and!; try done; try lia.
  exists (F ++ d). split_and!; try done.
  - rewrite Hh'. f_equal. apply zget_ext.
    + unfold zlen in *. rewrite length_take, length_drop. lia.
    + intros i Hi. unfold zlen in Hi, Hlen. rewrite length_drop in Hi.
      rewrite zget_take, zget_drop by lia. symmetry. apply Hcp. lia.
  - unfold zlen in *. unfold d. rewrite length_app, length_take. lia.
  - right. lia.
Qed.

Lemma make_room_spec s b hist :
  repr s b hist ->
  (exists s', make_room sink s = Ok s' /\ repr s' b hist /\ out_len s' < INF_BUFSZ) \/
  (make_room sink s = Err (-1) /\ sink c0 hist = None).
Proof using StreamSink0.
  intros Hr. pose proof INF_sizes as [HK HB].
  pose proof Hr as (_ & _ & _ & Hcap & _ & Hol & Hs & _). unfold make_room. rewrite Hcap, Hs. cbn [negb].
  destruct (Z.leb_spec INF_BUFSZ (out_len s)) as [Hfull|]; [|left; eauto].
  destruct (flush_spec s b hist Hr Hfull) as [(s' & ? & ? & ?)|?]; [left|by right].
  exists s'. split_and!; auto. lia.
Qed.

Lemma put_byte_spec s b hist v :
  repr s b hist -> out_len s < INF_BUFSZ ->
  exists s', put_byte s v = Ok s' /\ repr s' b (hist ++ [v]) /\ out_len s' = out_len s + 1.
Proof.
  intros (Hwf & Hb & Hin & Hcap & Hlen & Hol & Hsink & F & Hh & HF & Hfl & Hk) Hlt.
  unfold put_byte. rewrite st_ok by lia. rewrite Ok_bind. eexists. split_and!; [done| |done].
  unfold repr. cbn [rd out out_cap out_len has_sink sink_ctx flushed]. rewrite zlen_zset.
  split_and!; try done; try lia. exists F. split_and!; try done.
  - rewrite (take_zget _ (out_len s) v); [|lia|by apply zget_zset_eq; lia].
    rewrite app_assoc, Hh. do 2 f_equal. apply take_eq_zget; rewrite ?zlen_zset; try lia.
    intros i Hi. rewrite zget_zset_ne by lia. done.
  - destruct Hk; [by left|right; lia].
Qed.

(** The byte at distance [d] is in the window. *)
Lemma window_get s b hist d :
  repr s b hist -> 0 < d <= INF_KEEP -> d <= zlen hist ->
  d <= out_len s /\ zget (out s) (out_len s - d) = zget hist (zlen hist - d).
Proof.
  intros (_ & _ & _ & _ & Hlen & Hol & _ & F & -> & _ & _ & Hk) Hd Hdl.
  assert (zlen (F ++ take (Z.to_nat (out_len s)) (out s)) = zlen F + out_len s) as Hz.
  { unfold zlen in *. rewrite length_app, length_take. lia. }
  rewrite Hz in *. assert (d <= out_len s).
  { destruct Hk as [->|Hk]; [unfold zlen in *; simpl in *; lia|lia]. }
  split; [done|]. replace (zlen F + out_len s - d) with (zlen F + (out_len s - d)) by lia.
  unfold zget at 2. destruct (Z.leb_spec 0 (zlen F + (out_len s - d))); [|unfold zlen in *; lia].
  rewrite lookup_app_r by (unfold zlen; lia).
  replace (Z.to_nat (zlen F + (out_len s - d)) - length F)%nat with (Z.to_nat (out_len s - d)) by (unfold zlen; lia).
  rewrite lookup_take_lt by lia. unfold zget. by destruct (Z.leb_spec 0 (out_len s - d)); [|lia].
Qed.

(** Distances beyond the window are beyond the history. *)
Lemma window_short s b hist d : repr s b hist -> d <= INF_KEEP -> out_len s < d <-> zlen hist < d.
Proof.
  intros (_ & _ & _ & _ & Hlen & Hol & _ & F & -> & _ & _ & Hk) Hd.
  assert (zlen (F ++ take (Z.to_nat (out_len s)) (out s)) = zlen F + out_len s) as ->.
  { unfold zlen in *. rewrite length_app, length_take. lia. }
  destruct Hk as [->|Hk]; unfold zlen; simpl; lia.
Qed.

Lemma lz_copy_prefix n d hist : hist `prefix_of` lz_copy n d hist.
Proof.
  revert hist. induction n as [|n IH]; intros hist; [done|]. cbn [lz_copy].
  etrans; [|apply IH]. by apply prefix_app_r.
Qed.

Lemma copy_step_spec i s b hist d :
  repr s b hist -> 0 < d <= INF_KEEP -> d <= zlen hist ->
  (exists s', copy_step sink d i (s, out_len s - d) = Ok (s', out_len s' - d) /\
     repr s' b (hist ++ [default 0 (zget hist (zlen hist - d))])) \/
  (copy_step sink d i (s, out_len s - d) = Err (-1) /\ sink c0 hist = None).
Proof using StreamSink0.
  intros Hr Hd Hdl. unfold copy_step.
  assert (forall s1, repr s1 b hist -> out_len s1 < INF_BUFSZ ->
    exists s', (v ← ld (out s1) (out_len s1 - d); s ← put_byte s1 v; Ok (s, out_len s1 - d + 1))
      = Ok (s', out_len s' - d) /\
      repr s' b (hist ++ [default 0 (zget hist (zlen hist - d))])) as Hstep.
  { intros s1 Hr1 Hlt. destruct (window_get s1 b hist d Hr1 Hd Hdl) as [Hle Hg].
    destruct (zget_in_range hist (zlen hist - d) ltac:(lia)) as [v Hv]. rewrite Hv in *.
    rewrite (ld_ok _ _ _ Hg), Ok_bind.
    destruct (put_byte_spec s1 b hist v Hr1 Hlt) as (s' & -> & Hr' & Hol'). rewrite Ok_bind.
    exists s'. split; [do 2 f_equal; lia|done]. }
  pose proof Hr as (_ & _ & _ & Hcap & _ & Hol & _). rewrite Hcap.
  destruct (Z.leb_spec INF_BUFSZ (out_len s)).
  - destruct (make_room_spec s b hist Hr) as [(s1 & Hm & Hr1 & Hlt)|[-> ?]]; [|right; auto].
    rewrite Hm, !Ok_bind. left. apply Hstep; auto.
  - rewrite Ok_bind. left. apply Hstep; auto.
Qed.

Lemma copy_loop_spec n i s b hist d :
  repr s b hist -> 0 < d <= INF_KEEP -> d <= zlen hist ->
  (exists s', for_from n i (copy_step sink d) (s, out_len s - d) = Ok (s', out_len s' - d) /\
     repr s' b (lz_copy n d hist)) \/
  (for_from n i (copy_step sink d) (s, out_len s - d) = Err (-1) /\ sink c0 (lz_copy n d hist) = None).
Proof using StreamSink0.
  revert i s hist. induction n as [|n IH]; intros i s hist Hr Hd Hdl; cbn [for_from lz_copy].
  { left. exists s. auto. }
  destruct (copy_step_spec i s b hist d Hr Hd Hdl) as [(s' & -> & Hr')|[-> Hn]].
  - rewrite Ok_bind. apply IH; [done|done|]. rewrite zlen_snoc. lia.
  - right. split; [done|]. eapply sink_prefix; [|exact Hn].
    etrans; [|apply lz_copy_prefix]. by apply prefix_app_r.
Qed.

Lemma copy_match_spec n s b hist d :
  repr s b hist -> 0 < d <= INF_KEEP -> d <= zlen hist ->
  follows (Some (b, lz_copy (Z.to_nat n) d hist)) (copy_match sink d n s).
Proof using StreamSink0.
  intros Hr Hd Hdl. unfold copy_match, for_. rewrite Z.sub_0_r.
  destruct (copy_loop_spec (Z.to_nat n) 0 s b hist d Hr Hd Hdl) as [(s' & -> & Hr')|[-> Hn]].
  - left. exists s'. done.
  - right. done.
Qed.

Lemma dec_bytes_extends n b hist : extends hist (dec_bytes n b hist).
Proof.
  revert b hist. induction n as [|n IH]; intros b hist; cbn [dec_bytes]; [simpl; reflexivity|].
  destruct (take_bits 8 b) as [[v b']|]; cbn [mbind option_bind]; [|done].
  specialize (IH b' (hist ++ [v])). destruct (dec_bytes n b' (hist ++ [v])) as [[b'' h]|]; [|done].
  simpl in *. etrans; [|exact IH]. by apply prefix_app_r.
Qed.

Lemma stored_loop_spec n i s b hist :
  repr s b hist -> follows (dec_bytes n b hist) (for_from n i (stored_step sink) s).
Proof using StreamSink0.
  revert i s b hist. induction n as [|n IH]; intros i s b hist Hr.
  { left. exists s. auto. }
  pose proof (dec_bytes_extends (S n) b hist) as Hext. cbn [for_from]. unfold stored_step at 2.
  destruct (make_room_spec s b hist Hr) as [(s1 & -> & Hr1 & Hlt)|[-> Hn]].
  2:{ by eapply follows_refused. }
  rewrite Ok_bind. pose proof Hr1 as (Hwf & <- & Hin & _). cbn [dec_bytes].
  read_bits (rd s1) 8 v r' Hwf Hv.
  destruct (put_byte_spec (with_rd s1 r') (rbits r') hist v) as (s2 & Hp & Hr2 & _);
    [apply (repr_rd _ _ _ _ Hr1); [done|congruence]|exact Hlt|].
  assert (u8 v = v) as -> by (unfold u8; apply Z.mod_small; change (2 ^ 8) with 256 in Hv; lia).
  rewrite Hp, Ok_bind. by apply IH.
Qed.

Lemma stored_spec s b hist : repr s b hist -> follows (dec_stored b hist) (inflate_stored sink s).
Proof using StreamSink0.
  intros Hr. pose proof Hr as (Hwf & Hb & Hin & _ & _ & _ & Hs & _). unfold inflate_stored, dec_stored.
  assert (Z.land (bitcnt (rd s)) 7 = bs_len b mod 8) as Hk.
  { rewrite <- Hb. change 7 with (Z.ones 3). rewrite Z.land_ones by lia. change (2 ^ 3) with 8.
    unfold rbits. cbn [bs_len]. rewrite (Z.mul_comm 8), Z.mod_add by lia. done. }
  assert (bs_len b mod 8 <= bitcnt (rd s)) as Hle.
  { rewrite <- Hk. change 7 with (Z.ones 3). rewrite Z.land_ones by lia. apply Z.mod_le; [|done].
    apply Hwf. }
  pose proof (Z.mod_pos_bound (bs_len b) 8 ltac:(lia)) as Hmb.
  destruct (drop_bits_spec (rd s) (bs_len b mod 8) Hwf ltac:(lia)) as [Hwfd Hd].
  pose proof (bs_len_nonneg _ Hwf) as Hnn. rewrite Hb in *.
  assert (take_bits (bs_len b mod 8) b = Some (bs_val b mod 2 ^ (bs_len b mod 8),
    mk_bits (bs_val b / 2 ^ (bs_len b mod 8)) (bs_len b - bs_len b mod 8))) as ->.
  { unfold take_bits. pose proof (Z.mod_le (bs_len b) 8 Hnn ltac:(lia)).
    destruct (Z.ltb_spec (bs_len b) (bs_len b mod 8)); [lia|done]. }
  rewrite Hk, <- Hd. cbn [mbind option_bind]. set (r0 := drop_bits _ _) in *. cbn [rd with_rd has_sink].
  read_bits r0 16 len r1 Hwfd Hlen. read_bits r1 16 nlen r2 H Hnlen.
  destruct (negb _); [done|]. rewrite Hs. cbn [negb andb]. unfold for_. rewrite Z.sub_0_r.
  apply stored_loop_spec, (repr_rd (with_rd s r0) (rbits r0)); [|done|].
  - apply (repr_rd s b hist); [done|done|]. by unfold r0.
  - unfold r0 in *. simpl in *. congruence.
Qed.

Lemma extra_bits_spec r n :
  reader_wf r -> 0 <= n <= 32 -> step_ok r (take_ext n (rbits r)) (extra_bits r n).
Proof.
  intros Hwf Hn. unfold extra_bits, take_ext, truthy. destruct (Z.eqb_spec n 0).
  - exists r. auto.
  - apply get_bits_spec; [done|lia].
Qed.

Lemma take_ext_bounds n b v b' : 0 <= n -> 0 <= bs_len b -> take_ext n b = Some (v, b') ->
  0 <= v < 2 ^ n /\ 0 <= bs_len b' <= bs_len b.
Proof.
  intros Hn Hb. unfold take_ext. destruct (Z.eqb_spec n 0) as [->|].
  - intros [= <- <-]. change (2 ^ 0) with 1. lia.
  - intros H%take_bits_bounds; lia.
Qed.

Lemma len_tables sy : 0 <= sy < 29 ->
  ld len_ext sy = Ok (tab len_ext sy) /\ ld len_base sy = Ok (tab len_base sy) /\
  0 <= tab len_ext sy <= 32 /\ 0 <= tab len_base sy /\ tab len_base sy + 2 ^ tab len_ext sy <= 4294967296.
Proof.
  intros Hs.
  assert (Forall (fun sy => ld len_ext sy = Ok (tab len_ext sy) /\ ld len_base sy = Ok (tab len_base sy) /\
    0 <= tab len_ext sy <= 32 /\ 0 <= tab len_base sy /\ tab len_base sy + 2 ^ tab len_ext sy <= 4294967296)
    (seqZ 0 29)) as H by (repeat constructor; vm_compute; congruence).
  rewrite list.Forall_forall in H. apply H, elem_of_seqZ. lia.
Qed.

(** A distance never exceeds the history that a flush keeps. *)
Lemma dist_tables sy : 0 <= sy < 30 ->
  ld dist_ext sy = Ok (tab dist_ext sy) /\ ld dist_base sy = Ok (tab dist_base sy) /\
  0 <= tab dist_ext sy <= 32 /\ 0 < tab dist_base sy /\ tab dist_base sy + 2 ^ tab dist_ext sy <= 32769.
Proof.
  intros Hs.
  assert (Forall (fun sy => ld dist_ext sy = Ok (tab dist_ext sy) /\ ld dist_base sy = Ok (tab dist_base sy) /\
    0 <= tab dist_ext sy <= 32 /\ 0 < tab dist_base sy /\ tab dist_base sy + 2 ^ tab dist_ext sy <= 32769)
    (seqZ 0 30)) as H by (repeat constructor; vm_compute; congruence).
  rewrite list.Forall_forall in H. apply H, elem_of_seqZ. lia.
Qed.

Definition match_done (inp : list Z) (want : option (Z * Z * bits)) (got : res (Z * Z * reader)) (b0 : bits) : Prop :=
  match want with
  | None => got = Err (-1)
  | Some (n, d, b) => exists r, got = Ok (n, d, r) /\ reader_wf r /\ rbits r = b /\ in_ r = inp /\
      0 < d <= INF_KEEP /\ bs_len b <= bs_len b0
  end.

Lemma read_match_spec dist' dist sy r :
  decoder_for dist' dist -> reader_wf r -> 0 <= sy ->
  match_done (in_ r) (dec_match dist sy (rbits r)) (read_match dist' sy r) (rbits r).
Proof.
  intros (Hb & Hc & Hs) Hwf Hsy. unfold read_match, dec_match. pose proof INF_sizes as [HK _].
  destruct (Z.leb_spec 29 sy); [done|].
  destruct (len_tables sy ltac:(lia)) as (-> & -> & Hle & Hlb & Hlm). rewrite Ok_bind.
  pose proof (extra_bits_spec r (tab len_ext sy) Hwf ltac:(lia)) as He.
  destruct (take_ext (tab len_ext sy) (rbits r)) as [[x b1]|] eqn:Ex; cbn [step_ok] in He; [|by rewrite He].
  destruct He as (r1 & -> & Hwf1 & <- & Hin1). rewrite !Ok_bind. cbn [mbind option_bind].
  apply take_ext_bounds in Ex as (Hx & Hlen1); [|lia|by apply bs_len_nonneg].
  rewrite <- (canon_decode_ext dist dist') by done.
  pose proof (huff_decode_spec r1 dist' Hb Hwf1) as Hd.
  destruct (canon_decode dist' (rbits r1)) as [[ds b2]|] eqn:Ed; cbn [step_ok] in Hd; [|by rewrite Hd].
  destruct Hd as (r2 & -> & Hwf2 & <- & Hin2). rewrite !Ok_bind. cbn [mbind option_bind].
  apply canon_decode_bounds in Ed as (Hds & Hlen2); [|apply Hb|lia].
  destruct (Z.leb_spec 30 ds); [done|].
  destruct (dist_tables ds ltac:(lia)) as (-> & -> & Hde & Hdb & Hdm). rewrite Ok_bind.
  pose proof (extra_bits_spec r2 (tab dist_ext ds) Hwf2 ltac:(lia)) as He.
  destruct (take_ext (tab dist_ext ds) (rbits r2)) as [[y b3]|] eqn:Ey; cbn [step_ok] in He; [|by rewrite He].
  destruct He as (r3 & -> & Hwf3 & <- & Hin3). rewrite !Ok_bind. cbn [mbind option_bind match_done].
  apply take_ext_bounds in Ey as (Hy & Hlen3); [|lia|lia].
  rewrite !u32_small by lia. exists r3. split_and!; try done; try lia. congruence.
Qed.

Lemma dec_codes_extends fuel lit dist b hist : extends hist (dec_codes fuel lit dist b hist).
Proof.
  revert b hist. induction fuel as [|fuel IH]; intros b hist; cbn [dec_codes]; [done|].
  destruct (canon_decode lit b) as [[sy b1]|]; cbn [mbind option_bind]; [|done].
  assert (forall b' h', hist `prefix_of` h' -> extends hist (dec_codes fuel lit dist b' h')) as Hrec.
  { intros b' h' Hp. specialize (IH b' h'). destruct (dec_codes fuel lit dist b' h') as [[b'' h]|]; [|done].
    simpl in *. by etrans. }
  destruct (sy <? 256); [apply Hrec; by apply prefix_app_r|].
  destruct (sy =? 256); [simpl; reflexivity|].
  destruct (dec_match _ _ _) as [[[n d] b']|]; cbn [mbind option_bind]; [|done].
  destruct (_ <? d); [done|]. apply Hrec, lz_copy_prefix.
Qed.

Lemma codes_loop_spec fuel lit' lit dist' dist s b hist :
  decoder_for lit' lit -> decoder_for dist' dist -> repr s b hist -> bs_len b < Z.of_nat fuel ->
  follows (dec_codes fuel lit dist b hist) (loop fuel (inflate_codes_step sink lit' dist') s).
Proof using StreamSink0.
  intros Hlit Hdist. revert s b hist. induction fuel as [|fuel IH]; intros s b hist Hr Hfuel.
  { pose proof Hr as (Hwf & <- & _). pose proof (bs_len_nonneg _ Hwf). lia. }
  pose proof (dec_codes_extends (S fuel) lit dist b hist) as Hext.
  pose proof Hr as (Hwf & Hb & Hin & _). pose proof Hlit as (Hlb & Hlc & Hls). revert Hext.
  cbn [dec_codes loop]. set (L := loop fuel _). unfold inflate_codes_step.
  rewrite <- (canon_decode_ext lit lit') by done. rewrite <- Hb.
  pose proof (huff_decode_spec (rd s) lit' Hlb Hwf) as Hd.
  destruct (canon_decode lit' (rbits (rd s))) as [[sy b1]|] eqn:Ed; cbn [step_ok] in Hd; [|by rewrite Hd].
  destruct Hd as (r1 & -> & Hwf1 & <- & Hin1). rewrite !Ok_bind. cbn [mbind option_bind]. intros Hext.
  apply canon_decode_bounds in Ed as (Hsy & Hlen1); [|apply Hlb|by apply bs_len_nonneg].
  pose proof (repr_rd _ _ _ r1 Hr Hwf1 ltac:(congruence)) as Hr1.
  destruct (Z.ltb_spec sy 256).
  - destruct (make_room_spec _ _ _ Hr1) as [(s2 & -> & Hr2 & Hlt)|[-> Hn]]; [|by eapply follows_refused].
    rewrite Ok_bind. assert (u8 sy = sy) as -> by (unfold u8; apply Z.mod_small; lia).
    destruct (put_byte_spec s2 _ _ sy Hr2 Hlt) as (s3 & -> & Hr3 & _). rewrite !Ok_bind.
    apply IH; [done|]. rewrite Hb in *. lia.
  - destruct (Z.eqb_spec sy 256) as [|Hne].
    + left. eexists. split; [done|exact Hr1].
    + change (rd (with_rd s r1)) with r1. change (out_len (with_rd s r1)) with (out_len s).
      pose proof (read_match_spec dist' dist (sy - 257) r1 Hdist Hwf1 ltac:(lia)) as Hm.
      destruct (dec_match dist (sy - 257) (rbits r1)) as [[[n d] b2]|]; cbn [match_done] in Hm; [|by rewrite Hm].
      destruct Hm as (r2 & -> & Hwf2 & <- & Hin2 & Hd & Hlen2). rewrite Ok_bind. cbn [mbind option_bind] in *.
      pose proof (window_short _ _ _ d Hr ltac:(lia)).
      destruct (Z.ltb_spec (out_len s) d), (Z.ltb_spec (zlen hist) d); try lia; [done|].
      pose proof (repr_rd _ _ _ r2 Hr1 Hwf2 ltac:(congruence)) as Hr2.
      destruct (copy_match_spec n _ _ _ d Hr2 Hd ltac:(lia)) as [(s3 & -> & Hr3)|[-> Hn]].
      * rewrite !Ok_bind. apply IH; [done|]. rewrite Hb in *. lia.
      * rewrite Err_bind. eapply follows_refused; [apply dec_codes_extends|done].
Qed.

Lemma bits_left_eq r : reader_wf r -> bits_left r = Z.to_nat (bs_len (rbits r)).
Proof. intros (_ & Hp & _). unfold bits_left, rbits. cbn [bs_len]. by rewrite zlen_rest. Qed.

Lemma codes_spec lit' lit dist' dist s b hist :
  decoder_for lit' lit -> decoder_for dist' dist -> repr s b hist ->
  follows (dec_codes (bits_fuel b) lit dist b hist) (inflate_codes sink lit' dist' s).
Proof using StreamSink0.
  intros Hl Hd Hr. pose proof Hr as (Hwf & <- & _). unfold inflate_codes, bits_fuel.
  rewrite bits_left_eq by done. apply codes_loop_spec; auto. pose proof (bs_len_nonneg _ Hwf). lia.
Qed.
End refinement.

(** *** Reading never lengthens the stream *)

Ltac obind H x Hx := apply bind_Some in H as (x & Hx & H); try destruct x; cbv iota beta in H.

Lemma canon_decode_len h b s b' : canon_decode h b = Some (s, b') -> bs_len b' < bs_len b.
Proof.
  unfold canon_decode.
  cut (forall n b len code f i, canon_go n h len code f i b = Some (s, b') -> bs_len b' < bs_len b); [eauto|].
  clear b. induction n as [|n IH]; intros b len code f i; [done|]. cbn [canon_go].
  intros H. obind H x Hx. apply take_bits_bounds in Hx as (_ & Hl & _); [|lia].
  destruct (_ <? _); [simplify_eq; lia|]. apply IH in H. lia.
Qed.

Lemma take_ext_len n b v b' : 0 <= n -> take_ext n b = Some (v, b') -> bs_len b' <= bs_len b.
Proof.
  intros Hn. unfold take_ext. destruct (n =? 0); [intros; simplify_eq; lia|].
  intros H%take_bits_bounds; lia.
Qed.

Lemma tab_nonneg t i : Forall (fun x => 0 <= x) t -> 0 <= tab t i.
Proof.
  intros Ht. unfold tab. destruct (zget t i) eqn:E; simpl; [|lia]. by apply (Forall_zget _ _ _ _ Ht) in E.
Qed.

Lemma dec_match_len dist sy b n d b' : dec_match dist sy b = Some (n, d, b') -> bs_len b' < bs_len b.
Proof.
  unfold dec_match. destruct (29 <=? sy); [done|]. intros H.
  obind H x Hx. apply take_ext_len in Hx; [|apply tab_nonneg; by apply (bool_decide_unpack _)].
  obind H y Hy. apply canon_decode_len in Hy. destruct (30 <=? _); [done|].
  obind H w Hw. apply take_ext_len in Hw; [|apply tab_nonneg; by apply (bool_decide_unpack _)].
  simplify_eq. lia.
Qed.

Lemma dec_codes_len fuel lit dist b hist b' h' :
  dec_codes fuel lit dist b hist = Some (b', h') -> bs_len b' <= bs_len b.
Proof.
  revert b hist. induction fuel as [|fuel IH]; intros b hist; [done|]. cbn [dec_codes]. intros H.
  obind H x Hx. apply canon_decode_len in Hx. destruct (_ <? 256); [apply IH in H; lia|].
  destruct (_ =? 256); [simplify_eq; lia|].
  obind H y Hy. destruct p as [n d]. apply dec_match_len in Hy. destruct (_ <? d); [done|]. apply IH in H. lia.
Qed.

Lemma dec_bytes_len n b hist b' h' : dec_bytes n b hist = Some (b', h') -> bs_len b' <= bs_len b.
Proof.
  revert b hist. induction n as [|n IH]; intros b hist; cbn [dec_bytes]; [intros; simplify_eq; lia|].
  intros H. obind H x Hx. apply take_bits_bounds in Hx; [|lia]. apply IH in H. lia.
Qed.

Lemma dec_stored_len b hist b' h' : dec_stored b hist = Some (b', h') -> bs_len b' <= bs_len b.
Proof.
  unfold dec_stored. intros H. pose proof (Z.mod_pos_bound (bs_len b) 8).
  obind H x Hx. apply take_bits_bounds in Hx; [|lia].
  obind H y Hy. apply take_bits_bounds in Hy; [|lia].
  obind H w Hw. apply take_bits_bounds in Hw; [|lia].
  destruct (negb _); [done|]. apply dec_bytes_len in H. lia.
Qed.

Lemma dec_clc_len order l b l' b' : dec_clc order l b = Some (l', b') -> bs_len b' <= bs_len b.
Proof.
  revert l b. induction order as [|o order IH]; intros l b; cbn [dec_clc]; [intros; simplify_eq; lia|].
  intros H. obind H x Hx. apply take_bits_bounds in Hx; [|lia]. apply IH in H. lia.
Qed.

Lemma dec_lens_len fuel clc n acc last b l' b' :
  dec_lens fuel clc n acc last b = Some (l', b') -> bs_len b' <= bs_len b.
Proof.
  revert acc last b. induction fuel as [|fuel IH]; intros acc last b; [done|]. cbn [dec_lens].
  destruct (n <=? zlen acc); [intros; simplify_eq; lia|]. intros H.
  obind H x Hx. apply canon_decode_len in Hx. destruct (_ <? 16); [apply IH in H; lia|].
  destruct (_ =? 16); [obind H y Hy|destruct (_ =? 17)];
    obind H w Hw; (apply take_bits_bounds in Hw; [|lia]); apply IH in H; lia.
Qed.

Lemma dec_dynamic_len b lit dist b' : dec_dynamic b = Some (lit, dist, b') -> bs_len b' <= bs_len b.
Proof.
  unfold dec_dynamic. intros H.
  obind H x Hx. apply take_bits_bounds in Hx; [|lia].
  obind H y Hy. apply take_bits_bounds in Hy; [|lia].
  obind H w Hw. apply take_bits_bounds in Hw; [|lia].
  destruct (_ || _); [done|].
  obind H c Hc. apply dec_clc_len in Hc. obind H c' Hc'. obind H e He. apply dec_lens_len in He.
  destruct (_ =? 0); [done|]. obind H u Hu. obind H t Ht. simplify_eq. lia.
Qed.

Lemma dec_block_len b hist last b' h' : dec_block b hist = Some (last, (b', h')) -> bs_len b' < bs_len b.
Proof.
  unfold dec_block. intros H.
  obind H x Hx. apply take_bits_bounds in Hx; [|lia].
  obind H y Hy. apply take_bits_bounds in Hy; [|lia].
  obind H r Hr. simplify_eq. revert Hr.
  destruct (_ =? 0); [intros Hr%dec_stored_len; lia|].
  destruct (_ =? 1); [intros Hr%dec_codes_len; lia|].
  destruct (_ =? 2); [|done]. intros Hr. obind Hr t Ht. destruct p. apply dec_dynamic_len in Ht.
  apply dec_codes_len in Hr. lia.
Qed.

Lemma dec_blocks_len fuel b hist b' h' : dec_blocks fuel b hist = Some (b', h') -> bs_len b' <= bs_len b.
Proof.
  revert b hist. induction fuel as [|fuel IH]; intros b hist; [done|]. cbn [dec_blocks]. intros H.
  apply bind_Some in H as ([lst [b1 h1]] & Hb & H). apply dec_block_len in Hb.
  destruct lst; [simplify_eq; lia|]. apply IH in H. lia.
Qed.

(** *** The fixed code *)

Definition fixed_ok (fx : fixed_tables) : Prop :=
  fixed_ready fx = true ->
  decoder_for (fixed_lit fx) (lens_huff fixed_lit_lens) /\
  decoder_for (fixed_dist fx) (lens_huff fixed_dist_lens).

Lemma fixed_syms_eq :
  fixed_lit_syms = Ok (lens_huff fixed_lit_lens) /\ fixed_dist_syms = Ok (lens_huff fixed_dist_lens).
Proof. split; vm_compute; reflexivity. Qed.

Lemma fixed_codes_ok :
  dec_code fixed_lit_lens = Some (lens_huff fixed_lit_lens) /\
  dec_code fixed_dist_lens = Some (lens_huff fixed_dist_lens).
Proof.
  unfold dec_code.
  assert (codes_okb (lens_huff fixed_lit_lens) = true) as -> by (vm_compute; reflexivity).
  assert (codes_okb (lens_huff fixed_dist_lens) = true) as -> by (vm_compute; reflexivity). done.
Qed.

Lemma huff_build_code l h :
  zlen l <= 320 -> dec_code l = Some h -> exists h', huff_build (lens_huff l) = Ok h' /\ decoder_for h' h.
Proof. intros Hl Hr. pose proof (huff_build_lens l Hl) as H. by rewrite Hr in H. Qed.

Lemma build_fixed_spec fx :
  fixed_ok fx -> exists fx', build_fixed fx = Ok fx' /\ fixed_ready fx' = true /\ fixed_ok fx'.
Proof.
  intros Hok. unfold build_fixed. destruct (fixed_ready fx) eqn:E; [exists fx; auto|].
  destruct fixed_syms_eq as [-> ->]. rewrite !Ok_bind.
  destruct fixed_codes_ok as [Hcl Hcd].
  assert (zlen fixed_lit_lens <= 320 /\ zlen fixed_dist_lens <= 320) as [Hzl Hzd] by (split; by vm_compute).
  destruct (huff_build_code _ _ Hzl Hcl) as (hl & -> & Hl).
  destruct (huff_build_code _ _ Hzd Hcd) as (hd & -> & Hd).
  eexists. split; [done|]. split; [done|]. intros _. split; [exact Hl|exact Hd].
Qed.

Section refinement_blocks.
Context {C : Type} (sink : C -> list Z -> option C) `{!StreamSink sink} (c0 : C) (inp : list Z).

Notation repr := (repr sink c0 inp).
Notation follows := (follows sink c0 inp).

Definition follows_fx (want : option (bits * list Z)) (got : res (fixed_tables * inf_state C)) : Prop :=
  match want with
  | None => got = Err (-1)
  | Some (b, hist) =>
      (exists fx s, got = Ok (fx, s) /\ fixed_ok fx /\ repr s b hist) \/ (got = Err (-1) /\ sink c0 hist = None)
  end.

Lemma follows_pair want got fx :
  fixed_ok fx -> follows want got -> follows_fx want (s ← got; Ok (fx, s)).
Proof.
  intros Hfx. destruct want as [[b h]|]; simpl; [|by intros ->].
  intros [(s & -> & Hr)|[-> Hn]]; [left; exists fx, s; auto|by right].
Qed.

(** The body of a block of the given type. *)
Definition block_body (type : Z) (fx : fixed_tables) (s : inf_state C) : res (fixed_tables * inf_state C) :=
  if type =? 0 then s ← inflate_stored sink s; Ok (fx, s)
  else if type =? 1 then
    fx ← build_fixed fx;
    if negb (fixed_ready fx) then Err (-1)
    else s ← inflate_codes sink (fixed_lit fx) (fixed_dist fx) s; Ok (fx, s)
  else if type =? 2 then
    r ← inflate_dynamic_tables (rd s);
    let '(r3, lit, dist) := (r : reader * huff * huff) in
    s ← inflate_codes sink lit dist (with_rd s r3); Ok (fx, s)
  else Err (-1).

Definition dec_body (type : Z) (b : bits) (hist : list Z) : option (bits * list Z) :=
  if type =? 0 then dec_stored b hist
  else if type =? 1 then
    dec_codes (bits_fuel b) (lens_huff fixed_lit_lens) (lens_huff fixed_dist_lens) b hist
  else if type =? 2 then
    '(lit, dist, b) ← dec_dynamic b; dec_codes (bits_fuel b) lit dist b hist
  else None.

Lemma block_body_spec type fx s b hist :
  fixed_ok fx -> repr s b hist -> follows_fx (dec_body type b hist) (block_body type fx s).
Proof using StreamSink0.
  intros Hfx Hr. unfold dec_body, block_body.
  destruct (type =? 0); [apply follows_pair; [done|]; by apply stored_spec|].
  destruct (type =? 1).
  { destruct (build_fixed_spec fx Hfx) as (fx' & -> & Hready & Hfx'). rewrite Ok_bind, Hready. cbn [negb].
    destruct (Hfx' Hready) as [Hl Hd]. apply follows_pair; [done|]. apply codes_spec; assumption. }
  destruct (type =? 2); [|done].
  pose proof Hr as (Hwf & <- & Hin & _). pose proof (dynamic_spec (rd s) Hwf) as Hd.
  destruct (dec_dynamic (rbits (rd s))) as [[[lit dist] b]|]; cbn [dynamic_done] in Hd; [|by rewrite Hd].
  destruct Hd as (r & lit' & dist' & -> & Hl & Hds & Hwf' & <- & Hin'). rewrite Ok_bind. cbn [mbind option_bind].
  apply follows_pair; [done|]. apply codes_spec; [done|done|done|].
  apply (repr_rd _ _ _ _ _ _ _ Hr); [done|congruence].
Qed.

Lemma dec_body_extends type b hist : extends hist (dec_body type b hist).
Proof.
  unfold dec_body. destruct (type =? 0).
  { unfold dec_stored. destruct (take_bits _ b) as [[? b1]|]; cbn [mbind option_bind]; [|done].
    destruct (take_bits 16 b1) as [[? b2]|]; cbn [mbind option_bind]; [|done].
    destruct (take_bits 16 b2) as [[? b3]|]; cbn [mbind option_bind]; [|done].
    destruct (negb _); [done|]. apply dec_bytes_extends. }
  destruct (type =? 1); [apply dec_codes_extends|]. destruct (type =? 2); [|done].
  destruct (dec_dynamic b) as [[[? ?] ?]|]; cbn [mbind option_bind]; [apply dec_codes_extends|done].
Qed.

Lemma dec_blocks_extends fuel b hist : extends hist (dec_blocks fuel b hist).
Proof.
  revert b hist. induction fuel as [|fuel IH]; intros b hist; [done|]. cbn [dec_blocks]. unfold dec_block.
  destruct (take_bits 1 b) as [[lst b1]|]; cbn [mbind option_bind]; [|done].
  destruct (take_bits 2 b1) as [[type b2]|]; cbn [mbind option_bind]; [|done].
  pose proof (dec_body_extends type b2 hist) as Hx. fold (dec_body type b2 hist).
  destruct (dec_body type b2 hist) as [[b3 h3]|]; cbn [mbind option_bind]; [|done]. simpl in Hx.
  destruct (truthy lst); [done|]. specialize (IH b3 h3).
  destruct (dec_blocks fuel b3 h3) as [[b4 h4]|]; [|done]. simpl in *. by etrans.
Qed.

Lemma blocks_loop_spec fuel fx s b hist :
  fixed_ok fx -> repr s b hist -> bs_len b < Z.of_nat fuel ->
  follows_fx (dec_blocks fuel b hist) (loop fuel (inflate_block sink) (fx, s)).
Proof using StreamSink0.
  revert fx s b hist. induction fuel as [|fuel IH]; intros fx s b hist Hfx Hr Hfuel.
  { pose proof Hr as (Hwf & <- & _). pose proof (bs_len_nonneg _ Hwf). lia. }
  pose proof (dec_block_len b hist) as Hlen. revert Hlen.
  cbn [dec_blocks loop]. set (L := loop fuel _). unfold inflate_block, dec_block.
  pose proof Hr as (Hwf & <- & Hin & _).
  read_bits (rd s) 1 lst r1 Hwf Hlst. read_bits r1 2 type r2 H Htype.
  fold (block_body type fx (with_rd s r2)). fold (dec_body type (rbits r2) hist). intros Hlen.
  pose proof (block_body_spec type fx (with_rd s r2) (rbits r2) hist Hfx) as Hb.
  specialize (Hb (repr_rd sink c0 inp _ _ _ r2 Hr ltac:(done) ltac:(congruence))).
  destruct (dec_body type (rbits r2) hist) as [[b3 h3]|]; cbn [mbind option_bind follows_fx] in *; [|by rewrite Hb].
  specialize (Hlen (truthy lst) b3 h3 eq_refl).
  destruct Hb as [(fx' & s' & -> & Hfx' & Hr')|[-> Hn]].
  - rewrite Ok_bind. destruct (truthy lst).
    + left. exists fx', s'. auto.
    + rewrite Ok_bind. apply IH; [done|done|lia].
  - rewrite !Err_bind. destruct (truthy lst); [by right|].
    pose proof (dec_blocks_extends fuel b3 h3) as Hx. destruct (dec_blocks fuel b3 h3) as [[b4 h4]|]; [|done].
    right. split; [done|]. by eapply sink_prefix.
Qed.

(** The whole raw stream, from an empty window. *)
Lemma raw_spec fx win :
  fixed_ok fx -> zlen win = INF_BUFSZ -> Forall is_byte inp -> sink c0 [] = Some c0 ->
  follows_fx (dec_inflate (bits_of inp))
    (inflate_raw sink fx (mk_inf (mk_reader inp 0 0 0) win INF_BUFSZ 0 true c0 0)).
Proof using StreamSink0.
  intros Hfx Hwin Hby Hnil.
  assert (reader_wf (mk_reader inp 0 0 0)) as Hwf.
  { split_and!; try done. simpl. unfold zlen. lia. }
  assert (rbits (mk_reader inp 0 0 0) = bits_of inp) as Hbits.
  { unfold rbits, bits_of, rest. cbn [in_ in_pos bitbuf bitcnt].
    change (Z.to_nat 0) with 0%nat. rewrite drop_0. f_equal. lia. }
  unfold inflate_raw, dec_inflate. cbn [rd]. rewrite bits_left_eq by done. rewrite Hbits.
  apply blocks_loop_spec; [done| |].
  - unfold Inflate.repr. cbn [rd out out_cap out_len has_sink sink_ctx flushed].
    pose proof INF_sizes. split_and!; try done; try lia.
    exists []. change (Z.to_nat 0) with 0%nat. rewrite take_0. split_and!; try done. by left.
  - cbn [bs_len bits_of]. unfold zlen. lia.
Qed.
End refinement_blocks.

(** A sink that collects its input. *)
Definition collect (c d : list Z) : option (list Z) := Some (c ++ d).

#[global] Instance collect_stream : StreamSink collect.
Proof. constructor. intros c d d'. unfold collect. simpl. by rewrite app_assoc. Qed.
