(* ===== verification/Rfc1951.v ===== *)
(** * Rfc1951: the DEFLATE format, and inflate.c against it

    The module [Deflate] is RFC 1951 as a decoder on a list of bits. It is
    written from the document and shares nothing with the code: a code is the
    list of its code words, computed by the algorithm of 3.2.2, and decoding
    finds the word the stream starts with; the tables of lengths and distances
    are computed from the numbers of extra bits. Besides the output it says
    whether the stream is plain. A stream is not plain when it has one of the
    three features that inflate.c does not implement: a repeat of a length
    that was itself produced by a run of zeros, a block without any distance
    code, and more than 30 distance codes.

    The theorem of this file: [inflate_raw] decodes every plain stream to the
    output of the RFC, and on any input whatsoever does what [dec_inflate]
    says. *)

From S2P Require Import Prelude BitLists Huffman Inflate.

Module Deflate.

(** ** Numbers (3.1.1)

    Data elements other than Huffman codes are packed least significant bit
    first. *)
Fixpoint number (n : nat) (s : list bool) : option (Z * list bool) :=
  match n, s with
  | O, _ => Some (0, s)
  | S n', [] => None
  | S n', b :: s' => '(v, s'') ← number n' s'; Some (Z.b2z b + 2 * v, s'')
  end.

(** ** Huffman codes (3.2.2) *)

(** Steps 1 and 2: codes per length, and the smallest code of each length. *)
Definition bl_count (lens : list Z) (n : nat) : Z :=
  match n with O => 0 | _ => countb (Z.eqb (Z.of_nat n)) lens end.

Fixpoint next_code (lens : list Z) (n : nat) : Z :=
  match n with
  | O => 0
  | S n' => 2 * (next_code lens n' + bl_count lens n')
  end.

(** Step 3: the codes of one length are consecutive, in the order of the
    symbols. *)
Definition code (lens : list Z) (i len : Z) : Z :=
  next_code lens (Z.to_nat len) + countb (Z.eqb len) (take (Z.to_nat i) lens).

(** Huffman codes are packed most significant bit first. *)
Definition word (c len : Z) : list bool := (fun k => Z.testbit c (len - 1 - k)) <$> seqZ 0 len.

(** The symbols with their code words; length zero means no code. *)
Definition book (lens : list Z) : list (Z * list bool) :=
  omap (fun i => match zget lens i with
                 | Some len => if len =? 0 then None else Some (i, word (code lens i len) len)
                 | None => None
                 end) (seqZ 0 (zlen lens)).

(** Every code fits in its length. *)
Definition fits (lens : list Z) : bool :=
  forallb (fun i => match zget lens i with
                    | Some len => (len =? 0) || (code lens i len <? 2 ^ len)
                    | None => true
                    end) (seqZ 0 (zlen lens)).

Definition used (lens : list Z) : bool := existsb (fun len => negb (len =? 0)) lens.

Fixpoint strip (w s : list bool) : option (list bool) :=
  match w, s with
  | [], _ => Some s
  | b :: w', c :: s' => if Bool.eqb b c then strip w' s' else None
  | _, [] => None
  end.

(** The symbol whose word the stream starts with. *)
Fixpoint decode (bk : list (Z * list bool)) (s : list bool) : option (Z * list bool) :=
  match bk with
  | [] => None
  | (i, w) :: bk' => match strip w s with Some s' => Some (i, s') | None => decode bk' s end
  end.

(** ** Lengths and distances (3.2.5)

    [len_extra i] is the number of extra bits of length code [257 + i]. *)
Definition len_extra (i : Z) : Z := if (i <? 8) || (i =? 28) then 0 else i / 4 - 1.
Definition dist_extra (i : Z) : Z := if i <? 4 then 0 else i / 2 - 1.

Definition sum_below (f : Z -> Z) (i : Z) : Z := foldr (fun j a => 2 ^ f j + a) 0 (seqZ 0 i).

(** The ranges of the codes follow each other, but for code 285, which is
    258. *)
Definition len_first (i : Z) : Z := if i =? 28 then 258 else 3 + sum_below len_extra i.
Definition dist_first (i : Z) : Z := 1 + sum_below dist_extra i.

(** A reference to the last [d] bytes, repeated as often as [n] needs. *)
Definition copy (n d : Z) (hist : list Z) : list Z :=
  hist ++ ((fun k => default 0 (zget hist (zlen hist - d + k mod d))) <$> seqZ 0 n).

(** ** Blocks (3.2.3 to 3.2.7) *)

(** The data of a compressed block; every turn takes at least one bit, so the
    length of the stream is enough fuel. *)
Fixpoint block_data (fuel : nat) (lit dist : list (Z * list bool)) (s : list bool) (hist : list Z)
    : option (list Z * list bool) :=
  match fuel with
  | O => None
  | S fuel' =>
      '(sy, s) ← decode lit s;
      if sy <? 256 then block_data fuel' lit dist s (hist ++ [sy])
      else if sy =? 256 then Some (hist, s)
      else if 285 <? sy then None
      else
        '(x, s) ← number (Z.to_nat (len_extra (sy - 257))) s;
        '(ds, s) ← decode dist s;
        if 29 <? ds then None
        else
          '(y, s) ← number (Z.to_nat (dist_extra ds)) s;
          let d := dist_first ds + y in
          if zlen hist <? d then None
          else block_data fuel' lit dist s (copy (len_first (sy - 257) + x) d hist)
  end.

Definition fixed_lengths : list Z :=
  (fun i => if i <=? 143 then 8 else if i <=? 255 then 9 else if i <=? 279 then 7 else 8) <$> seqZ 0 288.
Definition fixed_distances : list Z := replicate 32 5.

(** The order in which the lengths of the code length alphabet are sent. *)
Definition order : list Z := [16; 17; 18; 0; 8; 7; 9; 6; 10; 5; 11; 4; 12; 3; 13; 2; 14; 1; 15].

Fixpoint code_length_lengths (o : list Z) (l : list Z) (s : list bool) : option (list Z * list bool) :=
  match o with
  | [] => Some (l, s)
  | i :: o' => '(v, s) ← number 3 s; code_length_lengths o' (zset l i v) s
  end.

(** The [n] code lengths. Code 16 copies the previous length, 17 and 18 are
    runs of zeros; a run that goes past the [n]-th length is not valid.
    [zeros] holds when the previous length comes from a run of zeros: a copy
    of it makes the stream not plain. *)
Fixpoint lengths (fuel : nat) (clc : list (Z * list bool)) (n : Z) (acc : list Z) (zeros plain : bool) (s : list bool)
    : option (list Z * list bool * bool) :=
  match fuel with
  | O => None
  | S fuel' =>
      if zlen acc =? n then Some (acc, s, plain)
      else if n <? zlen acc then None
      else
        '(sy, s) ← decode clc s;
        if sy <? 16 then lengths fuel' clc n (acc ++ [sy]) false plain s
        else if sy =? 16 then
          p ← list.last acc;
          '(x, s) ← number 2 s;
          lengths fuel' clc n (acc ++ replicate (Z.to_nat (3 + x)) p) zeros (plain && negb zeros) s
        else if sy =? 17 then
          '(x, s) ← number 3 s; lengths fuel' clc n (acc ++ replicate (Z.to_nat (3 + x)) 0) true plain s
        else
          '(x, s) ← number 7 s; lengths fuel' clc n (acc ++ replicate (Z.to_nat (11 + x)) 0) true plain s
  end.

(** The two codes of a dynamic block. Every block ends with symbol 256, so
    that symbol needs a code. *)
Definition dynamic (s : list bool) : option (list Z * list Z * list bool * bool) :=
  '(hlit, s) ← number 5 s;
  '(hdist, s) ← number 5 s;
  '(hclen, s) ← number 4 s;
  if 29 <? hlit then None
  else
    '(cl, s) ← code_length_lengths (take (Z.to_nat (hclen + 4)) order) (replicate 19 0) s;
    if negb (fits cl) then None
    else
      let n := hlit + 257 + (hdist + 1) in
      '(lens, s, plain) ← lengths (Z.to_nat n + 1) (book cl) n [] false true s;
      let lit := take (Z.to_nat (hlit + 257)) lens in
      let dist := drop (Z.to_nat (hlit + 257)) lens in
      if (default 0 (zget lit 256) =? 0) || negb (fits lit) || negb (fits dist) then None
      else Some (lit, dist, s, plain && (hdist <? 30) && used dist).

Fixpoint stored_bytes (n : nat) (s : list bool) (hist : list Z) : option (list Z * list bool) :=
  match n with
  | O => Some (hist, s)
  | S n' => '(v, s) ← number 8 s; stored_bytes n' s (hist ++ [v])
  end.

(** The stream is a sequence of bytes, so what is left of the current byte is
    the length of the rest modulo 8. NLEN is the one's complement of LEN. *)
Definition stored (s : list bool) (hist : list Z) : option (list Z * list bool) :=
  let s := drop (length s `mod` 8) s in
  '(len, s) ← number 16 s;
  '(nlen, s) ← number 16 s;
  if len + nlen =? 65535 then stored_bytes (Z.to_nat len) s hist else None.

(** One block: (BFINAL, output, rest, plain). *)
Definition block (s : list bool) (hist : list Z) : option (bool * (list Z * list bool) * bool) :=
  '(final, s) ← number 1 s;
  '(type, s) ← number 2 s;
  match type with
  | 0 => r ← stored s hist; Some (final =? 1, r, true)
  | 1 => r ← block_data (S (length s)) (book fixed_lengths) (book fixed_distances) s hist; Some (final =? 1, r, true)
  | 2 =>
      '(lit, dist, s, plain) ← dynamic s;
      r ← block_data (S (length s)) (book lit) (book dist) s hist; Some (final =? 1, r, plain)
  | _ => None
  end.

Fixpoint blocks (fuel : nat) (s : list bool) (hist : list Z) (plain : bool) : option (list Z * list bool * bool) :=
  match fuel with
  | O => None
  | S fuel' =>
      '(final, (hist, s), p) ← block s hist;
      if (final : bool) then Some (hist, s, plain && p) else blocks fuel' s hist (plain && p)
  end.

(** Output, rest of the stream, and whether the stream was plain. *)
Definition inflate (s : list bool) : option (list Z * list bool * bool) := blocks (S (length s)) s [] true.
End Deflate.

(** ** Bit lists and the bit streams of the code *)

Definition enc (s : list bool) : bits := mk_bits (bits_z s) (zlen s).

Lemma enc_stream l : Forall is_byte l -> enc (stream_of l) = bits_of l.
Proof.
  intros Hl. unfold enc, bits_of, zlen. rewrite length_stream. f_equal; [|lia].
  induction Hl as [|b l Hb _ IH]; [done|]. unfold stream_of in *. cbn [mbind list_bind le_val].
  rewrite bits_z_app, bits_z_byte, length_byte_bits, IH by done. done.
Qed.

Lemma take_enc w s : take_bits (zlen w) (enc (w ++ s)) = Some (bits_z w, enc s).
Proof.
  unfold take_bits, enc. cbn [bs_len bs_val]. rewrite zlen_app. pose proof (zlen_nonneg s).
  rewrite (proj2 (Z.ltb_ge _ _)) by lia. rewrite bits_z_app. unfold zlen in *. pose proof (bits_z_range w).
  do 3 f_equal; [|f_equal|lia].
  - rewrite Z.mul_comm, Z.mod_add, Z.mod_small by lia. done.
  - rewrite Z.mul_comm, Z.div_add, Z.div_small by lia. lia.
Qed.

Lemma number_split n s v s' : Deflate.number n s = Some (v, s') -> exists w, s = w ++ s' /\ zlen w = Z.of_nat n /\ bits_z w = v.
Proof.
  revert s v. induction n as [|n IH]; intros s v; [intros [= <- <-]; by exists []|].
  destruct s as [|b s]; [done|]. cbn [Deflate.number]. intros H. apply bind_Some in H as ([x r] & H & E). injection E as <- <-.
  destruct (IH _ _ H) as (w & -> & Hw & <-). exists (b :: w). split_and!; [done| |done]. unfold zlen in *. cbn. lia.
Qed.

Lemma number_take n s v s' : Deflate.number n s = Some (v, s') -> take_bits (Z.of_nat n) (enc s) = Some (v, enc s').
Proof. intros (w & -> & <- & <-)%number_split. apply take_enc. Qed.

Lemma number_bounds n s v s' : Deflate.number n s = Some (v, s') -> 0 <= v < 2 ^ Z.of_nat n /\ (length s = n + length s')%nat.
Proof.
  intros (w & -> & Hw & <-)%number_split. pose proof (bits_z_range w) as H. unfold zlen in Hw. rewrite Hw in H.
  split; [done|]. rewrite length_app. lia.
Qed.

(** ** Code words and canonical decoding *)

Lemma strip_app w s s' : Deflate.strip w s = Some s' -> s = w ++ s'.
Proof.
  revert s. induction w as [|b w IH]; intros s; [by intros [= <-]|]. destruct s as [|c s]; [done|]. cbn.
  destruct (Bool.eqb b c) eqn:E; [|done]. apply Bool.eqb_prop in E as ->. by intros ->%IH.
Qed.

Lemma decode_elem bk s i s' : Deflate.decode bk s = Some (i, s') -> exists w, (i, w) ∈ bk /\ s = w ++ s'.
Proof.
  induction bk as [|[j w] bk IH]; [done|]. cbn. destruct (Deflate.strip w s) as [r|] eqn:E.
  - intros [= <- <-]. exists w. split; [left|by apply strip_app].
  - intros (w' & ? & ?)%IH. exists w'. split; [by right|done].
Qed.

Lemma elem_of_book lens i w :
  (i, w) ∈ Deflate.book lens -> exists len, zget lens i = Some len /\ len <> 0 /\ w = Deflate.word (Deflate.code lens i len) len.
Proof.
  intros (j & _ & H)%list_elem_of_omap. destruct (zget lens j) as [len|] eqn:E; [|done].
  destruct (Z.eqb_spec len 0); [done|]. injection H as -> <-. eauto.
Qed.

(** The last of the elements that are counted. *)
Lemma countb_last {A} (f : A -> bool) l : 0 < countb f l ->
  exists i v, l !! i = Some v /\ f v = true /\ countb f l = countb f (take i l) + 1.
Proof.
  induction l as [|x l IH] using rev_ind; [done|]. rewrite countb_app, countb_cons, countb_nil. intros H.
  destruct (f x) eqn:E.
  - exists (length l), x. rewrite lookup_app_r, Nat.sub_diag, take_app_length by lia. split_and!; [done..|lia].
  - destruct IH as (i & v & Hi & Hf & Hc); [lia|]. pose proof (lookup_lt_Some _ _ _ Hi). exists i, v.
    rewrite lookup_app_l, take_app_le by lia. split_and!; [done..|lia].
Qed.

Section canonical.
Context (lens : list Z) (Hl : Forall is_len lens).

Lemma lens_cnt n : (n < 16)%nat -> cnt (lens_huff lens) (Z.of_nat n) = Deflate.bl_count lens n.
Proof.
  intros Hn. unfold cnt, lens_huff. cbn [count]. rewrite zget_fmap_seqZ by lia. cbn [default].
  unfold lens_count, Deflate.bl_count. destruct n; [done|]. done.
Qed.

Lemma lens_first n : (n <= 16)%nat -> first (lens_huff lens) (Z.of_nat n) = Deflate.next_code lens n.
Proof.
  intros Hn. unfold first. rewrite Nat2Z.id. induction n as [|n IH]; [done|]. cbn [first_nat Deflate.next_code].
  by rewrite IH, lens_cnt by lia.
Qed.

Lemma bl_count_nonneg n : 0 <= Deflate.bl_count lens n.
Proof. destruct n; [done|]. apply countb_bounds. Qed.

(** A code of [len] bits comes after all shorter ones. *)
Lemma next_code_shift m n : Deflate.next_code lens (m + n) >= 2 ^ Z.of_nat n * Deflate.next_code lens m.
Proof.
  induction n as [|n IH]; [rewrite Nat.add_0_r; lia|]. rewrite Nat.add_succ_r. cbn [Deflate.next_code].
  pose proof (bl_count_nonneg (m + n)). rewrite Nat2Z.inj_succ, Z.pow_succ_r by lia. lia.
Qed.

Lemma lens_index n : (n < 16)%nat -> index (lens_huff lens) (Z.of_nat n + 1) = zlen (lens_syms lens (Z.of_nat n)).
Proof.
  intros Hn. induction n as [|n IH].
  - rewrite index_succ by lia. change (Z.of_nat 0) with (Z.of_nat 0%nat). by rewrite lens_cnt by lia.
  - rewrite index_succ, lens_cnt by lia. replace (Z.of_nat (S n)) with (Z.of_nat n + 1) by lia. rewrite IH by lia.
    unfold lens_syms. rewrite seqZ_app, fmap_app, join_app, zlen_app by lia. f_equal.
    cbn [seqZ fmap list_fmap mjoin list_join]. change (seqZ (1 + Z.of_nat n) 1) with [1 + Z.of_nat n].
    cbn [fmap list_fmap mjoin list_join]. rewrite app_nil_r, zlen_positions. unfold Deflate.bl_count. f_equal. f_equal. lia.
Qed.

(** The symbols of one length in order. *)
Lemma zlen_placed len i : 1 <= len <= 15 -> 0 <= i <= zlen lens ->
  zlen (placed lens len i) = index (lens_huff lens) len + countb (Z.eqb len) (take (Z.to_nat i) lens).
Proof.
  intros Hlen Hi. unfold placed. rewrite zlen_app. f_equal.
  - pose proof (lens_index (Z.to_nat (len - 1)) ltac:(lia)) as H. rewrite Z2Nat.id in H by lia. rewrite <- H. f_equal. lia.
  - rewrite <- zlen_positions. unfold positions.
    assert (zlen (take (Z.to_nat i) lens) = i) as Hz by (unfold zlen in *; rewrite length_take; lia). rewrite Hz.
    assert (forall l, (forall j, j ∈ l -> 0 <= j < i) -> List.filter (fun j => bool_decide (zget lens j = Some len)) l =
      List.filter (fun j => bool_decide (zget (take (Z.to_nat i) lens) j = Some len)) l) as H.
    { induction l as [|j l IH]; intros Hj; [done|]. cbn [List.filter].
      rewrite (zget_take lens i j) by (apply Hj; left). rewrite IH; [done|]. intros k Hk. apply Hj. by right. }
    rewrite H; [done|]. intros j Hj%elem_of_seqZ. lia.
Qed.

Lemma symat_placed len i : zlen lens <= 320 -> 1 <= len <= 15 -> zget lens i = Some len ->
  symat (lens_huff lens) (index (lens_huff lens) len + countb (Z.eqb len) (take (Z.to_nat i) lens)) = i.
Proof.
  intros H320 Hlen Hi. pose proof (zget_Some_range _ _ _ Hi) as Hr. rewrite <- zlen_placed by lia.
  destruct (placed_prefix lens len (i + 1) Hlen ltac:(lia)) as [tl Htl].
  rewrite placed_next, Hi, bool_decide_eq_true_2, <- app_assoc in Htl by (done || lia). unfold symat, lens_huff. cbn [sym].
  rewrite Htl, <- !app_assoc. rewrite zget_app_r, Z.sub_diag by lia. done.
Qed.
Lemma word_succ c d : 0 <= d -> Deflate.word c (d + 1) = Z.testbit c d :: Deflate.word c d.
Proof.
  intros Hd. unfold Deflate.word. rewrite Z.add_1_r, seqZ_cons by lia. rewrite fmap_cons, Z.pred_succ. f_equal; [f_equal; lia|].
  change (Z.succ 0) with (1 + 0). rewrite <- fmap_add_seqZ, <- list_fmap_compose. apply list_fmap_ext.
  intros k x _. unfold compose. f_equal. lia.
Qed.

Lemma take_one b s : take_bits 1 (enc (b :: s)) = Some (Z.b2z b, enc s).
Proof. rewrite (take_enc [b] s : take_bits 1 (enc (b :: s)) = _). do 2 f_equal. cbn. lia. Qed.

Lemma code_bit c d : 0 <= d -> 2 * (c / 2 ^ (d + 1)) + Z.b2z (Z.testbit c d) = c / 2 ^ d.
Proof.
  intros Hd. rewrite Z.testbit_spec', Z.pow_add_r, <- Z.div_div by lia. change (2 ^ 1) with 2. mlia.
Qed.

(** The canonical decoder reads a code word to its end. *)
Lemma canon_go_word d k fuel c s :
  1 <= k -> k + Z.of_nat d <= 15 -> (d < fuel)%nat ->
  0 <= c - first (lens_huff lens) (k + Z.of_nat d) < cnt (lens_huff lens) (k + Z.of_nat d) ->
  canon_go fuel (lens_huff lens) k (2 * (c / 2 ^ (Z.of_nat d + 1))) (first (lens_huff lens) k) (index (lens_huff lens) k)
    (enc (Deflate.word c (Z.of_nat d + 1) ++ s)) =
  Some (symat (lens_huff lens) (index (lens_huff lens) (k + Z.of_nat d) + (c - first (lens_huff lens) (k + Z.of_nat d))), enc s).
Proof.
  revert k fuel. induction d as [|d IH]; intros k fuel Hk HL Hf Hr; (destruct fuel as [|fuel]; [lia|]);
    cbn [canon_go]; rewrite word_succ by lia; cbn [app]; rewrite take_one; cbn [mbind option_bind]; rewrite code_bit by lia.
  - cbn [Z.of_nat] in *. rewrite Z.add_0_r, Z.pow_0_r, Z.div_1_r in *. by rewrite (proj2 (Z.ltb_lt _ _)) by lia.
  - assert (first (lens_huff lens) k + cnt (lens_huff lens) k <= c / 2 ^ Z.of_nat (S d)) as Hge.
    { apply Z.div_le_lower_bound; [lia|].
      pose proof (next_code_shift (Z.to_nat (k + 1)) d) as Hn.
      rewrite <- !lens_first in Hn by lia. rewrite Nat2Z.inj_add, Z2Nat.id, first_succ in Hn by lia.
      replace (k + 1 + Z.of_nat d) with (k + Z.of_nat (S d)) in Hn by lia. rewrite Nat2Z.inj_succ, Z.pow_succ_r in * by lia. nia. }
    rewrite (proj2 (Z.ltb_ge _ _)) by lia. rewrite <- first_succ, <- index_succ by lia.
    replace (k + Z.of_nat (S d)) with (k + 1 + Z.of_nat d) in * by lia. replace (Z.of_nat (S d)) with (Z.of_nat d + 1) by lia.
    apply IH; lia.
Qed.

(** What the format decodes, the canonical decoder decodes. *)
Lemma decode_canon s i s' :
  zlen lens <= 320 -> Deflate.fits lens = true -> Deflate.decode (Deflate.book lens) s = Some (i, s') ->
  canon_decode (lens_huff lens) (enc s) = Some (i, enc s').
Proof using Hl.
  intros H320 Hfit (w & (len & Hi & H0 & ->)%elem_of_book & ->)%decode_elem.
  pose proof (Forall_zget _ _ _ _ Hl Hi) as Hlen. unfold is_len in Hlen. pose proof (zget_Some_range _ _ _ Hi) as Hr.
  pose proof (lens_first (Z.to_nat len) ltac:(lia)) as Hfst. pose proof (lens_cnt (Z.to_nat len) ltac:(lia)) as Hcnt.
  rewrite Z2Nat.id in Hfst, Hcnt by lia.
  set (c := Deflate.code lens i len). assert (c < 2 ^ len) as Hc.
  { unfold Deflate.fits in Hfit. rewrite List.forallb_forall in Hfit. specialize (Hfit i).
    rewrite <- list_elem_of_In, elem_of_seqZ, Hi in Hfit. specialize (Hfit ltac:(lia)).
    rewrite (proj2 (Z.eqb_neq _ _)) in Hfit by done. by apply Z.ltb_lt. }
  assert (c - first (lens_huff lens) len = countb (Z.eqb len) (take (Z.to_nat i) lens)) as Hrank
    by (unfold c, Deflate.code; lia).
  pose proof (countb_bounds (Z.eqb len) (take (Z.to_nat i) lens)) as Hcb.
  assert (countb (Z.eqb len) (take (Z.to_nat i) lens) < cnt (lens_huff lens) len) as Hlt.
  { rewrite Hcnt. unfold Deflate.bl_count. destruct (Z.to_nat len) as [|n] eqn:En; [lia|]. rewrite <- En, Z2Nat.id by lia.
    unfold zget in Hi. rewrite (proj2 (Z.leb_le 0 i)) in Hi by lia. rewrite <- (take_drop_middle lens _ _ Hi) at 2.
    rewrite countb_app, countb_cons, Z.eqb_refl. pose proof (countb_bounds (Z.eqb len) (drop (S (Z.to_nat i)) lens)). lia. }
  pose proof (canon_go_word (Z.to_nat (len - 1)) 1 15 c s' ltac:(lia) ltac:(lia) ltac:(lia)) as H.
  replace (1 + Z.of_nat (Z.to_nat (len - 1))) with len in H by lia. replace (Z.of_nat (Z.to_nat (len - 1)) + 1) with len in H by lia.
  specialize (H ltac:(lia)). rewrite Hrank, symat_placed in H by (done || lia).
  assert (0 <= first (lens_huff lens) len) as Hfn.
  { rewrite Hfst. clear. induction (Z.to_nat len) as [|n IH]; [done|]. cbn. pose proof (bl_count_nonneg n). lia. }
  rewrite Z.div_small, Z.mul_0_r in H by lia. unfold canon_decode. rewrite <- H.
  pose proof (lens_cnt 0 ltac:(lia)) as Hc0. change (Z.of_nat 0) with 0 in Hc0. cbn [Deflate.bl_count] in Hc0.
  assert (first (lens_huff lens) 1 = 0) as -> by (change 1 with (0 + 1); rewrite first_succ, Hc0 by lia; done).
  assert (index (lens_huff lens) 1 = 0) as -> by (change 1 with (0 + 1); rewrite index_succ, Hc0 by lia; done). done.
Qed.

(** A code that fits is one the code accepts, when it is not empty. *)
Lemma fits_kraft : Deflate.fits lens = true -> kraft_ok (lens_huff lens).
Proof using Hl.
  intros Hfit. assert (forall n, (n <= 15)%nat -> Deflate.next_code lens n + Deflate.bl_count lens n <= 2 ^ Z.of_nat n) as H.
  { induction n as [|n IH]; intros Hn; [done|]. specialize (IH ltac:(lia)).
    assert (Deflate.bl_count lens (S n) = 0 \/ 0 < Deflate.bl_count lens (S n)) as [->|Hpos]
      by (pose proof (bl_count_nonneg (S n)); lia).
    { cbn [Deflate.next_code]. rewrite Nat2Z.inj_succ, Z.pow_succ_r by lia. lia. }
    unfold Deflate.bl_count in Hpos |- *.
    destruct (countb_last (Z.eqb (Z.of_nat (S n))) lens Hpos) as (i & v & Hv & E%Z.eqb_eq & Hcnt). subst v.
    unfold Deflate.fits in Hfit. rewrite List.forallb_forall in Hfit. specialize (Hfit (Z.of_nat i)).
    pose proof (lookup_lt_Some _ _ _ Hv) as Hlt. rewrite <- list_elem_of_In, elem_of_seqZ in Hfit. unfold zlen in Hfit.
    specialize (Hfit ltac:(lia)). unfold zget in Hfit. rewrite (proj2 (Z.leb_le 0 _)), Nat2Z.id, Hv in Hfit by lia.
    rewrite (proj2 (Z.eqb_neq _ _)) in Hfit by lia. cbn [orb] in Hfit. apply Z.ltb_lt in Hfit. unfold Deflate.code in Hfit.
    rewrite !Nat2Z.id in Hfit. lia. }
  intros l Hlr. specialize (H (Z.to_nat l) ltac:(lia)). rewrite <- lens_first, <- lens_cnt, Z2Nat.id in H by lia. done.
Qed.

Lemma fits_dec_code :
  zlen lens <= 320 -> Deflate.fits lens = true -> Deflate.used lens = true -> dec_code lens = Some (lens_huff lens).
Proof using Hl.
  intros H320 Hfit Hu. unfold dec_code. rewrite (proj2 (codes_okb_spec _)); [done|]. split; [by apply fits_kraft|].
  pose proof (lens_index 15 ltac:(lia)) as Hx. change (Z.of_nat 15 + 1) with 16 in Hx. rewrite Hx. change (Z.of_nat 15) with 15.
  pose proof (lens_syms_bound lens). split; [|lia].
  unfold Deflate.used in Hu. apply List.existsb_exists in Hu as (len & Hin & Hnz%negb_true_iff%Z.eqb_neq).
  apply list_elem_of_In, list_elem_of_lookup in Hin as [i Hi].
  pose proof (Forall_lookup_1 _ _ _ _ Hl Hi) as Hlen. unfold is_len in Hlen.
  assert (zget lens (Z.of_nat i) = Some len) as Hz by (unfold zget; rewrite (proj2 (Z.leb_le 0 _)), Nat2Z.id by lia; done).
  pose proof (lookup_lt_Some _ _ _ Hi). destruct (placed_prefix lens len (Z.of_nat i + 1) ltac:(lia) ltac:(unfold zlen; lia)) as [tl ->].
  rewrite placed_next, Hz, bool_decide_eq_true_2 by (done || lia). rewrite !zlen_app. unfold zlen. cbn. lia.
Qed.
End canonical.

(** ** Code lengths *)

Lemma decode_range lens s i s' : Deflate.decode (Deflate.book lens) s = Some (i, s') -> 0 <= i < zlen lens.
Proof. intros (w & (len & Hi & _)%elem_of_book & _)%decode_elem. by eapply zget_Some_range. Qed.

Ltac ostep H x y Hx := apply bind_Some in H as ([x y] & Hx & H); cbv iota beta in H.

Section code_lengths.
Context (cl : list Z) (Hcl : Forall is_len cl) (H320 : zlen cl <= 320) (Hfit : Deflate.fits cl = true).

Lemma lengths_le fuel n acc z p s r : Deflate.lengths fuel (Deflate.book cl) n acc z p s = Some r -> zlen acc <= n.
Proof.
  destruct fuel as [|fuel]; [done|]. cbn [Deflate.lengths]. destruct (Z.eqb_spec (zlen acc) n); [lia|].
  destruct (Z.ltb_spec n (zlen acc)); [done|lia].
Qed.

Lemma lengths_plain fuel n acc z s lens s' : Deflate.lengths fuel (Deflate.book cl) n acc z false s <> Some (lens, s', true).
Proof.
  revert acc z s. induction fuel as [|fuel IH]; intros acc z s H; [done|]. cbn [Deflate.lengths] in H.
  destruct (_ =? n); [done|]. destruct (n <? _); [done|]. ostep H sy r Hd. destruct (sy <? 16); [by eapply IH|].
  destruct (sy =? 16); [apply bind_Some in H as (p & _ & H); ostep H x r' Hx; by eapply IH|].
  destruct (sy =? 17); ostep H x r' Hx; by eapply IH.
Qed.

Lemma lengths_dec fuel n acc expl z s lens s' :
  Forall is_len acc -> (z = false -> expl = list.last acc) ->
  Deflate.lengths fuel (Deflate.book cl) n acc z true s = Some (lens, s', true) ->
  dec_lens fuel (lens_huff cl) n acc expl (enc s) = Some (lens, enc s') /\ zlen lens = n /\ Forall is_len lens.
Proof using Hcl H320 Hfit.
  revert acc expl z s. induction fuel as [|fuel IH]; intros acc expl z s Hacc Hz H; [done|]. cbn [Deflate.lengths] in H. cbn [dec_lens].
  destruct (Z.eqb_spec (zlen acc) n) as [He|].
  { injection H as <- <-. by rewrite (proj2 (Z.leb_le _ _)) by lia. }
  destruct (Z.ltb_spec n (zlen acc)) as [|Hlt]; [done|]. rewrite (proj2 (Z.leb_gt _ _)) by lia.
  ostep H sy r Hd. pose proof (decode_range _ _ _ _ Hd) as Hsy. rewrite (decode_canon cl Hcl s sy r H320 Hfit Hd). cbn [mbind option_bind].
  destruct (Z.ltb_spec sy 16) as [H16|H16].
  { apply (IH (acc ++ [sy]) (Some sy) false r); [|by rewrite last_snoc|exact H]. apply Forall_app_2; [done|]. apply Forall_singleton. unfold is_len. lia. }
  assert (forall base nb v e z' x r', is_len v -> (z' = false -> e = Some v) -> 0 < base -> 0 <= x ->
    take_bits nb (enc r) = Some (x, enc r') ->
    Deflate.lengths fuel (Deflate.book cl) n (acc ++ replicate (Z.to_nat (base + x)) v) z' true r' = Some (lens, s', true) ->
    ('(x, b) ← take_bits nb (enc r);
     dec_lens fuel (lens_huff cl) n (take (Z.to_nat n) (acc ++ replicate (Z.to_nat (base + x)) v)) e b) = Some (lens, enc s') /\
    zlen lens = n /\ Forall is_len lens) as Hrun.
  { intros base nb v e z' x r' Hv He Hb Hx Ht Hr. rewrite Ht. cbn [mbind option_bind]. pose proof (lengths_le _ _ _ _ _ _ _ Hr) as Hle.
    rewrite take_ge by (unfold zlen in Hle; lia). eapply (IH _ _ z'); [|intros Ez|exact Hr].
    - apply Forall_app_2; [done|]. by apply Forall_replicate.
    - rewrite (He Ez). replace (Z.to_nat (base + x)) with (S (Z.to_nat (base + x - 1))) by lia.
      by rewrite replicate_S_end, app_assoc, last_snoc. }
  destruct (Z.eqb_spec sy 16).
  { apply bind_Some in H as (p & Hp & H). ostep H x r' Hx. destruct z; cbn [andb negb] in H; [by destruct (lengths_plain _ _ _ _ _ _ _ H)|].
    pose proof (number_bounds _ _ _ _ Hx) as [Hxr _]. rewrite (Hz eq_refl), Hp. cbn [mbind option_bind].
    apply (Hrun 3 2 p (Some p) false x r'); [|done|lia|lia|by apply (number_take 2)|exact H].
    apply last_Some in Hp as [l ->]. rewrite list.Forall_app, list.Forall_singleton in Hacc. apply Hacc. }
  destruct (Z.eqb_spec sy 17); ostep H x r' Hx; pose proof (number_bounds _ _ _ _ Hx) as [Hxr _].
  - apply (Hrun 3 3 0 expl true x r'); [done|done|lia|lia|by apply (number_take 3)|exact H].
  - apply (Hrun 11 7 0 expl true x r'); [done|done|lia|lia|by apply (number_take 7)|exact H].
Qed.
End code_lengths.

Lemma code_length_lengths_dec o l s l' s' :
  Deflate.code_length_lengths o l s = Some (l', s') -> dec_clc o l (enc s) = Some (l', enc s').
Proof.
  revert l s. induction o as [|i o IH]; intros l s; [by intros [= <- <-]|]. cbn [Deflate.code_length_lengths dec_clc]. intros H.
  ostep H v r Hv. rewrite (number_take 3 _ _ _ Hv : take_bits 3 _ = _). by apply IH.
Qed.

Lemma code_length_lengths_ok o l s l' s' :
  Forall is_len l -> Deflate.code_length_lengths o l s = Some (l', s') -> Forall is_len l' /\ zlen l' = zlen l.
Proof.
  revert l s. induction o as [|i o IH]; intros l s Hl; [by intros [= <- <-]|]. cbn [Deflate.code_length_lengths]. intros H.
  ostep H v r Hv. apply number_bounds in Hv as [Hv _]. destruct (IH (zset l i v) r) as [H1 H2]; [|done|].
  - apply Forall_zset; [done|]. unfold is_len. cbn in Hv. lia.
  - split; [done|]. by rewrite H2, zlen_zset.
Qed.

Lemma used_intro lens i len : zget lens i = Some len -> len <> 0 -> Deflate.used lens = true.
Proof.
  intros Hi Hne. apply List.existsb_exists. exists len. split; [|by apply negb_true_iff, Z.eqb_neq].
  unfold zget in Hi. destruct (0 <=? i); [|done]. apply list_elem_of_In. by eapply list_elem_of_lookup_2.
Qed.

(** An empty code has no words. *)
Lemma decode_used lens s r : Deflate.decode (Deflate.book lens) s = Some r -> Deflate.used lens = true.
Proof. destruct r as [i s']. intros (w & (len & Hi & Hne & _)%elem_of_book & _)%decode_elem. by eapply used_intro. Qed.

(** The two codes of a dynamic block. *)
Lemma dynamic_dec s lit dist s' :
  Deflate.dynamic s = Some (lit, dist, s', true) ->
  dec_dynamic (enc s) = Some (lens_huff lit, lens_huff dist, enc s') /\
  Forall is_len lit /\ Forall is_len dist /\ zlen lit <= 320 /\ zlen dist <= 320 /\
  Deflate.fits lit = true /\ Deflate.fits dist = true.
Proof.
  unfold Deflate.dynamic, dec_dynamic. intros H. ostep H hlit s1 H1. ostep H hdist s2 H2. ostep H hclen s3 H3.
  rewrite (number_take 5 _ _ _ H1 : take_bits 5 _ = _). cbn [mbind option_bind].
  rewrite (number_take 5 _ _ _ H2 : take_bits 5 _ = _). cbn [mbind option_bind].
  rewrite (number_take 4 _ _ _ H3 : take_bits 4 _ = _). cbn [mbind option_bind].
  apply number_bounds in H1 as [H1 _], H2 as [H2 _], H3 as [H3 _].
  destruct (Z.ltb_spec 29 hlit); [done|]. ostep H cl s4 H4.
  destruct (Deflate.fits cl) eqn:Hfc; [|done]. cbn [negb] in H.
  assert (Forall is_len (replicate 19 0)) as H19 by by apply Forall_replicate.
  destruct (code_length_lengths_ok _ _ _ _ _ H19 H4) as [Hcl Hcz]. change (zlen (replicate 19 0)) with 19 in Hcz.
  apply bind_Some in H as ([[lens s5] plain] & H5 & H). cbv iota beta in H.
  destruct (Z.eqb_spec (default 0 (zget (take (Z.to_nat (hlit + 257)) lens) 256)) 0) as [|He]; [done|].
  destruct (Deflate.fits (take _ lens)) eqn:Hfl; [|done]. destruct (Deflate.fits (drop _ lens)) eqn:Hfd; [|done].
  cbn [orb negb] in H. injection H as <- <- <- Hp. apply andb_true_iff in Hp as [[-> Hh%Z.ltb_lt]%andb_true_iff Hu].
  rewrite (proj2 (Z.ltb_ge 286 _)), (proj2 (Z.ltb_ge 30 _)) by lia. cbn [orb].
  change Deflate.order with clc_order in H4. rewrite (code_length_lengths_dec _ _ _ _ _ H4). cbn [mbind option_bind].
  assert (Deflate.used cl = true) as Huc.
  { revert H5. replace (Z.to_nat _ + 1)%nat with (S (Z.to_nat (hlit + 257 + (hdist + 1)))) by lia. cbn [Deflate.lengths].
    change (zlen (@nil Z)) with 0. rewrite (proj2 (Z.eqb_neq _ _)), (proj2 (Z.ltb_ge _ _)) by lia. intros H5.
    ostep H5 sy r Hsy. by eapply decode_used. }
  rewrite (fits_dec_code cl Hcl) by (done || lia). cbn [mbind option_bind].
  destruct (lengths_dec cl Hcl ltac:(lia) Hfc _ _ [] None false s4 lens s5 ltac:(done) ltac:(done) H5) as (E & Hn & Hlens).
  rewrite E. cbn [mbind option_bind].
  assert (zlen (take (Z.to_nat (hlit + 257)) lens) = hlit + 257 /\ zlen (drop (Z.to_nat (hlit + 257)) lens) = hdist + 1) as [Hz1 Hz2]
    by (unfold zlen in *; rewrite length_take, length_drop; lia).
  assert (Deflate.used (take (Z.to_nat (hlit + 257)) lens) = true) as Hul.
  { destruct (zget_in_range (take (Z.to_nat (hlit + 257)) lens) 256 ltac:(lia)) as [v Hv]. rewrite Hv in He. by eapply used_intro. }
  rewrite zget_take in He by lia. rewrite (proj2 (Z.eqb_neq _ _)) by done.
  assert (Forall is_len (take (Z.to_nat (hlit + 257)) lens) /\ Forall is_len (drop (Z.to_nat (hlit + 257)) lens)) as [HL HD]
    by (split; [by apply Forall_take|by apply Forall_drop]).
  rewrite (fits_dec_code _ HL), (fits_dec_code _ HD) by (done || lia). cbn [mbind option_bind]. split_and!; done || lia.
Qed.

(** ** Block data *)

Lemma copy_S m d hist : 0 < d <= zlen hist -> 0 <= m ->
  Deflate.copy m d hist ++ [default 0 (zget (Deflate.copy m d hist) (zlen (Deflate.copy m d hist) - d))] = Deflate.copy (m + 1) d hist.
Proof.
  intros Hd Hm. unfold Deflate.copy. set (f := fun k => default 0 (zget hist (zlen hist - d + k mod d))).
  rewrite seqZ_app, fmap_app, app_assoc by lia. f_equal. change (seqZ (0 + m) 1) with [0 + m]. cbn [fmap list_fmap]. f_equal.
  rewrite zlen_app. assert (zlen (f <$> seqZ 0 m) = m) as -> by (unfold zlen; rewrite length_fmap, length_seqZ; lia).
  rewrite Z.add_0_l. destruct (Z_lt_le_dec m d) as [Hlt|Hge].
  - unfold f. rewrite zget_app_l, (Z.mod_small m) by lia. do 2 f_equal. lia.
  - rewrite zget_app_r by lia. replace (zlen hist + m - d - zlen hist) with (m - d) by lia. rewrite zget_fmap_seqZ by lia. cbn [default].
    assert ((m - d) mod d = m mod d) as E by (rewrite <- (Z.mod_add (m - d) 1 d) by lia; f_equal; lia).
    unfold f. by rewrite E.
Qed.

Lemma lz_copy_spec n d hist : 0 < d <= zlen hist -> lz_copy n d hist = Deflate.copy (Z.of_nat n) d hist.
Proof.
  intros Hd. assert (forall m, 0 <= m -> lz_copy n d (Deflate.copy m d hist) = Deflate.copy (m + Z.of_nat n) d hist) as H.
  { induction n as [|n IH]; intros m Hm; [by rewrite Z.add_0_r|]. cbn [lz_copy]. rewrite copy_S, IH by lia. f_equal. lia. }
  specialize (H 0 ltac:(lia)). rewrite Z.add_0_l in H. rewrite <- H. f_equal. unfold Deflate.copy. by rewrite app_nil_r.
Qed.

(** The tables of the code are those of the format. *)
Lemma length_table i : 0 <= i < 29 -> tab len_ext i = Deflate.len_extra i /\ tab len_base i = Deflate.len_first i /\
  0 <= Deflate.len_extra i /\ 0 <= Deflate.len_first i.
Proof.
  intros Hi. assert (Forall (fun i => tab len_ext i = Deflate.len_extra i /\ tab len_base i = Deflate.len_first i /\
    0 <= Deflate.len_extra i /\ 0 <= Deflate.len_first i) (seqZ 0 29)) as H by (apply (bool_decide_unpack _); vm_compute; done).
  rewrite list.Forall_forall in H. apply H, elem_of_seqZ. lia.
Qed.

Lemma distance_table i : 0 <= i < 30 -> tab dist_ext i = Deflate.dist_extra i /\ tab dist_base i = Deflate.dist_first i /\
  0 <= Deflate.dist_extra i /\ 0 < Deflate.dist_first i.
Proof.
  intros Hi. assert (Forall (fun i => tab dist_ext i = Deflate.dist_extra i /\ tab dist_base i = Deflate.dist_first i /\
    0 <= Deflate.dist_extra i /\ 0 < Deflate.dist_first i) (seqZ 0 30)) as H by (apply (bool_decide_unpack _); vm_compute; done).
  rewrite list.Forall_forall in H. apply H, elem_of_seqZ. lia.
Qed.

Lemma number_ext e s x s' : 0 <= e -> Deflate.number (Z.to_nat e) s = Some (x, s') -> take_ext e (enc s) = Some (x, enc s').
Proof.
  intros He H. unfold take_ext. destruct (Z.eqb_spec e 0) as [->|]; [by injection H as <- <-|].
  apply number_take in H. by rewrite Z2Nat.id in H.
Qed.

Section data.
Context (lit dist : list (Z * list bool)) (hl hd : huff).
Context (Hlit : forall s i s', Deflate.decode lit s = Some (i, s') -> 0 <= i /\ canon_decode hl (enc s) = Some (i, enc s')).
Context (Hdist : forall s i s', Deflate.decode dist s = Some (i, s') -> i < 30 -> 0 <= i /\ canon_decode hd (enc s) = Some (i, enc s')).

Lemma block_data_dec fuel s hist hist' s' :
  Deflate.block_data fuel lit dist s hist = Some (hist', s') -> dec_codes fuel hl hd (enc s) hist = Some (enc s', hist').
Proof using Hlit Hdist.
  revert s hist. induction fuel as [|fuel IH]; intros s hist H; [done|]. cbn [Deflate.block_data] in H. cbn [dec_codes].
  ostep H sy s1 H1. destruct (Hlit _ _ _ H1) as [Hsy ->]. cbn [mbind option_bind].
  destruct (Z.ltb_spec sy 256) as [|Hhigh]; [by apply IH|]. destruct (Z.eqb_spec sy 256) as [|Hne]; [by injection H as <- <-|].
  destruct (Z.ltb_spec 285 sy) as [|Hlow]; [done|]. ostep H x s2 H2. ostep H ds s3 H3. destruct (Z.ltb_spec 29 ds) as [|Hdl]; [done|]. ostep H y s4 H4.
  destruct (length_table (sy - 257) ltac:(lia)) as (E1 & E2 & P1 & P2). destruct (Hdist _ _ _ H3 ltac:(lia)) as [Hds Ed].
  destruct (distance_table ds ltac:(lia)) as (E3 & E4 & P3 & P4). unfold dec_match. rewrite (proj2 (Z.leb_gt 29 _)) by lia.
  rewrite E1, E2, (number_ext _ _ _ _ P1 H2). cbn [mbind option_bind]. rewrite Ed. cbn [mbind option_bind].
  rewrite (proj2 (Z.leb_gt 30 _)), E3, E4, (number_ext _ _ _ _ P3 H4) by lia. cbn [mbind option_bind].
  pose proof (number_bounds _ _ _ _ H2) as [Hx _]. pose proof (number_bounds _ _ _ _ H4) as [Hy _].
  destruct (Z.ltb_spec (zlen hist) (Deflate.dist_first ds + y)); [done|].
  rewrite lz_copy_spec, Z2Nat.id by lia. by apply IH.
Qed.
End data.

(** ** Blocks *)

Lemma complement x : 0 <= x < 65536 -> Z.lxor x 65535 = 65535 - x.
Proof.
  intros Hx. enough (x + Z.lxor x 65535 = 65535) by lia. rewrite Z.add_nocarry_lxor.
  - by rewrite <- Z.lxor_assoc, Z.lxor_nilpotent, Z.lxor_0_l.
  - apply Z.bits_inj'. intros i Hi. rewrite Z.land_spec, Z.lxor_spec, Z.bits_0. destruct (Z_lt_le_dec i 16).
    + rewrite (ones_bits 16 i ltac:(lia) Hi : Z.testbit 65535 i = _), (proj2 (Z.ltb_lt _ _)) by lia. by destruct (Z.testbit x i).
    + by rewrite (small_bits x 16) by (cbn; lia).
Qed.

Lemma stored_bytes_dec n s hist hist' s' :
  Deflate.stored_bytes n s hist = Some (hist', s') -> dec_bytes n (enc s) hist = Some (enc s', hist').
Proof.
  revert s hist. induction n as [|n IH]; intros s hist H; cbn in H |- *; [by injection H as <- <-|]. ostep H v r Hv.
  rewrite (number_take 8 _ _ _ Hv : take_bits 8 _ = _). by apply IH.
Qed.

Lemma stored_dec s hist hist' s' : Deflate.stored s hist = Some (hist', s') -> dec_stored (enc s) hist = Some (enc s', hist').
Proof.
  unfold Deflate.stored, dec_stored. intros H. set (k := (length s `mod` 8)%nat) in *.
  assert (take_bits (bs_len (enc s) mod 8) (enc s) = Some (bits_z (take k s), enc (drop k s))) as ->.
  { rewrite <- take_enc, take_drop. f_equal. unfold enc, zlen. cbn [bs_len].
    pose proof (Nat.mod_upper_bound (length s) 8 ltac:(lia)). pose proof (Nat.mod_le (length s) 8 ltac:(lia)).
    rewrite length_take, Nat.min_l by (unfold k; lia). unfold k. by rewrite Nat2Z.inj_mod. }
  cbn [mbind option_bind]. ostep H len s1 H1. ostep H nlen s2 H2.
  rewrite (number_take 16 _ _ _ H1 : take_bits 16 _ = _). cbn [mbind option_bind].
  rewrite (number_take 16 _ _ _ H2 : take_bits 16 _ = _). cbn [mbind option_bind].
  pose proof (number_bounds _ _ _ _ H1) as [Hlen _]. change (2 ^ Z.of_nat 16) with 65536 in Hlen.
  destruct (Z.eqb_spec (len + nlen) 65535); [|done]. rewrite complement by done.
  rewrite (proj2 (Z.eqb_eq _ _)) by lia. by apply stored_bytes_dec.
Qed.

Lemma fixed_lit_eq : Deflate.fixed_lengths = fixed_lit_lens.
Proof. vm_compute. reflexivity. Qed.

Lemma fixed_lit_decode s i s' : Deflate.decode (Deflate.book Deflate.fixed_lengths) s = Some (i, s') ->
  0 <= i /\ canon_decode (lens_huff fixed_lit_lens) (enc s) = Some (i, enc s').
Proof.
  rewrite fixed_lit_eq. intros H. pose proof (decode_range _ _ _ _ H). split; [lia|]. apply decode_canon; [|done|vm_compute; done|done].
  apply (bool_decide_unpack _). vm_compute. done.
Qed.

(** The code has 30 of the 32 distance codes; the other two never occur. *)
Lemma fixed_dist_decode s i s' : Deflate.decode (Deflate.book Deflate.fixed_distances) s = Some (i, s') -> i < 30 ->
  0 <= i /\ canon_decode (lens_huff fixed_dist_lens) (enc s) = Some (i, enc s').
Proof.
  intros H Hi. pose proof (decode_range _ _ _ _ H). split; [lia|]. apply decode_canon; [apply (bool_decide_unpack _); vm_compute; done|done|vm_compute; done|].
  assert (Deflate.book Deflate.fixed_distances = Deflate.book fixed_dist_lens ++ [(30, Deflate.word 30 5); (31, Deflate.word 31 5)]) as E
    by (vm_compute; reflexivity). rewrite E in H. clear E. revert H. generalize (Deflate.book fixed_dist_lens). intros bk.
  induction bk as [|[j w] bk IH]; cbn [app Deflate.decode].
  - destruct (Deflate.strip _ s); [intros [= <- <-]; lia|]. destruct (Deflate.strip _ s); [intros [= <- <-]; lia|done].
  - by destruct (Deflate.strip w s).
Qed.

Lemma lens_decode lens s i s' :
  Forall is_len lens -> zlen lens <= 320 -> Deflate.fits lens = true ->
  Deflate.decode (Deflate.book lens) s = Some (i, s') -> 0 <= i /\ canon_decode (lens_huff lens) (enc s) = Some (i, enc s').
Proof. intros Hl H320 Hf H. split; [apply decode_range in H; lia|by apply decode_canon]. Qed.

Lemma bits_fuel_enc s : bits_fuel (enc s) = S (length s).
Proof. unfold bits_fuel, enc, zlen. cbn [bs_len]. by rewrite Nat2Z.id. Qed.

Lemma block_dec s hist f hist' s' :
  Deflate.block s hist = Some (f, (hist', s'), true) -> dec_block (enc s) hist = Some (f, (enc s', hist')).
Proof.
  unfold Deflate.block, dec_block. intros H. ostep H final s1 H1. ostep H type s2 H2.
  rewrite (number_take 1 _ _ _ H1 : take_bits 1 _ = _). cbn [mbind option_bind].
  rewrite (number_take 2 _ _ _ H2 : take_bits 2 _ = _). cbn [mbind option_bind].
  pose proof (number_bounds _ _ _ _ H1) as [Hf _]. change (2 ^ Z.of_nat 1) with 2 in Hf.
  assert (truthy final = (final =? 1)) as -> by (unfold truthy; destruct (Z.eqb_spec final 0), (Z.eqb_spec final 1); lia || done).
  rewrite bits_fuel_enc. destruct type as [|[[]|[]|]|]; try done.
  - apply bind_Some in H as ([h r] & H & E). injection E as <- <- <-. cbn [Z.eqb]. by rewrite (stored_dec _ _ _ _ H).
  - apply bind_Some in H as ([[[lit dist] s3] plain] & H3 & H). cbv iota beta in H.
    apply bind_Some in H as ([h r] & H & E). injection E as <- <- <- ->. cbn [Z.eqb Pos.eqb].
    destruct (dynamic_dec _ _ _ _ H3) as (-> & Hl & Hd & Hlz & Hdz & Hlf & Hdf). cbn [mbind option_bind]. rewrite bits_fuel_enc.
    rewrite (block_data_dec (Deflate.book lit) (Deflate.book dist) (lens_huff lit) (lens_huff dist)
      (fun s i s' => lens_decode lit s i s' Hl Hlz Hlf) (fun s i s' Hx _ => lens_decode dist s i s' Hd Hdz Hdf Hx) _ _ _ _ _ H). done.
  - apply bind_Some in H as ([h r] & H & E). injection E as <- <- <-. cbn [Z.eqb Pos.eqb].
    by rewrite (block_data_dec _ _ _ _ fixed_lit_decode fixed_dist_decode _ _ _ _ _ H).
Qed.

Lemma blocks_plain fuel s hist r : Deflate.blocks fuel s hist false <> Some (r, true).
Proof.
  revert s hist. induction fuel as [|fuel IH]; intros s hist H; [done|]. cbn [Deflate.blocks] in H.
  apply bind_Some in H as ([[f [h s1]] p] & _ & H). cbv iota beta in H. destruct f; [done|]. by eapply IH.
Qed.

Lemma blocks_dec fuel s hist hist' s' :
  Deflate.blocks fuel s hist true = Some (hist', s', true) -> dec_blocks fuel (enc s) hist = Some (enc s', hist').
Proof.
  revert s hist. induction fuel as [|fuel IH]; intros s hist H; [done|]. cbn [Deflate.blocks] in H. cbn [dec_blocks].
  apply bind_Some in H as ([[f [h s1]] p] & H1 & H). cbv iota beta in H. cbn [andb] in H. destruct p.
  - rewrite (block_dec _ _ _ _ _ H1). cbn [mbind option_bind]. destruct f; [by injection H as <- <-|by apply IH].
  - destruct f; [done|]. by destruct (blocks_plain _ _ _ _ H).
Qed.

Lemma inflate_dec inp hist s' :
  Forall is_byte inp -> Deflate.inflate (stream_of inp) = Some (hist, s', true) -> dec_inflate (bits_of inp) = Some (enc s', hist).
Proof.
  intros Hby H. unfold dec_inflate. rewrite <- enc_stream, bits_fuel_enc by done. by apply blocks_dec.
Qed.

(** C10: The block decoder against RFC 1951. From an empty window and any byte
    string, with any streaming sink: (1) when the RFC's decoder [Deflate.inflate]
    accepts the string and the stream is plain, [inflate_raw] returns with the
    reader on the rest of the stream, and what was given to the sink followed by
    the window is exactly the output of the RFC, unless the sink refused it; (2)
    whatever the string, [inflate_raw] ends, without an access out of bounds, with
    the result of the bit-stream decoder [dec_inflate]. A stream is plain unless
    it repeats (code 16) a length that a run of zeros (17, 18) produced, has a
    dynamic block without distance codes, or announces more than 30 of them. *)
Theorem inflate_raw_correct {C} (sink : C -> list Z -> option C) (Hs : StreamSink sink) c0 inp fx win :
  fixed_ok fx -> zlen win = INF_BUFSZ -> Forall is_byte inp -> sink c0 [] = Some c0 ->
  let got := inflate_raw sink fx (mk_inf (mk_reader inp 0 0 0) win INF_BUFSZ 0 true c0 0) in
  (forall hist rest, Deflate.inflate (stream_of inp) = Some (hist, rest, true) ->
     follows_fx sink c0 inp (Some (enc rest, hist)) got) /\
  follows_fx sink c0 inp (dec_inflate (bits_of inp)) got.
Proof.
  intros Hfx Hwin Hby Hnil got. pose proof (raw_spec sink c0 inp fx win Hfx Hwin Hby Hnil) as H. split; [|exact H].
  intros hist r E. by rewrite (inflate_dec _ _ _ Hby E) in H.
Qed.

(** A fixed-code block: "abcabcabca" as three literals and a match of length
    7 at distance 3. *)
Definition abc_block : list Z := [75; 76; 74; 78; 132; 32; 0].

Lemma inflate_raw_correct_witness :
  exists fx s, inflate_raw collect fixed_boot
      (mk_inf (mk_reader abc_block 0 0 0) (replicate (Z.to_nat INF_BUFSZ) 0) INF_BUFSZ 0 true [] 0) = Ok (fx, s) /\
    repr collect [] abc_block s (enc [false; false]) [97;98;99;97;98;99;97;98;99;97].
Proof.
  assert (Deflate.inflate (stream_of abc_block) = Some ([97;98;99;97;98;99;97;98;99;97], [false; false], true)) as Hr
    by (vm_compute; reflexivity).
  destruct (inflate_raw_correct collect collect_stream [] abc_block fixed_boot (replicate (Z.to_nat INF_BUFSZ) 0)) as [H _].
  - intros Hf. discriminate Hf.
  - rewrite zlen_replicate. apply Z2Nat.id. pose proof INF_sizes. lia.
  - apply (bool_decide_unpack _). vm_compute. reflexivity.
  - reflexivity.
  - destruct (H _ _ Hr) as [(fx & s & He & _ & Hrep)|[_ Hn]]; [|discriminate Hn]. exists fx, s. split; assumption.
Defined.

(** ** Streams that are not plain

    Two streams that stand for "aa" in RFC 1951 and that the code refuses: in
    the first the block has no distance code, in the second code 16 follows a
    run of zeros, and the code repeats the length before the run. *)

Definition no_distances : list Z := [5; 192; 129; 8; 0; 0; 0; 0; 32; 214; 253; 37; 142].
Definition repeat_zeros : list Z := [5; 192; 135; 12; 0; 0; 0; 0; 32; 214; 252; 255; 255; 91; 17].

Lemma not_plain_refused : Forall (fun inp =>
    (exists rest, Deflate.inflate (stream_of inp) = Some ([97; 97], rest, false)) /\ dec_inflate (bits_of inp) = None)
  [no_distances; repeat_zeros].
Proof. repeat constructor; try (eexists; vm_compute; reflexivity); vm_compute; reflexivity. Qed.
