(* ===== verification/Gzip.v ===== *)
(** * Gzip: the gzip container and its sinks, src/src/kernel/pkg/inflate.c

    [gzip_inflate_cb] over a user sink, [gzip_inflate] with the buffer sink.
    The module [Rfc1952] is the file format, written from RFC 1952: the header
    as a parser that consumes a list, the CRC as the remainder of a division of
    polynomials, and a file as a sequence of members. [gzip_inflate] is proved
    to decode the files of the format, and its result is given for every byte
    string. *)

From S2P Require Import Prelude BitLists Huffman Inflate Rfc1951.

(** ** gzip *)

Fixpoint crc_bits (n : nat) (crc : Z) : Z :=
  match n with
  | O => crc
  | S n' => crc_bits n' (Z.lxor (Z.shiftr crc 1) (Z.land 3988292384 (u32 (0 - Z.land crc 1))))
  end.

Definition crc32_update (crc : Z) (p : list Z) : Z :=
  u32 (Z.lnot (foldl (fun crc b => crc_bits 8 (u32 (Z.lxor crc b))) (u32 (Z.lnot crc)) p)).

Section gzip.
Context {U : Type} (user : U -> list Z -> option U).

(** [crc_sink_t]: the running CRC and the user's context. *)
Definition crc_sink (c : Z * U) (d : list Z) : option (Z * U) :=
  let crc := crc32_update (fst c) d in
  u ← user (snd c) d; Some (crc, u).

(** [while (pos + off < in_len && p[off] != 0) off++] *)
Definition skip_name (inp : list Z) (pos off : Z) : res Z :=
  loop (S (length inp)) (fun off =>
    if pos + off <? zlen inp then
      b ← ld inp (pos + off);
      if truthy b then Ok (inl (off + 1)) else Ok (inr off)
    else Ok (inr off)) off.

(** Length of the member header at [pos]. *)
Definition gzip_header (inp : list Z) (pos : Z) : res Z :=
  b0 ← ld inp pos; b1 ← ld inp (pos + 1); b2 ← ld inp (pos + 2);
  if negb (b0 =? 31) || negb (b1 =? 139) || negb (b2 =? 8) then Err (-1)
  else
    flg ← ld inp (pos + 3);
    let off := 10 in
    off ← (if truthy (Z.land flg 4) then
             if zlen inp <? pos + off + 2 then Err (-1)
             else
               x0 ← ld inp (pos + off); x1 ← ld inp (pos + off + 1);
               Ok (off + (2 + u16 (Z.lor x0 (Z.shiftl x1 8))))
           else Ok off);
    off ← (if truthy (Z.land flg 8) then off ← skip_name inp pos off; Ok (off + 1) else Ok off);
    off ← (if truthy (Z.land flg 16) then off ← skip_name inp pos off; Ok (off + 1) else Ok off);
    let off := if truthy (Z.land flg 2) then off + 2 else off in
    if zlen inp <? pos + off then Err (-1) else Ok off.

(** [while (pos < in_len && in[pos] == 0) pos++] *)
Definition skip_zeros (inp : list Z) (pos : Z) : res Z :=
  loop (S (length inp)) (fun pos =>
    if pos <? zlen inp then
      b ← ld inp pos;
      if b =? 0 then Ok (inl (pos + 1)) else Ok (inr pos)
    else Ok (inr pos)) pos.

Record gz_state : Type := mk_gz {
  gz_fx : fixed_tables;
  gz_win : list Z;       (* inf_window *)
  gz_u : U;
  gz_pos : Z;
  gz_total : Z;
}.

(** One member of the stream. *)
Definition gzip_member (inp : list Z) (g : gz_state) : res (gz_state + gz_state) :=
  let pos := gz_pos g in
  if zlen inp - pos <? 18 then Ok (inr g)
  else
    off ← gzip_header inp pos;
    let data := drop (Z.to_nat (pos + off)) inp in
    r ← inflate_raw crc_sink (gz_fx g)
          (mk_inf (mk_reader data 0 0 0) (gz_win g) INF_BUFSZ 0 true (0, gz_u g) 0);
    let '(fx, s) := (r : fixed_tables * inf_state (Z * U)) in
    let consumed_bits := in_pos (rd s) * 8 - bitcnt (rd s) in
    let trailer_pos := (consumed_bits + 7) / 8 in
    if zlen data <? trailer_pos + 8 then Err (-1)
    else
      want_crc ← ld32 data trailer_pos;
      c ← (if 0 <? out_len s then
             d ← slice0 (out s) (out_len s);
             match crc_sink (sink_ctx s) d with None => Err (-1) | Some c => Ok c end
           else Ok (sink_ctx s));
      if negb (fst c =? want_crc) then Err (-1)
      else
        let total := gz_total g + (flushed s + out_len s) in
        pos ← skip_zeros inp (pos + (off + trailer_pos + 8));
        let g := mk_gz fx (out s) (snd c) pos total in
        if zlen inp <=? pos then Ok (inr g)
        else if zlen inp - pos <? 18 then Err (-1)
        else Ok (inl g).

(** (statics, user context, output length) *)
Definition gzip_inflate_cb (fx : fixed_tables) (win inp : list Z) (ctx : U) : res gz_state :=
  g ← loop (S (length inp)) (gzip_member inp) (mk_gz fx win ctx 0 0);
  if gz_total g =? 0 then Err (-1) else Ok g.
End gzip.

(** [for (i = 0; i < n; i++) out[len + i] = d[i]] *)
Fixpoint buf_write (o : list Z) (len : Z) (d : list Z) : list Z :=
  match d with
  | [] => o
  | x :: d' => buf_write (zset o len x) (len + 1) d'
  end.

(** [buf_sink_t]: (out, len); [cap] is the size of [out]. *)
Definition buf_sink (cap : Z) (b : list Z * Z) (d : list Z) : option (list Z * Z) :=
  let '(o, len) := b in
  if cap <? len + zlen d then None else Some (buf_write o len d, len + zlen d).

Definition gzip_inflate (fx : fixed_tables) (win inp o : list Z) : res (list Z * Z) :=
  g ← gzip_inflate_cb (buf_sink (zlen o)) fx win inp (o, 0);
  Ok (fst (gz_u g), gz_total g).

Definition gzip_payload_size (inp : list Z) : res Z :=
  if zlen inp <? 18 then Ok (-1)
  else
    b0 ← ld inp 0; b1 ← ld inp 1;
    if negb (b0 =? 31) || negb (b1 =? 139) then Ok (-1) else ld32 inp (zlen inp - 4).

(** ** The format *)

Module Rfc1952.

(** *** CRC-32 (section 8)

    The polynomial of ISO 3309, by its exponents below 32; the lists of its
    coefficients have the highest power first. *)
Definition exponents : list Z := [26; 23; 22; 16; 12; 11; 10; 8; 7; 5; 4; 2; 1; 0].
Definition crc_poly : list bool := (fun k => existsb (Z.eqb (31 - k)) exponents) <$> seqZ 0 32.

(** Long division: [n] digits of the quotient, and what is left. *)
Fixpoint remainder (n : nat) (l : list bool) : list bool :=
  match n, l with
  | S n', h :: l' => remainder n' (if h then xorl crc_poly l' else l')
  | _, _ => l
  end.

(** The message, each byte least significant bit first, is multiplied by
    [x ^ 32] after its first 32 bits have been complemented; the CRC is the
    complement of the remainder, its highest power in the lowest bit. *)
Definition crc32 (d : list Z) : Z :=
  bits_z (negb <$> remainder (8 * length d) (xorl (replicate 32 true) (stream_of d ++ replicate 32 false))).

(** *** Members (section 2.3) *)

(** XLEN and the extra field. *)
Definition extra (l : list Z) : option (list Z) :=
  match l with
  | lo :: hi :: l' => let n := lo + 256 * hi in if zlen l' <? n then None else Some (drop (Z.to_nat n) l')
  | _ => None
  end.

(** A file name or comment, up to and including its zero byte. *)
Fixpoint zstring (l : list Z) : option (list Z) :=
  match l with
  | [] => None
  | c :: l' => if c =? 0 then Some l' else zstring l'
  end.

Definition crc16 (l : list Z) : option (list Z) :=
  match l with _ :: _ :: l' => Some l' | _ => None end.

Definition field (present : bool) (f : list Z -> option (list Z)) (l : list Z) : option (list Z) :=
  if present then f l else Some l.

(** ID1 ID2 CM FLG MTIME(4) XFL OS and the optional fields: the flags and
    what follows the header. *)
Definition header (l : list Z) : option (Z * list Z) :=
  match l with
  | id1 :: id2 :: cm :: flg :: _ :: _ :: _ :: _ :: _ :: _ :: l =>
      if (id1 =? 31) && (id2 =? 139) && (cm =? 8) then
        l ← field (Z.testbit flg 2) extra l;
        l ← field (Z.testbit flg 3) zstring l;
        l ← field (Z.testbit flg 4) zstring l;
        l ← field (Z.testbit flg 1) crc16 l;
        Some (flg, l)
      else None
  | _ => None
  end.

(** CRC32 and ISIZE: (crc, isize, rest). *)
Definition trailer (l : list Z) : option (Z * Z * list Z) :=
  match l with
  | c0 :: c1 :: c2 :: c3 :: i0 :: i1 :: i2 :: i3 :: l' =>
      Some (c0 + 256 * (c1 + 256 * (c2 + 256 * c3)), i0 + 256 * (i1 + 256 * (i2 + 256 * i3)), l')
  | _ => None
  end.

(** A member: its contents, the rest of the file, and whether its compressed
    data is plain. The reserved flags are zero; the size is that of the
    contents modulo [2 ^ 32]. *)
Definition member (l : list Z) : option (list Z * list Z * bool) :=
  '(flg, data) ← header l;
  if negb (flg / 32 =? 0) then None
  else
    '(out, s, plain) ← Deflate.inflate (stream_of data);
    '(crc, isize, l') ← trailer (drop (length data - length s / 8) data);
    if (crc =? crc32 out) && (isize =? zlen out mod 2 ^ 32) then Some (out, l', plain) else None.

(** A file is a sequence of one or more members. *)
Fixpoint members (fuel : nat) (l : list Z) : option (list Z * bool) :=
  match fuel with
  | O => None
  | S fuel' =>
      '(out, l', p) ← member l;
      match l' with
      | [] => Some (out, p)
      | _ => '(out', p') ← members fuel' l'; Some (out ++ out', p && p')
      end
  end.

Definition gunzip (l : list Z) : option (list Z * bool) := members (S (length l)) l.
End Rfc1952.

(** ** What the code accepts

    The code looks neither at the reserved flags, nor at the header CRC, nor at
    the size, and skips zero bytes after a member. [dec_deflate] is the
    bit-stream decoder of its blocks, with the bytes after the stream. *)

Definition dec_deflate (data : list Z) : option (list Z * list Z) :=
  '(b, out) ← dec_inflate (bits_of data);
  Some (out, drop (Z.to_nat (zlen data - bs_len b / 8)) data).

Fixpoint strip_zeros (l : list Z) : list Z :=
  match l with
  | x :: l' => if x =? 0 then strip_zeros l' else l
  | [] => []
  end.

Definition dec_member (l : list Z) : option (list Z * list Z) :=
  '(_, data) ← Rfc1952.header l;
  '(out, t) ← dec_deflate data;
  '(crc, _, l') ← Rfc1952.trailer t;
  if crc =? Rfc1952.crc32 out then Some (out, strip_zeros l') else None.

Fixpoint dec_members (fuel : nat) (l : list Z) (hist : list Z) : option (list Z) :=
  match fuel with
  | O => None
  | S fuel' =>
      if zlen l <? 18 then Some hist
      else
        '(o, l') ← dec_member l;
        match l' with
        | [] => Some (hist ++ o)
        | _ => if zlen l' <? 18 then None else dec_members fuel' l' (hist ++ o)
        end
  end.

Definition dec_gunzip (l : list Z) : option (list Z) := dec_members (S (length l)) l [].

(** ** The CRC of the code *)

(** The register after one bit of the message. *)
Definition crc_step (r : list bool) (b : bool) : list bool :=
  match r with
  | [] => if b then Rfc1952.crc_poly else []
  | h :: t => if xorb h b then xorl Rfc1952.crc_poly t else t
  end.

Lemma crc_step_xorl r b m : Rfc1952.remainder 1 (xorl r (b :: m)) = xorl (crc_step r b) m.
Proof.
  destruct r as [|h t]; cbn [xorl Rfc1952.remainder crc_step]; [by destruct b|]. destruct (xorb h b); [by rewrite xorl_assoc|done].
Qed.

Lemma remainder_S n l : Rfc1952.remainder (S n) l = Rfc1952.remainder n (Rfc1952.remainder 1 l).
Proof. destruct l; [by destruct n|done]. Qed.

(** Long division is the register fed with the message bit by bit. *)
Lemma remainder_spec r bs m : Rfc1952.remainder (length bs) (xorl r (bs ++ m)) = xorl (foldl crc_step r bs) m.
Proof.
  revert r. induction bs as [|b bs IH]; intros r; [done|]. cbn [length app foldl]. by rewrite remainder_S, crc_step_xorl, IH.
Qed.

(** Adding all bits first and then shifting is the same. *)
Lemma shifts_spec r bs : Nat.iter (length bs) (fun r => crc_step r false) (xorl r bs) = foldl crc_step r bs.
Proof.
  revert r. induction bs as [|b bs IH]; intros r; [by destruct r|]. cbn [length foldl]. rewrite Nat.iter_succ_r, <- IH. f_equal.
  destruct r as [|h t]; cbn [xorl crc_step].
  - rewrite xorb_false_r. by destruct b.
  - rewrite xorb_false_r. destruct (xorb h b); [by rewrite xorl_assoc|done].
Qed.

Lemma crc_shift_spec r : Z.lxor (Z.shiftr (bits_z r) 1) (Z.land 3988292384 (u32 (0 - Z.land (bits_z r) 1))) = bits_z (crc_step r false).
Proof.
  destruct r as [|h t]; [done|]. cbn [crc_step bits_z]. rewrite xorb_false_r.
  assert (Z.shiftr (Z.b2z h + 2 * bits_z t) 1 = bits_z t) as ->.
  { rewrite Z.shiftr_div_pow2 by lia. change (2 ^ 1) with 2. destruct h; cbn [Z.b2z]; mlia. }
  assert (Z.land (Z.b2z h + 2 * bits_z t) 1 = Z.b2z h) as ->.
  { change 1 with (Z.ones 1). rewrite Z.land_ones by lia. change (2 ^ 1) with 2. destruct h; cbn [Z.b2z]; mlia. }
  destruct h; cbn [Z.b2z].
  - rewrite xorl_bits, Z.lxor_comm. f_equal.
  - cbn. apply Z.lxor_0_r.
Qed.

Lemma crc_bits_spec n r : crc_bits n (bits_z r) = bits_z (Nat.iter n (fun r => crc_step r false) r).
Proof. revert r. induction n as [|n IH]; intros r; [done|]. cbn [crc_bits]. by rewrite crc_shift_spec, IH, Nat.iter_succ_r. Qed.

Lemma crc_step_length r b : (length r <= 32)%nat -> (length (crc_step r b) <= 32)%nat.
Proof.
  assert (length Rfc1952.crc_poly = 32%nat) as Hp by reflexivity.
  intros Hr. destruct r as [|h t]; cbn [crc_step]; [destruct b; [lia|cbn; lia]|]. cbn in Hr.
  destruct (xorb h b); [rewrite length_xorl; lia|lia].
Qed.

Lemma crc_fold_length bs r : (length r <= 32)%nat -> (length (foldl crc_step r bs) <= 32)%nat.
Proof. revert r. induction bs as [|b bs IH]; intros r Hr; [done|]. cbn [foldl]. by apply IH, crc_step_length. Qed.

Lemma crc_bytes_spec d r : Forall is_byte d -> (length r <= 32)%nat ->
  foldl (fun crc b => crc_bits 8 (u32 (Z.lxor crc b))) (bits_z r) d = bits_z (foldl crc_step r (stream_of d)).
Proof.
  intros Hd. revert r. induction Hd as [|x d Hx _ IH]; intros r Hr; [done|].
  change (stream_of (x :: d)) with (byte_bits x ++ stream_of d). rewrite foldl_app. cbn [foldl].
  assert (Z.lxor (bits_z r) x = bits_z (xorl r (byte_bits x))) as -> by by rewrite xorl_bits, bits_z_byte.
  pose proof (bits_z_range (xorl r (byte_bits x))) as Hb. rewrite length_xorl, length_byte_bits in Hb.
  assert (2 ^ Z.of_nat (length r `max` 8) <= 2 ^ 32) as Hp by (apply Z.pow_le_mono_r; lia). change (2 ^ 32) with 4294967296 in Hp.
  rewrite u32_small by lia. rewrite crc_bits_spec, (shifts_spec r (byte_bits x) : Nat.iter 8 _ _ = _). by apply IH, crc_fold_length.
Qed.

Lemma bits_z_negb l : bits_z (negb <$> l) = 2 ^ Z.of_nat (length l) - 1 - bits_z l.
Proof.
  induction l as [|b l IH]; [done|]. rewrite fmap_cons. cbn [bits_z length]. rewrite Nat2Z.inj_succ, Z.pow_succ_r, IH by lia.
  destruct b; cbn [negb Z.b2z]; lia.
Qed.

(** The code's CRC is the remainder of the division. *)
Lemma crc32_spec d : Forall is_byte d -> crc32_update 0 d = Rfc1952.crc32 d.
Proof.
  intros Hd. unfold crc32_update, Rfc1952.crc32.
  rewrite <- length_stream, remainder_spec, bits_z_negb, length_xorl, length_replicate.
  change (u32 (Z.lnot 0)) with (bits_z (replicate 32 true)). rewrite crc_bytes_spec by done.
  pose proof (crc_fold_length (stream_of d) (replicate 32 true) ltac:(done)) as Hl. set (r := foldl _ _ _) in *.
  rewrite Nat.max_r by lia. rewrite xorl_bits. change (bits_z (replicate 32 false)) with 0. rewrite Z.lxor_0_r.
  pose proof (bits_z_range r) as Hr. assert (2 ^ Z.of_nat (length r) <= 2 ^ 32) as Hp by (apply Z.pow_le_mono_r; lia).
  change (2 ^ Z.of_nat 32) with 4294967296. change (2 ^ 32) with 4294967296 in Hp. unfold u32, Z.lnot. mlia.
Qed.

(** ** gzip members *)

Lemma crc_bits_range n c : 0 <= c < 4294967296 -> 0 <= crc_bits n c < 4294967296.
Proof.
  intros Hc. rewrite <- (bits_z_testbit 32 c) by (cbn; lia). rewrite crc_bits_spec.
  set (r := Nat.iter n _ _). assert (length r <= 32)%nat as Hl.
  { unfold r. induction n as [|n IH]; [done|]. cbn [Nat.iter nat_rect]. by apply crc_step_length. }
  pose proof (bits_z_range r) as Hr. assert (2 ^ Z.of_nat (length r) <= 2 ^ 32) as Hp by (apply Z.pow_le_mono_r; lia).
  change (2 ^ 32) with 4294967296 in Hp. lia.
Qed.

Lemma u32_lnot_lnot x : u32 (Z.lnot (u32 (Z.lnot x))) = u32 x.
Proof. unfold u32, Z.lnot. mlia. Qed.

(** The CRC can be computed piecewise. *)
Lemma crc32_update_app c d d' : crc32_update c (d ++ d') = crc32_update (crc32_update c d) d'.
Proof.
  unfold crc32_update. rewrite foldl_app, u32_lnot_lnot. do 3 f_equal. symmetry. apply u32_small.
  assert (0 <= u32 (Z.lnot c) < 4294967296) as Hi by (unfold u32; apply Z.mod_pos_bound; lia).
  revert Hi. generalize (u32 (Z.lnot c)). induction d as [|x d IH]; intros z Hz; [done|].
  cbn [foldl]. apply IH, crc_bits_range. unfold u32. apply Z.mod_pos_bound. lia.
Qed.

#[global] Instance crc_sink_stream {U} (user : U -> list Z -> option U) :
  StreamSink user -> StreamSink (crc_sink user).
Proof.
  intros Hu. constructor. intros [crc u] d d'. unfold crc_sink. cbn [fst snd].
  rewrite sink_app, crc32_update_app. by destruct (user u d) as [u'|].
Qed.

Lemma buf_write_app o len d d' : buf_write o len (d ++ d') = buf_write (buf_write o len d) (len + zlen d) d'.
Proof.
  revert o len. induction d as [|x d IH]; intros o len.
  - unfold zlen. simpl. by rewrite Z.add_0_r.
  - cbn [app buf_write]. rewrite IH. f_equal. unfold zlen. simpl. lia.
Qed.

#[global] Instance buf_sink_stream cap : StreamSink (buf_sink cap).
Proof.
  constructor. intros [o len] d d'. unfold buf_sink. rewrite buf_write_app.
  assert (zlen (d ++ d') = zlen d + zlen d') as -> by (unfold zlen; rewrite length_app; lia).
  pose proof (zlen_nonneg d'). destruct (Z.ltb_spec cap (len + zlen d)); simpl.
  - destruct (Z.ltb_spec cap (len + (zlen d + zlen d'))); [done|lia].
  - rewrite Z.add_assoc. done.
Qed.

Lemma buf_write_spec o len d :
  0 <= len -> len + zlen d <= zlen o ->
  buf_write o len d = take (Z.to_nat len) o ++ d ++ drop (Z.to_nat (len + zlen d)) o.
Proof.
  revert o len. induction d as [|x d IH]; intros o len Hl Hd; cbn [buf_write].
  - unfold zlen. simpl. by rewrite Z.add_0_r, take_drop.
  - pose proof (zlen_nonneg d). assert (zlen (x :: d) = zlen d + 1) as E by (unfold zlen; simpl; lia).
    rewrite E in *. rewrite IH by (rewrite ?zlen_zset; lia).
    rewrite (take_zget _ len x) by (rewrite ?zget_zset_eq; try done; lia).
    rewrite <- app_assoc. cbn [app]. f_equal.
    + apply take_eq_zget; rewrite ?zlen_zset; try lia. intros i Hi. by rewrite zget_zset_ne by lia.
    + f_equal. f_equal. replace (len + (zlen d + 1)) with (len + 1 + zlen d) by lia.
      apply zget_ext; [unfold zlen, zset in *; rewrite !length_drop; by destruct (0 <=? len); rewrite ?length_insert|].
      intros i Hi. rewrite !zget_drop by lia. by rewrite zget_zset_ne by lia.
Qed.

(** *** Header, padding and one member *)

(** [l] is what is left of the input at [p]; [None] stands for a position
    beyond the end. *)
Definition left_at (inp : list Z) (p : Z) (l : option (list Z)) : Prop :=
  match l with
  | Some l => 0 <= p <= zlen inp /\ l = drop (Z.to_nat p) inp
  | None => zlen inp < p
  end.

Lemma drop_cons (l : list Z) p x r : 0 <= p -> drop (Z.to_nat p) l = x :: r -> zget l p = Some x /\ r = drop (Z.to_nat (p + 1)) l /\ p < zlen l.
Proof.
  intros Hp E. assert (l !! Z.to_nat p = Some x) as Hx by (rewrite <- (Nat.add_0_r (Z.to_nat p)), <- lookup_drop, E; done).
  pose proof (lookup_lt_Some _ _ _ Hx). unfold zget. rewrite (proj2 (Z.leb_le _ _)) by done. split; [done|]. split; [|unfold zlen; lia].
  rewrite (drop_S _ _ _ Hx) in E. replace (Z.to_nat (p + 1)) with (S (Z.to_nat p)) by lia. congruence.
Qed.

Lemma zlen_cons (x : Z) l : zlen (x :: l) = 1 + zlen l.
Proof. unfold zlen. cbn [length]. lia. Qed.

Lemma zlen_drop (l : list Z) p : 0 <= p <= zlen l -> zlen (drop (Z.to_nat p) l) = zlen l - p.
Proof. intros Hp. unfold zlen in *. rewrite length_drop. lia. Qed.

Lemma skip_name_spec inp pos off l :
  0 <= pos + off -> left_at inp (pos + off) l ->
  exists off', skip_name inp pos off = Ok off' /\ off <= off' /\ left_at inp (pos + (off' + 1)) (l ≫= Rfc1952.zstring).
Proof.
  intros H0 Hl. unfold skip_name.
  cut (forall fuel off l, 0 <= pos + off -> left_at inp (pos + off) l -> zlen inp - (pos + off) < Z.of_nat fuel -> (0 < fuel)%nat ->
    exists off', loop fuel (fun off => if pos + off <? zlen inp then
        b ← ld inp (pos + off); if truthy b then Ok (inl (off + 1)) else Ok (inr off) else Ok (inr off)) off = Ok off' /\
      off <= off' /\ left_at inp (pos + (off' + 1)) (l ≫= Rfc1952.zstring)).
  { intros H. apply H; [done|done|unfold zlen; lia|lia]. }
  clear off l H0 Hl. induction fuel as [|fuel IH]; intros off l H0 Hl Hf Hf'; [lia|]. cbn [loop].
  destruct (Z.ltb_spec (pos + off) (zlen inp)) as [Hlt|Hge].
  - destruct l as [l|]; cbn [left_at] in Hl; [|lia]. destruct Hl as [_ ->]. destruct (drop (Z.to_nat (pos + off)) inp) as [|x r] eqn:E.
    { pose proof (zlen_drop inp (pos + off) ltac:(lia)) as Hz. rewrite E in Hz. change (zlen (@nil Z)) with 0 in Hz. lia. }
    destruct (drop_cons _ _ _ _ H0 E) as (Hx & Hr & _). rewrite (ld_ok _ _ _ Hx), Ok_bind. cbn [mbind option_bind Rfc1952.zstring].
    change (truthy x) with (negb (x =? 0)). destruct (x =? 0); cbn [negb]; rewrite Ok_bind.
    + exists off. split; [done|]. split; [lia|]. cbn [left_at]. split; [lia|]. rewrite Hr. f_equal. lia.
    + destruct (IH (off + 1) (Some r)) as (off' & -> & Ho & Hl'); [lia| |lia|lia|exists off'; split; [done|]; split; [lia|done]].
      cbn [left_at]. split; [lia|]. rewrite Hr. f_equal. lia.
  - rewrite Ok_bind. exists off. split; [done|]. split; [lia|]. destruct l as [l|]; cbn [left_at] in Hl.
    + destruct Hl as [Hp ->]. rewrite drop_ge by (unfold zlen in *; lia). cbn. lia.
    + cbn. lia.
Qed.

Lemma u16_bytes x y : is_byte x -> is_byte y -> u16 (Z.lor x (Z.shiftl y 8)) = x + 256 * y.
Proof. unfold is_byte. intros Hx Hy. rewrite lor_shift_add by (cbn; lia). change (2 ^ 8) with 256. unfold u16. apply Z.mod_small. lia. Qed.

(** The optional fields, one after the other. *)
Lemma name_field_spec inp pos off l (c : bool) :
  0 <= pos + off -> left_at inp (pos + off) l ->
  exists off', (if c then off ← skip_name inp pos off; Ok (off + 1) else Ok off) = Ok off' /\ off <= off' /\
    left_at inp (pos + off') (l ≫= Rfc1952.field c Rfc1952.zstring).
Proof.
  intros H0 Hl. destruct c; cbn [Rfc1952.field].
  - destruct (skip_name_spec inp pos off l H0 Hl) as (off' & -> & Ho & Hl'). rewrite Ok_bind. exists (off' + 1).
    split; [done|]. split; [lia|done].
  - exists off. split; [done|]. split; [lia|]. by destruct l.
Qed.

Lemma crc16_field_spec inp pos off l (c : bool) :
  0 <= pos + off -> left_at inp (pos + off) l ->
  left_at inp (pos + (if c then off + 2 else off)) (l ≫= Rfc1952.field c Rfc1952.crc16).
Proof.
  intros H0 Hl. destruct c; cbn [Rfc1952.field]; [|by destruct l]. destruct l as [l|]; cbn [left_at mbind option_bind] in *; [|lia].
  destruct Hl as [Hp ->]. pose proof (zlen_drop inp (pos + off) Hp) as Hz.
  destruct (drop (Z.to_nat (pos + off)) inp) as [|x [|y r]] eqn:E; cbn [Rfc1952.field Rfc1952.crc16 left_at].
  - change (zlen (@nil Z)) with 0 in Hz. lia.
  - change (zlen [x]) with 1 in Hz. lia.
  - rewrite !zlen_cons in Hz. pose proof (zlen_nonneg r). split; [lia|].
    destruct (drop_cons _ _ _ _ H0 E) as (_ & E' & _). symmetry in E'. apply drop_cons in E' as (_ & -> & _); [|lia]. f_equal. lia.
Qed.

Lemma extra_field_spec inp pos (c : bool) :
  Forall is_byte inp -> 0 <= pos -> 18 <= zlen inp - pos ->
  exists off, (if c then
      if zlen inp <? pos + 10 + 2 then Err (-1)
      else x0 ← ld inp (pos + 10); x1 ← ld inp (pos + 10 + 1); Ok (10 + (2 + u16 (Z.lor x0 (Z.shiftl x1 8))))
    else Ok 10) = Ok off /\ 10 <= off /\ left_at inp (pos + off) (Rfc1952.field c Rfc1952.extra (drop (Z.to_nat (pos + 10)) inp)).
Proof.
  intros Hby Hp Hl. destruct c; cbn [Rfc1952.field].
  2:{ exists 10. split; [done|]. split; [lia|]. split; [lia|done]. }
  rewrite (proj2 (Z.ltb_ge _ _)) by lia. pose proof (zlen_drop inp (pos + 10) ltac:(lia)) as Hz.
  destruct (drop (Z.to_nat (pos + 10)) inp) as [|x0 [|x1 r]] eqn:E.
  { change (zlen (@nil Z)) with 0 in Hz. lia. }
  { change (zlen [x0]) with 1 in Hz. lia. }
  destruct (drop_cons inp (pos + 10) _ _ ltac:(lia) E) as (H0 & E' & _). symmetry in E'.
  destruct (drop_cons inp (pos + 10 + 1) _ _ ltac:(lia) E') as (H1 & -> & _).
  rewrite (ld_ok _ _ _ H0), (ld_ok _ _ _ H1), !Ok_bind.
  pose proof (Forall_zget _ _ _ _ Hby H0) as B0. pose proof (Forall_zget _ _ _ _ Hby H1) as B1.
  rewrite u16_bytes by done. eexists. split; [reflexivity|]. unfold is_byte in *. split; [lia|].
  cbn [Rfc1952.extra]. rewrite zlen_drop by lia. rewrite drop_drop.
  destruct (Z.ltb_spec (zlen inp - (pos + 10 + 1 + 1)) (x0 + 256 * x1)); cbn [left_at]; [lia|]. split; [lia|]. f_equal. lia.
Qed.

Lemma drop_ten (inp : list Z) pos : 0 <= pos -> 10 <= zlen inp - pos ->
  exists b0 b1 b2 flg x4 x5 x6 x7 x8 x9, drop (Z.to_nat pos) inp =
    b0 :: b1 :: b2 :: flg :: x4 :: x5 :: x6 :: x7 :: x8 :: x9 :: drop (Z.to_nat (pos + 10)) inp /\
    zget inp pos = Some b0 /\ zget inp (pos + 1) = Some b1 /\ zget inp (pos + 2) = Some b2 /\ zget inp (pos + 3) = Some flg.
Proof.
  intros Hp Hl. assert (forall k, 0 <= k < 10 -> exists x, drop (Z.to_nat (pos + k)) inp = x :: drop (Z.to_nat (pos + (k + 1))) inp /\
    zget inp (pos + k) = Some x) as H.
  { intros k Hk. destruct (zget_in_range inp (pos + k) ltac:(lia)) as [x Hx]. exists x. split; [|done].
    unfold zget in Hx. rewrite (proj2 (Z.leb_le 0 _)) in Hx by lia. rewrite (drop_S _ _ _ Hx). do 2 f_equal. lia. }
  destruct (H 0 ltac:(lia)) as (b0 & E0 & H0). destruct (H 1 ltac:(lia)) as (b1 & E1 & H1). destruct (H 2 ltac:(lia)) as (b2 & E2 & H2).
  destruct (H 3 ltac:(lia)) as (b3 & E3 & H3). destruct (H 4 ltac:(lia)) as (b4 & E4 & _). destruct (H 5 ltac:(lia)) as (b5 & E5 & _).
  destruct (H 6 ltac:(lia)) as (b6 & E6 & _). destruct (H 7 ltac:(lia)) as (b7 & E7 & _). destruct (H 8 ltac:(lia)) as (b8 & E8 & _).
  destruct (H 9 ltac:(lia)) as (b9 & E9 & _). rewrite Z.add_0_r in *.
  exists b0, b1, b2, b3, b4, b5, b6, b7, b8, b9. split_and!; try done.
  rewrite E0, (E1 : drop (Z.to_nat (pos + (0 + 1))) inp = _), (E2 : drop (Z.to_nat (pos + (1 + 1))) inp = _),
    (E3 : drop (Z.to_nat (pos + (2 + 1))) inp = _), (E4 : drop (Z.to_nat (pos + (3 + 1))) inp = _),
    (E5 : drop (Z.to_nat (pos + (4 + 1))) inp = _), (E6 : drop (Z.to_nat (pos + (5 + 1))) inp = _),
    (E7 : drop (Z.to_nat (pos + (6 + 1))) inp = _), (E8 : drop (Z.to_nat (pos + (7 + 1))) inp = _),
    (E9 : drop (Z.to_nat (pos + (8 + 1))) inp = _). done.
Qed.

(** [gzip_header] is the header of the format. *)
Lemma header_spec inp pos :
  Forall is_byte inp -> 0 <= pos -> 18 <= zlen inp - pos ->
  match Rfc1952.header (drop (Z.to_nat pos) inp) with
  | Some (_, l) => exists off, gzip_header inp pos = Ok off /\ 10 <= off /\ pos + off <= zlen inp /\ l = drop (Z.to_nat (pos + off)) inp
  | None => gzip_header inp pos = Err (-1)
  end.
Proof.
  intros Hby Hp Hl. unfold gzip_header.
  destruct (drop_ten inp pos ltac:(lia) ltac:(lia)) as (b0 & b1 & b2 & flg & x4 & x5 & x6 & x7 & x8 & x9 & E & H0 & H1 & H2 & H3).
  rewrite E. cbn [Rfc1952.header]. rewrite (ld_ok _ _ _ H0), (ld_ok _ _ _ H1), (ld_ok _ _ _ H2), (ld_ok _ _ _ H3), !Ok_bind.
  rewrite <- !negb_andb. destruct ((b0 =? 31) && (b1 =? 139) && (b2 =? 8)); cbn [negb]; [|done].
  rewrite (truthy_land_pow2 flg 2 ltac:(lia) : truthy (Z.land flg 4) = _), (truthy_land_pow2 flg 3 ltac:(lia) : truthy (Z.land flg 8) = _),
    (truthy_land_pow2 flg 4 ltac:(lia) : truthy (Z.land flg 16) = _), (truthy_land_pow2 flg 1 ltac:(lia) : truthy (Z.land flg 2) = _).
  destruct (extra_field_spec inp pos (Z.testbit flg 2) Hby Hp Hl) as (o1 & -> & Ho1 & L1). rewrite Ok_bind. revert L1.
  generalize (Rfc1952.field (Z.testbit flg 2) Rfc1952.extra (drop (Z.to_nat (pos + 10)) inp)). intros l1 L1.
  destruct (name_field_spec inp pos o1 l1 (Z.testbit flg 3) ltac:(lia) L1) as (o2 & -> & Ho2 & L2). rewrite Ok_bind.
  destruct (name_field_spec inp pos o2 _ (Z.testbit flg 4) ltac:(lia) L2) as (o3 & -> & Ho3 & L3). rewrite Ok_bind.
  pose proof (crc16_field_spec inp pos o3 _ (Z.testbit flg 1) ltac:(lia) L3) as L4. cbv zeta.
  assert (10 <= (if Z.testbit flg 1 then o3 + 2 else o3)) as Ho4 by (destruct (Z.testbit flg 1); lia).
  revert L4 Ho4. generalize (if Z.testbit flg 1 then o3 + 2 else o3). intros o4 L4 Ho4.
  replace (l1 ≫= _) with ((((l1 ≫= Rfc1952.field (Z.testbit flg 3) Rfc1952.zstring) ≫= Rfc1952.field (Z.testbit flg 4) Rfc1952.zstring)
    ≫= Rfc1952.field (Z.testbit flg 1) Rfc1952.crc16) ≫= (fun l => Some (flg, l))).
  2:{ destruct l1 as [l1|]; [|done]. cbn [mbind option_bind]. destruct (Rfc1952.field _ _ l1) as [l2|]; [|done]. cbn [mbind option_bind].
      by destruct (Rfc1952.field _ _ l2). }
  destruct (_ ≫= Rfc1952.field (Z.testbit flg 1) Rfc1952.crc16) as [l|]; cbn [left_at mbind option_bind] in *.
  - destruct L4 as [Hb ->]. exists o4. rewrite (proj2 (Z.ltb_ge _ _)) by lia. split; [done|]. split; [lia|]. split; [lia|done].
  - by rewrite (proj2 (Z.ltb_lt _ _)) by lia.
Qed.

Lemma strip_zeros_spec inp pos : 0 <= pos <= zlen inp ->
  exists pos', skip_zeros inp pos = Ok pos' /\ pos <= pos' <= zlen inp /\ strip_zeros (drop (Z.to_nat pos) inp) = drop (Z.to_nat pos') inp.
Proof.
  intros Hp. unfold skip_zeros.
  cut (forall fuel pos, 0 <= pos <= zlen inp -> zlen inp - pos < Z.of_nat fuel ->
    exists pos', loop fuel (fun pos => if pos <? zlen inp then b ← ld inp pos; if b =? 0 then Ok (inl (pos + 1)) else Ok (inr pos)
      else Ok (inr pos)) pos = Ok pos' /\ pos <= pos' <= zlen inp /\ strip_zeros (drop (Z.to_nat pos) inp) = drop (Z.to_nat pos') inp).
  { intros H. apply H; [done|]. unfold zlen. lia. }
  clear pos Hp. induction fuel as [|fuel IH]; intros pos Hp Hf; [lia|]. cbn [loop].
  destruct (Z.ltb_spec pos (zlen inp)) as [Hlt|].
  - destruct (zget_in_range inp pos ltac:(lia)) as [b Hb]. rewrite (ld_ok _ _ _ Hb), Ok_bind.
    assert (drop (Z.to_nat pos) inp = b :: drop (Z.to_nat (pos + 1)) inp) as E.
    { unfold zget in Hb. destruct (Z.leb_spec 0 pos); [|lia].
      replace (Z.to_nat (pos + 1)) with (S (Z.to_nat pos)) by lia. by apply drop_S. }
    rewrite E. cbn [strip_zeros]. destruct (b =? 0); rewrite Ok_bind.
    + destruct (IH (pos + 1) ltac:(lia) ltac:(lia)) as (pos' & -> & Hr & ->). exists pos'. split; [done|]. split; [lia|done].
    + exists pos. split; [done|]. split; [lia|done].
  - rewrite Ok_bind. exists pos. split; [done|]. split; [lia|]. rewrite drop_ge by (unfold zlen in *; lia). done.
Qed.

(** *** The output is a byte string *)

Lemma canon_nonneg h b i b' : Forall (fun s => 0 <= s) (sym h) -> canon_decode h b = Some (i, b') -> 0 <= i.
Proof.
  intros Hs. unfold canon_decode. cut (forall n b len code f x, canon_go n h len code f x b = Some (i, b') -> 0 <= i); [eauto|].
  clear b. induction n as [|n IH]; intros b len code f x; [done|].
  cbn [canon_go]. intros H. ostep H bit bb1 Hb. destruct (_ <? _).
  - injection H as <- _. unfold symat. destruct (zget (sym h) _) eqn:E; [by eapply (Forall_zget _ _ _ _ Hs)|done].
  - by eapply IH.
Qed.

Lemma lens_sym_nonneg l : Forall (fun s => 0 <= s) (sym (lens_huff l)).
Proof.
  unfold lens_huff. cbn [sym]. apply Forall_app_2; [|by apply Forall_replicate].
  eapply Forall_impl; [|apply lens_syms_range]. cbn. lia.
Qed.

Lemma lz_copy_bytes n d hist : Forall is_byte hist -> Forall is_byte (lz_copy n d hist).
Proof.
  revert hist. induction n as [|n IH]; intros hist Hh; [done|]. cbn [lz_copy]. apply IH, Forall_app_2; [done|]. apply Forall_singleton.
  destruct (zget hist _) eqn:E; [by eapply (Forall_zget _ _ _ _ Hh)|done].
Qed.

Lemma dec_codes_bytes fuel lit dist b hist b' hist' :
  Forall (fun s => 0 <= s) (sym lit) -> Forall is_byte hist -> dec_codes fuel lit dist b hist = Some (b', hist') -> Forall is_byte hist'.
Proof.
  intros Hs. revert b hist. induction fuel as [|fuel IH]; intros b hist Hh; [done|]. cbn [dec_codes]. intros H.
  ostep H sy bb2 Hsy. apply canon_nonneg in Hsy; [|done]. destruct (Z.ltb_spec sy 256).
  { eapply IH; [|exact H]. apply Forall_app_2; [done|]. apply Forall_singleton. unfold is_byte. lia. }
  destruct (sy =? 256); [by injection H as _ <-|]. apply bind_Some in H as ([[n d] b2] & _ & H). cbv beta iota in H. destruct (_ <? _); [done|].
  eapply IH; [|exact H]. by apply lz_copy_bytes.
Qed.

Lemma dec_bytes_bytes n b hist b' hist' : Forall is_byte hist -> dec_bytes n b hist = Some (b', hist') -> Forall is_byte hist'.
Proof.
  revert b hist. induction n as [|n IH]; intros b hist Hh; cbn [dec_bytes]; [by intros [= _ <-]|]. intros H. ostep H v bb3 Hv.
  apply take_bits_bounds in Hv as [Hv _]; [|lia]. eapply IH; [|exact H]. apply Forall_app_2; [done|]. by apply Forall_singleton.
Qed.

Lemma dec_blocks_bytes fuel b hist b' hist' : Forall is_byte hist -> dec_blocks fuel b hist = Some (b', hist') -> Forall is_byte hist'.
Proof.
  revert b hist. induction fuel as [|fuel IH]; intros b hist Hh; [done|]. cbn [dec_blocks]. intros H.
  apply bind_Some in H as ([last [b1 h1]] & Hb & H). cbv beta iota in H.
  assert (Forall is_byte h1) as H1; [|destruct last; [by injection H as _ <-|by eapply IH]].
  unfold dec_block in Hb. ostep Hb l bb4 Hl. ostep Hb t bb5 Ht. apply bind_Some in Hb as ([b2 h2] & Hb & E). injection E as _ <- <-.
  destruct (t =? 0).
  { unfold dec_stored in Hb. ostep Hb x0 bb6 Hx0. ostep Hb x1 bb7 Hx1. ostep Hb x2 bb8 Hx2. destruct (negb _); [done|]. by eapply dec_bytes_bytes. }
  destruct (t =? 1); [eapply dec_codes_bytes; [apply lens_sym_nonneg|exact Hh|exact Hb]|]. destruct (t =? 2); [|done].
  apply bind_Some in Hb as ([[lit dist] b3] & Hd & Hb). cbv beta iota in Hb. eapply dec_codes_bytes; [|exact Hh|exact Hb].
  unfold dec_dynamic in Hd. ostep Hd y0 bb9 Hy0. ostep Hd y1 bb10 Hy1. ostep Hd y2 bb11 Hy2. destruct (_ || _); [done|]. ostep Hd cl bb12 Hcl.
  apply bind_Some in Hd as (clc & _ & Hd). ostep Hd lens bb13 Hlens. destruct (_ =? 0); [done|]. apply bind_Some in Hd as (lt & Hlt & Hd).
  apply bind_Some in Hd as (ds & _ & Hd). injection Hd as <- _ _. unfold dec_code in Hlt. destruct (codes_okb _); [|done].
  injection Hlt as <-. apply lens_sym_nonneg.
Qed.

(** What is left of the stream is not negative. *)
Lemma take_bits_nonneg n b v b' : take_bits n b = Some (v, b') -> 0 <= bs_len b'.
Proof. unfold take_bits. destruct (Z.ltb_spec (bs_len b) n); [done|]. intros [= _ <-]. cbn. lia. Qed.

Lemma canon_left h b i b' : canon_decode h b = Some (i, b') -> 0 <= bs_len b'.
Proof.
  unfold canon_decode. cut (forall n b len code f x, canon_go n h len code f x b = Some (i, b') -> 0 <= bs_len b'); [eauto|].
  clear b. induction n as [|n IH]; intros b len code f x; [done|]. cbn [canon_go]. intros H. ostep H bit bb14 Hb. destruct (_ <? _).
  - injection H as _ <-. by eapply take_bits_nonneg.
  - by eapply IH.
Qed.

Lemma dec_codes_left fuel lit dist b hist b' hist' : dec_codes fuel lit dist b hist = Some (b', hist') -> 0 <= bs_len b'.
Proof.
  revert b hist. induction fuel as [|fuel IH]; intros b hist; [done|]. cbn [dec_codes]. intros H. ostep H sy bb15 Hsy.
  destruct (sy <? 256); [by eapply IH|]. destruct (sy =? 256); [injection H as <- _; by eapply canon_left|].
  apply bind_Some in H as ([[n d] b2] & _ & H). cbv beta iota in H. destruct (_ <? _); [done|]. by eapply IH.
Qed.

Lemma dec_bytes_left n b hist b' hist' : 0 <= bs_len b -> dec_bytes n b hist = Some (b', hist') -> 0 <= bs_len b'.
Proof.
  revert b hist. induction n as [|n IH]; intros b hist Hb; cbn [dec_bytes]; [by intros [= <- _]|]. intros H. ostep H v bb16 Hv.
  eapply IH; [|exact H]. by eapply take_bits_nonneg.
Qed.

Lemma dec_blocks_left fuel b hist b' hist' : dec_blocks fuel b hist = Some (b', hist') -> 0 <= bs_len b'.
Proof.
  revert b hist. induction fuel as [|fuel IH]; intros b hist; [done|]. cbn [dec_blocks]. intros H.
  apply bind_Some in H as ([last [b1 h1]] & Hb & H). cbv beta iota in H. destruct last; [|by eapply IH]. injection H as <- _.
  unfold dec_block in Hb. ostep Hb l bb17 Hl. ostep Hb t bb18 Ht. apply bind_Some in Hb as ([b2 h2] & Hb & E). injection E as _ <- _.
  destruct (t =? 0).
  { unfold dec_stored in Hb. ostep Hb x0 bb19 Hx0. ostep Hb x1 bb20 Hx1. ostep Hb x2 bb21 Hx2. destruct (negb _); [done|].
    eapply dec_bytes_left; [|exact Hb]. by eapply take_bits_nonneg. }
  destruct (t =? 1); [by eapply dec_codes_left|]. destruct (t =? 2); [|done].
  apply bind_Some in Hb as ([[lit dist] b3] & _ & Hb). cbv beta iota in Hb. by eapply dec_codes_left.
Qed.

Lemma dec_inflate_len data b hist : dec_inflate (bits_of data) = Some (b, hist) -> 0 <= bs_len b <= 8 * zlen data.
Proof. intros E. split; [by eapply dec_blocks_left|by apply dec_blocks_len in E]. Qed.

(** *** The trailer *)

Lemma trailer_spec data t :
  0 <= t <= zlen data ->
  match Rfc1952.trailer (drop (Z.to_nat t) data) with
  | Some (crc, _, l) => t + 8 <= zlen data /\ ld32 data t = Ok crc /\ l = drop (Z.to_nat (t + 8)) data
  | None => zlen data < t + 8
  end.
Proof.
  intros Ht. pose proof (zlen_drop data t Ht) as Hz.
  destruct (drop (Z.to_nat t) data) as [|c0 [|c1 [|c2 [|c3 [|i0 [|i1 [|i2 [|i3 l]]]]]]]] eqn:E; cbn [Rfc1952.trailer];
    rewrite ?zlen_cons in Hz; try (change (zlen (@nil Z)) with 0 in Hz; lia).
  pose proof (zlen_nonneg l). split; [lia|].
  assert (forall k x r, 0 <= k -> drop (Z.to_nat (t + k)) data = x :: r -> ld data (t + k) = Ok x /\ drop (Z.to_nat (t + (k + 1))) data = r) as Hs.
  { intros k x r Hk Hx. destruct (drop_cons data (t + k) x r ltac:(lia) Hx) as (Hg & -> & _). split; [by apply ld_ok|]. f_equal. lia. }
  rewrite <- (Z.add_0_r t) in E. destruct (Hs 0 _ _ ltac:(lia) E) as [L0 E1]. destruct (Hs 1 _ _ ltac:(lia) E1) as [L1 E2].
  destruct (Hs 2 _ _ ltac:(lia) E2) as [L2 E3]. destruct (Hs 3 _ _ ltac:(lia) E3) as [L3 E4]. destruct (Hs 4 _ _ ltac:(lia) E4) as [_ E5].
  destruct (Hs 5 _ _ ltac:(lia) E5) as [_ E6]. destruct (Hs 6 _ _ ltac:(lia) E6) as [_ E7]. destruct (Hs 7 _ _ ltac:(lia) E7) as [_ E8].
  split; [|by rewrite <- E8]. unfold ld32. cbn [le_bytes]. rewrite Z.add_0_r in L0.
  replace (t + 1 + 1) with (t + 2) by lia. replace (t + 2 + 1) with (t + 3) by lia.
  rewrite L0, (L1 : ld data (t + 1) = _), L2, L3, !Ok_bind. f_equal. lia.
Qed.

Section members.
Context {U : Type} (user : U -> list Z -> option U) `{!StreamSink user}.
Context (inp : list Z) (Hby : Forall is_byte inp).

Definition gz_wf (g : gz_state) : Prop :=
  fixed_ok (gz_fx g) /\ zlen (gz_win g) = INF_BUFSZ /\ 0 <= gz_pos g <= zlen inp /\
  user (gz_u g) [] = Some (gz_u g).

(** Delivering the rest of the window completes the output and the CRC. *)
Lemma tail_spec s b hist u :
  repr (crc_sink user) (0, u) (in_ (rd s)) s b hist ->
  (if 0 <? out_len s then
     d ← slice0 (out s) (out_len s);
     match crc_sink user (sink_ctx s) d with None => Err (-1) | Some c => Ok c end
   else Ok (sink_ctx s))
  = match user u hist with None => Err (-1) | Some u' => Ok (crc32_update 0 hist, u') end.
Proof using StreamSink0.
  intros (_ & _ & _ & _ & Hlen & Hol & _ & F & -> & HF & _ & _).
  assert (crc_sink user (sink_ctx s) (take (Z.to_nat (out_len s)) (out s)) =
    (u' ← user u (F ++ take (Z.to_nat (out_len s)) (out s));
     Some (crc32_update 0 (F ++ take (Z.to_nat (out_len s)) (out s)), u'))) as Hs.
  { transitivity (crc_sink user (0, u) (F ++ take (Z.to_nat (out_len s)) (out s))); [|done].
    by rewrite sink_app, HF. }
  destruct (Z.ltb_spec 0 (out_len s)).
  - unfold slice0. destruct (Z.leb_spec (out_len s) (zlen (out s))); [|lia]. rewrite Ok_bind, Hs.
    by destruct (user u _).
  - replace (out_len s) with 0 by lia. change (Z.to_nat 0) with 0%nat. rewrite take_0, app_nil_r.
    unfold crc_sink in HF. cbn [fst snd] in HF. destruct (user u F) as [u'|]; [|done].
    cbn [mbind option_bind] in HF. by injection HF as <-.
Qed.

Lemma consumed_eq s b hist data u :
  repr (crc_sink user) (0, u) data s b hist -> in_pos (rd s) * 8 - bitcnt (rd s) = 8 * zlen data - bs_len b.
Proof.
  intros (Hwf & <- & Hin & _). pose proof Hwf as (_ & Hp & _). unfold rbits. cbn [bs_len].
  rewrite zlen_rest by done. rewrite Hin. lia.
Qed.

Lemma total_eq s b hist data u :
  repr (crc_sink user) (0, u) data s b hist -> flushed s + out_len s = zlen hist.
Proof.
  intros (_ & _ & _ & _ & Hlen & Hol & _ & F & -> & _ & -> & _).
  unfold zlen in *. rewrite length_app, length_take. lia.
Qed.

Lemma member_spec g :
  gz_wf g -> 18 <= zlen inp - gz_pos g ->
  match dec_member (drop (Z.to_nat (gz_pos g)) inp) with
  | None => gzip_member user inp g = Err (-1)
  | Some (hist, l') => exists pos', l' = drop (Z.to_nat pos') inp /\
      gz_pos g < pos' <= zlen inp /\
      ((exists fx win u', user (gz_u g) hist = Some u' /\ fixed_ok fx /\ zlen win = INF_BUFSZ /\
         let g' := mk_gz fx win u' pos' (gz_total g + zlen hist) in
         gzip_member user inp g =
           (if zlen inp <=? pos' then Ok (inr g')
            else if zlen inp - pos' <? 18 then Err (-1) else Ok (inl g'))) \/
       (gzip_member user inp g = Err (-1) /\ user (gz_u g) hist = None))
  end.
Proof using StreamSink0 Hby.
  intros (Hfx & Hwin & Hpos & Hnil) Hl. unfold dec_member, gzip_member.
  destruct (Z.ltb_spec (zlen inp - gz_pos g) 18); [lia|].
  pose proof (header_spec inp (gz_pos g) Hby ltac:(lia) Hl) as Hh.
  destruct (Rfc1952.header (drop (Z.to_nat (gz_pos g)) inp)) as [[flg data]|]; cbn [mbind option_bind]; [|by rewrite Hh].
  destruct Hh as (off & -> & Hoff & Hend & Edata). rewrite Ok_bind, <- Edata.
  assert (Forall is_byte data) as Hbd by (rewrite Edata; by apply Forall_drop).
  assert (zlen data = zlen inp - (gz_pos g + off)) as Hdl by (rewrite Edata; apply zlen_drop; lia).
  assert (crc_sink user (0, gz_u g) [] = Some (0, gz_u g)) as Hnil' by (unfold crc_sink; cbn [fst snd]; by rewrite Hnil).
  pose proof (raw_spec (crc_sink user) (0, gz_u g) data (gz_fx g) (gz_win g) Hfx Hwin Hbd Hnil') as Hraw.
  unfold dec_deflate. destruct (dec_inflate (bits_of data)) as [[b hist]|] eqn:Eref; cbn [follows_fx mbind option_bind] in *; [|by rewrite Hraw].
  assert (crc_sink user (0, gz_u g) hist = None -> user (gz_u g) hist = None) as Href.
  { unfold crc_sink. cbn [fst snd]. by destruct (user (gz_u g) hist). }
  assert (Forall is_byte hist) as Hhb by (eapply dec_blocks_bytes; [|exact Eref]; done).
  assert (0 <= bs_len b <= 8 * zlen data) as Hbl by (by eapply dec_inflate_len).
  set (t := zlen data - bs_len b / 8). assert ((8 * zlen data - bs_len b + 7) / 8 = t) as Et by (unfold t; mlia).
  assert (0 <= t <= zlen data) as Ht by (unfold t; mlia). pose proof (trailer_spec data t Ht) as Htr.
  destruct (Rfc1952.trailer (drop (Z.to_nat t) data)) as [[[crc isize] l]|]; cbn [mbind option_bind].
  2:{ destruct Hraw as [(fx & s & -> & _ & Hr)|[-> _]]; [|done]. rewrite Ok_bind, (consumed_eq s b hist data _ Hr), Et.
      by rewrite (proj2 (Z.ltb_lt _ _)). }
  destruct Htr as (Hlong & Hcrc & ->). rewrite <- (crc32_spec hist Hhb). rewrite (Z.eqb_sym crc).
  destruct (strip_zeros_spec inp (gz_pos g + (off + t + 8)) ltac:(lia)) as (pos' & Hskip & Hpos' & Estrip).
  assert (drop (Z.to_nat (t + 8)) data = drop (Z.to_nat (gz_pos g + (off + t + 8))) inp) as ->
    by (rewrite Edata, drop_drop; f_equal; lia). rewrite Estrip.
  destruct Hraw as [(fx & s & -> & Hfx' & Hr)|[-> Hn]].
  2:{ destruct (crc32_update 0 hist =? crc); [|done]. exists pos'. split; [done|]. split; [lia|]. right. auto. }
  rewrite Ok_bind, (consumed_eq s b hist data _ Hr), Et.
  rewrite (proj2 (Z.ltb_ge _ _)), Hcrc, Ok_bind by lia.
  pose proof Hr as (_ & _ & Hin & _ & Hwin' & _).
  rewrite (tail_spec s b hist (gz_u g)) by by rewrite Hin.
  destruct (user (gz_u g) hist) as [u'|] eqn:Eu.
  2:{ rewrite Err_bind. destruct (crc32_update 0 hist =? crc); [|done]. exists pos'. split; [done|]. split; [lia|]. by right. }
  rewrite Ok_bind. cbn [fst snd]. destruct (Z.eqb_spec (crc32_update 0 hist) crc); cbn [negb]; [|done].
  exists pos'. split; [done|]. split; [lia|]. left. exists fx, (out s), u'. split_and!; try done. cbv zeta.
  rewrite Hskip, Ok_bind. by rewrite (total_eq s b hist data _ Hr).
Qed.

Definition gz_done (u0 : U) (want : option (list Z)) (got : res gz_state) : Prop :=
  match want with
  | None => got = Err (-1)
  | Some o =>
      (exists g, got = Ok g /\ user u0 o = Some (gz_u g) /\ gz_total g = zlen o) \/
      (got = Err (-1) /\ user u0 o = None)
  end.

Lemma dec_members_prefix fuel l hist o : dec_members fuel l hist = Some o -> hist `prefix_of` o.
Proof.
  revert l hist. induction fuel as [|fuel IH]; intros l hist; [done|]. cbn [dec_members].
  destruct (_ <? 18); [by intros [= ->]|]. intros H. apply bind_Some in H as ([x l'] & Hx & H). cbv beta iota in H.
  destruct l' as [|y l']; [simplify_eq; by apply prefix_app_r|]. destruct (_ <? 18); [done|].
  apply IH in H. etrans; [|exact H]. by apply prefix_app_r.
Qed.

(** The three ways a member can end, by position and by what is left. *)
Lemma ends_spec pos {B} (x y z : B) : 0 <= pos <= zlen inp ->
  match drop (Z.to_nat pos) inp with [] => x | _ => if zlen (drop (Z.to_nat pos) inp) <? 18 then y else z end =
  if zlen inp <=? pos then x else if zlen inp - pos <? 18 then y else z.
Proof.
  intros Hp. rewrite (zlen_drop inp pos Hp). pose proof (zlen_drop inp pos Hp) as Hz. destruct (drop (Z.to_nat pos) inp) as [|c l].
  - change (zlen (@nil Z)) with 0 in Hz. by rewrite (proj2 (Z.leb_le _ _)) by lia.
  - rewrite zlen_cons in Hz. pose proof (zlen_nonneg l). by rewrite (proj2 (Z.leb_gt _ _)) by lia.
Qed.

Lemma members_spec u0 fuel g hist :
  gz_wf g -> user u0 hist = Some (gz_u g) -> gz_total g = zlen hist ->
  zlen inp - gz_pos g < Z.of_nat fuel ->
  gz_done u0 (dec_members fuel (drop (Z.to_nat (gz_pos g)) inp) hist) (loop fuel (gzip_member user inp) g).
Proof using StreamSink0 Hby.
  revert g hist. induction fuel as [|fuel IH]; intros g hist Hwf Hu Ht Hf.
  { destruct Hwf as (_ & _ & ? & _). lia. }
  cbn [dec_members loop]. rewrite zlen_drop by apply Hwf.
  destruct (Z.ltb_spec (zlen inp - gz_pos g) 18) as [Hend|Hgo].
  { unfold gzip_member. destruct (Z.ltb_spec (zlen inp - gz_pos g) 18); [|lia]. left. exists g. auto. }
  pose proof (member_spec g Hwf Hgo) as Hm.
  destruct (dec_member (drop (Z.to_nat (gz_pos g)) inp)) as [[o l']|]; cbn [mbind option_bind]; [|by rewrite Hm].
  destruct Hm as (pos' & -> & Hpos & Hm). destruct Hwf as (_ & _ & Hgp & _). rewrite ends_spec by lia.
  assert (user u0 (hist ++ o) = user (gz_u g) o) as Happ by (rewrite sink_app, Hu; done).
  destruct Hm as [(fx & win & u' & Eu & Hfx & Hwin & ->)|[-> Hn]].
  - destruct (Z.leb_spec (zlen inp) pos') as [Hstop|Hmore].
    { left. eexists. split; [done|]. cbn [gz_u gz_total]. rewrite Happ, Eu. split; [done|].
      rewrite Ht. unfold zlen. rewrite length_app. lia. }
    destruct (Z.ltb_spec (zlen inp - pos') 18); [done|]. rewrite Ok_bind.
    apply (IH (mk_gz fx win u' pos' (gz_total g + zlen o))); cbn [gz_pos gz_u gz_total].
    + unfold gz_wf. cbn [gz_fx gz_win gz_pos gz_u]. split_and!; [done|done|lia|lia|].
      pose proof (sink_app (gz_u g) o []) as Hnil. rewrite app_nil_r, Eu in Hnil. by symmetry.
    + by rewrite Happ.
    + rewrite Ht. unfold zlen. rewrite length_app. lia.
    + lia.
  - assert (forall o', hist ++ o `prefix_of` o' -> user u0 o' = None) as Hnone.
    { intros o' Hp. eapply sink_prefix; [done|exact Hp|]. by rewrite Happ. }
    destruct (Z.leb_spec (zlen inp) pos'); [right; split; [done|by apply Hnone]|].
    destruct (Z.ltb_spec (zlen inp - pos') 18); [done|].
    destruct (dec_members fuel (drop (Z.to_nat pos') inp) (hist ++ o)) as [o'|] eqn:E; [|done].
    right. split; [done|]. apply Hnone. by eapply dec_members_prefix.
Qed.

Lemma gzip_cb_spec fx win u0 :
  fixed_ok fx -> zlen win = INF_BUFSZ -> user u0 [] = Some u0 ->
  match dec_gunzip inp with
  | None => gzip_inflate_cb user fx win inp u0 = Err (-1)
  | Some o =>
      (exists g, gzip_inflate_cb user fx win inp u0 = (if zlen o =? 0 then Err (-1) else Ok g) /\
         user u0 o = Some (gz_u g) /\ gz_total g = zlen o) \/
      (gzip_inflate_cb user fx win inp u0 = Err (-1) /\ user u0 o = None)
  end.
Proof using StreamSink0 Hby.
  intros Hfx Hwin Hnil. unfold gzip_inflate_cb, dec_gunzip.
  pose proof (members_spec u0 (S (length inp)) (mk_gz fx win u0 0 0) []) as H.
  cbn [gz_pos gz_u gz_total] in H. specialize (H ltac:(split_and!; auto; simpl; unfold zlen; lia) Hnil eq_refl
    ltac:(unfold zlen; lia)). change (Z.to_nat 0) with 0%nat in H. rewrite drop_0 in H.
  destruct (dec_members _ inp []) as [o|]; cbn [gz_done] in H; [|by rewrite H].
  destruct H as [(g & -> & Hu & Ht)|[-> Hn]]; [|by right].
  left. exists g. rewrite Ok_bind, Ht. auto.
Qed.
End members.

Lemma gzip_inflate_spec fx win inp o :
  Forall is_byte inp -> zlen win = INF_BUFSZ -> fixed_ok fx ->
  gzip_inflate fx win inp o =
    match dec_gunzip inp with
    | Some d =>
        if (zlen d =? 0) || (zlen o <? zlen d) then Err (-1)
        else Ok (d ++ drop (length d) o, zlen d)
    | None => Err (-1)
    end.
Proof.
  intros Hby Hwin Hfx. unfold gzip_inflate. pose proof (zlen_nonneg o) as Ho.
  pose proof (gzip_cb_spec (buf_sink (zlen o)) inp Hby fx win (o, 0) Hfx Hwin) as H.
  assert (buf_sink (zlen o) (o, 0) [] = Some (o, 0)) as Hnil.
  { unfold buf_sink. change (0 + zlen (@nil Z)) with 0. destruct (Z.ltb_spec (zlen o) 0); [lia|done]. }
  specialize (H Hnil). destruct (dec_gunzip inp) as [d|]; [|by rewrite H].
  destruct H as [(g & -> & Hu & Ht)|[-> Hn]];
    [unfold buf_sink in Hu|unfold buf_sink in Hn]; rewrite Z.add_0_l in *.
  - destruct (Z.eqb_spec (zlen d) 0); [done|]. destruct (Z.ltb_spec (zlen o) (zlen d)); [done|].
    rewrite Ok_bind. cbn [orb]. rewrite Ht. injection Hu as <-. cbn [fst].
    rewrite buf_write_spec by lia. change (Z.to_nat 0) with 0%nat. rewrite take_0. cbn [app].
    by replace (Z.to_nat (0 + zlen d)) with (length d) by (unfold zlen; lia).
  - destruct (Z.ltb_spec (zlen o) (zlen d)); [by rewrite orb_true_r|done].
Qed.

(** *** Files of the format *)

Lemma extra_suffix l l' : Rfc1952.extra l = Some l' -> l' `suffix_of` l.
Proof.
  destruct l as [|x0 [|x1 l]]; [done..|]. cbn [Rfc1952.extra]. destruct (_ <? _); [done|]. intros [= <-].
  apply suffix_cons_r, suffix_cons_r. apply suffix_drop.
Qed.

Lemma zstring_suffix l l' : Rfc1952.zstring l = Some l' -> l' `suffix_of` l.
Proof.
  induction l as [|c l IH]; [done|]. cbn [Rfc1952.zstring]. destruct (c =? 0); [intros [= <-]|intros H%IH]; by apply suffix_cons_r.
Qed.

Lemma field_suffix c f l l' :
  (forall l l', f l = Some l' -> l' `suffix_of` l) -> Rfc1952.field c f l = Some l' -> l' `suffix_of` l.
Proof. intros Hf. destruct c; cbn [Rfc1952.field]; [apply Hf|by intros [= <-]]. Qed.

Lemma header_suffix l flg data :
  Rfc1952.header l = Some (flg, data) -> (exists r, l = 31 :: r) /\ 10 + zlen data <= zlen l /\ data `suffix_of` l.
Proof.
  destruct l as [|id1 [|id2 [|cm [|f [|x4 [|x5 [|x6 [|x7 [|x8 [|x9 l]]]]]]]]]]; try done. cbn [Rfc1952.header].
  destruct (Z.eqb_spec id1 31) as [->|]; [|done]. destruct (_ && _); [|done]. intros H.
  apply bind_Some in H as (l1 & H1%field_suffix & H); [|apply extra_suffix]. apply bind_Some in H as (l2 & H2%field_suffix & H); [|apply zstring_suffix].
  apply bind_Some in H as (l3 & H3%field_suffix & H); [|apply zstring_suffix]. apply bind_Some in H as (l4 & H4%field_suffix & H).
  2:{ intros [|y0 [|y1 r]] r'; [done..|]. cbn [Rfc1952.crc16]. intros [= <-]. by apply suffix_cons_r, suffix_cons_r. }
  injection H as <- <-. assert (l4 `suffix_of` l) as Hs by (etrans; [exact H4|etrans; [exact H3|etrans; [exact H2|exact H1]]]).
  split; [by eexists|]. split; [rewrite !zlen_cons; apply suffix_length in Hs; unfold zlen; lia|]. by repeat apply suffix_cons_r.
Qed.

Lemma member_dec l out l' :
  Forall is_byte l -> Rfc1952.member l = Some (out, l', true) ->
  dec_member l = Some (out, strip_zeros l') /\ (exists r, l = 31 :: r) /\ 18 <= zlen l /\ Forall is_byte l'.
Proof.
  intros Hby. unfold Rfc1952.member, dec_member. intros H. apply bind_Some in H as ([flg data] & Hh & H). cbv beta iota in H.
  destruct (negb _); [done|]. apply bind_Some in H as ([[o s] plain] & Hi & H). cbv beta iota in H.
  apply bind_Some in H as ([[crc isize] r] & Ht & H). cbv beta iota in H.
  destruct (Z.eqb_spec crc (Rfc1952.crc32 o)); [|done]. destruct (_ =? _); [|done]. cbn [andb] in H. injection H as -> -> ->.
  destruct (header_suffix _ _ _ Hh) as (H31 & Hlen & [pre Epre]). rewrite Hh. cbn [mbind option_bind].
  assert (Forall is_byte data) as Hbd by (rewrite Epre in Hby; by apply Forall_app in Hby as [_ Hby]).
  unfold dec_deflate. rewrite (inflate_dec _ _ _ Hbd Hi). cbn [mbind option_bind enc bs_len].
  assert (Z.to_nat (zlen data - zlen s / 8) = (length data - length s / 8)%nat) as ->
    by (unfold zlen; change 8 with (Z.of_nat 8); rewrite <- Nat2Z.inj_div; lia).
  rewrite Ht. cbn [mbind option_bind]. rewrite (proj2 (Z.eqb_eq _ _)) by done. split; [done|]. split; [done|].
  set (t := drop _ data) in Ht. assert (Forall is_byte t) as Hbt by by apply Forall_drop.
  assert (zlen t <= zlen data) as Hzt by (unfold t, zlen; rewrite length_drop; lia).
  destruct t as [|c0 [|c1 [|c2 [|c3 [|i0 [|i1 [|i2 [|i3 r]]]]]]]]; try done. cbn [Rfc1952.trailer] in Ht. injection Ht as _ _ ->.
  rewrite !zlen_cons in Hzt. pose proof (zlen_nonneg l'). split; [lia|]. by do 8 (apply Forall_cons_1 in Hbt as [_ Hbt]).
Qed.

Lemma members_dec fuel l d hist :
  Forall is_byte l -> Rfc1952.members fuel l = Some (d, true) ->
  dec_members fuel l hist = Some (hist ++ d) /\ (exists r, l = 31 :: r) /\ 18 <= zlen l.
Proof.
  revert l d hist. induction fuel as [|fuel IH]; intros l d hist Hby H; [done|]. cbn [Rfc1952.members] in H. cbn [dec_members].
  apply bind_Some in H as ([[o l'] p] & Hm & H). cbv beta iota in H. assert (p = true) as ->.
  { destruct l'; [by injection H as _ ->|]. apply bind_Some in H as ([o' p'] & _ & H). injection H as _ H. by destruct p. }
  destruct (member_dec l o l' Hby Hm) as (-> & H31 & H18 & Hby'). rewrite (proj2 (Z.ltb_ge _ _)) by lia. cbn [mbind option_bind].
  split; [|done]. destruct l' as [|x l']; [by injection H as <-|].
  apply bind_Some in H as ([o' p'] & Hms & H). injection H as <- ->.
  destruct (IH (x :: l') o' (hist ++ o) Hby' Hms) as (E & [r Er] & Hz). injection Er as -> ->.
  cbn [strip_zeros]. change (31 =? 0) with false. cbv iota. rewrite (proj2 (Z.ltb_ge _ _)), E, app_assoc by lia. done.
Qed.

Lemma gunzip_dec inp d : Forall is_byte inp -> Rfc1952.gunzip inp = Some (d, true) -> dec_gunzip inp = Some d.
Proof. intros Hby H. apply (members_dec _ _ _ [] Hby H). Qed.

(** C9: [gzip_inflate] decodes gzip files. (1) For every file of RFC 1952 (one
    or more members, each with its header, its compressed data, CRC and size,
    as [Rfc1952.gunzip] reads them) whose compressed data is plain in the sense
    of [Deflate.inflate] and whose contents are not empty and fit, the call
    stores exactly the contents and leaves the rest of the buffer alone. (2) On
    every byte string the call ends, with no access out of bounds in the bit
    reader, the tables, the code-length arrays and the sliding window, and its
    result is that of [dec_gunzip]: in particular every member it accepts has the
    CRC-32 of its contents, the remainder of the division by the polynomial of
    ISO 3309. *)
Theorem gzip_inflate_correct fx win inp o :
  Forall is_byte inp -> zlen win = INF_BUFSZ -> fixed_ok fx ->
  (forall d, Rfc1952.gunzip inp = Some (d, true) -> 0 < zlen d <= zlen o ->
     gzip_inflate fx win inp o = Ok (d ++ drop (length d) o, zlen d)) /\
  gzip_inflate fx win inp o =
    match dec_gunzip inp with
    | Some d =>
        if (zlen d =? 0) || (zlen o <? zlen d) then Err (-1)
        else Ok (d ++ drop (length d) o, zlen d)
    | None => Err (-1)
    end.
Proof.
  intros Hby Hwin Hfx. pose proof (gzip_inflate_spec fx win inp o Hby Hwin Hfx) as H. split; [|exact H].
  intros d Hd Hz. rewrite H, (gunzip_dec inp d Hby Hd). rewrite (proj2 (Z.eqb_neq _ _)), (proj2 (Z.ltb_ge _ _)) by lia. done.
Qed.

(** A file as gzip writes it, with one fixed-code block. *)
Definition hello_gz : list Z :=
    [31;139;8;0;0;0;0;0;2;3;203;72;205;201;201;87;200;64;34;179;51;115;12;
   42;1;130;51;145;98;23;0;0;0].

Definition hello_text : list Z :=
  [104;101;108;108;111;32;104;101;108;108;111;32;104;101;108;108;111;32;107;105;108;48;121].

Lemma gzip_inflate_correct_witness :
  gzip_inflate fixed_boot (replicate (Z.to_nat INF_BUFSZ) 0) hello_gz (replicate 32 0) =
    Ok (hello_text ++ replicate 9 0, 23).
Proof.
  destruct (gzip_inflate_correct fixed_boot (replicate (Z.to_nat INF_BUFSZ) 0) hello_gz (replicate 32 0)) as [H _].
  - apply (bool_decide_unpack _). vm_compute. reflexivity.
  - rewrite zlen_replicate. apply Z2Nat.id. pose proof INF_sizes. lia.
  - intros Hf. discriminate Hf.
  - apply (H hello_text); [vm_compute; reflexivity|]. split; [reflexivity|vm_compute; discriminate].
Defined.
