(* ===== verification/Sha256.v ===== *)
(** * Sha256: the digest of src/src/kernel/pkg/sha256.c

    [sha256] builds each 64-byte block from the message on the fly. The
    module [Fips] is SHA-256 as FIPS 180-4 defines it and shares nothing with
    the code: the constants are computed from the roots of the primes, the
    logical functions are given bit by bit and the rotations arithmetically,
    and the whole padded message is cut into blocks. *)

From S2P Require Import Prelude BitLists.

Definition K : list Z := [
  1116352408; 1899447441; 3049323471; 3921009573;  (* 428a2f98 71374491 b5c0fbcf e9b5dba5 *)
  961987163; 1508970993; 2453635748; 2870763221;  (* 3956c25b 59f111f1 923f82a4 ab1c5ed5 *)
  3624381080; 310598401; 607225278; 1426881987;  (* d807aa98 12835b01 243185be 550c7dc3 *)
  1925078388; 2162078206; 2614888103; 3248222580;  (* 72be5d74 80deb1fe 9bdc06a7 c19bf174 *)
  3835390401; 4022224774; 264347078; 604807628;  (* e49b69c1 efbe4786 0fc19dc6 240ca1cc *)
  770255983; 1249150122; 1555081692; 1996064986;  (* 2de92c6f 4a7484aa 5cb0a9dc 76f988da *)
  2554220882; 2821834349; 2952996808; 3210313671;  (* 983e5152 a831c66d b00327c8 bf597fc7 *)
  3336571891; 3584528711; 113926993; 338241895;  (* c6e00bf3 d5a79147 06ca6351 14292967 *)
  666307205; 773529912; 1294757372; 1396182291;  (* 27b70a85 2e1b2138 4d2c6dfc 53380d13 *)
  1695183700; 1986661051; 2177026350; 2456956037;  (* 650a7354 766a0abb 81c2c92e 92722c85 *)
  2730485921; 2820302411; 3259730800; 3345764771;  (* a2bfe8a1 a81a664b c24b8b70 c76c51a3 *)
  3516065817; 3600352804; 4094571909; 275423344;  (* d192e819 d6990624 f40e3585 106aa070 *)
  430227734; 506948616; 659060556; 883997877;  (* 19a4c116 1e376c08 2748774c 34b0bcb5 *)
  958139571; 1322822218; 1537002063; 1747873779;  (* 391c0cb3 4ed8aa4a 5b9cca4f 682e6ff3 *)
  1955562222; 2024104815; 2227730452; 2361852424;  (* 748f82ee 78a5636f 84c87814 8cc70208 *)
  2428436474; 2756734187; 3204031479; 3329325298].  (* 90befffa a4506ceb bef9a3f7 c67178f2 *)

Definition ror (x n : Z) : Z := Z.lor (Z.shiftr x n) (u32 (Z.shiftl x (32 - n))).

Record regs : Type := mk_regs { ra : Z; rb : Z; rc : Z; rd : Z; re : Z; rf : Z; rg : Z; rh : Z }.

Definition h0 : regs :=
  mk_regs 0x6a09e667 0xbb67ae85 0x3c6ef372 0xa54ff53a 0x510e527f 0x9b05688c 0x1f83d9ab 0x5be0cd19.

Section blocks.
Context (data : list Z).

Definition msg_total : Z := zlen data + 1 + 8.
Definition msg_blocks : Z := (msg_total + 63) / 64.

(** Byte [i] of a block that is not wholly message. *)
Definition fill_byte (off i : Z) (block : list Z) : res (list Z) :=
  let idx := off + i in
  if idx <? zlen data then v ← ld data idx; st block i v
  else if idx =? zlen data then st block i 128
  else Ok block.

(** Block [b] of the padded message. *)
Definition get_block (b : Z) : res (list Z) :=
  let off := b * 64 in
  if off + 64 <=? zlen data then Ok (take 64 (drop (Z.to_nat off) data))
  else
    block ← for_ 0 64 (fill_byte off) (replicate 64 0);
    if msg_total <=? off + 64 then
      let bits := u64 (zlen data * 8) in
      for_ 0 8 (fun i block => st block (56 + i) (u8 (Z.shiftr bits (56 - i * 8)))) block
    else Ok block.
End blocks.

Definition sched_word (x15 x2 x16 x7 : Z) : Z :=
  let s0 := Z.lxor (Z.lxor (ror x15 7) (ror x15 18)) (Z.shiftr x15 3) in
  let s1 := Z.lxor (Z.lxor (ror x2 17) (ror x2 19)) (Z.shiftr x2 10) in
  u32 (x16 + s0 + x7 + s1).

Definition load_word (block : list Z) (i : Z) (w : list Z) : res (list Z) :=
  b0 ← ld block (i * 4); b1 ← ld block (i * 4 + 1);
  b2 ← ld block (i * 4 + 2); b3 ← ld block (i * 4 + 3);
  st w i (Z.lor (Z.lor (Z.lor (u32 (Z.shiftl b0 24)) (u32 (Z.shiftl b1 16))) (u32 (Z.shiftl b2 8))) b3).

Definition extend_word (i : Z) (w : list Z) : res (list Z) :=
  x15 ← ld w (i - 15); x2 ← ld w (i - 2); x16 ← ld w (i - 16); x7 ← ld w (i - 7);
  st w i (sched_word x15 x2 x16 x7).

(** The message schedule [w[64]]. *)
Definition schedule (block : list Z) : res (list Z) :=
  w ← for_ 0 16 (load_word block) (replicate 64 0);
  for_ 16 64 extend_word w.

Definition round (r : regs) (k w : Z) : regs :=
  let S1 := Z.lxor (Z.lxor (ror (re r) 6) (ror (re r) 11)) (ror (re r) 25) in
  let ch := Z.lxor (Z.land (re r) (rf r)) (Z.land (u32 (Z.lnot (re r))) (rg r)) in
  let t1 := u32 (rh r + S1 + ch + k + w) in
  let S0 := Z.lxor (Z.lxor (ror (ra r) 2) (ror (ra r) 13)) (ror (ra r) 22) in
  let maj := Z.lxor (Z.lxor (Z.land (ra r) (rb r)) (Z.land (ra r) (rc r))) (Z.land (rb r) (rc r)) in
  let t2 := u32 (S0 + maj) in
  mk_regs (u32 (t1 + t2)) (ra r) (rb r) (rc r) (u32 (rd r + t1)) (re r) (rf r) (rg r).

Definition rounds (w : list Z) (h : regs) : res regs :=
  for_ 0 64 (fun i r => k ← ld K i; x ← ld w i; Ok (round r k x)) h.

Definition add_regs (h r : regs) : regs :=
  mk_regs (u32 (ra h + ra r)) (u32 (rb h + rb r)) (u32 (rc h + rc r)) (u32 (rd h + rd r))
          (u32 (re h + re r)) (u32 (rf h + rf r)) (u32 (rg h + rg r)) (u32 (rh h + rh r)).

Definition process_block (data : list Z) (b : Z) (h : regs) : res regs :=
  block ← get_block data b;
  w ← schedule block;
  r ← rounds w h;
  Ok (add_regs h r).

Definition be_word (x : Z) : list Z :=
  [u8 (Z.shiftr x 24); u8 (Z.shiftr x 16); u8 (Z.shiftr x 8); u8 x].

Definition digest_of (h : regs) : list Z :=
  be_word (ra h) ++ be_word (rb h) ++ be_word (rc h) ++ be_word (rd h) ++
  be_word (re h) ++ be_word (rf h) ++ be_word (rg h) ++ be_word (rh h).

Definition sha256 (data : list Z) : res (list Z) :=
  h ← for_ 0 (msg_blocks data) (process_block data) h0;
  Ok (digest_of h).

(** Hexadecimal digits as character codes. *)
Definition hexd : list Z := [48;49;50;51;52;53;54;55;56;57;97;98;99;100;101;102].

Definition sha256_hex (digest : list Z) : res (list Z) :=
  buf ← for_ 0 32 (fun i buf =>
    d ← ld digest i;
    hi ← ld hexd (Z.shiftr d 4);
    buf ← st buf (i * 2) hi;
    lo ← ld hexd (Z.land d 15);
    st buf (i * 2 + 1) lo) (replicate 65 0);
  st buf 64 0.

Definition at_ (w : list Z) (i : Z) : Z := default 0 (zget w i).

(** ** Reference: FIPS 180-4 *)

Module Fips.

(** *** Words (section 2.2) *)

(** The word whose bit [i] is [f i]. *)
Definition word_of (f : Z -> bool) : Z := bits_z (f <$> seqZ 0 32).

Definition add (x y : Z) : Z := (x + y) mod 2 ^ 32.
Definition SHR (n x : Z) : Z := x / 2 ^ n.
Definition ROTR (n x : Z) : Z := x / 2 ^ n + (x mod 2 ^ n) * 2 ^ (32 - n).

(** *** Functions (section 4.1.2) *)

Definition Ch (x y z : Z) : Z := word_of (fun i => if Z.testbit x i then Z.testbit y i else Z.testbit z i).

Definition Maj (x y z : Z) : Z :=
  word_of (fun i => 2 <=? Z.b2z (Z.testbit x i) + Z.b2z (Z.testbit y i) + Z.b2z (Z.testbit z i)).

Definition Parity (x y z : Z) : Z :=
  word_of (fun i => Z.odd (Z.b2z (Z.testbit x i) + Z.b2z (Z.testbit y i) + Z.b2z (Z.testbit z i))).

Definition Sigma0 (x : Z) : Z := Parity (ROTR 2 x) (ROTR 13 x) (ROTR 22 x).
Definition Sigma1 (x : Z) : Z := Parity (ROTR 6 x) (ROTR 11 x) (ROTR 25 x).
Definition sigma0 (x : Z) : Z := Parity (ROTR 7 x) (ROTR 18 x) (SHR 3 x).
Definition sigma1 (x : Z) : Z := Parity (ROTR 17 x) (ROTR 19 x) (SHR 10 x).

(** *** Constants (sections 4.2.2 and 5.3.3) *)

Definition is_prime (n : Z) : bool := forallb (fun d => negb (n mod d =? 0)) (seqZ 2 (Z.sqrt n - 1)).
Definition primes : list Z := List.filter is_prime (seqZ 2 310).

(** The integer cube root, digit by digit from bit [k - 1]. *)
Fixpoint cbrt_from (k : nat) (r n : Z) : Z :=
  match k with
  | O => r
  | S k' => let r' := r + 2 ^ Z.of_nat k' in cbrt_from k' (if r' ^ 3 <=? n then r' else r) n
  end.

(** The first 32 bits of the fractional parts of the cube and square roots. *)
Definition root3 (p : Z) : Z := cbrt_from 36 0 (p * 2 ^ 96) mod 2 ^ 32.
Definition root2 (p : Z) : Z := Z.sqrt (p * 2 ^ 64) mod 2 ^ 32.

Definition Kt : list Z := root3 <$> take 64 primes.

Definition vars : Type := Z * Z * Z * Z * Z * Z * Z * Z.

Definition H0 : vars :=
  match root2 <$> take 8 primes with
  | [a; b; c; d; e; f; g; h] => (a, b, c, d, e, f, g, h)
  | _ => (0, 0, 0, 0, 0, 0, 0, 0)
  end.

(** *** Padding and blocks (sections 5.1.1 and 5.2.1) *)

(** The [n] bytes of a number, most significant first. *)
Fixpoint big_endian (n : nat) (x : Z) : list Z :=
  match n with
  | O => []
  | S n' => (x / 256 ^ Z.of_nat n') mod 256 :: big_endian n' x
  end.

(** A one bit, the least number of zeros, and the bit length. *)
Definition pad (data : list Z) : list Z :=
  data ++ [128] ++ replicate (Z.to_nat ((-(zlen data + 9)) mod 64)) 0 ++ big_endian 8 (8 * zlen data).

(** Cut into [n] blocks of 64 bytes. *)
Fixpoint chunks (n : nat) (l : list Z) : list (list Z) :=
  match n with
  | O => []
  | S n' => take 64 l :: chunks n' (drop 64 l)
  end.

Fixpoint be_words (n : nat) (l : list Z) : list Z :=
  match n, l with
  | S n', b0 :: b1 :: b2 :: b3 :: l' => (((b0 * 256 + b1) * 256 + b2) * 256 + b3) :: be_words n' l'
  | _, _ => []
  end.

(** *** Hash computation (section 6.2.2) *)

(** Step 1: [n] more words of the schedule. *)
Fixpoint extend (n : nat) (w : list Z) : list Z :=
  match n with
  | O => w
  | S n' =>
      let t := zlen w in
      extend n' (w ++ [add (add (add (sigma1 (at_ w (t - 2))) (at_ w (t - 7))) (sigma0 (at_ w (t - 15)))) (at_ w (t - 16))])
  end.

(** Step 3: one turn. *)
Definition turn (v : vars) (kw : Z * Z) : vars :=
  let '(a, b, c, d, e, f, g, h) := v in
  let T1 := add (add (add (add h (Sigma1 e)) (Ch e f g)) (fst kw)) (snd kw) in
  let T2 := add (Sigma0 a) (Maj a b c) in
  (add T1 T2, a, b, c, add d T1, e, f, g).

(** Step 4: the intermediate hash value. *)
Definition sum (u v : vars) : vars :=
  let '(a, b, c, d, e, f, g, h) := u in
  let '(a', b', c', d', e', f', g', h') := v in
  (add a a', add b b', add c c', add d d', add e e', add f f', add g g', add h h').

Definition compress (v : vars) (block : list Z) : vars :=
  sum v (foldl turn v (zip Kt (extend (Z.to_nat (64 - 16)) (be_words 16 block)))).

Definition digest (v : vars) : list Z :=
  let '(a, b, c, d, e, f, g, h) := v in [a; b; c; d; e; f; g; h] ≫= big_endian 4.

Definition hash (data : list Z) : list Z :=
  let p := pad data in digest (foldl compress H0 (chunks (Z.to_nat (zlen p / 64)) p)).
End Fips.

Import Fips (pad, chunks, be_words, extend, big_endian, Kt, turn).

(** ** The blocks are those of the padded message *)

Lemma length_big_endian n x : length (big_endian n x) = n.
Proof. induction n as [|n IH]; [done|]. cbn [big_endian length]. by rewrite IH. Qed.

Lemma zlen_big_endian n x : zlen (big_endian n x) = Z.of_nat n.
Proof. unfold zlen. by rewrite length_big_endian. Qed.

Lemma big_endian_get n x i : 0 <= i < Z.of_nat n -> zget (big_endian n x) i = Some (u8 (Z.shiftr x (8 * (Z.of_nat n - 1 - i)))).
Proof.
  revert i. induction n as [|n IH]; intros i Hi; [lia|]. cbn [big_endian]. destruct (Z.eq_dec i 0) as [->|].
  - cbn [zget]. unfold zget. cbn. unfold u8. rewrite Z.shiftr_div_pow2, Z.pow_mul_r by lia.
    change (2 ^ 8) with 256. by replace (Z.of_nat (S n) - 1 - 0) with (Z.of_nat n) by lia.
  - unfold zget in *. rewrite (proj2 (Z.leb_le 0 i)) by lia. replace (Z.to_nat i) with (S (Z.to_nat (i - 1))) by lia.
    specialize (IH (i - 1) ltac:(lia)). rewrite (proj2 (Z.leb_le 0 (i - 1))) in IH by lia.
    etransitivity; [exact IH|]. do 4 f_equal. lia.
Qed.

Lemma pad_length data : zlen (pad data) = 64 * msg_blocks data.
Proof.
  unfold pad, msg_blocks, msg_total. rewrite !zlen_app, zlen_replicate, zlen_big_endian.
  unfold zlen at 2. simpl length. pose proof (zlen_nonneg data). mlia.
Qed.

Lemma pad_data data j : j < zlen data -> zget (pad data) j = zget data j.
Proof. intros. unfold pad. by rewrite zget_app_l. Qed.

Lemma pad_mark data : zget (pad data) (zlen data) = Some 128.
Proof. unfold pad. rewrite zget_app_r, Z.sub_diag by lia. done. Qed.

Lemma pad_zero data j : zlen data < j < 64 * msg_blocks data - 8 -> zget (pad data) j = Some 0.
Proof.
  intros Hj. pose proof (pad_length data) as Hl. unfold pad in *.
  rewrite !zlen_app, zlen_big_endian in Hl. replace (zlen [128]) with 1 in Hl by done.
  rewrite zget_app_r by lia. rewrite (zget_app_r [128]) by (replace (zlen [128]) with 1 by done; lia).
  replace (zlen [128]) with 1 by done. rewrite zget_app_l by lia.
  rewrite zlen_replicate in Hl. apply zget_replicate. lia.
Qed.

Lemma pad_len data i : 0 <= i < 8 ->
  zget (pad data) (64 * msg_blocks data - 8 + i) = Some (u8 (Z.shiftr (8 * zlen data) (56 - i * 8))).
Proof.
  intros Hi. pose proof (pad_length data) as Hl. unfold pad in *.
  rewrite !zlen_app, zlen_big_endian in Hl. replace (zlen [128]) with 1 in Hl by done.
  rewrite zlen_replicate in Hl.
  rewrite zget_app_r by lia. rewrite (zget_app_r [128]) by (replace (zlen [128]) with 1 by done; lia).
  replace (zlen [128]) with 1 by done. rewrite zget_app_r, zlen_replicate by (rewrite zlen_replicate; lia).
  replace (_ - _ - _ - _) with i by lia. rewrite big_endian_get by lia. do 3 f_equal. lia.
Qed.

Lemma fill_block data off :
  0 <= off -> zlen data < off + 64 ->
  total (fun block => zlen block = 64 /\ forall i, 0 <= i < 64 ->
      zget block i = if off + i <? zlen data then zget data (off + i)
                     else if off + i =? zlen data then Some 128 else Some 0)
    (for_ 0 64 (fill_byte data off) (replicate 64 0)).
Proof.
  intros Hoff Hlen. eapply post_conseq.
  { apply (for_post (fun j block => zlen block = 64 /\
      (forall i, 0 <= i < j -> zget block i = if off + i <? zlen data then zget data (off + i)
         else if off + i =? zlen data then Some 128 else Some 0) /\
      (forall i, j <= i < 64 -> zget block i = Some 0))); [lia| |].
    { split_and!; [done|lia|]. intros i Hi. apply zget_replicate. lia. }
    intros j block Hj (Hl & Hlo & Hhi). unfold fill_byte. cbv zeta.
    assert (forall v, (if off + j <? zlen data then zget data (off + j)
         else if off + j =? zlen data then Some 128 else Some 0) = Some v ->
      post (fun block => zlen block = 64 /\
        (forall i, 0 <= i < j + 1 -> zget block i = if off + i <? zlen data then zget data (off + i)
           else if off + i =? zlen data then Some 128 else Some 0) /\
        (forall i, j + 1 <= i < 64 -> zget block i = Some 0)) (fun _ => False) (st block j v)) as Hst.
    { intros v Hv. rewrite st_ok by lia. cbn [post]. rewrite zlen_zset. split_and!; [done| |].
      - intros i Hi. destruct (Z.eq_dec i j) as [->|]; [by rewrite zget_zset_eq by lia|].
        rewrite zget_zset_ne by lia. apply Hlo. lia.
      - intros i Hi. rewrite zget_zset_ne by lia. apply Hhi. lia. }
    destruct (Z.ltb_spec (off + j) (zlen data)).
    - destruct (zget_in_range data (off + j) ltac:(lia)) as [v Hv]. rewrite (ld_ok _ _ _ Hv), Ok_bind. by apply Hst.
    - destruct (Z.eqb_spec (off + j) (zlen data)) as [He|Hne]; [by apply Hst|].
      cbn [post]. split_and!; [done| |intros; apply Hhi; lia].
      intros i Hi. destruct (Z.eq_dec i j) as [->|]; [|apply Hlo; lia].
      rewrite Hhi by lia. destruct (Z.ltb_spec (off + j) (zlen data)); [lia|].
      by destruct (Z.eqb_spec (off + j) (zlen data)). }
  intros block (Hl & Hlo & _). auto.
Qed.

Lemma get_block_spec data b :
  zlen data < 2 ^ 60 -> 0 <= b < msg_blocks data ->
  get_block data b = Ok (take 64 (drop (Z.to_nat (b * 64)) (pad data))).
Proof.
  intros Hbig Hb. unfold get_block. pose proof (pad_length data) as Hp. pose proof (zlen_nonneg data).
  assert (forall block, zlen block = 64 ->
    (forall i, 0 <= i < 64 -> zget block i = zget (pad data) (b * 64 + i)) ->
    block = take 64 (drop (Z.to_nat (b * 64)) (pad data))) as Hext.
  { intros block Hl Hi. change 64%nat with (Z.to_nat 64). apply zget_ext.
    - unfold zlen in *. rewrite length_take, length_drop. lia.
    - intros i Hr. rewrite zget_take, zget_drop by lia. apply Hi. lia. }
  destruct (Z.leb_spec (b * 64 + 64) (zlen data)).
  { f_equal. apply Hext; change 64%nat with (Z.to_nat 64).
    - unfold zlen in *. rewrite length_take, length_drop. lia.
    - intros i Hi. rewrite zget_take, zget_drop, pad_data by lia. done. }
  pose proof (fill_block data (b * 64) ltac:(lia) ltac:(lia)) as (blk & -> & Hl & Hblk)%total_Ok.
  rewrite Ok_bind. unfold msg_total. unfold msg_blocks, msg_total in Hb, Hp.
  destruct (Z.leb_spec (zlen data + 1 + 8) (b * 64 + 64)) as [Hlast|Hnot].
  - assert (b = msg_blocks data - 1) as Hbl by (unfold msg_blocks, msg_total in *; mlia).
    assert (total (fun block => zlen block = 64 /\ forall i, 0 <= i < 64 -> zget block i =
        if i <? 56 then zget blk i else Some (u8 (Z.shiftr (8 * zlen data) (56 - (i - 56) * 8))))
      (for_ 0 8 (fun i block => st block (56 + i) (u8 (Z.shiftr (u64 (zlen data * 8)) (56 - i * 8)))) blk)) as Hfin.
    { eapply post_conseq.
      { apply (for_post (fun j block => zlen block = 64 /\ forall i, 0 <= i < 56 + j -> zget block i =
          if i <? 56 then zget blk i else Some (u8 (Z.shiftr (8 * zlen data) (56 - (i - 56) * 8))))); [lia| |].
        { split; [done|]. intros i Hi. destruct (Z.ltb_spec i 56); [done|lia]. }
        intros j block Hj (Hbl' & Hj'). rewrite st_ok by lia. cbn [post]. rewrite zlen_zset. split; [done|].
        intros i Hi. rewrite u64_small, (Z.mul_comm (zlen data)) by lia.
        destruct (Z.eq_dec i (56 + j)) as [->|].
        - rewrite zget_zset_eq by lia. destruct (Z.ltb_spec (56 + j) 56); [lia|]. do 4 f_equal. lia.
        - rewrite zget_zset_ne by lia. apply Hj'. lia. }
      intros block [? Hi]. split; [done|]. intros i Hr. apply Hi. lia. }
    apply total_Ok in Hfin as (block & -> & Hlb & Hbi). f_equal. apply Hext; [done|].
    intros i Hi. rewrite Hbi by done. destruct (Z.ltb_spec i 56).
    + rewrite Hblk by done. destruct (Z.ltb_spec (b * 64 + i) (zlen data)); [by rewrite pad_data by lia|].
      destruct (Z.eqb_spec (b * 64 + i) (zlen data)) as [->|]; [by rewrite pad_mark|].
      rewrite pad_zero by lia. done.
    + replace (b * 64 + i) with (64 * msg_blocks data - 8 + (i - 56)) by lia. by rewrite pad_len by lia.
  - f_equal. apply Hext; [done|]. intros i Hi. rewrite Hblk by done.
    destruct (Z.ltb_spec (b * 64 + i) (zlen data)); [by rewrite pad_data by lia|].
    destruct (Z.eqb_spec (b * 64 + i) (zlen data)) as [->|]; [by rewrite pad_mark|].
    rewrite pad_zero; [done|]. unfold msg_blocks, msg_total. mlia.
Qed.

(** ** The code's word operations are those of the standard *)

Definition is_word (x : Z) : Prop := 0 <= x < 2 ^ 32.

Lemma u32_word x : is_word (u32 x).
Proof. unfold is_word, u32. apply Z.mod_pos_bound. lia. Qed.

Lemma word_eq x y : is_word x -> is_word y -> (forall i, 0 <= i < 32 -> Z.testbit x i = Z.testbit y i) -> x = y.
Proof.
  intros Hx Hy H. apply Z.bits_inj'. intros i Hi. destruct (Z_lt_le_dec i 32); [by apply H|].
  by rewrite (small_bits x 32), (small_bits y 32).
Qed.

Lemma word_of_range f : is_word (Fips.word_of f).
Proof. unfold is_word, Fips.word_of. pose proof (bits_z_range (f <$> seqZ 0 32)) as H. rewrite length_fmap, length_seqZ in H. exact H. Qed.

Lemma word_of_bit f i : 0 <= i < 32 -> Z.testbit (Fips.word_of f) i = f i.
Proof.
  intros Hi. unfold Fips.word_of. rewrite testbit_bits_z, list_lookup_fmap, lookup_seqZ_lt by lia. cbn. f_equal. lia.
Qed.

Lemma bits_word x : (forall i, 32 <= i -> Z.testbit x i = false) -> 0 <= x -> is_word x.
Proof.
  intros H Hx. unfold is_word. assert (x mod 2 ^ 32 = x) as <-; [|apply Z.mod_pos_bound; lia].
  apply Z.bits_inj'. intros i Hi. destruct (Z_lt_le_dec i 32).
  - by rewrite Z.mod_pow2_bits_low by lia.
  - rewrite Z.mod_pow2_bits_high by lia. symmetry. by apply H.
Qed.

Lemma lxor_word x y : is_word x -> is_word y -> is_word (Z.lxor x y).
Proof.
  intros Hx Hy. unfold is_word in *. apply bits_word.
  - intros i Hi. by rewrite Z.lxor_spec, (small_bits x 32), (small_bits y 32).
  - apply Z.lxor_nonneg. lia.
Qed.

Lemma land_word x y : is_word x -> is_word y -> is_word (Z.land x y).
Proof.
  intros Hx Hy. unfold is_word in *. apply bits_word.
  - intros i Hi. by rewrite Z.land_spec, (small_bits x 32).
  - apply Z.land_nonneg. lia.
Qed.

Lemma parity_spec x y z : is_word x -> is_word y -> is_word z -> Z.lxor (Z.lxor x y) z = Fips.Parity x y z.
Proof.
  intros Hx Hy Hz. apply word_eq; [by repeat apply lxor_word|apply word_of_range|]. intros i Hi.
  unfold Fips.Parity. rewrite word_of_bit, !Z.lxor_spec by done. by destruct (Z.testbit x i), (Z.testbit y i), (Z.testbit z i).
Qed.

Lemma maj_spec x y z : is_word x -> is_word y -> is_word z ->
  Z.lxor (Z.lxor (Z.land x y) (Z.land x z)) (Z.land y z) = Fips.Maj x y z.
Proof.
  intros Hx Hy Hz. apply word_eq; [by repeat apply lxor_word; apply land_word|apply word_of_range|]. intros i Hi.
  unfold Fips.Maj. rewrite word_of_bit, !Z.lxor_spec, !Z.land_spec by done. by destruct (Z.testbit x i), (Z.testbit y i), (Z.testbit z i).
Qed.

Lemma u32_lnot_bit x i : 0 <= i < 32 -> Z.testbit (u32 (Z.lnot x)) i = negb (Z.testbit x i).
Proof. intros Hi. unfold u32. change 4294967296 with (2 ^ 32). rewrite Z.mod_pow2_bits_low, Z.lnot_spec by lia. done. Qed.

Lemma ch_spec x y z : is_word x -> is_word y -> is_word z ->
  Z.lxor (Z.land x y) (Z.land (u32 (Z.lnot x)) z) = Fips.Ch x y z.
Proof.
  intros Hx Hy Hz. apply word_eq; [apply lxor_word; apply land_word; try done; apply u32_word|apply word_of_range|]. intros i Hi.
  unfold Fips.Ch. rewrite word_of_bit, Z.lxor_spec, !Z.land_spec, u32_lnot_bit by done. by destruct (Z.testbit x i), (Z.testbit y i), (Z.testbit z i).
Qed.

Lemma rotr_word n x : 0 <= n <= 32 -> is_word x -> is_word (Fips.ROTR n x).
Proof.
  intros Hn Hx. unfold is_word, Fips.ROTR in *. assert (2 ^ 32 = 2 ^ n * 2 ^ (32 - n)) as E by (rewrite <- Z.pow_add_r by lia; f_equal; lia).
  pose proof (Z.mod_pos_bound x (2 ^ n) ltac:(lia)). pose proof (Z.div_pos x (2 ^ n) ltac:(lia) ltac:(lia)).
  assert (x / 2 ^ n < 2 ^ (32 - n)) by (apply Z.div_lt_upper_bound; lia). nia.
Qed.

Lemma shr_word n x : 0 <= n -> is_word x -> is_word (Fips.SHR n x).
Proof.
  intros Hn Hx. unfold is_word, Fips.SHR in *. split; [apply Z.div_pos; lia|]. apply Z.div_lt_upper_bound; nia.
Qed.

Lemma ror_spec n x : 0 <= n <= 32 -> is_word x -> ror x n = Fips.ROTR n x.
Proof.
  intros Hn Hx. unfold ror, Fips.ROTR, u32, is_word in *.
  assert (2 ^ 32 = 2 ^ n * 2 ^ (32 - n)) as E by (rewrite <- Z.pow_add_r by lia; f_equal; lia).
  change 4294967296 with (2 ^ 32). rewrite Z.shiftl_mul_pow2, Z.shiftr_div_pow2, E, Z.mul_mod_distr_r by lia.
  rewrite <- Z.shiftl_mul_pow2, lor_shift_add, Z.shiftl_mul_pow2 by first [lia | apply Z.mod_pos_bound; lia | split; [apply Z.div_pos; lia|apply Z.div_lt_upper_bound; lia]].
  lia.
Qed.

Lemma add_word x y : is_word (Fips.add x y).
Proof. apply u32_word. Qed.

(** The code reduces a sum once, the standard after each addition. *)
Lemma add_flat x y z : Fips.add (Fips.add x y) z = Fips.add x (y + z).
Proof. unfold Fips.add. rewrite Zplus_mod_idemp_l. f_equal. lia. Qed.

#[local] Hint Resolve u32_word add_word rotr_word shr_word : sha.
#[local] Hint Extern 1 (0 <= _ <= 32) => lia : sha.
#[local] Hint Extern 1 (0 <= _) => lia : sha.

Lemma sched_word_spec x15 x2 x16 x7 :
  is_word x15 -> is_word x2 ->
  sched_word x15 x2 x16 x7 = Fips.add (Fips.add (Fips.add (Fips.sigma1 x2) x7) (Fips.sigma0 x15)) x16.
Proof.
  intros H15 H2. unfold sched_word. rewrite !ror_spec, !Z.shiftr_div_pow2 by auto with sha lia.
  fold (Fips.SHR 3 x15) (Fips.SHR 10 x2). rewrite !parity_spec by auto with sha. fold (Fips.sigma0 x15) (Fips.sigma1 x2).
  rewrite !add_flat. unfold Fips.add, u32. change 4294967296 with (2 ^ 32). f_equal. lia.
Qed.

Definition words (r : regs) : Prop :=
  is_word (ra r) /\ is_word (rb r) /\ is_word (rc r) /\ is_word (rd r) /\ is_word (re r) /\ is_word (rf r) /\ is_word (rg r) /\ is_word (rh r).

Definition vars_of (r : regs) : Fips.vars := (ra r, rb r, rc r, rd r, re r, rf r, rg r, rh r).

Lemma round_spec r k w : words r -> words (round r k w) /\ vars_of (round r k w) = turn (vars_of r) (k, w).
Proof.
  intros (Ha & Hb & Hc & Hd & He & Hf & Hg & Hh). unfold round, turn, vars_of. cbn [ra rb rc rd re rf rg rh fst snd].
  rewrite !ror_spec by auto with sha. rewrite !parity_spec by auto with sha. rewrite maj_spec, ch_spec by done.
  fold (Fips.Sigma0 (ra r)) (Fips.Sigma1 (re r)). split.
  { exact (conj (u32_word _) (conj Ha (conj Hb (conj Hc (conj (u32_word _) (conj He (conj Hf Hg))))))). }
  assert (forall x y, u32 (x + y) = Fips.add x y) as Hadd by reflexivity. by rewrite <- !Z.add_assoc, !Hadd, !add_flat, <- !Z.add_assoc.
Qed.

Lemma fold_rounds l r :
  words r -> words (foldl (fun r kw => round r (fst kw) (snd kw)) r l) /\
  vars_of (foldl (fun r kw => round r (fst kw) (snd kw)) r l) = foldl turn (vars_of r) l.
Proof.
  revert r. induction l as [|[k w] l IH]; intros r Hr; [done|]. cbn [foldl fst snd].
  destruct (round_spec r k w Hr) as [Hw <-]. by apply IH.
Qed.

Lemma add_regs_spec h r : words (add_regs h r) /\ vars_of (add_regs h r) = Fips.sum (vars_of h) (vars_of r).
Proof. split; [|done]. repeat (refine (conj (u32_word _) _)). apply u32_word. Qed.

(** The tables of the code are the fractional bits of the roots of the
    primes. *)
Lemma constants_spec : K = Kt /\ vars_of h0 = Fips.H0 /\ words h0.
Proof. split; [vm_compute; reflexivity|]. split; [vm_compute; reflexivity|]. unfold words, is_word. cbn. lia. Qed.

Lemma digest_spec h : words h -> digest_of h = Fips.digest (vars_of h).
Proof.
  assert (forall x, is_word x -> be_word x = big_endian 4 x) as H.
  { intros x Hx. apply zget_ext; [done|]. intros i Hi. change (zlen (be_word x)) with 4 in Hi.
    rewrite big_endian_get by (cbn; lia). assert (i = 0 \/ i = 1 \/ i = 2 \/ i = 3) as [->|[->|[->| ->]]] by lia; done. }
  intros (Ha & Hb & Hc & Hd & He & Hf & Hg & Hh). unfold digest_of, Fips.digest, vars_of. cbn [mbind list_bind].
  by rewrite !H, app_nil_r.
Qed.

(** ** The schedule and the rounds *)

Definition word_at (l : list Z) (i : Z) : Z :=
  ((at_ l (i * 4) * 256 + at_ l (i * 4 + 1)) * 256 + at_ l (i * 4 + 2)) * 256 + at_ l (i * 4 + 3).

Lemma be_words_spec n l : (4 * n <= length l)%nat -> be_words n l = word_at l <$> seqZ 0 (Z.of_nat n).
Proof.
  revert l. induction n as [|n IH]; intros l Hl; [by destruct l|].
  destruct l as [|b0 [|b1 [|b2 [|b3 l]]]]; simpl in Hl; try lia.
  rewrite seqZ_cons by lia. cbn [be_words]. rewrite fmap_cons. f_equal.
  rewrite IH by lia. replace (Z.pred (Z.of_nat (S n))) with (Z.of_nat n) by lia.
  change (Z.succ 0) with (1 + 0). rewrite <- fmap_add_seqZ, <- list_fmap_compose. apply list_fmap_ext.
  intros k x Hk. apply lookup_seqZ in Hk as [-> _]. unfold compose, word_at, at_.
  assert (forall j, 0 <= j -> zget (b0 :: b1 :: b2 :: b3 :: l) (j + 4) = zget l j) as Hs.
  { intros j Hj. unfold zget. zcases. by replace (Z.to_nat (j + 4)) with (S (S (S (S (Z.to_nat j))))) by lia. }
  replace ((1 + (0 + Z.of_nat k)) * 4) with (Z.of_nat k * 4 + 4) by lia.
  rewrite Z.add_0_l, <- !(Z.add_assoc _ 4), !(Z.add_comm 4), !Z.add_assoc, !Hs by lia. done.
Qed.

Lemma be_word_lor b0 b1 b2 b3 :
  is_byte b0 -> is_byte b1 -> is_byte b2 -> is_byte b3 ->
  Z.lor (Z.lor (Z.lor (u32 (Z.shiftl b0 24)) (u32 (Z.shiftl b1 16))) (u32 (Z.shiftl b2 8))) b3 =
  ((b0 * 256 + b1) * 256 + b2) * 256 + b3.
Proof.
  unfold is_byte. intros H0 H1 H2 H3.
  rewrite !u32_small by (rewrite Z.shiftl_mul_pow2 by lia; lia).
  rewrite (Z.lor_comm _ b3), (Z.lor_comm _ (Z.shiftl b2 8)), (Z.lor_comm _ (Z.shiftl b1 16)).
  assert (Z.lor (Z.shiftl b2 8) (Z.lor (Z.shiftl b1 16) (Z.shiftl b0 24)) = Z.shiftl (Z.lor b2 (Z.shiftl (Z.lor b1 (Z.shiftl b0 8)) 8)) 8) as ->.
  { rewrite !Z.shiftl_lor, !Z.shiftl_shiftl by lia. done. }
  rewrite (lor_shift_add b1 b0 8), (lor_shift_add b2 _ 8), (lor_shift_add b3 _ 8) by lia.
  change (2 ^ 8) with 256. lia.
Qed.

Lemma at_ld l i : 0 <= i < zlen l -> ld l i = Ok (at_ l i).
Proof. intros Hi. destruct (zget_in_range l i Hi) as [v Hv]. unfold at_. rewrite Hv. by apply ld_ok. Qed.

Lemma at_byte l i : Forall is_byte l -> is_byte (at_ l i).
Proof. intros Hl. unfold at_. destruct (zget l i) eqn:E; [by eapply Forall_zget|done]. Qed.

(** An array of 64 words of which the first are set. *)
Definition filled (acc : list Z) : list Z := acc ++ replicate (Z.to_nat 64 - length acc) 0.

Lemma at_filled acc i : 0 <= i < zlen acc -> at_ (filled acc) i = at_ acc i.
Proof. intros Hi. unfold at_, filled. by rewrite zget_app_l by lia. Qed.

Lemma zlen_filled acc : zlen acc <= 64 -> zlen (filled acc) = 64.
Proof. intros H. unfold filled. rewrite zlen_app, zlen_replicate. unfold zlen in *. lia. Qed.

Lemma extend_length n w : zlen (extend n w) = zlen w + Z.of_nat n.
Proof. revert w. induction n as [|n IH]; intros w; cbn [extend]; [lia|]. rewrite IH, zlen_snoc. lia. Qed.

Lemma extend_snoc n w :
  extend (S n) w = let v := extend n w in let t := zlen v in
    v ++ [Fips.add (Fips.add (Fips.add (Fips.sigma1 (at_ v (t - 2))) (at_ v (t - 7))) (Fips.sigma0 (at_ v (t - 15)))) (at_ v (t - 16))].
Proof.
  revert w. induction n as [|n IH]; intros w; [done|].
  change (extend (S (S n)) w) with (extend (S n) (w ++ [Fips.add (Fips.add (Fips.add (Fips.sigma1 (at_ w (zlen w - 2)))
    (at_ w (zlen w - 7))) (Fips.sigma0 (at_ w (zlen w - 15)))) (at_ w (zlen w - 16))])). rewrite IH. done.
Qed.

Lemma extend_words n w : Forall is_word w -> Forall is_word (extend n w).
Proof.
  intros Hw. induction n as [|n IH]; [done|]. rewrite extend_snoc. cbv zeta. apply Forall_app_2; [done|].
  apply Forall_singleton, add_word.
Qed.

Lemma at_word w i : Forall is_word w -> is_word (at_ w i).
Proof. intros Hw. unfold at_. destruct (zget w i) eqn:E; [by eapply Forall_zget|unfold is_word; cbn; lia]. Qed.

Lemma load_words_spec block :
  Forall is_byte block -> zlen block = 64 ->
  total (fun w => w = filled (be_words 16 block)) (for_ 0 16 (load_word block) (replicate 64 0)).
Proof.
  intros Hby Hlen. rewrite be_words_spec by (unfold zlen in Hlen; lia).
  apply (for_post (fun i w => w = filled (word_at block <$> seqZ 0 i))); [lia|done|].
  intros i w Hi ->. unfold load_word. rewrite !at_ld by lia. rewrite !Ok_bind.
  rewrite be_word_lor by by apply at_byte. fold (word_at block i).
  assert (zlen (word_at block <$> seqZ 0 i) = i) as Hz.
  { unfold zlen. rewrite length_fmap, length_seqZ. lia. }
  unfold filled. rewrite st_append by lia. cbn [post].
  rewrite seqZ_app by lia. rewrite fmap_app. done.
Qed.

Lemma extend_words_spec w0 :
  zlen w0 = 16 -> Forall is_word w0 ->
  total (fun w => w = filled (extend (Z.to_nat (64 - 16)) w0)) (for_ 16 64 extend_word (filled w0)).
Proof.
  intros H16 Hw0. apply (for_post (fun i w => w = filled (extend (Z.to_nat (i - 16)) w0))); [lia|done|].
  intros i w Hi ->. set (v := extend (Z.to_nat (i - 16)) w0).
  assert (zlen v = i) as Hv by (unfold v; rewrite extend_length; lia).
  unfold extend_word. rewrite !at_ld by (rewrite zlen_filled; lia). rewrite !Ok_bind, !at_filled by lia.
  assert (Forall is_word v) as Hvw by by apply extend_words.
  rewrite sched_word_spec by by apply at_word.
  unfold filled. rewrite st_append by lia. cbn [post].
  replace (Z.to_nat (i + 1 - 16)) with (S (Z.to_nat (i - 16))) by lia.
  rewrite extend_snoc. fold v. cbv zeta. by rewrite Hv.
Qed.

Lemma filled_full v : zlen v = 64 -> filled v = v.
Proof.
  intros Hv. unfold filled, zlen in *. replace (Z.to_nat 64 - length v)%nat with 0%nat by lia. apply app_nil_r.
Qed.

Lemma be_words_length block : zlen block = 64 -> zlen (be_words 16 block) = 16.
Proof.
  intros Hlen. rewrite be_words_spec by (unfold zlen in Hlen; lia). unfold zlen. by rewrite length_fmap, length_seqZ.
Qed.

Lemma be_words_words n block : Forall is_byte block -> Forall is_word (be_words n block).
Proof.
  revert block. induction n as [|n IH]; intros block Hb; [by destruct block|]. destruct block as [|b0 [|b1 [|b2 [|b3 l]]]]; try apply Forall_nil_2.
  rewrite !list.Forall_cons in Hb. destruct Hb as (H0 & H1 & H2 & H3 & Hl). apply Forall_cons_2; [|by apply IH].
  unfold is_word, is_byte in *. lia.
Qed.

Lemma schedule_spec block :
  Forall is_byte block -> zlen block = 64 ->
  schedule block = Ok (extend (Z.to_nat (64 - 16)) (be_words 16 block)).
Proof.
  intros Hby Hlen. unfold schedule.
  destruct (proj1 (total_Ok _ _) (load_words_spec block Hby Hlen)) as (w & E & ->). rewrite E, Ok_bind. clear E.
  pose proof (be_words_length block Hlen) as Hw16. pose proof (be_words_words 16 block Hby) as Hww.
  revert Hw16 Hww. generalize (be_words 16 block). intros w0 Hw16 Hww.
  destruct (proj1 (total_Ok _ _) (extend_words_spec w0 Hw16 Hww)) as (w & E & ->). rewrite E. clear E. f_equal.
  apply filled_full. rewrite extend_length. lia.
Qed.

Lemma rounds_spec w h :
  zlen w = 64 -> rounds w h = Ok (foldl (fun r kw => round r (fst kw) (snd kw)) h (zip K w)).
Proof.
  intros Hw. unfold rounds, for_. change (Z.to_nat (64 - 0)) with 64%nat.
  cut (forall n i r, i + Z.of_nat n = 64 -> 0 <= i ->
    for_from n i (fun i r => k ← ld K i; x ← ld w i; Ok (round r k x)) r =
    Ok (foldl (fun r kw => round r (fst kw) (snd kw)) r (zip (drop (Z.to_nat i) K) (drop (Z.to_nat i) w)))).
  { intros H. rewrite H by lia. done. }
  assert (forall (l : list Z) i, 0 <= i < zlen l -> drop (Z.to_nat i) l = at_ l i :: drop (Z.to_nat (i + 1)) l) as Hdrop.
  { intros l i Hi. destruct (zget_in_range l i Hi) as [v Hv]. unfold at_. rewrite Hv. unfold zget in Hv.
    destruct (Z.leb_spec 0 i); [|lia]. replace (Z.to_nat (i + 1)) with (S (Z.to_nat i)) by lia. by apply drop_S. }
  assert (zlen K = 64) as HK by done.
  induction n as [|n IH]; intros i r Hi H0; cbn [for_from].
  - rewrite !drop_ge by (unfold zlen in *; lia). done.
  - rewrite !at_ld by lia. rewrite !Ok_bind, IH by lia.
    rewrite (Hdrop K i), (Hdrop w i) by lia. done.
Qed.

Lemma process_block_spec data b h :
  Forall is_byte data -> zlen data < 2 ^ 60 -> 0 <= b < msg_blocks data -> words h ->
  exists h', process_block data b h = Ok h' /\ words h' /\
    vars_of h' = Fips.compress (vars_of h) (take 64 (drop (Z.to_nat (b * 64)) (pad data))).
Proof.
  intros Hby Hbig Hb Hh. unfold process_block. rewrite get_block_spec, Ok_bind by done.
  assert (Forall is_byte (pad data)) as Hpb.
  { unfold pad. repeat apply Forall_app_2; [done|by repeat constructor|by apply Forall_replicate|].
    generalize 8%nat. intros n. induction n as [|n IH]; [done|]. apply Forall_cons_2; [apply u8_range|done]. }
  set (block := take 64 _). assert (zlen block = 64) as Hbl.
  { pose proof (pad_length data). unfold block, zlen in *. rewrite length_take, length_drop. lia. }
  rewrite schedule_spec, Ok_bind; [|by apply Forall_take, Forall_drop|done].
  rewrite rounds_spec by (rewrite extend_length, be_words_length; [done|exact Hbl]). rewrite Ok_bind.
  eexists. split; [reflexivity|]. destruct (fold_rounds (zip K (extend (Z.to_nat (64 - 16)) (be_words 16 block))) h Hh) as [_ Hv].
  destruct (add_regs_spec h (foldl (fun r kw => round r (fst kw) (snd kw)) h (zip K (extend (Z.to_nat (64 - 16)) (be_words 16 block))))) as [Hw ->].
  split; [exact Hw|]. rewrite Hv. unfold Fips.compress. by rewrite (proj1 constants_spec).
Qed.

Lemma process_blocks_spec data n i h :
  Forall is_byte data -> zlen data < 2 ^ 60 -> i + Z.of_nat n = msg_blocks data -> 0 <= i -> words h ->
  exists h', for_from n i (process_block data) h = Ok h' /\ words h' /\
    vars_of h' = foldl Fips.compress (vars_of h) (chunks n (drop (Z.to_nat (i * 64)) (pad data))).
Proof.
  intros Hby Hbig. revert i h. induction n as [|n IH]; intros i h Hi H0 Hh; cbn [for_from chunks]; [by exists h|].
  destruct (process_block_spec data i h Hby Hbig ltac:(lia) Hh) as (h1 & -> & Hw1 & E1). rewrite Ok_bind.
  destruct (IH (i + 1) h1 ltac:(lia) ltac:(lia) Hw1) as (h' & E & Hw & Ev). exists h'. split; [exact E|]. split; [exact Hw|].
  rewrite Ev, E1. cbn [foldl]. rewrite drop_drop. do 3 f_equal. lia.
Qed.

(** C26: [sha256] is SHA-256 of FIPS 180-4: for every byte string of fewer
    than [2 ^ 60] bytes the digest computed block by block, without copying the
    message, is the one the standard defines. The standard's definition
    [Fips.hash] is independent of the code: its constants are the fractional
    bits of the roots of the primes, its functions are given bit by bit. *)
Theorem sha256_correct data :
  Forall is_byte data -> zlen data < 2 ^ 60 -> sha256 data = Ok (Fips.hash data).
Proof.
  intros Hby Hbig. unfold sha256, Fips.hash, for_. rewrite pad_length, Z.sub_0_r.
  rewrite (Z.mul_comm 64), Z.div_mul by lia.
  assert (0 <= msg_blocks data).
  { unfold msg_blocks, msg_total. pose proof (zlen_nonneg data). apply Z.div_pos; lia. }
  destruct constants_spec as (_ & E0 & Hw0).
  destruct (process_blocks_spec data (Z.to_nat (msg_blocks data)) 0 h0 Hby Hbig ltac:(lia) ltac:(lia) Hw0) as (h & -> & Hw & Ev).
  rewrite Ok_bind, digest_spec, Ev, E0 by done. done.
Qed.

Lemma sha256_correct_witness :
  sha256 [97;98;99] = Ok
    [186;120;22;191;143;1;207;234;65;65;64;222;93;174;34;35;
     176;3;97;163;150;23;122;156;180;16;255;97;242;0;21;173].
Proof.
  rewrite (sha256_correct [97;98;99]).
  - vm_compute. reflexivity.
  - apply (bool_decide_unpack _). vm_compute. reflexivity.
  - vm_compute. reflexivity.
Defined.

(** ** Hexadecimal form *)

Definition hex_byte (b : Z) : list Z := [at_ hexd (b / 16); at_ hexd (b mod 16)].
Definition hex_of (d : list Z) : list Z := d ≫= hex_byte.

Definition hex_val (c : Z) : Z := if c <? 58 then c - 48 else c - 87.

Fixpoint unhex (s : list Z) : list Z :=
  match s with
  | a :: b :: s' => (hex_val a * 16 + hex_val b) :: unhex s'
  | _ => []
  end.

Lemma hex_digit k : 0 <= k < 16 -> ld hexd k = Ok (at_ hexd k) /\ hex_val (at_ hexd k) = k.
Proof.
  intros Hk. assert (Forall (fun k => ld hexd k = Ok (at_ hexd k) /\ hex_val (at_ hexd k) = k) (seqZ 0 16)) as H
    by (repeat constructor).
  rewrite list.Forall_forall in H. apply H, elem_of_seqZ. lia.
Qed.

Lemma unhex_hex d : Forall is_byte d -> unhex (hex_of d) = d.
Proof.
  induction 1 as [|b d Hb Hd IH]; [done|]. unfold hex_of. cbn [mbind list_bind hex_byte app unhex]. fold (hex_of d).
  unfold is_byte in Hb. destruct (hex_digit (b / 16) ltac:(mlia)) as [_ ->].
  destruct (hex_digit (b mod 16) ltac:(mlia)) as [_ ->]. rewrite IH. f_equal. mlia.
Qed.

Lemma zlen_hex d : zlen (hex_of d) = 2 * zlen d.
Proof.
  induction d as [|b d IH]; [done|]. unfold hex_of in *. cbn [mbind list_bind hex_byte app].
  unfold zlen in *. simpl. lia.
Qed.

(** The hexadecimal form of a digest is 64 digits and a NUL, and reading
    the digits back gives the digest. *)
Theorem sha256_hex_roundtrip d :
  Forall is_byte d -> zlen d = 32 ->
  exists s, sha256_hex d = Ok (s ++ [0]) /\ zlen s = 64 /\ unhex s = d.
Proof.
  intros Hby Hlen. exists (hex_of d). split; [|split; [rewrite zlen_hex; lia|by apply unhex_hex]].
  unfold sha256_hex.
  assert (total (fun buf => buf = hex_of (take (Z.to_nat 32) d) ++ replicate (Z.to_nat 65 - length (hex_of (take (Z.to_nat 32) d))) 0)
    (for_ 0 32 (fun i buf =>
      d ← ld d i; hi ← ld hexd (Z.shiftr d 4); buf ← st buf (i * 2) hi;
      lo ← ld hexd (Z.land d 15); st buf (i * 2 + 1) lo) (replicate 65 0))) as (buf & -> & ->)%total_Ok.
  { apply (for_post (fun i buf => buf = hex_of (take (Z.to_nat i) d) ++
      replicate (Z.to_nat 65 - length (hex_of (take (Z.to_nat i) d))) 0)); [lia|done|].
    intros i buf Hi ->. destruct (zget_in_range d i ltac:(lia)) as [b Hb]. rewrite (ld_ok _ _ _ Hb), Ok_bind.
    pose proof (Forall_zget _ _ _ _ Hby Hb) as Hbr. unfold is_byte in Hbr.
    rewrite Z.shiftr_div_pow2 by lia. change 15 with (Z.ones 4). rewrite Z.land_ones by lia. change (2 ^ 4) with 16.
    destruct (hex_digit (b / 16) ltac:(mlia)) as [-> _]. destruct (hex_digit (b mod 16) ltac:(mlia)) as [-> _].
    rewrite (take_zget d i b) by (done || lia). rewrite !Ok_bind.
    assert (zlen (hex_of (take (Z.to_nat i) d)) = 2 * i) as Hz.
    { rewrite zlen_hex. unfold zlen in *. rewrite length_take. lia. }
    assert (hex_of (take (Z.to_nat i) d ++ [b]) = hex_of (take (Z.to_nat i) d) ++ hex_byte b) as ->
      by (unfold hex_of; rewrite bind_app; done).
    set (P := hex_of _) in *. unfold hex_byte.
    rewrite st_append by lia. rewrite !Ok_bind, st_append by (rewrite ?zlen_snoc; lia). cbn [post].
    rewrite <- !app_assoc. done. }
  rewrite Ok_bind, take_ge by (unfold zlen in Hlen; lia). rewrite st_append by (rewrite ?zlen_hex; lia).
  f_equal. pose proof (zlen_hex d) as Hz. rewrite Hlen in Hz. unfold zlen in Hz. rewrite length_app.
  replace (Z.to_nat 65 - _)%nat with 0%nat by (simpl; lia). apply app_nil_r.
Qed.

Lemma sha256_hex_roundtrip_witness :
  exists s, sha256_hex (replicate 32 171) = Ok (s ++ [0]) /\ zlen s = 64 /\ unhex s = replicate 32 171.
Proof.
  apply (sha256_hex_roundtrip (replicate 32 171)).
  - apply (bool_decide_unpack _). vm_compute. reflexivity.
  - reflexivity.
Defined.
