(* ===== verification/CString.v ===== *)
(** * CString: the string and memory routines of src/src/kernel/lib/string.c

    Pointers are indices into one byte array, so that source and destination
    may overlap as in C; [None] is NULL. Loads and stores outside the array
    fault. [cstr m p s] says that the bytes [s] and a NUL are at [p]. *)

From S2P Require Import Prelude.

Notation mem := (list Z) (only parsing).

(** ** Operations *)

Fixpoint strlen_from (fuel : nat) (m : mem) (str len : Z) : res Z :=
  match fuel with
  | O => Timeout
  | S fuel' =>
      c ← ld m (str + len);
      if truthy c then strlen_from fuel' m str (len + 1) else Ok len
  end.

(** Every turn of a string loop stays inside the array, so its size bounds
    the turns. *)
Definition fuel_of (m : mem) : nat := S (length m).

Definition strlen (m : mem) (str : Z) : res Z := strlen_from (fuel_of m) m str 0.

(** The copy loop of [strcpy] and [strcat], terminator included. *)
Fixpoint copy_str (fuel : nat) (m : mem) (d src : Z) : res mem :=
  match fuel with
  | O => Timeout
  | S fuel' =>
      c ← ld m src;
      m ← st m d c;
      if truthy c then copy_str fuel' m (d + 1) (src + 1) else Ok m
  end.

Definition strcpy (m : mem) (dest src : Z) : res mem := copy_str (fuel_of m) m dest src.

Definition strcat (m : mem) (dest src : Z) : res mem :=
  n ← strlen m dest;
  copy_str (fuel_of m) m (dest + n) src.

(** [char] is signed: the result is a difference of signed values. *)
Fixpoint strcmp_from (fuel : nat) (m : mem) (str1 str2 : Z) : res Z :=
  match fuel with
  | O => Timeout
  | S fuel' =>
      a ← ld m str1;
      b ← ld m str2;
      if truthy a && truthy b && (a =? b) then strcmp_from fuel' m (str1 + 1) (str2 + 1)
      else Ok (s8 a - s8 b)
  end.

Definition strcmp (m : mem) (str1 str2 : Z) : res Z := strcmp_from (fuel_of m) m str1 str2.

Fixpoint strchr_from (fuel : nat) (m : mem) (str c : Z) : res (option Z) :=
  match fuel with
  | O => Timeout
  | S fuel' =>
      x ← ld m str;
      if truthy x && negb (s8 x =? c) then strchr_from fuel' m (str + 1) c
      else Ok (if s8 x =? c then Some str else None)
  end.

Definition strchr (m : mem) (str c : Z) : res (option Z) := strchr_from (fuel_of m) m str c.

(** Is the character at [str] in the delimiter string? *)
Fixpoint delim_match (fuel : nat) (m : mem) (x d : Z) : res bool :=
  match fuel with
  | O => Timeout
  | S fuel' =>
      y ← ld m d;
      if truthy y then (if x =? y then Ok true else delim_match fuel' m x (d + 1)) else Ok false
  end.

Fixpoint skip_delims (fuel : nat) (m : mem) (str delim : Z) : res Z :=
  match fuel with
  | O => Timeout
  | S fuel' =>
      x ← ld m str;
      if truthy x then
        b ← delim_match (fuel_of m) m x delim;
        if (b : bool) then skip_delims fuel' m (str + 1) delim else Ok str
      else Ok str
  end.

(** Scan a token from [start]: (memory, state, start). *)
Fixpoint scan_token (fuel : nat) (m : mem) (start str delim : Z) : res (mem * option Z * option Z) :=
  match fuel with
  | O => Timeout
  | S fuel' =>
      x ← ld m str;
      if truthy x then
        b ← delim_match (fuel_of m) m x delim;
        if (b : bool) then m ← st m str 0; Ok (m, Some (str + 1), Some start)
        else scan_token fuel' m start (str + 1) delim
      else Ok (m, None, Some start)
  end.

(** (memory, [strtok_state], returned pointer) *)
Definition strtok (m : mem) (state str : option Z) (delim : Z) : res (mem * option Z * option Z) :=
  match (match str with None => state | Some p => Some p end) with
  | None => Ok (m, state, None)
  | Some p =>
      p ← skip_delims (fuel_of m) m p delim;
      x ← ld m p;
      if x =? 0 then Ok (m, state, None)
      else scan_token (fuel_of m) m p p delim
  end.

Definition memset (m : mem) (ptr value num : Z) : res mem :=
  for_ 0 num (fun i m => st m (ptr + i) (u8 value)) m.

Definition memcpy (m : mem) (dest src num : Z) : res mem :=
  for_ 0 num (fun i m => c ← ld m (src + i); st m (dest + i) c) m.

Fixpoint strncmp_from (fuel : nat) (m : mem) (str1 str2 num : Z) : res Z :=
  match fuel with
  | O => Timeout
  | S fuel' =>
      if num =? 0 then Ok 0
      else
        a ← ld m str1;
        b ← ld m str2;
        if truthy a && truthy b && (a =? b) then strncmp_from fuel' m (str1 + 1) (str2 + 1) (num - 1)
        else Ok (s8 a - s8 b)
  end.

Definition strncmp (m : mem) (str1 str2 num : Z) : res Z :=
  strncmp_from (fuel_of m) m str1 str2 num.

Fixpoint copy_strn (fuel : nat) (m : mem) (d src num : Z) : res (mem * Z * Z) :=
  match fuel with
  | O => Timeout
  | S fuel' =>
      if num =? 0 then Ok (m, d, num)
      else
        c ← ld m src;
        if truthy c then m ← st m d c; copy_strn fuel' m (d + 1) (src + 1) (num - 1)
        else Ok (m, d, num)
  end.

Definition strncpy (m : mem) (dest src num : Z) : res mem :=
  r ← copy_strn (fuel_of m) m dest src num;
  let '(m, d, num) := (r : mem * Z * Z) in
  for_ 0 num (fun i m => st m (d + i) 0) m.

Fixpoint strrchr_from (fuel : nat) (m : mem) (str c : Z) (last : option Z) : res (option Z) :=
  match fuel with
  | O => Timeout
  | S fuel' =>
      x ← ld m str;
      if truthy x then strrchr_from fuel' m (str + 1) c (if s8 x =? c then Some str else last)
      else Ok last
  end.

Definition strrchr (m : mem) (str c : Z) : res (option Z) := strrchr_from (fuel_of m) m str c None.

(** The inner loop of [strstr]: the needle's character it stops at. *)
Fixpoint match_at (fuel : nat) (m : mem) (h n : Z) : res Z :=
  match fuel with
  | O => Timeout
  | S fuel' =>
      x ← ld m h;
      y ← ld m n;
      if truthy x && truthy y && (x =? y) then match_at fuel' m (h + 1) (n + 1) else Ok y
  end.

Fixpoint strstr_from (fuel : nat) (m : mem) (haystack needle : Z) : res (option Z) :=
  match fuel with
  | O => Timeout
  | S fuel' =>
      x ← ld m haystack;
      if truthy x then
        y ← match_at (fuel_of m) m haystack needle;
        if y =? 0 then Ok (Some haystack) else strstr_from fuel' m (haystack + 1) needle
      else Ok None
  end.

Definition strstr (m : mem) (haystack needle : Z) : res (option Z) :=
  y ← ld m needle;
  if y =? 0 then Ok (Some haystack) else strstr_from (fuel_of m) m haystack needle.

Definition memmove (m : mem) (dest src num : Z) : res mem :=
  if dest <? src then for_ 0 num (fun i m => c ← ld m (src + i); st m (dest + i) c) m
  else for_ 0 num (fun i m => c ← ld m (src + num - 1 - i); st m (dest + num - 1 - i) c) m.

Fixpoint memcmp_from (n : nat) (m : mem) (p1 p2 : Z) : res Z :=
  match n with
  | O => Ok 0
  | S n' =>
      a ← ld m p1;
      b ← ld m p2;
      if negb (a =? b) then Ok (a - b) else memcmp_from n' m (p1 + 1) (p2 + 1)
  end.

Definition memcmp (m : mem) (ptr1 ptr2 num : Z) : res Z := memcmp_from (Z.to_nat num) m ptr1 ptr2.

(** ** Strings in memory *)

Fixpoint cstr (m : mem) (p : Z) (s : list Z) : Prop :=
  match s with
  | [] => zget m p = Some 0
  | c :: s' => zget m p = Some c /\ 0 < c < 256 /\ cstr m (p + 1) s'
  end.

Lemma cstr_bound m p s : cstr m p s -> 0 <= p /\ p + zlen s < zlen m.
Proof.
  revert p. induction s as [|c s IH]; intros p; cbn [cstr].
  - intros H%zget_Some_range. unfold zlen at 1. simpl. lia.
  - intros (H%zget_Some_range & _ & Hs%IH). unfold zlen in *. simpl. lia.
Qed.

Lemma cstr_fuel m p s : cstr m p s -> (length s < fuel_of m)%nat.
Proof. intros H%cstr_bound. unfold fuel_of, zlen in *. lia. Qed.

Lemma cstr_cons_inv m p c s : cstr m p (c :: s) -> ld m p = Ok c /\ truthy c = true /\ 0 < c < 256 /\ cstr m (p + 1) s.
Proof.
  intros (Hc & Hr & Hs). split_and!; try done; [by apply ld_ok| |lia|lia].
  unfold truthy. by destruct (Z.eqb_spec c 0); [lia|].
Qed.

Lemma cstr_nil_inv m p : cstr m p [] -> ld m p = Ok 0.
Proof. apply ld_ok. Qed.

(** Only the bytes of the string matter. *)
Lemma cstr_frame m m' p s :
  (forall i, p <= i <= p + zlen s -> zget m' i = zget m i) -> cstr m p s -> cstr m' p s.
Proof.
  revert p. induction s as [|c s IH]; intros p Hf; cbn [cstr].
  - intros H. rewrite Hf; [done|]. unfold zlen. simpl. lia.
  - pose proof (zlen_nonneg s). assert (zlen (c :: s) = zlen s + 1) as E by (unfold zlen; simpl; lia).
    rewrite E in Hf. intros (Hc & Hr & Hs). split_and!; try lia; [rewrite Hf; [done|lia]|].
    apply IH; [|done]. intros i Hi. apply Hf. lia.
Qed.

Lemma cstr_app m p s t : cstr m p (s ++ t) <-> (forall i c, zget s i = Some c -> zget m (p + i) = Some c /\ 0 < c < 256)
  /\ cstr m (p + zlen s) t.
Proof.
  revert p. induction s as [|c s IH]; intros p; cbn [app].
  - unfold zlen. simpl. rewrite Z.add_0_r. split; [|tauto].
    intros H. split; [|done]. intros i c Hc%zget_Some_range. unfold zlen in Hc. simpl in Hc. lia.
  - cbn [cstr]. rewrite IH. assert (zlen (c :: s) = zlen s + 1) as -> by (unfold zlen; simpl; lia).
    replace (p + 1 + zlen s) with (p + (zlen s + 1)) by lia. split.
    + intros (Hc & Hr & Hs & Ht). split; [|done]. intros i x Hx.
      destruct (Z.eq_dec i 0) as [->|Hi].
      * change (Some c = Some x) in Hx. simplify_eq. rewrite Z.add_0_r. done.
      * pose proof (zget_Some_range _ _ _ Hx). replace (p + i) with (p + 1 + (i - 1)) by lia. apply Hs.
        rewrite <- Hx. unfold zget. zcases. by replace (Z.to_nat i) with (S (Z.to_nat (i - 1))) by lia.
    + intros [Hall Ht]. split_and!; try done.
      * rewrite <- (Z.add_0_r p). by apply Hall.
      * by apply (Hall 0 c).
      * by apply (Hall 0 c).
      * intros i x Hx. pose proof (zget_Some_range _ _ _ Hx). replace (p + 1 + i) with (p + (i + 1)) by lia.
        apply Hall. rewrite <- Hx. unfold zget. zcases. by replace (Z.to_nat (i + 1)) with (S (Z.to_nat i)) by lia.
Qed.

Lemma strlen_from_spec fuel m p s n :
  cstr m (p + n) s -> (length s < fuel)%nat -> strlen_from fuel m p n = Ok (n + zlen s).
Proof.
  revert s n. induction fuel as [|fuel IH]; intros s n Hs Hf; [lia|]. cbn [strlen_from].
  destruct s as [|c s].
  - rewrite (cstr_nil_inv _ _ Hs), Ok_bind. unfold zlen. simpl. f_equal. lia.
  - destruct (cstr_cons_inv _ _ _ _ Hs) as (E & Et & _ & Hs'). simpl in Hf.
    rewrite E, Ok_bind, Et, (IH s); [f_equal; unfold zlen; simpl; lia| |lia]. by rewrite Z.add_assoc.
Qed.

Lemma strlen_spec m p s : cstr m p s -> strlen m p = Ok (zlen s).
Proof.
  intros Hs. unfold strlen. rewrite (strlen_from_spec _ _ _ s); [done| |by eapply cstr_fuel].
  by rewrite Z.add_0_r.
Qed.

(** ** Comparison *)

(** Difference at the first position where the strings differ. *)
Fixpoint str_diff (s t : list Z) : Z :=
  match s, t with
  | [], [] => 0
  | a :: _, [] => s8 a
  | [], b :: _ => - s8 b
  | a :: s', b :: t' => if a =? b then str_diff s' t' else s8 a - s8 b
  end.

Lemma s8_inj a b : 0 <= a < 256 -> 0 <= b < 256 -> s8 a = s8 b -> a = b.
Proof. unfold s8. intros. mlia. Qed.

Lemma s8_nonzero a : 0 < a < 256 -> s8 a <> 0.
Proof. unfold s8. intros. mlia. Qed.

Lemma strcmp_from_spec fuel m p q s t :
  cstr m p s -> cstr m q t -> (length s < fuel)%nat -> strcmp_from fuel m p q = Ok (str_diff s t).
Proof.
  revert p q s t. induction fuel as [|fuel IH]; intros p q s t Hs Ht Hf; [lia|]. cbn [strcmp_from].
  destruct s as [|a s], t as [|b t].
  - rewrite (cstr_nil_inv _ _ Hs), Ok_bind, (cstr_nil_inv _ _ Ht). done.
  - rewrite (cstr_nil_inv _ _ Hs), Ok_bind. destruct (cstr_cons_inv _ _ _ _ Ht) as (-> & _). done.
  - destruct (cstr_cons_inv _ _ _ _ Hs) as (-> & _). rewrite Ok_bind, (cstr_nil_inv _ _ Ht), Ok_bind.
    rewrite andb_false_r. simpl. f_equal. change (s8 0) with 0. lia.
  - destruct (cstr_cons_inv _ _ _ _ Hs) as (E & Et & _ & Hs'). rewrite E, Ok_bind, Et.
    destruct (cstr_cons_inv _ _ _ _ Ht) as (E' & Et' & _ & Ht'). rewrite E', Ok_bind, Et'. cbn [andb str_diff].
    destruct (a =? b); [|done]. apply IH; [done|done|simpl in Hf; lia].
Qed.

Lemma str_diff_zero m p q s t : cstr m p s -> cstr m q t -> str_diff s t = 0 <-> s = t.
Proof.
  revert p q t. induction s as [|a s IH]; intros p q [|b t] Hs Ht; cbn [str_diff]; [done| | |].
  - destruct Ht as (_ & Hb & _). pose proof (s8_nonzero b Hb). split; [lia|done].
  - destruct Hs as (_ & Ha & _). pose proof (s8_nonzero a Ha). split; [lia|done].
  - destruct Hs as (_ & Ha & Hs). destruct Ht as (_ & Hb & Ht). destruct (Z.eqb_spec a b) as [->|Hne].
    + rewrite (IH _ _ _ Hs Ht). split; congruence.
    + pose proof (s8_inj a b). split; [|congruence]. intros Hz. exfalso. apply Hne. apply (s8_inj a b); lia.
Qed.

(** [strcmp] on two strings in memory returns the difference of the first
    characters that differ, as signed [char]s; the result is zero exactly for
    equal strings. *)
Theorem strcmp_correct m p q s t :
  cstr m p s -> cstr m q t ->
  strcmp m p q = Ok (str_diff s t) /\ (str_diff s t = 0 <-> s = t).
Proof.
  intros Hs Ht. split; [|by eapply str_diff_zero].
  apply strcmp_from_spec; [done|done|by eapply cstr_fuel].
Qed.

(** "ab" at 0 and "abc" at 3. *)
Definition ab_abc : mem := [97;98;0;97;98;99;0].

Lemma strcmp_correct_witness : strcmp ab_abc 0 3 = Ok (-99) /\ ([97;98] : list Z) <> [97;98;99].
Proof.
  destruct (strcmp_correct ab_abc 0 3 [97;98] [97;98;99]) as [H1 H2].
  - vm_compute. repeat split; congruence.
  - vm_compute. repeat split; congruence.
  - split; [exact H1|]. rewrite <- H2. vm_compute. congruence.
Defined.

(** ** Copying *)

Definition inside (m : mem) (p n : Z) : Prop := 0 <= p /\ p + n <= zlen m.

(** [m'] is [m] with the [n] bytes at [d] replaced by [f]. *)
Definition patched (m m' : mem) (d n : Z) (f : Z -> option Z) : Prop :=
  zlen m' = zlen m /\ forall i, zget m' i = if (d <=? i) && (i <? d + n) then f (i - d) else zget m i.

(** [memmove] copies between any two ranges, overlapping or not: the
    destination holds what the source held before the call, and nothing else
    changes. *)
Theorem memmove_correct m dest src num :
  0 <= num -> inside m dest num -> inside m src num ->
  total (fun m' => patched m m' dest num (fun i => zget m (src + i))) (memmove m dest src num).
Proof.
  intros Hn [Hd Hd'] [Hs Hs']. unfold memmove, patched. destruct (Z.ltb_spec dest src) as [Hlt|Hge].
  - apply (for_post (fun k m' => zlen m' = zlen m /\ forall i, zget m' i =
      if (dest <=? i) && (i <? dest + k) then zget m (src + (i - dest)) else zget m i)); [lia| |].
    { split; [done|]. intros i. by destruct (Z.leb_spec dest i), (Z.ltb_spec i (dest + 0)); try lia. }
    intros k m' Hk (Hl & Hm). destruct (zget_in_range m' (src + k) ltac:(lia)) as [c Hc].
    rewrite (ld_ok _ _ _ Hc), Ok_bind, st_ok by lia. cbn [post]. rewrite zlen_zset. split; [done|].
    intros i. rewrite zget_zset by lia. rewrite Hm in Hc. rewrite Hm.
    destruct (Z.leb_spec dest (src + k)), (Z.ltb_spec (src + k) (dest + k)); try lia. cbn [andb] in Hc.
    destruct (Z.eqb_spec (dest + k) i) as [<-|Hne].
    + destruct (Z.leb_spec dest (dest + k)), (Z.ltb_spec (dest + k) (dest + (k + 1))); try lia. cbn [andb].
      rewrite <- Hc. f_equal. lia.
    + destruct (Z.leb_spec dest i), (Z.ltb_spec i (dest + k)), (Z.ltb_spec i (dest + (k + 1))); try lia; done.
  - eapply post_conseq; [apply (for_post (fun k m' => zlen m' = zlen m /\ forall i, zget m' i =
      if (dest + num - k <=? i) && (i <? dest + num) then zget m (src + (i - dest)) else zget m i)); [lia| |]|].
    3:{ intros m' (Hl & Hm). split; [done|]. intros i. rewrite Hm. by replace (dest + num - num) with dest by lia. }
    { split; [done|]. intros i. by destruct (Z.leb_spec (dest + num - 0) i), (Z.ltb_spec i (dest + num)); try lia. }
    intros k m' Hk (Hl & Hm). destruct (zget_in_range m' (src + num - 1 - k) ltac:(lia)) as [c Hc].
    rewrite (ld_ok _ _ _ Hc), Ok_bind, st_ok by lia. cbn [post]. rewrite zlen_zset. split; [done|].
    intros i. rewrite zget_zset by lia. rewrite Hm in Hc. rewrite Hm.
    destruct (Z.leb_spec (dest + num - k) (src + num - 1 - k)); [lia|]. cbn [andb] in Hc.
    destruct (Z.eqb_spec (dest + num - 1 - k) i) as [<-|Hne].
    + destruct (Z.leb_spec (dest + num - (k + 1)) (dest + num - 1 - k)),
        (Z.ltb_spec (dest + num - 1 - k) (dest + num)); try lia. cbn [andb]. rewrite <- Hc. f_equal. lia.
    + destruct (Z.leb_spec (dest + num - k) i), (Z.leb_spec (dest + num - (k + 1)) i), (Z.ltb_spec i (dest + num));
        try lia; done.
Qed.

Lemma memmove_correct_witness :
  total (fun m' => patched [1;2;3;4;5] m' 1 4 (fun i => zget [1;2;3;4;5] (0 + i))) (memmove [1;2;3;4;5] 1 0 4) /\
  memmove [1;2;3;4;5] 1 0 4 = Ok [1;1;2;3;4].
Proof.
  split; [|vm_compute; reflexivity].
  apply (memmove_correct [1;2;3;4;5] 1 0 4); [lia| |]; vm_compute; split; congruence.
Defined.

(** The copy loop, when the destination does not reach the source. *)
Lemma copy_str_spec fuel m d p s :
  cstr m p s -> (length s < fuel)%nat -> inside m d (zlen s + 1) ->
  (d + zlen s < p \/ p + zlen s < d) ->
  total (fun m' => patched m m' d (zlen s + 1) (zget (s ++ [0])) /\ cstr m' d s) (copy_str fuel m d p).
Proof.
  revert m d p s. induction fuel as [|fuel IH]; intros m d p s Hs Hf [Hd Hd'] Hdis; [lia|]. cbn [copy_str].
  pose proof (zlen_nonneg s) as Hz.
  destruct s as [|c s].
  - rewrite (cstr_nil_inv _ _ Hs), Ok_bind. change (zlen (@nil Z)) with 0 in *. rewrite st_ok, Ok_bind by lia.
    unfold total. cbn [truthy Z.eqb negb post cstr]. split; [|apply zget_zset_eq; lia].
    split; [apply zlen_zset|]. intros i. rewrite zget_zset by lia.
    change (0 + 1) with 1.
    destruct (Z.eqb_spec d i) as [Hdi|], (Z.leb_spec d i), (Z.ltb_spec i (d + 1)); try lia; try done.
    subst i. by rewrite Z.sub_diag.
  - assert (zlen (c :: s) = zlen s + 1) as E by (unfold zlen; simpl; lia). rewrite E in *.
    pose proof (zlen_nonneg s).
    destruct (cstr_cons_inv _ _ _ _ Hs) as (E1 & E2 & Hr & Hs'). simpl in Hf. rewrite E1, Ok_bind, st_ok, Ok_bind, E2 by lia.
    eapply post_conseq.
    { apply (IH (zset m d c) (d + 1) (p + 1) s); [|lia|unfold inside; rewrite zlen_zset; lia|lia].
      eapply cstr_frame; [|exact Hs']. intros i Hi. apply zget_zset_ne. lia. }
    intros m' [[Hl Hp] Hc]. split; [split|].
    + by rewrite Hl, zlen_zset.
    + intros i. rewrite Hp, zget_zset by lia. cbn [app].
      destruct (Z.eqb_spec d i) as [<-|Hne].
      * destruct (Z.leb_spec (d + 1) d), (Z.leb_spec d d), (Z.ltb_spec d (d + (zlen s + 1 + 1))); try lia. cbn [andb].
        by rewrite Z.sub_diag.
      * destruct (Z.leb_spec (d + 1) i), (Z.leb_spec d i), (Z.ltb_spec i (d + 1 + (zlen s + 1))),
          (Z.ltb_spec i (d + (zlen s + 1 + 1))); try lia; cbn [andb]; try done.
        unfold zget. destruct (Z.leb_spec 0 (i - (d + 1))), (Z.leb_spec 0 (i - d)); try lia.
        by replace (Z.to_nat (i - d)) with (S (Z.to_nat (i - (d + 1)))) by lia.
    + cbn [cstr]. split_and!; try done; try lia. rewrite Hp, zget_zset_eq by lia.
      by destruct (Z.leb_spec (d + 1) d); [lia|].
Qed.

(** [strcat] appends: after it the destination holds the concatenation,
    and only the bytes of the appended part and its terminator have changed.
    [strcpy] is the case of an empty destination. *)
Theorem strcat_correct m d p s t :
  cstr m d s -> cstr m p t -> inside m (d + zlen s) (zlen t + 1) ->
  (d + zlen s + zlen t < p \/ p + zlen t < d + zlen s) ->
  total (fun m' => cstr m' d (s ++ t) /\ patched m m' (d + zlen s) (zlen t + 1) (zget (t ++ [0]))) (strcat m d p).
Proof.
  intros Hs Ht Hin Hdis. unfold strcat. rewrite (strlen_spec _ _ _ Hs), Ok_bind.
  eapply post_conseq.
  { apply (copy_str_spec _ _ _ _ t); [done|by eapply cstr_fuel|done|lia]. }
  intros m' [[Hl Hp] Hc]. split; [|done]. apply cstr_app. split; [|done].
  rewrite <- (app_nil_r s), cstr_app in Hs. destruct Hs as [Hs _].
  intros i c Hi. pose proof (zget_Some_range _ _ _ Hi). rewrite Hp.
  destruct (Z.leb_spec (d + zlen s) (d + i)); [lia|]. by apply Hs.
Qed.

Lemma strcat_correct_witness :
  total (fun m' => cstr m' 0 [97;98;99] /\ patched [97;0;0;0;98;99;0] m' 1 3 (zget [98;99;0]))
    (strcat [97;0;0;0;98;99;0] 0 4).
Proof.
  apply (strcat_correct [97;0;0;0;98;99;0] 0 4 [97] [98;99]).
  - vm_compute. repeat split; congruence.
  - vm_compute. repeat split; congruence.
  - vm_compute. split; congruence.
  - left. vm_compute. reflexivity.
Defined.

(** ** Searching *)

(** What the inner loop of [strstr] stops at: NUL when the needle is a prefix. *)
Fixpoint stop_at (n h : list Z) : Z :=
  match n, h with
  | [], _ => 0
  | y :: _, [] => y
  | y :: n', x :: h' => if x =? y then stop_at n' h' else y
  end.

Lemma match_at_spec fuel m p q h n :
  cstr m p h -> cstr m q n -> (length h < fuel)%nat -> match_at fuel m p q = Ok (stop_at n h).
Proof.
  revert p q h n. induction fuel as [|fuel IH]; intros p q h n Hh Hn Hf; [lia|]. cbn [match_at].
  destruct h as [|x h], n as [|y n].
  - rewrite (cstr_nil_inv _ _ Hh), Ok_bind, (cstr_nil_inv _ _ Hn). done.
  - rewrite (cstr_nil_inv _ _ Hh), Ok_bind. destruct (cstr_cons_inv _ _ _ _ Hn) as (-> & _). done.
  - destruct (cstr_cons_inv _ _ _ _ Hh) as (-> & _). rewrite Ok_bind, (cstr_nil_inv _ _ Hn), Ok_bind.
    by rewrite andb_false_r.
  - destruct (cstr_cons_inv _ _ _ _ Hh) as (E & Et & _ & Hh'). rewrite E, Ok_bind, Et.
    destruct (cstr_cons_inv _ _ _ _ Hn) as (E' & Et' & _ & Hn'). rewrite E', Ok_bind, Et'. cbn [andb stop_at].
    destruct (x =? y); [|done]. apply IH; [done|done|simpl in Hf; lia].
Qed.

Lemma stop_at_prefix m q n h : cstr m q n -> stop_at n h = 0 <-> n `prefix_of` h.
Proof.
  revert q h. induction n as [|y n IH]; intros q h Hn; cbn [stop_at].
  - split; [|done]. intros _. apply prefix_nil.
  - destruct Hn as (_ & Hy & Hn). destruct h as [|x h].
    + split; [lia|]. intros [k Hk]. done.
    + destruct (Z.eqb_spec x y) as [->|Hne].
      * rewrite (IH _ _ Hn). split; [apply prefix_cons|apply prefix_cons_inv_2].
      * split; [lia|]. intros H%prefix_cons_inv_1. congruence.
Qed.

(** Position of the first occurrence in a non-empty rest of the haystack. *)
Fixpoint find_sub (n h : list Z) : option Z :=
  match h with
  | [] => None
  | _ :: h' => if bool_decide (n `prefix_of` h) then Some 0 else Z.succ <$> find_sub n h'
  end.

Lemma strstr_from_spec fuel m p q h n :
  cstr m p h -> cstr m q n -> (length h < fuel)%nat ->
  strstr_from fuel m p q = Ok (Z.add p <$> find_sub n h).
Proof.
  revert p h. induction fuel as [|fuel IH]; intros p h Hh Hn Hf; [lia|]. cbn [strstr_from].
  destruct h as [|x h]; [by rewrite (cstr_nil_inv _ _ Hh)|].
  destruct (cstr_cons_inv _ _ _ _ Hh) as (E & Et & _ & Hh'). rewrite E, Ok_bind, Et.
  rewrite (match_at_spec _ _ _ _ _ _ Hh Hn), Ok_bind by by eapply cstr_fuel.
  pose proof (stop_at_prefix _ _ n (x :: h) Hn) as Hp. cbn [find_sub].
  destruct (Z.eqb_spec (stop_at n (x :: h)) 0) as [Hz|Hz].
  - rewrite bool_decide_eq_true_2 by tauto. simpl. do 2 f_equal. lia.
  - rewrite bool_decide_eq_false_2 by tauto. rewrite (IH (p + 1) h) by (auto; simpl in Hf; lia).
    destruct (find_sub n h); simpl; [|done]. do 2 f_equal. lia.
Qed.

Lemma find_sub_spec n h : n <> [] ->
  match find_sub n h with
  | Some i => 0 <= i /\ n `prefix_of` drop (Z.to_nat i) h /\
              forall j, 0 <= j < i -> ~ n `prefix_of` drop (Z.to_nat j) h
  | None => forall j, 0 <= j -> ~ n `prefix_of` drop (Z.to_nat j) h
  end.
Proof.
  intros Hn. induction h as [|x h IH]; cbn [find_sub].
  { intros j _. rewrite drop_nil. by intros ->%prefix_nil_inv. }
  assert (forall j, 0 < j -> drop (Z.to_nat j) (x :: h) = drop (Z.to_nat (j - 1)) h) as Hd.
  { intros j Hj. by replace (Z.to_nat j) with (S (Z.to_nat (j - 1))) by lia. }
  case_bool_decide as Hp.
  { split_and!; [lia|done|lia]. }
  destruct (find_sub n h) as [i|]; simpl.
  - destruct IH as (Hi & Hpi & Hfirst). split_and!; [lia| |].
    + rewrite Hd by lia. by replace (Z.succ i - 1) with i by lia.
    + intros j Hj. destruct (Z.eq_dec j 0) as [->|]; [done|]. rewrite Hd by lia. apply Hfirst. lia.
  - intros j Hj. destruct (Z.eq_dec j 0) as [->|]; [done|]. rewrite Hd by lia. apply IH. lia.
Qed.

(** [strstr] finds the first occurrence: it returns the haystack for an
    empty needle, a pointer to the leftmost position where the needle is a
    prefix of the rest, and NULL when there is none. *)
Theorem strstr_correct m p q h n :
  cstr m p h -> cstr m q n ->
  match strstr m p q with
  | Ok (Some r) => p <= r /\ n `prefix_of` drop (Z.to_nat (r - p)) h /\
                   forall j, 0 <= j < r - p -> ~ n `prefix_of` drop (Z.to_nat j) h
  | Ok None => forall j, 0 <= j -> ~ n `prefix_of` drop (Z.to_nat j) h
  | _ => False
  end.
Proof.
  intros Hh Hn. unfold strstr. destruct n as [|y n].
  - rewrite (cstr_nil_inv _ _ Hn), Ok_bind. cbn [Z.eqb]. split_and!; [lia|apply prefix_nil|lia].
  - destruct (cstr_cons_inv _ _ _ _ Hn) as (E & _ & Hy & _). rewrite E, Ok_bind.
    destruct (Z.eqb_spec y 0); [lia|]. rewrite (strstr_from_spec _ _ _ _ _ _ Hh Hn) by by eapply cstr_fuel.
    pose proof (find_sub_spec (y :: n) h ltac:(done)) as Hf.
    destruct (find_sub (y :: n) h) as [i|]; simpl; [|done].
    replace (p + i - p) with i by lia. destruct Hf as (? & ? & ?). split_and!; [lia|done|done].
Qed.

(** "xabab" at 0 and "ab" at 6. *)
Definition xabab_ab : mem := [120;97;98;97;98;0;97;98;0].

Lemma strstr_correct_witness :
  strstr xabab_ab 0 6 = Ok (Some 1) /\ ([97;98] : list Z) `prefix_of` drop 1 [120;97;98;97;98].
Proof.
  pose proof (strstr_correct xabab_ab 0 6 [120;97;98;97;98] [97;98]) as H.
  assert (strstr xabab_ab 0 6 = Ok (Some 1)) as E by (vm_compute; reflexivity). rewrite E in H.
  split; [exact E|]. apply H; vm_compute; repeat split; congruence.
Defined.

(** ** Tokens *)

Definition is_delim (ds : list Z) (x : Z) : bool := existsb (Z.eqb x) ds.

(** Longest prefix satisfying [f], and the rest. *)
Fixpoint span (f : Z -> bool) (s : list Z) : list Z * list Z :=
  match s with
  | [] => ([], [])
  | x :: s' => if f x then (x :: fst (span f s'), snd (span f s')) else ([], s)
  end.

Lemma span_app f s : fst (span f s) ++ snd (span f s) = s.
Proof. induction s as [|x s IH]; [done|]. cbn [span]. destruct (f x); simpl; [by rewrite IH|done]. Qed.

Lemma delim_match_spec fuel m q ds x :
  cstr m q ds -> (length ds < fuel)%nat -> delim_match fuel m x q = Ok (is_delim ds x).
Proof.
  revert q ds. induction fuel as [|fuel IH]; intros q ds Hd Hf; [lia|]. cbn [delim_match].
  destruct ds as [|y ds]; [by rewrite (cstr_nil_inv _ _ Hd)|].
  destruct (cstr_cons_inv _ _ _ _ Hd) as (E & Et & _ & Hd'). rewrite E, Ok_bind, Et.
  unfold is_delim. cbn [existsb]. destruct (x =? y); [done|]. apply IH; [done|simpl in Hf; lia].
Qed.

Lemma cstr_drop m p s t : cstr m p (s ++ t) -> cstr m (p + zlen s) t.
Proof. by intros [_ H]%cstr_app. Qed.

Lemma skip_delims_spec fuel m p q s ds :
  cstr m p s -> cstr m q ds -> (length s < fuel)%nat ->
  skip_delims fuel m p q = Ok (p + zlen (fst (span (is_delim ds) s))).
Proof.
  revert p s. induction fuel as [|fuel IH]; intros p s Hs Hd Hf; [lia|]. cbn [skip_delims].
  destruct s as [|x s].
  { rewrite (cstr_nil_inv _ _ Hs), Ok_bind. simpl. f_equal. unfold zlen. simpl. lia. }
  destruct (cstr_cons_inv _ _ _ _ Hs) as (E & Et & _ & Hs'). rewrite E, Ok_bind, Et.
  rewrite (delim_match_spec _ _ _ ds) by (auto; by eapply cstr_fuel). rewrite Ok_bind. cbn [span].
  destruct (is_delim ds x); simpl.
  - rewrite (IH (p + 1) s) by (auto; simpl in Hf; lia). f_equal. unfold zlen. simpl. lia.
  - f_equal. unfold zlen. simpl. lia.
Qed.

Lemma scan_token_spec fuel m start p q s ds :
  cstr m p s -> cstr m q ds -> (length s < fuel)%nat ->
  let n := zlen (fst (span (fun x => negb (is_delim ds x)) s)) in
  scan_token fuel m start p q =
    match snd (span (fun x => negb (is_delim ds x)) s) with
    | [] => Ok (m, None, Some start)
    | _ :: _ => Ok (zset m (p + n) 0, Some (p + n + 1), Some start)
    end.
Proof.
  revert p s. induction fuel as [|fuel IH]; intros p s Hs Hd Hf; [lia|]. cbn [scan_token].
  destruct s as [|x s]; [by rewrite (cstr_nil_inv _ _ Hs)|].
  destruct (cstr_cons_inv _ _ _ _ Hs) as (E & Et & _ & Hs'). rewrite E, Ok_bind, Et.
  rewrite (delim_match_spec _ _ _ ds) by (auto; by eapply cstr_fuel). rewrite Ok_bind. cbn [span].
  destruct (is_delim ds x); cbn [negb fst snd].
  - pose proof (cstr_bound _ _ _ Hs). rewrite st_ok, Ok_bind by (pose proof (zlen_nonneg (x :: s)); lia).
    change (zlen (@nil Z)) with 0. by rewrite Z.add_0_r.
  - rewrite (IH (p + 1) s) by (auto; simpl in Hf; lia). cbv zeta.
    assert (forall l : list Z, zlen (x :: l) = zlen l + 1) as El by (intros; unfold zlen; simpl; lia).
    rewrite El. set (n := zlen _). replace (p + (n + 1)) with (p + 1 + n) by lia. by destruct (snd _).
Qed.

(** [strtok] on a fresh string skips the leading delimiters and returns
    the maximal run without delimiters that follows, terminated in place,
    with the saved state after the delimiter that ended it (NULL at the end
    of the string). With only delimiters left it returns NULL and keeps
    memory and state. *)
Theorem strtok_correct m state p q s ds :
  cstr m p s -> cstr m q ds ->
  let pre := fst (span (is_delim ds) s) in
  let r := snd (span (is_delim ds) s) in
  let tok := fst (span (fun x => negb (is_delim ds x)) r) in
  let start := p + zlen pre in
  match r with
  | [] => strtok m state (Some p) q = Ok (m, state, None)
  | _ :: _ =>
      exists m' state', strtok m state (Some p) q = Ok (m', state', Some start) /\ cstr m' start tok /\
        match snd (span (fun x => negb (is_delim ds x)) r) with
        | [] => m' = m /\ state' = None
        | _ :: t => m' = zset m (start + zlen tok) 0 /\ state' = Some (start + zlen tok + 1) /\
                    cstr m' (start + zlen tok + 1) t
        end
  end.
Proof.
  intros Hs Hd. cbv zeta. unfold strtok.
  rewrite (skip_delims_spec _ _ _ _ s ds) by (auto; by eapply cstr_fuel). rewrite Ok_bind.
  rewrite <- (span_app (is_delim ds) s) in Hs. apply cstr_drop in Hs. revert Hs.
  generalize (p + zlen (fst (span (is_delim ds) s))) as start. intros start.
  generalize (snd (span (is_delim ds) s)) as r. clear s. intros r Hr.
  destruct r as [|x r]; [by rewrite (cstr_nil_inv _ _ Hr)|].
  destruct (cstr_cons_inv _ _ _ _ Hr) as (E & _ & Hx & _). rewrite E, Ok_bind.
  destruct (Z.eqb_spec x 0); [lia|]. rewrite (scan_token_spec _ _ _ _ _ (x :: r) ds) by (auto; by eapply cstr_fuel).
  set (f := fun y => negb (is_delim ds y)). pose proof (span_app f (x :: r)) as Hsp.
  rewrite <- Hsp in Hr. destruct (span f (x :: r)) as [tok t]. cbn [fst snd] in *. cbv zeta.
  pose proof Hr as [Htok Ht]%cstr_app. destruct t as [|y t].
  - eexists _, _. split_and!; try done. rewrite <- (app_nil_r tok), cstr_app. split; [done|].
    exact Ht.
  - pose proof (cstr_bound _ _ _ Ht) as Hb. pose proof (zlen_nonneg tok). pose proof (zlen_nonneg (y :: t)).
    eexists _, _. split; [done|]. split.
    + cut (cstr (zset m (start + zlen tok) 0) start (tok ++ [])); [by rewrite app_nil_r|]. apply cstr_app. split.
      * intros i c Hc. pose proof (zget_Some_range _ _ _ Hc). rewrite zget_zset_ne by lia. by apply Htok.
      * cbn [cstr]. apply zget_zset_eq. lia.
    + split_and!; try done. destruct Ht as (_ & _ & Ht). eapply cstr_frame; [|exact Ht].
      intros i Hi. apply zget_zset_ne. lia.
Qed.

(** "/a/b" at 0 and the delimiter "/" at 5. *)
Definition a_b_path : mem := [47;97;47;98;0;47;0].

Lemma strtok_correct_witness :
  exists m' state', strtok a_b_path None (Some 0) 5 = Ok (m', state', Some 1) /\ cstr m' 1 [97] /\
    (m' = zset a_b_path 2 0 /\ state' = Some 3 /\ cstr m' 3 [98]).
Proof.
  apply (strtok_correct a_b_path None 0 5 [47;97;47;98] [47]).
  - vm_compute. repeat split; congruence.
  - vm_compute. repeat split; congruence.
Defined.
