(* ===== verification/Kstdlib.v ===== *)
(** * Kstdlib: formatting and number conversion,
    src/src/kernel/lib/stdlib.c

    The formatter is written over an emit function, as the C code is over the
    [KSP_EMIT] macro; the kernel's instance writes to a bounded buffer, the
    reference instance collects everything. *)

From S2P Require Import Prelude.

(** A variadic argument: an integer slot, a string pointer ([None] is NULL)
    or a pointer with the bytes it points to. *)
Inductive arg : Type :=
  | AInt (z : Z)
  | AStr (s : option (list Z))
  | APtr (v : Z) (bytes : list Z).

Definition hx : list Z := [48;49;50;51;52;53;54;55;56;57;97;98;99;100;101;102].

Definition is_digit (c : Z) : bool := (48 <=? c) && (c <=? 57).

(** Digits of [uv], most significant first; [num] holds 24 of them. *)
Fixpoint num_digits (fuel : nat) (uv base : Z) (num : list Z) : res (list Z) :=
  match fuel with
  | O => Timeout
  | S fuel' =>
      if uv =? 0 then Ok num
      else if 24 <=? zlen num then Fault
      else
        let dgt := uv mod base in
        num_digits fuel' (uv / base) base ((if dgt <? 10 then 48 + dgt else 97 + dgt - 10) :: num)
  end.

(** 64 halvings bring any 64-bit value to zero. *)
Definition to_digits (uv base : Z) : res (list Z) :=
  if uv =? 0 then Ok [48] else num_digits 65 uv base [].

Definition null_text : list Z := [40;110;117;108;108;41].

Section format.
Context {St : Type} (emit : St -> Z -> res St) (fmt : list Z).

Fixpoint emit_all (l : list Z) (s : St) : res St :=
  match l with
  | [] => Ok s
  | c :: l' => s ← emit s c; emit_all l' s
  end.

Fixpoint scan_width (fuel : nat) (p width : Z) : res (Z * Z) :=
  match fuel with
  | O => Timeout
  | S fuel' =>
      c ← ld fmt p;
      if is_digit c then scan_width fuel' (p + 1) (s32 (width * 10 + (c - 48))) else Ok (p, width)
  end.

Fixpoint scan_longs (fuel : nat) (p longs : Z) : res (Z * Z) :=
  match fuel with
  | O => Timeout
  | S fuel' =>
      c ← ld fmt p;
      if c =? 108 then scan_longs fuel' (p + 1) (longs + 1) else Ok (p, longs)
  end.

(** The bytes of [fmt] from [q] to [p], both included. *)
Definition raw_text (q p : Z) : list Z := take (Z.to_nat (p - q + 1)) (drop (Z.to_nat q) fmt).

(** ["%pM"]: six bytes as hexadecimal pairs. *)
Definition mac_text (bytes : list Z) : res (list Z) :=
  for_ 0 6 (fun i acc =>
    b ← ld bytes i;
    hi ← ld hx (Z.land (Z.shiftr b 4) 15);
    lo ← ld hx (Z.land b 15);
    Ok (acc ++ (if truthy i then [58] else []) ++ [hi; lo])) [].

(** A numeric conversion: sign, prefix, padding, digits. *)
Definition number_text (spec z longs width : Z) (zeropad alt : bool) : res (list Z) :=
  let is_d := spec =? 100 in
  let sv := if truthy longs then s64 z else s32 z in
  let neg := is_d && (sv <? 0) in
  let uv := if is_d then (if sv <? 0 then u64 (- sv) else u64 sv)
            else if truthy longs then u64 z else u32 z in
  num ← to_digits uv (if spec =? 120 then 16 else 10);
  let prefix := alt && (spec =? 120) in
  let used := (if neg then 1 else 0) + (if prefix then 2 else 0) + zlen num in
  Ok ((if neg then [45] else []) ++ (if prefix then [48; 120] else []) ++
      replicate (Z.to_nat (width - used)) (if zeropad then 48 else 32) ++ num).

(** One turn of the format loop at [p], which holds [c]: the position of the
    next character, the remaining arguments and the new state. *)
Definition fmt_step (p c : Z) (args : list arg) (s : St) : res (Z * list arg * St) :=
  if negb (c =? 37) then s ← emit s c; Ok (p + 1, args, s)
  else
    let p := p + 1 in
    c ← ld fmt p;
    if c =? 37 then s ← emit s 37; Ok (p + 1, args, s)
    else if c =? 115 then
      match args with
      | AStr o :: args =>
          s ← emit_all (match o with None => null_text | Some t => t end) s;
          Ok (p + 1, args, s)
      | _ => Fault
      end
    else
      let wstart := p in
      let zeropad := c =? 48 in
      let p := if zeropad then p + 1 else p in
      c ← ld fmt p;
      let alt := c =? 35 in
      let p := if alt then p + 1 else p in
      r ← scan_width (S (length fmt)) p 0; let '(p, width) := (r : Z * Z) in
      r ← scan_longs (S (length fmt)) p 0; let '(p, longs) := (r : Z * Z) in
      spec ← ld fmt p;
      if spec =? 112 then
        match args with
        | APtr v bytes :: args =>
            c1 ← ld fmt (p + 1);
            if c1 =? 77 then
              t ← mac_text bytes; s ← emit_all t s; Ok (p + 2, args, s)
            else
              num ← to_digits (u64 v) 16;
              s ← emit_all (48 :: 120 :: num) s; Ok (p + 1, args, s)
        | _ => Fault
        end
      else if (spec =? 100) || (spec =? 117) || (spec =? 120) then
        match args with
        | AInt z :: args =>
            t ← number_text spec z longs width zeropad alt;
            s ← emit_all t s; Ok (p + 1, args, s)
        | _ => Fault
        end
      else if spec =? 99 then
        match args with
        | AInt z :: args => s ← emit s (u8 z); Ok (p + 1, args, s)
        | _ => Fault
        end
      else s ← emit_all (37 :: raw_text wstart p) s; Ok (p + 1, args, s).

(** Each turn moves [p] forward. *)
Fixpoint fmt_loop (fuel : nat) (p : Z) (args : list arg) (s : St) : res St :=
  match fuel with
  | O => Timeout
  | S fuel' =>
      c ← ld fmt p;
      if c =? 0 then Ok s
      else
        r ← fmt_step p c args s;
        let '(p, args, s) := (r : Z * list arg * St) in
        fmt_loop fuel' p args s
  end.
End format.

(** [KSP_EMIT]: the state is (buf, off). *)
Definition ksp_emit (size : Z) (s : list Z * Z) (c : Z) : res (list Z * Z) :=
  let '(buf, off) := s in
  if off + 1 <? size then buf ← st buf off c; Ok (buf, off + 1) else Ok s.

Definition kvsnprintf (buf : list Z) (size : Z) (fmt : list Z) (args : list arg) : res (list Z) :=
  if size =? 0 then Ok buf
  else
    r ← fmt_loop (ksp_emit size) fmt (S (length fmt)) 0 args (buf, 0);
    let '(buf, off) := (r : list Z * Z) in
    st buf off 0.

Definition ksprintf (buf : list Z) (size : Z) (fmt : list Z) (args : list arg) : res (list Z) :=
  kvsnprintf buf size fmt args.

(** ** Random numbers: (state, value) *)

Definition srand (seed : Z) : Z := u32 seed.

Definition rand (rand_seed : Z) : Z * Z :=
  let s := u32 (rand_seed * 1103515245 + 12345) in
  (s, Z.land (Z.shiftr s 16) 32767).

(** ** Numbers *)

Fixpoint atoi_from (fuel : nat) (str : list Z) (p result : Z) : res Z :=
  match fuel with
  | O => Timeout
  | S fuel' =>
      c ← ld str p;
      if is_digit c then atoi_from fuel' str (p + 1) (s32 (result * 10 + (c - 48))) else Ok result
  end.

Definition atoi (str : list Z) : res Z :=
  c ← ld str 0;
  let neg := c =? 45 in
  r ← atoi_from (S (length str)) str (if neg then 1 else 0) 0;
  Ok (s32 (r * (if neg then -1 else 1))).

(** (value, end position) *)
Fixpoint strtoul_from (fuel : nat) (str : list Z) (base p result : Z) : res (Z * Z) :=
  match fuel with
  | O => Timeout
  | S fuel' =>
      c ← ld str p;
      if is_digit c then strtoul_from fuel' str base (p + 1) (u32 (result * base + (c - 48)))
      else Ok (result, p)
  end.

Definition strtoul (str : list Z) (base : Z) : res (Z * Z) :=
  strtoul_from (S (length str)) str base 0 0.

(** Low digits first, until the value or the room runs out; every turn stores
    inside [str], so its size bounds the turns. A zero base traps. *)
Fixpoint put_digits (fuel : nat) (n base limit : Z) (str : list Z) (ptr : Z) : res (list Z * Z) :=
  match fuel with
  | O => Timeout
  | S fuel' =>
      if truthy n && (ptr <? limit) then
        if base =? 0 then Fault else
        let r := Z.rem n base in
        str ← st str ptr (u8 (if r <? 10 then r + 48 else r + 65 - 10));
        put_digits fuel' (Z.quot n base) base limit str (ptr + 1)
      else Ok (str, ptr)
  end.

(** Swap inwards from both ends. *)
Fixpoint reverse_range (fuel : nat) (str : list Z) (low ptr : Z) : res (list Z) :=
  match fuel with
  | O => Timeout
  | S fuel' =>
      if low <? ptr then
        a ← ld str low;
        b ← ld str ptr;
        str ← st str low b;
        str ← st str ptr a;
        reverse_range fuel' str (low + 1) (ptr - 1)
      else Ok str
  end.

Definition put_number (str : list Z) (n base max_size low : Z) : res (list Z) :=
  r ← put_digits (S (length str)) n base (max_size - 1) str low;
  let '(str, ptr) := (r : list Z * Z) in
  str ← st str ptr 0;
  reverse_range (S (length str)) str low (ptr - 1).

Definition itoa (num : Z) (str : list Z) (base max_size : Z) : res (list Z) :=
  if max_size <? 2 then st str 0 0
  else if num =? 0 then str ← st str 0 48; st str 1 0
  else if (num <? 0) && (base =? 10) then
    str ← st str 0 45;
    put_number str (s32 (- num)) base max_size 1
  else put_number str num base max_size 0.

Definition utoa (num : Z) (str : list Z) (base max_size : Z) : res (list Z) :=
  if max_size <? 2 then st str 0 0
  else if num =? 0 then str ← st str 0 48; st str 1 0
  else put_number str num base max_size 0.

(** ** The format loop ends *)

Definition ends {A} (r : res A) : Prop := match r with Timeout => False | _ => True end.

Lemma ends_bind {A B} (x : res A) (f : A -> res B) :
  ends x -> (forall a, x = Ok a -> ends (f a)) -> ends (x ≫= f).
Proof. intros H Hf. destruct x; simpl in *; auto. Qed.

Lemma ends_ld {A} (l : list A) i : ends (ld l i).
Proof. unfold ld. by destruct (zget l i). Qed.

Lemma ld_Ok_range {A} (l : list A) i v : ld l i = Ok v -> 0 <= i < zlen l.
Proof. unfold ld. destruct (zget l i) eqn:E; [|done]. intros _. by eapply zget_Some_range. Qed.

Lemma num_digits_ends fuel uv base num :
  2 <= base -> 0 <= uv < 2 ^ Z.of_nat fuel -> ends (num_digits (S fuel) uv base num).
Proof.
  intros Hb. revert uv num. induction fuel as [|fuel IH]; intros uv num Huv.
  - change (2 ^ Z.of_nat 0) with 1 in Huv. replace uv with 0 by lia. done.
  - cbn [num_digits]. destruct (uv =? 0); [done|]. destruct (24 <=? zlen num); [done|].
    apply IH. rewrite Nat2Z.inj_succ, Z.pow_succ_r in Huv by lia. split; [apply Z.div_pos; lia|].
    apply Z.div_lt_upper_bound; nia.
Qed.

Lemma to_digits_ends uv base : 2 <= base -> 0 <= uv < 18446744073709551616 -> ends (to_digits uv base).
Proof.
  intros Hb Hu. unfold to_digits. destruct (uv =? 0); [done|]. apply num_digits_ends; [done|].
  change (Z.of_nat 64) with 64. lia.
Qed.

Lemma scan_width_ends fmt fuel p w :
  zlen fmt - p < Z.of_nat fuel -> 0 <= p <= zlen fmt ->
  ends (scan_width fmt fuel p w) /\ (forall p' w', scan_width fmt fuel p w = Ok (p', w') -> p <= p' < zlen fmt).
Proof.
  revert p w. induction fuel as [|fuel IH]; intros p w Hf Hp; [lia|]. cbn [scan_width].
  destruct (ld fmt p) as [c|c| |] eqn:E; simpl; try done; [|pose proof (ends_ld fmt p) as X; by rewrite E in X].
  apply ld_Ok_range in E. destruct (is_digit c).
  - destruct (IH (p + 1) (s32 (w * 10 + (c - 48)))) as [H1 H2]; [lia|lia|]. split; [done|].
    intros p' w' Hr. apply H2 in Hr. lia.
  - split; [done|]. intros p' w' [= <- <-]. lia.
Qed.

Lemma scan_longs_ends fmt fuel p w :
  zlen fmt - p < Z.of_nat fuel -> 0 <= p <= zlen fmt ->
  ends (scan_longs fmt fuel p w) /\ (forall p' w', scan_longs fmt fuel p w = Ok (p', w') -> p <= p' < zlen fmt).
Proof.
  revert p w. induction fuel as [|fuel IH]; intros p w Hf Hp; [lia|]. cbn [scan_longs].
  destruct (ld fmt p) as [c|c| |] eqn:E; simpl; try done; [|pose proof (ends_ld fmt p) as X; by rewrite E in X].
  apply ld_Ok_range in E. destruct (c =? 108).
  - destruct (IH (p + 1) (w + 1)) as [H1 H2]; [lia|lia|]. split; [done|].
    intros p' w' Hr. apply H2 in Hr. lia.
  - split; [done|]. intros p' w' [= <- <-]. lia.
Qed.

(** ** The bounded formatter truncates *)

(** Both results fail alike, or both succeed with related values. *)
Definition rel_res {A B} (R : A -> B -> Prop) (x : res A) (y : res B) : Prop :=
  match x, y with
  | Ok a, Ok b => R a b
  | Err c, Err c' => c = c'
  | Fault, Fault => True
  | Timeout, Timeout => True
  | _, _ => False
  end.

Lemma rel_bind {A B A' B'} (R : A -> B -> Prop) (R' : A' -> B' -> Prop) x y f g :
  rel_res R x y -> (forall a b, R a b -> rel_res R' (f a) (g b)) -> rel_res R' (x ≫= f) (y ≫= g).
Proof. intros H HR. destruct x, y; simpl in *; try contradiction; auto. Qed.

(** A computation that does not depend on the state. *)
Lemma rel_same {A A' B'} (R' : A' -> B' -> Prop) (x : res A) f g :
  (forall a, rel_res R' (f a) (g a)) -> rel_res R' (x ≫= f) (x ≫= g).
Proof. intros H. destruct x; simpl; auto. Qed.

Section simulation.
Context {S1 S2 : Type} (e1 : S1 -> Z -> res S1) (e2 : S2 -> Z -> res S2) (R : S1 -> S2 -> Prop).
Context (He : forall s1 s2 c, R s1 s2 -> rel_res R (e1 s1 c) (e2 s2 c)).

Lemma emit_all_rel l s1 s2 : R s1 s2 -> rel_res R (emit_all e1 l s1) (emit_all e2 l s2).
Proof using He.
  revert s1 s2. induction l as [|c l IH]; intros s1 s2 Hs; [done|]. cbn [emit_all].
  eapply rel_bind; [by apply He|]. intros a b Hab. by apply IH.
Qed.

Definition step_rel (x : Z * list arg * S1) (y : Z * list arg * S2) : Prop :=
  fst x = fst y /\ R (snd x) (snd y).

Lemma fmt_step_rel fmt p c args s1 s2 :
  R s1 s2 -> rel_res step_rel (fmt_step e1 fmt p c args s1) (fmt_step e2 fmt p c args s2).
Proof using He.
  intros Hs. unfold fmt_step.
  assert (forall l p' args', rel_res step_rel (s ← emit_all e1 l s1; Ok (p', args', s))
    (s ← emit_all e2 l s2; Ok (p', args', s))) as Hall.
  { intros. eapply rel_bind; [by apply emit_all_rel|]. by intros a b Hab. }
  assert (forall x p' args', rel_res step_rel (s ← e1 s1 x; Ok (p', args', s)) (s ← e2 s2 x; Ok (p', args', s))) as Hone.
  { intros. eapply rel_bind; [by apply He|]. by intros a b Hab. }
  destruct (negb _); [apply Hone|]. apply rel_same. intros c1.
  destruct (c1 =? 37); [apply Hone|]. destruct (c1 =? 115).
  { destruct args as [|[|o|] args]; first [exact I|apply Hall]. }
  apply rel_same. intros c2. apply rel_same. intros [p1 width]. apply rel_same. intros [p2 longs].
  apply rel_same. intros spec. destruct (spec =? 112).
  { destruct args as [|[| |v bytes] args]; [exact I|exact I|exact I|]. apply rel_same. intros c3. destruct (c3 =? 77).
    - apply rel_same. intros t. apply Hall.
    - apply rel_same. intros t. apply Hall. }
  destruct (_ || _).
  { destruct args as [|[z| |] args]; [exact I| |exact I|exact I]. apply rel_same. intros t. apply Hall. }
  destruct (spec =? 99); [destruct args as [|[z| |] args]; first [exact I|apply Hone]|apply Hall].
Qed.

Lemma fmt_loop_rel fmt fuel p args s1 s2 :
  R s1 s2 -> rel_res R (fmt_loop e1 fmt fuel p args s1) (fmt_loop e2 fmt fuel p args s2).
Proof using He.
  revert p args s1 s2. induction fuel as [|fuel IH]; intros p args s1 s2 Hs; [done|]. cbn [fmt_loop].
  apply rel_same. intros c. destruct (c =? 0); [done|].
  eapply rel_bind; [by apply fmt_step_rel|]. intros [[p1 a1] t1] [[p2 a2] t2] [Hpa Hr].
  simpl in Hpa, Hr. simplify_eq. by apply IH.
Qed.
End simulation.

Definition collect_emit (acc : list Z) (c : Z) : res (list Z) := Ok (acc ++ [c]).

Lemma emit_all_collect l acc : emit_all collect_emit l acc = Ok (acc ++ l).
Proof.
  revert acc. induction l as [|c l IH]; intros acc; cbn [emit_all]; [by rewrite app_nil_r|].
  change (collect_emit acc c) with (Ok (acc ++ [c])). rewrite Ok_bind, IH. by rewrite <- app_assoc.
Qed.

(** A turn ends and moves forward. *)
Definition forward (p : Z) (r : res (Z * list arg * list Z)) : Prop :=
  match r with Timeout => False | Ok (p', _, _) => p < p' | _ => True end.

Lemma forward_bind {A} p (x : res A) f :
  ends x -> (forall a, x = Ok a -> forward p (f a)) -> forward p (x ≫= f).
Proof. intros H Hf. destruct x; simpl in *; auto. Qed.

Lemma for_ends {S} n i (body : Z -> S -> res S) s :
  (forall i s, ends (body i s)) -> ends (for_from n i body s).
Proof.
  intros Hb. revert i s. induction n as [|n IH]; intros i s; [done|]. cbn [for_from].
  apply ends_bind; [apply Hb|]. intros; apply IH.
Qed.

Lemma mac_text_ends bytes : ends (mac_text bytes).
Proof.
  apply for_ends. intros i acc. repeat (apply ends_bind; [apply ends_ld|intros ? _]). done.
Qed.

Lemma number_text_ends spec z longs width zp alt : ends (number_text spec z longs width zp alt).
Proof.
  unfold number_text. apply ends_bind; [|done]. apply to_digits_ends; [by destruct (spec =? 120)|].
  assert (forall x, 0 <= u64 x < 18446744073709551616) as H64 by (intros; unfold u64; apply Z.mod_pos_bound; lia).
  assert (0 <= u32 z < 18446744073709551616) by (unfold u32; pose proof (Z.mod_pos_bound z 4294967296); lia).
  destruct (spec =? 100); [destruct (_ <? 0); apply H64|]. destruct (truthy longs); [apply H64|done].
Qed.

Lemma fmt_step_forward fmt p c args acc :
  0 <= p < zlen fmt -> forward p (fmt_step collect_emit fmt p c args acc).
Proof.
  intros Hp. unfold fmt_step. destruct (negb _); [simpl; lia|].
  apply forward_bind; [apply ends_ld|]. intros c1 E1%ld_Ok_range.
  destruct (c1 =? 37); [simpl; lia|]. destruct (c1 =? 115).
  { destruct args as [|[|o|] args]; try done. rewrite emit_all_collect. simpl. lia. }
  apply forward_bind; [apply ends_ld|]. intros c2 E2%ld_Ok_range.
  set (p1 := if c2 =? 35 then _ else _).
  assert (p + 1 <= p1 <= zlen fmt) as Hp1 by (unfold p1; destruct (c1 =? 48), (c2 =? 35); lia).
  destruct (scan_width_ends fmt (S (length fmt)) p1 0) as [Hw1 Hw2]; [unfold zlen in *; lia|lia|].
  apply forward_bind; [done|]. intros [p2 width] E3. pose proof (Hw2 _ _ E3).
  destruct (scan_longs_ends fmt (S (length fmt)) p2 0) as [Hl1 Hl2]; [unfold zlen in *; lia|lia|].
  apply forward_bind; [done|]. intros [p3 longs] E4. pose proof (Hl2 _ _ E4).
  apply forward_bind; [apply ends_ld|]. intros spec _. destruct (spec =? 112).
  { destruct args as [|[| |v bytes] args]; try done. apply forward_bind; [apply ends_ld|]. intros c3 _.
    destruct (c3 =? 77).
    - apply forward_bind; [apply mac_text_ends|]. intros t _. rewrite emit_all_collect. simpl. lia.
    - apply forward_bind; [apply to_digits_ends; [lia|unfold u64; apply Z.mod_pos_bound; lia]|].
      intros t _. rewrite emit_all_collect. simpl. lia. }
  destruct (_ || _).
  { destruct args as [|[z| |] args]; try done. apply forward_bind; [apply number_text_ends|].
    intros t _. rewrite emit_all_collect. simpl. lia. }
  destruct (spec =? 99); [destruct args as [|[z| |] args]; try done; simpl; lia|].
  rewrite emit_all_collect. simpl. lia.
Qed.

Lemma fmt_loop_ends fmt fuel p args acc :
  0 <= p -> zlen fmt - p < Z.of_nat fuel -> (0 < fuel)%nat -> ends (fmt_loop collect_emit fmt fuel p args acc).
Proof.
  revert p args acc. induction fuel as [|fuel IH]; intros p args acc Hp Hf Hpos; [lia|]. cbn [fmt_loop].
  apply ends_bind; [apply ends_ld|]. intros c E%ld_Ok_range. destruct (c =? 0); [done|].
  pose proof (fmt_step_forward fmt p c args acc E) as Hs.
  destruct (fmt_step collect_emit fmt p c args acc) as [[[p' args'] acc']| | |]; simpl in *; try done.
  apply IH; lia.
Qed.

(** The unbounded output of a format. *)
Definition format_text (fmt : list Z) (args : list arg) : res (list Z) :=
  fmt_loop collect_emit fmt (S (length fmt)) 0 args [].

(** The buffer holds as much of the output as fits before the NUL. *)
Definition holds (buf0 : list Z) (size : Z) (s : list Z * Z) (acc : list Z) : Prop :=
  let '(buf, off) := s in
  off = Z.min (size - 1) (zlen acc) /\ zlen buf = zlen buf0 /\
  (forall i, 0 <= i < off -> zget buf i = zget acc i) /\ (forall i, off <= i -> zget buf i = zget buf0 i).

Lemma ksp_emit_holds buf0 size s acc c :
  0 < size <= zlen buf0 -> holds buf0 size s acc ->
  rel_res (holds buf0 size) (ksp_emit size s c) (collect_emit acc c).
Proof.
  destruct s as [buf off]. intros Hsz (-> & Hl & Hlo & Hhi). unfold ksp_emit, collect_emit. pose proof (zlen_nonneg acc).
  destruct (Z.ltb_spec (Z.min (size - 1) (zlen acc) + 1) size).
  - rewrite st_ok, Ok_bind by lia. unfold rel_res, holds. rewrite zlen_zset, zlen_snoc. split_and!; [lia|done| |].
    + intros i Hi. rewrite zget_zset by lia.
      destruct (Z.eqb_spec (Z.min (size - 1) (zlen acc)) i) as [Heq|].
      * rewrite zget_app_r by lia. by replace (i - zlen acc) with 0 by lia.
      * rewrite Hlo by lia. rewrite zget_app_l by lia. done.
    + intros i Hi. rewrite zget_zset_ne by lia. apply Hhi. lia.
  - unfold rel_res, holds. rewrite zlen_snoc. split_and!; [lia|done| |intros; apply Hhi; lia].
    intros i Hi. rewrite Hlo by lia. rewrite zget_app_l by lia. done.
Qed.

(** [kvsnprintf] writes the format's output cut to [size - 1] bytes,
    always ends it with NUL, leaves the rest of the buffer alone and never
    writes outside its [size] bytes, whatever the format and the arguments;
    it always ends, and fails only where reading the format or the arguments
    does. *)
Theorem kvsnprintf_truncates buf size fmt args :
  0 < size <= zlen buf ->
  match format_text fmt args with
  | Ok out =>
      let n := Z.min (size - 1) (zlen out) in
      exists buf', kvsnprintf buf size fmt args = Ok buf' /\ zlen buf' = zlen buf /\
        take (Z.to_nat n) buf' = take (Z.to_nat n) out /\ zget buf' n = Some 0 /\
        forall i, n < i -> zget buf' i = zget buf i
  | Err c => kvsnprintf buf size fmt args = Err c
  | Fault => kvsnprintf buf size fmt args = Fault
  | Timeout => False
  end.
Proof.
  intros Hsz. unfold kvsnprintf, format_text. destruct (Z.eqb_spec size 0); [lia|].
  pose proof (fmt_loop_ends fmt (S (length fmt)) 0 args [] ltac:(lia) ltac:(unfold zlen; lia) ltac:(lia)) as Hends.
  pose proof (fmt_loop_rel (ksp_emit size) collect_emit (holds buf size)
    (fun s1 s2 c => ksp_emit_holds buf size s1 s2 c Hsz) fmt (S (length fmt)) 0 args (buf, 0) []) as Hr.
  specialize (Hr ltac:(split_and!; [unfold zlen; simpl; lia|done|lia|done])).
  destruct (fmt_loop (ksp_emit size) _ _ _ _ _) as [[b off]|c| |], (fmt_loop collect_emit _ _ _ args []) as [out|c'| |];
    cbn [rel_res] in Hr; try done; [|by subst].
  destruct Hr as (-> & Hl & Hlo & Hhi). cbv zeta. rewrite Ok_bind. pose proof (zlen_nonneg out).
  rewrite st_ok by lia. eexists. split; [done|]. rewrite zlen_zset. split_and!; [done| | |].
  - apply take_eq_zget; rewrite ?zlen_zset; try lia. intros i Hi. rewrite zget_zset_ne by lia. by apply Hlo.
  - apply zget_zset_eq. lia.
  - intros i Hi. rewrite zget_zset_ne by lia. apply Hhi. lia.
Qed.

(** The format "n=%03d" and its output "n=-07". *)
Definition fmt_n : list Z := [110;61;37;48;51;100;0].

Lemma kvsnprintf_truncates_witness :
  let n := Z.min (4 - 1) 5 in
  exists buf', kvsnprintf (replicate 8 255) 4 fmt_n [AInt (-7)] = Ok buf' /\ zlen buf' = 8 /\
    take (Z.to_nat n) buf' = take (Z.to_nat n) [110;61;45;48;55] /\ zget buf' n = Some 0 /\
    forall i, n < i -> zget buf' i = zget (replicate 8 255) i.
Proof.
  pose proof (kvsnprintf_truncates (replicate 8 255) 4 fmt_n [AInt (-7)]) as H.
  assert (format_text fmt_n [AInt (-7)] = Ok [110;61;45;48;55]) as E by (vm_compute; reflexivity).
  rewrite E in H. apply H. vm_compute. split; congruence.
Defined.

(** A format that ends inside a conversion is read past its end: with
    "%" the loop steps over the terminating NUL. *)
Theorem kvsnprintf_trailing_percent buf size args :
  0 < size <= zlen buf -> kvsnprintf buf size [37; 0] args = Fault.
Proof.
  intros Hsz.
  assert (format_text [37; 0] args = Fault) as E by done.
  pose proof (fmt_loop_rel (ksp_emit size) collect_emit (holds buf size)
    (fun s1 s2 c => ksp_emit_holds buf size s1 s2 c Hsz) [37; 0] 3 0 args (buf, 0) []) as Hr.
  specialize (Hr ltac:(split_and!; [unfold zlen; simpl; lia|done|lia|done])).
  unfold kvsnprintf. destruct (Z.eqb_spec size 0); [lia|]. unfold format_text in E.
  change (S (length [37; 0])) with 3%nat in *. rewrite E in Hr.
  by destruct (fmt_loop (ksp_emit size) _ _ _ _ _).
Qed.

Lemma kvsnprintf_trailing_percent_witness : kvsnprintf (replicate 16 0) 16 [37; 0] [] = Fault.
Proof. apply (kvsnprintf_trailing_percent (replicate 16 0) 16 []). vm_compute. split; congruence. Defined.

(** ** Numbers *)

(** Decimal digits, least significant first, as characters. *)
Fixpoint digits_le (fuel : nat) (n : Z) : list Z :=
  match fuel with
  | O => []
  | S fuel' => if n =? 0 then [] else (n mod 10 + 48) :: digits_le fuel' (n / 10)
  end.

Lemma digits_le_length fuel n k : 0 <= n < 10 ^ Z.of_nat k -> zlen (digits_le fuel n) <= Z.of_nat k.
Proof.
  revert n k. induction fuel as [|fuel IH]; intros n k Hn; cbn [digits_le]; [unfold zlen; simpl; lia|].
  destruct (Z.eqb_spec n 0); [unfold zlen; simpl; lia|].
  destruct k as [|k]; [change (10 ^ Z.of_nat 0) with 1 in Hn; lia|].
  rewrite Nat2Z.inj_succ, Z.pow_succ_r in Hn by lia.
  specialize (IH (n / 10) k). unfold zlen in *. simpl length. rewrite Nat2Z.inj_succ.
  assert (0 <= n / 10 < 10 ^ Z.of_nat k) by (split; [apply Z.div_pos; lia|apply Z.div_lt_upper_bound; lia]). lia.
Qed.

(** The array with [ds] at [p]. *)
Definition has_at (str str' : list Z) (p : Z) (ds : list Z) : Prop :=
  zlen str' = zlen str /\
  forall i, zget str' i = if (p <=? i) && (i <? p + zlen ds) then zget ds (i - p) else zget str i.

Lemma has_at_nil str p : has_at str str p [].
Proof.
  split; [done|]. intros i. change (zlen (@nil Z)) with 0.
  by destruct (Z.leb_spec p i), (Z.ltb_spec i (p + 0)); try lia.
Qed.

Lemma put_digits_spec fuel f n limit str p :
  0 <= n < 2 ^ Z.of_nat f -> zlen (digits_le f n) < Z.of_nat fuel -> 0 <= p -> p + zlen (digits_le f n) <= limit <= zlen str ->
  total (fun r => has_at str (fst r) p (digits_le f n) /\ snd r = p + zlen (digits_le f n))
    (put_digits fuel n 10 limit str p).
Proof.
  revert fuel n str p. induction f as [|f IH]; intros fuel n str p Hn Hf Hp Hfit;
    (destruct fuel as [|fuel]; [pose proof (zlen_nonneg (digits_le 0 n)); unfold zlen in Hf; simpl in Hf; lia|]); cbn [put_digits digits_le] in *.
  { change (2 ^ Z.of_nat 0) with 1 in Hn. replace n with 0 by lia. cbn.
    split; [apply has_at_nil|]. change (zlen (@nil Z)) with 0. lia. }
  unfold truthy. destruct (Z.eqb_spec n 0) as [->|Hnz].
  { cbn. split; [apply has_at_nil|]. change (zlen (@nil Z)) with 0. lia. }
  set (ds := digits_le f (n / 10)) in *.
  assert (zlen ((n mod 10 + 48) :: ds) = zlen ds + 1) as El by (unfold zlen; simpl; lia). rewrite El in *.
  pose proof (zlen_nonneg ds). cbn [negb andb]. destruct (Z.ltb_spec p limit); [|lia].
  change (10 =? 0) with false. cbv iota.
  rewrite Z.rem_mod_nonneg, Z.quot_div_nonneg by lia. pose proof (Z.mod_pos_bound n 10 ltac:(lia)).
  destruct (Z.ltb_spec (n mod 10) 10); [|lia]. rewrite st_ok, Ok_bind by lia.
  assert (u8 (n mod 10 + 48) = n mod 10 + 48) as -> by (unfold u8; apply Z.mod_small; lia).
  rewrite Nat2Z.inj_succ, Z.pow_succ_r in Hn by lia.
  eapply post_conseq.
  { apply (IH fuel (n / 10)); [|fold ds; lia|lia|rewrite zlen_zset; fold ds; lia].
    split; [apply Z.div_pos; lia|apply Z.div_lt_upper_bound; lia]. }
  fold ds. intros [str' q] [[Hl Hg] Hq]. cbn [fst snd] in *. split; [|lia]. split; [by rewrite Hl, zlen_zset|].
  intros i. rewrite Hg, zget_zset, El by lia.
  destruct (Z.leb_spec (p + 1) i), (Z.leb_spec p i), (Z.ltb_spec i (p + 1 + zlen ds)), (Z.ltb_spec i (p + (zlen ds + 1))),
    (Z.eqb_spec p i) as [Hpi|]; try lia; cbn [andb]; try done.
  - unfold zget. destruct (Z.leb_spec 0 (i - (p + 1))), (Z.leb_spec 0 (i - p)); try lia.
    by replace (Z.to_nat (i - p)) with (S (Z.to_nat (i - (p + 1)))) by lia.
  - subst i. by rewrite Z.sub_diag.
Qed.

Lemma reverse_range_spec fuel str low ptr :
  0 <= low -> ptr < zlen str -> low <= ptr + 1 -> ptr - low < Z.of_nat fuel -> (0 < fuel)%nat ->
  total (fun str' => zlen str' = zlen str /\ forall i,
      zget str' i = if (low <=? i) && (i <=? ptr) then zget str (low + ptr - i) else zget str i)
    (reverse_range fuel str low ptr).
Proof.
  revert str low ptr. induction fuel as [|fuel IH]; intros str low ptr H0 Hp Hle Hf Hpos; [lia|]. cbn [reverse_range].
  destruct (Z.ltb_spec low ptr).
  - destruct (zget_in_range str low ltac:(lia)) as [a Ha]. destruct (zget_in_range str ptr ltac:(lia)) as [b Hb].
    rewrite (ld_ok _ _ _ Ha), (ld_ok _ _ _ Hb), !Ok_bind, st_ok, Ok_bind, st_ok, Ok_bind by (rewrite ?zlen_zset; lia).
    eapply post_conseq; [apply IH; rewrite ?zlen_zset; lia|].
    intros str' [Hl Hg]. split; [by rewrite Hl, !zlen_zset|]. intros i. rewrite Hg.
    rewrite !zget_zset by (rewrite ?zlen_zset; lia).
    destruct (Z.leb_spec (low + 1) i), (Z.leb_spec low i), (Z.leb_spec i (ptr - 1)), (Z.leb_spec i ptr);
      try lia; cbn [andb].
    + destruct (Z.eqb_spec ptr (low + 1 + (ptr - 1) - i)), (Z.eqb_spec low (low + 1 + (ptr - 1) - i)); try lia.
      f_equal. lia.
    + destruct (Z.eqb_spec ptr i); [|lia]. rewrite <- Ha. f_equal. lia.
    + destruct (Z.eqb_spec ptr i); [lia|]. destruct (Z.eqb_spec low i); [lia|done].
    + destruct (Z.eqb_spec ptr i); [lia|]. destruct (Z.eqb_spec low i); [|lia]. rewrite <- Hb. f_equal. lia.
    + destruct (Z.eqb_spec ptr i); [lia|]. destruct (Z.eqb_spec low i); [lia|done].
  - unfold total. cbn [post]. split; [done|]. intros i.
    destruct (Z.leb_spec low i), (Z.leb_spec i ptr); cbn [andb]; try done. f_equal. lia.
Qed.

(** The number's digits, most significant first, then NUL. *)
Lemma put_number_spec str n max_size low :
  0 < n < 2 ^ 31 -> 0 <= low -> low + zlen (digits_le 31 n) < max_size <= zlen str ->
  total (fun str' => zlen str' = zlen str /\ (forall i, i < low -> zget str' i = zget str i) /\
      forall i, 0 <= i <= zlen (digits_le 31 n) -> zget str' (low + i) = zget (reverse (digits_le 31 n) ++ [0]) i)
    (put_number str n 10 max_size low).
Proof.
  intros Hn Hlow Hfit. unfold put_number. set (ds := digits_le 31 n) in *.
  pose proof (put_digits_spec (S (length str)) 31 n (max_size - 1) str low) as H.
  change (2 ^ Z.of_nat 31) with (2 ^ 31) in H. fold ds in H.
  specialize (H ltac:(lia) ltac:(unfold zlen in *; lia) Hlow ltac:(lia)). apply total_Ok in H as ([str1 q] & -> & [Hl1 Hg1] & Hq).
  cbn [fst snd] in *. subst q. rewrite Ok_bind. pose proof (zlen_nonneg ds).
  rewrite st_ok, Ok_bind by lia. eapply post_conseq.
  { apply reverse_range_spec; rewrite ?zlen_zset; unfold zlen in *; rewrite ?length_insert; try lia.
    unfold zset. destruct (0 <=? _); rewrite ?length_insert; lia. }
  intros str' [Hl Hg]. rewrite zlen_zset in Hl. split_and!; [lia| |].
  - intros i Hi. rewrite Hg. destruct (Z.leb_spec low i); [lia|]. cbn [andb].
    rewrite zget_zset_ne, Hg1 by lia. by destruct (Z.leb_spec low i); [lia|].
  - intros i Hi. rewrite Hg. destruct (Z.leb_spec low (low + i)); [|lia]. cbn [andb].
    destruct (Z.leb_spec (low + i) (low + zlen ds - 1)).
    + rewrite zget_zset_ne by lia. rewrite Hg1.
      destruct (Z.leb_spec low (low + (low + zlen ds - 1) - (low + i))), (Z.ltb_spec (low + (low + zlen ds - 1) - (low + i)) (low + zlen ds)); try lia.
      cbn [andb]. rewrite zget_app_l by (unfold zlen in *; rewrite length_reverse; lia).
      unfold zget, zlen in *. destruct (Z.leb_spec 0 i); [|lia].
      rewrite reverse_lookup by lia. destruct (Z.leb_spec 0 (low + (low + Z.of_nat (length ds) - 1) - (low + i) - low)); [|lia].
      f_equal. lia.
    + replace i with (zlen ds) by lia. rewrite zget_zset_eq by lia.
      rewrite zget_app_r by (unfold zlen in *; rewrite length_reverse; lia).
      replace (zlen ds - zlen (reverse ds)) with 0 by (unfold zlen; rewrite length_reverse; lia). done.
Qed.

Lemma atoi_from_spec fuel str p ds r :
  Forall (fun c => is_digit c = true) ds -> (length ds < fuel)%nat ->
  (forall i, 0 <= i <= zlen ds -> zget str (p + i) = zget (ds ++ [0]) i) ->
  atoi_from fuel str p r = Ok (foldl (fun r c => s32 (r * 10 + (c - 48))) r ds).
Proof.
  revert p ds r. induction fuel as [|fuel IH]; intros p ds r Hd Hf Hg; [lia|]. cbn [atoi_from].
  pose proof (Hg 0 ltac:(pose proof (zlen_nonneg ds); lia)) as H0. rewrite Z.add_0_r in H0.
  destruct ds as [|c ds].
  - by rewrite (ld_ok _ _ _ H0).
  - rewrite (ld_ok _ _ _ H0), Ok_bind. apply list.Forall_cons in Hd as [Hc Hd]. rewrite Hc.
    cbn [foldl]. apply IH; [done|simpl in Hf; lia|]. intros i Hi.
    replace (p + 1 + i) with (p + (i + 1)) by lia. rewrite Hg by (unfold zlen in *; simpl; lia).
    unfold zget. zcases. by replace (Z.to_nat (i + 1)) with (S (Z.to_nat i)) by lia.
Qed.

Lemma digits_le_range f n : 0 <= n -> Forall (fun c => is_digit c = true) (digits_le f n).
Proof.
  revert n. induction f as [|f IH]; intros n Hn; cbn [digits_le]; [done|].
  destruct (Z.eqb_spec n 0); [done|]. apply list.Forall_cons. split; [|apply IH, Z.div_pos; lia].
  pose proof (Z.mod_pos_bound n 10). unfold is_digit.
  destruct (Z.leb_spec 48 (n mod 10 + 48)), (Z.leb_spec (n mod 10 + 48) 57); try lia; done.
Qed.

(** Reading the digits back gives the number; no intermediate value wraps. *)
Lemma digits_value f n :
  0 <= n < 2 ^ Z.of_nat f -> n < 2 ^ 31 ->
  foldl (fun r c => s32 (r * 10 + (c - 48))) 0 (reverse (digits_le f n)) = n.
Proof.
  revert n. induction f as [|f IH]; intros n Hn Hb; cbn [digits_le].
  { change (2 ^ Z.of_nat 0) with 1 in Hn. simpl. lia. }
  destruct (Z.eqb_spec n 0); [simpl; lia|]. rewrite reverse_cons, foldl_app. cbn [foldl].
  rewrite Nat2Z.inj_succ, Z.pow_succ_r in Hn by lia.
  rewrite IH; [|split; [apply Z.div_pos; lia|apply Z.div_lt_upper_bound; lia]|apply Z.div_lt_upper_bound; lia].
  replace (n / 10 * 10 + (n mod 10 + 48 - 48)) with n by mlia. unfold s32. mlia.
Qed.

Lemma digits_nonempty n : 0 < n -> digits_le 31 n <> [].
Proof. intros. cbn [digits_le]. by destruct (Z.eqb_spec n 0); [lia|]. Qed.

(** Digits of a positive [int] at [low], read by [atoi_from]. *)
Lemma put_number_atoi str n max_size low :
  0 < n < 2 ^ 31 -> 0 <= low <= 1 -> 12 <= max_size <= zlen str ->
  total (fun str' => (forall i, i < low -> zget str' i = zget str i) /\ zlen str' = zlen str /\
      (exists c, zget str' low = Some c /\ is_digit c = true) /\
      atoi_from (S (length str')) str' low 0 = Ok n)
    (put_number str n 10 max_size low).
Proof.
  intros Hn Hlow Hmax. pose proof (digits_le_length 31 n 10) as Hd.
  change (10 ^ Z.of_nat 10) with 10000000000 in Hd. specialize (Hd ltac:(lia)).
  eapply post_conseq; [apply put_number_spec; unfold zlen in *; lia|].
  intros str' (Hl & Hlo & Hg). set (ds := digits_le 31 n) in *.
  assert (zlen (reverse ds) = zlen ds) as Hzr by (unfold zlen; by rewrite length_reverse).
  assert (Forall (fun c => is_digit c = true) (reverse ds)) as Hall by (by apply Forall_reverse, digits_le_range; lia).
  split_and!; [done|done| |].
  - pose proof (zlen_nonneg ds). specialize (Hg 0 ltac:(lia)). rewrite Z.add_0_r in Hg. rewrite Hg.
    destruct (reverse ds) as [|c r] eqn:E.
    + apply (f_equal reverse) in E. rewrite reverse_involutive in E. exfalso. by apply (digits_nonempty n); [lia|].
    + exists c. split; [done|]. by apply list.Forall_cons in Hall as [? _].
  - rewrite (atoi_from_spec _ _ _ (reverse ds)); [|done|unfold zlen in *; lia|rewrite Hzr; exact Hg].
    f_equal. apply digits_value; [|lia]. change (2 ^ Z.of_nat 31) with (2 ^ 31). lia.
Qed.

(** [atoi] reads back what [itoa] writes, for every [int] other than the
    most negative one, whose negation overflows. *)
Theorem itoa_atoi_roundtrip n str max_size :
  - 2 ^ 31 < n < 2 ^ 31 -> 12 <= max_size <= zlen str ->
  (str' ← itoa n str 10 max_size; atoi str') = Ok n.
Proof.
  intros Hn Hmax. unfold itoa, atoi. destruct (Z.ltb_spec max_size 2); [lia|].
  destruct (Z.eqb_spec n 0) as [->|Hnz].
  { rewrite st_ok, Ok_bind, st_ok, Ok_bind by (rewrite ?zlen_zset; lia).
    rewrite (ld_ok _ 0 48) by (rewrite zget_zset_ne, zget_zset_eq by lia; done). rewrite Ok_bind. change (48 =? 45) with false.
    rewrite (atoi_from_spec _ _ _ [48]); [done|by repeat constructor| |].
    - unfold zset. cbn [Z.leb]. change (length [48]) with 1%nat. unfold zlen in Hmax. simpl.
      rewrite !length_insert. lia.
    - intros i Hi. unfold zlen in Hi. simpl in Hi. rewrite !zget_zset by (rewrite ?zlen_zset; lia).
      destruct (Z.eq_dec i 0) as [->|]; [done|]. by replace i with 1 by lia. }
  change (10 =? 10) with true. destruct (Z.ltb_spec n 0); cbn [andb].
  - rewrite st_ok, Ok_bind by lia. assert (s32 (- n) = - n) as -> by (unfold s32; mlia).
    pose proof (put_number_atoi (zset str 0 45) (- n) max_size 1) as HP. rewrite zlen_zset in HP.
    specialize (HP ltac:(lia) ltac:(lia) ltac:(lia)).
    apply total_Ok in HP as (str' & E & Hlo & Hl & _ & Ha). rewrite E, Ok_bind.
    rewrite (ld_ok _ 0 45) by (rewrite Hlo, zget_zset_eq by lia; done). rewrite Ok_bind. cbn [Z.eqb Pos.eqb].
    rewrite Ha, Ok_bind. f_equal. unfold s32. mlia.
  - pose proof (put_number_atoi str n max_size 0 ltac:(lia) ltac:(lia) ltac:(lia)) as HP.
    apply total_Ok in HP as (str' & E & _ & Hl & (c & Hc & Hd) & Ha). rewrite E, Ok_bind.
    rewrite (ld_ok _ _ _ Hc), Ok_bind. destruct (Z.eqb_spec c 45) as [->|]; [done|].
    rewrite Ha, Ok_bind. f_equal. unfold s32. mlia.
Qed.

Lemma itoa_atoi_roundtrip_witness : (str' ← itoa (-1234) (replicate 12 0) 10 12; atoi str') = Ok (-1234).
Proof.
  apply (itoa_atoi_roundtrip (-1234) (replicate 12 0) 12).
  - split; vm_compute; reflexivity.
  - split; vm_compute; congruence.
Defined.
