(* ===== verification/Tar.v ===== *)
(** * Tar: the ustar reader and extractor, src/src/kernel/pkg/tar.c

    The archive is a byte list; names are byte lists without the NUL. The
    scanner is written over a callback, as in the source. The file-system
    calls of the extractor are an interface, [FsOps], with the laws the
    extractor relies on in [FsLaws]. *)

From S2P Require Import Prelude.

Definition TAR_BLOCK : Z := 512.

(** ** Header fields *)

Section fields.
Context (data : list Z).

Fixpoint octal_from (n : nat) (p v : Z) (seen : bool) : res Z :=
  match n with
  | O => Ok v
  | S n' =>
      c ← ld data p;
      if (c =? 0) || (c =? 32) then
        if seen then Ok v else octal_from n' (p + 1) v seen
      else if (c <? 48) || (55 <? c) then Ok v
      else octal_from n' (p + 1) (v * 8 + (c - 48)) true
  end.

Definition tar_octal (p n : Z) : res Z := octal_from (Z.to_nat n) p 0 false.

(** The string [strncpy] copies: at most [n] bytes, up to a NUL. *)
Fixpoint str_at (n : nat) (p : Z) : res (list Z) :=
  match n with
  | O => Ok []
  | S n' =>
      c ← ld data p;
      if c =? 0 then Ok [] else t ← str_at n' (p + 1); Ok (c :: t)
  end.
End fields.

Fixpoint strip_dot_slash (s : list Z) : list Z :=
  match s with
  | 46 :: 47 :: s' => strip_dot_slash s'
  | _ => s
  end.

Fixpoint strip_slashes (s : list Z) : list Z :=
  match s with
  | 47 :: s' => strip_slashes s'
  | _ => s
  end.

Definition strip_trailing (s : list Z) : list Z := reverse (strip_slashes (reverse s)).

Definition tar_normalize_name (inp : list Z) (outsz : Z) : option (list Z) :=
  let p := strip_slashes (strip_dot_slash inp) in
  match p with
  | [] => None
  | _ :: _ =>
      let out := strip_trailing p in
      if (zlen out =? 0) || (outsz <=? zlen out) then None else Some out
  end.

(** ** Scanning *)

Section iterate.
Context {C : Type} (cb : list Z -> Z -> list Z -> C -> C * bool) (data : list Z).

(** Full name of the entry whose header is at [pos]. *)
Definition entry_name (pos : Z) (longname : option (list Z)) : res (list Z) :=
  match longname with
  | Some l => Ok (c_string l)
  | None =>
      p0 ← ld data (pos + 345);
      if truthy p0 then
        pre ← str_at data 255 (pos + 345);
        if zlen pre <? 255 then
          nm ← str_at data (Z.to_nat (256 - zlen pre - 2)) pos;
          Ok (pre ++ [47] ++ nm)
        else Ok pre
      else str_at data 255 pos
  end.

Definition block_zero (pos : Z) : bool :=
  forallb (Z.eqb 0) (take (Z.to_nat TAR_BLOCK) (drop (Z.to_nat pos) data)).

(** One header: continue at a position with the pending long name, or stop
    with a return code. *)
Definition tar_step (s : Z * option (list Z) * C) : res ((Z * option (list Z) * C) + (Z * C)) :=
  let '(pos, longname, ctx) := s in
  if negb (pos + TAR_BLOCK <=? zlen data) then Ok (inr (0, ctx))
  else
    h0 ← ld data pos;
    if h0 =? 0 then
      if block_zero pos then Ok (inr (0, ctx)) else Ok (inl (pos + TAR_BLOCK, longname, ctx))
    else
      size ← tar_octal data (pos + 124) 12;
      typeflag ← ld data (pos + 156);
      if size <? 0 then Ok (inr (-1, ctx))
      else
        let data_len := (size + TAR_BLOCK - 1) / TAR_BLOCK * TAR_BLOCK in
        if zlen data <? pos + TAR_BLOCK + data_len then Ok (inr (-1, ctx))
        else
          let body := take (Z.to_nat size) (drop (Z.to_nat (pos + TAR_BLOCK)) data) in
          let next := pos + (TAR_BLOCK + data_len) in
          if typeflag =? 76 then
            let n := if 256 <=? size then 255 else size in
            Ok (inl (next, Some (take (Z.to_nat n) body), ctx))
          else
            full ← entry_name pos longname;
            match tar_normalize_name full 256 with
            | None => Ok (inl (next, None, ctx))
            | Some clean =>
                let '(ctx, stop) := cb clean typeflag body ctx in
                if (stop : bool) then Ok (inr (1, ctx)) else Ok (inl (next, None, ctx))
            end.

(** Every turn advances by at least one block. *)
Definition tar_iterate (ctx : C) : res (Z * C) :=
  loop (S (length data)) tar_step (0, None, ctx).
End iterate.

(** ** Looking up a member *)

Definition find_file_cb (want clean : list Z) (typeflag : Z) (body : list Z) (hit : option (list Z))
    : option (list Z) * bool :=
  if ((typeflag =? 48) || (typeflag =? 0)) && bool_decide (clean = want) then (Some body, true)
  else (hit, false).

Definition find_want (name : list Z) : list Z :=
  strip_slashes (match name with 46 :: 47 :: s => s | _ => name end).

Definition tar_find_file (data name : list Z) : res (list Z) :=
  r ← tar_iterate (find_file_cb (find_want name)) data None;
  let '(code, hit) := (r : Z * option (list Z)) in
  if code <? 0 then Err (-1) else match hit with None => Err (-1) | Some body => Ok body end.

(** ** Extraction *)

(** The file-system calls; a negative or non-zero [Z] is a failure as in the
    source, a file handle is the path it was resolved from. *)
Class FsOps (F : Type) := {
  fs_mkdir_p : F -> list Z -> F * Z;
  fs_resolve_path : F -> list Z -> bool;
  fs_create_file : F -> list Z -> F * bool;
  fs_write_file : F -> list Z -> list Z -> F * Z;
}.

Record extract_ctx (F : Type) : Type := mk_ext { ec_fs : F; ec_files : Z; ec_err : bool; ec_calls : list (list Z * Z) }.
Arguments mk_ext {F}.
Arguments ec_fs {F}.
Arguments ec_files {F}.
Arguments ec_err {F}.
Arguments ec_calls {F}.

(** [dirp] up to its last slash, when that is not the first character. *)
Fixpoint drop_last_component (s : list Z) : list Z :=
  match s with
  | [] => []
  | c :: s' => if bool_decide (47 ∈ s') then c :: drop_last_component s' else []
  end.

Section extract.
Context {F : Type} `{FsOps F}.

Definition is_file (typeflag : Z) : bool := (typeflag =? 48) || (typeflag =? 0).

Definition extract_cb (clean : list Z) (typeflag : Z) (body : list Z) (ec : extract_ctx F) : extract_ctx F * bool :=
  let fail fs := (mk_ext fs (ec_files ec) true (ec_calls ec), true) in
  if (typeflag =? 53) || (is_file typeflag && bool_decide (list.last clean = Some 47)) then
    let dirp := 47 :: clean in
    let dirp := if (1 <? zlen dirp) && bool_decide (list.last dirp = Some 47) then take (length dirp - 1) dirp else dirp in
    let '(fs, r) := fs_mkdir_p (ec_fs ec) dirp in
    if truthy r then fail fs else (mk_ext fs (ec_files ec) (ec_err ec) (ec_calls ec), false)
  else if is_file typeflag then
    let fp := 47 :: clean in
    let '(fs, r) :=
      if bool_decide (47 ∈ clean) then fs_mkdir_p (ec_fs ec) (drop_last_component fp) else (ec_fs ec, 0) in
    if truthy r then fail fs
    else
      let '(fs, ok) := if fs_resolve_path fs fp then (fs, true) else fs_create_file fs fp in
      if negb ok then fail fs
      else
        let '(fs, w) := fs_write_file fs fp body in
        if w <? 0 then fail fs
        else (mk_ext fs (ec_files ec + 1) (ec_err ec) (ec_calls ec ++ [(fp, u32 (zlen body))]), false)
  else (ec, false).

(** (return value, file system, progress calls) *)
Definition tar_extract (data : list Z) (fs : F) : res (Z * F * list (list Z * Z)) :=
  r ← tar_iterate extract_cb data (mk_ext fs 0 false []);
  let '(code, ec) := (r : Z * extract_ctx F) in
  Ok (if (code <? 0) || ec_err ec then -1 else ec_files ec, ec_fs ec, ec_calls ec).
End extract.

(** ** Names *)

Lemma strip_slashes_spec s : exists k, s = replicate k 47 ++ strip_slashes s /\ head (strip_slashes s) <> Some 47.
Proof.
  induction s as [|c s IH]; [exists 0%nat; done|].
  destruct (Z.eq_dec c 47) as [->|Hc].
  - destruct IH as (k & Hk & Hh). exists (S k). cbn [strip_slashes replicate app]. by rewrite <- Hk.
  - assert (strip_slashes (c :: s) = c :: s) as ->.
    { cbn [strip_slashes]. repeat (case_match; try done; try congruence). }
    exists 0%nat. split; [done|]. simpl. congruence.
Qed.

Lemma strip_dot_slash_spec s : exists pre, s = pre ++ strip_dot_slash s /\ Forall (fun c => c = 46 \/ c = 47) pre.
Proof.
  induction s as [s IH] using (induction_ltof1 _ length). unfold ltof in IH.
  destruct s as [|a [|b s]]; [exists []; done| |].
  { exists []. split; [|done]. simpl. repeat case_match; done. }
  destruct (Z.eq_dec a 46) as [->|Ha].
  - destruct (Z.eq_dec b 47) as [->|Hb].
    + destruct (IH s) as (pre & Hp & Hall); [simpl; lia|]. exists (46 :: 47 :: pre).
      cbn [strip_dot_slash app]. split; [by rewrite <- Hp|]. repeat (apply list.Forall_cons; split; auto).
    + exists []. split; [|done]. cbn [strip_dot_slash app]. repeat (case_match; try done; try congruence).
  - exists []. split; [|done]. cbn [strip_dot_slash app]. repeat (case_match; try done; try congruence).
Qed.

Lemma strip_trailing_spec s :
  exists k, s = strip_trailing s ++ replicate k 47 /\ list.last (strip_trailing s) <> Some 47.
Proof.
  destruct (strip_slashes_spec (reverse s)) as (k & Hk & Hh). exists k. unfold strip_trailing. split.
  - rewrite <- (reverse_involutive s) at 1. rewrite Hk at 1. by rewrite reverse_app, reverse_replicate.
  - rewrite last_reverse. done.
Qed.

Lemma normalize_shape inp sz out :
  tar_normalize_name inp sz = Some out ->
  out <> [] /\ head out <> Some 47 /\ list.last out <> Some 47 /\ zlen out < sz /\
  exists pre k, inp = pre ++ out ++ replicate k 47 /\ Forall (fun c => c = 46 \/ c = 47) pre.
Proof.
  unfold tar_normalize_name.
  destruct (strip_dot_slash_spec inp) as (pre & Hpre & Hdots).
  destruct (strip_slashes_spec (strip_dot_slash inp)) as (k & Hk & Hhead).
  destruct (strip_slashes (strip_dot_slash inp)) as [|c p] eqn:Ep; [done|].
  destruct (strip_trailing_spec (c :: p)) as (j & Hj & Hlast).
  destruct (Z.eqb_spec (zlen (strip_trailing (c :: p))) 0) as [|Hnz]; [done|].
  destruct (Z.leb_spec sz (zlen (strip_trailing (c :: p)))); [done|]. intros [= <-].
  assert (strip_trailing (c :: p) <> []) as Hne by (intros E; by rewrite E in Hnz).
  split_and!; try done.
  - destruct (strip_trailing (c :: p)) as [|c' p']; [done|]. cbn [app] in Hj. injection Hj as -> _. done.
  - exists (pre ++ replicate k 47), j. rewrite <- Hj, <- app_assoc, <- Hk. split; [done|].
    apply Forall_app_2; [done|]. apply Forall_replicate. by right.
Qed.

(** A normalized member name is never empty, absolute or a directory
    path: it does not start or end with a slash, it fits the buffer, and it is
    the archive's name without some leading dots and slashes and without
    trailing slashes. *)
Theorem tar_normalize_name_correct inp sz out :
  tar_normalize_name inp sz = Some out ->
  out <> [] /\ head out <> Some 47 /\ list.last out <> Some 47 /\ zlen out < sz /\
  exists pre k, inp = pre ++ out ++ replicate k 47 /\ Forall (fun c => c = 46 \/ c = 47) pre.
Proof. apply normalize_shape. Qed.

Lemma tar_normalize_name_correct_witness :
  ([97;47;98] : list Z) <> [] /\ head [97;47;98] <> Some 47 /\ list.last [97;47;98] <> Some 47 /\ zlen [97;47;98] < 256 /\
  exists pre k, [46;47;46;47;97;47;98;47] = pre ++ [97;47;98] ++ replicate k 47 /\ Forall (fun c => c = 46 \/ c = 47) pre.
Proof.
  apply (tar_normalize_name_correct [46;47;46;47;97;47;98;47] 256 [97;47;98]). vm_compute. reflexivity.
Defined.

(** ** Archives *)

(** [l] with zeros up to [n] bytes. *)
Definition zero_pad (n : Z) (l : list Z) : list Z := l ++ replicate (Z.to_nat (n - zlen l)) 0.

Fixpoint oct_digits (n : nat) (v : Z) : list Z :=
  match n with
  | O => []
  | S n' => oct_digits n' (v / 8) ++ [48 + v mod 8]
  end.

(** A ustar header with the fields the reader looks at: name, size, type and
    no prefix; the other fields are zero. *)
Definition ustar_header (name : list Z) (size flag : Z) : list Z :=
  zero_pad 124 name ++ oct_digits 11 size ++ zero_pad 21 [] ++ [flag] ++ zero_pad 355 [].

Record member : Type := mk_member { m_name : list Z; m_flag : Z; m_body : list Z }.

Definition member_ok (e : member) : Prop :=
  m_name e <> [] /\ zlen (m_name e) < 100 /\ 0 ∉ m_name e /\ m_flag e <> 76 /\ zlen (m_body e) < 8 ^ 11.

Definition write_member (e : member) : list Z :=
  ustar_header (m_name e) (zlen (m_body e)) (m_flag e) ++
  zero_pad ((zlen (m_body e) + 511) / 512 * 512) (m_body e).

Fixpoint archive (es : list member) : list Z :=
  match es with
  | [] => replicate 1024 0
  | e :: es' => write_member e ++ archive es'
  end.

Lemma zlen_zero_pad n l : zlen l <= n -> zlen (zero_pad n l) = n.
Proof. intros. unfold zero_pad. rewrite zlen_app, zlen_replicate. unfold zlen in *. lia. Qed.

Lemma zget_zero_pad n l i : zget (zero_pad n l) i = if i <? zlen l then zget l i else if i <? n then Some 0 else None.
Proof.
  unfold zero_pad. destruct (Z.ltb_spec i (zlen l)); [by apply zget_app_l|].
  rewrite zget_app_r by lia. destruct (Z.ltb_spec i n).
  - apply zget_replicate. lia.
  - apply zget_out_of_range. rewrite zlen_replicate. lia.
Qed.

Lemma zlen_oct n v : zlen (oct_digits n v) = Z.of_nat n.
Proof. revert v. induction n as [|n IH]; intros v; cbn [oct_digits]; [done|]. rewrite zlen_snoc, IH. lia. Qed.

Lemma zlen_header name size flag : zlen name < 100 -> zlen (ustar_header name size flag) = 512.
Proof.
  intros Hn. unfold ustar_header. rewrite !zlen_app, !zlen_zero_pad, zlen_oct by (unfold zlen in *; simpl; lia). done.
Qed.

(** Reads that stay in a window see only the window. *)
Lemma octal_from_shift data h d n p v seen :
  (forall i, p <= i < p + Z.of_nat n -> zget data (d + i) = zget h i) ->
  octal_from data n (d + p) v seen = octal_from h n p v seen.
Proof.
  revert p v seen. induction n as [|n IH]; intros p v seen Hw; [done|]. cbn [octal_from].
  unfold ld. rewrite Hw by lia. destruct (zget h p) as [c|]; [|done]. rewrite !Ok_bind.
  rewrite <- !Z.add_assoc, !IH by (intros; apply Hw; lia). done.
Qed.

Lemma str_at_shift data h d n p :
  (forall i, p <= i < p + Z.of_nat n -> zget data (d + i) = zget h i) -> str_at data n (d + p) = str_at h n p.
Proof.
  revert p. induction n as [|n IH]; intros p Hw; [done|]. cbn [str_at].
  unfold ld. rewrite Hw by lia. destruct (zget h p) as [c|]; [|done]. rewrite !Ok_bind.
  rewrite <- Z.add_assoc, IH by (intros; apply Hw; lia). done.
Qed.

Lemma str_at_string n data p s :
  0 ∉ s -> (length s < n)%nat -> (forall i, 0 <= i <= zlen s -> zget data (p + i) = zget (s ++ [0]) i) ->
  str_at data n p = Ok s.
Proof.
  revert p s. induction n as [|n IH]; intros p s H0 Hn Hw; [lia|]. cbn [str_at].
  pose proof (Hw 0 ltac:(pose proof (zlen_nonneg s); lia)) as Hc. rewrite Z.add_0_r in Hc.
  destruct s as [|c s]; [by rewrite (ld_ok _ _ _ Hc)|]. change (zget ((c :: s) ++ [0]) 0) with (Some c) in Hc.
  rewrite (ld_ok _ _ _ Hc), Ok_bind. apply not_elem_of_cons in H0 as [Hc0 H0].
  destruct (Z.eqb_spec c 0); [congruence|]. rewrite (IH (p + 1) s); [done|done|simpl in Hn; lia|].
  intros i Hi. replace (p + 1 + i) with (p + (i + 1)) by lia. rewrite Hw by (unfold zlen in *; simpl; lia).
  unfold zget. zcases. by replace (Z.to_nat (i + 1)) with (S (Z.to_nat i)) by lia.
Qed.

Lemma octal_from_digits ds n data p v seen :
  Forall (fun c => 48 <= c <= 55) ds -> (length ds < n)%nat -> (seen = true \/ ds <> []) ->
  (forall i, 0 <= i <= zlen ds -> zget data (p + i) = zget (ds ++ [0]) i) ->
  octal_from data n p v seen = Ok (foldl (fun v c => v * 8 + (c - 48)) v ds).
Proof.
  revert n p v seen. induction ds as [|c ds IH]; intros n p v seen Hd Hn Hs Hw; (destruct n as [|n]; [simpl in Hn; lia|]);
    cbn [octal_from]; pose proof (Hw 0 ltac:(unfold zlen; simpl; lia)) as Hc; rewrite Z.add_0_r in Hc;
    rewrite (ld_ok _ _ _ Hc), Ok_bind.
  - destruct Hs as [->|]; done.
  - apply list.Forall_cons in Hd as [Hr Hd].
    destruct (Z.eqb_spec c 0), (Z.eqb_spec c 32), (Z.ltb_spec c 48), (Z.ltb_spec 55 c); try lia. cbn [orb foldl].
    apply IH; [done|simpl in Hn; lia|by left|].
    intros i Hi. replace (p + 1 + i) with (p + (i + 1)) by lia. rewrite Hw by (unfold zlen in *; simpl; lia).
    unfold zget. zcases. by replace (Z.to_nat (i + 1)) with (S (Z.to_nat i)) by lia.
Qed.

Lemma oct_value n v : 0 <= v < 8 ^ Z.of_nat n ->
  foldl (fun v c => v * 8 + (c - 48)) 0 (oct_digits n v) = v /\ Forall (fun c => 48 <= c <= 55) (oct_digits n v).
Proof.
  revert v. induction n as [|n IH]; intros v Hv; cbn [oct_digits].
  { change (8 ^ Z.of_nat 0) with 1 in Hv. split; [simpl; lia|done]. }
  rewrite Nat2Z.inj_succ, Z.pow_succ_r in Hv by lia.
  destruct (IH (v / 8)) as [Hf Ha]; [split; [apply Z.div_pos; lia|apply Z.div_lt_upper_bound; lia]|].
  rewrite foldl_app, Hf. cbn [foldl]. split; [mlia|].
  apply Forall_app_2; [done|]. apply list.Forall_cons. split; [mlia|done].
Qed.

(** The fields of a written header. *)
Lemma header_fields name size flag :
  name <> [] -> zlen name < 100 -> 0 ∉ name -> 0 <= size < 8 ^ 11 ->
  let h := ustar_header name size flag in
  (exists c, zget h 0 = Some c /\ c <> 0) /\ tar_octal h 124 12 = Ok size /\ zget h 156 = Some flag /\
  zget h 345 = Some 0 /\ str_at h 255 0 = Ok name.
Proof.
  intros Hne Hn H0 Hs h. pose proof (zlen_nonneg name).
  assert (zlen (zero_pad 124 name) = 124) as E1 by (apply zlen_zero_pad; lia).
  assert (forall i, i < 124 -> zget h i = zget (zero_pad 124 name) i) as Hname.
  { intros i Hi. unfold h, ustar_header. by rewrite zget_app_l by lia. }
  assert (forall i, 0 <= i <= zlen name -> zget h (0 + i) = zget (name ++ [0]) i) as Hstr.
  { intros i Hi. rewrite Z.add_0_l, Hname, zget_zero_pad by lia. destruct (Z.ltb_spec i (zlen name)).
    - by rewrite zget_app_l by lia.
    - rewrite zget_app_r by lia. replace (i - zlen name) with 0 by lia. by destruct (Z.ltb_spec i 124); [|lia]. }
  assert (forall i, 0 <= i <= 11 -> zget h (124 + i) = zget (oct_digits 11 size ++ [0]) i) as Hoct.
  { intros i Hi. unfold h, ustar_header. rewrite zget_app_r by lia. rewrite E1. replace (124 + i - 124) with i by lia.
    destruct (Z.eq_dec i 11) as [->|].
    - rewrite !zget_app_r by (rewrite zlen_oct; lia). rewrite zlen_oct. done.
    - rewrite !zget_app_l by (rewrite zlen_oct; lia). done. }
  assert (forall i, 157 <= i < 512 -> zget h i = Some 0) as Hrest.
  { intros i Hi. unfold h, ustar_header. rewrite zget_app_r by lia. rewrite E1.
    rewrite zget_app_r by (rewrite zlen_oct; lia). rewrite zlen_oct.
    rewrite zget_app_r by (rewrite zlen_zero_pad; [lia|done]). rewrite zlen_zero_pad by done.
    rewrite zget_app_r by (change (zlen [flag]) with 1; lia). change (zlen [flag]) with 1.
    rewrite zget_zero_pad. change (zlen (@nil Z)) with 0.
    destruct (Z.ltb_spec (i - 124 - Z.of_nat 11 - 21 - 1) 0); [lia|].
    by destruct (Z.ltb_spec (i - 124 - Z.of_nat 11 - 21 - 1) 355); [|lia]. }
  split_and!.
  - destruct name as [|c name]; [done|]. exists c. split; [|set_solver].
    rewrite <- (Z.add_0_l 0), Hstr by lia. done.
  - destruct (oct_value 11 size Hs) as [Hv Hd]. unfold tar_octal.
    rewrite (octal_from_digits (oct_digits 11 size)); [by rewrite Hv|done| | |].
    + pose proof (zlen_oct 11 size) as Hz. unfold zlen in Hz. lia.
    + right. intros E. pose proof (zlen_oct 11 size) as Hz. rewrite E in Hz. done.
    + rewrite zlen_oct. exact Hoct.
  - unfold h, ustar_header. rewrite zget_app_r by lia. rewrite E1.
    rewrite zget_app_r by (rewrite zlen_oct; lia). rewrite zlen_oct.
    rewrite zget_app_r by (rewrite zlen_zero_pad; [lia|done]). rewrite zlen_zero_pad by done. done.
  - apply Hrest. lia.
  - apply str_at_string; [done|unfold zlen in Hn; lia|exact Hstr].
Qed.

Lemma zlen_write_member e : member_ok e ->
  zlen (write_member e) = 512 + (zlen (m_body e) + 511) / 512 * 512.
Proof.
  intros (_ & Hn & _). unfold write_member. rewrite zlen_app, zlen_header by done.
  rewrite zlen_zero_pad; [done|]. pose proof (zlen_nonneg (m_body e)). mlia.
Qed.

Section archives.
Context {C : Type} (cb : list Z -> Z -> list Z -> C -> C * bool).

(** The callback on every member in order, until it stops. *)
Fixpoint visit (es : list member) (ctx : C) : Z * C :=
  match es with
  | [] => (0, ctx)
  | e :: es' =>
      match tar_normalize_name (m_name e) 256 with
      | None => visit es' ctx
      | Some clean =>
          let '(ctx, stop) := cb clean (m_flag e) (m_body e) ctx in
          if (stop : bool) then (1, ctx) else visit es' ctx
      end
  end.

Lemma zget_mid (pre l post : list Z) i : 0 <= i < zlen l -> zget (pre ++ l ++ post) (zlen pre + i) = zget l i.
Proof.
  intros Hi. rewrite zget_app_r by lia. replace (zlen pre + i - zlen pre) with i by lia.
  by rewrite zget_app_l by lia.
Qed.

Lemma tar_step_member pre e rest ctx :
  member_ok e ->
  tar_step cb (pre ++ write_member e ++ rest) (zlen pre, None, ctx) =
    match tar_normalize_name (m_name e) 256 with
    | None => Ok (inl (zlen (pre ++ write_member e), None, ctx))
    | Some clean =>
        let '(ctx, stop) := cb clean (m_flag e) (m_body e) ctx in
        if (stop : bool) then Ok (inr (1, ctx)) else Ok (inl (zlen (pre ++ write_member e), None, ctx))
    end.
Proof.
  intros He. pose proof He as (Hne & Hn & H0 & Hfl & Hsz). pose proof (zlen_nonneg (m_body e)).
  pose proof (zlen_write_member e He) as Hlen.
  pose proof (header_fields (m_name e) (zlen (m_body e)) (m_flag e) Hne Hn H0 ltac:(lia)) as Hf. cbv zeta in Hf.
  pose proof (zlen_header (m_name e) (zlen (m_body e)) (m_flag e) Hn) as Hh.
  unfold write_member in *. set (h := ustar_header _ _ _) in *. set (bd := zero_pad _ (m_body e)) in *.
  destruct Hf as ((c & Hc & Hc0) & Hoct & Hflag & Hpfx & Hstr).
  set (data := pre ++ (h ++ bd) ++ rest).
  assert (forall i, 0 <= i < 512 -> zget data (zlen pre + i) = zget h i) as Hw.
  { intros i Hi. unfold data. rewrite <- app_assoc. apply zget_mid. lia. }
  assert (zlen data = zlen pre + zlen (h ++ bd) + zlen rest) as Hd by (unfold data; rewrite !zlen_app; lia).
  pose proof (zlen_nonneg rest). unfold tar_step, TAR_BLOCK.
  destruct (Z.leb_spec (zlen pre + 512) (zlen data)); [|mlia]. cbn [negb].
  rewrite (ld_ok _ (zlen pre) c) by (rewrite <- (Z.add_0_r (zlen pre)), Hw by lia; done). rewrite Ok_bind.
  destruct (Z.eqb_spec c 0); [done|]. unfold tar_octal.
  rewrite (octal_from_shift data h (zlen pre)) by (intros; apply Hw; lia). unfold tar_octal in Hoct. rewrite Hoct, Ok_bind.
  rewrite (ld_ok _ _ (m_flag e)) by (by rewrite Hw by lia). rewrite Ok_bind.
  destruct (Z.ltb_spec (zlen (m_body e)) 0); [lia|].
  replace (zlen (m_body e) + 512 - 1) with (zlen (m_body e) + 511) by lia.
  destruct (Z.ltb_spec (zlen data) (zlen pre + 512 + (zlen (m_body e) + 511) / 512 * 512)); [lia|].
  destruct (Z.eqb_spec (m_flag e) 76); [done|]. unfold entry_name.
  rewrite (ld_ok _ _ 0) by (by rewrite Hw by lia). rewrite Ok_bind. change (truthy 0) with false. cbv iota.
  rewrite <- (Z.add_0_r (zlen pre)) at 1. rewrite (str_at_shift data h) by (intros; apply Hw; lia). rewrite Hstr, Ok_bind.
  assert (take (Z.to_nat (zlen (m_body e))) (drop (Z.to_nat (zlen pre + 512)) data) = m_body e) as ->.
  { unfold data. rewrite <- app_assoc, app_assoc.
    replace (Z.to_nat (zlen pre + 512)) with (length (pre ++ h)) by (unfold zlen in *; rewrite length_app; lia).
    rewrite drop_app_length. unfold bd, zero_pad, zlen. rewrite Nat2Z.id, <- app_assoc. apply take_app_length. }
  rewrite zlen_app, Hlen. done.
Qed.

(** The end-of-archive blocks stop the scan. *)
Lemma tar_step_end pre ctx :
  tar_step cb (pre ++ replicate 1024 0) (zlen pre, None, ctx) = Ok (inr (0, ctx)).
Proof.
  unfold tar_step, TAR_BLOCK. rewrite zlen_app, zlen_replicate.
  destruct (Z.leb_spec (zlen pre + 512) (zlen pre + Z.of_nat 1024)); [|lia]. cbn [negb].
  assert (zget (pre ++ replicate 1024 0) (zlen pre) = Some 0) as H0.
  { rewrite zget_app_r, Z.sub_diag by lia. apply zget_replicate. lia. }
  rewrite (ld_ok _ _ _ H0), Ok_bind. cbn [Z.eqb].
  assert (block_zero (pre ++ replicate 1024 0) (zlen pre) = true) as ->; [|done].
  unfold block_zero, TAR_BLOCK, zlen. rewrite Nat2Z.id, drop_app_length. vm_compute. done.
Qed.

Lemma tar_loop_archive pre es ctx fuel :
  Forall member_ok es -> (length es < fuel)%nat ->
  loop fuel (tar_step cb (pre ++ archive es)) (zlen pre, None, ctx) = Ok (visit es ctx).
Proof.
  intros Hes. revert pre ctx fuel. induction Hes as [|e es He Hes IH]; intros pre ctx fuel Hf;
    (destruct fuel as [|fuel]; [simpl in Hf; lia|]); cbn [loop archive visit].
  - by rewrite tar_step_end.
  - rewrite tar_step_member by done. simpl in Hf.
    assert (forall ctx', loop fuel (tar_step cb (pre ++ write_member e ++ archive es))
      (zlen (pre ++ write_member e), None, ctx') = Ok (visit es ctx')) as Hrec.
    { intros ctx'. rewrite app_assoc. apply IH. lia. }
    destruct (tar_normalize_name (m_name e) 256) as [clean|]; [|apply Hrec].
    destruct (cb clean (m_flag e) (m_body e) ctx) as [ctx' []]; [done|apply Hrec].
Qed.

Lemma archive_length es : (length es < length (archive es))%nat.
Proof.
  induction es as [|e es IH]; [vm_compute; lia|]. cbn [archive length]. rewrite length_app.
  assert (0 < length (write_member e))%nat; [|lia].
  unfold write_member, ustar_header. rewrite !length_app. simpl. lia.
Qed.

Lemma tar_iterate_archive es ctx : Forall member_ok es -> tar_iterate cb (archive es) ctx = Ok (visit es ctx).
Proof.
  intros Hes. unfold tar_iterate. apply (tar_loop_archive []); [done|]. pose proof (archive_length es). lia.
Qed.
End archives.

(** The first regular member with a given normalized name. *)
Fixpoint lookup_member (es : list member) (want : list Z) : option (list Z) :=
  match es with
  | [] => None
  | e :: es' =>
      if is_file (m_flag e) && bool_decide (tar_normalize_name (m_name e) 256 = Some want) then Some (m_body e)
      else lookup_member es' want
  end.

Lemma visit_find want es :
  visit (find_file_cb want) es None =
    match lookup_member es want with Some b => (1, Some b) | None => (0, None) end.
Proof.
  induction es as [|e es IH]; [done|]. cbn [visit lookup_member]. unfold find_file_cb, is_file in *.
  destruct (tar_normalize_name (m_name e) 256) as [clean|] eqn:E.
  - rewrite (bool_decide_ext (Some clean = Some want) (clean = want)) by (split; congruence).
    destruct (_ && _); [done|exact IH].
  - rewrite bool_decide_eq_false_2, andb_false_r by congruence. exact IH.
Qed.

(** C28: Round trip with an archive writer: in an archive of members written
    with ustar headers, looking up a path returns the body of the first
    regular member whose normalized name is that path, and fails exactly when
    there is none. *)
Theorem tar_find_file_roundtrip es name :
  Forall member_ok es ->
  tar_find_file (archive es) name =
    match lookup_member es (find_want name) with Some b => Ok b | None => Err (-1) end.
Proof.
  intros Hes. unfold tar_find_file. rewrite tar_iterate_archive, Ok_bind by done. rewrite visit_find.
  by destruct (lookup_member es (find_want name)).
Qed.

(** "./a" with body "hi" and "./d/b" with body "xyz". *)
Definition two_files : list member :=
  [mk_member [46;47;97] 48 [104;105]; mk_member [46;47;100;47;98] 48 [120;121;122]].

Lemma two_files_ok : Forall member_ok two_files.
Proof.
  repeat (apply list.Forall_cons; split); [..|apply list.Forall_nil; exact I];
    (split_and!; [discriminate|reflexivity|apply (bool_decide_unpack _); reflexivity|discriminate|reflexivity]).
Qed.

Lemma tar_find_file_roundtrip_witness : tar_find_file (archive two_files) [47;100;47;98] = Ok [120;121;122].
Proof. rewrite (tar_find_file_roundtrip two_files [47;100;47;98] two_files_ok). vm_compute. reflexivity. Defined.

(** ** Extraction against the file-system interface *)

(** What the extractor relies on: making directories and creating files keep
    the contents of the other files; a write that succeeds stores the data and
    nothing else. *)
Class FsLaws (F : Type) `{FsOps F} := {
  fs_read : F -> list Z -> option (list Z);
  mkdir_read : forall f p f' q, fs_mkdir_p f p = (f', 0) -> fs_read f' q = fs_read f q;
  create_read : forall f p f' q, fs_create_file f p = (f', true) -> q <> p -> fs_read f' q = fs_read f q;
  write_read : forall f p b f' w, fs_write_file f p b = (f', w) -> 0 <= w ->
    fs_read f' p = Some b /\ forall q, q <> p -> fs_read f' q = fs_read f q;
}.

(** The files of an archive: path and contents of the regular members with a
    usable name, in order. *)
Definition member_file (e : member) : option (list Z * list Z) :=
  if is_file (m_flag e) then
    clean ← tar_normalize_name (m_name e) 256; Some (47 :: clean, m_body e)
  else None.

Definition archive_files (es : list member) : list (list Z * list Z) := omap member_file es.

(** Contents after the files have been written in order. *)
Definition overlay (files : list (list Z * list Z)) (read : list Z -> option (list Z)) (q : list Z) : option (list Z) :=
  foldl (fun acc pb => if bool_decide (q = fst pb) then Some (snd pb) else acc) (read q) files.

Section extraction.
Context {F : Type} `{FsLaws F}.

Lemma extract_cb_file clean flag body ec ec' :
  is_file flag = true -> list.last clean <> Some 47 -> extract_cb clean flag body ec = (ec', false) ->
  ec_files ec' = ec_files ec + 1 /\ ec_err ec' = ec_err ec /\
  ec_calls ec' = ec_calls ec ++ [(47 :: clean, u32 (zlen body))] /\
  fs_read (ec_fs ec') (47 :: clean) = Some body /\
  forall q, q <> 47 :: clean -> fs_read (ec_fs ec') q = fs_read (ec_fs ec) q.
Proof.
  intros Hf Hl. unfold extract_cb. rewrite Hf, (bool_decide_eq_false_2 (list.last clean = _)) by done.
  assert (flag =? 53 = false) as -> by (unfold is_file in Hf; destruct (Z.eqb_spec flag 53) as [->|]; done).
  cbn [orb andb].
  destruct (if bool_decide (47 ∈ clean) then _ else _) as [fs1 r1] eqn:E1.
  unfold truthy. destruct (Z.eqb_spec r1 0) as [->|]; cbn [negb]; [|by intros [= _ ?]].
  assert (forall q, fs_read fs1 q = fs_read (ec_fs ec) q) as Hmk.
  { intros q. case_bool_decide; [by eapply mkdir_read|]. by injection E1 as <-. }
  destruct (if fs_resolve_path fs1 _ then _ else _) as [fs2 ok] eqn:E2.
  destruct ok; cbn [negb]; [|by intros [= _ ?]].
  assert (forall q, q <> 47 :: clean -> fs_read fs2 q = fs_read fs1 q) as Hres.
  { intros q Hq. destruct (fs_resolve_path fs1 _); [by injection E2 as <-|]. by eapply create_read. }
  destruct (fs_write_file fs2 (47 :: clean) body) as [fs3 w] eqn:E3.
  destruct (Z.ltb_spec w 0); [by intros [= _ ?]|]. intros [= <-].
  destruct (write_read _ _ _ _ _ E3 ltac:(done)) as [Hw1 Hw2]. cbn [ec_fs ec_files ec_err ec_calls].
  split_and!; try done. intros q Hq. by rewrite Hw2, Hres, Hmk.
Qed.

Lemma extract_cb_other clean flag body ec ec' :
  is_file flag = false -> extract_cb clean flag body ec = (ec', false) ->
  ec_files ec' = ec_files ec /\ ec_err ec' = ec_err ec /\ ec_calls ec' = ec_calls ec /\
  forall q, fs_read (ec_fs ec') q = fs_read (ec_fs ec) q.
Proof.
  intros Hf. unfold extract_cb. rewrite Hf. cbn [andb]. rewrite orb_false_r. destruct (flag =? 53).
  - destruct (fs_mkdir_p (ec_fs ec) _) as [fs1 r1] eqn:E1. unfold truthy.
    destruct (Z.eqb_spec r1 0) as [->|]; cbn [negb]; [|by intros [= _ ?]]. intros [= <-].
    cbn [ec_fs ec_files ec_err ec_calls]. split_and!; try done. intros q. by eapply mkdir_read.
  - intros [= <-]. done.
Qed.

(** A callback that stops has recorded an error. *)
Lemma extract_cb_stop clean flag body ec ec' : extract_cb clean flag body ec = (ec', true) -> ec_err ec' = true.
Proof.
  unfold extract_cb. destruct (_ || _).
  { destruct (fs_mkdir_p _ _) as [fs1 r1]. destruct (truthy r1); [by intros [= <-]|by intros [= _ ?]]. }
  destruct (is_file flag); [|by intros [= _ ?]].
  destruct (if bool_decide (47 ∈ clean) then _ else _) as [fs1 r1]. destruct (truthy r1); [by intros [= <-]|].
  destruct (if fs_resolve_path _ _ then _ else _) as [fs2 ok]. destruct (negb ok); [by intros [= <-]|].
  destruct (fs_write_file _ _ _) as [fs3 w]. destruct (w <? 0); [by intros [= <-]|by intros [= _ ?]].
Qed.

Lemma visit_extract es ec code ec' :
  visit extract_cb es ec = (code, ec') -> ec_err ec' = false ->
  let files := archive_files es in
  code = 0 /\ ec_files ec' = ec_files ec + zlen files /\
  ec_calls ec' = ec_calls ec ++ ((fun pb => (fst pb, u32 (zlen (snd pb)))) <$> files) /\
  forall q, fs_read (ec_fs ec') q = overlay files (fs_read (ec_fs ec)) q.
Proof.
  revert ec. induction es as [|e es IH]; intros ec Hv Herr; cbn [visit] in Hv.
  { simplify_eq. split_and!; [done|unfold zlen; simpl; lia|by rewrite app_nil_r|done]. }
  change (archive_files (e :: es)) with
    (match member_file e with Some y => y :: archive_files es | None => archive_files es end).
  unfold member_file. destruct (tar_normalize_name (m_name e) 256) as [clean|] eqn:En.
  2:{ assert ((if is_file (m_flag e) then clean ← None; Some (47 :: clean, m_body e) else None) = @None (list Z * list Z))
        as -> by (by destruct (is_file (m_flag e))). by apply IH. }
  destruct (extract_cb clean (m_flag e) (m_body e) ec) as [ec1 stop] eqn:Ec. destruct stop.
  { simplify_eq. apply extract_cb_stop in Ec. congruence. }
  destruct (IH ec1 Hv Herr) as (Hc & Hn & Hcalls & Hread).
  destruct (is_file (m_flag e)) eqn:Ef; cbn [mbind option_bind].
  - apply normalize_shape in En as (_ & _ & Hlast & _).
    destruct (extract_cb_file _ _ _ _ _ Ef Hlast Ec) as (Hn1 & _ & Hcalls1 & Hr1 & Hr2).
    split_and!; [done| | |].
    + rewrite Hn, Hn1. unfold zlen. cbn [length]. lia.
    + rewrite Hcalls, Hcalls1, <- app_assoc. done.
    + intros q. rewrite Hread. unfold overlay. cbn [foldl fst snd]. f_equal. case_bool_decide as Hq; [by subst|by apply Hr2].
  - destruct (extract_cb_other _ _ _ _ _ Ef Ec) as (Hn1 & _ & Hcalls1 & Hr).
    split_and!; [done|by rewrite Hn, Hn1|by rewrite Hcalls, Hcalls1|].
    intros q. rewrite Hread. unfold overlay. f_equal. apply Hr.
Qed.

(** When extraction of a written archive reports success, the count is
    the number of regular members, the progress callback saw each of them, and
    every path holds the contents of the last regular member extracted to it,
    all other files being as before. *)
Theorem tar_extract_correct es fs n fs' calls :
  Forall member_ok es -> tar_extract (archive es) fs = Ok (n, fs', calls) -> 0 <= n ->
  let files := archive_files es in
  n = zlen files /\ calls = ((fun pb => (fst pb, u32 (zlen (snd pb)))) <$> files) /\
  forall q, fs_read fs' q = overlay files (fs_read fs) q.
Proof.
  intros Hes. unfold tar_extract. rewrite tar_iterate_archive, Ok_bind by done.
  destruct (visit extract_cb es _) as [code ec] eqn:Ev.
  destruct (ec_err ec) eqn:Eerr; [rewrite orb_true_r; intros; simplify_eq; lia|].
  destruct (visit_extract _ _ _ _ Ev Eerr) as (-> & Hn & Hc & Hr). cbn [Z.ltb orb].
  intros [= <- <- <-] _. cbn [ec_files ec_calls ec_fs app] in *. split_and!; [rewrite Hn; lia|done|done].
Qed.
End extraction.

(** A file system that keeps contents by path. *)
#[global] Instance map_fs_ops : FsOps (gmap (list Z) (list Z)) := {
  fs_mkdir_p f _ := (f, 0);
  fs_resolve_path f p := bool_decide (is_Some (f !! p));
  fs_create_file f p := (<[p := []]> f, true);
  fs_write_file f p b := (<[p := b]> f, zlen b);
}.

#[global] Instance map_fs_laws : FsLaws (gmap (list Z) (list Z)).
Proof.
  refine {| fs_read := fun f p => f !! p |}.
  - intros f p f' q [= <-]. reflexivity.
  - intros f p f' q [= <-] Hq. by apply lookup_insert_ne.
  - intros f p b f' w [= <- <-] _. split; [apply lookup_insert_eq|]. intros q Hq. by apply lookup_insert_ne.
Defined.

Lemma tar_extract_correct_witness :
  match tar_extract (archive two_files) (∅ : gmap (list Z) (list Z)) with
  | Ok (n, fs', calls) =>
      n = 2 /\ calls = [([47;97], 2); ([47;100;47;98], 3)] /\ fs_read fs' [47;97] = Some [104;105]
  | _ => False
  end.
Proof.
  destruct (tar_extract (archive two_files) (∅ : gmap (list Z) (list Z))) as [[[n fs'] calls]| | |] eqn:E.
  - assert (0 <= n) as Hn.
    { assert (match tar_extract (archive two_files) (∅ : gmap (list Z) (list Z)) with
        | Ok (n, _, _) => 0 <=? n | _ => false end = true) as X by (vm_compute; reflexivity).
      rewrite E in X. lia. }
    destruct (tar_extract_correct two_files ∅ n fs' calls two_files_ok E Hn) as (H1 & H2 & H3).
    split; [exact H1|]. split; [exact H2|]. rewrite H3. vm_compute. reflexivity.
  - vm_compute in E. discriminate E.
  - vm_compute in E. discriminate E.
  - vm_compute in E. discriminate E.
Defined.

(** A one-block archive whose prefix field, and the rest of the block after
    it, has no NUL. *)
Definition no_nul_prefix : list Z :=
  zero_pad 124 [97] ++ oct_digits 11 0 ++ zero_pad 21 [] ++ [48] ++ zero_pad 188 [] ++ replicate 167 120.

(** A prefix field without a NUL is read past the end of the archive:
    [strncpy] takes up to 255 bytes from offset 345 of a 512-byte block. *)
Theorem tar_prefix_overrun name : zlen no_nul_prefix = 512 /\ tar_find_file no_nul_prefix name = Fault.
Proof. split; [vm_compute; reflexivity|]. unfold tar_find_file. vm_compute. reflexivity. Qed.
