(* ===== verification/Vmm.v ===== *)
(** * Virtual memory: four-level page tables and address spaces

    The VMM half of src/src/kernel/mm/memory.c. Physical memory is a map from
    8-aligned addresses to 64-bit words (the kernel reaches all of it through
    the identity map), the CPU's control registers and its TLB are part of the
    state, and the frame allocator is an interface that the physical memory
    manager of Pmm.v implements. *)

From S2P Require Import Prelude Pmm.

(** ** The frame allocator as seen from the page-table code *)

(** [pmm_alloc_page] and [pmm_free_page]; [frame_used] tells whether a page
    number is taken. *)
Class FrameAlloc (A : Type) := {
  frame_alloc : A -> Z * A;
  frame_free : A -> Z -> A;
  frame_wf : A -> Prop;
  frame_used : A -> Z -> bool
}.

Class FrameLaws (A : Type) `{FrameAlloc A} := {
  frame_alloc_spec : forall a p a', frame_wf a -> frame_alloc a = (p, a') ->
    frame_wf a' /\
    ((p = 0 /\ a' = a /\ forall q, 0 <= q < PMM_MAX_PAGES -> frame_used a q = true) \/
     (0 < p < 4294967296 /\ p mod 4096 = 0 /\ frame_used a (p / 4096) = false /\
      forall q, 0 <= q -> frame_used a' q = (q =? p / 4096) || frame_used a q));
  frame_free_spec : forall a p, frame_wf a -> 0 < p < 4294967296 -> p mod 4096 = 0 ->
    frame_wf (frame_free a p) /\
    forall q, 0 <= q -> frame_used (frame_free a p) q = negb (q =? p / 4096) && frame_used a q
}.

(** ** Physical memory, by words *)

Notation pmem := (gmap Z Z).

Definition rd64 (m : pmem) (a : Z) : Z := default 0 (m !! a).
Definition wr64 (m : pmem) (a v : Z) : pmem := <[a := v]> m.

(** [t[i]] for a table of 64-bit entries at [t]. *)
Definition ent (m : pmem) (t i : Z) : Z := rd64 m (t + 8 * i).
Definition set_ent (m : pmem) (t i v : Z) : pmem := wr64 m (t + 8 * i) v.

(** [for (i = 0; i < 512; i++) t[i] = g(i)], where [g] may read memory. *)
Definition fill_table (t : Z) (g : pmem -> Z -> Z) (m : pmem) : res pmem :=
  for_ 0 512 (fun i m => Ok (set_ent m t i (g m i))) m.

(** [memset((void* )t, 0, PAGE_SIZE)] *)
Definition zero_page (t : Z) (m : pmem) : res pmem := fill_table t (fun _ _ => 0) m.

(** ** Page-table entries *)

Definition VMM_PRESENT : Z := 1.
Definition VMM_WRITABLE : Z := 2.
Definition VMM_USER : Z := 4.
Definition VMM_HUGE : Z := 128.
Definition VMM_NX : Z := 2 ^ 63.

(** [~0xFFF] on 64 bits, and the two masks of [vmm_get_phys]. *)
Definition PAGE_MASK : Z := 2 ^ 64 - 2 ^ 12.
Definition PHYS_MASK : Z := 2 ^ 52 - 2 ^ 12.
Definition HUGE_MASK : Z := 2 ^ 60 - 2 ^ 20.

Definition present (e : Z) : bool := truthy (Z.land e VMM_PRESENT).
Definition huge (e : Z) : bool := truthy (Z.land e VMM_HUGE).
Definition user (e : Z) : bool := truthy (Z.land e VMM_USER).
Definition entry_addr (e : Z) : Z := Z.land e PAGE_MASK.

Definition vmm_make_entry (phys flags : Z) : Z :=
  Z.lor (Z.lor (Z.lor (Z.land phys PAGE_MASK) (Z.land flags 4095)) (Z.land flags VMM_NX)) VMM_PRESENT.

Definition pml4i (virt : Z) : Z := Z.land (Z.shiftr virt 39) 511.
Definition pdpti (virt : Z) : Z := Z.land (Z.shiftr virt 30) 511.
Definition pdi (virt : Z) : Z := Z.land (Z.shiftr virt 21) 511.
Definition pti (virt : Z) : Z := Z.land (Z.shiftr virt 12) 511.

(** The page number of an address: the CPU translates the low 48 bits, the
    rest of a canonical address repeats bit 47. *)
Definition vpn (virt : Z) : Z := (virt / 4096) mod 2 ^ 36.

(** ** State

    [v_tlb] holds the translations the CPU has cached, by page number. *)
Record vmm (A : Type) : Type := mk_vmm {
  v_mem : pmem;
  v_frames : A;
  vmm_pml4 : Z;
  vmm_la57 : bool;
  vmm_active_root : Z;
  vmm_boot_root : Z;
  vmm_boot_pml4 : Z;
  sw_active : Z;
  v_cr3 : Z;
  v_cr4 : Z;
  v_efer : Z;
  v_tlb : gmap Z Z
}.
Arguments mk_vmm {A}.
Arguments v_mem {A}.
Arguments v_frames {A}.
Arguments vmm_pml4 {A}.
Arguments vmm_la57 {A}.
Arguments vmm_active_root {A}.
Arguments vmm_boot_root {A}.
Arguments vmm_boot_pml4 {A}.
Arguments sw_active {A}.
Arguments v_cr3 {A}.
Arguments v_cr4 {A}.
Arguments v_efer {A}.
Arguments v_tlb {A}.

Section vmm.
Context {A : Type} `{FrameAlloc A}.
Implicit Types s : vmm A.

Definition with_mem s (m : pmem) : vmm A :=
  mk_vmm m (v_frames s) (vmm_pml4 s) (vmm_la57 s) (vmm_active_root s) (vmm_boot_root s)
    (vmm_boot_pml4 s) (sw_active s) (v_cr3 s) (v_cr4 s) (v_efer s) (v_tlb s).
Definition with_frames s (f : A) : vmm A :=
  mk_vmm (v_mem s) f (vmm_pml4 s) (vmm_la57 s) (vmm_active_root s) (vmm_boot_root s)
    (vmm_boot_pml4 s) (sw_active s) (v_cr3 s) (v_cr4 s) (v_efer s) (v_tlb s).
Definition with_walk s (root pml4 : Z) : vmm A :=
  mk_vmm (v_mem s) (v_frames s) pml4 (vmm_la57 s) root (vmm_boot_root s)
    (vmm_boot_pml4 s) (sw_active s) (v_cr3 s) (v_cr4 s) (v_efer s) (v_tlb s).
Definition with_boot s (la57 : bool) (root pml4 : Z) : vmm A :=
  mk_vmm (v_mem s) (v_frames s) (vmm_pml4 s) la57 (vmm_active_root s) root
    pml4 (sw_active s) (v_cr3 s) (v_cr4 s) (v_efer s) (v_tlb s).
Definition with_efer s (e : Z) : vmm A :=
  mk_vmm (v_mem s) (v_frames s) (vmm_pml4 s) (vmm_la57 s) (vmm_active_root s) (vmm_boot_root s)
    (vmm_boot_pml4 s) (sw_active s) (v_cr3 s) (v_cr4 s) e (v_tlb s).
Definition with_tlb s (t : gmap Z Z) : vmm A :=
  mk_vmm (v_mem s) (v_frames s) (vmm_pml4 s) (vmm_la57 s) (vmm_active_root s) (vmm_boot_root s)
    (vmm_boot_pml4 s) (sw_active s) (v_cr3 s) (v_cr4 s) (v_efer s) t.
(** [active = phys; mov phys, %cr3]: loading CR3 drops every cached
    translation. *)
Definition load_cr3 s (phys : Z) : vmm A :=
  mk_vmm (v_mem s) (v_frames s) (vmm_pml4 s) (vmm_la57 s) (vmm_active_root s) (vmm_boot_root s)
    (vmm_boot_pml4 s) phys phys (v_cr4 s) (v_efer s) ∅.

(** ** Roots and TLB maintenance *)

Definition root_to_pml4 (la57 : bool) (m : pmem) (root : Z) : Z :=
  let page := entry_addr root in
  if la57 then entry_addr (ent m page 0) else page.

Definition mm_root_to_pml4 s (root : Z) : Z := root_to_pml4 (vmm_la57 s) (v_mem s) root.

Definition vmm_reload_cr3 s : vmm A := with_tlb s ∅.

Definition vmm_invlpg s (virt : Z) : vmm A := with_tlb s (delete (vpn virt) (v_tlb s)).

Definition vmm_init s : vmm A :=
  let la57 := truthy (Z.land (Z.shiftr (v_cr4 s) 12) 1) in
  let boot_root := Z.land (v_cr3 s) PAGE_MASK in
  let pml4 := root_to_pml4 la57 (v_mem s) boot_root in
  let s := with_boot (with_walk s boot_root pml4) la57 boot_root pml4 in
  if negb (truthy (Z.land (v_efer s) (Z.shiftl 1 11)))
  then vmm_reload_cr3 (with_efer s (Z.lor (v_efer s) (Z.shiftl 1 11)))
  else s.

Definition vmm_editing_active_root s : bool :=
  mm_root_to_pml4 s (Z.land (v_cr3 s) PAGE_MASK) =? vmm_pml4 s.

Definition vmm_flush s (new_levels : bool) (virt : Z) : vmm A :=
  if vmm_editing_active_root s
  then if new_levels then vmm_reload_cr3 s else vmm_invlpg s virt
  else s.

(** ** Mapping *)

(** [PANIC] stops the machine. *)
Definition PANIC {B} : res B := Err (-1).

(** Allocate and zero the table that entry [i] of [t] is to name, if it names
    none; tells whether it did. *)
Definition ensure_table s (t i flags : Z) : res (vmm A * bool) :=
  if present (ent (v_mem s) t i) then Ok (s, false)
  else
    let '(p, fr) := frame_alloc (v_frames s) in
    if p =? 0 then PANIC
    else
      m ← zero_page p (set_ent (v_mem s) t i (vmm_make_entry p flags));
      Ok (with_mem (with_frames s fr) m, true).

(** [t[i] |= VMM_USER] *)
Definition or_user s (t i : Z) : vmm A :=
  with_mem s (set_ent (v_mem s) t i (Z.lor (ent (v_mem s) t i) VMM_USER)).

(** Replace the 2 MiB page of entry [i] of [pd] by a table of 4 KiB pages. *)
Definition split_huge s (pd i : Z) : res (vmm A) :=
  let huge_phys := Z.land (ent (v_mem s) pd i) (2 ^ 64 - 2 ^ 21) in
  let '(p, fr) := frame_alloc (v_frames s) in
  if p =? 0 then PANIC
  else
    m ← fill_table p (fun _ k => vmm_make_entry (u64 (huge_phys + k * PAGE_SIZE)) (Z.lor VMM_PRESENT VMM_WRITABLE))
          (v_mem s);
    Ok (with_mem (with_frames s fr)
          (set_ent m pd i (vmm_make_entry p (Z.lor (Z.lor VMM_PRESENT VMM_WRITABLE) VMM_USER)))).

(** Levels below the PDPT: the table that holds the entry of [virt]
    ([None] when a 2 MiB page already covers it). *)
Definition ensure_pt s (pd virt flags : Z) : res (option (vmm A * bool)) :=
  let e := ent (v_mem s) pd (pdi virt) in
  if present e && huge e then
    if truthy (Z.land flags VMM_USER) then s ← split_huge s pd (pdi virt); Ok (Some (s, true))
    else Ok None
  else
    r ← ensure_table s pd (pdi virt) (Z.lor (Z.lor VMM_PRESENT VMM_WRITABLE) VMM_USER);
    Ok (Some r).

(** The PDPT of [virt], and the user bit of a user mapping in the two levels
    above the PD. *)
Definition ensure_pdpt s (virt flags : Z) : res (vmm A * bool) :=
  '(s, n4) ← ensure_table s (vmm_pml4 s) (pml4i virt) VMM_WRITABLE;
  let pdpt := entry_addr (ent (v_mem s) (vmm_pml4 s) (pml4i virt)) in
  Ok (if truthy (Z.land flags VMM_USER)
      then or_user (or_user s (vmm_pml4 s) (pml4i virt)) pdpt (pdpti virt) else s, n4).

Definition vmm_map_page s (virt phys flags : Z) : res (vmm A) :=
  let s := if vmm_pml4 s =? 0 then vmm_init s else s in
  '(s, n4) ← ensure_pdpt s virt flags;
  let pdpt := entry_addr (ent (v_mem s) (vmm_pml4 s) (pml4i virt)) in
  '(s, n3) ← ensure_table s pdpt (pdpti virt) VMM_WRITABLE;
  let pd := entry_addr (ent (v_mem s) pdpt (pdpti virt)) in
  r ← ensure_pt s pd virt flags;
  match r with
  | None => Ok s
  | Some (s, n2) =>
      let pt := entry_addr (ent (v_mem s) pd (pdi virt)) in
      let s := with_mem s (set_ent (v_mem s) pt (pti virt) (vmm_make_entry phys flags)) in
      Ok (vmm_flush s (n4 || n3 || n2) virt)
  end.

Definition vmm_unmap_page s (virt : Z) : vmm A :=
  let m := v_mem s in
  if vmm_pml4 s =? 0 then s
  else if negb (present (ent m (vmm_pml4 s) (pml4i virt))) then s
  else
    let pdpt := entry_addr (ent m (vmm_pml4 s) (pml4i virt)) in
    if negb (present (ent m pdpt (pdpti virt))) then s
    else
      let pd := entry_addr (ent m pdpt (pdpti virt)) in
      let e := ent m pd (pdi virt) in
      if negb (present e) then s
      else if huge e then
        let s := with_mem s (set_ent m pd (pdi virt) 0) in
        if vmm_editing_active_root s then vmm_reload_cr3 s else s
      else
        let s := with_mem s (set_ent m (entry_addr e) (pti virt) 0) in
        if vmm_editing_active_root s then vmm_invlpg s virt else s.

Definition vmm_get_pte s (virt : Z) : Z :=
  let m := v_mem s in
  if vmm_pml4 s =? 0 then 0
  else if negb (present (ent m (vmm_pml4 s) (pml4i virt))) then 0
  else
    let pdpt := entry_addr (ent m (vmm_pml4 s) (pml4i virt)) in
    if negb (present (ent m pdpt (pdpti virt))) then 0
    else
      let pd := entry_addr (ent m pdpt (pdpti virt)) in
      let e := ent m pd (pdi virt) in
      if negb (present e) then 0
      else if huge e then e
      else ent m (entry_addr e) (pti virt).

Definition vmm_get_phys s (virt : Z) : Z :=
  let m := v_mem s in
  if vmm_pml4 s =? 0 then 0
  else if negb (present (ent m (vmm_pml4 s) (pml4i virt))) then 0
  else
    let pdpt := Z.land (ent m (vmm_pml4 s) (pml4i virt)) PHYS_MASK in
    if negb (present (ent m pdpt (pdpti virt))) then 0
    else
      let pd := Z.land (ent m pdpt (pdpti virt)) PHYS_MASK in
      let e := ent m pd (pdi virt) in
      if negb (present e) then 0
      else if huge e then Z.lor (Z.land e HUGE_MASK) (Z.land virt 2097151)
      else
        let pte := ent m (entry_addr e) (pti virt) in
        if negb (present pte) then 0
        else Z.lor (Z.land pte PHYS_MASK) (Z.land virt 4095).

(** ** Address spaces *)

Definition vmm_current_root s : Z := vmm_active_root s.

Definition vmm_set_root_ptr s (phys : Z) : vmm A :=
  with_walk s (Z.land phys PAGE_MASK) (mm_root_to_pml4 s phys).

Definition vmm_switch_cr3 s (phys : Z) : vmm A :=
  let phys := Z.land phys PAGE_MASK in
  let s := with_walk s phys (mm_root_to_pml4 s phys) in
  if negb (sw_active s =? phys) then load_cr3 s phys else s.

(** Zero when no frame is left. *)
Definition as_copy_pd s (boot_pd : Z) : res (Z * vmm A) :=
  let '(p, fr) := frame_alloc (v_frames s) in
  if p =? 0 then Ok (0, with_frames s fr)
  else
    let src := entry_addr boot_pd in
    m ← fill_table p (fun m i => let e := ent m src i in if present e && huge e then e else 0) (v_mem s);
    Ok (p, with_mem (with_frames s fr) m).

Definition free_page s (phys : Z) : vmm A := with_frames s (frame_free (v_frames s) phys).

(** [for (j = 0; j < n; j++) pmm_free_page(t[j] & ~0xFFF)] *)
Definition free_entries s (t : Z) (n : nat) : vmm A :=
  fold_left (fun s i => free_page s (entry_addr (ent (v_mem s) t i))) (seqZ 0 (Z.of_nat n)) s.

(** The private copies of the four PDs of the identity map; [inr s] when the
    frames run out, with what was taken so far given back. *)
Fixpoint copy_pds (n : nat) (i : Z) (pdpt pml4 : Z) s : res (vmm A + vmm A) :=
  match n with
  | O => Ok (inl s)
  | S n =>
      '(npd, s) ← as_copy_pd s (ent (v_mem s) pdpt i);
      if npd =? 0 then Ok (inr (free_page (free_page (free_entries s pdpt (Z.to_nat i)) pdpt) pml4))
      else
        let e := Z.lor npd (Z.land (ent (v_mem s) pdpt i) 4095) in
        copy_pds n (i + 1) pdpt pml4 (with_mem s (set_ent (v_mem s) pdpt i e))
  end.

Definition vmm_create_address_space s : res (Z * vmm A) :=
  let s := if vmm_boot_root s =? 0
           then with_boot s (vmm_la57 s) (Z.land (v_cr3 s) PAGE_MASK) (vmm_boot_pml4 s) else s in
  let '(pml4, fr) := frame_alloc (v_frames s) in
  if pml4 =? 0 then Ok (0, with_frames s fr)
  else
    m ← zero_page pml4 (v_mem s);
    m ← fill_table pml4 (fun m i => ent m (vmm_boot_pml4 s) i) m;
    let s := with_mem (with_frames s fr) m in
    if negb (present (ent m (vmm_boot_pml4 s) 0)) then Ok (0, free_page s pml4)
    else
      let boot_pdpt := entry_addr (ent m (vmm_boot_pml4 s) 0) in
      let '(pdpt, fr) := frame_alloc (v_frames s) in
      if pdpt =? 0 then Ok (0, free_page (with_frames s fr) pml4)
      else
        m ← zero_page pdpt (v_mem s);
        m ← fill_table pdpt (fun m i => ent m boot_pdpt i) m;
        r ← copy_pds 4 0 pdpt pml4 (with_mem (with_frames s fr) m);
        match r with
        | inr s => Ok (0, s)
        | inl s =>
            let s := with_mem s (set_ent (v_mem s) pml4 0 (Z.lor (Z.lor pdpt VMM_PRESENT) VMM_WRITABLE)) in
            if vmm_la57 s then
              let '(pml5, fr) := frame_alloc (v_frames s) in
              if pml5 =? 0 then Ok (0, free_page (free_page (with_frames s fr) pdpt) pml4)
              else
                m ← zero_page pml5 (v_mem s);
                Ok (pml5, with_mem (with_frames s fr)
                      (set_ent m pml5 0 (Z.lor (Z.lor (Z.lor pml4 VMM_PRESENT) VMM_WRITABLE) VMM_USER)))
            else Ok (pml4, s)
        end.

(** The tables below entry [i] of a private PDPT. *)
Definition destroy_pd s (pdpt i : Z) : vmm A :=
  let e := ent (v_mem s) pdpt i in
  if negb (present e) then s
  else
    let pd := entry_addr e in
    let s := fold_left (fun s j =>
               let d := ent (v_mem s) pd j in
               if present d && negb (huge d) then free_page s (entry_addr d) else s) (seqZ 0 512) s in
    free_page s (entry_addr e).

(** The frames of the private part of the space of [pml4], and its shell. *)
Definition destroy_frees s (root pml4 : Z) : vmm A :=
  let pdpt := entry_addr (ent (v_mem s) pml4 0) in
  let s := fold_left (fun s i => destroy_pd s pdpt i) (seqZ 0 4) s in
  let s := free_page s (entry_addr (ent (v_mem s) pml4 0)) in
  let s := free_page s (Z.land pml4 PAGE_MASK) in
  if vmm_la57 s then free_page s (Z.land root PAGE_MASK) else s.

Definition vmm_destroy_address_space s (root : Z) : vmm A :=
  if (root =? 0) || (Z.land root PAGE_MASK =? vmm_boot_root s) then s
  else
    let pml4 := mm_root_to_pml4 s root in
    let old := vmm_current_root s in
    if negb (present (ent (v_mem s) pml4 0)) then s
    else
      let s := destroy_frees s root pml4 in
      let s := vmm_set_root_ptr s old in
      if old =? root then vmm_set_root_ptr s (vmm_boot_root s) else s.
End vmm.
