(* ===== verification/PageTables.v ===== *)
(** * Correctness of the page-table code

    An invariant that gives every table page a role (the space that owns it,
    its level and the part of the address space it covers), and what the
    operations of Vmm.v do to the translations of every address space. *)

From S2P Require Import Prelude Pmm Vmm.

(** ** Bits of entries *)

Lemma present_bit e : present e = Z.testbit e 0.
Proof. apply (truthy_land_pow2 e 0). lia. Qed.

Lemma huge_bit e : huge e = Z.testbit e 7.
Proof. apply (truthy_land_pow2 e 7). lia. Qed.

Lemma user_bit e : user e = Z.testbit e 2.
Proof. apply (truthy_land_pow2 e 2). lia. Qed.

(** Case analysis on the positions a goal about bits compares. *)
Ltac bcase :=
  repeat zcase; subst; cbn [andb orb negb]; try lia;
  rewrite ?andb_true_r, ?andb_false_r, ?orb_false_r, ?orb_true_r; try done.

(** Bitwise equality of two integers, by cases on the bit position. *)
Ltac bits :=
  apply Z.bits_inj'; let i := fresh "i" in let Hi := fresh "Hi" in intros i Hi;
  unfold entry_addr, vmm_make_entry, PAGE_MASK, PHYS_MASK, HUGE_MASK, VMM_NX, VMM_PRESENT, VMM_USER, VMM_WRITABLE in *;
  change 1 with (2 ^ 0); change 4 with (2 ^ 2); change 4095 with (2 ^ 12 - 2 ^ 0); change 2097151 with (2 ^ 21 - 2 ^ 0);
  rewrite ?Z.lor_spec, ?Z.land_spec, ?Z.lor_spec, ?Z.land_spec, ?mask_bits, ?pow2_bits by lia;
  repeat zcase; subst; cbn [andb orb negb]; try lia; rewrite ?andb_true_r, ?andb_false_r, ?orb_false_r, ?orb_true_r; try done.

(** A page address below 4 GiB. *)
Definition page_addr (p : Z) : Prop := 0 < p < 4294967296 /\ p mod 4096 = 0.

Lemma page_addr_bits p k : page_addr p -> 0 <= k < 12 \/ 32 <= k -> Z.testbit p k = false.
Proof.
  intros [Hr Ha] [Hk|Hk]; [by apply (aligned_bits p 12)|apply (small_bits p 32); lia].
Qed.

Lemma make_entry_present p f : present (vmm_make_entry p f) = true.
Proof.
  rewrite present_bit. unfold vmm_make_entry, VMM_PRESENT. rewrite !Z.lor_spec.
  by rewrite orb_true_r.
Qed.

Lemma make_entry_huge p f : huge (vmm_make_entry p f) = Z.testbit f 7.
Proof.
  rewrite huge_bit. unfold vmm_make_entry, VMM_PRESENT, VMM_NX, PAGE_MASK.
  change 4095 with (2 ^ 12 - 2 ^ 0). change 1 with (2 ^ 0).
  rewrite !Z.lor_spec, !Z.land_spec, !mask_bits, !pow2_bits by lia. simpl.
  by rewrite andb_false_r, andb_true_r, andb_false_r, !orb_false_r.
Qed.

Lemma make_entry_addr p f : page_addr p -> 0 <= f < 4096 -> entry_addr (vmm_make_entry p f) = p.
Proof.
  intros Hp Hf. bits.
  - by rewrite (small_bits f 12 63), orb_false_r by lia.
  - by rewrite (page_addr_bits p 0) by (done || lia).
  - by rewrite (page_addr_bits p i) by (done || lia).
  - by rewrite (page_addr_bits p i) by (done || lia).
Qed.

Lemma make_entry_phys p f : 0 <= p < 2 ^ 52 -> Z.land (vmm_make_entry p f) PHYS_MASK = p - p mod 4096.
Proof.
  intros Hp. transitivity (Z.land p PHYS_MASK).
  - bits.
  - apply (land_align 52 12); lia.
Qed.

(** The masks of the two walks agree on entries that name table pages. *)
Lemma phys_mask_addr e : page_addr (entry_addr e) -> Z.land e PHYS_MASK = entry_addr e.
Proof.
  intros Hp. apply Z.bits_inj'. intros i Hi. pose proof (fun H => page_addr_bits _ i Hp H) as Hb.
  unfold entry_addr, PAGE_MASK, PHYS_MASK in *.
  rewrite !Z.land_spec, !mask_bits by lia. rewrite Z.land_spec, mask_bits in Hb by lia.
  repeat zcase; simpl in *; try lia; rewrite ?andb_true_r, ?andb_false_r in *; try done.
  symmetry. apply Hb. lia.
Qed.

Lemma or_user_entry e :
  present (Z.lor e VMM_USER) = present e /\ huge (Z.lor e VMM_USER) = huge e /\
  entry_addr (Z.lor e VMM_USER) = entry_addr e /\ user (Z.lor e VMM_USER) = true.
Proof.
  rewrite !present_bit, !huge_bit, !user_bit. unfold VMM_USER. change 4 with (2 ^ 2).
  rewrite !Z.lor_spec, !pow2_bits by lia. rewrite !orb_false_r, orb_true_r. split_and!; try done. bits.
Qed.

(** ** Entries of tables in memory *)

Definition idx_ok (i : Z) : Prop := 0 <= i < 512.

Lemma slot_inj p q i j :
  p mod 4096 = 0 -> q mod 4096 = 0 -> idx_ok i -> idx_ok j -> p + 8 * i = q + 8 * j -> p = q /\ i = j.
Proof. unfold idx_ok. intros Hp Hq Hi Hj E. mlia. Qed.

Lemma ent_set_eq m p i v : ent (set_ent m p i v) p i = v.
Proof. unfold ent, set_ent, rd64, wr64. by rewrite lookup_insert_eq. Qed.

Lemma ent_set_ne m p i q j v :
  p mod 4096 = 0 -> q mod 4096 = 0 -> idx_ok i -> idx_ok j -> ~ (p = q /\ i = j) ->
  ent (set_ent m p i v) q j = ent m q j.
Proof.
  intros Hp Hq Hi Hj Hne. unfold ent, set_ent, rd64, wr64.
  rewrite lookup_insert_ne; [done|]. intros E. destruct Hne. by apply slot_inj.
Qed.

Lemma ent_set m p i q j v :
  p mod 4096 = 0 -> q mod 4096 = 0 -> idx_ok i -> idx_ok j ->
  ent (set_ent m p i v) q j = if decide (p = q /\ i = j) then v else ent m q j.
Proof.
  intros. case_decide as E; [destruct E as [-> ->]; apply ent_set_eq|by apply ent_set_ne].
Qed.

(** What a loop over a whole table leaves, when the values it stores depend
    only on memory outside the table. *)
Lemma fill_table_entries t g g0 m :
  t mod 4096 = 0 ->
  (forall m' i, idx_ok i -> (forall q j, q mod 4096 = 0 -> idx_ok j -> q <> t -> ent m' q j = ent m q j) ->
     g m' i = g0 i) ->
  exists m', fill_table t g m = Ok m' /\
    forall q j, q mod 4096 = 0 -> idx_ok j -> ent m' q j = if decide (q = t) then g0 j else ent m q j.
Proof.
  intros Ht Hg. apply total_Ok. unfold fill_table.
  eapply post_conseq.
  - apply (for_post (fun i m' => forall q j, q mod 4096 = 0 -> idx_ok j ->
      ent m' q j = if decide (q = t /\ j < i) then g0 j else ent m q j)); [lia| |].
    + intros q j Hq Hj. case_decide as E; [|done]. unfold idx_ok in Hj. lia.
    + intros i m' Hi Hm' q j Hq Hj. rewrite ent_set by (done || unfold idx_ok in *; lia).
      rewrite (Hg m' i), Hm' by (done || intros; rewrite Hm' by done; case_decide; tauto).
      repeat case_decide; destruct_and?; subst; try done; exfalso; intuition lia.
  - simpl. intros m' Hm' q j Hq Hj. rewrite Hm' by done. unfold idx_ok in Hj.
    repeat case_decide; try done; exfalso; intuition lia.
Qed.

Lemma zero_page_spec t m :
  t mod 4096 = 0 ->
  exists m', zero_page t m = Ok m' /\
    forall q j, q mod 4096 = 0 -> idx_ok j -> ent m' q j = if decide (q = t) then 0 else ent m q j.
Proof. intros. by apply (fill_table_entries t _ (fun _ => 0)). Qed.

(** ** Walks *)

Definition idx (n : nat) (v : Z) : Z := Z.land (Z.shiftr v (12 + 9 * Z.of_nat n)) 511.

Lemma idx_range n v : idx_ok (idx n v).
Proof.
  unfold idx, idx_ok. change 511 with (Z.ones 9). rewrite Z.land_ones by lia. apply Z.mod_pos_bound. lia.
Qed.

(** A 2 MiB entry of the identity map: its reserved bits are clear and it is
    not a user mapping. *)
Definition huge_ok (e : Z) : Prop := forall k, k = 2 \/ 12 <= k < 21 \/ 52 <= k < 63 -> Z.testbit e k = false.

(** The entry that [split_huge] writes for page [k] of the 2 MiB page [e]. *)
Definition split_pte (e k : Z) : Z :=
  vmm_make_entry (u64 (Z.land e (2 ^ 64 - 2 ^ 21) + k * PAGE_SIZE)) (Z.lor VMM_PRESENT VMM_WRITABLE).

(** A 4 KiB entry of a split 2 MiB page translates as the page did. *)
Lemma split_entry e v :
  huge_ok e ->
  Z.lor (Z.land (split_pte e (idx 0 v)) PHYS_MASK) (Z.land v 4095) =
  Z.lor (Z.land e HUGE_MASK) (Z.land v 2097151).
Proof.
  intros Hok. unfold split_pte. pose proof (idx_range 0 v) as Hx. unfold idx_ok in Hx.
  assert (forall i, 0 <= i -> Z.testbit (u64 (Z.land e (2 ^ 64 - 2 ^ 21) + idx 0 v * PAGE_SIZE)) i =
            if i <? 21 then (12 <=? i) && Z.testbit v i else Z.testbit e i && (i <? 64)) as Hsum.
  { intros i Hi. unfold u64. change 18446744073709551616 with (2 ^ 64).
    rewrite Z.testbit_mod_pow2, (add_aligned_bits _ _ 21 i); [|lia| |unfold PAGE_SIZE; lia|lia|lia].
    - rewrite Z.land_spec, mask_bits by lia. unfold PAGE_SIZE. change 4096 with (2 ^ 12).
      rewrite <- Z.shiftl_mul_pow2, Z.shiftl_spec by lia. unfold idx. rewrite Z.land_spec.
      destruct (Z.leb_spec 12 i).
      + change 511 with (2 ^ 9 - 2 ^ 0). rewrite mask_bits, Z.shiftr_spec by lia.
        replace (i - 12 + (12 + 9 * Z.of_nat 0)) with i by lia. bcase.
      + rewrite (Z.testbit_neg_r 511), andb_false_r by lia. bcase.
    - rewrite <- Z.land_ones by lia. rewrite <- Z.land_assoc. apply Z.bits_inj'. intros j Hj.
      rewrite !Z.land_spec, mask_bits, Z.testbit_ones, Z.bits_0 by lia. bcase. }
  generalize dependent (u64 (Z.land e (2 ^ 64 - 2 ^ 21) + idx 0 v * PAGE_SIZE)). intros w Hw.
  apply Z.bits_inj'. intros i Hi. specialize (Hw i Hi). specialize (Hok i).
  unfold vmm_make_entry, PHYS_MASK, HUGE_MASK, PAGE_MASK, VMM_NX, VMM_PRESENT, VMM_WRITABLE.
  change 4095 with (2 ^ 12 - 2 ^ 0). change 2097151 with (2 ^ 21 - 2 ^ 0). change 1 with (2 ^ 0). change 2 with (2 ^ 1) at 5.
  rewrite !Z.lor_spec, !Z.land_spec, !Z.lor_spec, !Z.land_spec, !mask_bits, !pow2_bits, Hw by lia.
  repeat zcase; subst; cbn [andb orb]; try lia; rewrite ?andb_true_r, ?andb_false_r, ?orb_false_r; try done;
    rewrite Hok by lia; done.
Qed.

(** What is read off the entry at the end of a walk: [vw_pte] off an entry of
    a page table, [vw_huge] off a 2 MiB entry; splitting a 2 MiB page must not
    be visible. *)
Record view : Type := mk_view {
  vw_type : Type;
  vw_pte : Z -> Z -> option vw_type;
  vw_huge : Z -> Z -> option vw_type;
  vw_split : forall e v, huge_ok e -> vw_pte (split_pte e (idx 0 v)) v = vw_huge e v
}.

(** The physical address. *)
Definition phys_view : view :=
  mk_view Z (fun e v => Some (Z.lor (Z.land e PHYS_MASK) (Z.land v 4095)))
    (fun e v => Some (Z.lor (Z.land e HUGE_MASK) (Z.land v 2097151)))
    (fun e v Hok => f_equal Some (split_entry e v Hok)).

Lemma split_pte_user e k : user (split_pte e k) = false.
Proof.
  rewrite user_bit. unfold split_pte, vmm_make_entry, VMM_PRESENT, VMM_WRITABLE, VMM_NX, PAGE_MASK.
  change 4095 with (2 ^ 12 - 2 ^ 0). change (Z.lor 1 2) with 3.
  rewrite !Z.lor_spec, !Z.land_spec, !mask_bits, !pow2_bits by lia. cbn [Z.leb Z.ltb Z.compare Pos.compare Pos.compare_cont andb].
  by rewrite !andb_false_r.
Qed.

Definition user_entry (e : Z) : option Z := if user e then Some e else None.

Lemma user_entry_split e k : user_entry (split_pte e k) = None.
Proof. unfold user_entry. by rewrite split_pte_user. Qed.

(** The entry of a 4 KiB user mapping. *)
Definition user_view : view :=
  mk_view Z (fun e _ => user_entry e) (fun _ _ => None) (fun e v _ => user_entry_split e (idx 0 v)).

(** [tr w n m t v] is the view of [v] from a table at level [n]: 0 for a page
    table, 3 for a PML4. *)
Fixpoint tr (w : view) (n : nat) (m : pmem) (t v : Z) : option (vw_type w) :=
  let e := ent m t (idx n v) in
  if present e then
    match n with
    | O => vw_pte w e v
    | S n' =>
        if (Nat.eqb n 1) && huge e then vw_huge w e v
        else tr w n' m (entry_addr e) v
    end
  else None.

(** The translation of an address in the space of a PML4, and the user
    mapping it has there. *)
Definition translate (m : pmem) (pml4 v : Z) : option Z := tr phys_view 3 m pml4 v.
Definition user_pte (m : pmem) (pml4 v : Z) : option Z := tr user_view 3 m pml4 v.

(** ** Roles of table pages

    Entries below 4 GiB are private to a space, the rest is shared (owner 0). *)

Inductive role : Type :=
  | RRoot (a : Z)
  | RPml4 (a : Z)
  | RPdpt (o x : Z)
  | RPd (o x : Z)
  | RPt (o x : Z).

#[global] Instance role_eq_dec : EqDecision role.
Proof. solve_decision. Defined.

Definition own4 (a i : Z) : Z := if i =? 0 then a else 0.
Definition own3 (o x : Z) : Z := if x <? 4 then o else 0.

(** The role of the table that entry [i] of a table names. *)
Definition child (r : role) (i : Z) : option role :=
  match r with
  | RRoot _ => None
  | RPml4 a => Some (RPdpt (own4 a i) i)
  | RPdpt o x => Some (RPd (own3 o (512 * x + i)) (512 * x + i))
  | RPd o x => Some (RPt o (512 * x + i))
  | RPt _ _ => None
  end.

Definition is_pd (r : role) : bool := match r with RPd _ _ => true | _ => false end.

Definition entry_ok (R : gmap Z role) (r : role) (i e : Z) : Prop :=
  match child r i with
  | None => True
  | Some c =>
      present e = true ->
      if is_pd r && huge e then huge_ok e else R !! entry_addr e = Some c
  end.

Record tables_ok (R : gmap Z role) (m : pmem) : Prop := {
  to_entry : forall p r i, R !! p = Some r -> idx_ok i -> entry_ok R r i (ent m p i);
  to_page : forall p r, R !! p = Some r -> page_addr p;
  to_self : forall p a, R !! p = Some (RPml4 a) -> p = a;
  to_root : forall p a, R !! p = Some (RRoot a) -> entry_addr (ent m p 0) = a /\ R !! a = Some (RPml4 a)
}.

(** The role of the table at level [n] on the walk of [v] in space [a]. *)
Definition role_at (a : Z) (n : nat) (v : Z) : role :=
  let x3 := 512 * idx 3 v + idx 2 v in
  match n with
  | 0%nat => RPt (own3 (own4 a (idx 3 v)) x3) (512 * x3 + idx 1 v)
  | 1%nat => RPd (own3 (own4 a (idx 3 v)) x3) x3
  | 2%nat => RPdpt (own4 a (idx 3 v)) (idx 3 v)
  | _ => RPml4 a
  end.

Lemma child_role_at a n v : (n < 3)%nat -> child (role_at a (S n) v) (idx (S n) v) = Some (role_at a n v).
Proof. intros. destruct n as [|[|[|]]]; [done..|lia]. Qed.

Lemma is_pd_role_at a n v : (n <= 3)%nat -> is_pd (role_at a n v) = Nat.eqb n 1.
Proof. intros. destruct n as [|[|[|[|]]]]; [done..|lia]. Qed.

Lemma role_at_level a b n n' v v' :
  (n <= 3)%nat -> (n' <= 3)%nat -> role_at a n v = role_at b n' v' -> n = n'.
Proof.
  intros. destruct n as [|[|[|[|]]]], n' as [|[|[|[|]]]]; simpl in *; done || lia.
Qed.

(** One step of a walk stays among the tables. *)
Lemma walk_step R m a n p v :
  tables_ok R m -> (n < 3)%nat -> R !! p = Some (role_at a (S n) v) ->
  let e := ent m p (idx (S n) v) in
  present e = true ->
  if (Nat.eqb (S n) 1) && huge e then huge_ok e else R !! entry_addr e = Some (role_at a n v).
Proof.
  intros Ht Hn Hp e He. pose proof (to_entry _ _ Ht p _ (idx (S n) v) Hp (idx_range _ _)) as H.
  unfold entry_ok in H. rewrite child_role_at in H by done. rewrite is_pd_role_at in H by lia. by apply H.
Qed.

(** Two memories translate [v] alike when every entry its walk can read is
    the same, or translates [v] the same. *)
Lemma tr_frame w R m m' a n p v :
  tables_ok R m -> (n <= 3)%nat -> R !! p = Some (role_at a n v) ->
  (forall j q, (j <= n)%nat -> R !! q = Some (role_at a j v) ->
     ent m' q (idx j v) = ent m q (idx j v) \/ tr w j m' q v = tr w j m q v) ->
  tr w n m' p v = tr w n m p v.
Proof.
  intros Ht. revert p. induction n as [|n IH]; intros p Hn Hp H.
  - destruct (H 0%nat p) as [E|E]; [lia|done| |done]. cbn [tr]. by rewrite E.
  - destruct (H (S n) p) as [E|E]; [lia|done| |done]. cbn [tr]. rewrite E.
    destruct (present _) eqn:Hpr; [|done].
    pose proof (walk_step R m a n p v Ht ltac:(lia) Hp Hpr) as Hs. simpl in Hs.
    destruct (_ && huge _); [done|]. apply IH; [lia|done|]. intros j q Hj. apply H. lia.
Qed.

(** The spaces of [R] have the same views of every address (translation and
    user mapping) in the two memories. *)
Definition same_tr (R : gmap Z role) (m m' : pmem) : Prop :=
  forall w a v, R !! a = Some (RPml4 a) -> tr w 3 m' a v = tr w 3 m a v.

Lemma same_tr_refl R m : same_tr R m m.
Proof. by intros w a v. Qed.

Lemma same_tr_trans R R' m1 m2 m3 :
  R ⊆ R' -> same_tr R m1 m2 -> same_tr R' m2 m3 -> same_tr R m1 m3.
Proof.
  intros HR H1 H2 w a v Ha. rewrite <- H1 by done. apply H2. eapply lookup_weaken; eauto.
Qed.

(** Changing one entry of one table. *)
Definition only_entry (R : gmap Z role) (m m' : pmem) (t i : Z) : Prop :=
  forall q r j, R !! q = Some r -> idx_ok j -> ~ (q = t /\ j = i) -> ent m' q j = ent m q j.

Lemma same_tr_entry R m m' t i :
  tables_ok R m -> only_entry R m m' t i ->
  (forall w a n v, (n <= 3)%nat -> R !! t = Some (role_at a n v) -> idx n v = i -> tr w n m' t v = tr w n m t v) ->
  same_tr R m m'.
Proof.
  intros Ht Ho Hi w a v Ha. apply (tr_frame w R m m' a 3); [done|done|done|].
  intros j q Hj Hq. destruct (decide (q = t /\ idx j v = i)) as [[-> Hx]|Hne].
  - right. by apply (Hi w a).
  - left. apply (Ho q (role_at a j v)); [done|apply idx_range|done].
Qed.

(** Below the table that changed, nothing did. *)
Lemma tr_below w R m m' a n t i v :
  tables_ok R m -> only_entry R m m' t i -> (n < 3)%nat -> R !! t = Some (role_at a (S n) v) ->
  forall p, R !! p = Some (role_at a n v) -> tr w n m' p v = tr w n m p v.
Proof.
  intros Ht Ho Hn Hrt p Hp. apply (tr_frame w R m m' a); [done|lia|done|].
  intros j q Hj Hq. left. apply (Ho q (role_at a j v)); [done|apply idx_range|].
  intros [-> _]. assert (role_at a j v = role_at a (S n) v) as E by congruence. apply role_at_level in E; lia.
Qed.

Lemma tables_set_entry R m t r i e :
  tables_ok R m -> R !! t = Some r -> idx_ok i -> entry_ok R r i e -> (forall a, r <> RRoot a) ->
  tables_ok R (set_ent m t i e) /\ only_entry R m (set_ent m t i e) t i.
Proof.
  intros Ht Hr Hi He Hnr.
  assert (only_entry R m (set_ent m t i e) t i) as Ho.
  { intros q r' j Hq Hj Hne. apply ent_set_ne; try done.
    - by apply (to_page _ _ Ht t r).
    - by apply (to_page _ _ Ht q r').
    - intros [-> ->]. tauto. }
  split; [|done]. split.
  - intros p r' j Hp Hj. destruct (decide (p = t /\ j = i)) as [[-> ->]|Hne].
    + rewrite ent_set_eq. congruence.
    + rewrite (Ho p r' j) by done. by apply (to_entry _ _ Ht).
  - apply (to_page _ _ Ht).
  - apply (to_self _ _ Ht).
  - intros p a Hp. rewrite (Ho p (RRoot a)); [by apply (to_root _ _ Ht)|done|unfold idx_ok; lia|].
    intros [-> _]. rewrite Hr in Hp. injection Hp as ->. by destruct (Hnr a).
Qed.

Lemma entry_ok_mono R R' r i e : R ⊆ R' -> entry_ok R r i e -> entry_ok R' r i e.
Proof.
  unfold entry_ok. intros HR. destruct (child r i); [|done]. intros H Hp. specialize (H Hp).
  destruct (_ && _); [done|]. by eapply lookup_weaken.
Qed.

(** A page becomes a table. *)
Lemma tables_add R m m' p c :
  tables_ok R m -> R !! p = None -> page_addr p ->
  (forall q r j, R !! q = Some r -> idx_ok j -> ent m' q j = ent m q j) ->
  (forall i, idx_ok i -> entry_ok (<[p := c]> R) c i (ent m' p i)) ->
  (forall a, c <> RRoot a) -> (forall a, c = RPml4 a -> p = a) ->
  tables_ok (<[p := c]> R) m'.
Proof.
  intros Ht Hf Hpa Hsame Hent Hnr Hself.
  assert (R ⊆ <[p := c]> R) as HR by by apply insert_subseteq.
  split.
  - intros q r i Hq Hi. apply lookup_insert_Some in Hq as [[<- <-]|[Hne Hq]]; [by apply Hent|].
    rewrite (Hsame q r i) by done. eapply entry_ok_mono; [done|]. by apply (to_entry _ _ Ht).
  - intros q r Hq. apply lookup_insert_Some in Hq as [[<- <-]|[Hne Hq]]; [done|]. by apply (to_page _ _ Ht q r).
  - intros q a Hq. apply lookup_insert_Some in Hq as [[<- E]|[Hne Hq]]; [by apply Hself|]. by apply (to_self _ _ Ht).
  - intros q a Hq. apply lookup_insert_Some in Hq as [[<- E]|[Hne Hq]]; [by destruct (Hnr a)|].
    rewrite (Hsame q _ 0 Hq) by (unfold idx_ok; lia). destruct (to_root _ _ Ht q a Hq) as [E Ha].
    split; [done|]. by eapply lookup_weaken.
Qed.

(** A fresh page becomes the table that entry [i] of [t] names. *)
Lemma tables_install R m m' t r i c p e :
  tables_ok R m -> R !! t = Some r -> idx_ok i -> child r i = Some c -> R !! p = None -> page_addr p ->
  only_entry R m m' t i -> ent m' t i = e -> entry_addr e = p -> huge e = false ->
  (forall j, idx_ok j -> entry_ok R c j (ent m' p j)) ->
  tables_ok (<[p := c]> R) m'.
Proof.
  intros Ht Hr Hi Hc Hnone Hpa Hsame Het Haddr Hh Hent.
  assert (R ⊆ <[p := c]> R) as HR by by apply insert_subseteq.
  assert (forall a, r <> RRoot a) as Hnr by (intros a ->; done).
  assert (forall a, c <> RRoot a /\ c <> RPml4 a) as Hcc by (intros a; destruct r; simplify_eq/=; done).
  destruct (tables_set_entry R m t r i 0 Ht Hr Hi) as [Ht0 Ho0]; [|done|].
  { unfold entry_ok. by rewrite Hc. }
  (* add the page, then name it *)
  assert (tables_ok (<[p := c]> R) (set_ent m' t i 0)) as H1.
  { apply (tables_add R (set_ent m t i 0)); [done|done|done| |
      |intros a; apply Hcc|intros a ->; by destruct (Hcc a)].
    - intros q r' j Hq Hj. rewrite !ent_set by (done || by eapply to_page).
      case_decide; [done|]. apply (Hsame q r'); [done|done|]. intros [-> ->]. tauto.
    - intros j Hj. rewrite ent_set_ne; [| |apply Hpa|done|done|].
      + eapply entry_ok_mono; [done|]. by apply Hent.
      + by eapply to_page.
      + intros [-> ->]. congruence. }
  assert (<[p := c]> R !! t = Some r) as Hr' by by eapply lookup_weaken.
  destruct (tables_set_entry _ _ t r i e H1 Hr' Hi) as [H2 _]; [|done|].
  { unfold entry_ok. rewrite Hc, Hh, andb_false_r, Haddr. intros _. apply lookup_insert_eq. }
  destruct H2 as [H2 ? ? H4]. split; try done.
  - intros q r' j Hq Hj. specialize (H2 q r' j Hq Hj).
    rewrite !ent_set in H2 by (done || by eapply to_page; eauto).
    case_decide as E; [destruct E as [<- <-]; congruence|done].
  - intros q a Hq. destruct (H4 q a Hq) as [E Ha]. split; [|done].
    rewrite <- E. rewrite !ent_set by (done || by eapply to_page; eauto).
    case_decide as E'; [destruct E' as [<- <-]; congruence|done].
Qed.

(** ** Page numbers and indices *)

Lemma idx_div n v : idx n v = v / 2 ^ (12 + 9 * Z.of_nat n) mod 512.
Proof.
  unfold idx. change 511 with (Z.ones 9). rewrite Z.land_ones, Z.shiftr_div_pow2 by lia. done.
Qed.

Lemma vpn_idx v : vpn v = 512 * (512 * (512 * idx 3 v + idx 2 v) + idx 1 v) + idx 0 v.
Proof.
  rewrite !idx_div. unfold vpn.
  change (2 ^ (12 + 9 * Z.of_nat 3)) with (4096 * 512 * 512 * 512). change (2 ^ (12 + 9 * Z.of_nat 2)) with (4096 * 512 * 512).
  change (2 ^ (12 + 9 * Z.of_nat 1)) with (4096 * 512). change (2 ^ (12 + 9 * Z.of_nat 0)) with 4096.
  rewrite <- !Z.div_div by lia. generalize (v / 4096). intros w. mlia.
Qed.

Lemma vpn_eq_idx v v' :
  vpn v = vpn v' <-> idx 0 v = idx 0 v' /\ idx 1 v = idx 1 v' /\ idx 2 v = idx 2 v' /\ idx 3 v = idx 3 v'.
Proof.
  rewrite !vpn_idx.
  pose proof (idx_range 0 v). pose proof (idx_range 1 v). pose proof (idx_range 2 v). pose proof (idx_range 3 v).
  pose proof (idx_range 0 v'). pose proof (idx_range 1 v'). pose proof (idx_range 2 v'). pose proof (idx_range 3 v').
  unfold idx_ok in *. lia.
Qed.

(** Equal page numbers have equal walks. *)
Lemma role_at_vpn a n v v' : vpn v = vpn v' -> role_at a n v = role_at a n v'.
Proof.
  intros (E0 & E1 & E2 & E3)%vpn_eq_idx. destruct n as [|[|[|]]]; simpl; congruence.
Qed.

(** Addresses below 4 GiB: the part of a space that is its own. *)
Definition private (v : Z) : Prop := vpn v < 2 ^ 20.

Lemma private_idx v : private v <-> idx 3 v = 0 /\ idx 2 v < 4.
Proof.
  unfold private. rewrite vpn_idx. change (2 ^ 20) with 1048576.
  pose proof (idx_range 0 v). pose proof (idx_range 1 v). pose proof (idx_range 2 v). pose proof (idx_range 3 v).
  unfold idx_ok in *. lia.
Qed.

Lemma private_role a v :
  private v -> role_at a 0 v = RPt a (512 * idx 2 v + idx 1 v).
Proof.
  intros [E3 E2]%private_idx. simpl. rewrite E3. unfold own4, own3. rewrite Z.eqb_refl.
  destruct (Z.ltb_spec (512 * 0 + idx 2 v) 4); [done|lia].
Qed.

(** The owner of a private table is its space. *)
Lemma private_role_ne a b v v' : private v -> 0 < a -> a <> b -> role_at b 0 v' <> role_at a 0 v.
Proof.
  intros Hv Ha Hne E. rewrite (private_role a v Hv) in E. simpl in E. injection E as E _.
  unfold own3, own4 in E. repeat zcase; lia.
Qed.

(** The page table that holds the entry of [v], if the walk gets there. *)
Definition leaf (m : pmem) (a v : Z) : option Z :=
  let e4 := ent m a (idx 3 v) in
  let e3 := ent m (entry_addr e4) (idx 2 v) in
  let e2 := ent m (entry_addr e3) (idx 1 v) in
  if present e4 && present e3 && present e2 && negb (huge e2) then Some (entry_addr e2) else None.

Lemma leaf_Some w R m a v pt :
  tables_ok R m -> R !! a = Some (RPml4 a) -> leaf m a v = Some pt ->
  R !! pt = Some (role_at a 0 v) /\ tr w 3 m a v = tr w 0 m pt v.
Proof.
  intros Ht Ha. unfold leaf. cbn [tr Nat.eqb andb].
  destruct (present (ent m a (idx 3 v))) eqn:E4; [|done]. simpl andb.
  pose proof (walk_step R m a 2 a v Ht ltac:(lia) Ha E4) as H2. cbn [Nat.eqb andb] in H2.
  destruct (present (ent m (entry_addr (ent m a (idx 3 v))) (idx 2 v))) eqn:E3; [|done]. simpl andb.
  pose proof (walk_step R m a 1 _ v Ht ltac:(lia) H2 E3) as H1. cbn [Nat.eqb andb] in H1.
  destruct (present (ent m (entry_addr (ent m (entry_addr (ent m a (idx 3 v))) (idx 2 v))) (idx 1 v))) eqn:E2; [|done].
  pose proof (walk_step R m a 0 _ v Ht ltac:(lia) H1 E2) as H0. cbn [Nat.eqb andb] in H0.
  destruct (huge _); [done|]. simpl. by intros [= <-].
Qed.

(** The walk depends on the page number only. *)
Lemma leaf_vpn m a v v' : vpn v = vpn v' -> leaf m a v = leaf m a v'.
Proof. intros (E0 & E1 & E2 & E3)%vpn_eq_idx. unfold leaf. by rewrite E1, E2, E3. Qed.

(** Writing the entry of [virt] in its page table. *)
Lemma pt_write_leaf R m a virt pt e v :
  tables_ok R m -> R !! a = Some (RPml4 a) -> leaf m a virt = Some pt -> vpn v = vpn virt ->
  leaf (set_ent m pt (idx 0 virt) e) a v = Some pt.
Proof.
  intros Ht Ha Hl Hv. destruct (leaf_Some phys_view R m a virt pt Ht Ha Hl) as [Hpt _]. rewrite (leaf_vpn _ _ virt v) in Hl by done.
  destruct (tables_set_entry R m pt _ (idx 0 virt) e Ht Hpt (idx_range _ _)) as [_ Ho]; [done|done|]. rewrite <- Hl. unfold leaf in Hl |- *.
  assert (forall n q, (n < 3)%nat -> R !! q = Some (role_at a (S n) v) ->
    ent (set_ent m pt (idx 0 virt) e) q (idx (S n) v) = ent m q (idx (S n) v)) as He.
  { intros n q Hn Hq. apply (Ho q _ _ Hq (idx_range _ _)). intros [-> _].
    assert (role_at a (S n) v = role_at a 0 virt) as E by congruence. apply role_at_level in E; lia. }
  rewrite (He 2%nat a) by (done || lia). destruct (present _) eqn:E4; [|done].
  pose proof (walk_step R m a 2 a v Ht ltac:(lia) Ha E4) as H2. cbn [Nat.eqb andb] in H2.
  rewrite (He 1%nat _ ltac:(lia) H2). destruct (present (ent m _ (idx 2 v))) eqn:E3; [|done].
  pose proof (walk_step R m a 1 _ v Ht ltac:(lia) H2 E3) as H1. cbn [Nat.eqb andb] in H1.
  by rewrite (He 0%nat _ ltac:(lia) H1).
Qed.

Lemma pt_write R m a virt pt e :
  tables_ok R m -> R !! a = Some (RPml4 a) -> leaf m a virt = Some pt ->
  let m' := set_ent m pt (idx 0 virt) e in
  tables_ok R m' /\
  (forall w v, vpn v = vpn virt -> tr w 3 m' a v = if present e then vw_pte w e v else None) /\
  (forall w b v, R !! b = Some (RPml4 b) -> vpn v <> vpn virt \/ (b <> a /\ private virt) ->
     tr w 3 m' b v = tr w 3 m b v).
Proof.
  intros Ht Ha Hl m'. destruct (leaf_Some phys_view R m a virt pt Ht Ha Hl) as [Hpt _].
  destruct (tables_set_entry R m pt _ (idx 0 virt) e Ht Hpt (idx_range _ _)) as [Ht' Ho]; [done|done|].
  fold m' in Ht', Ho.
  assert (forall q b j v, R !! q = Some (role_at b (S j) v) -> (S j <= 3)%nat -> q <> pt) as Hup.
  { intros q b j v Hq Hj ->. assert (role_at b (S j) v = role_at a 0 virt) as E by congruence.
    apply role_at_level in E; lia. }
  split_and!; [done| |].
  - intros w v Hv. pose proof (pt_write_leaf R m a virt pt e v Ht Ha Hl Hv) as Hl'.
    destruct (leaf_Some w R m' a v pt Ht' Ha Hl') as [_ ->]. cbn [tr].
    apply vpn_eq_idx in Hv as (E0 & _). rewrite E0. unfold m'. by rewrite ent_set_eq.
  - intros w b v Hb Hne. apply (tr_frame w R m m' b 3); [done|done|done|]. intros j q Hj Hq. left.
    apply (Ho q _ _ Hq (idx_range _ _)). intros [-> E0]. destruct j as [|j]; [|by apply (Hup pt b j v)].
    assert (role_at b 0 v = role_at a 0 virt) as E by congruence.
    destruct Hne as [Hne|[Hne Hpriv]].
    + apply Hne. simpl in E. injection E as E1 E2. rewrite !vpn_idx. lia.
    + destruct (to_page _ _ Ht a _ Ha) as [[Ha0 _] _]. exact (private_role_ne a b virt v Hpriv Ha0 (not_eq_sym Hne) E).
Qed.

(** Is [v] covered by a 2 MiB page? *)
Definition huge_at (m : pmem) (a v : Z) : bool :=
  let e3 := ent m (entry_addr (ent m a (idx 3 v))) (idx 2 v) in
  let e2 := ent m (entry_addr e3) (idx 1 v) in
  present (ent m a (idx 3 v)) && present e3 && present e2 && huge e2.

(** The PD on the walk of [v]. *)
Definition pd_of (m : pmem) (a v : Z) : option Z :=
  let e4 := ent m a (idx 3 v) in
  let e3 := ent m (entry_addr e4) (idx 2 v) in
  if present e4 && present e3 then Some (entry_addr e3) else None.

Lemma pd_of_Some w R m a v pd :
  tables_ok R m -> R !! a = Some (RPml4 a) -> pd_of m a v = Some pd ->
  R !! pd = Some (role_at a 1 v) /\ tr w 3 m a v = tr w 1 m pd v.
Proof.
  intros Ht Ha. unfold pd_of.
  destruct (present (ent m a (idx 3 v))) eqn:E4; [|done]. cbn [andb].
  pose proof (walk_step R m a 2 a v Ht ltac:(lia) Ha E4) as H2. cbn [Nat.eqb andb] in H2.
  destruct (present (ent m (entry_addr (ent m a (idx 3 v))) (idx 2 v))) eqn:E3; [|done].
  pose proof (walk_step R m a 1 _ v Ht ltac:(lia) H2 E3) as H1. cbn [Nat.eqb andb] in H1.
  intros [= <-]. split; [done|]. cbn [tr Nat.eqb andb]. by rewrite E4, E3.
Qed.

Lemma pd_of_None w m a v : pd_of m a v = None -> tr w 3 m a v = None.
Proof.
  unfold pd_of. cbn [tr Nat.eqb andb]. destruct (present (ent m a (idx 3 v))); [|done]. cbn [andb].
  by destruct (present (ent m (entry_addr (ent m a (idx 3 v))) (idx 2 v))).
Qed.

(** The part of the walk above a PD is untouched by writes elsewhere. *)
Lemma pd_of_frame R m m' t i a v :
  tables_ok R m -> R !! a = Some (RPml4 a) -> only_entry R m m' t i ->
  (forall o x, R !! t = Some (RPdpt o x) -> False) -> (forall b, R !! t = Some (RPml4 b) -> False) ->
  pd_of m' a v = pd_of m a v.
Proof.
  intros Ht Ha Ho H3 H4. unfold pd_of.
  rewrite (Ho a (RPml4 a) _ Ha (idx_range 3 v)) by (intros [-> _]; by eapply H4).
  destruct (present (ent m a (idx 3 v))) eqn:E4; [|done]. cbn [andb].
  pose proof (walk_step R m a 2 a v Ht ltac:(lia) Ha E4) as H2. cbn [Nat.eqb andb] in H2.
  by rewrite (Ho _ _ _ H2 (idx_range 2 v)) by (intros [E _]; rewrite E in H2; by eapply H3).
Qed.

(** Clearing the entry of [virt] in its PD. *)
Lemma pd_clear R m a virt pd :
  tables_ok R m -> R !! a = Some (RPml4 a) -> pd_of m a virt = Some pd ->
  let m' := set_ent m pd (idx 1 virt) 0 in
  tables_ok R m' /\
  (forall w v, vpn v / 512 = vpn virt / 512 -> tr w 3 m' a v = None) /\
  (forall w b v, R !! b = Some (RPml4 b) -> vpn v / 512 <> vpn virt / 512 \/ (b <> a /\ private virt) ->
     tr w 3 m' b v = tr w 3 m b v).
Proof.
  intros Ht Ha Hpd m'. destruct (pd_of_Some phys_view R m a virt pd Ht Ha Hpd) as [Hr _].
  destruct (tables_set_entry R m pd _ (idx 1 virt) 0 Ht Hr (idx_range _ _)) as [Ht' Ho]; [done|done|].
  fold m' in Ht', Ho.
  assert (forall v w, vpn v / 512 = vpn w / 512 <-> idx 1 v = idx 1 w /\ idx 2 v = idx 2 w /\ idx 3 v = idx 3 w) as Hdiv.
  { intros v w. rewrite !vpn_idx.
    pose proof (idx_range 0 v). pose proof (idx_range 1 v). pose proof (idx_range 2 v). pose proof (idx_range 3 v).
    pose proof (idx_range 0 w). pose proof (idx_range 1 w). pose proof (idx_range 2 w). pose proof (idx_range 3 w).
    unfold idx_ok in *. mlia. }
  split_and!; [done| |].
  - intros w v (E1 & E2 & E3)%Hdiv.
    assert (pd_of m' a v = Some pd) as Hpd'.
    { rewrite (pd_of_frame R m m' pd (idx 1 virt)); try done; [|by intros ? ?; rewrite Hr|by intros ?; rewrite Hr].
      unfold pd_of in Hpd |- *. by rewrite E2, E3. }
    destruct (pd_of_Some w R m' a v pd Ht' Ha Hpd') as [_ ->]. cbn [tr]. rewrite E1. unfold m'. by rewrite ent_set_eq.
  - intros w b v Hb Hne. apply (tr_frame w R m m' b 3); [done|done|done|]. intros j q Hj Hq. left.
    apply (Ho q _ _ Hq (idx_range _ _)). intros [-> E1].
    assert (role_at b j v = role_at a 1 virt) as E by congruence.
    assert (j = 1%nat) as -> by (apply role_at_level in E; lia).
    destruct Hne as [Hne|[Hne Hpriv]].
    + apply Hne, Hdiv. simpl in E. injection E as _ Ex.
      pose proof (idx_range 2 v). pose proof (idx_range 3 v). pose proof (idx_range 2 virt). pose proof (idx_range 3 virt).
      unfold idx_ok in *. lia.
    + destruct (to_page _ _ Ht a _ Ha) as [[Ha0 _] _]. apply (private_role_ne a b virt virt Hpriv Ha0 (not_eq_sym Hne)).
      simpl in E |- *. injection E as Eo Ex.
      pose proof (idx_range 2 v). pose proof (idx_range 3 v). pose proof (idx_range 2 virt). pose proof (idx_range 3 virt).
      unfold idx_ok in *. assert (idx 3 v = idx 3 virt /\ idx 2 v = idx 2 virt) as [X3 X2] by lia.
      rewrite X3, X2 in Eo. by rewrite Eo.
Qed.

(** ** States *)

Section spaces.
Context {A : Type} `{FL : FrameLaws A}.
Implicit Types s : vmm A.

Record vm_ok (R : gmap Z role) (s : vmm A) : Prop := {
  vo_tables : tables_ok R (v_mem s);
  vo_wf : frame_wf (v_frames s);
  vo_used : forall p r, R !! p = Some r -> frame_used (v_frames s) (p / 4096) = true
}.

(** [n] frames are free. *)
Definition spare (n : nat) (f : A) : Prop :=
  exists X : gset Z, (n <= size X)%nat /\ forall q, q ∈ X -> 0 <= q < PMM_MAX_PAGES /\ frame_used f q = false.

(** Taking one frame. *)
Lemma alloc_cases f p f' :
  frame_wf f -> frame_alloc f = (p, f') ->
  frame_wf f' /\
  ((p = 0 /\ f' = f /\ ~ spare 1 f) \/
   (page_addr p /\ frame_used f (p / 4096) = false /\
    (forall q, 0 <= q -> frame_used f' q = (q =? p / 4096) || frame_used f q) /\
    (forall n, spare (S n) f -> spare n f'))).
Proof.
  intros Hwf Hall. destruct (frame_alloc_spec f p f' Hwf Hall) as [Hwf' [(-> & -> & Hfull)|(Hp & Hal & Hu & Hq)]].
  - split; [done|]. left. split_and!; [done..|]. intros (X & Hl & Hf).
    destruct (size_pos_elem_of X) as [q Hq]; [lia|]. destruct (Hf q Hq) as [Hr Hu]. rewrite Hfull in Hu; done.
  - split; [done|]. right. split_and!; [done..|]. intros n (X & Hl & Hf).
    exists (X ∖ {[p / 4096]}). split.
    + assert (X ⊆ {[p / 4096]} ∪ X ∖ {[p / 4096]}) as Hs%subseteq_size.
      { intros q Hx. destruct (decide (q = p / 4096)); set_solver. }
      rewrite size_union, size_singleton in Hs by set_solver. lia.
    + intros q [Hin Hne]%elem_of_difference. destruct (Hf q Hin) as [Hr Hfree]. split; [done|].
      rewrite Hq, Hfree by lia. destruct (Z.eqb_spec q (p / 4096)); [set_solver|done].
Qed.

Lemma vm_fresh R s p : vm_ok R s -> frame_used (v_frames s) (p / 4096) = false -> R !! p = None.
Proof.
  intros Hs Hf. destruct (R !! p) as [r|] eqn:E; [|done]. rewrite (vo_used _ _ Hs p r E) in Hf. done.
Qed.

(** Memory and frames of [s] replaced. *)
Definition upd s (f : A) (m : pmem) : vmm A := with_mem (with_frames s f) m.

(** [s'] extends [s] by at most [k] tables, without changing a translation. *)
Record extends (k : nat) (R R' : gmap Z role) (s s' : vmm A) : Prop := {
  ex_roles : R ⊆ R';
  ex_ok : vm_ok R' s';
  ex_upd : s' = upd s (v_frames s') (v_mem s');
  ex_tr : same_tr R (v_mem s) (v_mem s');
  ex_spare : forall n, spare (k + n) (v_frames s) -> spare n (v_frames s');
  ex_new : forall p r, R' !! p = Some r -> R !! p = None -> frame_used (v_frames s) (p / 4096) = false;
  ex_used : forall q, 0 <= q -> frame_used (v_frames s) q = true -> frame_used (v_frames s') q = true;
  ex_data : forall q j, 0 <= q -> q mod 4096 = 0 -> idx_ok j -> R !! q = None ->
    frame_used (v_frames s) (q / 4096) = true -> ent (v_mem s') q j = ent (v_mem s) q j;
  ex_roots : forall b, R' !! b = Some (RPml4 b) -> R !! b = Some (RPml4 b)
}.

Lemma spare_le n n' f : (n' <= n)%nat -> spare n f -> spare n' f.
Proof. intros Hn (X & Hx & Hf). exists X. split; [lia|done]. Qed.

Lemma extends_refl k R s : vm_ok R s -> extends k R R s s.
Proof.
  intros Hs. split; try done; [by destruct s| |].
  - intros n. apply spare_le. lia.
  - intros p r Hp Hn. congruence.
Qed.

Lemma extends_trans k1 k2 R1 R2 R3 s1 s2 s3 :
  extends k1 R1 R2 s1 s2 -> extends k2 R2 R3 s2 s3 -> extends (k1 + k2) R1 R3 s1 s3.
Proof.
  intros [H1 H2 H3 H4 H5 H6 H7 H8 H9] [G1 G2 G3 G4 G5 G6 G7 G8 G9]. split; [by transitivity R2|done| | | | | | |auto].
  - rewrite G3, H3. done.
  - by eapply same_tr_trans.
  - intros n Hn. apply G5, H5. by rewrite Nat.add_assoc.
  - intros p r Hp Hn. destruct (R2 !! p) as [r2|] eqn:E2; [by eapply H6|].
    pose proof (G6 p r Hp E2) as Hu. destruct (to_page _ _ (vo_tables _ _ G2) p r Hp) as [Hp0 _].
    destruct (frame_used (v_frames s1) (p / 4096)) eqn:E; [|done]. rewrite H7 in Hu by (done || mlia). done.
  - auto.
  - intros q j Hq Ha Hj Hn Hu. rewrite G8, H8; try done; [|apply H7; [mlia|done]].
    destruct (R2 !! q) as [r2|] eqn:E2; [|done]. rewrite (H6 q r2 E2 Hn) in Hu. done.
Qed.

Lemma page_addr_div p q : page_addr p -> page_addr q -> p / 4096 = q / 4096 -> p = q.
Proof. unfold page_addr. intros. mlia. Qed.

(** A fresh frame [p] of role [c] is installed in entry [i] of table [t]. *)
Lemma install R s t r i c p f m' e :
  vm_ok R s -> R !! t = Some r -> idx_ok i -> child r i = Some c ->
  frame_alloc (v_frames s) = (p, f) -> p <> 0 ->
  (forall q j, q mod 4096 = 0 -> idx_ok j -> q <> p -> ~ (q = t /\ j = i) -> ent m' q j = ent (v_mem s) q j) ->
  ent m' t i = e -> present e = true -> entry_addr e = p -> huge e = false ->
  (forall j, idx_ok j -> entry_ok R c j (ent m' p j)) ->
  (forall w a n v, (n < 3)%nat -> r = role_at a (S n) v -> idx (S n) v = i ->
     tr w n m' p v = tr w (S n) (v_mem s) t v) ->
  extends 1 R (<[p := c]> R) s (upd s f m') /\ only_entry R (v_mem s) m' t i.
Proof.
  intros Hs Hr Hi Hc Hall Hp0 Hdata Het Hpr Haddr Hh Hent Htr.
  destruct (alloc_cases _ _ _ (vo_wf _ _ Hs) Hall) as [Hwf' [[? _]|(Hpa & Hfree & Hused & Hsp)]]; [done|].
  pose proof (vm_fresh _ _ _ Hs Hfree) as Hnone. pose proof (vo_tables _ _ Hs) as Ht.
  assert (R ⊆ <[p := c]> R) as HR by by apply insert_subseteq.
  assert (only_entry R (v_mem s) m' t i) as Hsame.
  { intros q r' j Hq Hj Hne. apply Hdata; try done; [by eapply to_page|congruence]. }
  split; [|done]. split; try done.
  - split; [|done|].
    + by apply (tables_install R (v_mem s) m' t r i c p e).
    + intros q r' Hq. simpl. apply lookup_insert_Some in Hq as [[<- <-]|[Hne Hq]].
      * rewrite Hused by (destruct Hpa; mlia). by rewrite Z.eqb_refl.
      * rewrite Hused, (vo_used _ _ Hs q r' Hq); [by rewrite orb_true_r|].
        pose proof (to_page _ _ Ht q r' Hq) as [? _]. mlia.
  - apply (same_tr_entry R (v_mem s) m' t i Ht); [done|].
    intros w a n v Hn Hrt Hx. rewrite Hr in Hrt. injection Hrt as ->.
    destruct n as [|n]; [done|]. rewrite <- (Htr w a n v) by (done || lia).
    cbn [tr]. rewrite Hx, Het, Hpr, Hh, andb_false_r. by rewrite Haddr.
  - intros q r' Hq Hn. apply lookup_insert_Some in Hq as [[<- _]|[_ Hq]]; [done|congruence].
  - intros q Hq Hu. simpl. rewrite Hused, Hu by done. apply orb_true_r.
  - intros q j Hq Ha Hj Hn Hu. apply Hdata; try done; [intros ->; congruence|intros [-> _]; congruence].
  - intros b Hb. apply lookup_insert_Some in Hb as [[_ E]|[_ Hb]]; [|done]. destruct r; naive_solver.
Qed.

Definition table_flags (f : Z) : Prop := 0 <= f < 4096 /\ Z.testbit f 7 = false.

Lemma zero_entry_ok R c j : entry_ok R c j 0.
Proof. unfold entry_ok. by destruct (child c j). Qed.

Lemma tr_zero w n m p v : (forall j, idx_ok j -> ent m p j = 0) -> tr w n m p v = None.
Proof. intros H0. destruct n; cbn [tr]; by rewrite H0 by apply idx_range. Qed.

Lemma ensure_table_spec R s t r i c flags :
  vm_ok R s -> R !! t = Some r -> idx_ok i -> child r i = Some c -> table_flags flags ->
  (present (ent (v_mem s) t i) = true -> R !! entry_addr (ent (v_mem s) t i) = Some c) ->
  post (fun '(s', new) => exists R',
          extends 1 R R' s s' /\ only_entry R (v_mem s) (v_mem s') t i /\ (new = false -> s' = s) /\
          (present (ent (v_mem s) t i) = true -> new = false) /\
          (new = true -> user (ent (v_mem s') t i) = Z.testbit flags 2) /\
          present (ent (v_mem s') t i) = true /\ (new = true -> huge (ent (v_mem s') t i) = false) /\
          R' !! entry_addr (ent (v_mem s') t i) = Some c)
       (fun _ => ~ spare 1 (v_frames s)) (ensure_table s t i flags).
Proof.
  intros Hs Hr Hi Hc [Hfl Hf7] Hpre. unfold ensure_table.
  destruct (present (ent (v_mem s) t i)) eqn:Hpr.
  { simpl. exists R. split_and!; try done; [by apply extends_refl|by apply Hpre]. }
  destruct (frame_alloc (v_frames s)) as [p f] eqn:Hall.
  destruct (alloc_cases _ _ _ (vo_wf _ _ Hs) Hall) as [_ [(-> & _ & Hno)|(Hpa & Hfree & _)]]; [done|].
  destruct (Z.eqb_spec p 0) as [->|Hp0]; [destruct Hpa; lia|].
  pose proof (vo_tables _ _ Hs) as Ht. pose proof (vm_fresh _ _ _ Hs Hfree) as Hnone.
  pose proof (to_page _ _ Ht t r Hr) as [_ Htp].
  destruct (zero_page_spec p (set_ent (v_mem s) t i (vmm_make_entry p flags))) as (m' & -> & Hm'); [apply Hpa|].
  rewrite Ok_bind. assert (t <> p) as Htne by (intros ->; congruence).
  assert (ent m' t i = vmm_make_entry p flags) as He.
  { rewrite Hm' by done. rewrite decide_False by done. apply ent_set_eq. }
  assert (forall q j, q mod 4096 = 0 -> idx_ok j -> q <> p -> ~ (q = t /\ j = i) -> ent m' q j = ent (v_mem s) q j) as Ho.
  { intros q j Hq Hj Hqp Hne. rewrite Hm' by done. rewrite decide_False by done. apply ent_set_ne; naive_solver. }
  assert (forall j, idx_ok j -> ent m' p j = 0) as Hz.
  { intros j Hj. rewrite Hm' by (done || apply Hpa). by rewrite decide_True. }
  destruct (install R s t r i c p f m' (vmm_make_entry p flags)) as [He' Ho']; try done; [apply make_entry_present| | | | |].
  { by apply make_entry_addr. }
  { by rewrite make_entry_huge. }
  { intros j Hj. rewrite Hz by done. apply zero_entry_ok. }
  { intros w a n v Hn -> Hx. rewrite tr_zero by done. cbn [tr]. by rewrite Hx, Hpr. }
  exists (<[p := c]> R). split_and!; try done.
  - intros _. simpl. rewrite He, user_bit. unfold vmm_make_entry, VMM_PRESENT, VMM_NX, PAGE_MASK.
    change 4095 with (2 ^ 12 - 2 ^ 0). change 1 with (2 ^ 0).
    rewrite !Z.lor_spec, !Z.land_spec, !mask_bits, !pow2_bits by lia.
    by rewrite ?andb_false_r, andb_true_r, ?orb_false_r.
  - simpl. rewrite He. apply make_entry_present.
  - intros _. simpl. by rewrite He, make_entry_huge.
  - simpl. rewrite He, make_entry_addr by done. apply lookup_insert_eq.
Qed.

Lemma or_user_spec R s t r i c :
  vm_ok R s -> R !! t = Some r -> idx_ok i -> child r i = Some c -> is_pd r = false ->
  extends 0 R R s (or_user s t i) /\ only_entry R (v_mem s) (v_mem (or_user s t i)) t i /\
  ent (v_mem (or_user s t i)) t i = Z.lor (ent (v_mem s) t i) VMM_USER.
Proof.
  intros Hs Hr Hi Hc Hpd. pose proof (vo_tables _ _ Hs) as Ht.
  destruct (or_user_entry (ent (v_mem s) t i)) as (Epr & Eh & Ea & _).
  destruct (tables_set_entry R (v_mem s) t r i (Z.lor (ent (v_mem s) t i) VMM_USER) Ht Hr Hi) as [Ht' Ho].
  { unfold entry_ok. rewrite Hc, Hpd, Epr, Ea. intros Hp.
    pose proof (to_entry _ _ Ht t r i Hr Hi) as X. unfold entry_ok in X. rewrite Hc, Hpd in X. by apply X. }
  { by intros a ->. }
  split_and!; [|done|simpl; apply ent_set_eq].
  split; [done| |by destruct s| |done| |done| |done].
  { split; [done|apply (vo_wf _ _ Hs)|apply (vo_used _ _ Hs)]. }
  2:{ intros p r' Hp Hn. congruence. }
  2:{ intros q j _ Hq Hj Hn _. simpl. apply ent_set_ne; try done; [by eapply to_page|intros [-> _]; congruence]. }
  apply (same_tr_entry R (v_mem s) _ t i Ht Ho). intros w a n v Hn Hrt Hx.
  destruct n as [|n]; [rewrite Hr in Hrt; injection Hrt as ->; done|].
  cbn [tr]. rewrite Hx. cbn [or_user with_mem v_mem]. rewrite ent_set_eq, Epr, Eh, Ea.
  destruct (present (ent (v_mem s) t i)) eqn:Hp; [|reflexivity].
  assert (r = role_at a (S n) v) as -> by congruence. rewrite is_pd_role_at in Hpd by lia. rewrite Hpd. cbn [andb].
  apply (tr_below w R (v_mem s) _ a n t i v Ht Ho); [lia|done|].
  rewrite <- Hx in Hp |- *. pose proof (walk_step R _ a n t v Ht ltac:(lia) Hr Hp) as X. simpl in X.
  cbn [Nat.eqb] in *. by rewrite Hpd in X.
Qed.

(** What the lower levels of a mapping leave behind in entry [i] of [t]. *)
Record linked (R R' : gmap Z role) s s' (t i : Z) (c : role) : Prop := {
  lk_ext : extends 1 R R' s s';
  lk_only : only_entry R (v_mem s) (v_mem s') t i;
  lk_present : present (ent (v_mem s') t i) = true;
  lk_huge : is_pd (default c (R !! t)) = true -> huge (ent (v_mem s') t i) = false;
  lk_child : R' !! entry_addr (ent (v_mem s') t i) = Some c
}.

Lemma split_huge_spec R s t o x i :
  vm_ok R s -> R !! t = Some (RPd o x) -> idx_ok i ->
  present (ent (v_mem s) t i) = true -> huge (ent (v_mem s) t i) = true ->
  post (fun s' => exists R', linked R R' s s' t i (RPt o (512 * x + i)))
       (fun _ => ~ spare 1 (v_frames s)) (split_huge s t i).
Proof.
  intros Hs Hr Hi Hpr Hh. pose proof (vo_tables _ _ Hs) as Ht. unfold split_huge.
  assert (huge_ok (ent (v_mem s) t i)) as Hok.
  { pose proof (to_entry _ _ Ht t _ i Hr Hi) as X. unfold entry_ok in X. simpl in X. rewrite Hh in X. by apply X. }
  destruct (frame_alloc (v_frames s)) as [p f] eqn:Hall.
  destruct (alloc_cases _ _ _ (vo_wf _ _ Hs) Hall) as [_ [(-> & _ & Hno)|(Hpa & Hfree & _)]]; [done|].
  destruct (Z.eqb_spec p 0) as [->|Hp0]; [destruct Hpa; lia|].
  pose proof (vm_fresh _ _ _ Hs Hfree) as Hnone. pose proof (to_page _ _ Ht t _ Hr) as [_ Htp].
  set (g := split_pte (ent (v_mem s) t i)).
  destruct (fill_table_entries p (fun _ => g) g (v_mem s)) as (m' & Efill & Hm'); [apply Hpa|done|].
  unfold g, split_pte in Efill. rewrite Efill, Ok_bind. clear Efill. assert (t <> p) as Htne by (intros ->; congruence).
  set (e := vmm_make_entry p _). set (m2 := set_ent m' t i e).
  assert (ent m2 t i = e) as He by apply ent_set_eq.
  assert (forall q j, q mod 4096 = 0 -> idx_ok j -> q <> p -> ~ (q = t /\ j = i) -> ent m2 q j = ent (v_mem s) q j) as Ho.
  { intros q j Hq Hj Hqp Hne. unfold m2. rewrite ent_set_ne by (done || naive_solver).
    rewrite Hm' by done. by rewrite decide_False. }
  assert (forall j, idx_ok j -> ent m2 p j = g j) as Hz.
  { intros j Hj. unfold m2. rewrite ent_set_ne by (done || apply Hpa || naive_solver).
    rewrite Hm' by (done || apply Hpa). by rewrite decide_True. }
  assert (present e = true) as Hep by apply make_entry_present.
  assert (entry_addr e = p) as Hea by by apply make_entry_addr.
  assert (huge e = false) as Heh by (unfold e; by rewrite make_entry_huge).
  destruct (install R s t (RPd o x) i (RPt o (512 * x + i)) p f m2 e) as [He' Ho']; try done.
  { intros w a n v Hn Hrt Hx. destruct n as [|[|[|]]]; try done. cbn [tr Nat.eqb andb].
    rewrite Hz, Hx, Hpr, Hh by apply idx_range. unfold g. unfold split_pte at 1. rewrite make_entry_present.
    by apply vw_split. }
  exists (<[p := RPt o (512 * x + i)]> R). split; simpl; rewrite ?He; try done.
  - rewrite Hea. apply lookup_insert_eq.
Qed.

Lemma ensure_pt_spec R s t o x virt flags :
  vm_ok R s -> R !! t = Some (RPd o x) ->
  let e := ent (v_mem s) t (pdi virt) in
  post (fun r => match r with
          | None => present e = true /\ huge e = true /\ truthy (Z.land flags VMM_USER) = false
          | Some (s', new) => exists R', linked R R' s s' t (pdi virt) (RPt o (512 * x + pdi virt))
          end)
       (fun _ => ~ spare 1 (v_frames s)) (ensure_pt s t virt flags).
Proof.
  intros Hs Hr e. assert (idx_ok (pdi virt)) as Hi by apply (idx_range 1). unfold ensure_pt. fold e.
  destruct (present e && huge e) eqn:Eh.
  - apply andb_true_iff in Eh as [Hp Hh]. destruct (truthy _); [|done].
    eapply post_bind; [by apply split_huge_spec|]. intros s' [R' HR']. simpl. eauto.
  - eapply post_bind.
    { apply (ensure_table_spec R s t (RPd o x) (pdi virt) (RPt o (512 * x + pdi virt))); try done.
      intros Hp. pose proof (to_entry _ _ (vo_tables _ _ Hs) t _ _ Hr Hi) as X. unfold entry_ok in X. simpl in X.
      unfold e in Eh. rewrite Hp in Eh. simpl in Eh. rewrite Eh in X. by apply X. }
    intros [s' new] (R' & He & Ho & Hold & Hnew & _ & Hp' & Hh' & Hc). simpl. exists R'. split; try done.
    intros _. destruct new; [by apply Hh'|]. rewrite Hold in Hp' |- * by done. unfold e in Eh.
    by rewrite Hp' in Eh.
Qed.

Lemma linked_le R R' s s' t i c k : (1 <= k)%nat -> linked R R' s s' t i c -> extends k R R' s s'.
Proof.
  intros Hk [[? ? ? ? Hsp ? ? ? ?] _ _ _]. split; try done. intros n Hn. apply Hsp. eapply spare_le; [|done]. lia.
Qed.

Lemma ensure_pdpt_spec R s virt flags :
  vm_ok R s -> R !! vmm_pml4 s = Some (RPml4 (vmm_pml4 s)) ->
  post (fun '(s', _) => exists R',
          extends 1 R R' s s' /\ present (ent (v_mem s') (vmm_pml4 s) (pml4i virt)) = true /\
          R' !! entry_addr (ent (v_mem s') (vmm_pml4 s) (pml4i virt)) = Some (role_at (vmm_pml4 s) 2 virt))
       (fun _ => ~ spare 1 (v_frames s)) (ensure_pdpt s virt flags).
Proof.
  intros Hs Ha. unfold ensure_pdpt. set (a := vmm_pml4 s) in *.
  assert (idx_ok (pml4i virt)) as Hi by apply (idx_range 3).
  eapply post_bind.
  { apply (ensure_table_spec R s a (RPml4 a) (pml4i virt) (role_at a 2 virt)); try done.
    intros Hp. apply (walk_step R _ a 2 a virt (vo_tables _ _ Hs) ltac:(lia) Ha Hp). }
  intros [s1 n4] (R1 & He & _ & _ & _ & _ & Hp1 & _ & Hc1). simpl.
  assert (vmm_pml4 s1 = a) as Ea by by rewrite (ex_upd _ _ _ _ _ He). rewrite Ea.
  destruct (truthy _); [|by exists R1].
  assert (R1 !! a = Some (RPml4 a)) as Ha1 by by eapply lookup_weaken; [|apply (ex_roles _ _ _ _ _ He)].
  destruct (or_user_spec R1 s1 a (RPml4 a) (pml4i virt) (role_at a 2 virt)) as (E1 & O1 & V1);
    [apply (ex_ok _ _ _ _ _ He)|done..|].
  set (s2 := or_user s1 a (pml4i virt)) in *.
  destruct (or_user_entry (ent (v_mem s1) a (pml4i virt))) as (Q1 & _ & Q2 & _).
  set (pdpt := entry_addr (ent (v_mem s1) a (pml4i virt))) in *.
  destruct (or_user_spec R1 s2 pdpt (role_at a 2 virt) (pdpti virt) (role_at a 1 virt)) as (E2 & O2 & V2);
    [apply (ex_ok _ _ _ _ _ E1)|done|apply (idx_range 2)|done|done|].
  assert (a <> pdpt) as Hne by (intros E; rewrite <- E, Ha1 in Hc1; done).
  rewrite (O2 a (RPml4 a)) by (done || tauto). rewrite V1, Q1, Q2. exists R1. split_and!; try done.
  apply (extends_trans 1 0 R R1 R1 s s2); [|done]. by apply (extends_trans 1 0 R R1 R1 s s1).
Qed.

Lemma ensure_pd_spec R s a pdpt virt :
  vm_ok R s -> R !! a = Some (RPml4 a) -> present (ent (v_mem s) a (pml4i virt)) = true ->
  pdpt = entry_addr (ent (v_mem s) a (pml4i virt)) -> R !! pdpt = Some (role_at a 2 virt) ->
  post (fun '(s', _) => exists R',
          extends 1 R R' s s' /\ present (ent (v_mem s') a (pml4i virt)) = true /\
          entry_addr (ent (v_mem s') a (pml4i virt)) = pdpt /\ R' !! pdpt = Some (role_at a 2 virt) /\
          present (ent (v_mem s') pdpt (pdpti virt)) = true /\
          R' !! entry_addr (ent (v_mem s') pdpt (pdpti virt)) = Some (role_at a 1 virt))
       (fun _ => ~ spare 1 (v_frames s)) (ensure_table s pdpt (pdpti virt) VMM_WRITABLE).
Proof.
  intros Hs Ha Hp4 Hpd Hr. assert (idx_ok (pdpti virt)) as Hi by apply (idx_range 2).
  eapply post_conseq.
  { apply (ensure_table_spec R s pdpt (role_at a 2 virt) (pdpti virt) (role_at a 1 virt)); try done.
    intros Hp. apply (walk_step R _ a 1 pdpt virt (vo_tables _ _ Hs) ltac:(lia) Hr Hp). }
  intros [s' new] (R' & He & Ho & _ & _ & _ & Hp & _ & Hc). exists R'.
  assert (a <> pdpt) as Hne by (intros E; rewrite <- E, Ha in Hr; done).
  rewrite (Ho a (RPml4 a)) by (done || apply (idx_range 3) || tauto). split_and!; try done.
  eapply lookup_weaken; [done|]. apply (ex_roles _ _ _ _ _ He).
Qed.

Lemma map_page_walk R s virt phys flags :
  vm_ok R s -> R !! vmm_pml4 s = Some (RPml4 (vmm_pml4 s)) ->
  post (fun s' => exists R' s1, extends 3 R R' s s1 /\
          ((truthy (Z.land flags VMM_USER) = false /\ huge_at (v_mem s') (vmm_pml4 s) virt = true /\ s' = s1) \/
           exists pt new, leaf (v_mem s1) (vmm_pml4 s) virt = Some pt /\
             s' = vmm_flush (with_mem s1 (set_ent (v_mem s1) pt (idx 0 virt) (vmm_make_entry phys flags))) new virt))
       (fun _ => ~ spare 3 (v_frames s)) (vmm_map_page s virt phys flags).
Proof.
  intros Hs Ha. unfold vmm_map_page. set (a := vmm_pml4 s) in *.
  pose proof (to_page _ _ (vo_tables _ _ Hs) a _ Ha) as [Ha0 _].
  destruct (Z.eqb_spec a 0); [lia|].
  eapply post_bind.
  { eapply post_mono; [by apply ensure_pdpt_spec|by intros r Hr; exact Hr|].
    intros ? Hn Hsp. apply Hn. eapply spare_le; [|done]. lia. }
  intros [s1 n4] (R1 & E1 & P4 & C4). fold a in P4, C4.
  assert (vmm_pml4 s1 = a) as Ea1 by by rewrite (ex_upd _ _ _ _ _ E1). rewrite Ea1.
  assert (R1 !! a = Some (RPml4 a)) as Ha1 by by eapply lookup_weaken; [|apply (ex_roles _ _ _ _ _ E1)].
  set (pdpt := entry_addr (ent (v_mem s1) a (pml4i virt))) in *.
  eapply post_bind.
  { eapply post_mono; [by apply (ensure_pd_spec R1 s1 a pdpt); [apply (ex_ok _ _ _ _ _ E1)|..]|by intros r Hr; exact Hr|].
    intros ? Hn Hsp. apply Hn, (ex_spare _ _ _ _ _ E1). eapply spare_le; [|done]. lia. }
  intros [s2 n3] (R2 & E2 & P4' & A4 & C4' & P3 & C3).
  assert (R2 !! a = Some (RPml4 a)) as Ha2 by by eapply lookup_weaken; [|apply (ex_roles _ _ _ _ _ E2)].
  set (pd := entry_addr (ent (v_mem s2) pdpt (pdpti virt))) in *.
  pose proof (extends_trans _ _ _ _ _ _ _ _ E1 E2) as E12.
  eapply post_bind.
  { eapply post_mono; [by eapply (ensure_pt_spec R2 s2 pd); [apply (ex_ok _ _ _ _ _ E2)|..]|by intros r Hr; exact Hr|].
    intros ? Hn Hsp. apply Hn, (ex_spare _ _ _ _ _ E12). eapply spare_le; [|done]. lia. }
  intros [[s3 n2]|]; simpl.
  - intros (R3 & Hl). pose proof (linked_le _ _ _ _ _ _ _ 1 ltac:(lia) Hl) as E3.
    exists R3, s3. split; [exact (extends_trans _ _ _ _ _ _ _ _ E12 E3)|]. right.
    exists (entry_addr (ent (v_mem s3) pd (pdi virt))), (n4 || n3 || n2).
    assert (ent (v_mem s3) a (pml4i virt) = ent (v_mem s2) a (pml4i virt)) as X4.
    { apply (lk_only _ _ _ _ _ _ _ Hl a _ _ Ha2 (idx_range 3 virt)). intros [E _]. rewrite <- E, Ha2 in C3. done. }
    assert (ent (v_mem s3) pdpt (pdpti virt) = ent (v_mem s2) pdpt (pdpti virt)) as X3.
    { apply (lk_only _ _ _ _ _ _ _ Hl pdpt _ _ C4' (idx_range 2 virt)). intros [E _]. rewrite <- E, C4' in C3. done. }
    split; [|done]. unfold leaf. change (idx 3 virt) with (pml4i virt). change (idx 2 virt) with (pdpti virt).
    change (idx 1 virt) with (pdi virt). rewrite X4, A4, X3, P4', P3. fold pd.
    rewrite (lk_present _ _ _ _ _ _ _ Hl), (lk_huge _ _ _ _ _ _ _ Hl); [done|]. by rewrite C3.
  - intros (Hp & Hh & Hu). exists R2, s2. split.
    + destruct E12 as [? ? ? ? Hsp ? ? ? ?]. split; try done. intros k Hk. apply Hsp. eapply spare_le; [|done]. lia.
    + left. split_and!; [done| |done]. unfold huge_at. change (idx 3 virt) with (pml4i virt).
      change (idx 2 virt) with (pdpti virt). change (idx 1 virt) with (pdi virt). rewrite A4, P4', P3. fold pd. by rewrite Hp, Hh.
Qed.

(** ** Mapping, unmapping and looking up *)

(** [vmm_get_phys] is the translation of the space being edited; 0 stands for
    none. *)
Lemma get_phys_translate R s v :
  vm_ok R s -> R !! vmm_pml4 s = Some (RPml4 (vmm_pml4 s)) ->
  vmm_get_phys s v = default 0 (translate (v_mem s) (vmm_pml4 s) v).
Proof.
  intros Hs Ha. pose proof (vo_tables _ _ Hs) as Ht. unfold vmm_get_phys, translate.
  set (a := vmm_pml4 s) in *. set (m := v_mem s) in *.
  destruct (to_page _ _ Ht a _ Ha) as [Ha0 _]. destruct (Z.eqb_spec a 0); [lia|].
  cbn [tr Nat.eqb andb].
  change (idx 3 v) with (pml4i v). change (idx 2 v) with (pdpti v). change (idx 1 v) with (pdi v). change (idx 0 v) with (pti v).
  destruct (present (ent m a (pml4i v))) eqn:E4; [|done]. cbn [negb].
  pose proof (walk_step R m a 2 a v Ht ltac:(lia) Ha E4) as H2. cbn [Nat.eqb andb] in H2.
  change (idx 3 v) with (pml4i v) in H2.
  rewrite phys_mask_addr by by eapply to_page.
  set (pdpt := entry_addr (ent m a (pml4i v))) in *.
  destruct (present (ent m pdpt (pdpti v))) eqn:E3; [|done]. cbn [negb].
  pose proof (walk_step R m a 1 pdpt v Ht ltac:(lia) H2 E3) as H1. cbn [Nat.eqb andb] in H1.
  change (idx 2 v) with (pdpti v) in H1.
  rewrite phys_mask_addr by by eapply to_page.
  set (pd := entry_addr (ent m pdpt (pdpti v))) in *.
  destruct (present (ent m pd (pdi v))); [|done]. cbn [negb].
  destruct (huge (ent m pd (pdi v))); [done|].
  by destruct (present (ent m (entry_addr (ent m pd (pdi v))) (pti v))).
Qed.

Lemma vmm_flush_fields s new virt :
  v_mem (vmm_flush s new virt) = v_mem s /\ v_frames (vmm_flush s new virt) = v_frames s /\
  vmm_pml4 (vmm_flush s new virt) = vmm_pml4 s.
Proof. unfold vmm_flush. destruct (vmm_editing_active_root s); [destruct new|]; done. Qed.

(** A page is below every space's own part of the frame address. *)
Lemma lor_offset x v : x mod 4096 = 0 -> 0 <= x -> Z.lor x (Z.land v 4095) = x + v mod 4096.
Proof.
  intros Hx Hp. change 4095 with (Z.ones 12). rewrite Z.land_ones by lia. change (2 ^ 12) with 4096.
  rewrite Z.lor_comm. replace x with (Z.shiftl (x / 4096) 12) at 1.
  - rewrite lor_shift_add; [|lia|change (2 ^ 12) with 4096; mlia|mlia]. change (2 ^ 12) with 4096. mlia.
  - rewrite Z.shiftl_mul_pow2 by lia. change (2 ^ 12) with 4096. mlia.
Qed.

(** The entry [vmm_get_pte] finds through a page table. *)
Lemma get_pte_leaf s v pt : vmm_pml4 s <> 0 -> leaf (v_mem s) (vmm_pml4 s) v = Some pt -> vmm_get_pte s v = ent (v_mem s) pt (idx 0 v).
Proof.
  intros H0. unfold leaf, vmm_get_pte. rewrite (proj2 (Z.eqb_neq _ _) H0).
  change (idx 3 v) with (pml4i v). change (idx 2 v) with (pdpti v). change (idx 1 v) with (pdi v). change (idx 0 v) with (pti v).
  destruct (present (ent (v_mem s) (vmm_pml4 s) (pml4i v))); [|done]. cbn [negb andb].
  destruct (present (ent (v_mem s) (entry_addr (ent (v_mem s) (vmm_pml4 s) (pml4i v))) (pdpti v))); [|done]. cbn [negb andb].
  destruct (present _); [|done]. cbn [negb andb]. destruct (huge _); [done|]. by intros [= <-].
Qed.

(** The flags of an entry: the low twelve bits and bit 63. *)
Lemma make_entry_flags p f k : 0 <= k < 12 \/ k = 63 -> 0 <= p < 2 ^ 52 ->
  Z.testbit (vmm_make_entry p f) k = Z.testbit f k || (k =? 0).
Proof.
  intros Hk Hp. unfold vmm_make_entry, PAGE_MASK, VMM_NX, VMM_PRESENT. change 1 with (2 ^ 0). change 4095 with (2 ^ 12 - 2 ^ 0).
  rewrite !Z.lor_spec, !Z.land_spec, !mask_bits, !pow2_bits by lia. destruct Hk as [Hk| ->].
  - rewrite (proj2 (Z.leb_gt 12 k)), (proj2 (Z.leb_le 0 k)), (proj2 (Z.ltb_lt k 12)), (proj2 (Z.eqb_neq k 63)) by lia. cbn [andb].
    by rewrite !andb_false_r, andb_true_r, orb_false_r.
  - rewrite (small_bits p 52) by lia. cbn. by rewrite andb_false_r, andb_true_r, !orb_false_r.
Qed.

(** C11: In a well-formed system with three frames left, [vmm_map_page]
    returns without panicking and keeps the page tables well formed. Then the
    page of [virt] translates to the frame of [phys], its entry has the flags
    given (and present), the translation of every other page of the space is
    what it was, and when [virt] is below 4 GiB nothing changes in any other
    space. (From 4 GiB on the tables are shared by all spaces, so that there the
    page is mapped in every space.) The only exception is a supervisor mapping
    under a 2 MiB page, which leaves all translations as they were. *)
Theorem vmm_map_page_correct R s virt phys flags :
  vm_ok R s -> R !! vmm_pml4 s = Some (RPml4 (vmm_pml4 s)) -> spare 3 (v_frames s) -> 0 <= phys < 2 ^ 52 ->
  exists s' R', vmm_map_page s virt phys flags = Ok s' /\ R ⊆ R' /\ vm_ok R' s' /\ vmm_pml4 s' = vmm_pml4 s /\
    ((user flags = false /\ huge_at (v_mem s') (vmm_pml4 s) virt = true /\ same_tr R (v_mem s) (v_mem s')) \/
     (forall v, vpn v = vpn virt -> vmm_get_phys s' v = phys - phys mod 4096 + v mod 4096 /\
        forall k, 0 <= k < 12 \/ k = 63 -> Z.testbit (vmm_get_pte s' v) k = Z.testbit flags k || (k =? 0)) /\
     (forall b v, R !! b = Some (RPml4 b) -> vpn v <> vpn virt \/ (b <> vmm_pml4 s /\ private virt) ->
        translate (v_mem s') b v = translate (v_mem s) b v)).
Proof.
  intros Hs Ha Hsp Hphys. pose proof (map_page_walk R s virt phys flags Hs Ha) as H0.
  destruct (vmm_map_page s virt phys flags) as [s'| | |]; simpl in H0; [|by destruct H0..].
  destruct H0 as (R' & s1 & E1 & Hcase). exists s', R'.
  pose proof (ex_upd _ _ _ _ _ E1) as Eu. pose proof (ex_roles _ _ _ _ _ E1) as HR.
  assert (vmm_pml4 s1 = vmm_pml4 s) as Ea by by rewrite Eu.
  destruct Hcase as [(Hu & Hh & ->)|(pt & new & Hl & ->)].
  { split_and!; [done|done|apply (ex_ok _ _ _ _ _ E1)|done|]. left. split_and!; [done..|apply (ex_tr _ _ _ _ _ E1)]. }
  set (m' := set_ent _ _ _ _). set (s' := vmm_flush _ _ _).
  destruct (vmm_flush_fields (with_mem s1 m') new virt) as (Em & Ef & Ep). fold s' in Em, Ef, Ep. simpl in Em, Ef, Ep.
  assert (R' !! vmm_pml4 s = Some (RPml4 (vmm_pml4 s))) as Ha' by by eapply lookup_weaken.
  pose proof (ex_ok _ _ _ _ _ E1) as Hok1.
  destruct (pt_write R' (v_mem s1) (vmm_pml4 s) virt pt (vmm_make_entry phys flags) (vo_tables _ _ Hok1) Ha' Hl)
    as (Ht' & Hnew & Hother). fold m' in Ht', Hnew, Hother.
  assert (vm_ok R' s') as Hok'.
  { split; rewrite ?Em, ?Ef; [done|apply (vo_wf _ _ Hok1)|apply (vo_used _ _ Hok1)]. }
  split_and!; [done|done|done|by rewrite Ep|]. right. split.
  - intros v Hv. split.
    + rewrite (get_phys_translate R' s' v Hok') by by rewrite Ep, Ea.
      unfold translate. rewrite Em, Ep, Ea, (Hnew phys_view v Hv), make_entry_present. cbn [vw_pte phys_view default].
      rewrite make_entry_phys by done. apply lor_offset; mlia.
    + pose proof (pt_write_leaf R' (v_mem s1) (vmm_pml4 s) virt pt (vmm_make_entry phys flags) v (vo_tables _ _ Hok1) Ha' Hl Hv) as Hl'.
      fold m' in Hl'. assert (vmm_pml4 s' = vmm_pml4 s) as Eps by (by rewrite Ep).
      destruct (to_page _ _ (vo_tables _ _ Hok1) _ _ Ha') as [[Hpos _] _].
      rewrite (get_pte_leaf s' v pt); [|rewrite Eps; lia|by rewrite Em, Eps].
      apply vpn_eq_idx in Hv as (E0 & _). rewrite Em, E0. unfold m'. rewrite ent_set_eq. intros k Hk. by apply make_entry_flags.
  - intros b v Hb Hne. unfold translate. rewrite Em, Hother; [|by eapply lookup_weaken|done]. exact (ex_tr _ _ _ _ _ E1 phys_view b v Hb).
Qed.

Lemma unmap_page_cases R s virt :
  vm_ok R s -> R !! vmm_pml4 s = Some (RPml4 (vmm_pml4 s)) ->
  let a := vmm_pml4 s in let m := v_mem s in
  (vmm_unmap_page s virt = s /\ huge_at m a virt = false /\
     forall w v, vpn v = vpn virt -> tr w 3 m a v = None) \/
  (exists pd, pd_of m a virt = Some pd /\ huge_at m a virt = true /\
     vmm_unmap_page s virt = vmm_flush (with_mem s (set_ent m pd (idx 1 virt) 0)) true virt) \/
  (exists pt, leaf m a virt = Some pt /\ huge_at m a virt = false /\
     vmm_unmap_page s virt = vmm_flush (with_mem s (set_ent m pt (idx 0 virt) 0)) false virt).
Proof.
  intros Hs Ha a m. pose proof (vo_tables _ _ Hs) as Ht. fold m in Ht. fold a in Ha.
  destruct (to_page _ _ Ht a _ Ha) as [Ha0 _]. unfold vmm_unmap_page, vmm_flush. fold a m.
  destruct (Z.eqb_spec a 0); [lia|]. unfold huge_at, leaf, pd_of.
  change (idx 3 virt) with (pml4i virt). change (idx 2 virt) with (pdpti virt).
  change (idx 1 virt) with (pdi virt). change (idx 0 virt) with (pti virt).
  set (e4 := ent m a (pml4i virt)). set (e3 := ent m (entry_addr e4) (pdpti virt)).
  set (e2 := ent m (entry_addr e3) (pdi virt)).
  assert (forall w v, vpn v = vpn virt -> tr w 3 m a v =
    if present e4 && present e3 && present e2 then
      if huge e2 then vw_huge w e2 v else tr w 0 m (entry_addr e2) v
    else None) as Htr.
  { intros w v (E0 & E1 & E2 & E3)%vpn_eq_idx. cbn [tr Nat.eqb andb]. rewrite E0, E1, E2, E3.
    fold (pml4i virt) (pdpti virt) (pdi virt).
    change (idx 3 virt) with (pml4i virt). change (idx 2 virt) with (pdpti virt). change (idx 1 virt) with (pdi virt).
    fold e4 e3 e2. destruct (present e4), (present e3), (present e2); done. }
  destruct (present e4); cbn [negb andb] in *; [|by left].
  destruct (present e3); cbn [negb andb] in *; [|by left].
  destruct (present e2); cbn [negb andb] in *; [|by left].
  destruct (huge e2); cbn [negb andb] in *.
  - right. left. exists (entry_addr e3). by split_and!.
  - right. right. exists (entry_addr e2). by split_and!.
Qed.

(** The pages [vmm_unmap_page] takes away: the whole 2 MiB when [virt] is in a
    2 MiB page, its own page otherwise. *)
Definition unmapped s (virt v : Z) : Prop :=
  if huge_at (v_mem s) (vmm_pml4 s) virt then vpn v / 512 = vpn virt / 512 else vpn v = vpn virt.

(** The memory and the frames after an unmap. *)
Lemma unmap_page_spec R s virt :
  vm_ok R s -> R !! vmm_pml4 s = Some (RPml4 (vmm_pml4 s)) ->
  let s' := vmm_unmap_page s virt in
  vm_ok R s' /\ vmm_pml4 s' = vmm_pml4 s /\ v_frames s' = v_frames s /\
  (forall w v, unmapped s virt v -> tr w 3 (v_mem s') (vmm_pml4 s) v = None) /\
  (forall w b v, R !! b = Some (RPml4 b) -> ~ unmapped s virt v \/ (b <> vmm_pml4 s /\ private virt) ->
     tr w 3 (v_mem s') b v = tr w 3 (v_mem s) b v).
Proof.
  intros Hs Ha s'. pose proof (vo_tables _ _ Hs) as Ht. unfold unmapped.
  assert (forall m new, vm_ok R (vmm_flush (with_mem s m) new virt) <-> tables_ok R m) as Hfl.
  { intros m new. destruct (vmm_flush_fields (with_mem s m) new virt) as (Em & Ef & _). split.
    - intros X. pose proof (vo_tables _ _ X) as Y. by rewrite Em in Y.
    - intros X. split; rewrite ?Em, ?Ef; [done|apply (vo_wf _ _ Hs)|apply (vo_used _ _ Hs)]. }
  destruct (unmap_page_cases R s virt Hs Ha) as [(E & Hh & Hn)|[(pd & Hpd & Hh & E)|(pt & Hl & Hh & E)]];
    unfold s'; rewrite E, Hh.
  - split_and!; done.
  - destruct (pd_clear R _ _ virt pd Ht Ha Hpd) as (Ht' & Hgone & Hother).
    destruct (vmm_flush_fields (with_mem s (set_ent (v_mem s) pd (idx 1 virt) 0)) true virt) as (-> & -> & ->).
    split_and!; [by apply Hfl|done|done|done|done].
  - destruct (pt_write R _ _ virt pt 0 Ht Ha Hl) as (Ht' & Hgone & Hother).
    destruct (vmm_flush_fields (with_mem s (set_ent (v_mem s) pt (idx 0 virt) 0)) false virt) as (-> & -> & ->).
    split_and!; [by apply Hfl|done|done|done|done].
Qed.

(** Unmapping never fails and keeps the page tables well formed; the page
    of [virt] (all of its 2 MiB when a 2 MiB page maps it) translates to
    nothing afterwards, every other page as before, and for [virt] below
    4 GiB no other space changes. *)
Theorem vmm_unmap_page_correct R s virt :
  vm_ok R s -> R !! vmm_pml4 s = Some (RPml4 (vmm_pml4 s)) ->
  let s' := vmm_unmap_page s virt in
  vm_ok R s' /\ vmm_pml4 s' = vmm_pml4 s /\
  (forall v, unmapped s virt v -> vmm_get_phys s' v = 0) /\
  (forall b v, R !! b = Some (RPml4 b) -> ~ unmapped s virt v \/ (b <> vmm_pml4 s /\ private virt) ->
     translate (v_mem s') b v = translate (v_mem s) b v).
Proof.
  intros Hs Ha s'. destruct (unmap_page_spec R s virt Hs Ha) as (Hs' & Ea & _ & Hgone & Hother). fold s' in Hs', Ea, Hgone, Hother.
  split_and!; [done|done| |exact (Hother phys_view)]. intros v Hv.
  rewrite (get_phys_translate R s' v Hs') by by rewrite Ea. unfold translate. by rewrite Ea, Hgone.
Qed.

(** ** The TLB

    [R0] holds the roots of the address spaces the kernel may select. *)

Definition is_root (R : gmap Z role) (la57 : bool) (root a : Z) : Prop :=
  R !! a = Some (RPml4 a) /\ if la57 then R !! entry_addr root = Some (RRoot a) else entry_addr root = a.

(** The PML4 the CPU walks. *)
Definition cpu_pml4 s : Z := root_to_pml4 (vmm_la57 s) (v_mem s) (v_cr3 s).

(** Every cached translation is the one the page tables give now. *)
Definition tlb_coherent s : Prop :=
  forall p f, v_tlb s !! p = Some f -> 0 <= p < 2 ^ 36 /\ translate (v_mem s) (cpu_pml4 s) (p * 4096) = Some f.

(** The CPU caches translations at any time; the kernel edits the tables of
    any space, below 4 GiB when the space is not the running one. *)
Inductive vstep (R0 : gmap Z role) : vmm A -> vmm A -> Prop :=
  | step_cache s v f :
      translate (v_mem s) (cpu_pml4 s) (vpn v * 4096) = Some f ->
      vstep R0 s (with_tlb s (<[vpn v := f]> (v_tlb s)))
  | step_map s virt phys flags s' :
      private virt \/ vmm_editing_active_root s = true ->
      vmm_map_page s virt phys flags = Ok s' -> vstep R0 s s'
  | step_unmap s virt :
      private virt \/ vmm_editing_active_root s = true -> vstep R0 s (vmm_unmap_page s virt)
  | step_set_root s root a : is_root R0 (vmm_la57 s) root a -> vstep R0 s (vmm_set_root_ptr s root)
  | step_switch s root a : is_root R0 (vmm_la57 s) root a -> vstep R0 s (vmm_switch_cr3 s root).

Record tlb_inv (R0 R : gmap Z role) s : Prop := {
  ti_roles : R0 ⊆ R;
  ti_ok : vm_ok R s;
  ti_root : exists a, is_root R0 (vmm_la57 s) (v_cr3 s) a;
  ti_edit : R0 !! vmm_pml4 s = Some (RPml4 (vmm_pml4 s));
  ti_sw : sw_active s = 0 \/ sw_active s = entry_addr (v_cr3 s);
  ti_tlb : tlb_coherent s
}.

Lemma is_root_weaken R R' la57 root a : R ⊆ R' -> is_root R la57 root a -> is_root R' la57 root a.
Proof.
  intros HR [Ha Hr]. split; [by eapply lookup_weaken|]. destruct la57; [|done]. by eapply lookup_weaken.
Qed.

Lemma entry_addr_idem x : entry_addr (entry_addr x) = entry_addr x.
Proof. unfold entry_addr. by rewrite <- Z.land_assoc, Z.land_diag. Qed.

Lemma is_root_pml4 R m la57 root a :
  tables_ok R m -> is_root R la57 root a ->
  root_to_pml4 la57 m root = a /\ root_to_pml4 la57 m (entry_addr root) = a.
Proof.
  intros Ht [Ha Hr]. unfold root_to_pml4. rewrite entry_addr_idem.
  destruct la57; [|done]. destruct (to_root _ _ Ht _ _ Hr) as [-> _]. done.
Qed.

Lemma vpn_page p : 0 <= p < 2 ^ 36 -> vpn (p * 4096) = p.
Proof. intros Hp. unfold vpn. rewrite Z.div_mul by lia. by apply Z.mod_small. Qed.

(** An edit followed by the flush the code does: [same v] tells which pages
    keep their translation in the edited space. *)
Lemma flush_coherent R0 R s s1 m new virt (gone : Z -> Prop) :
  R0 ⊆ R -> (exists a, is_root R0 (vmm_la57 s) (v_cr3 s) a) ->
  tables_ok R (v_mem s) -> tables_ok R m -> tlb_coherent s ->
  private virt \/ vmm_editing_active_root s = true ->
  s1 = with_mem (with_frames s (v_frames s1)) m ->
  (forall b v, R !! b = Some (RPml4 b) -> ~ gone v \/ (b <> vmm_pml4 s /\ private virt) ->
     translate m b v = translate (v_mem s) b v) ->
  (new = false -> forall v, gone v -> vpn v = vpn virt) ->
  tlb_coherent (vmm_flush s1 new virt).
Proof.
  intros HR [a Hroot] Ht Htm Hco Hedit Es1 Htr Hnew.
  pose proof (is_root_weaken _ _ _ _ _ HR Hroot) as Hroot'.
  destruct (is_root_pml4 R (v_mem s) _ _ _ Ht Hroot') as [Ecur Ecur']. destruct (is_root_pml4 R m _ _ _ Htm Hroot') as [Em Em'].
  assert (cpu_pml4 s1 = a) as E1 by by rewrite Es1. assert (cpu_pml4 s = a) as E0 by done.
  assert (vmm_editing_active_root s1 = (a =? vmm_pml4 s)) as Eed1.
  { rewrite Es1. unfold vmm_editing_active_root, mm_root_to_pml4. simpl. fold (entry_addr (v_cr3 s)). by rewrite Em'. }
  assert (vmm_editing_active_root s = (a =? vmm_pml4 s)) as Eed.
  { unfold vmm_editing_active_root, mm_root_to_pml4. fold (entry_addr (v_cr3 s)). by rewrite Ecur'. }
  assert (v_mem s1 = m /\ v_tlb s1 = v_tlb s) as [Em1 Etlb] by by rewrite Es1.
  assert (forall p f, v_tlb s !! p = Some f -> ~ gone (p * 4096) \/ a <> vmm_pml4 s /\ private virt ->
            0 <= p < 2 ^ 36 /\ translate m a (p * 4096) = Some f) as Hkeep.
  { intros p f Hp Hok. destruct (Hco p f Hp) as [Hr Hf]. split; [done|].
    rewrite Htr; [by rewrite <- E0|apply Hroot'|done]. }
  unfold vmm_flush. rewrite Eed1. destruct (Z.eqb_spec a (vmm_pml4 s)) as [Ea|Ea].
  - destruct new; intros p f Hp; simpl in Hp; [done|]. rewrite Etlb in Hp.
    apply lookup_delete_Some in Hp as [Hne Hp]. unfold cpu_pml4, vmm_invlpg. simpl.
    fold (cpu_pml4 s1). rewrite E1, Em1. apply Hkeep; [done|]. left. intros Hg.
    apply Hne. rewrite <- (Hnew eq_refl _ Hg). apply vpn_page. by apply (Hco p f).
  - intros p f Hp. rewrite Etlb in Hp. rewrite E1, Em1. apply Hkeep; [done|]. right. split; [done|].
    destruct Hedit as [|He]; [done|congruence].
Qed.

Lemma vmm_flush_other s new virt :
  let s' := vmm_flush s new virt in
  vmm_la57 s' = vmm_la57 s /\ v_cr3 s' = v_cr3 s /\ sw_active s' = sw_active s.
Proof. unfold vmm_flush. destruct (vmm_editing_active_root s); [destruct new|]; done. Qed.

Lemma step_map_inv R0 R s virt phys flags s' :
  tlb_inv R0 R s -> private virt \/ vmm_editing_active_root s = true ->
  vmm_map_page s virt phys flags = Ok s' -> exists R', tlb_inv R0 R' s'.
Proof.
  intros [HR Hok Hroot Ha Hsw Hco] Hedit Hmap.
  assert (R !! vmm_pml4 s = Some (RPml4 (vmm_pml4 s))) as HaR by by eapply lookup_weaken.
  pose proof (map_page_walk R s virt phys flags Hok HaR) as H0. rewrite Hmap in H0. simpl in H0.
  destruct H0 as (R' & s1 & E1 & Hcase). pose proof (ex_roles _ _ _ _ _ E1) as HR1. pose proof (ex_ok _ _ _ _ _ E1) as Hok1.
  assert (R0 ⊆ R') as HR' by by transitivity R.
  assert (R' !! vmm_pml4 s = Some (RPml4 (vmm_pml4 s))) as HaR' by by eapply lookup_weaken.
  destruct Hroot as [a Hroot]. pose proof (is_root_weaken _ _ _ _ _ HR' Hroot) as Hroot'.
  pose proof (ex_upd _ _ _ _ _ E1) as Eu.
  assert (tlb_coherent s1) as Hco1.
  { intros p f Hp. assert (v_tlb s1 = v_tlb s) as Et by by rewrite Eu. rewrite Et in Hp.
    destruct (Hco p f Hp) as [Hr Hf]. split; [done|].
    assert (cpu_pml4 s1 = a) as ->.
    { assert (cpu_pml4 s1 = root_to_pml4 (vmm_la57 s) (v_mem s1) (v_cr3 s)) as -> by by rewrite Eu.
      by apply (is_root_pml4 R' (v_mem s1) _ _ _ (vo_tables _ _ Hok1)). }
    assert (cpu_pml4 s = a) as Ec.
    { apply (is_root_pml4 R (v_mem s) _ _ _ (vo_tables _ _ Hok)). by eapply is_root_weaken. }
    rewrite Ec in Hf. rewrite <- Hf. apply (ex_tr _ _ _ _ _ E1 phys_view). eapply lookup_weaken; [apply Hroot|done]. }
  assert (vmm_la57 s1 = vmm_la57 s /\ v_cr3 s1 = v_cr3 s /\ sw_active s1 = sw_active s /\ vmm_pml4 s1 = vmm_pml4 s)
    as (F1 & F2 & F3 & F4) by by rewrite Eu.
  exists R'. destruct Hcase as [(_ & _ & ->)|(pt & new & Hl & ->)].
  { split; try done; rewrite ?F1, ?F2, ?F3, ?F4; [by exists a|done|done]. }
  set (m' := set_ent _ _ _ _).
  destruct (pt_write R' (v_mem s1) (vmm_pml4 s) virt pt (vmm_make_entry phys flags) (vo_tables _ _ Hok1) HaR' Hl)
    as (Ht' & _ & Hother). fold m' in Ht', Hother.
  destruct (vmm_flush_fields (with_mem s1 m') new virt) as (Em & Ef & Ep).
  destruct (vmm_flush_other (with_mem s1 m') new virt) as (G1 & G2 & G3).
  split; rewrite ?G1, ?G2, ?G3, ?Ep; cbn [with_mem vmm_la57 v_cr3 sw_active vmm_pml4]; rewrite ?F1, ?F2, ?F3, ?F4; try done.
  - split; rewrite ?Em, ?Ef; [done|apply (vo_wf _ _ Hok1)|apply (vo_used _ _ Hok1)].
  - by exists a.
  - apply (flush_coherent R0 R' s1 (with_mem s1 m') m' new virt (fun v => vpn v = vpn virt)); try done.
    + exists a. by rewrite F1, F2.
    + apply (vo_tables _ _ Hok1).
    + destruct Hedit as [|He]; [by left|right]. rewrite <- He. unfold vmm_editing_active_root, mm_root_to_pml4.
      rewrite F1, F2, F4. fold (entry_addr (v_cr3 s)).
      destruct (is_root_pml4 R' (v_mem s1) _ _ _ (vo_tables _ _ Hok1) Hroot') as [_ ->].
      destruct (is_root_pml4 R (v_mem s) _ _ _ (vo_tables _ _ Hok) (is_root_weaken _ _ _ _ _ HR Hroot)) as [_ ->]. done.
    + intros b v Hb Hne. apply (Hother phys_view); [done|]. rewrite F4 in Hne. tauto.
Qed.

Lemma step_unmap_inv R0 R s virt :
  tlb_inv R0 R s -> private virt \/ vmm_editing_active_root s = true -> tlb_inv R0 R (vmm_unmap_page s virt).
Proof.
  intros [HR Hok Hroot Ha Hsw Hco] Hedit.
  assert (R !! vmm_pml4 s = Some (RPml4 (vmm_pml4 s))) as HaR by by eapply lookup_weaken.
  pose proof (vo_tables _ _ Hok) as Ht.
  destruct (unmap_page_spec R s virt Hok HaR) as (Hok' & Ea & _).
  destruct (unmap_page_cases R s virt Hok HaR) as [(E & _)|[(pd & Hpd & Hh & E)|(pt & Hl & Hh & E)]];
    rewrite E in Hok', Ea |- *; [done| |].
  - destruct (pd_clear R _ _ virt pd Ht HaR Hpd) as (Ht' & _ & Hother). set (m' := set_ent _ _ _ _) in *.
    destruct (vmm_flush_other (with_mem s m') true virt) as (G1 & G2 & G3).
    split; rewrite ?G1, ?G2, ?G3, ?Ea; try done.
    by apply (flush_coherent R0 R s _ m' true virt (fun v => vpn v / 512 = vpn virt / 512)); [..|exact (Hother phys_view)|].
  - destruct (pt_write R _ _ virt pt 0 Ht HaR Hl) as (Ht' & _ & Hother). set (m' := set_ent _ _ _ _) in *.
    destruct (vmm_flush_other (with_mem s m') false virt) as (G1 & G2 & G3).
    split; rewrite ?G1, ?G2, ?G3, ?Ea; try done.
    by apply (flush_coherent R0 R s _ m' false virt (fun v => vpn v = vpn virt)); [..|exact (Hother phys_view)|].
Qed.

Lemma step_switch_inv R0 R s root a :
  tlb_inv R0 R s -> is_root R0 (vmm_la57 s) root a -> tlb_inv R0 R (vmm_switch_cr3 s root).
Proof.
  intros [HR Hok Hroot Ha Hsw Hco] Hr. pose proof (vo_tables _ _ Hok) as Ht.
  pose proof (is_root_weaken _ _ _ _ _ HR Hr) as Hr'.
  destruct (is_root_pml4 R (v_mem s) _ _ _ Ht Hr') as [_ Ep]. unfold vmm_switch_cr3, mm_root_to_pml4.
  fold (entry_addr root). rewrite Ep. simpl sw_active.
  assert (is_root R0 (vmm_la57 s) (entry_addr root) a) as Hr0.
  { destruct Hr as [Hra Hrr]. split; [done|]. destruct (vmm_la57 s); by rewrite entry_addr_idem. }
  destruct (Z.eqb_spec (sw_active s) (entry_addr root)) as [Es|Es]; cbn [negb].
  - split; try done; [destruct Hok; by split|]. apply Hr.
  - split; try done.
    + destruct Hok; by split.
    + by exists a.
    + apply Hr.
    + right. simpl. by rewrite entry_addr_idem.
Qed.

Lemma vstep_inv R0 s s' : vstep R0 s s' -> (exists R, tlb_inv R0 R s) -> exists R, tlb_inv R0 R s'.
Proof.
  intros Hst [R Hinv]. destruct Hst as [s v f Hf|s virt phys flags s' He Hm|s virt He|s root a Hr|s root a Hr].
  - exists R. destruct Hinv as [HR Hok Hroot Ha Hsw Hco]. split; try done.
    { destruct Hok; by split. }
    intros p g Hp. cbn [with_tlb v_tlb v_mem] in *. apply lookup_insert_Some in Hp as [[<- <-]|[_ Hp]]; [|by apply Hco].
    split; [|done]. unfold vpn. apply Z.mod_pos_bound. lia.
  - by eapply step_map_inv.
  - exists R. by apply step_unmap_inv.
  - exists R. destruct Hinv as [HR Hok Hroot Ha Hsw Hco].
    pose proof (is_root_weaken _ _ _ _ _ HR Hr) as Hr'.
    destruct (is_root_pml4 R (v_mem s) _ _ _ (vo_tables _ _ Hok) Hr') as [Ep _].
    unfold vmm_set_root_ptr, mm_root_to_pml4. rewrite Ep. split; try done; [destruct Hok; by split|]. apply Hr.
  - exists R. by eapply step_switch_inv.
Qed.

(** Selecting a space makes the CPU walk it, whether or not CR3 is reloaded. *)
Lemma switch_runs R0 R s root a :
  tlb_inv R0 R s -> is_root R0 (vmm_la57 s) root a -> cpu_pml4 (vmm_switch_cr3 s root) = a.
Proof.
  intros [HR Hok Hroot Ha Hsw Hco] Hr. pose proof (vo_tables _ _ Hok) as Ht.
  pose proof (is_root_weaken _ _ _ _ _ HR Hr) as Hr'.
  destruct (is_root_pml4 R (v_mem s) _ _ _ Ht Hr') as [Ep Ep']. unfold vmm_switch_cr3, cpu_pml4.
  fold (entry_addr root). simpl sw_active.
  destruct (Z.eqb_spec (sw_active s) (entry_addr root)) as [Es|Es]; cbn [negb]; [|done]. simpl.
  assert (page_addr (entry_addr root)) as [Hpos _].
  { destruct Hr' as [Ha' Hr']. destruct (vmm_la57 s); [by eapply to_page|]. rewrite Hr'. by eapply to_page. }
  destruct Hsw as [Hsw|Hsw]; [lia|]. rewrite <- Ep'. unfold root_to_pml4. rewrite entry_addr_idem, <- Hsw, Es. done.
Qed.

(** TLB coherence. However mappings are made and removed, in the running
    space or (below 4 GiB) in another one, and however the edited and the
    running space are switched, the CPU never holds a translation that the
    page tables of the running space no longer give: the flushes that the
    code leaves out are not needed. And selecting a space makes the CPU run
    in it, also when the CR3 load is skipped. *)
Theorem vmm_tlb_coherence R0 R s s' :
  tlb_inv R0 R s -> rtc (vstep R0) s s' ->
  tlb_coherent s' /\ forall root a, is_root R0 (vmm_la57 s') root a -> cpu_pml4 (vmm_switch_cr3 s' root) = a.
Proof.
  intros Hinv Hrtc. assert (exists R, tlb_inv R0 R s') as [R' Hinv'].
  { assert (exists R, tlb_inv R0 R s) as Hex by eauto. clear Hinv. induction Hrtc; eauto using vstep_inv. }
  split; [apply (ti_tlb _ _ _ Hinv')|]. intros root a. by eapply switch_runs.
Qed.
End spaces.
