(* ===== verification/AddressSpaces.v ===== *)
(** * Creating and destroying address spaces

    What [vmm_create_address_space] and [vmm_destroy_address_space] of Vmm.v
    do to the translations of every space and to the frames in use. *)

From S2P Require Import Prelude Pmm Vmm PageTables.

Section accounting.
Context {A : Type} `{FL : FrameLaws A}.
Implicit Types (f : A) (X : gset Z).

(** [f] is [f0] with the pages of [X] taken. *)
Record takes f0 X f : Prop := {
  tk_wf : frame_wf f;
  tk_page : forall p, p ∈ X -> page_addr p;
  tk_free : forall p, p ∈ X -> frame_used f0 (p / 4096) = false;
  tk_used : forall q, 0 <= q ->
    frame_used f q = true <-> (exists p, p ∈ X /\ q = p / 4096) \/ frame_used f0 q = true
}.

Lemma takes_none f : frame_wf f -> takes f ∅ f.
Proof. intros Hf. split; [done|set_solver..|]. intros q Hq. set_solver. Qed.

Lemma takes_alloc f0 X f p f' :
  takes f0 X f -> frame_alloc f = (p, f') -> p <> 0 ->
  takes f0 ({[p]} ∪ X) f' /\ p ∉ X /\ page_addr p /\ frame_used f0 (p / 4096) = false.
Proof.
  intros [Hwf Hpa Hfr Hu] Hall Hp.
  destruct (alloc_cases f p f' Hwf Hall) as [Hwf' [[? _]|(Hpp & Hfree & Hused & _)]]; [done|].
  assert (0 <= p / 4096) as Hq by (destruct Hpp; mlia).
  assert (~ ((exists r, r ∈ X /\ p / 4096 = r / 4096) \/ frame_used f0 (p / 4096) = true)) as Hn.
  { intros Hx. apply Hu in Hx; [|done]. congruence. }
  assert (frame_used f0 (p / 4096) = false) as Hf0.
  { destruct (frame_used f0 (p / 4096)); [|done]. destruct Hn. by right. }
  split_and!; [|intros HX; apply Hn; left; by exists p|done|done].
  split; [done| | |].
  - intros r [->%elem_of_singleton|Hr]%elem_of_union; [done|by apply Hpa].
  - intros r [->%elem_of_singleton|Hr]%elem_of_union; [done|by apply Hfr].
  - intros q Hq0. rewrite Hused by done. rewrite orb_true_iff, Z.eqb_eq, (Hu q Hq0). split.
    + intros [->|[(r & Hr & ->)|H1]]; [left; exists p; set_solver|left; exists r; set_solver|by right].
    + intros [(r & [->%elem_of_singleton|Hr]%elem_of_union & ->)|H1]; [by left|right; left; by exists r|by right; right].
Qed.

Lemma takes_fail f0 X f f' : takes f0 X f -> frame_alloc f = (0, f') -> takes f0 X f'.
Proof.
  intros Ht Hall. destruct (alloc_cases f 0 f' (tk_wf _ _ _ Ht) Hall) as [_ [(_ & -> & _)|([? _] & _)]]; [done|lia].
Qed.

Lemma alloc_fail_spare f f' : frame_wf f -> frame_alloc f = (0, f') -> ~ spare 1 f.
Proof.
  intros Hw Hall. by destruct (alloc_cases f 0 f' Hw Hall) as [_ [(_ & _ & Hn)|([? _] & _)]]; [|lia].
Qed.

Lemma takes_give f0 X f p : takes f0 X f -> p ∈ X -> takes f0 (X ∖ {[p]}) (frame_free f p).
Proof.
  intros [Hwf Hpa Hfr Hu] Hp. destruct (Hpa p Hp) as [Hr Ha].
  destruct (frame_free_spec f p Hwf Hr Ha) as [Hwf' Hused].
  split; [done|set_solver..|]. intros q Hq. rewrite Hused by done.
  rewrite andb_true_iff, negb_true_iff, Z.eqb_neq, (Hu q Hq). split.
  - intros [Hne [(r & HX & ->)|H0]]; [|by right]. left. exists r. split; [|done].
    apply elem_of_difference. split; [done|]. intros ->%elem_of_singleton. done.
  - intros [(r & [HX Hne]%elem_of_difference & ->)|H0].
    + split; [|left; by exists r]. intros E. apply Hne, elem_of_singleton.
      apply page_addr_div; [by apply Hpa|by apply Hpa|done].
    + split; [|by right]. intros ->. rewrite (Hfr p Hp) in H0. done.
Qed.

Lemma size_map_le (g : Z -> Z) X : (size (set_map (D := gset Z) g X) <= size X)%nat.
Proof.
  induction X as [|x X Hx IH] using set_ind_L; [by rewrite set_map_empty|].
  rewrite set_map_union_L, set_map_singleton_L, (size_union {[x]} X), size_singleton by set_solver.
  rewrite size_union_alt, size_singleton.
  pose proof (subseteq_size (set_map (D := gset Z) g X ∖ {[g x]}) (set_map g X) ltac:(set_solver)). lia.
Qed.

(** What was taken was free. *)
Lemma takes_spare f0 X f n : takes f0 X f -> (n <= size X)%nat -> spare n f0.
Proof.
  intros [Hwf Hpa Hfr Hu] Hn. exists (set_map (fun p => p / 4096) X). split.
  - assert (X ⊆ set_map (fun q => q * 4096) (set_map (D := gset Z) (fun p => p / 4096) X)) as Hsub.
    { intros p Hp. apply elem_of_map. exists (p / 4096). split; [destruct (Hpa p Hp); mlia|]. apply elem_of_map. eauto. }
    apply subseteq_size in Hsub. pose proof (size_map_le (fun q => q * 4096) (set_map (D := gset Z) (fun p => p / 4096) X)). lia.
  - intros q (p & -> & Hp)%elem_of_map. split; [|by apply Hfr]. destruct (Hpa p Hp). unfold PMM_MAX_PAGES. mlia.
Qed.

(** When nothing is left, [X] and no more was free. *)
Lemma takes_full f0 X f n : takes f0 X f -> ~ spare 1 f -> (size X < n)%nat -> ~ spare n f0.
Proof.
  intros [Hwf Hpa Hfr Hu] Hno Hn (Y & HY & Hfree).
  assert (Y ⊆ set_map (fun p => p / 4096) X) as Hsub.
  { intros q Hq. destruct (Hfree q Hq) as [Hr Hf]. destruct (frame_used f q) eqn:E.
    - apply Hu in E as [(p & Hp & ->)|E]; [|congruence|lia]. apply elem_of_map. eauto.
    - destruct Hno. exists {[q]}. rewrite size_singleton. split; [lia|]. by intros ? ->%elem_of_singleton. }
  apply subseteq_size in Hsub. pose proof (size_map_le (fun p => p / 4096) X). lia.
Qed.

Lemma takes_same f0 f q : takes f0 ∅ f -> 0 <= q -> frame_used f q = frame_used f0 q.
Proof.
  intros [_ _ _ Hu] Hq. specialize (Hu q Hq). destruct (frame_used f q), (frame_used f0 q); set_solver.
Qed.
End accounting.

(** ** The copies of the page directories *)

(** An entry of a PD as [as_copy_pd] copies it. *)
Definition copied (e : Z) : Z := if present e && huge e then e else 0.

Section copies.
Context {A : Type} `{FL : FrameLaws A}.
Implicit Types s : vmm A.

Lemma as_copy_pd_spec s0 f0 X s e :
  takes f0 X (v_frames s) -> page_addr (entry_addr e) -> frame_used f0 (entry_addr e / 4096) = true ->
  exists p s', as_copy_pd s e = Ok (p, s') /\ s' = upd s (v_frames s') (v_mem s') /\
    ((p = 0 /\ v_mem s' = v_mem s /\ takes f0 X (v_frames s') /\ ~ spare 1 (v_frames s)) \/
     (p <> 0 /\ takes f0 ({[p]} ∪ X) (v_frames s') /\ p ∉ X /\ page_addr p /\
      forall q j, q mod 4096 = 0 -> idx_ok j ->
        ent (v_mem s') q j = if decide (q = p) then copied (ent (v_mem s) (entry_addr e) j) else ent (v_mem s) q j)) /\
    (s = upd s0 (v_frames s) (v_mem s) -> s' = upd s0 (v_frames s') (v_mem s')).
Proof.
  intros Htk Hpa Hus. unfold as_copy_pd. destruct (frame_alloc (v_frames s)) as [p f] eqn:Hall.
  destruct (Z.eqb_spec p 0) as [->|Hp].
  - eexists _, _. split; [done|]. split; [by destruct s|]. split; [|by intros ->].
    left. split_and!; [done|done|by eapply takes_fail|]. by eapply alloc_fail_spare; [apply (tk_wf _ _ _ Htk)|].
  - destruct (takes_alloc f0 X _ p f Htk Hall Hp) as (Htk' & HX & Hpp & Hfree).
    cbn zeta.
    destruct (fill_table_entries p (fun m i => copied (ent m (entry_addr e) i))
                (fun i => copied (ent (v_mem s) (entry_addr e) i)) (v_mem s)) as (m' & Efill & Hm').
    + apply Hpp.
    + intros m' i Hi Hsame. rewrite Hsame; [done|apply Hpa|done|]. intros E. rewrite E in Hus. congruence.
    + unfold copied at 1 in Efill. rewrite Efill, Ok_bind. eexists _, _. split; [done|]. split; [done|]. split; [|by intros ->]. right. split_and!; done.
Qed.

Section loop.
Context (s0 : vmm A) (f0 : A) (m1 : pmem) (E : Z -> Z) (pml4 pdpt : Z).
Context (HE : forall k, 0 <= k < 4 -> page_addr (entry_addr (E k)) /\ frame_used f0 (entry_addr (E k) / 4096) = true).
Context (Hpml4 : page_addr pml4) (Hpdpt : page_addr pdpt).

Definition pds_set (L : list Z) : gset Z := {[pdpt]} ∪ ({[pml4]} ∪ list_to_set L).

Lemma elem_of_pds_set L x : x ∈ pds_set L <-> x = pdpt \/ x = pml4 \/ x ∈ L.
Proof using. clear. unfold pds_set. set_solver. Qed.

Lemma size_pds_set L : NoDup L -> pdpt ∉ L -> pml4 ∉ L -> pml4 <> pdpt -> size (pds_set L) = S (S (length L)).
Proof using.
  clear. intros Hnd H1 H2 H3. unfold pds_set. rewrite !size_union, !size_singleton, size_list_to_set by (done || set_solver).
  lia.
Qed.

(** The loop has copied the PDs of the entries [0 .. length L - 1]. *)
Record pds_inv (L : list Z) s : Prop := {
  pi_takes : takes f0 (pds_set L) (v_frames s);
  pi_nodup : NoDup L /\ pdpt ∉ L /\ pml4 ∉ L /\ pml4 <> pdpt;
  pi_done : forall k p, L !! k = Some p ->
    ent (v_mem s) pdpt (Z.of_nat k) = Z.lor p (Z.land (E (Z.of_nat k)) 4095) /\
    forall j, idx_ok j -> ent (v_mem s) p j = copied (ent m1 (entry_addr (E (Z.of_nat k))) j);
  pi_todo : forall j, zlen L <= j < 512 -> ent (v_mem s) pdpt j = E j;
  pi_rest : forall q j, q mod 4096 = 0 -> idx_ok j -> q <> pdpt -> q ∉ L -> ent (v_mem s) q j = ent m1 q j;
  pi_upd : s = upd s0 (v_frames s) (v_mem s)
}.

Lemma pd_entry_addr p e : page_addr p -> entry_addr (Z.lor p (Z.land e 4095)) = p.
Proof.
  intros Hp. bits.
  - by rewrite (page_addr_bits p i) by (done || lia).
  - by rewrite (page_addr_bits p i) by (done || lia).
Qed.

Lemma pds_copy_step L s npd s' :
  pds_inv L s -> zlen L < 4 -> as_copy_pd s (ent (v_mem s) pdpt (zlen L)) = Ok (npd, s') -> npd <> 0 ->
  let e := Z.lor npd (Z.land (ent (v_mem s') pdpt (zlen L)) 4095) in
  pds_inv (L ++ [npd]) (with_mem s' (set_ent (v_mem s') pdpt (zlen L) e)).
Proof.
  intros HL Hlt Hcp Hn0 e. destruct HL as [Htk (Hnd & Hpd & Hpm & Hne) Hdone Htodo Hrest Hu].
  pose proof (zlen_nonneg L) as Hl0. assert (idx_ok (zlen L)) as Hil by (unfold idx_ok; lia).
  rewrite Htodo in Hcp by lia. destruct (HE (zlen L)) as [Hpa Hus]; [lia|].
  destruct (as_copy_pd_spec s0 f0 _ s (E (zlen L)) Htk Hpa Hus) as (p & s1 & Ecp & _ & Hcase & Hup).
  rewrite Hcp in Ecp. injection Ecp as <- <-. destruct Hcase as [[? _]|(_ & Htk' & HX & Hpp & Hent)]; [done|].
  unfold pds_set in HX. assert (npd <> pdpt /\ npd <> pml4 /\ npd ∉ L) as (N1 & N2 & N3) by set_solver.
  assert (ent (v_mem s') pdpt (zlen L) = E (zlen L)) as EE.
  { rewrite Hent by (done || apply Hpdpt). rewrite decide_False by done. apply Htodo. lia. }
  assert (entry_addr (E (zlen L)) ∉ pds_set L) as Hsrc.
  { intros Hin. rewrite (tk_free _ _ _ Htk _ Hin) in Hus. done. }
  assert (forall x, x ∈ L -> page_addr x) as HLp.
  { intros x Hx. apply (tk_page _ _ _ Htk). unfold pds_set. set_solver. }
  split; cbn [with_mem v_mem v_frames].
  - destruct Htk' as [? H1 H2 H3]. assert (pds_set (L ++ [npd]) = {[npd]} ∪ pds_set L) as ->; [|done].
    unfold pds_set. rewrite list_to_set_app_L. set_solver.
  - split_and!; [apply list.NoDup_app; split_and!; [done|set_solver|apply list.NoDup_singleton]|set_solver..|done].
  - intros k p Hk. apply lookup_app_Some in Hk as [Hk|[Hge Hk]].
    + assert (p ∈ L) as HpL by by eapply list_elem_of_lookup_2.
      pose proof (lookup_lt_Some _ _ _ Hk) as Hklt. destruct (Hdone k p Hk) as [D1 D2].
      assert (idx_ok (Z.of_nat k)) by (unfold idx_ok, zlen in *; lia).
      split.
      * rewrite ent_set_ne; [|apply Hpdpt|apply Hpdpt|done|done|unfold zlen; lia].
        rewrite Hent by (done || apply Hpdpt). by rewrite decide_False by done.
      * intros j Hj. rewrite ent_set_ne; [|apply Hpdpt|by apply HLp|done|done|set_solver].
        rewrite Hent by (done || by apply HLp). rewrite decide_False by set_solver. by apply D2.
    + apply list_lookup_singleton_Some in Hk as [Hk <-].
      assert (Z.of_nat k = zlen L) as -> by (unfold zlen; lia). split.
      * rewrite ent_set_eq. unfold e. by rewrite EE.
      * intros j Hj. rewrite ent_set_ne; [|apply Hpdpt|apply Hpp|done|done|set_solver].
        rewrite Hent by (done || apply Hpp). rewrite decide_True by done. f_equal.
        apply Hrest; [apply Hpa|done|unfold pds_set in Hsrc; set_solver..].
  - intros j Hj. rewrite zlen_snoc in Hj. rewrite ent_set_ne; [|apply Hpdpt|apply Hpdpt|done|unfold idx_ok; lia|lia].
    rewrite Hent by (apply Hpdpt || unfold idx_ok; lia). rewrite decide_False by done. apply Htodo. lia.
  - intros q j Hq Hj Hq1 Hq2. rewrite ent_set_ne; [|apply Hpdpt|done|done|done|naive_solver].
    rewrite Hent by done. rewrite decide_False by set_solver. apply Hrest; set_solver.
  - rewrite (Hup Hu). done.
Qed.

Lemma free_page_upd s p : free_page s p = upd s (v_frames (free_page s p)) (v_mem s).
Proof. by destruct s. Qed.

Lemma free_entries_spec L s X :
  takes f0 X (v_frames s) -> NoDup L ->
  (forall k p, L !! k = Some p -> p ∈ X /\ entry_addr (ent (v_mem s) pdpt (Z.of_nat k)) = p) ->
  let s' := free_entries s pdpt (length L) in
  takes f0 (X ∖ list_to_set L) (v_frames s') /\ s' = upd s (v_frames s') (v_mem s).
Proof.
  intros Htk. induction L as [|p L IH] using rev_ind; intros Hnd HL.
  - simpl. split; [|by destruct s]. by rewrite difference_empty_L.
  - apply list.NoDup_app in Hnd as (Hnd & Hdis & _). simpl. unfold free_entries. rewrite length_app.
    replace (Z.of_nat (length L + length [p])) with (Z.succ (Z.of_nat (length L))) by (simpl; lia).
    rewrite seqZ_succ, fold_left_app by lia. fold (free_entries s pdpt (length L)).
    destruct IH as [Htk' Hu]; [done| |].
    { intros k q Hk. apply HL. by apply lookup_app_l_Some. }
    set (s1 := free_entries s pdpt (length L)) in *. simpl.
    assert (v_mem s1 = v_mem s) as Em by by rewrite Hu.
    destruct (HL (length L) p) as [HpX Hpe]; [by apply list_lookup_middle|].
    rewrite Em, Hpe. split; [|by rewrite Hu].
    assert (X ∖ list_to_set (L ++ [p]) = (X ∖ list_to_set L) ∖ {[p]}) as ->.
    { rewrite list_to_set_app_L. set_solver. }
    apply takes_give; [done|]. apply elem_of_difference. split; [done|]. set_solver.
Qed.

(** The loop ends with the four copies, or with every frame given back. *)
Lemma copy_pds_spec n L s :
  pds_inv L s -> Z.of_nat n + zlen L = 4 ->
  exists r, copy_pds n (zlen L) pdpt pml4 s = Ok r /\
    match r with
    | inl s' => exists L', zlen L' = 4 /\ pds_inv L' s'
    | inr s' => takes f0 ∅ (v_frames s') /\ s' = upd s0 (v_frames s') (v_mem s') /\ ~ spare 6 f0 /\
        forall q j, page_addr q -> idx_ok j -> frame_used f0 (q / 4096) = true -> ent (v_mem s') q j = ent m1 q j
    end.
Proof.
  revert L s. induction n as [|n IH]; intros L s HL Hn.
  { exists (inl s). split; [done|]. exists L. split; [lia|done]. }
  pose proof (zlen_nonneg L) as Hl0. cbn [copy_pds].
  destruct (HE (zlen L)) as [Hpa Hus]; [lia|]. pose proof HL as [Htk (Hnd & Hpd & Hpm & Hne) Hdone Htodo Hrest Hu].
  rewrite Htodo by lia.
  destruct (as_copy_pd_spec s0 f0 _ s (E (zlen L)) Htk Hpa Hus) as (p & s1 & Ecp & _ & Hcase & Hup).
  rewrite Ecp, Ok_bind. destruct Hcase as [(-> & Hm & Htk1 & Hfull)|(Hp & _)].
  - rewrite Z.eqb_refl. eexists. split; [done|]. cbn beta match.
    assert (forall k p, L !! k = Some p -> p ∈ pds_set L /\ entry_addr (ent (v_mem s1) pdpt (Z.of_nat k)) = p) as Hfr.
    { intros k p Hk. assert (p ∈ L) as HpL by by eapply list_elem_of_lookup_2.
      assert (p ∈ pds_set L) as HpX by (unfold pds_set; set_solver). split; [done|]. rewrite Hm.
      destruct (Hdone k p Hk) as [-> _]. apply pd_entry_addr. by apply (tk_page _ _ _ Htk). }
    destruct (free_entries_spec L s1 (pds_set L) Htk1 Hnd Hfr) as [Htk2 Hu2].
    replace (Z.to_nat (zlen L)) with (length L) by (unfold zlen; lia).
    set (s2 := free_entries s1 pdpt (length L)) in *.
    pose proof (takes_give _ _ _ pdpt Htk2 ltac:(unfold pds_set; set_solver)) as Htk3.
    pose proof (takes_give _ _ _ pml4 Htk3 ltac:(unfold pds_set; set_solver)) as Htk4.
    split_and!.
    + simpl. replace ∅ with ((pds_set L ∖ list_to_set L) ∖ {[pdpt]} ∖ {[pml4]}); [done|]. unfold pds_set. set_solver.
    + rewrite Hu2, (Hup Hu). done.
    + eapply takes_full; [exact Htk|exact Hfull|]. rewrite size_pds_set by done. unfold zlen in *. lia.
    + intros q j Hq Hj Hqu.
      assert (q ∉ pds_set L) as HqX by (intros Hin; rewrite (tk_free _ _ _ Htk q Hin) in Hqu; done).
      assert (v_mem (free_page (free_page s2 pdpt) pml4) = v_mem s) as -> by (rewrite Hu2; done).
      apply Hrest; [apply Hq|done|unfold pds_set in HqX; set_solver..].
  - destruct (Z.eqb_spec p 0); [done|].
    pose proof (pds_copy_step L s p s1 HL ltac:(lia)) as Hst. rewrite Htodo in Hst by lia.
    specialize (Hst Ecp Hp). cbn zeta in Hst |- *.
    replace (zlen L + 1) with (zlen (L ++ [p])) by apply zlen_snoc.
    apply IH; [done|]. rewrite zlen_snoc. lia.
Qed.
End loop.
End copies.

(** ** The tables of a new space *)

Section new_space.
Context (R : gmap Z role) (m m' : pmem) (bp a pdpt : Z) (pd : Z -> Z).
Context (Ht : tables_ok R m) (Hbp : R !! bp = Some (RPml4 bp)) (Hbpr : present (ent m bp 0) = true).

Definition boot_pdpt : Z := entry_addr (ent m bp 0).

Context (Hid : forall k, 0 <= k < 4 -> present (ent m boot_pdpt k) = true).
Context (Hsame : forall q r j, R !! q = Some r -> idx_ok j -> ent m' q j = ent m q j).
Context (Hpa : page_addr a /\ page_addr pdpt /\ forall k, 0 <= k < 4 -> page_addr (pd k)).
Context (Hfresh : R !! a = None /\ R !! pdpt = None /\ forall k, 0 <= k < 4 -> R !! pd k = None).
Context (Hdis : a <> pdpt /\ (forall k, 0 <= k < 4 -> pd k <> a /\ pd k <> pdpt) /\
                forall k l, 0 <= k < 4 -> 0 <= l < 4 -> pd k = pd l -> k = l).
Context (Ha0 : ent m' a 0 = Z.lor (Z.lor pdpt VMM_PRESENT) VMM_WRITABLE).
Context (Haj : forall j, 1 <= j < 512 -> ent m' a j = ent m bp j).
Context (Hpk : forall k, 0 <= k < 4 -> ent m' pdpt k = Z.lor (pd k) (Z.land (ent m boot_pdpt k) 4095)).
Context (Hpj : forall j, 4 <= j < 512 -> ent m' pdpt j = ent m boot_pdpt j).
Context (Hpd : forall k j, 0 <= k < 4 -> idx_ok j -> ent m' (pd k) j = copied (ent m (entry_addr (ent m boot_pdpt k)) j)).

(** The roles of the new pages. *)
Definition pd_roles : gmap Z role :=
  <[pd 3 := RPd a 3]> (<[pd 2 := RPd a 2]> (<[pd 1 := RPd a 1]> (<[pd 0 := RPd a 0]> R))).
Definition space_roles : gmap Z role := <[a := RPml4 a]> (<[pdpt := RPdpt a 0]> pd_roles).

Lemma boot_pdpt_role : R !! boot_pdpt = Some (RPdpt bp 0).
Proof.
  pose proof (to_entry _ _ Ht bp _ 0 Hbp ltac:(unfold idx_ok; lia)) as X. unfold entry_ok in X. simpl in X. by apply X.
Qed.

Lemma boot_pd_role j : idx_ok j -> present (ent m boot_pdpt j) = true ->
  R !! entry_addr (ent m boot_pdpt j) = Some (RPd (own3 bp j) j).
Proof.
  intros Hj Hp. pose proof (to_entry _ _ Ht _ _ j boot_pdpt_role Hj) as X. unfold entry_ok in X. cbn [child is_pd andb] in X.
  replace (512 * 0 + j) with j in X by lia. by apply X.
Qed.

Lemma copied_ok k j : 0 <= k < 4 -> idx_ok j ->
  forall R' o x, entry_ok R' (RPd o x) j (copied (ent m (entry_addr (ent m boot_pdpt k)) j)).
Proof.
  intros Hk Hj R' o x. unfold copied, entry_ok. cbn [child is_pd andb].
  set (e := ent m _ j). destruct (present e) eqn:Hp; cbn [andb]; [|done].
  destruct (huge e) eqn:Hh; [|done]. intros _. rewrite Hh. unfold e in *.
  pose proof (boot_pd_role k ltac:(unfold idx_ok; lia) (Hid k Hk)) as Hr.
  pose proof (to_entry _ _ Ht _ _ j Hr Hj) as X. unfold entry_ok in X. cbn [child is_pd andb] in X. rewrite Hh in X. by apply X.
Qed.

Lemma pd_lookup k : 0 <= k < 4 -> pd_roles !! pd k = Some (RPd a k).
Proof.
  intros Hk. destruct Hdis as (_ & _ & Hinj). unfold pd_roles.
  assert (k = 0 \/ k = 1 \/ k = 2 \/ k = 3) as [->|[->|[->| ->]]] by lia;
    repeat (rewrite lookup_insert_eq || rewrite lookup_insert_ne by (intros E; apply Hinj in E; lia)); done.
Qed.

Lemma pd_roles_old q : (forall k, 0 <= k < 4 -> q <> pd k) -> pd_roles !! q = R !! q.
Proof. intros Hq. unfold pd_roles. by rewrite !lookup_insert_ne by (apply not_eq_sym, Hq; lia). Qed.

Lemma pd_roles_ext : R ⊆ pd_roles.
Proof.
  apply map_subseteq_spec. intros q r Hq. rewrite pd_roles_old; [done|].
  intros k Hk ->. destruct Hfresh as (_ & _ & Hf). rewrite Hf in Hq by done. done.
Qed.

Lemma space_roles_ext : R ⊆ space_roles.
Proof.
  pose proof Hfresh as (Hfa & Hfp & _). apply map_subseteq_spec. intros q r Hq. unfold space_roles.
  rewrite !lookup_insert_ne by congruence. eapply lookup_weaken; [done|]. apply pd_roles_ext.
Qed.

Lemma pd_tables_ok : tables_ok pd_roles m'.
Proof.
  destruct Hpa as (_ & _ & Hpk'). destruct Hfresh as (_ & _ & Hf). destruct Hdis as (_ & _ & Hinj).
  assert (tables_ok R m') as H0.
  { destruct Ht as [H1 H2 H3 H4]. split; [|done|done|].
    - intros p r i Hp Hi. rewrite (Hsame p r i) by done. by apply H1.
    - intros p b Hp. rewrite (Hsame p _ 0 Hp) by (unfold idx_ok; lia). by apply H4. }
  assert (forall R1 k, 0 <= k < 4 -> R1 !! pd k = None -> tables_ok R1 m' -> tables_ok (<[pd k := RPd a k]> R1) m') as Hadd.
  { intros R1 k Hk HR1 Ht1. apply (tables_add R1 m'); try done; [by apply Hpk'|].
    intros i Hi. rewrite Hpd by done. by apply copied_ok. }
  unfold pd_roles.
  repeat (apply Hadd; [lia|rewrite ?lookup_insert_ne by (intros E; apply Hinj in E; lia); apply Hf; lia|]). done.
Qed.

Lemma lor3_addr p : page_addr p ->
  entry_addr (Z.lor (Z.lor p VMM_PRESENT) VMM_WRITABLE) = p /\ present (Z.lor (Z.lor p VMM_PRESENT) VMM_WRITABLE) = true.
Proof.
  intros Hp. split.
  - replace (Z.lor (Z.lor p VMM_PRESENT) VMM_WRITABLE) with (Z.lor p (Z.land 3 4095)); [by apply pd_entry_addr|].
    by rewrite <- Z.lor_assoc.
  - rewrite present_bit, !Z.lor_spec. unfold VMM_PRESENT. simpl. by rewrite orb_true_r.
Qed.

Lemma private_pde k : 0 <= k < 4 -> present (ent m' pdpt k) = true /\ entry_addr (ent m' pdpt k) = pd k.
Proof.
  intros Hk. rewrite Hpk by done. destruct Hpa as (_ & _ & Hp). split; [|apply pd_entry_addr; by apply Hp].
  pose proof (Hid k Hk) as H1. rewrite present_bit in *. rewrite Z.lor_spec, Z.land_spec, H1. by rewrite orb_true_r.
Qed.

Lemma space_tables_ok : tables_ok space_roles m'.
Proof.
  destruct Hpa as (Hpaa & Hpap & _). destruct Hfresh as (Hfa & Hfp & Hf). destruct Hdis as (Hne & Hne2 & Hinj).
  assert (pd_roles !! a = None /\ pd_roles !! pdpt = None) as [Na Np].
  { split; rewrite pd_roles_old; try done; intros k Hk E; destruct (Hne2 k Hk); congruence. }
  assert (tables_ok (<[pdpt := RPdpt a 0]> pd_roles) m') as H1.
  { apply (tables_add pd_roles m'); try done; [apply pd_tables_ok|]. intros i Hi. unfold entry_ok. cbn [child is_pd andb].
    replace (512 * 0 + i) with i by lia. intros Hp. unfold idx_ok in Hi. unfold own3. destruct (Z.ltb_spec i 4).
    - destruct (private_pde i) as [_ ->]; [lia|]. rewrite lookup_insert_ne by (apply not_eq_sym, Hne2; lia). apply pd_lookup. lia.
    - rewrite Hpj in Hp |- * by lia. pose proof (boot_pd_role i ltac:(unfold idx_ok; lia) Hp) as Hr.
      unfold own3 in Hr. destruct (Z.ltb_spec i 4); [lia|].
      rewrite lookup_insert_ne by (intros E; rewrite <- E in Hr; congruence).
      eapply lookup_weaken; [done|]. apply pd_roles_ext. }
  apply (tables_add _ m'); try done; [by rewrite lookup_insert_ne| |congruence].
  intros i Hi. unfold entry_ok. cbn [child is_pd andb]. intros Hp. unfold idx_ok in Hi. unfold own4.
  destruct (Z.eqb_spec i 0) as [->|].
  - rewrite Ha0. destruct (lor3_addr pdpt Hpap) as [-> _]. rewrite lookup_insert_ne by done. apply lookup_insert_eq.
  - rewrite Haj in Hp |- * by lia.
    pose proof (to_entry _ _ Ht bp _ i Hbp Hi) as X. unfold entry_ok in X. cbn [child is_pd andb] in X. specialize (X Hp).
    unfold own4 in X. destruct (Z.eqb_spec i 0); [done|].
    eapply lookup_weaken; [exact X|]. apply space_roles_ext.
Qed.

(** Spaces that were there translate as before. *)
Lemma old_spaces : same_tr R m m'.
Proof.
  intros w b v Hb. apply (tr_frame w R m m' b 3); [done|done|done|]. intros j q Hj Hq. left.
  apply (Hsame q _ _ Hq), idx_range.
Qed.

(** The new space sees the 2 MiB pages of the boot space below 4 GiB and all
    of it above. *)
Lemma new_space_translate w v :
  tr w 3 m' a v =
    if decide (private v) then (if huge_at m bp v then tr w 3 m bp v else None) else tr w 3 m bp v.
Proof.
  destruct Hpa as (_ & Hpap & _). pose proof (idx_range 2 v) as H2. pose proof (idx_range 3 v) as H3. unfold idx_ok in H2, H3.
  assert (forall n p, (n < 3)%nat -> R !! p = Some (role_at bp n v) -> tr w n m' p v = tr w n m p v) as Hlow.
  { intros n p Hn Hp. apply (tr_frame w R m m' bp n); [done|lia|done|]. intros j q Hj Hq. left.
    apply (Hsame q _ _ Hq), idx_range. }
  destruct (decide (idx 3 v = 0)) as [E3|E3].
  - assert (tr w 3 m' a v = tr w 2 m' pdpt v) as E.
    { cbn [tr Nat.eqb andb]. rewrite E3, Ha0. destruct (lor3_addr pdpt Hpap) as [-> ->]. done. }
    assert (tr w 3 m bp v = tr w 2 m boot_pdpt v) as E'.
    { cbn [tr Nat.eqb andb]. rewrite E3, Hbpr. done. }
    rewrite E. destruct (decide (idx 2 v < 4)) as [E2|E2].
    + rewrite decide_True by by apply private_idx. destruct (private_pde (idx 2 v) ltac:(lia)) as [P1 P2].
      unfold huge_at. rewrite E3, Hbpr. fold boot_pdpt. rewrite Hid by lia. cbn [andb].
      rewrite E'. cbn [tr Nat.eqb andb]. rewrite P1, P2, Hid by lia. rewrite Hpd by (lia || apply idx_range).
      unfold copied. set (e := ent m _ (idx 1 v)). destruct (present e) eqn:Hp; cbn [andb]; [|done].
      destruct (huge e) eqn:Hh; [|done]. by rewrite Hp, Hh.
    + rewrite decide_False by (intros [_ ?]%private_idx; lia). rewrite E'. cbn [tr Nat.eqb andb]. rewrite Hpj by lia.
      destruct (present (ent m boot_pdpt (idx 2 v))) eqn:Hp; [|done]. apply (Hlow 1%nat); [lia|].
      pose proof (walk_step R m bp 1 boot_pdpt v Ht ltac:(lia)) as X. cbn [Nat.eqb andb] in X. apply X; [|done].
      rewrite boot_pdpt_role. simpl. by rewrite E3.
  - rewrite decide_False by (intros [? _]%private_idx; done).
    change (tr w 3 m' a v) with (if present (ent m' a (idx 3 v)) then tr w 2 m' (entry_addr (ent m' a (idx 3 v))) v else None).
    change (tr w 3 m bp v) with (if present (ent m bp (idx 3 v)) then tr w 2 m (entry_addr (ent m bp (idx 3 v))) v else None).
    rewrite Haj by lia. destruct (present (ent m bp (idx 3 v))) eqn:Hp; [|done]. apply (Hlow 2%nat); [lia|].
    apply (walk_step R m bp 2 bp v Ht ltac:(lia) Hbp Hp).
Qed.
End new_space.

(** ** Creation *)

Section create.
Context {A : Type} `{FL : FrameLaws A}.
Implicit Types s : vmm A.

(** The boot space: its identity map of the first 4 GiB is in place. *)
Record boot_ok (R : gmap Z role) s : Prop := {
  bo_root : vmm_boot_root s <> 0;
  bo_pml4 : R !! vmm_boot_pml4 s = Some (RPml4 (vmm_boot_pml4 s));
  bo_present : present (ent (v_mem s) (vmm_boot_pml4 s) 0) = true;
  bo_identity : forall k, 0 <= k < 4 -> present (ent (v_mem s) (boot_pdpt (v_mem s) (vmm_boot_pml4 s)) k) = true
}.

(** [s'] differs from [s] in the pages of [X], taken, and in fresh memory. *)
Record grown (R : gmap Z role) (X : gset Z) s s' : Prop := {
  gr_takes : takes (v_frames s) X (v_frames s');
  gr_upd : s' = upd s (v_frames s') (v_mem s');
  gr_same : forall q r j, R !! q = Some r -> idx_ok j -> ent (v_mem s') q j = ent (v_mem s) q j
}.

Lemma role_ne (R : gmap Z role) q p r : R !! q = Some r -> R !! p = None -> q <> p.
Proof. congruence. Qed.

Lemma takes_fresh R s X p r f : vm_ok R s -> takes (v_frames s) X f -> R !! p = Some r -> p ∉ X.
Proof.
  intros Hs Htk Hr Hin. pose proof (tk_free _ _ _ Htk p Hin) as Hf. rewrite (vo_used _ _ Hs p r Hr) in Hf. done.
Qed.

Lemma takes_fresh' R s X p f : vm_ok R s -> takes (v_frames s) X f -> p ∈ X -> R !! p = None.
Proof.
  intros Hs Htk Hin. destruct (R !! p) as [r|] eqn:E; [|done]. by destruct (takes_fresh R s X p r f Hs Htk E).
Qed.

Lemma grown_ok R X s s' : vm_ok R s -> grown R X s s' -> vm_ok R s' /\ same_tr R (v_mem s) (v_mem s').
Proof.
  intros Hs [Htk Hu Hsame]. pose proof (vo_tables _ _ Hs) as Ht. split.
  - split; [|apply (tk_wf _ _ _ Htk)|].
    + destruct Ht as [H1 H2 H3 H4]. split; [|done|done|].
      * intros p r i Hp Hi. rewrite (Hsame p r i) by done. by apply H1.
      * intros p b Hp. rewrite (Hsame p _ 0 Hp) by (unfold idx_ok; lia). by apply H4.
    + intros p r Hp. apply (tk_used _ _ _ Htk); [destruct (to_page _ _ Ht p r Hp); mlia|]. right. by eapply vo_used.
  - intros w b v Hb. apply (tr_frame w R _ _ b 3); [done|done|done|]. intros j q Hj Hq. left.
    apply (Hsame q _ _ Hq), idx_range.
Qed.

(** Copying a table of the boot space into a fresh page. *)
Lemma copy_table_spec t src m0 :
  t mod 4096 = 0 -> src mod 4096 = 0 -> src <> t ->
  exists m1 m2, zero_page t m0 = Ok m1 /\ fill_table t (fun m i => ent m src i) m1 = Ok m2 /\
    forall q j, q mod 4096 = 0 -> idx_ok j -> ent m2 q j = if decide (q = t) then ent m0 src j else ent m0 q j.
Proof.
  intros Ht Hsrc Hne. destruct (zero_page_spec t m0 Ht) as (m1 & E1 & H1).
  destruct (fill_table_entries t (fun m i => ent m src i) (fun i => ent m1 src i) m1) as (m2 & E2 & H2); [done| |].
  - intros m' i Hi Hs. apply Hs; done.
  - exists m1, m2. split_and!; [done..|]. intros q j Hq Hj. rewrite H2 by done.
    case_decide; rewrite H1 by done; [by rewrite decide_False by done|by rewrite decide_False].
Qed.

(** The new space, from its table pages [a], [pdpt] and [L]. *)
Record built (R : gmap Z role) s s' (a pdpt : Z) (L : list Z) : Prop := {
  bu_len : zlen L = 4;
  bu_nodup : NoDup (a :: pdpt :: L);
  bu_grown : grown R ({[pdpt]} ∪ ({[a]} ∪ list_to_set L)) s s';
  bu_a0 : ent (v_mem s') a 0 = Z.lor (Z.lor pdpt VMM_PRESENT) VMM_WRITABLE;
  bu_aj : forall j, 1 <= j < 512 -> ent (v_mem s') a j = ent (v_mem s) (vmm_boot_pml4 s) j;
  bu_pk : forall k p, L !! k = Some p ->
    let e := ent (v_mem s) (boot_pdpt (v_mem s) (vmm_boot_pml4 s)) (Z.of_nat k) in
    ent (v_mem s') pdpt (Z.of_nat k) = Z.lor p (Z.land e 4095) /\
    forall j, idx_ok j -> ent (v_mem s') p j = copied (ent (v_mem s) (entry_addr e) j);
  bu_pj : forall j, 4 <= j < 512 -> ent (v_mem s') pdpt j = ent (v_mem s) (boot_pdpt (v_mem s) (vmm_boot_pml4 s)) j
}.

Lemma built_size R s s' a pdpt L :
  built R s s' a pdpt L -> size (({[pdpt]} ∪ ({[a]} ∪ list_to_set L)) : gset Z) = 6%nat.
Proof.
  intros [Hlen Hnd _ _ _ _ _]. apply list.NoDup_cons in Hnd as [Hna Hnd]. apply list.NoDup_cons in Hnd as [Hnp Hnd].
  rewrite !size_union, !size_singleton, size_list_to_set by (done || set_solver). unfold zlen in Hlen. lia.
Qed.

Definition built_roles (R : gmap Z role) (a pdpt : Z) (L : list Z) : gmap Z role :=
  space_roles R a pdpt (fun k => default 0 (L !! Z.to_nat k)).

Lemma built_ok R s s' a pdpt L :
  vm_ok R s -> boot_ok R s -> built R s s' a pdpt L ->
  R ⊆ built_roles R a pdpt L /\ vm_ok (built_roles R a pdpt L) s' /\
  R !! a = None /\ same_tr R (v_mem s) (v_mem s') /\
  forall w v, tr w 3 (v_mem s') a v =
    if decide (private v)
    then (if huge_at (v_mem s) (vmm_boot_pml4 s) v then tr w 3 (v_mem s) (vmm_boot_pml4 s) v else None)
    else tr w 3 (v_mem s) (vmm_boot_pml4 s) v.
Proof.
  intros Hs [_ Hbp Hbpr Hid] [Hlen Hnd Hg Ha0 Haj Hpk Hpj]. pose proof (vo_tables _ _ Hs) as Ht.
  pose proof Hg as [Htk Hu Hsame]. set (pd := fun k => default 0 (L !! Z.to_nat k)).
  set (X := {[pdpt]} ∪ ({[a]} ∪ list_to_set L)) in *.
  apply list.NoDup_cons in Hnd as [Hna Hnd]. apply list.NoDup_cons in Hnd as [Hnp Hnd].
  assert (forall k, 0 <= k < 4 -> L !! Z.to_nat k = Some (pd k)) as Hpd.
  { intros k Hk. unfold pd. destruct (lookup_lt_is_Some_2 L (Z.to_nat k)) as [p E]; [unfold zlen in Hlen; lia|].
    by rewrite E. }
  assert (forall k, 0 <= k < 4 -> pd k ∈ L) as HpdL by (intros k Hk; eapply list_elem_of_lookup_2, Hpd, Hk).
  assert (a ∈ X /\ pdpt ∈ X /\ forall k, 0 <= k < 4 -> pd k ∈ X) as (XA & XP & XK).
  { unfold X. split_and!; [set_solver..|]. intros k Hk. specialize (HpdL k Hk). set_solver. }
  assert (page_addr a /\ page_addr pdpt /\ forall k, 0 <= k < 4 -> page_addr (pd k)) as Hpa.
  { split_and!; [..|intros k Hk]; apply (tk_page _ _ _ Htk); auto. }
  assert (R !! a = None /\ R !! pdpt = None /\ forall k, 0 <= k < 4 -> R !! pd k = None) as Hfr.
  { split_and!; [..|intros k Hk]; eapply takes_fresh'; eauto. }
  assert (a <> pdpt /\ (forall k, 0 <= k < 4 -> pd k <> a /\ pd k <> pdpt) /\
          forall k l, 0 <= k < 4 -> 0 <= l < 4 -> pd k = pd l -> k = l) as Hdis.
  { split_and!; [set_solver| |].
    - intros k Hk. specialize (HpdL k Hk). set_solver.
    - intros k l Hk Hl E. pose proof (Hpd k Hk) as E1. pose proof (Hpd l Hl) as E2. rewrite E in E1.
      pose proof (NoDup_lookup _ _ _ _ Hnd E1 E2). lia. }
  assert (forall k, 0 <= k < 4 -> ent (v_mem s') pdpt k = Z.lor (pd k) (Z.land (ent (v_mem s) (boot_pdpt (v_mem s) (vmm_boot_pml4 s)) k) 4095) /\
     forall j, idx_ok j -> ent (v_mem s') (pd k) j =
       copied (ent (v_mem s) (entry_addr (ent (v_mem s) (boot_pdpt (v_mem s) (vmm_boot_pml4 s)) k)) j)) as Hk2.
  { intros k Hk. pose proof (Hpk _ _ (Hpd k Hk)) as X1. rewrite Z2Nat.id in X1 by lia. done. }
  assert (forall k j, 0 <= k < 4 -> idx_ok j -> ent (v_mem s') (pd k) j =
    copied (ent (v_mem s) (entry_addr (ent (v_mem s) (boot_pdpt (v_mem s) (vmm_boot_pml4 s)) k)) j)) as Hk3.
  { intros k j Hk. by apply Hk2. }
  pose proof (space_tables_ok R _ _ _ a pdpt pd Ht Hbp Hbpr Hid Hsame Hpa Hfr Hdis Ha0 Haj (fun k Hk => proj1 (Hk2 k Hk)) Hpj Hk3) as Ht'.
  assert (R ⊆ space_roles R a pdpt pd) as HR by (eapply space_roles_ext; eassumption).
  pose proof (fun w => new_space_translate R _ _ _ a pdpt pd Ht Hbp Hbpr Hid Hsame Hpa Ha0 Haj (fun k Hk => proj1 (Hk2 k Hk)) Hpj Hk3 w) as Htr.
  split_and!; [done| |apply Hfr|by eapply (grown_ok R)|done].
  split; [done|apply (tk_wf _ _ _ Htk)|]. intros p r Hp. destruct (to_page _ _ Ht' p r Hp) as [Hr0 _].
  apply (tk_used _ _ _ Htk); [mlia|]. unfold built_roles, space_roles, pd_roles in Hp. fold pd in Hp.
  repeat (apply lookup_insert_Some in Hp as [[<- _]|[_ Hp]]; [left; eexists; split; [|done]; first [exact XA|exact XP|apply XK; lia]|]).
  right. by eapply vo_used.
Qed.

(** The part of [vmm_create_address_space] before the PML5 shell. *)
Lemma create_cases R s :
  vm_ok R s -> boot_ok R s ->
  exists r s', vmm_create_address_space s = Ok (r, s') /\
    ((r = 0 /\ grown R ∅ s s' /\ ~ spare 6 (v_frames s)) \/
     exists a pdpt L s1, built R s s1 a pdpt L /\
       if vmm_la57 s then
         let '(p5, f) := frame_alloc (v_frames s1) in
         if p5 =? 0 then r = 0 /\ s' = free_page (free_page (with_frames s1 f) pdpt) a
         else r = p5 /\ exists m, zero_page p5 (v_mem s1) = Ok m /\
           s' = upd s1 f (set_ent m p5 0 (Z.lor (Z.lor (Z.lor a VMM_PRESENT) VMM_WRITABLE) VMM_USER))
       else r = a /\ s' = s1).
Proof.
  intros Hs [Hroot Hbp Hbpr Hid]. pose proof (vo_tables _ _ Hs) as Ht. unfold vmm_create_address_space.
  destruct (Z.eqb_spec (vmm_boot_root s) 0); [done|]. set (bp := vmm_boot_pml4 s) in *.
  pose proof (to_page _ _ Ht bp _ Hbp) as Hbpa. pose proof (takes_none _ (vo_wf _ _ Hs)) as Htk0.
  destruct (frame_alloc (v_frames s)) as [a f1] eqn:Hall1. destruct (Z.eqb_spec a 0) as [->|Ha].
  { do 2 eexists. split; [done|]. left. split; [done|]. split; [split; [by eapply takes_fail|by destruct s|done]|].
    eapply takes_full; [exact Htk0|by eapply alloc_fail_spare; [apply (vo_wf _ _ Hs)|]|rewrite size_empty; lia]. }
  destruct (takes_alloc _ _ _ _ _ Htk0 Hall1 Ha) as (Htk1 & _ & Hpa & Hfa). rewrite union_empty_r_L in Htk1.
  assert (R !! a = None) as Hna by (eapply takes_fresh'; [done|done|by apply elem_of_singleton]).
  destruct (copy_table_spec a bp (v_mem s)) as (mz & m1 & -> & Hm & Hm1); [apply Hpa|apply Hbpa|congruence|].
  rewrite !Ok_bind. rewrite Hm, !Ok_bind. clear Hm. cbn [with_mem with_frames v_frames vmm_boot_pml4]. fold bp.
  rewrite (Hm1 bp 0) by (apply Hbpa || unfold idx_ok; lia). rewrite decide_False, Hbpr by congruence. cbn [negb].
  set (bpdpt := entry_addr (ent (v_mem s) bp 0)).
  pose proof (boot_pdpt_role R (v_mem s) bp Ht Hbp Hbpr) as Hbr. change (boot_pdpt (v_mem s) bp) with bpdpt in Hbr.
  pose proof (to_page _ _ Ht _ _ Hbr) as Hbpp.
  destruct (frame_alloc f1) as [pdpt f2] eqn:Hall2. destruct (Z.eqb_spec pdpt 0) as [->|Hp].
  { do 2 eexists. split; [done|]. left. split; [done|].
    pose proof (takes_give _ {[a]} _ a (takes_fail _ _ _ _ Htk1 Hall2) (proj2 (elem_of_singleton a a) eq_refl)) as Htk2.
    rewrite difference_diag_L in Htk2. split.
    2:{ eapply takes_full; [exact Htk1|by eapply alloc_fail_spare; [apply (tk_wf _ _ _ Htk1)|]|rewrite size_singleton; lia]. }
    split; [done|by destruct s|]. intros q r j Hq Hj. cbn [free_page with_frames with_mem v_mem].
    rewrite Hm1; [|by eapply to_page|done]. by rewrite decide_False by congruence. }
  destruct (takes_alloc _ _ _ _ _ Htk1 Hall2 Hp) as (Htk2 & Hpa2 & Hpp & Hfp).
  assert (R !! pdpt = None) as Hnp by (eapply takes_fresh'; [done|exact Htk2|by apply elem_of_union_l, elem_of_singleton]).
  assert (a <> pdpt) as Hne by (intros ->; by apply Hpa2, elem_of_singleton).
  destruct (copy_table_spec pdpt bpdpt m1) as (mz2 & m2 & E2 & Hmm & Hm2); [apply Hpp|apply Hbpp|congruence|].
  cbn [v_mem with_mem with_frames]. rewrite E2, Ok_bind, Hmm, Ok_bind. clear E2 Hmm.
  set (s2 := with_mem (with_frames (with_mem (with_frames s f1) m1) f2) m2).
  assert (forall k, 0 <= k < 4 -> page_addr (entry_addr (ent (v_mem s) bpdpt k)) /\
            frame_used (v_frames s) (entry_addr (ent (v_mem s) bpdpt k) / 4096) = true) as HE.
  { intros k Hk. assert (R !! entry_addr (ent (v_mem s) bpdpt k) = Some (RPd (own3 bp k) k)) as Hr.
    { apply (boot_pd_role R (v_mem s) bp Ht Hbp Hbpr); [unfold idx_ok; lia|by apply Hid]. }
    split; [by eapply to_page|by eapply vo_used]. }
  assert (forall q r j, R !! q = Some r -> idx_ok j -> ent m2 q j = ent (v_mem s) q j) as Hold.
  { intros q r j Hq Hj. pose proof (to_page _ _ Ht q r Hq) as [_ Hqa].
    rewrite (Hm2 q j Hqa Hj), decide_False by exact (role_ne R q pdpt r Hq Hnp).
    by rewrite (Hm1 q j Hqa Hj), decide_False by exact (role_ne R q a r Hq Hna). }
  assert (forall j, idx_ok j -> ent m2 pdpt j = ent (v_mem s) bpdpt j) as Hcp.
  { intros j Hj. rewrite (Hm2 pdpt j (proj2 Hpp) Hj), decide_True by done.
    by rewrite (Hm1 bpdpt j (proj2 Hbpp) Hj), decide_False by exact (role_ne R bpdpt a _ Hbr Hna). }
  assert (pds_inv s (v_frames s) m2 (fun k => ent (v_mem s) bpdpt k) a pdpt [] s2) as Hinv.
  { split; [|split_and!; [apply NoDup_nil_2|apply not_elem_of_nil|apply not_elem_of_nil|exact Hne]|
      by intros k p Hk; rewrite lookup_nil in Hk| |intros; exact eq_refl|exact eq_refl].
    - assert (pds_set a pdpt [] = {[pdpt]} ∪ {[a]}) as ->; [|exact Htk2].
      apply set_eq. intros x. rewrite elem_of_pds_set, elem_of_union, !elem_of_singleton, elem_of_nil. tauto.
    - intros j Hj. apply Hcp. unfold idx_ok. change (zlen (@nil Z)) with 0 in Hj. lia. }
  destruct (copy_pds_spec s (v_frames s) m2 _ a pdpt HE Hpa Hpp 4 [] s2 Hinv eq_refl) as (r & Er & Hr).
  change (zlen (@nil Z)) with 0 in Er. rewrite Er, Ok_bind. clear Er. destruct r as [s3|s3].
  2:{ destruct Hr as (Htk3 & Hu3 & Hfull & Hs3). do 2 eexists. split; [done|]. left. split; [done|]. split; [|done].
      split; [done|done|]. intros q r j Hq Hj. rewrite Hs3; [by eapply Hold|by eapply to_page|done|by eapply vo_used]. }
  destruct Hr as (L & Hlen & [Htk3 (Hnd & Hn1 & Hn2 & _) Hdone Htodo Hrest Hu3]).
  set (s4 := with_mem s3 _).
  assert (vmm_la57 s4 = vmm_la57 s) as -> by (unfold s4; by rewrite Hu3).
  assert (forall x, x ∈ L -> page_addr x) as HLp.
  { intros x Hx. apply (tk_page _ _ _ Htk3), elem_of_pds_set. by right; right. }
  assert (built R s s4 a pdpt L) as Hb.
  { unfold s4. split; cbn [with_mem v_mem v_frames]; [exact Hlen|..].
    - apply list.NoDup_cons. split; [by apply not_elem_of_cons|]. by apply list.NoDup_cons.
    - split; [exact Htk3|rewrite Hu3; exact eq_refl|]. cbn [with_mem v_mem]. intros q r j Hq Hj. rewrite ent_set_ne; [|apply Hpa|by eapply to_page|unfold idx_ok; lia|done|].
      2:{ intros [-> _]. congruence. }
      rewrite Hrest; [by eapply Hold|by eapply to_page|done|congruence|].
      intros Hin. assert (q ∈ pds_set a pdpt L) as Hq2 by (apply elem_of_pds_set; by right; right).
      by destruct (takes_fresh _ _ _ _ _ _ Hs Htk3 Hq).
    - apply ent_set_eq.
    - intros j Hj. rewrite ent_set_ne; [|apply Hpa|apply Hpa|unfold idx_ok; lia..].
      rewrite Hrest; [|apply Hpa|unfold idx_ok; lia|done|done].
      rewrite Hm2, decide_False; [|done|apply Hpa|unfold idx_ok; lia].
      rewrite Hm1, decide_True; [done|done|apply Hpa|unfold idx_ok; lia].
    - intros k p Hk. destruct (Hdone k p Hk) as [D1 D2]. assert (p ∈ L) as HpL by by eapply list_elem_of_lookup_2.
      pose proof (lookup_lt_Some _ _ _ Hk) as Hkl. assert (idx_ok (Z.of_nat k)) by (unfold idx_ok, zlen in *; lia).
      split.
      + rewrite ent_set_ne; [done|apply Hpa|apply Hpp|unfold idx_ok; lia|done|tauto].
      + intros j Hj. rewrite ent_set_ne; [|apply Hpa|by apply HLp|unfold idx_ok; lia|done|by intros [-> _]].
        rewrite D2 by done. f_equal. eapply Hold; [|done].
        apply (boot_pd_role R (v_mem s) bp Ht Hbp Hbpr); [done|apply Hid; unfold zlen in *; lia].
    - intros j Hj. rewrite ent_set_ne; [|apply Hpa|apply Hpp|unfold idx_ok; lia..|tauto]. apply Htodo. lia. }
  destruct (vmm_la57 s) eqn:E57.
  2:{ do 2 eexists. split; [done|]. right. exists a, pdpt, L, s4. by split. }
  change (v_frames s3) with (v_frames s4). change (set_ent (v_mem s3) a 0 _) with (v_mem s4).
  destruct (frame_alloc (v_frames s4)) as [p5 f5] eqn:Hall5. destruct (Z.eqb_spec p5 0) as [->|H5].
  { do 2 eexists. split; [done|]. right. exists a, pdpt, L, s4. split; [done|]. rewrite Hall5. done. }
  assert (p5 mod 4096 = 0) as Hp5.
  { destruct (takes_alloc _ _ _ _ _ (gr_takes _ _ _ _ (bu_grown _ _ _ _ _ _ Hb)) Hall5 H5) as (_ & _ & [_ ?] & _). done. }
  destruct (zero_page_spec p5 (v_mem s4) Hp5) as (m5 & Ez & _). rewrite Ez, Ok_bind.
  do 2 eexists. split; [done|]. right. exists a, pdpt, L, s4. split; [done|]. rewrite Hall5.
  destruct (Z.eqb_spec p5 0) as [E0|_]; [destruct (H5 E0)|].
  exact (conj eq_refl (ex_intro _ m5 (conj Ez eq_refl))).
Qed.

(** A page becomes the PML5 shell of a space. *)
Lemma tables_add_root R m m' p a :
  tables_ok R m -> R !! p = None -> page_addr p -> R !! a = Some (RPml4 a) ->
  entry_addr (ent m' p 0) = a ->
  (forall q r j, R !! q = Some r -> idx_ok j -> ent m' q j = ent m q j) ->
  tables_ok (<[p := RRoot a]> R) m'.
Proof.
  intros Ht Hf Hpa Ha He Hsame. assert (R ⊆ <[p := RRoot a]> R) as HR by by apply insert_subseteq.
  split.
  - intros q r i Hq Hi. apply lookup_insert_Some in Hq as [[<- <-]|[Hne Hq]]; [done|].
    rewrite (Hsame q r i) by done. eapply entry_ok_mono; [done|]. by apply (to_entry _ _ Ht).
  - intros q r Hq. apply lookup_insert_Some in Hq as [[<- <-]|[Hne Hq]]; [done|]. by apply (to_page _ _ Ht q r).
  - intros q b Hq. apply lookup_insert_Some in Hq as [[<- E]|[Hne Hq]]; [done|]. by apply (to_self _ _ Ht).
  - intros q b Hq. apply lookup_insert_Some in Hq as [[<- E]|[Hne Hq]].
    + injection E as <-. split; [done|]. by eapply lookup_weaken.
    + rewrite (Hsame q _ 0 Hq) by (unfold idx_ok; lia). destruct (to_root _ _ Ht q b Hq) as [E Hb].
      split; [done|]. by eapply lookup_weaken.
Qed.

(** The shell around a finished space. *)
Lemma shell_ok R s1 a p5 f m :
  vm_ok R s1 -> R !! a = Some (RPml4 a) -> frame_alloc (v_frames s1) = (p5, f) -> p5 <> 0 ->
  zero_page p5 (v_mem s1) = Ok m ->
  let m5 := set_ent m p5 0 (Z.lor (Z.lor (Z.lor a VMM_PRESENT) VMM_WRITABLE) VMM_USER) in
  vm_ok (<[p5 := RRoot a]> R) (upd s1 f m5) /\ R !! p5 = None /\ same_tr R (v_mem s1) m5 /\
  is_root (<[p5 := RRoot a]> R) true p5 a.
Proof.
  intros Hs Ha Hall H5 Hz m5. pose proof (vo_tables _ _ Hs) as Ht.
  destruct (alloc_cases _ _ _ (vo_wf _ _ Hs) Hall) as [Hwf [[E0 _]|(Hpa & Hfree & Hused & _)]]; [destruct (H5 E0)|].
  pose proof (vm_fresh _ _ _ Hs Hfree) as Hnone.
  destruct (zero_page_spec p5 (v_mem s1)) as (m0 & Ez & Hm); [apply Hpa|]. rewrite Hz in Ez. injection Ez as <-. clear Hz.
  assert (forall q r j, R !! q = Some r -> idx_ok j -> ent m5 q j = ent (v_mem s1) q j) as Hsame.
  { intros q r j Hq Hj. pose proof (to_page _ _ Ht q r Hq) as [_ Hqa]. pose proof (role_ne R q p5 r Hq Hnone) as Hne.
    unfold m5. rewrite ent_set_ne; [|apply Hpa|done|unfold idx_ok; lia|done|naive_solver]. rewrite Hm by done.
    by rewrite decide_False by done. }
  pose proof (to_page _ _ Ht a _ Ha) as Hapa. assert (entry_addr p5 = p5) as Ep.
  { rewrite <- (pd_entry_addr p5 0) at 2 by done. simpl. by rewrite Z.lor_0_r. }
  split_and!; [|done| |].
  - split; [|done|].
    + apply (tables_add_root R (v_mem s1)); try done. simpl. unfold m5. rewrite ent_set_eq.
      rewrite <- (pd_entry_addr a 7) at 2 by done. f_equal. rewrite <- !Z.lor_assoc. done.
    + intros q r Hq. simpl. apply lookup_insert_Some in Hq as [[<- _]|[_ Hq]].
      * rewrite Hused by (destruct Hpa; mlia). by rewrite Z.eqb_refl.
      * rewrite Hused, (vo_used _ _ Hs q r Hq) by (destruct (to_page _ _ Ht q r Hq); mlia). apply orb_true_r.
  - intros w b v Hb. apply (tr_frame w R _ _ b 3); [done|done|done|]. intros j q Hj Hq. left.
    apply (Hsame q _ _ Hq), idx_range.
  - split; [by rewrite lookup_insert_ne by (intros ->; congruence)|]. rewrite Ep. apply lookup_insert_eq.
Qed.

(** [vmm_create_address_space] returns. It gives 0 only when fewer than
    seven frames are free, with no translation changed and (without five-level
    paging) every frame it took given back; otherwise the root of a fresh space: below 4 GiB that space has exactly the
    2 MiB pages of the boot space and none of its 4 KiB mappings, above it
    translates as the boot space does, and no other space changed. *)
Theorem vmm_create_address_space_correct R s :
  vm_ok R s -> boot_ok R s ->
  exists r s', vmm_create_address_space s = Ok (r, s') /\ same_tr R (v_mem s) (v_mem s') /\
    ((r = 0 /\ vm_ok R s' /\ ~ spare 7 (v_frames s) /\
      (vmm_la57 s = false -> forall q, 0 <= q -> frame_used (v_frames s') q = frame_used (v_frames s) q)) \/
     exists R' a, R ⊆ R' /\ vm_ok R' s' /\ R !! a = None /\ is_root R' (vmm_la57 s) r a /\
       forall v, translate (v_mem s') a v =
         if decide (private v)
         then (if huge_at (v_mem s) (vmm_boot_pml4 s) v then translate (v_mem s) (vmm_boot_pml4 s) v else None)
         else translate (v_mem s) (vmm_boot_pml4 s) v).
Proof.
  intros Hs Hb. destruct (create_cases R s Hs Hb) as (r & s' & Ec & Hcase). exists r, s'. split; [exact Ec|]. clear Ec.
  destruct Hcase as [(-> & Hg & Hfull)|(a & pdpt & L & s1 & Hbu & Hrest)].
  { destruct (grown_ok R ∅ s s' Hs Hg) as [Hok Htr]. split; [done|]. left.
    split_and!; [done|done|intros H7; apply Hfull; eapply spare_le; [|exact H7]; lia|].
    intros _ q Hq. by apply takes_same; [apply (gr_takes _ _ _ _ Hg)|]. }
  destruct (built_ok R s s1 a pdpt L Hs Hb Hbu) as (HR & Hok & Hna & Htr & Hnew).
  assert (built_roles R a pdpt L !! a = Some (RPml4 a)) as Ha by apply lookup_insert_eq.
  destruct (vmm_la57 s) eqn:E57.
  2:{ destruct Hrest as [-> ->]. split; [done|]. right. exists (built_roles R a pdpt L), a. split_and!; [done..| |exact (Hnew phys_view)].
      split; [done|]. rewrite <- (pd_entry_addr a 0) at 2 by by eapply (to_page _ _ (vo_tables _ _ Hok)).
      simpl. by rewrite Z.lor_0_r. }
  destruct (frame_alloc (v_frames s1)) as [p5 f] eqn:Hall. destruct (Z.eqb_spec p5 0) as [->|H5].
  - destruct Hrest as [-> ->]. pose proof (bu_grown _ _ _ _ _ _ Hbu) as [Htk Hu Hsame].
    pose proof (takes_fail _ _ _ _ Htk Hall) as Htk1.
    pose proof (takes_give _ _ _ pdpt Htk1 (elem_of_union_l _ _ _ (proj2 (elem_of_singleton _ _) eq_refl))) as Htk2.
    assert (a <> pdpt) as Hne.
    { pose proof (bu_nodup _ _ _ _ _ _ Hbu) as Hnd. apply list.NoDup_cons in Hnd as [Hn _]. set_solver. }
    assert (a ∈ ({[pdpt]} ∪ ({[a]} ∪ list_to_set L)) ∖ ({[pdpt]} : gset Z)) as Hin by (clear -Hne; set_solver).
    pose proof (takes_give _ _ _ a Htk2 Hin) as Htk3.
    set (s5 := free_page (free_page (with_frames s1 f) pdpt) a).
    assert (grown R (({[pdpt]} ∪ ({[a]} ∪ list_to_set L)) ∖ {[pdpt]} ∖ {[a]}) s s5) as Hg5.
    { split; [exact Htk3|unfold s5; rewrite Hu; exact eq_refl|exact Hsame]. }
    destruct (grown_ok R _ s s5 Hs Hg5) as [Hok' Htr'].
    split; [done|]. left. split_and!; [done|done| |done].
    eapply takes_full; [exact Htk|by eapply alloc_fail_spare; [apply (tk_wf _ _ _ Htk)|]|]. rewrite (built_size _ _ _ _ _ _ Hbu). lia.
  - destruct Hrest as (-> & m & Hz & ->).
    destruct (shell_ok _ s1 a p5 f m Hok Ha Hall H5 Hz) as (Hok5 & Hn5 & Htr5 & Hr5).
    split; [by eapply same_tr_trans|]. right. eexists _, a. split_and!; [|exact Hok5|done|exact Hr5|].
    + etransitivity; [exact HR|]. by apply insert_subseteq.
    + intros v. etransitivity; [by apply (Htr5 phys_view)|exact (Hnew phys_view v)].
Qed.

(** With five-level paging and exactly six frames free, creation fails at
    the PML5 shell: it returns 0, gives back the PML4 and the PDPT, and loses
    the four PD copies. *)
Theorem vmm_create_leaks_pds R s :
  vm_ok R s -> boot_ok R s -> vmm_la57 s = true -> spare 6 (v_frames s) -> ~ spare 7 (v_frames s) ->
  exists s' X, vmm_create_address_space s = Ok (0, s') /\ size X = 4%nat /\ takes (v_frames s) X (v_frames s').
Proof.
  intros Hs Hb H57 H6 H7. destruct (create_cases R s Hs Hb) as (r & s' & -> & Hcase). exists s'.
  destruct Hcase as [(_ & _ & Hf)|(a & pdpt & L & s1 & Hbu & Hrest)]; [done|]. rewrite H57 in Hrest.
  pose proof (gr_takes _ _ _ _ (bu_grown _ _ _ _ _ _ Hbu)) as Htk.
  destruct (frame_alloc (v_frames s1)) as [p5 f] eqn:Hall. destruct (Z.eqb_spec p5 0) as [->|H5].
  - destruct Hrest as [-> ->]. exists (list_to_set L).
    pose proof Hbu as [Hlen Hnd _ _ _ _ _].
    apply list.NoDup_cons in Hnd as [Hna Hnd]. apply list.NoDup_cons in Hnd as [Hnp Hnd].
    split_and!; [done|rewrite size_list_to_set by done; unfold zlen in Hlen; lia|].
    pose proof (takes_give _ _ _ pdpt (takes_fail _ _ _ _ Htk Hall) ltac:(clear; set_solver)) as Htk2.
    pose proof (takes_give _ _ _ a Htk2 ltac:(clear -Hna; set_solver)) as Htk3. simpl.
    replace (list_to_set L) with (({[pdpt]} ∪ ({[a]} ∪ list_to_set L)) ∖ {[pdpt]} ∖ {[a]} : gset Z); [done|].
    clear -Hna Hnp. set_solver.
  - destruct (takes_alloc _ _ _ _ _ Htk Hall H5) as (Htk5 & Hn5 & _).
    destruct H7. eapply takes_spare; [exact Htk5|]. rewrite size_union, size_singleton, (built_size _ _ _ _ _ _ Hbu) by (clear -Hn5; set_solver). lia.
Qed.
End create.

(** ** Destruction *)

Section destroy.
Context {A : Type} `{FL : FrameLaws A}.
Implicit Types s : vmm A.

Definition owner (r : role) : Z :=
  match r with RRoot b => b | RPml4 b => b | RPdpt o _ => o | RPd o _ => o | RPt o _ => o end.

(** [p] is the table at level [n] on the walk of [v]. *)
Inductive walks (m : pmem) (a v : Z) : nat -> Z -> Prop :=
  | walks_top : walks m a v 3 a
  | walks_down n p : walks m a v (S n) p -> present (ent m p (idx (S n) v)) = true ->
      (Nat.eqb (S n) 1) && huge (ent m p (idx (S n) v)) = false -> walks m a v n (entry_addr (ent m p (idx (S n) v))).

Lemma walks_at m a v n p i :
  walks m a v (S n) p -> idx (S n) v = i -> present (ent m p i) = true ->
  (Nat.eqb (S n) 1) && huge (ent m p i) = false -> walks m a v n (entry_addr (ent m p i)).
Proof. intros Hw <-. by apply walks_down. Qed.

(** The tables of the private part of [a], and the PML5 page [root] above them
    where there is one. *)
Definition private_table (la57 : bool) (m : pmem) (a root p : Z) : Prop :=
  (exists v n, private v /\ walks m a v n p) \/ (la57 = true /\ p = root).

(** The address whose walk takes entries 0, [i] and [j]. *)
Lemma walk_to i j : 0 <= i < 4 -> idx_ok j ->
  let v := i * 2 ^ 30 + j * 2 ^ 21 in idx 3 v = 0 /\ idx 2 v = i /\ idx 1 v = j /\ private v.
Proof.
  intros Hi Hj v. unfold idx_ok in Hj. rewrite private_idx, !idx_div. subst v.
  change (2 ^ (12 + 9 * Z.of_nat 3)) with 549755813888. change (2 ^ (12 + 9 * Z.of_nat 2)) with 1073741824.
  change (2 ^ (12 + 9 * Z.of_nat 1)) with 2097152. change (2 ^ 30) with 1073741824. change (2 ^ 21) with 2097152.
  split_and!; mlia.
Qed.

(** From [s] to [s'] only frames of tables of space [a] that satisfy [P] were
    given back. *)
Record released (R : gmap Z role) (a : Z) (P : Z -> Prop) s s' : Prop := {
  rl_upd : s' = upd s (v_frames s') (v_mem s);
  rl_wf : frame_wf (v_frames s');
  rl_mono : forall q, 0 <= q -> frame_used (v_frames s') q = true -> frame_used (v_frames s) q = true;
  rl_only : forall q, 0 <= q -> frame_used (v_frames s) q = true -> frame_used (v_frames s') q = false ->
    exists p r, q = p / 4096 /\ R !! p = Some r /\ owner r = a /\ P p
}.

Lemma released_refl R a P s : frame_wf (v_frames s) -> released R a P s s.
Proof. intros Hw. split; [by destruct s|done|done|]. intros q _ H1 H2. congruence. Qed.

Lemma released_trans R a P s1 s2 s3 : released R a P s1 s2 -> released R a P s2 s3 -> released R a P s1 s3.
Proof.
  intros [U1 W1 M1 O1] [U2 W2 M2 O2]. split; [rewrite U2, U1; done|done|auto|].
  intros q Hq H1 H3. destruct (frame_used (v_frames s2) q) eqn:E; eauto.
Qed.

Lemma released_free R a P s p r :
  (forall p r, R !! p = Some r -> page_addr p) -> frame_wf (v_frames s) -> R !! p = Some r -> owner r = a -> P p ->
  released R a P s (free_page s p) /\ frame_used (v_frames (free_page s p)) (p / 4096) = false.
Proof.
  intros Hpg Hw Hp Ho HP. destruct (Hpg p r Hp) as [Hr Ha]. destruct (frame_free_spec _ p Hw Hr Ha) as [Hw' Hu].
  split.
  - split; [by destruct s|done| |]; simpl.
    + intros q Hq. rewrite Hu by done. by intros [_ ?]%andb_true_iff.
    + intros q Hq H1 H2. rewrite Hu, H1, andb_true_r in H2 by done. apply negb_false_iff, Z.eqb_eq in H2. by exists p, r.
  - simpl. rewrite Hu by mlia. by rewrite Z.eqb_refl.
Qed.

(** Steps that give back frames, over a list. *)
Lemma fold_released R a P (f : vmm A -> Z -> vmm A) m l s :
  (forall s i, i ∈ l -> v_mem s = m -> frame_wf (v_frames s) -> released R a P s (f s i)) ->
  v_mem s = m -> frame_wf (v_frames s) ->
  released R a P s (fold_left f l s) /\
  forall i q, i ∈ l -> 0 <= q ->
    (forall s, v_mem s = m -> frame_wf (v_frames s) -> frame_used (v_frames (f s i)) q = false) ->
    frame_used (v_frames (fold_left f l s)) q = false.
Proof.
  intros Hf. revert s. induction l as [|i l IH]; intros s Hm Hw.
  { split; [by apply released_refl|]. intros i q Hi. by apply not_elem_of_nil in Hi. }
  cbn [fold_left]. pose proof (Hf s i ltac:(apply list_elem_of_here) Hm Hw) as Hr.
  assert (v_mem (f s i) = m) as Hm' by by rewrite (rl_upd _ _ _ _ _ Hr).
  destruct (IH (fun s j Hj => Hf s j (list_elem_of_further _ _ _ Hj)) (f s i) Hm' (rl_wf _ _ _ _ _ Hr)) as [IH1 IH2].
  split; [by eapply released_trans|]. intros j q Hj Hq Hfree. apply elem_of_cons in Hj as [->|Hj]; [|by apply (IH2 j)].
  destruct (frame_used (v_frames (fold_left f l (f s i))) q) eqn:E; [|done].
  apply (rl_mono _ _ _ _ _ IH1) in E; [|done]. by rewrite Hfree in E.
Qed.

Section one_space.
Context (R : gmap Z role) (m : pmem) (a : Z) (Ht : tables_ok R m) (Ha : R !! a = Some (RPml4 a)).
Context (Hpr : present (ent m a 0) = true).
Context (P : Z -> Prop) (HP : forall v n p, private v -> walks m a v n p -> P p).

Local Notation pdpt := (entry_addr (ent m a 0)).

Lemma walk_pdpt v : private v -> walks m a v 2 pdpt.
Proof using Hpr. intros [E _]%private_idx. by apply walks_at; [apply walks_top|..]. Qed.

Lemma walk_pd i : 0 <= i < 4 -> present (ent m pdpt i) = true -> P (entry_addr (ent m pdpt i)).
Proof using Hpr HP.
  intros Hi Hp. destruct (walk_to i 0 Hi ltac:(unfold idx_ok; lia)) as (_ & E2 & _ & Hv).
  apply (HP _ 1%nat _ Hv). by apply walks_at; [apply walk_pdpt|..].
Qed.

Lemma walk_pt i j :
  0 <= i < 4 -> idx_ok j -> present (ent m pdpt i) = true ->
  let e := ent m (entry_addr (ent m pdpt i)) j in present e = true -> huge e = false -> P (entry_addr e).
Proof using Hpr HP.
  intros Hi Hj Hp e Pe He. destruct (walk_to i j Hi Hj) as (_ & E2 & E1 & Hv). apply (HP _ 0%nat _ Hv).
  apply walks_at; [|done|done|]; [by apply walks_at; [apply walk_pdpt|..]|by fold e; rewrite He].
Qed.

Lemma own_pdpt : R !! pdpt = Some (RPdpt a 0).
Proof using Ha Ht Hpr. by apply (boot_pdpt_role R m a). Qed.

Lemma own_pd i : 0 <= i < 4 -> present (ent m pdpt i) = true -> R !! entry_addr (ent m pdpt i) = Some (RPd a i).
Proof using Ha Ht Hpr.
  intros Hi Hp. pose proof (boot_pd_role R m a Ht Ha Hpr i ltac:(unfold idx_ok; lia) Hp) as X.
  unfold own3 in X. by destruct (Z.ltb_spec i 4); [|lia].
Qed.

Lemma own_pt i j :
  0 <= i < 4 -> idx_ok j -> present (ent m pdpt i) = true ->
  let e := ent m (entry_addr (ent m pdpt i)) j in
  present e = true -> huge e = false -> R !! entry_addr e = Some (RPt a (512 * i + j)).
Proof using Ha Ht Hpr.
  intros Hi Hj Hp e He Hh. pose proof (to_entry _ _ Ht _ _ j (own_pd i Hi Hp) Hj) as X.
  unfold entry_ok in X. cbn [child is_pd andb] in X. fold e in X. rewrite Hh in X. by apply X.
Qed.

(** The PD of entry [i] and its page tables are given back. *)
Lemma destroy_pd_spec s i :
  0 <= i < 4 -> v_mem s = m -> frame_wf (v_frames s) ->
  released R a P s (destroy_pd s pdpt i) /\
  (present (ent m pdpt i) = true ->
     frame_used (v_frames (destroy_pd s pdpt i)) (entry_addr (ent m pdpt i) / 4096) = false /\
     forall j, idx_ok j -> let e := ent m (entry_addr (ent m pdpt i)) j in
       present e = true -> huge e = false ->
       frame_used (v_frames (destroy_pd s pdpt i)) (entry_addr e / 4096) = false).
Proof using Ha Ht Hpr HP FL.
  intros Hi Hm Hw. unfold destroy_pd. rewrite Hm.
  destruct (present (ent m pdpt i)) eqn:Hp; cbn [negb]; [|split; [by apply released_refl|done]].
  set (pd := entry_addr (ent m pdpt i)). set (f := fun (s : vmm A) j => _).
  assert (forall s j, j ∈ seqZ 0 512 -> v_mem s = m -> frame_wf (v_frames s) -> released R a P s (f s j)) as Hf.
  { intros s1 j Hj Hm1 Hw1. unfold f. rewrite Hm1. apply elem_of_seqZ in Hj.
    destruct (present (ent m pd j)) eqn:P2; cbn [andb]; [|by apply released_refl].
    destruct (huge (ent m pd j)) eqn:P3; cbn [negb]; [by apply released_refl|].
    assert (idx_ok j) as Hji by (unfold idx_ok; lia).
    by apply (released_free R a P s1 _ (RPt a (512 * i + j))); [apply (to_page _ _ Ht)|done|apply own_pt|done|apply walk_pt]. }
  destruct (fold_released R a P f m (seqZ 0 512) s Hf Hm Hw) as [Hr Hd].
  set (s1 := fold_left f (seqZ 0 512) s) in *.
  destruct (released_free R a P s1 pd (RPd a i)) as [Hr2 Hu2];
    [apply (to_page _ _ Ht)|apply (rl_wf _ _ _ _ _ Hr)|by apply own_pd|done|by apply walk_pd|].
  split; [by eapply released_trans|]. intros _. split; [done|]. intros j Hj Pe Ph.
  set (e := ent m pd j) in *. assert (0 <= entry_addr e / 4096) as Hq.
  { pose proof (to_page _ _ Ht _ _ (own_pt i j Hi Hj Hp Pe Ph)) as [X _]. fold pd e in X. mlia. }
  destruct (frame_used (v_frames (free_page s1 pd)) (entry_addr e / 4096)) eqn:E; [|done].
  apply (rl_mono _ _ _ _ _ Hr2) in E; [|done]. cut (frame_used (v_frames s1) (entry_addr e / 4096) = false); [congruence|].
  apply (Hd j); [|done|].
  { apply elem_of_seqZ. unfold idx_ok in Hj. lia. }
  intros s2 Hm2 Hw2. unfold f. rewrite Hm2. fold e. rewrite Pe, Ph. cbn [andb negb].
  by apply (released_free R a P s2 _ (RPt a (512 * i + j))); [apply (to_page _ _ Ht)|done|apply own_pt|done|apply walk_pt].
Qed.
End one_space.

(** The roles that are not of space [a]. *)
Definition others (R : gmap Z role) (a : Z) : gmap Z role := filter (fun pr => owner pr.2 <> a) R.

Lemma others_ok R a s : vm_ok R s -> a <> 0 -> tables_ok (others R a) (v_mem s).
Proof.
  intros Hs Ha0. pose proof (vo_tables _ _ Hs) as Ht. unfold others. split.
  - intros p r i [Hp Ho]%map_lookup_filter_Some Hi. simpl in Ho.
    pose proof (to_entry _ _ Ht p r i Hp Hi) as X. unfold entry_ok in *. destruct (child r i) as [c|] eqn:Ec; [|done].
    intros Hpr. specialize (X Hpr). destruct (_ && _); [done|]. apply map_lookup_filter_Some. split; [done|]. simpl.
    destruct r; simplify_eq/=; unfold own4, own3; repeat zcase; lia || done.
  - intros p r [Hp _]%map_lookup_filter_Some. by apply (to_page _ _ Ht p r).
  - intros p b [Hp _]%map_lookup_filter_Some. by apply (to_self _ _ Ht).
  - intros p b [Hp Ho]%map_lookup_filter_Some. destruct (to_root _ _ Ht p b Hp) as [E Hb]. split; [done|].
    by apply map_lookup_filter_Some.
Qed.

Lemma released_others R a P s s' : vm_ok R s -> a <> 0 -> released R a P s s' -> vm_ok (others R a) s'.
Proof.
  intros Hs Ha0 [Hu Hw Hm Ho]. assert (v_mem s' = v_mem s) as Em by by rewrite Hu. split; [rewrite Em; by apply others_ok|done|].
  intros p r [Hp Hne]%map_lookup_filter_Some. simpl in Hne.
  destruct (to_page _ _ (vo_tables _ _ Hs) p r Hp) as [Hr Hal].
  destruct (frame_used (v_frames s') (p / 4096)) eqn:E; [done|].
  destruct (Ho (p / 4096)) as (p' & r' & Eq & Hp' & Hown & _); [mlia|by eapply vo_used|done|].
  assert (p = p') as ->; [|congruence]. apply page_addr_div; [done|by eapply (to_page _ _ (vo_tables _ _ Hs))|done].
Qed.

Lemma released_keep R a P s s' q :
  released R a P s s' -> 0 <= q -> frame_used (v_frames s) q = false -> frame_used (v_frames s') q = false.
Proof.
  intros Hr Hq Hf. destruct (frame_used (v_frames s') q) eqn:E; [|done].
  apply (rl_mono _ _ _ _ _ Hr) in E; [congruence|done].
Qed.

(** With every table of [P] given back, the accounting is exact. *)
Lemma released_exact R a P s s' :
  released R a P s s' -> (forall p, P p -> frame_used (v_frames s') (p / 4096) = false) ->
  forall q, 0 <= q ->
    frame_used (v_frames s') q = true <-> frame_used (v_frames s) q = true /\ ~ exists p, P p /\ q = p / 4096.
Proof.
  intros [_ _ Hm Ho] Hf q Hq. split.
  - intros Hu. split; [by apply Hm|]. intros (p & Hp & ->). by rewrite Hf in Hu.
  - intros [Hu Hn]. destruct (frame_used (v_frames s') q) eqn:E; [done|].
    destruct (Ho q Hq Hu E) as (p & r & -> & _ & _ & HP). destruct Hn. by exists p.
Qed.

Lemma page_div_nonneg p : page_addr p -> 0 <= p / 4096.
Proof. intros [? _]. mlia. Qed.

Lemma page_entry_addr p : page_addr p -> entry_addr p = p.
Proof. intros Hp. rewrite <- (pd_entry_addr p 0) at 2 by done. simpl. by rewrite Z.lor_0_r. Qed.

Lemma walks_private m a v n p :
  private v -> walks m a v n p ->
  let pdpt := entry_addr (ent m a 0) in
  (n = 3%nat /\ p = a) \/ (n = 2%nat /\ p = pdpt) \/
  exists i, 0 <= i < 4 /\ present (ent m pdpt i) = true /\
    ((n = 1%nat /\ p = entry_addr (ent m pdpt i)) \/
     exists j, idx_ok j /\ let e := ent m (entry_addr (ent m pdpt i)) j in
       n = 0%nat /\ p = entry_addr e /\ present e = true /\ huge e = false).
Proof.
  intros [E3 E2]%private_idx Hw. pose proof (idx_range 2 v) as H2. unfold idx_ok in H2.
  induction Hw as [|n p Hw IH Hp Hh]; [by left|]. right.
  destruct IH as [[En ->]|[[En ->]|(i & Hi & Hpi & [[En ->]|(j & Hj & En & _)])]]; [..|lia]; injection En as ->.
  - left. by rewrite E3.
  - right. exists (idx 2 v). split; [lia|]. split; [done|]. by left.
  - right. exists i. split; [done|]. split; [done|]. right. exists (idx 1 v). split; [apply idx_range|]. by split_and!.
Qed.

Lemma destroy_frees_spec R s root a :
  vm_ok R s -> is_root R (vmm_la57 s) root a -> present (ent (v_mem s) a 0) = true ->
  let s' := destroy_frees s root a in
  let P := private_table (vmm_la57 s) (v_mem s) a (entry_addr root) in
  released R a P s s' /\ forall p, P p -> frame_used (v_frames s') (p / 4096) = false.
Proof.
  intros Hs [Ha Hroot] Hp s' P. pose proof (vo_tables _ _ Hs) as Ht. set (m := v_mem s) in *.
  pose proof (to_page _ _ Ht a _ Ha) as Hapa. pose proof (own_pdpt R m a Ht Ha Hp) as Hrp.
  assert (forall v n p, private v -> walks m a v n p -> P p) as HP by (left; eauto).
  pose proof (HP _ _ _ (proj2 (proj2 (proj2 (walk_to 0 0 ltac:(lia) ltac:(unfold idx_ok; lia)))))
    (walk_pdpt m a Hp _ (proj2 (proj2 (proj2 (walk_to 0 0 ltac:(lia) ltac:(unfold idx_ok; lia))))))) as HPp.
  set (pdpt := entry_addr (ent m a 0)) in *. subst s'. unfold destroy_frees. fold m pdpt.
  destruct (fold_released R a P (fun s i => destroy_pd s pdpt i) m (seqZ 0 4) s) as [Hr1 Hd1]; [|done|apply (vo_wf _ _ Hs)|].
  { intros s1 i Hi%elem_of_seqZ Hm Hw. apply (destroy_pd_spec R m a Ht Ha Hp P HP); [lia|done|done]. }
  set (s1 := fold_left _ _ _) in *. assert (v_mem s1 = m) as Em1 by by rewrite (rl_upd _ _ _ _ _ Hr1).
  rewrite Em1. fold pdpt.
  destruct (released_free R a P s1 pdpt _ (to_page _ _ Ht) (rl_wf _ _ _ _ _ Hr1) Hrp eq_refl HPp) as [Hr2 Hu2].
  assert (P a) as HPa by (apply (HP 0 3%nat); [done|apply walks_top]).
  set (s2 := free_page s1 pdpt) in *. change (Z.land a PAGE_MASK) with (entry_addr a). rewrite page_entry_addr by done.
  destruct (released_free R a P s2 a _ (to_page _ _ Ht) (rl_wf _ _ _ _ _ Hr2) Ha eq_refl HPa) as [Hr3 Hu3].
  set (s3 := free_page s2 a) in *.
  assert (vmm_la57 s3 = vmm_la57 s) as -> by (unfold s3, s2; by rewrite (rl_upd _ _ _ _ _ Hr1)).
  set (s4 := if vmm_la57 s then _ else _).
  assert (released R a P s3 s4 /\ (vmm_la57 s = true -> frame_used (v_frames s4) (entry_addr root / 4096) = false)) as [Hr4 Hu4].
  { unfold s4. destruct (vmm_la57 s) eqn:E57; [|split; [apply released_refl, (rl_wf _ _ _ _ _ Hr3)|done]].
    by destruct (released_free R a P s3 _ _ (to_page _ _ Ht) (rl_wf _ _ _ _ _ Hr3) Hroot eq_refl (or_intror (conj eq_refl eq_refl))). }
  pose proof (released_trans _ _ _ _ _ _ Hr3 Hr4) as Hr34. pose proof (released_trans _ _ _ _ _ _ Hr2 Hr34) as Hr24.
  split; [by eapply released_trans|].
  assert (forall i q, 0 <= i < 4 -> 0 <= q ->
    (forall s, v_mem s = m -> frame_wf (v_frames s) -> frame_used (v_frames (destroy_pd s pdpt i)) q = false) ->
    frame_used (v_frames s4) q = false) as Hpd.
  { intros i q Hi Hq Hx. apply (released_keep R a P s1); [done|done|]. apply (Hd1 i); [apply elem_of_seqZ; lia|done|done]. }
  intros p [(v & n & Hv & Hw)|[E57 ->]]; [|by apply Hu4].
  destruct (walks_private m a v n p Hv Hw) as [[_ ->]|[[_ ->]|(i & Hi & Hpi & [[_ ->]|(j & Hj & _ & -> & Pe & Ph)])]].
  - apply (released_keep R a P s3); [done|by apply page_div_nonneg|done].
  - fold pdpt. apply (released_keep R a P s2); [done|apply page_div_nonneg, (to_page _ _ Ht _ _ Hrp)|done].
  - fold pdpt. apply (Hpd i); [done|apply page_div_nonneg, (to_page _ _ Ht _ _ (own_pd R m a Ht Ha Hp i Hi Hpi))|].
    intros s5 Hm5 Hw5. by apply (destroy_pd_spec R m a Ht Ha Hp P HP s5 i Hi Hm5 Hw5).
  - fold pdpt in Pe, Ph |- *.
    apply (Hpd i); [done|apply page_div_nonneg, (to_page _ _ Ht _ _ (own_pt R m a Ht Ha Hp i j Hi Hj Hpi Pe Ph))|].
    intros s5 Hm5 Hw5. by apply (destroy_pd_spec R m a Ht Ha Hp P HP s5 i Hi Hm5 Hw5).
Qed.

(** C29: Destroying a space other than the boot space gives back exactly the
    frames of the tables of its private part, its PML4 and its PML5 page: a
    frame of the machine is allocated afterwards if and only if it was before
    and is none of these.  So no page mapped by a leaf entry is given back
    here (that is [uvm_release_mm]).  All tables of the remaining spaces stay
    allocated and well formed, no word of memory changes, and the walk pointer
    is left at a space that is still alive. *)
Theorem vmm_destroy_address_space_correct R s root a b0 c :
  vm_ok R s ->
  is_root R (vmm_la57 s) root a -> entry_addr root = root -> present (ent (v_mem s) a 0) = true ->
  is_root R (vmm_la57 s) (vmm_boot_root s) b0 -> b0 <> a ->
  is_root R (vmm_la57 s) (vmm_active_root s) c -> (c = a -> vmm_active_root s = root) ->
  let s' := vmm_destroy_address_space s root in
  v_mem s' = v_mem s /\ vm_ok (others R a) s' /\
  others R a !! vmm_pml4 s' = Some (RPml4 (vmm_pml4 s')) /\
  (forall q, 0 <= q ->
     (frame_used (v_frames s') q = true <->
      frame_used (v_frames s) q = true /\ ~ exists p, private_table (vmm_la57 s) (v_mem s) a root p /\ q = p / 4096)).
Proof.
  intros Hs Hr Er Hp Hb Hba Hc Hca. pose proof (vo_tables _ _ Hs) as Ht.
  destruct (is_root_pml4 R _ _ _ _ Ht Hr) as [Ea _]. destruct (is_root_pml4 R _ _ _ _ Ht Hb) as [Eb _].
  destruct (is_root_pml4 R _ _ _ _ Ht Hc) as [Ec _].
  pose proof (to_page _ _ Ht a _ (proj1 Hr)) as Hapa. assert (a <> 0) as Ha0 by (destruct Hapa; lia).
  assert (root <> 0 /\ root <> vmm_boot_root s) as [H0 H1].
  { split; intros E; [|congruence]. subst root. unfold is_root in Hr. change (entry_addr 0) with 0 in Hr.
    destruct Hr as [Hra Hrr]. destruct (vmm_la57 s); [|lia]. destruct (to_page _ _ Ht _ _ Hrr). lia. }
  destruct (destroy_frees_spec R s root a Hs Hr Hp) as [Hrel Hfree]. rewrite Er in Hrel, Hfree.
  assert (vmm_destroy_address_space s root =
    let s2 := vmm_set_root_ptr (destroy_frees s root a) (vmm_active_root s) in
    if vmm_active_root s =? root then vmm_set_root_ptr s2 (vmm_boot_root s2) else s2) as ->.
  { unfold vmm_destroy_address_space, mm_root_to_pml4, vmm_current_root.
    change (Z.land root PAGE_MASK) with (entry_addr root). rewrite Er, Ea, Hp.
    destruct (Z.eqb_spec root 0); [done|]. by destruct (Z.eqb_spec root (vmm_boot_root s)). }
  set (s1 := destroy_frees s root a) in *. pose proof (rl_upd _ _ _ _ _ Hrel) as Eu.
  pose proof (released_others R a _ s s1 Hs Ha0 Hrel) as Hok1.
  assert (v_mem s1 = v_mem s /\ vmm_la57 s1 = vmm_la57 s /\ vmm_boot_root s1 = vmm_boot_root s) as (Em & E57 & Ebr)
    by (rewrite Eu; done).
  assert (forall b, R !! b = Some (RPml4 b) -> b <> a -> others R a !! b = Some (RPml4 b)) as Hkeep.
  { intros b Hb1 Hb2. by apply map_lookup_filter_Some. }
  pose proof (released_exact _ _ _ _ _ Hrel Hfree) as Hex.
  unfold vmm_set_root_ptr, vmm_current_root, mm_root_to_pml4.
  destruct (Z.eqb_spec (vmm_active_root s) root) as [Eo|Eo]; cbn [with_walk v_mem vmm_la57 vmm_boot_root vmm_pml4 v_frames].
  - rewrite Em, E57, Ebr, Eb. split_and!; [done|destruct Hok1; by split|by apply Hkeep; [apply Hb|]|done].
  - rewrite Em, E57, Ec. split_and!; [done|destruct Hok1; by split| |done]. apply Hkeep; [apply Hc|]. intros E. by apply Eo, Hca.
Qed.
End destroy.
