(* ===== verification/VmmPmm.v ===== *)
(** * The page-table code over the physical memory manager

    [Pmm.v] implements the frame allocator that [Vmm.v] asks for; a machine
    with the boot identity map shows the theorems of [PageTables.v] and
    [AddressSpaces.v] at work. *)

From S2P Require Import Prelude Pmm Vmm PageTables AddressSpaces.

#[global] Instance pmm_frames : FrameAlloc pmm := {
  frame_alloc := pmm_alloc_page;
  frame_free := pmm_free_page;
  frame_wf st := pmm_wf st /\ page_used (pmm_bitmap st) 0 = true;
  frame_used st q := page_used (pmm_bitmap st) q
}.

#[global] Instance pmm_frames_laws : FrameLaws pmm.
Proof.
  assert (PMM_MAX_PAGES = 1048576) as HM by done.
  split.
  - intros st p st' [Hwf H0] Hall. simpl in Hall. destruct (alloc_page_cases st p st' Hwf H0 Hall) as [Hwf' Hcase].
    destruct Hcase as [(-> & -> & Hf)|(n & Hn & -> & (Ht & Hsame & _) & _)]; [by split; [|left]|].
    unfold PAGE_SIZE. assert (n * 4096 / 4096 = n) as En by (rewrite Z.div_mul; lia). rewrite En.
    assert (forall q, 0 <= q -> page_used (pmm_bitmap st') q = (q =? n) || page_used (pmm_bitmap st) q) as Hu.
    { intros q Hq. destruct (Z.eqb_spec q n) as [->|]; [by apply (Ht n); lia|]. apply Hsame; lia. }
    split; [split; [done|]; rewrite Hu, H0 by lia; apply orb_true_r|]. right.
    split_and!; [lia|lia|by rewrite Z.mod_mul|by apply (Ht n); lia|done].
  - intros st p [Hwf H0] Hr Ha. simpl.
    assert (p = p / 4096 * PAGE_SIZE) as Ep by (unfold PAGE_SIZE; mlia). assert (0 < p / 4096 < PMM_MAX_PAGES) as Hp by mlia.
    destruct (pmm_free_page_spec st (p / 4096) Hwf Hp) as [E Hwf']. rewrite <- Ep in E, Hwf'.
    assert (forall q, 0 <= q -> page_used (pmm_bitmap (pmm_free_page st p)) q = negb (q =? p / 4096) && page_used (pmm_bitmap st) q) as Hu.
    { intros q Hq. rewrite E, bitmap_clear_used; [by rewrite Z.eqb_sym|apply Hwf|lia|lia]. }
    split; [|done]. split; [done|]. rewrite Hu, H0 by lia. destruct (Z.eqb_spec 0 (p / 4096)); [lia|done].
Qed.

(** ** Checking the tables of a concrete memory *)

Definition page_addrb (p : Z) : bool := (0 <? p) && (p <? 4294967296) && (p mod 4096 =? 0).

Definition huge_okb (e : Z) : bool :=
  negb (Z.testbit e 2) && (Z.land e (2 ^ 21 - 2 ^ 12) =? 0) && (Z.land e (2 ^ 63 - 2 ^ 52) =? 0).

Definition entry_okb (R : gmap Z role) (r : role) (i e : Z) : bool :=
  match child r i with
  | None => true
  | Some c => negb (present e) || (if is_pd r && huge e then huge_okb e else bool_decide (R !! entry_addr e = Some c))
  end.

Definition table_okb (R : gmap Z role) (m : pmem) (pr : Z * role) : bool :=
  let '(p, r) := pr in
  page_addrb p &&
  match r with
  | RPml4 a => p =? a
  | RRoot a => (entry_addr (ent m p 0) =? a) && bool_decide (R !! a = Some (RPml4 a))
  | _ => true
  end &&
  forallb (fun i => entry_okb R r i (ent m p i)) (seqZ 0 512).

Definition tables_okb (R : gmap Z role) (m : pmem) : bool := forallb (table_okb R m) (map_to_list R).

Lemma huge_okb_sound e : huge_okb e = true -> huge_ok e.
Proof.
  unfold huge_okb. rewrite !andb_true_iff, negb_true_iff, !Z.eqb_eq. intros [[H0 H1] H2] k Hk.
  destruct (Z.testbit e k) eqn:E; [|done]. destruct Hk as [->|[Hk|Hk]]; [congruence| |].
  - assert (Z.testbit (Z.land e (2 ^ 21 - 2 ^ 12)) k = true) as X; [|by rewrite H1, Z.bits_0 in X].
    rewrite Z.land_spec, E, mask_bits by lia. bcase.
  - assert (Z.testbit (Z.land e (2 ^ 63 - 2 ^ 52)) k = true) as X; [|by rewrite H2, Z.bits_0 in X].
    rewrite Z.land_spec, E, mask_bits by lia. bcase.
Qed.

Lemma tables_okb_sound R m : tables_okb R m = true -> tables_ok R m.
Proof.
  intros Hb. unfold tables_okb in Hb. rewrite forallb_forall in Hb.
  assert (forall p r, R !! p = Some r -> table_okb R m (p, r) = true) as Ht.
  { intros p r Hp. apply Hb, list_elem_of_In, elem_of_map_to_list. done. }
  assert (forall p r, R !! p = Some r -> page_addr p /\
    match r with
    | RPml4 a => p = a
    | RRoot a => entry_addr (ent m p 0) = a /\ R !! a = Some (RPml4 a)
    | _ => True
    end /\ forall i, idx_ok i -> entry_ok R r i (ent m p i)) as H.
  { intros p r Hp. specialize (Ht p r Hp). unfold table_okb in Ht. rewrite !andb_true_iff, forallb_forall in Ht.
    destruct Ht as [[Hpa Hr] He]. split_and!.
    - unfold page_addrb in Hpa. rewrite !andb_true_iff, !Z.ltb_lt, Z.eqb_eq in Hpa. unfold page_addr. tauto.
    - destruct r; try done; [|by apply Z.eqb_eq]. by rewrite andb_true_iff, Z.eqb_eq, bool_decide_eq_true in Hr.
    - intros i Hi. assert (entry_okb R r i (ent m p i) = true) as Hei.
      { apply He, list_elem_of_In, elem_of_seqZ. unfold idx_ok in Hi. lia. }
      clear He. unfold entry_ok. unfold entry_okb in Hei. destruct (child r i) as [c|]; [|done].
      intros Hpr. rewrite Hpr in Hei. cbn [negb orb] in Hei.
      destruct (is_pd r && huge (ent m p i)); [by apply huge_okb_sound|by apply bool_decide_eq_true in Hei]. }
  split.
  - intros p r i Hp Hi. by apply (H p r Hp).
  - intros p r Hp. by apply (H p r Hp).
  - intros p a Hp. by apply (H p _ Hp).
  - intros p a Hp. by apply (H p _ Hp).
Qed.

(** ** A machine after boot

    The boot tables of the first 4 GiB: a PML4 at 1 MiB, a PDPT and four PDs
    of 2 MiB pages behind it; eight frames are free from 2 MiB on. *)

Definition boot_pd_addr (k : Z) : Z := 1056768 + 4096 * k.

Definition boot_mem : pmem :=
  let m := set_ent ∅ 1048576 0 (1052672 + 3) in
  let m := fold_left (fun m k => set_ent m 1052672 k (boot_pd_addr k + 3)) (seqZ 0 4) m in
  fold_left (fun m n => set_ent m (boot_pd_addr (n / 512)) (n mod 512) (n * 2097152 + 131)) (seqZ 0 2048) m.

Definition boot_roles : gmap Z role :=
  fold_left (fun R k => <[boot_pd_addr k := RPd 1048576 k]> R) (seqZ 0 4)
    (<[1052672 := RPdpt 1048576 0]> (<[1048576 := RPml4 1048576]> ∅)).

(** All pages are taken but [n] of them, from page [base] on. *)
Definition free_frames (base n : Z) : pmm := pmm_mark_region pmm_full (base * 4096) (n * 4096) false.

Definition boot_frames (n : Z) : pmm := free_frames 512 n.

Definition boot_vm (n : Z) : vmm pmm :=
  vmm_init (mk_vmm boot_mem (boot_frames n) 0 false 0 0 0 0 1048576 0 0 ∅).

Lemma free_frames_wf base n : 0 <= base -> pmm_wf (free_frames base n).
Proof.
  intros H0. apply pmm_mark_region_wf; [|lia]. apply (pmm_full_wf pmm_boot); [done|]. unfold PMM_MAX_PAGES. simpl. lia.
Qed.

(** The pages of the boot tables are marked. *)
Definition roles_usedb (f : pmm) (R : gmap Z role) : bool :=
  forallb (fun pr => page_used (pmm_bitmap f) (pr.1 / 4096)) (map_to_list R).

Lemma roles_usedb_sound f R : roles_usedb f R = true ->
  forall p r, R !! p = Some r -> page_used (pmm_bitmap f) (p / 4096) = true.
Proof.
  unfold roles_usedb. rewrite forallb_forall. intros Hf p r Hp.
  apply (Hf (p, r)), list_elem_of_In, elem_of_map_to_list. done.
Qed.

Lemma boot_vm_ok : vm_ok boot_roles (boot_vm 8).
Proof.
  split.
  - apply tables_okb_sound. vm_compute. reflexivity.
  - split; [apply free_frames_wf; lia|]. vm_compute. reflexivity.
  - apply roles_usedb_sound. vm_compute. reflexivity.
Qed.

Lemma free_frames_used base n q :
  0 <= base -> 0 <= n -> base + n <= PMM_MAX_PAGES -> 0 <= q < PMM_MAX_PAGES ->
  page_used (pmm_bitmap (free_frames base n)) q = negb ((base <=? q) && (q <? base + n)).
Proof.
  intros Hb Hn Hm Hq. assert (PMM_MAX_PAGES = 1048576) as HM by done. unfold free_frames.
  destruct (pmm_mark_region_spec pmm_full (base * 4096) (n * 4096) false) as [_ Hu];
    [exact pmm_full_is_wf|lia|lia|unfold PAGE_SIZE; lia|].
  rewrite Hu by done. unfold in_region, PAGE_SIZE.
  assert (base * 4096 / 4096 = base) as -> by (rewrite Z.div_mul; lia).
  assert ((base * 4096 + n * 4096 + 4096 - 1) / 4096 = base + n) as -> by mlia.
  destruct (_ && _); [done|]. by apply page_used_full.
Qed.

(** Exactly [n] frames are free. *)
Lemma free_frames_spare base n :
  0 <= base -> 0 <= n -> base + n <= PMM_MAX_PAGES ->
  spare (Z.to_nat n) (free_frames base n) /\ ~ spare (S (Z.to_nat n)) (free_frames base n).
Proof.
  intros Hb Hn Hm. assert (PMM_MAX_PAGES = 1048576) as HM by done.
  assert (size (list_to_set (seqZ base n) : gset Z) = Z.to_nat n) as Hsz.
  { rewrite size_list_to_set by apply NoDup_seqZ. apply length_seqZ. }
  split.
  - exists (list_to_set (seqZ base n)). split; [lia|]. intros q Hq%elem_of_list_to_set%elem_of_seqZ. split; [lia|].
    simpl. rewrite free_frames_used by lia. zcases; lia || done.
  - intros (Y & HY & Hf). assert (Y ⊆ list_to_set (seqZ base n)) as Hsub.
    { intros q Hq. destruct (Hf q Hq) as [Hr Hu]. simpl in Hu. rewrite free_frames_used in Hu by lia.
      apply elem_of_list_to_set, elem_of_seqZ. apply negb_false_iff, andb_true_iff in Hu as [?%Z.leb_le ?%Z.ltb_lt]. lia. }
    apply subseteq_size in Hsub. lia.
Qed.

Lemma vmm_init_frames (s : vmm pmm) : v_frames (vmm_init s) = v_frames s.
Proof. unfold vmm_init. by destruct (negb _). Qed.

Lemma boot_vm_spare : spare 3 (v_frames (boot_vm 8)).
Proof. eapply spare_le; [|apply (free_frames_spare 512 8); unfold PMM_MAX_PAGES; lia]. lia. Qed.

Lemma boot_vm_pml4 : boot_roles !! vmm_pml4 (boot_vm 8) = Some (RPml4 (vmm_pml4 (boot_vm 8))).
Proof. vm_compute. reflexivity. Qed.

(** A user page at 256 MiB, in the middle of the identity map. *)
Lemma vmm_map_page_correct_witness :
  exists s', vmm_map_page (boot_vm 8) 268435456 2101248 7 = Ok s' /\
    vmm_get_phys s' 268435460 = 2101252 /\ Z.testbit (vmm_get_pte s' 268435460) 1 = true /\
    translate (v_mem s') 1048576 268439552 = translate boot_mem 1048576 268439552.
Proof.
  destruct (vmm_map_page_correct boot_roles (boot_vm 8) 268435456 2101248 7) as (s' & R' & E & _ & _ & _ & Hc);
    [exact boot_vm_ok|exact boot_vm_pml4|exact boot_vm_spare|lia|].
  exists s'. split; [exact E|]. clear E. destruct Hc as [(Hu & _)|[Hnew Hother]].
  - exfalso. vm_compute in Hu. discriminate.
  - destruct (Hnew 268435460) as [H1 H2]; [vm_compute; reflexivity|]. split_and!.
    + rewrite H1. vm_compute. reflexivity.
    + rewrite H2 by lia. reflexivity.
    + apply (Hother 1048576); [vm_compute; reflexivity|]. left. vm_compute. discriminate.
Defined.

(** Unmapping inside a 2 MiB page removes all of it. *)
Lemma vmm_unmap_page_correct_witness :
  vmm_get_phys (vmm_unmap_page (boot_vm 8) 4194304) 4198400 = 0 /\ vmm_get_phys (boot_vm 8) 4198400 = 4198400.
Proof.
  split; [|vm_compute; reflexivity].
  destruct (vmm_unmap_page_correct boot_roles (boot_vm 8) 4194304 boot_vm_ok boot_vm_pml4) as (_ & _ & Hg & _).
  apply Hg. vm_compute. reflexivity.
Defined.

Lemma boot_tlb_inv : tlb_inv boot_roles boot_roles (boot_vm 8).
Proof.
  split; [done|exact boot_vm_ok| |exact boot_vm_pml4|left; vm_compute; reflexivity|].
  - exists 1048576. split; vm_compute; reflexivity.
  - intros p f Hp. exfalso. vm_compute in Hp. discriminate.
Qed.

(** A translation is cached, then its page is unmapped. *)
Lemma vmm_tlb_coherence_witness :
  tlb_coherent (vmm_unmap_page (with_tlb (boot_vm 8) (<[1 := 4096]> ∅)) 4096) /\
  cpu_pml4 (vmm_switch_cr3 (vmm_unmap_page (with_tlb (boot_vm 8) (<[1 := 4096]> ∅)) 4096) 1048576) = 1048576.
Proof.
  destruct (vmm_tlb_coherence boot_roles boot_roles (boot_vm 8)
              (vmm_unmap_page (with_tlb (boot_vm 8) (<[1 := 4096]> ∅)) 4096) boot_tlb_inv) as [Hc Hr].
  - eapply rtc_l; [apply (step_cache boot_roles (boot_vm 8) 4096 4096); vm_compute; reflexivity|].
    eapply rtc_l; [|apply rtc_refl]. apply (step_unmap boot_roles). right. vm_compute. reflexivity.
  - split; [exact Hc|]. apply Hr. split; vm_compute; reflexivity.
Defined.

Lemma boot_vm_boot : boot_ok boot_roles (boot_vm 8).
Proof.
  split; [vm_compute; discriminate|vm_compute; reflexivity..|]. intros k Hk.
  assert (k = 0 \/ k = 1 \/ k = 2 \/ k = 3) as [->|[->|[->| ->]]] by lia; vm_compute; reflexivity.
Qed.

(** The root that creation returns, and the machine after it. *)
Definition created : Z * vmm pmm :=
  match vmm_create_address_space (boot_vm 8) with Ok x => x | _ => (0, boot_vm 8) end.

Lemma created_root : created.1 = 2097152.
Proof. vm_compute. reflexivity. Qed.

(** The first new space has its PML4 at 2 MiB and sees the identity map. *)
Lemma vmm_create_address_space_correct_witness :
  exists s', vmm_create_address_space (boot_vm 8) = Ok (2097152, s') /\ translate (v_mem s') 2097152 4096 = Some 4096.
Proof.
  destruct (vmm_create_address_space_correct boot_roles (boot_vm 8) boot_vm_ok boot_vm_boot) as (r & s' & E & _ & Hc).
  assert (r = 2097152) as ->.
  { rewrite <- created_root. unfold created. rewrite E. reflexivity. }
  exists s'. split; [exact E|]. clear E. destruct Hc as [[H0 _]|(R' & a & _ & _ & _ & [_ Hr] & Htr)]; [discriminate|].
  assert (a = 2097152) as -> by (rewrite <- Hr; vm_compute; reflexivity). rewrite Htr. vm_compute. reflexivity.
Defined.

Definition created_roles : gmap Z role :=
  space_roles boot_roles 2097152 2101248 (fun k => 2105344 + 4096 * k).

Lemma created_wf : frame_wf (v_frames created.2).
Proof.
  pose proof (create_cases boot_roles (boot_vm 8) boot_vm_ok boot_vm_boot) as Hc. unfold created. revert Hc.
  generalize (vmm_create_address_space (boot_vm 8)). intros x (r & s' & -> & Hc). cbn [snd].
  destruct Hc as [(_ & Hg & _)|(a & pdpt & L & s1 & Hb & Hrest)]; [apply (gr_takes _ _ _ _ Hg)|].
  change (vmm_la57 (boot_vm 8)) with false in Hrest. destruct Hrest as [_ ->].
  apply (gr_takes _ _ _ _ (bu_grown _ _ _ _ _ _ Hb)).
Qed.

Lemma created_ok : vm_ok created_roles created.2.
Proof.
  split.
  - apply tables_okb_sound. vm_compute. reflexivity.
  - exact created_wf.
  - apply roles_usedb_sound. vm_compute. reflexivity.
Qed.

(** The new space is destroyed again; its PML4 and one of its PDs are free. *)
Lemma vmm_destroy_address_space_correct_witness :
  let s' := vmm_destroy_address_space created.2 2097152 in
  frame_used (v_frames s') (2097152 / 4096) = false /\ frame_used (v_frames s') (2105344 / 4096) = false.
Proof.
  destruct (vmm_destroy_address_space_correct created_roles created.2 2097152 2097152 1048576 1048576)
    as (_ & _ & _ & Hex);
    [exact created_ok|split; vm_compute; reflexivity|vm_compute; reflexivity|vm_compute; reflexivity|
     split; vm_compute; reflexivity|discriminate|split; vm_compute; reflexivity|discriminate|].
  assert (private 0) as H0 by (vm_compute; reflexivity).
  assert (forall v n p, private v -> walks (v_mem created.2) 2097152 v n p -> 0 <= p / 4096 ->
    frame_used (v_frames (vmm_destroy_address_space created.2 2097152)) (p / 4096) = false) as Hfree.
  { intros v n p Hv Hw Hp. apply not_true_iff_false. intros Hu. apply (Hex _ Hp) in Hu as [_ Hn]. apply Hn.
    exists p. split; [left; by exists v, n|done]. }
  split.
  - refine (Hfree 0 3%nat 2097152 H0 (walks_top _ _ _) _). discriminate.
  - pose proof (walks_down (v_mem created.2) 2097152 0 2 2097152 (walks_top _ _ _)) as W2.
    pose proof (walks_down (v_mem created.2) 2097152 0 1 2101248) as W1.
    refine (Hfree 0 1%nat 2105344 H0 _ _); [|discriminate]. clear Hfree Hex.
    replace 2105344 with (entry_addr (ent (v_mem created.2) 2101248 (idx 2 0))) by (vm_compute; reflexivity).
    apply W1; [|vm_compute; reflexivity|vm_compute; reflexivity].
    replace 2101248 with (entry_addr (ent (v_mem created.2) 2097152 (idx 3 0))) by (vm_compute; reflexivity).
    apply W2; vm_compute; reflexivity.
Defined.

(** ** Two departures from what the comments promise *)

(** The same machine with five-level paging: CR3 names a PML5 at 1056 KiB. *)
Definition boot57_vm (n : Z) : vmm pmm :=
  vmm_init (mk_vmm (set_ent boot_mem 1081344 0 (1048576 + 7)) (boot_frames n) 0 false 0 0 0 0 1081344 4096 0 ∅).

Definition boot57_roles : gmap Z role := <[1081344 := RRoot 1048576]> boot_roles.

Lemma boot57_ok : vm_ok boot57_roles (boot57_vm 6).
Proof.
  split.
  - apply tables_okb_sound. vm_compute. reflexivity.
  - split; [apply free_frames_wf; lia|]. vm_compute. reflexivity.
  - apply roles_usedb_sound. vm_compute. reflexivity.
Qed.

Lemma boot57_boot : boot_ok boot57_roles (boot57_vm 6).
Proof.
  split; [vm_compute; discriminate|vm_compute; reflexivity..|]. intros k Hk.
  assert (k = 0 \/ k = 1 \/ k = 2 \/ k = 3) as [->|[->|[->| ->]]] by lia; vm_compute; reflexivity.
Qed.

Lemma boot57_spare : spare 6 (v_frames (boot57_vm 6)) /\ ~ spare 7 (v_frames (boot57_vm 6)).
Proof. unfold boot57_vm. rewrite vmm_init_frames. apply (free_frames_spare 512 6); unfold PMM_MAX_PAGES; lia. Qed.

Lemma boot57_la57 : vmm_la57 (boot57_vm 6) = true.
Proof. vm_compute. reflexivity. Qed.

Lemma vmm_create_leaks_pds_witness :
  exists s' X, vmm_create_address_space (boot57_vm 6) = Ok (0, s') /\ size X = 4%nat /\
    takes (v_frames (boot57_vm 6)) X (v_frames s').
Proof.
  exact (vmm_create_leaks_pds boot57_roles (boot57_vm 6) boot57_ok boot57_boot boot57_la57
           (proj1 boot57_spare) (proj2 boot57_spare)).
Defined.

(** A user mapping that creates its PD loses the user bit of the PDPT
    entry: the bit is set before the entry is filled in, so the page cannot
    be reached from user mode. *)
Theorem vmm_map_page_drops_user :
  match vmm_map_page (boot_vm 8) 8589934592 2101248 7 with
  | Ok s' => vmm_get_phys s' 8589934592 = 2101248 /\
      let e3 := ent (v_mem s') 1052672 (pdpti 8589934592) in present e3 = true /\ user e3 = false
  | _ => False
  end.
Proof. vm_compute. repeat split. Qed.
