(* ===== verification/Uvm.v ===== *)
(** * User memory: regions, ranges, user copies, fork

    src/src/kernel/core/uvm.c over the page-table code of Vmm.v, the memory
    group of a process (src/include/core/process.h and the [mm_] functions of
    src/src/kernel/core/process.c) and the memory system calls of
    src/src/kernel/core/syscall_lnx.c. Log output is left out. *)

From S2P Require Import Prelude Pmm Vmm.

(** ** Bytes of physical memory

    Memory is kept by 64-bit little-endian words; these are its bytes. *)

Definition rd8 (m : pmem) (a : Z) : Z :=
  Z.land (Z.shiftr (rd64 m (a - a mod 8)) (8 * (a mod 8))) 255.

Definition wr8 (m : pmem) (a b : Z) : pmem :=
  let w := rd64 m (a - a mod 8) in
  let k := 8 * (a mod 8) in
  wr64 m (a - a mod 8) (Z.lor (Z.ldiff w (Z.shiftl 255 k)) (Z.shiftl b k)).

Definition get_bytes (m : pmem) (a : Z) (n : nat) : list Z :=
  (fun i => rd8 m (a + i)) <$> seqZ 0 (Z.of_nat n).

(** [memcpy((void* )a, bs, n)] *)
Fixpoint put_bytes (m : pmem) (a : Z) (bs : list Z) : pmem :=
  match bs with
  | [] => m
  | b :: bs => put_bytes (wr8 m a b) (a + 1) bs
  end.

(** [memcpy] of a whole page. *)
Definition copy_page (dst src : Z) (m : pmem) : res pmem := fill_table dst (fun m i => ent m src i) m.

(** ** Protections and pages *)

Definition UVM_PROT_READ : Z := 1.
Definition UVM_PROT_WRITE : Z := 2.
Definition UVM_PROT_EXEC : Z := 4.

Definition UVM_ELF_BASE : Z := 268435456.     (* 0x10000000 *)
Definition UVM_BRK_LIMIT : Z := 385875968.    (* 0x17000000 *)
Definition UVM_MMAP_BASE : Z := 402653184.    (* 0x18000000 *)
Definition UVM_MMAP_LIMIT : Z := 2130706432.  (* 0x7F000000 *)

Definition prot_to_pte (prot : Z) : Z :=
  let f := Z.lor VMM_PRESENT VMM_USER in
  let f := if truthy (Z.land prot UVM_PROT_WRITE) then Z.lor f VMM_WRITABLE else f in
  if negb (truthy (Z.land prot UVM_PROT_EXEC)) then Z.lor f VMM_NX else f.

Definition pte_to_prot (pte : Z) : Z :=
  let p := UVM_PROT_READ in
  let p := if truthy (Z.land pte VMM_WRITABLE) then Z.lor p UVM_PROT_WRITE else p in
  if negb (truthy (Z.land pte VMM_NX)) then Z.lor p UVM_PROT_EXEC else p.

Definition page_down (a : Z) : Z := Z.land a PAGE_MASK.
Definition page_up (a : Z) : Z := Z.land (u64 (a + 4095)) PAGE_MASK.

(** The values of [v] in [for (v = s; v < e; v += PAGE_SIZE)]. With [e] a page
    address the addition does not wrap. *)
Definition pages (s e : Z) : list Z := (fun k => s + PAGE_SIZE * k) <$> seqZ 0 ((e - s + 4095) / PAGE_SIZE).

(** ** The memory group of a process *)

Record vm_region : Type := mk_region { r_used : bool; r_start : Z; r_end : Z; r_prot : Z }.

Record mm_t : Type := mk_mm {
  mm_refs : Z;
  mm_cr3 : Z;
  mm_regions : list vm_region;
  mm_brk_start : Z;
  mm_brk_cur : Z;
  mm_mmap_top : Z
}.

Definition MAX_VM_REGIONS : nat := 24.

Definition with_regions (mm : mm_t) (rs : list vm_region) : mm_t :=
  mk_mm (mm_refs mm) (mm_cr3 mm) rs (mm_brk_start mm) (mm_brk_cur mm) (mm_mmap_top mm).
Definition with_top (mm : mm_t) (top : Z) : mm_t :=
  mk_mm (mm_refs mm) (mm_cr3 mm) (mm_regions mm) (mm_brk_start mm) (mm_brk_cur mm) top.
Definition with_brk (mm : mm_t) (brk : Z) : mm_t :=
  mk_mm (mm_refs mm) (mm_cr3 mm) (mm_regions mm) (mm_brk_start mm) brk (mm_mmap_top mm).
Definition with_refs (mm : mm_t) (n : Z) : mm_t :=
  mk_mm n (mm_cr3 mm) (mm_regions mm) (mm_brk_start mm) (mm_brk_cur mm) (mm_mmap_top mm).
Definition with_cursors (mm : mm_t) (start cur top : Z) : mm_t :=
  mk_mm (mm_refs mm) (mm_cr3 mm) (mm_regions mm) start cur top.

(** Apply [f] to the first region it is defined on. *)
Fixpoint first_region (f : vm_region -> option vm_region) (rs : list vm_region) : option (list vm_region) :=
  match rs with
  | [] => None
  | r :: rs => match f r with
               | Some r' => Some (r' :: rs)
               | None => cons r <$> first_region f rs
               end
  end.

Definition extend_region (start end_ prot : Z) (r : vm_region) : option vm_region :=
  if negb (r_used r) || (r_end r <? start) || (end_ <? r_start r) then None
  else if negb (r_prot r =? prot) then None
  else Some (mk_region true (if start <? r_start r then start else r_start r)
               (if r_end r <? end_ then end_ else r_end r) (r_prot r)).

Definition claim_region (r' r : vm_region) : option vm_region := if r_used r then None else Some r'.

Definition region_commit (mm : mm_t) (start end_ prot : Z) : mm_t :=
  match first_region (extend_region start end_ prot) (mm_regions mm) with
  | Some rs => with_regions mm rs
  | None =>
      match first_region (claim_region (mk_region true start end_ prot)) (mm_regions mm) with
      | Some rs => with_regions mm rs
      | None => mm
      end
  end.

(** What [uvm_unmap_range] does to one region. *)
Definition cut_region (s e : Z) (r : vm_region) : vm_region :=
  if negb (r_used r) || (r_end r <=? s) || (e <=? r_start r) then r
  else if (s <=? r_start r) && (r_end r <=? e) then mk_region false (r_start r) (r_end r) (r_prot r)
  else if r_start r <? s then mk_region (r_used r) (r_start r) s (r_prot r)
  else mk_region (r_used r) e (r_end r) (r_prot r).

(** What [uvm_change_prot] does to one region. *)
Definition reprotect_region (s e prot : Z) (r : vm_region) : vm_region :=
  if negb (r_used r) || (r_end r <=? s) || (e <=? r_start r) then r
  else mk_region (r_used r) (r_start r) (r_end r) prot.

(** Some used region has [a] inside. *)
Definition in_regions (mm : mm_t) (a : Z) : bool :=
  existsb (fun r => r_used r && (r_start r <=? a) && (a <? r_end r)) (mm_regions mm).

Section uvm.
Context {A : Type} `{FrameAlloc A}.
Implicit Types s : vmm A.

(** ** Address-space targeting *)

Definition uvm_enter s (mm : mm_t) : Z * vmm A :=
  (vmm_current_root s, if truthy (mm_cr3 mm) then vmm_set_root_ptr s (mm_cr3 mm) else s).

Definition uvm_leave s (old : Z) : vmm A := vmm_set_root_ptr s old.

(** ** Copies to and from user addresses *)

Fixpoint write_chunks (fuel : nat) s (dst : Z) (src : list Z) : res (vmm A) :=
  match fuel with
  | O => Timeout
  | S fuel =>
      if zlen src =? 0 then Ok s
      else
        let page := page_down dst in
        let phys := vmm_get_phys s page in
        if phys =? 0 then Ok s
        else
          let off := dst - page in
          let chunk := Z.to_nat (Z.min (PAGE_SIZE - off) (zlen src)) in
          write_chunks fuel (with_mem s (put_bytes (v_mem s) (phys + off) (take chunk src)))
            (u64 (dst + Z.of_nat chunk)) (drop chunk src)
  end.

Definition uvm_write_user_va s (mm : mm_t) (dst_va : Z) (src : list Z) : res (vmm A) :=
  let '(old, s) := uvm_enter s mm in
  s ← write_chunks (S (length src)) s dst_va src;
  Ok (uvm_leave s old).

(** The result is the destination buffer, of [len] bytes before the call. *)
Fixpoint read_chunks (fuel : nat) s (dst : list Z) (src : Z) : res (list Z) :=
  match fuel with
  | O => Timeout
  | S fuel =>
      if zlen dst =? 0 then Ok []
      else
        let page := page_down src in
        let phys := vmm_get_phys s page in
        if phys =? 0 then Ok dst
        else
          let off := src - page in
          let chunk := Z.to_nat (Z.min (PAGE_SIZE - off) (zlen dst)) in
          rest ← read_chunks fuel s (drop chunk dst) (u64 (src + Z.of_nat chunk));
          Ok (get_bytes (v_mem s) (phys + off) chunk ++ rest)
  end.

Definition uvm_read_user_va s (mm : mm_t) (dst : list Z) (src_va : Z) : res (list Z * vmm A) :=
  let '(old, s) := uvm_enter s mm in
  d ← read_chunks (S (length dst)) s dst src_va;
  Ok (d, uvm_leave s old).

(** ** Ranges *)

(** Unmap a page and give its frame back, if it is mapped. *)
Definition unmap_one s (v : Z) : vmm A :=
  let phys := vmm_get_phys s v in
  if truthy phys then free_page (vmm_unmap_page s v) (Z.land phys PAGE_MASK) else s.

Definition unmap_pages s (vs : list Z) : vmm A := fold_left unmap_one vs s.

(** One page of [uvm_map_range]; [inr s] when no frame is left. *)
Definition map_one s (prot v : Z) : res (vmm A + vmm A) :=
  let pte := vmm_get_pte s v in
  if present pte && user pte then
    let merged := Z.lor (pte_to_prot pte) prot in
    s ← vmm_map_page s v (Z.land pte PAGE_MASK) (prot_to_pte merged);
    Ok (inl s)
  else
    let '(phys, fr) := frame_alloc (v_frames s) in
    if phys =? 0 then Ok (inr (with_frames s fr))
    else
      s ← vmm_map_page (with_frames s fr) v phys (prot_to_pte prot);
      m ← zero_page phys (v_mem s);
      Ok (inl (with_mem s m)).

(** The page loop; [first] is where it started, for the roll-back. *)
Fixpoint map_pages s (prot first : Z) (vs : list Z) : res (bool * vmm A) :=
  match vs with
  | [] => Ok (true, s)
  | v :: vs =>
      r ← map_one s prot v;
      match r with
      | inl s => map_pages s prot first vs
      | inr s => Ok (false, unmap_pages s (pages first v))
      end
  end.

Definition uvm_map_range s (mm : mm_t) (start end_ prot : Z) : res (Z * vmm A * mm_t) :=
  if end_ <=? start then Ok (-1, s, mm)
  else
    let '(old, s) := uvm_enter s mm in
    let lo := page_down start in
    let hi := page_up end_ in
    '(ok, s) ← map_pages s prot lo (pages lo hi);
    if ok : bool then Ok (0, uvm_leave s old, region_commit mm lo hi prot)
    else Ok (-1, uvm_leave s old, mm).

Definition uvm_unmap_range s (mm : mm_t) (start end_ : Z) : vmm A * mm_t :=
  let '(old, s) := uvm_enter s mm in
  let lo := page_down start in
  let hi := page_up end_ in
  let s := uvm_leave (unmap_pages s (pages lo hi)) old in
  (s, with_regions mm (cut_region lo hi <$> mm_regions mm)).

Definition uvm_check_range s (proc : option mm_t) (uaddr len : Z) : bool :=
  match proc with
  | None => false
  | Some mm =>
      if len =? 0 then true
      else if u64 (uaddr + len) <? uaddr then false
      else forallb (fun a => in_regions mm a && truthy (vmm_get_phys s a))
             (pages (page_down uaddr) (u64 (uaddr + len)))
  end.

Definition reprotect_one (prot : Z) s (v : Z) : res (vmm A) :=
  let phys := vmm_get_phys s v in
  if phys =? 0 then Ok s else vmm_map_page s v (Z.land phys PAGE_MASK) (prot_to_pte prot).

Fixpoint reprotect_pages s (prot : Z) (vs : list Z) : res (vmm A) :=
  match vs with
  | [] => Ok s
  | v :: vs => s ← reprotect_one prot s v; reprotect_pages s prot vs
  end.

Definition uvm_change_prot s (mm : mm_t) (start end_ prot : Z) : res (Z * vmm A * mm_t) :=
  let lo := page_down start in
  let hi := page_up end_ in
  if negb (uvm_check_range s (Some mm) lo (u64 (hi - lo))) then Ok (-1, s, mm)
  else
    let '(old, s) := uvm_enter s mm in
    s ← reprotect_pages s prot (pages lo hi);
    Ok (0, uvm_leave s old, with_regions mm (reprotect_region lo hi prot <$> mm_regions mm)).

(** Zero stands for failure. *)
Definition uvm_mmap_anon s (mm : mm_t) (hint len prot : Z) (fixed : bool) : res (Z * vmm A * mm_t) :=
  let plen := page_up len in
  if fixed then
    let lo := page_down hint in
    if (lo <? UVM_ELF_BASE) || (UVM_MMAP_LIMIT <? u64 (lo + plen)) then Ok (0, s, mm)
    else
      let '(s, mm) := uvm_unmap_range s mm lo (u64 (lo + plen)) in
      '(rc, s, mm) ← uvm_map_range s mm lo (u64 (lo + plen)) prot;
      Ok (if truthy rc then 0 else lo, s, mm)
  else
    let mm := if mm_mmap_top mm <? UVM_MMAP_BASE then with_top mm UVM_MMAP_BASE else mm in
    let lo := page_up (mm_mmap_top mm) in
    if UVM_MMAP_LIMIT <? u64 (lo + plen) then Ok (0, s, mm)
    else
      '(rc, s, mm) ← uvm_map_range s mm lo (u64 (lo + plen)) prot;
      if truthy rc then Ok (0, s, mm) else Ok (lo, s, with_top mm (u64 (lo + plen))).

(** ** Teardown and fork *)

Definition release_region s (r : vm_region) : vmm A :=
  if r_used r then unmap_pages s (pages (r_start r) (r_end r)) else s.

Definition uvm_release_mm s (mm : mm_t) : vmm A * mm_t :=
  let old := vmm_current_root s in
  let s := if truthy (mm_cr3 mm) then vmm_set_root_ptr s (mm_cr3 mm) else s in
  let s := fold_left release_region (mm_regions mm) s in
  (vmm_set_root_ptr s old,
   with_cursors (with_regions mm ((fun r => mk_region false (r_start r) (r_end r) (r_prot r)) <$> mm_regions mm)) 0 0 0).

(** One page of [uvm_fork]; [inr s] when no frame is left. *)
Definition fork_page (pmm cmm : mm_t) s (v : Z) : res (vmm A + vmm A) :=
  let pte := vmm_get_pte s v in
  if negb (present pte) then Ok (inl s)
  else
    let pphys := Z.land pte PHYS_MASK in
    let '(cphys, fr) := frame_alloc (v_frames s) in
    if cphys =? 0 then Ok (inr (with_frames s fr))
    else
      m ← copy_page cphys pphys (v_mem s);
      let s := vmm_set_root_ptr (with_mem (with_frames s fr) m) (mm_cr3 cmm) in
      s ← vmm_map_page s v cphys (Z.land pte 4095);
      Ok (inl (vmm_set_root_ptr s (mm_cr3 pmm))).

Fixpoint fork_pages (pmm cmm : mm_t) s (vs : list Z) : res (vmm A + vmm A) :=
  match vs with
  | [] => Ok (inl s)
  | v :: vs =>
      r ← fork_page pmm cmm s v;
      match r with
      | inl s => fork_pages pmm cmm s vs
      | inr s => Ok (inr s)
      end
  end.

(** The region loop; [rs] are the parent's regions still to copy. *)
Fixpoint fork_regions (pmm cmm : mm_t) s (rs : list vm_region) : res (bool * vmm A * mm_t) :=
  match rs with
  | [] => Ok (true, s, cmm)
  | r :: rs =>
      if r_used r then
        w ← fork_pages pmm cmm s (pages (r_start r) (r_end r));
        match w with
        | inr s => Ok (false, s, cmm)
        | inl s =>
            match first_region (claim_region r) (mm_regions cmm) with
            | None => Ok (false, s, cmm)
            | Some crs => fork_regions pmm (with_regions cmm crs) s rs
            end
        end
      else fork_regions pmm cmm s rs
  end.

Definition uvm_fork s (pmm cmm : mm_t) : res (Z * vmm A * mm_t) :=
  let '(old, s) := uvm_enter s pmm in
  '(ok, s, cmm) ← fork_regions pmm cmm s (mm_regions pmm);
  let s := uvm_leave s old in
  if ok : bool then Ok (0, s, with_cursors cmm (mm_brk_start pmm) (mm_brk_cur pmm) (mm_mmap_top pmm))
  else let '(s, cmm) := uvm_release_mm s cmm in Ok (-1, s, cmm).

(** ** Reference-counted memory groups

    [fresh] tells whether [kmalloc] finds room for the record. *)

Definition mm_new s (fresh : bool) : res (option mm_t * vmm A) :=
  if fresh then
    '(cr3, s) ← vmm_create_address_space s;
    if cr3 =? 0 then Ok (None, s)
    else Ok (Some (mk_mm 1 cr3 (replicate MAX_VM_REGIONS (mk_region false 0 0 0)) 0 0 0), s)
  else Ok (None, s).

Definition mm_get (mm : mm_t) : mm_t := with_refs mm (mm_refs mm + 1).

(** [None] once the record has been freed. *)
Definition mm_put s (mm : mm_t) : option mm_t * vmm A :=
  let mm := with_refs mm (mm_refs mm - 1) in
  if 0 <? mm_refs mm then (Some mm, s)
  else
    let '(s, mm) := uvm_release_mm s mm in
    (None, vmm_destroy_address_space s (mm_cr3 mm)).

(** ** Memory system calls *)

Definition L_EIO : Z := 5.
Definition L_EBADF : Z := 9.
Definition LNX_MAP_FIXED : Z := 16.
Definition LNX_MAP_ANONYMOUS : Z := 32.

(** The result register of a failing call. *)
Definition err (e : Z) : Z := u64 (- e).

Definition prot_of (prot : Z) : Z :=
  let p := 0 in
  let p := if truthy (Z.land prot 1) then Z.lor p UVM_PROT_READ else p in
  let p := if truthy (Z.land prot 2) then Z.lor p UVM_PROT_WRITE else p in
  if truthy (Z.land prot 4) then Z.lor p UVM_PROT_EXEC else p.

(** [proc] is the memory group of the current process, [None] when there is
    no current process (in [sc_brk], or none with a memory group). *)

Definition sc_munmap s (proc : option mm_t) (addr len : Z) : Z * vmm A * option mm_t :=
  match proc with
  | None => (err L_EINVAL, s, proc)
  | Some mm =>
      if len =? 0 then (err L_EINVAL, s, proc)
      else if truthy (Z.land addr 4095) then (err L_EINVAL, s, proc)
      else let '(s, mm) := uvm_unmap_range s mm addr (u64 (addr + len)) in (0, s, Some mm)
  end.

Definition sc_mprotect s (proc : option mm_t) (addr len prot : Z) : res (Z * vmm A * option mm_t) :=
  match proc with
  | None => Ok (err L_EINVAL, s, proc)
  | Some mm =>
      if len =? 0 then Ok (0, s, proc)
      else if truthy (Z.land addr 4095) then Ok (err L_EINVAL, s, proc)
      else if truthy (Z.land prot (2 ^ 64 - 2 ^ 3)) then Ok (err L_EINVAL, s, proc)
      else
        '(rc, s, mm) ← uvm_change_prot s mm addr (u64 (addr + len)) (prot_of prot);
        Ok (if truthy rc then err L_ENOMEM else 0, s, Some mm)
  end.

Definition sc_brk s (proc : option mm_t) (addr : Z) : res (Z * vmm A * option mm_t) :=
  match proc with
  | None => Ok (err L_ENOMEM, s, proc)
  | Some mm =>
      if mm_brk_start mm =? 0 then Ok (err L_ENOMEM, s, proc)
      else if (addr =? 0) || (addr <? mm_brk_start mm) || (UVM_BRK_LIMIT <? addr) then Ok (mm_brk_cur mm, s, proc)
      else if mm_brk_cur mm <? addr then
        '(rc, s, mm) ← uvm_map_range s mm (mm_brk_cur mm) addr (Z.lor UVM_PROT_READ UVM_PROT_WRITE);
        if truthy rc then Ok (mm_brk_cur mm, s, Some mm) else Ok (addr, s, Some (with_brk mm addr))
      else if addr <? mm_brk_cur mm then
        let '(s, mm) := uvm_unmap_range s mm addr (mm_brk_cur mm) in Ok (addr, s, Some (with_brk mm addr))
      else Ok (addr, s, Some (with_brk mm addr))
  end.

(** ** File-backed mappings

    What [sc_mmap] asks of the file layer: whether a descriptor is an open VFS
    file, its size, and a read of [n] bytes at a position, which returns its
    result code and the bytes it put in the buffer. *)
Class VfsRead := {
  fd_is_vfs : Z -> bool;
  lnxvfs_filesize : Z -> Z;
  lnxvfs_pread : Z -> Z -> Z -> Z * list Z
}.

Context `{VfsRead}.

(** The copy loop, from [done] on: the result code, or [None] at the end. *)
Fixpoint mmap_fill (fuel : nat) s (mm : mm_t) (va fd off len fsize done : Z) : res (option Z * vmm A) :=
  match fuel with
  | O => Timeout
  | S fuel =>
      if negb (done <? len) then Ok (None, s)
      else
        let pos := u64 (off + done) in
        let n := if len - done <? 1024 then len - done else 1024 in
        if u64 fsize <=? pos then Ok (None, s)
        else
          let n := if u64 fsize - pos <? n then u64 fsize - pos else n in
          let '(r, chunk) := lnxvfs_pread fd n pos in
          if r <=? 0 then Ok (Some (err L_EIO), s)
          else
            s ← uvm_write_user_va s mm (u64 (va + done)) (take (Z.to_nat r) chunk);
            mmap_fill fuel s mm va fd off len fsize (u64 (done + r))
  end.

Definition sc_mmap s (proc : option mm_t) (addr len prot flags fd off : Z) : res (Z * vmm A * option mm_t) :=
  match proc with
  | None => Ok (err L_ENOMEM, s, proc)
  | Some mm =>
      let is_file := negb (truthy (Z.land flags LNX_MAP_ANONYMOUS)) in
      if len =? 0 then Ok (err L_EINVAL, s, proc)
      else if UVM_MMAP_LIMIT - UVM_MMAP_BASE <? len then Ok (err L_ENOMEM, s, proc)
      else if truthy (Z.land prot (2 ^ 64 - 2 ^ 3)) then Ok (err L_EINVAL, s, proc)
      else if is_file && truthy (Z.land off 4095) then Ok (err L_EINVAL, s, proc)
      else if is_file && negb (fd_is_vfs (s32 fd)) then Ok (err L_EBADF, s, proc)
      else
        '(va, s, mm) ← uvm_mmap_anon s mm addr len (prot_of prot) (truthy (Z.land flags LNX_MAP_FIXED));
        if va =? 0 then Ok (err L_ENOMEM, s, Some mm)
        else if is_file then
          let fsize := lnxvfs_filesize (s32 fd) in
          if fsize <? 0 then Ok (err L_EBADF, s, Some mm)
          else
            '(rc, s) ← mmap_fill (S (Z.to_nat len)) s mm va (s32 fd) off len fsize 0;
            Ok (default va rc, s, Some mm)
        else Ok (va, s, Some mm)
  end.
End uvm.
