(* ===== verification/UserMemory.v ===== *)
(** * Correctness of the user-memory operations

    What the operations of Uvm.v do to the user mappings of every address
    space, to the frames behind them and to the bytes in these frames. *)

From S2P Require Import Prelude Pmm Vmm PageTables AddressSpaces Uvm.

(** ** Pages of a range *)

Definition aligned (a : Z) : Prop := a mod 4096 = 0.

Lemma elem_of_pages lo hi v :
  aligned lo -> aligned hi -> v ∈ pages lo hi <-> aligned v /\ lo <= v < hi.
Proof.
  unfold aligned, pages, PAGE_SIZE. intros Hlo Hhi. rewrite list_elem_of_fmap. setoid_rewrite elem_of_seqZ. split.
  - intros (k & -> & Hk). mlia.
  - intros [Hv Hr]. exists ((v - lo) / 4096). mlia.
Qed.

Lemma length_pages lo hi : aligned lo -> aligned hi -> length (pages lo hi) = Z.to_nat ((hi - lo) / 4096).
Proof.
  unfold aligned, pages, PAGE_SIZE. intros Hlo Hhi. rewrite length_fmap, length_seqZ. f_equal. mlia.
Qed.

Lemma vpn_low v : 0 <= v < 4294967296 -> vpn v = v / 4096.
Proof. intros. unfold vpn. change (2 ^ 36) with 68719476736. mlia. Qed.

Lemma private_low v : 0 <= v < 4294967296 -> private v.
Proof. intros. unfold private. rewrite vpn_low by done. change (2 ^ 20) with 1048576. mlia. Qed.

(** The pages of a range below 4 GiB are distinct and private. *)
Lemma pages_vpn lo hi : aligned lo -> aligned hi -> 0 <= lo -> hi <= 4294967296 -> NoDup (vpn <$> pages lo hi).
Proof.
  intros Hlo Hhi H0 H4. unfold pages. rewrite <- list_fmap_compose. apply NoDup_fmap_2_strong; [|apply NoDup_seqZ].
  intros x y Hx%elem_of_seqZ Hy%elem_of_seqZ. unfold compose, PAGE_SIZE, aligned in *. rewrite !vpn_low by mlia. mlia.
Qed.

Lemma pages_private lo hi : aligned lo -> aligned hi -> 0 <= lo -> hi <= 4294967296 -> Forall private (pages lo hi).
Proof.
  intros Hlo Hhi H0 H4. apply list.Forall_forall. intros v [_ Hv]%elem_of_pages; [|done..]. apply private_low. lia.
Qed.

Lemma page_down_spec a : 0 <= a < 2 ^ 64 -> page_down a = a - a mod 4096.
Proof. intros Ha. unfold page_down, PAGE_MASK. by apply (land_align 64 12). Qed.

Lemma page_up_spec a : 0 <= a <= 2 ^ 64 - 4096 -> page_up a = a + (- a) mod 4096.
Proof.
  intros Ha. unfold page_up, u64. rewrite Z.mod_small by lia. unfold PAGE_MASK.
  rewrite (land_align 64 12) by lia. change (2 ^ 12) with 4096. mlia.
Qed.

(** ** Regions *)

Lemma first_region_Some f rs rs' :
  first_region f rs = Some rs' ->
  exists l r r' k, rs = l ++ r :: k /\ f r = Some r' /\ rs' = l ++ r' :: k.
Proof.
  revert rs'. induction rs as [|r rs IH]; intros rs' H; simpl in H; [done|].
  destruct (f r) as [r'|] eqn:E; simplify_eq; [by exists [], r, r', rs|].
  destruct (first_region f rs) as [k|]; simplify_eq/=. destruct (IH k eq_refl) as (l & x & x' & k' & -> & Hx & ->).
  by exists (r :: l), x, x', k'.
Qed.

Definition region_holds (r : vm_region) (a : Z) : bool := r_used r && (r_start r <=? a) && (a <? r_end r).

Lemma in_regions_app l r k u mm :
  in_regions (with_regions mm (l ++ r :: k)) u =
  in_regions (with_regions mm l) u || region_holds r u || in_regions (with_regions mm k) u.
Proof. unfold in_regions. simpl. rewrite existsb_app. simpl. by rewrite orb_assoc. Qed.

Lemma with_regions_id mm : with_regions mm (mm_regions mm) = mm.
Proof. by destruct mm. Qed.

(** Committing a range adds exactly the range to the regions, or nothing when
    all of them are in use. *)
Lemma region_commit_spec mm lo hi prot :
  lo < hi ->
  (forall u, in_regions (region_commit mm lo hi prot) u = in_regions mm u || (lo <=? u) && (u <? hi)) \/
  (region_commit mm lo hi prot = mm /\ Forall (fun r => r_used r = true) (mm_regions mm)).
Proof.
  intros Hlt. unfold region_commit.
  destruct (first_region (extend_region lo hi prot) (mm_regions mm)) as [rs|] eqn:E1.
  - left. intros u. destruct (first_region_Some _ _ _ E1) as (l & r & r' & k & Hrs & Hr & ->).
    rewrite <- (with_regions_id mm) at 2. rewrite Hrs, !in_regions_app.
    enough (region_holds r' u = region_holds r u || (lo <=? u) && (u <? hi)) as -> by by destruct (in_regions _ _), (region_holds _ _), (_ && _), (in_regions _ _).
    unfold extend_region in Hr. destruct (r_used r) eqn:Eu; [|done]. cbn [negb orb] in Hr. revert Hr.
    destruct (Z.ltb_spec (r_end r) lo); [done|]. destruct (Z.ltb_spec hi (r_start r)); [done|]. cbn [orb].
    destruct (negb _); [done|]. intros [= <-]. unfold region_holds. cbn [r_used r_start r_end]. rewrite Eu. cbn [andb].
    destruct (Z.ltb_spec lo (r_start r)), (Z.ltb_spec (r_end r) hi); zcases; done.
  - destruct (first_region (claim_region _) (mm_regions mm)) as [rs|] eqn:E2.
    + left. intros u. destruct (first_region_Some _ _ _ E2) as (l & r & r' & k & Hrs & Hr & ->).
      rewrite <- (with_regions_id mm) at 2. rewrite Hrs, !in_regions_app. unfold claim_region in Hr.
      destruct (r_used r) eqn:Eu; [done|]. injection Hr as <-. unfold region_holds at 1 2. cbn [r_used r_start r_end]. rewrite Eu. cbn [andb].
      by destruct (in_regions _ _), (_ && _), (in_regions _ _).
    + right. split; [done|]. clear E1. induction (mm_regions mm) as [|r rs IH]; [done|]. simpl in E2. unfold claim_region in E2 at 1.
      destruct (r_used r) eqn:Eu; [|done]. constructor; [done|]. apply IH. by destruct (first_region _ rs).
Qed.

(** ** Bytes *)

Lemma byte_bits b k : is_byte b -> Z.testbit b k = (0 <=? k) && (k <? 8) && Z.testbit b k.
Proof.
  intros Hb. destruct (Z.leb_spec 0 k), (Z.ltb_spec k 8); cbn [andb]; try done; [apply (small_bits b 8); unfold is_byte in Hb; lia|..];
    by rewrite Z.testbit_neg_r by lia.
Qed.

Lemma rd8_bits m a k :
  0 <= k -> Z.testbit (rd8 m a) k = (k <? 8) && Z.testbit (rd64 m (a - a mod 8)) (k + 8 * (a mod 8)).
Proof.
  intros Hk. unfold rd8. rewrite Z.land_spec. change 255 with (2 ^ 8 - 2 ^ 0). rewrite mask_bits by lia.
  rewrite Z.shiftr_spec by mlia. zcases; by rewrite ?andb_true_r, ?andb_false_r.
Qed.

Lemma wr8_word m a b k :
  is_byte b -> 0 <= k ->
  Z.testbit (rd64 (wr8 m a b) (a - a mod 8)) k =
    if (8 * (a mod 8) <=? k) && (k <? 8 * (a mod 8) + 8) then Z.testbit b (k - 8 * (a mod 8))
    else Z.testbit (rd64 m (a - a mod 8)) k.
Proof.
  intros Hb Hk. unfold wr8, rd64 at 1, wr64. rewrite lookup_insert_eq. cbn [default from_option id].
  rewrite Z.lor_spec, Z.ldiff_spec, !Z.shiftl_spec by done. rewrite (byte_bits b _ Hb).
  change 255 with (2 ^ 8 - 2 ^ 0).
  destruct (Z.leb_spec (8 * (a mod 8)) k).
  - rewrite mask_bits by lia. destruct (Z.ltb_spec k (8 * (a mod 8) + 8)); cbn [andb].
    + rewrite (proj2 (Z.leb_le _ _)), (proj2 (Z.ltb_lt _ _)) by lia. cbn [andb negb]. by rewrite andb_false_r.
    + rewrite (proj2 (Z.ltb_ge _ _)) by lia. by rewrite andb_false_r, orb_false_r, andb_true_r.
  - rewrite (Z.testbit_neg_r (2 ^ 8 - 2 ^ 0)) by lia. rewrite (proj2 (Z.leb_gt _ _)) by lia. cbn [andb negb].
    by rewrite andb_true_r, orb_false_r.
Qed.

Lemma rd64_wr8_ne m a b x : x <> a - a mod 8 -> rd64 (wr8 m a b) x = rd64 m x.
Proof. intros Hx. unfold wr8, rd64, wr64. by rewrite lookup_insert_ne. Qed.

Lemma rd8_wr8 m a b x : is_byte b -> rd8 (wr8 m a b) x = if x =? a then b else rd8 m x.
Proof.
  intros Hb. apply Z.bits_inj'. intros k Hk. rewrite rd8_bits by done.
  destruct (decide (x - x mod 8 = a - a mod 8)) as [E|E].
  - rewrite E, wr8_word by (done || mlia). destruct (Z.eqb_spec x a) as [->|Hne].
    + rewrite (byte_bits b k Hb), (proj2 (Z.leb_le 0 k)) by done. destruct (Z.ltb_spec k 8); cbn [andb]; [|done].
      rewrite (proj2 (Z.leb_le _ _)), (proj2 (Z.ltb_lt _ _)) by lia. cbn [andb]. f_equal. lia.
    + rewrite rd8_bits, E by done. destruct (Z.ltb_spec k 8); cbn [andb]; [|done].
      destruct (Z.leb_spec (8 * (a mod 8)) (k + 8 * (x mod 8))), (Z.ltb_spec (k + 8 * (x mod 8)) (8 * (a mod 8) + 8)); cbn [andb]; try done.
      exfalso. mlia.
  - rewrite rd64_wr8_ne by done. destruct (Z.eqb_spec x a) as [->|_]; [done|]. by rewrite rd8_bits.
Qed.

Lemma rd8_put m x bs y :
  Forall is_byte bs ->
  rd8 (put_bytes m x bs) y = if (x <=? y) && (y <? x + zlen bs) then default 0 (zget bs (y - x)) else rd8 m y.
Proof.
  intros Hbs. revert m x. induction Hbs as [|b bs Hb _ IH]; intros m x; cbn [put_bytes].
  { change (zlen []) with 0. zcases; done. }
  assert (zlen (b :: bs) = zlen bs + 1) as El by (unfold zlen; simpl; lia). pose proof (zlen_nonneg bs).
  rewrite IH, rd8_wr8, El by done. destruct (Z.eqb_spec y x) as [->|Hne].
  - rewrite Z.sub_diag. zcases.
  - assert (x + 1 <= y -> zget (b :: bs) (y - x) = zget bs (y - (x + 1))) as E.
    { intros. unfold zget. zcases. replace (Z.to_nat (y - x)) with (S (Z.to_nat (y - (x + 1)))) by lia. done. }
    zcases; try done. by rewrite E by lia.
Qed.

(** Bytes of one page. *)
Lemma put_bytes_data m p x bs :
  p mod 4096 = 0 -> p <= x -> x + zlen bs <= p + 4096 ->
  forall q j, q mod 4096 = 0 -> idx_ok j -> q <> p -> ent (put_bytes m x bs) q j = ent m q j.
Proof.
  intros Hp Hx Hl q j Hq Hj Hne. revert m x Hx Hl. induction bs as [|b bs IH]; intros m x Hx Hl; [done|].
  assert (zlen (b :: bs) = zlen bs + 1) as El by (unfold zlen; simpl; lia). pose proof (zlen_nonneg bs). cbn [put_bytes].
  rewrite IH by lia. unfold ent. apply rd64_wr8_ne. unfold idx_ok in Hj. mlia.
Qed.

Lemma zget_get_bytes m x n i : 0 <= i < Z.of_nat n -> zget (get_bytes m x n) i = Some (rd8 m (x + i)).
Proof.
  intros Hi. unfold zget, get_bytes. zcases. rewrite list_lookup_fmap, lookup_seqZ_lt by lia. simpl. do 2 f_equal. lia.
Qed.

Section user.
Context {A : Type} `{FL : FrameLaws A}.
Implicit Types (s : vmm A) (R : gmap Z role) (F : gmap Z (Z * Z)).

(** ** Walks that end in a user mapping *)

Lemma user_pte_leaf m a v e :
  user_pte m a v = Some e ->
  exists pt, leaf m a v = Some pt /\ ent m pt (idx 0 v) = e /\ present e = true /\ user e = true.
Proof.
  unfold user_pte, leaf. cbn [tr Nat.eqb andb].
  set (e4 := ent m a (idx 3 v)). set (e3 := ent m (entry_addr e4) (idx 2 v)). set (e2 := ent m (entry_addr e3) (idx 1 v)).
  destruct (present e4); [|done]. destruct (present e3); [|done]. destruct (present e2); [|done].
  destruct (huge e2); [done|]. set (e1 := ent m (entry_addr e2) (idx 0 v)).
  destruct (present e1) eqn:Ep; [|done]. cbn [vw_pte user_view]. unfold user_entry. destruct (user e1) eqn:Eu; [|done].
  intros [= <-]. by exists (entry_addr e2).
Qed.

Lemma user_pte_page m a v w : vpn v = vpn w -> user_pte m a v = user_pte m a w.
Proof. intros (E0 & E1 & E2 & E3)%vpn_eq_idx. unfold user_pte. cbn [tr Nat.eqb andb]. by rewrite E0, E1, E2, E3. Qed.

(** An address without a translation has no view at all. *)
Lemma translate_none m a v u w : translate m a v = None -> vpn u = vpn v -> tr w 3 m a u = None.
Proof.
  intros Hn (E0 & E1 & E2 & E3)%vpn_eq_idx. unfold translate in Hn. cbn [tr Nat.eqb andb] in *. rewrite E0, E1, E2, E3.
  repeat (match goal with H : context [if ?c then _ else _] |- _ => destruct c end); done.
Qed.

Lemma leaf_not_huge m a v pt : leaf m a v = Some pt -> huge_at m a v = false.
Proof.
  unfold leaf, huge_at. intros Hl. destruct (_ && negb _) eqn:E; [|done].
  apply andb_true_iff in E as [_ ->%negb_true_iff]. apply andb_false_r.
Qed.

Lemma user_pte_translate R m a v e :
  tables_ok R m -> R !! a = Some (RPml4 a) -> user_pte m a v = Some e ->
  translate m a v = Some (Z.lor (Z.land e PHYS_MASK) (Z.land v 4095)).
Proof.
  intros Ht Ha (pt & Hl & He & Hp & _)%user_pte_leaf. unfold translate.
  destruct (leaf_Some phys_view R m a v pt Ht Ha Hl) as [_ ->]. cbn [tr]. by rewrite He, Hp.
Qed.

(** [vmm_get_pte] finds the user mapping, and no user entry where there is
    none. *)
Lemma get_pte_user R s v :
  vm_ok R s -> R !! vmm_pml4 s = Some (RPml4 (vmm_pml4 s)) ->
  user_pte (v_mem s) (vmm_pml4 s) v =
    if present (vmm_get_pte s v) && user (vmm_get_pte s v) then Some (vmm_get_pte s v) else None.
Proof.
  intros Hs Ha. pose proof (vo_tables _ _ Hs) as Ht. unfold vmm_get_pte, user_pte.
  set (a := vmm_pml4 s) in *. set (m := v_mem s) in *.
  destruct (to_page _ _ Ht a _ Ha) as [Ha0 _]. destruct (Z.eqb_spec a 0); [lia|]. cbn [tr Nat.eqb andb].
  change (idx 3 v) with (pml4i v). change (idx 2 v) with (pdpti v). change (idx 1 v) with (pdi v). change (idx 0 v) with (pti v).
  destruct (present (ent m a (pml4i v))) eqn:E4; [|done]. cbn [negb].
  pose proof (walk_step R m a 2 a v Ht ltac:(lia) Ha E4) as H2. cbn [Nat.eqb andb] in H2. change (idx 3 v) with (pml4i v) in H2.
  set (pdpt := entry_addr (ent m a (pml4i v))) in *.
  destruct (present (ent m pdpt (pdpti v))) eqn:E3; [|done]. cbn [negb].
  pose proof (walk_step R m a 1 pdpt v Ht ltac:(lia) H2 E3) as H1. cbn [Nat.eqb andb] in H1. change (idx 2 v) with (pdpti v) in H1.
  set (pd := entry_addr (ent m pdpt (pdpti v))) in *.
  destruct (present (ent m pd (pdi v))) eqn:E2; [|done]. cbn [negb].
  pose proof (walk_step R m a 0 pd v Ht ltac:(lia) H1 E2) as H0. cbn [Nat.eqb andb] in H0. change (idx 1 v) with (pdi v) in H0.
  destruct (huge (ent m pd (pdi v))).
  - rewrite user_bit, (H0 2) by lia. by rewrite andb_false_r.
  - destruct (present (ent m (entry_addr (ent m pd (pdi v))) (pti v))); done.
Qed.

(** ** The invariant

    [F] gives the frames behind user mappings: the space and the page number
    that map them. *)
Record uvm_ok R F s : Prop := {
  uo_vm : vm_ok R s;
  uo_frame : forall p x, F !! p = Some x ->
    page_addr p /\ R !! p = None /\ frame_used (v_frames s) (p / 4096) = true;
  uo_user : forall a v e, R !! a = Some (RPml4 a) -> user_pte (v_mem s) a v = Some e ->
    private v /\ F !! Z.land e PHYS_MASK = Some (a, vpn v)
}.

(** [s'] is [s] but for memory, frames and TLB. *)
Definition edits s s' : Prop := s' = with_tlb (upd s (v_frames s') (v_mem s')) (v_tlb s').

Lemma edits_refl s : edits s s.
Proof. by destruct s. Qed.

Lemma edits_trans s1 s2 s3 : edits s1 s2 -> edits s2 s3 -> edits s1 s3.
Proof. unfold edits. intros -> ->. done. Qed.

Lemma edits_upd s f m s' : s' = upd s f m -> edits s s'.
Proof. by intros ->. Qed.

Lemma edits_flush s m new v : edits s (vmm_flush (with_mem s m) new v).
Proof. unfold vmm_flush. destruct (vmm_editing_active_root _), new; by destruct s. Qed.

Lemma edits_fields s s' :
  edits s s' -> vmm_pml4 s' = vmm_pml4 s /\ vmm_la57 s' = vmm_la57 s /\ vmm_active_root s' = vmm_active_root s /\
    vmm_boot_root s' = vmm_boot_root s /\ vmm_boot_pml4 s' = vmm_boot_pml4 s /\ v_cr3 s' = v_cr3 s.
Proof. by intros ->. Qed.

(** Growing: at most [k] frames are taken for new tables, new user frames are
    among the free ones, and no byte of a user frame changes. *)
Record grows (k : nat) R F s R' F' s' : Prop := {
  gr_ok : uvm_ok R' F' s';
  gr_edits : edits s s';
  gr_roles : R ⊆ R';
  gr_roots : forall b, R' !! b = Some (RPml4 b) -> R !! b = Some (RPml4 b);
  gr_frames : F ⊆ F';
  gr_used : forall q, 0 <= q -> frame_used (v_frames s) q = true -> frame_used (v_frames s') q = true;
  gr_spare : forall n, spare (k + n) (v_frames s) -> spare n (v_frames s');
  gr_data : forall p x j, F !! p = Some x -> idx_ok j -> ent (v_mem s') p j = ent (v_mem s) p j
}.

Lemma grows_refl R F s : uvm_ok R F s -> grows 0 R F s R F s.
Proof. intros. split; try done. apply edits_refl. Qed.

Lemma grows_trans k1 k2 R1 F1 s1 R2 F2 s2 R3 F3 s3 :
  grows k1 R1 F1 s1 R2 F2 s2 -> grows k2 R2 F2 s2 R3 F3 s3 -> grows (k1 + k2) R1 F1 s1 R3 F3 s3.
Proof.
  intros [H1 H2 H3 H4 H5 H6 H7 H8] [G1 G2 G3 G4 G5 G6 G7 G8]. split; auto.
  - by eapply edits_trans.
  - by transitivity R2.
  - by transitivity F2.
  - intros n Hn. apply G7, H7. by rewrite Nat.add_assoc.
  - intros p x j Hp Hj. rewrite (G8 p x), (H8 p x); try done. by eapply lookup_weaken.
Qed.

(** A user mapping set by [vmm_map_page]. *)
Lemma map_page_user R s virt phys flags :
  vm_ok R s -> R !! vmm_pml4 s = Some (RPml4 (vmm_pml4 s)) -> user flags = true ->
  post (fun s' => exists R' s1, extends 3 R R' s s1 /\ edits s1 s' /\ vm_ok R' s' /\ v_frames s' = v_frames s1 /\
          (forall q j, q mod 4096 = 0 -> idx_ok j -> R' !! q = None -> ent (v_mem s') q j = ent (v_mem s1) q j) /\
          (forall w v, vpn v = vpn virt -> tr w 3 (v_mem s') (vmm_pml4 s) v = vw_pte w (vmm_make_entry phys flags) v) /\
          (forall w b v, R !! b = Some (RPml4 b) -> vpn v <> vpn virt \/ (b <> vmm_pml4 s /\ private virt) ->
             tr w 3 (v_mem s') b v = tr w 3 (v_mem s) b v))
       (fun _ => ~ spare 3 (v_frames s)) (vmm_map_page s virt phys flags).
Proof.
  intros Hs Ha Hu. eapply post_conseq; [by apply map_page_walk|].
  intros s' (R' & s1 & E1 & [(Hf & _)|(pt & new & Hl & ->)]).
  { unfold user in Hu. congruence. }
  assert (R' !! vmm_pml4 s = Some (RPml4 (vmm_pml4 s))) as Ha' by (eapply lookup_weaken; [done|apply E1]).
  pose proof (ex_ok _ _ _ _ _ E1) as Hok1. set (m' := set_ent _ _ _ _).
  destruct (pt_write R' (v_mem s1) (vmm_pml4 s) virt pt (vmm_make_entry phys flags) (vo_tables _ _ Hok1) Ha' Hl)
    as (Ht' & Hnew & Hother). fold m' in Ht', Hnew, Hother.
  destruct (leaf_Some phys_view R' (v_mem s1) _ virt pt (vo_tables _ _ Hok1) Ha' Hl) as [Hpt _].
  destruct (vmm_flush_fields (with_mem s1 m') new virt) as (Em & Ef & Ep). simpl in Em, Ef, Ep.
  exists R', s1. rewrite Em, Ef. split_and!; [done|apply edits_flush| |done| | |].
  - split; rewrite ?Em, ?Ef; [done|apply (vo_wf _ _ Hok1)|apply (vo_used _ _ Hok1)].
  - intros q j Hq Hj Hn. apply ent_set_ne; try done; [by eapply to_page; [apply Hok1|]|apply idx_range|].
    intros [-> _]. congruence.
  - intros w v Hv. by rewrite (Hnew w v Hv), make_entry_present.
  - intros w b v Hb Hne. rewrite Hother; [|by eapply lookup_weaken; [|apply E1]|done]. by apply (ex_tr _ _ _ _ _ E1).
Qed.

(** Everything but the page of [virt] in the edited space is mapped as
    before. *)
Definition only_page R s s' (virt : Z) : Prop :=
  forall b v, R !! b = Some (RPml4 b) -> ~ (b = vmm_pml4 s /\ vpn v = vpn virt) ->
    user_pte (v_mem s') b v = user_pte (v_mem s) b v.

Lemma map_user_grows R F s virt phys flags p :
  let a := vmm_pml4 s in
  let e := vmm_make_entry phys flags in
  uvm_ok R F s -> R !! a = Some (RPml4 a) -> user flags = true -> user e = true -> private virt ->
  p = Z.land e PHYS_MASK -> page_addr p -> R !! p = None -> frame_used (v_frames s) (p / 4096) = true ->
  F !! p = None \/ F !! p = Some (a, vpn virt) ->
  post (fun s' => exists R', grows 3 R F s R' (<[p := (a, vpn virt)]> F) s' /\
          (forall v, vpn v = vpn virt -> user_pte (v_mem s') a v = Some e) /\ only_page R s s' virt /\
          (forall j, idx_ok j -> ent (v_mem s') p j = ent (v_mem s) p j))
       (fun _ => ~ spare 3 (v_frames s)) (vmm_map_page s virt phys flags).
Proof.
  intros a e Hok Ha Hfl He Hpriv Hp Hpa HpR Hpu HF. pose proof (uo_vm _ _ _ Hok) as Hvm.
  eapply post_conseq; [by apply map_page_user|].
  intros s' (R' & s1 & E1 & Hed & Hvm' & Hfr & Hdata & Hnew & Hold). fold a e in Hnew, Hold. exists R'.
  assert (forall v, vpn v = vpn virt -> user_pte (v_mem s') a v = Some e) as Hmap.
  { intros v Hv. unfold user_pte. rewrite (Hnew user_view v Hv). cbn [vw_pte user_view]. unfold user_entry. by rewrite He. }
  assert (only_page R s s' virt) as Hother.
  { intros b v Hb Hne. apply (Hold user_view); [done|]. destruct (decide (vpn v = vpn virt)); [right; naive_solver|by left]. }
  assert (forall q x, F !! q = Some x -> R' !! q = None) as HFR.
  { intros q x Hq. destruct (uo_frame _ _ _ Hok q x Hq) as (_ & Hn & Hu). destruct (R' !! q) as [r|] eqn:E; [|done].
    rewrite (ex_new _ _ _ _ _ E1 q r E Hn) in Hu. done. }
  assert (R' !! p = None) as HpR'.
  { destruct (R' !! p) as [r|] eqn:E; [|done]. rewrite (ex_new _ _ _ _ _ E1 p r E HpR) in Hpu. done. }
  split_and!; [|done|done|].
  2:{ intros j Hj. destruct Hpa as [Hp0 Hpm]. rewrite Hdata by done. apply (ex_data _ _ _ _ _ E1); try done. lia. }
  split; [|by eapply edits_trans; [eapply edits_upd, (ex_upd _ _ _ _ _ E1)|]| | | | | |].
  - split; [done| |].
    + intros q x Hq. apply lookup_insert_Some in Hq as [[<- _]|[_ Hq]].
      * split_and!; [done|done|rewrite Hfr; apply (ex_used _ _ _ _ _ E1); [destruct Hpa; mlia|done]].
      * destruct (uo_frame _ _ _ Hok q x Hq) as (Hqa & _ & Hqu). split_and!; [done|by eapply HFR|].
        rewrite Hfr. apply (ex_used _ _ _ _ _ E1); [destruct Hqa; mlia|done].
    + intros b v e' Hb He'. apply (ex_roots _ _ _ _ _ E1) in Hb.
      destruct (decide (b = a /\ vpn v = vpn virt)) as [[-> Hv]|Hne].
      * rewrite Hmap in He' by done. injection He' as <-. rewrite <- Hp, lookup_insert_eq, Hv.
        split; [|done]. unfold private. by rewrite Hv.
      * rewrite (Hother b v Hb Hne) in He'. destruct (uo_user _ _ _ Hok b v e' Hb He') as [Hpv HFv]. split; [done|].
        rewrite lookup_insert_ne; [done|]. intros ->. rewrite HFv in HF. destruct HF as [?|[= -> ?]]; [done|tauto].
  - apply (ex_roles _ _ _ _ _ E1).
  - apply (ex_roots _ _ _ _ _ E1).
  - destruct HF as [HF|HF]; [by apply insert_subseteq|]. by rewrite insert_id.
  - intros q Hq Hu. rewrite Hfr. by apply (ex_used _ _ _ _ _ E1).
  - intros n Hn. rewrite Hfr. by apply (ex_spare _ _ _ _ _ E1).
  - intros q x j Hq Hj. destruct (uo_frame _ _ _ Hok q x Hq) as ([Hq0 Hqm] & Hn & Hu).
    rewrite Hdata by (done || by eapply HFR). apply (ex_data _ _ _ _ _ E1); try done. lia.
Qed.

(** The flags of user entries. *)
Lemma prot_to_pte_user prot : user (prot_to_pte prot) = true.
Proof. unfold prot_to_pte. by destruct (truthy (Z.land prot UVM_PROT_WRITE)), (truthy (Z.land prot UVM_PROT_EXEC)). Qed.

Lemma make_entry_user p f : user f = true -> user (vmm_make_entry p f) = true.
Proof.
  rewrite !user_bit. intros Hf. unfold vmm_make_entry, VMM_PRESENT, VMM_NX, PAGE_MASK.
  change 4095 with (2 ^ 12 - 2 ^ 0). change 1 with (2 ^ 0).
  rewrite !Z.lor_spec, !Z.land_spec, !mask_bits, !pow2_bits, Hf by lia. cbn. by rewrite orb_true_r.
Qed.

Lemma page_phys p : page_addr p -> Z.land p PHYS_MASK = p.
Proof.
  intros Hp. apply Z.bits_inj'. intros i Hi. unfold PHYS_MASK. rewrite Z.land_spec, mask_bits by lia.
  bcase; by rewrite (page_addr_bits p i) by (done || lia).
Qed.

Lemma make_entry_frame p f : Z.land (vmm_make_entry p f) PHYS_MASK = Z.land p PHYS_MASK.
Proof. bits. Qed.

Lemma page_mask_frame p : Z.land (Z.land p PAGE_MASK) PHYS_MASK = Z.land p PHYS_MASK.
Proof. bits. Qed.

(** ** Steps that leave the tables alone *)

Lemma grows_le k k' R F s R' F' s' : (k <= k')%nat -> grows k R F s R' F' s' -> grows k' R F s R' F' s'.
Proof. intros Hk []. split; try done. intros n Hn. apply gr_spare0. eapply spare_le; [|done]. lia. Qed.

(** Only the page [p] of memory differs. *)
Definition only_data (p : Z) (m m' : pmem) : Prop :=
  forall q j, q mod 4096 = 0 -> idx_ok j -> q <> p -> ent m' q j = ent m q j.

Lemma data_tables R m m' p : tables_ok R m -> R !! p = None -> only_data p m m' -> tables_ok R m' /\ same_tr R m m'.
Proof.
  intros Ht Hp Hd.
  assert (forall q r j, R !! q = Some r -> idx_ok j -> ent m' q j = ent m q j) as Hs.
  { intros q r j Hq Hj. apply Hd; [by eapply to_page|done|congruence]. }
  split.
  - split; [|apply (to_page _ _ Ht)|apply (to_self _ _ Ht)|].
    + intros q r i Hq Hi. rewrite (Hs q r) by done. by apply (to_entry _ _ Ht).
    + intros q a Hq. rewrite (Hs q _ 0 Hq) by (unfold idx_ok; lia). by apply (to_root _ _ Ht).
  - intros w a v Ha. apply (tr_frame w R m m' a 3); [done|lia|done|]. intros j q _ Hq. left.
    eapply Hs; [done|apply idx_range].
Qed.

Lemma grows_data k R F s R' F' s' p m :
  grows k R F s R' F' s' -> R' !! p = None -> F !! p = None -> only_data p (v_mem s') m ->
  grows k R F s R' F' (with_mem s' m) /\ same_tr R' (v_mem s') m.
Proof.
  intros [[Hvm Hfr Hus] Hed HR Hroots HF Hu Hsp Hdata] HpR HpF Hd.
  destruct (data_tables R' (v_mem s') m p (vo_tables _ _ Hvm) HpR Hd) as [Ht Htr]. split; [|done].
  split; try done.
  - split; [split; [done|apply (vo_wf _ _ Hvm)|apply (vo_used _ _ Hvm)]|done|].
    intros a v e Ha He. apply Hus; [done|]. rewrite <- He. symmetry. by apply (Htr user_view).
  - by rewrite Hed.
  - intros q x j Hq Hj. simpl. rewrite Hd; [by eapply Hdata|apply (Hfr q x); by eapply lookup_weaken|done|congruence].
Qed.

(** Taking a frame. *)
Lemma grows_alloc R F s p f :
  uvm_ok R F s -> frame_alloc (v_frames s) = (p, f) -> p <> 0 ->
  grows 1 R F s R F (with_frames s f) /\ page_addr p /\ frame_used (v_frames s) (p / 4096) = false /\
  frame_used f (p / 4096) = true /\ R !! p = None /\ F !! p = None.
Proof.
  intros [Hvm Hfr Hus] Hall Hp.
  destruct (alloc_cases _ _ _ (vo_wf _ _ Hvm) Hall) as [Hwf [[? _]|(Hpa & Hfree & Hused & Hsp)]]; [done|].
  assert (forall q, 0 <= q -> frame_used (v_frames s) q = true -> frame_used f q = true) as Hmono.
  { intros q Hq Hu. rewrite Hused, Hu by done. apply orb_true_r. }
  split_and!; [|done|done| |by eapply vm_fresh|].
  - split; try done.
    split; [split; [apply Hvm|done|]| |done]; simpl.
    + intros q r Hq. apply Hmono; [destruct (to_page _ _ (vo_tables _ _ Hvm) q r Hq); mlia|by apply (vo_used _ _ Hvm q r)].
    + intros q x Hq. destruct (Hfr q x Hq) as (Hqa & ? & ?). split_and!; [done..|]. apply Hmono; [destruct Hqa; mlia|done].
  - rewrite Hused by (destruct Hpa; mlia). by rewrite Z.eqb_refl.
  - destruct (F !! p) as [x|] eqn:E; [|done]. destruct (Hfr p x E) as (_ & _ & Hu). congruence.
Qed.

(** ** Mapping ranges *)

(** How [uvm_map_range] changes the mapping of one page from [old] to [e']:
    a user mapping keeps its frame, otherwise a free frame is taken and
    cleared. *)
Definition mapped_as s s' (prot : Z) (old : option Z) (e' : Z) : Prop :=
  match old with
  | Some e => e' = vmm_make_entry (Z.land e PAGE_MASK) (prot_to_pte (Z.lor (pte_to_prot e) prot))
  | None => exists p, page_addr p /\ frame_used (v_frames s) (p / 4096) = false /\
      e' = vmm_make_entry p (prot_to_pte prot) /\ forall j, idx_ok j -> ent (v_mem s') p j = 0
  end.

Lemma map_one_spec R F s prot v :
  let a := vmm_pml4 s in
  uvm_ok R F s -> R !! a = Some (RPml4 a) -> private v ->
  post (fun r => match r with
          | inl s' => exists R' F' e', grows 4 R F s R' F' s' /\
              (forall u, vpn u = vpn v -> user_pte (v_mem s') a u = Some e') /\
              mapped_as s s' prot (user_pte (v_mem s) a v) e' /\ only_page R s s' v
          | inr s' => ~ spare 1 (v_frames s)
          end) (fun _ => ~ spare 4 (v_frames s)) (map_one s prot v).
Proof.
  intros a Hok Ha Hpriv. pose proof (uo_vm _ _ _ Hok) as Hvm. unfold map_one.
  pose proof (get_pte_user R s v Hvm Ha) as Hpte. fold a in Hpte. set (pte := vmm_get_pte s v) in *.
  destruct (present pte && user pte) eqn:Epu.
  - destruct (uo_user _ _ _ Hok a v pte Ha Hpte) as [_ HF]. destruct (uo_frame _ _ _ Hok _ _ HF) as (Hpa & HpR & Hpu).
    eapply post_bind.
    { eapply post_mono; [apply (map_user_grows R F s v _ (prot_to_pte (Z.lor (pte_to_prot pte) prot)) (Z.land pte PHYS_MASK))| |]; try done.
      - apply prot_to_pte_user.
      - apply make_entry_user, prot_to_pte_user.
      - by rewrite make_entry_frame, page_mask_frame.
      - by right.
      - intros ? Hn Hsp. apply Hn. eapply spare_le; [|done]. lia. }
    intros s' (R' & Hg & Hm & Ho & _). simpl. eexists R', _, _. split_and!; [by eapply grows_le; [|done]; lia|done| |done].
    by rewrite Hpte.
  - destruct (frame_alloc (v_frames s)) as [p f] eqn:Hall.
    destruct (Z.eqb_spec p 0) as [->|Hp0].
    { destruct (alloc_cases _ _ _ (vo_wf _ _ Hvm) Hall) as [_ [(_ & _ & Hno)|([[] _] & _)]]; [done|lia]. }
    destruct (grows_alloc R F s p f Hok Hall Hp0) as (Hg1 & Hpa & Hfree & Hpu & HpR & HpF).
    eapply post_bind.
    { eapply post_mono; [apply (map_user_grows R F (with_frames s f) v p (prot_to_pte prot) p)| |]; try done.
      - apply Hg1.
      - apply prot_to_pte_user.
      - apply make_entry_user, prot_to_pte_user.
      - by rewrite make_entry_frame, page_phys.
      - by left.
      - intros ? Hn Hsp. apply Hn. by apply (gr_spare _ _ _ _ _ _ _ Hg1). }
    intros s2 (R' & Hg2 & Hm & Ho & _). pose proof (grows_trans _ _ _ _ _ _ _ _ _ _ _ Hg1 Hg2) as Hg.
    destruct (uo_frame _ _ _ (gr_ok _ _ _ _ _ _ _ Hg) p (a, vpn v)) as (_ & HpR' & _); [apply lookup_insert_eq|].
    destruct (zero_page_spec p (v_mem s2)) as (m & -> & Hz); [apply Hpa|]. rewrite Ok_bind.
    destruct (grows_data _ _ _ _ _ _ _ p m Hg HpR' HpF) as [Hg3 Htr].
    { intros q j Hq Hj Hne. rewrite Hz by done. by rewrite decide_False. }
    simpl. eexists R', _, _. split_and!; [done| | |].
    + intros u Hu. etransitivity; [|by apply Hm]. apply (Htr user_view). eapply lookup_weaken; [done|apply Hg].
    + rewrite Hpte. exists p. split_and!; try done. intros j Hj. simpl. rewrite Hz by (done || apply Hpa). by rewrite decide_True.
    + intros b u Hb Hne. etransitivity; [|by apply Ho]. apply (Htr user_view). eapply lookup_weaken; [done|apply Hg].
Qed.

Lemma map_pages_spec R F s prot first vs :
  let a := vmm_pml4 s in
  uvm_ok R F s -> R !! a = Some (RPml4 a) -> Forall private vs -> NoDup (vpn <$> vs) ->
  spare (4 * length vs) (v_frames s) ->
  exists s' R' F', map_pages s prot first vs = Ok (true, s') /\ grows (4 * length vs) R F s R' F' s' /\
    (forall v u, v ∈ vs -> vpn u = vpn v ->
       exists e', user_pte (v_mem s') a u = Some e' /\ mapped_as s s' prot (user_pte (v_mem s) a v) e') /\
    (forall b u, R !! b = Some (RPml4 b) -> ~ (b = a /\ vpn u ∈ vpn <$> vs) ->
       user_pte (v_mem s') b u = user_pte (v_mem s) b u).
Proof.
  intros a. revert R F s a. induction vs as [|v vs IH]; intros R F s a Hok Ha Hpr Hnd Hsp.
  { exists s, R, F. split_and!; [done|by apply grows_refl|intros v u []%not_elem_of_nil|done]. }
  apply Forall_cons_1 in Hpr as [Hpv Hpr]. rewrite fmap_cons in Hnd. apply list.NoDup_cons in Hnd as [Hnv Hnd].
  pose proof (map_one_spec R F s prot v Hok Ha Hpv) as H1. fold a in H1. cbn [map_pages].
  replace (4 * length (v :: vs))%nat with (4 + 4 * length vs)%nat in * by (simpl; lia).
  destruct (map_one s prot v) as [[s1|s1]|c| |]; cbn [post] in H1; [|destruct H1; by eapply spare_le; [|done]; lia..|done|done].
  destruct H1 as (R1 & F1 & e1 & Hg1 & Hm1 & Has1 & Ho1). rewrite Ok_bind.
  destruct (edits_fields _ _ (gr_edits _ _ _ _ _ _ _ Hg1)) as (Ea & _). fold a in Ea.
  destruct (IH R1 F1 s1) as (s' & R' & F' & E & Hg2 & Hm2 & Ho2); try done.
  { apply Hg1. }
  { rewrite Ea. eapply lookup_weaken; [done|apply Hg1]. }
  { by apply (gr_spare _ _ _ _ _ _ _ Hg1). }
  rewrite Ea in Hm2, Ho2.
  assert (forall b, R !! b = Some (RPml4 b) -> R1 !! b = Some (RPml4 b)) as HR1.
  { intros b Hb. eapply lookup_weaken; [done|apply Hg1]. }
  exists s', R', F'. split_and!; [done|by eapply grows_trans| |].
  - intros w u [->|Hw]%elem_of_cons Hu.
    + exists e1. split; [rewrite Ho2; [by apply Hm1|by apply HR1|]; intros [_ Hin]; by rewrite Hu in Hin|].
      destruct (user_pte (v_mem s) a v); [done|]. destruct Has1 as (p & Hpa & Hfree & -> & Hz).
      exists p. split_and!; [done..|]. intros j Hj. rewrite <- (Hz j Hj).
      destruct (uo_user _ _ _ (gr_ok _ _ _ _ _ _ _ Hg1) a v _ (HR1 a Ha) (Hm1 v eq_refl)) as [_ HF].
      rewrite make_entry_frame, page_phys in HF by done. by apply (gr_data _ _ _ _ _ _ _ Hg2 p _ j HF).
    + destruct (Hm2 w u Hw Hu) as (e' & He' & Has). exists e'. split; [done|].
      rewrite (Ho1 a w Ha) in Has by (intros [_ Hin]; rewrite <- Hin in Hnv; destruct Hnv; by apply list_elem_of_fmap_2).
      destruct (user_pte (v_mem s) a w); [done|]. destruct Has as (p & Hpa & Hfree & -> & Hz).
      exists p. split_and!; try done. destruct (frame_used (v_frames s) (p / 4096)) eqn:Eu; [|done].
      rewrite (gr_used _ _ _ _ _ _ _ Hg1) in Hfree; [done|destruct Hpa; mlia|done].
  - intros b u Hb Hne. rewrite Ho2, (Ho1 b u Hb); [done| |by apply HR1|].
    + intros [-> Hu]. apply Hne. split; [done|]. rewrite Hu. apply list_elem_of_here.
    + intros [-> Hu]. apply Hne. split; [done|]. by apply list_elem_of_further.
Qed.

(** ** Targeting a space *)

(** The space being edited is the one of the selected root. *)
Definition in_space R s : Prop :=
  is_root R (vmm_la57 s) (vmm_active_root s) (vmm_pml4 s) /\ entry_addr (vmm_active_root s) = vmm_active_root s.

Lemma uvm_ok_walk R F s root p : uvm_ok R F s -> uvm_ok R F (with_walk s root p).
Proof. intros [[] ? ?]. by split. Qed.

Lemma is_root_pos R m la57 root a : tables_ok R m -> is_root R la57 root a -> 0 < entry_addr root.
Proof. intros Ht [Ha Hr]. destruct la57; [|rewrite Hr]; by eapply to_page. Qed.

Lemma set_root_ok R F s root a :
  uvm_ok R F s -> is_root R (vmm_la57 s) root a -> vmm_set_root_ptr s root = with_walk s (entry_addr root) a.
Proof.
  intros Hok Hr. unfold vmm_set_root_ptr, mm_root_to_pml4.
  by destruct (is_root_pml4 R (v_mem s) _ _ _ (vo_tables _ _ (uo_vm _ _ _ Hok)) Hr) as [-> _].
Qed.

Lemma uvm_enter_ok R F s mm a :
  uvm_ok R F s -> is_root R (vmm_la57 s) (mm_cr3 mm) a ->
  uvm_enter s mm = (vmm_active_root s, with_walk s (entry_addr (mm_cr3 mm)) a).
Proof.
  intros Hok Hr. unfold uvm_enter, vmm_current_root. pose proof (is_root_pos _ _ _ _ _ (vo_tables _ _ (uo_vm _ _ _ Hok)) Hr) as Hp.
  unfold truthy. destruct (Z.eqb_spec (mm_cr3 mm) 0) as [E|_]; [by rewrite E in Hp|]. cbn [negb]. by erewrite set_root_ok.
Qed.

Lemma uvm_leave_ok k R F s R' F' s1 r a :
  in_space R s -> grows k R F (with_walk s r a) R' F' s1 ->
  grows k R F s R' F' (uvm_leave s1 (vmm_active_root s)) /\ v_mem (uvm_leave s1 (vmm_active_root s)) = v_mem s1.
Proof.
  intros [Hroot Hal] Hg. split; [|done].
  pose proof (is_root_weaken _ _ _ _ _ (gr_roles _ _ _ _ _ _ _ Hg) Hroot) as Hroot'.
  destruct (edits_fields _ _ (gr_edits _ _ _ _ _ _ _ Hg)) as (_ & El & _). unfold uvm_leave.
  rewrite (set_root_ok R' F' s1 (vmm_active_root s) (vmm_pml4 s)) by (apply Hg || by rewrite El).
  rewrite Hal. destruct Hg as [Hok Hed HR Hroots HF Hu Hsp Hd]. split; try done; [by apply uvm_ok_walk|].
  unfold edits in *. rewrite Hed. by destruct s.
Qed.

(** The page of [v] is one of the range. *)
Definition in_pages (lo hi v : Z) : Prop := lo / 4096 <= vpn v < hi / 4096.

Lemma in_pages_elem lo hi v :
  aligned lo -> aligned hi -> 0 <= lo -> hi <= 4294967296 -> vpn v ∈ vpn <$> pages lo hi <-> in_pages lo hi v.
Proof.
  intros Hlo Hhi H0 H4. rewrite list_elem_of_fmap. unfold in_pages, aligned in *. split.
  - intros (u & -> & [_ Hu]%elem_of_pages); [|done..]. rewrite vpn_low by lia. mlia.
  - intros Hv. exists (vpn v * 4096). rewrite elem_of_pages by done. unfold aligned. rewrite (vpn_low (vpn v * 4096)) by mlia. mlia.
Qed.

(** C18: With four spare frames for each page, [uvm_map_range] succeeds on any
    range below 4 GiB, whichever space is being edited: every page of the
    range becomes a user mapping of the process (keeping its frame where it
    was one, on a cleared frame that nothing used otherwise), no other user
    mapping of any space changes, no byte of any user frame changes, the
    invariant is kept and the selected root is restored.  The regions gain
    exactly the range, or, when all slots of the region table are taken, stay
    as they are: the call still reports success and the new pages are then
    recorded nowhere.  The claim is about user mappings only: a supervisor
    mapping in the range (the identity map of the kernel) is replaced. *)
Theorem uvm_map_range_correct R F s mm a start end_ prot :
  let lo := start - start mod 4096 in
  let hi := end_ + (- end_) mod 4096 in
  uvm_ok R F s -> in_space R s -> is_root R (vmm_la57 s) (mm_cr3 mm) a ->
  0 <= start < end_ -> end_ <= 4294967296 -> spare (4 * Z.to_nat ((hi - lo) / 4096)) (v_frames s) ->
  exists s' mm' R' F', uvm_map_range s mm start end_ prot = Ok (0, s', mm') /\
    grows (4 * Z.to_nat ((hi - lo) / 4096)) R F s R' F' s' /\
    (forall v, in_pages lo hi v -> exists e', user_pte (v_mem s') a v = Some e' /\
       mapped_as s s' prot (user_pte (v_mem s) a v) e') /\
    (forall b v, R !! b = Some (RPml4 b) -> ~ (b = a /\ in_pages lo hi v) ->
       user_pte (v_mem s') b v = user_pte (v_mem s) b v) /\
    ((forall u, in_regions mm' u = in_regions mm u || (lo <=? u) && (u <? hi)) \/
     (mm' = mm /\ Forall (fun r => r_used r = true) (mm_regions mm))).
Proof.
  intros lo hi Hok Hin Hroot Hse H4 Hsp. unfold uvm_map_range. rewrite (proj2 (Z.leb_gt _ _)) by lia.
  rewrite (uvm_enter_ok R F s mm a Hok Hroot), page_down_spec, page_up_spec by lia. fold lo hi.
  assert (aligned lo /\ aligned hi) as [Hlo Hhi] by (unfold aligned, lo, hi; mlia).
  assert (0 <= lo /\ hi <= 4294967296 /\ lo < hi) as (H0 & Hh4 & Hlh) by (unfold lo, hi; mlia).
  set (s0 := with_walk s (entry_addr (mm_cr3 mm)) a).
  destruct (map_pages_spec R F s0 prot lo (pages lo hi)) as (s1 & R' & F' & -> & Hg & Hm & Ho).
  { by apply uvm_ok_walk. }
  { apply Hroot. }
  { by apply pages_private. }
  { by apply pages_vpn. }
  { by rewrite length_pages. }
  rewrite length_pages in Hg by done. rewrite Ok_bind. cbn [vmm_pml4 with_walk s0] in Hm, Ho.
  destruct (uvm_leave_ok _ _ _ _ _ _ _ _ _ Hin Hg) as [Hg' Em].
  eexists _, _, R', F'. split_and!; [done|exact Hg'| | |by apply region_commit_spec]; rewrite Em.
  - intros v Hv. apply (in_pages_elem lo hi v) in Hv; try done. apply list_elem_of_fmap in Hv as (w & Hvw & Hw).
    destruct (Hm w v Hw Hvw) as (e' & He & Has). exists e'. split; [done|].
    assert (user_pte (v_mem s) a v = user_pte (v_mem s) a w) as -> by by apply user_pte_page. exact Has.
  - intros b v Hb Hne. apply Ho; [done|]. by rewrite (in_pages_elem lo hi v).
Qed.

(** ** Unmapping *)

(** The frame of page [p] is behind one of the pages [vs] of space [a]. *)
Definition behind (m : pmem) (a : Z) (vs : list Z) (p : Z) : Prop :=
  exists v e, v ∈ vs /\ user_pte m a v = Some e /\ p = Z.land e PHYS_MASK.

(** The pages [vs] of the edited space are gone and their frames given back;
    nothing else changed. *)
Record unmaps R F s F' s' (vs : list Z) : Prop := {
  un_ok : uvm_ok R F' s';
  un_edits : edits s s';
  un_gone : forall w v u, v ∈ vs -> vpn u = vpn v -> tr w 3 (v_mem s') (vmm_pml4 s) u = None;
  un_other : forall w b u, R !! b = Some (RPml4 b) -> ~ (b = vmm_pml4 s /\ vpn u ∈ vpn <$> vs) ->
    tr w 3 (v_mem s') b u = tr w 3 (v_mem s) b u;
  un_used : forall q, 0 <= q -> frame_used (v_frames s') q = true <->
    frame_used (v_frames s) q = true /\ ~ exists p, behind (v_mem s) (vmm_pml4 s) vs p /\ q = p / 4096;
  un_frames : forall p x, F' !! p = Some x <-> F !! p = Some x /\ ~ behind (v_mem s) (vmm_pml4 s) vs p;
  un_data : forall q j, q mod 4096 = 0 -> idx_ok j -> R !! q = None -> ent (v_mem s') q j = ent (v_mem s) q j
}.

Lemma unmap_page_data R s v :
  vm_ok R s -> R !! vmm_pml4 s = Some (RPml4 (vmm_pml4 s)) ->
  edits s (vmm_unmap_page s v) /\
  forall q j, q mod 4096 = 0 -> idx_ok j -> R !! q = None -> ent (v_mem (vmm_unmap_page s v)) q j = ent (v_mem s) q j.
Proof.
  intros Hs Ha. pose proof (vo_tables _ _ Hs) as Ht.
  destruct (unmap_page_cases R s v Hs Ha) as [(-> & _)|[(pd & Hpd & _ & ->)|(pt & Hl & _ & ->)]].
  - split; [apply edits_refl|done].
  - split; [apply edits_flush|]. intros q j Hq Hj Hn.
    destruct (vmm_flush_fields (with_mem s (set_ent (v_mem s) pd (idx 1 v) 0)) true v) as (-> & _). simpl.
    destruct (pd_of_Some phys_view R (v_mem s) _ v pd Ht Ha Hpd) as [Hr _].
    apply ent_set_ne; [by eapply to_page|done|apply idx_range|done|]. intros [-> _]. congruence.
  - split; [apply edits_flush|]. intros q j Hq Hj Hn.
    destruct (vmm_flush_fields (with_mem s (set_ent (v_mem s) pt (idx 0 v) 0)) false v) as (-> & _). simpl.
    destruct (leaf_Some phys_view R (v_mem s) _ v pt Ht Ha Hl) as [Hr _].
    apply ent_set_ne; [by eapply to_page|done|apply idx_range|done|]. intros [-> _]. congruence.
Qed.

Lemma mask_lor_offset p v : page_addr p -> Z.land (Z.lor p (Z.land v 4095)) PAGE_MASK = p.
Proof.
  intros Hp. apply Z.bits_inj'. intros i Hi. unfold PAGE_MASK. change 4095 with (2 ^ 12 - 2 ^ 0).
  rewrite Z.land_spec, Z.lor_spec, Z.land_spec, !mask_bits by lia.
  bcase; by rewrite (page_addr_bits p i) by (done || lia).
Qed.

Lemma lor_offset_pos p v : page_addr p -> truthy (Z.lor p (Z.land v 4095)) = true.
Proof.
  intros [Hp Hm]. rewrite lor_offset by lia. unfold truthy. apply negb_true_iff, Z.eqb_neq. mlia.
Qed.

Lemma unmap_one_user R F s v e :
  let a := vmm_pml4 s in
  uvm_ok R F s -> R !! a = Some (RPml4 a) -> user_pte (v_mem s) a v = Some e ->
  unmaps R F s (delete (Z.land e PHYS_MASK) F) (unmap_one s v) [v].
Proof.
  intros a Hok Ha He. pose proof (uo_vm _ _ _ Hok) as Hvm.
  destruct (uo_user _ _ _ Hok a v e Ha He) as [Hpriv HF]. destruct (uo_frame _ _ _ Hok _ _ HF) as (Hpa & HpR & Hpu).
  unfold unmap_one. rewrite (get_phys_translate R s v Hvm Ha). fold a.
  rewrite (user_pte_translate R _ _ v e (vo_tables _ _ Hvm) Ha He). unfold default, from_option, id.
  set (p := Z.land e PHYS_MASK) in *. rewrite lor_offset_pos, mask_lor_offset by done.
  destruct (unmap_page_spec R s v Hvm Ha) as (Hvm' & Ea & Ef & Hgone & Hother).
  destruct (unmap_page_data R s v Hvm Ha) as [Hed Hdata]. set (s1 := vmm_unmap_page s v) in *.
  destruct (user_pte_leaf _ _ _ _ He) as (pt & Hl & _). pose proof (leaf_not_huge _ _ _ _ Hl) as Hh.
  unfold unmapped in Hgone, Hother. fold a in Hgone, Hother. rewrite Hh in Hgone, Hother.
  destruct (frame_free_spec (v_frames s1) p (vo_wf _ _ Hvm')) as [Hwf Hused]; [apply Hpa..|]. rewrite Ef in Hused.
  assert (forall q, q = p <-> behind (v_mem s) a [v] q) as Hb.
  { intros q. split; [intros ->; exists v, e; split_and!; [apply list_elem_of_here|done..]|].
    intros (w & e' & ->%list_elem_of_singleton & He' & ->). unfold p. congruence. }
  assert (forall w b u, R !! b = Some (RPml4 b) -> ~ (b = a /\ vpn u = vpn v) -> tr w 3 (v_mem s1) b u = tr w 3 (v_mem s) b u) as Hoth.
  { intros w b u Hb' Hne. apply Hother; [done|]. destruct (decide (vpn u = vpn v)); [right; naive_solver|by left]. }
  split; simpl.
  - split; [split; [apply Hvm'|done|]| |]; simpl.
    + intros q r Hq. rewrite Ef, Hused by (destruct (to_page _ _ (vo_tables _ _ Hvm) q r Hq); mlia).
      rewrite (vo_used _ _ Hvm q r Hq), andb_true_r. apply negb_true_iff, Z.eqb_neq. intros E.
      rewrite (page_addr_div q p) in Hq by (done || by eapply to_page; [apply Hvm|]). congruence.
    + intros q x [Hne Hq]%lookup_delete_Some. destruct (uo_frame _ _ _ Hok q x Hq) as (Hqa & Hqn & Hqu). split_and!; try done.
      rewrite Ef, Hused, Hqu, andb_true_r by (destruct Hqa; mlia). apply negb_true_iff, Z.eqb_neq. intros E. by apply Hne, page_addr_div.
    + intros b u e' Hb' He'. destruct (decide (b = a /\ vpn u = vpn v)) as [[-> Hu]|Hne].
      { unfold user_pte in He'. rewrite Hgone in He' by done. done. }
      unfold user_pte in He'. rewrite Hoth in He' by done. destruct (uo_user _ _ _ Hok b u e' Hb' He') as [Hpu' HFu].
      split; [done|]. apply lookup_delete_Some. split; [|done]. intros E. rewrite <- E, HF in HFu.
      injection HFu as E1 E2. by destruct Hne.
  - by rewrite Hed.
  - intros w v' u ->%list_elem_of_singleton Hu. by apply Hgone.
  - intros w b u Hb' Hne. apply Hoth; [done|]. intros [-> Hu]. apply Hne. split; [done|]. rewrite Hu. apply list_elem_of_here.
  - intros q Hq. rewrite Ef, Hused by done. rewrite andb_true_iff, negb_true_iff, Z.eqb_neq. fold a. split.
    + intros [Hne Hu]. split; [done|]. intros (p' & ->%Hb & ->). done.
    + intros [Hu Hne]. split; [|done]. intros ->. apply Hne. exists p. split; [by apply Hb|done].
  - intros q x. fold a. rewrite lookup_delete_Some, <- (Hb q). naive_solver.
  - done.
Qed.

Lemma unmap_one_none R s v :
  vm_ok R s -> R !! vmm_pml4 s = Some (RPml4 (vmm_pml4 s)) -> translate (v_mem s) (vmm_pml4 s) v = None ->
  unmap_one s v = s.
Proof. intros Hvm Ha Hn. unfold unmap_one. by rewrite (get_phys_translate R s v Hvm Ha), Hn. Qed.

(** A page is a user mapping of the space or not mapped at all: what can be
    unmapped without touching the kernel's own mappings. *)
Definition user_or_none (m : pmem) (a v : Z) : Prop := is_Some (user_pte m a v) \/ translate m a v = None.

Lemma unmaps_nil R F s : uvm_ok R F s -> unmaps R F s F s [].
Proof.
  intros Hok. split; try done.
  - apply edits_refl.
  - by intros w v u []%not_elem_of_nil.
  - intros q Hq. split; [|naive_solver]. intros Hu. split; [done|]. by intros (p & (v & e & []%not_elem_of_nil & _) & _).
  - intros p x. split; [|naive_solver]. intros Hp. split; [done|]. by intros (v & e & []%not_elem_of_nil & _).
Qed.

Lemma unmap_one_spec R F s v :
  let a := vmm_pml4 s in
  uvm_ok R F s -> R !! a = Some (RPml4 a) -> user_or_none (v_mem s) a v ->
  exists F', unmaps R F s F' (unmap_one s v) [v].
Proof.
  intros a Hok Ha [[e He]|Hn]; [eexists; by apply unmap_one_user|]. exists F.
  rewrite (unmap_one_none R s v) by (done || apply Hok). pose proof (vo_tables _ _ (uo_vm _ _ _ Hok)) as Ht.
  assert (forall w u, vpn u = vpn v -> tr w 3 (v_mem s) a u = None) as Hnone by by intros; eapply translate_none.
  destruct (unmaps_nil R F s Hok) as [H1 H2 H3 H4 H5 H6 H7].
  assert (forall p, ~ behind (v_mem s) a [v] p) as Hnb.
  { intros p (w & e & ->%list_elem_of_singleton & He & _). unfold user_pte in He. by rewrite Hnone in He. }
  split; try done.
  - intros w v' u ->%list_elem_of_singleton. apply Hnone.
  - intros q Hq. split; [|naive_solver]. intros Hu. split; [done|]. intros (p & Hp & _). by destruct (Hnb p).
  - intros p x. split; [|naive_solver]. intros Hp. split; [done|]. apply Hnb.
Qed.

Lemma unmaps_cons R F1 s1 F2 s2 F3 s3 v vs :
  R !! vmm_pml4 s1 = Some (RPml4 (vmm_pml4 s1)) ->
  unmaps R F1 s1 F2 s2 [v] -> unmaps R F2 s2 F3 s3 vs -> unmaps R F1 s1 F3 s3 (v :: vs).
Proof.
  intros Ha [H1 H2 H3 H4 H5 H6 H7] [G1 G2 G3 G4 G5 G6 G7].
  destruct (edits_fields _ _ H2) as (Ea & _). rewrite Ea in *. set (a := vmm_pml4 s1) in *.
  assert (forall p, behind (v_mem s1) a (v :: vs) p <-> behind (v_mem s1) a [v] p \/ behind (v_mem s2) a vs p) as Hb.
  { intros p. split.
    - intros (w & e & Hw & He & ->). destruct (decide (vpn w = vpn v)) as [E|E].
      + left. exists v, e. split_and!; [apply list_elem_of_here| |done]. by rewrite <- (user_pte_page _ _ w v E).
      + right. apply elem_of_cons in Hw as [->|Hw]; [done|]. exists w, e. split_and!; [done| |done].
        rewrite <- He. apply (H4 user_view); [done|]. intros [_ Hin]. by apply list_elem_of_singleton in Hin.
    - intros [(w & e & ->%list_elem_of_singleton & He & ->)|(w & e & Hw & He & ->)].
      + exists v, e. split_and!; [apply list_elem_of_here|done..].
      + exists w, e. split_and!; [by apply list_elem_of_further| |done]. rewrite <- He. symmetry.
        apply (H4 user_view); [done|]. intros [_ Hin]. apply list_elem_of_singleton in Hin.
        unfold user_pte in He. rewrite (H3 user_view v w) in He; [done|apply list_elem_of_here|done]. }
  split; try done.
  - by eapply edits_trans.
  - intros w v' u Hv Hu. destruct (decide (vpn u ∈ vpn <$> vs)) as [Hin|Hin].
    + apply list_elem_of_fmap in Hin as (v2 & E & Hv2). by apply (G3 w v2 u).
    + rewrite G4 by (done || naive_solver). apply elem_of_cons in Hv as [->|Hv].
      * apply (H3 w v u); [apply list_elem_of_here|done].
      * destruct Hin. rewrite Hu. by apply list_elem_of_fmap_2.
  - intros w b u Hb' Hne. rewrite G4, H4; try done.
    + intros [-> Hin%list_elem_of_singleton]. apply Hne. split; [done|]. rewrite Hin. apply list_elem_of_here.
    + intros [-> Hin]. apply Hne. split; [done|]. by apply list_elem_of_further.
  - intros q Hq. rewrite G5, H5 by done. fold a. setoid_rewrite Hb. clear. naive_solver.
  - intros p x. rewrite G6, H6. fold a. rewrite Hb. clear. naive_solver.
  - intros q j Hq Hj Hn. by rewrite G7, H7.
Qed.

Lemma unmap_pages_spec R F s vs :
  let a := vmm_pml4 s in
  uvm_ok R F s -> R !! a = Some (RPml4 a) -> Forall (user_or_none (v_mem s) a) vs ->
  exists F', unmaps R F s F' (unmap_pages s vs) vs.
Proof.
  intros a. revert F s a. induction vs as [|v vs IH]; intros F s a Hok Ha Hall; [exists F; by apply unmaps_nil|].
  apply Forall_cons_1 in Hall as [Hv Hall]. cbn [unmap_pages fold_left]. fold (unmap_pages (unmap_one s v) vs).
  destruct (unmap_one_spec R F s v Hok Ha Hv) as [F1 Hu].
  destruct (edits_fields _ _ (un_edits _ _ _ _ _ _ Hu)) as (Ea & _).
  destruct (IH F1 (unmap_one s v)) as [F2 Hu2]; [apply Hu|by rewrite Ea| |].
  - rewrite Ea. fold a. apply list.Forall_forall. intros w Hw. rewrite list.Forall_forall in Hall.
    destruct (decide (vpn w = vpn v)) as [E|E].
    + right. apply (un_gone _ _ _ _ _ _ Hu phys_view v w); [apply list_elem_of_here|done].
    + destruct (Hall w Hw) as [[e He]|Hn]; [left; exists e|right].
      * rewrite <- He. apply (un_other _ _ _ _ _ _ Hu user_view); [done|]. intros [_ Hin%list_elem_of_singleton]. done.
      * unfold translate. rewrite (un_other _ _ _ _ _ _ Hu phys_view); [done..|]. intros [_ Hin%list_elem_of_singleton]. done.
  - exists F2. by eapply unmaps_cons.
Qed.

Lemma uvm_ok_leave R F s s1 r a :
  in_space R s -> uvm_ok R F s1 -> edits (with_walk s r a) s1 ->
  let s' := vmm_set_root_ptr s1 (vmm_active_root s) in
  uvm_ok R F s' /\ edits s s' /\ v_mem s' = v_mem s1 /\ v_frames s' = v_frames s1.
Proof.
  intros [Hroot Hal] Hok Hed s'. destruct (edits_fields _ _ Hed) as (_ & El & _). split_and!; [| |done..].
  - unfold s'. rewrite (set_root_ok R F s1 _ (vmm_pml4 s)) by (done || by rewrite El). by apply uvm_ok_walk.
  - unfold s'. rewrite (set_root_ok R F s1 _ (vmm_pml4 s)) by (done || by rewrite El). rewrite Hal.
    unfold edits in *. rewrite Hed. by destruct s.
Qed.

Lemma cut_region_spec lo hi r u :
  ~ (r_used r = true /\ r_start r < lo /\ hi < r_end r) ->
  region_holds (cut_region lo hi r) u = region_holds r u && negb ((lo <=? u) && (u <? hi)).
Proof.
  intros Hmid. unfold cut_region. destruct (r_used r) eqn:Eu; cbn [negb orb].
  2:{ unfold region_holds. by rewrite Eu. }
  destruct (Z.leb_spec (r_end r) lo), (Z.leb_spec hi (r_start r)); cbn [orb];
    unfold region_holds; rewrite Eu; zcases; done.
Qed.

Lemma in_regions_fmap (f : vm_region -> vm_region) (g : bool -> bool) mm u :
  g false = false -> (forall b c, g (b || c) = g b || g c) ->
  Forall (fun r => region_holds (f r) u = g (region_holds r u)) (mm_regions mm) ->
  in_regions (with_regions mm (f <$> mm_regions mm)) u = g (in_regions mm u).
Proof.
  intros H0 Hor. unfold in_regions. cbn [with_regions mm_regions].
  induction 1 as [|r rs Hr _ IH]; [done|]. cbn [existsb fmap list_fmap]. rewrite Hor.
  unfold region_holds in Hr. rewrite <- Hr. f_equal. exact IH.
Qed.

(** C19: [uvm_unmap_range] on pages that are user mappings of the process or
    not mapped at all (the precondition its callers must ensure): afterwards
    the range translates to nothing, every other translation of every space
    is unchanged, exactly the frames behind the range are given back, and no
    byte outside the page tables changes. The regions lose exactly the range,
    unless it lies strictly inside one. *)
Theorem uvm_unmap_range_correct R F s mm a start end_ :
  let lo := start - start mod 4096 in
  let hi := end_ + (- end_) mod 4096 in
  let m := v_mem s in
  uvm_ok R F s -> in_space R s -> is_root R (vmm_la57 s) (mm_cr3 mm) a ->
  0 <= start < 4294967296 -> 0 <= end_ <= 4294967296 -> (forall v, in_pages lo hi v -> user_or_none m a v) ->
  let '(s', mm') := uvm_unmap_range s mm start end_ in
  exists F', uvm_ok R F' s' /\ edits s s' /\
    (forall v, in_pages lo hi v -> translate (v_mem s') a v = None) /\
    (forall b v, R !! b = Some (RPml4 b) -> ~ (b = a /\ in_pages lo hi v) ->
       translate (v_mem s') b v = translate m b v /\ user_pte (v_mem s') b v = user_pte m b v) /\
    (forall q, 0 <= q -> frame_used (v_frames s') q = true <-> frame_used (v_frames s) q = true /\
       ~ exists v e, in_pages lo hi v /\ user_pte m a v = Some e /\ q = Z.land e PHYS_MASK / 4096) /\
    (forall q j, q mod 4096 = 0 -> idx_ok j -> R !! q = None -> ent (v_mem s') q j = ent m q j) /\
    (Forall (fun r => ~ (r_used r = true /\ r_start r < lo /\ hi < r_end r)) (mm_regions mm) ->
     forall u, in_regions mm' u = in_regions mm u && negb ((lo <=? u) && (u <? hi))).
Proof.
  intros lo hi m Hok Hin Hroot Hs He Hpre. unfold uvm_unmap_range.
  rewrite (uvm_enter_ok R F s mm a Hok Hroot), (page_down_spec start), (page_up_spec end_) by (clear -Hs He; lia). fold lo hi.
  assert (aligned lo /\ aligned hi) as [Hlo Hhi] by (unfold aligned, lo, hi; mlia).
  assert (0 <= lo /\ hi <= 4294967296) as (H0 & H4) by (unfold lo, hi; mlia).
  pose proof (fun v => in_pages_elem lo hi v Hlo Hhi H0 H4) as Hpg.
  set (s0 := with_walk s (entry_addr (mm_cr3 mm)) a).
  destruct (unmap_pages_spec R F s0 (pages lo hi)) as [F' Hu].
  { by apply uvm_ok_walk. }
  { apply Hroot. }
  { apply list.Forall_forall. intros v Hv. apply Hpre. apply Hpg. by apply list_elem_of_fmap_2. }
  set (s1 := unmap_pages s0 (pages lo hi)) in *.
  destruct (uvm_ok_leave R F' s s1 _ a Hin (un_ok _ _ _ _ _ _ Hu) (un_edits _ _ _ _ _ _ Hu)) as (Hok' & Hed & Em & Ef).
  unfold uvm_leave. exists F'. rewrite Em, Ef. split_and!; [done|done| | | |apply (un_data _ _ _ _ _ _ Hu)|].
  - intros v Hv. apply Hpg in Hv. apply list_elem_of_fmap in Hv as (w & E & Hw).
    apply (un_gone _ _ _ _ _ _ Hu phys_view w v Hw E).
  - intros b v Hb Hne. rewrite <- Hpg in Hne. split; [apply (un_other _ _ _ _ _ _ Hu phys_view b v Hb Hne)|].
    apply (un_other _ _ _ _ _ _ Hu user_view b v Hb Hne).
  - intros q Hq. rewrite (un_used _ _ _ _ _ _ Hu q Hq). apply and_iff_compat_l, not_iff_compat. split.
    + intros (p & (v & e & Hv & Hpte & ->) & ->). exists v, e. split_and!; [|done..]. apply Hpg. by apply list_elem_of_fmap_2.
    + intros (v & e & Hv & Hpte & ->). apply Hpg, list_elem_of_fmap in Hv as (w & E & Hw).
      exists (Z.land e PHYS_MASK). split; [|done]. exists w, e. split_and!; [done| |done]. rewrite <- Hpte. symmetry.
      by apply user_pte_page.
  - intros Hmid u. apply (in_regions_fmap (cut_region lo hi) (fun b => b && negb ((lo <=? u) && (u <? hi)))); [done| |].
    + intros b c. by destruct b, c, (negb _).
    + eapply Forall_impl; [|exact Hmid]. intros r Hr. by apply cut_region_spec.
Qed.

(** ** Teardown *)

(** The regions of [mm] are page ranges below 4 GiB and cover exactly the user
    mappings of its space [a]. *)
Record mm_ok (m : pmem) (a : Z) (mm : mm_t) : Prop := {
  mo_shape : Forall (fun r => r_used r = true ->
    aligned (r_start r) /\ aligned (r_end r) /\ 0 <= r_start r /\ r_end r <= 4294967296) (mm_regions mm);
  mo_mapped : forall v, in_regions mm v = true -> is_Some (user_pte m a v);
  mo_tracked : forall v e, user_pte m a v = Some e -> exists u, vpn u = vpn v /\ in_regions mm u = true
}.

(** The pages [uvm_release_mm] goes through. *)
Definition region_pages (r : vm_region) : list Z := if r_used r then pages (r_start r) (r_end r) else [].
Definition mm_pages (mm : mm_t) : list Z := flat_map region_pages (mm_regions mm).

Lemma release_fold s rs : fold_left release_region rs s = unmap_pages s (flat_map region_pages rs).
Proof.
  revert s. induction rs as [|r rs IH]; intros s; [done|]. cbn [fold_left flat_map]. rewrite IH.
  unfold unmap_pages at 2. rewrite fold_left_app. unfold release_region, region_pages. by destruct (r_used r).
Qed.

Lemma in_regions_spec mm u :
  in_regions mm u = true <-> exists r, r ∈ mm_regions mm /\ r_used r = true /\ r_start r <= u < r_end r.
Proof.
  unfold in_regions. rewrite existsb_exists. setoid_rewrite <- list_elem_of_In.
  setoid_rewrite andb_true_iff. setoid_rewrite andb_true_iff. setoid_rewrite Z.leb_le. setoid_rewrite Z.ltb_lt.
  split; intros (r & ?); exists r; tauto.
Qed.

Lemma elem_of_mm_pages m a mm v :
  mm_ok m a mm -> v ∈ mm_pages mm <-> aligned v /\ in_regions mm v = true.
Proof.
  intros Hmm. pose proof (mo_shape _ _ _ Hmm) as Hsh. rewrite list.Forall_forall in Hsh.
  unfold mm_pages. rewrite list_elem_of_In, in_flat_map, in_regions_spec. setoid_rewrite <- list_elem_of_In. split.
  - intros (r & Hr & Hv). unfold region_pages in Hv. destruct (r_used r) eqn:Eu; [|by apply not_elem_of_nil in Hv].
    destruct (Hsh r Hr Eu) as (H1 & H2 & _). apply elem_of_pages in Hv as [Hal Hv]; [|done..]. split; [done|]. by exists r.
  - intros (Hal & r & Hr & Eu & Hv). exists r. split; [done|]. unfold region_pages. rewrite Eu.
    destruct (Hsh r Hr Eu) as (H1 & H2 & _). by apply elem_of_pages.
Qed.

(** Every user mapping is behind one of these pages. *)
Lemma mm_pages_cover m a mm v e : mm_ok m a mm -> user_pte m a v = Some e -> exists w, w ∈ mm_pages mm /\ vpn w = vpn v.
Proof.
  intros Hmm He. destruct (mo_tracked _ _ _ Hmm v e He) as (u & Hu & Hin).
  pose proof (mo_shape _ _ _ Hmm) as Hsh. rewrite list.Forall_forall in Hsh.
  destruct (proj1 (in_regions_spec mm u) Hin) as (r & Hr & Eu & Hur). destruct (Hsh r Hr Eu) as (H1 & H2 & H3 & H4).
  unfold aligned in *. exists (u - u mod 4096). split; [|rewrite <- Hu, !vpn_low by mlia; mlia].
  rewrite (elem_of_mm_pages _ _ _ _ Hmm). split; [unfold aligned; mlia|]. apply in_regions_spec. exists r. split_and!; [done..| |]; mlia.
Qed.

(** C20: Teardown of the memory of a process whose regions cover exactly the
    user mappings of its space ([mm_ok]; a mapping that no region records, as
    a full region table leaves behind, is not found by the teardown and is
    outside the claim): no user mapping of its space is left, exactly the
    frames that were behind its mappings are given back, and the mappings and
    frames of every other space keep their contents. *)
Theorem uvm_release_mm_correct R F s mm a :
  let m := v_mem s in
  uvm_ok R F s -> in_space R s -> is_root R (vmm_la57 s) (mm_cr3 mm) a -> mm_ok m a mm ->
  let '(s', mm') := uvm_release_mm s mm in
  exists F', uvm_ok R F' s' /\ edits s s' /\
    (forall v, user_pte (v_mem s') a v = None) /\
    (forall b v, R !! b = Some (RPml4 b) -> b <> a ->
       translate (v_mem s') b v = translate m b v /\ user_pte (v_mem s') b v = user_pte m b v) /\
    (forall q, 0 <= q -> frame_used (v_frames s') q = true <-> frame_used (v_frames s) q = true /\
       ~ exists v e, user_pte m a v = Some e /\ q = Z.land e PHYS_MASK / 4096) /\
    (forall q j, q mod 4096 = 0 -> idx_ok j -> R !! q = None -> ent (v_mem s') q j = ent m q j) /\
    mm_ok (v_mem s') a mm' /\ (forall u, in_regions mm' u = false).
Proof.
  intros m Hok Hin Hroot Hmm. unfold uvm_release_mm.
  pose proof (uvm_enter_ok R F s mm a Hok Hroot) as Hent. unfold uvm_enter in Hent. injection Hent as ->.
  rewrite release_fold. fold (mm_pages mm). set (s0 := with_walk s (entry_addr (mm_cr3 mm)) a).
  destruct (unmap_pages_spec R F s0 (mm_pages mm)) as [F' Hu].
  { by apply uvm_ok_walk. }
  { apply Hroot. }
  { apply list.Forall_forall. intros v Hv. left. apply (elem_of_mm_pages _ _ _ _ Hmm) in Hv as [_ Hv].
    by apply (mo_mapped _ _ _ Hmm). }
  set (s1 := unmap_pages s0 (mm_pages mm)) in *.
  destruct (uvm_ok_leave R F' s s1 _ a Hin (un_ok _ _ _ _ _ _ Hu) (un_edits _ _ _ _ _ _ Hu)) as (Hok' & Hed & Em & Ef).
  assert (forall v, user_pte (v_mem s1) a v = None) as Hnone.
  { intros v. destruct (user_pte m a v) as [e|] eqn:He.
    - destruct (mm_pages_cover _ _ _ _ _ Hmm He) as (w & Hw & E). by apply (un_gone _ _ _ _ _ _ Hu user_view w v).
    - destruct (decide (vpn v ∈ vpn <$> mm_pages mm)) as [(w & E & Hw)%list_elem_of_fmap|Hn].
      + by apply (un_gone _ _ _ _ _ _ Hu user_view w v).
      + unfold user_pte. rewrite (un_other _ _ _ _ _ _ Hu user_view); [done|apply Hroot|naive_solver]. }
  assert (forall rs u, existsb (fun r => r_used r && (r_start r <=? u) && (u <? r_end r))
            ((fun r => mk_region false (r_start r) (r_end r) (r_prot r)) <$> rs) = false) as Hfalse.
  { intros rs u. by induction rs. }
  unfold vmm_current_root. exists F'. rewrite Em, Ef. split_and!; [done|done|done| | |apply (un_data _ _ _ _ _ _ Hu)| |].
  - intros b v Hb Hne. split; [apply (un_other _ _ _ _ _ _ Hu phys_view b v Hb)|apply (un_other _ _ _ _ _ _ Hu user_view b v Hb)];
      by intros [? _].
  - intros q Hq. rewrite (un_used _ _ _ _ _ _ Hu q Hq). apply and_iff_compat_l, not_iff_compat. split.
    + intros (p & (v & e & Hv & Hpte & ->) & ->). by exists v, e.
    + intros (v & e & Hpte & ->). destruct (mm_pages_cover _ _ _ _ _ Hmm Hpte) as (w & Hw & E).
      exists (Z.land e PHYS_MASK). split; [|done]. exists w, e. split_and!; [done| |done]. rewrite <- Hpte. by apply user_pte_page.
  - split.
    + cbn [mm_regions with_cursors with_regions]. apply Forall_fmap, list.Forall_forall. by intros r _.
    + intros v Hv. unfold in_regions in Hv. cbn [mm_regions with_cursors with_regions] in Hv. by rewrite Hfalse in Hv.
    + intros v e He. rewrite Hnone in He. done.
  - intros u. unfold in_regions. cbn [mm_regions with_cursors with_regions]. apply Hfalse.
Qed.

(** ** Fork *)

Lemma grows_walk k R F s R' F' s' root p : grows k R F s R' F' s' -> grows k R F (with_walk s root p) R' F' (with_walk s' root p).
Proof.
  intros [Hok Hed HR Hroots HF Hu Hsp Hd]. split; try done; [by apply uvm_ok_walk|].
  unfold edits in *. rewrite Hed. done.
Qed.

(** The mapping [e] of the parent, in the child: a frame of its own that was
    free, with the same bytes and the low flags of the entry. *)
Definition copied s s' (e e' : Z) : Prop :=
  exists p, page_addr p /\ frame_used (v_frames s) (p / 4096) = false /\ e' = vmm_make_entry p (Z.land e 4095) /\
    forall j, idx_ok j -> ent (v_mem s') p j = ent (v_mem s) (Z.land e PHYS_MASK) j.

Lemma user_low e : user (Z.land e 4095) = user e.
Proof. rewrite !user_bit, Z.land_spec. change 4095 with (2 ^ 12 - 2 ^ 0). rewrite mask_bits by lia. apply andb_true_r. Qed.

Lemma copy_page_spec dst src m :
  dst mod 4096 = 0 -> src mod 4096 = 0 -> src <> dst ->
  exists m', copy_page dst src m = Ok m' /\ only_data dst m m' /\ forall j, idx_ok j -> ent m' dst j = ent m src j.
Proof.
  intros Hd Hs Hne. destruct (fill_table_entries dst (fun m i => ent m src i) (fun i => ent m src i) m) as (m' & E & Hm'); [done| |].
  { intros m' i Hi Hsame. by apply Hsame. }
  exists m'. split_and!; [done| |].
  - intros q j Hq Hj Hqd. rewrite Hm' by done. by rewrite decide_False.
  - intros j Hj. rewrite Hm' by done. by rewrite decide_True.
Qed.

Section fork.
Context (pmm cmm : mm_t) (a c : Z).

(** The parent's space is being edited. *)
Record forking R F s : Prop := {
  fk_ok : uvm_ok R F s;
  fk_walk : s = with_walk s (entry_addr (mm_cr3 pmm)) a;
  fk_parent : is_root R (vmm_la57 s) (mm_cr3 pmm) a;
  fk_child : is_root R (vmm_la57 s) (mm_cr3 cmm) c
}.

Lemma forking_grows k R F s R' F' s' : forking R F s -> grows k R F s R' F' s' -> forking R' F' s'.
Proof.
  intros [Hok Hw Hp Hc] Hg. destruct (edits_fields _ _ (gr_edits _ _ _ _ _ _ _ Hg)) as (_ & El & _).
  pose proof (gr_roles _ _ _ _ _ _ _ Hg). split; [apply Hg| |rewrite El; by eapply is_root_weaken..].
  pose proof (gr_edits _ _ _ _ _ _ _ Hg) as Hed. unfold edits in Hed. rewrite Hw in Hed. rewrite Hed. done.
Qed.

Lemma fork_page_spec R F s v e :
  forking R F s -> user_pte (v_mem s) a v = Some e ->
  post (fun r => match r with
          | inl s' => exists R' F' e', grows 4 R F s R' F' s' /\ copied s s' e e' /\
              (forall u, vpn u = vpn v -> user_pte (v_mem s') c u = Some e') /\
              (forall b u, R !! b = Some (RPml4 b) -> ~ (b = c /\ vpn u = vpn v) ->
                 user_pte (v_mem s') b u = user_pte (v_mem s) b u)
          | inr _ => ~ spare 1 (v_frames s)
          end) (fun _ => ~ spare 4 (v_frames s)) (fork_page pmm cmm s v).
Proof.
  intros [Hok Hw Hp Hc] He. pose proof (uo_vm _ _ _ Hok) as Hvm. assert (R !! a = Some (RPml4 a)) as Ha by apply Hp.
  assert (vmm_pml4 s = a) as Ea by by rewrite Hw.
  assert (R !! vmm_pml4 s = Some (RPml4 (vmm_pml4 s))) as Ha' by by rewrite Ea.
  destruct (uo_user _ _ _ Hok a v e Ha He) as [Hpriv HF]. destruct (uo_frame _ _ _ Hok _ _ HF) as (Hpa & HpR & Hpu).
  pose proof (get_pte_user R s v Hvm Ha') as Hpte. rewrite Ea, He in Hpte. unfold fork_page.
  destruct (present (vmm_get_pte s v)) eqn:Epr; [|done]. destruct (user (vmm_get_pte s v)) eqn:Eus; [|done].
  injection Hpte as Ee. rewrite <- Ee in *. cbn [negb].
  destruct (frame_alloc (v_frames s)) as [p f] eqn:Hall. destruct (Z.eqb_spec p 0) as [->|Hp0].
  { destruct (alloc_cases _ _ _ (vo_wf _ _ Hvm) Hall) as [_ [(_ & _ & Hno)|([[] _] & _)]]; [done|lia]. }
  destruct (grows_alloc R F s p f Hok Hall Hp0) as (Hg1 & Hcpa & Hfree & Hcpu & HcR & HcF).
  destruct (copy_page_spec p (Z.land e PHYS_MASK) (v_mem s)) as (m & -> & Honly & Hcopy); [apply Hcpa|apply Hpa|congruence|].
  rewrite Ok_bind. destruct (grows_data _ _ _ _ _ _ _ p m Hg1 HcR HcF Honly) as [Hg2 Htr]. set (s1 := with_mem _ m) in *.
  rewrite (set_root_ok R F s1 _ c (gr_ok _ _ _ _ _ _ _ Hg2) Hc). set (s2 := with_walk s1 _ c).
  eapply post_bind.
  { eapply post_mono; [apply (map_user_grows R F s2 v p (Z.land e 4095) p)| |]; try done.
    - apply uvm_ok_walk, Hg2.
    - apply Hc.
    - by rewrite user_low.
    - apply make_entry_user. by rewrite user_low.
    - by rewrite make_entry_frame, page_phys.
    - by left.
    - intros ? Hn Hsp. apply Hn. by apply (gr_spare _ _ _ _ _ _ _ Hg2). }
  intros s3 (R' & Hg3 & Hm & Ho & Hdat). cbn [post vmm_pml4 with_walk s2] in *.
  pose proof (grows_walk _ _ _ _ _ _ _ (entry_addr (mm_cr3 pmm)) a Hg3) as Hg4.
  rewrite (set_root_ok R' _ s3 _ a (gr_ok _ _ _ _ _ _ _ Hg3)).
  2:{ destruct (edits_fields _ _ (gr_edits _ _ _ _ _ _ _ Hg3)) as (_ & -> & _). eapply is_root_weaken; [apply Hg3|done]. }
  pose proof (grows_walk _ _ _ _ _ _ _ (entry_addr (mm_cr3 pmm)) a Hg2) as Hg5. rewrite <- Hw in Hg5.
  eexists R', _, _. split_and!; [exact (grows_trans _ _ _ _ _ _ _ _ _ _ _ Hg5 Hg4)| |exact Hm|].
  - exists p. split_and!; [done..|]. intros j Hj. simpl. rewrite Hdat by done. by apply Hcopy.
  - intros b u Hb Hne. transitivity (user_pte m b u); [by apply (Ho b u Hb)|by apply (Htr user_view)].
Qed.

Lemma copied_before k R F s R1 F1 s1 s' e e' x :
  grows k R F s R1 F1 s1 -> F !! Z.land e PHYS_MASK = Some x -> copied s1 s' e e' -> copied s s' e e'.
Proof.
  intros Hg HF (p & Hpa & Hfree & -> & Hd). exists p. split_and!; try done.
  - destruct (frame_used (v_frames s) (p / 4096)) eqn:Eu; [|done].
    rewrite (gr_used _ _ _ _ _ _ _ Hg) in Hfree; [done|destruct Hpa; mlia|done].
  - intros j Hj. rewrite Hd by done. by eapply (gr_data _ _ _ _ _ _ _ Hg).
Qed.

Lemma copied_after k R F s s1 R2 F2 s2 e e' v :
  R !! c = Some (RPml4 c) -> copied s s1 e e' -> user_pte (v_mem s1) c v = Some e' -> grows k R F s1 R2 F2 s2 -> uvm_ok R F s1 ->
  copied s s2 e e'.
Proof.
  intros Hc (p & Hpa & Hfree & -> & Hd) Hpte Hg Hok. exists p. split_and!; try done.
  intros j Hj. rewrite <- Hd by done. destruct (uo_user _ _ _ Hok c v _ Hc Hpte) as [_ HF].
  rewrite make_entry_frame, page_phys in HF by done. by eapply (gr_data _ _ _ _ _ _ _ Hg).
Qed.

Lemma fork_pages_spec R F s vs :
  forking R F s -> a <> c -> NoDup (vpn <$> vs) -> Forall (fun v => is_Some (user_pte (v_mem s) a v)) vs ->
  spare (4 * length vs) (v_frames s) ->
  exists s' R' F', fork_pages pmm cmm s vs = Ok (inl s') /\ grows (4 * length vs) R F s R' F' s' /\
    (forall v u e, v ∈ vs -> vpn u = vpn v -> user_pte (v_mem s) a v = Some e ->
       exists e', user_pte (v_mem s') c u = Some e' /\ copied s s' e e') /\
    (forall b u, R !! b = Some (RPml4 b) -> ~ (b = c /\ vpn u ∈ vpn <$> vs) ->
       user_pte (v_mem s') b u = user_pte (v_mem s) b u).
Proof.
  revert R F s. induction vs as [|v vs IH]; intros R F s Hfk Hac Hnd Hall Hsp.
  { exists s, R, F. split_and!; [done|apply grows_refl, Hfk|intros v u e []%not_elem_of_nil|done]. }
  apply Forall_cons_1 in Hall as [[e He] Hall]. rewrite fmap_cons in Hnd. apply list.NoDup_cons in Hnd as [Hnv Hnd].
  pose proof (fork_page_spec R F s v e Hfk He) as H1. cbn [fork_pages].
  replace (4 * length (v :: vs))%nat with (4 + 4 * length vs)%nat in * by (simpl; lia).
  destruct (fork_page pmm cmm s v) as [[s1|s1]|k| |]; cbn [post] in H1; [|destruct H1; by eapply spare_le; [|done]; lia..|done|done].
  destruct H1 as (R1 & F1 & e1 & Hg1 & Hcp1 & Hm1 & Ho1). rewrite Ok_bind.
  assert (forall b, R !! b = Some (RPml4 b) -> R1 !! b = Some (RPml4 b)) as HR1.
  { intros b Hb. eapply lookup_weaken; [done|apply Hg1]. }
  assert (R !! a = Some (RPml4 a) /\ R !! c = Some (RPml4 c)) as [Ha Hc] by (split; [apply (fk_parent _ _ _ Hfk)|apply (fk_child _ _ _ Hfk)]).
  assert (forall u, user_pte (v_mem s1) a u = user_pte (v_mem s) a u) as Hpar by (intros u; apply Ho1; naive_solver).
  destruct (IH R1 F1 s1) as (s' & R' & F' & E & Hg2 & Hm2 & Ho2); try done.
  { by eapply forking_grows. }
  { eapply Forall_impl; [|done]. intros w. by rewrite Hpar. }
  { by apply (gr_spare _ _ _ _ _ _ _ Hg1). }
  exists s', R', F'. split_and!; [done|by eapply grows_trans| |].
  - intros w u e2 [->|Hw]%elem_of_cons Hu He2.
    + rewrite He in He2. injection He2 as <-. exists e1.
      split; [rewrite Ho2; [by apply Hm1|by apply HR1|]; intros [_ Hin]; by rewrite Hu in Hin|].
      eapply copied_after; [by apply HR1|done|by apply (Hm1 v)|exact Hg2|apply Hg1].
    + rewrite <- Hpar in He2. destruct (Hm2 w u e2 Hw Hu He2) as (e' & He' & Hcp). exists e'. split; [done|].
      rewrite Hpar in He2. destruct (uo_user _ _ _ (fk_ok _ _ _ Hfk) a w e2 Ha He2) as [_ HF]. by eapply copied_before.
  - intros b u Hb Hne. rewrite Ho2, (Ho1 b u Hb); [done| |by apply HR1|].
    + intros [-> Hu]. apply Hne. split; [done|]. rewrite Hu. apply list_elem_of_here.
    + intros [-> Hu]. apply Hne. split; [done|]. by apply list_elem_of_further.
Qed.
End fork.

(** Free slots of a region table. *)
Definition free_slots (rs : list vm_region) : Z := countb (fun r => negb (r_used r)) rs.

Lemma claim_region_spec r rs :
  r_used r = true -> 0 < free_slots rs ->
  exists rs', first_region (claim_region r) rs = Some rs' /\ free_slots rs' = free_slots rs - 1 /\
    (forall mm u, in_regions (with_regions mm rs') u = in_regions (with_regions mm rs) u || region_holds r u) /\
    (forall x, x ∈ rs' -> x ∈ rs \/ x = r).
Proof.
  intros Hr Hfree. destruct (first_region (claim_region r) rs) as [rs'|] eqn:E.
  - exists rs'. split; [done|]. destruct (first_region_Some _ _ _ E) as (l & x & x' & k & -> & Hx & ->).
    unfold claim_region in Hx. destruct (r_used x) eqn:Ex; [done|]. injection Hx as <-. split_and!.
    + unfold free_slots. rewrite !countb_app, !countb_cons, Hr, Ex. simpl. lia.
    + intros mm u. rewrite !in_regions_app. unfold region_holds at 2. rewrite Ex. cbn [andb].
      by destruct (in_regions _ _), (region_holds _ _), (in_regions _ _).
    + intros y. rewrite !elem_of_app, !elem_of_cons. naive_solver.
  - exfalso. assert (free_slots rs = 0) as Hz; [|lia]. clear Hfree. induction rs as [|x rs IH]; [done|].
    simpl in E. unfold claim_region in E at 1. unfold free_slots. rewrite countb_cons.
    destruct (r_used x); [|done]. fold (free_slots rs). rewrite IH; [done|]. by destruct (first_region _ rs).
Qed.

Lemma fork_regions_spec pmm a c R F s rs cmm :
  forking pmm cmm a c R F s -> a <> c -> NoDup (vpn <$> flat_map region_pages rs) ->
  Forall (fun v => is_Some (user_pte (v_mem s) a v)) (flat_map region_pages rs) ->
  spare (4 * length (flat_map region_pages rs)) (v_frames s) -> zlen rs <= free_slots (mm_regions cmm) ->
  exists s' cmm' R' F', fork_regions pmm cmm s rs = Ok (true, s', cmm') /\
    grows (4 * length (flat_map region_pages rs)) R F s R' F' s' /\
    (forall v u e, v ∈ flat_map region_pages rs -> vpn u = vpn v -> user_pte (v_mem s) a v = Some e ->
       exists e', user_pte (v_mem s') c u = Some e' /\ copied s s' e e') /\
    (forall b u, R !! b = Some (RPml4 b) -> ~ (b = c /\ vpn u ∈ vpn <$> flat_map region_pages rs) ->
       user_pte (v_mem s') b u = user_pte (v_mem s) b u) /\
    mm_cr3 cmm' = mm_cr3 cmm /\
    (forall u, in_regions cmm' u = in_regions cmm u || in_regions (with_regions cmm rs) u) /\
    (forall x, x ∈ mm_regions cmm' -> x ∈ mm_regions cmm \/ x ∈ rs).
Proof.
  revert R F s cmm. induction rs as [|r rs IH]; intros R F s cmm Hfk Hac Hnd Hall Hsp Hfree.
  { exists s, cmm, R, F. split_and!; [done|apply grows_refl, Hfk|intros v u e []%not_elem_of_nil|done|done| |by left].
    intros u. by rewrite orb_false_r. }
  cbn [fork_regions flat_map] in *.
  assert (zlen (r :: rs) = 1 + zlen rs) as El by (unfold zlen; simpl; lia). rewrite El in Hfree. pose proof (zlen_nonneg rs).
  assert (forall cm u, in_regions (with_regions cm (r :: rs)) u = region_holds r u || in_regions (with_regions cm rs) u) as Hcons by done.
  destruct (r_used r) eqn:Eu.
  2:{ assert (region_pages r = []) as Ep by (unfold region_pages; by rewrite Eu). rewrite Ep in *. cbn [app] in *.
    destruct (IH R F s cmm) as (s' & cmm' & R' & F' & E & Hg & Hm & Ho & Hcr & Hin & Hx); try done; [lia|].
    exists s', cmm', R', F'. split_and!; try done.
    - intros u. rewrite Hin, Hcons. unfold region_holds. by rewrite Eu.
    - intros x Hx'. destruct (Hx x Hx'); [by left|right]. by apply list_elem_of_further. }
  assert (region_pages r = pages (r_start r) (r_end r)) as Ep by (unfold region_pages; by rewrite Eu). rewrite <- Ep.
  set (vs := region_pages r) in *. set (ws := flat_map region_pages rs) in *.
  rewrite fmap_app in Hnd. apply list.NoDup_app in Hnd as (Hnd1 & Hdisj & Hnd2). apply Forall_app in Hall as [Hall1 Hall2].
  rewrite length_app in *. replace (4 * (length vs + length ws))%nat with (4 * length vs + 4 * length ws)%nat in * by lia.
  destruct (fork_pages_spec pmm cmm a c R F s vs) as (s1 & R1 & F1 & -> & Hg1 & Hm1 & Ho1); try done.
  { eapply spare_le; [|done]. lia. }
  rewrite Ok_bind. destruct (claim_region_spec r (mm_regions cmm)) as (crs & -> & Hfr & Hin1 & Hx1); [done|lia|].
  assert (forall b, R !! b = Some (RPml4 b) -> R1 !! b = Some (RPml4 b)) as HR1.
  { intros b Hb. eapply lookup_weaken; [done|apply Hg1]. }
  assert (R !! a = Some (RPml4 a)) as Ha by apply (fk_parent _ _ _ _ _ _ _ Hfk).
  assert (R !! c = Some (RPml4 c)) as Hc by apply (fk_child _ _ _ _ _ _ _ Hfk).
  assert (forall u, user_pte (v_mem s1) a u = user_pte (v_mem s) a u) as Hpar by (intros u; apply Ho1; naive_solver).
  assert (forking pmm (with_regions cmm crs) a c R1 F1 s1) as Hfk1.
  { destruct (forking_grows _ _ _ _ _ _ _ _ _ _ _ Hfk Hg1). by split. }
  destruct (IH R1 F1 s1 (with_regions cmm crs)) as (s' & cmm' & R' & F' & E & Hg & Hm & Ho & Hcr & Hin & Hx); try done.
  { eapply Forall_impl; [|done]. intros w. by rewrite Hpar. }
  { by apply (gr_spare _ _ _ _ _ _ _ Hg1). }
  { cbn [mm_regions with_regions]. rewrite Hfr. lia. }
  exists s', cmm', R', F'. split_and!; [done|by eapply grows_trans| | |done| |].
  - intros v u e [Hv|Hv]%elem_of_app Hu He.
    + destruct (Hm1 v u e Hv Hu He) as (e' & He' & Hcp). exists e'.
      split; [rewrite Ho; [done|by apply HR1|]; intros [_ Hin']; rewrite Hu in Hin'; by eapply Hdisj; [apply list_elem_of_fmap_2|]|].
      eapply copied_after; [by apply HR1|done|done|exact Hg|apply Hg1].
    + rewrite <- Hpar in He. destruct (Hm v u e Hv Hu He) as (e' & He' & Hcp). exists e'. split; [done|].
      rewrite Hpar in He. destruct (uo_user _ _ _ (fk_ok _ _ _ _ _ _ _ Hfk) a v e Ha He) as [_ HF]. by eapply copied_before.
  - intros b u Hb Hne. rewrite fmap_app in Hne. rewrite Ho, Ho1; [done|done| |by apply HR1|].
    + clear -Hne. set_solver.
    + clear -Hne. set_solver.
  - intros u. rewrite Hin, Hin1, Hcons, with_regions_id. rewrite <- orb_assoc. done.
  - intros x Hx'. rewrite elem_of_cons. destruct (Hx x Hx') as [Hx2|]; [|tauto]. destruct (Hx1 x Hx2); tauto.
Qed.

Lemma free_slots_unused rs : Forall (fun r => r_used r = false) rs -> free_slots rs = zlen rs.
Proof. induction 1 as [|r rs Hr _ IH]; [done|]. unfold free_slots, zlen in *. rewrite countb_cons, Hr, IH. simpl. lia. Qed.

(** C12: Fork. With four spare frames for each page of the parent, a parent
    whose regions do not overlap and cover exactly its user mappings ([mm_ok]:
    pages are copied region by region, so a mapping that no region records
    would not reach the child), a child without user mappings and without
    regions, and at least as many region slots as the parent: the call
    succeeds, every user mapping of the parent has a counterpart in the child
    on a frame that was free, with the same bytes, and the child has no other;
    the mappings and the bytes of the parent and of every other space are
    unchanged, and the child's regions and cursors are those of the parent.
    The child's entry takes the low flags of the parent's, so it is executable
    also where the parent's is not. *)
Theorem uvm_fork_correct R F s pmm cmm a c :
  let m := v_mem s in
  uvm_ok R F s -> in_space R s ->
  is_root R (vmm_la57 s) (mm_cr3 pmm) a -> is_root R (vmm_la57 s) (mm_cr3 cmm) c -> a <> c ->
  mm_ok m a pmm -> NoDup (vpn <$> mm_pages pmm) ->
  (forall v, user_pte m c v = None) -> Forall (fun r => r_used r = false) (mm_regions cmm) ->
  zlen (mm_regions pmm) <= zlen (mm_regions cmm) -> spare (4 * length (mm_pages pmm)) (v_frames s) ->
  exists s' cmm' R' F', uvm_fork s pmm cmm = Ok (0, s', cmm') /\
    grows (4 * length (mm_pages pmm)) R F s R' F' s' /\
    (forall v, match user_pte m a v with
               | Some e => exists e', user_pte (v_mem s') c v = Some e' /\ copied s s' e e'
               | None => user_pte (v_mem s') c v = None
               end) /\
    (forall b v, R !! b = Some (RPml4 b) -> b <> c -> user_pte (v_mem s') b v = user_pte m b v) /\
    mm_ok (v_mem s') c cmm' /\ (forall u, in_regions cmm' u = in_regions pmm u) /\
    mm_brk_start cmm' = mm_brk_start pmm /\ mm_brk_cur cmm' = mm_brk_cur pmm /\ mm_mmap_top cmm' = mm_mmap_top pmm.
Proof.
  intros m Hok Hin Hra Hrc Hac Hmm Hnd Hnone Hun Hlen Hsp. unfold uvm_fork. rewrite (uvm_enter_ok R F s pmm a Hok Hra).
  set (s0 := with_walk s (entry_addr (mm_cr3 pmm)) a).
  destruct (fork_regions_spec pmm a c R F s0 (mm_regions pmm) cmm) as (s1 & cmm1 & R' & F' & -> & Hg & Hm & Ho & _ & Hreg & Hx); try done.
  { split; [by apply uvm_ok_walk|done..]. }
  { apply list.Forall_forall. intros v Hv. apply (mo_mapped _ _ _ Hmm). by apply (elem_of_mm_pages _ _ _ _ Hmm). }
  { rewrite free_slots_unused by done. done. }
  rewrite Ok_bind. fold (mm_pages pmm) in *. destruct (uvm_leave_ok _ _ _ _ _ _ _ _ _ Hin Hg) as [Hg' Em].
  assert (forall u, in_regions cmm1 u = in_regions pmm u) as Hreg'.
  { intros u. rewrite Hreg. assert (in_regions cmm u = false) as ->; [|done]. unfold in_regions.
    clear -Hun. induction Hun as [|r rs Hr _ IH]; [done|]. simpl. by rewrite Hr. }
  assert (forall v, match user_pte m a v with
               | Some e => exists e', user_pte (v_mem s1) c v = Some e' /\ copied s0 s1 e e'
               | None => user_pte (v_mem s1) c v = None end) as Hmap.
  { intros v. destruct (user_pte m a v) as [e|] eqn:He.
    - destruct (mm_pages_cover _ _ _ _ _ Hmm He) as (w & Hw & E). apply (Hm w v e Hw (eq_sym E)).
      rewrite <- He. by apply user_pte_page.
    - rewrite Ho; [apply Hnone|apply Hrc|]. intros [_ (w & E & Hw)%list_elem_of_fmap].
      apply (elem_of_mm_pages _ _ _ _ Hmm) in Hw as [_ [e He']%(mo_mapped _ _ _ Hmm)]. rewrite (user_pte_page m a v w E) in He. congruence. }
  eexists _, _, R', F'. split_and!; [done|exact Hg'|rewrite Em; exact Hmap|rewrite Em; intros b v Hb Hne; apply Ho; naive_solver| |done..].
  rewrite Em. split.
  - cbn [mm_regions with_cursors]. apply list.Forall_forall. intros r Hr Hu. destruct (Hx r Hr) as [Hr'|Hr'].
    + rewrite list.Forall_forall in Hun. rewrite (Hun r Hr') in Hu. done.
    + pose proof (mo_shape _ _ _ Hmm) as Hsh. rewrite list.Forall_forall in Hsh. by apply (Hsh r Hr').
  - intros v Hv. change (in_regions cmm1 v = true) in Hv. rewrite Hreg' in Hv. destruct (mo_mapped _ _ _ Hmm v Hv) as [e He].
    specialize (Hmap v). rewrite He in Hmap. destruct Hmap as (e' & -> & _). done.
  - intros v e He. specialize (Hmap v). destruct (user_pte m a v) as [e0|] eqn:E0; [|congruence].
    destruct (mo_tracked _ _ _ Hmm v e0 E0) as (u & Hu & Hru). exists u. split; [done|]. change (in_regions cmm1 u = true). by rewrite Hreg'.
Qed.

(** ** Copies to and from user addresses *)

(** The byte a process of space [a] sees at [v]. *)
Definition user_byte (m : pmem) (a v : Z) : option Z :=
  e ← user_pte m a v; Some (rd8 m (Z.land e PHYS_MASK + v mod 4096)).

Lemma uvm_ok_mem R F s p m' :
  uvm_ok R F s -> R !! p = None -> only_data p (v_mem s) m' -> uvm_ok R F (with_mem s m') /\ same_tr R (v_mem s) m'.
Proof.
  intros [Hvm Hfr Hus] Hp Hd. destruct (data_tables R (v_mem s) m' p (vo_tables _ _ Hvm) Hp Hd) as [Ht Htr].
  split; [|done]. split; [split; [done|apply (vo_wf _ _ Hvm)|apply (vo_used _ _ Hvm)]|done|].
  intros a v e Ha He. apply Hus; [done|]. rewrite <- He. symmetry. by apply (Htr user_view).
Qed.

(** Bytes stored in the frame behind a user page are seen by that page only. *)
Lemma write_page R F s a v e off bs :
  let p := Z.land e PHYS_MASK in
  let m' := put_bytes (v_mem s) (p + off) bs in
  uvm_ok R F s -> R !! a = Some (RPml4 a) -> user_pte (v_mem s) a v = Some e ->
  Forall is_byte bs -> 0 <= off -> off + zlen bs <= 4096 ->
  uvm_ok R F (with_mem s m') /\ same_tr R (v_mem s) m' /\
  forall b u, R !! b = Some (RPml4 b) -> user_byte m' b u =
    if bool_decide (b = a /\ vpn u = vpn v) && (off <=? u mod 4096) && (u mod 4096 <? off + zlen bs)
    then Some (default 0 (zget bs (u mod 4096 - off))) else user_byte (v_mem s) b u.
Proof.
  intros p m' Hok Ha He Hbs Hoff Hlen. destruct (uo_user _ _ _ Hok a v e Ha He) as [_ HF].
  destruct (uo_frame _ _ _ Hok _ _ HF) as ([Hp0 Hpm] & HpR & _). fold p in Hp0, Hpm, HpR, HF.
  destruct (uvm_ok_mem R F s p m' Hok HpR) as [Hok' Htr].
  { intros q j. by apply put_bytes_data; [|lia|lia]. }
  split_and!; [done|done|]. intros b u Hb. unfold user_byte.
  assert (user_pte m' b u = user_pte (v_mem s) b u) as -> by by apply (Htr user_view).
  destruct (user_pte (v_mem s) b u) as [e'|] eqn:He'.
  - destruct (uo_user _ _ _ Hok b u e' Hb He') as [_ HF']. destruct (uo_frame _ _ _ Hok _ _ HF') as ([Hp0' Hpm'] & _).
    cbn [mbind option_bind]. unfold m'. rewrite rd8_put by done. case_bool_decide as Hcase; cbn [andb].
    + destruct Hcase as [-> Hv]. rewrite (user_pte_page _ _ u v Hv), He in He'. injection He' as <-. fold p.
      replace (p + u mod 4096 - (p + off)) with (u mod 4096 - off) by lia. zcases; done.
    + assert (Z.land e' PHYS_MASK <> p) as Hne.
      { intros E. rewrite E, HF in HF'. injection HF' as E1 E2. destruct Hcase. by split. }
      generalize dependent (Z.land e' PHYS_MASK). intros p' HF' Hp0' Hpm' Hne.
      destruct (Z.leb_spec (p + off) (p' + u mod 4096)), (Z.ltb_spec (p' + u mod 4096) (p + off + zlen bs)); cbn [andb]; try done.
      exfalso. clear -Hp0 Hpm Hp0' Hpm' Hne H0 H1 Hoff Hlen. mlia.
  - case_bool_decide as Hcase; [|done]. destruct Hcase as [-> Hv]. rewrite (user_pte_page _ _ u v Hv) in He'. congruence.
Qed.

(** A copy to [dst] that changed exactly the bytes of [src] there. *)
Definition written R s m' (dst : Z) (src : list Z) : Prop :=
  forall b v, R !! b = Some (RPml4 b) -> 0 <= v < 2 ^ 48 -> user_byte m' b v =
    if bool_decide (b = vmm_pml4 s) && (dst <=? v) && (v <? dst + zlen src) then Some (default 0 (zget src (v - dst)))
    else user_byte (v_mem s) b v.

(** The frame behind a mapped page, as the copy loops find it. *)
Lemma chunk_frame R F s v e :
  uvm_ok R F s -> R !! vmm_pml4 s = Some (RPml4 (vmm_pml4 s)) -> 0 <= v < 4294967296 ->
  user_pte (v_mem s) (vmm_pml4 s) v = Some e ->
  page_down v = v - v mod 4096 /\ vmm_get_phys s (page_down v) = Z.land e PHYS_MASK /\ page_addr (Z.land e PHYS_MASK).
Proof.
  intros Hok Ha Hv He. pose proof (uo_vm _ _ _ Hok) as Hvm.
  destruct (uo_user _ _ _ Hok _ v e Ha He) as [_ HF]. destruct (uo_frame _ _ _ Hok _ _ HF) as (Hpa & _).
  rewrite page_down_spec by lia. split_and!; [done| |done]. set (w := v - v mod 4096).
  assert (user_pte (v_mem s) (vmm_pml4 s) w = Some e) as He'.
  { rewrite <- He. apply user_pte_page. unfold w. rewrite !vpn_low by mlia. mlia. }
  rewrite (get_phys_translate R s w Hvm Ha), (user_pte_translate R _ _ w e (vo_tables _ _ Hvm) Ha He').
  unfold default, from_option, id. rewrite lor_offset by (destruct Hpa; lia). unfold w. mlia.
Qed.

(** A window that stays in the page of [dst], by page and offset or by
    address. *)
Lemma window_offset dst n v :
  0 <= dst < 4294967296 -> n <= 4096 - dst mod 4096 -> dst <= v < dst + n -> v mod 4096 - dst mod 4096 = v - dst.
Proof. intros. mlia. Qed.

Lemma page_window (a dst n v : Z) :
  0 <= dst < 4294967296 -> 0 <= v < 2 ^ 48 -> 0 <= n <= 4096 - dst mod 4096 ->
  bool_decide (a = a /\ vpn v = vpn dst) && (dst mod 4096 <=? v mod 4096) && (v mod 4096 <? dst mod 4096 + n) =
  (dst <=? v) && (v <? dst + n).
Proof.
  intros Hd Hv Hn. change (2 ^ 48) with 281474976710656 in Hv. apply eq_iff_eq_true.
  rewrite !andb_true_iff, bool_decide_eq_true, !Z.leb_le, !Z.ltb_lt. unfold vpn. change (2 ^ 36) with 68719476736.
  split; intros; mlia.
Qed.

Lemma write_chunks_spec fuel R F s dst src :
  let a := vmm_pml4 s in
  uvm_ok R F s -> R !! a = Some (RPml4 a) -> Forall is_byte src -> 0 <= dst -> dst + zlen src <= 4294967296 ->
  (forall v, dst <= v < dst + zlen src -> is_Some (user_pte (v_mem s) a v)) -> (length src < fuel)%nat ->
  exists m', write_chunks fuel s dst src = Ok (with_mem s m') /\ uvm_ok R F (with_mem s m') /\
    same_tr R (v_mem s) m' /\ written R s m' dst src.
Proof.
  intros a. revert s a dst src. induction fuel as [|fuel IH]; intros s a dst src Hok Ha Hbs Hd Hd4 Hmap Hfuel; [lia|].
  cbn [write_chunks]. pose proof (zlen_nonneg src). destruct (Z.eqb_spec (zlen src) 0) as [Ez|Hnz].
  { exists (v_mem s). assert (with_mem s (v_mem s) = s) as -> by by destruct s. split_and!; [done|done|done|].
    intros b v Hb Hv. rewrite Ez. case_bool_decide; zcases; done. }
  destruct (Hmap dst) as [e He]; [lia|].
  destruct (chunk_frame R F s dst e Hok Ha ltac:(lia) He) as (Epd & -> & Hpa). rewrite Epd.
  destruct (Z.eqb_spec (Z.land e PHYS_MASK) 0) as [E0|_]; [destruct Hpa; lia|].
  replace (dst - (dst - dst mod 4096)) with (dst mod 4096) by lia. unfold PAGE_SIZE.
  set (off := dst mod 4096). assert (0 <= off < 4096) as Hoff by (unfold off; mlia).
  set (n := Z.to_nat (Z.min (4096 - off) (zlen src))).
  assert (Z.of_nat n = Z.min (4096 - off) (zlen src)) as En by lia.
  assert (zlen (take n src) = Z.of_nat n) as Et by (unfold zlen in *; rewrite length_take; lia).
  assert (zlen (drop n src) = zlen src - Z.of_nat n) as Edr by (unfold zlen in *; rewrite length_drop; lia).
  destruct (write_page R F s a dst e off (take n src)) as (Hok1 & Htr1 & Hb1); [done|done|done|by apply Forall_take|lia|lia|].
  set (m1 := put_bytes _ _ _) in *.
  assert (u64 (dst + Z.of_nat n) = dst + Z.of_nat n) as -> by (unfold u64; apply Z.mod_small; lia).
  destruct (IH (with_mem s m1) (dst + Z.of_nat n) (drop n src)) as (m' & E & Hok' & Htr & Hw).
  { done. } { done. } { by apply Forall_drop. } { lia. } { lia. }
  { intros v Hv. cbn [v_mem with_mem vmm_pml4]. fold a.
    assert (user_pte m1 a v = user_pte (v_mem s) a v) as -> by by apply (Htr1 user_view). apply Hmap. lia. }
  { rewrite length_drop. unfold zlen in *. lia. }
  exists m'. split_and!; [exact E|exact Hok'|by eapply same_tr_trans|].
  intros b v Hb Hv. rewrite (Hw b v Hb Hv), Edr. cbn [vmm_pml4 with_mem v_mem]. fold a. rewrite (Hb1 b v Hb).
  destruct (decide (b = a)) as [->|Hne].
  2:{ rewrite !bool_decide_eq_false_2 by (done || by intros [? _]). done. }
  rewrite (bool_decide_eq_true_2 (a = a)) by done. cbn [andb]. rewrite Et, page_window by lia.
  replace (dst + Z.of_nat n + (zlen src - Z.of_nat n)) with (dst + zlen src) by lia.
  destruct (Z.ltb_spec v (dst + Z.of_nat n)) as [Hlow|Hhigh].
  - rewrite (proj2 (Z.leb_gt _ _)), (proj2 (Z.ltb_lt v (dst + zlen src))), !andb_true_r by lia. cbn [andb].
    destruct (Z.leb_spec dst v); [|done]. do 2 f_equal. rewrite <- (Nat2Z.id n), zget_take by (fold off; mlia). f_equal.
    unfold off. apply (window_offset dst (Z.of_nat n)); lia.
  - rewrite (proj2 (Z.leb_le _ _)), (proj2 (Z.leb_le dst v)), andb_false_r by lia. cbn [andb].
    destruct (Z.ltb_spec v (dst + zlen src)); [|done]. do 2 f_equal. rewrite <- (Nat2Z.id n), zget_drop by lia. f_equal. lia.
Qed.

Lemma read_chunks_spec fuel R F s dst src :
  let a := vmm_pml4 s in
  uvm_ok R F s -> R !! a = Some (RPml4 a) -> 0 <= src -> src + zlen dst <= 4294967296 ->
  (forall v, src <= v < src + zlen dst -> is_Some (user_pte (v_mem s) a v)) -> (length dst < fuel)%nat ->
  exists d, read_chunks fuel s dst src = Ok d /\ zlen d = zlen dst /\
    forall i, 0 <= i < zlen dst -> zget d i = user_byte (v_mem s) a (src + i).
Proof.
  intros a. revert dst src. induction fuel as [|fuel IH]; intros dst src Hok Ha Hd Hd4 Hmap Hfuel; [lia|].
  cbn [read_chunks]. pose proof (zlen_nonneg dst). destruct (Z.eqb_spec (zlen dst) 0) as [Ez|Hnz].
  { exists []. split_and!; [done|done|lia]. }
  destruct (Hmap src) as [e He]; [lia|].
  destruct (chunk_frame R F s src e Hok Ha ltac:(lia) He) as (Epd & -> & Hpa). rewrite Epd.
  destruct (Z.eqb_spec (Z.land e PHYS_MASK) 0) as [E0|_]; [destruct Hpa; lia|].
  replace (src - (src - src mod 4096)) with (src mod 4096) by lia. unfold PAGE_SIZE.
  set (off := src mod 4096). assert (0 <= off < 4096) as Hoff by (unfold off; mlia).
  set (n := Z.to_nat (Z.min (4096 - off) (zlen dst))).
  assert (Z.of_nat n = Z.min (4096 - off) (zlen dst)) as En by lia.
  assert (zlen (drop n dst) = zlen dst - Z.of_nat n) as Edr by (unfold zlen in *; rewrite length_drop; lia).
  assert (u64 (src + Z.of_nat n) = src + Z.of_nat n) as -> by (unfold u64; apply Z.mod_small; lia).
  destruct (IH (drop n dst) (src + Z.of_nat n)) as (d & -> & Hl & Hget); [done|done|lia|lia|intros v Hv; apply Hmap; lia| |].
  { rewrite length_drop. unfold zlen in *. lia. }
  rewrite Ok_bind. set (p := Z.land e PHYS_MASK) in *.
  assert (zlen (get_bytes (v_mem s) (p + off) n) = Z.of_nat n) as Eg by (unfold zlen, get_bytes; rewrite length_fmap, length_seqZ; lia).
  eexists. split_and!; [done|rewrite zlen_app; lia|]. intros i Hi. destruct (decide (i < Z.of_nat n)) as [Hlt|Hge].
  - rewrite zget_app_l, zget_get_bytes by lia. unfold user_byte.
    assert (vpn (src + i) = vpn src) as Ev by (rewrite !vpn_low by lia; unfold off in *; mlia).
    rewrite (user_pte_page _ _ _ _ Ev), He. cbn [mbind option_bind]. fold p. do 2 f_equal. unfold off in *. mlia.
  - rewrite zget_app_r, Eg, Hget by lia. f_equal. lia.
Qed.

(** C21: Copies to user memory. On a range of mapped pages of a process,
    [uvm_write_user_va] ends, stores exactly the given bytes at the given user
    address and changes no other user byte, of this or of any other space;
    and [uvm_read_user_va] then reads these bytes back, whichever space is
    being edited. *)
Theorem uvm_user_copy_roundtrip R F s mm a va bs buf :
  uvm_ok R F s -> in_space R s -> is_root R (vmm_la57 s) (mm_cr3 mm) a ->
  Forall is_byte bs -> 0 <= va -> va + zlen bs <= 4294967296 -> zlen buf = zlen bs ->
  (forall v, va <= v < va + zlen bs -> is_Some (user_pte (v_mem s) a v)) ->
  exists s', uvm_write_user_va s mm va bs = Ok s' /\ uvm_ok R F s' /\ edits s s' /\ same_tr R (v_mem s) (v_mem s') /\
    (forall b v, R !! b = Some (RPml4 b) -> 0 <= v < 2 ^ 48 -> user_byte (v_mem s') b v =
       if bool_decide (b = a) && (va <=? v) && (v <? va + zlen bs) then Some (default 0 (zget bs (v - va)))
       else user_byte (v_mem s) b v) /\
    uvm_read_user_va s' mm buf va = Ok (bs, s').
Proof.
  intros Hok Hin Hroot Hbs Hva Hva4 Hbuf Hmap. unfold uvm_write_user_va. rewrite (uvm_enter_ok R F s mm a Hok Hroot).
  set (s0 := with_walk s (entry_addr (mm_cr3 mm)) a).
  destruct (write_chunks_spec (S (length bs)) R F s0 va bs) as (m' & -> & Hok' & Htr & Hw);
    [by apply uvm_ok_walk|apply Hroot|done..|lia|].
  rewrite Ok_bind. set (s1 := with_mem s0 m') in *.
  destruct (uvm_ok_leave R F s s1 _ a Hin Hok' (edits_upd _ _ _ _ eq_refl)) as (Hok2 & Hed & Em & _).
  unfold uvm_leave. set (s' := vmm_set_root_ptr s1 (vmm_active_root s)) in *.
  exists s'. rewrite Em. split_and!; [done|done|done|done|exact Hw|].
  destruct (edits_fields _ _ Hed) as (Ep & El & Er & _). unfold uvm_read_user_va.
  assert (is_root R (vmm_la57 s') (mm_cr3 mm) a) as Hroot' by by rewrite El. rewrite (uvm_enter_ok R F s' mm a Hok2 Hroot').
  destruct (read_chunks_spec (S (length buf)) R F (with_walk s' (entry_addr (mm_cr3 mm)) a) buf va) as (d & -> & Hl & Hget);
    [by apply uvm_ok_walk|apply Hroot|done|lia| |lia|].
  { intros v Hv. cbn [vmm_pml4 with_walk v_mem]. rewrite Em. change (v_mem s1) with m'.
    assert (user_pte m' a v = user_pte (v_mem s) a v) as -> by (apply (Htr user_view), Hroot). apply Hmap. lia. }
  rewrite Ok_bind. do 2 f_equal.
  - apply zget_ext; [lia|]. intros i Hi. rewrite Hget by lia. cbn [v_mem with_walk vmm_pml4]. rewrite Em. change (v_mem s1) with m'.
    rewrite (Hw a (va + i)); [|apply Hroot|lia]. cbn [s0 with_walk vmm_pml4]. rewrite bool_decide_eq_true_2 by done.
    rewrite (proj2 (Z.leb_le _ _)), (proj2 (Z.ltb_lt _ _)) by lia. cbn [andb]. replace (va + i - va) with i by lia.
    destruct (zget_in_range bs i) as [x ->]; [lia|done].
  - unfold uvm_leave. rewrite (set_root_ok R F _ (vmm_active_root s') (vmm_pml4 s')).
    + rewrite Er. destruct Hin as [_ ->]. rewrite <- Er. by destruct s'.
    + by apply uvm_ok_walk.
    + cbn [vmm_la57 with_walk]. rewrite Er, Ep, El. apply Hin.
Qed.
End user.

(** ** The memory-mapping call ends

    On any state, well formed or not. *)

Section returns.
Context {A : Type} `{FrameAlloc A}.
Implicit Types s : vmm A.

(** A result that is neither a fault nor out of fuel. *)
Definition ends {B} (r : res B) : Prop := post (fun _ => True) (fun _ => True) r.

Lemma ends_seq {B C} (m : res B) (f : B -> res C) : ends m -> (forall b, ends (f b)) -> ends (m ≫= f).
Proof. intros Hm Hf. eapply post_bind; [exact Hm|]. intros b _. apply Hf. Qed.

Lemma ends_fill t g m : ends (fill_table t g m).
Proof. unfold fill_table. apply (for_post (fun _ _ => True)); [lia|exact I|intros; exact I]. Qed.

Lemma ends_zero t m : ends (zero_page t m).
Proof. unfold zero_page. apply ends_fill. Qed.

Lemma ends_map_page s v p f : ends (vmm_map_page s v p f).
Proof.
  assert (forall s t i fl, ends (ensure_table s t i fl)) as Hens.
  { intros s' t i fl. unfold ensure_table. destruct (present _); [exact I|]. destruct (frame_alloc _) as [q fr].
    destruct (q =? 0); [exact I|]. apply ends_seq; [apply ends_zero|intros; exact I]. }
  unfold vmm_map_page. generalize (if vmm_pml4 s =? 0 then vmm_init s else s). intros s0. apply ends_seq.
  { unfold ensure_pdpt. apply ends_seq; [apply Hens|]. intros [s1 n]. destruct (truthy _); exact I. }
  intros [s1 n1]. apply ends_seq; [apply Hens|]. intros [s2 n2]. apply ends_seq.
  { unfold ensure_pt. destruct (_ && _).
    - destruct (truthy _); [|intros; exact I]. apply ends_seq; [|intros; exact I]. unfold split_huge. destruct (frame_alloc _) as [q fr].
      destruct (q =? 0); [exact I|]. apply ends_seq; [apply ends_fill|intros; exact I].
    - apply ends_seq; [apply Hens|]. intros [s3 n3]; exact I. }
  intros [[s3 n3]|]; exact I.
Qed.

Lemma ends_map_range s mm lo hi prot : ends (uvm_map_range s mm lo hi prot).
Proof.
  unfold uvm_map_range. destruct (hi <=? lo); [exact I|]. destruct (uvm_enter s mm) as [old s0].
  apply ends_seq; [|intros [[] s1]; exact I]. generalize (pages (page_down lo) (page_up hi)). intros vs.
  revert s0. induction vs as [|v vs IH]; intros s0; [exact I|]. cbn [map_pages]. apply ends_seq; [|intros [s1|s1]; [apply IH|exact I]].
  unfold map_one. destruct (present _ && user _).
  - apply ends_seq; [apply ends_map_page|intros; exact I].
  - destruct (frame_alloc _) as [q fr]. destruct (q =? 0); [exact I|]. apply ends_seq; [apply ends_map_page|].
    intros s1. apply ends_seq; [apply ends_zero|intros; exact I].
Qed.

Lemma ends_mmap_anon s mm hint len prot fixed : ends (uvm_mmap_anon s mm hint len prot fixed).
Proof.
  unfold uvm_mmap_anon. destruct fixed.
  - destruct (_ || _); [exact I|]. destruct (uvm_unmap_range _ _ _ _) as [s1 mm1]. apply ends_seq; [apply ends_map_range|].
    intros [[rc s2] mm2]; exact I.
  - destruct (_ <? u64 _); [exact I|]. apply ends_seq; [apply ends_map_range|]. intros [[rc s2] mm2]. destruct (truthy rc); exact I.
Qed.

Lemma page_down_offset a : 0 <= a < 2 ^ 64 -> 0 <= a - page_down a < 4096.
Proof. intros Ha. rewrite page_down_spec by exact Ha. mlia. Qed.

Lemma ends_write s mm va bs : 0 <= va < 2 ^ 64 -> ends (uvm_write_user_va s mm va bs).
Proof.
  intros Hva. unfold uvm_write_user_va. destruct (uvm_enter s mm) as [old s0]. apply ends_seq; [|intros; exact I].
  assert (length bs < S (length bs))%nat as Hf by lia. revert Hf. generalize (S (length bs)). intros fuel. revert s0 va bs Hva.
  induction fuel as [|fuel IH]; intros s0 va bs Hva Hf; [lia|]. cbn [write_chunks].
  pose proof (zlen_nonneg bs). destruct (Z.eqb_spec (zlen bs) 0); [exact I|]. destruct (_ =? 0); [exact I|].
  pose proof (page_down_offset va Hva). apply IH; [unfold u64; apply Z.mod_pos_bound; lia|].
  rewrite length_drop. unfold zlen, PAGE_SIZE in *. lia.
Qed.

Context `{VfsRead}.

Lemma ends_mmap_fill fuel s mm va fd off len fsize d :
  (forall fd n pos, (lnxvfs_pread fd n pos).1 <= n) -> len < 2 ^ 64 -> 0 <= d <= len -> (Z.to_nat (len - d) < fuel)%nat ->
  ends (mmap_fill fuel s mm va fd off len fsize d).
Proof.
  intros Hread Hlen. revert s d. induction fuel as [|fuel IH]; intros s d Hd Hf; [lia|]. cbn [mmap_fill].
  destruct (Z.ltb_spec d len) as [Hlt|]; [|exact I]. cbn [negb]. destruct (Z.leb_spec (u64 fsize) (u64 (off + d))) as [|Hpos]; [exact I|].
  set (n := if u64 fsize - _ <? _ then _ else _). assert (n <= len - d) as Hn.
  { unfold n. destruct (Z.ltb_spec (len - d) 1024); destruct (_ <? _) eqn:E; try apply Z.ltb_lt in E; lia. }
  specialize (Hread fd n (u64 (off + d))). destruct (lnxvfs_pread fd n (u64 (off + d))) as [r chunk]. cbn [fst] in Hread.
  destruct (Z.leb_spec r 0); [exact I|]. apply ends_seq; [apply ends_write; unfold u64; apply Z.mod_pos_bound; lia|].
  intros s2. assert (u64 (d + r) = d + r) as -> by (unfold u64; apply Z.mod_small; lia). apply IH; lia.
Qed.

(** C30: [sc_mmap] returns (or panics for lack of frames) on every state and
    all arguments: its loops over pages, chunks and file blocks end and it
    touches nothing out of range. Of the file layer this needs only that a
    read does not return more than it was asked for. *)
Theorem sc_mmap_ends s proc addr len prot flags fd off :
  (forall fd n pos, (lnxvfs_pread fd n pos).1 <= n) -> 0 <= len ->
  post (fun _ => True) (fun _ => True) (sc_mmap s proc addr len prot flags fd off).
Proof.
  intros Hread Hlen0. change (ends (sc_mmap s proc addr len prot flags fd off)).
  unfold sc_mmap. destruct proc as [mm|]; [|exact I]. destruct (len =? 0); [exact I|].
  destruct (Z.ltb_spec (UVM_MMAP_LIMIT - UVM_MMAP_BASE) len) as [|Hlen]; [exact I|].
  destruct (truthy _); [exact I|]. destruct (_ && truthy _); [exact I|]. destruct (_ && negb _); [exact I|].
  apply ends_seq; [apply ends_mmap_anon|]. intros [[va s1] mm1]. destruct (va =? 0); [exact I|].
  destruct (negb _); [|exact I]. destruct (_ <? 0); [exact I|].
  apply ends_seq; [|intros [rc s2]; exact I]. unfold UVM_MMAP_LIMIT, UVM_MMAP_BASE in Hlen.
  apply ends_mmap_fill; [exact Hread|lia|lia|lia].
Qed.
End returns.

(** ** Unmapping what is not the process's *)

Section foreign.
Context {A : Type} `{FL : FrameLaws A}.
Implicit Types s : vmm A.

Lemma pages_one a : aligned a -> pages a (a + 4096) = [a].
Proof.
  unfold aligned, pages, PAGE_SIZE. intros Ha. replace ((a + 4096 - a + 4095) / 4096) with 1 by mlia.
  change (seqZ 0 1) with [0]. cbn [fmap list_fmap]. f_equal. lia.
Qed.

(** A page that holds a table is no user page. *)
Lemma table_not_user R F s a v :
  uvm_ok R F s -> R !! a = Some (RPml4 a) -> aligned v -> translate (v_mem s) a v = Some v -> is_Some (R !! v) ->
  user_pte (v_mem s) a v = None.
Proof.
  intros Hok Ha Hv Htr [r Hr]. destruct (user_pte (v_mem s) a v) as [e|] eqn:He; [|done].
  rewrite (user_pte_translate R _ _ v e (vo_tables _ _ (uo_vm _ _ _ Hok)) Ha He) in Htr.
  destruct (uo_user _ _ _ Hok a v e Ha He) as [_ HF]. destruct (uo_frame _ _ _ Hok _ _ HF) as (_ & HR & _).
  change 4095 with (Z.ones 12) in Htr. rewrite (Z.land_ones v 12) in Htr by lia. change (2 ^ 12) with 4096 in Htr.
  rewrite Hv, Z.lor_0_r in Htr. congruence.
Qed.

(** C39: [munmap] does not ask whose mapping it takes away.  Let a page
    below 4 GiB hold a page table in use, and let the process's space map it at
    its own address, as the identity map of the kernel does: it is no user
    mapping.  Whatever the regions of the process are, unmapping that page
    succeeds, gives the frame of the table back to the allocator, so that the
    table invariant is lost, and removes the kernel's mapping: of that page or,
    where a 2 MiB page maps it, of all of the 2 MiB. *)
Theorem sc_munmap_frees_kernel_frames R F s mm a addr :
  uvm_ok R F s -> in_space R s -> is_root R (vmm_la57 s) (mm_cr3 mm) a ->
  aligned addr -> addr + 4096 <= 4294967296 -> translate (v_mem s) a addr = Some addr -> is_Some (R !! addr) ->
  let '(rc, s', _) := sc_munmap s (Some mm) addr 4096 in
  rc = 0 /\ user_pte (v_mem s) a addr = None /\
  frame_used (v_frames s) (addr / 4096) = true /\ frame_used (v_frames s') (addr / 4096) = false /\ ~ vm_ok R s' /\
  (forall v, vpn v = vpn addr -> translate (v_mem s') a v = None) /\
  (huge_at (v_mem s) a addr = true -> forall v, vpn v / 512 = vpn addr / 512 -> translate (v_mem s') a v = None).
Proof.
  intros Hok Hin Hroot Hal H4 Htr HR. pose proof HR as [r Hr]. pose proof (uo_vm _ _ _ Hok) as Hvm.
  pose proof (to_page _ _ (vo_tables _ _ Hvm) addr r Hr) as Hpa. pose proof (vo_used _ _ Hvm addr r Hr) as Hused.
  pose proof (table_not_user R F s a addr Hok (proj1 Hroot) Hal Htr HR) as Hnu. destruct Hpa as [Hpos Hal'].
  unfold sc_munmap, uvm_unmap_range. rewrite (uvm_enter_ok R F s mm a Hok Hroot).
  assert (Z.land addr 4095 = 0) as -> by (change 4095 with (Z.ones 12); by rewrite Z.land_ones by lia).
  rewrite u64_small, (page_down_spec addr), (page_up_spec (addr + 4096)) by lia.
  replace (addr - addr mod 4096) with addr by (unfold aligned in Hal; lia).
  replace (addr + 4096 + (- (addr + 4096)) mod 4096) with (addr + 4096) by (unfold aligned in Hal; mlia).
  rewrite (pages_one addr Hal). cbn [Z.eqb truthy negb unmap_pages fold_left].
  set (s0 := with_walk s (entry_addr (mm_cr3 mm)) a). assert (vm_ok R s0) as Hvm0 by (destruct Hvm; by split).
  pose proof (proj1 Hroot) as Ha. unfold unmap_one. rewrite (get_phys_translate R s0 addr Hvm0 Ha).
  change (translate (v_mem s0) (vmm_pml4 s0) addr) with (translate (v_mem s) a addr). rewrite Htr.
  unfold default, from_option, id. unfold truthy. destruct (Z.eqb_spec addr 0); [lia|]. cbn [negb].
  change (Z.land addr PAGE_MASK) with (entry_addr addr). rewrite page_entry_addr by by split.
  destruct (unmap_page_spec R s0 addr Hvm0 Ha) as (Hvm1 & _ & Ef & Hgone & _). set (s1 := vmm_unmap_page s0 addr) in *.
  unfold uvm_leave, vmm_set_root_ptr. unfold unmapped in Hgone. cbn [v_mem vmm_pml4 with_walk s0] in Hgone.
  assert (frame_used (v_frames (free_page s1 addr)) (addr / 4096) = false) as Hfree.
  { destruct (frame_free_spec (v_frames s1) addr (vo_wf _ _ Hvm1)) as [_ Hu]; [done..|]. simpl.
    rewrite Hu by mlia. by rewrite Z.eqb_refl. }
  split_and!; [done|done|done|exact Hfree| | |]; cbn [v_mem with_walk free_page].
  - intros Hvm'. pose proof (vo_used _ _ Hvm' addr r Hr) as X. cbn [v_frames with_walk] in X. congruence.
  - intros v Hv. apply (Hgone phys_view v). destruct (huge_at _ _ _); [by rewrite Hv|done].
  - intros Hh v Hv. apply (Hgone phys_view v). by rewrite Hh.
Qed.
End foreign.
