(* ===== verification/UvmPmm.v ===== *)
(** * User memory over the physical memory manager

    A machine with two address spaces, one of them with user pages, shows the
    theorems of [UserMemory.v] at work; and some system calls on it show where
    the code departs from what its comments say. *)

From S2P Require Import Prelude Pmm Vmm PageTables AddressSpaces VmmPmm Uvm UserMemory.

(** ** Checking the invariant on a concrete memory *)

(** The roles of the tables that a walk from the PML4 [a] reaches. *)
Definition add_children (m : pmem) (p : Z) (r : role) (R : gmap Z role) : gmap Z role :=
  fold_left (fun R i =>
    let e := ent m p i in
    match child r i with
    | Some c => if present e && negb (is_pd r && huge e) then <[entry_addr e := c]> R else R
    | None => R
    end) (seqZ 0 512) R.

Definition add_level (m : pmem) (R : gmap Z role) : gmap Z role :=
  map_fold (fun p r R => add_children m p r R) R R.

Definition roles_of (m : pmem) (roots : list Z) : gmap Z role :=
  add_level m (add_level m (add_level m (list_to_map ((fun a => (a, RPml4 a)) <$> roots)))).

(** The user frames, from the page tables. *)
Definition user_frames (m : pmem) (R : gmap Z role) : gmap Z (Z * Z) :=
  map_fold (fun p r F =>
    match r with
    | RPt o x => fold_left (fun F i =>
        let e := ent m p i in
        if present e && user e then <[Z.land e PHYS_MASK := (o, 512 * x + i)]> F else F) (seqZ 0 512) F
    | _ => F
    end) ∅ R.

Definition pt_okb (m : pmem) (F : gmap Z (Z * Z)) (pr : Z * role) : bool :=
  match pr.2 with
  | RPt o x => forallb (fun i =>
      let e := ent m pr.1 i in
      negb (present e && user e) ||
      ((512 * x + i <? 1048576) && bool_decide (F !! Z.land e PHYS_MASK = Some (o, 512 * x + i)))) (seqZ 0 512)
  | _ => true
  end.

Definition frame_okb (f : pmm) (R : gmap Z role) (px : Z * (Z * Z)) : bool :=
  page_addrb px.1 && bool_decide (R !! px.1 = None) && page_used (pmm_bitmap f) (px.1 / 4096).

Definition uvm_okb (R : gmap Z role) (F : gmap Z (Z * Z)) (s : vmm pmm) : bool :=
  tables_okb R (v_mem s) && roles_usedb (v_frames s) R && forallb (pt_okb (v_mem s) F) (map_to_list R) &&
  forallb (frame_okb (v_frames s) R) (map_to_list F).

Lemma uvm_okb_sound R F s : frame_wf (v_frames s) -> uvm_okb R F s = true -> uvm_ok R F s.
Proof.
  unfold uvm_okb. rewrite !andb_true_iff. intros Hwf [[[Ht Hu] Hpt] Hf].
  assert (vm_ok R s) as Hvm by (split; [by apply tables_okb_sound|done|by apply roles_usedb_sound]).
  split; [done| |].
  - intros p x Hp. rewrite forallb_forall in Hf.
    assert (frame_okb (v_frames s) R (p, x) = true) as Hok by by apply Hf, list_elem_of_In, elem_of_map_to_list.
    unfold frame_okb in Hok. simpl in Hok. rewrite !andb_true_iff, bool_decide_eq_true in Hok. destruct Hok as [[Hpa Hn] Hus].
    split_and!; try done. unfold page_addrb in Hpa. rewrite !andb_true_iff, !Z.ltb_lt, Z.eqb_eq in Hpa.
    unfold page_addr. tauto.
  - intros a v e Ha He. pose proof (vo_tables _ _ Hvm) as Htab.
    destruct (user_pte_leaf _ _ _ _ He) as (pt & Hl & Hent & Hpr & Hus).
    destruct (leaf_Some user_view R _ a v pt Htab Ha Hl) as [Hr _]. rewrite forallb_forall in Hpt.
    assert (pt_okb (v_mem s) F (pt, role_at a 0 v) = true) as Hok by by apply Hpt, list_elem_of_In, elem_of_map_to_list.
    unfold pt_okb in Hok. cbn [fst snd role_at] in Hok. rewrite forallb_forall in Hok.
    specialize (Hok (idx 0 v)). rewrite Hent, Hpr, Hus in Hok. cbn [andb negb orb] in Hok.
    rewrite andb_true_iff, Z.ltb_lt, bool_decide_eq_true in Hok. pose proof (idx_range 0 v) as Hx. unfold idx_ok in Hx.
    destruct Hok as [Hlt HF]; [apply list_elem_of_In, elem_of_seqZ; lia|].
    pose proof (vpn_idx v) as Ev. rewrite <- Ev in Hlt, HF.
    assert (private v) as Hpriv by (unfold private; change (2 ^ 20) with 1048576; done). split; [done|].
    rewrite HF. apply private_idx in Hpriv as [E3 E2]. unfold own4, own3.
    rewrite (proj2 (Z.eqb_eq _ _)), (proj2 (Z.ltb_lt _ _)) by lia. reflexivity.
Qed.

(** What holds of all owners of user frames holds of every user mapping. *)
Lemma user_pte_owner (P : Z * Z -> bool) R F (s : vmm pmm) a v e :
  uvm_ok R F s -> R !! a = Some (RPml4 a) -> forallb (fun px => P px.2) (map_to_list F) = true ->
  user_pte (v_mem s) a v = Some e -> P (a, vpn v) = true.
Proof.
  intros Hok Ha Hall He. destruct (uo_user _ _ _ Hok a v e Ha He) as [_ HF]. rewrite forallb_forall in Hall.
  by apply (Hall (Z.land e PHYS_MASK, (a, vpn v))), list_elem_of_In, elem_of_map_to_list.
Qed.

(** ** The machine *)

Definition ok_or {B} (d : B) (r : res B) : B := match r with Ok x => x | _ => d end.

Definition empty_mm (cr3 : Z) : mm_t := mk_mm 1 cr3 (replicate MAX_VM_REGIONS (mk_region false 0 0 0)) 0 0 0.

(** Two new spaces, at 2 MiB and at 2 MiB + 24 KiB. *)
Definition two_spaces : vmm pmm :=
  let s := (ok_or (0, boot_vm 32) (vmm_create_address_space (boot_vm 32))).2 in
  (ok_or (0, s) (vmm_create_address_space s)).2.

(** Two writable pages at 256 MiB in the first one. *)
Definition with_pages : Z * vmm pmm * mm_t :=
  ok_or (0, two_spaces, empty_mm 0) (uvm_map_range two_spaces (empty_mm 2097152) 268435456 268443648 3).

(** The memory after that; the frames from 600 on are free. *)
Definition demo : vmm pmm :=
  mk_vmm (v_mem with_pages.1.2) (free_frames 600 64) 1048576 false 1048576 1048576 1048576 0 1048576 0 0 ∅.
Definition demo_mm : mm_t := with_pages.2.
Definition demo_roles : gmap Z role := roles_of (v_mem demo) [1048576; 2097152; 2121728].
Definition demo_user : gmap Z (Z * Z) := user_frames (v_mem demo) demo_roles.

Lemma demo_ok : uvm_ok demo_roles demo_user demo.
Proof.
  apply uvm_okb_sound.
  - split; [apply free_frames_wf; lia|]. vm_compute. reflexivity.
  - vm_compute. reflexivity.
Qed.

Lemma demo_space : in_space demo_roles demo.
Proof. split; [split|]; vm_compute; reflexivity. Qed.

Lemma demo_root : is_root demo_roles (vmm_la57 demo) (mm_cr3 demo_mm) 2097152.
Proof. split; vm_compute; reflexivity. Qed.

Lemma demo_spare n : (n <= 64)%nat -> spare n (v_frames demo).
Proof.
  intros Hn. eapply spare_le; [|apply (free_frames_spare 600 64); unfold PMM_MAX_PAGES; lia]. exact Hn.
Qed.

(** The mapped pages of the machine. *)
Lemma demo_mapped v : 268435456 <= v < 268443648 -> is_Some (user_pte (v_mem demo) 2097152 v).
Proof.
  intros Hv. assert (vpn v = vpn 268435456 \/ vpn v = vpn 268439552) as [E|E].
  { rewrite (vpn_low v), !vpn_low by lia. change (268435456 / 4096) with 65536. change (268439552 / 4096) with 65537. mlia. }
  - rewrite (user_pte_page _ _ _ _ E). vm_compute. eauto.
  - rewrite (user_pte_page _ _ _ _ E). vm_compute. eauto.
Qed.

(** Mapping over the second page and one more. *)
Lemma uvm_map_range_correct_witness :
  exists s' mm', uvm_map_range demo demo_mm 268439552 268447744 5 = Ok (0, s', mm') /\
    is_Some (user_pte (v_mem s') 2097152 268443648) /\ user_pte (v_mem demo) 2097152 268443648 = None.
Proof.
  destruct (uvm_map_range_correct demo_roles demo_user demo demo_mm 2097152 268439552 268447744 5)
    as (s' & mm' & R' & F' & E & _ & Hm & _);
    [exact demo_ok|exact demo_space|exact demo_root|lia|lia|apply demo_spare; vm_compute; lia|].
  exists s', mm'. split; [exact E|]. clear E. split; [|vm_compute; reflexivity].
  destruct (Hm 268443648) as (e' & He & _); [vm_compute; split; [discriminate|reflexivity]|]. rewrite He. exists e'. reflexivity.
Defined.

(** Unmapping the second page. *)
Lemma uvm_unmap_range_correct_witness :
  let '(s', mm') := uvm_unmap_range demo demo_mm 268439552 268443648 in
  translate (v_mem s') 2097152 268439552 = None /\
  is_Some (user_pte (v_mem s') 2097152 268435456).
Proof.
  pose proof (uvm_unmap_range_correct demo_roles demo_user demo demo_mm 2097152 268439552 268443648 demo_ok demo_space demo_root
                ltac:(lia) ltac:(lia)) as Hu.
  destruct (uvm_unmap_range demo demo_mm 268439552 268443648) as [s' mm'].
  destruct Hu as (F' & _ & _ & Hgone & Hother & _).
  - intros v Hv. left. assert (vpn v = vpn 268439552) as E.
    { unfold in_pages in Hv. change (vpn 268439552) with 65537. revert Hv. generalize (vpn v). intros w Hw.
      change (65537 <= w < 65538) in Hw. lia. }
    rewrite (user_pte_page _ _ _ _ E). vm_compute. eauto.
  - split; [apply Hgone; vm_compute; split; [discriminate|reflexivity]|].
    destruct (Hother 2097152 268435456) as [_ ->]; [vm_compute; reflexivity| |apply demo_mapped; lia].
    intros [_ [Hc _]]. vm_compute in Hc. by apply Hc.
Defined.

(** The regions of the machine's process. *)
Lemma demo_regions :
  mm_regions demo_mm = mk_region true 268435456 268443648 3 :: replicate 23 (mk_region false 0 0 0).
Proof. vm_compute. reflexivity. Qed.

Lemma demo_mm_ok : mm_ok (v_mem demo) 2097152 demo_mm.
Proof.
  assert (forall u, in_regions demo_mm u = (268435456 <=? u) && (u <? 268443648)) as Hin.
  { intros u. unfold in_regions. rewrite demo_regions. cbn [existsb replicate r_used r_start r_end andb orb].
    by rewrite orb_false_r. }
  split.
  - rewrite demo_regions. constructor; [intros _; split_and!; vm_compute; reflexivity || discriminate|].
    by apply Forall_replicate.
  - intros v Hv. rewrite Hin in Hv. apply andb_true_iff in Hv as [?%Z.leb_le ?%Z.ltb_lt]. by apply demo_mapped.
  - intros v e He.
    pose proof (user_pte_owner (fun x => (x.2 =? 65536) || (x.2 =? 65537)) demo_roles demo_user demo 2097152 v e
      demo_ok ltac:(vm_compute; reflexivity) ltac:(vm_compute; reflexivity) He) as Hvp. cbn [snd] in Hvp.
    exists (vpn v * 4096). rewrite Hin. apply orb_true_iff in Hvp as [->%Z.eqb_eq| ->%Z.eqb_eq]; split; reflexivity.
Qed.

(** Tearing the process down frees both frames. *)
Lemma uvm_release_mm_correct_witness :
  let '(s', mm') := uvm_release_mm demo demo_mm in
  user_pte (v_mem s') 2097152 268435456 = None /\ in_regions mm' 268435456 = false.
Proof.
  pose proof (uvm_release_mm_correct demo_roles demo_user demo demo_mm 2097152 demo_ok demo_space demo_root demo_mm_ok) as Hr.
  destruct (uvm_release_mm demo demo_mm) as [s' mm']. destruct Hr as (F' & _ & _ & Hn & _ & _ & _ & _ & Hin).
  split; [apply Hn|apply Hin].
Defined.

Lemma demo_child : is_root demo_roles (vmm_la57 demo) (mm_cr3 (empty_mm 2121728)) 2121728.
Proof. split; vm_compute; reflexivity. Qed.

Lemma demo_child_empty v : user_pte (v_mem demo) 2121728 v = None.
Proof.
  destruct (user_pte (v_mem demo) 2121728 v) as [e|] eqn:He; [|reflexivity].
  pose proof (user_pte_owner (fun x => x.1 =? 2097152) demo_roles demo_user demo 2121728 v e
    demo_ok ltac:(vm_compute; reflexivity) ltac:(vm_compute; reflexivity) He) as Hvp. discriminate Hvp.
Qed.

(** Forking it into the second space. *)
Lemma uvm_fork_correct_witness :
  exists s' cmm', uvm_fork demo demo_mm (empty_mm 2121728) = Ok (0, s', cmm') /\
    is_Some (user_pte (v_mem s') 2121728 268435456) /\ mm_ok (v_mem s') 2121728 cmm'.
Proof.
  destruct (uvm_fork_correct demo_roles demo_user demo demo_mm (empty_mm 2121728) 2097152 2121728)
    as (s' & cmm' & R' & F' & E & _ & Hmap & _ & Hmm & _).
  - exact demo_ok.
  - exact demo_space.
  - exact demo_root.
  - exact demo_child.
  - discriminate.
  - exact demo_mm_ok.
  - replace (vpn <$> mm_pages demo_mm) with [65536; 65537] by (vm_compute; reflexivity).
    apply (bool_decide_unpack _). vm_compute. exact I.
  - exact demo_child_empty.
  - repeat constructor.
  - vm_compute. discriminate.
  - apply demo_spare. vm_compute. lia.
  - exists s', cmm'. split; [exact E|]. split; [|exact Hmm]. clear E.
    destruct (demo_mapped 268435456) as [e He]; [lia|]. specialize (Hmap 268435456). rewrite He in Hmap.
    destruct Hmap as (e' & -> & _). exists e'. reflexivity.
Defined.

(** A string across the page boundary. *)
Lemma uvm_user_copy_roundtrip_witness :
  exists s', uvm_write_user_va demo demo_mm 268439550 [72; 101; 108; 108; 111] = Ok s' /\
    uvm_read_user_va s' demo_mm [0; 0; 0; 0; 0] 268439550 = Ok ([72; 101; 108; 108; 111], s').
Proof.
  destruct (uvm_user_copy_roundtrip demo_roles demo_user demo demo_mm 2097152 268439550 [72; 101; 108; 108; 111] [0; 0; 0; 0; 0])
    as (s' & E & _ & _ & _ & _ & Hread);
    [exact demo_ok|exact demo_space|exact demo_root|apply (bool_decide_unpack _); vm_compute; exact I|lia|vm_compute; discriminate|reflexivity| |].
  - intros v Hv. change (zlen [72; 101; 108; 108; 111]) with 5 in Hv. apply demo_mapped. lia.
  - exists s'. split; [exact E|exact Hread].
Defined.

(** A file of three bytes on descriptor 3. *)
Definition demo_vfs : VfsRead :=
  {| fd_is_vfs fd := fd =? 3;
     lnxvfs_filesize fd := 3;
     lnxvfs_pread fd n pos := (n, take (Z.to_nat n) (drop (Z.to_nat pos) [65; 66; 67])) |}.

(** It is mapped. *)
Lemma sc_mmap_ends_witness :
  post (fun _ => True) (fun _ => True) (@sc_mmap _ _ demo_vfs demo (Some demo_mm) 0 3 1 2 3 0) /\
  match @sc_mmap _ _ demo_vfs demo (Some demo_mm) 0 3 1 2 3 0 with
  | Ok (va, s', _) => va = 402653184 /\ user_byte (v_mem s') 2097152 402653185 = Some 66
  | _ => False
  end.
Proof.
  split; [|vm_compute; split; reflexivity].
  apply (@sc_mmap_ends _ _ demo_vfs); [|lia]. intros fd n pos. cbn [lnxvfs_pread demo_vfs fst]. lia.
Defined.

(** ** Departures from what the comments promise *)

(** The process of the example unmaps the boot PML4, at 1 MiB, and loses the
    2 MiB around it. *)
Lemma sc_munmap_frees_kernel_frames_witness :
  let '(rc, s', _) := sc_munmap demo (Some demo_mm) 1048576 4096 in
  rc = 0 /\ in_regions demo_mm 1048576 = false /\ frame_used (v_frames s') (1048576 / 4096) = false /\
  translate (v_mem s') 2097152 2093056 = None.
Proof.
  pose proof (sc_munmap_frees_kernel_frames demo_roles demo_user demo demo_mm 2097152 1048576 demo_ok demo_space demo_root
    eq_refl) as X.
  destruct (sc_munmap demo (Some demo_mm) 1048576 4096) as [[rc s'] mm'].
  destruct X as (Erc & _ & _ & Hfree & _ & _ & Hh);
    [discriminate|vm_compute; reflexivity|exists (RPml4 1048576); vm_compute; reflexivity|].
  split; [exact Erc|]. split; [vm_compute; reflexivity|]. split; [exact Hfree|].
  apply Hh; vm_compute; reflexivity.
Defined.

(** Mapping over a page that is not executable does not make it so: the
    old entry is passed on with its NX bit, although the header promises the
    union of both protections. *)
Theorem uvm_map_range_keeps_nx :
  match uvm_map_range demo demo_mm 268435456 268439552 (Z.lor UVM_PROT_READ UVM_PROT_EXEC) with
  | Ok (0, s', _) =>
      match user_pte (v_mem s') 2097152 268435456 with
      | Some e => Z.testbit e 63 = true /\ pte_to_prot e = Z.lor UVM_PROT_READ UVM_PROT_WRITE
      | None => False
      end
  | _ => False
  end.
Proof. vm_compute. repeat split. Qed.

(** A third page, and the second one unmapped again. *)
Definition three_pages : Z * vmm pmm * mm_t :=
  ok_or (0, demo, empty_mm 0) (uvm_map_range demo demo_mm 268443648 268447744 3).
Definition cut_in_middle : vmm pmm * mm_t :=
  uvm_unmap_range three_pages.1.2 three_pages.2 268439552 268443648.

(** Unmapping the middle of a region loses track of the part behind it:
    the page there stays mapped but is in no region, and the teardown of the
    process leaves it mapped and its frame taken. *)
Theorem uvm_unmap_range_loses_tail :
  let '(s, mm) := cut_in_middle in
  let '(s', _) := uvm_release_mm s mm in
  in_regions mm 268443648 = false /\
  match user_pte (v_mem s') 2097152 268443648 with
  | Some e => frame_used (v_frames s') (Z.land e PHYS_MASK / 4096) = true
  | None => False
  end.
Proof. vm_compute. repeat split. Qed.

(** Lowering the break into the middle of a page unmaps that page, with
    the bytes below the new break. *)
Theorem sc_brk_unmaps_live_page :
  let mm := mk_mm 1 2097152 (mm_regions demo_mm) 268435456 268443648 0 in
  match sc_brk demo (Some mm) 268440576 with
  | Ok (brk, s', Some mm') =>
      brk = 268440576 /\ mm_brk_cur mm' = 268440576 /\
      is_Some (user_pte (v_mem demo) 2097152 268439552) /\ user_pte (v_mem s') 2097152 268439552 = None
  | _ => False
  end.
Proof. vm_compute. repeat split. eauto. Qed.
