(* ===== verification/Sched.v ===== *)
(** * Scheduling: kernel tasks, user processes, wait queues

    src/src/kernel/sched/scheduler.c and wait.c, with the parts of
    src/src/kernel/core/process.c they rest on (the process table, parked
    frames, the hand-over of the CPU). A context is resumed by switching to
    the stack address of its saved frame, so frames are addresses here; the
    words of a frame are in [s_mem]. The state leaves out what scheduling does
    not look at: the open files and the memory of a process, and log output. *)

From S2P Require Import Prelude.

Notation fmem := (gmap Z Z).

(** ** Data *)

Inductive task_status : Type := TASK_DEAD | TASK_READY | TASK_RUNNING.

#[global] Instance task_status_eq_dec : EqDecision task_status.
Proof. solve_decision. Defined.

Record task : Type := mk_task {
  t_rsp : Z;
  t_status : task_status;
  t_name : list Z;
  t_background : bool
}.

Definition MAX_TASKS : nat := 16.
Definition TASK_STACK_SIZE : Z := 32768.

Inductive pstate : Type :=
  | PROCESS_STATE_UNUSED
  | PROCESS_STATE_READY
  | PROCESS_STATE_RUNNING
  | PROCESS_STATE_BLOCKED
  | PROCESS_STATE_ZOMBIE.

#[global] Instance pstate_eq_dec : EqDecision pstate.
Proof. solve_decision. Defined.

(** [p_cr3] is 0 for a process without an address space of its own; [p_fpu]
    is its saved FPU image. *)
Record process : Type := mk_proc {
  p_pid : Z;
  p_tgid : Z;
  p_is_thread : bool;
  p_state : pstate;
  p_cr3 : Z;
  p_kernel_stack : Z;
  p_fs_base : Z;
  p_fpu : Z;
  p_exit_status : Z;
  p_parked_rsp : Z;
  p_parent_pid : Z;
  p_wait_pid : Z;
  p_wait_next : option nat;
  p_clear_child_tid : Z;
  p_wait_status_ptr : Z
}.

Definition MAX_PROCESSES : nat := 128.

(** The parts of the CPU that belong to the running user context. *)
Record cpu : Type := mk_cpu {
  c_fpu : Z;
  c_fs_base : Z;
  c_tss_rsp0 : Z;
  syscall_kernel_rsp : Z;
  c_cr3 : Z
}.

Record sched : Type := mk_sched {
  tasks : list task;
  task_count : Z;
  current_task_idx : nat;
  cpu_busy_ticks : Z;
  cpu_idle_ticks : Z;
  user_frame : Z;
  user_frame_valid : bool;
  main_switch_requested : bool;
  processes : list process;
  current_process : option nat;
  s_cpu : cpu;
  s_mem : fmem
}.

Definition with_tasks s ts := mk_sched ts (task_count s) (current_task_idx s) (cpu_busy_ticks s) (cpu_idle_ticks s)
  (user_frame s) (user_frame_valid s) (main_switch_requested s) (processes s) (current_process s) (s_cpu s) (s_mem s).
Definition with_count s n := mk_sched (tasks s) n (current_task_idx s) (cpu_busy_ticks s) (cpu_idle_ticks s)
  (user_frame s) (user_frame_valid s) (main_switch_requested s) (processes s) (current_process s) (s_cpu s) (s_mem s).
Definition with_cur s i := mk_sched (tasks s) (task_count s) i (cpu_busy_ticks s) (cpu_idle_ticks s)
  (user_frame s) (user_frame_valid s) (main_switch_requested s) (processes s) (current_process s) (s_cpu s) (s_mem s).
Definition with_ticks s b i := mk_sched (tasks s) (task_count s) (current_task_idx s) b i
  (user_frame s) (user_frame_valid s) (main_switch_requested s) (processes s) (current_process s) (s_cpu s) (s_mem s).
Definition with_user_frame s f v := mk_sched (tasks s) (task_count s) (current_task_idx s) (cpu_busy_ticks s) (cpu_idle_ticks s)
  f v (main_switch_requested s) (processes s) (current_process s) (s_cpu s) (s_mem s).
Definition with_request s r := mk_sched (tasks s) (task_count s) (current_task_idx s) (cpu_busy_ticks s) (cpu_idle_ticks s)
  (user_frame s) (user_frame_valid s) r (processes s) (current_process s) (s_cpu s) (s_mem s).
Definition with_procs s ps := mk_sched (tasks s) (task_count s) (current_task_idx s) (cpu_busy_ticks s) (cpu_idle_ticks s)
  (user_frame s) (user_frame_valid s) (main_switch_requested s) ps (current_process s) (s_cpu s) (s_mem s).
Definition with_current s c := mk_sched (tasks s) (task_count s) (current_task_idx s) (cpu_busy_ticks s) (cpu_idle_ticks s)
  (user_frame s) (user_frame_valid s) (main_switch_requested s) (processes s) c (s_cpu s) (s_mem s).
Definition with_cpu s c := mk_sched (tasks s) (task_count s) (current_task_idx s) (cpu_busy_ticks s) (cpu_idle_ticks s)
  (user_frame s) (user_frame_valid s) (main_switch_requested s) (processes s) (current_process s) c (s_mem s).
Definition with_smem s m := mk_sched (tasks s) (task_count s) (current_task_idx s) (cpu_busy_ticks s) (cpu_idle_ticks s)
  (user_frame s) (user_frame_valid s) (main_switch_requested s) (processes s) (current_process s) (s_cpu s) m.

(** Updates of one task and of one process. *)
Definition upd_task s (i : nat) (f : task -> task) : sched := with_tasks s (alter f i (tasks s)).
Definition upd_proc s (i : nat) (f : process -> process) : sched := with_procs s (alter f i (processes s)).

Definition set_rsp (r : Z) (t : task) : task := mk_task r (t_status t) (t_name t) (t_background t).
Definition set_status (st : task_status) (t : task) : task := mk_task (t_rsp t) st (t_name t) (t_background t).
Definition set_background (b : bool) (t : task) : task := mk_task (t_rsp t) (t_status t) (t_name t) b.
Definition set_name (n : list Z) (t : task) : task := mk_task (t_rsp t) (t_status t) n (t_background t).

Definition set_state (st : pstate) (p : process) : process :=
  mk_proc (p_pid p) (p_tgid p) (p_is_thread p) st (p_cr3 p) (p_kernel_stack p) (p_fs_base p) (p_fpu p) (p_exit_status p)
    (p_parked_rsp p) (p_parent_pid p) (p_wait_pid p) (p_wait_next p) (p_clear_child_tid p) (p_wait_status_ptr p).
Definition set_parked (r : Z) (p : process) : process :=
  mk_proc (p_pid p) (p_tgid p) (p_is_thread p) (p_state p) (p_cr3 p) (p_kernel_stack p) (p_fs_base p) (p_fpu p) (p_exit_status p)
    r (p_parent_pid p) (p_wait_pid p) (p_wait_next p) (p_clear_child_tid p) (p_wait_status_ptr p).
Definition set_fpu (f : Z) (p : process) : process :=
  mk_proc (p_pid p) (p_tgid p) (p_is_thread p) (p_state p) (p_cr3 p) (p_kernel_stack p) (p_fs_base p) f (p_exit_status p)
    (p_parked_rsp p) (p_parent_pid p) (p_wait_pid p) (p_wait_next p) (p_clear_child_tid p) (p_wait_status_ptr p).
Definition set_fs_base (b : Z) (p : process) : process :=
  mk_proc (p_pid p) (p_tgid p) (p_is_thread p) (p_state p) (p_cr3 p) (p_kernel_stack p) b (p_fpu p) (p_exit_status p)
    (p_parked_rsp p) (p_parent_pid p) (p_wait_pid p) (p_wait_next p) (p_clear_child_tid p) (p_wait_status_ptr p).
Definition set_exit (st : Z) (p : process) : process :=
  mk_proc (p_pid p) (p_tgid p) (p_is_thread p) (p_state p) (p_cr3 p) (p_kernel_stack p) (p_fs_base p) (p_fpu p) st
    (p_parked_rsp p) (p_parent_pid p) (p_wait_pid p) (p_wait_next p) (p_clear_child_tid p) (p_wait_status_ptr p).
Definition set_wait_pid (w : Z) (p : process) : process :=
  mk_proc (p_pid p) (p_tgid p) (p_is_thread p) (p_state p) (p_cr3 p) (p_kernel_stack p) (p_fs_base p) (p_fpu p) (p_exit_status p)
    (p_parked_rsp p) (p_parent_pid p) w (p_wait_next p) (p_clear_child_tid p) (p_wait_status_ptr p).
Definition set_cr3 (c : Z) (p : process) : process :=
  mk_proc (p_pid p) (p_tgid p) (p_is_thread p) (p_state p) c (p_kernel_stack p) (p_fs_base p) (p_fpu p) (p_exit_status p)
    (p_parked_rsp p) (p_parent_pid p) (p_wait_pid p) (p_wait_next p) (p_clear_child_tid p) (p_wait_status_ptr p).
Definition set_clear_child_tid (a : Z) (p : process) : process :=
  mk_proc (p_pid p) (p_tgid p) (p_is_thread p) (p_state p) (p_cr3 p) (p_kernel_stack p) (p_fs_base p) (p_fpu p) (p_exit_status p)
    (p_parked_rsp p) (p_parent_pid p) (p_wait_pid p) (p_wait_next p) a (p_wait_status_ptr p).
Definition set_wait_status_ptr (a : Z) (p : process) : process :=
  mk_proc (p_pid p) (p_tgid p) (p_is_thread p) (p_state p) (p_cr3 p) (p_kernel_stack p) (p_fs_base p) (p_fpu p) (p_exit_status p)
    (p_parked_rsp p) (p_parent_pid p) (p_wait_pid p) (p_wait_next p) (p_clear_child_tid p) a.
Definition set_next (n : option nat) (p : process) : process :=
  mk_proc (p_pid p) (p_tgid p) (p_is_thread p) (p_state p) (p_cr3 p) (p_kernel_stack p) (p_fs_base p) (p_fpu p) (p_exit_status p)
    (p_parked_rsp p) (p_parent_pid p) (p_wait_pid p) n (p_clear_child_tid p) (p_wait_status_ptr p).

(** [tasks[i].rsp] *)
Definition task_rsp s (i : nat) : Z := default 0 (t_rsp <$> tasks s !! i).

(** ** Words of frames *)

Definition word (m : fmem) (a : Z) : Z := default 0 (m !! a).
Definition set_word (m : fmem) (a v : Z) : fmem := <[a := v]> m.

Definition IRQ_RAX : Z := 14.
Definition IRQ_INTNUM : Z := 15.
Definition IRQ_ERR : Z := 16.
Definition IRQ_RIP : Z := 17.
Definition IRQ_CS : Z := 18.
Definition IRQ_RFLAGS : Z := 19.
Definition IRQ_RSP : Z := 20.
Definition IRQ_SS : Z := 21.
Definition FRAME_BYTES : Z := 22 * 8.
Definition ENTY_RIP : Z := 15.
Definition ENTY_CS : Z := 16.
Definition ENTY_RFLAGS : Z := 17.
Definition ENTY_RSP : Z := 18.
Definition ENTY_SS : Z := 19.

(** [*--sp = v] for each [v] in turn. *)
Fixpoint push_words (m : fmem) (sp : Z) (vs : list Z) : fmem * Z :=
  match vs with
  | [] => (m, sp)
  | v :: vs => push_words (set_word m (sp - 8) v) (sp - 8) vs
  end.

(** ** The process table *)

Definition process_get_current s : option (nat * process) :=
  match current_process s with
  | Some i => (fun p => (i, p)) <$> processes s !! i
  | None => None
  end.

Definition process_set_current_none s : sched := with_current s None.

(** First index with a property. *)
Fixpoint find_from {B} (f : nat -> B -> bool) (i : nat) (l : list B) : option nat :=
  match l with
  | [] => None
  | x :: l => if f i x then Some i else find_from f (S i) l
  end.

Definition resumable (exclude : option nat) (i : nat) (p : process) : bool :=
  bool_decide (p_state p = PROCESS_STATE_READY) && negb (p_parked_rsp p =? 0) && negb (bool_decide (exclude = Some i)).

Definition process_pick_ready s (exclude : option nat) : option nat :=
  find_from (resumable exclude) 0 (processes s).

Definition process_become_current s (i : nat) : sched :=
  upd_proc (with_current s (Some i)) i (set_state PROCESS_STATE_RUNNING).

Definition process_any_active s : bool :=
  existsb (fun p => match p_state p with
                    | PROCESS_STATE_READY | PROCESS_STATE_RUNNING | PROCESS_STATE_BLOCKED => true
                    | _ => false
                    end) (processes s).

Definition fpu_save s (i : nat) : sched := upd_proc s i (set_fpu (c_fpu (s_cpu s))).

(** Loading the CPU with what belongs to process [i]. *)
Definition fpu_restore s (p : process) : sched :=
  let c := s_cpu s in with_cpu s (mk_cpu (p_fpu p) (c_fs_base c) (c_tss_rsp0 c) (syscall_kernel_rsp c) (c_cr3 c)).
Definition process_apply_fs_base s (p : process) : sched :=
  let c := s_cpu s in with_cpu s (mk_cpu (c_fpu c) (p_fs_base p) (c_tss_rsp0 c) (syscall_kernel_rsp c) (c_cr3 c)).
Definition set_kernel_stacks s (p : process) : sched :=
  let c := s_cpu s in with_cpu s (mk_cpu (c_fpu c) (c_fs_base c) (p_kernel_stack p) (p_kernel_stack p) (c_cr3 c)).
Definition switch_space s (p : process) : sched :=
  let c := s_cpu s in
  if truthy (p_cr3 p) then with_cpu s (mk_cpu (c_fpu c) (c_fs_base c) (c_tss_rsp0 c) (syscall_kernel_rsp c) (p_cr3 p)) else s.

(** [((uint64_t* )p->parked_rsp)[IRQ_RAX] = ret] *)
Definition process_frame_set_ret s (p : process) (ret : Z) : sched :=
  if truthy (p_parked_rsp p) then with_smem s (set_word (s_mem s) (p_parked_rsp p + 8 * IRQ_RAX) ret) else s.

(** ** Slots of the process table *)

Definition find_free_process s : option nat :=
  find_from (fun _ p => bool_decide (p_state p = PROCESS_STATE_UNUSED)) 0 (processes s).

(** [kernel_stack i] is the top of the kernel stack of slot [i]; the counter
    [next_pid] is passed and returned. *)
Definition process_alloc_slot (kernel_stack : nat -> Z) s (next_pid : Z) : option nat * (sched * Z) :=
  match find_free_process s with
  | None => (None, (s, next_pid))
  | Some i =>
      let parent := match current_process s with Some c => s32 (default 0 (p_pid <$> processes s !! c)) | None => 0 end in
      let p := mk_proc next_pid next_pid false PROCESS_STATE_UNUSED 0 (kernel_stack i) 0 0 0 0 parent 0 None 0 0 in
      (Some i, (upd_proc s i (fun _ => p), u32 (next_pid + 1)))
  end.

Definition process_reap s (i : nat) : sched :=
  upd_proc (upd_proc (upd_proc s i (set_cr3 0)) i (set_parked 0)) i (set_state PROCESS_STATE_UNUSED).

Definition process_reap_zombies s : sched :=
  fold_left (fun s i =>
    match processes s !! i with
    | Some p => if bool_decide (p_state p = PROCESS_STATE_ZOMBIE) then process_reap s i else s
    | None => s
    end) (seq 0 (length (processes s))) s.

(** The process that waits for child [child_pid]. *)
Definition process_find_waiter s (child_pid : Z) : option nat :=
  find_from (fun _ p =>
    bool_decide (p_state p = PROCESS_STATE_BLOCKED) && negb (p_is_thread p) &&
    ((p_wait_pid p =? child_pid) || (p_wait_pid p =? -1) && negb (p_parent_pid p =? 0)) &&
    (negb (p_wait_pid p =? -1) ||
     existsb (fun c => (p_pid c =? u32 child_pid) && negb (p_is_thread c) && (p_parent_pid c =? s32 (p_pid p))) (processes s)))
    0 (processes s).

Definition process_find_child s (parent : process) (pid : Z) : option nat :=
  find_from (fun _ c =>
    negb (bool_decide (p_state c = PROCESS_STATE_UNUSED)) && negb (p_is_thread c) &&
    (p_parent_pid c =? s32 (p_pid parent)) && negb ((0 <? pid) && negb (s32 (p_pid c) =? pid)) &&
    match p_state c with PROCESS_STATE_READY | PROCESS_STATE_RUNNING | PROCESS_STATE_ZOMBIE => true | _ => false end)
    0 (processes s).

(** [fninit] is the FPU state that the instruction of that name establishes;
    the template is [None] until it is first needed. *)
Definition fpu_init_template (fninit : Z) s : sched * Z :=
  let c := s_cpu s in (with_cpu s (mk_cpu fninit (c_fs_base c) (c_tss_rsp0 c) (syscall_kernel_rsp c) (c_cr3 c)), fninit).

(** The frame of a forked child, on its own kernel stack; the template is
    passed and returned. *)
Definition fork_common (fninit : Z) (template : option Z) s (p c : nat) (frame_rsp child_rsp : Z) : sched * option Z :=
  let '(s, t) := match template with Some t => (s, t) | None => fpu_init_template fninit s end in
  let s := upd_proc s c (set_fpu t) in
  let s := fpu_save s p in
  match processes s !! p, processes s !! c with
  | Some pp, Some pc =>
      let frsp := Z.land (u64 (p_kernel_stack pc - FRAME_BYTES)) (2 ^ 64 - 2 ^ 4) in
      let e m k := word m (frame_rsp + 8 * k) in
      let f k := frsp + 8 * k in
      let m := fold_left (fun m k => set_word m (f k) (e m k)) (seqZ 0 15) (s_mem s) in
      let m := set_word m (f IRQ_RAX) 0 in
      let m := set_word m (f IRQ_INTNUM) 32 in
      let m := set_word m (f IRQ_ERR) 0 in
      let m := set_word m (f IRQ_RIP) (e m ENTY_RIP) in
      let m := set_word m (f IRQ_CS) 27 in
      let m := set_word m (f IRQ_RFLAGS) (e m ENTY_RFLAGS) in
      let m := set_word m (f IRQ_RSP) (if truthy child_rsp then child_rsp else e m ENTY_RSP) in
      let m := set_word m (f IRQ_SS) 35 in
      let s := upd_proc (with_smem s m) c (fun x => set_fs_base (p_fs_base pp) (set_fpu (p_fpu pp) x)) in
      (upd_proc (upd_proc s c (set_parked frsp)) c (set_state PROCESS_STATE_READY), Some t)
  | _, _ => (s, Some t)
  end.

(** ** Kernel tasks

    [stack_addr i] is the address of [tasks[i].stack], and [frame_addr i] that
    of [processes[i].parked_frame]. *)
Section sched.
Context (stack_addr frame_addr : nat -> Z).

Definition setup_task_stack s (i : nat) (entry : Z) : sched :=
  let frame_top := Z.land (stack_addr i + TASK_STACK_SIZE) (2 ^ 64 - 2 ^ 4) in
  let '(m, sp) := push_words (s_mem s) frame_top
                    ([16; frame_top; 514; 8; entry; 32; 0] ++ replicate 15 0) in
  upd_task (with_smem s m) i (set_rsp sp).

Definition scheduler_request_main_switch s : sched := with_request s true.

Definition scheduler_invalidate_user_frame s : sched := with_user_frame s (user_frame s) false.

Definition scheduler_set_main_return s (entry : Z) : sched :=
  upd_task (setup_task_stack s 0 entry) 0 (set_status TASK_READY).

Definition scheduler_main_return_rsp s : Z := task_rsp s 0.

Definition scheduler_take_main_cpu s : sched := with_cur s 0.

(** "kernel_main" *)
Definition main_name : list Z := [107; 101; 114; 110; 101; 108; 95; 109; 97; 105; 110].

Definition scheduler_init s : sched :=
  let s := with_cur (with_count s 1) 0 in
  let s := upd_task s 0 (fun t => mk_task 0 TASK_READY main_name (t_background t)) in
  with_tasks s (imap (fun i t => if (i =? 0)%nat then t else set_status TASK_DEAD t) (tasks s)).

(** Index -1 is [None]; a name longer than its buffer is a fault. *)
Definition task_create s (entry : Z) (name : list Z) : res (option nat * sched) :=
  if entry =? 0 then Ok (None, s)
  else
    match find_from (fun i t => (1 <=? i)%nat && bool_decide (t_status t = TASK_DEAD)) 0 (tasks s) with
    | None => Ok (None, s)
    | Some i =>
        if 32 <=? zlen name then Fault
        else
          let s := upd_task s i (set_status TASK_READY) in
          let s := upd_task s i (set_name name) in
          let s := upd_task s i (set_background false) in
          let s := setup_task_stack s i entry in
          Ok (Some i, with_count s (task_count s + 1))
    end.

Definition task_create_bg s (entry : Z) (name : list Z) : res (option nat * sched) :=
  '(r, s) ← task_create s entry name;
  Ok (r, match r with Some i => upd_task s i (set_background true) | None => s end).

(** Give the CPU to process [i], whose frame is parked. *)
Definition switch_to_process s (i : nat) (p : process) : sched :=
  let s := process_apply_fs_base (fpu_restore s p) p in
  let s := process_become_current s i in
  switch_space (set_kernel_stacks s p) p.

(** The search of the round robin, from [next]. *)
Fixpoint next_task (fuel : nat) (ts : list task) (cur next : nat) : nat :=
  let next := ((next + 1) mod MAX_TASKS)%nat in
  match fuel with
  | O => next
  | S fuel =>
      if (next =? cur)%nat then next
      else match ts !! next with
           | Some t => if bool_decide (t_status t = TASK_DEAD) then next_task fuel ts cur next else next
           | None => next
           end
  end.

(** Busy/idle accounting, without background tasks. *)
Definition count_tick s : sched :=
  let fg := length (List.filter (fun t => negb (bool_decide (t_status t = TASK_DEAD)) && negb (t_background t)) (drop 1 (tasks s))) in
  if (fg =? 0)%nat then with_ticks s (cpu_busy_ticks s) (cpu_idle_ticks s + 1)
  else with_ticks s (cpu_busy_ticks s + 1) (cpu_idle_ticks s).

(** No user process runs: kernel tasks take turns. *)
Definition kernel_tick s : sched * Z :=
  if task_count s <=? 1 then
    let s := with_ticks s (cpu_busy_ticks s) (cpu_idle_ticks s + 1) in
    (s, task_rsp s (current_task_idx s))
  else
    let s := count_tick s in
    let next := next_task MAX_TASKS (tasks s) (current_task_idx s) (current_task_idx s) in
    let s := with_cur s next in
    (s, task_rsp s (current_task_idx s)).

(** The timer interrupt: the frame of the interrupted context in, the frame
    to resume out. *)
Definition scheduler_tick s (current_rsp : Z) : sched * Z :=
  if main_switch_requested s then
    let s := with_request s false in
    let s := with_user_frame s (user_frame s) false in
    let s := with_cur s 0 in
    (s, task_rsp s 0)
  else
    let idle s :=
      let s := with_user_frame s (user_frame s) false in
      let s := upd_task s (current_task_idx s) (set_rsp current_rsp) in
      match process_pick_ready s None with
      | Some i =>
          match processes s !! i with
          | Some wk => (switch_to_process s i wk, p_parked_rsp wk)
          | None => (s, 0)
          end
      | None => kernel_tick s
      end in
    match process_get_current s with
    | Some (u, uproc) =>
        if bool_decide (p_state uproc = PROCESS_STATE_RUNNING) then
          if user_frame_valid s then
            let s := upd_task s 0 (set_rsp current_rsp) in
            let s := with_user_frame s (user_frame s) false in
            match process_pick_ready s (Some u) with
            | Some i =>
                match processes s !! i with
                | Some next =>
                    let s := process_apply_fs_base (fpu_restore s next) next in
                    let s := upd_proc s u (set_parked (user_frame s)) in
                    let s := upd_proc s u (set_state PROCESS_STATE_READY) in
                    let s := process_become_current s i in
                    (switch_space (set_kernel_stacks s next) next, p_parked_rsp next)
                | None => (s, 0)
                end
            | None => (fpu_restore s uproc, user_frame s)
            end
          else
            let s := fpu_save s u in
            let s := with_user_frame s current_rsp true in
            let s := with_cur s 0 in
            (s, task_rsp s 0)
        else idle s
    | None => idle s
    end.

Definition task_kill s (i : nat) : Z * sched :=
  match tasks s !! i with
  | None => (-1, s)
  | Some t =>
      if bool_decide (t_status t = TASK_DEAD) then (-1, s)
      else (0, with_count (upd_task s i (set_status TASK_DEAD)) (task_count s - 1))
  end.

(** The software interrupt pushes its frame at [irq_rsp]. *)
Definition task_exit s (irq_rsp : Z) : sched * Z :=
  let s := if (current_task_idx s <? MAX_TASKS)%nat
           then with_count (upd_task s (current_task_idx s) (set_status TASK_DEAD)) (task_count s - 1) else s in
  scheduler_tick s irq_rsp.

Definition task_get_count s : Z := task_count s.

Definition task_get_status s (i : nat) : task_status :=
  match tasks s !! i with Some t => t_status t | None => TASK_DEAD end.

(** ** Wait queues *)

Record wait_queue : Type := mk_wq { wq_head : option nat; wq_tail : option nat }.

Definition WAIT_TIMERS : nat := 64.

Inductive wait_kind : Type := WAIT_RESTART | WAIT_COMPLETE.

#[global] Instance wait_kind_eq_dec : EqDecision wait_kind.
Proof using. solve_decision. Defined.

Record wait_timer : Type := mk_timer {
  tm_used : bool;
  tm_deadline_us : Z;
  tm_wq : nat;
  tm_kind : wait_kind;
  tm_ret : Z
}.

(** The queues by number, and the timers. *)
Record waits : Type := mk_waits {
  w_sched : sched;
  w_queues : list wait_queue;
  w_timers : list wait_timer
}.

Definition with_sched w s := mk_waits s (w_queues w) (w_timers w).
Definition with_queue w (q : nat) (wq : wait_queue) := mk_waits (w_sched w) (<[q := wq]> (w_queues w)) (w_timers w).
Definition with_timers w ts := mk_waits (w_sched w) (w_queues w) ts.

Definition queue w (q : nat) : wait_queue := default (mk_wq None None) (w_queues w !! q).

Definition next_of s (i : nat) : option nat := p ← processes s !! i; p_wait_next p.

Definition wq_push w (q p : nat) : waits :=
  let w := with_sched w (upd_proc (w_sched w) p (set_next None)) in
  let wq := queue w q in
  match wq_tail wq with
  | None => with_queue w q (mk_wq (Some p) (Some p))
  | Some t =>
      let w := with_sched w (upd_proc (w_sched w) t (set_next (Some p))) in
      with_queue w q (mk_wq (wq_head wq) (Some p))
  end.

Definition wq_pop w (q : nat) : option nat * waits :=
  let wq := queue w q in
  match wq_head wq with
  | None => (None, w)
  | Some p =>
      let head := next_of (w_sched w) p in
      let tail := match head with None => None | Some _ => wq_tail wq end in
      let w := with_queue w q (mk_wq head tail) in
      (Some p, with_sched w (upd_proc (w_sched w) p (set_next None)))
  end.

(** The last process of the chain that starts at [i]. *)
Fixpoint last_from (fuel : nat) s (i : nat) : option nat :=
  match fuel with
  | O => None
  | S fuel => match next_of s i with None => Some i | Some j => last_from fuel s j end
  end.

(** The link to [p] that a walk from [i] meets after the head, replaced by
    [nxt]. *)
Fixpoint unlink_from (fuel : nat) s (i p : nat) (nxt : option nat) : option sched :=
  match fuel with
  | O => None
  | S fuel =>
      match next_of s i with
      | None => None
      | Some j => if (j =? p)%nat then Some (upd_proc s i (set_next nxt)) else unlink_from fuel s j p nxt
      end
  end.

Definition wq_unlink w (q p : nat) : waits :=
  let wq := queue w q in
  let s := w_sched w in
  let nxt := next_of s p in
  let unlinked :=
    match wq_head wq with
    | None => None
    | Some h => if (h =? p)%nat then Some (s, nxt)
                else (fun s' => (s', wq_head wq)) <$> unlink_from MAX_PROCESSES s h p nxt
    end in
  match unlinked with
  | None => w
  | Some (s, head) =>
      let tail := if bool_decide (wq_tail wq = Some p)
                  then match head with None => None | Some h => last_from MAX_PROCESSES s h end
                  else wq_tail wq in
      with_sched (with_queue (with_sched w s) q (mk_wq head tail)) (upd_proc s p (set_next None))
  end.

Definition wake_locked s (i : nat) (kind : wait_kind) (ret : Z) : sched :=
  match processes s !! i with
  | None => s
  | Some p =>
      let s := match kind with WAIT_COMPLETE => process_frame_set_ret s p ret | WAIT_RESTART => s end in
      upd_proc s i (set_state PROCESS_STATE_READY)
  end.

Definition blocked s (i : nat) : bool :=
  match processes s !! i with Some p => bool_decide (p_state p = PROCESS_STATE_BLOCKED) | None => false end.

(** [n] waiters woken so far; a negative [max] wakes all. *)
Fixpoint wait_wake_loop (fuel : nat) w (q : nat) (max n : Z) : res waits :=
  match fuel with
  | O => Timeout
  | S fuel =>
      match wq_head (queue w q) with
      | None => Ok w
      | Some _ =>
          if (max <? 0) || (n <? max) then
            match wq_pop w q with
            | (Some p, w) =>
                if blocked (w_sched w) p
                then wait_wake_loop fuel (with_sched w (wake_locked (w_sched w) p WAIT_RESTART 0)) q max (n + 1)
                else wait_wake_loop fuel w q max n
            | (None, w) => Ok w
            end
          else Ok w
      end
  end.

Definition wait_wake w (q : nat) (max : Z) : res waits := wait_wake_loop (S MAX_PROCESSES) w q max 0.

Fixpoint wait_wake_status_loop (fuel : nat) w (q : nat) (ret : Z) : res waits :=
  match fuel with
  | O => Timeout
  | S fuel =>
      match wq_pop w q with
      | (None, w) => Ok w
      | (Some p, w) =>
          if blocked (w_sched w) p then Ok (with_sched w (wake_locked (w_sched w) p WAIT_COMPLETE ret))
          else wait_wake_status_loop fuel w q ret
      end
  end.

Definition wait_wake_status w (q : nat) (ret : Z) : res waits := wait_wake_status_loop (S MAX_PROCESSES) w q ret.

Definition wait_wake_proc s (i : nat) : sched :=
  if blocked s i then upd_proc s i (set_state PROCESS_STATE_READY) else s.

(** 0 or -1; [now] is the uptime in microseconds. *)
Definition wait_timer_arm w (now : Z) (q : nat) (us : Z) (kind : wait_kind) (ret : Z) : Z * waits :=
  match find_from (fun _ t => negb (tm_used t)) 0 (w_timers w) with
  | None => (-1, w)
  | Some i => (0, with_timers w (<[i := mk_timer true (u64 (now + us)) q kind ret]> (w_timers w)))
  end.

(** The first blocked process of the chain from [i]. *)
Fixpoint first_blocked (fuel : nat) s (i : option nat) : option nat :=
  match fuel, i with
  | S fuel, Some i => if blocked s i then Some i else first_blocked fuel s (next_of s i)
  | _, _ => None
  end.

Definition expire w (now : Z) (i : nat) : waits :=
  match w_timers w !! i with
  | None => w
  | Some t =>
      if tm_used t && (tm_deadline_us t <=? now) then
        let w := with_timers w (<[i := mk_timer false (tm_deadline_us t) (tm_wq t) (tm_kind t) (tm_ret t)]> (w_timers w)) in
        match first_blocked MAX_PROCESSES (w_sched w) (wq_head (queue w (tm_wq t))) with
        | Some p =>
            let w := wq_unlink w (tm_wq t) p in
            with_sched w (wake_locked (w_sched w) p (tm_kind t) (tm_ret t))
        | None => w
        end
      else w
  end.

Definition wait_timers_poll w (now : Z) : waits := fold_left (fun w i => expire w now i) (seq 0 WAIT_TIMERS) w.

(** ** Blocking *)

(** The frame is rewound by the two bytes of the [syscall] instruction when
    [op] (the two bytes before the user RIP) are that instruction. *)
Definition process_park_entry_frame s (i : nat) (frame_rsp : Z) (restart : bool) (op : Z * Z) (fallback_ret : Z) : sched :=
  let e m k := word m (frame_rsp + 8 * k) in
  let f k := frame_addr i + 8 * k in
  let m := fold_left (fun m k => set_word m (f k) (e m k)) (seqZ 0 15) (s_mem s) in
  let m := set_word m (f IRQ_INTNUM) 32 in
  let m := set_word m (f IRQ_ERR) 0 in
  let m := set_word m (f IRQ_RIP) (e m ENTY_RIP) in
  let m := set_word m (f IRQ_CS) (e m ENTY_CS) in
  let m := set_word m (f IRQ_RFLAGS) (e m ENTY_RFLAGS) in
  let m := set_word m (f IRQ_RSP) (e m ENTY_RSP) in
  let m := set_word m (f IRQ_SS) (e m ENTY_SS) in
  let m := if restart then
             if (2 <=? e m ENTY_RIP) && (op.1 =? 15) && (op.2 =? 5) then set_word m (f IRQ_RIP) (e m ENTY_RIP - 2)
             else set_word m (f IRQ_RAX) fallback_ret
           else set_word m (f IRQ_RAX) fallback_ret in
  upd_proc (with_smem s m) i (set_parked (frame_addr i)).

(** Hand the CPU away: the frame to resume. Without another process to run,
    the software interrupt (which pushes its frame at [irq_rsp]) lets the
    scheduler resume the kernel main task. *)
Definition park_switch s (p : nat) (irq_rsp : Z) : sched * Z :=
  match process_pick_ready s (Some p) with
  | Some i =>
      match processes s !! i with
      | Some next => (scheduler_invalidate_user_frame (switch_to_process s i next), p_parked_rsp next)
      | None => (s, 0)
      end
  | None => scheduler_tick (scheduler_request_main_switch (process_set_current_none s)) irq_rsp
  end.

(** [inl]: the call returns to its caller (after a bounded spin); [inr]: the
    process is parked and another context resumed from the given frame. *)
Definition wait_block w (now frame_rsp : Z) (op : Z * Z) (irq_rsp : Z) (q : nat) (kind : wait_kind) (ret timeout_us : Z) :
    waits + waits * Z :=
  match process_get_current (w_sched w) with
  | None => inl w
  | Some (i, _) =>
      let '(rc, w) := if truthy timeout_us then wait_timer_arm w now q timeout_us kind ret else (0, w) in
      if truthy timeout_us && truthy rc then inl w
      else
        let s := process_park_entry_frame (w_sched w) i frame_rsp (bool_decide (kind = WAIT_RESTART)) op
                   (match kind with WAIT_COMPLETE => ret | WAIT_RESTART => 0 end) in
        let w := wq_push (with_sched w s) q i in
        let s := upd_proc (w_sched w) i (set_state PROCESS_STATE_BLOCKED) in
        let s := fpu_save s i in
        let '(s, rsp) := park_switch s i irq_rsp in
        inr (with_sched w s, rsp)
  end.
End sched.
