(* ===== verification/SchedCorrect.v ===== *)
(** * Correctness of scheduling

    Contexts, where their frames are saved, and what a timer interrupt does to
    them; fairness among kernel tasks; and the places where the code departs
    from its intent. *)

From S2P Require Import Prelude Sched.

(** ** Contexts *)

(** A kernel task or a user process. *)
Inductive ctx : Type := K (i : nat) | U (p : nat).

#[global] Instance ctx_eq_dec : EqDecision ctx.
Proof. solve_decision. Defined.

(** The user process that runs or takes turns with the kernel main task. *)
Definition running (s : sched) : option nat :=
  match process_get_current s with
  | Some (u, p) => if bool_decide (p_state p = PROCESS_STATE_RUNNING) then Some u else None
  | None => None
  end.

(** The context on the CPU when the timer fires. *)
Definition on_cpu (s : sched) : ctx :=
  match running s with
  | Some u => if user_frame_valid s then K 0 else U u
  | None => K (current_task_idx s)
  end.

Definition alive (s : sched) (i : nat) : bool := negb (bool_decide (task_get_status s i = TASK_DEAD)).

(** Where the frame of a context is kept, if it has one. *)
Definition slot (s : sched) (c : ctx) : option Z :=
  match c with
  | K i => if alive s i then Some (task_rsp s i) else None
  | U p =>
      if bool_decide (running s = Some p) then Some (user_frame s)
      else pr ← processes s !! p;
           if bool_decide (p_state pr = PROCESS_STATE_READY \/ p_state pr = PROCESS_STATE_BLOCKED) && negb (p_parked_rsp pr =? 0)
           then Some (p_parked_rsp pr) else None
  end.

(** The frame of a context that is not on the CPU. *)
Definition saved (s : sched) (c : ctx) : option Z := if decide (c = on_cpu s) then None else slot s c.

(** The FPU state of a process: in the CPU while it runs. *)
Definition fpu_of (s : sched) (p : nat) : option Z :=
  if decide (on_cpu s = U p) then Some (c_fpu (s_cpu s)) else p_fpu <$> processes s !! p.

(** The CPU holds what belongs to process [p]. *)
Definition cpu_of (s : sched) (p : process) : Prop :=
  c_fs_base (s_cpu s) = p_fs_base p /\ c_tss_rsp0 (s_cpu s) = p_kernel_stack p /\
  syscall_kernel_rsp (s_cpu s) = p_kernel_stack p /\ (p_cr3 p <> 0 -> c_cr3 (s_cpu s) = p_cr3 p).

Record sched_ok (s : sched) : Prop := {
  so_tasks : length (tasks s) = MAX_TASKS;
  so_main : alive s 0 = true;
  so_count : task_count s = countb (fun t => negb (bool_decide (t_status t = TASK_DEAD))) (tasks s);
  so_cur : (current_task_idx s < MAX_TASKS)%nat;
  so_running : forall p pr, processes s !! p = Some pr -> p_state pr = PROCESS_STATE_RUNNING -> current_process s = Some p;
  so_frame : user_frame_valid s = true -> user_frame s <> 0;
  so_cpu : forall u pr, running s = Some u -> processes s !! u = Some pr -> cpu_of s pr
}.

(** ** The search for the next task *)

Definition dead_at (ts : list task) (i : nat) : bool :=
  match ts !! i with Some t => bool_decide (t_status t = TASK_DEAD) | None => false end.

Lemma next_task_from ts cur fuel d :
  length ts = MAX_TASKS -> (cur < 16)%nat -> (d < 16)%nat -> (16 <= d + fuel)%nat ->
  exists k, (d < k <= 16)%nat /\ next_task fuel ts cur ((cur + d) mod 16) = ((cur + k) mod 16)%nat /\
    (forall j, (d < j < k)%nat -> dead_at ts ((cur + j) mod 16) = true) /\
    (k = 16%nat \/ dead_at ts ((cur + k) mod 16) = false).
Proof.
  intros Hlen Hcur. revert d. induction fuel as [|fuel IH]; intros d Hd Hf; [lia|]. cbn [next_task].
  assert (((cur + d) mod 16 + 1) mod MAX_TASKS = (cur + S d) mod 16)%nat as E.
  { unfold MAX_TASKS. rewrite Nat.Div0.add_mod_idemp_l. f_equal. lia. }
  rewrite E. destruct (Nat.eqb_spec ((cur + S d) mod 16) cur) as [Ec|Ec].
  { exists 16%nat. split; [lia|]. split_and!; [|intros j Hj|by left].
    - rewrite Ec. rewrite <- (Nat.Div0.add_mod_idemp_r cur 16 16), Nat.Div0.mod_same, Nat.add_0_r. by rewrite Nat.mod_small.
    - exfalso. assert (S d = 16)%nat; [|lia]. pose proof (Nat.div_mod_eq (cur + S d) 16). lia. }
  assert (S d < 16)%nat as Hsd.
  { destruct (decide (S d = 16)%nat) as [Es|]; [|lia]. destruct Ec. rewrite Es.
    rewrite <- (Nat.Div0.add_mod_idemp_r cur 16 16), Nat.Div0.mod_same, Nat.add_0_r. by rewrite Nat.mod_small. }
  destruct (lookup_lt_is_Some_2 ts ((cur + S d) mod 16)%nat) as [t Ht].
  { rewrite Hlen. apply Nat.mod_upper_bound. done. }
  rewrite Ht. case_bool_decide as Hdead.
  - destruct (IH (S d)) as (k & Hk & En & Hb & Hend); [lia|lia|]. exists k. split; [lia|]. split_and!; [done| |done].
    intros j Hj. destruct (decide (j = S d)) as [->|]; [|apply Hb; lia]. unfold dead_at. rewrite Ht. by apply bool_decide_eq_true.
  - exists (S d). split; [lia|]. split_and!; [done|lia|]. right. unfold dead_at. rewrite Ht. by apply bool_decide_eq_false.
Qed.

Lemma next_task_spec ts cur :
  length ts = MAX_TASKS -> (cur < 16)%nat ->
  exists k, (0 < k <= 16)%nat /\ next_task MAX_TASKS ts cur cur = ((cur + k) mod 16)%nat /\
    (forall j, (0 < j < k)%nat -> dead_at ts ((cur + j) mod 16) = true) /\
    (k = 16%nat \/ dead_at ts ((cur + k) mod 16) = false).
Proof.
  intros Hlen Hcur. destruct (next_task_from ts cur MAX_TASKS 0) as (k & Hk & En & H); [done|done|lia|unfold MAX_TASKS; lia|].
  rewrite Nat.add_0_r, Nat.mod_small in En by done. eauto.
Qed.

(** ** Lookups after updates *)

Lemma find_from_Some {B} (f : nat -> B -> bool) i l k :
  find_from f i l = Some k -> exists x, (i <= k)%nat /\ l !! (k - i)%nat = Some x /\ f k x = true.
Proof.
  revert i. induction l as [|x l IH]; intros i H; [done|]. cbn [find_from] in H. destruct (f i x) eqn:E.
  - injection H as <-. exists x. split; [lia|]. by rewrite Nat.sub_diag.
  - destruct (IH (S i) H) as (y & Hk & Hy & Hf). exists y. split; [lia|]. split; [|done].
    replace (k - i)%nat with (S (k - S i)) by lia. done.
Qed.

Lemma find_from_None {B} (f : nat -> B -> bool) i l k x :
  find_from f i l = None -> l !! k = Some x -> f (i + k)%nat x = false.
Proof.
  revert i k. induction l as [|y l IH]; intros i k H Hk; [done|]. cbn [find_from] in H. destruct (f i y) eqn:E; [done|].
  destruct k as [|k]; simpl in Hk; [injection Hk as ->; by rewrite Nat.add_0_r|].
  rewrite <- (IH (S i) k H Hk). f_equal. lia.
Qed.

Lemma pick_ready_Some s ex i :
  process_pick_ready s ex = Some i ->
  exists p, processes s !! i = Some p /\ p_state p = PROCESS_STATE_READY /\ p_parked_rsp p <> 0 /\ ex <> Some i.
Proof.
  intros (p & _ & Hp & Hr)%find_from_Some. rewrite Nat.sub_0_r in Hp. exists p. split; [done|]. unfold resumable in Hr.
  rewrite !andb_true_iff, !negb_true_iff, Z.eqb_neq, bool_decide_eq_true, bool_decide_eq_false in Hr. tauto.
Qed.

Lemma alive_upd s i r j : alive (upd_task s i (set_rsp r)) j = alive s j.
Proof.
  unfold alive, task_get_status. cbn [upd_task with_tasks tasks]. destruct (decide (i = j)) as [->|Hne].
  - rewrite list_lookup_alter_eq. by destruct (tasks s !! j).
  - by rewrite list_lookup_alter_ne.
Qed.

Lemma task_rsp_upd s i r j :
  (i < length (tasks s))%nat -> task_rsp (upd_task s i (set_rsp r)) j = if decide (j = i) then r else task_rsp s j.
Proof.
  intros Hi. unfold task_rsp. cbn [upd_task with_tasks tasks]. case_decide as E; [subst j|by rewrite list_lookup_alter_ne].
  rewrite list_lookup_alter_eq. destruct (lookup_lt_is_Some_2 _ _ Hi) as [t ->]. done.
Qed.

Lemma running_Some s u :
  running s = Some u <-> current_process s = Some u /\ exists p, processes s !! u = Some p /\ p_state p = PROCESS_STATE_RUNNING.
Proof.
  unfold running, process_get_current. destruct (current_process s) as [c|]; [|naive_solver].
  destruct (processes s !! c) as [p|] eqn:E; simpl; [|naive_solver]. case_bool_decide; naive_solver.
Qed.

(** The count of the tasks that are alive does not see [rsp]. *)
Lemma count_upd s i r :
  countb (fun t => negb (bool_decide (t_status t = TASK_DEAD))) (tasks (upd_task s i (set_rsp r))) =
  countb (fun t => negb (bool_decide (t_status t = TASK_DEAD))) (tasks s).
Proof.
  cbn [upd_task with_tasks tasks]. revert i. induction (tasks s) as [|t ts IH]; intros i; [done|].
  destruct i as [|i]; cbn [alter list_alter]; rewrite !countb_cons; [done|]. by rewrite IH.
Qed.

(** What [scheduler_tick] does when the frames of the contexts are given as a
    function: the frame of the interrupted context [c] is saved if the context
    is alive, and the context that is resumed gives up its frame. *)
Record conserves (s : sched) (rsp : Z) (s' : sched) (r : Z) : Prop := {
  cv_alive : match on_cpu s' with K i => alive s i = true | U _ => True end;
  cv_resume : if decide (on_cpu s' = on_cpu s) then r = rsp else saved s (on_cpu s') = Some r;
  cv_saved : forall d, d <> on_cpu s' -> saved s' d =
    if decide (d = on_cpu s) then (if match d with K i => alive s i | U _ => true end then Some rsp else None) else saved s d;
  cv_fpu : forall p, fpu_of s' p = fpu_of s p
}.

(** The user process gives way to the kernel main task. *)
Lemma tick_user s u pr rsp :
  sched_ok s -> rsp <> 0 -> main_switch_requested s = false -> running s = Some u -> processes s !! u = Some pr -> user_frame_valid s = false ->
  let s' := with_cur (with_user_frame (fpu_save s u) rsp true) 0 in
  scheduler_tick s rsp = (s', task_rsp s' 0) /\ sched_ok s' /\ conserves s rsp s' (task_rsp s' 0).
Proof.
  intros Hok Hr Hreq Hrun Hpr Hv s'. pose proof (proj1 (running_Some s u) Hrun) as (Hcur & pr' & Hpr' & Hst).
  rewrite Hpr in Hpr'. injection Hpr' as <-.
  assert (scheduler_tick s rsp = (s', task_rsp s' 0)) as Htick.
  { unfold scheduler_tick, process_get_current. rewrite Hreq, Hcur, Hpr. simpl. rewrite bool_decide_eq_true_2 by done. by rewrite Hv. }
  assert (processes s' = alter (set_fpu (c_fpu (s_cpu s))) u (processes s)) as Eps by done.
  assert (forall p, processes s' !! p = if decide (p = u) then Some (set_fpu (c_fpu (s_cpu s)) pr) else processes s !! p) as Hps.
  { intros p. rewrite Eps. case_decide as E; [subst p; by rewrite list_lookup_alter_eq, Hpr|by rewrite list_lookup_alter_ne]. }
  assert (running s' = Some u) as Hrun'.
  { apply running_Some. split; [done|]. exists (set_fpu (c_fpu (s_cpu s)) pr). rewrite Hps, decide_True by done. done. }
  assert (on_cpu s' = K 0 /\ on_cpu s = U u) as [Ec' Ec].
  { unfold on_cpu. rewrite Hrun, Hrun', Hv. done. }
  split_and!; [done| |].
  - destruct Hok. split; try done.
    + unfold s'. cbn. lia.
    + intros p q Hp Hq. rewrite Hps in Hp. case_decide; [by subst|]. by eapply so_running0.
    + intros v q Hv' Hq. rewrite Hrun' in Hv'. injection Hv' as <-. rewrite Hps, decide_True in Hq by done. injection Hq as <-.
      by apply (so_cpu0 u pr).
  - split; rewrite ?Ec', ?Ec.
    + apply (so_main _ Hok).
    + rewrite decide_False by done. unfold saved. rewrite Ec, decide_False by done. unfold slot. rewrite (so_main _ Hok). done.
    + intros d Hd. unfold saved. rewrite Ec', Ec, (decide_False _ _ Hd). destruct d as [i|p].
      * rewrite !decide_False by done. done.
      * unfold slot. rewrite Hrun', Hrun, Hps. destruct (decide (p = u)) as [->|Hne].
        -- rewrite bool_decide_eq_true_2 by done. rewrite decide_True by done. done.
        -- rewrite !bool_decide_eq_false_2 by congruence. rewrite !decide_False by congruence. done.
    + intros p. unfold fpu_of. rewrite Ec', Ec, decide_False by done. rewrite Hps.
      destruct (decide (p = u)) as [->|Hne]; [by rewrite decide_True|]. by rewrite decide_False by congruence.
Qed.

(** Giving the CPU to a parked process, from a state in which none runs. *)
Lemma switch_spec s i p :
  sched_ok s -> (forall q pr, processes s !! q = Some pr -> p_state pr <> PROCESS_STATE_RUNNING) ->
  user_frame_valid s = false -> processes s !! i = Some p -> p_state p = PROCESS_STATE_READY -> p_parked_rsp p <> 0 ->
  let s' := switch_to_process s i p in
  sched_ok s' /\ on_cpu s' = U i /\ (forall d, d <> U i -> slot s' d = slot s d) /\ slot s (U i) = Some (p_parked_rsp p) /\
  (forall q, fpu_of s' q = p_fpu <$> processes s !! q).
Proof.
  intros Hok Hnone Hv Hi Hst Hpk s'.
  assert (running s = None) as Hrun.
  { destruct (running s) as [u|] eqn:E; [|done]. apply running_Some in E as (_ & q & Hq & Hr). by destruct (Hnone u q Hq). }
  assert (tasks s' = tasks s /\ task_count s' = task_count s /\ current_task_idx s' = current_task_idx s /\
          user_frame_valid s' = false /\ current_process s' = Some i /\
          processes s' = alter (set_state PROCESS_STATE_RUNNING) i (processes s) /\ c_fpu (s_cpu s') = p_fpu p /\ cpu_of s' p)
    as (Et & En & Eci & Ev & Ecp & Eps & Ef & Ecpu).
  { unfold s', switch_to_process, switch_space, cpu_of, truthy. destruct (Z.eqb_spec (p_cr3 p) 0); cbn; rewrite Hv; split_and!; done. }
  assert (forall q, processes s' !! q = if decide (q = i) then Some (set_state PROCESS_STATE_RUNNING p) else processes s !! q) as Hps.
  { intros q. rewrite Eps. case_decide as E; [subst q; by rewrite list_lookup_alter_eq, Hi|by rewrite list_lookup_alter_ne]. }
  assert (running s' = Some i) as Hrun'.
  { apply running_Some. split; [done|]. eexists. rewrite Hps, decide_True by done. done. }
  assert (on_cpu s' = U i) as Ec' by (unfold on_cpu; by rewrite Hrun', Ev).
  assert (forall j, alive s' j = alive s j /\ task_rsp s' j = task_rsp s j) as Htk.
  { intros j. unfold alive, task_get_status, task_rsp. by rewrite Et. }
  split_and!; [|done| | |].
  - destruct Hok. split; rewrite ?Et, ?En, ?Eci, ?Ev, ?Ecp; try done.
    + by rewrite (proj1 (Htk 0%nat)).
    + intros q pr Hq Hr. rewrite Hps in Hq. case_decide; [by subst|]. by destruct (Hnone q pr Hq).
    + intros u pr Hu Hq. rewrite Hrun' in Hu. injection Hu as <-. rewrite Hps, decide_True in Hq by done. injection Hq as <-. exact Ecpu.
  - intros [j|q] Hd; unfold slot; [by destruct (Htk j) as [-> ->]|].
    rewrite Hrun', Hrun, Hps. rewrite (bool_decide_eq_false_2 (Some i = Some q)) by congruence.
    rewrite (bool_decide_eq_false_2 (None = Some q)) by done. by rewrite decide_False by congruence.
  - unfold slot. rewrite Hrun, Hi, (bool_decide_eq_false_2 (None = Some i)) by done. cbn [mbind option_bind].
    rewrite (bool_decide_eq_true_2 (p_state p = _ \/ _)) by (by left).
    destruct (Z.eqb_spec (p_parked_rsp p) 0); done.
  - intros q. unfold fpu_of. rewrite Ec', Hps, Ef. destruct (decide (q = i)) as [->|Hne].
    + by rewrite decide_True, Hi.
    + by rewrite decide_False by congruence.
Qed.

(** The state after the frame of kernel task [c] has been saved. *)
Definition task_saved (s : sched) (c : nat) (rsp : Z) : sched :=
  upd_task (with_user_frame s (user_frame s) false) c (set_rsp rsp).

Lemma task_saved_slot s c rsp d :
  sched_ok s -> running s = None -> (c < MAX_TASKS)%nat ->
  slot (task_saved s c rsp) d = if decide (d = K c) then (if alive s c then Some rsp else None) else slot s d.
Proof.
  intros Hok Hrun Hc. destruct d as [j|q]; [|by rewrite decide_False].
  unfold slot, task_saved. rewrite alive_upd, task_rsp_upd by (cbn; by rewrite (so_tasks _ Hok)).
  change (alive (with_user_frame s (user_frame s) false) j) with (alive s j).
  destruct (decide (j = c)) as [->|Hne]; [by rewrite decide_True|]. by rewrite decide_False by congruence.
Qed.

Lemma task_saved_ok s c rsp : sched_ok s -> running s = None -> sched_ok (task_saved s c rsp).
Proof.
  intros [] Hrun. split; try done.
  - cbn. by rewrite length_alter.
  - unfold task_saved. by rewrite alive_upd.
  - unfold task_saved. by rewrite count_upd.
Qed.

Lemma no_running s : sched_ok s -> running s = None -> forall q pr, processes s !! q = Some pr -> p_state pr <> PROCESS_STATE_RUNNING.
Proof.
  intros Hok Hrun q pr Hq Hr. assert (running s = Some q) as E; [|congruence].
  apply running_Some. split; [by eapply so_running|eauto].
Qed.

Lemma fpu_kernel s c q : on_cpu s = K c -> fpu_of s q = p_fpu <$> processes s !! q.
Proof. intros E. unfold fpu_of. by rewrite E, decide_False by done. Qed.

(** A process that became ready while kernel tasks ran gets the CPU. *)
Lemma tick_wake s i p rsp :
  sched_ok s -> running s = None -> processes s !! i = Some p -> p_state p = PROCESS_STATE_READY -> p_parked_rsp p <> 0 ->
  let s' := switch_to_process (task_saved s (current_task_idx s) rsp) i p in
  sched_ok s' /\ conserves s rsp s' (p_parked_rsp p).
Proof.
  intros Hok Hrun Hi Hst Hpk s'. set (s0 := task_saved s (current_task_idx s) rsp) in *.
  destruct (switch_spec s0 i p (task_saved_ok s _ rsp Hok Hrun) (no_running s Hok Hrun) eq_refl Hi Hst Hpk)
    as (Hok' & Ec' & Hslot & Hown & Hfpu). fold s' in Hok', Ec', Hslot, Hfpu. split; [done|].
  assert (on_cpu s = K (current_task_idx s)) as Ec by (unfold on_cpu; by rewrite Hrun).
  pose proof (fun d => task_saved_slot s _ rsp d Hok Hrun (so_cur _ Hok)) as Hsv. fold s0 in Hsv.
  split; rewrite ?Ec'; rewrite ?Ec; [done|..].
  - rewrite decide_False by done. unfold saved. rewrite Ec, decide_False by done. rewrite <- Hown, Hsv. by rewrite decide_False.
  - intros d Hd. unfold saved. rewrite Ec', Ec, (decide_False _ _ Hd), Hslot, Hsv by done.
    destruct (decide (d = K (current_task_idx s))) as [->|]; done.
  - intros q. rewrite Hfpu. by rewrite (fpu_kernel s _ q Ec).
Qed.

(** The kernel main task gives way to another process, and the process it took
    turns with is parked. *)
Lemma tick_next s u pr i p rsp :
  sched_ok s -> main_switch_requested s = false -> running s = Some u -> processes s !! u = Some pr -> user_frame_valid s = true ->
  process_pick_ready s (Some u) = Some i -> processes s !! i = Some p ->
  exists s', scheduler_tick s rsp = (s', p_parked_rsp p) /\ sched_ok s' /\ conserves s rsp s' (p_parked_rsp p).
Proof.
  intros Hok Hreq Hrun Hpr Hv Hpick Hi. pose proof (proj1 (running_Some s u) Hrun) as (Hcur & pr' & Hpr' & Hst).
  rewrite Hpr in Hpr'. injection Hpr' as <-.
  destruct (pick_ready_Some s _ i Hpick) as (p' & Hi' & Hsti & Hpk & Hne). rewrite Hi in Hi'. injection Hi' as <-.
  set (s0 := upd_proc (upd_proc (task_saved s 0 rsp) u (set_parked (user_frame s))) u (set_state PROCESS_STATE_READY)).
  exists (switch_to_process s0 i p). split.
  { unfold scheduler_tick, process_get_current. rewrite Hreq, Hcur, Hpr. simpl. rewrite bool_decide_eq_true_2 by done.
    rewrite Hv. change (process_pick_ready _ (Some u)) with (process_pick_ready s (Some u)). rewrite Hpick. cbn. rewrite Hi. done. }
  assert (forall q, processes s0 !! q = if decide (q = u) then Some (set_state PROCESS_STATE_READY (set_parked (user_frame s) pr)) else processes s !! q) as Hps.
  { intros q. unfold s0. cbn [processes upd_proc with_procs task_saved upd_task with_tasks with_user_frame].
    case_decide as E; [subst q; by rewrite !list_lookup_alter_eq, Hpr|by rewrite !list_lookup_alter_ne]. }
  assert (forall q x, processes s0 !! q = Some x -> p_state x <> PROCESS_STATE_RUNNING) as Hnone.
  { intros q x Hq Hr. rewrite Hps in Hq. case_decide; [simplify_eq; done|].
    pose proof (so_running _ Hok q x Hq Hr) as E. congruence. }
  assert (running s0 = None) as Hrun0.
  { destruct (running s0) as [v|] eqn:E; [|done]. apply running_Some in E as (_ & x & Hx & Hr). by destruct (Hnone v x Hx). }
  assert (forall j, alive s0 j = alive s j /\ task_rsp s0 j = if decide (j = 0%nat) then rsp else task_rsp s j) as Htk.
  { intros j. split; [change (alive s0 j) with (alive (task_saved s 0 rsp) j)|change (task_rsp s0 j) with (task_rsp (task_saved s 0 rsp) j)];
      unfold task_saved; [by rewrite alive_upd|]. rewrite task_rsp_upd by (cbn; rewrite (so_tasks _ Hok); unfold MAX_TASKS; lia). done. }
  assert (sched_ok s0) as Hok0.
  { pose proof Hok as []. split; try done.
    - unfold s0, task_saved. cbn. by rewrite length_alter.
    - by rewrite (proj1 (Htk 0%nat)).
    - change (tasks s0) with (tasks (task_saved s 0 rsp)). unfold task_saved. by rewrite count_upd.
    - intros q x Hq Hr. by destruct (Hnone q x Hq).
    - intros v x Hvr. congruence. }
  assert (processes s0 !! i = Some p) as Hi0 by (rewrite Hps, decide_False by congruence; done).
  destruct (switch_spec s0 i p Hok0 Hnone eq_refl Hi0 Hsti Hpk) as (Hok' & Ec' & Hslot & Hown & Hfpu).
  split; [done|]. set (s' := switch_to_process s0 i p) in *.
  assert (on_cpu s = K 0) as Ec by (unfold on_cpu; by rewrite Hrun, Hv).
  assert (forall d, slot s0 d = if decide (d = K 0) then Some rsp else slot s d) as Hs0.
  { intros [j|q]; unfold slot.
    - destruct (Htk j) as [-> ->]. destruct (decide (j = 0%nat)) as [->|Hj]; [by rewrite (so_main _ Hok), decide_True|].
      by rewrite decide_False by congruence.
    - rewrite (decide_False (P := U q = K 0)) by done. rewrite Hrun0, Hrun, Hps. rewrite (bool_decide_eq_false_2 (None = Some q)) by done.
      destruct (decide (q = u)) as [->|Hq].
      + rewrite (bool_decide_eq_true_2 (Some u = Some u)) by done. cbn [mbind option_bind p_state p_parked_rsp set_state set_parked].
        rewrite bool_decide_eq_true_2 by (by left). destruct (Z.eqb_spec (user_frame s) 0) as [E|]; [|done].
        by destruct (so_frame _ Hok Hv).
      + by rewrite bool_decide_eq_false_2 by congruence. }
  split; rewrite ?Ec'; rewrite ?Ec; [done|..].
  - rewrite decide_False by done. unfold saved. rewrite Ec, decide_False by done. rewrite <- Hown, Hs0. by rewrite decide_False.
  - intros d Hd. unfold saved. rewrite Ec', Ec, (decide_False _ _ Hd), Hslot, Hs0 by done.
    destruct (decide (d = K 0)) as [->|]; [by rewrite (so_main _ Hok)|done].
  - intros q. rewrite Hfpu, (fpu_kernel s _ q Ec), Hps. case_decide as E; [subst q; by rewrite Hpr|done].
Qed.

(** The kernel main task gives way to the process it takes turns with. *)
Lemma tick_back s u pr rsp :
  sched_ok s -> main_switch_requested s = false -> running s = Some u -> processes s !! u = Some pr -> user_frame_valid s = true ->
  process_pick_ready s (Some u) = None ->
  exists s', scheduler_tick s rsp = (s', user_frame s) /\ sched_ok s' /\ conserves s rsp s' (user_frame s).
Proof.
  intros Hok Hreq Hrun Hpr Hv Hpick. pose proof (proj1 (running_Some s u) Hrun) as (Hcur & pr' & Hpr' & Hst).
  rewrite Hpr in Hpr'. injection Hpr' as <-. exists (fpu_restore (task_saved s 0 rsp) pr). split.
  { unfold scheduler_tick, process_get_current. rewrite Hreq, Hcur, Hpr. simpl. rewrite bool_decide_eq_true_2 by done.
    rewrite Hv. change (process_pick_ready _ (Some u)) with (process_pick_ready s (Some u)). rewrite Hpick. done. }
  set (s' := fpu_restore (task_saved s 0 rsp) pr).
  assert (running s' = Some u) as Hrun' by done.
  assert (forall j, alive s' j = alive s j /\ task_rsp s' j = if decide (j = 0%nat) then rsp else task_rsp s j) as Htk.
  { intros j. split; [change (alive s' j) with (alive (task_saved s 0 rsp) j)|change (task_rsp s' j) with (task_rsp (task_saved s 0 rsp) j)];
      unfold task_saved; [by rewrite alive_upd|]. rewrite task_rsp_upd by (cbn; rewrite (so_tasks _ Hok); unfold MAX_TASKS; lia). done. }
  assert (on_cpu s = K 0 /\ on_cpu s' = U u) as [Ec Ec'].
  { unfold on_cpu. rewrite Hrun, Hrun', Hv. done. }
  split.
  - pose proof Hok as []. split; try done.
    + cbn. by rewrite length_alter.
    + by rewrite (proj1 (Htk 0%nat)).
    + change (tasks s') with (tasks (task_saved s 0 rsp)). unfold task_saved. by rewrite count_upd.
  - split; rewrite ?Ec'; rewrite ?Ec; [done|..].
    + rewrite decide_False by done. unfold saved. rewrite Ec, decide_False by done. unfold slot. rewrite Hrun.
      by rewrite bool_decide_eq_true_2.
    + intros d Hd. unfold saved. rewrite Ec', Ec, (decide_False _ _ Hd). destruct d as [j|q]; [|done]. unfold slot.
      destruct (Htk j) as [-> ->]. destruct (decide (j = 0%nat)) as [->|Hj]; [by rewrite decide_True|]. by rewrite !decide_False by congruence.
    + intros q. rewrite (fpu_kernel s _ q Ec). unfold fpu_of. rewrite Ec'. destruct (decide (U u = U q)) as [[= <-]|]; [by rewrite Hpr|done].
Qed.

Lemma countb_one {B} (f : B -> bool) (l : list B) c :
  (forall j x, l !! j = Some x -> j <> c -> f x = false) -> countb f l <= 1.
Proof.
  revert c. induction l as [|x l IH]; intros c H; [done|]. rewrite countb_cons. destruct c as [|c].
  - assert (countb f l = 0) as ->; [|destruct (f x); lia].
    rewrite (countb_ext f (fun _ => false)); [by clear; induction l|]. intros y (j & Hj)%list_elem_of_lookup. by apply (H (S j) y).
  - rewrite (H 0%nat x) by done. apply (IH c). intros j y Hj Hne. apply (H (S j) y Hj). lia.
Qed.

Lemma alive_dead_at s i : (i < length (tasks s))%nat -> dead_at (tasks s) i = negb (alive s i).
Proof.
  intros Hi. unfold dead_at, alive, task_get_status. destruct (lookup_lt_is_Some_2 _ _ Hi) as [t ->]. by rewrite negb_involutive.
Qed.

(** Among kernel tasks, from the state in which the frame has been saved. *)
Lemma kernel_tick_spec s0 :
  sched_ok s0 -> alive s0 (current_task_idx s0) = true \/ 1 < task_count s0 ->
  exists s' n, kernel_tick s0 = (s', task_rsp s0 n) /\ current_task_idx s' = n /\ alive s0 n = true /\
    tasks s' = tasks s0 /\ processes s' = processes s0 /\ current_process s' = current_process s0 /\
    user_frame_valid s' = user_frame_valid s0 /\ task_count s' = task_count s0 /\ s_cpu s' = s_cpu s0 /\ user_frame s' = user_frame s0 /\
    main_switch_requested s' = main_switch_requested s0 /\
    (1 < task_count s0 -> exists k, (0 < k < 16)%nat /\ n = ((current_task_idx s0 + k) mod 16)%nat /\
       forall j, (0 < j < k)%nat -> alive s0 ((current_task_idx s0 + j) mod 16) = false).
Proof.
  intros Hok Hcur. pose proof (so_tasks _ Hok) as Hlen. pose proof (so_cur _ Hok) as Hc. unfold kernel_tick.
  destruct (Z.leb_spec (task_count s0) 1) as [Hle|Hgt].
  { exists (with_ticks s0 (cpu_busy_ticks s0) (cpu_idle_ticks s0 + 1)), (current_task_idx s0). split; [done|]. destruct Hcur as [Ha|]; [|lia]. split_and!; try done. lia. }
  set (s1 := count_tick s0). set (n := next_task _ _ _ _).
  assert (tasks s1 = tasks s0 /\ processes s1 = processes s0 /\ current_process s1 = current_process s0 /\
    user_frame_valid s1 = user_frame_valid s0 /\ task_count s1 = task_count s0 /\ s_cpu s1 = s_cpu s0 /\ user_frame s1 = user_frame s0 /\
    main_switch_requested s1 = main_switch_requested s0 /\ current_task_idx s1 = current_task_idx s0) as (E1 & E2 & E3 & E4 & E5 & E6 & E7 & E8 & E9).
  { unfold s1, count_tick. by destruct (_ =? 0)%nat. }
  destruct (next_task_spec (tasks s0) (current_task_idx s0) Hlen Hc) as (k & Hk & En & Hdead & Hend).
  assert (n = ((current_task_idx s0 + k) mod 16)%nat) as Hn by (unfold n; by rewrite E1, E9).
  assert (forall j, ((current_task_idx s0 + j) mod 16 < length (tasks s0))%nat) as Hb.
  { intros j. rewrite Hlen. apply Nat.mod_upper_bound. done. }
  assert (forall j, (0 < j < k)%nat -> alive s0 ((current_task_idx s0 + j) mod 16) = false) as Hbetween.
  { intros j Hj. specialize (Hdead j Hj). rewrite alive_dead_at in Hdead by apply Hb. by apply negb_true_iff in Hdead. }
  assert (k <> 16%nat) as Hk16.
  { intros ->. assert (task_count s0 <= 1); [|lia]. rewrite (so_count _ Hok). apply (countb_one _ _ (current_task_idx s0)).
    intros j t Hj Hne. assert (j < 16)%nat as Hj16 by (apply lookup_lt_Some in Hj; by rewrite Hlen in Hj).
    set (d := if decide (current_task_idx s0 < j)%nat then (j - current_task_idx s0)%nat else (16 + j - current_task_idx s0)%nat).
    assert ((current_task_idx s0 + d) mod 16 = j)%nat as Ed.
    { unfold d, MAX_TASKS in *. case_decide.
      - rewrite Nat.mod_small; lia.
      - replace (current_task_idx s0 + (16 + j - current_task_idx s0))%nat with (j + 1 * 16)%nat by lia.
        rewrite Nat.Div0.mod_add. by apply Nat.mod_small. }
    assert (dead_at (tasks s0) j = true) as Hdj.
    { rewrite <- Ed. apply Hdead. unfold d, MAX_TASKS in *. case_decide; lia. }
    unfold dead_at in Hdj. rewrite Hj in Hdj. by rewrite Hdj. }
  exists (with_cur s1 n), n. split_and!; try done.
  - cbn [current_task_idx with_cur]. unfold task_rsp. cbn. by rewrite E1.
  - destruct Hend as [|Hend]; [done|]. rewrite Hn. rewrite alive_dead_at in Hend by apply Hb. by apply negb_false_iff in Hend.
  - intros _. exists k. split; [lia|]. done.
Qed.

Lemma tick_kernel s rsp :
  sched_ok s -> running s = None -> alive s (current_task_idx s) = true \/ 1 < task_count s ->
  exists s' r, kernel_tick (task_saved s (current_task_idx s) rsp) = (s', r) /\ sched_ok s' /\ conserves s rsp s' r.
Proof.
  intros Hok Hrun Hcur. set (s0 := task_saved s (current_task_idx s) rsp).
  pose proof (task_saved_ok s (current_task_idx s) rsp Hok Hrun) as Hok0. fold s0 in Hok0.
  assert (forall j, alive s0 j = alive s j) as Hal0 by (intros j; unfold s0, task_saved; by rewrite alive_upd).
  destruct (kernel_tick_spec s0 Hok0) as (s' & n & E & En & Han & Et & Ep & Ecp & Ev & Ek & Ecpu & Euf & _ & _).
  { rewrite Hal0. exact Hcur. }
  exists s', (task_rsp s0 n). split; [done|].
  assert (running s' = None) as Hrun'.
  { unfold running, process_get_current. rewrite Ecp, Ep. exact Hrun. }
  assert (forall j, alive s' j = alive s0 j /\ task_rsp s' j = task_rsp s0 j) as Htk.
  { intros j. unfold alive, task_get_status, task_rsp. by rewrite Et. }
  assert (forall d, slot s' d = slot s0 d) as Hslot.
  { intros [j|q]; unfold slot; [by destruct (Htk j) as [-> ->]|]. rewrite Hrun', Ep, Euf. change (running s0) with (running s). by rewrite Hrun. }
  pose proof (fun d => task_saved_slot s _ rsp d Hok Hrun (so_cur _ Hok)) as Hsv. fold s0 in Hsv.
  assert (on_cpu s = K (current_task_idx s)) as Ec by (unfold on_cpu; by rewrite Hrun).
  assert (on_cpu s' = K n) as Ec' by (unfold on_cpu; by rewrite Hrun', En).
  split.
  - pose proof Hok0 as []. split; rewrite ?Et, ?Ep, ?Ecp, ?Ev, ?Ek, ?Euf; try done.
    + by rewrite (proj1 (Htk 0%nat)).
    + rewrite En. destruct (decide (n < MAX_TASKS)%nat) as [|Hge]; [done|]. exfalso. revert Han. unfold alive, task_get_status.
      rewrite lookup_ge_None_2; [done|]. rewrite so_tasks0. lia.
    + intros u pr Hu. congruence.
  - rewrite Hal0 in Han. split; rewrite ?Ec'; rewrite ?Ec; [done|..].
    + assert (slot s0 (K n) = Some (task_rsp s0 n)) as Hs by (unfold slot; by rewrite Hal0, Han). rewrite Hsv in Hs.
      destruct (decide (K n = K (current_task_idx s))) as [[= ->]|Hne].
      * rewrite Han in Hs. by injection Hs as <-.
      * unfold saved. rewrite Ec, decide_False by done. exact Hs.
    + intros d Hd. unfold saved. rewrite Ec', Ec, (decide_False _ _ Hd), Hslot, Hsv.
      destruct (decide (d = K (current_task_idx s))) as [->|]; done.
    + intros q. by rewrite (fpu_kernel s _ q Ec), (fpu_kernel s' _ q Ec'), Ep.
Qed.

Lemma tick_idle s rsp :
  main_switch_requested s = false -> running s = None ->
  scheduler_tick s rsp =
    let s0 := task_saved s (current_task_idx s) rsp in
    match process_pick_ready s None with
    | Some i => match processes s !! i with Some p => (switch_to_process s0 i p, p_parked_rsp p) | None => (s0, 0) end
    | None => kernel_tick s0
    end.
Proof.
  intros Hreq Hrun. unfold scheduler_tick. rewrite Hreq. unfold running in Hrun.
  destruct (process_get_current s) as [[u p]|]; [|done]. destruct (bool_decide _); done.
Qed.

(** The main task is resumed from its saved frame, and nothing is saved: no
    task and no process changes, and the frame the interrupt found is
    dropped. *)
Definition rewound (s s' : sched) (r : Z) : Prop :=
  r = task_rsp s 0 /\ current_task_idx s' = 0%nat /\ tasks s' = tasks s /\ processes s' = processes s /\
  current_process s' = current_process s /\ s_cpu s' = s_cpu s /\ s_mem s' = s_mem s /\
  user_frame_valid s' = false /\ main_switch_requested s' = false.

Lemma tick_requested s rsp :
  sched_ok s -> main_switch_requested s = true -> let '(s', r) := scheduler_tick s rsp in sched_ok s' /\ rewound s s' r.
Proof.
  intros Hok Hreq. unfold scheduler_tick. rewrite Hreq. split; [|by unfold rewound].
  destruct Hok as [H1 H2 H3 H4 H5 H6 H7]. split; [done|done|done|cbn; unfold MAX_TASKS; lia|done|done|done].
Qed.

Lemma tick_conserves s rsp :
  sched_ok s -> main_switch_requested s = false -> rsp <> 0 ->
  alive s (current_task_idx s) = true \/ 1 < task_count s ->
  let '(s', r) := scheduler_tick s rsp in sched_ok s' /\ conserves s rsp s' r.
Proof.
  intros Hok Hreq Hr Hcur. destruct (running s) as [u|] eqn:Hrun.
  - pose proof (proj1 (running_Some s u) Hrun) as (_ & pr & Hpr & _). destruct (user_frame_valid s) eqn:Hv.
    + destruct (process_pick_ready s (Some u)) as [i|] eqn:Hp.
      * destruct (pick_ready_Some s _ i Hp) as (p & Hi & _). destruct (tick_next s u pr i p rsp Hok Hreq Hrun Hpr Hv Hp Hi) as (s' & -> & H). exact H.
      * destruct (tick_back s u pr rsp Hok Hreq Hrun Hpr Hv Hp) as (s' & -> & H). exact H.
    + destruct (tick_user s u pr rsp Hok Hr Hreq Hrun Hpr Hv) as (-> & H). exact H.
  - rewrite (tick_idle s rsp Hreq Hrun). cbv zeta. destruct (process_pick_ready s None) as [i|] eqn:Hp.
    + destruct (pick_ready_Some s _ i Hp) as (p & Hi & Hst & Hpk & _). rewrite Hi. by apply tick_wake.
    + destruct (tick_kernel s rsp Hok Hrun Hcur) as (s' & r & -> & H). exact H.
Qed.

(** C1: What a timer interrupt does with the contexts. While no switch to the
    main task is requested, no context is lost or run twice: the frame of the
    interrupted context is saved as that context's frame (unless the context
    has ended), exactly one living context is resumed, from its own saved
    frame, the saved frames of all others stay as they were, and the FPU state
    of every process is preserved. When a switch to the main task is requested
    (a process has just ended), the main task is resumed from its saved frame,
    the request is cleared, and the frame that the interrupt found is not saved.
    In both cases the invariant is kept: the CPU holds the segment base, kernel
    stacks and page tables of the process that runs. The proviso excludes a task
    that has just ended with no other task but the main one left. *)
Theorem scheduler_tick_conserves s rsp :
  sched_ok s -> rsp <> 0 -> alive s (current_task_idx s) = true \/ 1 < task_count s ->
  let '(s', r) := scheduler_tick s rsp in
  sched_ok s' /\ if main_switch_requested s then rewound s s' r else conserves s rsp s' r.
Proof.
  intros Hok Hr Hcur. destruct (main_switch_requested s) eqn:Hreq; [by apply tick_requested|by apply tick_conserves].
Qed.

(** ** Fairness *)

(** The state after timer interrupts that find the frames [rs]. *)
Definition ticks (s : sched) (rs : list Z) : sched := fold_left (fun s r => (scheduler_tick s r).1) rs s.

Lemma countb_two {B} (f : B -> bool) (l : list B) i j x y :
  i <> j -> l !! i = Some x -> l !! j = Some y -> f x = true -> f y = true -> 2 <= countb f l.
Proof.
  intros Hne. assert (forall l k z, l !! k = Some z -> f z = true -> 1 <= countb f l) as H1.
  { clear. induction l as [|w l IH]; intros k z Hk Hz; [done|]. rewrite countb_cons. pose proof (countb_bounds f l).
    destruct k as [|k]; simpl in Hk; [injection Hk as ->; rewrite Hz; lia|]. specialize (IH k z Hk Hz). destruct (f w); lia. }
  revert i j Hne. induction l as [|w l IH]; intros i j Hne Hi Hj Hx Hy; [done|]. rewrite countb_cons.
  destruct i as [|i], j as [|j]; simpl in Hi, Hj; [done|..].
  - injection Hi as ->. rewrite Hx. specialize (H1 l j y Hj Hy). lia.
  - injection Hj as ->. rewrite Hy. specialize (H1 l i x Hi Hx). lia.
  - specialize (IH i j). destruct (f w); [|apply IH; congruence || lia]. specialize (IH ltac:(congruence) Hi Hj Hx Hy). lia.
Qed.

Lemma alive_lookup s i : alive s i = true -> exists t, tasks s !! i = Some t /\ negb (bool_decide (t_status t = TASK_DEAD)) = true.
Proof. unfold alive, task_get_status. destruct (tasks s !! i) as [t|]; [eauto|done]. Qed.

(** Only kernel tasks are there to run. *)
Record quiet (s : sched) : Prop := {
  qu_ok : sched_ok s;
  qu_request : main_switch_requested s = false;
  qu_running : running s = None;
  qu_ready : process_pick_ready s None = None;
  qu_cur : alive s (current_task_idx s) = true \/ 1 < task_count s
}.

(** One interrupt moves on to the next living task. *)
Lemma quiet_tick s rsp :
  quiet s ->
  let s' := (scheduler_tick s rsp).1 in
  quiet s' /\ (forall j, alive s' j = alive s j) /\
  (1 < task_count s -> exists k, (0 < k < 16)%nat /\ current_task_idx s' = ((current_task_idx s + k) mod 16)%nat /\
     forall j, (0 < j < k)%nat -> alive s ((current_task_idx s + j) mod 16) = false).
Proof.
  intros [Hok Hreq Hrun Hready Hcur] s'. unfold s'. rewrite (tick_idle s rsp Hreq Hrun). cbv zeta. rewrite Hready.
  set (s0 := task_saved s (current_task_idx s) rsp).
  pose proof (task_saved_ok s (current_task_idx s) rsp Hok Hrun) as Hok0. fold s0 in Hok0.
  assert (forall j, alive s0 j = alive s j) as Hal0 by (intros j; unfold s0, task_saved; by rewrite alive_upd).
  destruct (tick_kernel s rsp Hok Hrun Hcur) as (s1 & r1 & E1 & Hok1 & _). fold s0 in E1.
  destruct (kernel_tick_spec s0 Hok0) as (s2 & n & E & En & Han & Et & Ep & Ecp & Ev & Ek & Ecpu & Euf & Erq & Hnext).
  { rewrite Hal0. exact Hcur. }
  rewrite E in E1. injection E1 as -> _. rewrite E. cbn [fst].
  assert (forall j, alive s1 j = alive s j) as Hal.
  { intros j. rewrite <- Hal0. unfold alive, task_get_status. by rewrite Et. }
  split_and!; [|done|].
  - split; [done|by rewrite Erq| | |].
    + unfold running, process_get_current. rewrite Ecp, Ep. exact Hrun.
    + unfold process_pick_ready. rewrite Ep. exact Hready.
    + left. by rewrite En, Hal, <- Hal0.
  - intros Hc. destruct (Hnext Hc) as (k & Hk & Hn & Hb). exists k. split; [done|]. split; [by rewrite En, Hn|].
    intros j Hj. rewrite <- Hal0. by apply Hb.
Qed.

(** C25: Round robin. While no user process runs or waits for the CPU, every
    living kernel task gets it within fifteen timer interrupts, whatever the
    tasks do in between. *)
Theorem round_robin_fair s i rs :
  quiet s -> alive s i = true -> (15 <= length rs)%nat ->
  exists n, (n <= 15)%nat /\ on_cpu (ticks s (take n rs)) = K i.
Proof.
  intros Hq Hi Hlen.
  assert (forall d s rs, quiet s -> alive s i = true -> (d < 16)%nat -> i = ((current_task_idx s + d) mod 16)%nat -> (d <= length rs)%nat ->
    exists n, (n <= d)%nat /\ on_cpu (ticks s (take n rs)) = K i) as Hgen.
  { clear. intros d. induction d as [d IH] using lt_wf_ind. intros s rs Hq Hi Hd Ei Hlen.
    destruct (decide (current_task_idx s = i)) as [E|Hne].
    { exists 0%nat. split; [lia|]. simpl. unfold on_cpu. by rewrite (qu_running _ Hq), E. }
    pose proof (so_cur _ (qu_ok _ Hq)) as Hc. unfold MAX_TASKS in Hc.
    assert (d <> 0)%nat as Hd0 by (intros ->; apply Hne; rewrite Ei, Nat.add_0_r; symmetry; by apply Nat.mod_small).
    destruct rs as [|r rs]; simpl in Hlen; [lia|].
    assert (1 < task_count s) as Hcount.
    { destruct (qu_cur _ Hq) as [Ha|]; [|done]. destruct (alive_lookup s _ Ha) as (x & Hx & Hx'). destruct (alive_lookup s i Hi) as (y & Hy & Hy').
      pose proof (countb_two (fun t => negb (bool_decide (t_status t = TASK_DEAD))) _ _ _ x y Hne Hx Hy Hx' Hy') as Hge. rewrite <- (so_count _ (qu_ok _ Hq)) in Hge. lia. }
    destruct (quiet_tick s r Hq) as (Hq' & Hal & Hnext). destruct (Hnext Hcount) as (k & Hk & Ek & Hdead).
    set (s' := (scheduler_tick s r).1) in *.
    assert (k <= d)%nat as Hkd.
    { destruct (decide (k <= d)%nat) as [|Hgt]; [done|]. specialize (Hdead d ltac:(lia)). rewrite <- Ei in Hdead. congruence. }
    destruct (IH (d - k)%nat ltac:(lia) s' rs) as (n & Hn & Hon); [done|by rewrite Hal|lia| |lia|].
    - rewrite Ek, Nat.Div0.add_mod_idemp_l, Ei. f_equal. lia.
    - exists (S n). split; [lia|]. exact Hon. }
  pose proof (so_cur _ (qu_ok _ Hq)) as Hc. pose proof (so_tasks _ (qu_ok _ Hq)) as Ht. unfold MAX_TASKS in *.
  destruct (alive_lookup s i Hi) as (t & Hti & _). apply lookup_lt_Some in Hti. rewrite Ht in Hti.
  set (d := ((i + 16 - current_task_idx s) mod 16)%nat).
  assert (d < 16)%nat by (apply Nat.mod_upper_bound; lia).
  destruct (Hgen d s rs Hq Hi) as (n & Hn & Hon); [done| |lia|].
  - unfold d. rewrite Nat.Div0.add_mod_idemp_r. replace (current_task_idx s + (i + 16 - current_task_idx s))%nat with (i + 1 * 16)%nat by lia.
    rewrite Nat.Div0.mod_add. symmetry. by apply Nat.mod_small.
  - exists n. split; [lia|done].
Qed.

(** ** Starvation of processes *)

(** Two of the processes of the table take turns and a third one waits. *)
Definition ready (p : process) : Prop := p_state p = PROCESS_STATE_READY /\ p_parked_rsp p <> 0.

Inductive contended (c : process) (s : sched) : Prop :=
  | cont_intro a b rest :
      processes s = a :: b :: c :: rest -> ready c -> main_switch_requested s = false ->
      (user_frame_valid s = true -> user_frame s <> 0) ->
      (current_process s = Some 0%nat /\ p_state a = PROCESS_STATE_RUNNING /\ ready b \/
       current_process s = Some 1%nat /\ p_state b = PROCESS_STATE_RUNNING /\ ready a) ->
      contended c s.

Ltac pick_concrete Ep :=
  unfold process_pick_ready; cbn [with_user_frame upd_task with_tasks processes]; rewrite Ep; cbn [find_from];
  unfold resumable.

Lemma contended_tick c s rsp : contended c s -> rsp <> 0 -> contended c (scheduler_tick s rsp).1.
Proof.
  intros [a b rest Ep Hc Hreq Hf Hab] Hr. unfold scheduler_tick. rewrite Hreq. unfold process_get_current.
  destruct Hab as [(Ecur & Hrun & Hrd & Hpk)|(Ecur & Hrun & Hrd & Hpk)]; rewrite Ecur, Ep; cbn [lookup list_lookup fmap option_fmap option_map];
    rewrite (bool_decide_eq_true_2 _ Hrun); (destruct (user_frame_valid s) eqn:Hv;
      [|eapply cont_intro; cbn; [rewrite Ep; reflexivity|done|done|done|unfold ready; cbn; auto 6]]).
  - assert (process_pick_ready (with_user_frame (upd_task s 0 (set_rsp rsp)) (user_frame s) false) (Some 0%nat) = Some 1%nat) as Epick.
    { pick_concrete Ep. rewrite Hrun, Hrd. rewrite (proj2 (Z.eqb_neq _ _) Hpk). reflexivity. }
    cbv zeta. cbn [user_frame upd_task with_tasks]. rewrite Epick. cbn [with_user_frame upd_task with_tasks processes]. rewrite Ep.
    cbn [lookup list_lookup]. unfold switch_space. destruct (truthy (p_cr3 b));
      (eapply cont_intro; cbn; [rewrite Ep; reflexivity|done|done|done|unfold ready; cbn; auto 6]).
  - assert (process_pick_ready (with_user_frame (upd_task s 0 (set_rsp rsp)) (user_frame s) false) (Some 1%nat) = Some 0%nat) as Epick.
    { pick_concrete Ep. rewrite Hrd. rewrite (proj2 (Z.eqb_neq _ _) Hpk). reflexivity. }
    cbv zeta. cbn [user_frame upd_task with_tasks]. rewrite Epick. cbn [with_user_frame upd_task with_tasks processes]. rewrite Ep.
    cbn [lookup list_lookup]. unfold switch_space. destruct (truthy (p_cr3 a));
      (eapply cont_intro; cbn; [rewrite Ep; reflexivity|done|done|done|unfold ready; cbn; auto 6]).
Qed.

(** C34: Processes do not take turns. The search for the next process always
    starts at the front of the table: while the processes in the first two
    slots compete for the CPU, a third one that is ready never runs and stays
    exactly as it was, however many timer interrupts pass. *)
Theorem third_process_starves c s rs :
  contended c s -> Forall (fun r => r <> 0) rs ->
  processes (ticks s rs) !! 2%nat = Some c /\ running (ticks s rs) <> Some 2%nat /\
  p_state c = PROCESS_STATE_READY.
Proof.
  intros Hs Hrs. assert (contended c (ticks s rs)) as [a b rest Ep [Hc _] _ _ Hab].
  { revert s Hs. induction Hrs as [|r rs Hr Hrs IH]; intros s Hs; [done|]. apply IH. by apply contended_tick. }
  rewrite Ep. split; [done|]. split; [|done]. intros [Ecur _]%running_Some. destruct Hab as [[E _]|[E _]]; congruence.
Qed.

(** ** Ends of contexts *)

(** A task that ends when only the main task is left does not give up the
    CPU: with no process to run, the scheduler returns the frame of the ended
    task itself. *)
Theorem task_exit_resumes_ended s rsp :
  sched_ok s -> running s = None -> process_pick_ready s None = None -> main_switch_requested s = false ->
  current_task_idx s <> 0%nat -> alive s (current_task_idx s) = true -> task_count s = 2 ->
  let '(s', r) := task_exit s rsp in
  r = rsp /\ current_task_idx s' = current_task_idx s /\ alive s' (current_task_idx s) = false.
Proof.
  intros Hok Hrun Hready Hreq Hne Hal Hcount. unfold task_exit. rewrite (proj2 (Nat.ltb_lt _ _) (so_cur _ Hok)).
  set (s0 := with_count _ _).
  rewrite tick_idle; [|done|done]. cbv zeta. change (process_pick_ready s0 None) with (process_pick_ready s None). rewrite Hready.
  unfold kernel_tick. cbn [task_saved task_count s0 with_count upd_task with_tasks with_user_frame].
  rewrite Hcount. cbn [Z.leb Z.sub Z.compare Z.add Z.opp Z.pos_sub Pos.compare].
  destruct (alive_lookup s _ Hal) as (t & Ht & _). split_and!; [|done|].
  - unfold task_rsp. cbn. rewrite !list_lookup_alter_eq, Ht. done.
  - unfold alive, task_get_status. cbn. rewrite !list_lookup_alter_eq, Ht. done.
Qed.

(** ** A small machine *)

Definition demo_task (rsp : Z) (st : task_status) : task := mk_task rsp st [116] false.
Definition demo_tasks (l : list (Z * task_status)) : list task :=
  map (fun x => demo_task x.1 x.2) l ++ replicate (16 - length l) (demo_task 0 TASK_DEAD).
Definition demo_proc (pid : Z) (st : pstate) (parked : Z) : process :=
  mk_proc pid pid false st (pid * 4096) (pid * 1000) (pid * 100) pid 0 parked 0 0 None 0 0.
Definition demo_sched (ts : list (Z * task_status)) (n : Z) (cur : nat) (v : bool) (ps : list process) (c : option nat) : sched :=
  mk_sched (demo_tasks ts) n cur 0 0 7000 v false ps c (mk_cpu 1 100 1000 1000 4096) ∅.

(** Main and two tasks, nothing else. *)
Definition demo_kernel : sched :=
  demo_sched [(1000, TASK_READY); (2000, TASK_READY); (0, TASK_DEAD); (3000, TASK_READY)] 3 1 false [] None.

(** Main, a process that shares the CPU with it and two ready processes. *)
Definition demo_user : sched :=
  demo_sched [(1000, TASK_READY)] 1 0 true
    [demo_proc 1 PROCESS_STATE_RUNNING 0; demo_proc 2 PROCESS_STATE_READY 8000; demo_proc 3 PROCESS_STATE_READY 9000] (Some 0%nat).

Lemma demo_user_ok : sched_ok demo_user.
Proof.
  split; try reflexivity.
  - unfold MAX_TASKS. cbn. lia.
  - intros [|[|[|p]]] pr Hp Hst; cbn in Hp; injection Hp as <- || done; cbn in Hst; done.
  - cbn. done.
  - intros u pr Hu Hp. cbn in Hu. injection Hu as <-. cbn in Hp. injection Hp as <-. by split_and!.
Qed.

Lemma demo_kernel_ok ts n cur :
  length (demo_tasks ts) = 16%nat -> alive (demo_sched ts n cur false [] None) 0 = true ->
  n = countb (fun t => negb (bool_decide (t_status t = TASK_DEAD))) (demo_tasks ts) -> (cur < 16)%nat ->
  sched_ok (demo_sched ts n cur false [] None).
Proof. intros Hl Ha Hn Hc. split; try done. Qed.

Lemma scheduler_tick_conserves_witness :
  let '(s', r) := scheduler_tick demo_user 1200 in sched_ok s' /\ conserves demo_user 1200 s' r.
Proof. apply (scheduler_tick_conserves demo_user 1200); [exact demo_user_ok|lia|left; reflexivity]. Defined.

Lemma round_robin_fair_witness :
  exists n, (n <= 15)%nat /\ on_cpu (ticks demo_kernel (take n (replicate 15 4000))) = K 0.
Proof.
  apply round_robin_fair; [|reflexivity|cbn; lia]. split; [|reflexivity|reflexivity|reflexivity|left; reflexivity].
  apply demo_kernel_ok; try reflexivity; lia.
Defined.

Lemma third_process_starves_witness :
  processes (ticks demo_user (replicate 20 4000)) !! 2%nat = Some (demo_proc 3 PROCESS_STATE_READY 9000) /\
  running (ticks demo_user (replicate 20 4000)) <> Some 2%nat /\
  p_state (demo_proc 3 PROCESS_STATE_READY 9000) = PROCESS_STATE_READY.
Proof.
  apply third_process_starves.
  - eapply cont_intro; [reflexivity|by split|reflexivity|cbn; lia|left; by split_and!].
  - apply Forall_replicate. lia.
Defined.

Lemma task_exit_resumes_ended_witness :
  let s := demo_sched [(1000, TASK_READY); (2000, TASK_READY)] 2 1 false [] None in
  let '(s', r) := task_exit s 2400 in
  r = 2400 /\ current_task_idx s' = current_task_idx s /\ alive s' (current_task_idx s) = false.
Proof.
  apply task_exit_resumes_ended; try reflexivity; [|cbn; lia]. apply demo_kernel_ok; try reflexivity; lia.
Defined.
