(* ===== verification/WaitQueues.v ===== *)
(** * Wait queues implement lists

    The queues of src/src/kernel/sched/wait.c are threaded through the process
    table. Here they are shown to implement a specification in which a queue
    is a list of processes: every operation on the linked structure is the
    operation of the specification. *)

From S2P Require Import Prelude Sched SchedCorrect.

(** ** The specification *)

(** The scheduler state without the links of the queues. *)
Definition erase (s : sched) : sched := with_procs s (set_next None <$> processes s).

Record awaits : Type := mk_aw {
  a_sched : sched;
  a_queues : list (list nat);
  a_timers : list wait_timer
}.

Definition aqueue (a : awaits) (q : nat) : list nat := default [] (a_queues a !! q).

(** The processes to wake, at most [max] of them (all if negative), and the
    queue that is left. *)
Fixpoint woken (blk : nat -> bool) (max : Z) (l : list nat) : list nat * list nat :=
  match l with
  | [] => ([], [])
  | p :: l' =>
      if max =? 0 then ([], l)
      else if blk p then let '(wk, rest) := woken blk (max - 1) l' in (p :: wk, rest)
      else woken blk max l'
  end.

Definition wake_all (s : sched) (l : list nat) : sched := fold_left (fun s p => wake_locked s p WAIT_RESTART 0) l s.

Definition a_wake (a : awaits) (q : nat) (max : Z) : awaits :=
  let '(wk, rest) := woken (blocked (a_sched a)) max (aqueue a q) in
  mk_aw (wake_all (a_sched a) wk) (<[q := rest]> (a_queues a)) (a_timers a).

(** The first process that is still blocked, and what is behind it. *)
Fixpoint from_blocked (blk : nat -> bool) (l : list nat) : option (nat * list nat) :=
  match l with
  | [] => None
  | p :: l => if blk p then Some (p, l) else from_blocked blk l
  end.

Definition a_wake_status (a : awaits) (q : nat) (ret : Z) : awaits :=
  match from_blocked (blocked (a_sched a)) (aqueue a q) with
  | Some (p, rest) => mk_aw (wake_locked (a_sched a) p WAIT_COMPLETE ret) (<[q := rest]> (a_queues a)) (a_timers a)
  | None => mk_aw (a_sched a) (<[q := []]> (a_queues a)) (a_timers a)
  end.

Definition disarm (t : wait_timer) : wait_timer := mk_timer false (tm_deadline_us t) (tm_wq t) (tm_kind t) (tm_ret t).
Definition due (now : Z) (t : wait_timer) : bool := tm_used t && (tm_deadline_us t <=? now).

(** A due timer wakes the first blocked process of its queue. *)
Definition a_expire (now : Z) (a : awaits) (i : nat) : awaits :=
  match a_timers a !! i with
  | Some t =>
      if due now t then
        let ts := <[i := disarm t]> (a_timers a) in
        match from_blocked (blocked (a_sched a)) (aqueue a (tm_wq t)) with
        | Some (p, _) =>
            mk_aw (wake_locked (a_sched a) p (tm_kind t) (tm_ret t))
                  (<[tm_wq t := List.filter (fun i => negb (i =? p)%nat) (aqueue a (tm_wq t))]> (a_queues a)) ts
        | None => mk_aw (a_sched a) (a_queues a) ts
        end
      else a
  | None => a
  end.

Definition a_poll (a : awaits) (now : Z) : awaits := fold_left (a_expire now) (seq 0 WAIT_TIMERS) a.

Definition a_arm (a : awaits) (now : Z) (q : nat) (us : Z) (kind : wait_kind) (ret : Z) : option awaits :=
  i ← find_from (fun _ t => negb (tm_used t)) 0 (a_timers a);
  Some (mk_aw (a_sched a) (a_queues a) (<[i := mk_timer true (u64 (now + us)) q kind ret]> (a_timers a))).

Section block.
Context (frame_addr : nat -> Z).

(** The current process goes to the end of the queue, its frame parked. The
    frame to resume, if the call hands the CPU away. *)
Definition a_block (a : awaits) (now frame_rsp : Z) (op : Z * Z) (irq_rsp : Z) (q : nat) (kind : wait_kind) (ret timeout_us : Z) :
    awaits * option Z :=
  match process_get_current (a_sched a) with
  | None => (a, None)
  | Some (i, _) =>
      match (if timeout_us =? 0 then Some a else a_arm a now q timeout_us kind ret) with
      | None => (a, None)
      | Some a =>
          let s := process_park_entry_frame frame_addr (a_sched a) i frame_rsp (bool_decide (kind = WAIT_RESTART)) op
                     (match kind with WAIT_COMPLETE => ret | WAIT_RESTART => 0 end) in
          let s := fpu_save (upd_proc s i (set_state PROCESS_STATE_BLOCKED)) i in
          let '(s, rsp) := park_switch s i irq_rsp in
          (mk_aw s (<[q := aqueue a q ++ [i]]> (a_queues a)) (a_timers a), Some rsp)
      end
  end.

(** The entry points of wait.c. *)
Inductive wop : Type :=
  | Wake (q : nat) (max : Z)
  | WakeStatus (q : nat) (ret : Z)
  | Poll (now : Z)
  | Block (now frame_rsp : Z) (op : Z * Z) (irq_rsp : Z) (q : nat) (kind : wait_kind) (ret timeout_us : Z).

Definition wstep (w : waits) (o : wop) : res (waits * option Z) :=
  match o with
  | Wake q max => w ← wait_wake w q max; Ok (w, None)
  | WakeStatus q ret => w ← wait_wake_status w q ret; Ok (w, None)
  | Poll now => Ok (wait_timers_poll w now, None)
  | Block now frame_rsp op irq_rsp q kind ret us =>
      Ok (match wait_block frame_addr w now frame_rsp op irq_rsp q kind ret us with
          | inl w => (w, None)
          | inr (w, r) => (w, Some r)
          end)
  end.

Definition astep (a : awaits) (o : wop) : awaits * option Z :=
  match o with
  | Wake q max => (a_wake a q max, None)
  | WakeStatus q ret => (a_wake_status a q ret, None)
  | Poll now => (a_poll a now, None)
  | Block now frame_rsp op irq_rsp q kind ret us => a_block a now frame_rsp op irq_rsp q kind ret us
  end.

(** Queues exist, and a process that blocks is not on a queue already. *)
Definition allowed (a : awaits) (o : wop) : Prop :=
  match o with
  | Wake q _ | WakeStatus q _ => (q < length (a_queues a))%nat
  | Poll _ => Forall (fun t => (tm_wq t < length (a_queues a))%nat) (a_timers a)
  | Block _ _ _ _ q _ _ _ =>
      (q < length (a_queues a))%nat /\ forall i, current_process (a_sched a) = Some i -> i ∉ concat (a_queues a)
  end.
End block.

(** ** The linked representation *)

(** The links of the processes of [l] lead along [l]. *)
Definition links (s : sched) (l : list nat) : Prop :=
  forall k i, l !! k = Some i -> (i < length (processes s))%nat /\ next_of s i = l !! S k.

Definition repr (w : waits) (q : nat) (l : list nat) : Prop :=
  wq_head (queue w q) = head l /\ wq_tail (queue w q) = list.last l /\ links (w_sched w) l.

Record refines (w : waits) (a : awaits) : Prop := {
  re_procs : (length (processes (w_sched w)) <= MAX_PROCESSES)%nat;
  re_sched : a_sched a = erase (w_sched w);
  re_timers : a_timers a = w_timers w;
  re_length : length (a_queues a) = length (w_queues w);
  re_queues : forall q l, a_queues a !! q = Some l -> repr w q l;
  re_disjoint : NoDup (concat (a_queues a))
}.

(** ** Links after updates *)

Lemma upd_proc_lookup s i f j :
  processes (upd_proc s i f) !! j = (if decide (i = j) then f <$> processes s !! j else processes s !! j).
Proof.
  cbn. destruct (decide (i = j)) as [->|]; [by rewrite list_lookup_alter_eq|by rewrite list_lookup_alter_ne].
Qed.

Lemma upd_proc_length s i f : length (processes (upd_proc s i f)) = length (processes s).
Proof. cbn. apply length_alter. Qed.

Lemma next_of_set_next s i n j :
  (i < length (processes s))%nat -> next_of (upd_proc s i (set_next n)) j = if decide (i = j) then n else next_of s j.
Proof.
  intros Hi. unfold next_of. rewrite upd_proc_lookup. destruct (decide (i = j)) as [->|]; [|done].
  destruct (lookup_lt_is_Some_2 _ _ Hi) as [p ->]. done.
Qed.

(** Updates of what is not a link. *)
Definition keeps_next (f : process -> process) : Prop := forall p, p_wait_next (f p) = p_wait_next p.

Lemma next_of_keeps s i f j : keeps_next f -> next_of (upd_proc s i f) j = next_of s j.
Proof.
  intros Hf. unfold next_of. rewrite upd_proc_lookup. destruct (decide (i = j)) as [->|]; [|done].
  destruct (processes s !! j) as [p|]; [exact (Hf p)|done].
Qed.

Lemma links_ext s s' l :
  length (processes s') = length (processes s) -> (forall i, i ∈ l -> next_of s' i = next_of s i) -> links s l -> links s' l.
Proof.
  intros Hlen Hn Hl k i Hk. destruct (Hl k i Hk) as [Hi E]. rewrite Hlen, Hn by (by apply list_elem_of_lookup_2 in Hk). done.
Qed.

Lemma links_set_next s i n l : i ∉ l -> links s l -> links (upd_proc s i (set_next n)) l.
Proof.
  intros Hi. apply links_ext; [apply upd_proc_length|]. intros j Hj. unfold next_of. rewrite upd_proc_lookup.
  by rewrite decide_False by (intros ->; done).
Qed.

Lemma links_cons s i l : links s (i :: l) <-> (i < length (processes s))%nat /\ next_of s i = head l /\ links s l.
Proof.
  split.
  - intros H. destruct (H 0%nat i eq_refl) as [Hi E]. split; [done|]. split; [rewrite E; by destruct l|]. intros k j Hk. exact (H (S k) j Hk).
  - intros (Hi & E & H) [|k] j Hk; simpl in Hk.
    + injection Hk as <-. split; [done|]. rewrite E. by destruct l.
    + exact (H k j Hk).
Qed.

Lemma links_lt s l i : links s l -> i ∈ l -> (i < length (processes s))%nat.
Proof. intros H [k Hk]%list_elem_of_lookup_1. apply (H k i Hk). Qed.

Lemma links_short s l : links s l -> NoDup l -> (length l <= length (processes s))%nat.
Proof.
  intros H Hnd. transitivity (length (seq 0 (length (processes s)))); [|by rewrite length_seq]. apply submseteq_length, NoDup_submseteq; [done|].
  intros i Hi. apply elem_of_seq. split; [lia|]. apply (links_lt _ _ _ H Hi).
Qed.

(** A list that loses one element from its middle, or gets one at its end. *)
Lemma links_snoc s l t p :
  (p < length (processes s))%nat -> NoDup (l ++ [t; p]) -> links s (l ++ [t]) -> next_of s p = None ->
  links (upd_proc s t (set_next (Some p))) (l ++ [t; p]).
Proof.
  intros Hp Hnd Hl Hn. induction l as [|i l IH]; cbn [app] in *.
  - rewrite !links_cons in *. rewrite upd_proc_length. destruct Hl as (Ht & _ & _).
    rewrite !next_of_set_next by done. rewrite list.NoDup_cons, list_elem_of_singleton in Hnd. rewrite decide_True by done.
    rewrite decide_False by (by intros ->; apply Hnd). split_and!; try done.
  - rewrite links_cons in Hl |- *. apply list.NoDup_cons in Hnd as [Hi Hnd]. destruct Hl as (Hi' & E & Hl). rewrite upd_proc_length.
    assert (t ∈ l ++ [t]) as Ht by set_solver. split; [done|]. split; [|by apply IH].
    rewrite next_of_set_next by (by apply (links_lt _ _ _ Hl)). rewrite decide_False; [|set_solver]. rewrite E. by destruct l.
Qed.

Lemma links_remove s l a p l' :
  NoDup (l ++ a :: p :: l') -> links s (l ++ a :: p :: l') -> links (upd_proc s a (set_next (head l'))) (l ++ a :: l').
Proof.
  intros Hnd Hl. induction l as [|i l IH]; cbn [app] in *.
  - rewrite !links_cons in *. destruct Hl as (Ha & _ & Hp & _ & Hl). rewrite upd_proc_length, next_of_set_next, decide_True by done.
    split; [done|]. split; [done|]. apply links_set_next; [|done]. apply list.NoDup_cons in Hnd. set_solver.
  - rewrite links_cons in Hl |- *. apply list.NoDup_cons in Hnd as [Hi Hnd]. destruct Hl as (Hi' & E & Hl). rewrite upd_proc_length.
    split; [done|]. split; [|by apply IH].
    rewrite next_of_set_next by (apply (links_lt _ _ _ Hl); set_solver). rewrite decide_False; [|set_solver]. rewrite E. by destruct l.
Qed.

(** The walks of [wq_unlink]. *)
Lemma unlink_from_found s l a p l' fuel nxt :
  links s (l ++ a :: p :: l') -> NoDup (l ++ a :: p :: l') -> (length l < fuel)%nat ->
  forall h, head (l ++ [a]) = Some h -> unlink_from fuel s h p nxt = Some (upd_proc s a (set_next nxt)).
Proof.
  revert fuel. induction l as [|i l IH]; intros fuel Hl Hnd Hf h Hh; (destruct fuel as [|fuel]; [simpl in Hf; lia|]);
    cbn [app head length] in *; injection Hh as <-; cbn [unlink_from]; rewrite links_cons in Hl; destruct Hl as (_ & E & Hl); rewrite E.
  - cbn [head]. by rewrite Nat.eqb_refl.
  - apply list.NoDup_cons in Hnd as [_ Hnd]. destruct l as [|j l]; cbn [app head] in *.
    + rewrite (proj2 (Nat.eqb_neq _ _)); [|apply list.NoDup_cons in Hnd; set_solver]. apply (IH fuel); try done. lia.
    + rewrite (proj2 (Nat.eqb_neq _ _)); [|apply list.NoDup_cons in Hnd; set_solver]. apply (IH fuel); try done. lia.
Qed.

Lemma last_from_links s fuel i l :
  links s (i :: l) -> (length l < fuel)%nat -> last_from fuel s i = list.last (i :: l).
Proof.
  revert i l. induction fuel as [|fuel IH]; intros i l Hl Hf; [lia|]. cbn [last_from]. apply links_cons in Hl as (_ & E & Hl).
  rewrite E. destruct l as [|j l]; [done|]. cbn [head]. rewrite (IH j l); [|done|simpl in Hf; lia]. done.
Qed.

(** ** Disjoint queues *)

Lemma queues_split (Q : list (list nat)) q l l' :
  Q !! q = Some l -> <[q := l']> Q = take q Q ++ l' :: drop (S q) Q /\ Q = take q Q ++ l :: drop (S q) Q.
Proof.
  intros Hq. split; [|symmetry; by apply take_drop_middle]. apply insert_take_drop. by apply lookup_lt_Some in Hq.
Qed.

Lemma nodup_insert (Q : list (list nat)) q l l' :
  NoDup (concat Q) -> Q !! q = Some l -> NoDup l' -> (forall i, i ∈ l' -> i ∈ l \/ i ∉ concat Q) -> NoDup (concat (<[q := l']> Q)).
Proof.
  intros Hnd Hq Hl Hin. destruct (queues_split Q q l l' Hq) as [-> E]. rewrite E in Hnd, Hin.
  rewrite concat_app, concat_cons in *. apply list.NoDup_app in Hnd as (H1 & H2 & Hnd). apply list.NoDup_app in Hnd as (_ & H3 & H4).
  apply list.NoDup_app. split; [done|]. split.
  - intros i Hi. specialize (H2 i Hi). specialize (Hin i). set_solver.
  - apply list.NoDup_app. split; [done|]. split; [|done]. intros i Hi. specialize (Hin i Hi). specialize (H3 i). set_solver.
Qed.

Lemma disjoint_queues (Q : list (list nat)) q1 q2 l1 l2 i :
  NoDup (concat Q) -> Q !! q1 = Some l1 -> Q !! q2 = Some l2 -> q1 <> q2 -> i ∈ l1 -> i ∉ l2.
Proof.
  intros Hnd H1 H2 Hne Hi1 Hi2. destruct (queues_split Q q1 l1 [] H1) as [_ E]. rewrite E in Hnd.
  rewrite concat_app, concat_cons in Hnd. apply list.NoDup_app in Hnd as (_ & Ha & Hnd). apply list.NoDup_app in Hnd as (_ & Hb & _).
  assert (forall n Q', Q' !! n = Some l2 -> i ∈ concat Q') as Hc.
  { intros n Q' Hn. apply list_elem_of_In, in_concat. exists l2. rewrite <- !list_elem_of_In. split; [by apply list_elem_of_lookup_2 in Hn|done]. }
  destruct (decide (q2 < q1)%nat).
  - apply (Ha i); [|set_solver]. apply (Hc q2). by rewrite lookup_take_lt.
  - apply (Hb i Hi1). apply (Hc (q2 - S q1)%nat). rewrite lookup_drop. rewrite <- H2. f_equal. lia.
Qed.

Lemma queue_nodup Q (q : nat) (l : list nat) : NoDup (concat Q) -> Q !! q = Some l -> NoDup l.
Proof.
  intros Hnd Hq. destruct (queues_split Q q l [] Hq) as [_ E]. rewrite E in Hnd. rewrite concat_app, concat_cons in Hnd.
  apply list.NoDup_app in Hnd as (_ & _ & Hnd). by apply list.NoDup_app in Hnd as (H & _).
Qed.

Lemma queue_in_concat (Q : list (list nat)) q l i : Q !! q = Some l -> i ∈ l -> i ∈ concat Q.
Proof.
  intros Hq Hi. apply list_elem_of_In, in_concat. exists l. rewrite <- !list_elem_of_In. split; [by apply list_elem_of_lookup_2 in Hq|done].
Qed.

(** ** Steps of the representation *)

Lemma queue_with_queue w q wq q' :
  (q < length (w_queues w))%nat -> queue (with_queue w q wq) q' = if decide (q = q') then wq else queue w q'.
Proof.
  intros Hq. unfold queue. cbn. destruct (decide (q = q')) as [->|]; [by rewrite list_lookup_insert_eq|by rewrite list_lookup_insert_ne].
Qed.

(** One queue changes, within its own processes and new ones. *)
Lemma refines_insert w a q l l' w' A T :
  refines w a -> a_queues a !! q = Some l -> w_queues w' = <[q := mk_wq (head l') (list.last l')]> (w_queues w) ->
  length (processes (w_sched w')) = length (processes (w_sched w)) ->
  (forall i, i ∉ l -> i ∉ l' -> next_of (w_sched w') i = next_of (w_sched w) i) ->
  links (w_sched w') l' -> NoDup l' -> (forall i, i ∈ l' -> i ∈ l \/ i ∉ concat (a_queues a)) ->
  A = erase (w_sched w') -> T = w_timers w' -> refines w' (mk_aw A (<[q := l']> (a_queues a)) T).
Proof.
  intros [Hp Hs Ht Hlen Hq Hnd] Hl Ew Elen Hnext Hlinks Hnd' Hin -> ->.
  assert (q < length (w_queues w))%nat as Hlt by (rewrite <- Hlen; by apply lookup_lt_Some in Hl).
  split; cbn [a_sched a_queues a_timers]; [by rewrite Elen|done|done|by rewrite Ew, !length_insert| |by eapply nodup_insert].
  intros q2 l2 Hl2. destruct (decide (q = q2)) as [<-|Hne].
  - rewrite list_lookup_insert_eq in Hl2 by (by apply lookup_lt_Some in Hl). injection Hl2 as <-.
    unfold repr, queue. rewrite Ew, list_lookup_insert_eq by done. done.
  - rewrite list_lookup_insert_ne in Hl2 by done. destruct (Hq q2 l2 Hl2) as (H1 & H2 & H3).
    unfold repr, queue. rewrite Ew, list_lookup_insert_ne by done. split_and!; [exact H1|exact H2|].
    apply (links_ext (w_sched w)); [done| |done]. intros i Hi. apply Hnext.
    + intros Hi'. exact (disjoint_queues _ _ _ _ _ i Hnd Hl Hl2 Hne Hi' Hi).
    + intros Hi'. destruct (Hin i Hi') as [Hi''|Hi'']; [exact (disjoint_queues _ _ _ _ _ i Hnd Hl Hl2 Hne Hi'' Hi)|].
      apply Hi''. by eapply queue_in_concat.
Qed.

(** What is not a link changes. *)
Lemma refines_sched w a s' :
  refines w a -> length (processes s') = length (processes (w_sched w)) -> (forall i, next_of s' i = next_of (w_sched w) i) ->
  refines (with_sched w s') (mk_aw (erase s') (a_queues a) (a_timers a)).
Proof.
  intros [Hp Hs Ht Hlen Hq Hnd] El En. split; cbn; [by rewrite El|done|done|done| |done].
  intros q l Hl. destruct (Hq q l Hl) as (H1 & H2 & H3). split_and!; [done|done|]. by apply (links_ext (w_sched w)).
Qed.

Lemma erase_lookup s i : processes (erase s) !! i = set_next None <$> processes s !! i.
Proof. cbn. apply list_lookup_fmap. Qed.

Lemma procs_eq s s' : with_procs s [] = with_procs s' [] -> (forall i, processes s !! i = processes s' !! i) -> s = s'.
Proof. intros E H%list_eq. destruct s, s'. cbn in *. injection E as -> -> -> -> -> -> -> -> -> -> ->. by rewrite H. Qed.

Lemma erase_set_next s i n : erase (upd_proc s i (set_next n)) = erase s.
Proof.
  apply procs_eq; [done|]. intros j. rewrite !erase_lookup, upd_proc_lookup. destruct (decide (i = j)) as [->|]; [|done].
  by destruct (processes s !! j).
Qed.

Lemma erase_upd s i f :
  (forall p, set_next None (f p) = f (set_next None p)) -> erase (upd_proc s i f) = upd_proc (erase s) i f.
Proof.
  intros Hf. apply procs_eq; [done|]. intros j. rewrite erase_lookup, !upd_proc_lookup, erase_lookup.
  destruct (decide (i = j)) as [->|]; [|done]. destruct (processes s !! j) as [p|]; [|done]. cbn. by rewrite Hf.
Qed.

Lemma head_snoc {B} (l : list B) x y : head ((l ++ [x]) ++ [y]) = head (l ++ [x]).
Proof. by destruct l. Qed.

Lemma wq_push_refines w a q l p :
  refines w a -> a_queues a !! q = Some l -> p ∉ concat (a_queues a) -> (p < length (processes (w_sched w)))%nat ->
  refines (wq_push w q p) (mk_aw (a_sched a) (<[q := l ++ [p]]> (a_queues a)) (a_timers a)).
Proof.
  intros Href Hl Hp Hlt. pose proof (re_queues _ _ Href q l Hl) as (Hhead & Htail & Hlinks).
  pose proof (queue_nodup _ _ _ (re_disjoint _ _ Href) Hl) as Hnd. rewrite (re_sched _ _ Href), (re_timers _ _ Href).
  assert (p ∉ l) as Hpl by (intros Hi; apply Hp; by eapply queue_in_concat).
  assert (NoDup (l ++ [p])) as Hnd' by (apply list.NoDup_app; split; [done|split; [set_solver|apply NoDup_singleton]]).
  assert (forall i, i ∈ l ++ [p] -> i ∈ l \/ i ∉ concat (a_queues a)) as Hin by set_solver.
  unfold wq_push. change (queue (with_sched w _) q) with (queue w q). rewrite Htail, Hhead.
  destruct l as [|t l _] using rev_ind.
  - cbn [list.last]. apply (refines_insert w a q [] [p]); cbn; try done; [apply length_alter| | |by rewrite <- (erase_set_next _ p None)].
    + intros i _ Hi. rewrite next_of_set_next, decide_False by (done || set_solver). done.
    + apply links_cons. rewrite upd_proc_length, next_of_set_next, decide_True by done. split_and!; [done|done|]. by intros k.
  - rewrite last_snoc. set (s1 := upd_proc (w_sched w) p (set_next None)).
    assert (t <> p /\ t < length (processes (w_sched w)))%nat as [Htp Ht].
    { split; [set_solver|]. apply (links_lt _ _ _ Hlinks). set_solver. }
    apply (refines_insert w a q (l ++ [t])); cbn [w_sched w_queues with_sched with_queue]; try done.
    + by rewrite last_snoc, head_snoc.
    + unfold s1. by rewrite !upd_proc_length.
    + intros i Hi Hi'. unfold s1. rewrite !next_of_set_next, !decide_False; rewrite ?upd_proc_length; done || set_solver.
    + rewrite <- app_assoc. apply links_snoc; unfold s1; rewrite ?upd_proc_length; try done.
      * by rewrite <- app_assoc in Hnd'.
      * by apply links_set_next.
      * rewrite next_of_set_next, decide_True; done.
    + unfold s1. by rewrite !erase_set_next.
Qed.

Lemma wq_pop_refines w a q p l :
  refines w a -> a_queues a !! q = Some (p :: l) ->
  exists w', wq_pop w q = (Some p, w') /\ refines w' (mk_aw (a_sched a) (<[q := l]> (a_queues a)) (a_timers a)).
Proof.
  intros Href Hl. pose proof (re_queues _ _ Href q _ Hl) as (Hhead & Htail & Hlinks).
  pose proof (queue_nodup _ _ _ (re_disjoint _ _ Href) Hl) as Hnd. apply list.NoDup_cons in Hnd as [Hp Hnd].
  apply links_cons in Hlinks as (Hlt & Hn & Hlinks). rewrite (re_sched _ _ Href), (re_timers _ _ Href).
  unfold wq_pop. rewrite Hhead. cbn [list.head]. rewrite Hn. eexists. split; [reflexivity|].
  apply (refines_insert w a q (p :: l)); cbn [w_sched w_queues with_sched with_queue]; try done.
  - rewrite Htail. by destruct l.
  - by rewrite upd_proc_length.
  - intros i Hi _. rewrite next_of_set_next, decide_False by (done || set_solver). done.
  - by apply links_set_next.
  - set_solver.
  - by rewrite erase_set_next.
Qed.

Lemma wq_pop_empty w a q : refines w a -> a_queues a !! q = Some [] -> wq_head (queue w q) = None /\ wq_pop w q = (None, w).
Proof. intros Href Hl. destruct (re_queues _ _ Href q _ Hl) as (Hhead & _). unfold wq_pop. by rewrite Hhead. Qed.

Lemma filter_neq_middle (l1 l2 : list nat) p :
  NoDup (l1 ++ p :: l2) -> List.filter (fun i => negb (i =? p)%nat) (l1 ++ p :: l2) = l1 ++ l2.
Proof.
  intros Hnd. assert (forall l, p ∉ l -> List.filter (fun i => negb (i =? p)%nat) l = l) as Hf.
  { induction l as [|i l IH]; intros Hp; [done|]. cbn [List.filter]. rewrite (proj2 (Nat.eqb_neq i p)) by set_solver.
    cbn [negb]. rewrite IH by set_solver. done. }
  apply list.NoDup_app in Hnd as (_ & H1 & H2). apply list.NoDup_cons in H2 as [H2 _].
  rewrite List.filter_app. cbn [List.filter]. rewrite Nat.eqb_refl. cbn [negb].
  rewrite !Hf; [done|done|]. intros Hi. apply (H1 p Hi). set_solver.
Qed.

Lemma last_is (l1 l2 : list nat) p :
  NoDup (l1 ++ p :: l2) -> bool_decide (list.last (l1 ++ p :: l2) = Some p) = bool_decide (l2 = []).
Proof.
  intros Hnd. apply bool_decide_ext. destruct l2 as [|x l2 _] using rev_ind; [by rewrite last_snoc|].
  replace (l1 ++ p :: l2 ++ [x]) with ((l1 ++ p :: l2) ++ [x]) in * by (by rewrite <- app_assoc).
  rewrite last_snoc. split; [|intros E; by destruct l2]. intros [= ->]. apply list.NoDup_app in Hnd as (_ & H & _).
  exfalso. apply (H p); set_solver.
Qed.

Lemma wq_unlink_refines w a q l1 p l2 :
  refines w a -> a_queues a !! q = Some (l1 ++ p :: l2) ->
  refines (wq_unlink w q p) (mk_aw (a_sched a) (<[q := l1 ++ l2]> (a_queues a)) (a_timers a)).
Proof.
  intros Href Hl. pose proof (re_queues _ _ Href q _ Hl) as (Hhead & Htail & Hlinks).
  pose proof (queue_nodup _ _ _ (re_disjoint _ _ Href) Hl) as Hnd. rewrite (re_sched _ _ Href), (re_timers _ _ Href).
  assert (NoDup (l1 ++ l2) /\ p ∉ l1 ++ l2) as [Hnd' Hp].
  { rewrite <- Permutation_middle in Hnd. apply list.NoDup_cons in Hnd. tauto. }
  assert (p < length (processes (w_sched w)))%nat as Hlt by (apply (links_lt _ _ _ Hlinks); set_solver).
  assert (next_of (w_sched w) p = head l2) as Hn.
  { destruct (Hlinks (length l1) p) as [_ ->]; [by apply list_lookup_middle|].
    rewrite lookup_app_r by lia. replace (S (length l1) - length l1)%nat with 1%nat by lia. by destruct l2. }
  unfold wq_unlink. rewrite Hhead, Hn, Htail, (last_is l1 l2 p Hnd).
  destruct l1 as [|a1 l1 _] using rev_ind.
  - cbn [app list.head]. rewrite Nat.eqb_refl.
    apply (refines_insert w a q (p :: l2)); cbn [app w_sched w_queues w_timers with_sched with_queue]; try done.
    + destruct l2; [done|]. by rewrite bool_decide_eq_false_2.
    + by rewrite upd_proc_length.
    + intros i Hi _. rewrite next_of_set_next, decide_False by (done || set_solver). done.
    + apply links_set_next; [done|]. by apply links_cons in Hlinks as (_ & _ & ?).
    + set_solver.
    + by rewrite erase_set_next.
  - rewrite <- !app_assoc in *. cbn [app] in *.
    pose proof (links_short _ _ Hlinks Hnd) as Hshort. pose proof (re_procs _ _ Href) as Hmax. rewrite length_app in Hshort. cbn [length] in Hshort.
    destruct (list.head (l1 ++ [a1])) as [h|] eqn:Hh; [|by destruct l1].
    assert (list.head (l1 ++ a1 :: p :: l2) = Some h /\ list.head (l1 ++ a1 :: l2) = Some h) as [-> Hh'] by (by destruct l1).
    assert (h =? p = false)%nat as ->.
    { apply Nat.eqb_neq. intros ->. apply Hp. destruct l1; simpl in Hh; injection Hh as ->; set_solver. }
    rewrite (unlink_from_found _ l1 a1 p l2 _ (head l2) Hlinks Hnd) by (lia || done). cbn [fmap option_fmap option_map].
    set (s1 := upd_proc (w_sched w) a1 (set_next (head l2))).
    assert (a1 < length (processes (w_sched w)))%nat as Ha1 by (apply (links_lt _ _ _ Hlinks); set_solver).
    pose proof (links_remove _ _ _ _ _ Hnd Hlinks) as Hl1. fold s1 in Hl1.
    apply (refines_insert w a q (l1 ++ a1 :: p :: l2)); cbn [w_sched w_queues w_timers with_sched with_queue]; try done.
    + f_equal. rewrite Hh'. f_equal. case_bool_decide as E.
      * subst l2. destruct (l1 ++ [a1]) as [|h' l'] eqn:E'; [done|]. injection Hh as ->.
        apply last_from_links; [done|]. apply (f_equal length) in E'. rewrite length_app in E'. cbn in E'. lia.
      * destruct l2 as [|x l2 _] using rev_ind; [done|].
        change (a1 :: p :: l2 ++ [x]) with ((a1 :: p :: l2) ++ [x]). change (a1 :: l2 ++ [x]) with ((a1 :: l2) ++ [x]).
        by rewrite !app_assoc, !last_snoc.
    + unfold s1. by rewrite !upd_proc_length.
    + intros i Hi _. unfold s1. rewrite !next_of_set_next, !decide_False; rewrite ?upd_proc_length; done || set_solver.
    + by apply links_set_next.
    + set_solver.
    + unfold s1. by rewrite !erase_set_next.
Qed.

(** ** Waking *)

Lemma blocked_erase s i : blocked (erase s) i = blocked s i.
Proof. unfold blocked. rewrite erase_lookup. by destruct (processes s !! i). Qed.

Lemma wake_locked_keeps s i k r :
  length (processes (wake_locked s i k r)) = length (processes s) /\ (forall j, next_of (wake_locked s i k r) j = next_of s j).
Proof.
  unfold wake_locked. destruct (processes s !! i) as [p|]; [|done].
  assert (forall s', processes s' = processes s ->
    length (processes (upd_proc s' i (set_state PROCESS_STATE_READY))) = length (processes s) /\
    forall j, next_of (upd_proc s' i (set_state PROCESS_STATE_READY)) j = next_of s j) as H.
  { intros s' E. rewrite upd_proc_length, E. split; [done|]. intros j. rewrite next_of_keeps by done. unfold next_of. by rewrite E. }
  destruct k; apply H; [done|]. unfold process_frame_set_ret. by destruct (truthy _).
Qed.

Lemma erase_wake_locked s i k r : erase (wake_locked s i k r) = wake_locked (erase s) i k r.
Proof.
  unfold wake_locked. rewrite erase_lookup. destruct (processes s !! i) as [p|]; [|done]. cbn [fmap option_fmap option_map].
  rewrite erase_upd by done. f_equal. destruct k; [done|]. unfold process_frame_set_ret. cbn [set_next p_parked_rsp]. by destruct (truthy _).
Qed.

Lemma wake_locked_blocked s i k r j : j <> i -> blocked (wake_locked s i k r) j = blocked s j.
Proof.
  intros Hne. unfold wake_locked, blocked. destruct (processes s !! i) as [p|]; [|done]. rewrite upd_proc_lookup, decide_False by done.
  destruct k; [done|]. unfold process_frame_set_ret. by destruct (truthy _).
Qed.

Lemma refines_wake w a p k r :
  refines w a ->
  refines (with_sched w (wake_locked (w_sched w) p k r)) (mk_aw (wake_locked (a_sched a) p k r) (a_queues a) (a_timers a)).
Proof.
  intros Href. rewrite (re_sched _ _ Href), <- erase_wake_locked. destruct (wake_locked_keeps (w_sched w) p k r) as [Hl Hn].
  by apply refines_sched.
Qed.

Lemma woken_ext blk blk' m m' l :
  (forall i, i ∈ l -> blk i = blk' i) -> m = m' \/ m < 0 /\ m' < 0 -> woken blk m l = woken blk' m' l.
Proof.
  revert m m'. induction l as [|p l IH]; intros m m' Hb Hm; [done|]. cbn [woken].
  assert ((m =? 0) = (m' =? 0)) as -> by (destruct (Z.eqb_spec m 0), (Z.eqb_spec m' 0); lia).
  destruct (m' =? 0); [done|]. rewrite (Hb p) by set_solver.
  assert (forall i, i ∈ l -> blk i = blk' i) as Hb' by set_solver.
  rewrite (IH (m - 1) (m' - 1) Hb') by lia. by rewrite (IH m m' Hb' Hm).
Qed.

Lemma refines_blocked w a i : refines w a -> blocked (w_sched w) i = blocked (a_sched a) i.
Proof. intros Href. by rewrite (re_sched _ _ Href), blocked_erase. Qed.

Lemma wait_wake_loop_refines fuel w a q l max n m :
  refines w a -> a_queues a !! q = Some l -> (length l < fuel)%nat ->
  max < 0 /\ m < 0 \/ 0 <= max /\ m = max - n /\ 0 <= m ->
  exists w', wait_wake_loop fuel w q max n = Ok w' /\
    let '(wk, rest) := woken (blocked (a_sched a)) m l in
    refines w' (mk_aw (wake_all (a_sched a) wk) (<[q := rest]> (a_queues a)) (a_timers a)).
Proof.
  revert w a l n m. induction fuel as [|fuel IH]; intros w a l n m Href Hl Hf Hm; [lia|]. cbn [wait_wake_loop].
  destruct (re_queues _ _ Href q l Hl) as (Hhead & _). rewrite Hhead.
  destruct l as [|p l]; cbn [list.head woken].
  { exists w. split; [done|]. rewrite list_insert_id by done. by destruct a. }
  destruct (Z.eqb_spec m 0) as [->|Hm0].
  { rewrite (proj2 (Z.ltb_ge max 0)), (proj2 (Z.ltb_ge n max)) by lia. exists w. split; [done|].
    rewrite list_insert_id by done. by destruct a. }
  assert ((max <? 0) || (n <? max) = true) as ->.
  { apply orb_true_iff. rewrite !Z.ltb_lt. lia. }
  destruct (wq_pop_refines w a q p l Href Hl) as (w1 & -> & Href1).
  rewrite (refines_blocked _ _ p Href1). cbn [a_sched].
  pose proof (queue_nodup _ _ _ (re_disjoint _ _ Href) Hl) as Hnd. apply list.NoDup_cons in Hnd as [Hp _].
  assert (<[q := l]> (a_queues a) !! q = Some l) as Hl1 by (apply list_lookup_insert_eq; by apply lookup_lt_Some in Hl).
  simpl in Hf. destruct (blocked (a_sched a) p) eqn:Hb.
  - destruct (IH _ _ l (n + 1) (m - 1) (refines_wake _ _ p WAIT_RESTART 0 Href1) Hl1 ltac:(lia) ltac:(lia)) as (w' & -> & H).
    exists w'. split; [done|]. cbn [a_sched a_queues a_timers] in H.
    rewrite (woken_ext (blocked (wake_locked _ _ _ _)) (blocked (a_sched a)) (m - 1) (m - 1)) in H.
    + destruct (woken _ (m - 1) l) as [wk rest]. by rewrite list_insert_insert_eq in H.
    + intros i Hi. apply wake_locked_blocked. by intros ->.
    + by left.
  - destruct (IH w1 _ l n m Href1 Hl1 ltac:(lia) ltac:(lia)) as (w' & -> & H). exists w'. split; [done|].
    cbn [a_sched a_queues a_timers] in H. destruct (woken _ m l) as [wk rest]. by rewrite list_insert_insert_eq in H.
Qed.

Lemma queue_short w a q l : refines w a -> a_queues a !! q = Some l -> (length l < S MAX_PROCESSES)%nat.
Proof.
  intros Href Hl. destruct (re_queues _ _ Href q l Hl) as (_ & _ & Hlinks).
  pose proof (links_short _ _ Hlinks (queue_nodup _ _ _ (re_disjoint _ _ Href) Hl)). pose proof (re_procs _ _ Href). lia.
Qed.

Lemma aqueue_lookup a q : (q < length (a_queues a))%nat -> a_queues a !! q = Some (aqueue a q).
Proof. intros [l Hl]%lookup_lt_is_Some_2. unfold aqueue. by rewrite Hl. Qed.

Lemma wait_wake_refines w a q max :
  refines w a -> (q < length (a_queues a))%nat -> exists w', wait_wake w q max = Ok w' /\ refines w' (a_wake a q max).
Proof.
  intros Href Hq. pose proof (aqueue_lookup a q Hq) as Hl.
  destruct (wait_wake_loop_refines (S MAX_PROCESSES) w a q _ max 0 max Href Hl (queue_short _ _ _ _ Href Hl) ltac:(lia)) as (w' & E & H).
  exists w'. split; [exact E|]. unfold a_wake. by destruct (woken _ _ _).
Qed.

Lemma wait_wake_status_refines w a q ret :
  refines w a -> (q < length (a_queues a))%nat ->
  exists w', wait_wake_status w q ret = Ok w' /\ refines w' (a_wake_status a q ret).
Proof.
  intros Href Hq. pose proof (aqueue_lookup a q Hq) as Hl. pose proof (queue_short _ _ _ _ Href Hl) as Hf.
  unfold wait_wake_status, a_wake_status. revert Hf Hl. generalize (aqueue a q) as l. generalize (S MAX_PROCESSES) as fuel.
  intros fuel l. revert w a l Href Hq. induction fuel as [|fuel IH]; intros w a l Href Hq Hf Hl; [lia|]. cbn [wait_wake_status_loop].
  destruct l as [|p l]; cbn [from_blocked].
  { destruct (wq_pop_empty w a q Href Hl) as [_ ->]. exists w. split; [done|]. rewrite list_insert_id by done. by destruct a. }
  destruct (wq_pop_refines w a q p l Href Hl) as (w1 & -> & Href1). rewrite (refines_blocked _ _ p Href1). cbn [a_sched].
  simpl in Hf. destruct (blocked (a_sched a) p).
  - eexists. split; [reflexivity|]. exact (refines_wake _ _ p WAIT_COMPLETE ret Href1).
  - destruct (IH w1 _ l Href1) as (w' & -> & H); cbn [a_queues]; [by rewrite length_insert|lia|by apply list_lookup_insert_eq|].
    exists w'. split; [done|]. cbn [a_sched a_queues a_timers] in H.
    destruct (from_blocked _ l) as [[p' rest]|]; by rewrite list_insert_insert_eq in H.
Qed.

(** ** Timers *)

Lemma first_blocked_links s l fuel :
  links s l -> (length l <= fuel)%nat -> first_blocked fuel s (head l) = fst <$> from_blocked (blocked s) l.
Proof.
  revert fuel. induction l as [|p l IH]; intros fuel Hl Hf; [by destruct fuel|]. destruct fuel as [|fuel]; simpl in Hf; [lia|].
  apply links_cons in Hl as (_ & E & Hl). cbn [list.head first_blocked from_blocked]. destruct (blocked s p); [done|].
  rewrite E. apply IH; [done|lia].
Qed.

Lemma from_blocked_split blk l p rest :
  from_blocked blk l = Some (p, rest) -> exists l1, l = l1 ++ p :: rest /\ blk p = true /\ Forall (fun i => blk i = false) l1.
Proof.
  revert p rest. induction l as [|x l IH]; intros p rest H; [done|]. cbn [from_blocked] in H. destruct (blk x) eqn:E.
  - injection H as -> ->. by exists [].
  - destruct (IH _ _ H) as (l1 & -> & Hp & Hl). exists (x :: l1). split; [done|]. split; [done|]. by constructor.
Qed.

Lemma from_blocked_ext blk blk' l : (forall i, blk i = blk' i) -> from_blocked blk l = from_blocked blk' l.
Proof. intros H. induction l as [|x l IH]; [done|]. cbn [from_blocked]. by rewrite H, IH. Qed.

Lemma refines_timers w a ts : refines w a -> refines (with_timers w ts) (mk_aw (a_sched a) (a_queues a) ts).
Proof. intros [H1 H2 H3 H4 H5 H6]. by split. Qed.

Lemma expire_refines w a now i :
  refines w a -> Forall (fun t => (tm_wq t < length (a_queues a))%nat) (a_timers a) ->
  refines (expire w now i) (a_expire now a i) /\
  Forall (fun t => (tm_wq t < length (a_queues (a_expire now a i)))%nat) (a_timers (a_expire now a i)).
Proof.
  intros Href Hts. unfold expire, a_expire. rewrite <- (re_timers _ _ Href). destruct (a_timers a !! i) as [t|] eqn:Ht; [|done].
  fold (due now t). destruct (due now t); [|done]. fold (disarm t). set (ts := <[i := disarm t]> (a_timers a)).
  assert (tm_wq t < length (a_queues a))%nat as Hq by (eapply (Forall_lookup_1 _ _ i) in Hts; eauto).
  assert (Forall (fun t => (tm_wq t < length (a_queues a))%nat) ts) as Hts' by (by apply Forall_insert).
  pose proof (aqueue_lookup a _ Hq) as Hl. pose proof (refines_timers w a ts Href) as Href1.
  destruct (re_queues _ _ Href1 _ _ Hl) as (Hhead & _ & Hlinks). pose proof (re_procs _ _ Href1) as Hmax.
  pose proof (links_short _ _ Hlinks (queue_nodup _ _ _ (re_disjoint _ _ Href) Hl)) as Hshort.
  rewrite Hhead, (first_blocked_links _ _ _ Hlinks) by lia.
  rewrite (from_blocked_ext _ (blocked (a_sched a)) _ (fun i => refines_blocked _ _ i Href1)).
  destruct (from_blocked _ _) as [[p rest]|] eqn:Hfb; cbn [fmap option_fmap option_map fst]; [|done].
  destruct (from_blocked_split _ _ _ _ Hfb) as (l1 & E & _). rewrite E in Hl |- *.
  rewrite filter_neq_middle by exact (queue_nodup _ _ _ (re_disjoint _ _ Href) Hl).
  split; [|cbn; by rewrite length_insert]. apply (refines_wake _ (mk_aw _ _ _) p). exact (wq_unlink_refines _ _ _ _ _ _ Href1 Hl).
Qed.

Lemma wait_timers_poll_refines w a now :
  refines w a -> Forall (fun t => (tm_wq t < length (a_queues a))%nat) (a_timers a) -> refines (wait_timers_poll w now) (a_poll a now).
Proof.
  unfold wait_timers_poll, a_poll. generalize (seq 0 WAIT_TIMERS). intros l. revert w a.
  induction l as [|i l IH]; intros w a Href Hts; [done|]. cbn [fold_left]. destruct (expire_refines w a now i Href Hts). by apply IH.
Qed.

(** ** Blocking *)

(** Steps that do not touch the links. *)
Definition same_links (s s' : sched) : Prop :=
  length (processes s') = length (processes s) /\ forall i, next_of s' i = next_of s i.

Lemma same_links_trans s1 s2 s3 : same_links s1 s2 -> same_links s2 s3 -> same_links s1 s3.
Proof. intros [H1 H2] [H3 H4]. split; [congruence|]. intros i. by rewrite H4. Qed.

Lemma same_links_upd s i f : keeps_next f -> same_links s (upd_proc s i f).
Proof. intros Hf. split; [apply upd_proc_length|]. intros j. by apply next_of_keeps. Qed.

Lemma same_links_procs s s' : processes s' = processes s -> same_links s s'.
Proof. intros E. unfold same_links, next_of. by rewrite E. Qed.

Lemma same_links_smem s m i f : keeps_next f -> same_links s (upd_proc (with_smem s m) i f).
Proof. intros Hf. apply (same_links_trans _ (with_smem s m)); [by apply same_links_procs|]. by apply same_links_upd. Qed.

Lemma switch_to_process_links s i p : same_links s (switch_to_process s i p).
Proof.
  unfold switch_to_process. eapply same_links_trans; [apply (same_links_upd _ i (set_state PROCESS_STATE_RUNNING)); done|].
  apply same_links_procs. unfold switch_space. by destruct (truthy _).
Qed.

Lemma park_switch_links s p irq : same_links s (park_switch s p irq).1.
Proof.
  unfold park_switch. destruct (process_pick_ready s (Some p)) as [i|].
  - destruct (processes s !! i) as [next|]; [|by apply same_links_procs]. eapply same_links_trans; [apply (switch_to_process_links s i next)|].
    by apply same_links_procs.
  - by apply same_links_procs.
Qed.

Lemma pick_ready_erase s ex : process_pick_ready (erase s) ex = process_pick_ready s ex.
Proof.
  unfold process_pick_ready. cbn [erase processes with_procs]. generalize 0%nat. generalize (processes s).
  induction l as [|p l IH]; intros k; [done|]. cbn [fmap list_fmap find_from]. rewrite IH. done.
Qed.

Lemma erase_switch s i p : erase (switch_to_process s i p) = switch_to_process (erase s) i (set_next None p).
Proof.
  unfold switch_to_process, switch_space. cbn [set_next p_cr3]. destruct (truthy (p_cr3 p)).
  all: apply procs_eq; [done|]; intros j; rewrite erase_lookup.
  all: cbn [process_become_current upd_proc set_kernel_stacks with_cpu with_procs with_current processes process_apply_fs_base fpu_restore erase].
  all: destruct (decide (i = j)) as [->|]; [rewrite !list_lookup_alter_eq, list_lookup_fmap|rewrite !list_lookup_alter_ne, list_lookup_fmap by done].
  all: by destruct (processes s !! j).
Qed.

Lemma erase_park_switch s p irq : park_switch (erase s) p irq = (erase (park_switch s p irq).1, (park_switch s p irq).2).
Proof.
  unfold park_switch. rewrite pick_ready_erase. destruct (process_pick_ready s (Some p)) as [i|]; [|done].
  rewrite erase_lookup. destruct (processes s !! i) as [next|]; [|done]. cbn [fmap option_fmap option_map fst snd]. f_equal.
  rewrite <- erase_switch. done.
Qed.

Lemma erase_get_current s : process_get_current (erase s) = (fun x => (x.1, set_next None x.2)) <$> process_get_current s.
Proof.
  unfold process_get_current. cbn [current_process erase with_procs]. destruct (current_process s) as [i|]; [|done].
  rewrite erase_lookup. by destruct (processes s !! i).
Qed.

Section block_refines.
Context (frame_addr : nat -> Z).

Lemma park_frame_links s i fr b op ret : same_links s (process_park_entry_frame frame_addr s i fr b op ret).
Proof. unfold process_park_entry_frame. by apply same_links_smem. Qed.

Lemma erase_park_frame s i fr b op ret :
  erase (process_park_entry_frame frame_addr s i fr b op ret) = process_park_entry_frame frame_addr (erase s) i fr b op ret.
Proof. unfold process_park_entry_frame. rewrite erase_upd by done. done. Qed.

(** The timer of a block. *)
Lemma arm_refines w a now q us kind ret :
  refines w a ->
  match a_arm a now q us kind ret with
  | Some a' => exists w', wait_timer_arm w now q us kind ret = (0, w') /\ refines w' a' /\ w_sched w' = w_sched w /\
                 a_queues a' = a_queues a /\ a_sched a' = a_sched a
  | None => wait_timer_arm w now q us kind ret = (-1, w)
  end.
Proof.
  intros Href. unfold a_arm, wait_timer_arm. rewrite (re_timers _ _ Href). destruct (find_from _ 0 (w_timers w)) as [i|]; [|done].
  eexists. split; [reflexivity|]. split; [|done]. by apply refines_timers.
Qed.

(** The part after the timer. *)
Lemma park_refines w a fr op irq q b fb i pr :
  refines w a -> (q < length (a_queues a))%nat -> process_get_current (w_sched w) = Some (i, pr) -> i ∉ concat (a_queues a) ->
  let s1 := process_park_entry_frame frame_addr (w_sched w) i fr b op fb in
  let w1 := wq_push (with_sched w s1) q i in
  let r := park_switch (fpu_save (upd_proc (w_sched w1) i (set_state PROCESS_STATE_BLOCKED)) i) i irq in
  let s2 := process_park_entry_frame frame_addr (a_sched a) i fr b op fb in
  let r' := park_switch (fpu_save (upd_proc s2 i (set_state PROCESS_STATE_BLOCKED)) i) i irq in
  refines (with_sched w1 r.1) (mk_aw r'.1 (<[q := aqueue a q ++ [i]]> (a_queues a)) (a_timers a)) /\ r.2 = r'.2.
Proof.
  intros Href Hq Hcur Hi s1 w1 r s2 r'.
  assert (i < length (processes s1))%nat as Hlt.
  { unfold s1. destruct (park_frame_links (w_sched w) i fr b op fb) as [-> _].
    unfold process_get_current in Hcur. destruct (current_process (w_sched w)) as [j|]; [|done].
    destruct (processes (w_sched w) !! j) eqn:E; [|done]. injection Hcur as -> ->. by apply lookup_lt_Some in E. }
  assert (refines (with_sched w s1) (mk_aw s2 (a_queues a) (a_timers a))) as Href1.
  { unfold s2. rewrite (re_sched _ _ Href), <- erase_park_frame. destruct (park_frame_links (w_sched w) i fr b op fb) as [H1 H2].
    by apply refines_sched. }
  pose proof (wq_push_refines _ _ q (aqueue a q) i Href1 (aqueue_lookup a q Hq) Hi Hlt) as Href2. fold w1 in Href2. cbn [a_sched a_queues a_timers] in Href2.
  assert (r' = (erase r.1, r.2)) as ->.
  { unfold r', r. pose proof (re_sched _ _ Href2) as E. cbn in E. rewrite E. rewrite <- erase_upd by done.
    unfold fpu_save. change (s_cpu (erase ?s)) with (s_cpu s). rewrite <- erase_upd by done. apply erase_park_switch. }
  cbn [fst snd]. split; [|done].
  assert (same_links (w_sched w1) r.1) as [H1 H2].
  { unfold r. eapply same_links_trans; [|apply park_switch_links]. unfold fpu_save.
    eapply same_links_trans; [by apply (same_links_upd _ i (set_state PROCESS_STATE_BLOCKED))|]. by apply same_links_upd. }
  exact (refines_sched _ _ _ Href2 H1 H2).
Qed.

Lemma wait_block_refines w a now fr op irq q kind ret us :
  refines w a -> allowed a (Block now fr op irq q kind ret us) ->
  exists w' r, wstep frame_addr w (Block now fr op irq q kind ret us) = Ok (w', r) /\
    refines w' (a_block frame_addr a now fr op irq q kind ret us).1 /\ r = (a_block frame_addr a now fr op irq q kind ret us).2.
Proof.
  intros Href [Hq Hi]. cbn [wstep]. unfold wait_block, a_block. rewrite (re_sched _ _ Href), erase_get_current.
  destruct (process_get_current (w_sched w)) as [[i pr]|] eqn:Hcur; cbn [fmap option_fmap option_map fst snd]; [|by eauto].
  assert (i ∉ concat (a_queues a)) as Hin.
  { apply Hi. rewrite (re_sched _ _ Href). cbn. unfold process_get_current in Hcur. destruct (current_process (w_sched w)) as [j|]; [|done].
    destruct (processes (w_sched w) !! j); [|done]. by injection Hcur as -> _. }
  assert (forall w' a', refines w' a' -> w_sched w' = w_sched w -> a_queues a' = a_queues a ->
    exists w2 r, Ok (let s := process_park_entry_frame frame_addr (w_sched w') i fr (bool_decide (kind = WAIT_RESTART)) op
                       (match kind with WAIT_COMPLETE => ret | WAIT_RESTART => 0 end) in
            let w1 := wq_push (with_sched w' s) q i in
            let '(s, rsp) := park_switch (fpu_save (upd_proc (w_sched w1) i (set_state PROCESS_STATE_BLOCKED)) i) i irq in
            (with_sched w1 s, Some rsp)) = Ok (w2, r) /\
      let '(a2, r2) := let s := process_park_entry_frame frame_addr (a_sched a') i fr (bool_decide (kind = WAIT_RESTART)) op
                       (match kind with WAIT_COMPLETE => ret | WAIT_RESTART => 0 end) in
            let '(s, rsp) := park_switch (fpu_save (upd_proc s i (set_state PROCESS_STATE_BLOCKED)) i) i irq in
            (mk_aw s (<[q := aqueue a' q ++ [i]]> (a_queues a')) (a_timers a'), Some rsp) in
      refines w2 a2 /\ r = r2) as Hpark.
  { intros w' a' Href' Es Eq. rewrite <- Es in Hcur. rewrite <- Eq in Hq, Hin.
    destruct (park_refines w' a' fr op irq q (bool_decide (kind = WAIT_RESTART)) (match kind with WAIT_COMPLETE => ret | WAIT_RESTART => 0 end) i pr Href' Hq Hcur Hin) as [H1 H2]. cbv zeta.
    destruct (park_switch _ i irq) as [s3 r3]. destruct (park_switch _ i irq) as [s4 r4]. cbn [fst snd] in *. subst r4. eauto. }
  unfold truthy. destruct (Z.eqb_spec us 0) as [->|Hus].
  - cbn [negb andb]. destruct (Hpark w a Href eq_refl eq_refl) as (w2 & r & E & H). exists w2, r. split.
    + rewrite <- E. cbv zeta. by destruct (park_switch _ i irq).
    + cbv zeta in H. by destruct (park_switch _ i irq).
  - pose proof (arm_refines w a now q us kind ret Href) as Harm. destruct (a_arm a now q us kind ret) as [a'|].
    + destruct Harm as (w' & -> & Href' & Es & Eq & Ea). cbn [negb andb Z.eqb].
      destruct (Hpark w' a' Href' Es Eq) as (w2 & r & E & H). exists w2, r. split.
      * rewrite <- E. cbv zeta. by destruct (park_switch _ i irq).
      * cbv zeta in H. by destruct (park_switch _ i irq).
    + rewrite Harm. cbn [negb andb Z.eqb fst snd]. eauto.
Qed.
End block_refines.

(** ** The refinement *)

Section refinement.
Context (frame_addr : nat -> Z).

Fixpoint wrun (w : waits) (os : list wop) : res (waits * list (option Z)) :=
  match os with
  | [] => Ok (w, [])
  | o :: os =>
      '(w, r) ← wstep frame_addr w o;
      '(w, rs) ← wrun w os;
      Ok (w, r :: rs)
  end.

Fixpoint arun (a : awaits) (os : list wop) : awaits * list (option Z) :=
  match os with
  | [] => (a, [])
  | o :: os => let a1 := astep frame_addr a o in let a2 := arun a1.1 os in (a2.1, a1.2 :: a2.2)
  end.

Fixpoint all_allowed (a : awaits) (os : list wop) : Prop :=
  match os with
  | [] => True
  | o :: os => allowed a o /\ all_allowed (astep frame_addr a o).1 os
  end.

Lemma wstep_refines w a o :
  refines w a -> allowed a o ->
  exists w', wstep frame_addr w o = Ok (w', (astep frame_addr a o).2) /\ refines w' (astep frame_addr a o).1.
Proof.
  intros Href Ho. destruct o as [q max|q ret|now|now fr op irq q kind ret us].
  - destruct (wait_wake_refines w a q max Href Ho) as (w' & E & H). exists w'. split; [|exact H]. cbn [wstep]. by rewrite E.
  - destruct (wait_wake_status_refines w a q ret Href Ho) as (w' & E & H). exists w'. split; [|exact H]. cbn [wstep]. by rewrite E.
  - eexists. split; [reflexivity|]. exact (wait_timers_poll_refines w a now Href Ho).
  - destruct (wait_block_refines frame_addr w a now fr op irq q kind ret us Href Ho) as (w' & r & E & H & ->). eauto.
Qed.

(** C2: The linked wait queues implement queues as lists. Any sequence of
    blocking calls, wake-ups and timer expirations terminates and leaves the
    process table, the timers and the queues as the specification says, with
    the same contexts resumed: a process that blocks joins the end of its
    queue, wake-ups take blocked processes from the front, in order, and skip
    those that are not blocked any more, and an expired timer takes out the
    first blocked one. *)
Theorem wait_queues_refine w a os :
  refines w a -> all_allowed a os ->
  exists w', wrun w os = Ok (w', (arun a os).2) /\ refines w' (arun a os).1.
Proof.
  revert w a. induction os as [|o os IH]; intros w a Href Hos; [by eexists|]. destruct Hos as [Ho Hos].
  destruct (wstep_refines w a o Href Ho) as (w1 & E1 & Href1). destruct (IH w1 _ Href1 Hos) as (w2 & E2 & Href2).
  exists w2. cbn [wrun arun fst snd]. rewrite E1. cbn [mbind res_bind]. rewrite E2. by split.
Qed.
End refinement.

(** ** Two sleepers *)

Definition sleep_frames (i : nat) : Z := 100000 + 1000 * Z.of_nat i.

(** A process that runs and one that is ready; one queue. *)
Definition sleep_waits : waits :=
  mk_waits (demo_sched [(1000, TASK_READY)] 1 0 false [demo_proc 1 PROCESS_STATE_RUNNING 0; demo_proc 2 PROCESS_STATE_READY 8000] (Some 0%nat))
    [mk_wq None None] (replicate WAIT_TIMERS (mk_timer false 0 0 WAIT_RESTART 0)).

Definition sleep_spec : awaits := mk_aw (erase (w_sched sleep_waits)) [[]] (w_timers sleep_waits).

(** Process 0 sleeps for a second at time 0; then process 1 sleeps for ten
    milliseconds; the timers are polled when that time is over. *)
Definition sleep_ops : list wop :=
  [Block 0 50000 (15, 5) 1500 0 WAIT_COMPLETE 0 1000000;
   Block 100 60000 (15, 5) 1500 0 WAIT_COMPLETE 0 10000;
   Poll 10100].

Lemma sleep_refines : refines sleep_waits sleep_spec.
Proof.
  split; try reflexivity.
  - cbn. unfold MAX_PROCESSES. lia.
  - intros [|[|q]] l Hq; cbn in Hq; [|done|done]. injection Hq as <-. by split_and!.
  - apply list.NoDup_nil. exact I.
Qed.

Lemma wait_queues_refine_witness :
  exists w', wrun sleep_frames sleep_waits sleep_ops = Ok (w', (arun sleep_frames sleep_spec sleep_ops).2) /\
    refines w' (arun sleep_frames sleep_spec sleep_ops).1.
Proof.
  apply wait_queues_refine; [exact sleep_refines|]. split; [|split; [|split; [|exact I]]].
  - split; [cbn; lia|]. intros i Hi. vm_compute in Hi. injection Hi as <-. vm_compute. intros H. inversion H.
  - split; [vm_compute; lia|]. intros i Hi. vm_compute in Hi. injection Hi as <-. vm_compute. intros H. inversion H as [|? ? ? H']. inversion H'.
  - vm_compute. repeat constructor.
Defined.

Definition proc_state (s : sched) (i : nat) : option pstate := p_state <$> processes s !! i.

(** Sleepers swap their deadlines. Of two processes that sleep for a second
    and for ten milliseconds, when the ten milliseconds are over the code
    wakes the one that asked for a second and leaves the other asleep. *)
Theorem sleepers_swap :
  exists w, wrun sleep_frames sleep_waits sleep_ops = Ok (w, [Some 8000; Some 1000; None]) /\
    proc_state (w_sched w) 0 = Some PROCESS_STATE_READY /\ proc_state (w_sched w) 1 = Some PROCESS_STATE_BLOCKED /\
    tm_used <$> w_timers w !! 0%nat = Some true.
Proof.
  destruct (wrun sleep_frames sleep_waits sleep_ops) as [[w rs]| | |] eqn:E; try (vm_compute in E; discriminate).
  exists w. vm_compute in E. injection E as <- <-. split_and!; reflexivity.
Qed.
