(* ===== verification/Lifecycle.v ===== *)
(** * Futexes, and the ends of processes

    The futex calls of src/src/kernel/core/syscall_lnx.c, and of
    src/src/kernel/core/process.c the ways a thread or a process ends and its
    parent learns of it. On top of the wait queues the state has the table of
    futex waiters. The page tables enter as what [vmm_get_phys] answers for a
    root and a page; the writes the kernel makes into the memory of a process
    are recorded in order, with their physical addresses. Open files, memory groups and signal handlers are left out, as in the
    state of the scheduler. *)

From S2P Require Import Prelude Sched.

Definition L_ECHILD : Z := 10.
Definition L_EFAULT : Z := 14.
Definition L_ETIMEDOUT : Z := 110.

(** ** Futexes *)

(** A waiter is allocated with its private queue, named by [fw_wq]. *)
Record futex_waiter : Type := mk_fw { fw_uaddr : Z; fw_proc : nat; fw_wq : nat }.

Record kern : Type := mk_kern {
  k_waits : waits;
  futex_tab : list (list futex_waiter);
  k_phys : Z -> Z -> Z;          (* root, page: the physical page, or 0 *)
  k_uwrites : list (Z * Z)       (* physical address, int *)
}.

Definition k_sched (k : kern) : sched := w_sched (k_waits k).
Definition with_waits (k : kern) (w : waits) : kern := mk_kern w (futex_tab k) (k_phys k) (k_uwrites k).
Definition with_ksched (k : kern) (s : sched) : kern := with_waits k (with_sched (k_waits k) s).
Definition with_futex (k : kern) (h : nat) (l : list futex_waiter) : kern :=
  mk_kern (k_waits k) (<[h := l]> (futex_tab k)) (k_phys k) (k_uwrites k).

Definition FUT_HASH : Z := 16.

Definition futex_hash (uaddr : Z) : nat :=
  Z.to_nat (Z.land (Z.lxor (Z.shiftr uaddr 2) (Z.shiftr uaddr 17)) (FUT_HASH - 1)).

Definition bucket (k : kern) (h : nat) : list futex_waiter := default [] (futex_tab k !! h).

(** The walk of a bucket: what is left of it, and the number woken. *)
Fixpoint futex_wake_loop (w : waits) (l : list futex_waiter) (uaddr n woken : Z) : res (waits * list futex_waiter * Z) :=
  match l with
  | [] => Ok (w, [], woken)
  | x :: l =>
      if negb (fw_uaddr x =? uaddr) then
        '(w, l', c) ← futex_wake_loop w l uaddr n woken; Ok (w, x :: l', c)
      else if blocked (w_sched w) (fw_proc x) then
        if (0 <=? n) && (n <=? woken) then
          '(w, l', c) ← futex_wake_loop w l uaddr n woken; Ok (w, x :: l', c)
        else
          w ← wait_wake_status w (fw_wq x) 0;
          futex_wake_loop w l uaddr n (woken + 1)
      else futex_wake_loop w l uaddr n woken
  end.

Definition futex_wake_user (k : kern) (uaddr n : Z) : res (kern * Z) :=
  let h := futex_hash uaddr in
  '(w, l, woken) ← futex_wake_loop (k_waits k) (bucket k h) uaddr n 0;
  Ok (with_futex (with_waits k w) h l, woken).

Section lifecycle.
Context (frame_addr : nat -> Z).

(** [user] is the word at [uaddr], if the process may read it; [alloc] names
    the queue in the waiter that was allocated, if there was memory. [inl]: the
    call returns; [inr]: the CPU goes to the context with this frame. *)
Definition futex_wait (k : kern) (now frame_rsp irq_rsp : Z) (user : option Z) (alloc : option nat) (uaddr val timeout_us : Z) :
    kern * (Z + Z) :=
  match user with
  | None => (k, inl (- L_EINVAL))
  | Some v =>
      if negb (v =? val) then (k, inl (- L_EAGAIN))
      else
        match process_get_current (k_sched k), alloc with
        | Some (p, _), Some q =>
            let w := with_queue (k_waits k) q (mk_wq None None) in
            let h := futex_hash uaddr in
            let '(rc, w) := if truthy timeout_us then wait_timer_arm w now q timeout_us WAIT_COMPLETE (u64 (- L_ETIMEDOUT)) else (0, w) in
            if truthy timeout_us && truthy rc then (with_waits k w, inl (- L_ETIMEDOUT))
            else
              let s := process_park_entry_frame frame_addr (w_sched w) p frame_rsp false (0, 0) 0 in
              let k := with_futex (with_waits k w) h (mk_fw uaddr p q :: bucket k h) in
              let s := upd_proc s p (set_next None) in
              let w := with_queue (with_sched w s) q (mk_wq (Some p) (Some p)) in
              let s := upd_proc (w_sched w) p (set_state PROCESS_STATE_BLOCKED) in
              let s := fpu_save s p in
              let '(s, rsp) := park_switch s p irq_rsp in
              (with_waits k (with_sched w s), inr rsp)
        | _, _ => (k, inl (- L_ENOMEM))
        end
  end.

Definition LNX_FUTEX_WAIT : Z := 0.
Definition LNX_FUTEX_WAKE : Z := 1.

(** [ts] is the time structure at [utime], if it can be read. *)
Definition futex_timeout (utime : Z) (ts : option (Z * Z)) : Z + Z :=
  if utime =? 0 then inr 0
  else
    match ts with
    | None => inl (- L_EFAULT)
    | Some (sec, nsec) =>
        if sec <? 0 then inl (- L_EINVAL)
        else
          let t := u64 (u64 sec * 1000000 + u64 nsec / 1000) in
          inr (if negb (sec =? 0) && (t =? 0) then 1 else t)
    end.

Definition sc_futex (k : kern) (now frame_rsp irq_rsp : Z) (user : option Z) (ts : option (Z * Z)) (alloc : option nat)
    (uaddr op val utime : Z) : res (kern * (Z + Z)) :=
  let cmd := Z.land op 127 in
  if cmd =? LNX_FUTEX_WAIT then
    match futex_timeout utime ts with
    | inl e => Ok (k, inl e)
    | inr us => Ok (futex_wait k now frame_rsp irq_rsp user alloc uaddr (u32 val) us)
    end
  else if cmd =? LNX_FUTEX_WAKE then
    match user with
    | None => Ok (k, inl (- L_EFAULT))
    | Some _ => '(k, n) ← futex_wake_user k uaddr (s32 val); Ok (k, inl n)
    end
  else Ok (k, inl 0).

(** ** Ends *)

(** A page that is not mapped: the write is dropped. *)
Definition process_write_user_int (k : kern) (i : nat) (uaddr val : Z) : kern :=
  match processes (k_sched k) !! i with
  | Some p =>
      if truthy (p_cr3 p) then
        let page := Z.land uaddr (2 ^ 64 - 2 ^ 12) in
        let phys := k_phys k (p_cr3 p) page in
        if truthy phys then
          mk_kern (k_waits k) (futex_tab k) (k_phys k) (k_uwrites k ++ [(phys + (uaddr - page), val)])
        else k
      else k
  | None => k
  end.

Definition thread_clear_tid (k : kern) (i : nat) : res kern :=
  match processes (k_sched k) !! i with
  | None => Ok k
  | Some t =>
      let a := p_clear_child_tid t in
      if a =? 0 then Ok k
      else
        let k := process_write_user_int k i a 0 in
        '(k, _) ← futex_wake_user k a 1;
        Ok (with_ksched k (upd_proc (k_sched k) i (set_clear_child_tid 0)))
  end.

Definition thread_release (k : kern) (i : nat) : res kern :=
  k ← thread_clear_tid k i;
  let s := upd_proc (k_sched k) i (set_cr3 0) in
  let s := upd_proc s i (set_parked 0) in
  let s := upd_proc s i (set_wait_pid 0) in
  Ok (with_ksched k (upd_proc s i (set_state PROCESS_STATE_UNUSED))).

Fixpoint release_threads (k : kern) (leader : nat) (ids : list nat) : res kern :=
  match ids with
  | [] => Ok k
  | i :: ids =>
      let ps := processes (k_sched k) in
      match ps !! i, ps !! leader with
      | Some t, Some l =>
          if (i =? leader)%nat || bool_decide (p_state t = PROCESS_STATE_UNUSED) then release_threads k leader ids
          else if negb (p_tgid t =? p_tgid l) then release_threads k leader ids
          else k ← thread_release k i; release_threads k leader ids
      | _, _ => release_threads k leader ids
      end
  end.

Definition exit_group_kill_threads (k : kern) (leader : nat) : res kern :=
  release_threads k leader (seq 0 (length (processes (k_sched k)))).

(** The software interrupt after a request for the main task. *)
Definition leave_to_main (k : kern) (irq_rsp : Z) : kern * Z :=
  let '(s, r) := scheduler_tick (scheduler_request_main_switch (with_current (k_sched k) None)) irq_rsp in
  (with_ksched k s, r).

Definition thread_exit_current (k : kern) (i : nat) (irq_rsp : Z) : res (kern * Z) :=
  k ← thread_release k i;
  Ok (leave_to_main k irq_rsp).

(** A fault: the frame to resume, 0 when there is no process. *)
Definition process_kill_current (k : kern) (status : Z) : res (kern * Z) :=
  match process_get_current (k_sched k) with
  | None => Ok (k, 0)
  | Some (i, p) =>
      k ← (if p_is_thread p then thread_release k i
           else
             k ← exit_group_kill_threads k i;
             let s := upd_proc (k_sched k) i (set_state PROCESS_STATE_ZOMBIE) in
             Ok (with_ksched k (upd_proc s i (set_exit status))));
      let s := with_current (k_sched k) None in
      let s := scheduler_request_main_switch s in
      let s := scheduler_take_main_cpu s in
      Ok (with_ksched k s, scheduler_main_return_rsp s)
  end.

(** Resume the parent that waits for the child. *)
Definition resume_waiter (k : kern) (child_pid status : Z) (j : nat) (par : process) : kern * Z :=
  let k := if truthy (p_wait_status_ptr par)
           then process_write_user_int k j (p_wait_status_ptr par) (Z.shiftl (Z.land status 255) 8) else k in
  let s := k_sched k in
  let s := with_smem s (set_word (s_mem s) (p_parked_rsp par + 8 * IRQ_RAX) child_pid) in
  let s := process_become_current s j in
  let s := upd_proc s j (set_wait_pid 0) in
  let s := switch_space (set_kernel_stacks s par) par in
  let s := process_apply_fs_base (fpu_restore s par) par in
  (with_ksched k (scheduler_invalidate_user_frame s), p_parked_rsp par).

(** [None]: there is no process, and the call returns. *)
Definition process_exit (k : kern) (status irq_rsp : Z) : res (kern * option Z) :=
  match process_get_current (k_sched k) with
  | None => Ok (k, None)
  | Some (i, proc) =>
      if p_is_thread proc then '(k, r) ← thread_exit_current k i irq_rsp; Ok (k, Some r)
      else
        k ← exit_group_kill_threads k i;
        let found := process_find_waiter (k_sched k) (s32 (p_pid proc)) in
        let s := upd_proc (k_sched k) i (set_state PROCESS_STATE_ZOMBIE) in
        let s := upd_proc s i (set_exit status) in
        let k := with_ksched k s in
        match found with
        | Some j =>
            match processes s !! j with
            | Some par => let '(k, r) := resume_waiter k (p_pid proc) status j par in Ok (k, Some r)
            | None => Ok (k, None)
            end
        | None => let '(k, r) := leave_to_main k irq_rsp in Ok (k, Some r)
        end
  end.

(** ** Waiting for a child *)

(** The parent is parked and the child runs: the frame to resume. *)
Definition process_wait_run (k : kern) (child : nat) (status_ptr frame_rsp : Z) : kern * Z :=
  match process_get_current (k_sched k), processes (k_sched k) !! child with
  | Some (i, _), Some c =>
      let s := k_sched k in
      let e m x := word m (frame_rsp + 8 * x) in
      let f x := frame_addr i + 8 * x in
      let m := fold_left (fun m x => set_word m (f x) (e m x)) (seqZ 0 15) (s_mem s) in
      let m := set_word m (f IRQ_RAX) 0 in
      let m := set_word m (f IRQ_INTNUM) 32 in
      let m := set_word m (f IRQ_ERR) 0 in
      let m := set_word m (f IRQ_RIP) (e m ENTY_RIP) in
      let m := set_word m (f IRQ_CS) (e m ENTY_CS) in
      let m := set_word m (f IRQ_RFLAGS) (e m ENTY_RFLAGS) in
      let m := set_word m (f IRQ_RSP) (e m ENTY_RSP) in
      let m := set_word m (f IRQ_SS) (e m ENTY_SS) in
      let s := with_smem s m in
      let s := upd_proc s i (set_state PROCESS_STATE_BLOCKED) in
      let s := upd_proc s i (set_wait_pid (s32 (p_pid c))) in
      let s := upd_proc s i (set_wait_status_ptr status_ptr) in
      let s := upd_proc s i (set_parked (frame_addr i)) in
      let s := fpu_save s i in
      let s := switch_to_process s child c in
      (with_ksched k (scheduler_invalidate_user_frame s), p_parked_rsp c)
  | _, _ => (k, 0)
  end.

(** [writable]: the process may write four bytes at [status_ptr]. *)
Definition sc_wait4 (k : kern) (pid status_ptr : Z) (writable : bool) (frame_rsp : Z) : kern * (Z + Z) :=
  match process_get_current (k_sched k) with
  | None => (k, inl (- L_ECHILD))
  | Some (i, p) =>
      match process_find_child (k_sched k) p (s32 pid) with
      | None => (k, inl (- L_ECHILD))
      | Some j =>
          match processes (k_sched k) !! j with
          | None => (k, inl (- L_ECHILD))
          | Some c =>
              if bool_decide (p_state c = PROCESS_STATE_ZOMBIE) then
                if truthy status_ptr && negb writable then (k, inl (- L_EINVAL))
                else
                  let k := if truthy status_ptr
                           then process_write_user_int k i status_ptr (Z.shiftl (Z.land (p_exit_status c) 255) 8) else k in
                  (with_ksched k (process_reap (k_sched k) j), inl (s32 (p_pid c)))
              else let '(k, r) := process_wait_run k j status_ptr frame_rsp in (k, inr r)
          end
      end
  end.
End lifecycle.
