(* ===== verification/LifecycleCorrect.v ===== *)
(** * Correctness of futexes and of the ends of processes

    The frames a context is parked with, the end of a thread group, waiting
    for a child, and the places where the code departs from its intent. *)

From S2P Require Import Prelude Sched SchedCorrect WaitQueues Lifecycle.

(** ** Frames *)

(** The 22 words of the interrupt frame at an address. *)
Definition frame_at (s : sched) (a : Z) : list Z := map (fun k => word (s_mem s) (a + 8 * k)) (seqZ 0 22).

(** Word [k] of the system-call frame at an address, and the registers in it. *)
Definition entry (s : sched) (a k : Z) : Z := word (s_mem s) (a + 8 * k).
Definition entry_regs (s : sched) (a : Z) : list Z := map (entry s a) (seqZ 0 14).

(** A frame to be written and a system-call frame that is read. *)
Definition apart (f e : Z) : Prop := f + 8 * 22 <= e \/ e + 8 * 20 <= f.

Lemma word_set m a v b : word (set_word m a v) b = if a =? b then v else word m b.
Proof.
  unfold word, set_word. destruct (Z.eqb_spec a b) as [->|]; [by rewrite lookup_insert_eq|by rewrite lookup_insert_ne].
Qed.

Lemma word_set_frame m f j v k : word (set_word m (f + 8 * j) v) (f + 8 * k) = if j =? k then v else word m (f + 8 * k).
Proof. rewrite word_set. destruct (Z.eqb_spec j k), (Z.eqb_spec (f + 8 * j) (f + 8 * k)); lia || done. Qed.

Lemma word_set_entry m f e j v k :
  apart f e -> 0 <= j < 22 -> 0 <= k < 20 -> word (set_word m (f + 8 * j) v) (e + 8 * k) = word m (e + 8 * k).
Proof. intros Ha Hj Hk. rewrite word_set. unfold apart in Ha. destruct (Z.eqb_spec (f + 8 * j) (e + 8 * k)); [lia|done]. Qed.

(** The copy of the first [n] words. *)
Lemma copy_words m f e n :
  apart f e -> (n <= 20)%nat ->
  let m' := fold_left (fun m k => set_word m (f + 8 * k) (word m (e + 8 * k))) (seqZ 0 (Z.of_nat n)) m in
  (forall k, 0 <= k < 20 -> word m' (e + 8 * k) = word m (e + 8 * k)) /\
  (forall k, word m' (f + 8 * k) = if (0 <=? k) && (k <? Z.of_nat n) then word m (e + 8 * k) else word m (f + 8 * k)).
Proof.
  intros Ha. induction n as [|n IH]; intros Hn.
  { split; [done|]. intros k. destruct (Z.leb_spec 0 k), (Z.ltb_spec k (Z.of_nat 0)); done || lia. }
  specialize (IH ltac:(lia)). cbv zeta in *. rewrite seqZ_S, Nat2Z.inj_succ, fold_left_app. cbn [fold_left].
  set (m1 := fold_left _ _ m) in *. destruct IH as [IHe IHf]. rewrite Z.add_0_l. split.
  - intros k Hk. rewrite word_set_entry by (done || lia). by apply IHe.
  - intros k. rewrite word_set_frame. destruct (Z.eqb_spec (Z.of_nat n) k) as [<-|Hne].
    + rewrite IHe by lia. destruct (Z.leb_spec 0 (Z.of_nat n)), (Z.ltb_spec (Z.of_nat n) (Z.succ (Z.of_nat n))); done || lia.
    + rewrite IHf. destruct (Z.leb_spec 0 k), (Z.ltb_spec k (Z.of_nat n)), (Z.ltb_spec k (Z.succ (Z.of_nat n))); done || lia.
Qed.

(** The frame that the later writes leave. *)
Ltac frame_words Ha :=
  match type of Ha with apart ?f ?e =>
    rewrite ?(fun m j v k => word_set_entry m f e j v k Ha)
      by (unfold IRQ_RAX, IRQ_INTNUM, IRQ_ERR, IRQ_RIP, IRQ_CS, IRQ_RFLAGS, IRQ_RSP, IRQ_SS,
            ENTY_RIP, ENTY_CS, ENTY_RFLAGS, ENTY_RSP, ENTY_SS; lia)
  end;
  rewrite ?word_set_frame.

Section frames.
Context (frame_addr : nat -> Z).

(** A process that blocks in a system call is parked with a frame the
    interrupt return can resume: its registers, and its instruction pointer,
    flags and stack. For a call that is restarted the instruction pointer is
    moved back onto the [syscall] instruction (if the two bytes there are that
    instruction) and RAX still holds the call's number; otherwise RAX is the
    result. *)
Theorem park_frame_resumes s i fr restart op ret p :
  apart (frame_addr i) fr -> processes s !! i = Some p ->
  let s' := process_park_entry_frame frame_addr s i fr restart op ret in
  let again := restart && (2 <=? entry s fr ENTY_RIP) && (op.1 =? 15) && (op.2 =? 5) in
  p_parked_rsp <$> processes s' !! i = Some (frame_addr i) /\
  frame_at s' (frame_addr i) =
    entry_regs s fr ++
    [if again then entry s fr IRQ_RAX else ret; 32; 0;
     if again then entry s fr ENTY_RIP - 2 else entry s fr ENTY_RIP;
     entry s fr ENTY_CS; entry s fr ENTY_RFLAGS; entry s fr ENTY_RSP; entry s fr ENTY_SS].
Proof.
  intros Ha Hp s' again. split; [unfold s', process_park_entry_frame; rewrite upd_proc_lookup, decide_True by done; cbn; by rewrite Hp|].
  destruct (copy_words (s_mem s) (frame_addr i) fr 15 Ha ltac:(lia)) as [He Hf].
  unfold s', again, process_park_entry_frame. change (Z.of_nat 15) with 15 in *. set (m := fold_left _ _ (s_mem s)) in *.
  unfold frame_at, entry_regs, entry. cbn [upd_proc with_procs s_mem with_smem].
  change (seqZ 0 22) with [0; 1; 2; 3; 4; 5; 6; 7; 8; 9; 10; 11; 12; 13; 14; 15; 16; 17; 18; 19; 20; 21].
  change (seqZ 0 14) with [0; 1; 2; 3; 4; 5; 6; 7; 8; 9; 10; 11; 12; 13]. cbn [map app].
  frame_words Ha. rewrite !He by (unfold ENTY_RIP, ENTY_CS, ENTY_RFLAGS, ENTY_RSP, ENTY_SS; lia).
  destruct restart; cbn [andb]; [destruct (_ && _)|].
  all: rewrite !word_set_frame, !Hf; reflexivity.
Qed.
End frames.

Definition child_frame (pc : process) : Z := Z.land (u64 (p_kernel_stack pc - FRAME_BYTES)) (2 ^ 64 - 2 ^ 4).

Ltac frame_lists :=
  unfold frame_at, entry_regs, entry;
  change (seqZ 0 22) with [0; 1; 2; 3; 4; 5; 6; 7; 8; 9; 10; 11; 12; 13; 14; 15; 16; 17; 18; 19; 20; 21];
  change (seqZ 0 14) with [0; 1; 2; 3; 4; 5; 6; 7; 8; 9; 10; 11; 12; 13]; cbn [map app].

(** C31: A forked child is ready to return from the call its parent made: its
    frame has the parent's registers with RAX 0, the user segments, and its own
    stack if one was given; its FPU state (the initial one, when the template
    had still to be made) and thread pointer are the parent's, whose own frame
    is untouched. *)
Theorem fork_child_resumes fninit template s p c fr child_rsp pp pc :
  processes s !! p = Some pp -> processes s !! c = Some pc -> p <> c -> apart (child_frame pc) fr ->
  let s' := (fork_common fninit template s p c fr child_rsp).1 in
  p_parked_rsp <$> processes s' !! c = Some (child_frame pc) /\ p_state <$> processes s' !! c = Some PROCESS_STATE_READY /\
  p_fpu <$> processes s' !! c = Some (if template then c_fpu (s_cpu s) else fninit) /\
  p_fs_base <$> processes s' !! c = Some (p_fs_base pp) /\
  frame_at s' (child_frame pc) =
    entry_regs s fr ++
    [0; 32; 0; entry s fr ENTY_RIP; 27; entry s fr ENTY_RFLAGS;
     if truthy child_rsp then child_rsp else entry s fr ENTY_RSP; 35] /\
  (forall k, 0 <= k < 20 -> entry s' fr k = entry s fr k).
Proof.
  intros Hp Hc Hne Ha s'. unfold s', fork_common.
  assert (exists s0 t, match template with Some t => (s, t) | None => fpu_init_template fninit s end = (s0, t) /\ processes s0 = processes s /\
    s_mem s0 = s_mem s /\ c_fpu (s_cpu s0) = if template then c_fpu (s_cpu s) else fninit) as (s0 & t & -> & E1 & E2 & <-)
    by (destruct template; by eexists _, _).
  unfold entry_regs, entry. rewrite <- E2. rewrite <- E1 in Hp, Hc. clear s' E1 E2. unfold fpu_save.
  assert (processes (upd_proc s0 c (set_fpu t)) !! p = Some pp /\ processes (upd_proc s0 c (set_fpu t)) !! c = Some (set_fpu t pc)) as [Hp' Hc'].
  { rewrite !upd_proc_lookup, decide_False, decide_True, Hp, Hc by done. done. }
  rewrite (upd_proc_lookup (upd_proc s0 c (set_fpu t)) p), (upd_proc_lookup (upd_proc s0 c (set_fpu t)) p), decide_True, decide_False, Hp', Hc' by done.
  cbn [fmap option_fmap option_map fst p_kernel_stack set_fpu]. fold (child_frame pc).
  destruct (copy_words (s_mem s0) (child_frame pc) fr 15 Ha ltac:(lia)) as [He Hf].
  cbn [s_mem upd_proc with_procs]. change (Z.of_nat 15) with 15 in *. set (m := fold_left _ _ (s_mem s0)) in *.
  split_and!; [..|frame_lists|intros k Hk].
  1-4: rewrite !upd_proc_lookup, !decide_True by done; cbn; rewrite list_lookup_alter_ne by done; cbn in Hc'; rewrite Hc'; reflexivity.
  - cbn [s_mem with_smem upd_proc with_procs]. frame_words Ha. rewrite !He by (unfold ENTY_RIP, ENTY_CS, ENTY_RFLAGS, ENTY_RSP, ENTY_SS; lia).
    rewrite !Hf. reflexivity.
  - cbn [s_mem with_smem upd_proc with_procs]. frame_words Ha. by apply He.
Qed.

(** ** Processes that others wake *)

Definition woken_only (p p' : process) : Prop :=
  p' = p \/ p_state p = PROCESS_STATE_BLOCKED /\ p' = set_state PROCESS_STATE_READY p.

(** Nothing but blocked processes becoming ready. *)
Record only_wakes (s s' : sched) : Prop := {
  ow_tasks : tasks s' = tasks s;
  ow_current : current_process s' = current_process s;
  ow_procs : forall i p, processes s !! i = Some p -> exists p', processes s' !! i = Some p' /\ woken_only p p'
}.

Lemma woken_only_trans p1 p2 p3 : woken_only p1 p2 -> woken_only p2 p3 -> woken_only p1 p3.
Proof. intros [->|[H1 ->]] [->|[H2 ->]]; unfold woken_only; auto. Qed.

Lemma only_wakes_refl s : only_wakes s s.
Proof. split; [done|done|]. intros i p Hp. exists p. split; [done|by left]. Qed.

Lemma only_wakes_trans s1 s2 s3 : only_wakes s1 s2 -> only_wakes s2 s3 -> only_wakes s1 s3.
Proof.
  intros [H1 H2 H3] [H4 H5 H6]. split; [congruence|congruence|]. intros i p Hp. destruct (H3 i p Hp) as (p' & Hp' & Hw).
  destruct (H6 i p' Hp') as (p'' & Hp'' & Hw'). exists p''. split; [done|]. by eapply woken_only_trans.
Qed.

Lemma wake_locked_only s i k r : blocked s i = true -> only_wakes s (wake_locked s i k r).
Proof.
  intros Hb. unfold blocked in Hb. unfold wake_locked. destruct (processes s !! i) as [p|] eqn:Hp; [|done]. apply bool_decide_eq_true in Hb.
  set (s0 := match k with WAIT_RESTART => s | WAIT_COMPLETE => process_frame_set_ret s p r end).
  assert (processes s0 = processes s /\ tasks s0 = tasks s /\ current_process s0 = current_process s) as (E1 & E2 & E3).
  { unfold s0, process_frame_set_ret. destruct k; [done|]. by destruct (truthy _). }
  split; [done|done|]. intros j pj Hj. rewrite upd_proc_lookup, E1, Hj. unfold woken_only.
  destruct (decide (i = j)) as [<-|]; [|by eauto]. rewrite Hp in Hj. injection Hj as <-. cbn. eauto.
Qed.

Lemma wait_wake_status_ok w a q r :
  refines w a -> (q < length (a_queues a))%nat ->
  exists w' a', wait_wake_status w q r = Ok w' /\ refines w' a' /\ only_wakes (a_sched a) (a_sched a') /\
    length (a_queues a') = length (a_queues a).
Proof.
  intros Href Hq. destruct (wait_wake_status_refines w a q r Href Hq) as (w' & E & H). exists w', (a_wake_status a q r).
  split; [done|]. split; [done|]. unfold a_wake_status. destruct (from_blocked _ _) as [[p rest]|] eqn:Hf; cbn; rewrite length_insert.
  - destruct (from_blocked_split _ _ _ _ Hf) as (_ & _ & Hb & _). split; [by apply wake_locked_only|done].
  - split; [apply only_wakes_refl|done].
Qed.

(** ** The futex table *)

Definition queues_valid (n : nat) (l : list futex_waiter) : Prop := Forall (fun x => (fw_wq x < n)%nat) l.

Record kern_ok (k : kern) (a : awaits) : Prop := {
  ko_waits : refines (k_waits k) a;
  ko_futex : Forall (queues_valid (length (a_queues a))) (futex_tab k)
}.

Lemma futex_wake_loop_ok l uaddr n : forall w a c,
  refines w a -> queues_valid (length (a_queues a)) l ->
  exists w' l' c' a', futex_wake_loop w l uaddr n c = Ok (w', l', c') /\ refines w' a' /\ only_wakes (a_sched a) (a_sched a') /\
    length (a_queues a') = length (a_queues a) /\ queues_valid (length (a_queues a)) l'.
Proof.
  induction l as [|x l IH]; intros w a c Href Hl.
  { exists w, [], c, a. split_and!; [done|done|apply only_wakes_refl|done|constructor]. }
  apply Forall_cons_1 in Hl as [Hx Hl]. cbn [futex_wake_loop].
  assert (exists w' l' c' a', ('(w, l', c) ← futex_wake_loop w l uaddr n c; Ok (w, x :: l', c)) = Ok (w', l', c') /\
    refines w' a' /\ only_wakes (a_sched a) (a_sched a') /\
    length (a_queues a') = length (a_queues a) /\ queues_valid (length (a_queues a)) l') as Hskip.
  { destruct (IH w a c Href Hl) as (w' & l' & c' & a' & E & H1 & H2 & H3 & H4). rewrite E. exists w', (x :: l'), c', a'.
    split_and!; try done. by constructor. }
  destruct (negb _); [exact Hskip|]. destruct (blocked _ _); [|by apply IH].
  destruct (_ && _); [exact Hskip|].
  destruct (wait_wake_status_ok w a (fw_wq x) 0 Href Hx) as (w1 & a1 & -> & H1 & H2 & H3). cbn [mbind res_bind].
  destruct (IH w1 a1 (c + 1) H1) as (w' & l' & c' & a' & E & H4 & H5 & H6 & H7); [by rewrite H3|].
  rewrite H3 in H6, H7. exists w', l', c', a'. split_and!; try done. by eapply only_wakes_trans.
Qed.

Lemma futex_wake_user_ok k a uaddr n :
  kern_ok k a ->
  exists k' c a', futex_wake_user k uaddr n = Ok (k', c) /\ kern_ok k' a' /\ only_wakes (a_sched a) (a_sched a').
Proof.
  intros [Href Hf]. unfold futex_wake_user. set (h := futex_hash uaddr).
  assert (queues_valid (length (a_queues a)) (bucket k h)) as Hb.
  { unfold bucket. destruct (futex_tab k !! h) as [l|] eqn:E; [|constructor]. exact (Forall_lookup_1 _ _ _ _ Hf E). }
  destruct (futex_wake_loop_ok (bucket k h) uaddr n (k_waits k) a 0 Href Hb) as (w' & l' & c' & a' & -> & H1 & H2 & H3 & H4).
  eexists _, c', a'. split; [reflexivity|]. split; [|done]. split; cbn; [done|]. rewrite H3. by apply Forall_insert.
Qed.

Lemma kern_ok_sched k a s' :
  kern_ok k a -> same_links (k_sched k) s' -> kern_ok (with_ksched k s') (mk_aw (erase s') (a_queues a) (a_timers a)).
Proof. intros [Href Hf] [H1 H2]. split; [exact (refines_sched _ _ _ Href H1 H2)|exact Hf]. Qed.

(** ** The end of a thread group *)

(** The processes of [T] are released, others are at most woken. *)
Record releases (T : nat -> Prop) (s s' : sched) : Prop := {
  rl_tasks : tasks s' = tasks s;
  rl_current : current_process s' = current_process s;
  rl_procs : forall j p, processes s !! j = Some p ->
    exists p', processes s' !! j = Some p' /\ p_tgid p' = p_tgid p /\ (~ T j -> woken_only p p') /\ (T j -> p_state p' = PROCESS_STATE_UNUSED)
}.

Lemma woken_tgid p p' : woken_only p p' -> p_tgid p' = p_tgid p.
Proof. by intros [->|[_ ->]]. Qed.

Lemma only_wakes_upd s s' i f :
  only_wakes s s' -> (forall p, p_tgid (f p) = p_tgid p) -> (forall p, p_state (f p) = PROCESS_STATE_UNUSED) ->
  releases (eq i) s (upd_proc s' i f).
Proof.
  intros [H1 H2 H3] Hg Hu. split; [done|done|]. intros j p Hp. destruct (H3 j p Hp) as (p' & Hp' & Hw). rewrite upd_proc_lookup, Hp'.
  destruct (decide (i = j)) as [<-|Hne].
  - exists (f p'). rewrite Hg, Hu. split; [done|]. split; [by apply woken_tgid|done].
  - exists p'. split; [done|]. split; [by apply woken_tgid|done].
Qed.

Lemma only_wakes_upd_other s s' i f g :
  only_wakes s s' -> (forall p, p_tgid (f (g p)) = p_tgid p) -> (forall p, p_state (f (g p)) = PROCESS_STATE_UNUSED) ->
  releases (eq i) s (upd_proc (upd_proc s' i g) i f).
Proof.
  intros Hw Hg Hu. replace (upd_proc (upd_proc s' i g) i f) with (upd_proc s' i (fun p => f (g p))); [by apply only_wakes_upd|].
  apply procs_eq; [done|]. intros j. rewrite !upd_proc_lookup. destruct (decide (i = j)); [|done]. by destruct (processes s' !! j).
Qed.

Definition free_thread (p : process) : process :=
  set_state PROCESS_STATE_UNUSED (set_wait_pid 0 (set_parked 0 (set_cr3 0 p))).

Lemma thread_clear_tid_ok k a i :
  kern_ok k a ->
  exists k' a' s g, thread_clear_tid k i = Ok k' /\ kern_ok k' a' /\ only_wakes (a_sched a) s /\
    a_sched a' = upd_proc s i g /\ forall p, p_tgid (g p) = p_tgid p.
Proof.
  intros Hk. unfold thread_clear_tid.
  assert (exists k' a' s g, Ok k = Ok k' /\ kern_ok k' a' /\ only_wakes (a_sched a) s /\
    a_sched a' = upd_proc s i g /\ forall p : process, p_tgid (g p) = p_tgid p) as Hnone.
  { exists k, a, (a_sched a), (fun p => p). split_and!; try done; [apply only_wakes_refl|]. apply procs_eq; [done|].
    intros j. rewrite upd_proc_lookup. destruct (decide (i = j)); [|done]. by destruct (processes (a_sched a) !! j). }
  destruct (processes (k_sched k) !! i) as [t|]; [|exact Hnone]. destruct (p_clear_child_tid t =? 0); [exact Hnone|].
  set (k1 := process_write_user_int k i (p_clear_child_tid t) 0).
  assert (kern_ok k1 a) as Hk1.
  { unfold k1, process_write_user_int. destruct (processes _ !! i); [|done]. destruct (truthy _); [|done]. cbv zeta. destruct (truthy _); [|done]. by destruct Hk. }
  destruct (futex_wake_user_ok k1 a (p_clear_child_tid t) 1 Hk1) as (k2 & c & a2 & E & Hk2 & Hw). rewrite E. cbn [mbind res_bind].
  eexists _, _, (a_sched a2), (set_clear_child_tid 0). split; [reflexivity|]. split.
  - apply (kern_ok_sched k2 a2); [done|]. by apply same_links_upd.
  - split; [done|]. cbn [a_sched]. split; [|done]. rewrite (re_sched _ _ (ko_waits _ _ Hk2)). by apply erase_upd.
Qed.

Lemma thread_release_ok k a i :
  kern_ok k a -> exists k' a', thread_release k i = Ok k' /\ kern_ok k' a' /\ releases (eq i) (a_sched a) (a_sched a').
Proof.
  intros Hk. unfold thread_release. destruct (thread_clear_tid_ok k a i Hk) as (k1 & a1 & s1 & g & -> & Hk1 & Hw & E & Hg). cbn [mbind res_bind].
  eexists _, _. split; [reflexivity|]. split.
  - apply (kern_ok_sched k1 a1); [done|]. repeat (eapply same_links_trans; [|by apply same_links_upd]). by apply same_links_procs.
  - cbn [a_sched]. rewrite !erase_upd by done. change (k_sched k1) with (w_sched (k_waits k1)). rewrite <- (re_sched _ _ (ko_waits _ _ Hk1)), E.
    replace (upd_proc _ _ _) with (upd_proc (upd_proc s1 i g) i free_thread); [by apply only_wakes_upd_other|].
    apply procs_eq; [done|]. intros j. rewrite !upd_proc_lookup. destruct (decide (i = j)); [|done]. by destruct (processes s1 !! j).
Qed.

Lemma woken_unused p p' : woken_only p p' -> p_state p = PROCESS_STATE_UNUSED -> p_state p' = PROCESS_STATE_UNUSED.
Proof. intros [->|[H _]] E; [done|congruence]. Qed.

Lemma releases_trans (T1 T2 : nat -> Prop) s1 s2 s3 :
  (forall j, T1 j \/ ~ T1 j) -> (forall j, T2 j \/ ~ T2 j) ->
  releases T1 s1 s2 -> releases T2 s2 s3 -> releases (fun j => T1 j \/ T2 j) s1 s3.
Proof.
  intros D1 D2 [H1 H2 H3] [H4 H5 H6]. split; [congruence|congruence|]. intros j p Hp. destruct (H3 j p Hp) as (p2 & Hp2 & G2 & N2 & U2).
  destruct (H6 j p2 Hp2) as (p3 & Hp3 & G3 & N3 & U3). exists p3. split; [done|]. split; [congruence|]. split.
  - intros HT. eapply woken_only_trans; [apply N2|apply N3]; tauto.
  - intros HT. destruct (D2 j) as [|Hn]; [by apply U3|]. apply (woken_unused p2); [by apply N3|]. apply U2. tauto.
Qed.

Lemma releases_ext (T T' : nat -> Prop) s s' :
  (forall j, is_Some (processes s !! j) -> T j \/ ~ T j) ->
  (forall j p, processes s !! j = Some p -> T j -> T' j) ->
  (forall j p, processes s !! j = Some p -> T' j -> T j \/ p_state p = PROCESS_STATE_UNUSED) -> releases T s s' -> releases T' s s'.
Proof.
  intros D HT HT' [H1 H2 H3]. split; [done|done|]. intros j p Hp. destruct (H3 j p Hp) as (p' & Hp' & G & N & U).
  exists p'. split; [done|]. split; [done|]. split.
  - intros Hn. apply N. intros Ht. apply Hn. by eapply HT.
  - intros Ht. destruct (D j ltac:(eauto)) as [|Hn]; [by apply U|]. destruct (HT' j p Hp Ht) as [|Hu]; [done|]. apply (woken_unused p); [by apply N|done].
Qed.

(** A thread of the group of [leader], other than it. *)
Definition sibling (s : sched) (leader j : nat) : Prop :=
  j <> leader /\ p_tgid <$> processes s !! j = p_tgid <$> processes s !! leader.

Lemma sibling_dec s l j : sibling s l j \/ ~ sibling s l j.
Proof. unfold sibling. destruct (decide (j = l)), (decide (p_tgid <$> processes s !! j = p_tgid <$> processes s !! l)); tauto. Qed.

Lemma releases_sibling T s s' l : releases T s s' -> is_Some (processes s !! l) ->
  forall j, is_Some (processes s !! j) -> sibling s' l j <-> sibling s l j.
Proof.
  intros [_ _ H] [pl Hl] j [pj Hj]. unfold sibling. destruct (H l pl Hl) as (pl' & -> & Gl & _). destruct (H j pj Hj) as (pj' & -> & Gj & _).
  rewrite Hl, Hj. cbn. rewrite Gl, Gj. done.
Qed.

Lemma release_threads_ok leader ids : forall k a,
  kern_ok k a -> is_Some (processes (a_sched a) !! leader) ->
  exists k' a', release_threads k leader ids = Ok k' /\ kern_ok k' a' /\
    releases (fun j => j ∈ ids /\ sibling (a_sched a) leader j) (a_sched a) (a_sched a').
Proof.
  induction ids as [|i ids IH]; intros k a Hk Hl.
  { exists k, a. split; [done|]. split; [done|]. split; [done|done|]. intros j p Hp. exists p. split_and!; [done|done|by left|].
    intros [Hj _]. inversion Hj. }
  assert (forall j, processes (a_sched a) !! j = set_next None <$> processes (k_sched k) !! j) as Ea.
  { intros j. rewrite (re_sched _ _ (ko_waits _ _ Hk)). apply erase_lookup. }
  assert (forall j, sibling (a_sched a) leader j <-> j <> leader /\ p_tgid <$> processes (k_sched k) !! j = p_tgid <$> processes (k_sched k) !! leader) as Es.
  { intros j. unfold sibling. rewrite !Ea. by destruct (processes (k_sched k) !! j), (processes (k_sched k) !! leader). }
  assert ((sibling (a_sched a) leader i -> p_state <$> processes (a_sched a) !! i = Some PROCESS_STATE_UNUSED \/ processes (a_sched a) !! i = None) ->
    exists k' a', release_threads k leader ids = Ok k' /\ kern_ok k' a' /\
      releases (fun j => j ∈ i :: ids /\ sibling (a_sched a) leader j) (a_sched a) (a_sched a')) as Hskip.
  { intros Hi. destruct (IH k a Hk Hl) as (k' & a' & E & Hk' & Hr). exists k', a'. split; [done|]. split; [done|].
    revert Hr. apply releases_ext.
    - intros j _. destruct (sibling_dec (a_sched a) leader j); destruct (decide (j ∈ ids)); tauto.
    - intros j p _ [H1 H2]. set_solver.
    - intros j p Hp [H1 H2]. apply elem_of_cons in H1. destruct H1 as [->|]; [|by left].
      rewrite Hp in Hi. destruct (Hi H2) as [[=]|]; [by right|done]. }
  cbn [release_threads]. destruct Hl as [pl Hl]. rewrite Ea in Hl.
  destruct (processes (k_sched k) !! leader) as [l|] eqn:El; [|done]. clear Hl.
  destruct (processes (k_sched k) !! i) as [t|] eqn:Et; [|apply Hskip; intros _; right; by rewrite Ea, Et].
  destruct (Nat.eqb_spec i leader) as [->|Hne]; [apply Hskip; by intros [? _]|].
  cbn [orb]. case_bool_decide as Hu; [apply Hskip; intros _; left; rewrite Ea, Et; cbn; by rewrite Hu|].
  destruct (Z.eqb_spec (p_tgid t) (p_tgid l)) as [Hg|Hg]; cbn [negb]; [|apply Hskip; rewrite Es, Et; cbn; intros [_ [=]]; done].
  destruct (thread_release_ok k a i Hk) as (k1 & a1 & -> & Hk1 & Hr1). cbn [mbind res_bind].
  assert (is_Some (processes (a_sched a) !! leader)) as Hl by (rewrite Ea, El; done).
  destruct (IH k1 a1 Hk1) as (k' & a' & E & Hk' & Hr); [destruct Hl as [x Hx]; destruct (rl_procs _ _ _ Hr1 leader x Hx) as (x' & -> & _); done|].
  exists k', a'. split; [done|]. split; [done|].
  apply (releases_ext (fun j => i = j \/ j ∈ ids /\ sibling (a_sched a1) leader j)).
  - intros j _. destruct (sibling_dec (a_sched a1) leader j), (decide (j ∈ ids)), (decide (i = j)); tauto.
  - intros j p Hp [<-|[H1 H2]].
    + split; [set_solver|]. rewrite Es, Et. split; [done|]. cbn. by f_equal.
    + split; [set_solver|]. by apply (releases_sibling _ _ _ _ Hr1 Hl j ltac:(eauto)).
  - intros j p Hp [H1 H2]. left. apply elem_of_cons in H1. destruct H1 as [->|H1]; [by left|right].
    split; [done|]. by apply (releases_sibling _ _ _ _ Hr1 Hl j ltac:(eauto)).
  - eapply releases_trans; [..|exact Hr1|exact Hr].
    + intros j. destruct (decide (i = j)); tauto.
    + intros j. destruct (sibling_dec (a_sched a1) leader j), (decide (j ∈ ids)); tauto.
Qed.

Lemma write_user_sched k i a v : k_sched (process_write_user_int k i a v) = k_sched k.
Proof. unfold process_write_user_int. destruct (processes (k_sched k) !! i); [|done]. destruct (truthy _); [|done]. cbv zeta. by destruct (truthy _). Qed.

Lemma resume_waiter_procs k pid st j par x :
  processes (k_sched (resume_waiter k pid st j par).1) !! x =
  if decide (j = x) then (fun p => set_wait_pid 0 (set_state PROCESS_STATE_RUNNING p)) <$> processes (k_sched k) !! x
  else processes (k_sched k) !! x.
Proof.
  unfold resume_waiter. cbn [fst]. set (k0 := if truthy _ then _ else k).
  assert (k_sched k0 = k_sched k) as E by (unfold k0; destruct (truthy _); [apply write_user_sched|done]). rewrite <- E.
  unfold switch_space. destruct (truthy (p_cr3 par)); cbn; (destruct (decide (j = x)) as [->|];
    [rewrite !list_lookup_alter_eq; by destruct (processes _ !! x)|by rewrite !list_lookup_alter_ne]).
Qed.

Lemma exit_group_ok k a i proc :
  kern_ok k a -> processes (k_sched k) !! i = Some proc ->
  exists k' a', exit_group_kill_threads k i = Ok k' /\ kern_ok k' a' /\
    releases (sibling (a_sched a) i) (a_sched a) (a_sched a').
Proof.
  intros Hk Hi. unfold exit_group_kill_threads. set (ids := seq 0 _).
  assert (forall j, processes (a_sched a) !! j = set_next None <$> processes (k_sched k) !! j) as Ea.
  { intros j. rewrite (re_sched _ _ (ko_waits _ _ Hk)). apply erase_lookup. }
  destruct (release_threads_ok i ids k a Hk) as (k' & a' & E & Hk' & Hr); [by rewrite Ea, Hi|].
  exists k', a'. split; [done|]. split; [done|]. revert Hr. apply releases_ext.
  - intros j _. destruct (sibling_dec (a_sched a) i j), (decide (j ∈ ids)); tauto.
  - tauto.
  - intros j p Hp Hs. left. split; [|done]. apply elem_of_seq. split; [lia|]. rewrite Ea in Hp.
    destruct (processes (k_sched k) !! j) eqn:Ej; [|done]. by apply lookup_lt_Some in Ej.
Qed.

Definition ended (p : process) : bool := bool_decide (p_state p = PROCESS_STATE_UNUSED) || bool_decide (p_state p = PROCESS_STATE_ZOMBIE).

Lemma woken_ended p p' : woken_only p p' -> ended p' = ended p.
Proof. unfold ended. intros [->|[E ->]]; [done|]. by rewrite E. Qed.

(** What is left of each process after the end of the group of [i]. *)
Lemma exit_group_procs k a i proc :
  kern_ok k a -> processes (k_sched k) !! i = Some proc ->
  exists k', exit_group_kill_threads k i = Ok k' /\ tasks (k_sched k') = tasks (k_sched k) /\
    forall j p, processes (k_sched k) !! j = Some p ->
      exists p', processes (k_sched k') !! j = Some p' /\
        (j <> i -> p_tgid p = p_tgid proc -> p_state p' = PROCESS_STATE_UNUSED) /\
        (j = i \/ p_tgid p <> p_tgid proc -> p_state p' = p_state p \/ p_state p = PROCESS_STATE_BLOCKED /\ p_state p' = PROCESS_STATE_READY) /\
        (j = i \/ p_tgid p <> p_tgid proc -> ended p' = ended p).
Proof.
  intros Hk Hi. destruct (exit_group_ok k a i proc Hk Hi) as (k' & a' & E & Hk' & Hr). exists k'. split; [done|].
  pose proof (re_sched _ _ (ko_waits _ _ Hk)) as Ea. pose proof (re_sched _ _ (ko_waits _ _ Hk')) as Ea'.
  fold (k_sched k) in Ea. fold (k_sched k') in Ea'. split.
  { pose proof (rl_tasks _ _ _ Hr) as Et. by rewrite Ea, Ea' in Et. }
  intros j p Hp. destruct (rl_procs _ _ _ Hr j (set_next None p)) as (p1 & Hp1 & _ & HN & HU); [by rewrite Ea, erase_lookup, Hp|].
  rewrite Ea', erase_lookup in Hp1. destruct (processes (k_sched k') !! j) as [p'|]; [|done]. injection Hp1 as <-. exists p'. split; [done|].
  assert (sibling (a_sched a) i j <-> j <> i /\ p_tgid p = p_tgid proc) as Hs.
  { unfold sibling. rewrite Ea, !erase_lookup, Hp, Hi. cbn. split; intros [? H]; (split; [done|]); [by injection H|by f_equal]. }
  split; [intros H1 H2; by apply HU, Hs|].
  assert (j = i \/ p_tgid p <> p_tgid proc -> woken_only (set_next None p) (set_next None p')) as Hw by (intros H; apply HN; rewrite Hs; tauto).
  split; intros H; specialize (Hw H).
  - destruct Hw as [Hw|[Hb Hw]]; apply (f_equal p_state) in Hw; cbn in Hw; auto.
  - exact (woken_ended _ _ Hw).
Qed.

(** The CPU goes to another context: a blocked process may run now. *)
Definition hands_over (s s' : sched) : Prop :=
  forall x q, processes s !! x = Some q ->
    exists q', processes s' !! x = Some q' /\ (q' = q \/ p_state q = PROCESS_STATE_BLOCKED /\ ended q' = false).

Lemma leave_to_main_hands_over k irq : hands_over (k_sched k) (k_sched (leave_to_main k irq).1).
Proof. intros x q Hq. exists q. split; [exact Hq|by left]. Qed.

Lemma find_waiter_blocked s pid j : process_find_waiter s pid = Some j -> blocked s j = true.
Proof.
  intros (p & _ & Hp & H)%find_from_Some. rewrite Nat.sub_0_r in Hp. unfold blocked. rewrite Hp. rewrite !andb_true_iff in H. tauto.
Qed.

Lemma resume_waiter_hands_over k pid st j par :
  blocked (k_sched k) j = true -> hands_over (k_sched k) (k_sched (resume_waiter k pid st j par).1).
Proof.
  intros Hb x q Hq. rewrite resume_waiter_procs, Hq. destruct (decide (j = x)) as [->|]; [|eauto].
  eexists. split; [reflexivity|]. right. unfold blocked in Hb. rewrite Hq in Hb. by apply bool_decide_eq_true in Hb.
Qed.

Lemma current_lookup s i p : process_get_current s = Some (i, p) -> processes s !! i = Some p.
Proof.
  unfold process_get_current. destruct (current_process s) as [c|]; [|done]. destruct (processes s !! c) eqn:E; [|done].
  by intros [= -> ->].
Qed.

(** C24: When the leader of a thread group exits, every other thread of the
    group is gone, the leader is a zombie with its status, no process outside
    of the group ends, and the CPU is given away. *)
Theorem process_exit_ends_group k a i proc status irq :
  kern_ok k a -> process_get_current (k_sched k) = Some (i, proc) ->
  p_is_thread proc = false -> p_state proc = PROCESS_STATE_RUNNING ->
  exists k' r, process_exit k status irq = Ok (k', Some r) /\
    (exists p', processes (k_sched k') !! i = Some p' /\ p_state p' = PROCESS_STATE_ZOMBIE /\ p_exit_status p' = status) /\
    forall j p, processes (k_sched k) !! j = Some p -> j <> i ->
      exists p', processes (k_sched k') !! j = Some p' /\
        (p_tgid p = p_tgid proc -> p_state p' = PROCESS_STATE_UNUSED) /\
        (p_tgid p <> p_tgid proc -> ended p' = ended p).
Proof.
  intros Hk Hcur Hth Hrun. pose proof (current_lookup _ _ _ Hcur) as Hi. unfold process_exit. rewrite Hcur, Hth.
  destruct (exit_group_procs k a i proc Hk Hi) as (k1 & -> & _ & Hps). cbn [mbind res_bind].
  set (s2 := upd_proc (upd_proc (k_sched k1) i (set_state PROCESS_STATE_ZOMBIE)) i (set_exit status)).
  destruct (Hps i proc Hi) as (p1 & Hp1 & _ & Hst & _). specialize (Hst (or_introl eq_refl)).
  assert (forall x, processes s2 !! x = if decide (i = x) then (fun p => set_exit status (set_state PROCESS_STATE_ZOMBIE p)) <$> processes (k_sched k1) !! x
                    else processes (k_sched k1) !! x) as Es2.
  { intros x. unfold s2. rewrite !upd_proc_lookup. destruct (decide (i = x)); [|done]. by destruct (processes (k_sched k1) !! x). }
  assert (forall s', hands_over s2 s' ->
    (exists p', processes s' !! i = Some p' /\ p_state p' = PROCESS_STATE_ZOMBIE /\ p_exit_status p' = status) /\
    forall j p, processes (k_sched k) !! j = Some p -> j <> i ->
      exists p', processes s' !! j = Some p' /\ (p_tgid p = p_tgid proc -> p_state p' = PROCESS_STATE_UNUSED) /\
        (p_tgid p <> p_tgid proc -> ended p' = ended p)) as Hfin.
  { intros s' Hs'. split.
    - destruct (Hs' i (set_exit status (set_state PROCESS_STATE_ZOMBIE p1))) as (q & -> & [->|[? _]]); [by rewrite Es2, decide_True, Hp1|eauto|done].
    - intros j p Hj Hne. destruct (Hps j p Hj) as (p' & Hp' & Hu & Hs & He).
      destruct (Hs' j p') as (q & -> & Hq); [by rewrite Es2, decide_False|]. exists q. split; [done|]. destruct Hq as [->|[Hb He']]; [by auto|].
      split; [intros Hg; specialize (Hu Hne Hg); congruence|]. intros Hg. rewrite <- (He (or_intror Hg)), He'. unfold ended. by rewrite Hb. }
  destruct (process_find_waiter (k_sched k1) (s32 (p_pid proc))) as [j|] eqn:Hf.
  - apply find_waiter_blocked in Hf. assert (i <> j) as Hij.
    { intros <-. unfold blocked in Hf. rewrite Hp1 in Hf. apply bool_decide_eq_true in Hf. destruct Hst as [|[? _]]; congruence. }
    assert (blocked s2 j = true) as Hb by (unfold blocked; by rewrite Es2, decide_False).
    unfold blocked in Hb. destruct (processes s2 !! j) as [par|] eqn:Hpar; [|done].
    destruct (resume_waiter (with_ksched k1 s2) (p_pid proc) status j par) as [k' r] eqn:E. exists k', r. split; [done|]. apply Hfin.
    pose proof (resume_waiter_hands_over (with_ksched k1 s2) (p_pid proc) status j par) as H. rewrite E in H. apply H.
    cbn. unfold blocked. by rewrite Hpar.
  - pose proof (leave_to_main_hands_over (with_ksched k1 s2) irq) as H. destruct (leave_to_main (with_ksched k1 s2) irq) as [k' r]. eauto.
Qed.

(** C37: The main task is rewound after a process is killed by a fault. The
    handler resumes the main task from its saved frame and leaves the request
    to do so standing, so the next timer interrupt, whatever frame [rsp] it
    finds the main task at by then, forgets it and resumes the main task from
    the old frame a second time. *)
Theorem kill_current_rewinds_main k a st rsp u p :
  kern_ok k a -> process_get_current (k_sched k) = Some (u, p) ->
  exists k1 r1, process_kill_current k st = Ok (k1, r1) /\
    let '(s2, r2) := scheduler_tick (k_sched k1) rsp in
    on_cpu (k_sched k1) = K 0 /\ r1 = task_rsp (k_sched k) 0 /\
    on_cpu s2 = K 0 /\ r2 = r1 /\ task_rsp s2 0 = r1.
Proof.
  intros Hk Hcur. unfold process_kill_current. rewrite Hcur. pose proof (current_lookup _ _ _ Hcur) as Hu.
  assert (exists k0, (if p_is_thread p then thread_release k u else
      k ← exit_group_kill_threads k u;
      Ok (with_ksched k (upd_proc (upd_proc (k_sched k) u (set_state PROCESS_STATE_ZOMBIE)) u (set_exit st)))) = Ok k0 /\
    tasks (k_sched k0) = tasks (k_sched k)) as (k0 & -> & Et).
  { destruct (p_is_thread p).
    - destruct (thread_release_ok k a u Hk) as (k' & a' & -> & Hk' & Hr). exists k'. split; [done|].
      pose proof (rl_tasks _ _ _ Hr) as E. by rewrite (re_sched _ _ (ko_waits _ _ Hk)), (re_sched _ _ (ko_waits _ _ Hk')) in E.
    - destruct (exit_group_procs k a u p Hk Hu) as (k' & -> & Et & _). eexists. split; [reflexivity|]. done. }
  cbn [mbind res_bind]. eexists _, _. split; [reflexivity|].
  unfold scheduler_tick, on_cpu, running, process_get_current, scheduler_main_return_rsp, task_rsp. cbn. by rewrite Et.
Qed.

(** A process that is alone in its group. *)
Definition alone (s : sched) (i : nat) : Prop :=
  forall j p q, processes s !! j = Some p -> processes s !! i = Some q -> j <> i -> p_tgid p <> p_tgid q.

Lemma exit_group_alone k i : alone (k_sched k) i -> exit_group_kill_threads k i = Ok k.
Proof.
  intros Ha. unfold exit_group_kill_threads. generalize (seq 0 (length (processes (k_sched k)))). intros ids.
  induction ids as [|j ids IH]; [done|]. cbn [release_threads]. destruct (processes (k_sched k) !! j) as [t|] eqn:Hj; [|done].
  destruct (processes (k_sched k) !! i) as [l|] eqn:Hi; [|done]. destruct (Nat.eqb_spec j i) as [|Hne]; [done|]. cbn [orb].
  case_bool_decide; [done|]. rewrite (proj2 (Z.eqb_neq _ _)) by (by eapply Ha). done.
Qed.

(** A fault is not reported to a waiting parent. When a process is killed
    by a fault its parent stays blocked in [wait4], exactly as it was, though
    the child it waits for is a zombie now. *)
Theorem kill_current_strands_parent k st c child j par :
  process_get_current (k_sched k) = Some (c, child) -> p_is_thread child = false -> alone (k_sched k) c ->
  processes (k_sched k) !! j = Some par -> p_state par = PROCESS_STATE_BLOCKED -> p_wait_pid par = s32 (p_pid child) -> j <> c ->
  exists k' r, process_kill_current k st = Ok (k', r) /\ processes (k_sched k') !! j = Some par /\
    p_state <$> processes (k_sched k') !! c = Some PROCESS_STATE_ZOMBIE /\ on_cpu (k_sched k') = K 0.
Proof.
  intros Hcur Hth Halone Hpar Hb Hw Hne. unfold process_kill_current. rewrite Hcur, Hth, (exit_group_alone k c Halone).
  cbn [mbind res_bind]. eexists _, _. split; [reflexivity|]. cbn [k_sched with_ksched k_waits with_waits w_sched with_sched].
  change (processes (scheduler_take_main_cpu ?s)) with (processes s). change (processes (scheduler_request_main_switch ?s)) with (processes s).
  change (processes (with_current ?s None)) with (processes s). rewrite !upd_proc_lookup, !decide_False by congruence. split; [exact Hpar|].
  rewrite !decide_True by done. change (w_sched (k_waits k)) with (k_sched k). rewrite (current_lookup _ _ _ Hcur). done.
Qed.

(** ** Waiting for a child *)

Lemma find_from_only {B} (f : nat -> B -> bool) l i x :
  l !! i = Some x -> f i x = true -> (forall j y, l !! j = Some y -> j <> i -> f j y = false) -> find_from f 0 l = Some i.
Proof.
  intros Hi Hf Ho. destruct (find_from f 0 l) as [k|] eqn:E.
  - apply find_from_Some in E as (y & _ & Hy & Hfy). rewrite Nat.sub_0_r in Hy. destruct (decide (k = i)) as [->|Hne]; [done|].
    rewrite (Ho k y Hy Hne) in Hfy. done.
  - pose proof (find_from_None f 0 l i x E Hi) as H. cbn in H. congruence.
Qed.

Lemma switch_to_process_effect s c pc :
  (forall j, processes (switch_to_process s c pc) !! j =
    if decide (c = j) then set_state PROCESS_STATE_RUNNING <$> processes s !! j else processes s !! j) /\
  s_mem (switch_to_process s c pc) = s_mem s /\ current_process (switch_to_process s c pc) = Some c.
Proof.
  split; [intros j; rewrite <- upd_proc_lookup|]; unfold switch_to_process, switch_space; by destruct (truthy (p_cr3 pc)).
Qed.

Lemma frame_at_set s a j v :
  0 <= j < 22 -> frame_at (with_smem s (set_word (s_mem s) (a + 8 * j) v)) a = <[Z.to_nat j := v]> (frame_at s a).
Proof.
  intros Hj. apply list_eq. intros n. unfold frame_at. cbn [s_mem with_smem].
  destruct (decide (n < 22)%nat) as [Hn|Hn].
  - rewrite list_lookup_insert. destruct (decide _) as [[<- _]|Hne].
    + rewrite list_lookup_fmap, lookup_seqZ_lt by lia. cbn. rewrite word_set_frame. by rewrite (proj2 (Z.eqb_eq _ _)) by lia.
    + rewrite !list_lookup_fmap, lookup_seqZ_lt by lia. cbn. rewrite word_set_frame.
      rewrite (proj2 (Z.eqb_neq _ _)); [done|]. intros ->. apply Hne. split; [lia|]. rewrite length_fmap, length_seqZ. lia.
  - rewrite !lookup_ge_None_2; [done|rewrite length_insert|]; rewrite length_fmap, length_seqZ; lia.
Qed.

(** What a status stored at [ptr] in the space of [root] leaves in memory:
    nothing when there is no pointer or its page is not mapped. *)
Definition status_write (k : kern) (root ptr status : Z) : list (Z * Z) :=
  let page := Z.land ptr (2 ^ 64 - 2 ^ 12) in
  if truthy ptr && truthy (k_phys k root page) then [(k_phys k root page + (ptr - page), Z.shiftl (Z.land status 255) 8)] else [].

Lemma resume_waiter_effect k pid st j par :
  let '(k', r) := resume_waiter k pid st j par in
  r = p_parked_rsp par /\ current_process (k_sched k') = Some j /\
  frame_at (k_sched k') (p_parked_rsp par) = <[14%nat := pid]> (frame_at (k_sched k) (p_parked_rsp par)) /\
  c_fpu (s_cpu (k_sched k')) = p_fpu par /\
  k_uwrites k' = k_uwrites k ++
    match processes (k_sched k) !! j with
    | Some p => if truthy (p_cr3 p) then status_write k (p_cr3 p) (p_wait_status_ptr par) st else []
    | None => []
    end.
Proof.
  unfold resume_waiter. set (k0 := if truthy (p_wait_status_ptr par) then _ else k).
  assert (k_sched k0 = k_sched k) as E by (unfold k0; destruct (truthy _); [apply write_user_sched|done]).
  split; [done|]. split; [unfold switch_space; by destruct (truthy (p_cr3 par))|]. split.
  - rewrite <- E. change 14%nat with (Z.to_nat IRQ_RAX). rewrite <- frame_at_set by (unfold IRQ_RAX; lia). unfold frame_at, switch_space. by destruct (truthy (p_cr3 par)).
  - split; [unfold switch_space; by destruct (truthy (p_cr3 par))|]. cbn [with_ksched with_waits k_uwrites]. unfold k0, process_write_user_int.
    unfold status_write. destruct (processes (k_sched k) !! j) as [p|]; [|by rewrite app_nil_r; destruct (truthy _)].
    destruct (truthy (p_cr3 p)); [|by rewrite app_nil_r; destruct (truthy _)]. cbv zeta.
    destruct (truthy (p_wait_status_ptr par)); [|by rewrite app_nil_r]. destruct (truthy (k_phys k _ _)); [done|by rewrite app_nil_r].
Qed.

Section wait4.
Context (frame_addr : nat -> Z).

(** The state after [process_wait_run]. *)
Lemma wait_run_spec k c ptr fr i pi pc :
  process_get_current (k_sched k) = Some (i, pi) -> processes (k_sched k) !! c = Some pc -> c <> i -> apart (frame_addr i) fr ->
  let '(k1, r1) := process_wait_run frame_addr k c ptr fr in
  r1 = p_parked_rsp pc /\ k_phys k1 = k_phys k /\ k_uwrites k1 = k_uwrites k /\ current_process (k_sched k1) = Some c /\
  frame_at (k_sched k1) (frame_addr i) =
    entry_regs (k_sched k) fr ++ [0; 32; 0; entry (k_sched k) fr ENTY_RIP; entry (k_sched k) fr ENTY_CS;
      entry (k_sched k) fr ENTY_RFLAGS; entry (k_sched k) fr ENTY_RSP; entry (k_sched k) fr ENTY_SS] /\
  processes (k_sched k1) !! i =
    Some (set_fpu (c_fpu (s_cpu (k_sched k))) (set_parked (frame_addr i) (set_wait_status_ptr ptr
      (set_wait_pid (s32 (p_pid pc)) (set_state PROCESS_STATE_BLOCKED pi))))) /\
  (forall j, j <> i -> processes (k_sched k1) !! j =
     if decide (c = j) then Some (set_state PROCESS_STATE_RUNNING pc) else processes (k_sched k) !! j).
Proof.
  intros Hcur Hc Hne Ha. pose proof (current_lookup _ _ _ Hcur) as Hi. unfold process_wait_run. rewrite Hcur, Hc.
  destruct (copy_words (s_mem (k_sched k)) (frame_addr i) fr 15 Ha ltac:(lia)) as [He Hf].
  change (Z.of_nat 15) with 15 in *. set (m := fold_left _ _ (s_mem (k_sched k))) in *.
  cbn [k_sched with_ksched k_waits with_waits w_sched with_sched futex_tab k_uwrites].
  set (s1 := fpu_save _ i). destruct (switch_to_process_effect s1 c pc) as (Eps & Em & Ec).
  assert (forall j, processes s1 !! j = if decide (i = j) then Some (set_fpu (c_fpu (s_cpu (k_sched k))) (set_parked (frame_addr i)
    (set_wait_status_ptr ptr (set_wait_pid (s32 (p_pid pc)) (set_state PROCESS_STATE_BLOCKED pi))))) else processes (k_sched k) !! j) as Es1.
  { intros j. unfold s1, fpu_save. rewrite !upd_proc_lookup. destruct (decide (i = j)) as [<-|]; [|reflexivity].
    cbn [processes with_smem]. rewrite Hi. reflexivity. }
  assert (frame_at s1 (frame_addr i) = entry_regs (k_sched k) fr ++ [0; 32; 0; entry (k_sched k) fr ENTY_RIP; entry (k_sched k) fr ENTY_CS;
      entry (k_sched k) fr ENTY_RFLAGS; entry (k_sched k) fr ENTY_RSP; entry (k_sched k) fr ENTY_SS]) as Hfr.
  { unfold s1, fpu_save. frame_lists. cbn [s_mem with_smem upd_proc with_procs]. frame_words Ha.
    rewrite !He by (unfold ENTY_RIP, ENTY_CS, ENTY_RFLAGS, ENTY_RSP, ENTY_SS; lia). rewrite !Hf. reflexivity. }
  clearbody s1. clear m He Hf.
  split; [done|]. split; [done|]. split; [done|]. split; [exact Ec|]. split; [|split].
  - unfold frame_at in *. change (s_mem (scheduler_invalidate_user_frame ?s)) with (s_mem s). by rewrite Em.
  - change (processes (scheduler_invalidate_user_frame ?s)) with (processes s). by rewrite Eps, decide_False, Es1, decide_True.
  - intros j Hj. change (processes (scheduler_invalidate_user_frame ?s)) with (processes s). rewrite Eps, !Es1. destruct (decide (i = j)); [congruence|].
    destruct (decide (c = j)) as [<-|]; [|done]. by rewrite Hc.
Qed.

(** C23: A parent that waits for a child is resumed when the child exits. The
    child runs from its own frame; its exit resumes the parent from the frame
    of the call, with the parent's registers, FPU state and RAX the pid of the
    child, and the child is left a zombie with its status. The status is written
    through the parent's page tables to the address the parent gave; if that page
    is not mapped the write is dropped. *)
Theorem wait4_exit_roundtrip k c ptr fr i pi pc status irq :
  process_get_current (k_sched k) = Some (i, pi) -> processes (k_sched k) !! c = Some pc -> c <> i -> apart (frame_addr i) fr ->
  p_is_thread pi = false -> p_is_thread pc = false -> alone (k_sched k) c -> 0 < p_pid pc < 2 ^ 31 -> p_cr3 pi <> 0 ->
  (forall j p, processes (k_sched k) !! j = Some p -> j <> i -> p_wait_pid p = 0) ->
  let '(k1, r1) := process_wait_run frame_addr k c ptr fr in
  r1 = p_parked_rsp pc /\ running (k_sched k1) = Some c /\
  exists k2, process_exit k1 status irq = Ok (k2, Some (frame_addr i)) /\ running (k_sched k2) = Some i /\
    frame_at (k_sched k2) (frame_addr i) =
      entry_regs (k_sched k) fr ++ [p_pid pc; 32; 0; entry (k_sched k) fr ENTY_RIP; entry (k_sched k) fr ENTY_CS;
        entry (k_sched k) fr ENTY_RFLAGS; entry (k_sched k) fr ENTY_RSP; entry (k_sched k) fr ENTY_SS] /\
    c_fpu (s_cpu (k_sched k2)) = c_fpu (s_cpu (k_sched k)) /\
    k_uwrites k2 = k_uwrites k ++ status_write k (p_cr3 pi) ptr status /\
    processes (k_sched k2) !! c = Some (set_exit status (set_state PROCESS_STATE_ZOMBIE pc)).
Proof.
  intros Hcur Hc Hne Ha Hti Htc Halone Hpid Hcr3 Hothers. pose proof (wait_run_spec k c ptr fr i pi pc Hcur Hc Hne Ha) as Hw.
  pose proof (current_lookup _ _ _ Hcur) as Hi.
  destruct (process_wait_run frame_addr k c ptr fr) as [k1 r1]. destruct Hw as (-> & Hph & Hu & Hcur1 & Hfr & Hi1 & Hj1).
  set (par := set_fpu _ _) in Hi1.
  assert (processes (k_sched k1) !! c = Some (set_state PROCESS_STATE_RUNNING pc)) as Hc1 by (rewrite Hj1, decide_True; done).
  assert (process_get_current (k_sched k1) = Some (c, set_state PROCESS_STATE_RUNNING pc)) as Hget.
  { unfold process_get_current. by rewrite Hcur1, Hc1. }
  assert (alone (k_sched k1) c) as Halone1.
  { intros j p q Hp Hq Hjc. rewrite Hc1 in Hq. injection Hq as <-. cbn. destruct (decide (j = i)) as [->|Hji].
    - rewrite Hi1 in Hp. injection Hp as <-. cbn. by apply (Halone i pi pc).
    - rewrite Hj1, decide_False in Hp by congruence. by apply (Halone j p pc). }
  assert (s32 (p_pid pc) = p_pid pc) as Es32 by (unfold s32; mlia).
  assert (process_find_waiter (k_sched k1) (s32 (p_pid pc)) = Some i) as Hfind.
  { unfold process_find_waiter. rewrite Es32. apply (find_from_only _ _ i par Hi1).
    - unfold par. cbn. rewrite Hti, Es32, Z.eqb_refl, (proj2 (Z.eqb_neq (p_pid pc) (-1))) by lia. done.
    - intros j p Hp Hji. rewrite Hj1 in Hp by done. destruct (decide (c = j)) as [<-|]; [injection Hp as <-; done|].
      rewrite (Hothers j p Hp Hji), (proj2 (Z.eqb_neq 0 (p_pid pc))) by lia. by rewrite !andb_false_r. }
  split; [done|]. split; [unfold running; by rewrite Hget|].
  unfold process_exit. rewrite Hget. cbn [p_is_thread set_state]. rewrite Htc, (exit_group_alone k1 c Halone1). cbn [mbind res_bind].
  cbn [p_pid set_state]. rewrite Hfind. set (s2 := upd_proc _ c (set_exit status)).
  assert (forall x, processes s2 !! x = if decide (c = x) then Some (set_exit status (set_state PROCESS_STATE_ZOMBIE pc)) else processes (k_sched k1) !! x) as Es2.
  { intros x. unfold s2. rewrite !upd_proc_lookup. destruct (decide (c = x)) as [<-|]; [|done]. by rewrite Hc1. }
  rewrite Es2, decide_False, Hi1 by done.
  pose proof (resume_waiter_procs (with_ksched k1 s2) (p_pid pc) status i par) as Eps.
  pose proof (resume_waiter_effect (with_ksched k1 s2) (p_pid pc) status i par) as He.
  destruct (resume_waiter (with_ksched k1 s2) (p_pid pc) status i par) as [k2 r2]. cbn [fst snd] in *. exists k2.
  destruct He as (E1 & E2 & E3 & E4 & E5).
  change (p_parked_rsp par) with (frame_addr i) in E1, E3.
  split_and!; [by rewrite E1| |rewrite E3|by rewrite E4|rewrite E5|].
  - unfold running, process_get_current. rewrite E2, Eps, decide_True by done. cbn. rewrite Es2, decide_False, Hi1 by done. done.
  - change (k_sched (with_ksched k1 s2)) with s2. change (frame_at s2) with (frame_at (k_sched k1)). rewrite Hfr. by frame_lists.
  - change (k_sched (with_ksched k1 s2)) with s2. rewrite Es2, decide_False, Hi1 by done. change (p_cr3 par) with (p_cr3 pi).
    unfold truthy at 1. rewrite (proj2 (Z.eqb_neq _ _) Hcr3). cbn [negb]. unfold status_write.
    change (k_uwrites (with_ksched k1 s2)) with (k_uwrites k1). change (k_phys (with_ksched k1 s2)) with (k_phys k1). by rewrite Hu, Hph.
  - rewrite Eps, decide_False by done. cbn. by rewrite Es2, decide_True.
Qed.
End wait4.

Lemma find_from_nothing {B} (f : nat -> B -> bool) l n : (forall j y, l !! j = Some y -> f (n + j)%nat y = false) -> find_from f n l = None.
Proof.
  revert n. induction l as [|x l IH]; intros n H; [done|]. cbn [find_from]. pose proof (H 0%nat x eq_refl) as H0.
  rewrite Nat.add_0_r in H0. rewrite H0. apply IH. intros j y Hy. rewrite <- (H (S j) y Hy). f_equal. lia.
Qed.

(** A blocked child does not count. When the children of a process are all
    blocked in a call, [wait4] does not wait for them but reports that there
    is no child. *)
Theorem wait4_misses_blocked_child frame_addr k i p pid ptr writable fr :
  process_get_current (k_sched k) = Some (i, p) ->
  (forall j c, processes (k_sched k) !! j = Some c -> p_parent_pid c = s32 (p_pid p) -> p_state c = PROCESS_STATE_BLOCKED) ->
  sc_wait4 frame_addr k pid ptr writable fr = (k, inl (- L_ECHILD)).
Proof.
  intros Hcur Hb. unfold sc_wait4. rewrite Hcur. unfold process_find_child. rewrite find_from_nothing; [done|].
  intros j c Hc. destruct (Z.eqb_spec (p_parent_pid c) (s32 (p_pid p))) as [E|]; [|by rewrite !andb_false_r].
  rewrite (Hb j c Hc E). by rewrite andb_false_r.
Qed.

(** ** A small machine *)

Definition demo_frames (i : nat) : Z := 100000 + 1000 * Z.of_nat i.

Definition demo_kern (ps : list process) : kern :=
  mk_kern (mk_waits (demo_sched [(1000, TASK_READY)] 1 0 false ps (Some 0%nat))
             (replicate 3 (mk_wq None None)) (replicate WAIT_TIMERS (mk_timer false 0 0 WAIT_RESTART 0)))
          (replicate 16 []) (fun root page => root + page) [].

Definition demo_child (parent : Z) (p : process) : process :=
  mk_proc (p_pid p) (p_tgid p) (p_is_thread p) (p_state p) (p_cr3 p) (p_kernel_stack p) (p_fs_base p) (p_fpu p) (p_exit_status p)
    (p_parked_rsp p) parent (p_wait_pid p) (p_wait_next p) (p_clear_child_tid p) (p_wait_status_ptr p).

(** A parent that runs and its child. *)
Definition demo_family (st : pstate) : kern := demo_kern [demo_proc 1 PROCESS_STATE_RUNNING 0; demo_child 1 (demo_proc 2 st 8000)].

(** A leader, a second thread of its group and another process. *)
Definition demo_thread : process :=
  mk_proc 1 1 true PROCESS_STATE_READY 4096 1000 100 1 0 8000 0 0 None 4096 0.
Definition demo_group : kern := demo_kern [demo_proc 1 PROCESS_STATE_RUNNING 0; demo_thread; demo_proc 3 PROCESS_STATE_READY 9000].

Definition demo_spec (k : kern) : awaits := mk_aw (erase (k_sched k)) [[]; []; []] (w_timers (k_waits k)).

Lemma demo_kern_ok ps : (length ps <= MAX_PROCESSES)%nat -> kern_ok (demo_kern ps) (demo_spec (demo_kern ps)).
Proof.
  intros Hl. split; [split; try done|].
  - intros [|[|[|q]]] l Hq; cbn in Hq; [..|done]; injection Hq as <-; by split_and!.
  - apply list.NoDup_nil. exact I.
  - apply Forall_replicate. constructor.
Qed.

Lemma park_frame_resumes_witness :
  let s := k_sched (demo_family PROCESS_STATE_READY) in
  let s' := process_park_entry_frame demo_frames s 0 50000 true (15, 5) 0 in
  let again := true && (2 <=? entry s 50000 ENTY_RIP) && (15 =? 15) && (5 =? 5) in
  p_parked_rsp <$> processes s' !! 0%nat = Some (demo_frames 0) /\
  frame_at s' (demo_frames 0) =
    entry_regs s 50000 ++
    [if again then entry s 50000 IRQ_RAX else 0; 32; 0;
     if again then entry s 50000 ENTY_RIP - 2 else entry s 50000 ENTY_RIP;
     entry s 50000 ENTY_CS; entry s 50000 ENTY_RFLAGS; entry s 50000 ENTY_RSP; entry s 50000 ENTY_SS].
Proof. eapply (park_frame_resumes demo_frames _ 0 50000 true (15, 5) 0); [right; vm_compute; done|reflexivity]. Defined.

Lemma fork_child_resumes_witness :
  let s := k_sched (demo_family PROCESS_STATE_UNUSED) in
  let s' := (fork_common 895 (Some 895) s 0 1 50000 0).1 in
  let pc := demo_child 1 (demo_proc 2 PROCESS_STATE_UNUSED 8000) in
  p_parked_rsp <$> processes s' !! 1%nat = Some (child_frame pc) /\ p_state <$> processes s' !! 1%nat = Some PROCESS_STATE_READY /\
  p_fpu <$> processes s' !! 1%nat = Some (c_fpu (s_cpu s)) /\ p_fs_base <$> processes s' !! 1%nat = Some 100 /\
  frame_at s' (child_frame pc) =
    entry_regs s 50000 ++ [0; 32; 0; entry s 50000 ENTY_RIP; 27; entry s 50000 ENTY_RFLAGS;
      if truthy 0 then 0 else entry s 50000 ENTY_RSP; 35] /\
  (forall k, 0 <= k < 20 -> entry s' 50000 k = entry s 50000 k).
Proof. eapply (fork_child_resumes 895 (Some 895) _ 0 1 50000 0 (demo_proc 1 PROCESS_STATE_RUNNING 0)); [reflexivity|reflexivity|done|left; vm_compute; done]. Defined.

Lemma process_exit_ends_group_witness :
  exists k' r, process_exit demo_group 7 1500 = Ok (k', Some r) /\
    (exists p', processes (k_sched k') !! 0%nat = Some p' /\ p_state p' = PROCESS_STATE_ZOMBIE /\ p_exit_status p' = 7) /\
    forall j p, processes (k_sched demo_group) !! j = Some p -> j <> 0%nat ->
      exists p', processes (k_sched k') !! j = Some p' /\
        (p_tgid p = 1 -> p_state p' = PROCESS_STATE_UNUSED) /\ (p_tgid p <> 1 -> ended p' = ended p).
Proof.
  apply (process_exit_ends_group demo_group (demo_spec demo_group) 0 (demo_proc 1 PROCESS_STATE_RUNNING 0)); try reflexivity.
  apply demo_kern_ok. vm_compute. lia.
Defined.

Lemma kill_current_rewinds_main_witness :
  exists k1 r1, process_kill_current demo_group 9 = Ok (k1, r1) /\
    let '(s2, r2) := scheduler_tick (k_sched k1) 1400 in
    on_cpu (k_sched k1) = K 0 /\ r1 = task_rsp (k_sched demo_group) 0 /\ on_cpu s2 = K 0 /\ r2 = r1 /\ task_rsp s2 0 = r1.
Proof. eapply (kill_current_rewinds_main demo_group); [apply demo_kern_ok; vm_compute; lia|reflexivity]. Defined.

(** The child runs and the parent waits for it. *)
Definition demo_waiting : kern := (process_wait_run demo_frames (demo_family PROCESS_STATE_READY) 1 4000 50000).1.

Definition demo_parent : process :=
  set_fpu 1 (set_parked (demo_frames 0) (set_wait_status_ptr 4000 (set_wait_pid 2 (demo_proc 1 PROCESS_STATE_BLOCKED 0)))).

Lemma kill_current_strands_parent_witness :
  exists k' r, process_kill_current demo_waiting 9 = Ok (k', r) /\ processes (k_sched k') !! 0%nat = Some demo_parent /\
    p_state <$> processes (k_sched k') !! 1%nat = Some PROCESS_STATE_ZOMBIE /\ on_cpu (k_sched k') = K 0.
Proof.
  apply (kill_current_strands_parent demo_waiting 9 1 (demo_child 1 (demo_proc 2 PROCESS_STATE_RUNNING 8000)) 0 demo_parent);
    [vm_compute; reflexivity|reflexivity| |vm_compute; reflexivity|reflexivity|reflexivity|lia].
  intros [|[|j]] p q Hp Hq Hj; vm_compute in Hp, Hq; [|done|done]. injection Hp as <-. injection Hq as <-. cbn. lia.
Defined.

Lemma wait4_exit_roundtrip_witness :
  let k := demo_family PROCESS_STATE_READY in
  let pc := demo_child 1 (demo_proc 2 PROCESS_STATE_READY 8000) in
  let '(k1, r1) := process_wait_run demo_frames k 1 4000 50000 in
  r1 = 8000 /\ running (k_sched k1) = Some 1%nat /\
  exists k2, process_exit k1 7 1500 = Ok (k2, Some (demo_frames 0)) /\ running (k_sched k2) = Some 0%nat /\
    frame_at (k_sched k2) (demo_frames 0) =
      entry_regs (k_sched k) 50000 ++ [2; 32; 0; entry (k_sched k) 50000 ENTY_RIP; entry (k_sched k) 50000 ENTY_CS;
        entry (k_sched k) 50000 ENTY_RFLAGS; entry (k_sched k) 50000 ENTY_RSP; entry (k_sched k) 50000 ENTY_SS] /\
    c_fpu (s_cpu (k_sched k2)) = c_fpu (s_cpu (k_sched k)) /\
    k_uwrites k2 = k_uwrites k ++ [(8096, 1792)] /\
    processes (k_sched k2) !! 1%nat = Some (set_exit 7 (set_state PROCESS_STATE_ZOMBIE pc)).
Proof.
  apply (wait4_exit_roundtrip demo_frames (demo_family PROCESS_STATE_READY) 1 4000 50000 0 (demo_proc 1 PROCESS_STATE_RUNNING 0)
    (demo_child 1 (demo_proc 2 PROCESS_STATE_READY 8000)) 7 1500); try reflexivity; try done.
  - right. vm_compute. done.
  - intros [|[|j]] p q Hp Hq Hj; vm_compute in Hp, Hq; [|done|done]. injection Hp as <-. injection Hq as <-. cbn. lia.
  - intros [|[|j]] p Hp Hj; vm_compute in Hp; [done| |done]. by injection Hp as <-.
Defined.

Lemma wait4_misses_blocked_child_witness :
  sc_wait4 demo_frames (demo_family PROCESS_STATE_BLOCKED) (-1) 0 true 50000 = (demo_family PROCESS_STATE_BLOCKED, inl (- L_ECHILD)).
Proof.
  eapply wait4_misses_blocked_child; [reflexivity|]. intros [|[|j]] c Hc Hp; vm_compute in Hc; [| |done]; injection Hc as <-; [|done].
  vm_compute in Hp. done.
Defined.

(** ** Lost and misdirected wake-ups *)

(** [wait4] reports the same child twice. The exit of a child resumes the
    waiting parent with the pid of the child and leaves the zombie in place; the
    next [wait4], which has no child left to wait for, returns that pid again. *)
Theorem wait4_reports_twice :
  exists k2 r, process_exit demo_waiting 7 1500 = Ok (k2, Some r) /\
    word (s_mem (k_sched k2)) (r + 8 * IRQ_RAX) = 2 /\ (sc_wait4 demo_frames k2 (-1) 0 true 50000).2 = inl 2.
Proof.
  destruct (process_exit demo_waiting 7 1500) as [[k2 [r|]]| | |] eqn:E; try (vm_compute in E; discriminate).
  exists k2, r. vm_compute in E. injection E as <- <-. vm_compute. done.
Qed.

(** Process 0 waits on a futex; then process 1 does, for 100 microseconds, and
    goes to sleep when they are over; process 2 runs. *)
Definition demo_three : kern :=
  demo_kern [demo_proc 1 PROCESS_STATE_RUNNING 0; demo_proc 2 PROCESS_STATE_READY 8000; demo_proc 3 PROCESS_STATE_READY 9000].

Definition demo_block (k : kern) (now q : Z) : kern :=
  match wait_block demo_frames (k_waits k) now 50000 (15, 5) 1500 (Z.to_nat q) WAIT_RESTART 0 0 with
  | inl w => with_waits k w
  | inr (w, _) => with_waits k w
  end.

Definition demo_stale : kern :=
  let k := (futex_wait demo_frames demo_three 0 50000 1500 (Some 5) (Some 0%nat) 4096 5 0).1 in
  let k := (futex_wait demo_frames k 10 51000 1500 (Some 5) (Some 1%nat) 4096 5 100).1 in
  let k := with_waits k (wait_timers_poll (k_waits k) 200) in
  let k := with_ksched k (scheduler_tick (k_sched k) 52000).1 in
  let k := with_ksched k (scheduler_tick (k_sched k) 1600).1 in
  demo_block k 300 2.

(** A futex wake-up is lost. The entry of a waiter that timed out stays in
    the table; when its process blocks elsewhere, a wake-up of one waiter is
    spent on that entry: it reports one process woken, and the process that
    does wait on the futex stays blocked. *)
Theorem futex_wake_lost :
  exists k, futex_wake_user demo_stale 4096 1 = Ok (k, 1) /\
    (forall i, blocked (k_sched demo_stale) i = blocked (k_sched k) i) /\ blocked (k_sched k) 0 = true /\
    bucket k (futex_hash 4096) = [mk_fw 4096 0 0].
Proof.
  destruct (futex_wake_user demo_stale 4096 1) as [[k n]| | |] eqn:E; try (vm_compute in E; discriminate).
  exists k. vm_compute in E. injection E as <- <-. split; [done|]. split; [|split; reflexivity].
  intros [|[|[|i]]]; reflexivity.
Qed.

(** Process 0 waits on a futex for a second and is woken; its waiter is freed
    and its memory reused for a wait of process 1, without a timeout. *)
Definition demo_reused : res kern :=
  let k := (futex_wait demo_frames demo_three 0 50000 1500 (Some 5) (Some 0%nat) 4096 5 1000000).1 in
  '(k, _) ← futex_wake_user k 4096 1;
  Ok (futex_wait demo_frames k 500 51000 1500 (Some 5) (Some 0%nat) 8192 5 0).1.

(** A futex timer outlives its waiter. The timer of a wait that was woken
    in time still points to the freed waiter; when the memory holds another
    waiter by then, that one is woken with a timeout it never asked for. *)
Theorem futex_timer_outlives_waiter :
  exists k, demo_reused = Ok k /\ blocked (k_sched k) 1 = true /\
    let w := wait_timers_poll (k_waits k) 1000000 in
    blocked (w_sched w) 1 = false /\
    word (s_mem (w_sched w)) (demo_frames 1 + 8 * IRQ_RAX) = 2 ^ 64 - L_ETIMEDOUT.
Proof.
  destruct demo_reused as [k| | |] eqn:E; try (vm_compute in E; discriminate).
  exists k. vm_compute in E. injection E as <-. split; [reflexivity|]. split; [reflexivity|]. vm_compute. split; reflexivity.
Qed.
