(* ===== verification/Net.v ===== *)
(** * The network stack: packets, ARP, IPv4, ICMP and UDP

    src/src/kernel/net: netif.c, ethernet.c, arp.c, ipv4.c, icmp.c, udp.c. A
    frame is a list of bytes. Time passes only while the code waits
    ([pit_delay_ms]); [n_env] gives the frames that reach the card during each
    wait, [n_ring] those not yet taken from the card, and [n_sent] those handed
    to its driver. [n_wakes] records the calls that wake readers. *)

From S2P Require Import Prelude.

Notation frame := (list Z).

(** ** Data *)

Definition NET_MTU : Z := 1500.
Definition NET_MAX_PACKET : Z := 2048.
Definition ETH_HDR_LEN : Z := 14.
Definition ETH_TYPE_ARP : Z := 2054.
Definition ETH_TYPE_IP : Z := 2048.
Definition IP_PROTO_ICMP : Z := 1.
Definition IP_PROTO_TCP : Z := 6.
Definition IP_PROTO_UDP : Z := 17.
Definition ARP_HTYPE_ETH : Z := 1.
Definition ARP_PTYPE_IP : Z := 2048.
Definition ARP_OP_REQUEST : Z := 1.
Definition ARP_OP_REPLY : Z := 2.
Definition ARP_CACHE_SIZE : nat := 16.
Definition ARP_TIMEOUT_MS : Z := 30000.
Definition ICMP_TYPE_ECHO_REPLY : Z := 0.
Definition ICMP_TYPE_ECHO_REQUEST : Z := 8.
Definition UDP_MAX_SOCKETS : nat := 8.
Definition UDP_RX_BUFSZ : Z := 2048.
Definition PING_ID : Z := 4660.

(** [ni_send]: a driver is attached. *)
Record netif : Type := mk_netif {
  ni_mac : list Z;
  ni_ip : Z;
  ni_netmask : Z;
  ni_gateway : Z;
  ni_dns : Z;
  ni_send : bool
}.

Record arp_entry : Type := mk_arp {
  ae_ip : Z;
  ae_mac : list Z;
  ae_timestamp : Z;
  ae_valid : bool
}.

Record udp_socket : Type := mk_udp {
  us_local_port : Z;
  us_remote_ip : Z;
  us_remote_port : Z;
  us_bound : bool;
  us_used : bool;
  us_rx_buf : list Z;
  us_rx_count : Z
}.

Inductive tcp_state : Type :=
  | TCP_CLOSED
  | TCP_SYN_SENT
  | TCP_ESTABLISHED
  | TCP_FIN_WAIT1
  | TCP_FIN_WAIT2
  | TCP_TIME_WAIT
  | TCP_CLOSE_WAIT
  | TCP_LAST_ACK
  | TCP_CLOSING.

#[global] Instance tcp_state_eq_dec : EqDecision tcp_state.
Proof. solve_decision. Defined.

(** [ts_rx_buf] has the bytes written so far, by index. *)
Record tcp_socket : Type := mk_tcp {
  ts_used : bool;
  ts_state : tcp_state;
  ts_remote_ip : Z;
  ts_remote_port : Z;
  ts_local_port : Z;
  ts_iss : Z;
  ts_snd_una : Z;
  ts_snd_nxt : Z;
  ts_tx_seg : list Z;
  ts_tx_len : Z;
  ts_tx_flags : Z;
  ts_tx_time_us : Z;
  ts_tx_retries : Z;
  ts_fin_queued : bool;
  ts_rcv_nxt : Z;
  ts_rx_buf : gmap Z Z;
  ts_rx_head : Z;
  ts_rx_tail : Z;
  ts_rx_fin : bool
}.

Record net : Type := mk_net {
  n_if : netif;
  n_rx_busy : bool;
  n_ring : list frame;
  n_env : list (list frame);
  n_now : Z;
  n_sent : list frame;
  n_wakes : list Z;
  arp_cache : list arp_entry;
  arp_next_victim : Z;
  ping_reply : bool;
  ping_seq : Z;
  ping_peer : Z;
  udp_sockets : list udp_socket;
  udp_next : Z;
  tcp_sockets : list tcp_socket;
  tcp_next : Z;
  isn_state : Z
}.

Definition with_busy n b := mk_net (n_if n) b (n_ring n) (n_env n) (n_now n) (n_sent n) (n_wakes n) (arp_cache n) (arp_next_victim n)
  (ping_reply n) (ping_seq n) (ping_peer n) (udp_sockets n) (udp_next n) (tcp_sockets n) (tcp_next n) (isn_state n).
Definition with_ring n r e t := mk_net (n_if n) (n_rx_busy n) r e t (n_sent n) (n_wakes n) (arp_cache n) (arp_next_victim n)
  (ping_reply n) (ping_seq n) (ping_peer n) (udp_sockets n) (udp_next n) (tcp_sockets n) (tcp_next n) (isn_state n).
Definition with_sent n l := mk_net (n_if n) (n_rx_busy n) (n_ring n) (n_env n) (n_now n) l (n_wakes n) (arp_cache n) (arp_next_victim n)
  (ping_reply n) (ping_seq n) (ping_peer n) (udp_sockets n) (udp_next n) (tcp_sockets n) (tcp_next n) (isn_state n).
Definition with_wakes n l := mk_net (n_if n) (n_rx_busy n) (n_ring n) (n_env n) (n_now n) (n_sent n) l (arp_cache n) (arp_next_victim n)
  (ping_reply n) (ping_seq n) (ping_peer n) (udp_sockets n) (udp_next n) (tcp_sockets n) (tcp_next n) (isn_state n).
Definition with_arp n c v := mk_net (n_if n) (n_rx_busy n) (n_ring n) (n_env n) (n_now n) (n_sent n) (n_wakes n) c v
  (ping_reply n) (ping_seq n) (ping_peer n) (udp_sockets n) (udp_next n) (tcp_sockets n) (tcp_next n) (isn_state n).
Definition with_ping n r s p := mk_net (n_if n) (n_rx_busy n) (n_ring n) (n_env n) (n_now n) (n_sent n) (n_wakes n) (arp_cache n) (arp_next_victim n)
  r s p (udp_sockets n) (udp_next n) (tcp_sockets n) (tcp_next n) (isn_state n).
Definition with_udp n l p := mk_net (n_if n) (n_rx_busy n) (n_ring n) (n_env n) (n_now n) (n_sent n) (n_wakes n) (arp_cache n) (arp_next_victim n)
  (ping_reply n) (ping_seq n) (ping_peer n) l p (tcp_sockets n) (tcp_next n) (isn_state n).
Definition with_tcp n l p i := mk_net (n_if n) (n_rx_busy n) (n_ring n) (n_env n) (n_now n) (n_sent n) (n_wakes n) (arp_cache n) (arp_next_victim n)
  (ping_reply n) (ping_seq n) (ping_peer n) (udp_sockets n) (udp_next n) l p i.

(** ** Bytes *)

Definition net_htons (v : Z) : Z := Z.lor (Z.shiftr v 8) (Z.shiftl (Z.land v 255) 8).
Definition net_htonl (v : Z) : Z :=
  Z.lor (Z.lor (Z.lor (Z.land (Z.shiftr v 24) 255) (Z.land (Z.shiftr v 8) 65280)) (Z.land (Z.shiftl v 8) 16711680))
        (Z.land (Z.shiftl v 24) 4278190080).

(** A copy of bytes over the front of an array. *)
Definition overwrite (a d : list Z) : res (list Z) :=
  if zlen d <=? zlen a then Ok (d ++ drop (length d) a) else Fault.

(** [n] bytes written into a buffer of [cap]. *)
Definition fits (cap n : Z) : res unit := if n <=? cap then Ok tt else Fault.

Definition swap16 (buf : list Z) (off : Z) : res Z := v ← ld16 buf off; Ok (net_htons v).
Definition swap32 (buf : list Z) (off : Z) : res Z := v ← ld32 buf off; Ok (net_htonl v).

(** ** The Internet checksum *)

Fixpoint sum_words (l : list Z) (sum : Z) : Z :=
  match l with
  | [] => sum
  | [b] => u32 (sum + b)
  | b0 :: b1 :: l => sum_words l (u32 (sum + Z.lor b0 (Z.shiftl b1 8)))
  end.

(** [while (sum >> 16) sum = (sum & 0xFFFF) + (sum >> 16)] *)
Fixpoint fold_carry (fuel : nat) (sum : Z) : res Z :=
  match fuel with
  | O => Timeout
  | S fuel => if truthy (Z.shiftr sum 16) then fold_carry fuel (u32 (Z.land sum 65535 + Z.shiftr sum 16)) else Ok sum
  end.

(** The 16-bit index never reaches 65535. *)
Definition ip_checksum (data : list Z) : res Z :=
  if zlen data =? 65535 then Timeout
  else
    sum ← fold_carry 4 (sum_words data 0);
    Ok (u16 (Z.lnot sum)).

(** ** Sending

    [nic_send] is what the driver of the card returns for a frame. *)
Section net.
Context (nic_send : frame -> Z).

Definition netif_send n (f : frame) : Z * net :=
  if ni_send (n_if n) then (nic_send f, with_sent n (n_sent n ++ [f])) else (-1, n).

Definition eth_transmit n (dst_mac : list Z) (type : Z) (payload : list Z) : res (Z * net) :=
  if NET_MTU <? zlen payload then Ok (-1, n)
  else
    dst ← slice dst_mac 0 6;
    src ← slice (ni_mac (n_if n)) 0 6;
    let packet := dst ++ src ++ le16 (net_htons type) ++ payload in
    _ ← fits NET_MAX_PACKET (zlen packet);
    let packet := packet ++ replicate (Z.to_nat (60 - zlen packet)) 0 in
    Ok (netif_send n packet).

(** ** ARP *)

Definition arp_now_ms n : Z := u32 (n_now n / 1000).

Definition no_entry : arp_entry := mk_arp 0 [0; 0; 0; 0; 0; 0] 0 false.

Definition invalidate (e : arp_entry) : arp_entry := mk_arp (ae_ip e) (ae_mac e) (ae_timestamp e) false.

Definition arp_init n : net := with_arp n (map invalidate (arp_cache n)) 0.

(** The search invalidates the old entries it meets. *)
Fixpoint arp_scan (now ip : Z) (i : nat) (l : list arp_entry) : list arp_entry * option nat :=
  match l with
  | [] => ([], None)
  | e :: l =>
      if negb (ae_valid e) then let '(l', r) := arp_scan now ip (S i) l in (e :: l', r)
      else if ARP_TIMEOUT_MS <? u32 (now - ae_timestamp e) then
        let '(l', r) := arp_scan now ip (S i) l in (invalidate e :: l', r)
      else if ae_ip e =? ip then (e :: l, Some i)
      else let '(l', r) := arp_scan now ip (S i) l in (e :: l', r)
  end.

Definition arp_find n (ip : Z) : net * option nat :=
  let '(l, r) := arp_scan (arp_now_ms n) ip 0 (arp_cache n) in (with_arp n l (arp_next_victim n), r).

Fixpoint free_slot (i : nat) (l : list arp_entry) : option nat :=
  match l with
  | [] => None
  | e :: l => if ae_valid e then free_slot (S i) l else Some i
  end.

Definition arp_cache_update n (ip : Z) (mac : list Z) : res net :=
  m ← slice mac 0 6;
  let '(n, r) := arp_find n ip in
  match r with
  | Some i =>
      Ok (with_arp n (alter (fun e => mk_arp (ae_ip e) m (arp_now_ms n) (ae_valid e)) i (arp_cache n)) (arp_next_victim n))
  | None =>
      let e := mk_arp ip m (arp_now_ms n) true in
      match free_slot 0 (arp_cache n) with
      | Some slot => Ok (with_arp n (<[slot := e]> (arp_cache n)) (arp_next_victim n))
      | None =>
          let slot := arp_next_victim n in
          Ok (with_arp n (<[Z.to_nat slot := e]> (arp_cache n)) (u8 ((slot + 1) mod Z.of_nat ARP_CACHE_SIZE)))
      end
  end.

(** The 28 bytes of an ARP packet; the fields are as they lie in memory. *)
Definition arp_packet (htype ptype hlen plen oper : Z) (sha : list Z) (spa : Z) (tha : list Z) (tpa : Z) : list Z :=
  le16 htype ++ le16 ptype ++ [hlen; plen] ++ le16 oper ++ sha ++ le32 spa ++ tha ++ le32 tpa.

Definition arp_receive n (data : list Z) : res net :=
  if zlen data <? 28 then Ok n
  else
    htype ← swap16 data 0;
    ptype ← swap16 data 2;
    oper ← swap16 data 6;
    if negb (htype =? ARP_HTYPE_ETH) || negb (ptype =? ARP_PTYPE_IP) then Ok n
    else
      sha ← slice data 8 6;
      spa ← swap32 data 14;
      tpa ← swap32 data 24;
      let ours := (oper =? ARP_OP_REQUEST) && (tpa =? ni_ip (n_if n)) in
      n ← (if (oper =? ARP_OP_REPLY) || ours then arp_cache_update n spa sha else Ok n);
      if ours then
        mac ← slice (ni_mac (n_if n)) 0 6;
        rhtype ← ld16 data 0;
        rptype ← ld16 data 2;
        rtpa ← ld32 data 14;
        let reply := arp_packet rhtype rptype 6 4 (net_htons ARP_OP_REPLY) mac (net_htonl (ni_ip (n_if n))) sha rtpa in
        '(_, n) ← eth_transmit n sha ETH_TYPE_ARP reply;
        Ok n
      else Ok n.

Definition arp_send_request n (target_ip : Z) : res net :=
  mac ← slice (ni_mac (n_if n)) 0 6;
  let req := arp_packet (net_htons ARP_HTYPE_ETH) (net_htons ARP_PTYPE_IP) 6 4 (net_htons ARP_OP_REQUEST)
               mac (net_htonl (ni_ip (n_if n))) [0; 0; 0; 0; 0; 0] (net_htonl target_ip) in
  '(_, n) ← eth_transmit n [255; 255; 255; 255; 255; 255] ETH_TYPE_ARP req;
  Ok n.

(** A wait: time passes and frames arrive. *)
Definition pit_delay_ms n (ms : Z) : net :=
  match n_env n with
  | [] => with_ring n (n_ring n) [] (n_now n + ms * 1000)
  | fs :: env => with_ring n (n_ring n ++ fs) env (n_now n + ms * 1000)
  end.

(** The MAC of a cache entry. *)
Definition entry_mac n (i : nat) : list Z := default [] (ae_mac <$> arp_cache n !! i).

(** Draining the card while a frame is being dispatched is refused. *)
Definition poll_busy n : res net := Ok n.

(** [poll] drains the card. *)
Fixpoint arp_wait (poll : net -> res net) (fuel : nat) (retry : Z) n (ip : Z) : res (option (list Z) * net) :=
  match fuel with
  | O => Ok (None, n)
  | S fuel =>
      n ← poll (pit_delay_ms n 2);
      let '(n, r) := arp_find n ip in
      match r with
      | Some i => Ok (Some (entry_mac n i), n)
      | None =>
          if n_rx_busy n then Ok (None, n)
          else
            n ← (if retry mod 50 =? 49 then arp_send_request n ip else Ok n);
            arp_wait poll fuel (retry + 1) n ip
      end
  end.

(** [None] stands for -1. *)
Definition arp_resolve (poll : net -> res net) n (ip : Z) : res (option (list Z) * net) :=
  if ip =? 4294967295 then Ok (Some [255; 255; 255; 255; 255; 255], n)
  else
    let i := n_if n in
    let ip := if negb (Z.land (ni_ip i) (ni_netmask i) =? Z.land ip (ni_netmask i)) && truthy (ni_gateway i)
              then ni_gateway i else ip in
    let '(n, r) := arp_find n ip in
    match r with
    | Some e => Ok (Some (entry_mac n e), n)
    | None =>
        n ← arp_send_request n ip;
        arp_wait poll 500 0 n ip
    end.

(** ** IPv4 *)

(** The header with the given checksum field. *)
Definition ipv4_header (total_len proto cksum src dst : Z) : list Z :=
  [Z.lor (Z.shiftl 4 4) 5; 0] ++ le16 (net_htons total_len) ++ le16 0 ++ le16 64 ++ [64; proto] ++ le16 cksum ++
  le32 (net_htonl src) ++ le32 (net_htonl dst).

Definition next_hop (i : netif) (dst_ip : Z) : Z :=
  if truthy (ni_ip i) && truthy (ni_netmask i) && negb (Z.land dst_ip (ni_netmask i) =? Z.land (ni_ip i) (ni_netmask i))
  then if truthy (ni_gateway i) then ni_gateway i else dst_ip
  else dst_ip.

Definition ipv4_transmit (poll : net -> res net) n (dst_ip proto : Z) (payload : list Z) : res (Z * net) :=
  let total_len := u16 (20 + zlen payload) in
  if NET_MAX_PACKET <? total_len then Ok (-1, n)
  else
    let src := ni_ip (n_if n) in
    cksum ← ip_checksum (ipv4_header total_len proto 0 src dst_ip);
    _ ← fits NET_MAX_PACKET (20 + zlen payload);
    let packet := ipv4_header total_len proto cksum src dst_ip ++ payload in
    '(r, n) ← (if dst_ip =? 4294967295 then Ok (Some [255; 255; 255; 255; 255; 255], n)
               else arp_resolve poll n (next_hop (n_if n) dst_ip));
    match r with
    | None => Ok (-1, n)
    | Some mac => eth_transmit n mac ETH_TYPE_IP packet
    end.

(** ** ICMP *)

Definition icmp_header (type code cksum id seq : Z) : list Z := [type; code] ++ le16 cksum ++ le16 id ++ le16 seq.

(** An echo packet with its checksum; [id] and [seq] as they lie in memory. *)
Definition icmp_packet (type id seq : Z) (payload : list Z) : res (list Z) :=
  cksum ← ip_checksum (icmp_header type 0 0 id seq ++ payload);
  Ok (icmp_header type 0 cksum id seq ++ payload).

Definition icmp_receive n (src_ip : Z) (data : list Z) : res net :=
  if zlen data <? 8 then Ok n
  else
    type ← ld data 0;
    id ← ld16 data 4;
    seq ← ld16 data 6;
    if type =? ICMP_TYPE_ECHO_REQUEST then
      let payload_len := Z.min (zlen data - 8) (NET_MAX_PACKET - 8) in
      payload ← slice data 8 payload_len;
      _ ← fits NET_MAX_PACKET (8 + zlen payload);
      packet ← icmp_packet ICMP_TYPE_ECHO_REPLY id seq payload;
      '(_, n) ← ipv4_transmit poll_busy n src_ip IP_PROTO_ICMP packet;
      Ok n
    else if type =? ICMP_TYPE_ECHO_REPLY then
      if (net_htons seq =? ping_seq n) && (net_htons id =? PING_ID) && (src_ip =? ping_peer n)
      then Ok (with_ping n true (ping_seq n) (ping_peer n)) else Ok n
    else Ok n.

(** ** UDP *)

(** Only the flags and the count are cleared. *)
Definition udp_init n : net :=
  with_udp n (map (fun s => mk_udp (us_local_port s) (us_remote_ip s) (us_remote_port s) false false (us_rx_buf s) 0) (udp_sockets n)) (udp_next n).

Fixpoint index_of {B} (f : B -> bool) (i : nat) (l : list B) : option nat :=
  match l with
  | [] => None
  | x :: l => if f x then Some i else index_of f (S i) l
  end.

Definition udp_bound_to (port : Z) (s : udp_socket) : bool := us_used s && us_bound s && (us_local_port s =? port).

Definition udp_receive n (src_ip : Z) (data : list Z) : res net :=
  if zlen data <? 8 then Ok n
  else
    src_port ← swap16 data 0;
    dst_port ← swap16 data 2;
    udp_len ← swap16 data 4;
    let udp_len := Z.min udp_len (zlen data) in
    if udp_len <? 8 then Ok n
    else
      payload ← slice data 8 (udp_len - 8);
      match index_of (udp_bound_to dst_port) 0 (udp_sockets n) with
      | None => Ok n
      | Some i =>
          match udp_sockets n !! i with
          | None => Ok n
          | Some s =>
              if truthy (us_rx_count s) then Ok n
              else
                d ← slice payload 0 (Z.min (zlen payload) UDP_RX_BUFSZ);
                buf ← overwrite (us_rx_buf s) d;
                let s := mk_udp (us_local_port s) src_ip src_port (us_bound s) (us_used s) buf (zlen d) in
                let n := with_udp n (<[i := s]> (udp_sockets n)) (udp_next n) in
                Ok (with_wakes n (n_wakes n ++ [1]))
          end
      end.

(** The index of a socket stands for its address. *)
Definition udp_socket_create n : option nat * net :=
  match index_of (fun s => negb (us_used s)) 0 (udp_sockets n) with
  | None => (None, n)
  | Some i =>
      (Some i, with_udp n (alter (fun s => mk_udp 0 (us_remote_ip s) (us_remote_port s) false true (us_rx_buf s) 0) i (udp_sockets n)) (udp_next n))
  end.

Definition udp_socket_close n (i : nat) : net :=
  with_udp n (alter (fun s => mk_udp (us_local_port s) (us_remote_ip s) (us_remote_port s) (us_bound s) false (us_rx_buf s) (us_rx_count s)) i
                (udp_sockets n)) (udp_next n).

Definition set_port (port : Z) (s : udp_socket) : udp_socket :=
  mk_udp port (us_remote_ip s) (us_remote_port s) true (us_used s) (us_rx_buf s) (us_rx_count s).

Definition udp_bind n (i : nat) (port : Z) : Z * net :=
  match udp_sockets n !! i with
  | Some s => if us_used s then (0, with_udp n (alter (set_port port) i (udp_sockets n)) (udp_next n)) else (-1, n)
  | None => (-1, n)
  end.

(** The port and the next candidate; 0 when none of [tries] is free. *)
Fixpoint udp_ephemeral_port (tries : nat) (socks : list udp_socket) (next : Z) : Z * Z :=
  match tries with
  | O => (0, next)
  | S tries =>
      let p := next in
      let next := u16 (next + 1) in
      let next := if next <? 49152 then 49152 else next in
      if existsb (udp_bound_to p) socks then udp_ephemeral_port tries socks next else (p, next)
  end.

Definition udp_header (src_port dst_port len : Z) : list Z :=
  le16 (net_htons src_port) ++ le16 (net_htons dst_port) ++ le16 (net_htons len) ++ le16 0.

Definition udp_sendto (poll : net -> res net) n (i : nat) (dst_ip dst_port : Z) (data : list Z) : res (Z * net) :=
  match udp_sockets n !! i with
  | None => Ok (-1, n)
  | Some s =>
      if negb (us_used s) then Ok (-1, n)
      else
        let '(ok, n) :=
          if us_bound s then (true, n)
          else
            let '(p, next) := udp_ephemeral_port (Z.to_nat 16384) (udp_sockets n) (udp_next n) in
            if p =? 0 then (false, with_udp n (udp_sockets n) next)
            else (true, with_udp n (alter (set_port p) i (udp_sockets n)) next) in
        if negb ok then Ok (-1, n)
        else if NET_MTU - 20 - 8 <? zlen data then Ok (-1, n)
        else
          let total := 8 + zlen data in
          let port := default 0 (us_local_port <$> udp_sockets n !! i) in
          _ ← fits NET_MAX_PACKET total;
          ipv4_transmit poll n dst_ip IP_PROTO_UDP (udp_header port dst_port total ++ data)
  end.

(** The datagram and its sender; [None] stands for -1. A turn takes ten
    milliseconds, and [waited] is a [uint32_t]. *)
Fixpoint udp_recv_wait (poll : net -> res net) (fuel : nat) n (i : nat) (maxlen timeout_ms waited : Z) : res (option (list Z * Z * Z) * net) :=
  match fuel with
  | O => Timeout
  | S fuel =>
      if waited <? timeout_ms then
        n ← poll n;
        match udp_sockets n !! i with
        | None => Ok (None, n)
        | Some s =>
            if 0 <? us_rx_count s then
              d ← slice (us_rx_buf s) 0 (Z.min (us_rx_count s) maxlen);
              let s' := mk_udp (us_local_port s) (us_remote_ip s) (us_remote_port s) (us_bound s) (us_used s) (us_rx_buf s) 0 in
              Ok (Some (d, us_remote_ip s, us_remote_port s), with_udp n (<[i := s']> (udp_sockets n)) (udp_next n))
            else udp_recv_wait poll fuel (pit_delay_ms n 10) i maxlen timeout_ms (u32 (waited + 10))
        end
      else Ok (None, n)
  end.

(** The turns are enough for every timeout that [waited] reaches, up to
    4294967290; above, it wraps around, and the wait ends only with a
    datagram: [Timeout] then says that none has come in these turns. *)
Definition udp_recvfrom (poll : net -> res net) n (i : nat) (maxlen timeout_ms : Z) : res (option (list Z * Z * Z) * net) :=
  match udp_sockets n !! i with
  | Some s =>
      if us_used s then udp_recv_wait poll (S (Z.to_nat ((timeout_ms + 9) / 10))) n i maxlen timeout_ms 0 else Ok (None, n)
  | None => Ok (None, n)
  end.
End net.
