(* ===== verification/Tcp.v ===== *)
(** * TCP

    src/src/kernel/net/tcp.c: segments, the ring of received bytes, the
    receive state machine and the retransmission timer. The calls that wait
    for the peer are in Stack.v. *)

From S2P Require Import Prelude Net.

Definition TCP_RX_BUFSZ : Z := 65536.
Definition TCP_MSS : Z := 1400.
Definition TCP_RETRIES : Z := 8.
Definition TCP_RTO_MS : Z := 300.
Definition TCP_MAX_SOCKETS : nat := 8.

Definition TCP_FLAG_FIN : Z := 1.
Definition TCP_FLAG_SYN : Z := 2.
Definition TCP_FLAG_RST : Z := 4.
Definition TCP_FLAG_PSH : Z := 8.
Definition TCP_FLAG_ACK : Z := 16.

Definition has (flags flag : Z) : bool := truthy (Z.land flags flag).

(** ** Updates of a socket *)

Definition set_used (b : bool) (s : tcp_socket) : tcp_socket :=
  mk_tcp b (ts_state s) (ts_remote_ip s) (ts_remote_port s) (ts_local_port s) (ts_iss s) (ts_snd_una s) (ts_snd_nxt s) (ts_tx_seg s)
    (ts_tx_len s) (ts_tx_flags s) (ts_tx_time_us s) (ts_tx_retries s) (ts_fin_queued s) (ts_rcv_nxt s) (ts_rx_buf s) (ts_rx_head s)
    (ts_rx_tail s) (ts_rx_fin s).
Definition set_tstate (st : tcp_state) (s : tcp_socket) : tcp_socket :=
  mk_tcp (ts_used s) st (ts_remote_ip s) (ts_remote_port s) (ts_local_port s) (ts_iss s) (ts_snd_una s) (ts_snd_nxt s) (ts_tx_seg s)
    (ts_tx_len s) (ts_tx_flags s) (ts_tx_time_us s) (ts_tx_retries s) (ts_fin_queued s) (ts_rcv_nxt s) (ts_rx_buf s) (ts_rx_head s)
    (ts_rx_tail s) (ts_rx_fin s).
Definition set_remote (ip port : Z) (s : tcp_socket) : tcp_socket :=
  mk_tcp (ts_used s) (ts_state s) ip port (ts_local_port s) (ts_iss s) (ts_snd_una s) (ts_snd_nxt s) (ts_tx_seg s)
    (ts_tx_len s) (ts_tx_flags s) (ts_tx_time_us s) (ts_tx_retries s) (ts_fin_queued s) (ts_rcv_nxt s) (ts_rx_buf s) (ts_rx_head s)
    (ts_rx_tail s) (ts_rx_fin s).
Definition set_local (port : Z) (s : tcp_socket) : tcp_socket :=
  mk_tcp (ts_used s) (ts_state s) (ts_remote_ip s) (ts_remote_port s) port (ts_iss s) (ts_snd_una s) (ts_snd_nxt s) (ts_tx_seg s)
    (ts_tx_len s) (ts_tx_flags s) (ts_tx_time_us s) (ts_tx_retries s) (ts_fin_queued s) (ts_rcv_nxt s) (ts_rx_buf s) (ts_rx_head s)
    (ts_rx_tail s) (ts_rx_fin s).
Definition set_snd (iss una nxt : Z) (s : tcp_socket) : tcp_socket :=
  mk_tcp (ts_used s) (ts_state s) (ts_remote_ip s) (ts_remote_port s) (ts_local_port s) iss una nxt (ts_tx_seg s)
    (ts_tx_len s) (ts_tx_flags s) (ts_tx_time_us s) (ts_tx_retries s) (ts_fin_queued s) (ts_rcv_nxt s) (ts_rx_buf s) (ts_rx_head s)
    (ts_rx_tail s) (ts_rx_fin s).
Definition set_tx (seg : list Z) (len flags : Z) (fin : bool) (s : tcp_socket) : tcp_socket :=
  mk_tcp (ts_used s) (ts_state s) (ts_remote_ip s) (ts_remote_port s) (ts_local_port s) (ts_iss s) (ts_snd_una s) (ts_snd_nxt s) seg
    len flags (ts_tx_time_us s) (ts_tx_retries s) fin (ts_rcv_nxt s) (ts_rx_buf s) (ts_rx_head s)
    (ts_rx_tail s) (ts_rx_fin s).
Definition set_timer (time retries : Z) (s : tcp_socket) : tcp_socket :=
  mk_tcp (ts_used s) (ts_state s) (ts_remote_ip s) (ts_remote_port s) (ts_local_port s) (ts_iss s) (ts_snd_una s) (ts_snd_nxt s) (ts_tx_seg s)
    (ts_tx_len s) (ts_tx_flags s) time retries (ts_fin_queued s) (ts_rcv_nxt s) (ts_rx_buf s) (ts_rx_head s)
    (ts_rx_tail s) (ts_rx_fin s).
Definition set_rcv (nxt : Z) (s : tcp_socket) : tcp_socket :=
  mk_tcp (ts_used s) (ts_state s) (ts_remote_ip s) (ts_remote_port s) (ts_local_port s) (ts_iss s) (ts_snd_una s) (ts_snd_nxt s) (ts_tx_seg s)
    (ts_tx_len s) (ts_tx_flags s) (ts_tx_time_us s) (ts_tx_retries s) (ts_fin_queued s) nxt (ts_rx_buf s) (ts_rx_head s)
    (ts_rx_tail s) (ts_rx_fin s).
Definition set_ring (buf : gmap Z Z) (head tail : Z) (s : tcp_socket) : tcp_socket :=
  mk_tcp (ts_used s) (ts_state s) (ts_remote_ip s) (ts_remote_port s) (ts_local_port s) (ts_iss s) (ts_snd_una s) (ts_snd_nxt s) (ts_tx_seg s)
    (ts_tx_len s) (ts_tx_flags s) (ts_tx_time_us s) (ts_tx_retries s) (ts_fin_queued s) (ts_rcv_nxt s) buf head tail (ts_rx_fin s).
Definition set_rx_fin (b : bool) (s : tcp_socket) : tcp_socket :=
  mk_tcp (ts_used s) (ts_state s) (ts_remote_ip s) (ts_remote_port s) (ts_local_port s) (ts_iss s) (ts_snd_una s) (ts_snd_nxt s) (ts_tx_seg s)
    (ts_tx_len s) (ts_tx_flags s) (ts_tx_time_us s) (ts_tx_retries s) (ts_fin_queued s) (ts_rcv_nxt s) (ts_rx_buf s) (ts_rx_head s)
    (ts_rx_tail s) b.

(** [memset(s, 0, sizeof( *s))] *)
Definition zero_tcp : tcp_socket :=
  mk_tcp false TCP_CLOSED 0 0 0 0 0 0 (replicate (Z.to_nat TCP_MSS) 0) 0 0 0 0 false 0 ∅ 0 0 false.

Definition put_tcp n (i : nat) (s : tcp_socket) : net := with_tcp n (<[i := s]> (tcp_sockets n)) (tcp_next n) (isn_state n).

Definition tcp_init n : net :=
  with_tcp n (map (fun s => set_tstate TCP_CLOSED (set_used false s)) (tcp_sockets n)) (tcp_next n) (isn_state n).

Definition tcp_socket_create n : option nat * net :=
  match index_of (fun s => negb (ts_used s)) 0 (tcp_sockets n) with
  | None => (None, n)
  | Some i => (Some i, put_tcp n i (set_used true zero_tcp))
  end.

Definition tcp_socket_close n (i : nat) : net :=
  with_tcp n (alter (fun s => set_tstate TCP_CLOSED (set_used false s)) i (tcp_sockets n)) (tcp_next n) (isn_state n).

(** Another socket than [i] that is in use has this port. *)
Definition port_taken (socks : list tcp_socket) (i : nat) (port : Z) : bool :=
  existsb (fun js => negb (js.1 =? i)%nat && ts_used js.2 && (ts_local_port js.2 =? port)) (imap pair socks).

Definition tcp_bind n (i : nat) (port : Z) : Z * net :=
  match tcp_sockets n !! i with
  | Some s => if negb (ts_used s) then (-1, n)
              else if port_taken (tcp_sockets n) i port then (-1, n)
              else (0, put_tcp n i (set_local port s))
  | None => (-1, n)
  end.

(** ** Initial sequence numbers *)

Definition tcp_isn n : Z * net :=
  let x := if isn_state n =? 0 then Z.lor (u32 (n_now n)) 1 else isn_state n in
  let x := Z.lxor x (u32 (Z.shiftl x 13)) in
  let x := Z.lxor x (Z.shiftr x 17) in
  let x := Z.lxor x (u32 (Z.shiftl x 5)) in
  (x, with_tcp n (tcp_sockets n) (tcp_next n) x).

(** ** Segments *)

Definition pseudo_header (src_ip dst_ip seg_len : Z) : list Z :=
  [u8 (Z.shiftr src_ip 24); u8 (Z.shiftr src_ip 16); u8 (Z.shiftr src_ip 8); u8 src_ip;
   u8 (Z.shiftr dst_ip 24); u8 (Z.shiftr dst_ip 16); u8 (Z.shiftr dst_ip 8); u8 dst_ip;
   0; IP_PROTO_TCP; u8 (Z.shiftr seg_len 8); u8 seg_len].

Definition tcp_checksum (src_ip dst_ip : Z) (seg : list Z) : res Z :=
  if zlen seg =? 65535 then Timeout
  else
    sum ← fold_carry 4 (sum_words seg (sum_words (pseudo_header src_ip dst_ip (zlen seg)) 0));
    Ok (u16 (Z.lnot sum)).

Definition tcp_header (src_port dst_port seq ack off flags win cksum : Z) : list Z :=
  le16 (net_htons src_port) ++ le16 (net_htons dst_port) ++ le32 (net_htonl seq) ++ le32 (net_htonl ack) ++
  [off; flags] ++ le16 (net_htons win) ++ le16 cksum ++ le16 0.

(** The bytes the ring can still take. *)
Definition tcp_window (s : tcp_socket) : Z := u16 (TCP_RX_BUFSZ - 1 - u16 (Z.rem (ts_rx_head s - ts_rx_tail s) TCP_RX_BUFSZ)).

Definition mss_option : list Z := [2; 4; Z.land (Z.shiftr TCP_MSS 8) 255; Z.land TCP_MSS 255].

(** A segment with the given checksum field. *)
Definition tcp_segment (s : tcp_socket) (seq flags cksum : Z) (payload : list Z) : list Z :=
  tcp_header (ts_local_port s) (ts_remote_port s) seq (ts_rcv_nxt s) (u8 (Z.shiftl (24 / 4) 4)) flags (tcp_window s) cksum ++
  mss_option ++ payload.

Section tcp.
Context (nic_send : frame -> Z).

Definition tcp_transmit_seg (poll : net -> res net) n (s : tcp_socket) (seq flags : Z) (payload : list Z) : res (Z * net) :=
  let total := u16 (24 + zlen payload) in
  if NET_MAX_PACKET - 20 <? total then Ok (-1, n)
  else
    _ ← fits NET_MAX_PACKET (24 + zlen payload);
    cksum ← tcp_checksum (ni_ip (n_if n)) (ts_remote_ip s) (tcp_segment s seq flags 0 payload);
    ipv4_transmit nic_send poll n (ts_remote_ip s) IP_PROTO_TCP (tcp_segment s seq flags cksum payload).

(** ** The ring of received bytes *)

Fixpoint rx_push (buf : gmap Z Z) (head tail : Z) (data : list Z) : gmap Z Z * Z :=
  match data with
  | [] => (buf, head)
  | b :: data =>
      let next := u16 ((head + 1) mod TCP_RX_BUFSZ) in
      if next =? tail then (buf, head) else rx_push (<[head := b]> buf) next tail data
  end.

Definition tcp_rx_push (s : tcp_socket) (data : list Z) : tcp_socket :=
  let '(buf, head) := rx_push (ts_rx_buf s) (ts_rx_head s) (ts_rx_tail s) data in
  set_ring buf head (ts_rx_tail s) s.

Definition wake n (max : Z) : net := with_wakes n (n_wakes n ++ [max]).

(** ** The receive state machine *)

(** The acknowledgement of a segment retires the one being sent. *)
Definition process_ack (s : tcp_socket) (ack : Z) : tcp_socket :=
  if (0 <? s32 (u32 (ack - ts_snd_una s))) && (0 <=? s32 (u32 (ts_snd_nxt s - ack)))
  then set_timer 0 0 (set_tx (ts_tx_seg s) 0 (ts_tx_flags s) false (set_snd (ts_iss s) ack (ts_snd_nxt s) s))
  else s.

Definition after_fin (st : tcp_state) : tcp_state :=
  match st with
  | TCP_ESTABLISHED => TCP_CLOSE_WAIT
  | TCP_FIN_WAIT1 => TCP_CLOSING
  | TCP_FIN_WAIT2 => TCP_TIME_WAIT
  | st => st
  end.

(** The transitions on the acknowledgement of our own FIN. *)
Definition after_ack (s : tcp_socket) : tcp_socket :=
  let s := if bool_decide (ts_state s = TCP_FIN_WAIT1) && (ts_tx_len s =? 0) && negb (ts_fin_queued s)
           then set_tstate TCP_FIN_WAIT2 s else s in
  if bool_decide (ts_state s = TCP_CLOSING) && (ts_tx_len s =? 0) then set_tstate TCP_TIME_WAIT s else s.

(** Socket [i] takes a segment in a state with a connection. *)
Definition tcp_data n (i : nat) (s : tcp_socket) (seq ack flags : Z) (payload : list Z) : res net :=
  let s := if has flags TCP_FLAG_ACK then process_ack s ack else s in
  '(s, n) ← (if 0 <? zlen payload then
               let '(s, n) := if seq =? ts_rcv_nxt s
                              then (set_rcv (u32 (ts_rcv_nxt s + zlen payload)) (tcp_rx_push s payload), wake n 1) else (s, n) in
               '(_, n) ← tcp_transmit_seg poll_busy (put_tcp n i s) s (ts_snd_nxt s) TCP_FLAG_ACK [];
               Ok (s, n)
             else Ok (s, put_tcp n i s));
  '(s, n) ← (if has flags TCP_FLAG_FIN then
               let fin_end := u32 (seq + zlen payload + 1) in
               let s := if ts_rcv_nxt s <? fin_end then set_rcv fin_end s else s in
               let s := set_rx_fin true s in
               let n := wake n (-1) in
               '(_, n) ← tcp_transmit_seg poll_busy (put_tcp n i s) s (ts_snd_nxt s) TCP_FLAG_ACK [];
               Ok (set_tstate (after_fin (ts_state s)) s, n)
             else Ok (s, n));
  Ok (put_tcp n i (after_ack s)).

Definition tcp_syn_sent n (i : nat) (s : tcp_socket) (seq ack flags : Z) (payload : list Z) : res net :=
  if has flags TCP_FLAG_SYN && has flags TCP_FLAG_ACK then
    if negb (ack =? u32 (ts_iss s + 1)) then Ok n
    else
      let s := set_rcv (u32 (seq + 1)) s in
      let s := set_snd (ts_iss s) ack (ts_snd_nxt s) s in
      let s := set_timer 0 0 (set_tstate TCP_ESTABLISHED s) in
      let s := set_rcv (u32 (ts_rcv_nxt s + zlen payload)) s in
      let s := tcp_rx_push s payload in
      let n := wake (put_tcp n i s) 1 in
      '(_, n) ← tcp_transmit_seg poll_busy n s (ts_snd_nxt s) TCP_FLAG_ACK [];
      Ok n
  else Ok n.

(** The socket a segment is for. *)
Definition tcp_match (src_ip src_port dst_port : Z) (s : tcp_socket) : bool :=
  ts_used s && (ts_local_port s =? dst_port) && (ts_remote_port s =? src_port) && negb (bool_decide (ts_state s = TCP_CLOSED)) &&
  (ts_remote_ip s =? src_ip).

Definition tcp_receive n (src_ip : Z) (data : list Z) : res net :=
  if zlen data <? 20 then Ok n
  else
    src_port ← swap16 data 0;
    dst_port ← swap16 data 2;
    seq ← swap32 data 4;
    ack ← swap32 data 8;
    data_off ← ld data 12;
    flags ← ld data 13;
    let off := u8 (Z.shiftr data_off 4 * 4) in
    if (off <? 20) || (zlen data <? off) then Ok n
    else
      payload ← slice data off (zlen data - off);
      match index_of (tcp_match src_ip src_port dst_port) 0 (tcp_sockets n) with
      | None => Ok n
      | Some i =>
          match tcp_sockets n !! i with
          | None => Ok n
          | Some s =>
              ck ← tcp_checksum src_ip (ni_ip (n_if n)) data;
              if truthy ck then Ok n
              else if has flags TCP_FLAG_RST then Ok (put_tcp n i (set_tstate TCP_CLOSED s))
              else
                match ts_state s with
                | TCP_SYN_SENT => tcp_syn_sent n i s seq ack flags payload
                | TCP_ESTABLISHED | TCP_FIN_WAIT1 | TCP_FIN_WAIT2 | TCP_CLOSING => tcp_data n i s seq ack flags payload
                | TCP_LAST_ACK =>
                    if has flags TCP_FLAG_ACK && (ack =? ts_snd_nxt s) then Ok (put_tcp n i (set_tstate TCP_CLOSED s)) else Ok n
                | TCP_TIME_WAIT =>
                    if has flags TCP_FLAG_FIN then
                      '(_, n) ← tcp_transmit_seg poll_busy n s (ts_snd_nxt s) TCP_FLAG_ACK [];
                      Ok n
                    else Ok n
                | _ => Ok n
                end
          end
      end.

(** ** The retransmission timer *)

Definition tcp_poll (poll : net -> res net) n (i : nat) : res net :=
  match tcp_sockets n !! i with
  | None => Ok n
  | Some s =>
      if negb (ts_used s) || (ts_tx_len s =? 0) || (ts_tx_time_us s =? 0) then Ok n
      else if u64 (n_now n - ts_tx_time_us s) <? TCP_RTO_MS * 1000 then Ok n
      else if TCP_RETRIES <=? ts_tx_retries s then Ok (put_tcp n i (set_timer 0 (ts_tx_retries s) (set_tstate TCP_CLOSED s)))
      else
        d ← slice (ts_tx_seg s) 0 (ts_tx_len s);
        '(_, n) ← tcp_transmit_seg poll n s (ts_snd_una s) (ts_tx_flags s) d;
        match tcp_sockets n !! i with
        | None => Ok n
        | Some s => Ok (put_tcp n i (set_timer (n_now n) (ts_tx_retries s + 1) s))
        end
  end.

Definition tcp_send_seg_tracked (poll : net -> res net) n (i : nat) (flags : Z) (payload : list Z) : res net :=
  match tcp_sockets n !! i with
  | None => Ok n
  | Some s =>
      let payload := take (Z.to_nat TCP_MSS) payload in
      seg ← overwrite (ts_tx_seg s) payload;
      let s := set_tx seg (zlen payload) (Z.lor flags TCP_FLAG_ACK) (has flags TCP_FLAG_FIN) s in
      let s := set_timer (ts_tx_time_us s) 0 s in
      '(_, n) ← tcp_transmit_seg poll (put_tcp n i s) s (ts_snd_una s) (ts_tx_flags s) payload;
      match tcp_sockets n !! i with
      | None => Ok n
      | Some s => Ok (put_tcp n i (set_timer (n_now n) (ts_tx_retries s) s))
      end
  end.

Definition tcp_rx_ready n (i : nat) : bool :=
  match tcp_sockets n !! i with
  | Some s => ts_used s && (negb (ts_rx_head s =? ts_rx_tail s) || ts_rx_fin s)
  | None => false
  end.
End tcp.
