(* ===== verification/Stack.v ===== *)
(** * The network stack, put together

    The receive path of src/src/kernel/net from a frame of the card to the
    protocols (netif.c, ethernet.c, ipv4.c), and the calls that wait for the
    network: the echo request (icmp.c) and the connection calls of tcp.c. *)

From S2P Require Import Prelude Net Tcp.

Section stack.
Context (nic_send : frame -> Z).

(** ** Receiving *)

Definition ipv4_receive n (data : list Z) : res net :=
  if zlen data <? 20 then Ok n
  else
    ihl_version ← ld data 0;
    let version := Z.land (Z.shiftr ihl_version 4) 15 in
    let ihl := Z.land ihl_version 15 in
    if negb (version =? 4) then Ok n
    else if ihl <? 5 then Ok n
    else
      let hdr_len := ihl * 4 in
      if zlen data <? hdr_len then Ok n
      else
        hdr ← slice data 0 hdr_len;
        ck ← ip_checksum hdr;
        if truthy ck then Ok n
        else
          total_len ← swap16 data 2;
          let total_len := Z.min total_len (zlen data) in
          if total_len <? hdr_len then Ok n
          else
            src_ip ← swap32 data 12;
            dst ← swap32 data 16;
            proto ← ld data 9;
            let i := n_if n in
            let bcast := Z.lor (ni_ip i) (4294967295 - ni_netmask i) in
            if truthy (ni_ip i) && negb (dst =? ni_ip i) && negb (dst =? 4294967295) && negb (dst =? bcast) then Ok n
            else
              payload ← slice data hdr_len (total_len - hdr_len);
              if proto =? IP_PROTO_ICMP then icmp_receive nic_send n src_ip payload
              else if proto =? IP_PROTO_UDP then udp_receive n src_ip payload
              else if proto =? IP_PROTO_TCP then tcp_receive nic_send n src_ip payload
              else Ok n.

Definition eth_receive n (data : list Z) : res net :=
  if zlen data <? ETH_HDR_LEN then Ok n
  else
    type ← swap16 data 12;
    payload ← slice data ETH_HDR_LEN (zlen data - ETH_HDR_LEN);
    if type =? ETH_TYPE_ARP then arp_receive nic_send n payload
    else if type =? ETH_TYPE_IP then ipv4_receive n payload
    else Ok n.

Definition netif_receive n (data : frame) : res net :=
  if zlen data <? ETH_HDR_LEN then Ok n
  else if NET_MAX_PACKET <? zlen data then Ok n
  else
    n ← eth_receive (with_busy n true) data;
    Ok (with_busy n false).

Fixpoint receive_all n (fs : list frame) : res net :=
  match fs with
  | [] => Ok n
  | f :: fs => n ← netif_receive n f; receive_all n fs
  end.

(** The driver hands over the frames on the card. *)
Definition netif_poll n : res net :=
  if n_rx_busy n then Ok n
  else if ni_send (n_if n) then receive_all (with_ring n [] (n_env n) (n_now n)) (n_ring n)
  else Ok n.

(** ** Echo requests *)

(** The string Kil0yOS with its end. *)
Definition ping_payload : list Z := [75; 105; 108; 48; 121; 79; 83; 0].

(** Turns of ten milliseconds until the deadline or the reply. *)
Fixpoint ping_wait (fuel : nat) n (deadline : Z) : res net :=
  match fuel with
  | O => Timeout
  | S fuel =>
      if (n_now n <? deadline) && negb (ping_reply n)
      then n ← netif_poll n; ping_wait fuel (pit_delay_ms n 10) deadline
      else Ok n
  end.

(** The rest of the second. *)
Fixpoint ping_pace (fuel : nat) n (start : Z) : res net :=
  match fuel with
  | O => Timeout
  | S fuel => if n_now n - start <? 1000000 then n ← netif_poll n; ping_pace fuel (pit_delay_ms n 10) start else Ok n
  end.

Definition icmp_ping n (target_ip seq timeout_ms : Z) : res (Z * net) :=
  packet ← icmp_packet ICMP_TYPE_ECHO_REQUEST (net_htons PING_ID) (net_htons seq) ping_payload;
  let n := with_ping n false seq target_ip in
  let start := n_now n in
  let deadline := start + timeout_ms * 1000 in
  '(r, n) ← ipv4_transmit nic_send netif_poll n target_ip IP_PROTO_ICMP packet;
  if r <? 0 then Ok (-1, n)
  else
    n ← ping_wait (S (Z.to_nat (timeout_ms / 10 + 1))) n deadline;
    n ← ping_pace 102 n start;
    Ok (if ping_reply n then 0 else -1, n).

(** ** Connections *)

Definition sock n (i : nat) : res tcp_socket := match tcp_sockets n !! i with Some s => Ok s | None => Fault end.
Definition upd_sock n (i : nat) (f : tcp_socket -> tcp_socket) : net :=
  with_tcp n (alter f i (tcp_sockets n)) (tcp_next n) (isn_state n).

(** A port for socket [i], and the next candidate. *)
Fixpoint tcp_ephemeral (tries : nat) (socks : list tcp_socket) (i : nat) (next : Z) : option Z * Z :=
  match tries with
  | O => (None, next)
  | S tries =>
      let p := next in
      let next := u16 (next + 1) in
      if port_taken socks i p then tcp_ephemeral tries socks i (if next <? 49152 then 49152 else next) else (Some p, next)
  end.

(** Retransmission of a SYN or FIN from the waiting loops: [inr] when the
    retries are used up. *)
Definition resend n (i : nat) (seq : tcp_socket -> Z) (flags : tcp_socket -> Z) (rto : Z) : res (net * bool + net) :=
  s ← sock n i;
  if truthy (ts_tx_time_us s) && (rto <? u64 (n_now n - ts_tx_time_us s)) then
    if TCP_RETRIES <=? ts_tx_retries s then Ok (inr n)
    else
      '(_, n) ← tcp_transmit_seg nic_send netif_poll n s (seq s) (flags s) [];
      Ok (inl (upd_sock n i (fun s => set_timer (n_now n) (ts_tx_retries s + 1) s), true))
  else Ok (inl (n, false)).

(** [false]: ten seconds have passed. *)
Fixpoint connect_wait (fuel : nat) n (i : nat) (rto start : Z) : res (bool * net) :=
  match fuel with
  | O => Timeout
  | S fuel =>
      s ← sock n i;
      if negb (bool_decide (ts_state s = TCP_SYN_SENT)) then Ok (true, n)
      else
        n ← netif_poll n;
        s ← sock n i;
        if negb (bool_decide (ts_state s = TCP_SYN_SENT)) then Ok (true, n)
        else
          r ← resend n i ts_iss (fun _ => TCP_FLAG_SYN) rto;
          match r with
          | inr n => Ok (true, upd_sock n i (set_tstate TCP_CLOSED))
          | inl (n, again) =>
              let rto := if again && (rto <? 4000000) then rto * 2 else rto in
              if 10000000 <? n_now n - start then Ok (false, n)
              else connect_wait fuel (pit_delay_ms n 2) i rto start
          end
  end.

Definition tcp_connect n (i : nat) (ip port : Z) : res (Z * net) :=
  s ← sock n i;
  if negb (ts_used s) || negb (bool_decide (ts_state s = TCP_CLOSED)) then Ok (-1, n)
  else
    let n := upd_sock n i (set_remote ip port) in
    let n :=
      if ts_local_port s =? 0 then
        let '(p, next) := tcp_ephemeral (Z.to_nat 16384) (tcp_sockets n) i (tcp_next n) in
        let n := with_tcp n (tcp_sockets n) next (isn_state n) in
        match p with Some p => upd_sock n i (set_local p) | None => n end
      else n in
    s ← sock n i;
    if ts_local_port s =? 0 then Ok (-1, n)
    else
      let '(iss, n) := tcp_isn n in
      let s := set_snd iss iss (u32 (iss + 1)) s in
      let s := set_rx_fin false (set_ring (ts_rx_buf s) 0 0 (set_rcv 0 s)) in
      let s := set_tstate TCP_SYN_SENT s in
      '(_, n) ← tcp_transmit_seg nic_send netif_poll (put_tcp n i s) s iss TCP_FLAG_SYN [];
      let n := upd_sock n i (fun s => set_timer (n_now n) 0 (set_tx (ts_tx_seg s) 0 TCP_FLAG_SYN false s)) in
      '(done, n) ← connect_wait (Z.to_nat 5003) n i 500000 (n_now n);
      if negb done then Ok (-1, n)
      else
        let n := upd_sock n i (set_timer 0 0) in
        s ← sock n i;
        Ok (if bool_decide (ts_state s = TCP_ESTABLISHED) then 0 else -1, n).

(** The wait for the acknowledgement of a segment; [false] after 15 seconds. *)
Fixpoint send_wait (fuel : nat) n (i : nat) (start : Z) : res (bool * net) :=
  match fuel with
  | O => Timeout
  | S fuel =>
      s ← sock n i;
      if (ts_tx_len s =? 0) || negb (bool_decide (ts_state s = TCP_ESTABLISHED)) then Ok (true, n)
      else
        n ← netif_poll n;
        n ← tcp_poll nic_send netif_poll n i;
        s ← sock n i;
        if (ts_tx_len s =? 0) || negb (bool_decide (ts_state s = TCP_ESTABLISHED)) then Ok (true, n)
        else if 15000000 <? n_now n - start then Ok (false, n)
        else send_wait fuel (pit_delay_ms n 2) i start
  end.

(** [sent] bytes are acknowledged; [data] is left. *)
Fixpoint send_chunks (fuel : nat) n (i : nat) (data : list Z) (sent : Z) : res (Z * net) :=
  match fuel with
  | O => Timeout
  | S fuel =>
      if zlen data =? 0 then Ok (sent, n)
      else
        let chunk := Z.min (zlen data) TCP_MSS in
        let n := upd_sock n i (fun s => set_snd (ts_iss s) (ts_snd_una s) (u32 (ts_snd_nxt s + chunk)) s) in
        n ← tcp_send_seg_tracked nic_send netif_poll n i (Z.lor TCP_FLAG_ACK TCP_FLAG_PSH) (take (Z.to_nat chunk) data);
        '(ok, n) ← send_wait (Z.to_nat 7503) n i (n_now n);
        s ← sock n i;
        if negb ok || truthy (ts_tx_len s) then Ok (-1, n)
        else send_chunks fuel n i (drop (Z.to_nat chunk) data) (sent + chunk)
  end.

Definition tcp_send n (i : nat) (data : list Z) : res (Z * net) :=
  s ← sock n i;
  if negb (ts_used s) || negb (bool_decide (ts_state s = TCP_ESTABLISHED)) then Ok (-1, n)
  else send_chunks (S (length data)) n i data 0.

(** Up to [maxlen] bytes from the ring. *)
Fixpoint drain (maxlen : nat) (buf : gmap Z Z) (head tail : Z) : list Z * Z :=
  match maxlen with
  | O => ([], tail)
  | S maxlen =>
      if tail =? head then ([], tail)
      else let '(l, t) := drain maxlen buf head (u16 ((tail + 1) mod TCP_RX_BUFSZ)) in (default 0 (buf !! tail) :: l, t)
  end.

(** The bytes, or the negative or zero result. A turn takes two milliseconds;
    [waited] is a [uint32_t], and a timeout of 0xFFFFFFFF never ends the
    wait. *)
Fixpoint tcp_recv_wait (fuel : nat) n (i : nat) (maxlen : nat) (timeout_ms waited : Z) : res ((list Z + Z) * net) :=
  match fuel with
  | O => Timeout
  | S fuel =>
      n ← netif_poll n;
      s ← sock n i;
      if bool_decide (ts_state s = TCP_CLOSED) && (ts_rx_head s =? ts_rx_tail s) then Ok (inr (-1), n)
      else if negb (ts_rx_head s =? ts_rx_tail s) then
        let '(l, tail) := drain maxlen (ts_rx_buf s) (ts_rx_head s) (ts_rx_tail s) in
        let s := set_ring (ts_rx_buf s) (ts_rx_head s) tail s in
        '(_, n) ← tcp_transmit_seg nic_send netif_poll (put_tcp n i s) s (ts_snd_nxt s) TCP_FLAG_ACK [];
        Ok (inl l, n)
      else if ts_rx_fin s then Ok (inr 0, n)
      else if negb (timeout_ms =? 4294967295) && (timeout_ms <=? waited) then Ok (inr (-1), n)
      else tcp_recv_wait fuel (pit_delay_ms n 2) i maxlen timeout_ms (u32 (waited + 2))
  end.

(** The turns are enough for every timeout but 0xFFFFFFFF, whose wait ends
    only with data or the end of the connection: [Timeout] then says that
    neither has come in these turns. *)
Definition tcp_recv n (i : nat) (maxlen : nat) (timeout_ms : Z) : res ((list Z + Z) * net) :=
  s ← sock n i;
  if negb (ts_used s) then Ok (inr (-1), n) else tcp_recv_wait (S (Z.to_nat ((timeout_ms + 1) / 2))) n i maxlen timeout_ms 0.

(** The wait for the end of a connection, at most [limit] microseconds. *)
Fixpoint close_wait (fuel : nat) n (i : nat) (goon : tcp_state -> bool) (armed : tcp_socket -> bool) (limit start : Z) : res net :=
  match fuel with
  | O => Timeout
  | S fuel =>
      s ← sock n i;
      if negb (goon (ts_state s)) then Ok n
      else
        n ← netif_poll n;
        s ← sock n i;
        r ← (if armed s then resend n i ts_snd_una ts_tx_flags (TCP_RTO_MS * 1000) else Ok (inl (n, false)));
        match r with
        | inr n => Ok n
        | inl (n, _) => if limit <? n_now n - start then Ok n else close_wait fuel (pit_delay_ms n 2) i goon armed limit start
        end
  end.

Definition tcp_close n (i : nat) : res (Z * net) :=
  s ← sock n i;
  if negb (ts_used s) then Ok (-1, n)
  else
    match ts_state s with
    | TCP_CLOSED => Ok (0, upd_sock n i (set_used false))
    | TCP_CLOSE_WAIT =>
        let s := set_tstate TCP_LAST_ACK s in
        let s := set_timer (ts_tx_time_us s) 0 (set_tx (ts_tx_seg s) (ts_tx_len s) (Z.lor TCP_FLAG_ACK TCP_FLAG_FIN) (ts_fin_queued s) s) in
        let s := set_snd (ts_iss s) (ts_snd_una s) (u32 (ts_snd_nxt s + 1)) s in
        '(_, n) ← tcp_transmit_seg nic_send netif_poll (put_tcp n i s) s (u32 (ts_snd_nxt s - 1)) (ts_tx_flags s) [];
        let n := upd_sock n i (fun s => set_timer (n_now n) (ts_tx_retries s) s) in
        n ← close_wait (Z.to_nat 1503) n i (fun st => bool_decide (st = TCP_LAST_ACK)) (fun _ => true) 3000000 (n_now n);
        Ok (0, tcp_socket_close n i)
    | TCP_ESTABLISHED =>
        let s := set_tx (ts_tx_seg s) 1 (Z.lor TCP_FLAG_ACK TCP_FLAG_FIN) true s in
        let s := set_tstate TCP_FIN_WAIT1 (set_timer (ts_tx_time_us s) 0 s) in
        let s := set_snd (ts_iss s) (ts_snd_una s) (u32 (ts_snd_nxt s + 1)) s in
        '(_, n) ← tcp_transmit_seg nic_send netif_poll (put_tcp n i s) s (u32 (ts_snd_nxt s - 1)) (ts_tx_flags s) [];
        let n := upd_sock n i (fun s => set_timer (n_now n) (ts_tx_retries s) s) in
        n ← close_wait (Z.to_nat 4003) n i (fun st => negb (bool_decide (st = TCP_CLOSED)) && negb (bool_decide (st = TCP_TIME_WAIT)))
              (fun s => truthy (ts_tx_len s)) 8000000 (n_now n);
        Ok (0, tcp_socket_close n i)
    | _ => Ok (0, tcp_socket_close n i)
    end.
End stack.
