(* ===== verification/StackSafe.v ===== *)
(** * The network stack never leaves its objects

    An invariant of the stack's state, kept by every operation on every input:
    no access outside a packet, buffer or table, no fuel that runs out, and
    time that does not run backwards; hence the calls that wait return. *)

From S2P Require Import Prelude Net Tcp Stack.

(** ** The invariant *)

Definition udp_ok (s : udp_socket) : Prop := zlen (us_rx_buf s) = UDP_RX_BUFSZ /\ 0 <= us_rx_count s <= UDP_RX_BUFSZ.

Record tcp_ok (s : tcp_socket) : Prop := {
  to_seg : zlen (ts_tx_seg s) = TCP_MSS;
  to_len : 0 <= ts_tx_len s <= TCP_MSS;
  to_head : 0 <= ts_rx_head s < TCP_RX_BUFSZ;
  to_tail : 0 <= ts_rx_tail s < TCP_RX_BUFSZ
}.

(** At most one valid entry per address. *)
Definition arp_unique (c : list arp_entry) : Prop :=
  forall i j ei ej, c !! i = Some ei -> c !! j = Some ej -> ae_valid ei = true -> ae_valid ej = true -> ae_ip ei = ae_ip ej -> i = j.

Record net_ok (n : net) : Prop := {
  no_mac : zlen (ni_mac (n_if n)) = 6;
  no_cache : length (arp_cache n) = ARP_CACHE_SIZE;
  no_macs : Forall (fun e => zlen (ae_mac e) = 6) (arp_cache n);
  no_victim : 0 <= arp_next_victim n < 16;
  no_unique : arp_unique (arp_cache n);
  no_udp : Forall udp_ok (udp_sockets n);
  no_tcp : Forall tcp_ok (tcp_sockets n)
}.

(** What every operation keeps. *)
Record steps (n n' : net) : Prop := {
  sp_ok : net_ok n';
  sp_now : n_now n <= n_now n';
  sp_if : n_if n' = n_if n;
  sp_busy : n_rx_busy n' = n_rx_busy n;
  sp_udp : length (udp_sockets n') = length (udp_sockets n);
  sp_tcp : length (tcp_sockets n') = length (tcp_sockets n)
}.

Lemma steps_refl n : net_ok n -> steps n n.
Proof. by split. Qed.

Lemma steps_trans n1 n2 n3 : steps n1 n2 -> steps n2 n3 -> steps n1 n3.
Proof. intros [] []. split; congruence || lia || done. Qed.

(** The result of an operation with a value and of one without. *)
Definition safe2 {A} (n : net) (r : res (A * net)) : Prop := total (fun x => steps n x.2) r.
Definition safe (n : net) (r : res net) : Prop := total (steps n) r.

Lemma safe_trans n1 n2 r : steps n1 n2 -> safe n2 r -> safe n1 r.
Proof. intros H. destruct r; cbn; try done. by apply steps_trans. Qed.

Lemma safe2_trans {A} n1 n2 (r : res (A * net)) : steps n1 n2 -> safe2 n2 r -> safe2 n1 r.
Proof. intros H. destruct r as [[x n3]| | |]; cbn; try done. by apply steps_trans. Qed.

Lemma safe_bind n r (f : net -> res net) : safe n r -> (forall n', steps n n' -> safe n' (f n')) -> safe n (r ≫= f).
Proof. intros Hr Hf. eapply total_bind; [exact Hr|]. intros n' Hn. eapply safe_trans; [exact Hn|by apply Hf]. Qed.

Lemma safe_bind2 {A} n r (f : net -> res (A * net)) : safe n r -> (forall n', steps n n' -> safe2 n' (f n')) -> safe2 n (r ≫= f).
Proof. intros Hr Hf. eapply total_bind; [exact Hr|]. intros n' Hn. eapply safe2_trans; [exact Hn|by apply Hf]. Qed.

Lemma safe2_bind {A} n (r : res (A * net)) (f : A * net -> res net) :
  safe2 n r -> (forall x n', steps n n' -> safe n' (f (x, n'))) -> safe n (r ≫= f).
Proof. intros Hr Hf. eapply total_bind; [exact Hr|]. intros [x n'] Hn. eapply safe_trans; [exact Hn|by apply Hf]. Qed.

Lemma safe2_bind2 {A B} n (r : res (A * net)) (f : A * net -> res (B * net)) :
  safe2 n r -> (forall x n', steps n n' -> safe2 n' (f (x, n'))) -> safe2 n (r ≫= f).
Proof. intros Hr Hf. eapply total_bind; [exact Hr|]. intros [x n'] Hn. eapply safe2_trans; [exact Hn|by apply Hf]. Qed.

Lemma total_bind2 {A B} (Q : B -> Prop) n (r : res (A * net)) (f : A * net -> res B) :
  safe2 n r -> (forall x n', steps n n' -> total Q (f (x, n'))) -> total Q (r ≫= f).
Proof. intros Hr Hf. eapply total_bind; [exact Hr|]. intros [x n'] Hn. by apply Hf. Qed.

(** A load whose result does not touch the state. *)
Lemma pure_bind {A} n (r : res A) (Q : A -> Prop) (f : A -> res net) : total Q r -> (forall x, Q x -> safe n (f x)) -> safe n (r ≫= f).
Proof. intros Hr Hf. by eapply total_bind. Qed.

Lemma pure_bind2 {A B} n (r : res A) (Q : A -> Prop) (f : A -> res (B * net)) :
  total Q r -> (forall x, Q x -> safe2 n (f x)) -> safe2 n (r ≫= f).
Proof. intros Hr Hf. by eapply total_bind. Qed.

(** ** Packets *)

Lemma swap16_total buf off : 0 <= off -> off + 2 <= zlen buf -> total (fun _ => True) (swap16 buf off).
Proof. intros. unfold swap16. eapply total_bind; [by apply ld16_total|done]. Qed.
Lemma swap32_total buf off : 0 <= off -> off + 4 <= zlen buf -> total (fun _ => True) (swap32 buf off).
Proof. intros. unfold swap32. eapply total_bind; [by apply ld32_total|done]. Qed.

Lemma fits_total cap k : k <= cap -> total (fun _ => True) (fits cap k).
Proof. intros H. unfold fits. by rewrite (proj2 (Z.leb_le _ _) H). Qed.

Lemma overwrite_total a d : zlen d <= zlen a -> total (fun r => zlen r = zlen a) (overwrite a d).
Proof.
  intros H. unfold overwrite. rewrite (proj2 (Z.leb_le _ _) H). cbn. unfold zlen in *. rewrite length_app, length_drop. lia.
Qed.

(** ** Checksums *)

Lemma u32_range z : 0 <= u32 z < 2 ^ 32.
Proof. unfold u32. apply Z.mod_pos_bound. lia. Qed.

Lemma sum_words_range l sum : 0 <= sum < 2 ^ 32 -> 0 <= sum_words l sum < 2 ^ 32.
Proof.
  revert sum. assert (forall k l, (length l <= k)%nat -> forall sum, 0 <= sum < 2 ^ 32 -> 0 <= sum_words l sum < 2 ^ 32) as H.
  { clear. induction k as [|k IH]; intros l Hl sum Hs; [destruct l; simpl in Hl; [done|lia]|].
    destruct l as [|b0 [|b1 l]]; cbn [sum_words]; [done|apply u32_range|]. apply IH; [simpl in Hl; lia|apply u32_range]. }
  intros sum. by apply (H (length l)).
Qed.

(** One turn of the carry loop, as arithmetic. *)
Lemma fold_step sum : 0 <= sum < 2 ^ 32 -> u32 (Z.land sum 65535 + Z.shiftr sum 16) = sum mod 65536 + sum / 65536.
Proof.
  intros H. change 65535 with (Z.ones 16). rewrite Z.land_ones, Z.shiftr_div_pow2 by lia. change (2 ^ 16) with 65536.
  apply u32_small. mlia.
Qed.

Lemma fold_carry_step fuel sum :
  0 <= sum < 2 ^ 32 ->
  fold_carry (S fuel) sum = if sum <? 65536 then Ok sum else fold_carry fuel (sum mod 65536 + sum / 65536).
Proof.
  intros H. cbn [fold_carry]. rewrite fold_step by done. unfold truthy. rewrite Z.shiftr_div_pow2 by lia. change (2 ^ 16) with 65536.
  destruct (Z.ltb_spec sum 65536), (Z.eqb_spec (sum / 65536) 0); cbn; try done; mlia.
Qed.

(** The sum folds in at most three turns, and keeps its residue. *)
Lemma fold_carry_ok sum :
  0 <= sum < 2 ^ 32 -> total (fun r => 0 <= r < 65536 /\ r mod 65535 = sum mod 65535 /\ (r = 0 <-> sum = 0)) (fold_carry 4 sum).
Proof.
  intros H. assert (forall x, 0 <= x < 2 ^ 32 -> (x mod 65536 + x / 65536) mod 65535 = x mod 65535 /\
    0 <= x mod 65536 + x / 65536 < 2 ^ 32 /\ (x mod 65536 + x / 65536 = 0 <-> x = 0)) as Hs.
  { intros x Hx. split; [|split; mlia]. rewrite (Z.div_mod x 65536) at 3 by lia.
    replace (65536 * (x / 65536) + x mod 65536) with (x mod 65536 + x / 65536 + (x / 65536) * 65535) by lia.
    by rewrite Z.mod_add. }
  destruct (Hs sum H) as (E1 & R1 & Z1). set (s1 := sum mod 65536 + sum / 65536) in *.
  destruct (Hs s1 R1) as (E2 & R2 & Z2). set (s2 := s1 mod 65536 + s1 / 65536) in *.
  destruct (Hs s2 R2) as (E3 & R3 & Z3). set (s3 := s2 mod 65536 + s2 / 65536) in *.
  assert (s3 < 65536) by (unfold s3, s2, s1; mlia).
  rewrite fold_carry_step by done. destruct (Z.ltb_spec sum 65536); [cbn; lia|]. fold s1.
  rewrite fold_carry_step by done. destruct (Z.ltb_spec s1 65536); [cbn; lia|]. fold s2.
  rewrite fold_carry_step by done. destruct (Z.ltb_spec s2 65536); [cbn; lia|]. fold s3.
  rewrite fold_carry_step by done. destruct (Z.ltb_spec s3 65536); [cbn; lia|lia].
Qed.

Lemma ip_checksum_total l : zlen l <> 65535 -> total (fun _ => True) (ip_checksum l).
Proof.
  intros H. unfold ip_checksum. rewrite (proj2 (Z.eqb_neq _ _) H). eapply total_bind; [apply fold_carry_ok, sum_words_range; lia|done].
Qed.

Lemma tcp_checksum_total a b l : zlen l <> 65535 -> total (fun _ => True) (tcp_checksum a b l).
Proof.
  intros H. unfold tcp_checksum. rewrite (proj2 (Z.eqb_neq _ _) H).
  eapply total_bind; [apply fold_carry_ok; do 2 apply sum_words_range; lia|done].
Qed.

(** ** Updates of the state *)

Ltac update Hn := destruct Hn; split; cbn; first [lia | done | by split].

Section updates.
Context (n : net) (Hn : net_ok n).

Lemma steps_sent l : steps n (with_sent n l).
Proof. update Hn. Qed.
Lemma steps_wakes l : steps n (with_wakes n l).
Proof. update Hn. Qed.
Lemma steps_ping r s p : steps n (with_ping n r s p).
Proof. update Hn. Qed.
Lemma steps_ring r e t : n_now n <= t -> steps n (with_ring n r e t).
Proof. intros. update Hn. Qed.

Lemma steps_arp c v :
  length c = ARP_CACHE_SIZE -> Forall (fun e => zlen (ae_mac e) = 6) c -> 0 <= v < 16 -> arp_unique c -> steps n (with_arp n c v).
Proof. intros. update Hn. Qed.

Lemma steps_udp l p : length l = length (udp_sockets n) -> Forall udp_ok l -> steps n (with_udp n l p).
Proof. intros. update Hn. Qed.

Lemma steps_tcp l p i : length l = length (tcp_sockets n) -> Forall tcp_ok l -> steps n (with_tcp n l p i).
Proof. intros. update Hn. Qed.

Lemma steps_put i s : tcp_ok s -> steps n (put_tcp n i s).
Proof. intros H. apply steps_tcp; [apply length_insert|apply Forall_insert; [by apply no_tcp|done]]. Qed.

Lemma steps_upd i f : (forall s, tcp_ok s -> tcp_ok (f s)) -> steps n (upd_sock n i f).
Proof. intros H. apply steps_tcp; [apply length_alter|apply Forall_alter; [by apply no_tcp|auto]]. Qed.

Lemma steps_close i : steps n (tcp_socket_close n i).
Proof. apply steps_tcp; [apply length_alter|apply Forall_alter; [by apply no_tcp|]]. intros s _ []. by split. Qed.

Lemma steps_delay ms : 0 <= ms -> steps n (pit_delay_ms n ms).
Proof. intros H. unfold pit_delay_ms. destruct (n_env n); apply steps_ring; lia. Qed.

Lemma tcp_at i s : tcp_sockets n !! i = Some s -> tcp_ok s.
Proof. intros H. eapply Forall_lookup_1; [by apply no_tcp|exact H]. Qed.
End updates.

(** ** ARP *)

Lemma arp_scan_ok now ip i l :
  Forall (fun e => zlen (ae_mac e) = 6) l ->
  length (arp_scan now ip i l).1 = length l /\ Forall (fun e => zlen (ae_mac e) = 6) (arp_scan now ip i l).1.
Proof.
  revert i. induction l as [|e l IH]; intros i Hl; [done|]. apply Forall_cons_1 in Hl as [He Hl]. cbn [arp_scan].
  destruct (IH (S i) Hl) as [H1 H2]. destruct (arp_scan now ip (S i) l) as [l' r]. cbn in H1, H2.
  repeat match goal with |- context [if ?b then _ else _] => destruct b end; cbn; (split; [lia|by constructor]).
Qed.

(** What a search leaves: old entries invalidated, and the entry found. *)
Definition scanned (l l' : list arp_entry) : Prop :=
  forall k e', l' !! k = Some e' -> exists e, l !! k = Some e /\ (e' = e \/ e' = invalidate e).

Definition scan_result (now ip : Z) (l' : list arp_entry) (r : option nat) : Prop :=
  match r with
  | Some k => exists e, l' !! k = Some e /\ ae_valid e = true /\ ae_ip e = ip /\ u32 (now - ae_timestamp e) <= ARP_TIMEOUT_MS
  | None => forall k e, l' !! k = Some e -> ae_valid e = true -> ae_ip e <> ip
  end.

Lemma scanned_cons e e' l l' : (e' = e \/ e' = invalidate e) -> scanned l l' -> scanned (e :: l) (e' :: l').
Proof. intros He Hl [|k] x; cbn; [intros [= <-]; by exists e|apply Hl]. Qed.

Lemma scanned_refl l : scanned l l.
Proof. intros k e He. exists e. auto. Qed.

Lemma scan_result_cons now ip e l r :
  (ae_valid e = true -> ae_ip e <> ip) -> scan_result now ip l r -> scan_result now ip (e :: l) (S <$> r).
Proof. intros He. destruct r as [k|]; cbn; [done|]. intros Hr [|k] x; cbn; [by intros [= <-]|apply Hr]. Qed.

Lemma arp_scan_spec now ip i l :
  scanned l (arp_scan now ip i l).1 /\
  exists r, (arp_scan now ip i l).2 = (fun k => i + k)%nat <$> r /\ scan_result now ip (arp_scan now ip i l).1 r.
Proof.
  revert i. induction l as [|e l IH]; intros i; cbn [arp_scan].
  { split; [done|]. by exists None. }
  destruct (IH (S i)) as (H1 & r & H2 & H3). destruct (arp_scan now ip (S i) l) as [l' r']. cbn in H1, H2, H3.
  assert (r' = (fun k => i + k)%nat <$> (S <$> r)) as Hr by (rewrite H2; destruct r; cbn; [f_equal; lia|done]).
  destruct (ae_valid e) eqn:Hv; cbn [negb]; [|split; [apply scanned_cons; auto|exists (S <$> r); split; [done|by apply scan_result_cons; [rewrite Hv|]]]].
  destruct (Z.ltb_spec ARP_TIMEOUT_MS (u32 (now - ae_timestamp e))).
  { split; [apply scanned_cons; auto|]. exists (S <$> r). split; [done|by apply scan_result_cons]. }
  destruct (Z.eqb_spec (ae_ip e) ip) as [Hip|Hip].
  - split; [apply scanned_refl|]. exists (Some O). cbn. split; [f_equal; lia|]. by exists e.
  - split; [apply scanned_cons; auto|]. exists (S <$> r). split; [done|]. by apply scan_result_cons.
Qed.

Lemma scanned_unique l l' : scanned l l' -> arp_unique l -> arp_unique l'.
Proof.
  intros Hs Hu i j ei ej Hi Hj Hvi Hvj E. destruct (Hs i ei Hi) as (ei' & Hi' & [->| ->]); [|done].
  destruct (Hs j ej Hj) as (ej' & Hj' & [->| ->]); [|done]. by apply (Hu i j ei' ej').
Qed.

(** The search by index: what it finds and what it keeps. *)
Lemma arp_find_spec n ip n' r : arp_find n ip = (n', r) ->
  scanned (arp_cache n) (arp_cache n') /\ scan_result (arp_now_ms n) ip (arp_cache n') r /\ n_now n' = n_now n /\
  n' = with_arp n (arp_cache n') (arp_next_victim n).
Proof.
  unfold arp_find. destruct (arp_scan_spec (arp_now_ms n) ip 0 (arp_cache n)) as (H1 & r' & H2 & H3).
  destruct (arp_scan _ _ _ _) as [l x]. cbn in *. intros [= <- <-]. cbn. replace x with r'; [done|].
  rewrite H2. by destruct r'.
Qed.

Lemma arp_find_steps n ip : net_ok n -> steps n (arp_find n ip).1.
Proof.
  intros Hn. destruct (arp_scan_ok (arp_now_ms n) ip 0%nat (arp_cache n) (no_macs n Hn)) as [H1 H2].
  destruct (arp_scan_spec (arp_now_ms n) ip 0 (arp_cache n)) as [H3 _]. unfold arp_find.
  destruct (arp_scan _ _ _ _) as [l r]. cbn in *. apply steps_arp; [done|by rewrite H1; apply no_cache|done|by apply no_victim|].
  eapply scanned_unique; [exact H3|by apply no_unique].
Qed.

(** A new entry for an address no valid entry has. *)
Lemma insert_unique c k e : arp_unique c -> (forall j x, c !! j = Some x -> ae_valid x = true -> ae_ip x <> ae_ip e) -> arp_unique (<[k := e]> c).
Proof.
  intros Hu Hf i j ei ej Hi Hj Hvi Hvj E. apply list_lookup_insert_Some in Hi, Hj.
  destruct Hi as [(-> & <- & _)|(_ & Hi)], Hj as [(-> & <- & _)|(_ & Hj)]; try done.
  - by destruct (Hf j ej Hj Hvj).
  - by destruct (Hf i ei Hi Hvi).
  - by apply (Hu i j ei ej).
Qed.

(** New contents for an entry of the same address. *)
Lemma alter_unique c k f : arp_unique c -> (forall e, ae_ip (f e) = ae_ip e /\ ae_valid (f e) = ae_valid e) -> arp_unique (alter f k c).
Proof.
  intros Hu Hf i j ei ej Hi Hj Hvi Hvj E. assert (forall q x, alter f k c !! q = Some x -> exists y, c !! q = Some y /\ ae_ip x = ae_ip y /\ ae_valid x = ae_valid y) as Ha.
  { intros q x. rewrite list_lookup_alter. destruct (decide (k = q)) as [->|]; [|by exists x].
    destruct (c !! q) as [y|] eqn:Ey; cbn; [|done]. intros [= <-]. exists y. by destruct (Hf y) as [-> ->]. }
  destruct (Ha i ei Hi) as (yi & Hyi & E1 & V1), (Ha j ej Hj) as (yj & Hyj & E2 & V2). apply (Hu i j yi yj); congruence.
Qed.

Lemma free_slot_lt i l j : free_slot i l = Some j -> (j < i + length l)%nat.
Proof.
  revert i. induction l as [|e l IH]; intros i; [done|]. cbn. destruct (ae_valid e); [intros H%IH; lia|intros [= <-]; lia].
Qed.

(** The cache after an update: well formed, and with the mapping. *)
Lemma arp_cache_update_spec n ip mac :
  net_ok n -> zlen mac = 6 -> total (fun n' => steps n n' /\ n_now n' = n_now n /\ n_sent n' = n_sent n /\
    exists k, arp_cache n' !! k = Some (mk_arp ip mac (arp_now_ms n) true)) (arp_cache_update n ip mac).
Proof.
  intros Hn Hm. unfold arp_cache_update. pose proof (slice_ok mac 0 6 ltac:(lia) ltac:(lia) ltac:(lia)) as [-> _].
  rewrite drop_0, take_ge by (unfold zlen in Hm; lia). cbn [mbind res_bind].
  pose proof (arp_find_steps n ip Hn) as Hf. pose proof (arp_find_spec n ip) as Hs. destruct (arp_find n ip) as [n1 r]. cbn in Hf.
  destruct (Hs n1 r eq_refl) as (_ & Hr & Ht & Hn1eq). clear Hs. pose proof (sp_ok _ _ Hf) as Hn1. pose proof (no_victim _ Hn1).
  assert (arp_now_ms n1 = arp_now_ms n) as Hnow by (unfold arp_now_ms; by rewrite Ht).
  assert (n_sent n1 = n_sent n) as Hsent by (rewrite Hn1eq; done).
  assert (forall c v, steps n1 (with_arp n1 c v) -> (exists k, c !! k = Some (mk_arp ip mac (arp_now_ms n) true)) ->
    total (fun n' => steps n n' /\ n_now n' = n_now n /\ n_sent n' = n_sent n /\ exists k, arp_cache n' !! k = Some (mk_arp ip mac (arp_now_ms n) true))
      (Ok (with_arp n1 c v))) as Hend.
  { intros c v H1 H2. split; [exact (steps_trans _ _ _ Hf H1)|done]. }
  pose proof (no_cache _ Hn1) as Hc. rewrite Hnow. destruct r as [i|].
  - destruct Hr as (e & He & Hv & Hip & _). apply Hend.
    + apply steps_arp; [done|by rewrite length_alter|apply Forall_alter; [by apply no_macs|done]|done|apply alter_unique; [by apply no_unique|done]].
    + exists i. rewrite list_lookup_alter_eq, He. cbn. by rewrite Hip, Hv.
  - assert (arp_unique (arp_cache n1)) as Hu by (by apply no_unique).
    assert (forall slot v, (slot < 16)%nat -> 0 <= v < 16 -> total (fun n' => steps n n' /\ n_now n' = n_now n /\ n_sent n' = n_sent n /\
      exists k, arp_cache n' !! k = Some (mk_arp ip mac (arp_now_ms n) true)) (Ok (with_arp n1 (<[slot := mk_arp ip mac (arp_now_ms n) true]> (arp_cache n1)) v))) as Hslot.
    { intros slot v Hsl Hv. apply Hend.
      - apply steps_arp; [done|by rewrite length_insert|apply Forall_insert; [by apply no_macs|done]|done|by apply insert_unique].
      - exists slot. apply list_lookup_insert_eq. rewrite Hc. exact Hsl. }
    destruct (free_slot 0 (arp_cache n1)) as [slot|] eqn:Hfs; apply Hslot; try done; try lia.
    + apply free_slot_lt in Hfs. rewrite Hc in Hfs. exact Hfs.
    + change (Z.of_nat ARP_CACHE_SIZE) with 16. cint_lia.
Qed.

Lemma arp_cache_update_safe n ip mac : net_ok n -> zlen mac = 6 -> safe n (arp_cache_update n ip mac).
Proof.
  intros Hn Hm. pose proof (arp_cache_update_spec n ip mac Hn Hm) as H. apply total_Ok in H as (n' & -> & H & _). exact H.
Qed.

(** ** Sending *)

Section safe.
Context (nic_send : frame -> Z).

Lemma netif_send_steps n f : net_ok n -> steps n (netif_send nic_send n f).2.
Proof. intros Hn. unfold netif_send. destruct (ni_send (n_if n)); cbn; [by apply steps_sent|by apply steps_refl]. Qed.

Lemma eth_transmit_safe n mac type payload : net_ok n -> zlen mac = 6 -> safe2 n (eth_transmit nic_send n mac type payload).
Proof.
  intros Hn Hm. unfold eth_transmit. destruct (Z.ltb_spec NET_MTU (zlen payload)) as [|Hp]; [by apply steps_refl|].
  eapply pure_bind2; [apply slice_total; lia|]. intros dst Hd.
  pose proof (no_mac n Hn). eapply pure_bind2; [apply slice_total; lia|]. intros src Hs. cbn zeta.
  eapply pure_bind2; [apply fits_total|].
  - rewrite !zlen_app, zlen_le16, Hd, Hs. unfold NET_MTU, NET_MAX_PACKET in *. lia.
  - intros _ _. by apply netif_send_steps.
Qed.

Lemma zlen_arp_packet a b c d e s spa t tpa : zlen (arp_packet a b c d e s spa t tpa) = 16 + zlen s + zlen t.
Proof. unfold arp_packet. rewrite !zlen_app, !zlen_le16, !zlen_le32. change (zlen [c; d]) with 2. lia. Qed.

Lemma arp_send_request_safe n ip : net_ok n -> safe n (arp_send_request nic_send n ip).
Proof.
  intros Hn. unfold arp_send_request. pose proof (no_mac n Hn). eapply pure_bind; [apply slice_total; lia|]. intros mac Hm.
  eapply safe2_bind; [by apply eth_transmit_safe|]. intros r n' Hs. apply steps_refl. apply Hs.
Qed.

Lemma arp_receive_safe n data : net_ok n -> safe n (arp_receive nic_send n data).
Proof.
  intros Hn. unfold arp_receive. destruct (Z.ltb_spec (zlen data) 28) as [|Hd]; [by apply steps_refl|].
  do 3 (eapply pure_bind; [apply swap16_total; lia|]; intros ? _).
  destruct (negb _ || negb _); [by apply steps_refl|].
  eapply pure_bind; [apply slice_total; lia|]. intros sha Hsha. cbn beta in Hsha.
  do 2 (eapply pure_bind; [apply swap32_total; lia|]; intros ? _). cbn zeta.
  set (ours := (_ && _)). clearbody ours. eapply safe_bind.
  { destruct (_ || ours); [by apply arp_cache_update_safe|by apply steps_refl]. }
  intros n1 Hs1. pose proof (sp_ok _ _ Hs1) as Hn1. destruct ours; [|by apply steps_refl].
  pose proof (no_mac n1 Hn1). eapply pure_bind; [apply slice_total; lia|]. intros mac Hm.
  do 2 (eapply pure_bind; [apply ld16_total; lia|]; intros ? _). eapply pure_bind; [apply ld32_total; lia|]. intros ? _.
  eapply safe2_bind; [by apply eth_transmit_safe|]. intros r n' Hs. apply steps_refl. apply Hs.
Qed.

Definition poll_safe (poll : net -> res net) : Prop := forall n, net_ok n -> safe n (poll n).

Lemma poll_busy_safe : poll_safe poll_busy.
Proof. intros n Hn. by apply steps_refl. Qed.

(** The address found has six bytes. *)
Definition mac_safe n (r : res (option (list Z) * net)) : Prop :=
  total (fun x => steps n x.2 /\ forall m, x.1 = Some m -> zlen m = 6) r.

Lemma entry_mac_len n i : net_ok n -> (i < length (arp_cache n))%nat -> zlen (entry_mac n i) = 6.
Proof.
  intros Hn Hi. unfold entry_mac. destruct (lookup_lt_is_Some_2 _ _ Hi) as [e He]. rewrite He. cbn.
  exact (Forall_lookup_1 _ _ _ _ (no_macs n Hn) He).
Qed.

Lemma arp_scan_index now ip i l j : (arp_scan now ip i l).2 = Some j -> (i <= j < i + length l)%nat.
Proof.
  revert i. induction l as [|e l IH]; intros i; [done|]. cbn [arp_scan length]. specialize (IH (S i)).
  destruct (arp_scan now ip (S i) l) as [l' r]. cbn in IH.
  repeat match goal with |- context [if ?b then _ else _] => destruct b end; cbn; intros E;
    try (specialize (IH E); lia); injection E as <-; lia.
Qed.

Lemma arp_find_mac n ip n' i : net_ok n -> arp_find n ip = (n', Some i) -> zlen (entry_mac n' i) = 6.
Proof.
  intros Hn E. pose proof (arp_find_steps n ip Hn) as Hs. rewrite E in Hs. cbn in Hs. pose proof (sp_ok _ _ Hs) as Hn'.
  apply entry_mac_len; [done|]. rewrite (no_cache _ Hn'), <- (no_cache _ Hn). unfold arp_find in E.
  pose proof (arp_scan_index (arp_now_ms n) ip 0 (arp_cache n) i) as Hi.
  destruct (arp_scan _ _ _ _) as [l r]. injection E as _ ->. specialize (Hi eq_refl). lia.
Qed.

Lemma arp_wait_safe poll fuel retry n ip : poll_safe poll -> net_ok n -> mac_safe n (arp_wait nic_send poll fuel retry n ip).
Proof.
  intros Hp. revert retry n. induction fuel as [|fuel IH]; intros retry n Hn; [by split; [apply steps_refl|]|]. cbn [arp_wait].
  pose proof (steps_delay n Hn 2 ltac:(lia)) as Hd. pose proof (sp_ok _ _ Hd) as Hn1. set (n1 := pit_delay_ms n 2) in *. clearbody n1.
  eapply total_bind; [exact (Hp n1 Hn1)|]. intros n2 H2. pose proof (sp_ok _ _ H2) as Hn2.
  pose proof (arp_find_steps n2 ip Hn2) as Hf. pose proof (arp_find_mac n2 ip) as Hm.
  destruct (arp_find n2 ip) as [n3 r]. cbn in Hf. pose proof (steps_trans _ _ _ Hd (steps_trans _ _ _ H2 Hf)) as H3.
  pose proof (sp_ok _ _ H3) as Hn3. destruct r as [i|].
  - split; [exact H3|]. cbn. intros m [= <-]. by apply (Hm n3 i).
  - destruct (n_rx_busy n3); [by split|]. eapply total_bind.
    { instantiate (1 := steps n3). destruct (_ =? _); [by apply arp_send_request_safe|by apply steps_refl]. }
    intros n4 H4. pose proof (IH (retry + 1) n4 (sp_ok _ _ H4)) as Hr. destruct (arp_wait _ _ _ _ _ _) as [[x n5]| | |]; cbn in *; try done.
    destruct Hr as [Hr Hx]. split; [|done]. exact (steps_trans _ _ _ H3 (steps_trans _ _ _ H4 Hr)).
Qed.

Lemma arp_resolve_safe poll n ip : poll_safe poll -> net_ok n -> mac_safe n (arp_resolve nic_send poll n ip).
Proof.
  intros Hp Hn. unfold arp_resolve. destruct (ip =? 4294967295).
  { split; [by apply steps_refl|]. by intros m [= <-]. }
  cbn zeta. generalize (if negb (Z.land (ni_ip (n_if n)) (ni_netmask (n_if n)) =? Z.land ip (ni_netmask (n_if n))) && truthy (ni_gateway (n_if n))
    then ni_gateway (n_if n) else ip). intros ip'. pose proof (arp_find_steps n ip' Hn) as Hf.
  pose proof (arp_find_mac n ip') as Hm. destruct (arp_find n ip') as [n1 r]. cbn in Hf. destruct r as [i|].
  - split; [exact Hf|]. cbn. intros m [= <-]. by apply (Hm n1 i).
  - eapply total_bind; [exact (arp_send_request_safe n1 ip' (sp_ok _ _ Hf))|]. intros n2 H2.
    pose proof (arp_wait_safe poll 500 0 n2 ip' Hp (sp_ok _ _ H2)) as Hr.
    destruct (arp_wait _ _ _ _ _ _) as [[x n5]| | |]; cbn in *; try done.
    destruct Hr as [Hr Hx]. split; [|done]. exact (steps_trans _ _ _ Hf (steps_trans _ _ _ H2 Hr)).
Qed.

Lemma ipv4_transmit_safe poll n dst proto payload :
  poll_safe poll -> net_ok n -> zlen payload < 65516 -> safe2 n (ipv4_transmit nic_send poll n dst proto payload).
Proof.
  intros Hp Hn Hl. unfold ipv4_transmit. pose proof (zlen_nonneg payload).
  replace (u16 (20 + zlen payload)) with (20 + zlen payload) by cint_lia.
  destruct (Z.ltb_spec NET_MAX_PACKET (20 + zlen payload)); [by apply steps_refl|].
  eapply pure_bind2; [by apply ip_checksum_total|]. intros ck _.
  eapply pure_bind2; [by apply fits_total|]. intros _ _. cbn zeta.
  set (pkt := _ ++ payload). clearbody pkt. eapply total_bind.
  { instantiate (1 := fun x => steps n x.2 /\ forall m, x.1 = Some m -> zlen m = 6).
    destruct (dst =? 4294967295); [|by apply arp_resolve_safe]. split; [by apply steps_refl|]. by intros m [= <-]. }
  intros [[mac|] n'] [Hs Hm]; cbn in *; [|exact Hs].
  eapply safe2_trans; [exact Hs|]. apply eth_transmit_safe; [apply Hs|by apply Hm].
Qed.
End safe.

(** ** Receiving *)

Section receive.
Context (nic_send : frame -> Z).

Lemma icmp_receive_safe n src data : net_ok n -> zlen data <= 2048 -> safe n (icmp_receive nic_send n src data).
Proof.
  intros Hn Hd. unfold icmp_receive. destruct (Z.ltb_spec (zlen data) 8) as [|Hl]; [by apply steps_refl|].
  eapply pure_bind; [apply ld_total; lia|]. intros type _.
  do 2 (eapply pure_bind; [apply ld16_total; lia|]; intros ? _).
  destruct (type =? _).
  - cbn zeta. unfold NET_MAX_PACKET. eapply pure_bind; [apply slice_total; lia|]. intros payload Hp. cbn beta in Hp.
    eapply pure_bind; [apply fits_total; lia|]. intros _ _.
    eapply pure_bind with (Q := fun p => zlen p <= 2048).
    { unfold icmp_packet. assert (forall t c k i s, zlen (icmp_header t c k i s) = 8) as Hh by done.
      eapply total_bind; [apply ip_checksum_total; rewrite zlen_app, Hh; lia|]. intros ck _. unfold total. cbn [post]. rewrite zlen_app, Hh. lia. }
    intros packet Hk. eapply safe2_bind; [apply ipv4_transmit_safe; [apply poll_busy_safe|done|lia]|].
    intros r n' Hs. apply steps_refl. apply Hs.
  - destruct (type =? _); [|by apply steps_refl]. destruct (_ && _); [by apply steps_ping|by apply steps_refl].
Qed.

Lemma index_of_lookup {B} (f : B -> bool) i l j : index_of f i l = Some j -> exists x, l !! (j - i)%nat = Some x /\ f x = true /\ (i <= j)%nat.
Proof.
  revert i. induction l as [|x l IH]; intros i; [done|]. cbn. destruct (f x) eqn:Hx.
  - intros [= <-]. exists x. by rewrite Nat.sub_diag.
  - intros (y & H1 & H2 & H3)%IH. exists y. replace (j - i)%nat with (S (j - S i)) by lia. split; [done|split; [done|lia]].
Qed.

Lemma udp_receive_safe n src data : net_ok n -> safe n (udp_receive n src data).
Proof.
  intros Hn. unfold udp_receive. destruct (Z.ltb_spec (zlen data) 8) as [|Hl]; [by apply steps_refl|].
  do 3 (eapply pure_bind; [apply swap16_total; lia|]; intros ? _). cbn zeta.
  destruct (Z.ltb_spec (x1 `min` zlen data) 8) as [|Hu]; [by apply steps_refl|].
  eapply pure_bind; [apply slice_total; lia|]. intros payload Hp. cbn beta in Hp.
  destruct (index_of _ _ _) as [i|]; [|by apply steps_refl]. destruct (udp_sockets n !! i) as [s|] eqn:Hi; [|by apply steps_refl].
  destruct (truthy _); [by apply steps_refl|]. unfold UDP_RX_BUFSZ.
  eapply pure_bind; [apply slice_total; lia|]. intros d Hd. cbn beta in Hd.
  pose proof (Forall_lookup_1 _ _ _ _ (no_udp n Hn) Hi) as [Hb _]. unfold UDP_RX_BUFSZ in Hb.
  eapply pure_bind; [apply overwrite_total; lia|]. intros buf Hbuf. cbn beta in Hbuf. cbn zeta.
  assert (steps n (with_udp n (<[i := mk_udp (us_local_port s) src x (us_bound s) (us_used s) buf (zlen d)]> (udp_sockets n)) (udp_next n))) as Hs.
  { apply steps_udp; [done|apply length_insert|]. apply Forall_insert; [by apply no_udp|]. split; cbn; unfold UDP_RX_BUFSZ; lia. }
  exact (steps_trans _ _ _ Hs (steps_wakes _ (sp_ok _ _ Hs) _)).
Qed.

(** *** TCP *)

Lemma zlen_tcp_segment s seq flags ck payload : zlen (tcp_segment s seq flags ck payload) = 24 + zlen payload.
Proof.
  unfold tcp_segment. rewrite !zlen_app. change (zlen mss_option) with 4.
  assert (forall a b c d e f g h, zlen (tcp_header a b c d e f g h) = 20) as -> by done. lia.
Qed.

Lemma tcp_transmit_safe poll n s seq flags payload :
  poll_safe poll -> net_ok n -> zlen payload <= TCP_MSS -> safe2 n (tcp_transmit_seg nic_send poll n s seq flags payload).
Proof.
  intros Hp Hn Hl. unfold tcp_transmit_seg. pose proof (zlen_nonneg payload). unfold TCP_MSS, NET_MAX_PACKET in *.
  replace (u16 (24 + zlen payload)) with (24 + zlen payload) by cint_lia.
  destruct (Z.ltb_spec (2048 - 20) (24 + zlen payload)); [by apply steps_refl|].
  eapply pure_bind2; [apply fits_total; lia|]. intros _ _.
  eapply pure_bind2; [apply tcp_checksum_total; rewrite zlen_tcp_segment; lia|]. intros ck _.
  apply ipv4_transmit_safe; [done|done|rewrite zlen_tcp_segment; lia].
Qed.

(** An acknowledgement, sent from a dispatch. *)
Lemma tcp_ack_safe n s seq flags : net_ok n -> safe2 n (tcp_transmit_seg nic_send poll_busy n s seq flags []).
Proof. intros Hn. apply tcp_transmit_safe; [apply poll_busy_safe|done|done]. Qed.

Lemma rx_push_head buf head tail data : 0 <= head < TCP_RX_BUFSZ -> 0 <= (rx_push buf head tail data).2 < TCP_RX_BUFSZ.
Proof.
  revert buf head. induction data as [|b data IH]; intros buf head Hh; [done|]. cbn [rx_push]. unfold TCP_RX_BUFSZ in *.
  destruct (_ =? _); [done|]. apply IH. cint_lia.
Qed.

Lemma tcp_rx_push_ok s data : tcp_ok s -> tcp_ok (tcp_rx_push s data).
Proof.
  intros []. unfold tcp_rx_push. pose proof (rx_push_head (ts_rx_buf s) (ts_rx_head s) (ts_rx_tail s) data to_head0) as Hh.
  destruct (rx_push _ _ _ _) as [buf head]. by split.
Qed.

Ltac tok := intros []; split; done.

Lemma set_tstate_ok st s : tcp_ok s -> tcp_ok (set_tstate st s).
Proof. tok. Qed.
Lemma set_used_ok b s : tcp_ok s -> tcp_ok (set_used b s).
Proof. tok. Qed.
Lemma set_remote_ok ip port s : tcp_ok s -> tcp_ok (set_remote ip port s).
Proof. tok. Qed.
Lemma set_local_ok port s : tcp_ok s -> tcp_ok (set_local port s).
Proof. tok. Qed.
Lemma set_timer_ok t r s : tcp_ok s -> tcp_ok (set_timer t r s).
Proof. tok. Qed.
Lemma set_rcv_ok v s : tcp_ok s -> tcp_ok (set_rcv v s).
Proof. tok. Qed.
Lemma set_snd_ok a b c s : tcp_ok s -> tcp_ok (set_snd a b c s).
Proof. tok. Qed.
Lemma set_rx_fin_ok b s : tcp_ok s -> tcp_ok (set_rx_fin b s).
Proof. tok. Qed.
Lemma set_tx_ok seg len flags fin s : zlen seg = TCP_MSS -> 0 <= len <= TCP_MSS -> tcp_ok s -> tcp_ok (set_tx seg len flags fin s).
Proof. intros ? ?. tok. Qed.
#[local] Hint Resolve set_tstate_ok set_used_ok set_remote_ok set_local_ok set_timer_ok set_rcv_ok set_snd_ok set_rx_fin_ok tcp_rx_push_ok : kil.

Lemma process_ack_ok s ack : tcp_ok s -> tcp_ok (process_ack s ack).
Proof. intros H. unfold process_ack. destruct (_ && _); [|done]. apply set_timer_ok, set_tx_ok; [apply H|done|auto with kil]. Qed.

Lemma after_ack_ok s : tcp_ok s -> tcp_ok (after_ack s).
Proof. intros H. unfold after_ack. cbn zeta. repeat destruct (_ && _); auto with kil. Qed.

(** A socket and the state it is in. *)
Definition sock_safe n (r : res (tcp_socket * net)) : Prop := total (fun x => tcp_ok x.1 /\ steps n x.2) r.

Lemma sock_ack_safe n n0 i s s' flags :
  steps n n0 -> tcp_ok s -> tcp_ok s' ->
  sock_safe n ('(_, n) ← tcp_transmit_seg nic_send poll_busy (put_tcp n0 i s) s (ts_snd_nxt s) flags []; Ok (s', n)).
Proof.
  intros H0 Hs Hs'. pose proof (steps_put n0 (sp_ok _ _ H0) i s Hs) as Hp.
  pose proof (tcp_ack_safe (put_tcp n0 i s) s (ts_snd_nxt s) flags (sp_ok _ _ Hp)) as Ht. unfold sock_safe.
  destruct (tcp_transmit_seg _ _ _ _ _ _ _) as [[r n']| | |]; [|done..]. cbn in Ht |- *. rename Ht into H'. split; [done|]. exact (steps_trans _ _ _ H0 (steps_trans _ _ _ Hp H')).
Qed.

Lemma sock_bind n (r : res (tcp_socket * net)) (f : tcp_socket * net -> res net) :
  sock_safe n r -> (forall s n', tcp_ok s -> net_ok n' -> safe n' (f (s, n'))) -> safe n (r ≫= f).
Proof.
  intros Hr Hf. eapply total_bind; [exact Hr|]. intros [s n'] [Hs Hn]. eapply safe_trans; [exact Hn|]. apply Hf; [done|apply Hn].
Qed.

Lemma tcp_data_safe n i s seq ack flags payload : net_ok n -> tcp_ok s -> safe n (tcp_data nic_send n i s seq ack flags payload).
Proof.
  intros Hn Hs. unfold tcp_data. cbn zeta. set (s1 := if has flags TCP_FLAG_ACK then process_ack s ack else s).
  assert (tcp_ok s1) as H1 by (unfold s1; destruct (has _ _); [by apply process_ack_ok|done]). clearbody s1.
  apply sock_bind.
  { destruct (0 <? zlen payload); [|by split; [|apply steps_put]]. destruct (seq =? ts_rcv_nxt s1); apply sock_ack_safe; auto with kil.
    - by apply steps_wakes.
    - by apply steps_refl. }
  intros s2 n2 H2 Hn2. apply sock_bind.
  { destruct (has _ _); [|by split; [|apply steps_refl]]. apply sock_ack_safe; [by apply steps_wakes| |].
    all: destruct (_ <? _); auto with kil. }
  intros s3 n3 H3 Hn3. apply steps_put; [done|by apply after_ack_ok].
Qed.

Lemma tcp_syn_sent_safe n i s seq ack flags payload : net_ok n -> tcp_ok s -> safe n (tcp_syn_sent nic_send n i s seq ack flags payload).
Proof.
  intros Hn Hs. unfold tcp_syn_sent. destruct (_ && _); [|by apply steps_refl]. destruct (negb _); [by apply steps_refl|]. cbn zeta.
  set (s1 := tcp_rx_push _ payload). assert (tcp_ok s1) as H1 by (unfold s1; auto 10 with kil). clearbody s1.
  pose proof (steps_put n Hn i s1 H1) as Hp. pose proof (steps_wakes _ (sp_ok _ _ Hp) (n_wakes (put_tcp n i s1) ++ [1])) as Hw.
  eapply safe_trans; [exact (steps_trans _ _ _ Hp Hw)|]. eapply safe2_bind; [exact (tcp_ack_safe _ s1 _ _ (sp_ok _ _ Hw))|].
  intros r n' H'. apply steps_refl. apply H'.
Qed.

Lemma tcp_receive_safe n src data : net_ok n -> zlen data <= 2048 -> safe n (tcp_receive nic_send n src data).
Proof.
  intros Hn Hd. unfold tcp_receive. destruct (Z.ltb_spec (zlen data) 20) as [|Hl]; [by apply steps_refl|].
  do 2 (eapply pure_bind; [apply swap16_total; lia|]; intros ? _).
  do 2 (eapply pure_bind; [apply swap32_total; lia|]; intros ? _).
  do 2 (eapply pure_bind; [apply ld_total; lia|]; intros ? _). cbn zeta.
  set (off := u8 _). clearbody off. destruct (Z.ltb_spec off 20); [by apply steps_refl|].
  destruct (Z.ltb_spec (zlen data) off); [by apply steps_refl|]. cbn [orb].
  eapply pure_bind; [apply slice_total; lia|]. intros payload _.
  destruct (index_of _ _ _) as [i|]; [|by apply steps_refl]. destruct (tcp_sockets n !! i) as [s|] eqn:Hi; [|by apply steps_refl].
  pose proof (tcp_at n Hn i s Hi) as Hs. eapply pure_bind; [apply tcp_checksum_total; lia|]. intros ck _.
  destruct (truthy ck); [by apply steps_refl|]. destruct (has _ TCP_FLAG_RST); [apply steps_put; auto with kil|].
  destruct (ts_state s); try (by apply steps_refl); try (by apply tcp_data_safe); try (by apply tcp_syn_sent_safe).
  - destruct (has _ _); [|by apply steps_refl]. eapply safe2_bind; [by apply tcp_ack_safe|]. intros r n' H'. apply steps_refl. apply H'.
  - destruct (_ && _); [apply steps_put; auto with kil|by apply steps_refl].
Qed.

Lemma ipv4_receive_safe n data : net_ok n -> zlen data <= 2048 -> safe n (ipv4_receive nic_send n data).
Proof.
  intros Hn Hd. unfold ipv4_receive. destruct (Z.ltb_spec (zlen data) 20) as [|Hl]; [by apply steps_refl|].
  eapply pure_bind; [apply ld_total; lia|]. intros iv _. cbn zeta. destruct (negb _); [by apply steps_refl|].
  assert (0 <= Z.land iv 15 < 16) as Hihl by (change 15 with (Z.ones 4); rewrite Z.land_ones by lia; apply Z.mod_pos_bound; lia).
  set (ihl := Z.land iv 15) in *. clearbody ihl. destruct (Z.ltb_spec ihl 5); [by apply steps_refl|].
  destruct (Z.ltb_spec (zlen data) (ihl * 4)); [by apply steps_refl|].
  eapply pure_bind; [apply slice_total; lia|]. intros hdr Hh. cbn beta in Hh.
  eapply pure_bind; [apply ip_checksum_total; lia|]. intros ck _. destruct (truthy ck); [by apply steps_refl|].
  eapply pure_bind; [apply swap16_total; lia|]. intros tl _. destruct (Z.ltb_spec (tl `min` zlen data) (ihl * 4)); [by apply steps_refl|].
  do 2 (eapply pure_bind; [apply swap32_total; lia|]; intros ? _). eapply pure_bind; [apply ld_total; lia|]. intros proto _.
  destruct (_ && _); [by apply steps_refl|].
  eapply pure_bind; [apply slice_total; lia|]. intros payload Hp. cbn beta in Hp.
  repeat destruct (proto =? _); [apply icmp_receive_safe|apply udp_receive_safe|apply tcp_receive_safe|apply steps_refl]; first [done|lia].
Qed.

Lemma eth_receive_safe n data : net_ok n -> zlen data <= 2048 -> safe n (eth_receive nic_send n data).
Proof.
  intros Hn Hd. unfold eth_receive, ETH_HDR_LEN. destruct (Z.ltb_spec (zlen data) 14) as [|Hl]; [by apply steps_refl|].
  eapply pure_bind; [apply swap16_total; lia|]. intros type _. eapply pure_bind; [apply slice_total; lia|]. intros payload Hp. cbn beta in Hp.
  repeat destruct (type =? _); [by apply arp_receive_safe|apply ipv4_receive_safe; [done|lia]|by apply steps_refl].
Qed.

(** The frame's dispatch, from outside one. *)
Lemma netif_receive_keeps n f : net_ok n -> n_rx_busy n = false -> safe n (netif_receive nic_send n f).
Proof.
  intros Hn Hb. unfold netif_receive. destruct (_ <? _); [by apply steps_refl|].
  destruct (Z.ltb_spec NET_MAX_PACKET (zlen f)); [by apply steps_refl|].
  assert (net_ok (with_busy n true)) as Hn1 by (destruct Hn; by split).
  eapply total_bind; [exact (eth_receive_safe (with_busy n true) f Hn1 ltac:(unfold NET_MAX_PACKET in *; lia))|].
  intros n' [Hn' Ht Hi Hb' Hu Hc]. destruct Hn'. split; done.
Qed.

Lemma receive_all_safe n fs : net_ok n -> n_rx_busy n = false -> safe n (receive_all nic_send n fs).
Proof.
  revert n. induction fs as [|f fs IH]; intros n Hn Hb; [by apply steps_refl|]. cbn [receive_all].
  eapply safe_bind; [by apply netif_receive_keeps|]. intros n' Hs. apply IH; [apply Hs|]. by rewrite (sp_busy _ _ Hs).
Qed.

Lemma netif_poll_safe : poll_safe (netif_poll nic_send).
Proof.
  intros n Hn. unfold netif_poll. destruct (n_rx_busy n) eqn:Hb; [by apply steps_refl|]. destruct (ni_send _); [|by apply steps_refl].
  pose proof (steps_ring n Hn [] (n_env n) (n_now n) ltac:(lia)) as Hs. eapply safe_trans; [exact Hs|].
  apply receive_all_safe; [apply Hs|done].
Qed.
End receive.

(** ** The calls that wait *)

Section calls.
Context (nic_send : frame -> Z).
Notation poll := (netif_poll nic_send).

#[local] Hint Resolve set_tstate_ok set_used_ok set_remote_ok set_local_ok set_timer_ok set_rcv_ok set_snd_ok set_rx_fin_ok tcp_rx_push_ok : kil.

(** Socket [i] exists. *)
Definition live n (i : nat) : Prop := net_ok n /\ (i < length (tcp_sockets n))%nat.

Lemma steps_live n n' i : live n i -> steps n n' -> live n' i.
Proof. intros [_ Hi] Hs. split; [apply Hs|by rewrite (sp_tcp _ _ Hs)]. Qed.

Lemma sock_total n i : live n i -> total (fun s => tcp_ok s /\ tcp_sockets n !! i = Some s) (sock n i).
Proof.
  intros [Hn Hi]. unfold sock. destruct (lookup_lt_is_Some_2 _ _ Hi) as [s Hs]. rewrite Hs. split; [by eapply tcp_at|done].
Qed.

(** A bind on a step, keeping the socket alive. *)
Lemma live_bind {A} n i (r : res net) (f : net -> res (A * net)) :
  live n i -> safe n r -> (forall n', live n' i -> n_now n <= n_now n' -> safe2 n' (f n')) -> safe2 n (r ≫= f).
Proof. intros Hl Hr Hf. eapply safe_bind2; [exact Hr|]. intros n' Hs. apply Hf; [by eapply steps_live|apply Hs]. Qed.

Lemma live_bind2 {A B} n i (r : res (A * net)) (f : A * net -> res (B * net)) :
  live n i -> safe2 n r -> (forall x n', live n' i -> n_now n <= n_now n' -> safe2 n' (f (x, n'))) -> safe2 n (r ≫= f).
Proof. intros Hl Hr Hf. eapply safe2_bind2; [exact Hr|]. intros x n' Hs. apply Hf; [by eapply steps_live|apply Hs]. Qed.

(** Then an update of the state. *)
Lemma safe2_step {A} n n' (r : res (A * net)) : steps n n' -> (net_ok n' -> safe2 n' r) -> safe2 n r.
Proof. intros Hs Hr. eapply safe2_trans; [exact Hs|]. apply Hr, Hs. Qed.

Lemma tcp_poll_safe n i : net_ok n -> safe n (tcp_poll nic_send poll n i).
Proof.
  intros Hn. unfold tcp_poll. destruct (tcp_sockets n !! i) as [s|] eqn:Hi; [|by apply steps_refl].
  pose proof (tcp_at n Hn i s Hi) as Hs. destruct (_ || _); [by apply steps_refl|]. destruct (_ <? _); [by apply steps_refl|].
  destruct (_ <=? _); [apply steps_put; auto with kil|].
  destruct (to_len s Hs). pose proof (to_seg s Hs). eapply pure_bind; [apply slice_total; lia|]. intros d Hd. cbn beta in Hd.
  eapply safe2_bind; [apply tcp_transmit_safe; [apply netif_poll_safe|done|lia]|]. intros r n' H'. pose proof (sp_ok _ _ H') as Hn'.
  destruct (tcp_sockets n' !! i) as [s'|] eqn:Hi'; [|by apply steps_refl]. pose proof (tcp_at n' Hn' i s' Hi'). apply steps_put; auto with kil.
Qed.

Lemma tcp_send_seg_tracked_safe n i flags payload : net_ok n -> safe n (tcp_send_seg_tracked nic_send poll n i flags payload).
Proof.
  intros Hn. unfold tcp_send_seg_tracked. destruct (tcp_sockets n !! i) as [s|] eqn:Hi; [|by apply steps_refl].
  pose proof (tcp_at n Hn i s Hi) as Hs. cbn zeta. pose proof (to_seg s Hs) as Hseg.
  assert (0 <= zlen (take (Z.to_nat TCP_MSS) payload) <= TCP_MSS) as Hl by (unfold zlen; rewrite length_take; unfold TCP_MSS; lia).
  set (p := take _ payload) in *. clearbody p. eapply pure_bind; [apply overwrite_total; lia|]. intros seg Hseg'. cbn beta in Hseg'.
  set (s1 := set_timer _ 0 _). assert (tcp_ok s1) as H1 by (apply set_timer_ok, set_tx_ok; [lia|done|done]). clearbody s1.
  eapply safe_trans; [by apply (steps_put n Hn i s1)|]. pose proof (sp_ok _ _ (steps_put n Hn i s1 H1)) as Hn1.
  eapply safe2_bind; [apply tcp_transmit_safe; [apply netif_poll_safe|done|lia]|]. intros r n' H'. pose proof (sp_ok _ _ H') as Hn'.
  destruct (tcp_sockets n' !! i) as [s'|] eqn:Hi'; [|by apply steps_refl]. pose proof (tcp_at n' Hn' i s' Hi'). apply steps_put; auto with kil.
Qed.

Definition resend_net (r : net * bool + net) : net := match r with inl x => x.1 | inr n => n end.

Lemma resend_safe n i seq flags rto : live n i -> total (fun r => steps n (resend_net r)) (resend nic_send n i seq flags rto).
Proof.
  intros Hl. pose proof (proj1 Hl) as Hn. unfold resend. eapply total_bind; [by apply sock_total|]. intros s [Hs _].
  destruct (_ && _); [|by apply steps_refl]. destruct (_ <=? _); [by apply steps_refl|].
  eapply total_bind2; [apply tcp_transmit_safe; [apply netif_poll_safe|exact Hn|done]|].
  intros r n' H'. unfold total. cbn [post resend_net fst]. eapply steps_trans; [exact H'|]. apply steps_upd; [apply H'|auto with kil].
Qed.

(** A wait of two milliseconds is two thousand microseconds. *)
Lemma delay_now n ms : n_now (pit_delay_ms n ms) = n_now n + ms * 1000.
Proof. unfold pit_delay_ms. by destruct (n_env n). Qed.

Lemma live_delay n i ms : live n i -> 0 <= ms -> live (pit_delay_ms n ms) i.
Proof. intros Hl Hm. eapply steps_live; [exact Hl|]. apply steps_delay; [apply Hl|done]. Qed.

Lemma connect_wait_safe fuel n i rto start :
  live n i -> start <= n_now n -> 10002000 < n_now n - start + 2000 * Z.of_nat fuel -> 1 <= Z.of_nat fuel ->
  safe2 n (connect_wait nic_send fuel n i rto start).
Proof.
  revert n rto. induction fuel as [|fuel IH]; intros n rto Hl Hst Hf H1; [lia|]. cbn [connect_wait].
  eapply pure_bind2; [by apply sock_total|]. intros s _. destruct (negb _); [by apply steps_refl, Hl|].
  eapply live_bind; [exact Hl|apply netif_poll_safe, Hl|]. intros n1 Hl1 Ht1.
  eapply pure_bind2; [by apply sock_total|]. intros s1 _. destruct (negb _); [by apply steps_refl, Hl1|].
  eapply total_bind; [by apply resend_safe|]. intros [[n2 again]|n2] H2; cbn in H2.
  - cbn zeta. destruct (Z.ltb_spec 10000000 (n_now n2 - start)); [done|]. pose proof (steps_live _ _ _ Hl1 H2) as Hl2.
    pose proof (sp_now _ _ H2). pose proof (delay_now n2 2). eapply safe2_trans; [exact H2|].
    eapply safe2_trans; [by apply (steps_delay _ (proj1 Hl2) 2)|]. apply IH; [by apply live_delay|lia..].
  - eapply steps_trans; [exact H2|]. apply steps_upd; [apply H2|auto with kil].
Qed.

Lemma send_wait_safe fuel n i start :
  live n i -> start <= n_now n -> 15002000 < n_now n - start + 2000 * Z.of_nat fuel -> 1 <= Z.of_nat fuel ->
  safe2 n (send_wait nic_send fuel n i start).
Proof.
  revert n. induction fuel as [|fuel IH]; intros n Hl Hst Hf H1; [lia|]. cbn [send_wait].
  eapply pure_bind2; [by apply sock_total|]. intros s _. destruct (_ || _); [by apply steps_refl, Hl|].
  eapply live_bind; [exact Hl|apply netif_poll_safe, Hl|]. intros n1 Hl1 Ht1.
  eapply live_bind; [exact Hl1|apply tcp_poll_safe, Hl1|]. intros n2 Hl2 Ht2.
  eapply pure_bind2; [by apply sock_total|]. intros s1 _. destruct (_ || _); [by apply steps_refl, Hl2|].
  destruct (Z.ltb_spec 15000000 (n_now n2 - start)); [by apply steps_refl, Hl2|].
  pose proof (delay_now n2 2). eapply safe2_trans; [by apply (steps_delay _ (proj1 Hl2) 2)|]. apply IH; [by apply live_delay|lia..].
Qed.

Lemma close_wait_safe fuel n i goon armed limit start :
  live n i -> start <= n_now n -> 0 <= limit -> limit + 2000 < n_now n - start + 2000 * Z.of_nat fuel -> 1 <= Z.of_nat fuel ->
  safe n (close_wait nic_send fuel n i goon armed limit start).
Proof.
  revert n. induction fuel as [|fuel IH]; intros n Hl Hst Hlim Hf H1; [lia|]. cbn [close_wait].
  eapply pure_bind; [by apply sock_total|]. intros s _. destruct (negb _); [by apply steps_refl, Hl|].
  eapply safe_bind; [apply netif_poll_safe, Hl|]. intros n1 Hs1. pose proof (steps_live _ _ _ Hl Hs1) as Hl1. pose proof (sp_now _ _ Hs1).
  eapply pure_bind; [by apply sock_total|]. intros s1 _.
  eapply total_bind with (Q := fun r => steps n1 (resend_net r)).
  { destruct (armed s1); [by apply resend_safe|by apply steps_refl, Hl1]. }
  intros [[n2 again]|n2] H2; cbn in H2; [|done].
  destruct (Z.ltb_spec limit (n_now n2 - start)); [done|]. pose proof (steps_live _ _ _ Hl1 H2) as Hl2.
  pose proof (sp_now _ _ H2). pose proof (delay_now n2 2). eapply safe_trans; [exact H2|].
  eapply safe_trans; [by apply (steps_delay _ (proj1 Hl2) 2)|]. apply IH; [by apply live_delay|lia..].
Qed.

Lemma tcp_connect_safe n i ip port : live n i -> safe2 n (tcp_connect nic_send n i ip port).
Proof.
  intros Hl. unfold tcp_connect. eapply pure_bind2; [by apply sock_total|]. intros s _. destruct (_ || _); [by apply steps_refl, Hl|].
  set (n0 := upd_sock n i (set_remote ip port)). assert (steps n n0) as H0 by (apply steps_upd; [apply Hl|auto with kil]).
  clearbody n0. set (n1 := if ts_local_port s =? 0 then _ else n0). assert (steps n n1) as H1.
  { eapply steps_trans; [exact H0|]. pose proof (sp_ok _ _ H0) as Hn0. unfold n1. destruct (_ =? 0); [|by apply steps_refl].
    destruct (tcp_ephemeral _ _ _ _) as [p next].
    assert (steps n0 (with_tcp n0 (tcp_sockets n0) next (isn_state n0))) as Hw by (apply steps_tcp; [done|done|by apply no_tcp]).
    destruct p as [p|]; [|exact Hw]. eapply steps_trans; [exact Hw|]. apply steps_upd; [apply Hw|auto with kil]. }
  clearbody n1. eapply safe2_trans; [exact H1|]. pose proof (steps_live _ _ _ Hl H1) as Hl1. clear n n0 Hl H0 H1.
  eapply pure_bind2; [by apply sock_total|]. intros s1 [Hs1 _]. destruct (_ =? 0); [by apply steps_refl, Hl1|].
  assert (steps n1 (tcp_isn n1).2) as Hi by (apply steps_tcp; [apply Hl1|done|by apply no_tcp, Hl1]).
  destruct (tcp_isn n1) as [iss n2]. cbn in Hi. cbn zeta.
  eapply safe2_trans; [exact Hi|]. pose proof (steps_live _ _ _ Hl1 Hi) as Hl2. clear n1 Hl1 Hi.
  set (s2 := set_tstate TCP_SYN_SENT _). assert (tcp_ok s2) as Hs2 by (destruct Hs1; by split). clearbody s2.
  pose proof (steps_put n2 (proj1 Hl2) i s2 Hs2) as Hp. eapply safe2_trans; [exact Hp|]. pose proof (steps_live _ _ _ Hl2 Hp) as Hl3.
  eapply live_bind2; [exact Hl3|apply tcp_transmit_safe; [apply netif_poll_safe|apply Hl3|done]|]. intros r n4 Hl4 _.
  set (n5 := upd_sock n4 i _). assert (steps n4 n5) as H5.
  { apply steps_upd; [apply Hl4|]. intros s' Hs'. apply set_timer_ok, set_tx_ok; [apply Hs'|done|done]. }
  clearbody n5. eapply safe2_trans; [exact H5|]. pose proof (steps_live _ _ _ Hl4 H5) as Hl5.
  eapply live_bind2; [exact Hl5|apply connect_wait_safe; [done|lia..]|]. intros ok n6 Hl6 _. destruct (negb ok); [by apply steps_refl, Hl6|].
  set (n7 := upd_sock n6 i _). assert (steps n6 n7) as H7 by (apply steps_upd; [apply Hl6|auto with kil]).
  clearbody n7. eapply safe2_trans; [exact H7|]. pose proof (steps_live _ _ _ Hl6 H7) as Hl7.
  eapply pure_bind2; [by apply sock_total|]. intros s3 _. by apply steps_refl, Hl7.
Qed.

Lemma send_chunks_safe fuel n i data sent : live n i -> (length data < fuel)%nat -> safe2 n (send_chunks nic_send fuel n i data sent).
Proof.
  revert n data sent. induction fuel as [|fuel IH]; intros n data sent Hl Hf; [lia|]. cbn [send_chunks].
  destruct (Z.eqb_spec (zlen data) 0); [by apply steps_refl, Hl|]. cbn zeta.
  set (n1 := upd_sock n i _). assert (steps n n1) as H1 by (apply steps_upd; [apply Hl|auto with kil]). clearbody n1.
  eapply safe2_trans; [exact H1|]. pose proof (steps_live _ _ _ Hl H1) as Hl1.
  eapply live_bind; [exact Hl1|apply tcp_send_seg_tracked_safe, Hl1|]. intros n2 Hl2 _.
  eapply live_bind2; [exact Hl2|apply send_wait_safe; [done|lia..]|]. intros ok n3 Hl3 _.
  eapply pure_bind2; [by apply sock_total|]. intros s _. destruct (_ || _); [by apply steps_refl, Hl3|].
  apply IH; [done|]. rewrite length_drop. unfold zlen, TCP_MSS in *. lia.
Qed.

Lemma tcp_send_safe n i data : live n i -> safe2 n (tcp_send nic_send n i data).
Proof.
  intros Hl. unfold tcp_send. eapply pure_bind2; [by apply sock_total|]. intros s _. destruct (_ || _); [by apply steps_refl, Hl|].
  apply send_chunks_safe; [done|lia].
Qed.

Lemma drain_tail maxlen buf head tail : 0 <= tail < TCP_RX_BUFSZ -> 0 <= (drain maxlen buf head tail).2 < TCP_RX_BUFSZ.
Proof.
  revert tail. induction maxlen as [|k IH]; intros tail Ht; [done|]. cbn [drain]. destruct (_ =? _); [done|].
  specialize (IH (u16 ((tail + 1) mod TCP_RX_BUFSZ))). destruct (drain _ _ _ _) as [l t]. cbn in *. apply IH. unfold TCP_RX_BUFSZ. cint_lia.
Qed.

Lemma tcp_recv_wait_safe fuel n i maxlen timeout waited :
  live n i -> 0 <= waited <= timeout + 1 -> timeout < 4294967295 -> timeout <= waited + 2 * (Z.of_nat fuel - 1) -> (1 <= fuel)%nat ->
  safe2 n (tcp_recv_wait nic_send fuel n i maxlen timeout waited).
Proof.
  revert n waited. induction fuel as [|fuel IH]; intros n waited Hl Hw Ht Hf Hf1; [lia|]. cbn [tcp_recv_wait].
  eapply live_bind; [exact Hl|apply netif_poll_safe, Hl|]. intros n1 Hl1 _.
  eapply pure_bind2; [by apply sock_total|]. intros s [Hs _]. destruct (_ && _); [by apply steps_refl, Hl1|]. destruct (negb _).
  - pose proof (drain_tail maxlen (ts_rx_buf s) (ts_rx_head s) (ts_rx_tail s) (to_tail s Hs)) as Hd. destruct (drain _ _ _ _) as [l tail].
    cbn zeta. set (s1 := set_ring _ _ _ s). assert (tcp_ok s1) as H1 by (destruct Hs; by split). clearbody s1.
    pose proof (steps_put n1 (proj1 Hl1) i s1 H1) as Hp. eapply safe2_trans; [exact Hp|].
    eapply safe2_bind2; [apply tcp_transmit_safe; [apply netif_poll_safe|apply Hp|done]|]. intros r n2 H2. apply steps_refl, H2.
  - destruct (ts_rx_fin s); [by apply steps_refl, Hl1|]. rewrite (proj2 (Z.eqb_neq _ _)) by lia. cbn [negb andb].
    destruct (Z.leb_spec timeout waited); [by apply steps_refl, Hl1|].
    eapply safe2_trans; [by apply (steps_delay _ (proj1 Hl1) 2)|]. rewrite u32_small by lia. apply IH; [by apply live_delay|lia..].
Qed.

Lemma tcp_recv_safe n i maxlen timeout : live n i -> 0 <= timeout < 4294967295 -> safe2 n (tcp_recv nic_send n i maxlen timeout).
Proof.
  intros Hl Ht. unfold tcp_recv. eapply pure_bind2; [by apply sock_total|]. intros s _. destruct (negb _); [by apply steps_refl, Hl|].
  apply tcp_recv_wait_safe; [done|mlia..].
Qed.

(** The end of a close: the FIN is sent, and the loop waits for its end. *)
Lemma close_tail n i s seq flags fuel goon armed limit :
  live n i -> tcp_ok s -> 0 <= limit -> limit + 2000 < 2000 * Z.of_nat fuel ->
  safe2 n ('(_, n) ← tcp_transmit_seg nic_send poll (put_tcp n i s) s seq flags [];
           let n := upd_sock n i (fun s => set_timer (n_now n) (ts_tx_retries s) s) in
           n ← close_wait nic_send fuel n i goon armed limit (n_now n);
           Ok (0, tcp_socket_close n i)).
Proof.
  intros Hl Hs H0 Hf. pose proof (steps_put n (proj1 Hl) i s Hs) as Hp. eapply safe2_trans; [exact Hp|].
  pose proof (steps_live _ _ _ Hl Hp) as Hl1.
  eapply live_bind2; [exact Hl1|apply tcp_transmit_safe; [apply netif_poll_safe|apply Hl1|done]|]. intros r n2 Hl2 _.
  cbn zeta. set (n3 := upd_sock n2 i _). assert (steps n2 n3) as H3 by (apply steps_upd; [apply Hl2|auto with kil]).
  clearbody n3. eapply safe2_trans; [exact H3|]. pose proof (steps_live _ _ _ Hl2 H3) as Hl3.
  eapply live_bind; [exact Hl3|apply close_wait_safe; [done|lia..]|]. intros n4 Hl4 _. apply steps_close, Hl4.
Qed.

Lemma tcp_close_safe n i : live n i -> safe2 n (tcp_close nic_send n i).
Proof.
  intros Hl. unfold tcp_close. eapply pure_bind2; [by apply sock_total|]. intros s [Hs _]. destruct (negb _); [by apply steps_refl, Hl|].
  destruct (ts_state s); try (by apply steps_close, Hl).
  - apply steps_upd; [apply Hl|auto with kil].
  - apply close_tail; [done| |lia|lia]. apply set_snd_ok, set_tstate_ok, set_timer_ok, set_tx_ok; [apply Hs|done|done].
  - apply close_tail; [done| |lia|lia]. apply set_snd_ok, set_timer_ok, set_tx_ok; [apply Hs|apply Hs|auto with kil].
Qed.
End calls.

(** *** Datagrams and echo requests *)

Section datagrams.
Context (nic_send : frame -> Z).
Notation poll := (netif_poll nic_send).

Lemma set_port_ok p s : udp_ok s -> udp_ok (set_port p s).
Proof. done. Qed.

Lemma udp_sendto_safe n i dst port data : net_ok n -> safe2 n (udp_sendto nic_send poll n i dst port data).
Proof.
  intros Hn. unfold udp_sendto. destruct (udp_sockets n !! i) as [s|]; [|by apply steps_refl].
  destruct (negb _); [by apply steps_refl|].
  assert (forall l p, length l = length (udp_sockets n) -> Forall udp_ok l -> steps n (with_udp n l p)) as Hu by (intros; by apply steps_udp).
  set (x := if us_bound s then _ else _). assert (steps n x.2) as Hx.
  { unfold x. destruct (us_bound s); [by apply steps_refl|]. destruct (udp_ephemeral_port _ _ _) as [p next].
    destruct (p =? 0); apply Hu; [done|by apply no_udp|apply length_alter|]. apply Forall_alter; [by apply no_udp|done]. }
  clearbody x. destruct x as [ok n1]. cbn in Hx. destruct (negb ok); [exact Hx|].
  destruct (Z.ltb_spec (NET_MTU - 20 - 8) (zlen data)) as [|Hl]; [exact Hx|]. unfold NET_MTU in Hl. cbn zeta.
  eapply safe2_trans; [exact Hx|]. eapply pure_bind2; [apply fits_total; unfold NET_MAX_PACKET; lia|]. intros _ _.
  apply ipv4_transmit_safe; [apply netif_poll_safe|apply Hx|]. rewrite zlen_app.
  assert (forall a b c, zlen (udp_header a b c) = 8) as -> by done. lia.
Qed.

Lemma udp_recv_wait_safe fuel n i maxlen timeout waited :
  net_ok n -> 0 <= maxlen -> 0 <= waited -> timeout <= 4294967290 -> waited mod 10 = 0 -> timeout <= waited + 10 * (Z.of_nat fuel - 1) -> (1 <= fuel)%nat ->
  safe2 n (udp_recv_wait poll fuel n i maxlen timeout waited).
Proof.
  intros Hn Hm. revert n waited Hn. induction fuel as [|fuel IH]; intros n waited Hn Hw Ht H10 Hf H1; [lia|]. cbn [udp_recv_wait].
  destruct (Z.ltb_spec waited timeout); [|by apply steps_refl].
  eapply safe_bind2; [by apply netif_poll_safe|]. intros n1 Hs1. pose proof (sp_ok _ _ Hs1) as Hn1.
  destruct (udp_sockets n1 !! i) as [s|] eqn:Hi; [|by apply steps_refl].
  pose proof (Forall_lookup_1 _ _ _ _ (no_udp n1 Hn1) Hi) as [Hb Hc].
  destruct (Z.ltb_spec 0 (us_rx_count s)).
  - eapply pure_bind2; [apply slice_total; lia|]. intros d _. apply steps_udp; [done|apply length_insert|].
    apply Forall_insert; [by apply no_udp|]. by split.
  - eapply safe2_trans; [by apply (steps_delay n1 Hn1 10)|]. rewrite u32_small by mlia. apply IH; [by apply (steps_delay n1 Hn1 10)|mlia..].
Qed.

Lemma udp_recvfrom_safe n i maxlen timeout :
  net_ok n -> 0 <= maxlen -> 0 <= timeout <= 4294967290 -> safe2 n (udp_recvfrom poll n i maxlen timeout).
Proof.
  intros Hn Hm Ht. unfold udp_recvfrom. destruct (udp_sockets n !! i) as [s|]; [|by apply steps_refl].
  destruct (us_used s); [|by apply steps_refl]. apply udp_recv_wait_safe; [done|done|lia|lia|done|mlia|lia].
Qed.

Lemma ping_wait_safe fuel n deadline : net_ok n -> deadline <= n_now n + 10000 * (Z.of_nat fuel - 1) -> 1 <= Z.of_nat fuel -> safe n (ping_wait nic_send fuel n deadline).
Proof.
  revert n. induction fuel as [|fuel IH]; intros n Hn Hf H1; [lia|]. cbn [ping_wait].
  destruct (Z.ltb_spec (n_now n) deadline); [|by apply steps_refl]. destruct (negb _); [|by apply steps_refl]. cbn [andb].
  eapply safe_bind; [by apply netif_poll_safe|]. intros n1 Hs1. pose proof (sp_ok _ _ Hs1) as Hn1. pose proof (sp_now _ _ Hs1).
  pose proof (delay_now n1 10). eapply safe_trans; [by apply (steps_delay n1 Hn1 10)|]. apply IH; [by apply (steps_delay n1 Hn1 10)|lia..].
Qed.

Lemma ping_pace_safe fuel n start : net_ok n -> start + 1000000 <= n_now n + 10000 * (Z.of_nat fuel - 1) -> 1 <= Z.of_nat fuel -> safe n (ping_pace nic_send fuel n start).
Proof.
  revert n. induction fuel as [|fuel IH]; intros n Hn Hf H1; [lia|]. cbn [ping_pace].
  destruct (Z.ltb_spec (n_now n - start) 1000000); [|by apply steps_refl].
  eapply safe_bind; [by apply netif_poll_safe|]. intros n1 Hs1. pose proof (sp_ok _ _ Hs1) as Hn1. pose proof (sp_now _ _ Hs1).
  pose proof (delay_now n1 10). eapply safe_trans; [by apply (steps_delay n1 Hn1 10)|]. apply IH; [by apply (steps_delay n1 Hn1 10)|lia..].
Qed.

Lemma icmp_ping_safe n ip seq timeout : net_ok n -> 0 <= timeout -> safe2 n (icmp_ping nic_send n ip seq timeout).
Proof.
  intros Hn Ht. unfold icmp_ping. eapply pure_bind2 with (Q := fun p => zlen p = 16).
  { unfold icmp_packet. eapply total_bind; [by apply ip_checksum_total|]. done. }
  intros packet Hp. cbn zeta. pose proof (steps_ping n Hn false seq ip) as H1. eapply safe2_trans; [exact H1|].
  eapply safe2_bind2; [apply ipv4_transmit_safe; [apply netif_poll_safe|apply H1|lia]|]. intros r n2 H2. pose proof (sp_now _ _ H2) as Ht2. cbn in Ht2.
  destruct (r <? 0); [apply steps_refl, H2|].
  eapply safe_bind2; [apply ping_wait_safe; [apply H2|cbn; mlia|lia]|]. intros n3 H3. pose proof (sp_now _ _ H3).
  eapply safe_bind2; [apply ping_pace_safe; [apply H3|cbn; lia|lia]|]. intros n4 H4. apply steps_refl, H4.
Qed.
End datagrams.

(** ** The stack's life *)

(** The state at boot, with the interface the driver configured. *)
Definition net_boot (i : netif) (env : list (list frame)) : net :=
  mk_net i false [] env 0 [] [] (replicate ARP_CACHE_SIZE no_entry) 0 false 0 0
    (replicate UDP_MAX_SOCKETS (mk_udp 0 0 0 false false (replicate (Z.to_nat UDP_RX_BUFSZ) 0) 0)) 49152 (replicate TCP_MAX_SOCKETS zero_tcp) 49152 0.

(** What interrupts and programs do. *)
Inductive net_op : Type :=
  | Frame (f : frame)
  | Poll
  | Delay (ms : Z)
  | ArpInit
  | UdpInit
  | TcpInit
  | Resolve (ip : Z)
  | Ping (ip seq timeout : Z)
  | UdpCreate
  | UdpClose (i : nat)
  | UdpBind (i : nat) (port : Z)
  | UdpSend (i : nat) (ip port : Z) (data : list Z)
  | UdpRecv (i : nat) (maxlen timeout : Z)
  | TcpCreate
  | TcpBind (i : nat) (port : Z)
  | TcpConnect (i : nat) (ip port : Z)
  | TcpSend (i : nat) (data : list Z)
  | TcpRecv (i : nat) (maxlen : nat) (timeout : Z)
  | TcpClose (i : nat)
  | TcpTimer (i : nat).

Definition state_of {A} (r : res (A * net)) : res net := '(_, n) ← r; Ok n.

Definition run_op (nic_send : frame -> Z) n (o : net_op) : res net :=
  match o with
  | Frame f => netif_receive nic_send n f
  | Poll => netif_poll nic_send n
  | Delay ms => Ok (pit_delay_ms n ms)
  | ArpInit => Ok (arp_init n)
  | UdpInit => Ok (udp_init n)
  | TcpInit => Ok (tcp_init n)
  | Resolve ip => state_of (arp_resolve nic_send (netif_poll nic_send) n ip)
  | Ping ip seq timeout => state_of (icmp_ping nic_send n ip seq timeout)
  | UdpCreate => Ok (udp_socket_create n).2
  | UdpClose i => Ok (udp_socket_close n i)
  | UdpBind i port => Ok (udp_bind n i port).2
  | UdpSend i ip port data => state_of (udp_sendto nic_send (netif_poll nic_send) n i ip port data)
  | UdpRecv i maxlen timeout => state_of (udp_recvfrom (netif_poll nic_send) n i maxlen timeout)
  | TcpCreate => Ok (tcp_socket_create n).2
  | TcpBind i port => Ok (tcp_bind n i port).2
  | TcpConnect i ip port => state_of (tcp_connect nic_send n i ip port)
  | TcpSend i data => state_of (tcp_send nic_send n i data)
  | TcpRecv i maxlen timeout => state_of (tcp_recv nic_send n i maxlen timeout)
  | TcpClose i => state_of (tcp_close nic_send n i)
  | TcpTimer i => tcp_poll nic_send (netif_poll nic_send) n i
  end.

Fixpoint run_ops (nic_send : frame -> Z) n (ops : list net_op) : res net :=
  match ops with
  | [] => Ok n
  | o :: ops => n ← run_op nic_send n o; run_ops nic_send n ops
  end.

(** The arguments are of their C types: a TCP socket is one of the table's,
    and the unsigned parameters are not negative; the timeouts are those that
    the waiting loops reach. *)
Definition op_typed (o : net_op) : Prop :=
  match o with
  | Delay ms => 0 <= ms
  | Ping _ _ timeout => 0 <= timeout
  | UdpRecv _ maxlen timeout => 0 <= maxlen /\ 0 <= timeout <= 4294967290
  | TcpRecv i _ timeout => (i < TCP_MAX_SOCKETS)%nat /\ 0 <= timeout < 4294967295
  | TcpConnect i _ _ | TcpSend i _ | TcpClose i => (i < TCP_MAX_SOCKETS)%nat
  | _ => True
  end.

Lemma state_of_safe {A} n (r : res (A * net)) : safe2 n r -> safe n (state_of r).
Proof. destruct r as [[x n']| | |]; done. Qed.

Section life.
Context (nic_send : frame -> Z).

Lemma arp_init_steps n : net_ok n -> steps n (arp_init n).
Proof.
  intros Hn. apply steps_arp; [done|rewrite length_map; by apply no_cache| |done|].
  - apply Forall_map. eapply list.Forall_impl; [exact (no_macs n Hn)|done].
  - intros i j ei ej Hi _ Hv. rewrite list_lookup_fmap in Hi. destruct (arp_cache n !! i); [|done]. by injection Hi as <-.
Qed.

Lemma udp_create_steps n : net_ok n -> steps n (udp_socket_create n).2.
Proof.
  intros Hn. unfold udp_socket_create. destruct (index_of _ _ _); [|by apply steps_refl].
  apply steps_udp; [done|apply length_alter|]. apply Forall_alter; [by apply no_udp|]. intros s _ [Hb _]. by split.
Qed.

Lemma udp_bind_steps n i port : net_ok n -> steps n (udp_bind n i port).2.
Proof.
  intros Hn. unfold udp_bind. destruct (udp_sockets n !! i) as [s|]; [|by apply steps_refl]. destruct (us_used s); [|by apply steps_refl].
  apply steps_udp; [done|apply length_alter|]. by apply Forall_alter; [by apply no_udp|].
Qed.

Lemma tcp_create_steps n : net_ok n -> steps n (tcp_socket_create n).2.
Proof.
  intros Hn. unfold tcp_socket_create. destruct (index_of _ _ _); [|by apply steps_refl]. apply steps_put; [done|]. by split.
Qed.

Lemma tcp_bind_steps n i port : net_ok n -> steps n (tcp_bind n i port).2.
Proof.
  intros Hn. unfold tcp_bind. destruct (tcp_sockets n !! i) as [s|] eqn:Hi; [|by apply steps_refl]. destruct (negb _); [by apply steps_refl|].
  destruct (port_taken _ _ _); [by apply steps_refl|]. apply steps_put; [done|]. apply set_local_ok. by eapply tcp_at.
Qed.

Lemma run_op_safe n o :
  net_ok n -> n_rx_busy n = false -> length (tcp_sockets n) = TCP_MAX_SOCKETS -> op_typed o -> safe n (run_op nic_send n o).
Proof.
  intros Hn Hb Ht Ho. assert (forall i, (i < TCP_MAX_SOCKETS)%nat -> live n i) as Hl by (intros i Hi; split; [done|by rewrite Ht]).
  destruct o; cbn [run_op op_typed] in *.
  - by apply netif_receive_keeps.
  - by apply netif_poll_safe.
  - by apply steps_delay.
  - by apply arp_init_steps.
  - apply steps_udp; [done|apply length_map|]. apply Forall_map. eapply list.Forall_impl; [exact (no_udp n Hn)|]. intros s [Hs _]. by split.
  - apply steps_tcp; [done|apply length_map|]. apply Forall_map. eapply list.Forall_impl; [exact (no_tcp n Hn)|]. intros s Hs. by apply set_tstate_ok, set_used_ok.
  - apply state_of_safe. pose proof (arp_resolve_safe nic_send (netif_poll nic_send) n ip (netif_poll_safe nic_send) Hn) as Hr.
    unfold safe2, mac_safe in *. destruct (arp_resolve _ _ _ _) as [x| | |]; cbn in *; tauto.
  - by apply state_of_safe, icmp_ping_safe.
  - by apply udp_create_steps.
  - apply steps_udp; [done|apply length_alter|]. by apply Forall_alter; [by apply no_udp|].
  - by apply udp_bind_steps.
  - by apply state_of_safe, udp_sendto_safe.
  - destruct Ho. by apply state_of_safe, udp_recvfrom_safe.
  - by apply tcp_create_steps.
  - by apply tcp_bind_steps.
  - by apply state_of_safe, tcp_connect_safe, Hl.
  - by apply state_of_safe, tcp_send_safe, Hl.
  - destruct Ho. apply state_of_safe, tcp_recv_safe; [by apply Hl|done].
  - by apply state_of_safe, tcp_close_safe, Hl.
  - by apply tcp_poll_safe.
Qed.

Lemma run_ops_safe n ops :
  net_ok n -> n_rx_busy n = false -> length (tcp_sockets n) = TCP_MAX_SOCKETS -> Forall op_typed ops -> safe n (run_ops nic_send n ops).
Proof.
  revert n. induction ops as [|o ops IH]; intros n Hn Hb Ht Ho; [by apply steps_refl|]. apply Forall_cons_1 in Ho as [Ho Hops]. cbn [run_ops].
  eapply safe_bind; [by apply run_op_safe|]. intros n' Hs. apply IH; [apply Hs|by rewrite (sp_busy _ _ Hs)|by rewrite (sp_tcp _ _ Hs)|done].
Qed.

Lemma net_boot_ok i env : zlen (ni_mac i) = 6 -> net_ok (net_boot i env).
Proof.
  intros Hm. split; try done.
  - by apply Forall_replicate.
  - intros a b ea eb Ha _ Hv. apply (lookup_replicate ARP_CACHE_SIZE no_entry ea a) in Ha as [-> _]. done.
  - apply Forall_replicate. split; [|done]. cbn. by rewrite zlen_replicate.
  - apply Forall_replicate. by split.
Qed.

(** C4: the network stack runs. From boot, whatever frames of whatever bytes arrive
    and whenever they do, any sequence of interrupts and of calls of the
    programs (echo requests, datagram and connection sockets, waiting calls
    included) runs to its end, when the waits are given an end: a timeout other
    than 0xFFFFFFFF for [tcp_recv], which then waits for ever, and of at most
    4294967290 milliseconds for [udp_recvfrom], whose counter never reaches more.
    No access leaves a frame, a packet buffer, a socket's buffer or a table,
    every call returns, and afterwards the ARP cache has at most one valid entry
    per address and all indices and lengths are in range. *)
Theorem stack_runs i env ops :
  zlen (ni_mac i) = 6 -> Forall op_typed ops ->
  exists n, run_ops nic_send (net_boot i env) ops = Ok n /\ net_ok n /\ n_rx_busy n = false /\ 0 <= n_now n.
Proof.
  intros Hm Ho. pose proof (run_ops_safe (net_boot i env) ops (net_boot_ok i env Hm) eq_refl eq_refl Ho) as Hs.
  apply total_Ok in Hs as (n & E & Hs). exists n. split; [done|]. split; [apply Hs|]. split; [apply Hs|apply Hs].
Qed.
End life.

Lemma stack_runs_witness :
  exists n, run_ops (fun _ => 0) (net_boot (mk_netif [2; 0; 0; 0; 0; 1] 167772161 4294967040 0 0 true) [[replicate 64 0]])
      [TcpCreate; TcpConnect 0 167772162 80; Frame (replicate 60 255); Ping 167772162 1 100] = Ok n /\
    net_ok n /\ n_rx_busy n = false /\ 0 <= n_now n.
Proof.
  exact (stack_runs (fun _ => 0) (mk_netif [2; 0; 0; 0; 0; 1] 167772161 4294967040 0 0 true) [[replicate 64 0]]
    [TcpCreate; TcpConnect 0 167772162 80; Frame (replicate 60 255); Ping 167772162 1 100] eq_refl
    ltac:(repeat (apply Forall_cons_2; [unfold op_typed, TCP_MAX_SOCKETS; first [done | lia]|]); apply Forall_nil_2)).
Defined.

(** ** A machine *)

Definition demo_host (ip : Z) (mac : list Z) (e : arp_entry) (udp : list udp_socket) (tcp : list tcp_socket) (next : Z) : net :=
  mk_net (mk_netif mac ip 4294967040 0 0 true) false [] [] 0 [] [] (e :: replicate 15 no_entry) 0 false 0 0 udp 49152 tcp next 0.

Lemma demo_host_ok ip mac e udp tcp next :
  zlen mac = 6 -> zlen (ae_mac e) = 6 -> Forall udp_ok udp -> Forall tcp_ok tcp -> net_ok (demo_host ip mac e udp tcp next).
Proof.
  intros Hm He Hu Ht. split; try done.
  - apply Forall_cons_2; [done|]. by apply Forall_replicate.
  - intros i j ei ej Hi Hj Hvi Hvj _. destruct i as [|i], j as [|j]; try done.
    + apply (lookup_replicate 15 no_entry ej j) in Hj as [-> _]. done.
    + apply (lookup_replicate 15 no_entry ei i) in Hi as [-> _]. done.
    + apply (lookup_replicate 15 no_entry ei i) in Hi as [-> _]. done.
Qed.

Definition demo_udp (port : Z) : udp_socket := mk_udp port 0 0 true true (replicate (Z.to_nat 2048) 0) 0.

Lemma demo_udp_ok port : udp_ok (demo_udp port).
Proof. split; cbn; [|done]. by rewrite zlen_replicate. Qed.

(** Sockets made from a zeroed one. *)
Lemma zero_tcp_ok : tcp_ok zero_tcp.
Proof. by split. Qed.

Definition demo_mac (k : Z) : list Z := [2; 0; 0; 0; 0; k].
Definition demo_a : net := demo_host 167772161 (demo_mac 1) (mk_arp 167772162 (demo_mac 2) 0 true) [demo_udp 5000] [set_used true zero_tcp] 49152.
Definition demo_b : net := demo_host 167772162 (demo_mac 2) no_entry [demo_udp 53] [] 49152.

Lemma demo_a_ok : net_ok demo_a.
Proof. apply demo_host_ok; [done|done|by apply Forall_cons_2; [apply demo_udp_ok|]|by apply Forall_cons_2; [apply set_used_ok, zero_tcp_ok|]]. Qed.
Lemma demo_b_ok : net_ok demo_b.
Proof. apply demo_host_ok; [done|done|by apply Forall_cons_2; [apply demo_udp_ok|]|done]. Qed.
