(* ===== verification/Wire.v ===== *)
(** * Frames on the wire

    What one machine's stack writes into a frame another machine's stack
    reads: fields in network order, the Internet checksum, and the Ethernet
    and IPv4 layers of src/src/kernel/net. *)

From S2P Require Import Prelude Net Tcp Stack StackSafe.

(** ** Fields in network order *)

Lemma land_shifted x m k : 0 <= k -> Z.land x (Z.shiftl m k) = Z.shiftl (Z.land (Z.shiftr x k) m) k.
Proof.
  intros Hk. apply Z.bits_inj'. intros i Hi. rewrite Z.land_spec, !Z.shiftl_spec, Z.land_spec by lia.
  destruct (Z.leb_spec k i).
  - rewrite Z.shiftr_spec by lia. do 2 f_equal. lia.
  - rewrite (Z.testbit_neg_r m), (Z.testbit_neg_r (Z.shiftr x k)) by lia. by rewrite andb_false_r.
Qed.

Lemma land_255 x : Z.land x 255 = x mod 256.
Proof. change 255 with (Z.ones 8). by rewrite Z.land_ones. Qed.

Lemma htons_arith v : 0 <= v < 65536 -> net_htons v = v / 256 + 256 * (v mod 256).
Proof.
  intros H. unfold net_htons. rewrite land_255, lor_shift_add, Z.shiftr_div_pow2; [done|lia|lia| |mlia].
  rewrite Z.shiftr_div_pow2 by lia. change (2 ^ 8) with 256. mlia.
Qed.

Lemma htonl_arith v : 0 <= v < 2 ^ 32 ->
  net_htonl v = v / 16777216 + 256 * (v / 65536 mod 256) + 65536 * (v / 256 mod 256) + 16777216 * (v mod 256).
Proof.
  intros H. unfold net_htonl. change 65280 with (Z.shiftl 255 8). change 16711680 with (Z.shiftl 255 16).
  change 4278190080 with (Z.shiftl 255 24). rewrite !land_shifted, !land_255 by lia.
  rewrite Z.shiftr_shiftr by lia. rewrite (Z.shiftr_shiftl_r v 8 16), (Z.shiftr_shiftl_r v 24 24) by lia.
  rewrite !Z.shiftr_div_pow2 by lia. change (2 ^ 24) with 16777216. change (2 ^ (8 + 8)) with 65536. change (2 ^ (16 - 8)) with 256.
  change (2 ^ (24 - 24)) with 1. rewrite Z.div_1_r.
  rewrite (lor_shift_add (v / 16777216 mod 256)) by mlia. rewrite (lor_shift_add _ _ 16) by (change (2 ^ 8) with 256; mlia).
  rewrite (lor_shift_add _ _ 24) by (change (2 ^ 8) with 256; change (2 ^ 16) with 65536; mlia).
  change (2 ^ 8) with 256; change (2 ^ 16) with 65536. change (2 ^ 24) with 16777216. mlia.
Qed.

Lemma htons_range v : 0 <= v < 65536 -> 0 <= net_htons v < 65536.
Proof. intros H. rewrite htons_arith by done. mlia. Qed.
Lemma htonl_range v : 0 <= v < 2 ^ 32 -> 0 <= net_htonl v < 2 ^ 32.
Proof. intros H. rewrite htonl_arith by done. mlia. Qed.

Lemma htonl_bytes a b c d :
  0 <= a < 256 -> 0 <= b < 256 -> 0 <= c < 256 -> 0 <= d < 256 ->
  net_htonl (a + 256 * b + 65536 * c + 16777216 * d) = d + 256 * c + 65536 * b + 16777216 * a.
Proof.
  intros Ha Hb Hc Hd. rewrite htonl_arith by lia. set (v := a + _ + _ + _).
  assert (v / 16777216 = d) as -> by (unfold v; mlia). assert (v / 65536 = c + 256 * d) as -> by (unfold v; mlia).
  assert (v / 256 = b + 256 * (c + 256 * d)) as -> by (unfold v; mlia). assert (v mod 256 = a) as -> by (unfold v; mlia).
  rewrite !(Z.mul_comm 256), !Z.mod_add, !Z.mod_small by lia. lia.
Qed.

Lemma htons_htons v : 0 <= v < 65536 -> net_htons (net_htons v) = v.
Proof. intros H. rewrite (htons_arith (net_htons v)) by (by apply htons_range). rewrite htons_arith by done. mlia. Qed.
Lemma htonl_htonl v : 0 <= v < 2 ^ 32 -> net_htonl (net_htonl v) = v.
Proof.
  intros H. assert (exists a b c d, v = a + 256 * b + 65536 * c + 16777216 * d /\ 0 <= a < 256 /\ 0 <= b < 256 /\ 0 <= c < 256 /\ 0 <= d < 256)
    as (a & b & c & d & -> & Ha & Hb & Hc & Hd); [|by rewrite !htonl_bytes].
  exists (v mod 256), (v / 256 mod 256), (v / 65536 mod 256), (v / 16777216). split; [mlia|].
  repeat (split; [first [apply Z.mod_pos_bound; lia|mlia]|]). mlia.
Qed.

Lemma swap16_at P v S : 0 <= v < 65536 -> swap16 (P ++ le16 (net_htons v) ++ S) (zlen P) = Ok v.
Proof. intros H. unfold swap16. rewrite ld16_at by (by apply htons_range). cbn. by rewrite htons_htons. Qed.

Lemma swap32_at P v S : 0 <= v < 2 ^ 32 -> swap32 (P ++ le32 (net_htonl v) ++ S) (zlen P) = Ok v.
Proof. intros H. unfold swap32. rewrite ld32_at by (by apply htonl_range). cbn. by rewrite htonl_htonl. Qed.

Lemma slice_full l : slice l 0 (zlen l) = Ok l.
Proof. pose proof (slice_at [] l []) as E. by rewrite app_nil_r in E. Qed.

Lemma slice_rest P D : slice (P ++ D) (zlen P) (zlen (P ++ D) - zlen P) = Ok D.
Proof. pose proof (slice_at P D []) as E. rewrite app_nil_r in E. rewrite zlen_app. replace (zlen P + zlen D - zlen P) with (zlen D) by lia. exact E. Qed.

(** ** The Internet checksum *)

(** The sum of the words, unbounded. *)
Fixpoint wsum (l : list Z) : Z :=
  match l with
  | [] => 0
  | [b] => b
  | b0 :: b1 :: l => b0 + 256 * b1 + wsum l
  end.

Lemma pairs_ind (P : list Z -> Prop) : P [] -> (forall b, P [b]) -> (forall b0 b1 l, P l -> P (b0 :: b1 :: l)) -> forall l, P l.
Proof.
  intros H0 H1 H2 l. assert (forall k l, (length l <= k)%nat -> P l) as H; [|by apply (H (length l))].
  clear l. induction k as [|k IH]; intros [|b0 [|b1 l]] Hl; cbn in Hl; try lia; auto. apply H2, IH. lia.
Qed.

Lemma wsum_bounds l : Forall is_byte l -> 0 <= wsum l /\ 2 * wsum l <= 65536 * (zlen l + 1).
Proof.
  induction l as [|b|b0 b1 l IH] using pairs_ind; intros Hb.
  - unfold zlen. cbn [wsum length]. lia.
  - apply Forall_cons_1 in Hb as [Hb _]. unfold is_byte in Hb. unfold zlen. cbn [wsum length]. lia.
  - apply Forall_cons_1 in Hb as [H0 Hb]. apply Forall_cons_1 in Hb as [H1 Hb]. specialize (IH Hb). unfold is_byte in *.
    cbn [wsum]. unfold zlen in *. cbn [length]. lia.
Qed.

Lemma sum_words_wsum l s : Forall is_byte l -> 0 <= s -> s + wsum l < 2 ^ 32 -> sum_words l s = s + wsum l.
Proof.
  revert s. induction l as [|b|b0 b1 l IH] using pairs_ind; intros s Hb Hs Hl.
  - cbn. lia.
  - apply Forall_cons_1 in Hb as [Hb _]. unfold is_byte in Hb. cbn in *. apply u32_small. lia.
  - apply Forall_cons_1 in Hb as [H0 Hb]. apply Forall_cons_1 in Hb as [H1 Hb]. unfold is_byte in *. cbn [wsum] in Hl.
    cbn [sum_words wsum]. pose proof (wsum_bounds l Hb). rewrite lor_shift_add by (change (2 ^ 8) with 256; lia).
    change (2 ^ 8) with 256. rewrite u32_small by lia. rewrite IH by (done || lia). lia.
Qed.

Lemma wsum_app P l : Nat.Even (length P) -> wsum (P ++ l) = wsum P + wsum l.
Proof.
  induction P as [|b|b0 b1 P IH] using pairs_ind; intros He.
  - done.
  - destruct He as [k Hk]. cbn in Hk. lia.
  - cbn [app wsum]. rewrite IH; [lia|]. destruct He as [k Hk]. cbn in Hk. exists (k - 1)%nat. lia.
Qed.

(** A checksum field at an even offset adds its value to the sum. *)
Lemma wsum_field P c S : Nat.Even (length P) -> 0 <= c < 65536 -> wsum (P ++ le16 c ++ S) = wsum (P ++ le16 0 ++ S) + c.
Proof. intros He Hc. rewrite (wsum_app P (le16 c ++ S)), (wsum_app P (le16 0 ++ S)) by done. unfold le16. cbn [app wsum]. mlia. Qed.

Lemma fold_complement sum c :
  0 <= sum -> sum + 65536 < 2 ^ 32 -> (s ← fold_carry 4 sum; Ok (u16 (Z.lnot s))) = Ok c ->
  0 <= c < 65536 /\ (s ← fold_carry 4 (sum + c); Ok (u16 (Z.lnot s))) = Ok 0.
Proof.
  intros H0 H1 E. pose proof (fold_carry_ok sum ltac:(lia)) as Hf. destruct (fold_carry 4 sum) as [r| | |]; try done. cbn in Hf, E.
  destruct Hf as (Hr & Hm & Hz). injection E as <-.
  assert (forall x, 0 <= x < 65536 -> u16 (Z.lnot x) = 65535 - x) as Hnot by (intros x Hx; unfold Z.lnot; cint_lia).
  rewrite (Hnot r Hr). split; [lia|]. pose proof (fold_carry_ok (sum + (65535 - r)) ltac:(lia)) as Hf.
  destruct (fold_carry 4 (sum + (65535 - r))) as [r'| | |]; try done. cbn in Hf |- *. destruct Hf as (Hr' & Hm' & Hz').
  rewrite (Hnot r' Hr'). f_equal. assert (r' mod 65535 = 0) as Hd.
  { rewrite Hm'. replace (sum + (65535 - r)) with (sum - r + 1 * 65535) by lia. rewrite Z.mod_add, Zminus_mod, Hm, Z.sub_diag by lia. done. }
  assert (r' <> 0) by lia. clear Hm Hm'. mlia.
Qed.

Lemma even_len (P : list Z) k : zlen P = 2 * k -> Nat.Even (length P).
Proof. intros H. exists (Z.to_nat k). unfold zlen in H. lia. Qed.

Section checksum.
Context (P S : list Z) (He : Nat.Even (length P)) (HP : Forall is_byte P) (HS : Forall is_byte S) (Hl : zlen P + zlen S < 65000).

Lemma field_bytes c : Forall is_byte (P ++ le16 c ++ S).
Proof. apply Forall_app. split; [done|]. apply Forall_app. split; [apply bytes_le16|done]. Qed.

Lemma field_len c : zlen (P ++ le16 c ++ S) < 65002.
Proof. rewrite !zlen_app, zlen_le16. lia. Qed.

(** The sum with the computed field in place is the complement of zero. *)
Lemma ip_checksum_field c : ip_checksum (P ++ le16 0 ++ S) = Ok c -> 0 <= c < 65536 /\ ip_checksum (P ++ le16 c ++ S) = Ok 0.
Proof.
  unfold ip_checksum. pose proof (field_len 0). pose proof (field_len c). pose proof (wsum_bounds _ (field_bytes 0)) as [Hw0 Hw1].
  rewrite !(proj2 (Z.eqb_neq _ _)) by lia. rewrite sum_words_wsum by (try apply field_bytes; lia). rewrite Z.add_0_l. intros E.
  pose proof (fold_complement _ _ Hw0 ltac:(lia) E) as [Hc E']. split; [done|].
  rewrite sum_words_wsum by (try apply field_bytes; rewrite ?(wsum_field P c S He Hc); lia).
  rewrite Z.add_0_l, (wsum_field P c S He Hc). exact E'.
Qed.

Lemma pseudo_bytes a b k : Forall is_byte (pseudo_header a b k).
Proof. repeat constructor; unfold is_byte, IP_PROTO_TCP; cint_lia. Qed.

Lemma tcp_checksum_field a b c :
  tcp_checksum a b (P ++ le16 0 ++ S) = Ok c -> 0 <= c < 65536 /\ tcp_checksum a b (P ++ le16 c ++ S) = Ok 0.
Proof.
  unfold tcp_checksum. pose proof (field_len 0). pose proof (field_len c). pose proof (wsum_bounds _ (field_bytes 0)) as [Hw0 Hw1].
  assert (zlen (P ++ le16 c ++ S) = zlen (P ++ le16 0 ++ S)) as Hlen by (rewrite !zlen_app; done). rewrite Hlen.
  set (k := zlen (P ++ le16 0 ++ S)) in *. pose proof (wsum_bounds _ (pseudo_bytes a b k)) as [Hp0 Hp1].
  change (zlen (pseudo_header a b k)) with 12 in Hp1. rewrite (proj2 (Z.eqb_neq _ _)) by lia.
  rewrite (sum_words_wsum (pseudo_header a b k)) by (try apply pseudo_bytes; lia). rewrite Z.add_0_l.
  rewrite sum_words_wsum by (try apply field_bytes; lia). intros E.
  pose proof (fold_complement _ _ (Z.add_nonneg_nonneg _ _ Hp0 Hw0) ltac:(lia) E) as [Hc E']. split; [done|].
  rewrite sum_words_wsum by (try apply field_bytes; rewrite ?(wsum_field P c S He Hc); lia).
  rewrite (wsum_field P c S He Hc), Z.add_assoc. exact E'.
Qed.
End checksum.

(** ** Ethernet *)

(** The frame [eth_transmit] builds, and its padding. *)
Definition eth_pad (payload : list Z) : list Z := replicate (Z.to_nat (60 - (14 + zlen payload))) 0.
Definition eth_frame (dst src : list Z) (type : Z) (payload : list Z) : frame :=
  dst ++ src ++ le16 (net_htons type) ++ payload ++ eth_pad payload.

Lemma eth_pad_len payload : 0 <= zlen (eth_pad payload) <= 46.
Proof. unfold eth_pad. pose proof (zlen_nonneg payload). rewrite zlen_replicate. lia. Qed.

Section wire.
Context (nic_send : frame -> Z).

Lemma eth_transmit_frame n mac type payload :
  net_ok n -> zlen mac = 6 -> zlen payload <= NET_MTU ->
  eth_transmit nic_send n mac type payload = Ok (netif_send nic_send n (eth_frame mac (ni_mac (n_if n)) type payload)).
Proof.
  intros Hn Hm Hp. unfold eth_transmit. rewrite (proj2 (Z.ltb_ge _ _)) by lia. pose proof (no_mac n Hn) as Hi.
  pose proof (slice_full mac) as E1. rewrite Hm in E1. rewrite E1. cbn [mbind res_bind].
  pose proof (slice_full (ni_mac (n_if n))) as E2. rewrite Hi in E2. rewrite E2. cbn [mbind res_bind]. unfold NET_MTU, NET_MAX_PACKET, fits in *.
  set (p := mac ++ _). assert (zlen p = 14 + zlen payload) as Hl by (unfold p; rewrite !zlen_app, zlen_le16; lia).
  rewrite (proj2 (Z.leb_le _ _)) by lia. cbn [mbind res_bind]. rewrite Hl. unfold p, eth_frame, eth_pad. by rewrite <- !app_assoc.
Qed.

Definition eth_dispatch n (type : Z) (payload : list Z) : res net :=
  if type =? ETH_TYPE_ARP then arp_receive nic_send n payload
  else if type =? ETH_TYPE_IP then ipv4_receive nic_send n payload
  else Ok n.

Lemma netif_receive_frame n dst src type payload :
  zlen dst = 6 -> zlen src = 6 -> 0 <= type < 65536 -> zlen payload <= NET_MTU ->
  netif_receive nic_send n (eth_frame dst src type payload) =
  (n ← eth_dispatch (with_busy n true) type (payload ++ eth_pad payload); Ok (with_busy n false)).
Proof.
  intros Hd Hs Ht Hp. unfold NET_MTU in Hp. pose proof (eth_pad_len payload). pose proof (zlen_nonneg payload).
  assert (zlen (eth_frame dst src type payload) = 14 + zlen payload + zlen (eth_pad payload)) as Hl.
  { unfold eth_frame. rewrite !zlen_app, zlen_le16. lia. }
  unfold netif_receive, eth_receive, ETH_HDR_LEN, NET_MAX_PACKET. rewrite !(proj2 (Z.ltb_ge _ _)) by lia.
  assert (swap16 (eth_frame dst src type payload) 12 = Ok type) as ->.
  { pose proof (swap16_at (dst ++ src) type (payload ++ eth_pad payload) Ht) as E. rewrite zlen_app, Hd, Hs, <- app_assoc in E. exact E. }
  cbn [mbind res_bind].
  assert (slice (eth_frame dst src type payload) 14 (zlen (eth_frame dst src type payload) - 14) = Ok (payload ++ eth_pad payload)) as ->.
  { pose proof (slice_rest (dst ++ src ++ le16 (net_htons type)) (payload ++ eth_pad payload)) as E.
    rewrite zlen_app, (zlen_app src), Hd, Hs, zlen_le16, <- !app_assoc in E. exact E. }
  done.
Qed.

(** ** IPv4 *)

Definition ip_packet (proto ck src dst : Z) (payload : list Z) : list Z := ipv4_header (20 + zlen payload) proto ck src dst ++ payload.

(** The interface takes packets for [dst]. *)
Definition takes (i : netif) (dst : Z) : bool :=
  negb (truthy (ni_ip i) && negb (dst =? ni_ip i) && negb (dst =? 4294967295) && negb (dst =? Z.lor (ni_ip i) (4294967295 - ni_netmask i))).

Definition ip_dispatch n (proto src : Z) (payload : list Z) : res net :=
  if proto =? IP_PROTO_ICMP then icmp_receive nic_send n src payload
  else if proto =? IP_PROTO_UDP then udp_receive n src payload
  else if proto =? IP_PROTO_TCP then tcp_receive nic_send n src payload
  else Ok n.

(** The header in two halves around the checksum. *)
Definition hdr_front (total_len proto : Z) : list Z := [69; 0] ++ le16 (net_htons total_len) ++ le16 0 ++ le16 64 ++ [64; proto].
Definition hdr_back (src dst : Z) : list Z := le32 (net_htonl src) ++ le32 (net_htonl dst).

Lemma hdr_split t proto ck src dst : ipv4_header t proto ck src dst = hdr_front t proto ++ le16 ck ++ hdr_back src dst.
Proof. done. Qed.

Lemma hdr_checksum t proto ck src dst :
  is_byte proto -> ip_checksum (ipv4_header t proto 0 src dst) = Ok ck -> ip_checksum (ipv4_header t proto ck src dst) = Ok 0.
Proof.
  intros Hp. rewrite !hdr_split. intros E. apply ip_checksum_field; [by exists 5%nat| | |done|done].
  - unfold hdr_front. repeat first [apply bytes_le16|apply Forall_app_2|apply Forall_cons_2|apply Forall_nil_2]; unfold is_byte in *; lia.
  - apply Forall_app_2; apply bytes_le32.
Qed.

(** The fields of a header, wherever it ends. *)
Section header.
Context (t proto ck src dst : Z) (rest : list Z).
Notation data := (ipv4_header t proto ck src dst ++ rest).

Lemma hdr_ld0 : ld data 0 = Ok 69.
Proof. done. Qed.
Lemma hdr_ld9 : ld data 9 = Ok proto.
Proof. done. Qed.
Lemma hdr_total : 0 <= t < 65536 -> swap16 data 2 = Ok t.
Proof.
  change data with ([69; 0] ++ le16 (net_htons t) ++ (le16 0 ++ le16 64 ++ [64; proto] ++ le16 ck ++ hdr_back src dst ++ rest)). apply swap16_at.
Qed.
Lemma hdr_src : 0 <= src < 2 ^ 32 -> swap32 data 12 = Ok src.
Proof.
  change data with ((hdr_front t proto ++ le16 ck) ++ le32 (net_htonl src) ++ (le32 (net_htonl dst) ++ rest)). apply swap32_at.
Qed.
Lemma hdr_dst : 0 <= dst < 2 ^ 32 -> swap32 data 16 = Ok dst.
Proof.
  change data with ((hdr_front t proto ++ le16 ck ++ le32 (net_htonl src)) ++ le32 (net_htonl dst) ++ rest). apply swap32_at.
Qed.
Lemma hdr_slice : slice data 0 20 = Ok (ipv4_header t proto ck src dst).
Proof. exact (slice_at [] (ipv4_header t proto ck src dst) rest). Qed.
Lemma hdr_len : zlen data = 20 + zlen rest.
Proof. rewrite zlen_app. done. Qed.
End header.

Lemma hdr_payload t proto ck src dst payload pad :
  slice (ipv4_header t proto ck src dst ++ payload ++ pad) 20 (zlen payload) = Ok payload.
Proof. exact (slice_at (ipv4_header t proto ck src dst) payload pad). Qed.

Opaque ipv4_header.

Lemma ipv4_receive_fields n data hdr t proto src dst payload :
  20 <= t <= zlen data -> ld data 0 = Ok 69 -> slice data 0 20 = Ok hdr -> ip_checksum hdr = Ok 0 -> swap16 data 2 = Ok t ->
  swap32 data 12 = Ok src -> swap32 data 16 = Ok dst -> ld data 9 = Ok proto -> takes (n_if n) dst = true ->
  slice data 20 (t - 20) = Ok payload -> ipv4_receive nic_send n data = ip_dispatch n proto src payload.
Proof.
  intros Ht E0 Eh Ec E2 E12 E16 E9 Hk Ep. unfold takes in Hk. apply negb_true_iff in Hk. unfold ipv4_receive, ip_dispatch.
  assert ((Z.land (Z.shiftr 69 4) 15 =? 4) = true) as Ev by done. assert (Z.land 69 15 = 5) as Ei by done.
  rewrite (proj2 (Z.ltb_ge (zlen data) 20)), E0 by lia. cbn [mbind res_bind]. rewrite Ev, Ei. cbn [negb].
  rewrite (proj2 (Z.ltb_ge 5 5)), (proj2 (Z.ltb_ge (zlen data) (5 * 4))) by lia. change (5 * 4) with 20.
  rewrite Eh. cbn [mbind res_bind]. rewrite Ec. cbn [mbind res_bind]. rewrite E2. cbn [mbind res_bind].
  rewrite Z.min_l by lia. rewrite (proj2 (Z.ltb_ge t 20)) by lia. change (truthy 0) with false.
  rewrite E12, E16, E9. cbn [mbind res_bind]. rewrite Hk, Ep. reflexivity.
Qed.

Lemma ipv4_receive_packet n proto ck src dst payload pad :
  is_byte proto -> 0 <= src < 2 ^ 32 -> 0 <= dst < 2 ^ 32 -> zlen payload <= NET_MTU - 20 -> takes (n_if n) dst = true ->
  ip_checksum (ipv4_header (20 + zlen payload) proto 0 src dst) = Ok ck ->
  ipv4_receive nic_send n (ip_packet proto ck src dst payload ++ pad) = ip_dispatch n proto src payload.
Proof.
  intros Hb Hsrc Hdst Hl Ht Hck. apply hdr_checksum in Hck; [|done]. unfold NET_MTU in Hl. pose proof (zlen_nonneg payload). pose proof (zlen_nonneg pad).
  unfold ip_packet. rewrite <- app_assoc. set (T := 20 + zlen payload) in *.
  pose proof (hdr_len T proto ck src dst (payload ++ pad)) as Hlen. rewrite (zlen_app payload pad) in Hlen.
  pose proof (hdr_ld0 T proto ck src dst (payload ++ pad)) as E0. pose proof (hdr_ld9 T proto ck src dst (payload ++ pad)) as E9.
  pose proof (hdr_total T proto ck src dst (payload ++ pad) ltac:(unfold T; lia)) as E2.
  pose proof (hdr_src T proto ck src dst (payload ++ pad) Hsrc) as E12. pose proof (hdr_dst T proto ck src dst (payload ++ pad) Hdst) as E16.
  pose proof (hdr_slice T proto ck src dst (payload ++ pad)) as Eh. pose proof (hdr_payload T proto ck src dst payload pad) as Ep.
  replace (zlen payload) with (T - 20) in Ep by (unfold T; lia). by eapply ipv4_receive_fields; [|done..]; unfold T in *; lia.
Qed.
Transparent ipv4_header.
End wire.
