(* ===== verification/Datagrams.v ===== *)
(** * Datagrams and addresses, from one machine to another

    A UDP datagram sent on one machine is what the program on the other
    machine receives, and an ARP exchange teaches each machine the other's
    address: udp.c, arp.c and the layers below, on both sides of the wire. *)

From S2P Require Import Prelude Net Tcp Stack StackSafe Wire.

(** ** IPv4 *)

Section ip.
Context (nic_send : frame -> Z) (poll : net -> res net) (Hpoll : poll_safe poll).

(** The frame that carries a packet. *)
Definition ip_frame (dmac smac : list Z) (proto ck src dst : Z) (payload : list Z) : frame :=
  eth_frame dmac smac ETH_TYPE_IP (ip_packet proto ck src dst payload).

Lemma zlen_ip_packet proto ck src dst payload : zlen (ip_packet proto ck src dst payload) = 20 + zlen payload.
Proof. unfold ip_packet. by rewrite zlen_app. Qed.

Lemma ip_checksum_exists t proto src dst : exists ck, ip_checksum (ipv4_header t proto 0 src dst) = Ok ck.
Proof.
  pose proof (ip_checksum_total (ipv4_header t proto 0 src dst) ltac:(done)) as H. apply total_Ok in H as (ck & E & _). by exists ck.
Qed.

Lemma ipv4_transmit_frame n dst proto payload mac n1 :
  net_ok n -> zlen payload <= NET_MTU - 20 -> dst <> 4294967295 ->
  arp_resolve nic_send poll n (next_hop (n_if n) dst) = Ok (Some mac, n1) ->
  exists ck, ip_checksum (ipv4_header (20 + zlen payload) proto 0 (ni_ip (n_if n)) dst) = Ok ck /\
    steps n n1 /\ zlen mac = 6 /\
    ipv4_transmit nic_send poll n dst proto payload =
    Ok (netif_send nic_send n1 (ip_frame mac (ni_mac (n_if n)) proto ck (ni_ip (n_if n)) dst payload)).
Proof.
  intros Hn Hl Hd Ha. unfold NET_MTU in Hl. pose proof (zlen_nonneg payload).
  destruct (ip_checksum_exists (20 + zlen payload) proto (ni_ip (n_if n)) dst) as [ck Hck]. exists ck. split; [done|].
  pose proof (arp_resolve_safe nic_send poll n (next_hop (n_if n) dst) Hpoll Hn) as Hr. rewrite Ha in Hr. destruct Hr as [Hs Hm].
  cbn in Hs. specialize (Hm mac eq_refl). split; [done|]. split; [done|]. unfold ipv4_transmit, fits, NET_MAX_PACKET.
  replace (u16 (20 + zlen payload)) with (20 + zlen payload) by cint_lia. rewrite (proj2 (Z.ltb_ge _ _)) by lia. cbn zeta.
  rewrite Hck, (proj2 (Z.leb_le _ _)) by lia. cbn [mbind res_bind]. rewrite (proj2 (Z.eqb_neq _ _) Hd), Ha. cbn [mbind res_bind].
  fold (ip_packet proto ck (ni_ip (n_if n)) dst payload).
  rewrite eth_transmit_frame; [by rewrite (sp_if _ _ Hs)|apply Hs|done|rewrite zlen_ip_packet; unfold NET_MTU; lia].
Qed.

Lemma ip_frame_receive n dmac smac proto ck src dst payload :
  zlen dmac = 6 -> zlen smac = 6 -> is_byte proto -> 0 <= src < 2 ^ 32 -> 0 <= dst < 2 ^ 32 -> zlen payload <= NET_MTU - 20 ->
  takes (n_if n) dst = true -> ip_checksum (ipv4_header (20 + zlen payload) proto 0 src dst) = Ok ck ->
  netif_receive nic_send n (ip_frame dmac smac proto ck src dst payload) =
  (n ← ip_dispatch nic_send (with_busy n true) proto src payload; Ok (with_busy n false)).
Proof.
  intros Hd Hs Hp Hsrc Hdst Hl Ht Hck. unfold ip_frame.
  rewrite netif_receive_frame; [|done|done|done|rewrite zlen_ip_packet; unfold NET_MTU in *; lia].
  unfold eth_dispatch. rewrite (ipv4_receive_packet nic_send (with_busy n true)) by done. done.
Qed.
End ip.

(** ** UDP *)

Section udp.

Definition udp_packet (sport dport : Z) (data : list Z) : list Z := udp_header sport dport (8 + zlen data) ++ data.

Lemma zlen_udp_packet sport dport data : zlen (udp_packet sport dport data) = 8 + zlen data.
Proof. unfold udp_packet. by rewrite zlen_app. Qed.

(** The socket after a datagram. *)
Definition udp_filled (s : udp_socket) (src sport : Z) (data : list Z) : udp_socket :=
  mk_udp (us_local_port s) src sport (us_bound s) (us_used s) (data ++ drop (length data) (us_rx_buf s)) (zlen data).

Lemma udp_receive_fields n src data sport dport body j s :
  8 <= zlen data -> swap16 data 0 = Ok sport -> swap16 data 2 = Ok dport -> swap16 data 4 = Ok (zlen data) ->
  slice data 8 (zlen data - 8) = Ok body -> zlen body <= UDP_RX_BUFSZ -> zlen (us_rx_buf s) = UDP_RX_BUFSZ ->
  index_of (udp_bound_to dport) 0 (udp_sockets n) = Some j -> udp_sockets n !! j = Some s -> us_rx_count s = 0 ->
  udp_receive n src data =
  Ok (with_wakes (with_udp n (<[j := udp_filled s src sport body]> (udp_sockets n)) (udp_next n)) (n_wakes n ++ [1])).
Proof.
  intros Hl E0 E2 E4 Eb Hb Hs Hj Hi Hc. unfold udp_receive. rewrite (proj2 (Z.ltb_ge _ _)), E0, E2, E4 by lia. cbn [mbind res_bind].
  rewrite Z.min_id, (proj2 (Z.ltb_ge _ _)), Eb by lia. cbn [mbind res_bind]. rewrite Hj, Hi, Hc. change (truthy 0) with false.
  rewrite Z.min_l, slice_full by lia. cbn [mbind res_bind]. unfold overwrite. rewrite (proj2 (Z.leb_le _ _)) by lia. done.
Qed.

Lemma udp_receive_packet n src sport dport data j s :
  0 <= sport < 65536 -> 0 <= dport < 65536 -> zlen data <= NET_MTU - 28 -> net_ok n ->
  index_of (udp_bound_to dport) 0 (udp_sockets n) = Some j -> udp_sockets n !! j = Some s -> us_rx_count s = 0 ->
  udp_receive n src (udp_packet sport dport data) =
  Ok (with_wakes (with_udp n (<[j := udp_filled s src sport data]> (udp_sockets n)) (udp_next n)) (n_wakes n ++ [1])).
Proof.
  intros Hsp Hdp Hl Hn Hj Hi Hc. unfold NET_MTU in Hl. pose proof (zlen_nonneg data). pose proof (zlen_udp_packet sport dport data) as Hz.
  pose proof (Forall_lookup_1 _ _ _ _ (no_udp n Hn) Hi) as [Hb _].
  apply (udp_receive_fields n src (udp_packet sport dport data) sport dport); try done; try (unfold UDP_RX_BUFSZ; lia).
  - exact (swap16_at [] sport (le16 (net_htons dport) ++ le16 (net_htons (8 + zlen data)) ++ le16 0 ++ data) Hsp).
  - exact (swap16_at (le16 (net_htons sport)) dport (le16 (net_htons (8 + zlen data)) ++ le16 0 ++ data) Hdp).
  - rewrite Hz. exact (swap16_at (le16 (net_htons sport) ++ le16 (net_htons dport)) (8 + zlen data) (le16 0 ++ data) ltac:(lia)).
  - exact (slice_rest (udp_header sport dport (8 + zlen data)) data).
Qed.

(** A datagram that waits in the socket is what the program gets. *)
Lemma udp_recv_filled nic_send n j s maxlen timeout data src sport :
  n_ring n = [] -> udp_sockets n !! j = Some (udp_filled s src sport data) -> us_used s = true -> 0 < zlen data <= maxlen -> 0 < timeout ->
  exists n', udp_recvfrom (netif_poll nic_send) n j maxlen timeout = Ok (Some (data, src, sport), n').
Proof.
  intros Hr Hj Hu Hl Ht. unfold udp_recvfrom. rewrite Hj. cbn [udp_filled us_used]. rewrite Hu.
  cbn [udp_recv_wait]. rewrite (proj2 (Z.ltb_lt 0 timeout)) by done.
  assert (exists n1, netif_poll nic_send n = Ok n1 /\ udp_sockets n1 = udp_sockets n) as (n1 & -> & E1).
  { unfold netif_poll. destruct (n_rx_busy n); [by exists n|]. destruct (ni_send _); [|by exists n]. rewrite Hr. cbn. by eexists. }
  cbn [mbind res_bind]. rewrite E1, Hj. cbn [udp_filled us_rx_count us_rx_buf us_remote_ip us_remote_port]. rewrite (proj2 (Z.ltb_lt _ _)) by lia.
  rewrite Z.min_l by lia. rewrite (slice_at [] data (drop (length data) (us_rx_buf s)) : slice (data ++ _) 0 (zlen data) = _). cbn. by eexists.
Qed.
End udp.

(** *** Machine A sends to machine B *)
Section roundtrip.
Context (nic_a nic_b : frame -> Z) (A B : net) (HA : net_ok A) (HB : net_ok B).
Context (i j : nat) (sa sb : udp_socket) (dst dport : Z) (data : list Z).
Context (Hia : udp_sockets A !! i = Some sa) (Hua : us_used sa = true) (Hba : us_bound sa = true).
Context (Hpa : 0 <= us_local_port sa < 65536) (Hdp : 0 <= dport < 65536) (Hdst : 0 <= dst < 4294967295).
Context (Hipa : 0 <= ni_ip (n_if A) < 2 ^ 32) (Hsa : ni_send (n_if A) = true).
Context (Hlen : zlen data <= NET_MTU - 28).
Context (Htk : takes (n_if B) dst = true) (Hj : index_of (udp_bound_to dport) 0 (udp_sockets B) = Some j).
Context (Hib : udp_sockets B !! j = Some sb) (Hcb : us_rx_count sb = 0).

Lemma udp_sendto_frame mac A1 :
  arp_resolve nic_a (netif_poll nic_a) A (next_hop (n_if A) dst) = Ok (Some mac, A1) ->
  exists ck, ip_checksum (ipv4_header (20 + (8 + zlen data)) IP_PROTO_UDP 0 (ni_ip (n_if A)) dst) = Ok ck /\ zlen mac = 6 /\
    let f := ip_frame mac (ni_mac (n_if A)) IP_PROTO_UDP ck (ni_ip (n_if A)) dst (udp_packet (us_local_port sa) dport data) in
    udp_sendto nic_a (netif_poll nic_a) A i dst dport data = Ok (nic_a f, with_sent A1 (n_sent A1 ++ [f])).
Proof.
  intros Ha. destruct (ipv4_transmit_frame nic_a (netif_poll nic_a) (netif_poll_safe nic_a) A dst IP_PROTO_UDP
    (udp_packet (us_local_port sa) dport data) mac A1) as (ck & Hck & Hs & Hm & E); [done| |lia|done|].
  { rewrite zlen_udp_packet. unfold NET_MTU in *. lia. }
  exists ck. rewrite zlen_udp_packet in Hck. split; [done|]. split; [done|]. cbn zeta. unfold udp_sendto. rewrite Hia, Hua, Hba. cbn [negb].
  rewrite (proj2 (Z.ltb_ge _ _)) by (unfold NET_MTU in *; lia). cbn zeta. rewrite Hia. unfold fits, NET_MAX_PACKET, NET_MTU in *.
  rewrite (proj2 (Z.leb_le _ _)) by lia. cbn [mbind res_bind].
  change (default 0 (us_local_port <$> Some sa)) with (us_local_port sa). fold (udp_packet (us_local_port sa) dport data).
  rewrite E. unfold netif_send. by rewrite (sp_if _ _ Hs), Hsa.
Qed.

Lemma udp_frame_receive mac ck :
  zlen mac = 6 -> ip_checksum (ipv4_header (20 + (8 + zlen data)) IP_PROTO_UDP 0 (ni_ip (n_if A)) dst) = Ok ck ->
  exists B', netif_receive nic_b B (ip_frame mac (ni_mac (n_if A)) IP_PROTO_UDP ck (ni_ip (n_if A)) dst (udp_packet (us_local_port sa) dport data)) = Ok B' /\
    udp_sockets B' = <[j := udp_filled sb (ni_ip (n_if A)) (us_local_port sa) data]> (udp_sockets B) /\ n_ring B' = n_ring B /\
    n_wakes B' = n_wakes B ++ [1].
Proof.
  intros Hm Hck. assert (net_ok (with_busy B true)) as HB' by (destruct HB; by split).
  rewrite ip_frame_receive; [|done|by apply no_mac|done|done|lia|rewrite zlen_udp_packet; unfold NET_MTU in *; lia|done|by rewrite zlen_udp_packet].
  change (ip_dispatch nic_b (with_busy B true) IP_PROTO_UDP) with (udp_receive (with_busy B true)).
  rewrite (udp_receive_packet (with_busy B true) (ni_ip (n_if A)) (us_local_port sa) dport data j sb) by done. cbn. eexists. split; [reflexivity|]. done.
Qed.

(** C22: a datagram of at least one byte that the program of one machine sends
    is what the program of the other machine receives. When the address of the
    next hop resolves, the call hands one frame to the driver; the other
    machine, which takes packets for the destination, has a socket on the port
    with an empty buffer and no frames waiting, receives the frame; and its
    program, asking with a timeout that is not zero for at least as many bytes,
    gets from [udp_recvfrom] exactly the bytes sent, with the sender's address
    and port, whatever padding the frame has. (An empty datagram is never
    received.) *)
Theorem udp_roundtrip mac A1 maxlen timeout :
  arp_resolve nic_a (netif_poll nic_a) A (next_hop (n_if A) dst) = Ok (Some mac, A1) ->
  n_ring B = [] -> 0 < zlen data <= maxlen -> 0 < timeout ->
  exists f B' B'',
    udp_sendto nic_a (netif_poll nic_a) A i dst dport data = Ok (nic_a f, with_sent A1 (n_sent A1 ++ [f])) /\
    netif_receive nic_b B f = Ok B' /\
    udp_recvfrom (netif_poll nic_b) B' j maxlen timeout = Ok (Some (data, ni_ip (n_if A), us_local_port sa), B'').
Proof.
  intros Ha Hr Hmax Ht. destruct (udp_sendto_frame mac A1 Ha) as (ck & Hck & Hm & E).
  destruct (udp_frame_receive mac ck Hm Hck) as (B' & E' & Hu & Hr' & _).
  destruct (index_of_lookup _ _ _ _ Hj) as (s' & Hs' & Hb & _). rewrite Nat.sub_0_r, Hib in Hs'. injection Hs' as <-.
  unfold udp_bound_to in Hb. apply andb_true_iff in Hb as [[Hub _]%andb_true_iff _].
  destruct (udp_recv_filled nic_b B' j sb maxlen timeout data (ni_ip (n_if A)) (us_local_port sa)) as (B'' & E''); [congruence| |done|done|done|].
  { rewrite Hu. apply list_lookup_insert_eq. by eapply lookup_lt_Some. }
  by exists (ip_frame mac (ni_mac (n_if A)) IP_PROTO_UDP ck (ni_ip (n_if A)) dst (udp_packet (us_local_port sa) dport data)), B', B''.
Qed.
End roundtrip.

(** ** ARP *)

(** The machine finds [mac] for [ip] in its cache. *)
Definition knows n (ip : Z) (mac : list Z) : Prop := exists n' k, arp_find n ip = (n', Some k) /\ entry_mac n' k = mac.

Lemma arp_scan_fresh now ip i l k e :
  l !! k = Some e -> u32 (now - ae_timestamp e) <= ARP_TIMEOUT_MS -> (arp_scan now ip i l).1 !! k = Some e.
Proof.
  revert i k. induction l as [|x l IH]; intros i k Hk Ht; [done|]. cbn [arp_scan]. specialize (IH (S i)).
  destruct (arp_scan now ip (S i) l) as [l' r]. cbn in IH.
  destruct (negb (ae_valid x)); [destruct k; cbn in *; [done|by apply IH]|].
  destruct (Z.ltb_spec ARP_TIMEOUT_MS (u32 (now - ae_timestamp x))).
  - destruct k; cbn in *; [injection Hk as ->; lia|by apply IH].
  - destruct (_ =? _); [done|]. destruct k; cbn in *; [done|by apply IH].
Qed.

Lemma knows_entry n ip mac k : net_ok n -> arp_cache n !! k = Some (mk_arp ip mac (arp_now_ms n) true) -> knows n ip mac.
Proof.
  intros Hn Hk. pose proof (arp_find_steps n ip Hn) as Hs. pose proof (arp_find_spec n ip) as Hf.
  pose proof (arp_scan_fresh (arp_now_ms n) ip 0 _ _ _ Hk ltac:(cbn; rewrite Z.sub_diag; done)) as Hfr.
  destruct (arp_find n ip) as [n' r] eqn:E. destruct (Hf n' r eq_refl) as (_ & Hr & _ & _).
  assert (arp_cache n' !! k = Some (mk_arp ip mac (arp_now_ms n) true)) as Hk'.
  { unfold arp_find in E. destruct (arp_scan _ _ _ _) as [l x]. injection E as <- _. exact Hfr. }
  destruct r as [j|]; [|by destruct (Hr k _ Hk')]. destruct Hr as (e & He & Hv & Hip & _).
  pose proof (no_unique _ (sp_ok _ _ Hs) j k _ _ He Hk' Hv eq_refl Hip) as ->.
  exists n', k. split; [done|]. unfold entry_mac. by rewrite Hk'.
Qed.

Section arp.
Context (nic_send : frame -> Z).

Definition arp_message (oper : Z) (sha : list Z) (spa : Z) (tha : list Z) (tpa : Z) : list Z :=
  arp_packet (net_htons ARP_HTYPE_ETH) (net_htons ARP_PTYPE_IP) 6 4 (net_htons oper) sha (net_htonl spa) tha (net_htonl tpa).

(** The fields of a message. *)
Record arp_fields (data : list Z) (oper : Z) (sha : list Z) (spa tpa : Z) : Prop := {
  af_len : 28 <= zlen data;
  af_htype : ld16 data 0 = Ok (net_htons ARP_HTYPE_ETH);
  af_ptype : ld16 data 2 = Ok (net_htons ARP_PTYPE_IP);
  af_oper : swap16 data 6 = Ok oper;
  af_sha : slice data 8 6 = Ok sha;
  af_spa : ld32 data 14 = Ok (net_htonl spa);
  af_tpa : swap32 data 24 = Ok tpa
}.

Lemma arp_message_fields oper sha spa tha tpa pad :
  0 <= oper < 65536 -> 0 <= spa < 2 ^ 32 -> 0 <= tpa < 2 ^ 32 -> zlen sha = 6 -> zlen tha = 6 ->
  arp_fields (arp_message oper sha spa tha tpa ++ pad) oper sha spa tpa.
Proof.
  intros Ho Hs Ht Hsl Htl. pose proof (zlen_nonneg pad). unfold arp_message, arp_packet.
  set (h := le16 (net_htons ARP_HTYPE_ETH)). set (p := le16 (net_htons ARP_PTYPE_IP)). rewrite <- !app_assoc.
  assert (zlen h = 2 /\ zlen p = 2) as [Hh Hp] by done. split.
  - rewrite !zlen_app, !zlen_le32, zlen_le16, Hsl, Htl, Hh, Hp. change (zlen [6; 4]) with 2. lia.
  - apply (ld16_at [] (net_htons ARP_HTYPE_ETH)). done.
  - apply (ld16_at h (net_htons ARP_PTYPE_IP)). done.
  - apply (swap16_at (h ++ p ++ [6; 4]) oper). done.
  - pose proof (slice_at (h ++ p ++ [6; 4] ++ le16 (net_htons oper)) sha (le32 (net_htonl spa) ++ tha ++ le32 (net_htonl tpa) ++ pad)) as E.
    rewrite Hsl, <- !app_assoc in E. exact E.
  - pose proof (ld32_at (h ++ p ++ [6; 4] ++ le16 (net_htons oper) ++ sha) (net_htonl spa) (tha ++ le32 (net_htonl tpa) ++ pad) (htonl_range _ Hs)) as E.
    rewrite !zlen_app, zlen_le16, Hh, Hp, Hsl, <- !app_assoc in E. exact E.
  - pose proof (swap32_at (h ++ p ++ [6; 4] ++ le16 (net_htons oper) ++ sha ++ le32 (net_htonl spa) ++ tha) tpa pad Ht) as E.
    rewrite !zlen_app, zlen_le16, zlen_le32, Hh, Hp, Hsl, Htl, <- !app_assoc in E. exact E.
Qed.

Definition is_request n (oper tpa : Z) : bool := (oper =? ARP_OP_REQUEST) && (tpa =? ni_ip (n_if n)).

(** What a machine does with a message. *)
Lemma arp_receive_message n data oper sha spa tpa :
  net_ok n -> 0 <= spa < 2 ^ 32 -> arp_fields data oper sha spa tpa ->
  arp_receive nic_send n data =
  (n1 ← (if (oper =? ARP_OP_REPLY) || is_request n oper tpa then arp_cache_update n spa sha else Ok n);
   if is_request n oper tpa then
     '(_, n2) ← eth_transmit nic_send n1 sha ETH_TYPE_ARP (arp_message ARP_OP_REPLY (ni_mac (n_if n1)) (ni_ip (n_if n1)) sha spa);
     Ok n2
   else Ok n1).
Proof.
  intros Hn Hspa []. unfold arp_receive, is_request. rewrite (proj2 (Z.ltb_ge _ _)) by lia. 
  assert (swap16 data 0 = Ok ARP_HTYPE_ETH) as -> by (unfold swap16; rewrite af_htype0; done).
  assert (swap16 data 2 = Ok ARP_PTYPE_IP) as -> by (unfold swap16; rewrite af_ptype0; done).
  assert (swap32 data 14 = Ok spa) as -> by (unfold swap32; rewrite af_spa0; cbn [mbind res_bind]; by rewrite htonl_htonl).
  rewrite af_htype0, af_ptype0, af_oper0, af_sha0, af_spa0, af_tpa0. cbn [mbind res_bind]. rewrite !Z.eqb_refl. cbn [negb orb]. cbn zeta.
  assert (forall m, net_ok m -> slice (ni_mac (n_if m)) 0 6 = Ok (ni_mac (n_if m))) as Hmac.
  { intros m Hm. pose proof (slice_full (ni_mac (n_if m))) as E. by rewrite (no_mac m Hm) in E. }
  destruct (oper =? ARP_OP_REQUEST) eqn:Er; cbn [andb]; [|by destruct (oper =? ARP_OP_REPLY)].
  destruct (tpa =? ni_ip (n_if n)) eqn:Et; [|by destruct (oper =? ARP_OP_REPLY)]. rewrite orb_true_r.
  assert (zlen sha = 6) as Hsl.
  { pose proof (slice_total data 8 6 ltac:(lia) ltac:(lia) ltac:(lia)) as H. rewrite af_sha0 in H. exact H. }
  pose proof (arp_cache_update_safe n spa sha Hn Hsl) as Hu. destruct (arp_cache_update n spa sha) as [n1| | |]; try done. cbn [mbind res_bind].
  rewrite (Hmac n1) by apply Hu. cbn [mbind res_bind]. done.
Qed.
End arp.

(** *** A request and its reply *)
Section exchange.
Context (nic_a nic_b : frame -> Z) (A B : net) (HA : net_ok A) (HB : net_ok B).
Notation mac n := (ni_mac (n_if n)).
Notation ip n := (ni_ip (n_if n)).
Context (Hsa : ni_send (n_if A) = true) (Hsb : ni_send (n_if B) = true).
Context (Hipa : 0 <= ip A < 2 ^ 32) (Hipb : 0 <= ip B < 2 ^ 32).

Definition request_frame : frame :=
  eth_frame [255; 255; 255; 255; 255; 255] (mac A) ETH_TYPE_ARP (arp_message ARP_OP_REQUEST (mac A) (ip A) [0; 0; 0; 0; 0; 0] (ip B)).
Definition reply_frame : frame := eth_frame (mac A) (mac B) ETH_TYPE_ARP (arp_message ARP_OP_REPLY (mac B) (ip B) (mac A) (ip A)).

Lemma zlen_arp_message oper sha spa tha tpa : zlen sha = 6 -> zlen tha = 6 -> zlen (arp_message oper sha spa tha tpa) = 28.
Proof. intros Hs Ht. unfold arp_message. rewrite zlen_arp_packet, Hs, Ht. done. Qed.

Lemma busy_ok n b : net_ok n -> net_ok (with_busy n b).
Proof. intros []. by split. Qed.

Lemma send_request : arp_send_request nic_a A (ip B) = Ok (with_sent A (n_sent A ++ [request_frame])).
Proof.
  pose proof (no_mac A HA) as Hm. unfold arp_send_request. pose proof (slice_full (mac A)) as E. rewrite Hm in E. rewrite E. cbn [mbind res_bind].
  fold (arp_message ARP_OP_REQUEST (mac A) (ip A) [0; 0; 0; 0; 0; 0] (ip B)).
  rewrite eth_transmit_frame; [|done|done|rewrite zlen_arp_message; done]. unfold netif_send. rewrite Hsa. done.
Qed.

(** A frame with an ARP message: its sender is known afterwards. *)
Lemma learn nic n oper sha spa tha tpa dmac :
  net_ok n -> zlen sha = 6 -> zlen tha = 6 -> zlen dmac = 6 -> 0 <= oper < 65536 -> 0 <= spa < 2 ^ 32 -> 0 <= tpa < 2 ^ 32 ->
  (oper =? ARP_OP_REPLY) || is_request n oper tpa = true ->
  exists n1, net_ok n1 /\ n_if n1 = n_if n /\ n_sent n1 = n_sent n /\ (forall l, knows (with_busy (with_sent n1 l) false) spa sha) /\
    netif_receive nic n (eth_frame dmac sha ETH_TYPE_ARP (arp_message oper sha spa tha tpa)) =
    Ok (with_busy (if is_request n oper tpa
        then with_sent n1 (n_sent n1 ++ if ni_send (n_if n) then [eth_frame sha (mac n) ETH_TYPE_ARP (arp_message ARP_OP_REPLY (mac n) (ip n) sha spa)] else [])
        else with_sent n1 (n_sent n1)) false).
Proof.
  intros Hn Hs Ht Hd Ho Hsp Htp Hc. pose proof (busy_ok n true Hn) as Hb.
  rewrite netif_receive_frame; [|done|done|done|by rewrite zlen_arp_message].
  change (eth_dispatch nic (with_busy n true) ETH_TYPE_ARP) with (arp_receive nic (with_busy n true)).
  rewrite (arp_receive_message nic (with_busy n true) _ oper sha spa tpa Hb Hsp) by (by apply arp_message_fields).
  change (is_request (with_busy n true)) with (is_request n). rewrite Hc.
  pose proof (arp_cache_update_spec (with_busy n true) spa sha Hb Hs) as Hu.
  destruct (arp_cache_update (with_busy n true) spa sha) as [n1| | |]; try done. cbn in Hu. destruct Hu as (Hst & Hnow & Hsent & k & Hk).
  pose proof (sp_ok _ _ Hst) as Hn1. pose proof (sp_if _ _ Hst) as Hif. cbn in Hif. cbn [mbind res_bind]. exists n1. split_and!; try done.
  - intros l. apply (knows_entry _ spa sha k); [apply busy_ok; by apply steps_sent|]. cbn. rewrite Hk. unfold arp_now_ms. cbn. by rewrite Hnow.
  - destruct (is_request n oper tpa); [|by destruct n1]. rewrite eth_transmit_frame; [|done|done|rewrite Hif; rewrite zlen_arp_message; [done|by apply no_mac|done]].
    unfold netif_send. rewrite Hif. destruct (ni_send (n_if n)); cbn; [done|]. rewrite app_nil_r. by destruct n1.
Qed.

(** an ARP exchange. The request that machine A broadcasts for machine B's
    address reaches B, which learns A's hardware address and sends one reply;
    the reply reaches A, which learns B's. Afterwards each machine finds the
    other in its cache. *)
Theorem arp_exchange :
  exists A1 B' A', arp_send_request nic_a A (ip B) = Ok A1 /\ n_sent A1 = n_sent A ++ [request_frame] /\
    netif_receive nic_b B request_frame = Ok B' /\ n_sent B' = n_sent B ++ [reply_frame] /\
    netif_receive nic_a A1 reply_frame = Ok A' /\ n_sent A' = n_sent A1 /\ knows A' (ip B) (mac B) /\ knows B' (ip A) (mac A).
Proof.
  pose proof (no_mac A HA) as HmA. pose proof (no_mac B HB) as HmB.
  set (A1 := with_sent A (n_sent A ++ [request_frame])). assert (net_ok A1) as HA1 by (by apply steps_sent).
  assert (is_request B ARP_OP_REQUEST (ip B) = true) as Hq by (unfold is_request; by rewrite !Z.eqb_refl).
  assert (is_request A1 ARP_OP_REPLY (ip A) = false) as Hr by done.
  destruct (learn nic_b B ARP_OP_REQUEST (mac A) (ip A) [0; 0; 0; 0; 0; 0] (ip B) [255; 255; 255; 255; 255; 255])
    as (n1 & _ & _ & Hs1 & Hk1 & E1); try done.
  destruct (learn nic_a A1 ARP_OP_REPLY (mac B) (ip B) (mac A) (ip A) (mac A)) as (n2 & _ & _ & Hs2 & Hk2 & E2); try done.
  rewrite Hq, Hsb in E1. rewrite Hr in E2. exists A1. do 2 eexists. split; [apply send_request|]. split; [done|]. split; [exact E1|].
  split; [cbn; by rewrite Hs1|]. split; [exact E2|]. split; [exact Hs2|]. split; [apply Hk2|apply Hk1].
Qed.
End exchange.

(** ** Two machines *)

Lemma demo_resolves : exists A1, arp_resolve (fun _ => 0) (netif_poll (fun _ => 0)) demo_a (next_hop (n_if demo_a) 167772162) = Ok (Some (demo_mac 2), A1).
Proof. eexists. vm_compute. reflexivity. Qed.

Lemma udp_roundtrip_witness :
  exists A1 f B' B'',
    udp_sendto (fun _ => 0) (netif_poll (fun _ => 0)) demo_a 0 167772162 53 [104; 105] = Ok (0, with_sent A1 (n_sent A1 ++ [f])) /\
    netif_receive (fun _ => 0) demo_b f = Ok B' /\
    udp_recvfrom (netif_poll (fun _ => 0)) B' 0 100 50 = Ok (Some ([104; 105], 167772161, 5000), B'').
Proof.
  destruct demo_resolves as [A1 HA1]. exists A1.
  exact (udp_roundtrip (fun _ => 0) (fun _ => 0) demo_a demo_b demo_a_ok demo_b_ok 0 0 (demo_udp 5000) (demo_udp 53) 167772162 53 [104; 105]
    eq_refl eq_refl eq_refl ltac:(done) ltac:(done) ltac:(done) ltac:(done) eq_refl ltac:(done) eq_refl eq_refl eq_refl eq_refl
    (demo_mac 2) A1 100 50 HA1 eq_refl ltac:(done) ltac:(done)).
Defined.

Lemma arp_exchange_witness :
  exists A1 B' A', arp_send_request (fun _ => 0) demo_a (ni_ip (n_if demo_b)) = Ok A1 /\ n_sent A1 = n_sent demo_a ++ [request_frame demo_a demo_b] /\
    netif_receive (fun _ => 0) demo_b (request_frame demo_a demo_b) = Ok B' /\ n_sent B' = n_sent demo_b ++ [reply_frame demo_a demo_b] /\
    netif_receive (fun _ => 0) A1 (reply_frame demo_a demo_b) = Ok A' /\ n_sent A' = n_sent A1 /\
    knows A' (ni_ip (n_if demo_b)) (ni_mac (n_if demo_b)) /\ knows B' (ni_ip (n_if demo_a)) (ni_mac (n_if demo_a)).
Proof. exact (arp_exchange (fun _ => 0) (fun _ => 0) demo_a demo_b demo_a_ok demo_b_ok eq_refl eq_refl ltac:(done) ltac:(done)). Defined.
