(* ===== verification/Streams.v ===== *)
(** * The TCP receiver delivers the peer's stream

    src/src/kernel/net/tcp.c from the segment to the program: the ring of
    received bytes, the acceptance of segments in order, and [tcp_recv],
    against the stream of bytes the peer sends. *)

From S2P Require Import Prelude Net Tcp Stack StackSafe Wire Datagrams.

(** ** The ring of received bytes *)

(** [c] bytes from [tail] on. *)
Fixpoint ring (c : nat) (buf : gmap Z Z) (tail : Z) : list Z :=
  match c with
  | O => []
  | S c => default 0 (buf !! tail) :: ring c buf ((tail + 1) mod 65536)
  end.

(** The number of bytes between the indices. *)
Definition ring_count (head tail : Z) : nat := Z.to_nat ((head - tail) mod 65536).

Notation contents buf head tail := (ring (ring_count head tail) buf tail).
Notation index x := (0 <= x < 65536).

Lemma ring_length c buf tail : length (ring c buf tail) = c.
Proof. revert tail. induction c as [|c IH]; intros tail; cbn; [done|by rewrite IH]. Qed.

Lemma ring_snoc c buf tail : index tail -> ring (S c) buf tail = ring c buf tail ++ [default 0 (buf !! ((tail + Z.of_nat c) mod 65536))].
Proof.
  revert tail. induction c as [|c IH]; intros tail Ht.
  - cbn. by rewrite Z.add_0_r, Z.mod_small by lia.
  - change (default 0 (buf !! tail) :: ring (S c) buf ((tail + 1) mod 65536) =
      default 0 (buf !! tail) :: (ring c buf ((tail + 1) mod 65536) ++ [default 0 (buf !! ((tail + Z.of_nat (S c)) mod 65536))])).
    rewrite IH by mlia. do 5 f_equal. rewrite Zplus_mod_idemp_l. f_equal. lia.
Qed.

Lemma ring_insert c buf tail h b : index tail -> index h -> Z.of_nat c <= (h - tail) mod 65536 -> ring c (<[h := b]> buf) tail = ring c buf tail.
Proof.
  revert tail. induction c as [|c IH]; intros tail Ht Hh Hc; [done|]. cbn. rewrite lookup_insert_ne by (intros ->; mlia).
  rewrite IH; [done|mlia|done|mlia].
Qed.

Lemma next_index h : u16 ((h + 1) mod TCP_RX_BUFSZ) = (h + 1) mod 65536.
Proof. unfold TCP_RX_BUFSZ. cint_lia. Qed.

(** One byte more. *)
Lemma ring_push buf head tail b :
  index head -> index tail -> (head + 1) mod 65536 <> tail ->
  contents (<[head := b]> buf) ((head + 1) mod 65536) tail = contents buf head tail ++ [b] /\
  ring_count ((head + 1) mod 65536) tail = S (ring_count head tail).
Proof.
  intros Hh Ht Hne. assert (ring_count ((head + 1) mod 65536) tail = S (ring_count head tail)) as Hc by (unfold ring_count; mlia).
  split; [|done]. rewrite Hc. rewrite ring_snoc by done.
  f_equal; [apply ring_insert; unfold ring_count; mlia|]. replace ((tail + _) mod 65536) with head by (unfold ring_count; mlia). by rewrite lookup_insert_eq.
Qed.

(** The ring takes the bytes it has room for, and drops the rest. *)
Lemma rx_push_spec buf head tail data :
  index head -> index tail ->
  let '(buf', head') := rx_push buf head tail data in
  index head' /\ contents buf' head' tail = contents buf head tail ++ take (Z.to_nat 65535 - ring_count head tail) data.
Proof.
  revert buf head. induction data as [|b data IH]; intros buf head Hh Ht; cbn [rx_push].
  { by rewrite take_nil, app_nil_r. }
  cbn zeta. rewrite next_index. destruct (Z.eqb_spec ((head + 1) mod 65536) tail) as [E|E].
  - replace (Z.to_nat 65535 - ring_count head tail)%nat with O by (unfold ring_count; mlia). cbn. by rewrite app_nil_r.
  - destruct (ring_push buf head tail b Hh Ht E) as [H1 H2]. specialize (IH (<[head := b]> buf) ((head + 1) mod 65536) ltac:(mlia) Ht).
    destruct (rx_push _ _ _ _) as [buf' head']. destruct IH as [Hi IH]. split; [done|]. rewrite IH, H1, H2, <- app_assoc. f_equal.
    assert (ring_count head tail < Z.to_nat 65535)%nat by (unfold ring_count; mlia).
    replace (Z.to_nat 65535 - ring_count head tail)%nat with (S (Z.to_nat 65535 - S (ring_count head tail))) by lia. done.
Qed.

Lemma drain_spec maxlen buf head tail :
  index head -> index tail ->
  let '(l, tail') := drain maxlen buf head tail in
  index tail' /\ l = take maxlen (contents buf head tail) /\ contents buf head tail' = drop maxlen (contents buf head tail).
Proof.
  revert tail. induction maxlen as [|m IH]; intros tail Hh Ht; cbn [drain]; [by rewrite take_0, drop_0|].
  destruct (Z.eqb_spec tail head) as [->|E].
  - assert (ring_count head head = O) as -> by (unfold ring_count; by rewrite Z.sub_diag). done.
  - rewrite next_index. specialize (IH ((tail + 1) mod 65536) Hh ltac:(mlia)). destruct (drain _ _ _ _) as [l t']. destruct IH as (Hi & -> & Hd).
    assert (ring_count head tail = S (ring_count head ((tail + 1) mod 65536))) as -> by (unfold ring_count; mlia).
    split; [done|]. split; [done|]. exact Hd.
Qed.

(** ** Sending does not touch the sockets *)

(** [Q] holds of a normal result. *)
Definition ifok {A} (Q : A -> Prop) (r : res A) : Prop := match r with Ok a => Q a | _ => True end.

Lemma ifok_bind {A B} (Q : A -> Prop) (Q' : B -> Prop) (r : res A) (f : A -> res B) :
  ifok Q r -> (forall a, Q a -> ifok Q' (f a)) -> ifok Q' (r ≫= f).
Proof. destruct r; cbn; auto. Qed.

Lemma ifok_any {A B} (Q : B -> Prop) (r : res A) (f : A -> res B) : (forall a, ifok Q (f a)) -> ifok Q (r ≫= f).
Proof. destruct r; cbn; auto. Qed.

(** A card without frames, now and later. *)
Definition card_quiet n : Prop := n_ring n = [] /\ n_env n = [].

Section keeps.
Context (nic_send : frame -> Z) (poll : net -> res net) (Q : net -> Prop).
Context (Qdelay : forall n ms, Q n -> Q (pit_delay_ms n ms)) (Qarp : forall n c v, Q n -> Q (with_arp n c v)).
Context (Qsent : forall n l, Q n -> Q (with_sent n l)).

Definition same n n' : Prop := tcp_sockets n' = tcp_sockets n /\ Q n'.
Context (Qpoll : forall n, Q n -> ifok (same n) (poll n)).

Definition keeps {A} n (r : res (A * net)) : Prop := ifok (fun x => same n x.2) r.

Lemma same_trans n1 n2 n3 : same n1 n2 -> same n2 n3 -> same n1 n3.
Proof. intros [E1 _] [E2 H]. split; [congruence|done]. Qed.

Lemma keeps_trans {A} n1 n2 (r : res (A * net)) : same n1 n2 -> keeps n2 r -> keeps n1 r.
Proof. intros H. destruct r as [[x n3]| | |]; cbn; try done. by apply same_trans. Qed.

Lemma eth_transmit_keeps n mac type payload : Q n -> keeps n (eth_transmit nic_send n mac type payload).
Proof.
  intros HQ. unfold eth_transmit. destruct (_ <? _); [by split|]. do 2 (apply ifok_any; intros ?). apply ifok_any. intros _.
  unfold netif_send. destruct (ni_send _); split; cbn; auto.
Qed.

Lemma arp_find_same n ip : Q n -> same n (arp_find n ip).1.
Proof. intros HQ. unfold arp_find. destruct (arp_scan _ _ _ _). split; cbn; auto. Qed.

Lemma arp_send_request_same n ip : Q n -> ifok (same n) (arp_send_request nic_send n ip).
Proof.
  intros HQ. unfold arp_send_request. apply ifok_any. intros mac. eapply ifok_bind; [by apply eth_transmit_keeps|]. by intros [x n'] H.
Qed.

Lemma delay_same n ms : Q n -> same n (pit_delay_ms n ms).
Proof. intros HQ. split; [|by apply Qdelay]. unfold pit_delay_ms. by destruct (n_env n). Qed.

Lemma arp_wait_keeps fuel retry n ip : Q n -> keeps n (arp_wait nic_send poll fuel retry n ip).
Proof.
  revert retry n. induction fuel as [|fuel IH]; intros retry n HQ; [by split|]. cbn [arp_wait].
  eapply keeps_trans; [apply (delay_same n 2 HQ)|]. eapply ifok_bind; [by apply Qpoll, Qdelay|]. intros n2 H2.
  pose proof (arp_find_same n2 ip (proj2 H2)) as Hf. destruct (arp_find n2 ip) as [n3 [i|]]; cbn in Hf.
  { exact (same_trans _ _ _ H2 Hf). }
  destruct (n_rx_busy n3); [exact (same_trans _ _ _ H2 Hf)|]. eapply ifok_bind with (Q := same n3).
  { destruct (_ =? _); [by apply arp_send_request_same, Hf|split; [done|apply Hf]]. }
  intros n4 H4. eapply keeps_trans; [exact (same_trans _ _ _ H2 (same_trans _ _ _ Hf H4))|]. apply IH, H4.
Qed.

Lemma arp_resolve_keeps n ip : Q n -> keeps n (arp_resolve nic_send poll n ip).
Proof.
  intros HQ. unfold arp_resolve. destruct (ip =? _); [by split|]. cbn zeta.
  generalize (if negb (Z.land (ni_ip (n_if n)) (ni_netmask (n_if n)) =? Z.land ip (ni_netmask (n_if n))) && truthy (ni_gateway (n_if n))
    then ni_gateway (n_if n) else ip). intros ip'. pose proof (arp_find_same n ip' HQ) as Hf. destruct (arp_find n ip') as [n1 [i|]]; cbn in Hf; [exact Hf|].
  eapply ifok_bind; [by apply arp_send_request_same, Hf|]. intros n2 H2. eapply keeps_trans; [exact (same_trans _ _ _ Hf H2)|]. apply arp_wait_keeps, H2.
Qed.

Lemma ipv4_transmit_keeps n dst proto payload : Q n -> keeps n (ipv4_transmit nic_send poll n dst proto payload).
Proof.
  intros HQ. unfold ipv4_transmit. cbn zeta. destruct (_ <? _); [by split|]. do 2 (apply ifok_any; intros ?).
  eapply ifok_bind with (Q := fun x => same n x.2). { destruct (dst =? _); [by split|by apply arp_resolve_keeps]. }
  intros [[mac|] n1] H1; [|exact H1]. eapply keeps_trans; [exact H1|]. apply eth_transmit_keeps, H1.
Qed.

Lemma tcp_transmit_keeps n s seq flags payload : Q n -> keeps n (tcp_transmit_seg nic_send poll n s seq flags payload).
Proof.
  intros HQ. unfold tcp_transmit_seg. cbn zeta. destruct (_ <? _); [by split|]. do 2 (apply ifok_any; intros ?). by apply ipv4_transmit_keeps.
Qed.
End keeps.

(** From a dispatch, and from a program while the card is quiet. *)
Lemma tcp_ack_keeps nic_send n s seq flags payload :
  ifok (fun x => tcp_sockets x.2 = tcp_sockets n /\ (card_quiet n -> card_quiet x.2)) (tcp_transmit_seg nic_send poll_busy n s seq flags payload).
Proof.
  apply (tcp_transmit_keeps nic_send poll_busy (fun m => card_quiet n -> card_quiet m)).
  - intros m ms Hm Hq. destruct (Hm Hq) as [Hr He]. unfold pit_delay_ms. rewrite He. by split.
  - intros m c v Hm Hq. exact (Hm Hq).
  - intros m l Hm Hq. exact (Hm Hq).
  - intros m Hm. by split.
  - done.
Qed.

Lemma poll_quiet nic_send n : card_quiet n -> exists n', netif_poll nic_send n = Ok n' /\ tcp_sockets n' = tcp_sockets n /\ card_quiet n'.
Proof.
  intros [Hr He]. unfold netif_poll. destruct (n_rx_busy n); [by exists n|]. destruct (ni_send _); [|by exists n].
  rewrite Hr. cbn. eexists. by split.
Qed.

Lemma tcp_transmit_quiet nic_send n s seq flags payload :
  card_quiet n -> ifok (fun x => tcp_sockets x.2 = tcp_sockets n /\ card_quiet x.2) (tcp_transmit_seg nic_send (netif_poll nic_send) n s seq flags payload).
Proof.
  apply (tcp_transmit_keeps nic_send (netif_poll nic_send) card_quiet).
  - intros m ms [Hr He]. unfold pit_delay_ms. rewrite He. by split.
  - intros m c v [Hr He]. by split.
  - intros m l [Hr He]. by split.
  - intros m Hm. destruct (poll_quiet nic_send m Hm) as (m' & -> & E & Hq). by split.
Qed.

(** ** Segments on the wire *)

Section segment.
Context (p : tcp_socket) (seq flags ck : Z) (payload : list Z).
Context (Hlp : 0 <= ts_local_port p < 65536) (Hrp : 0 <= ts_remote_port p < 65536).
Context (Hseq : 0 <= seq < 2 ^ 32) (Hack : 0 <= ts_rcv_nxt p < 2 ^ 32).

(** The segment in two halves around the checksum. *)
Definition seg_front : list Z :=
  le16 (net_htons (ts_local_port p)) ++ le16 (net_htons (ts_remote_port p)) ++ le32 (net_htonl seq) ++ le32 (net_htonl (ts_rcv_nxt p)) ++
  [96; flags] ++ le16 (net_htons (tcp_window p)).
Definition seg_back : list Z := le16 0 ++ mss_option ++ payload.

Lemma seg_split c : tcp_segment p seq flags c payload = seg_front ++ le16 c ++ seg_back.
Proof. done. Qed.

Lemma seg_checksum a b :
  is_byte flags -> Forall is_byte payload -> zlen payload <= TCP_MSS -> tcp_checksum a b (tcp_segment p seq flags 0 payload) = Ok ck ->
  tcp_checksum a b (tcp_segment p seq flags ck payload) = Ok 0.
Proof.
  intros Hf Hp Hl. rewrite !seg_split. intros E. apply tcp_checksum_field; [by exists 8%nat| | | |done].
  - unfold seg_front. repeat first [apply bytes_le16|apply bytes_le32|apply Forall_app_2|apply Forall_cons_2|apply Forall_nil_2]; unfold is_byte in *; lia.
  - unfold seg_back, mss_option. repeat first [apply bytes_le16|apply Forall_app_2|apply Forall_cons_2|apply Forall_nil_2|done]; unfold is_byte; vm_compute; lia.
  - unfold seg_back. rewrite !zlen_app. change (zlen seg_front) with 16. change (zlen mss_option) with 4. rewrite zlen_le16. unfold TCP_MSS in Hl. lia.
Qed.

(** The fields the receiver reads. *)
Record seg_fields (data : list Z) : Prop := {
  sf_len : zlen data = 24 + zlen payload;
  sf_src : swap16 data 0 = Ok (ts_local_port p);
  sf_dst : swap16 data 2 = Ok (ts_remote_port p);
  sf_seq : swap32 data 4 = Ok seq;
  sf_ack : swap32 data 8 = Ok (ts_rcv_nxt p);
  sf_off : ld data 12 = Ok 96;
  sf_flags : ld data 13 = Ok flags;
  sf_data : slice data 24 (zlen data - 24) = Ok payload
}.

Lemma seg_fields_of : seg_fields (tcp_segment p seq flags ck payload).
Proof.
  unfold tcp_segment, tcp_header. set (l := le16 (net_htons (ts_local_port p))). set (r := le16 (net_htons (ts_remote_port p))).
  set (q := le32 (net_htonl seq)). set (a := le32 (net_htonl (ts_rcv_nxt p))). change (u8 (Z.shiftl (24 / 4) 4)) with 96. split.
  - exact (zlen_tcp_segment p seq flags ck payload).
  - rewrite <- !app_assoc. by apply (swap16_at [] (ts_local_port p)).
  - rewrite <- !app_assoc. by apply (swap16_at l (ts_remote_port p)).
  - rewrite <- !app_assoc. by apply (swap32_at (l ++ r) seq).
  - rewrite <- !app_assoc. by apply (swap32_at (l ++ r ++ q) (ts_rcv_nxt p)).
  - done.
  - done.
  - rewrite app_assoc. exact (slice_rest ((l ++ r ++ q ++ a ++ [96; flags] ++ le16 (net_htons (tcp_window p)) ++ le16 ck ++ le16 0) ++ mss_option) payload).
Qed.
End segment.

(** ** A segment in an established connection *)

Section data.
Context (nic_send : frame -> Z).

(** The socket after a segment without FIN. *)
Definition accept (s : tcp_socket) (seq ack flags : Z) (payload : list Z) : tcp_socket :=
  let s := if has flags TCP_FLAG_ACK then process_ack s ack else s in
  if (0 <? zlen payload) && (seq =? ts_rcv_nxt s) then set_rcv (u32 (ts_rcv_nxt s + zlen payload)) (tcp_rx_push s payload) else s.

Lemma process_ack_fields s ack :
  ts_state (process_ack s ack) = ts_state s /\ ts_rcv_nxt (process_ack s ack) = ts_rcv_nxt s /\ ts_rx_buf (process_ack s ack) = ts_rx_buf s /\
  ts_rx_head (process_ack s ack) = ts_rx_head s /\ ts_rx_tail (process_ack s ack) = ts_rx_tail s /\ ts_rx_fin (process_ack s ack) = ts_rx_fin s /\
  forall a b c, tcp_match a b c (process_ack s ack) = tcp_match a b c s.
Proof. unfold process_ack. by destruct (_ && _). Qed.

(** The socket with its acknowledgement processed. *)
Definition acked (s : tcp_socket) (flags ack : Z) : tcp_socket := if has flags TCP_FLAG_ACK then process_ack s ack else s.

Lemma acked_fields s flags ack :
  ts_state (acked s flags ack) = ts_state s /\ ts_rcv_nxt (acked s flags ack) = ts_rcv_nxt s /\ ts_rx_buf (acked s flags ack) = ts_rx_buf s /\
  ts_rx_head (acked s flags ack) = ts_rx_head s /\ ts_rx_tail (acked s flags ack) = ts_rx_tail s /\ ts_rx_fin (acked s flags ack) = ts_rx_fin s /\
  forall a b c, tcp_match a b c (acked s flags ack) = tcp_match a b c s.
Proof. unfold acked. destruct (has _ _); [apply process_ack_fields|done]. Qed.

Lemma rx_push_fields s payload : exists buf head, tcp_rx_push s payload = set_ring buf head (ts_rx_tail s) s.
Proof. unfold tcp_rx_push. destruct (rx_push _ _ _ _) as [buf head]. by exists buf, head. Qed.

Lemma after_ack_established s : ts_state s = TCP_ESTABLISHED -> after_ack s = s.
Proof. intros E. unfold after_ack. cbn zeta. rewrite (bool_decide_eq_false_2 (ts_state s = TCP_FIN_WAIT1)) by congruence. cbn [andb].
  by rewrite (bool_decide_eq_false_2 (ts_state s = TCP_CLOSING)) by congruence. Qed.

Lemma accept_established s seq ack flags payload : ts_state s = TCP_ESTABLISHED -> ts_state (accept s seq ack flags payload) = TCP_ESTABLISHED.
Proof.
  intros E. unfold accept. fold (acked s flags ack). destruct (acked_fields s flags ack) as (Est & _).
  destruct (_ && _); [|congruence]. destruct (rx_push_fields (acked s flags ack) payload) as (b & h & ->). cbn. congruence.
Qed.

(** An acknowledgement goes out; the sockets are as put before it. *)
Lemma ack_sent n i s seq flags :
  net_ok n -> tcp_ok s ->
  exists x n', tcp_transmit_seg nic_send poll_busy (put_tcp n i s) s seq flags [] = Ok (x, n') /\ steps n n' /\
    tcp_sockets n' = <[i := s]> (tcp_sockets n) /\ (card_quiet n -> card_quiet n').
Proof.
  intros Hn Hs. pose proof (steps_put n Hn i s Hs) as Hp. pose proof (tcp_ack_safe nic_send (put_tcp n i s) s seq flags (sp_ok _ _ Hp)) as Ht.
  pose proof (tcp_ack_keeps nic_send (put_tcp n i s) s seq flags []) as Hk.
  destruct (tcp_transmit_seg _ _ _ _ _ _ _) as [[x n']| | |]; cbn in Ht, Hk; try done. exists x, n'. split; [done|]. destruct Hk as [Hk Hq].
  split; [exact (steps_trans _ _ _ Hp Ht)|done].
Qed.

Lemma tcp_data_accept n i s seq ack flags payload :
  net_ok n -> tcp_sockets n !! i = Some s -> ts_state s = TCP_ESTABLISHED -> has flags TCP_FLAG_FIN = false ->
  exists n', tcp_data nic_send n i s seq ack flags payload = Ok n' /\ steps n n' /\
    tcp_sockets n' = <[i := accept s seq ack flags payload]> (tcp_sockets n) /\ (card_quiet n -> card_quiet n').
Proof.
  intros Hn Hi Hst Hfin. pose proof (tcp_at n Hn i s Hi) as Hs. pose proof (accept_established s seq ack flags payload Hst) as Ha.
  assert (tcp_ok (acked s flags ack)) as Hak by (unfold acked; destruct (has flags TCP_FLAG_ACK); [by apply process_ack_ok|done]).
  unfold tcp_data. rewrite Hfin. cbn zeta. fold (acked s flags ack). unfold accept in *. fold (acked s flags ack) in *. cbn zeta in *.
  set (s1 := acked s flags ack) in *. clearbody s1. destruct (0 <? zlen payload); cbn [andb] in *.
  - set (s2 := if seq =? ts_rcv_nxt s1 then set_rcv (u32 (ts_rcv_nxt s1 + zlen payload)) (tcp_rx_push s1 payload) else s1) in *.
    assert (tcp_ok s2) as H2 by (unfold s2; destruct (_ =? _); [by apply set_rcv_ok, tcp_rx_push_ok|done]).
    set (w := if seq =? ts_rcv_nxt s1 then wake n 1 else n). assert (steps n w) as Hw by (unfold w; destruct (_ =? _); [by apply steps_wakes|by apply steps_refl]).
    assert (tcp_sockets w = tcp_sockets n /\ (card_quiet n -> card_quiet w)) as [Ew Hq] by (unfold w; by destruct (_ =? _)).
    replace (if seq =? ts_rcv_nxt s1 then (set_rcv (u32 (ts_rcv_nxt s1 + zlen payload)) (tcp_rx_push s1 payload), wake n 1) else (s1, n))
      with (s2, w) by (unfold s2, w; by destruct (_ =? _)).
    destruct (ack_sent w i s2 (ts_snd_nxt s2) TCP_FLAG_ACK (sp_ok _ _ Hw) H2) as (x & n' & -> & Hs' & Es & Hq'). rewrite !Ok_bind.
    rewrite after_ack_established by done. eexists. split; [reflexivity|]. split; [|split].
    + eapply steps_trans; [exact Hw|]. eapply steps_trans; [exact Hs'|]. apply steps_put; [apply Hs'|done].
    + cbn. by rewrite Es, Ew, list_insert_insert_eq.
    + intros Hc. exact (Hq' (Hq Hc)).
  - rewrite !Ok_bind. rewrite after_ack_established by done. eexists. split; [reflexivity|]. split; [|split].
    + eapply steps_trans; [by apply (steps_put n Hn i s1)|]. apply steps_put; [by apply steps_put|done].
    + cbn. by rewrite list_insert_insert_eq.
    + done.
Qed.

(** The states' handlers. *)
Definition tcp_handle n (i : nat) (s : tcp_socket) (seq ack flags : Z) (payload : list Z) : res net :=
  match ts_state s with
  | TCP_SYN_SENT => tcp_syn_sent nic_send n i s seq ack flags payload
  | TCP_ESTABLISHED | TCP_FIN_WAIT1 | TCP_FIN_WAIT2 | TCP_CLOSING => tcp_data nic_send n i s seq ack flags payload
  | TCP_LAST_ACK => if has flags TCP_FLAG_ACK && (ack =? ts_snd_nxt s) then Ok (put_tcp n i (set_tstate TCP_CLOSED s)) else Ok n
  | TCP_TIME_WAIT =>
      if has flags TCP_FLAG_FIN then '(_, n) ← tcp_transmit_seg nic_send poll_busy n s (ts_snd_nxt s) TCP_FLAG_ACK []; Ok n else Ok n
  | _ => Ok n
  end.

(** What the peer's encoder writes reaches the handler of the state. *)
Lemma tcp_receive_segment n src i s p seq flags ck payload :
  0 <= ts_local_port p < 65536 -> 0 <= ts_remote_port p < 65536 -> 0 <= seq < 2 ^ 32 -> 0 <= ts_rcv_nxt p < 2 ^ 32 ->
  is_byte flags -> Forall is_byte payload -> zlen payload <= TCP_MSS ->
  tcp_checksum src (ni_ip (n_if n)) (tcp_segment p seq flags 0 payload) = Ok ck ->
  index_of (tcp_match src (ts_local_port p) (ts_remote_port p)) 0 (tcp_sockets n) = Some i -> tcp_sockets n !! i = Some s ->
  has flags TCP_FLAG_RST = false ->
  tcp_receive nic_send n src (tcp_segment p seq flags ck payload) = tcp_handle n i s seq (ts_rcv_nxt p) flags payload.
Proof.
  intros Hlp Hrp Hseq Hack Hf Hb Hl Hck Hm Hi Hrst. apply seg_checksum in Hck; [|done..].
  destruct (seg_fields_of p seq flags ck payload Hlp Hrp Hseq Hack) as [F1 F2 F3 F4 F5 F6 F7 F8]. pose proof (zlen_nonneg payload).
  set (data := tcp_segment p seq flags ck payload) in *. clearbody data. unfold tcp_receive.
  rewrite (proj2 (Z.ltb_ge (zlen data) 20)) by lia. rewrite F2, F3, F4, F5, F6, F7, !Ok_bind. change (u8 (Z.shiftr 96 4 * 4)) with 24. cbn zeta.
  rewrite (proj2 (Z.ltb_ge 24 20)), (proj2 (Z.ltb_ge (zlen data) 24)) by lia. cbn [orb]. rewrite F8, Ok_bind, Hm, Hi, Hck, Ok_bind.
  change (truthy 0) with false. rewrite Hrst. reflexivity.
Qed.
End data.

(** ** The stream *)

(** The bytes of a stream from offset [t] up to [k]. *)
Definition part (D : list Z) (t k : Z) : list Z := take (Z.to_nat (k - t)) (drop (Z.to_nat t) D).

Lemma part_app D t k m : 0 <= t <= k -> k <= m -> part D t k ++ part D k m = part D t m.
Proof.
  intros H1 H2. unfold part. replace (Z.to_nat (m - t)) with (Z.to_nat (k - t) + Z.to_nat (m - k))%nat by lia.
  rewrite <- take_take_drop, drop_drop. do 3 f_equal. lia.
Qed.

Lemma part_len D t k : 0 <= t <= k -> k <= zlen D -> zlen (part D t k) = k - t.
Proof. intros H1 H2. unfold part, zlen in *. rewrite length_take, length_drop. lia. Qed.

Lemma part_take D t k m : 0 <= t <= k -> take m (part D t k) = part D t (Z.min (t + Z.of_nat m) k).
Proof. intros H. unfold part. rewrite take_take. f_equal. lia. Qed.

Lemma part_drop D t k m : 0 <= t <= k -> drop m (part D t k) = part D (Z.min (t + Z.of_nat m) k) k.
Proof.
  intros H. unfold part. destruct (Z.leb_spec (t + Z.of_nat m) k).
  - rewrite Z.min_l, List.skipn_firstn_comm, drop_drop by lia. f_equal; [lia|]. f_equal. lia.
  - rewrite Z.min_r by lia. rewrite Z.sub_diag. cbn. apply drop_ge. rewrite length_take. lia.
Qed.

Lemma part_bytes D t k : Forall is_byte D -> Forall is_byte (part D t k).
Proof. intros H. unfold part. by apply Forall_take, Forall_drop. Qed.

Section stream.
Context (nic_send : frame -> Z).
(** The peer's address, our own, the two ports, the stream and its first sequence number. *)
Context (src ip sport dport : Z) (D : list Z) (base : Z) (i : nat).
Context (Hsrc : 0 <= src < 2 ^ 32) (Hip : 0 <= ip < 2 ^ 32) (Hsp : 0 <= sport < 65536) (Hdp : 0 <= dport < 65536).
Context (HD : Forall is_byte D) (HDlen : zlen D < 2 ^ 32).

(** The socket: [k] bytes of the stream are accepted, [t] of them read. *)
Record holds (s : tcp_socket) (k t : Z) : Prop := {
  ho_state : ts_state s = TCP_ESTABLISHED;
  ho_fin : ts_rx_fin s = false;
  ho_nxt : ts_rcv_nxt s = u32 (base + k);
  ho_ring : contents (ts_rx_buf s) (ts_rx_head s) (ts_rx_tail s) = part D t k
}.

Record stream n (k t : Z) : Prop := {
  st_ok : net_ok n;
  st_busy : n_rx_busy n = false;
  st_ip : ni_ip (n_if n) = ip;
  st_quiet : card_quiet n;
  st_match : index_of (tcp_match src sport dport) 0 (tcp_sockets n) = Some i;
  st_sock : exists s, tcp_sockets n !! i = Some s /\ ts_used s = true /\ holds s k t;
  st_range : 0 <= t <= k /\ k <= zlen D
}.

(** A frame that carries [l] bytes of the stream from offset [o], from a peer
    in any state [p], with any acknowledgement, window and flags other than FIN
    and RST. *)
Definition carries (o l : Z) (f : frame) : Prop :=
  exists p dmac smac flags ck ipck,
    ts_local_port p = sport /\ ts_remote_port p = dport /\ 0 <= ts_rcv_nxt p < 2 ^ 32 /\ zlen dmac = 6 /\ zlen smac = 6 /\
    is_byte flags /\ has flags TCP_FLAG_FIN = false /\ has flags TCP_FLAG_RST = false /\ 0 <= o /\ 0 <= l <= TCP_MSS /\ o + l <= zlen D /\
    tcp_checksum src ip (tcp_segment p (u32 (base + o)) flags 0 (part D o (o + l))) = Ok ck /\
    ip_checksum (ipv4_header (20 + (24 + l)) IP_PROTO_TCP 0 src ip) = Ok ipck /\
    f = ip_frame dmac smac IP_PROTO_TCP ipck src ip (tcp_segment p (u32 (base + o)) flags ck (part D o (o + l))).

Lemma index_of_insert {B} (f : B -> bool) j l k x y :
  index_of f j l = Some (j + k)%nat -> l !! k = Some x -> f y = true -> index_of f j (<[k := y]> l) = Some (j + k)%nat.
Proof.
  revert j k. induction l as [|z l IH]; intros j k Hi Hk Hy; [done|]. cbn in Hi. destruct k as [|k]; cbn.
  - rewrite Hy. f_equal. lia.
  - destruct (f z) eqn:Hz; [injection Hi; lia|]. replace (j + S k)%nat with (S j + k)%nat in Hi |- * by lia. by apply (IH (S j)).
Qed.

Lemma offset_eq o k : 0 <= o <= zlen D -> 0 <= k <= zlen D -> (u32 (base + o) =? u32 (base + k)) = (o =? k).
Proof.
  intros Ho Hk. destruct (Z.eqb_spec o k) as [->|Hne]; [apply Z.eqb_refl|]. apply Z.eqb_neq. unfold u32. intros E. apply Hne.
  cut ((o - k) mod 4294967296 = 0); [mlia|]. replace (o - k) with ((base + o) - (base + k)) by lia. rewrite Zminus_mod, E, Z.sub_diag. done.
Qed.

(** What a segment does to the socket. *)
Lemma holds_accept s k t o l ack flags :
  tcp_ok s -> holds s k t -> 0 <= t <= k -> k <= zlen D -> 0 <= o -> 0 <= l -> o + l <= zlen D -> (o = k -> k + l - t <= 65535) ->
  holds (accept s (u32 (base + o)) ack flags (part D o (o + l))) (if o =? k then k + l else k) t /\
  forall a b c, tcp_match a b c (accept s (u32 (base + o)) ack flags (part D o (o + l))) = tcp_match a b c s.
Proof.
  intros Hs [Hst Hfin Hnxt Hring] Ht Hk Ho Hl Hol Hw. unfold accept. fold (acked s flags ack). cbn zeta.
  destruct (acked_fields s flags ack) as (E1 & E2 & E3 & E4 & E5 & E6 & E7). set (s1 := acked s flags ack) in *. clearbody s1.
  rewrite part_len, E2, Hnxt, offset_eq by lia. replace (o + l - o) with l by lia.
  destruct (Z.eqb_spec o k) as [->|Hne].
  - destruct (Z.ltb_spec 0 l); cbn [andb].
    2:{ replace l with 0 by lia. rewrite Z.add_0_r. split; [split; congruence|done]. }
    pose proof (rx_push_spec (ts_rx_buf s1) (ts_rx_head s1) (ts_rx_tail s1) (part D k (k + l))) as Hp.
    unfold tcp_rx_push. rewrite E4, E5 in *. specialize (Hp (to_head s Hs) (to_tail s Hs)). destruct (rx_push _ _ _ _) as [buf head]. destruct Hp as [Hh Hc].
    split; [|exact E7]. split; cbn; [congruence|congruence| |].
    + unfold u32. rewrite Zplus_mod_idemp_l. f_equal. lia.
    + rewrite Hc, E3, Hring, take_ge, part_app; [done|lia|lia|]. pose proof (part_len D k (k + l) ltac:(lia) ltac:(lia)).
      pose proof (part_len D t k Ht Hk) as Hlen. rewrite <- Hring in Hlen. unfold zlen in *. rewrite ring_length in Hlen. lia.
  - rewrite andb_false_r. split; [split; congruence|done].
Qed.

Lemma stream_segment n k t o l f :
  stream n k t -> carries o l f -> (o = k -> k + l - t <= 65535) ->
  exists n', netif_receive nic_send n f = Ok n' /\ stream n' (if o =? k then k + l else k) t.
Proof.
  intros [Hn Hb Hif Hq Hm (s & Hi & Hu & Hh) [Hr1 Hr2]] (p & dmac & smac & flags & ck & ipck & Hlp & Hrp & Hack & Hdm & Hsm & Hfl & Hfin & Hrst & Ho & Hl & Hol & Hck & Hipck & ->) Hw.
  unfold TCP_MSS in Hl. assert (zlen (part D o (o + l)) = l) as Hpl by (rewrite part_len; lia).
  rewrite ip_frame_receive; [|done|done|done|done|done|rewrite zlen_tcp_segment, Hpl; unfold NET_MTU; lia| |by rewrite zlen_tcp_segment, Hpl].
  2:{ unfold takes. rewrite Hif, Z.eqb_refl. cbn [negb]. by rewrite andb_false_r. }
  change (ip_dispatch nic_send (with_busy n true) IP_PROTO_TCP) with (tcp_receive nic_send (with_busy n true)).
  rewrite (tcp_receive_segment nic_send (with_busy n true) src i s p (u32 (base + o)) flags ck); try done; try (unfold TCP_MSS; lia); try apply u32_range; try (by rewrite Hlp); try (by rewrite Hrp);
    [|by apply part_bytes|by cbn; rewrite Hif|by rewrite Hlp, Hrp].
  unfold tcp_handle. rewrite (ho_state _ _ _ Hh).
  destruct (tcp_data_accept nic_send (with_busy n true) i s (u32 (base + o)) (ts_rcv_nxt p) flags (part D o (o + l))) as (n1 & -> & Hs1 & Es & Hq1); [by apply busy_ok|done|apply Hh|done|].
  destruct (holds_accept s k t o l (ts_rcv_nxt p) flags (tcp_at n Hn i s Hi) Hh Hr1 Hr2 Ho (proj1 Hl) Hol Hw) as [Hh' Hmt].
  rewrite Ok_bind. eexists. split; [reflexivity|]. split; cbn.
  - apply busy_ok, Hs1.
  - done.
  - by rewrite (sp_if _ _ Hs1).
  - exact (Hq1 Hq).
  - rewrite Es. apply (index_of_insert _ 0 _ i s); [done|done|]. rewrite Hmt. destruct (index_of_lookup _ _ _ _ Hm) as (s' & Hs' & Hb' & _).
    rewrite Nat.sub_0_r, Hi in Hs'. by injection Hs' as <-.
  - eexists. split; [rewrite Es; apply list_lookup_insert_eq; by eapply lookup_lt_Some|]. split; [|exact Hh'].
    clear -Hu. unfold accept. fold (acked s flags (ts_rcv_nxt p)). cbn zeta. assert (ts_used (acked s flags (ts_rcv_nxt p)) = true) as Hu'.
    { unfold acked, process_ack. destruct (has _ _); [by destruct (_ && _)|done]. }
    destruct (_ && _); [|done]. destruct (rx_push_fields (acked s flags (ts_rcv_nxt p)) (part D o (o + l))) as (? & ? & ->). done.
  - destruct (Z.eqb_spec o k); lia.
Qed.

(** *** Reading *)

Lemma holds_empty s k t : tcp_ok s -> holds s k t -> 0 <= t <= k -> k <= zlen D -> (ts_rx_head s =? ts_rx_tail s) = (k =? t).
Proof.
  intros [_ _ Hh Ht] Ho H1 H2. unfold TCP_RX_BUFSZ in *. pose proof (part_len D t k H1 H2) as Hl. rewrite <- (ho_ring _ _ _ Ho) in Hl.
  unfold zlen in Hl. rewrite ring_length in Hl. unfold ring_count in Hl.
  destruct (Z.eqb_spec (ts_rx_head s) (ts_rx_tail s)) as [E|E], (Z.eqb_spec k t) as [E'|E']; try done.
  - rewrite E, Z.sub_diag, Zmod_0_l in Hl. lia.
  - mlia.
Qed.

Lemma holds_read s k t maxlen tail' l :
  tcp_ok s -> holds s k t -> 0 <= t <= k -> drain maxlen (ts_rx_buf s) (ts_rx_head s) (ts_rx_tail s) = (l, tail') ->
  let t' := Z.min (t + Z.of_nat maxlen) k in
  l = part D t t' /\ tcp_ok (set_ring (ts_rx_buf s) (ts_rx_head s) tail' s) /\ holds (set_ring (ts_rx_buf s) (ts_rx_head s) tail' s) k t'.
Proof.
  intros Hs [H1 H2 H3 H4] Ht E. pose proof (drain_spec maxlen (ts_rx_buf s) (ts_rx_head s) (ts_rx_tail s) (to_head s Hs) (to_tail s Hs)) as Hd.
  rewrite E, H4, part_take, part_drop in Hd by done. destruct Hd as (Hi & -> & Hc). split; [done|]. destruct Hs. split; by split.
Qed.

(** The state after a change of our socket's ring. *)
Lemma stream_put n n' s k t t' :
  stream n k t -> net_ok n' -> n_rx_busy n' = false -> n_if n' = n_if n -> card_quiet n' -> tcp_sockets n' = <[i := s]> (tcp_sockets n) ->
  holds s k t' -> 0 <= t' <= k -> (forall s0, tcp_sockets n !! i = Some s0 -> ts_used s = ts_used s0 /\ tcp_match src sport dport s = tcp_match src sport dport s0) ->
  stream n' k t'.
Proof.
  intros [Hn Hb Hif Hq Hm (s0 & Hi & Hu & Hh) [Hr1 Hr2]] Hn' Hb' Hif' Hq' Es Hh' Ht' Hs. destruct (Hs s0 Hi) as [Eu Em]. split; try done.
  - by rewrite Hif'.
  - rewrite Es. apply (index_of_insert _ 0 _ i s0); [done|done|]. rewrite Em. destruct (index_of_lookup _ _ _ _ Hm) as (s' & Hs' & Hb0 & _).
    rewrite Nat.sub_0_r, Hi in Hs'. by injection Hs' as <-.
  - exists s. split; [rewrite Es; apply list_lookup_insert_eq; by eapply lookup_lt_Some|]. split; [congruence|done].
Qed.

Lemma stream_same n n' k t :
  stream n k t -> net_ok n' -> n_rx_busy n' = false -> n_if n' = n_if n -> card_quiet n' -> tcp_sockets n' = tcp_sockets n -> stream n' k t.
Proof.
  intros Hst Hn' Hb' Hif' Hq' Es. destruct (st_sock n k t Hst) as (s & Hi & Hu & Hh). eapply (stream_put n n' s k t t); try done.
  - by rewrite Es, list_insert_id.
  - apply Hst.
  - intros s0 Hs0. rewrite Hi in Hs0. by injection Hs0 as <-.
Qed.

Lemma stream_steps n n' k t : stream n k t -> steps n n' -> card_quiet n' -> tcp_sockets n' = tcp_sockets n -> stream n' k t.
Proof.
  intros Hst Hs Hq Es. apply (stream_same n); [done|apply Hs|by rewrite (sp_busy _ _ Hs); apply Hst|apply Hs|done|done].
Qed.

Lemma stream_poll n k t : stream n k t -> exists n', netif_poll nic_send n = Ok n' /\ stream n' k t.
Proof.
  intros Hst. destruct (poll_quiet nic_send n (st_quiet _ _ _ Hst)) as (n' & E & Es & Hq). exists n'. split; [done|].
  pose proof (netif_poll_safe nic_send n (st_ok _ _ _ Hst)) as Hs. rewrite E in Hs. by apply (stream_steps n).
Qed.

Lemma stream_delay n k t ms : stream n k t -> 0 <= ms -> stream (pit_delay_ms n ms) k t.
Proof.
  intros Hst Hm. apply (stream_steps n); [done|by apply steps_delay; [apply Hst|]| |].
  - destruct (st_quiet _ _ _ Hst) as [Hr He]. unfold pit_delay_ms. rewrite He. by split.
  - unfold pit_delay_ms. by destruct (n_env n).
Qed.

Definition read_result (k t : Z) (maxlen : nat) : list Z + Z := if k =? t then inr (-1) else inl (part D t (Z.min (t + Z.of_nat maxlen) k)).

(** A wait of [fuel] more turns is long enough when nothing has come. *)
Definition enough (k t timeout waited : Z) (fuel : nat) : Prop :=
  (1 <= fuel)%nat /\ (k = t -> 0 <= waited <= timeout + 1 /\ timeout < 4294967295 /\ timeout <= waited + 2 * (Z.of_nat fuel - 1)).

Lemma stream_read_wait fuel n k t maxlen timeout waited :
  stream n k t -> enough k t timeout waited fuel ->
  exists n', tcp_recv_wait nic_send fuel n i maxlen timeout waited = Ok (read_result k t maxlen, n') /\ stream n' k (Z.min (t + Z.of_nat maxlen) k).
Proof.
  revert n waited. induction fuel as [|fuel IH]; intros n waited Hst [H1 Ht]; [lia|]. cbn [tcp_recv_wait].
  destruct (stream_poll n k t Hst) as (n1 & -> & Hst1). rewrite Ok_bind. destruct (st_sock n1 k t Hst1) as (s & Hi & Hu & Hh).
  destruct (st_range n1 k t Hst1) as [Hr1 Hr2]. unfold sock. rewrite Hi, Ok_bind. pose proof (tcp_at n1 (st_ok _ _ _ Hst1) i s Hi) as Hs.
  rewrite (bool_decide_eq_false_2 (ts_state s = TCP_CLOSED)) by (rewrite (ho_state _ _ _ Hh); done). cbn [andb].
  rewrite (holds_empty s k t Hs Hh Hr1 Hr2). unfold read_result. destruct (Z.eqb_spec k t) as [->|Hne]; cbn [negb].
  - destruct (Ht eq_refl) as (Hw & Hto & Hf). rewrite (ho_fin _ _ _ Hh). rewrite Z.min_r, (proj2 (Z.eqb_neq _ _)) by lia. cbn [negb andb].
    destruct (Z.leb_spec timeout waited); [by exists n1|].
    destruct (IH (pit_delay_ms n1 2) (u32 (waited + 2))) as (n' & -> & Hst'); [by apply stream_delay| |].
    { rewrite u32_small by lia. split; [lia|]. intros _. lia. }
    unfold read_result. rewrite Z.eqb_refl. exists n'. split; [done|]. by rewrite Z.min_r in Hst' by lia.
  - destruct (drain maxlen (ts_rx_buf s) (ts_rx_head s) (ts_rx_tail s)) as [l tail'] eqn:Ed.
    destruct (holds_read s k t maxlen tail' l Hs Hh Hr1 Ed) as (-> & Hs' & Hh'). cbn zeta. set (s' := set_ring _ _ tail' s) in *.
    pose proof (steps_put n1 (st_ok _ _ _ Hst1) i s' Hs') as Hp.
    pose proof (tcp_transmit_safe nic_send (netif_poll nic_send) (put_tcp n1 i s') s' (ts_snd_nxt s') TCP_FLAG_ACK [] (netif_poll_safe nic_send) (sp_ok _ _ Hp) ltac:(done)) as Hsafe.
    pose proof (tcp_transmit_quiet nic_send (put_tcp n1 i s') s' (ts_snd_nxt s') TCP_FLAG_ACK [] (st_quiet _ _ _ Hst1)) as Hk.
    destruct (tcp_transmit_seg _ _ _ _ _ _ _) as [[x n2]| | |]; cbn in Hsafe, Hk; try done. destruct Hk as [Es Hq]. rewrite Ok_bind.
    pose proof (steps_trans _ _ _ Hp Hsafe) as Hst2. exists n2. split; [done|].
    apply (stream_put n1 n2 s' k t); try done; [apply Hst2|by rewrite (sp_busy _ _ Hst2); apply Hst1|apply Hst2|lia|].
    intros s0 Hs0. rewrite Hi in Hs0. by injection Hs0 as <-.
Qed.

Lemma stream_read n k t maxlen timeout :
  stream n k t -> (k = t -> 0 <= timeout < 4294967295) ->
  exists n', tcp_recv nic_send n i maxlen timeout = Ok (read_result k t maxlen, n') /\ stream n' k (Z.min (t + Z.of_nat maxlen) k).
Proof.
  intros Hst Ht. destruct (st_sock n k t Hst) as (s & Hi & Hu & Hh). unfold tcp_recv, sock. rewrite Hi, Ok_bind, Hu. cbn [negb].
  apply stream_read_wait; [done|]. split; [lia|]. intros E. specialize (Ht E). mlia.
Qed.

(** *** A connection's life *)

(** Frames arrive and the program reads, in any order. *)
Inductive event : Type :=
  | Arrives (o l : Z) (f : frame)
  | Reads (maxlen : nat) (timeout : Z).

Definition bytes_of (r : list Z + Z) : list Z := match r with inl l => l | inr _ => [] end.

(** The machine, and the bytes the program gets. *)
Fixpoint session n (evs : list event) : res (list Z * net) :=
  match evs with
  | [] => Ok ([], n)
  | Arrives _ _ f :: evs => n ← netif_receive nic_send n f; session n evs
  | Reads maxlen timeout :: evs =>
      '(r, n) ← tcp_recv nic_send n i maxlen timeout;
      '(out, n) ← session n evs;
      Ok (bytes_of r ++ out, n)
  end.

(** The receiver's contract: a segment is taken when it starts at the next
    byte, and dropped otherwise; a read takes what is there. *)
Fixpoint progress (k t : Z) (evs : list event) : Z * Z :=
  match evs with
  | [] => (k, t)
  | Arrives o l _ :: evs => progress (if o =? k then k + l else k) t evs
  | Reads maxlen _ :: evs => progress k (Z.min (t + Z.of_nat maxlen) k) evs
  end.

(** The frames carry parts of the stream, the peer keeps to the ring's room,
    and a read that finds nothing has a timeout. *)
Fixpoint proper (k t : Z) (evs : list event) : Prop :=
  match evs with
  | [] => True
  | Arrives o l f :: evs => carries o l f /\ (o = k -> k + l - t <= 65535) /\ proper (if o =? k then k + l else k) t evs
  | Reads maxlen timeout :: evs => (k = t -> 0 <= timeout < 4294967295) /\ proper k (Z.min (t + Z.of_nat maxlen) k) evs
  end.

Lemma progress_mono k t evs n : stream n k t -> proper k t evs -> k <= (progress k t evs).1 /\ t <= (progress k t evs).2 <= (progress k t evs).1.
Proof.
  revert k t n. induction evs as [|[o l f|m tm] evs IH]; intros k t n Hst Hp; cbn [progress proper] in *.
  - destruct (st_range _ _ _ Hst). cbn. lia.
  - destruct Hp as (Hc & Hw & Hp). destruct (stream_segment n k t o l f Hst Hc Hw) as (n' & _ & Hst'). specialize (IH _ _ _ Hst' Hp).
    destruct Hc as (? & ? & ? & ? & ? & ? & Hc). destruct (o =? k); lia.
  - destruct Hp as [Htm Hp]. destruct (stream_read n k t m tm Hst Htm) as (n' & _ & Hst'). specialize (IH _ _ _ Hst' Hp). destruct (st_range _ _ _ Hst). lia.
Qed.

Lemma read_bytes k t m : 0 <= t <= k -> bytes_of (read_result k t m) = part D t (Z.min (t + Z.of_nat m) k).
Proof.
  intros H. unfold read_result. destruct (Z.eqb_spec k t) as [->|]; [|done]. cbn. rewrite Z.min_r by lia. unfold part. by rewrite Z.sub_diag.
Qed.

(** C3: TCP delivers the peer's stream while the connection is open. Let the
    frames that arrive carry parts of the stream, without FIN or RST, each part
    that is next in order within the room of the ring, and let reads that find
    nothing have a timeout. However the network reorders, repeats or loses such
    frames and however the program's reads fall between them, every call returns,
    and the bytes the program reads are the bytes of the stream, in order and
    without gap or repetition, from the first unread one; the receiver takes
    exactly the segments that start at the next byte. *)
Theorem tcp_delivers_stream n k t evs :
  stream n k t -> proper k t evs ->
  let '(k', t') := progress k t evs in
  exists n', session n evs = Ok (part D t t', n') /\ stream n' k' t'.
Proof.
  revert n k t. induction evs as [|[o l f|m tm] evs IH]; intros n k t Hst Hp; cbn [progress proper session] in *.
  - exists n. split; [|done]. unfold part. by rewrite Z.sub_diag.
  - destruct Hp as (Hc & Hw & Hp). destruct (stream_segment n k t o l f Hst Hc Hw) as (n1 & -> & Hst1). rewrite Ok_bind. by apply IH.
  - destruct Hp as [Htm Hp]. destruct (stream_read n k t m tm Hst Htm) as (n1 & -> & Hst1). rewrite Ok_bind. specialize (IH n1 _ _ Hst1 Hp).
    pose proof (progress_mono _ _ _ _ Hst1 Hp) as Hm. destruct (progress k _ evs) as [k' t'] eqn:Ep. destruct IH as (n' & -> & Hst').
    rewrite Ok_bind. exists n'. split; [|done]. destruct (st_range _ _ _ Hst) as [Hr _]. rewrite read_bytes by done. cbn in Hm.
    rewrite part_app by lia. done.
Qed.

(** *** The handshake *)

(** The socket as [tcp_connect] leaves it while it waits. *)
Record syn_waits (s : tcp_socket) : Prop := {
  wt_used : ts_used s = true;
  wt_state : ts_state s = TCP_SYN_SENT;
  wt_fin : ts_rx_fin s = false;
  wt_ring : ts_rx_head s = ts_rx_tail s
}.

(** The socket after the SYN and ACK of the peer. *)
Definition opened (s : tcp_socket) (seq ack : Z) : tcp_socket :=
  tcp_rx_push (set_rcv (u32 (u32 (seq + 1) + 0)) (set_timer 0 0 (set_tstate TCP_ESTABLISHED (set_snd (ts_iss s) ack (ts_snd_nxt s) (set_rcv (u32 (seq + 1)) s))))) [].

Lemma opened_holds s seq ack : syn_waits s -> u32 (seq + 1) = u32 base -> holds (opened s seq ack) 0 0 /\ ts_used (opened s seq ack) = true /\
  tcp_match src sport dport (opened s seq ack) = tcp_match src sport dport s.
Proof.
  intros [H1 H2 H3 H4] E. unfold opened, tcp_rx_push. cbn. split; [|split; [done|]].
  - split; cbn; [done|done|rewrite !Z.add_0_r, E; unfold u32; by rewrite Z.mod_mod|]. rewrite H4. unfold ring_count. by rewrite Z.sub_diag.
  - unfold tcp_match. cbn. rewrite H2. done.
Qed.

Lemma tcp_syn_sent_opens n s seq ack flags :
  net_ok n -> tcp_sockets n !! i = Some s -> has flags TCP_FLAG_SYN = true -> has flags TCP_FLAG_ACK = true -> ack = u32 (ts_iss s + 1) ->
  exists n', tcp_syn_sent nic_send n i s seq ack flags [] = Ok n' /\ steps n n' /\
    tcp_sockets n' = <[i := opened s seq ack]> (tcp_sockets n) /\ (card_quiet n -> card_quiet n').
Proof.
  intros Hn Hi Hsyn Hack ->. pose proof (tcp_at n Hn i s Hi) as Hs. unfold tcp_syn_sent. rewrite Hsyn, Hack, Z.eqb_refl. cbn [andb negb]. cbn zeta.
  change (ts_rcv_nxt (set_timer 0 0 _)) with (u32 (seq + 1)). change (zlen (@nil Z)) with 0.
  change (ts_iss (set_rcv (u32 (seq + 1)) s)) with (ts_iss s). change (ts_snd_nxt (set_rcv (u32 (seq + 1)) s)) with (ts_snd_nxt s).
  fold (opened s seq (u32 (ts_iss s + 1))). set (s1 := opened s seq (u32 (ts_iss s + 1))).
  assert (tcp_ok s1) as H1 by (unfold s1, opened; by apply tcp_rx_push_ok, set_rcv_ok, set_timer_ok, set_tstate_ok, set_snd_ok, set_rcv_ok).
  clearbody s1. pose proof (steps_put n Hn i s1 H1) as Hp. pose proof (steps_wakes _ (sp_ok _ _ Hp) (n_wakes (put_tcp n i s1) ++ [1])) as Hw.
  pose proof (tcp_ack_safe nic_send (wake (put_tcp n i s1) 1) s1 (ts_snd_nxt s1) TCP_FLAG_ACK (sp_ok _ _ Hw)) as Ht.
  pose proof (tcp_ack_keeps nic_send (wake (put_tcp n i s1) 1) s1 (ts_snd_nxt s1) TCP_FLAG_ACK []) as Hk.
  destruct (tcp_transmit_seg _ _ _ _ _ _ _) as [[x n']| | |]; cbn in Ht, Hk; try done. rewrite Ok_bind. exists n'. split; [done|]. destruct Hk as [Hk Hq].
  split; [exact (steps_trans _ _ _ Hp (steps_trans _ _ _ Hw Ht))|done].
Qed.

(** C27: the handshake opens the stream. The peer's SYN and ACK of our initial
    sequence number, in whatever state the peer encodes it, turns the socket
    that [tcp_connect] waits on into an established one that holds none of
    the peer's stream and expects its first byte. *)
Theorem tcp_handshake n s p dmac smac flags ck ipck :
  net_ok n -> n_rx_busy n = false -> ni_ip (n_if n) = ip -> card_quiet n ->
  index_of (tcp_match src sport dport) 0 (tcp_sockets n) = Some i -> tcp_sockets n !! i = Some s -> syn_waits s ->
  ts_local_port p = sport -> ts_remote_port p = dport -> ts_rcv_nxt p = u32 (ts_iss s + 1) -> zlen dmac = 6 -> zlen smac = 6 ->
  is_byte flags -> has flags TCP_FLAG_SYN = true -> has flags TCP_FLAG_ACK = true -> has flags TCP_FLAG_RST = false ->
  tcp_checksum src ip (tcp_segment p (u32 (base - 1)) flags 0 []) = Ok ck ->
  ip_checksum (ipv4_header 44 IP_PROTO_TCP 0 src ip) = Ok ipck ->
  exists n', netif_receive nic_send n (ip_frame dmac smac IP_PROTO_TCP ipck src ip (tcp_segment p (u32 (base - 1)) flags ck [])) = Ok n' /\
    stream n' 0 0.
Proof.
  intros Hn Hb Hif Hq Hm Hi Hwt Hlp Hrp Hack Hdm Hsm Hfl Hsyn Hak Hrst Hck Hipck.
  rewrite ip_frame_receive; [|done|done|done|done|done|by rewrite zlen_tcp_segment| |by rewrite zlen_tcp_segment].
  2:{ unfold takes. rewrite Hif, Z.eqb_refl. cbn [negb]. by rewrite andb_false_r. }
  change (ip_dispatch nic_send (with_busy n true) IP_PROTO_TCP) with (tcp_receive nic_send (with_busy n true)).
  rewrite (tcp_receive_segment nic_send (with_busy n true) src i s p (u32 (base - 1)) flags ck []); try done; try apply u32_range;
    [|by rewrite Hlp|by rewrite Hrp|rewrite Hack; apply u32_range|by cbn; rewrite Hif|by rewrite Hlp, Hrp].
  unfold tcp_handle. rewrite (wt_state _ Hwt).
  destruct (tcp_syn_sent_opens (with_busy n true) s (u32 (base - 1)) (ts_rcv_nxt p) flags (busy_ok n true Hn) Hi Hsyn Hak Hack) as (n1 & -> & Hs1 & Es & Hq1).
  destruct (opened_holds s (u32 (base - 1)) (ts_rcv_nxt p) Hwt) as (Hh & Hu & Hmt); [unfold u32; rewrite Zplus_mod_idemp_l; f_equal; lia|].
  rewrite Ok_bind. eexists. split; [reflexivity|]. pose proof (zlen_nonneg D). split; cbn.
  - apply busy_ok, Hs1.
  - done.
  - by rewrite (sp_if _ _ Hs1).
  - exact (Hq1 Hq).
  - rewrite Es. apply (index_of_insert _ 0 _ i s); [done|done|]. rewrite Hmt. destruct (index_of_lookup _ _ _ _ Hm) as (s' & Hs' & Hb' & _).
    rewrite Nat.sub_0_r, Hi in Hs'. by injection Hs' as <-.
  - eexists. split; [rewrite Es; apply list_lookup_insert_eq; by eapply lookup_lt_Some|]. done.
  - lia.
Qed.
End stream.

(** ** Where the stream is not delivered *)

Section limits.
Context (nic_send : frame -> Z).

(** C38: a FIN that arrives before data it follows ends the stream early. The
    receiver takes the sequence number behind the FIN as the next one whatever is
    missing before it: nothing of the gap is in the ring, the missing bytes are
    acknowledged, the state machine moves on, and a program that has read what
    was there gets the result of an orderly end. *)
Theorem fin_skips_missing_data n i s seq ack flags payload maxlen timeout :
  net_ok n -> tcp_sockets n !! i = Some s -> ts_state s = TCP_ESTABLISHED -> has flags TCP_FLAG_FIN = true ->
  ts_rx_head s = ts_rx_tail s -> ts_used s = true -> card_quiet n -> n_rx_busy n = false ->
  seq <> ts_rcv_nxt s -> ts_rcv_nxt s < u32 (seq + zlen payload + 1) ->
  exists n' s' n'', tcp_data nic_send n i s seq ack flags payload = Ok n' /\ tcp_sockets n' !! i = Some s' /\
    ts_rcv_nxt s' = u32 (seq + zlen payload + 1) /\ ts_rx_head s' = ts_rx_tail s' /\ ts_state s' = TCP_CLOSE_WAIT /\
    tcp_recv nic_send n' i maxlen timeout = Ok (inr 0, n'').
Proof.
  intros Hn Hi Hst Hfin Hring Hused Hq Hb Hseq Hlt. pose proof (tcp_at n Hn i s Hi) as Hs. pose proof (lookup_lt_Some _ _ _ Hi) as Hlen.
  assert (tcp_ok (acked s flags ack)) as Hak by (unfold acked; destruct (has flags TCP_FLAG_ACK); [by apply process_ack_ok|done]).
  assert (ts_used (acked s flags ack) = true) as Hu by (unfold acked, process_ack; destruct (has flags TCP_FLAG_ACK); [by destruct (_ && _)|done]).
  destruct (acked_fields s flags ack) as (E1 & E2 & E3 & E4 & E5 & E6 & E7).
  unfold tcp_data. rewrite Hfin. cbn zeta. fold (acked s flags ack). set (s1 := acked s flags ack) in *. clearbody s1.
  rewrite E2, (proj2 (Z.eqb_neq _ _) Hseq). set (r1 := if 0 <? zlen payload then _ else _).
  assert (exists n1, r1 = Ok (s1, n1) /\ steps n n1 /\ tcp_sockets n1 = <[i := s1]> (tcp_sockets n) /\ (card_quiet n -> card_quiet n1)) as (n1 & -> & Hs1 & Es1 & Hq1).
  { unfold r1. destruct (0 <? zlen payload).
    - destruct (ack_sent nic_send n i s1 (ts_snd_nxt s1) TCP_FLAG_ACK Hn Hak) as (x & n1 & -> & Hst1 & Es & Hq1). rewrite Ok_bind. by exists n1.
    - exists (put_tcp n i s1). split; [done|]. split; [by apply steps_put|]. done. }
  rewrite Ok_bind. rewrite E2, (proj2 (Z.ltb_lt _ _) Hlt).
  set (s2 := set_rx_fin true (set_rcv (u32 (seq + zlen payload + 1)) s1)). assert (tcp_ok s2) as H2 by (by apply set_rx_fin_ok, set_rcv_ok).
  pose proof (steps_wakes n1 (sp_ok _ _ Hs1) (n_wakes n1 ++ [-1])) as Hw.
  destruct (ack_sent nic_send (wake n1 (-1)) i s2 (ts_snd_nxt s2) TCP_FLAG_ACK (sp_ok _ _ Hw) H2) as (x & n2 & -> & Hs2 & Es2 & Hq2). rewrite !Ok_bind.
  change (ts_state s2) with (ts_state s1). rewrite E1, Hst. cbn [after_fin].
  set (s3 := set_tstate TCP_CLOSE_WAIT s2). change (after_ack s3) with s3.
  pose proof (steps_trans _ _ _ Hs1 (steps_trans _ _ _ Hw Hs2)) as Hsn. pose proof (steps_put n2 (sp_ok _ _ Hsn) i s3 (set_tstate_ok _ _ H2)) as Hp.
  assert (tcp_sockets (put_tcp n2 i s3) !! i = Some s3) as Hl3.
  { apply list_lookup_insert_eq. by rewrite (sp_tcp _ _ Hsn). }
  destruct (poll_quiet nic_send (put_tcp n2 i s3)) as (n3 & Ep & Es3 & _). { exact (Hq2 (Hq1 Hq)). }
  exists (put_tcp n2 i s3), s3, n3. split; [done|]. split; [done|]. split; [done|]. split; [cbn; congruence|]. split; [done|].
  unfold tcp_recv, sock. rewrite Hl3, Ok_bind. change (ts_used s3) with (ts_used s1). rewrite Hu. cbn [negb tcp_recv_wait].
  rewrite Ep, Ok_bind. unfold sock. rewrite Es3, Hl3, Ok_bind. change (ts_rx_head s3) with (ts_rx_head s1). change (ts_rx_tail s3) with (ts_rx_tail s1).
  rewrite E4, E5, Hring, Z.eqb_refl. done.
Qed.

(** a segment longer than the room in the ring is acknowledged whole. The
    ring takes its first bytes and drops the rest, yet the next expected
    sequence number moves behind the last one, so the peer is told that the
    dropped bytes have arrived. *)
Theorem full_ring_acknowledged n i s ack flags payload :
  net_ok n -> tcp_sockets n !! i = Some s -> ts_state s = TCP_ESTABLISHED -> has flags TCP_FLAG_FIN = false -> 0 < zlen payload ->
  let room := (Z.to_nat 65535 - ring_count (ts_rx_head s) (ts_rx_tail s))%nat in
  exists n' s', tcp_data nic_send n i s (ts_rcv_nxt s) ack flags payload = Ok n' /\ tcp_sockets n' !! i = Some s' /\
    contents (ts_rx_buf s') (ts_rx_head s') (ts_rx_tail s') = contents (ts_rx_buf s) (ts_rx_head s) (ts_rx_tail s) ++ take room payload /\
    ts_rcv_nxt s' = u32 (ts_rcv_nxt s + zlen payload).
Proof.
  intros Hn Hi Hst Hfin Hl room. pose proof (tcp_at n Hn i s Hi) as Hs.
  destruct (tcp_data_accept nic_send n i s (ts_rcv_nxt s) ack flags payload Hn Hi Hst Hfin) as (n' & E & _ & Es & _).
  exists n', (accept s (ts_rcv_nxt s) ack flags payload). split; [done|]. split; [rewrite Es; apply list_lookup_insert_eq; by eapply lookup_lt_Some|].
  unfold accept. fold (acked s flags ack). cbn zeta. destruct (acked_fields s flags ack) as (E1 & E2 & E3 & E4 & E5 & E6 & _).
  set (s1 := acked s flags ack) in *. clearbody s1. rewrite E2, Z.eqb_refl, (proj2 (Z.ltb_lt _ _) Hl). cbn [andb].
  pose proof (rx_push_spec (ts_rx_buf s1) (ts_rx_head s1) (ts_rx_tail s1) payload) as Hp. unfold tcp_rx_push. rewrite E4, E5 in *.
  specialize (Hp (to_head s Hs) (to_tail s Hs)). destruct (rx_push _ _ _ _) as [buf head]. destruct Hp as [_ Hp]. cbn. rewrite Hp, E3. done.
Qed.

(** the ephemeral ports run into zero. When the last port, 65535, is
    handed out, the counter wraps to zero and only a port that is taken would
    move it up again; the connection opened next is given port zero, which
    [tcp_connect] takes for none free, and fails though the ports are free. *)
Theorem connect_fails_after_last_port n i s ip port :
  tcp_sockets n !! i = Some s -> ts_used s = true -> ts_state s = TCP_CLOSED -> ts_local_port s = 0 ->
  port_taken (tcp_sockets n) i 65535 = false -> port_taken (alter (set_remote ip port) i (tcp_sockets n)) i 0 = false -> tcp_next n = 0 ->
  tcp_ephemeral (Z.to_nat 16384) (tcp_sockets n) i 65535 = (Some 65535, 0) /\
  exists n', tcp_connect nic_send n i ip port = Ok (-1, n') /\ tcp_next n' = 1.
Proof.
  intros Hi Hu Hst Hp Ht Ht0 Hnx. change (Z.to_nat 16384) with (S (Z.to_nat 16383)). cbn [tcp_ephemeral]. rewrite Ht. split; [done|].
  unfold tcp_connect, sock. rewrite Hi, Ok_bind, Hu, bool_decide_eq_true_2, Hp by done. cbn [negb orb]. cbn zeta. change (0 =? 0) with true. cbn iota.
  change (Z.to_nat 16384) with (S (Z.to_nat 16383)). cbn [tcp_ephemeral]. change (tcp_next (upd_sock n i (set_remote ip port))) with (tcp_next n).
  change (tcp_sockets (upd_sock n i (set_remote ip port))) with (alter (set_remote ip port) i (tcp_sockets n)). rewrite Hnx, Ht0. cbn iota.
  set (n1 := upd_sock _ i (set_local 0)). assert (exists s1, tcp_sockets n1 !! i = Some s1 /\ ts_local_port s1 = 0) as (s1 & -> & Hp1).
  { unfold n1. cbn. rewrite !list_lookup_alter_eq, Hi. cbn. by eexists. }
  rewrite Ok_bind, Hp1. change (0 =? 0) with true. cbn iota. exists n1. done.
Qed.
End limits.

(** ** A connection *)

(** Our socket, from port 49152 to port 80 of the peer. *)
Definition demo_sock (st : tcp_state) (rcv : Z) : tcp_socket :=
  set_rcv rcv (set_snd 7000 7001 7001 (set_tstate st (set_local 49152 (set_remote 167772162 80 (set_used true zero_tcp))))).
Definition demo_conn (st : tcp_state) (rcv : Z) : net :=
  demo_host 167772161 (demo_mac 1) (mk_arp 167772162 (demo_mac 2) 0 true) [] [demo_sock st rcv] 49153.

(** The peer, and what it sends. *)
Definition demo_peer : tcp_socket := set_rcv 7001 (set_local 80 (set_remote 167772161 49152 zero_tcp)).
Definition demo_data : list Z := [104; 101; 108; 108; 111].
Definition ok_or_0 (r : res Z) : Z := match r with Ok v => v | _ => 0 end.
Definition demo_frame (seq flags : Z) (payload : list Z) : frame :=
  ip_frame (demo_mac 1) (demo_mac 2) IP_PROTO_TCP (ok_or_0 (ip_checksum (ipv4_header (20 + (24 + zlen payload)) IP_PROTO_TCP 0 167772162 167772161))) 167772162 167772161
    (tcp_segment demo_peer seq flags (ok_or_0 (tcp_checksum 167772162 167772161 (tcp_segment demo_peer seq flags 0 payload))) payload).

Lemma demo_sock_ok st rcv : tcp_ok (demo_sock st rcv).
Proof. apply set_rcv_ok, set_snd_ok, set_tstate_ok, set_local_ok, set_remote_ok, set_used_ok, zero_tcp_ok. Qed.

Lemma demo_conn_ok st rcv : net_ok (demo_conn st rcv).
Proof. apply demo_host_ok; [done|done|done|by apply Forall_cons_2; [apply demo_sock_ok|]]. Qed.

Lemma demo_stream : stream 167772162 167772161 80 49152 demo_data 1000 0 (demo_conn TCP_ESTABLISHED 1000) 0 0.
Proof.
  split; [apply demo_conn_ok|done|done|done|done| |done]. exists (demo_sock TCP_ESTABLISHED 1000). split; [done|]. split; [done|]. by split.
Qed.

Lemma demo_carries o l flags :
  0 <= o -> 0 <= l <= 5 -> o + l <= 5 -> flags = 16 \/ flags = 24 ->
  tcp_checksum 167772162 167772161 (tcp_segment demo_peer (u32 (1000 + o)) flags 0 (part demo_data o (o + l))) =
    Ok (ok_or_0 (tcp_checksum 167772162 167772161 (tcp_segment demo_peer (u32 (1000 + o)) flags 0 (part demo_data o (o + l))))) ->
  zlen (part demo_data o (o + l)) = l ->
  carries 167772162 167772161 80 49152 demo_data 1000 o l (demo_frame (u32 (1000 + o)) flags (part demo_data o (o + l))).
Proof.
  intros Ho Hl Hol Hf Hck Hpl. destruct (ip_checksum_exists (20 + (24 + l)) IP_PROTO_TCP 167772162 167772161) as [ck E].
  exists demo_peer, (demo_mac 1), (demo_mac 2), flags. do 2 eexists. unfold TCP_MSS, is_byte. do 5 (split; [done|]). split; [lia|].
  split; [by destruct Hf as [->| ->]|]. split; [by destruct Hf as [->| ->]|]. split; [lia|]. split; [lia|]. split; [change (zlen demo_data) with 5; lia|].
  split; [exact Hck|]. split; [exact E|]. unfold demo_frame. rewrite Hpl, E. reflexivity.
Qed.

(** The second half of the stream comes first, then all of it in two segments,
    one of them twice, and the program reads three bytes and then the rest. *)
Definition demo_events : list event :=
  [Arrives 3 2 (demo_frame (u32 (1000 + 3)) 24 (part demo_data 3 5)); Reads 10 0; Arrives 0 3 (demo_frame (u32 (1000 + 0)) 16 (part demo_data 0 3));
   Arrives 0 3 (demo_frame (u32 (1000 + 0)) 16 (part demo_data 0 3)); Reads 2 0; Arrives 3 2 (demo_frame (u32 (1000 + 3)) 24 (part demo_data 3 5)); Reads 10 0].

Lemma demo_proper : proper 167772162 167772161 80 49152 demo_data 1000 0 0 demo_events.
Proof.
  unfold demo_events. cbn -[carries demo_frame part u32].
  assert (carries 167772162 167772161 80 49152 demo_data 1000 3 2 (demo_frame (u32 (1000 + 3)) 24 (part demo_data 3 5))).
  { apply (demo_carries 3 2 24); [lia|lia|lia|auto|by vm_compute|by vm_compute]. }
  assert (carries 167772162 167772161 80 49152 demo_data 1000 0 3 (demo_frame (u32 (1000 + 0)) 16 (part demo_data 0 3))).
  { apply (demo_carries 0 3 16); [lia|lia|lia|auto|by vm_compute|by vm_compute]. }
  split_and!; try done; lia.
Qed.

Lemma tcp_delivers_stream_witness :
  exists n', session (fun _ => 0) 0 (demo_conn TCP_ESTABLISHED 1000) demo_events = Ok (part demo_data 0 5, n') /\
    stream 167772162 167772161 80 49152 demo_data 1000 0 n' 5 5.
Proof.
  exact (tcp_delivers_stream (fun _ => 0) 167772162 167772161 80 49152 demo_data 1000 0 ltac:(done) ltac:(done) ltac:(done) ltac:(done)
    ltac:(repeat (apply Forall_cons_2; [done|]); apply Forall_nil_2) ltac:(done) (demo_conn TCP_ESTABLISHED 1000) 0 0 demo_events demo_stream demo_proper).
Defined.

Lemma demo_waits : syn_waits (demo_sock TCP_SYN_SENT 0).
Proof. by split. Qed.

Lemma demo_syn_checksum : tcp_checksum 167772162 167772161 (tcp_segment demo_peer (u32 (1000 - 1)) 18 0 []) =
  Ok (ok_or_0 (tcp_checksum 167772162 167772161 (tcp_segment demo_peer (u32 (1000 - 1)) 18 0 []))).
Proof. by vm_compute. Qed.

Lemma demo_syn_ip_checksum : ip_checksum (ipv4_header 44 IP_PROTO_TCP 0 167772162 167772161) =
  Ok (ok_or_0 (ip_checksum (ipv4_header (20 + (24 + zlen (@nil Z))) IP_PROTO_TCP 0 167772162 167772161))).
Proof. by vm_compute. Qed.

Lemma tcp_handshake_witness :
  exists n', netif_receive (fun _ => 0) (demo_conn TCP_SYN_SENT 0) (demo_frame (u32 (1000 - 1)) 18 []) = Ok n' /\
    stream 167772162 167772161 80 49152 demo_data 1000 0 n' 0 0.
Proof.
  exact (tcp_handshake (fun _ => 0) 167772162 167772161 80 49152 demo_data 1000 0 ltac:(done) ltac:(done) ltac:(done) ltac:(done)
    (demo_conn TCP_SYN_SENT 0) (demo_sock TCP_SYN_SENT 0) demo_peer (demo_mac 1) (demo_mac 2) 18 _ _
    (demo_conn_ok TCP_SYN_SENT 0) eq_refl eq_refl (conj eq_refl eq_refl) eq_refl eq_refl demo_waits eq_refl eq_refl eq_refl eq_refl eq_refl
    ltac:(done) eq_refl eq_refl eq_refl demo_syn_checksum demo_syn_ip_checksum).
Defined.

Lemma fin_skips_missing_data_witness :
  exists n' s' n'', tcp_data (fun _ => 0) (demo_conn TCP_ESTABLISHED 1000) 0 (demo_sock TCP_ESTABLISHED 1000) 1005 7001 17 [] = Ok n' /\
    tcp_sockets n' !! 0%nat = Some s' /\ ts_rcv_nxt s' = u32 (1005 + zlen (@nil Z) + 1) /\ ts_rx_head s' = ts_rx_tail s' /\
    ts_state s' = TCP_CLOSE_WAIT /\ tcp_recv (fun _ => 0) n' 0 10 100 = Ok (inr 0, n'').
Proof.
  apply (fin_skips_missing_data (fun _ => 0) (demo_conn TCP_ESTABLISHED 1000) 0 (demo_sock TCP_ESTABLISHED 1000) 1005 7001 17 [] 10 100); try done.
  - apply demo_conn_ok.
Defined.

(** A ring with no room. *)
Definition demo_full : tcp_socket := set_ring ∅ 65535 0 (demo_sock TCP_ESTABLISHED 1000).

Lemma demo_full_ok : net_ok (demo_host 167772161 (demo_mac 1) no_entry [] [demo_full] 49153).
Proof. apply demo_host_ok; [done|done|done|apply Forall_cons_2; [|done]]. destruct (demo_sock_ok TCP_ESTABLISHED 1000). by split. Qed.

Lemma full_ring_acknowledged_witness :
  exists n' s', tcp_data (fun _ => 0) (demo_host 167772161 (demo_mac 1) no_entry [] [demo_full] 49153) 0 demo_full 1000 7001 16 [7] = Ok n' /\
    tcp_sockets n' !! 0%nat = Some s' /\
    contents (ts_rx_buf s') (ts_rx_head s') (ts_rx_tail s') = contents ∅ 65535 0 ++ take (Z.to_nat 65535 - ring_count 65535 0)%nat [7] /\
    ts_rcv_nxt s' = u32 (1000 + zlen [7]).
Proof.
  exact (full_ring_acknowledged (fun _ => 0) (demo_host 167772161 (demo_mac 1) no_entry [] [demo_full] 49153) 0 demo_full 7001 16 [7]
    demo_full_ok eq_refl eq_refl eq_refl eq_refl).
Defined.

Definition demo_last_port : net := demo_host 167772161 (demo_mac 1) no_entry [] [set_used true zero_tcp] 0.

Lemma connect_fails_after_last_port_witness :
  tcp_ephemeral (Z.to_nat 16384) (tcp_sockets demo_last_port) 0 65535 = (Some 65535, 0) /\
  exists n', tcp_connect (fun _ => 0) demo_last_port 0 167772162 80 = Ok (-1, n') /\ tcp_next n' = 1.
Proof. exact (connect_fails_after_last_port (fun _ => 0) demo_last_port 0 (set_used true zero_tcp) 167772162 80 eq_refl eq_refl eq_refl eq_refl eq_refl eq_refl eq_refl). Defined.
