(* ===== verification/UnixSock.v ===== *)
(** * UnixSock: the Unix domain sockets of src/src/kernel/net/unix_sock.c

    Sockets are objects of the kernel heap, found by their address; an access
    to one that was freed is a [Fault]. Data goes through a ring of bytes in the
    receiving socket, as a stream or framed in records. The heap is an
    interface, [KernelHeap]. A path argument holds at least the bytes its length
    says, as the system calls pass it. *)

From S2P Require Import Prelude.

Definition L_EMSGSIZE : Z := 90.
Definition L_EPIPE : Z := 32.
Definition L_ECONNRESET : Z := 104.
Definition L_ECONNREFUSED : Z := 111.
Definition L_EADDRINUSE : Z := 98.
Definition L_EISCONN : Z := 106.
Definition L_ENOTCONN : Z := 107.
Definition UNIX_PATH_MAX : Z := 108.
Definition UNIX_RXBUF_SZ : Z := 65536.
Definition UNIX_BACKLOG : Z := 16.
Definition UNIX_SCM_MAX : Z := 8.
Definition UNIX_SCM_QLEN : Z := 8.
Definition UNIX_BIND_MAX : Z := 32.
Definition US_IDLE : Z := 0.
Definition US_LISTENING : Z := 1.
Definition US_CONNECTED : Z := 2.
Definition US_CLOSED : Z := 3.
Definition REC_HDR : Z := 16.

(** ** Data *)

(** A record of passed files: the position of the stream behind its message,
    and the files, as many as the counter [n] says. *)
Record unix_scm : Type := mk_scm { scm_off : Z; scm_files : list Z }.

(** Pointers are addresses, 0 is NULL. The name holds its [name_len] bytes. *)
Record unix_sock : Type := mk_sock {
  us_rx_ptr : Z;
  us_type : Z;
  us_state : Z;
  us_peer : Z;
  us_rx : list Z;
  us_rx_sz : Z;
  us_head : Z;
  us_tail : Z;
  us_abs_head : Z;
  us_abs_tail : Z;
  us_msg_cnt : Z;
  us_pend : list Z;
  us_pend_head : Z;
  us_pend_cnt : Z;
  us_backlog : Z;
  us_scm : list unix_scm;
  us_scm_head : Z;
  us_scm_cnt : Z;
  us_name : list Z;
  us_name_len : Z;
  us_abstract : bool;
  us_cred_pid : Z;
}.

Record bind_node : Type := mk_bind { b_path : list Z; b_plen : Z; b_abstract : bool; b_s : Z }.

(** What the sockets use of the kernel heap: [kh_live h L] says that [L] are the
    allocated blocks of a well formed heap, [kh_bytes h p n] is what the memory
    of a new block happens to hold. *)
Class KernelHeap (H : Type) : Type := {
  kh_malloc : H -> Z -> res (Z * H);
  kh_free : H -> Z -> res H;
  kh_bytes : H -> Z -> Z -> list Z;
  kh_live : H -> gset Z -> Prop;
  kh_bytes_ok h p n : 0 <= n -> zlen (kh_bytes h p n) = n /\ Forall is_byte (kh_bytes h p n);
  kh_malloc_live h L n : kh_live h L -> 0 <= n <= 2 ^ 62 ->
    total (fun '(p, h') => (p = 0 /\ kh_live h' L) \/ (0 < p < 2 ^ 64 /\ p ∉ L /\ kh_live h' ({[p]} ∪ L))) (kh_malloc h n);
  kh_free_live h L p : kh_live h L -> p ∈ L -> total (fun h' => kh_live h' (L ∖ {[p]})) (kh_free h p);
}.

Section sockets.
Context {H : Type} {KH : KernelHeap H}.

(** The sockets on the heap, the table of names, the heap, the files that were
    closed, the number of wake-ups and the process that calls. *)
Record unet : Type := mk_unet {
  u_socks : gmap Z unix_sock;
  u_bind : list bind_node;
  u_heap : H;
  u_closed : list Z;
  u_wakes : Z;
  u_tgid : Z;
}.

Definition with_socks (n : unet) (m : gmap Z unix_sock) : unet := mk_unet m (u_bind n) (u_heap n) (u_closed n) (u_wakes n) (u_tgid n).
Definition with_bind (n : unet) (b : list bind_node) : unet := mk_unet (u_socks n) b (u_heap n) (u_closed n) (u_wakes n) (u_tgid n).
Definition with_heap (n : unet) (h : H) : unet := mk_unet (u_socks n) (u_bind n) h (u_closed n) (u_wakes n) (u_tgid n).
Definition file_close_all (n : unet) (fs : list Z) : unet := mk_unet (u_socks n) (u_bind n) (u_heap n) (u_closed n ++ fs) (u_wakes n) (u_tgid n).
Definition unix_wake (n : unet) : unet := mk_unet (u_socks n) (u_bind n) (u_heap n) (u_closed n) (u_wakes n + 1) (u_tgid n).

Definition get (n : unet) (p : Z) : res unix_sock := match u_socks n !! p with Some s => Ok s | None => Fault end.
Definition put (n : unet) (p : Z) (s : unix_sock) : unet := with_socks n (<[p := s]> (u_socks n)).

(** [kfree(s->rx); kfree(s)] *)
Definition kfree_sock (n : unet) (p : Z) (s : unix_sock) : res unet :=
  h ← kh_free (u_heap n) (us_rx_ptr s);
  h ← kh_free h p;
  Ok (with_heap (with_socks n (delete p (u_socks n))) h).

Definition set_peer (s : unix_sock) (p : Z) : unix_sock :=
  mk_sock (us_rx_ptr s) (us_type s) (us_state s) p (us_rx s) (us_rx_sz s) (us_head s) (us_tail s) (us_abs_head s) (us_abs_tail s) (us_msg_cnt s)
    (us_pend s) (us_pend_head s) (us_pend_cnt s) (us_backlog s) (us_scm s) (us_scm_head s) (us_scm_cnt s) (us_name s) (us_name_len s) (us_abstract s) (us_cred_pid s).
Definition set_state (s : unix_sock) (st : Z) : unix_sock :=
  mk_sock (us_rx_ptr s) (us_type s) st (us_peer s) (us_rx s) (us_rx_sz s) (us_head s) (us_tail s) (us_abs_head s) (us_abs_tail s) (us_msg_cnt s)
    (us_pend s) (us_pend_head s) (us_pend_cnt s) (us_backlog s) (us_scm s) (us_scm_head s) (us_scm_cnt s) (us_name s) (us_name_len s) (us_abstract s) (us_cred_pid s).
Definition set_rx (s : unix_sock) (rx : list Z) (head tail ah at_ : Z) : unix_sock :=
  mk_sock (us_rx_ptr s) (us_type s) (us_state s) (us_peer s) rx (us_rx_sz s) head tail ah at_ (us_msg_cnt s)
    (us_pend s) (us_pend_head s) (us_pend_cnt s) (us_backlog s) (us_scm s) (us_scm_head s) (us_scm_cnt s) (us_name s) (us_name_len s) (us_abstract s) (us_cred_pid s).
Definition set_msg_cnt (s : unix_sock) (c : Z) : unix_sock :=
  mk_sock (us_rx_ptr s) (us_type s) (us_state s) (us_peer s) (us_rx s) (us_rx_sz s) (us_head s) (us_tail s) (us_abs_head s) (us_abs_tail s) c
    (us_pend s) (us_pend_head s) (us_pend_cnt s) (us_backlog s) (us_scm s) (us_scm_head s) (us_scm_cnt s) (us_name s) (us_name_len s) (us_abstract s) (us_cred_pid s).
Definition set_pend (s : unix_sock) (pend : list Z) (head cnt : Z) : unix_sock :=
  mk_sock (us_rx_ptr s) (us_type s) (us_state s) (us_peer s) (us_rx s) (us_rx_sz s) (us_head s) (us_tail s) (us_abs_head s) (us_abs_tail s) (us_msg_cnt s)
    pend head cnt (us_backlog s) (us_scm s) (us_scm_head s) (us_scm_cnt s) (us_name s) (us_name_len s) (us_abstract s) (us_cred_pid s).
Definition set_backlog (s : unix_sock) (b : Z) : unix_sock :=
  mk_sock (us_rx_ptr s) (us_type s) (us_state s) (us_peer s) (us_rx s) (us_rx_sz s) (us_head s) (us_tail s) (us_abs_head s) (us_abs_tail s) (us_msg_cnt s)
    (us_pend s) (us_pend_head s) (us_pend_cnt s) b (us_scm s) (us_scm_head s) (us_scm_cnt s) (us_name s) (us_name_len s) (us_abstract s) (us_cred_pid s).
Definition set_scm (s : unix_sock) (q : list unix_scm) (head cnt : Z) : unix_sock :=
  mk_sock (us_rx_ptr s) (us_type s) (us_state s) (us_peer s) (us_rx s) (us_rx_sz s) (us_head s) (us_tail s) (us_abs_head s) (us_abs_tail s) (us_msg_cnt s)
    (us_pend s) (us_pend_head s) (us_pend_cnt s) (us_backlog s) q head cnt (us_name s) (us_name_len s) (us_abstract s) (us_cred_pid s).
Definition set_name (s : unix_sock) (name : list Z) (len : Z) (abstract : bool) : unix_sock :=
  mk_sock (us_rx_ptr s) (us_type s) (us_state s) (us_peer s) (us_rx s) (us_rx_sz s) (us_head s) (us_tail s) (us_abs_head s) (us_abs_tail s) (us_msg_cnt s)
    (us_pend s) (us_pend_head s) (us_pend_cnt s) (us_backlog s) (us_scm s) (us_scm_head s) (us_scm_cnt s) name len abstract (us_cred_pid s).
Definition set_cred (s : unix_sock) (pid : Z) : unix_sock :=
  mk_sock (us_rx_ptr s) (us_type s) (us_state s) (us_peer s) (us_rx s) (us_rx_sz s) (us_head s) (us_tail s) (us_abs_head s) (us_abs_tail s) (us_msg_cnt s)
    (us_pend s) (us_pend_head s) (us_pend_cnt s) (us_backlog s) (us_scm s) (us_scm_head s) (us_scm_cnt s) (us_name s) (us_name_len s) (us_abstract s) pid.

(** ** The ring *)

Definition ring_used (s : unix_sock) : Z := u32 (us_abs_head s - us_abs_tail s).
Definition ring_space (s : unix_sock) : Z := u32 (us_rx_sz s - ring_used s).

Fixpoint ring_put (rx : list Z) (sz h : Z) (data : list Z) : res (list Z * Z) :=
  match data with
  | [] => Ok (rx, h)
  | b :: data' => rx ← st rx h b; ring_put rx sz (u32 (h + 1) mod sz) data'
  end.

(** The loop reads [len] bytes of the caller's object. *)
Definition ring_write (s : unix_sock) (data : list Z) (len : Z) : res unix_sock :=
  if zlen data <? len then Fault else
  '(rx, h) ← ring_put (us_rx s) (us_rx_sz s) (us_head s) (take (Z.to_nat len) data);
  Ok (set_rx s rx h (us_tail s) (u64 (us_abs_head s + len)) (us_abs_tail s)).

Fixpoint ring_get (rx : list Z) (sz t : Z) (len : nat) : res (list Z * Z) :=
  match len with
  | O => Ok ([], t)
  | S len' => b ← ld rx t; '(l, t) ← ring_get rx sz (u32 (t + 1) mod sz) len'; Ok (b :: l, t)
  end.

Definition ring_read (s : unix_sock) (len : Z) : res (list Z * unix_sock) :=
  '(l, t) ← ring_get (us_rx s) (us_rx_sz s) (us_tail s) (Z.to_nat len);
  Ok (l, set_rx s (us_rx s) (us_head s) t (us_abs_head s) (u64 (us_abs_tail s + len))).

Definition ring_peek (s : unix_sock) (abs_off len : Z) : res (list Z) :=
  '(l, _) ← ring_get (us_rx s) (us_rx_sz s) (u32 (us_tail s + u32 (abs_off - us_abs_tail s)) mod us_rx_sz s) (Z.to_nat len);
  Ok l.

Definition sock_readable (s : unix_sock) : bool :=
  if us_type s =? 1 then (0 <? ring_used s) || (us_peer s =? 0) else 0 <? us_msg_cnt s.

Definition sock_writable (s : unix_sock) : bool :=
  if us_type s =? 1 then 0 <? ring_space s else REC_HDR + 256 <? ring_space s.

(** ** Records *)

(** The header of a record in memory: length, padding, sender. *)
Definition le64 (v : Z) : list Z := le32 (v mod 4294967296) ++ le32 (v / 4294967296).
Definition rec_hdr (len src : Z) : list Z := le32 len ++ le32 0 ++ le64 src.

Fixpoint scrub_loop (s : unix_sock) (dying pos : Z) (m : nat) : res unix_sock :=
  match m with
  | O => Ok s
  | S m' =>
      h ← ring_peek s pos REC_HDR;
      len ← ld32 h 0;
      src ← ld64 h 8;
      s ← (if src =? dying then
             let off := u32 (us_tail s + u32 (pos - us_abs_tail s)) mod us_rx_sz s in
             let src_off := u32 (off + 8) mod us_rx_sz s in
             rx ← for_ 0 8 (fun b rx => st rx (u32 (src_off + b) mod us_rx_sz s) 0) (us_rx s);
             Ok (set_rx s rx (us_head s) (us_tail s) (us_abs_head s) (us_abs_tail s))
           else Ok s);
      scrub_loop s dying (u64 (pos + (REC_HDR + len))) m'
  end.

Definition scrub_ring_src (s : unix_sock) (dying : Z) : res unix_sock :=
  if (us_type s =? 1) || (us_msg_cnt s =? 0) then Ok s
  else scrub_loop s dying (us_abs_tail s) (Z.to_nat (us_msg_cnt s)).

(** ** Lifecycle *)

Definition SIZEOF_UNIX_SOCK : Z := 984.

Definition no_scm : unix_scm := mk_scm 0 [].

(** A zeroed socket with its ring. *)
Definition new_sock (type rx_ptr : Z) (rx : list Z) : unix_sock :=
  mk_sock rx_ptr type US_IDLE 0 rx UNIX_RXBUF_SZ 0 0 0 0 0
    (replicate (Z.to_nat UNIX_BACKLOG) 0) 0 0 0 (replicate (Z.to_nat UNIX_SCM_QLEN) no_scm) 0 0 [] 0 false 0.

Definition unix_socket_create (type : Z) (n : unet) : res (Z * unet) :=
  '(p, h) ← kh_malloc (u_heap n) SIZEOF_UNIX_SOCK;
  if p =? 0 then Ok (0, with_heap n h) else
  '(rx, h) ← kh_malloc h UNIX_RXBUF_SZ;
  if rx =? 0 then h ← kh_free h p; Ok (0, with_heap n h) else
  Ok (p, put (with_heap n h) p (new_sock type rx (kh_bytes h rx UNIX_RXBUF_SZ))).

Definition unbind_sock (p : Z) (b : bind_node) : bind_node := if b_s b =? p then mk_bind (b_path b) 0 (b_abstract b) 0 else b.

(** The pending connections of a listener that is closed. *)
Fixpoint refuse_pending (s : unix_sock) (k : nat) (i : Z) (n : unet) : res unet :=
  match k with
  | O => Ok n
  | S k' =>
      child ← ld (us_pend s) ((us_pend_head s + i) mod UNIX_BACKLOG);
      n ← (if child =? 0 then Ok n else
             c ← get n child;
             n ← (if us_peer c =? 0 then Ok n else q ← get n (us_peer c); Ok (put n (us_peer c) (set_peer q 0)));
             kfree_sock n child c);
      refuse_pending s k' (i + 1) n
  end.

Fixpoint drop_scm (s : unix_sock) (k : nat) (i : Z) (n : unet) : res unet :=
  match k with
  | O => Ok n
  | S k' =>
      match zget (us_scm s) ((us_scm_head s + i) mod UNIX_SCM_QLEN) with
      | None => Fault
      | Some r => drop_scm s k' (i + 1) (file_close_all n (scm_files r))
      end
  end.

Definition unix_sock_close (p : Z) (n : unet) : res unet :=
  if p =? 0 then Ok n else
  s ← get n p;
  if us_state s =? US_CLOSED then Ok n else
  let n := with_bind n (unbind_sock p <$> u_bind n) in
  n ← (if us_peer s =? 0 then Ok n else
         q ← get n (us_peer s);
         q ← scrub_ring_src (set_peer q 0) p;
         Ok (put n (us_peer s) q));
  n ← refuse_pending s (Z.to_nat (us_pend_cnt s)) 0 n;
  n ← drop_scm s (Z.to_nat (us_scm_cnt s)) 0 n;
  kfree_sock (unix_wake n) p s.

(** ** Names *)

Definition bind_matches (path : list Z) (plen : Z) (abstract : bool) (b : bind_node) : bool :=
  negb (b_s b =? 0) && Bool.eqb (b_abstract b) abstract && (b_plen b =? plen) && bool_decide (take (Z.to_nat plen) (b_path b) = take (Z.to_nat plen) path).

Definition bind_find (n : unet) (path : list Z) (plen : Z) (abstract : bool) : option bind_node :=
  snd <$> list_find (fun b => bind_matches path plen abstract b = true) (u_bind n).

Definition unix_bind (p : Z) (path : list Z) (pathlen : Z) (n : unet) : res (Z * unet) :=
  if p =? 0 then Ok (- L_EINVAL, n) else
  s ← get n p;
  if negb (us_name_len s =? 0) then Ok (- L_EINVAL, n) else
  if pathlen =? 0 then Ok (- L_EINVAL, n) else
  let abstract := pathlen <? 0 in
  let plen := if abstract then - pathlen else pathlen in
  if UNIX_PATH_MAX <? plen then Ok (- L_EINVAL, n) else
  match bind_find n path plen abstract with
  | Some _ => Ok (- L_EADDRINUSE, n)
  | None =>
      match list_find (fun b => b_s b = 0) (u_bind n) with
      | None => Ok (- L_EADDRINUSE, n)
      | Some (i, _) =>
          let name := take (Z.to_nat plen) path in
          let n := with_bind n (<[i := mk_bind name plen abstract p]> (u_bind n)) in
          Ok (0, put n p (set_name s name plen abstract))
      end
  end.

Definition unix_unlink_path (path : list Z) (n : unet) : Z * unet :=
  let plen := zlen path in
  if (plen <=? 0) || (UNIX_PATH_MAX <? plen) then (- L_EINVAL, n) else
  match list_find (fun b => bind_matches path plen false b = true) (u_bind n) with
  | Some (i, b) => (0, with_bind n (<[i := mk_bind (b_path b) 0 (b_abstract b) 0]> (u_bind n)))
  | None => (-2, n)
  end.

Definition unix_has_node (path : list Z) (n : unet) : bool :=
  let plen := zlen path in
  if (plen <=? 0) || (UNIX_PATH_MAX <? plen) then false else
  match bind_find n path plen false with Some _ => true | None => false end.

(** ** Connections *)

Definition unix_listen (p backlog : Z) (n : unet) : res (Z * unet) :=
  if p =? 0 then Ok (- L_EINVAL, n) else
  s ← get n p;
  if negb (us_type s =? 1) && negb (us_type s =? 5) then Ok (- L_EINVAL, n) else
  if us_name_len s =? 0 then Ok (- L_EINVAL, n) else
  if negb (us_state s =? US_IDLE) then Ok (- L_EISCONN, n) else
  let backlog := if 0 <? backlog then backlog else 1 in
  let backlog := if UNIX_BACKLOG <? backlog then UNIX_BACKLOG else backlog in
  Ok (0, put n p (set_state (set_backlog s backlog) US_LISTENING)).

Definition fill_cred (n : unet) (s : unix_sock) : unix_sock := set_cred s (u_tgid n).

Definition unix_connect (p : Z) (path : list Z) (pathlen : Z) (n : unet) : res (Z * unet) :=
  if p =? 0 then Ok (- L_EINVAL, n) else
  s ← get n p;
  if us_state s =? US_CONNECTED then Ok (- L_EISCONN, n) else
  let abstract := pathlen <? 0 in
  let plen := if abstract then - pathlen else pathlen in
  if (plen <=? 0) || (UNIX_PATH_MAX <? plen) then Ok (- L_EINVAL, n) else
  match bind_find n path plen abstract with
  | None => Ok (- L_ECONNREFUSED, n)
  | Some b =>
      let l := b_s b in
      lsn ← get n l;
      if negb (us_state lsn =? US_LISTENING) then Ok (- L_ECONNREFUSED, n) else
      if us_backlog lsn <=? us_pend_cnt lsn then Ok (- L_EAGAIN, n) else
      '(child, n) ← unix_socket_create (us_type lsn) n;
      if child =? 0 then Ok (- L_ENOMEM, n) else
      c ← get n child;
      let c := fill_cred n (set_peer (set_state c US_CONNECTED) p) in
      let c := if us_name_len lsn =? 0 then c else set_name c (us_name lsn) (us_name_len lsn) (us_abstract lsn) in
      let n := put n child c in
      s ← get n p;
      let n := put n p (set_state (set_peer s child) US_CONNECTED) in
      lsn ← get n l;
      pend ← st (us_pend lsn) ((us_pend_head lsn + us_pend_cnt lsn) mod UNIX_BACKLOG) child;
      let n := put n l (set_pend lsn pend (us_pend_head lsn) (us_pend_cnt lsn + 1)) in
      Ok (0, unix_wake n)
  end.

Definition unix_accept (p : Z) (n : unet) : res (Z * unet) :=
  if p =? 0 then Ok (0, n) else
  s ← get n p;
  if negb (us_state s =? US_LISTENING) then Ok (0, n) else
  if us_pend_cnt s =? 0 then Ok (0, n) else
  child ← ld (us_pend s) (us_pend_head s);
  pend ← st (us_pend s) (us_pend_head s) 0;
  Ok (child, put n p (set_pend s pend ((us_pend_head s + 1) mod UNIX_BACKLOG) (us_pend_cnt s - 1))).

Definition unix_socketpair (a b : Z) (n : unet) : res (Z * unet) :=
  if (a =? 0) || (b =? 0) then Ok (- L_EINVAL, n) else
  s ← get n a;
  let n := put n a (set_peer s b) in
  s ← get n b;
  let n := put n b (set_peer s a) in
  s ← get n a;
  let n := put n a (fill_cred n (set_state s US_CONNECTED)) in
  s ← get n b;
  Ok (0, put n b (set_cred (set_state s US_CONNECTED) (u_tgid n))).

(** The sockets of [sc_socketpair] (core/syscall_lnx.c): its result code and the
    two sockets. *)
Definition socketpair_socks (type : Z) (n : unet) : res (Z * Z * Z * unet) :=
  '(a, n) ← unix_socket_create type n;
  if a =? 0 then Ok (- L_ENOMEM, 0, 0, n) else
  '(b, n) ← unix_socket_create type n;
  if b =? 0 then n ← unix_sock_close a n; Ok (- L_ENOMEM, 0, 0, n) else
  '(r, n) ← unix_socketpair a b n;
  if negb (r =? 0) then n ← unix_sock_close a n; n ← unix_sock_close b n; Ok (- L_EINVAL, 0, 0, n) else
  Ok (0, a, b, n).

(** ** Streams *)

Definition unix_send (p : Z) (buf : list Z) (len : Z) (n : unet) : res (Z * unet) :=
  if p =? 0 then Ok (- L_ENOTCONN, n) else
  s ← get n p;
  if negb (us_state s =? US_CONNECTED) then Ok (- L_ENOTCONN, n) else
  if us_peer s =? 0 then Ok (- L_EPIPE, n) else
  q ← get n (us_peer s);
  if ring_space q <? u32 len then Ok (- L_EAGAIN, n) else
  q ← ring_write q buf (u32 len);
  Ok (len, unix_wake (put n (us_peer s) q)).

(** The records of files whose message was read; each is taken off and its
    files go to [take_files]. *)
Fixpoint scm_consume (k : nat) (s : unix_sock) (n : unet) : res (unix_sock * unet) :=
  match k with
  | O => Ok (s, n)
  | S k' =>
      match zget (us_scm s) (us_scm_head s) with
      | None => Fault
      | Some r =>
          if us_abs_tail s <? scm_off r then Ok (s, n)
          else scm_consume k' (set_scm s (zset (us_scm s) (us_scm_head s) (mk_scm (scm_off r) [])) ((us_scm_head s + 1) mod UNIX_SCM_QLEN) (us_scm_cnt s - 1))
                 (file_close_all n (scm_files r))
      end
  end.

Definition unix_recv (p len : Z) (n : unet) : res (Z * list Z * unet) :=
  if p =? 0 then Ok (- L_EINVAL, [], n) else
  s ← get n p;
  if negb (us_type s =? 1) then Ok (- L_EINVAL, [], n) else
  let used := ring_used s in
  if used =? 0 then
    if us_peer s =? 0 then Ok (0, [], n) else Ok (- L_EAGAIN, [], n)
  else
    let k := if used <? u32 len then used else u32 len in
    '(data, s) ← ring_read s k;
    '(s, n) ← scm_consume (Z.to_nat (us_scm_cnt s)) s n;
    Ok (s32 k, data, put n p s).

(** ** Records *)

(** The second half of [unix_sendto_dgram], once the destination is known. *)
Definition dgram_put (p : Z) (buf : list Z) (len dst : Z) (n : unet) : res (Z * unet) :=
  d ← get n dst;
  if us_state d =? US_CLOSED then Ok (- L_ECONNRESET, n) else
  let need := u32 (u32 len + REC_HDR) in
  if us_rx_sz d <? need then Ok (- L_EMSGSIZE, n) else
  if ring_space d <? need then Ok (- L_EAGAIN, n) else
  d ← ring_write d (rec_hdr (u32 len) p) REC_HDR;
  d ← ring_write d buf (u32 len);
  Ok (len, unix_wake (put n dst (set_msg_cnt d (us_msg_cnt d + 1)))).

Definition unix_sendto_dgram (p : Z) (buf : list Z) (len : Z) (path : option (list Z)) (pathlen : Z) (n : unet) : res (Z * unet) :=
  if p =? 0 then Ok (- L_EINVAL, n) else
  s ← get n p;
  if us_type s =? 1 then Ok (- L_EINVAL, n) else
  if negb (us_peer s =? 0) then dgram_put p buf len (us_peer s) n else
  match path with
  | None => Ok (- L_ENOTCONN, n)
  | Some path =>
      if pathlen <=? 0 then Ok (- L_ENOTCONN, n) else
      let abstract := pathlen <? 0 in
      let plen := if abstract then - pathlen else pathlen in
      match bind_find n path plen abstract with
      | None => Ok (- L_ECONNREFUSED, n)
      | Some b => dgram_put p buf len (b_s b) n
      end
  end.

Fixpoint ring_skip (s : unix_sock) (drop : nat) : res unix_sock :=
  match drop with
  | O => Ok s
  | S drop' => '(_, s) ← ring_read s 1; ring_skip s drop'
  end.

(** The message goes to an object of [cap] bytes. *)
Definition framed_pop (s : unix_sock) (cap len : Z) : res (Z * list Z * Z * unix_sock) :=
  if us_msg_cnt s =? 0 then Ok (- L_EAGAIN, [], 0, s) else
  '(h, s) ← ring_read s REC_HDR;
  hlen ← ld32 h 0;
  src ← ld64 h 8;
  let s := set_msg_cnt s (us_msg_cnt s - 1) in
  let k := if hlen <? u32 len then hlen else u32 len in
  if cap <? k then Fault else
  '(data, s) ← ring_read s k;
  s ← ring_skip s (Z.to_nat (hlen - k));
  Ok (s32 k, data, src, s).

(** ** Messages *)

Definition scm_push (s : unix_sock) (fds : list Z) : res (option unix_sock) :=
  if UNIX_SCM_QLEN <=? us_scm_cnt s then Ok None else
  if UNIX_SCM_MAX <? zlen fds then Fault else
  Ok (Some (set_scm s (zset (us_scm s) ((us_scm_head s + us_scm_cnt s) mod UNIX_SCM_QLEN) (mk_scm (us_abs_head s) fds)) (us_scm_head s) (us_scm_cnt s + 1))).

Fixpoint write_iov (s : unix_sock) (iv : list (list Z)) : res unix_sock :=
  match iv with
  | [] => Ok s
  | b :: iv' => s ← (if zlen b =? 0 then Ok s else ring_write s b (u32 (zlen b))); write_iov s iv'
  end.

Definition iov_total (lens : list Z) : Z := foldl (fun t l => u64 (t + l)) 0 lens.

Definition unix_sendmsg (p : Z) (iv : list (list Z)) (fds : list Z) (n : unet) : res (Z * unet) :=
  if p =? 0 then Ok (- L_ENOTCONN, n) else
  s ← get n p;
  if negb (us_state s =? US_CONNECTED) then Ok (- L_ENOTCONN, n) else
  if us_peer s =? 0 then Ok (- L_EPIPE, n) else
  peer ← get n (us_peer s);
  let total := iov_total (zlen <$> iv) in
  if UNIX_RXBUF_SZ - 16 <? total then Ok (- L_EMSGSIZE, n) else
  if us_type peer =? 1 then
    if ring_space peer <? total then Ok (- L_EAGAIN, n) else
    peer ← write_iov peer iv;
    '(peer, n) ← (if 0 <? zlen fds then
                    r ← scm_push peer fds;
                    Ok (match r with Some peer => (peer, n) | None => (peer, file_close_all n fds) end)
                  else Ok (peer, n));
    Ok (s32 total, unix_wake (put n (us_peer s) peer))
  else
    let need := u32 (u32 total + REC_HDR) in
    if us_rx_sz peer <? need then Ok (- L_EMSGSIZE, n) else
    if ring_space peer <? need then Ok (- L_EAGAIN, n) else
    peer ← ring_write peer (rec_hdr (u32 total) p) REC_HDR;
    peer ← write_iov peer iv;
    Ok (s32 total, unix_wake (put n (us_peer s) (set_msg_cnt peer (us_msg_cnt peer + 1)))).

(** The vector of buffers filled from the stream. *)
Fixpoint read_iov (s : unix_sock) (lens : list Z) (total : Z) : res (list (list Z) * Z * unix_sock) :=
  match lens with
  | [] => Ok ([], total, s)
  | l :: lens' =>
      let want := ring_used s in
      let want := if l <? want then u32 l else want in
      if want =? 0 then Ok ([], total, s) else
      '(data, s) ← ring_read s want;
      '(rest, total, s) ← read_iov s lens' (u64 (total + want));
      Ok (data :: rest, total, s)
  end.

(** The records of files whose message was read, at most [UNIX_SCM_MAX] files
    in all; what a record has beyond that is forgotten. *)
Fixpoint scm_deliver (k : nat) (s : unix_sock) (out : list Z) : res (unix_sock * list Z) :=
  match k with
  | O => Ok (s, out)
  | S k' =>
      if UNIX_SCM_MAX <=? zlen out then Ok (s, out) else
      match zget (us_scm s) (us_scm_head s) with
      | None => Fault
      | Some r =>
          if us_abs_tail s <? scm_off r then Ok (s, out)
          else scm_deliver k' (set_scm s (zset (us_scm s) (us_scm_head s) (mk_scm (scm_off r) [])) ((us_scm_head s + 1) mod UNIX_SCM_QLEN) (us_scm_cnt s - 1))
                 (out ++ take (Z.to_nat (UNIX_SCM_MAX - zlen out)) (scm_files r))
      end
  end.

(** The staged message distributed over the buffers. *)
Fixpoint scatter (lens : list Z) (l : list Z) : list (list Z) :=
  match lens with
  | [] => []
  | k :: lens' => if zlen l =? 0 then [] else take (Z.to_nat k) l :: scatter lens' (drop (Z.to_nat k) l)
  end.

Definition unix_recvmsg (p : Z) (lens : list Z) (n : unet) : res (Z * list (list Z) * list Z * unet) :=
  if p =? 0 then Ok (- L_EINVAL, [], [], n) else
  s ← get n p;
  if us_type s =? 1 then
    if ring_used s =? 0 then
      if us_peer s =? 0 then Ok (0, [], [], n) else Ok (- L_EAGAIN, [], [], n)
    else
      '(data, total, s) ← read_iov s lens 0;
      '(s, fds) ← scm_deliver (Z.to_nat (us_scm_cnt s)) s [];
      Ok (s32 total, data, fds, put n p s)
  else
    if us_msg_cnt s =? 0 then Ok (- L_EAGAIN, [], [], n) else
    let total := iov_total lens in
    if total =? 0 then Ok (- L_EMSGSIZE, [], [], n) else
    '(stage, h) ← kh_malloc (u_heap n) total;
    if stage =? 0 then Ok (- L_ENOMEM, [], [], with_heap n h) else
    '(r, data, _, s) ← framed_pop s total (s32 total);
    h ← kh_free h stage;
    let n := put (with_heap n h) p s in
    if r <? 0 then Ok (r, [], [], n) else
    Ok (r, scatter lens data, [], n).

(** ** Readiness and names *)

Definition unix_poll_bits (p : Z) (n : unet) : res Z :=
  if p =? 0 then Ok 0 else
  s ← get n p;
  if us_state s =? US_LISTENING then Ok (Z.lor (if 0 <? us_pend_cnt s then 1 else 0) 4)
  else Ok (Z.lor (Z.lor (if sock_readable s then 1 else 0) (if sock_writable s then 4 else 0))
             (if (us_peer s =? 0) && (us_state s =? US_CONNECTED) then 8 else 0)).

Definition unix_getsockname (p : Z) (n : unet) : res (Z * list Z) :=
  if p =? 0 then Ok (- L_EINVAL, []) else
  s ← get n p;
  if us_name_len s =? 0 then Ok (0, []) else Ok (us_name_len s, us_name s).

Definition unix_getpeername (p : Z) (n : unet) : res (Z * list Z) :=
  if p =? 0 then Ok (- L_ENOTCONN, []) else
  s ← get n p;
  if us_peer s =? 0 then Ok (- L_ENOTCONN, []) else unix_getsockname (us_peer s) n.

(** Process, user and group of the peer; the last two are always 0. *)
Definition unix_peer_cred (p : Z) (n : unet) : res (Z * Z * Z) :=
  if p =? 0 then Ok (0, 0, 0) else s ← get n p; Ok (us_cred_pid s, 0, 0).
End sockets.

Arguments unet : clear implicits.
