(* ===== verification/UnixRing.v ===== *)
(** * UnixRing: the ring of a Unix socket is a queue of bytes

    [holds s q]: the ring of [s] holds the bytes [q]. Writing appends, reading
    takes from the front, and a framed ring is the encoding of a list of
    messages. Memory safety needs only [ring_wf], which holds whatever was
    written. *)

From S2P Require Import Prelude UnixSock.

Notation SZ := 65536.

Record ring_wf (s : unix_sock) : Prop := {
  rw_len : zlen (us_rx s) = SZ;
  rw_bytes : Forall is_byte (us_rx s);
  rw_sz : us_rx_sz s = SZ;
  rw_head : 0 <= us_head s < SZ;
  rw_tail : 0 <= us_tail s < SZ;
}.

Record holds (s : unix_sock) (q : list Z) : Prop := {
  ho_wf : ring_wf s;
  ho_abs : 0 <= us_abs_tail s < 2 ^ 64;
  ho_used : u64 (us_abs_head s - us_abs_tail s) = zlen q;
  ho_fits : zlen q <= SZ;
  ho_head : us_head s = (us_tail s + zlen q) mod SZ;
  ho_bytes : forall k, 0 <= k < zlen q -> zget (us_rx s) ((us_tail s + k) mod SZ) = zget q k;
}.

(** ** The loops *)

Lemma ring_put_spec data : Forall is_byte data -> forall rx h, zlen rx = SZ -> Forall is_byte rx -> 0 <= h < SZ ->
  total (fun '(rx', h') => zlen rx' = SZ /\ Forall is_byte rx' /\ h' = (h + zlen data) mod SZ /\
           (zlen data <= SZ -> (forall k, 0 <= k < zlen data -> zget rx' ((h + k) mod SZ) = zget data k) /\
             (forall k, zlen data <= k < SZ -> zget rx' ((h + k) mod SZ) = zget rx ((h + k) mod SZ))))
        (ring_put rx SZ h data).
Proof.
  induction data as [|b data IH]; intros Hbd rx h Hl Hbr Hh.
  - cbn. change (zlen (@nil Z)) with 0. rewrite Z.add_0_r, Z.mod_small by lia. split_and!; try done. intros _. split; [lia|done].
  - cbn [ring_put]. rewrite st_ok by lia. rewrite Ok_bind, u32_small by lia.
    apply list.Forall_cons in Hbd as [Hb0 Hbd].
    eapply post_conseq; [apply IH; [done|by rewrite zlen_zset|by apply Forall_zset|mlia]|]. intros [rx' h'] (Hl' & Hbr' & -> & Hc).
    assert (zlen (b :: data) = zlen data + 1) as Hz by (unfold zlen; cbn [length]; lia).
    pose proof (zlen_nonneg data). rewrite Hz. split_and!; [done|done|mlia|]. intros Hf.
    destruct (Hc ltac:(lia)) as [Hw Hk]. split.
    + intros k Hr. destruct (decide (k = 0)) as [->|].
      * specialize (Hk 65535 ltac:(lia)). replace (((h + 1) mod SZ + 65535) mod SZ) with h in Hk by mlia.
        replace ((h + 0) mod SZ) with h by mlia. rewrite Hk, zget_zset_eq by lia. done.
      * specialize (Hw (k - 1) ltac:(lia)). replace (((h + 1) mod SZ + (k - 1)) mod SZ) with ((h + k) mod SZ) in Hw by mlia.
        rewrite Hw. change (b :: data) with ([b] ++ data). rewrite zget_app_r by (change (zlen [b]) with 1; lia). done.
    + intros k Hr. specialize (Hk (k - 1) ltac:(lia)). replace (((h + 1) mod SZ + (k - 1)) mod SZ) with ((h + k) mod SZ) in Hk by mlia.
      rewrite Hk. apply zget_zset_ne. mlia.
Qed.

Lemma ring_get_spec m : forall rx t, zlen rx = SZ -> Forall is_byte rx -> 0 <= t < SZ ->
  total (fun '(l, t') => zlen l = Z.of_nat m /\ Forall is_byte l /\ t' = (t + Z.of_nat m) mod SZ /\
           forall k, 0 <= k < Z.of_nat m -> zget l k = zget rx ((t + k) mod SZ))
        (ring_get rx SZ t m).
Proof.
  induction m as [|m IH]; intros rx t Hl Hbr Ht.
  - cbn. rewrite Z.add_0_r, Z.mod_small by lia. split_and!; try done. lia.
  - cbn [ring_get]. destruct (zget_in_range rx t) as [b Hb]; [lia|]. rewrite (ld_ok _ _ _ Hb), Ok_bind, u32_small by lia.
    eapply total_bind; [apply IH; [done|done|mlia]|]. intros [l t'] (Hz & Hbl & -> & Hg). cbn. split_and!.
    + unfold zlen in *. cbn [length]. lia.
    + constructor; [exact (Forall_zget _ _ _ _ Hbr Hb)|done].
    + mlia.
    + intros k Hk. destruct (decide (k = 0)) as [->|].
      * replace ((t + 0) mod SZ) with t by mlia. by rewrite Hb.
      * change (b :: l) with ([b] ++ l). rewrite zget_app_r by (change (zlen [b]) with 1; lia). change (zlen [b]) with 1.
        rewrite Hg by lia. f_equal. mlia.
Qed.

(** ** Safety of the operations on any ring *)

(** Everything but the ring is the same. *)
Definition ring_only (s t : unix_sock) : Prop := exists rx h ta ah at_, t = set_rx s rx h ta ah at_.

Lemma ring_only_refl s : ring_only s s.
Proof. destruct s. unfold ring_only, set_rx. cbn. eauto 10. Qed.

Lemma ring_only_trans s t u : ring_only s t -> ring_only t u -> ring_only s u.
Proof. intros (? & ? & ? & ? & ? & ->) (? & ? & ? & ? & ? & ->). unfold ring_only, set_rx. cbn. eauto 10. Qed.

Lemma ring_write_safe s data len : ring_wf s -> Forall is_byte data -> 0 <= len <= zlen data ->
  total (fun t => ring_wf t /\ ring_only s t) (ring_write s data len).
Proof.
  intros [Hl Hbr Hs Hh Ht] Hbd Hd. unfold ring_write. destruct (Z.ltb_spec (zlen data) len); [lia|]. rewrite Hs.
  eapply total_bind; [apply ring_put_spec; try done; by apply Forall_take|]. intros [rx h] (Hl' & Hbr' & -> & _). split; [|unfold ring_only; eauto 10].
  constructor; cbn; [done..|mlia|lia].
Qed.

Lemma ring_read_safe s len : ring_wf s -> 0 <= len ->
  total (fun '(l, t) => ring_wf t /\ ring_only s t /\ zlen l = len /\ Forall is_byte l) (ring_read s len).
Proof.
  intros [Hl Hbr Hs Hh Ht] Hd. unfold ring_read. rewrite Hs.
  eapply total_bind; [by apply ring_get_spec|]. intros [l t] (Hz & Hbl & -> & _). rewrite Z2Nat.id in * by lia.
  split_and!; [|unfold ring_only; eauto 10|done|done]. constructor; cbn; [done..|mlia].
Qed.

Lemma ring_peek_safe s off len : ring_wf s -> 0 <= len -> total (fun l => zlen l = len /\ Forall is_byte l) (ring_peek s off len).
Proof.
  intros [Hl Hbr Hs Hh Ht] Hd. unfold ring_peek. rewrite Hs.
  eapply total_bind; [apply ring_get_spec; [done|done|unfold u32; mlia]|]. intros [l t] (Hz & Hbl & _). cbn. split; [lia|done].
Qed.

(** ** The ring as a queue *)

Lemma holds_used s q : holds s q -> ring_used s = zlen q.
Proof.
  intros [_ _ Hu Hf _ _]. unfold ring_used, u32, u64 in *. pose proof (zlen_nonneg q).
  revert Hu. generalize (us_abs_head s - us_abs_tail s). intros x Hu. mlia.
Qed.

Lemma holds_space s q : holds s q -> ring_space s = SZ - zlen q.
Proof.
  intros Hq. unfold ring_space. rewrite (holds_used _ _ Hq), (rw_sz _ (ho_wf _ _ Hq)). pose proof (ho_fits _ _ Hq).
  pose proof (zlen_nonneg q). apply u32_small. lia.
Qed.

Lemma ring_write_holds s q data len : holds s q -> Forall is_byte data -> len = zlen data -> zlen q + len <= SZ ->
  total (fun t => holds t (q ++ data) /\ ring_only s t) (ring_write s data len).
Proof.
  intros [[Hl Hbr Hs Hh Ht] Hab Hu Hf Hhd Hb] Hbd -> Hd. unfold ring_write. rewrite Z.ltb_irrefl, Hs.
  pose proof (zlen_nonneg q). pose proof (zlen_nonneg data).
  assert (take (Z.to_nat (zlen data)) data = data) as -> by (apply take_ge; unfold zlen; lia).
  eapply total_bind; [by apply ring_put_spec|]. intros [rx h] (Hl' & Hbr' & -> & Hc). destruct (Hc ltac:(lia)) as [Hw Hk].
  split; [|unfold ring_only; eauto 10]. rewrite Hhd in *. constructor; cbn.
  - constructor; cbn; [done..|mlia|lia].
  - done.
  - rewrite zlen_app, <- Hu. unfold u64 in *. revert Hu Hd Hf H H0. generalize (us_abs_head s) (us_abs_tail s) (zlen q) (zlen data).
    intros a b c d. intros. mlia.
  - rewrite zlen_app. lia.
  - rewrite zlen_app. mlia.
  - rewrite zlen_app. intros k Hr. destruct (Z_lt_le_dec k (zlen q)).
    + rewrite zget_app_l by lia. rewrite <- Hb by lia.
      specialize (Hk (k - zlen q + SZ) ltac:(lia)).
      replace (((us_tail s + zlen q) mod SZ + (k - zlen q + SZ)) mod SZ) with ((us_tail s + k) mod SZ) in Hk by mlia. done.
    + rewrite zget_app_r by lia. rewrite <- Hw by lia. f_equal. mlia.
Qed.

Lemma ring_read_holds s d q len : holds s (d ++ q) -> len = zlen d ->
  total (fun '(l, t) => l = d /\ holds t q /\ ring_only s t) (ring_read s len).
Proof.
  intros [[Hl Hbr Hs Hh Ht] Hab Hu Hf Hhd Hb] ->. unfold ring_read. rewrite Hs. rewrite zlen_app in *.
  pose proof (zlen_nonneg q). pose proof (zlen_nonneg d).
  eapply total_bind; [by apply ring_get_spec|]. intros [l t] (Hz & _ & -> & Hg). rewrite Z2Nat.id in * by lia. split_and!.
  - apply zget_ext; [done|]. intros i Hi. rewrite Hg, Hb by lia. apply zget_app_l. lia.
  - constructor; cbn.
    + constructor; cbn; [done..|mlia].
    + change (2 ^ 64) with 18446744073709551616. unfold u64. mlia.
    + unfold u64 in *. revert Hu Hf H H0. generalize (us_abs_head s) (us_abs_tail s) (zlen q) (zlen d). intros a b c e. intros. mlia.
    + lia.
    + rewrite Hhd. mlia.
    + intros k Hk. specialize (Hb (zlen d + k) ltac:(lia)). rewrite zget_app_r in Hb by lia.
      replace (zlen d + k - zlen d) with k in Hb by lia. rewrite <- Hb. f_equal. mlia.
  - unfold ring_only; eauto 10.
Qed.

Lemma ring_peek_holds s a d q off len : holds s (a ++ d ++ q) -> len = zlen d -> off = u64 (us_abs_tail s + zlen a) ->
  ring_peek s off len = Ok d.
Proof.
  intros [[Hl Hbr Hs Hh Ht] Hab Hu Hf Hhd Hb] -> ->. unfold ring_peek. rewrite Hs. rewrite !zlen_app in *.
  pose proof (zlen_nonneg q). pose proof (zlen_nonneg d). pose proof (zlen_nonneg a).
  replace (u32 (us_tail s + u32 (u64 (us_abs_tail s + zlen a) - us_abs_tail s)) mod SZ) with ((us_tail s + zlen a) mod SZ)
    by (unfold u32, u64; generalize (us_abs_tail s); intros; mlia).
  pose proof (ring_get_spec (Z.to_nat (zlen d)) (us_rx s) ((us_tail s + zlen a) mod SZ) Hl Hbr ltac:(mlia)) as Hg. revert Hg. destruct (ring_get _ _ _ _) as [[l t]| | |]; try done. intros (Hz & _ & _ & Hg). cbn. f_equal.
  rewrite Z2Nat.id in * by lia. apply zget_ext; [done|]. intros i Hi. rewrite Hg by lia.
  specialize (Hb (zlen a + i) ltac:(lia)). rewrite zget_app_r, zget_app_l in Hb by lia.
  replace (zlen a + i - zlen a) with i in Hb by lia. rewrite <- Hb. f_equal. mlia.
Qed.

(** Overwriting bytes in the middle. *)
Lemma ring_patch s a d d' q : holds s (a ++ d ++ q) -> Forall is_byte d' -> zlen d' = zlen d ->
  exists rx h, ring_put (us_rx s) SZ ((us_tail s + zlen a) mod SZ) d' = Ok (rx, h) /\
    holds (set_rx s rx (us_head s) (us_tail s) (us_abs_head s) (us_abs_tail s)) (a ++ d' ++ q).
Proof.
  intros [[Hl Hbr Hs Hh Ht] Hab Hu Hf Hhd Hb] Hbd Hd. pose proof (zlen_nonneg a). pose proof (zlen_nonneg d). pose proof (zlen_nonneg q).
  rewrite !zlen_app in *.
  pose proof (ring_put_spec d' Hbd (us_rx s) ((us_tail s + zlen a) mod SZ) Hl Hbr ltac:(mlia)) as Hp.
  apply total_Ok in Hp as ([rx h] & E & Hl' & Hbr' & _ & Hc). exists rx, h. split; [done|].
  destruct (Hc ltac:(lia)) as [Hw Hk]. rewrite Hd in *.
  constructor; cbn; rewrite ?zlen_app, ?Hd; try done.
  intros k Hr. destruct (Z_lt_le_dec k (zlen a)); [|destruct (Z_lt_le_dec k (zlen a + zlen d))].
  - specialize (Hk (k - zlen a + SZ) ltac:(lia)).
    replace (((us_tail s + zlen a) mod SZ + (k - zlen a + SZ)) mod SZ) with ((us_tail s + k) mod SZ) in Hk by mlia.
    rewrite Hk, Hb, !zget_app_l by lia. done.
  - rewrite zget_app_r, zget_app_l by lia. rewrite <- Hw by lia. f_equal. mlia.
  - specialize (Hk (k - zlen a) ltac:(lia)).
    replace (((us_tail s + zlen a) mod SZ + (k - zlen a)) mod SZ) with ((us_tail s + k) mod SZ) in Hk by mlia.
    rewrite Hk, Hb, !zget_app_r by lia. by rewrite Hd.
Qed.

Lemma zero_loop o : forall m b rx, zlen rx = SZ -> 0 <= o < SZ -> 0 <= b -> b + Z.of_nat m < 2 ^ 31 ->
  for_from m b (fun b rx => st rx (u32 (o + b) mod SZ) 0) rx = ('(rx, _) ← ring_put rx SZ ((o + b) mod SZ) (replicate m 0); Ok rx).
Proof.
  induction m as [|m IH]; intros b rx Hl Ho Hb Hm; [done|]. cbn [for_from ring_put replicate].
  rewrite (u32_small (o + b)) by lia. rewrite st_ok by (rewrite Hl; mlia). rewrite !Ok_bind, IH by (rewrite ?zlen_zset; lia).
  rewrite (u32_small ((o + b) mod SZ + 1)) by mlia. do 2 f_equal. mlia.
Qed.

(** ** Records *)

(** A queued message: its sender and its bytes. *)
Notation msg := (Z * list Z)%type.

Definition enc (m : msg) : list Z := rec_hdr (zlen m.2) m.1 ++ m.2.
Definition msg_ok (m : msg) : Prop := 0 <= m.1 < 2 ^ 64 /\ zlen m.2 < 2 ^ 32 /\ Forall is_byte m.2.

Record frames (s : unix_sock) (ms : list msg) : Prop := {
  fr_holds : holds s (concat (enc <$> ms));
  fr_count : us_msg_cnt s = zlen ms;
  fr_ok : Forall msg_ok ms;
}.

Lemma zlen_rec_hdr len src : zlen (rec_hdr len src) = REC_HDR.
Proof. done. Qed.

Lemma bytes_le64 v : Forall is_byte (le64 v).
Proof. unfold le64. apply Forall_app. split; apply bytes_le32. Qed.

Lemma bytes_rec_hdr len src : Forall is_byte (rec_hdr len src).
Proof. unfold rec_hdr. rewrite !Forall_app. split_and!; [apply bytes_le32..|apply bytes_le64]. Qed.

Lemma zlen_enc m : zlen (enc m) = REC_HDR + zlen m.2.
Proof. unfold enc. by rewrite zlen_app, zlen_rec_hdr. Qed.

Lemma ld64_split buf off : ld64 buf off = (lo ← ld32 buf off; hi ← ld32 buf (off + 4); Ok (lo + 4294967296 * hi)).
Proof.
  unfold ld64, ld32. cbn [le_bytes]. unfold mbind, res_bind.
  replace (off + 1 + 1 + 1 + 1) with (off + 4) by lia.
  repeat match goal with |- context [ld buf ?o] => destruct (ld buf o); try reflexivity end. f_equal. lia.
Qed.

Lemma rec_hdr_len len src : 0 <= len < 2 ^ 32 -> ld32 (rec_hdr len src) 0 = Ok len.
Proof. intros Hl. unfold rec_hdr. exact (ld32_at [] len _ Hl). Qed.

Lemma rec_hdr_src len src : 0 <= src < 2 ^ 64 -> ld64 (rec_hdr len src) 8 = Ok src.
Proof.
  intros Hs. unfold rec_hdr, le64. rewrite ld64_split.
  assert (0 <= src mod 4294967296 < 2 ^ 32) as Hlo by mlia. assert (0 <= src / 4294967296 < 2 ^ 32) as Hhi by mlia.
  pose proof (ld32_at (le32 len ++ le32 0) _ (le32 (src / 4294967296)) Hlo) as E1.
  pose proof (ld32_at (le32 len ++ le32 0 ++ le32 (src mod 4294967296)) _ [] Hhi) as E2.
  rewrite <- app_assoc in E1. rewrite app_nil_r, <- !app_assoc in E2.
  change (zlen (le32 len ++ le32 0)) with 8 in E1. change (zlen (le32 len ++ le32 0 ++ le32 (src mod 4294967296))) with 12 in E2.
  rewrite E1, Ok_bind. change (8 + 4) with 12. rewrite E2, Ok_bind. f_equal. mlia.
Qed.

(** Decoding what the ring holds in any case. *)
Lemma hdr_decodes h : zlen h = REC_HDR -> Forall is_byte h ->
  total (fun v => 0 <= v < 2 ^ 32) (ld32 h 0) /\ total (fun _ => True) (ld64 h 8).
Proof.
  intros Hl Hb. unfold REC_HDR in Hl. split; [exact (le_bytes_total 4 h 0 Hb ltac:(lia) ltac:(cbn; lia))|].
  apply le_bytes_loads; cbn; lia.
Qed.

Lemma holds_set_msg_cnt s c q : holds s q -> holds (set_msg_cnt s c) q.
Proof. intros [[] ]. by constructor; [constructor|..]. Qed.

Lemma wf_set_msg_cnt s c : ring_wf s -> ring_wf (set_msg_cnt s c).
Proof. intros []. by constructor. Qed.

Lemma ring_skip_safe m : forall s, ring_wf s -> total (fun t => ring_wf t /\ ring_only s t) (ring_skip s m).
Proof.
  induction m as [|m IH]; intros s Hw; cbn [ring_skip]; [by split; [|apply ring_only_refl]|].
  eapply total_bind; [apply ring_read_safe; [done|lia]|]. intros [l t] (Ht & Ho & _).
  eapply post_conseq; [by apply IH|]. intros u [Hu Ho']. split; [done|]. by eapply ring_only_trans.
Qed.

Lemma ring_skip_holds d : forall s q, holds s (d ++ q) -> total (fun t => holds t q /\ ring_only s t) (ring_skip s (length d)).
Proof.
  induction d as [|b d IH]; intros s q Hh; cbn [ring_skip length]; [by split; [|apply ring_only_refl]|].
  eapply total_bind; [apply (ring_read_holds s [b]); [exact Hh|done]|]. intros [l t] (_ & Ht & Ho).
  eapply post_conseq; [by apply IH|]. intros u [Hu Ho']. split; [done|]. by eapply ring_only_trans.
Qed.

(** ** Taking a message *)

(** Ring and message count are all that changes. *)
Definition ring_cnt (s t : unix_sock) : Prop := exists c, ring_only (set_msg_cnt s c) t.

Lemma ring_only_cnt s t : ring_only s t -> ring_cnt s t.
Proof. intros Hr. exists (us_msg_cnt s). by destruct s. Qed.

Lemma ring_only_set_msg s t c : ring_only s t -> ring_only (set_msg_cnt s c) (set_msg_cnt t c).
Proof. intros (? & ? & ? & ? & ? & ->). unfold ring_only, set_rx, set_msg_cnt. cbn. eauto 10. Qed.

Lemma framed_pop_safe s cap len : ring_wf s -> u32 len <= cap ->
  total (fun '(r, data, _, t) => ring_wf t /\ ring_cnt s t /\ Forall is_byte data) (framed_pop s cap len).
Proof.
  intros Hw Hc. unfold framed_pop. destruct (us_msg_cnt s =? 0).
  { cbn. split_and!; [done|apply ring_only_cnt, ring_only_refl|done]. }
  eapply total_bind; [by apply ring_read_safe|]. intros [h t] (Ht & Ho & Hl & Hb).
  destruct (hdr_decodes h Hl Hb) as [H32 H64]. eapply total_bind; [exact H32|]. cbv beta. intros hlen Hh.
  eapply total_bind; [exact H64|]. intros src _. cbv zeta.
  set (k := if hlen <? u32 len then hlen else u32 len).
  assert (0 <= k <= u32 len /\ k <= hlen) as [Hk Hk'].
  { subst k. assert (0 <= u32 len) by (unfold u32; mlia). destruct (Z.ltb_spec hlen (u32 len)); lia. }
  destruct (Z.ltb_spec cap k); [lia|].
  eapply total_bind; [apply ring_read_safe; [by apply wf_set_msg_cnt|lia]|]. intros [d t1] (Ht1 & Ho1 & _ & Hbd).
  eapply total_bind; [by apply ring_skip_safe|]. intros t2 [Ht2 Ho2]. split_and!; [done| |done].
  exists (us_msg_cnt t - 1). eapply ring_only_trans, ring_only_trans; [by apply ring_only_set_msg|done|done].
Qed.

Lemma framed_pop_frames s src d ms cap len : frames s ((src, d) :: ms) -> u32 len <= cap ->
  total (fun '(r, data, from, t) => r = Z.min (zlen d) (u32 len) /\ data = take (Z.to_nat (u32 len)) d /\ from = src /\
           frames t ms /\ ring_cnt s t) (framed_pop s cap len).
Proof.
  intros [Hh Hn Hok] Hc. apply list.Forall_cons in Hok as [[Hsrc [Hd Hbd]] Hok]. cbn [fst snd] in *. unfold framed_pop.
  assert (zlen ((src, d) :: ms) = zlen ms + 1) as Hz by (unfold zlen; cbn [length]; lia). rewrite Hz in Hn.
  pose proof (zlen_nonneg ms). pose proof (zlen_nonneg d). destruct (Z.eqb_spec (us_msg_cnt s) 0); [lia|].
  cbn [fmap list_fmap concat enc fst snd] in Hh. unfold enc in Hh at 1. cbn [fst snd] in Hh. rewrite <- app_assoc in Hh.
  assert (zlen d <= SZ) as Hfit.
  { pose proof (ho_fits _ _ Hh) as Hf. rewrite !zlen_app in Hf. pose proof (zlen_nonneg (concat (enc <$> ms))). rewrite zlen_rec_hdr in Hf. unfold REC_HDR in Hf. lia. }
  eapply total_bind; [apply (ring_read_holds s (rec_hdr (zlen d) src)); [exact Hh|done]|]. intros [h t] (-> & Ht & Ho).
  rewrite rec_hdr_len, Ok_bind, rec_hdr_src, Ok_bind by lia. cbv zeta.
  set (k := if zlen d <? u32 len then zlen d else u32 len).
  assert (0 <= u32 len) as Hu by (unfold u32; mlia).
  assert (k = Z.min (zlen d) (u32 len)) as Ek by (subst k; destruct (Z.ltb_spec (zlen d) (u32 len)); lia). clearbody k.
  destruct (Z.ltb_spec cap k); [lia|].
  assert (zlen (take (Z.to_nat k) d) = k) as Hzk by (unfold zlen in *; rewrite length_take; lia).
  rewrite <- (take_drop (Z.to_nat k) d), <- app_assoc in Ht at 1.
  eapply total_bind; [apply (ring_read_holds _ (take (Z.to_nat k) d)); [apply holds_set_msg_cnt; exact Ht|done]|].
  intros [data t1] (-> & Ht1 & Ho1).
  replace (Z.to_nat (zlen d - k)) with (length (drop (Z.to_nat k) d)) by (rewrite length_drop; unfold zlen in *; lia).
  eapply total_bind; [by apply ring_skip_holds|]. intros t2 [Ht2 Ho2].
  assert (s32 k = k) as -> by (unfold s32; mlia). split_and!; [done| |done| |].
  - rewrite Ek. destruct (Z.le_gt_cases (zlen d) (u32 len)).
    + rewrite Z.min_l by lia. rewrite !take_ge; [done|unfold zlen in *; lia|unfold zlen in *; lia].
    + by rewrite Z.min_r by lia.
  - destruct Ho as (? & ? & ? & ? & ? & ->), Ho1 as (? & ? & ? & ? & ? & ->), Ho2 as (? & ? & ? & ? & ? & ->).
    constructor; [exact Ht2|cbn in *; lia|done].
  - exists (us_msg_cnt t - 1). eapply ring_only_trans, ring_only_trans; [by apply ring_only_set_msg|done|done].
Qed.

(** ** Queueing a message *)

Lemma holds_nil_msgs s : holds s [] -> us_msg_cnt s = 0 -> frames s [].
Proof. by constructor. Qed.

Lemma frames_snoc s t ms p d : frames s ms -> holds t (concat (enc <$> ms) ++ rec_hdr (zlen d) p ++ d) -> ring_only s t ->
  msg_ok (p, d) -> frames (set_msg_cnt t (us_msg_cnt t + 1)) (ms ++ [(p, d)]).
Proof.
  intros [Hh Hc Hok] Ht (? & ? & ? & ? & ? & ->) Hm. constructor.
  - apply holds_set_msg_cnt. rewrite fmap_app, concat_app. cbn [fmap list_fmap concat]. rewrite app_nil_r. exact Ht.
  - cbn in *. rewrite zlen_app. change (zlen [(p, d)]) with 1. lia.
  - by apply Forall_app; split; [|constructor].
Qed.

Definition iov_ok (iv : list (list Z)) : Prop := Forall (Forall is_byte) iv.

Lemma zlen_nil_inv {A} (l : list A) : zlen l = 0 -> l = [].
Proof. destruct l; [done|]. unfold zlen. cbn. lia. Qed.

Lemma write_iov_holds iv : forall s q, holds s q -> iov_ok iv -> zlen q + zlen (concat iv) <= SZ ->
  total (fun t => holds t (q ++ concat iv) /\ ring_only s t) (write_iov s iv).
Proof.
  induction iv as [|b iv IH]; intros s q Hq Hiv Hf; cbn [write_iov concat] in *.
  - rewrite app_nil_r. by split; [|apply ring_only_refl].
  - apply list.Forall_cons in Hiv as [Hb Hiv]. rewrite zlen_app in Hf.
    pose proof (zlen_nonneg b). pose proof (zlen_nonneg q). pose proof (zlen_nonneg (concat iv)).
    apply total_bind with (Q := fun t => holds t (q ++ b) /\ ring_only s t).
    + destruct (Z.eqb_spec (zlen b) 0) as [E|].
      * rewrite (zlen_nil_inv _ E), app_nil_r. by split; [|apply ring_only_refl].
      * rewrite u32_small by lia. apply ring_write_holds; [done|done|done|lia].
    + intros t [Ht Ho]. rewrite app_assoc. eapply post_conseq; [apply IH; [done|done|rewrite zlen_app; lia]|].
      intros u [Hu Ho']. split; [done|]. by eapply ring_only_trans.
Qed.

Lemma write_iov_safe iv : forall s, ring_wf s -> iov_ok iv -> zlen (concat iv) < 2 ^ 32 ->
  total (fun t => ring_wf t /\ ring_only s t) (write_iov s iv).
Proof.
  induction iv as [|b iv IH]; intros s Hq Hiv Hf; cbn [write_iov concat] in *.
  - by split; [|apply ring_only_refl].
  - apply list.Forall_cons in Hiv as [Hb Hiv]. rewrite zlen_app in Hf. pose proof (zlen_nonneg b). pose proof (zlen_nonneg (concat iv)).
    apply total_bind with (Q := fun t => ring_wf t /\ ring_only s t).
    + destruct (Z.eqb_spec (zlen b) 0); [by split; [|apply ring_only_refl]|].
      rewrite u32_small by lia. apply ring_write_safe; [done|done|lia].
    + intros t [Ht Ho]. eapply post_conseq; [apply IH; [done|done|lia]|].
      intros u [Hu Ho']. split; [done|]. by eapply ring_only_trans.
Qed.

Lemma iov_total_sum (ls : list Z) : Forall (fun l => 0 <= l) ls -> foldr Z.add 0 ls < 2 ^ 64 -> iov_total ls = foldr Z.add 0 ls.
Proof.
  intros Hp Hs. unfold iov_total.
  assert (forall t, 0 <= t -> t + foldr Z.add 0 ls < 2 ^ 64 -> foldl (fun t l => u64 (t + l)) t ls = t + foldr Z.add 0 ls) as Hg.
  { clear Hs. induction Hp as [|l ls Hl Hp IH]; intros t Ht Hs; cbn [foldl foldr] in *; [lia|].
    assert (0 <= foldr Z.add 0 ls) by (clear -Hp; induction Hp; cbn; lia).
    rewrite u64_small by lia. rewrite IH; lia. }
  rewrite Hg; lia.
Qed.

Lemma zlen_concat_sum (iv : list (list Z)) : foldr Z.add 0 (@zlen Z <$> iv) = zlen (concat iv).
Proof. induction iv as [|b iv IH]; [done|]. cbn [fmap list_fmap foldr concat]. by rewrite zlen_app, <- IH. Qed.

Lemma iov_total_concat iv : zlen (concat iv) < 2 ^ 64 -> iov_total (@zlen Z <$> iv) = zlen (concat iv).
Proof.
  intros Hs. rewrite iov_total_sum; rewrite ?zlen_concat_sum; try done.
  apply Forall_fmap, Forall_true. intros. apply zlen_nonneg.
Qed.

(** ** Forgetting a sender *)

Definition scrub_msg (dying : Z) (m : msg) : msg := if m.1 =? dying then (0, m.2) else m.

Lemma enc_scrub dying m : zlen (enc (scrub_msg dying m)) = zlen (enc m).
Proof. rewrite !zlen_enc. unfold scrub_msg. by destruct (m.1 =? dying). Qed.

Lemma scrub_ok dying m : msg_ok m -> msg_ok (scrub_msg dying m).
Proof. unfold scrub_msg, msg_ok. destruct (m.1 =? dying); [|done]. intros (_ & ? & ?). split; [cbn; lia|done]. Qed.

Definition wipe (rx : list Z) (o : Z) : res (list Z) := for_ 0 8 (fun b rx => st rx (u32 (o + b) mod SZ) 0) rx.

Lemma wipe_put rx o : zlen rx = SZ -> 0 <= o < SZ -> wipe rx o = ('(rx, _) ← ring_put rx SZ o (le64 0); Ok rx).
Proof.
  intros Hl Ho. unfold wipe, for_. change (Z.to_nat (8 - 0)) with 8%nat. rewrite zero_loop by lia.
  rewrite Z.add_0_r, Z.mod_small by lia. done.
Qed.

Lemma scrub_loop_safe dying m : forall s pos, ring_wf s -> total (fun t => ring_wf t /\ ring_only s t) (scrub_loop s dying pos m).
Proof.
  induction m as [|m IH]; intros s pos Hw; cbn [scrub_loop]; [by split; [|apply ring_only_refl]|].
  eapply total_bind; [by apply ring_peek_safe|]. intros h [Hl Hb]. destruct (hdr_decodes h Hl Hb) as [H32 H64].
  eapply total_bind; [exact H32|]. intros len _. eapply total_bind; [exact H64|]. intros src _.
  apply total_bind with (Q := fun t => ring_wf t /\ ring_only s t).
  - destruct (src =? dying); [|by split; [|apply ring_only_refl]]. destruct Hw as [Hrl Hbr Hs Hh Ht]. rewrite Hs.
    set (o := u32 (u32 (us_tail s + u32 (pos - us_abs_tail s)) mod SZ + 8) mod SZ). change (for_ 0 8 _ (us_rx s)) with (wipe (us_rx s) o).
    rewrite wipe_put by (done || subst o; mlia).
    eapply total_bind with (Q := fun rx => zlen rx = SZ /\ Forall is_byte rx).
    + eapply total_bind; [apply ring_put_spec; [apply bytes_le64|done|done|subst o; mlia]|].
      intros [rx h'] (? & ? & _). done.
    + intros rx [Hrl' Hbr']. split; [by constructor|unfold ring_only; eauto 10].
  - intros t [Ht Ho]. eapply post_conseq; [by apply IH|]. intros u [Hu Ho']. split; [done|]. by eapply ring_only_trans.
Qed.

Lemma scrub_ring_safe s dying : ring_wf s -> total (fun t => ring_wf t /\ ring_only s t) (scrub_ring_src s dying).
Proof.
  intros Hw. unfold scrub_ring_src. destruct (_ || _); [by split; [|apply ring_only_refl]|]. by apply scrub_loop_safe.
Qed.

(** One record of the scan. *)
Lemma scrub_step_holds s dying a src d q pos : holds s (a ++ enc (src, d) ++ q) -> msg_ok (src, d) -> pos = u64 (us_abs_tail s + zlen a) ->
  exists t, (if src =? dying then
               let off := u32 (us_tail s + u32 (pos - us_abs_tail s)) mod us_rx_sz s in
               let src_off := u32 (off + 8) mod us_rx_sz s in
               rx ← for_ 0 8 (fun b rx => st rx (u32 (src_off + b) mod us_rx_sz s) 0) (us_rx s);
               Ok (set_rx s rx (us_head s) (us_tail s) (us_abs_head s) (us_abs_tail s))
             else Ok s) = Ok t /\ holds t (a ++ enc (scrub_msg dying (src, d)) ++ q) /\ ring_only s t /\ us_abs_tail t = us_abs_tail s.
Proof.
  intros Hh Hm Hpos. unfold scrub_msg. cbn [fst snd]. destruct (Z.eqb_spec src dying) as [->|].
  2:{ exists s. split_and!; try done. apply ring_only_refl. }
  pose proof (ho_wf _ _ Hh) as [Hrl Hbr Hs Hhd Ht]. pose proof (zlen_nonneg a). rewrite Hs. cbv zeta.
  set (P := a ++ le32 (zlen d) ++ le32 0).
  assert (holds s (P ++ le64 dying ++ d ++ q)) as Hp.
  { subst P. rewrite <- !app_assoc. unfold enc, rec_hdr in Hh. cbn [fst snd] in Hh. by rewrite <- !app_assoc in Hh. }
  destruct (ring_patch s P (le64 dying) (le64 0) (d ++ q) Hp) as (rx & h & E & Hn); [apply bytes_le64|done|].
  assert (zlen P = zlen a + 8) as HP by (subst P; by rewrite zlen_app).
  replace (u32 (u32 (us_tail s + u32 (pos - us_abs_tail s)) mod SZ + 8) mod SZ) with ((us_tail s + zlen P) mod SZ).
  2:{ rewrite HP, Hpos. assert (zlen a <= SZ) by (pose proof (ho_fits _ _ Hh) as Hf; rewrite !zlen_app in Hf;
        pose proof (zlen_nonneg (enc (dying, d))); pose proof (zlen_nonneg q); lia).
      unfold u32, u64. generalize (us_abs_tail s). intros. mlia. }
  change (for_ 0 8 _ (us_rx s)) with (wipe (us_rx s) ((us_tail s + zlen P) mod SZ)). rewrite wipe_put by (done || mlia).
  rewrite E. eexists. split; [reflexivity|]. split_and!; [|unfold ring_only; eauto 10|done].
  subst P. rewrite <- !app_assoc in Hn. unfold enc, rec_hdr. cbn [fst snd]. by rewrite <- !app_assoc.
Qed.

Lemma scrub_loop_holds dying todo : forall s before, holds s (concat (enc <$> before ++ todo)) -> Forall msg_ok todo ->
  total (fun t => holds t (concat (enc <$> before ++ (scrub_msg dying <$> todo))) /\ ring_only s t)
        (scrub_loop s dying (u64 (us_abs_tail s + zlen (concat (enc <$> before)))) (length todo)).
Proof.
  induction todo as [|[src d] todo IH]; intros s before Hh Hok; cbn [scrub_loop length].
  { by split; [|apply ring_only_refl]. }
  apply list.Forall_cons in Hok as [Hm Hok]. pose proof Hm as (Hsrc & Hd & _). cbn [fst snd] in Hsrc, Hd. pose proof (zlen_nonneg d).
  assert (holds s (concat (enc <$> before) ++ enc (src, d) ++ concat (enc <$> todo))) as Hs by (by rewrite fmap_app, concat_app in Hh).
  assert (holds s (concat (enc <$> before) ++ rec_hdr (zlen d) src ++ d ++ concat (enc <$> todo))) as Hs'
    by (unfold enc in Hs at 2; cbn [fst snd] in Hs; by rewrite <- app_assoc in Hs).
  rewrite (ring_peek_holds s _ _ _ _ REC_HDR Hs') by done. rewrite Ok_bind, rec_hdr_len, Ok_bind, rec_hdr_src, Ok_bind by lia.
  destruct (scrub_step_holds s dying _ src d _ _ Hs Hm eq_refl) as (t & E & Ht & Ho & Hat).
  apply total_bind with (Q := eq t); [apply total_Ok; exists t; split; [exact E|done]|]. intros _ <-.
  assert (u64 (u64 (us_abs_tail s + zlen (concat (enc <$> before))) + (REC_HDR + zlen d)) =
          u64 (us_abs_tail t + zlen (concat (enc <$> before ++ [scrub_msg dying (src, d)])))) as ->.
  { rewrite fmap_app, concat_app, zlen_app, Hat. cbn [fmap list_fmap concat]. rewrite app_nil_r, enc_scrub, zlen_enc. cbn [snd].
    unfold u64, REC_HDR. generalize (us_abs_tail s) (zlen (concat (enc <$> before))). intros. mlia. }
  eapply post_conseq; [apply IH; [|done]|].
  - rewrite fmap_app, fmap_app, !concat_app. cbn [fmap list_fmap concat]. rewrite app_nil_r, <- app_assoc. exact Ht.
  - intros u [Hu Ho']. split; [|by eapply ring_only_trans]. by rewrite <- app_assoc in Hu.
Qed.

Lemma scrub_ring_frames s dying ms : frames s ms -> us_type s <> 1 ->
  total (fun t => frames t (scrub_msg dying <$> ms) /\ ring_only s t) (scrub_ring_src s dying).
Proof.
  intros [Hh Hc Hok] Ht. unfold scrub_ring_src. destruct (Z.eqb_spec (us_type s) 1); [done|]. cbn [orb].
  destruct (Z.eqb_spec (us_msg_cnt s) 0) as [E|].
  - assert (ms = []) as -> by (apply zlen_nil_inv; lia). by split; [|apply ring_only_refl].
  - rewrite Hc. unfold zlen at 1. rewrite Nat2Z.id.
    pose proof (scrub_loop_holds dying ms s [] Hh Hok) as Hl. cbn [fmap list_fmap concat app] in Hl.
    change (zlen []) with 0 in Hl. rewrite Z.add_0_r, u64_small in Hl by apply (ho_abs _ _ Hh).
    eapply post_conseq; [exact Hl|]. intros t [Hh' Ho]. split; [|done]. destruct Ho as (? & ? & ? & ? & ? & ->).
    constructor; [done|cbn; unfold zlen in *; rewrite length_fmap; lia|].
    apply Forall_fmap. eapply Forall_impl; [|exact Hok]. intros m Hm. by apply scrub_ok.
Qed.
