(* ===== verification/UnixInv.v ===== *)
(** * UnixInv: the sockets form a well linked heap

    [uinv B O m b h]: the live blocks of the heap [h] are those of the rest of
    the kernel [B] and two for each socket of [m]; peers point at each other; a
    socket is held by a process (it is in [O]) or waits in exactly one listener;
    the names [b] refer to held sockets. One lemma for each way in which the
    operations change the links. *)

From S2P Require Import Prelude UnixSock UnixRing.

(** The connections that wait at a listener, oldest first. *)
Definition pends (s : unix_sock) : list Z :=
  (fun i => default 0 (zget (us_pend s) ((us_pend_head s + i) mod UNIX_BACKLOG))) <$> seqZ 0 (us_pend_cnt s).

(** What holds of each socket by itself. *)
Record sock_wf (s : unix_sock) : Prop := {
  sw_ring : ring_wf s;
  sw_pend : zlen (us_pend s) = UNIX_BACKLOG;
  sw_pend_head : 0 <= us_pend_head s < UNIX_BACKLOG;
  sw_pend_cnt : 0 <= us_pend_cnt s <= UNIX_BACKLOG;
  sw_backlog : us_backlog s <= UNIX_BACKLOG;
  sw_scm : zlen (us_scm s) = UNIX_SCM_QLEN;
  sw_scm_head : 0 <= us_scm_head s < UNIX_SCM_QLEN;
  sw_scm_cnt : 0 <= us_scm_cnt s <= UNIX_SCM_QLEN;
  sw_scm_files : Forall (fun r => zlen (scm_files r) <= UNIX_SCM_MAX) (us_scm s);
  sw_state : us_state s <> US_CLOSED;
  sw_peer : us_peer s <> 0 -> us_state s = US_CONNECTED;
}.

Lemma add_remove (a : Z) (O : gset Z) : a ∉ O -> ({[a]} ∪ O) ∖ {[a]} = O.
Proof.
  intros Ha. apply set_eq. intros x. rewrite elem_of_difference, elem_of_union, elem_of_singleton.
  split; [tauto|]. intros Hx. split; [by right|by intros ->].
Qed.

Definition block_of (m : gmap Z unix_sock) (x : Z) : Prop := exists p s, m !! p = Some s /\ (x = p \/ x = us_rx_ptr s).

(** Blocks that belong to different objects are different. *)
Definition apart (m : gmap Z unix_sock) : Prop :=
  forall p s q t, m !! p = Some s -> m !! q = Some t -> us_rx_ptr s <> q /\ (us_rx_ptr s = us_rx_ptr t -> p = q).

Record links (O : gset Z) (m : gmap Z unix_sock) : Prop := {
  lk_ptr : forall p s, m !! p = Some s -> 0 < p < 2 ^ 64;
  lk_wf : forall p s, m !! p = Some s -> sock_wf s;
  lk_peer : forall p s, m !! p = Some s -> us_peer s <> 0 -> us_peer s <> p /\ exists t, m !! us_peer s = Some t /\ us_peer t = p;
  lk_pend : forall l s c, m !! l = Some s -> c ∈ pends s -> c ∉ O /\ exists t, m !! c = Some t /\ pends t = [];
  lk_nodup : forall l s, m !! l = Some s -> NoDup (pends s);
  lk_uniq : forall l s l' s' c, m !! l = Some s -> m !! l' = Some s' -> c ∈ pends s -> c ∈ pends s' -> l = l';
  lk_held : forall p, p ∈ O -> is_Some (m !! p);
  lk_cover : forall p, is_Some (m !! p) -> p ∈ O \/ exists l s, m !! l = Some s /\ p ∈ pends s;
}.

Definition bound_ok (O : gset Z) (b : list bind_node) : Prop := Forall (fun x => b_s x <> 0 -> b_s x ∈ O) b.

Section inv.
Context {H : Type} {KH : KernelHeap H}.

Record uinv (B O : gset Z) (m : gmap Z unix_sock) (b : list bind_node) (h : H) : Prop := {
  ui_links : links O m;
  ui_bound : bound_ok O b;
  ui_apart : apart m;
  ui_heap : exists L, kh_live h L /\ (forall x, x ∈ L <-> x ∈ B \/ block_of m x);
  ui_others : forall x, block_of m x -> x ∉ B;
}.

(** ** Changing one socket *)

(** [t] may replace [s]: the same ring block and the same waiting connections. *)
Definition same_blocks (s t : unix_sock) : Prop := us_rx_ptr t = us_rx_ptr s.

Lemma block_of_insert m p s t x : m !! p = Some s -> same_blocks s t -> block_of (<[p := t]> m) x <-> block_of m x.
Proof.
  intros Hp Hs. unfold block_of, same_blocks in *. split; intros (q & u & Hq & Hx).
  - destruct (decide (q = p)) as [->|].
    + rewrite lookup_insert_eq in Hq. injection Hq as <-. exists p, s. split; [done|]. by rewrite <- Hs.
    + rewrite lookup_insert_ne in Hq by done. eauto.
  - destruct (decide (q = p)) as [->|].
    + exists p, t. rewrite lookup_insert_eq. split; [done|]. assert (u = s) as -> by congruence. by rewrite Hs.
    + exists q, u. by rewrite lookup_insert_ne by done.
Qed.

Lemma apart_insert m p s t : apart m -> m !! p = Some s -> same_blocks s t -> apart (<[p := t]> m).
Proof.
  intros Ha Hp Hs q u q' u' Hq Hq'. unfold same_blocks in Hs.
  assert (exists v, m !! q = Some v /\ us_rx_ptr v = us_rx_ptr u) as (v & Hv & <-).
  { destruct (decide (q = p)) as [->|]; [rewrite lookup_insert_eq in Hq; injection Hq as <-; eauto|].
    rewrite lookup_insert_ne in Hq by done. eauto. }
  assert (exists v', m !! q' = Some v' /\ us_rx_ptr v' = us_rx_ptr u') as (v' & Hv' & <-).
  { destruct (decide (q' = p)) as [->|]; [rewrite lookup_insert_eq in Hq'; injection Hq' as <-; eauto|].
    rewrite lookup_insert_ne in Hq' by done. eauto. }
  by eapply Ha.
Qed.

(** The heap part of the invariant does not see a change inside a socket. *)
Lemma uinv_change B O O' m b b' h p s t : uinv B O m b h -> m !! p = Some s -> same_blocks s t ->
  links O' (<[p := t]> m) -> bound_ok O' b' -> uinv B O' (<[p := t]> m) b' h.
Proof.
  intros [Hl Hb Ha (L & HL & HLB) Ho] Hp Hs Hl' Hb'. constructor; [done|done|by eapply apart_insert| |].
  - exists L. split; [done|]. intros x. rewrite HLB. by rewrite (block_of_insert m p s t x Hp Hs).
  - intros x Hx. apply Ho. by eapply block_of_insert.
Qed.

(** The waiting connections of the sockets of an updated map. *)
Lemma pends_insert (m : gmap Z unix_sock) p s t l u c : m !! p = Some s -> <[p := t]> m !! l = Some u -> c ∈ pends u ->
  (l = p /\ u = t) \/ (l <> p /\ m !! l = Some u).
Proof.
  intros Hp Hl Hc. destruct (decide (l = p)) as [->|]; [left|right].
  - rewrite lookup_insert_eq in Hl. by injection Hl as <-.
  - by rewrite lookup_insert_ne in Hl.
Qed.

Lemma links_put O m p s t : links O m -> m !! p = Some s -> us_peer t = us_peer s -> pends t = pends s -> sock_wf t ->
  links O (<[p := t]> m).
Proof.
  intros [Hptr Hwf Hpeer Hpend Hnd Huq Hheld Hcov] Hp Ep Epd Ht.
  assert (forall q u, <[p := t]> m !! q = Some u -> exists v, m !! q = Some v /\ us_peer v = us_peer u /\ pends v = pends u) as Hback.
  { intros q u Hq. destruct (decide (q = p)) as [->|]; [rewrite lookup_insert_eq in Hq; injection Hq as <-; eauto|].
    rewrite lookup_insert_ne in Hq by done. eauto. }
  assert (forall q v, m !! q = Some v -> exists u, <[p := t]> m !! q = Some u /\ us_peer v = us_peer u /\ pends v = pends u) as Hforth.
  { intros q v Hq. destruct (decide (q = p)) as [->|]; [rewrite lookup_insert_eq; replace v with s by congruence; eauto|].
    rewrite lookup_insert_ne by done. eauto. }
  constructor.
  - intros q u (v & Hv & _)%Hback. eauto.
  - intros q u Hq. destruct (decide (q = p)) as [->|]; [rewrite lookup_insert_eq in Hq; by injection Hq as <-|].
    rewrite lookup_insert_ne in Hq by done. eauto.
  - intros q u (v & Hv & E & _)%Hback Hn. rewrite <- E in *. destruct (Hpeer _ _ Hv Hn) as (Hns & w & Hw & Ew).
    destruct (Hforth _ _ Hw) as (w' & ? & ? & _). split; [done|]. exists w'. split; [done|congruence].
  - intros l u c (v & Hv & _ & E)%Hback. rewrite <- E. intros Hc. destruct (Hpend _ _ _ Hv Hc) as (? & w & Hw & Ew).
    destruct (Hforth _ _ Hw) as (w' & ? & _ & E'). split; [done|]. exists w'. split; [done|congruence].
  - intros l u (v & Hv & _ & E)%Hback. rewrite <- E. eauto.
  - intros l u l' u' c (v & Hv & _ & E)%Hback (v' & Hv' & _ & E')%Hback. rewrite <- E, <- E'. eauto.
  - intros q Hq. destruct (Hheld q Hq) as [v Hv]. destruct (Hforth _ _ Hv) as (u & -> & _). done.
  - intros q [u (v & Hv & _)%Hback]. destruct (Hcov q ltac:(eauto)) as [|(l & w & Hw & Hc)]; [by left|].
    destruct (Hforth _ _ Hw) as (w' & ? & _ & E'). right. exists l, w'. split; [done|]. by rewrite <- E'.
Qed.

(** What an operation on the data or the name of a socket keeps. *)
Record same_links (s t : unix_sock) : Prop := {
  sl_blocks : same_blocks s t;
  sl_peer : us_peer t = us_peer s;
  sl_pends : pends t = pends s;
}.

Lemma uinv_put B O m b h p s t : uinv B O m b h -> m !! p = Some s -> same_links s t -> sock_wf t -> uinv B O (<[p := t]> m) b h.
Proof.
  intros Hi Hp [Hb Hq Hd] Ht. eapply uinv_change; [done|done|done| |exact (ui_bound _ _ _ _ _ Hi)].
  eapply links_put; eauto. exact (ui_links _ _ _ _ _ Hi).
Qed.

(** ** A new socket *)

Lemma links_alloc O m p t : links O m -> m !! p = None -> 0 < p < 2 ^ 64 -> sock_wf t -> us_peer t = 0 -> pends t = [] ->
  links ({[p]} ∪ O) (<[p := t]> m).
Proof.
  intros [Hptr Hwf Hpeer Hpend Hnd Huq Hheld Hcov] Hp Hpp Ht Hz Hd.
  assert (forall l u c, <[p := t]> m !! l = Some u -> c ∈ pends u -> m !! l = Some u /\ c <> p) as Hback.
  { intros l u c Hl Hc. destruct (decide (l = p)) as [->|].
    - rewrite lookup_insert_eq in Hl. injection Hl as <-. rewrite Hd in Hc. by apply not_elem_of_nil in Hc.
    - rewrite lookup_insert_ne in Hl by done. split; [done|]. intros ->.
      destruct (Hpend _ _ _ Hl Hc) as (_ & w & Hw & _). congruence. }
  constructor.
  - intros q u Hu. destruct (decide (q = p)) as [->|]; [done|]. rewrite lookup_insert_ne in Hu by done. eauto.
  - intros q u Hu. destruct (decide (q = p)) as [->|]; [rewrite lookup_insert_eq in Hu; by injection Hu as <-|].
    rewrite lookup_insert_ne in Hu by done. eauto.
  - intros q u Hu Hn. destruct (decide (q = p)) as [->|]; [rewrite lookup_insert_eq in Hu; by injection Hu as <-|].
    rewrite lookup_insert_ne in Hu by done. destruct (Hpeer _ _ Hu Hn) as (Hns & w & Hw & Ew). split; [done|]. exists w. split; [|done].
    rewrite lookup_insert_ne; [done|congruence].
  - intros l u c Hl Hc. destruct (Hback _ _ _ Hl Hc) as [Hl' Hne]. destruct (Hpend _ _ _ Hl' Hc) as (Hno & w & Hw & Ew).
    split; [by intros [->%elem_of_singleton|?]%elem_of_union|]. exists w. by rewrite lookup_insert_ne.
  - intros l u Hu. destruct (decide (l = p)) as [->|]; [rewrite lookup_insert_eq in Hu; injection Hu as <-; rewrite Hd; constructor|].
    rewrite lookup_insert_ne in Hu by done. eauto.
  - intros l u l' u' c Hl Hl' Hc Hc'. destruct (Hback _ _ _ Hl Hc) as [? _], (Hback _ _ _ Hl' Hc') as [? _]. eauto.
  - intros q [->%elem_of_singleton|Hq]%elem_of_union; [rewrite lookup_insert_eq; eauto|].
    destruct (decide (q = p)) as [->|]; [rewrite lookup_insert_eq; eauto|]. rewrite lookup_insert_ne by done. auto.
  - intros q Hq. destruct (decide (q = p)) as [->|]; [left; by apply elem_of_union_l, elem_of_singleton|]. rewrite lookup_insert_ne in Hq by done.
    destruct (Hcov q Hq) as [|(l & w & Hw & Hc)]; [left; by apply elem_of_union_r|]. right. exists l, w. split; [|done].
    rewrite lookup_insert_ne; [done|congruence].
Qed.

Lemma bound_mono O O' b : bound_ok O b -> O ⊆ O' -> bound_ok O' b.
Proof. intros Hb Hs. eapply Forall_impl; [|exact Hb]. intros x Hx Hn. apply Hs, Hx, Hn. Qed.

Lemma uinv_alloc B O m b h h' L p t : uinv B O m b h -> 0 < p < 2 ^ 64 ->
  kh_live h L -> (forall x, x ∈ L <-> x ∈ B \/ block_of m x) -> p ∉ L -> us_rx_ptr t ∉ {[p]} ∪ L ->
  kh_live h' ({[us_rx_ptr t]} ∪ ({[p]} ∪ L)) -> sock_wf t -> us_peer t = 0 -> pends t = [] ->
  uinv B ({[p]} ∪ O) (<[p := t]> m) b h'.
Proof.
  intros [Hl Hb Ha _ Ho] Hpp HL HLB HpL HrL HL' Ht Hq Hd.
  assert (m !! p = None) as Hp.
  { destruct (m !! p) as [u|] eqn:E; [|done]. destruct HpL. apply HLB. right. exists p, u. auto. }
  assert (forall x, block_of (<[p := t]> m) x <-> x = p \/ x = us_rx_ptr t \/ block_of m x) as Hbl.
  { intros x. split.
    - intros (q & u & Hu & Hx). destruct (decide (q = p)) as [->|]; [rewrite lookup_insert_eq in Hu; injection Hu as <-; tauto|].
      rewrite lookup_insert_ne in Hu by done. right. right. exists q, u. auto.
    - intros [->|[->|(q & u & Hu & Hx)]]; [exists p, t; rewrite lookup_insert_eq; auto..|].
      exists q, u. split; [|done]. rewrite lookup_insert_ne; [done|congruence]. }
  assert (forall q u, m !! q = Some u -> q ∈ L /\ us_rx_ptr u ∈ L) as HmL.
  { intros q u Hu. split; apply HLB; right; exists q, u; auto. }
  constructor.
  - by apply links_alloc.
  - eapply bound_mono; [done|apply union_subseteq_r].
  - apply not_elem_of_union in HrL as [Hrp%not_elem_of_singleton HrL].
    intros q u q' u' Hu Hu'. rewrite lookup_insert_Some in Hu, Hu'.
    destruct Hu as [[<- <-]|[Hne Hu]], Hu' as [[<- <-]|[Hne' Hu']]; [done| | |by eapply Ha].
    + destruct (HmL _ _ Hu'). split; intros E; [|destruct HrL; by rewrite E]. by rewrite E in HrL.
    + destruct (HmL _ _ Hu). split; intros E; [by rewrite <- E in HpL|]. destruct HrL. by rewrite <- E.
  - exists ({[us_rx_ptr t]} ∪ ({[p]} ∪ L)). split; [done|]. intros x. rewrite Hbl, !elem_of_union, !elem_of_singleton, HLB. tauto.
  - intros x [->|[->|Hx]]%Hbl; [| |by apply Ho]; intros HB; [apply HpL|apply HrL, elem_of_union_r]; apply HLB; by left.
Qed.

(** ** Connecting and disconnecting two sockets *)

(** The peers of [a] and [b] after the change are each other or none. *)
Definition paired (a b pa pb : Z) : Prop := (pa = 0 /\ pb = 0) \/ (pa = b /\ pb = a).

Lemma links_repeer O m a b s t s' t' : links O m -> a <> b -> m !! a = Some s -> m !! b = Some t ->
  paired a b (us_peer s) (us_peer t) -> paired a b (us_peer s') (us_peer t') ->
  pends s' = pends s -> pends t' = pends t -> sock_wf s' -> sock_wf t' -> links O (<[b := t']> (<[a := s']> m)).
Proof.
  intros [Hptr Hwf Hpeer Hpend Hnd Huq Hheld Hcov] Hab Ha Hb Hold Hnew Eps Ept Hs Ht.
  assert (forall q u, <[b := t']> (<[a := s']> m) !! q = Some u <->
            (q = b /\ u = t') \/ (q = a /\ u = s') \/ (q <> a /\ q <> b /\ m !! q = Some u)) as Hlk.
  { intros q u. rewrite lookup_insert_Some, lookup_insert_Some. naive_solver. }
  assert (forall q u, <[b := t']> (<[a := s']> m) !! q = Some u -> exists v, m !! q = Some v /\ pends v = pends u) as Hback.
  { intros q u [[-> ->]|[[-> ->]|(_ & _ & ?)]]%Hlk; eauto. }
  assert (forall q v, m !! q = Some v -> exists u, <[b := t']> (<[a := s']> m) !! q = Some u /\ pends v = pends u) as Hforth.
  { intros q v Hv. destruct (decide (q = b)) as [->|]; [exists t'; rewrite Hlk; split; [auto|congruence]|].
    destruct (decide (q = a)) as [->|]; [exists s'; rewrite Hlk; split; [auto|congruence]|]. exists v. rewrite Hlk. split; [right; right; done|done]. }
  pose proof (Hptr _ _ Ha). pose proof (Hptr _ _ Hb). constructor.
  - intros q u (v & Hv & _)%Hback. eauto.
  - intros q u [[-> ->]|[[-> ->]|(_ & _ & ?)]]%Hlk; eauto.
  - intros q u [[-> ->]|[[-> ->]|(Hqa & Hqb & Hq)]]%Hlk Hn.
    + destruct Hnew as [[? ?]|[E1 E2]]; [done|]. rewrite E2. split; [done|]. exists s'. rewrite Hlk. auto.
    + destruct Hnew as [[? ?]|[E1 E2]]; [done|]. rewrite E1. split; [done|]. exists t'. rewrite Hlk. auto.
    + destruct (Hpeer _ _ Hq Hn) as (Hns & w & Hw & Ew). split; [done|]. exists w. rewrite Hlk. split; [|done].
      pose proof (Hptr _ _ Hq). right. right. split_and!; [intros E|intros E|done]; rewrite E in Hw; destruct Hold as [[? ?]|[? ?]]; simplify_eq; try done; lia.
  - intros l u c (v & Hv & E)%Hback. rewrite <- E. intros Hc. destruct (Hpend _ _ _ Hv Hc) as (? & w & Hw & Ew).
    destruct (Hforth _ _ Hw) as (w' & ? & E'). split; [done|]. exists w'. split; [done|congruence].
  - intros l u (v & Hv & E)%Hback. rewrite <- E. eauto.
  - intros l u l' u' c (v & Hv & E)%Hback (v' & Hv' & E')%Hback. rewrite <- E, <- E'. eauto.
  - intros q Hq. destruct (Hheld q Hq) as [v Hv]. destruct (Hforth _ _ Hv) as (u & -> & _). done.
  - intros q [u (v & Hv & _)%Hback]. destruct (Hcov q ltac:(eauto)) as [|(l & w & Hw & Hc)]; [by left|].
    destruct (Hforth _ _ Hw) as (w' & ? & E'). right. exists l, w'. split; [done|]. by rewrite <- E'.
Qed.

Lemma uinv_repeer B O m bt h a b s t s' t' : uinv B O m bt h -> a <> b -> m !! a = Some s -> m !! b = Some t ->
  paired a b (us_peer s) (us_peer t) -> paired a b (us_peer s') (us_peer t') -> same_blocks s s' -> same_blocks t t' ->
  pends s' = pends s -> pends t' = pends t -> sock_wf s' -> sock_wf t' -> uinv B O (<[b := t']> (<[a := s']> m)) bt h.
Proof.
  intros Hi Hab Ha Hb Hold Hnew Hbs Hbt Hps Hpt Hs Ht.
  pose proof (links_repeer O m a b s t s' t' (ui_links _ _ _ _ _ Hi) Hab Ha Hb Hold Hnew Hps Hpt Hs Ht) as Hl.
  assert (<[a := s']> m !! b = Some t) as Hb' by (by rewrite lookup_insert_ne).
  destruct Hi as [_ Hbd Hap (L & HL & HLB) Ho]. constructor; [done|done| | |].
  - eapply apart_insert; [by eapply apart_insert|done|done].
  - exists L. split; [done|]. intros x. rewrite HLB, (block_of_insert _ b t t' x Hb' Hbt). by rewrite (block_of_insert m a s s' x Ha Hbs).
  - intros x Hx. apply Ho. by rewrite (block_of_insert _ b t t' x Hb' Hbt), (block_of_insert m a s s' x Ha Hbs) in Hx.
Qed.

(** ** Waiting connections *)

Lemma links_push O m l s s' c t : links O m -> l <> c -> m !! l = Some s -> m !! c = Some t -> l ∈ O -> c ∈ O -> pends t = [] ->
  us_peer s' = us_peer s -> pends s' = pends s ++ [c] -> sock_wf s' -> links (O ∖ {[c]}) (<[l := s']> m).
Proof.
  intros [Hptr Hwf Hpeer Hpend Hnd Huq Hheld Hcov] Hlc Hl Hc HlO HcO Hpt Ep Epd Hs.
  assert (forall q u x, <[l := s']> m !! q = Some u -> x ∈ pends u ->
            (exists v, m !! q = Some v /\ x ∈ pends v /\ x <> c) \/ (q = l /\ x = c)) as Hback.
  { intros q u x [[<- <-]|[Hne Hq]]%lookup_insert_Some Hx.
    - rewrite Epd in Hx. apply elem_of_app in Hx as [Hx| ->%list_elem_of_singleton]; [left|by right].
      exists s. split_and!; [done..|]. intros ->. by destruct (Hpend _ _ _ Hl Hx).
    - left. exists u. split_and!; [done..|]. intros ->. by destruct (Hpend _ _ _ Hq Hx). }
  constructor.
  - intros q u [[<- <-]|[_ Hq]]%lookup_insert_Some; eauto.
  - intros q u [[<- <-]|[_ Hq]]%lookup_insert_Some; eauto.
  - intros q u Hq Hn.
    assert (exists v, m !! q = Some v /\ us_peer v = us_peer u) as (v & Hv & E)
      by (apply lookup_insert_Some in Hq as [[<- <-]|[_ Hq]]; eauto).
    rewrite <- E in *. destruct (Hpeer _ _ Hv Hn) as (Hns & w & Hw & Ew). split; [done|].
    destruct (decide (us_peer v = l)) as [El|]; [exists s'|exists w]; [|by rewrite lookup_insert_ne by done].
    rewrite El, lookup_insert_eq. split; [done|]. rewrite El in Hw. congruence.
  - intros q u x Hq Hx. assert (exists w, m !! x = Some w /\ pends w = [] /\ x ∉ O ∖ {[c]}) as (w & Hw & Ew & HxO).
    { destruct (Hback _ _ _ Hq Hx) as [(v & Hv & Hxv & _)|[_ ->]].
      - destruct (Hpend _ _ _ Hv Hxv) as (? & w & ? & ?). exists w. split_and!; [done..|]. by intros [? _]%elem_of_difference.
      - exists t. split_and!; [done..|]. by intros [_ Hcc%not_elem_of_singleton]%elem_of_difference. }
    split; [done|]. destruct (decide (x = l)) as [->|]; [|exists w; by rewrite lookup_insert_ne by done].
    exfalso. destruct (Hback _ _ _ Hq Hx) as [(v & Hv & Hxv & _)|[_ ?]]; [|done]. by destruct (Hpend _ _ _ Hv Hxv).
  - intros q u [[<- <-]|[_ Hq]]%lookup_insert_Some; [|eauto]. rewrite Epd. apply list.NoDup_app. split_and!; [eauto| |apply NoDup_singleton].
    intros x Hx ->%list_elem_of_singleton. by destruct (Hpend _ _ _ Hl Hx).
  - intros q u q' u' x Hq Hq' Hx Hx'.
    destruct (Hback _ _ _ Hq Hx) as [(v & Hv & Hxv & Hne)|[-> ->]], (Hback _ _ _ Hq' Hx') as [(v' & Hv' & Hxv' & Hne')|[-> E]]; try done.
    eauto.
  - intros q [Hq _]%elem_of_difference. destruct (decide (q = l)) as [->|]; [rewrite lookup_insert_eq; eauto|].
    rewrite lookup_insert_ne by done. auto.
  - intros q [u Hq]. destruct (decide (q = c)) as [->|].
    { right. exists l, s'. rewrite lookup_insert_eq, Epd. split; [done|]. apply elem_of_app. right. by apply list_elem_of_singleton. }
    assert (is_Some (m !! q)) as Hm by (apply lookup_insert_Some in Hq as [[<- <-]|[_ Hq]]; eauto).
    destruct (Hcov q Hm) as [|(l' & w & Hw & Hx)]; [left; by apply elem_of_difference; split; [|by apply not_elem_of_singleton]|].
    right. destruct (decide (l' = l)) as [->|].
    + exists l, s'. rewrite lookup_insert_eq, Epd. split; [done|]. apply elem_of_app. left. by simplify_eq.
    + exists l', w. by rewrite lookup_insert_ne by done.
Qed.

Lemma uinv_push B O m b h l s s' c t : uinv B O m b h -> l <> c -> m !! l = Some s -> m !! c = Some t -> l ∈ O -> c ∈ O ->
  Forall (fun x => b_s x <> c) b -> pends t = [] ->
  same_blocks s s' -> us_peer s' = us_peer s -> pends s' = pends s ++ [c] -> sock_wf s' -> uinv B (O ∖ {[c]}) (<[l := s']> m) b h.
Proof.
  intros Hi Hlc Hl Hc HlO HcO Hnb Hpt Hbl Ep Epd Hs. eapply uinv_change; [done|done|done| |].
  - eapply links_push; eauto. exact (ui_links _ _ _ _ _ Hi).
  - pose proof (ui_bound _ _ _ _ _ Hi) as Hb. unfold bound_ok in *. rewrite Forall_forall in *. intros x Hx Hn.
    apply elem_of_difference. split; [by apply Hb|]. apply not_elem_of_singleton. by apply Hnb.
Qed.

Lemma links_pop O m l s s' c : links O m -> m !! l = Some s -> us_peer s' = us_peer s -> pends s = c :: pends s' -> sock_wf s' ->
  links ({[c]} ∪ O) (<[l := s']> m).
Proof.
  intros [Hptr Hwf Hpeer Hpend Hnd Huq Hheld Hcov] Hl Ep Epd Hs.
  assert (c ∈ pends s) as Hcs by (rewrite Epd; left).
  destruct (Hpend _ _ _ Hl Hcs) as (HcO & tc & Htc & Hptc).
  assert (c <> l) as Hcl by (intros ->; simplify_eq; by rewrite Hptc in Hcs; apply not_elem_of_nil in Hcs).
  assert (forall q u x, <[l := s']> m !! q = Some u -> x ∈ pends u -> exists v, m !! q = Some v /\ x ∈ pends v /\ x <> c) as Hback.
  { intros q u x [[<- <-]|[Hne Hq]]%lookup_insert_Some Hx.
    - exists s. split_and!; [done|rewrite Epd; by right|]. intros ->. pose proof (Hnd _ _ Hl) as Hn. rewrite Epd in Hn.
      by apply list.NoDup_cons in Hn as [? _].
    - exists u. split_and!; [done..|]. intros ->. apply Hne. symmetry. by eapply Huq. }
  constructor.
  - intros q u [[<- <-]|[_ Hq]]%lookup_insert_Some; eauto.
  - intros q u [[<- <-]|[_ Hq]]%lookup_insert_Some; eauto.
  - intros q u Hq Hn.
    assert (exists v, m !! q = Some v /\ us_peer v = us_peer u) as (v & Hv & E)
      by (apply lookup_insert_Some in Hq as [[<- <-]|[_ Hq]]; eauto).
    rewrite <- E in *. destruct (Hpeer _ _ Hv Hn) as (Hns & w & Hw & Ew). split; [done|].
    destruct (decide (us_peer v = l)) as [El|]; [exists s'|exists w]; [|by rewrite lookup_insert_ne by done].
    rewrite El, lookup_insert_eq. split; [done|]. rewrite El in Hw. congruence.
  - intros q u x Hq Hx. destruct (Hback _ _ _ Hq Hx) as (v & Hv & Hxv & Hne). destruct (Hpend _ _ _ Hv Hxv) as (HxO & w & Hw & Ew).
    split; [by intros [->%elem_of_singleton|?]%elem_of_union|].
    destruct (decide (x = l)) as [->|]; [|exists w; by rewrite lookup_insert_ne by done].
    simplify_eq. rewrite Epd in Ew. done.
  - intros q u [[<- <-]|[_ Hq]]%lookup_insert_Some; [|eauto]. pose proof (Hnd _ _ Hl) as Hn. rewrite Epd in Hn.
    by apply list.NoDup_cons in Hn as [_ ?].
  - intros q u q' u' x Hq Hq' Hx Hx'. destruct (Hback _ _ _ Hq Hx) as (v & ? & ? & _), (Hback _ _ _ Hq' Hx') as (v' & ? & ? & _). eauto.
  - intros q Hq. assert (is_Some (m !! q)) as [u Hu] by (apply elem_of_union in Hq as [->%elem_of_singleton|?]; eauto).
    destruct (decide (q = l)) as [->|]; [rewrite lookup_insert_eq; eauto|]. rewrite lookup_insert_ne by done. eauto.
  - intros q [u Hq]. assert (is_Some (m !! q)) as Hm by (apply lookup_insert_Some in Hq as [[<- <-]|[_ Hq]]; eauto).
    destruct (decide (q = c)) as [->|]; [left; by apply elem_of_union_l, elem_of_singleton|].
    destruct (Hcov q Hm) as [|(l' & w & Hw & Hx)]; [left; by apply elem_of_union_r|]. right.
    destruct (decide (l' = l)) as [->|]; [|exists l', w; by rewrite lookup_insert_ne by done].
    exists l, s'. rewrite lookup_insert_eq. split; [done|]. simplify_eq. rewrite Epd in Hx. by apply elem_of_cons in Hx as [|].
Qed.

Lemma uinv_pop B O m b h l s s' c : uinv B O m b h -> m !! l = Some s -> same_blocks s s' -> us_peer s' = us_peer s ->
  pends s = c :: pends s' -> sock_wf s' -> uinv B ({[c]} ∪ O) (<[l := s']> m) b h.
Proof.
  intros Hi Hl Hbl Ep Epd Hs. eapply uinv_change; [done|done|done| |].
  - eapply links_pop; eauto. exact (ui_links _ _ _ _ _ Hi).
  - eapply bound_mono; [exact (ui_bound _ _ _ _ _ Hi)|apply union_subseteq_r].
Qed.

(** ** Freeing a socket *)

Lemma links_delete O m p s : links O m -> m !! p = Some s -> p ∈ O -> us_peer s = 0 -> pends s = [] ->
  links (O ∖ {[p]}) (delete p m).
Proof.
  intros [Hptr Hwf Hpeer Hpend Hnd Huq Hheld Hcov] Hp HpO Ep Epd.
  constructor.
  - intros q u [_ Hq]%lookup_delete_Some. eauto.
  - intros q u [_ Hq]%lookup_delete_Some. eauto.
  - intros q u [Hne Hq]%lookup_delete_Some Hn. destruct (Hpeer _ _ Hq Hn) as (Hns & w & Hw & Ew). split; [done|].
    exists w. split; [|done]. apply lookup_delete_Some. split; [|done]. intros E. rewrite <- E, Hp in Hw. injection Hw as <-.
    pose proof (Hptr _ _ Hq). lia.
  - intros l u c [_ Hl]%lookup_delete_Some Hc. destruct (Hpend _ _ _ Hl Hc) as (HcO & w & Hw & Ew).
    split; [by intros [? _]%elem_of_difference|]. exists w. split; [|done]. apply lookup_delete_Some. split; [|done]. by intros <-.
  - intros l u [_ Hl]%lookup_delete_Some. eauto.
  - intros l u l' u' c [_ Hl]%lookup_delete_Some [_ Hl']%lookup_delete_Some. eauto.
  - intros q [Hq Hne%not_elem_of_singleton]%elem_of_difference. rewrite lookup_delete_ne by done. auto.
  - intros q [u [Hne Hq]%lookup_delete_Some]. destruct (Hcov q ltac:(eauto)) as [|(l & w & Hw & Hc)].
    + left. apply elem_of_difference. split; [done|]. apply not_elem_of_singleton. done.
    + right. exists l, w. split; [|done]. apply lookup_delete_Some. split; [|done]. intros <-. simplify_eq.
      rewrite Epd in Hc. by apply not_elem_of_nil in Hc.
Qed.

Lemma kfree_sock_uinv B O n m p s : uinv B O m (u_bind n) (u_heap n) -> m !! p = Some s -> p ∈ O -> us_peer s = 0 -> pends s = [] ->
  Forall (fun x => b_s x <> p) (u_bind n) ->
  total (fun n' => uinv B (O ∖ {[p]}) (delete p m) (u_bind n') (u_heap n') /\ u_socks n' = delete p (u_socks n) /\ u_bind n' = u_bind n)
        (kfree_sock n p s).
Proof.
  intros [Hl Hb Ha (L & HL & HLB) Ho] Hp HpO Ep Epd Hnb. unfold kfree_sock.
  assert (us_rx_ptr s ∈ L /\ p ∈ L) as [HrL HpL] by (split; apply HLB; right; exists p, s; auto).
  destruct (Ha p s p s Hp Hp) as [Hrp _].
  eapply total_bind; [by apply kh_free_live|]. intros h1 H1.
  eapply total_bind; [apply (kh_free_live _ _ p H1); apply elem_of_difference; split; [done|by apply not_elem_of_singleton]|].
  intros h2 H2. cbn. split_and!; [|done|done].
  assert (forall x, block_of (delete p m) x <-> block_of m x /\ x <> p /\ x <> us_rx_ptr s) as Hbl.
  { intros x. split.
    - intros (q & u & [Hne Hq]%lookup_delete_Some & Hx). destruct (Ha p s q u Hp Hq), (Ha q u p s Hq Hp).
      split; [exists q, u; auto|]. destruct Hx as [->| ->]; split; congruence || (intros E; naive_solver).
    - intros ((q & u & Hq & Hx) & Hxp & Hxr). exists q, u. split; [|done]. apply lookup_delete_Some. split; [|done].
      intros <-. simplify_eq. by destruct Hx. }
  constructor.
  - by eapply links_delete.
  - unfold bound_ok in *. rewrite Forall_forall in *. intros x Hx Hn. apply elem_of_difference. split; [by apply Hb|].
    apply not_elem_of_singleton. by apply Hnb.
  - intros q u q' u' [_ Hq]%lookup_delete_Some [_ Hq']%lookup_delete_Some. by eapply Ha.
  - eexists. split; [exact H2|]. intros x. rewrite !elem_of_difference, !elem_of_singleton, HLB, Hbl.
    split; [tauto|]. intros [HB|(?&?&?)]; [|tauto]. split_and!; [by left| |]; intros ->; eapply (Ho _ _ HB).
  - intros x [Hx _]%Hbl. by apply Ho.
  Unshelve. all: exists p, s; auto.
Qed.
End inv.
