(* ===== verification/UnixCalls.v ===== *)
(** * UnixCalls: each call on a Unix socket keeps the invariant and the logs

    Besides the links, every call is followed through a log that records, for
    each socket, the messages sent to it and the data received from it.
    [carried s l]: the ring of [s] holds exactly what was sent and not yet
    received, in order. *)

From S2P Require Import Prelude UnixSock UnixRing UnixInv.

(** ** Logs *)

(** What was sent, and what was received with the room the receiver gave. *)
Record slog : Type := mk_log { l_sent : list (list Z); l_got : list (Z * list Z) }.

Definition no_log : slog := mk_log [] [].
Definition log_sent (l : slog) (d : list Z) : slog := mk_log (l_sent l ++ [d]) (l_got l).
Definition log_got (l : slog) (k : Z) (d : list Z) : slog := mk_log (l_sent l) (l_got l ++ [(k, d)]).

Definition upd (G : Z -> slog) (x : Z) (l : slog) : Z -> slog := fun y => if y =? x then l else G y.

(** A received message is what was sent, cut at the room of the receiver. *)
Definition cut_of (r : Z * list Z) (d : list Z) : Prop := r.2 = take (Z.to_nat r.1) d.

(** Streams: the bytes received, then the bytes in the ring, are the bytes
    sent. Framed sockets: the messages received, each cut to the room given, then
    the messages in the ring, are the messages sent. *)
Definition carried (s : unix_sock) (l : slog) : Prop :=
  if us_type s =? 1 then exists q, holds s q /\ concat (l_sent l) = concat (l_got l).*2 ++ q
  else exists taken ms, frames s ms /\ l_sent l = taken ++ ms.*2 /\ Forall2 cut_of (l_got l) taken.

Definition delivers (G : Z -> slog) (m : gmap Z unix_sock) : Prop := forall x s, m !! x = Some s -> carried s (G x).

Lemma delivers_put G m p s t l : delivers G m -> m !! p = Some s -> (carried s (G p) -> carried t l) ->
  delivers (upd G p l) (<[p := t]> m).
Proof.
  intros Hd Hp Hc x u Hx. unfold upd. apply lookup_insert_Some in Hx as [[<- <-]|[Hne Hx]].
  - rewrite Z.eqb_refl. auto.
  - destruct (Z.eqb_spec x p); [done|]. auto.
Qed.

Lemma delivers_keep G m p s t : delivers G m -> m !! p = Some s -> (carried s (G p) -> carried t (G p)) ->
  delivers G (<[p := t]> m).
Proof. intros Hd Hp Hc x u [[<- <-]|[Hne Hx]]%lookup_insert_Some; auto. Qed.

Lemma delivers_delete G m p : delivers G m -> delivers G (delete p m).
Proof. intros Hd x u [_ Hx]%lookup_delete_Some. auto. Qed.

(** The same type, ring and message count. *)
Definition same_data (s t : unix_sock) : Prop :=
  us_type t = us_type s /\ us_rx t = us_rx s /\ us_rx_sz t = us_rx_sz s /\ us_head t = us_head s /\ us_tail t = us_tail s /\
  us_abs_head t = us_abs_head s /\ us_abs_tail t = us_abs_tail s /\ us_msg_cnt t = us_msg_cnt s.

Lemma ring_wf_same s t : same_data s t -> ring_wf s -> ring_wf t.
Proof. intros (_ & E1 & E2 & E3 & E4 & _) []. constructor; rewrite ?E1, ?E2, ?E3, ?E4; done. Qed.

Lemma holds_same s t q : same_data s t -> holds s q -> holds t q.
Proof.
  intros Hs [Hw Hab Hu Hf Hh Hb]. pose proof Hs as (_ & E1 & E2 & E3 & E4 & E5 & E6 & _).
  constructor; rewrite ?E1, ?E3, ?E4, ?E5, ?E6; try done. by eapply ring_wf_same.
Qed.

Lemma carried_same s t l : same_data s t -> carried s l -> carried t l.
Proof.
  intros Hs. pose proof Hs as (E0 & _ & _ & _ & _ & _ & _ & E7). unfold carried. rewrite E0. destruct (us_type s =? 1).
  - intros (q & Hq & E). exists q. split; [by eapply holds_same|done].
  - intros (taken & ms & [Hh Hc Hok] & E & F). exists taken, ms. split_and!; [|done..]. constructor; [by eapply holds_same|congruence|done].
Qed.

Lemma carried_new s : us_msg_cnt s = 0 -> holds s [] -> carried s no_log.
Proof.
  intros Hc Hh. unfold carried. destruct (us_type s =? 1); [by exists []|]. exists [], []. split_and!; [|done|constructor].
  by apply holds_nil_msgs.
Qed.

(** ** Well formed sockets *)

Lemma ring_only_links s t : ring_only s t -> same_links s t.
Proof. intros (? & ? & ? & ? & ? & ->). by constructor. Qed.

Lemma sock_wf_ring s t : sock_wf s -> ring_only s t -> ring_wf t -> sock_wf t.
Proof. intros [] (? & ? & ? & ? & ? & ->) Hw. by constructor. Qed.

Lemma sock_wf_msg s c : sock_wf s -> sock_wf (set_msg_cnt s c).
Proof. intros [[]]. by constructor. Qed.

Lemma ring_cnt_links s t : ring_cnt s t -> same_links s t.
Proof. intros (c & (? & ? & ? & ? & ? & ->)). by constructor. Qed.

Lemma sock_wf_ring_cnt s t : sock_wf s -> ring_cnt s t -> ring_wf t -> sock_wf t.
Proof. intros Hs (c & Hr) Hw. eapply sock_wf_ring; [|done|done]. by apply sock_wf_msg. Qed.

Lemma ring_only_type s t : ring_only s t -> us_type t = us_type s /\ us_msg_cnt t = us_msg_cnt s.
Proof. by intros (? & ? & ? & ? & ? & ->). Qed.

Lemma ring_cnt_type s t : ring_cnt s t -> us_type t = us_type s.
Proof. by intros (c & (? & ? & ? & ? & ? & ->)). Qed.

(** Safety in any case, and a result in the cases that a parameter ranges over. *)
Lemma total_both {A T} (P : A -> Prop) (R : T -> Prop) (Q : T -> A -> Prop) (r : res A) :
  total P r -> (forall q, R q -> total (Q q) r) -> total (fun x => P x /\ forall q, R q -> Q q x) r.
Proof. intros HP HQ. apply total_Ok in HP as (x & -> & HP). split; [done|]. intros q Hq. exact (HQ q Hq). Qed.

(** ** Sending *)

(** [t] is [s] after the message [d] was queued. *)
Definition queued (s t : unix_sock) (d : list Z) : Prop := forall l, carried s l -> carried t (log_sent l d).

Lemma queued_stream s t d : us_type s = 1 -> us_type t = 1 -> (forall q, holds s q -> holds t (q ++ d)) -> queued s t d.
Proof.
  intros Es Et Hh l. unfold carried. rewrite Es, Et. cbn. intros (q & Hq & E). exists (q ++ d). split; [auto|].
  rewrite concat_app, E. cbn. by rewrite app_nil_r, app_assoc.
Qed.

Lemma queued_frame s t p d : us_type s <> 1 -> us_type t = us_type s -> 
  (forall ms, frames s ms -> frames t (ms ++ [(p, d)])) -> queued s t d.
Proof.
  intros Es Et Hh l. unfold carried. rewrite Et. destruct (Z.eqb_spec (us_type s) 1); [done|].
  intros (taken & ms & Hf & E & F). exists taken, (ms ++ [(p, d)]). cbn. rewrite E, fmap_app, app_assoc. split_and!; auto.
Qed.

(** [ring_space] on a ring that holds [q]. *)
Lemma space_fits s q len : holds s q -> len <= ring_space s -> zlen q + len <= SZ.
Proof. intros Hq. rewrite (holds_space _ _ Hq). lia. Qed.

Lemma ring_write_both s data len : ring_wf s -> Forall is_byte data -> len = zlen data ->
  total (fun t => (ring_wf t /\ ring_only s t) /\ forall q, holds s q /\ zlen q + len <= SZ -> holds t (q ++ data)) (ring_write s data len).
Proof.
  intros Hw Hb Hl. pose proof (zlen_nonneg data). apply total_both; [apply ring_write_safe; [done|done|lia]|].
  intros q [Hq Hf]. eapply post_conseq; [by apply (ring_write_holds s q data len)|]. by intros t [? _].
Qed.

Lemma write_iov_both s iv : ring_wf s -> iov_ok iv -> zlen (concat iv) < 2 ^ 32 ->
  total (fun t => (ring_wf t /\ ring_only s t) /\ forall q, holds s q /\ zlen q + zlen (concat iv) <= SZ -> holds t (q ++ concat iv)) (write_iov s iv).
Proof.
  intros Hw Hb Hl. apply total_both; [by apply write_iov_safe|].
  intros q [Hq Hf]. eapply post_conseq; [by apply (write_iov_holds iv s q)|]. by intros t [? _].
Qed.

(** A header and the pieces of a message. *)
Lemma write_record_both s p iv (f : unix_sock -> res unix_sock) : ring_wf s -> 0 <= p < 2 ^ 64 -> iov_ok iv -> zlen (concat iv) < 2 ^ 32 ->
  (forall t, ring_wf t -> total (fun u => (ring_wf u /\ ring_only t u) /\ forall q, holds t q /\ zlen q + zlen (concat iv) <= SZ -> holds u (q ++ concat iv)) (f t)) ->
  total (fun u => (ring_wf u /\ ring_only s u) /\
           forall ms, frames s ms /\ zlen (concat iv) + REC_HDR <= ring_space s ->
             frames (set_msg_cnt u (us_msg_cnt u + 1)) (ms ++ [(p, concat iv)]))
        (t ← ring_write s (rec_hdr (zlen (concat iv)) p) REC_HDR; f t).
Proof.
  intros Hw Hp Hb Hl Hf. eapply total_bind; [by apply ring_write_both; [|apply bytes_rec_hdr|]|].
  intros t [[Ht Ho] Hh]. eapply post_conseq; [by apply Hf|]. intros u [[Hu Ho'] Hh'].
  assert (ring_only s u) as Hou by (by eapply ring_only_trans). split; [done|]. intros ms [Hfr Hsp].
  pose proof (space_fits _ _ _ (fr_holds _ _ Hfr) Hsp) as Hfit. pose proof (zlen_nonneg (concat iv)).
  assert (Forall is_byte (concat iv)) as Hbc.
  { clear -Hb. induction Hb as [|b iv Hb _ IH]; cbn; [constructor|by apply Forall_app]. }
  eapply frames_snoc; [done| |done|done]. rewrite app_assoc. apply Hh'. split; [apply Hh; split; [apply Hfr|lia]|].
  rewrite zlen_app, zlen_rec_hdr. lia.
Qed.

(** ** Receiving *)

Lemma ring_read_both s k : ring_wf s -> 0 <= k ->
  total (fun '(d, t) => (ring_wf t /\ ring_only s t /\ zlen d = k) /\
           forall q, holds s q /\ k <= zlen q -> d = take (Z.to_nat k) q /\ holds t (drop (Z.to_nat k) q)) (ring_read s k).
Proof.
  intros Hw Hk.
  assert (total (fun x => (ring_wf x.2 /\ ring_only s x.2 /\ zlen x.1 = k) /\
           forall q, holds s q /\ k <= zlen q -> x.1 = take (Z.to_nat k) q /\ holds x.2 (drop (Z.to_nat k) q)) (ring_read s k)) as Hb.
  { apply total_both.
    - eapply post_conseq; [by apply ring_read_safe|]. intros [d t] (? & ? & ? & _). done.
    - intros q [Hq Hl]. rewrite <- (take_drop (Z.to_nat k) q) in Hq.
      assert (k = zlen (take (Z.to_nat k) q)) as Ek by (unfold zlen in *; rewrite length_take; lia).
      eapply post_conseq; [apply (ring_read_holds s _ _ k Hq Ek)|]. by intros [d t] (-> & ? & _). }
  eapply post_conseq; [exact Hb|]. by intros [d t].
Qed.

(** [t] is [s] after [d] was taken with room for [k] bytes. *)
Definition removed (s t : unix_sock) (k : Z) (d : list Z) : Prop := forall l, carried s l -> carried t (log_got l k d).

Lemma removed_stream s t k d : us_type s = 1 -> us_type t = 1 -> (forall q, holds s q -> exists q', q = d ++ q' /\ holds t q') -> removed s t k d.
Proof.
  intros Es Et Hh l. unfold carried. rewrite Es, Et. cbn. intros (q & Hq & E). destruct (Hh q Hq) as (q' & -> & Hq').
  exists q'. split; [done|]. rewrite E, fmap_app, concat_app. cbn. by rewrite app_nil_r, <- app_assoc.
Qed.

Lemma removed_frame s t k d : us_type s <> 1 -> us_type t = us_type s -> us_msg_cnt s <> 0 ->
  (forall src f ms, frames s ((src, f) :: ms) -> d = take (Z.to_nat k) f /\ frames t ms) -> removed s t k d.
Proof.
  intros Es Et Hc Hh l. unfold carried. rewrite Et. destruct (Z.eqb_spec (us_type s) 1); [done|].
  intros (taken & ms & Hf & E & F). destruct ms as [|[src f] ms]; [by destruct Hc; rewrite (fr_count _ _ Hf)|].
  destruct (Hh _ _ _ Hf) as [-> Ht]. exists (taken ++ [f]), ms. cbn in *. rewrite <- app_assoc. split_and!; [done|done|].
  apply Forall2_app; [done|]. by repeat constructor.
Qed.

Lemma removed_data s t u k d : removed s t k d -> same_data t u -> removed s u k d.
Proof. intros Hr Hs l Hl. eapply carried_same; [done|]. auto. Qed.

(** The buffers of a vector filled from a stream. *)
Lemma read_iov_both lens : forall s tot, ring_wf s -> Forall (fun l => 0 <= l) lens ->
  total (fun '(data, tot', t) => (ring_wf t /\ ring_only s t) /\
           forall q, holds s q -> exists q', q = concat data ++ q' /\ holds t q' /\
             (0 <= tot -> tot + zlen q < 2 ^ 64 -> tot' = tot + zlen (concat data))) (read_iov s lens tot).
Proof.
  induction lens as [|l lens IH]; intros s tot Hw Hl; cbn [read_iov].
  { split; [by split; [|apply ring_only_refl]|]. intros q Hq. exists q. split_and!; [done|done|]. cbn. unfold zlen. cbn. lia. }
  apply list.Forall_cons in Hl as [Hl0 Hl]. cbv zeta.
  assert (0 <= ring_used s < 4294967296) as Hu by (unfold ring_used, u32; mlia).
  set (want := if l <? ring_used s then u32 l else ring_used s).
  assert (0 <= want <= ring_used s) as Hwt by (subst want; destruct (Z.ltb_spec l (ring_used s)); rewrite ?u32_small; lia).
  clearbody want. destruct (Z.eqb_spec want 0).
  { split; [by split; [|apply ring_only_refl]|]. intros q Hq. exists q. split_and!; [done|done|]. cbn. unfold zlen. cbn. lia. }
  eapply total_bind; [apply ring_read_both; [done|lia]|]. intros [d t] [(Ht & Ho & Hd) Hh].
  eapply total_bind; [by apply IH|]. intros [[data tot'] u] [[Hu' Ho'] Hh']. split; [split; [done|by eapply ring_only_trans]|].
  intros q Hq. destruct (Hh q) as [Ed Hq']; [split; [done|rewrite <- (holds_used _ _ Hq); lia]|].
  destruct (Hh' _ Hq') as (q' & Eq & Hu'' & Et). exists q'. split_and!; [|done|].
  - cbn [concat]. rewrite <- app_assoc, <- Eq, Ed. by rewrite take_drop.
  - intros Ht0 Hb. rewrite (holds_used _ _ Hq) in Hwt. cbn [concat]. rewrite zlen_app, Hd.
    assert (zlen (drop (Z.to_nat want) q) = zlen q - want) as Ez by (unfold zlen in *; rewrite length_drop; lia).
    rewrite u64_small in Et by lia. rewrite Et; lia.
Qed.

Lemma scatter_concat lens : forall d, Forall (fun l => 0 <= l) lens -> zlen d <= foldr Z.add 0 lens -> concat (scatter lens d) = d.
Proof.
  induction lens as [|l lens IH]; intros d Hl Hd; cbn [scatter foldr concat] in *.
  - pose proof (zlen_nonneg d). by rewrite (zlen_nil_inv d) by lia.
  - apply list.Forall_cons in Hl as [Hl0 Hl]. destruct (Z.eqb_spec (zlen d) 0) as [E|]; [by rewrite (zlen_nil_inv d)|].
    cbn [concat]. rewrite IH; [apply take_drop|done|]. unfold zlen in *. rewrite length_drop.
    assert (0 <= foldr Z.add 0 lens) by (clear -Hl; induction Hl; cbn; lia). lia.
Qed.

(** ** Passed files *)

Lemma scm_same (s : unix_sock) q h c : same_links s (set_scm s q h c) /\ same_data s (set_scm s q h c).
Proof. by split; [constructor|repeat split]. Qed.

Lemma sock_wf_scm s q h c : sock_wf s -> zlen q = UNIX_SCM_QLEN -> 0 <= h < UNIX_SCM_QLEN -> 0 <= c <= UNIX_SCM_QLEN ->
  Forall (fun r => zlen (scm_files r) <= UNIX_SCM_MAX) q -> sock_wf (set_scm s q h c).
Proof. intros [[]]. constructor; try done. Qed.

Lemma keeps_links_trans s t u : same_links s t -> same_links t u -> same_links s u.
Proof. intros [] []. constructor; unfold same_blocks in *; congruence. Qed.

Lemma same_data_trans s t u : same_data s t -> same_data t u -> same_data s u.
Proof. unfold same_data. intros (?&?&?&?&?&?&?&?) (?&?&?&?&?&?&?&?). split_and!; congruence. Qed.

Lemma same_data_refl s : same_data s s.
Proof. by repeat split. Qed.

Lemma keeps_links_refl s : same_links s s.
Proof. by constructor. Qed.

Lemma scm_push_ok s fds : sock_wf s -> zlen fds <= UNIX_SCM_MAX ->
  total (fun o => match o with Some t => sock_wf t /\ same_links s t /\ same_data s t | None => True end) (scm_push s fds).
Proof.
  intros Hs Hf. unfold scm_push. destruct (Z.leb_spec UNIX_SCM_QLEN (us_scm_cnt s)); [done|].
  destruct (Z.ltb_spec UNIX_SCM_MAX (zlen fds)); [lia|]. split; [|by apply scm_same]. destruct Hs as [].
  apply sock_wf_scm; [by constructor|by rewrite zlen_zset|done|lia|]. apply Forall_zset; [done|]. cbn. done.
Qed.

(** Taking the oldest record off. *)
Lemma scm_pop_wf s r : sock_wf s -> 0 < us_scm_cnt s ->
  sock_wf (set_scm s (zset (us_scm s) (us_scm_head s) (mk_scm (scm_off r) [])) ((us_scm_head s + 1) mod UNIX_SCM_QLEN) (us_scm_cnt s - 1)).
Proof.
  intros Hs Hc. pose proof Hs as []. apply sock_wf_scm; [done|by rewrite zlen_zset|unfold UNIX_SCM_QLEN; mlia|lia|].
  apply Forall_zset; [done|]. cbn. unfold UNIX_SCM_MAX, zlen. cbn. lia.
Qed.

Lemma scm_first s : sock_wf s -> exists r, zget (us_scm s) (us_scm_head s) = Some r.
Proof. intros []. apply zget_in_range. lia. Qed.

Lemma scm_deliver_ok k : forall s out, sock_wf s -> Z.of_nat k = us_scm_cnt s -> zlen out <= UNIX_SCM_MAX ->
  total (fun '(t, fds) => sock_wf t /\ same_links s t /\ same_data s t /\ zlen fds <= UNIX_SCM_MAX) (scm_deliver k s out).
Proof.
  induction k as [|k IH]; intros s out Hs Hk Ho; cbn [scm_deliver].
  { split_and!; [done|apply keeps_links_refl|apply same_data_refl|done]. }
  destruct (Z.leb_spec UNIX_SCM_MAX (zlen out)); [split_and!; [done|apply keeps_links_refl|apply same_data_refl|done]|].
  destruct (scm_first s Hs) as [r ->]. destruct (us_abs_tail s <? scm_off r); [split_and!; [done|apply keeps_links_refl|apply same_data_refl|done]|].
  eapply post_conseq; [apply IH; [apply scm_pop_wf; [done|lia]|cbn; lia|]|].
  - rewrite zlen_app. unfold zlen in *. rewrite length_take. lia.
  - intros [t fds] (Ht & Hl & Hd & Hf). destruct (scm_same s (zset (us_scm s) (us_scm_head s) (mk_scm (scm_off r) []))
      ((us_scm_head s + 1) mod UNIX_SCM_QLEN) (us_scm_cnt s - 1)).
    split_and!; [done|by eapply keeps_links_trans|by eapply same_data_trans|done].
Qed.

(** ** The calls *)

Section calls.
Context {H : Type} {KH : KernelHeap H} (B : gset Z).
Implicit Types (n : unet H) (O : gset Z) (p : Z).

Definition inv O n : Prop := uinv B O (u_socks n) (u_bind n) (u_heap n).

(** The links hold for the sockets [O'] held now; the logs change by [lg] if the
    call respects the types of sockets. *)
Definition step_ok O' n n' (lg : (Z -> slog) -> Z -> slog) (ty : Prop) : Prop :=
  inv O' n' /\ (ty -> forall G, delivers G (u_socks n) -> delivers (lg G) (u_socks n')).

Definition peer_of n p : Z := match u_socks n !! p with Some s => us_peer s | None => 0 end.
Definition type_of n p : Z := match u_socks n !! p with Some s => us_type s | None => 0 end.

Lemma held_get O n p : inv O n -> p ∈ O -> exists s, u_socks n !! p = Some s /\ get n p = Ok s /\ (p =? 0) = false /\ sock_wf s /\ 0 < p < 2 ^ 64.
Proof.
  intros Hi HpO. destruct (ui_links _ _ _ _ _ Hi) as [Hptr Hwf _ _ _ _ Hheld _]. destruct (Hheld p HpO) as [s Hs].
  exists s. pose proof (Hptr _ _ Hs). unfold get. rewrite Hs. split_and!; [done|done| |by eauto|lia|lia].
  by destruct (Z.eqb_spec p 0); [lia|].
Qed.

Lemma peer_get O n p s : inv O n -> u_socks n !! p = Some s -> us_peer s <> 0 ->
  exists q, u_socks n !! us_peer s = Some q /\ get n (us_peer s) = Ok q /\ sock_wf q /\ us_peer q = p /\ us_peer s <> p.
Proof.
  intros Hi Hs Hn. destruct (ui_links _ _ _ _ _ Hi) as [_ Hwf Hpeer _ _ _ _ _]. destruct (Hpeer _ _ Hs Hn) as (Hne & q & Hq & E).
  exists q. unfold get. rewrite Hq. split_and!; eauto.
Qed.

(** A call that returns without a change. *)
Lemma step_same O n ty : inv O n -> step_ok O n n (fun G => G) ty.
Proof. intros Hi. split; [done|]. by intros _ G HG. Qed.

(** A change of the data of one socket. *)
Lemma step_put O n p s t lg ty : inv O n -> u_socks n !! p = Some s -> same_links s t -> sock_wf t ->
  (ty -> forall G, delivers G (u_socks n) -> delivers (lg G) (<[p := t]> (u_socks n))) -> step_ok O n (put n p t) lg ty.
Proof. intros Hi Hp Hl Ht Hd. split; [|exact Hd]. by eapply uinv_put. Qed.

(** Calls that fail leave the log, calls that succeed extend it. *)
Definition sent_log (r x : Z) (d : list Z) (G : Z -> slog) : Z -> slog := if 0 <=? r then upd G x (log_sent (G x) d) else G.
Definition got_log (r x k : Z) (d : list Z) (G : Z -> slog) : Z -> slog := if 0 <=? r then upd G x (log_got (G x) k d) else G.

Lemma unix_send_ok O n p buf len : inv O n -> p ∈ O -> Forall is_byte buf -> len = zlen buf -> len < 2 ^ 31 ->
  total (fun '(r, n') => step_ok O n n' (sent_log r (peer_of n p) buf) (type_of n (peer_of n p) = 1)) (unix_send p buf len n).
Proof.
  intros Hi HpO Hb Hl Hlen. unfold unix_send. destruct (held_get _ _ _ Hi HpO) as (s & Hs & Eg & -> & Hwf & _).
  rewrite Eg, Ok_bind. destruct (negb _); [by apply step_same|]. destruct (Z.eqb_spec (us_peer s) 0) as [|Hn]; [by apply step_same|].
  destruct (peer_get _ _ _ _ Hi Hs Hn) as (q & Hq & -> & Hwq & _). rewrite Ok_bind. pose proof (zlen_nonneg buf).
  rewrite u32_small by lia. destruct (Z.ltb_spec (ring_space q) len) as [|Hsp]; [by apply step_same|].
  eapply total_bind; [by apply ring_write_both; [apply sw_ring|..]|]. intros t [[Ht Ho] Hh].
  assert (peer_of n p = us_peer s) as Ep by (unfold peer_of; by rewrite Hs). rewrite Ep. unfold type_of. rewrite Hq.
  eapply step_put; [done|done|by apply ring_only_links|by eapply sock_wf_ring|]. intros Ety G HG. unfold sent_log.
  destruct (Z.leb_spec 0 len); [|lia]. eapply delivers_put; [done|done|]. apply queued_stream; [done|by destruct (ring_only_type _ _ Ho); congruence|].
  intros c Hc. apply Hh. split; [done|]. by apply (space_fits _ _ _ Hc).
Qed.

(** The socket to which a datagram goes. *)
Definition sendto_dest n p (path : option (list Z)) (pathlen : Z) : Z :=
  if negb (peer_of n p =? 0) then peer_of n p
  else match path with
       | Some path => match bind_find n path pathlen false with Some b => b_s b | None => 0 end
       | None => 0
       end.

Lemma bind_find_held O n path plen a b : inv O n -> bind_find n path plen a = Some b -> b_s b ∈ O.
Proof.
  intros Hi Hf. unfold bind_find in Hf. destruct (list_find _ _) as [[i b']|] eqn:E; [|done]. injection Hf as <-.
  apply list_find_Some in E as (Hb & Hm & _). pose proof (ui_bound _ _ _ _ _ Hi) as Hbd.
  eapply Forall_lookup_1 in Hbd; [|exact Hb]. apply Hbd. unfold bind_matches in Hm.
  rewrite !andb_true_iff in Hm. destruct Hm as [[[Hm _] _] _]. apply negb_true_iff in Hm. by destruct (Z.eqb_spec (b_s b') 0).
Qed.

Lemma dgram_put_ok O n p buf len dst d : inv O n -> 0 < p < 2 ^ 64 -> u_socks n !! dst = Some d ->
  Forall is_byte buf -> len = zlen buf -> len < 2 ^ 31 ->
  total (fun '(r, n') => step_ok O n n' (sent_log r dst buf) (type_of n dst <> 1)) (dgram_put p buf len dst n).
Proof.
  intros Hi Hpp Hd Hb Hl Hlen. unfold dgram_put, get. rewrite Hd, Ok_bind. destruct (us_state d =? US_CLOSED); [by apply step_same|].
  pose proof (lk_wf _ _ (ui_links _ _ _ _ _ Hi) _ _ Hd) as Hwd. pose proof (zlen_nonneg buf).
  rewrite (u32_small len) by lia. unfold REC_HDR. rewrite (u32_small (len + 16)) by lia. cbv zeta.
  destruct (us_rx_sz d <? len + 16); [by apply step_same|]. destruct (Z.ltb_spec (ring_space d) (len + 16)) as [|Hsp]; [by apply step_same|].
  assert (concat [buf] = buf) as Ec by (cbn; apply app_nil_r).
  pose proof (write_record_both d p [buf] (fun t => ring_write t buf len)) as Hw. rewrite Ec, <- Hl in Hw.
  specialize (Hw (sw_ring _ Hwd) ltac:(lia) ltac:(by constructor) ltac:(lia)).
  specialize (Hw ltac:(intros t Ht; by apply ring_write_both)).
  apply total_Ok in Hw as (u & E & [Hu Ho] & Hfr). apply bind_Ok in E as (t & Et & Eu). unfold REC_HDR in Et. rewrite Et, Ok_bind, Eu, Ok_bind.
  destruct (ring_only_type _ _ Ho) as [Ety _].
  eapply step_put; [done|done| |by apply sock_wf_msg, (sock_wf_ring d)|].
  - destruct (ring_only_links _ _ Ho). by constructor.
  - unfold type_of. rewrite Hd. intros Hty G HG. unfold sent_log. destruct (Z.leb_spec 0 len); [|lia].
    eapply delivers_put; [done|done|]. apply (queued_frame _ _ p); [done|done|]. intros ms Hms. apply Hfr. split; [done|]. unfold REC_HDR. lia.
Qed.

Lemma unix_sendto_ok O n p buf len path pathlen : inv O n -> p ∈ O -> Forall is_byte buf -> len = zlen buf -> len < 2 ^ 31 ->
  total (fun '(r, n') => step_ok O n n' (sent_log r (sendto_dest n p path pathlen) buf) (type_of n (sendto_dest n p path pathlen) <> 1))
        (unix_sendto_dgram p buf len path pathlen n).
Proof.
  intros Hi HpO Hb Hl Hlen. unfold unix_sendto_dgram. destruct (held_get _ _ _ Hi HpO) as (s & Hs & Eg & -> & Hwf & Hpp).
  rewrite Eg, Ok_bind. destruct (us_type s =? 1); [by apply step_same|].
  assert (peer_of n p = us_peer s) as Ep by (unfold peer_of; by rewrite Hs). unfold sendto_dest. rewrite Ep.
  destruct (Z.eqb_spec (us_peer s) 0) as [|Hn]; cbn [negb].
  - destruct path as [path|]; [|by apply step_same]. destruct (Z.leb_spec pathlen 0); [by apply step_same|].
    destruct (Z.ltb_spec pathlen 0); [lia|]. cbv zeta. destruct (bind_find n path pathlen false) as [b|] eqn:Eb; [|by apply step_same].
    destruct (held_get _ _ _ Hi (bind_find_held _ _ _ _ _ _ Hi Eb)) as (d & Hd & _). by eapply dgram_put_ok.
  - destruct (peer_get _ _ _ _ Hi Hs Hn) as (q & Hq & _). by eapply dgram_put_ok.
Qed.
(** Closing files changes neither sockets, names nor heap. *)
Definition same_net n n' : Prop := u_socks n' = u_socks n /\ u_bind n' = u_bind n /\ u_heap n' = u_heap n.

Lemma inv_same_net O n n' : same_net n n' -> inv O n -> inv O n'.
Proof. intros (E1 & E2 & E3). unfold inv. by rewrite E1, E2, E3. Qed.

Lemma scm_consume_ok k : forall s n, sock_wf s -> Z.of_nat k = us_scm_cnt s ->
  total (fun '(t, n') => sock_wf t /\ same_links s t /\ same_data s t /\ same_net n n') (scm_consume k s n).
Proof.
  induction k as [|k IH]; intros s n Hs Hk; cbn [scm_consume].
  { split_and!; [done|apply keeps_links_refl|apply same_data_refl|done]. }
  destruct (scm_first s Hs) as [r ->]. destruct (us_abs_tail s <? scm_off r); [split_and!; [done|apply keeps_links_refl|apply same_data_refl|done]|].
  eapply post_conseq; [apply IH; [apply scm_pop_wf; [done|lia]|cbn; lia]|].
  intros [t n'] (Ht & Hl & Hd & Hn). destruct (scm_same s (zset (us_scm s) (us_scm_head s) (mk_scm (scm_off r) []))
      ((us_scm_head s + 1) mod UNIX_SCM_QLEN) (us_scm_cnt s - 1)).
  split_and!; [done|by eapply keeps_links_trans|by eapply same_data_trans|done].
Qed.

(** A receiver that ends up as [t]. *)
Lemma step_recv O n n1 p s t r k d : inv O n -> same_net n n1 -> u_socks n !! p = Some s -> same_links s t -> sock_wf t ->
  (forall l, carried s l -> 0 <= r /\ carried t (log_got l k d)) -> step_ok O n (put n1 p t) (got_log r p k d) True.
Proof.
  intros Hi (E1 & E2 & E3) Hp Hl Ht Hr. split.
  - unfold inv. cbn. rewrite E1, E2, E3. by eapply uinv_put.
  - intros _ G HG. cbn. rewrite E1. destruct (Hr _ (HG _ _ Hp)) as [Hr0 Hc]. unfold got_log. destruct (Z.leb_spec 0 r); [|lia].
    by eapply delivers_put.
Qed.

(** The end of a stream is logged as nothing received. *)
Lemma step_eof O n p s k : inv O n -> u_socks n !! p = Some s -> us_type s = 1 -> step_ok O n n (got_log 0 p k []) True.
Proof.
  intros Hi Hp Ht. split; [done|]. intros _ G HG x u Hx. unfold got_log, upd. cbn. destruct (Z.eqb_spec x p) as [->|]; [|auto].
  simplify_eq. assert (removed s s k []) as Hr by (apply removed_stream; eauto). apply Hr. auto.
Qed.

Lemma carried_stream s l : us_type s = 1 -> carried s l -> exists q, holds s q.
Proof. intros Ht. unfold carried. rewrite Ht. cbn. intros (q & Hq & _). eauto. Qed.

Lemma unix_recv_ok O n p len : inv O n -> p ∈ O ->
  total (fun '(r, d, n') => step_ok O n n' (got_log r p (u32 len) d) True) (unix_recv p len n).
Proof.
  intros Hi HpO. unfold unix_recv. destruct (held_get _ _ _ Hi HpO) as (s & Hs & Eg & -> & Hwf & _).
  rewrite Eg, Ok_bind. destruct (Z.eqb_spec (us_type s) 1) as [Ety|]; cbn [negb]; [|by apply step_same]. cbv zeta.
  destruct (Z.eqb_spec (ring_used s) 0). { destruct (us_peer s =? 0); [by eapply step_eof|by apply step_same]. }
  assert (0 <= ring_used s < 4294967296 /\ 0 <= u32 len) as [Hu Hl] by (unfold ring_used, u32; mlia).
  set (k := if ring_used s <? u32 len then ring_used s else u32 len).
  assert (0 <= k <= ring_used s) as Hk by (subst k; destruct (Z.ltb_spec (ring_used s) (u32 len)); lia). clearbody k.
  eapply total_bind; [apply ring_read_both; [by apply sw_ring|lia]|]. intros [d t] [(Ht & Ho & Hd) Hh].
  pose proof (sock_wf_ring _ _ Hwf Ho Ht) as Hwt. destruct (ring_only_type _ _ Ho) as [Ett _].
  eapply total_bind; [apply scm_consume_ok; [done|rewrite Z2Nat.id; [done|]; by destruct Hwt; lia]|].
  intros [u n1] (Hwu & Hlu & Hdu & Hn). eapply step_recv; [done|done|done| |done|].
  - eapply keeps_links_trans; [by apply ring_only_links|done].
  - intros l Hc. destruct (carried_stream _ _ Ety Hc) as [q0 Hq0]. rewrite (holds_used _ _ Hq0) in Hk. pose proof (ho_fits _ _ Hq0).
    split; [unfold s32; mlia|]. eapply removed_data; [|done|done]. apply removed_stream; [done|congruence|].
    intros q Hq. assert (zlen q = zlen q0) by (rewrite <- (holds_used _ _ Hq), (holds_used _ _ Hq0); done).
    destruct (Hh q) as [-> ?]; [split; [done|lia]|]. exists (drop (Z.to_nat k) q). by rewrite take_drop.
Qed.

Lemma unix_sendmsg_ok O n p iv fds : inv O n -> p ∈ O -> iov_ok iv -> zlen (concat iv) < 2 ^ 62 -> zlen fds <= UNIX_SCM_MAX ->
  total (fun '(r, n') => step_ok O n n' (sent_log r (peer_of n p) (concat iv)) True) (unix_sendmsg p iv fds n).
Proof.
  intros Hi HpO Hb Hl Hf. unfold unix_sendmsg. destruct (held_get _ _ _ Hi HpO) as (s & Hs & Eg & -> & Hwf & Hpp).
  rewrite Eg, Ok_bind. destruct (negb _); [by apply step_same|]. destruct (Z.eqb_spec (us_peer s) 0) as [|Hn]; [by apply step_same|].
  destruct (peer_get _ _ _ _ Hi Hs Hn) as (q & Hq & -> & Hwq & _). rewrite Ok_bind, iov_total_concat by lia. cbv zeta.
  set (d := concat iv) in *. pose proof (zlen_nonneg d). unfold UNIX_RXBUF_SZ. destruct (Z.ltb_spec (65536 - 16) (zlen d)); [by apply step_same|].
  assert (peer_of n p = us_peer s) as -> by (unfold peer_of; by rewrite Hs). assert (s32 (zlen d) = zlen d) as -> by (unfold s32; mlia).
  rewrite (u32_small (zlen d)) by lia. destruct (Z.eqb_spec (us_type q) 1) as [Ety|Ety].
  - destruct (Z.ltb_spec (ring_space q) (zlen d)) as [|Hsp]; [by apply step_same|].
    eapply total_bind; [apply write_iov_both; [by apply sw_ring|done|fold d; lia]|]. intros t [[Ht Ho] Hh].
    pose proof (sock_wf_ring _ _ Hwq Ho Ht) as Hwt. destruct (ring_only_type _ _ Ho) as [Ett _].
    apply total_bind with (Q := fun '(u, n1) => sock_wf u /\ same_links t u /\ same_data t u /\ same_net n n1).
    { destruct (0 <? zlen fds); [|split_and!; [done|apply keeps_links_refl|apply same_data_refl|done]].
      eapply total_bind; [by apply scm_push_ok|]. intros [u|] Hu; [destruct Hu as (? & ? & ?); by split_and!|].
      split_and!; [done|apply keeps_links_refl|apply same_data_refl|done]. }
    intros [u n1] (Hwu & Hlu & Hdu & E1 & E2 & E3). split.
    + unfold inv. cbn. rewrite E1, E2, E3. eapply uinv_put; [done|done| |done]. eapply keeps_links_trans; [by apply ring_only_links|done].
    + intros _ G HG. cbn. rewrite E1. unfold sent_log. destruct (Z.leb_spec 0 (zlen d)); [|lia].
      eapply delivers_put; [done|done|]. intros Hc. eapply carried_same; [done|]. revert Hc. apply queued_stream; [done|congruence|].
      intros c Hc. apply Hh. split; [done|]. by apply (space_fits _ _ _ Hc).
  - unfold REC_HDR. rewrite (u32_small (zlen d + 16)) by lia. destruct (us_rx_sz q <? zlen d + 16); [by apply step_same|].
    destruct (Z.ltb_spec (ring_space q) (zlen d + 16)) as [|Hsp]; [by apply step_same|].
    pose proof (write_record_both q p iv (fun t => write_iov t iv) (sw_ring _ Hwq) ltac:(lia) Hb ltac:(subst d; lia)
      ltac:(intros t Ht; apply write_iov_both; [done|done|subst d; lia])) as Hw.
    apply total_Ok in Hw as (u & E & [Hu Ho] & Hfr). apply bind_Ok in E as (t & Et & Eu). unfold REC_HDR in Et. fold d in Et.
    rewrite Et, Ok_bind, Eu, Ok_bind. destruct (ring_only_type _ _ Ho) as [Ett _].
    eapply step_put; [done|done| |by apply sock_wf_msg, (sock_wf_ring q)|].
    + destruct (ring_only_links _ _ Ho). by constructor.
    + intros _ G HG. unfold sent_log. destruct (Z.leb_spec 0 (zlen d)); [|lia]. eapply delivers_put; [done|done|].
      apply (queued_frame _ _ p); [done|done|]. intros ms Hms. apply Hfr. split; [done|]. unfold REC_HDR. fold d. lia.
Qed.
(** ** A block for the time of the call *)

Lemma uinv_heap O m b h h' : uinv B O m b h -> (forall L, kh_live h L -> kh_live h' L) -> uinv B O m b h'.
Proof. intros [Hl Hb Ha (L & HL & HLB) Ho] Hh. constructor; eauto. Qed.

Lemma stage_malloc O n k : inv O n -> 0 <= k <= 2 ^ 62 ->
  total (fun '(stage, h) => if stage =? 0 then inv O (with_heap n h)
           else total (fun h' => inv O (with_heap n h')) (kh_free h stage)) (kh_malloc (u_heap n) k).
Proof.
  intros Hi Hk. pose proof Hi as [Hl Hb Ha (L & HL & HLB) Ho].
  eapply post_conseq; [by apply (kh_malloc_live (u_heap n) L)|]. intros [stage h] [[-> Hh]|(Hp & HpL & Hh)].
  - cbn. constructor; eauto.
  - destruct (Z.eqb_spec stage 0); [lia|]. eapply post_conseq; [apply (kh_free_live _ _ _ Hh); by apply elem_of_union_l, elem_of_singleton|].
    intros h' Hh'. assert (({[stage]} ∪ L) ∖ {[stage]} = L) as E by (apply set_eq; intros x;
      rewrite elem_of_difference, elem_of_union, elem_of_singleton; split; [tauto|intros Hx; split; [by right|by intros ->]]).
    cbv beta in Hh'. rewrite E in Hh'. constructor; eauto.
Qed.

Lemma framed_pop_both s cap len : ring_wf s -> u32 len <= cap ->
  total (fun x => (ring_wf x.2 /\ ring_cnt s x.2) /\
           forall f, frames s (f.1 :: f.2) -> x.1.1.1 = Z.min (zlen f.1.2) (u32 len) /\ x.1.1.2 = take (Z.to_nat (u32 len)) f.1.2 /\ frames x.2 f.2)
        (framed_pop s cap len).
Proof.
  intros Hw Hc. apply (total_both _ (fun f : msg * list msg => frames s (f.1 :: f.2))).
  - eapply post_conseq; [by apply framed_pop_safe|]. intros [[[r d] src] t] (? & ? & _). done.
  - intros [[src d] ms] Hf. eapply post_conseq; [by apply framed_pop_frames|]. intros [[[r d'] src'] t] (? & ? & _ & ? & _). done.
Qed.

Lemma u32_s32 z : u32 (s32 z) = u32 z.
Proof. unfold u32, s32. mlia. Qed.

Lemma unix_recvmsg_ok O n p lens : inv O n -> p ∈ O -> Forall (fun l => 0 <= l) lens -> foldr Z.add 0 lens <= 2 ^ 62 ->
  total (fun '(r, data, fds, n') => step_ok O n n' (got_log r p (u32 (iov_total lens)) (concat data)) True /\ zlen fds <= UNIX_SCM_MAX)
        (unix_recvmsg p lens n).
Proof.
  intros Hi HpO Hl Hsum. unfold unix_recvmsg. destruct (held_get _ _ _ Hi HpO) as (s & Hs & Eg & -> & Hwf & Hpp).
  assert (zlen (@nil Z) <= UNIX_SCM_MAX) as Hnil by (unfold zlen, UNIX_SCM_MAX; cbn; lia).
  rewrite Eg, Ok_bind. destruct (Z.eqb_spec (us_type s) 1) as [Ety|Ety].
  - destruct (Z.eqb_spec (ring_used s) 0). { destruct (us_peer s =? 0); (split; [|done]); [by eapply step_eof|by apply step_same]. }
    eapply total_bind; [by apply read_iov_both; [apply sw_ring|]|]. intros [[data tot] t] [[Ht Ho] Hh].
    pose proof (sock_wf_ring _ _ Hwf Ho Ht) as Hwt. destruct (ring_only_type _ _ Ho) as [Ett _].
    eapply total_bind; [apply scm_deliver_ok; [done|rewrite Z2Nat.id; [done|]; by destruct Hwt; lia|done]|].
    intros [u fds] (Hwu & Hlu & Hdu & Hf). split; [|done]. eapply step_recv; [done|done|done| |done|].
    + eapply keeps_links_trans; [by apply ring_only_links|done].
    + intros l Hc. destruct (carried_stream _ _ Ety Hc) as [q0 Hq0]. pose proof (ho_fits _ _ Hq0).
      destruct (Hh _ Hq0) as (q1 & Eq & _ & Et). rewrite Et by lia. rewrite Eq, zlen_app in *. pose proof (zlen_nonneg (concat data)). pose proof (zlen_nonneg q1).
      split; [unfold s32; mlia|]. eapply removed_data; [|done|done]. apply removed_stream; [done|congruence|].
      intros q Hq. destruct (Hh _ Hq) as (q' & ? & ? & _). eauto.
  - destruct (Z.eqb_spec (us_msg_cnt s) 0) as [|Hcnt]; [split; [by apply step_same|done]|].
    assert (0 <= foldr Z.add 0 lens) as Hpos by (clear -Hl; induction Hl; cbn; lia).
    rewrite iov_total_sum by (done || lia). set (T0 := foldr Z.add 0 lens) in *.
    destruct (Z.eqb_spec T0 0); [split; [by apply step_same|done]|].
    eapply total_bind; [by apply stage_malloc|]. intros [stage h] Hst. destruct (stage =? 0).
    { split; [|done]. split; [done|]. by intros _ G HG. }
    assert (u32 (s32 T0) <= T0) as Hcap by (rewrite u32_s32; unfold u32; mlia).
    eapply total_bind; [by apply framed_pop_both; [apply sw_ring|]|]. intros [[[r d] src] t] [[Ht Ho] Hh]. cbn [fst snd] in *. rewrite u32_s32 in *.
    eapply total_bind; [exact Hst|]. intros h' Hi'.
    assert (step_ok O n (put (with_heap n h') p t) (got_log r p (u32 T0) (concat (scatter lens d))) True) as Hstep.
    { split; [|intros _ G HG].
      - eapply (uinv_put B O _ _ _ p s t Hi' Hs); [by apply ring_cnt_links|by eapply sock_wf_ring_cnt].
      - assert (0 <= r /\ carried t (log_got (G p) (u32 T0) (concat (scatter lens d)))) as [Hr0 Hc].
        { pose proof (HG _ _ Hs) as Hc. assert (exists f, frames s (f.1 :: f.2)) as [f Hf].
          { unfold carried in Hc. destruct (Z.eqb_spec (us_type s) 1); [done|]. destruct Hc as (taken & ms & Hf & _).
            destruct ms as [|m ms]; [by rewrite (fr_count _ _ Hf) in Hcnt|by exists (m, ms)]. }
          destruct (Hh f Hf) as (Er & Ed & _). pose proof (zlen_nonneg f.1.2). assert (0 <= u32 T0 <= T0) by (unfold u32; mlia).
          split; [lia|]. rewrite scatter_concat; [|done|]; cycle 1.
          { rewrite Ed. unfold zlen in *. rewrite length_take. fold T0. lia. }
          revert Hc. apply removed_frame; [done|by apply ring_cnt_type|done|].
          intros src' f' ms' Hf'. destruct (Hh ((src', f'), ms') Hf') as (_ & -> & ?). done. }
        unfold got_log. destruct (Z.leb_spec 0 r); [|lia]. by eapply delivers_put. }
    destruct (Z.ltb_spec r 0); split; [|done|done|done]. destruct Hstep as [Hs1 Hs2]. split; [done|]. intros Ht1 G HG. specialize (Hs2 Ht1 G HG).
    unfold got_log in *. destruct (Z.leb_spec 0 r); [lia|done].
Qed.
End calls.
