(* ===== verification/UnixLinks.v ===== *)
(** * UnixLinks: creating, naming, connecting and closing Unix sockets

    The calls that change links keep the invariant of [UnixInv] and the logs
    of [UnixCalls]; closing frees exactly the socket and the connections that
    wait at it. *)

From S2P Require Import Prelude UnixSock UnixRing UnixInv UnixCalls.

(** ** The queue of waiting connections *)

Lemma pends_push s pend c : sock_wf s -> us_pend_cnt s < UNIX_BACKLOG ->
  st (us_pend s) ((us_pend_head s + us_pend_cnt s) mod UNIX_BACKLOG) c = Ok pend ->
  pends (set_pend s pend (us_pend_head s) (us_pend_cnt s + 1)) = pends s ++ [c] /\
  sock_wf (set_pend s pend (us_pend_head s) (us_pend_cnt s + 1)).
Proof.
  intros Hs Hc Hst. pose proof Hs as [_ Hl Hh Hn _ _ _ _ _ _ _]. unfold UNIX_BACKLOG in *.
  rewrite st_ok in Hst by (rewrite Hl; mlia). injection Hst as <-. split.
  - unfold pends, UNIX_BACKLOG. cbn [us_pend us_pend_head us_pend_cnt set_pend]. rewrite Z.add_1_r, seqZ_succ, fmap_app by lia. f_equal.
    + apply list_fmap_ext. intros k i Hi. apply lookup_seqZ in Hi as [-> Hi]. rewrite zget_zset_ne; [done|mlia].
    + cbn. rewrite zget_zset_eq by (rewrite Hl; mlia). done.
  - destruct Hs as [[]]. constructor; cbn; unfold UNIX_BACKLOG in *; rewrite ?zlen_zset; try done; lia.
Qed.

Lemma pends_pop s pend c : sock_wf s -> 0 < us_pend_cnt s -> zget (us_pend s) (us_pend_head s) = Some c ->
  (forall i, i <> us_pend_head s -> zget pend i = zget (us_pend s) i) -> zlen pend = UNIX_BACKLOG ->
  let t := set_pend s pend ((us_pend_head s + 1) mod UNIX_BACKLOG) (us_pend_cnt s - 1) in pends s = c :: pends t /\ sock_wf t.
Proof.
  intros Hs Hc Hz Hk Hl t. pose proof Hs as [_ _ Hh Hn _ _ _ _ _ _ _]. unfold UNIX_BACKLOG in *. split.
  - unfold pends, UNIX_BACKLOG. subst t. cbn [us_pend us_pend_head us_pend_cnt set_pend]. unfold UNIX_BACKLOG.
    replace (us_pend_cnt s) with (Z.succ (us_pend_cnt s - 1)) at 1 by lia. rewrite seqZ_cons by lia. cbn [fmap list_fmap].
    rewrite Z.add_0_r, Z.mod_small, Hz by lia. cbn [default]. f_equal. replace (Z.pred (Z.succ (us_pend_cnt s - 1))) with (us_pend_cnt s - 1) by lia.
    change (Z.succ 0) with (1 + 0). rewrite <- fmap_add_seqZ, <- list_fmap_compose. apply list_fmap_ext. intros k i Hi. apply lookup_seqZ in Hi as [-> Hi]. unfold compose.
    replace (((us_pend_head s + 1) mod 16 + (0 + Z.of_nat k)) mod 16) with ((us_pend_head s + (1 + (0 + Z.of_nat k))) mod 16) by mlia.
    rewrite Hk; [done|mlia].
  - destruct Hs as [[]]. subst t. constructor; cbn; unfold UNIX_BACKLOG in *; try done; mlia.
Qed.

Lemma pends_nth s i : sock_wf s -> 0 <= i < us_pend_cnt s ->
  exists c, zget (us_pend s) ((us_pend_head s + i) mod UNIX_BACKLOG) = Some c /\ pends s !! Z.to_nat i = Some c.
Proof.
  intros [_ Hl Hh Hn _ _ _ _ _ _ _] Hi. unfold UNIX_BACKLOG in *.
  destruct (zget_in_range (us_pend s) ((us_pend_head s + i) mod 16)) as [c Hc]; [rewrite Hl; mlia|]. exists c. split; [done|].
  unfold pends, UNIX_BACKLOG. rewrite list_lookup_fmap, lookup_seqZ_lt by lia. rewrite Z2Nat.id, Z.add_0_l by lia.
  cbn [fmap option_fmap option_map]. by rewrite Hc.
Qed.

Lemma pends_len s : sock_wf s -> Z.of_nat (length (pends s)) = us_pend_cnt s.
Proof. intros [_ _ _ Hn _ _ _ _ _ _ _]. unfold pends. rewrite length_fmap, length_seqZ. lia. Qed.

(** ** New sockets *)

Lemma delivers_fresh G m p t : delivers G m -> carried t no_log -> delivers (upd G p no_log) (<[p := t]> m).
Proof.
  intros Hd Ht x u Hx. unfold upd. apply lookup_insert_Some in Hx as [[<- <-]|[Hne Hx]]; [by rewrite Z.eqb_refl|].
  destruct (Z.eqb_spec x p); [by subst|auto].
Qed.

Lemma new_sock_ok type rx_ptr rx : zlen rx = UNIX_RXBUF_SZ -> Forall is_byte rx ->
  let t := new_sock type rx_ptr rx in sock_wf t /\ us_peer t = 0 /\ pends t = [] /\ carried t no_log.
Proof.
  intros Hl Hb t. assert (ring_wf t) as Hr by (constructor; cbn; (done || lia)). split_and!; [|done|done|].
  - constructor; cbn; unfold UNIX_BACKLOG, UNIX_SCM_QLEN; try done; try lia. by apply Forall_replicate.
  - apply carried_new; [done|]. constructor; cbn; try done. intros k Hk. unfold zlen in Hk. cbn in Hk. lia.
Qed.

Lemma delivers_forget G m a l : delivers (upd G a l) m -> m !! a = None -> delivers G m.
Proof.
  intros Hd Ha x u Hx. specialize (Hd x u Hx). unfold upd in Hd. destruct (Z.eqb_spec x a) as [->|]; [congruence|done].
Qed.

Section links.
Context {H : Type} {KH : KernelHeap H} (B : gset Z).
Implicit Types (n : unet H) (O : gset Z) (p : Z).
Notation inv := (inv B).
Notation step_ok := (step_ok B).

Definition created O n r n' : Prop :=
  if r =? 0 then inv O n' /\ u_socks n' = u_socks n
  else exists t, inv ({[r]} ∪ O) n' /\ u_socks n !! r = None /\ u_socks n' = <[r := t]> (u_socks n) /\
         us_peer t = 0 /\ pends t = [] /\ sock_wf t /\ carried t no_log /\ us_name_len t = 0 /\ us_state t = US_IDLE /\ 0 < r.

Lemma unix_socket_create_ok O n type : inv O n ->
  total (fun '(r, n') => created O n r n' /\ u_bind n' = u_bind n) (unix_socket_create type n).
Proof.
  intros Hi. pose proof Hi as [Hl Hb Ha (L & HL & HLB) Ho]. unfold unix_socket_create, created.
  eapply total_bind; [apply (kh_malloc_live _ L); [done|unfold SIZEOF_UNIX_SOCK; lia]|]. intros [p h] Hp.
  destruct (Z.eqb_spec p 0) as [->|Hp0].
  { destruct Hp as [[_ Hh]|[? _]]; [|lia]. cbn. split; [|done]. split; [|done]. constructor; eauto. }
  destruct Hp as [[? _]|(Hpp & HpL & Hh)]; [done|].
  eapply total_bind; [apply (kh_malloc_live h ({[p]} ∪ L)); [done|unfold UNIX_RXBUF_SZ; lia]|]. intros [rx h1] Hr.
  destruct (Z.eqb_spec rx 0) as [->|Hr0].
  { destruct Hr as [[_ Hh1]|[? _]]; [|lia].
    eapply total_bind; [apply (kh_free_live _ _ p Hh1); by apply elem_of_union_l, elem_of_singleton|]. intros h2 Hh2. cbn. split; [|done]. split; [|done].
    constructor; [done..| |done]. rewrite add_remove in Hh2 by done. eauto. }
  destruct Hr as [[? _]|(Hrr & HrL & Hh1)]; [done|]. cbn. destruct (Z.eqb_spec p 0); [done|]. split; [|done].
  destruct (kh_bytes_ok h1 rx UNIX_RXBUF_SZ) as [Hbl Hbb]; [done|].
  destruct (new_sock_ok type rx _ Hbl Hbb) as (Hw & Hq & Hd & Hc).
  eexists. split_and!; [|destruct (u_socks n !! p) as [u|] eqn:E; [|done]; destruct HpL; apply HLB; right; exists p, u; auto|done..|lia].
  by eapply uinv_alloc.
Qed.

(** ** Names *)

Lemma uinv_bind O m b b' (h : H) : uinv B O m b h -> bound_ok O b' -> uinv B O m b' h.
Proof. intros [] Hb. by constructor. Qed.

Lemma sock_wf_name s name len a : sock_wf s -> sock_wf (set_name s name len a) /\ same_links s (set_name s name len a) /\ same_data s (set_name s name len a).
Proof. intros [[]]. split_and!; [by constructor|by constructor|by repeat split]. Qed.

Lemma unix_bind_ok O n p path pathlen : inv O n -> p ∈ O -> total (fun '(r, n') => step_ok O n n' (fun G => G) True) (unix_bind p path pathlen n).
Proof.
  intros Hi HpO. unfold unix_bind. destruct (held_get _ _ _ _ Hi HpO) as (s & Hs & Eg & -> & Hwf & _). rewrite Eg, Ok_bind.
  destruct (negb _); [by apply step_same|]. destruct (pathlen =? 0); [by apply step_same|]. cbv zeta.
  set (plen := if pathlen <? 0 then - pathlen else pathlen). destruct (UNIX_PATH_MAX <? plen); [by apply step_same|].
  destruct (bind_find _ _ _ _); [by apply step_same|]. destruct (list_find _ _) as [[i b]|]; [|by apply step_same].
  destruct (sock_wf_name s (take (Z.to_nat plen) path) plen (pathlen <? 0) Hwf) as (Hw & Hl & Hd). split.
  - eapply uinv_bind; [by eapply uinv_put|]. apply Forall_insert; [exact (ui_bound _ _ _ _ _ Hi)|]. done.
  - intros _ G HG. eapply delivers_keep; [done|done|]. by apply carried_same.
Qed.

Lemma unix_unlink_path_ok O n path : inv O n -> step_ok O n (unix_unlink_path path n).2 (fun G => G) True.
Proof.
  intros Hi. unfold unix_unlink_path. destruct (_ || _); [by apply step_same|]. destruct (list_find _ _) as [[i b]|]; [|by apply step_same].
  split; [|by intros _ G HG]. eapply uinv_bind; [done|]. by apply Forall_insert; [exact (ui_bound _ _ _ _ _ Hi)|].
Qed.

(** ** Listening and accepting *)

Lemma unix_listen_ok O n p backlog : inv O n -> p ∈ O -> total (fun '(r, n') => step_ok O n n' (fun G => G) True) (unix_listen p backlog n).
Proof.
  intros Hi HpO. unfold unix_listen. destruct (held_get _ _ _ _ Hi HpO) as (s & Hs & Eg & -> & Hwf & _). rewrite Eg, Ok_bind.
  destruct (_ && _); [by apply step_same|]. destruct (us_name_len s =? 0); [by apply step_same|].
  destruct (Z.eqb_spec (us_state s) US_IDLE) as [Est|]; cbn [negb]; [|by apply step_same]. cbv zeta.
  set (bl := if UNIX_BACKLOG <? _ then _ else _). assert (bl <= UNIX_BACKLOG) as Hbl.
  { subst bl. destruct (Z.ltb_spec UNIX_BACKLOG (if 0 <? backlog then backlog else 1)); lia. }
  clearbody bl. eapply step_put; [done|done|by constructor| |].
  - pose proof (sw_peer _ Hwf) as Hsp. destruct Hwf as [[]]. constructor; cbn; try done. intros Hn. specialize (Hsp Hn). by rewrite Est in Hsp.
  - intros _ G HG. eapply delivers_keep; [done|done|]. by apply carried_same.
Qed.

Lemma unix_accept_ok O n p : inv O n -> p ∈ O ->
  total (fun '(c, n') => step_ok (if c =? 0 then O else {[c]} ∪ O) n n' (fun G => G) True) (unix_accept p n).
Proof.
  intros Hi HpO. unfold unix_accept. destruct (held_get _ _ _ _ Hi HpO) as (s & Hs & Eg & -> & Hwf & _). rewrite Eg, Ok_bind.
  destruct (negb _); [by apply step_same|]. destruct (Z.eqb_spec (us_pend_cnt s) 0); [by apply step_same|].
  pose proof Hwf as [_ Hl Hh Hn _ _ _ _ _ _ _].
  destruct (zget_in_range (us_pend s) (us_pend_head s)) as [c Hc]; [lia|]. rewrite (ld_ok _ _ _ Hc), Ok_bind, st_ok, Ok_bind by lia.
  destruct (pends_pop s (zset (us_pend s) (us_pend_head s) 0) c Hwf) as [Epd Hwt];
    [lia|done|intros i Hne; by apply zget_zset_ne|by rewrite zlen_zset|].
  pose proof (lk_pend _ _ (ui_links _ _ _ _ _ Hi) p s c Hs ltac:(rewrite Epd; left)) as (_ & tc & Htc & _).
  pose proof (lk_ptr _ _ (ui_links _ _ _ _ _ Hi) _ _ Htc). unfold total, post. cbv beta iota. destruct (Z.eqb_spec c 0); [lia|]. split.
  - by eapply uinv_pop.
  - intros _ G HG. eapply delivers_keep; [done|done|]. by apply carried_same.
Qed.

(** ** Connecting *)

Lemma sock_wf_connect s x : sock_wf s -> sock_wf (set_state (set_peer s x) US_CONNECTED).
Proof. intros [[]]. by constructor. Qed.

Lemma get_ok n p s : u_socks n !! p = Some s -> get n p = Ok s.
Proof. unfold get. by intros ->. Qed.

Lemma peer_state_free s : sock_wf s -> us_state s <> US_CONNECTED -> us_peer s = 0.
Proof. intros Hw Hn. destruct (decide (us_peer s = 0)) as [|Hp]; [done|]. by destruct (Hn (sw_peer _ Hw Hp)). Qed.

(** A new socket that is named and connected. *)
Definition dressed (t c : unix_sock) (p : Z) : Prop := us_peer c = p /\ same_blocks t c /\ pends c = pends t /\ same_data t c /\ sock_wf c.

Lemma fill_cred_dressed (n : unet H) t p name len a nm : sock_wf t ->
  let c := fill_cred n (set_peer (set_state t US_CONNECTED) p) in dressed t (if nm : bool then c else set_name c name len a) p.
Proof. intros [[]]. unfold dressed, same_data. destruct nm; cbn; split_and!; try done; by constructor. Qed.

(** The last part of [unix_connect]: the new socket [c] and the client know each
    other, and [c] waits at the listener. *)
Lemma connect_join O n n1 p l child s lsn t c : inv O n -> u_socks n !! p = Some s -> u_socks n !! l = Some lsn -> l ∈ O ->
  us_state s <> US_CONNECTED -> us_pend_cnt lsn < us_backlog lsn -> 0 < child -> u_socks n !! child = None ->
  inv ({[child]} ∪ O) n1 -> u_socks n1 = <[child := t]> (u_socks n) -> u_bind n1 = u_bind n ->
  us_peer t = 0 -> pends t = [] -> carried t no_log -> dressed t c p ->
  total (fun '(r, n') => step_ok O n n' (fun G => if r =? 0 then upd G (peer_of n' p) no_log else G) True)
    (let n2 := put (put n1 child c) p (set_state (set_peer s child) US_CONNECTED) in
     lsn ← get n2 l;
     pend ← st (us_pend lsn) ((us_pend_head lsn + us_pend_cnt lsn) mod UNIX_BACKLOG) child;
     Ok (0, unix_wake (put n2 l (set_pend lsn pend (us_pend_head lsn) (us_pend_cnt lsn + 1))))).
Proof.
  intros Hi Hs Hlsn HlO Hst Hroom Hcpos Hfresh Hi1 E1 Ebn Hpt Hdt Hct (Hcpeer & Hcb & Hcpd & Hcd & Hcw).
  pose proof (lk_wf _ _ (ui_links _ _ _ _ _ Hi)) as Hw. pose proof (Hw _ _ Hs) as Hwf. pose proof (Hw _ _ Hlsn) as Hwl.
  assert (child <> p) as Hcp by congruence. assert (child <> l) as Hcl by congruence. cbv zeta.
  set (s' := set_state (set_peer s child) US_CONNECTED). set (m1 := <[child := t]> (u_socks n)) in *.
  set (n2 := put (put n1 child c) p s'). assert (u_socks n2 = <[p := s']> (<[child := c]> m1)) as E2 by (subst n2; cbn; by rewrite E1).
  assert (uinv B ({[child]} ∪ O) (u_socks n2) (u_bind n1) (u_heap n1)) as Hi2.
  { rewrite E2. apply (uinv_repeer B _ m1 _ _ child p t s c s'); try done.
    - unfold inv in Hi1. by rewrite E1 in Hi1.
    - subst m1. apply lookup_insert_eq.
    - subst m1. by rewrite lookup_insert_ne.
    - left. split; [done|]. by apply peer_state_free.
    - right. done.
    - by apply sock_wf_connect. }
  assert (exists lsn', u_socks n2 !! l = Some lsn' /\ sock_wf lsn' /\ us_pend_cnt lsn' = us_pend_cnt lsn) as (lsn' & Hl2 & Hwl2 & Epc).
  { rewrite E2. destruct (decide (l = p)) as [E|].
    - exists s'. rewrite E, lookup_insert_eq. rewrite E in Hlsn. simplify_eq. split_and!; try done. by apply sock_wf_connect.
    - exists lsn. subst m1. rewrite !lookup_insert_ne by done. done. }
  rewrite (get_ok _ l lsn') by done. rewrite Ok_bind.
  pose proof (sw_backlog _ Hwl) as Hbl. pose proof (sw_pend_cnt _ Hwl2). pose proof (sw_pend_head _ Hwl2). pose proof (sw_pend _ Hwl2) as Hpl.
  assert (0 <= (us_pend_head lsn' + us_pend_cnt lsn') mod UNIX_BACKLOG < zlen (us_pend lsn')) as Hix by (rewrite Hpl; unfold UNIX_BACKLOG; mlia).
  pose proof (st_ok (us_pend lsn') _ child Hix) as Est. destruct (pends_push lsn' _ child Hwl2 ltac:(lia) Est) as [Epush Hwp].
  rewrite Est, Ok_bind. set (lsn2 := set_pend lsn' _ _ _) in *.
  assert (u_socks n2 !! child = Some c) as Hc2 by (rewrite E2, lookup_insert_ne by done; apply lookup_insert_eq).
  assert (peer_of (unix_wake (put n2 l lsn2)) p = child) as Epeer.
  { unfold peer_of. cbn. destruct (decide (l = p)) as [E|].
    - rewrite <- E, lookup_insert_eq. cbn. rewrite E, E2, lookup_insert_eq in Hl2. by injection Hl2 as <-.
    - rewrite lookup_insert_ne, lookup_insert_eq by done. done. }
  assert (child ∉ O) as HcO by (intros HO; destruct (lk_held _ _ (ui_links _ _ _ _ _ Hi) _ HO); congruence).
  unfold total, post. cbv beta iota. rewrite Epeer. split.
  - rewrite <- (add_remove child O HcO).
    apply (uinv_push B _ _ _ _ l lsn' lsn2 child c Hi2); try done; [by apply elem_of_union_r|by apply elem_of_union_l, elem_of_singleton| |congruence].
    rewrite Ebn. eapply Forall_impl; [|exact (ui_bound _ _ _ _ _ Hi)]. intros x Hx E. apply HcO. rewrite <- E. apply Hx. lia.
  - intros _ G HG. change (u_socks (unix_wake (put n2 l lsn2))) with (<[l := lsn2]> (u_socks n2)).
    eapply delivers_keep; [|done|by apply carried_same]. rewrite E2. eapply delivers_keep; [|by rewrite lookup_insert_ne; [subst m1; rewrite lookup_insert_ne|]|by apply carried_same].
    eapply delivers_keep; [|apply lookup_insert_eq|by apply carried_same]. by apply delivers_fresh.
Qed.

Lemma unix_connect_ok O n p path pathlen : inv O n -> p ∈ O ->
  total (fun '(r, n') => step_ok O n n' (fun G => if r =? 0 then upd G (peer_of n' p) no_log else G) True) (unix_connect p path pathlen n).
Proof.
  intros Hi HpO. unfold unix_connect. destruct (held_get _ _ _ _ Hi HpO) as (s & Hs & Eg & -> & Hwf & _). rewrite Eg, Ok_bind.
  destruct (Z.eqb_spec (us_state s) US_CONNECTED) as [|Hst]; [by apply step_same|]. cbv zeta.
  set (plen := if pathlen <? 0 then - pathlen else pathlen). destruct (_ || _); [by apply step_same|].
  destruct (bind_find n path plen (pathlen <? 0)) as [b|] eqn:Eb; [|by apply step_same].
  pose proof (bind_find_held _ _ _ _ _ _ _ Hi Eb) as HlO. set (l := b_s b) in *.
  destruct (held_get _ _ _ _ Hi HlO) as (lsn & Hlsn & -> & _ & Hwl & _). rewrite Ok_bind.
  destruct (negb _); [by apply step_same|]. destruct (Z.leb_spec (us_backlog lsn) (us_pend_cnt lsn)) as [|Hroom]; [by apply step_same|].
  eapply total_bind; [by apply unix_socket_create_ok|]. intros [child n1] [Hcr Ebn]. unfold created in Hcr.
  destruct (Z.eqb_spec child 0) as [->|Hc0].
  { destruct Hcr as [Hi1 E1]. split; [done|]. intros _ G HG. cbn. by rewrite E1. }
  destruct Hcr as (t & Hi1 & Hfresh & E1 & Hpt & Hdt & Hwt & Hct & _ & _ & Hcpos).
  assert (child <> p) as Hcp by congruence.
  rewrite (get_ok n1 child t), Ok_bind by (by rewrite E1, lookup_insert_eq).
  set (c := if us_name_len lsn =? 0 then _ else _).
  assert (dressed t c p) as Hdr by (subst c; by apply fill_cred_dressed).
  clearbody c. rewrite (get_ok _ p s), Ok_bind by (cbn; by rewrite E1, !lookup_insert_ne).
  by apply (connect_join O n n1 p l child s lsn t c).
Qed.

(** ** Closing *)

(** Losing the peer changes neither data nor queue. *)
Lemma set_peer_same s : same_data s (set_peer s 0) /\ pends (set_peer s 0) = pends s /\ same_blocks s (set_peer s 0).
Proof. by repeat split. Qed.

Lemma sock_wf_unpeer s : sock_wf s -> sock_wf (set_peer s 0).
Proof. intros [[]]. by constructor. Qed.

(** Cutting the socket [c] off its peer in the map [m]. *)
Definition cut (m : gmap Z unix_sock) (c : Z) (t : unix_sock) : gmap Z unix_sock :=
  if us_peer t =? 0 then m else <[us_peer t := set_peer (default t (m !! us_peer t)) 0]> (<[c := set_peer t 0]> m).

Lemma uinv_cut O m b (h : H) c t : uinv B O m b h -> m !! c = Some t ->
  uinv B O (cut m c t) b h /\ cut m c t !! c = Some (set_peer t 0) /\ (forall G, delivers G m -> delivers G (cut m c t)).
Proof.
  intros Hi Hc. unfold cut. destruct (Z.eqb_spec (us_peer t) 0) as [E|Hn].
  { split_and!; [done| |done]. rewrite Hc. f_equal. destruct t. cbn in *. by subst. }
  destruct (lk_peer _ _ (ui_links _ _ _ _ _ Hi) _ _ Hc Hn) as (Hne & q & Hq & Eq). rewrite Hq. cbn [default].
  pose proof (lk_wf _ _ (ui_links _ _ _ _ _ Hi)) as Hw. split_and!.
  - eapply (uinv_repeer B O m _ _ c (us_peer t) t q); try done; [right; done|left; done|apply sock_wf_unpeer; eauto..].
  - rewrite lookup_insert_ne by done. apply lookup_insert_eq.
  - intros G HG. eapply delivers_keep; [|by rewrite lookup_insert_ne|by apply carried_same].
    eapply delivers_keep; [done|done|by apply carried_same].
Qed.

(** The state of the loop over the waiting connections of [p]: the memory is
    that of a well linked [m] in which [p] has lost its peer and the connections
    handled so far, except that the fields of [p] itself are still [s]. *)
Record closing (O : gset Z) (p : Z) (s : unix_sock) (kids : list Z) (m : gmap Z unix_sock) (n : unet H) : Prop := {
  cl_inv : uinv B O m (u_bind n) (u_heap n);
  cl_held : p ∈ O;
  cl_socks : u_socks n = <[p := s]> m;
  cl_self : exists sp, m !! p = Some sp /\ us_peer sp = 0 /\ pends sp = kids /\ us_rx_ptr sp = us_rx_ptr s;
}.

Definition refuse_one (child : Z) (n : unet H) : res (unet H) :=
  if child =? 0 then Ok n else
  c ← get n child;
  n ← (if us_peer c =? 0 then Ok n else q ← get n (us_peer c); Ok (put n (us_peer c) (set_peer q 0)));
  kfree_sock n child c.

Lemma refuse_one_ok O p s c kids m n : closing O p s (c :: kids) m n ->
  total (fun n' => exists m', closing O p s kids m' n' /\ u_bind n' = u_bind n /\ forall G, delivers G m -> delivers G m') (refuse_one c n).
Proof.
  intros [Hi HpO Esk (sp & Hsp & Hpeer & Hkids & Hrx)].
  pose proof (ui_links _ _ _ _ _ Hi) as Hl. pose proof (lk_wf _ _ Hl _ _ Hsp) as Hwsp.
  destruct (lk_pend _ _ Hl p sp c Hsp ltac:(rewrite Hkids; left)) as (HcO & t & Hc & Hpt). pose proof (lk_ptr _ _ Hl _ _ Hc).
  assert (c <> p) as Hcp by congruence.
  set (sp1 := set_pend sp (us_pend sp) ((us_pend_head sp + 1) mod UNIX_BACKLOG) (us_pend_cnt sp - 1)).
  assert (pends sp = c :: pends sp1 /\ sock_wf sp1) as [Epd Hw1].
  { assert (0 < us_pend_cnt sp) by (rewrite <- (pends_len _ Hwsp), Hkids; cbn; lia).
    destruct (pends_nth sp 0 Hwsp ltac:(lia)) as (c' & Hz & Hc'). rewrite Hkids in Hc'. injection Hc' as <-.
    rewrite Z.add_0_r, Z.mod_small in Hz by apply (sw_pend_head _ Hwsp). apply pends_pop; try done. by apply sw_pend. }
  pose proof (uinv_pop B O m _ _ p sp sp1 c Hi Hsp eq_refl eq_refl Epd Hw1) as Hi1. set (m1 := <[p := sp1]> m) in *.
  assert (m1 !! c = Some t) as Hc1 by (subst m1; by rewrite lookup_insert_ne).
  destruct (uinv_cut _ _ _ _ c t Hi1 Hc1) as (Hi2 & Hc2 & Hdel). unfold refuse_one. destruct (Z.eqb_spec c 0); [lia|].
  rewrite (get_ok n c t), Ok_bind by (by rewrite Esk, lookup_insert_ne).
  assert (exists n1, (if us_peer t =? 0 then Ok n else q ← get n (us_peer t); Ok (put n (us_peer t) (set_peer q 0))) = Ok n1 /\
    u_bind n1 = u_bind n /\ u_heap n1 = u_heap n /\ delete c (u_socks n1) = <[p := s]> (delete c (cut m1 c t))) as (n1 & E1 & Eb & Eh & Es).
  { unfold cut. destruct (Z.eqb_spec (us_peer t) 0) as [|Hn].
    - exists n. split_and!; [done..|]. subst m1. rewrite Esk, !delete_insert_ne by done. by rewrite insert_insert_eq.
    - destruct (lk_peer _ _ Hl _ _ Hc Hn) as (Hne & q & Hq & Eq). assert (us_peer t <> p) as Hqp by (intros E; rewrite E, Hsp in Hq; simplify_eq; lia).
      rewrite (get_ok n _ q), Ok_bind by (by rewrite Esk, lookup_insert_ne). eexists. split_and!; [done..|]. cbn. subst m1.
      rewrite lookup_insert_ne, Hq by done. cbn [default]. rewrite Esk. apply map_eq. intros z.
      rewrite !lookup_delete, !lookup_insert, !lookup_delete, !lookup_insert. repeat case_decide; subst; try done; try congruence. }
  rewrite E1, Ok_bind.
  assert (Forall (fun x => b_s x <> c) (u_bind n)) as Hnb.
  { eapply Forall_impl; [|exact (ui_bound _ _ _ _ _ Hi)]. intros x Hx E. apply HcO. rewrite <- E. apply Hx. lia. }
  rewrite <- Eb, <- Eh in Hi2.
  eapply post_conseq; [apply (kfree_sock_uinv B _ n1 _ c (set_peer t 0) Hi2 Hc2); [by apply elem_of_union_l, elem_of_singleton|done|done|by rewrite Eb]|].
  intros n2 (Hi3 & Es2 & Eb2). exists (delete c (cut m1 c t)). split_and!; [|congruence|].
  - constructor; [|done|congruence|].
    + by rewrite add_remove in Hi3.
    + exists sp1. rewrite lookup_delete_ne by done. split_and!; [|done|rewrite Epd in Hkids; by injection Hkids|done].
      unfold cut. destruct (Z.eqb_spec (us_peer t) 0); [apply lookup_insert_eq|].
      rewrite !lookup_insert_ne; [apply lookup_insert_eq|done|]. intros E.
      destruct (lk_peer _ _ Hl _ _ Hc ltac:(done)) as (_ & q & Hq & Eq). rewrite E, Hsp in Hq. by simplify_eq.
  - intros G HG. apply delivers_delete, Hdel. eapply delivers_keep; [done|done|by apply carried_same].
Qed.

Lemma refuse_pending_ok O p s k : forall i m n, sock_wf s -> 0 <= i -> i + Z.of_nat k = us_pend_cnt s ->
  closing O p s (drop (Z.to_nat i) (pends s)) m n ->
  total (fun n' => exists m', closing O p s [] m' n' /\ u_bind n' = u_bind n /\ forall G, delivers G m -> delivers G m') (refuse_pending s k i n).
Proof.
  induction k as [|k IH]; intros i m n Hw Hi Hk Hc; cbn [refuse_pending].
  - rewrite drop_ge in Hc by (pose proof (pends_len _ Hw); lia). exists m. split_and!; [done|done|auto].
  - destruct (pends_nth s i Hw ltac:(lia)) as (c & Hz & Hn). rewrite (ld_ok _ _ _ Hz), Ok_bind.
    rewrite (drop_S _ _ _ Hn) in Hc. eapply total_bind; [exact (refuse_one_ok _ _ _ _ _ _ _ Hc)|].
    intros n1 (m1 & Hc1 & Eb1 & Hd1). replace (S (Z.to_nat i)) with (Z.to_nat (i + 1)) in Hc1 by lia.
    eapply post_conseq; [apply (IH (i + 1) m1 n1 Hw ltac:(lia) ltac:(lia) Hc1)|].
    intros n2 (m2 & Hc2 & Eb2 & Hd2). exists m2. split_and!; [done|congruence|auto].
Qed.

Lemma drop_scm_ok s k : forall i n, sock_wf s -> total (fun n' => same_net n n') (drop_scm s k i n).
Proof.
  induction k as [|k IH]; intros i n Hw; cbn [drop_scm]; [done|].
  destruct (zget_in_range (us_scm s) ((us_scm_head s + i) mod UNIX_SCM_QLEN)) as [r ->].
  { rewrite (sw_scm _ Hw). unfold UNIX_SCM_QLEN. mlia. }
  eapply post_conseq; [by apply IH|]. intros n' (? & ? & ?). done.
Qed.

Lemma bound_unbind O p b : bound_ok O b -> bound_ok O (unbind_sock p <$> b) /\ (p <> 0 -> Forall (fun x => b_s x <> p) (unbind_sock p <$> b)).
Proof.
  intros Hb. split; [|intros Hp]; apply Forall_fmap; eapply Forall_impl; try exact Hb; intros x Hx; unfold unbind_sock, compose;
    destruct (Z.eqb_spec (b_s x) p); cbn; done || auto.
Qed.

(** A peer that forgets a socket keeps its data. *)
Lemma scrub_carried q p : sock_wf q ->
  total (fun t => sock_wf t /\ ring_only q t /\ forall l, carried q l -> carried t l) (scrub_ring_src q p).
Proof.
  intros Hw. assert (total (fun t => (ring_wf t /\ ring_only q t) /\ forall ms, frames q ms /\ us_type q <> 1 -> frames t (scrub_msg p <$> ms)) (scrub_ring_src q p)) as Hb.
  { apply total_both; [by apply scrub_ring_safe, sw_ring|]. intros ms [Hf Ht]. eapply post_conseq; [by apply (scrub_ring_frames q p ms)|]. by intros t [? _]. }
  destruct (decide (us_type q = 1)) as [Et|Et].
  - unfold scrub_ring_src. rewrite Et. cbn. split_and!; [done|apply ring_only_refl|auto].
  - eapply post_conseq; [exact Hb|]. intros t [[Ht Ho] Hf]. split_and!; [by eapply sock_wf_ring|done|]. intros l. unfold carried.
    destruct (ring_only_type _ _ Ho) as [-> _]. destruct (Z.eqb_spec (us_type q) 1); [done|]. intros (taken & ms & Hms & E & F).
    exists taken, (scrub_msg p <$> ms). split_and!; [by apply Hf| |done]. rewrite E. f_equal. rewrite <- list_fmap_compose.
    apply list_fmap_ext. intros _ m _. unfold scrub_msg, compose. by destruct (m.1 =? p).
Qed.

(** The first steps of closing: out of the names, and off the peer. *)
Lemma close_unlink O n p s : inv O n -> p ∈ O -> u_socks n !! p = Some s ->
  let n1 := with_bind n (unbind_sock p <$> u_bind n) in
  total (fun n' => exists m, closing O p s (pends s) m n' /\ u_bind n' = u_bind n1 /\ forall G, delivers G (u_socks n) -> delivers G m)
    (if us_peer s =? 0 then Ok n1 else
       q ← get n1 (us_peer s); q ← scrub_ring_src (set_peer q 0) p; Ok (put n1 (us_peer s) q)).
Proof.
  intros Hi HpO Hs n1. pose proof (ui_links _ _ _ _ _ Hi) as Hl.
  assert (uinv B O (u_socks n) (u_bind n1) (u_heap n1)) as Hi1 by (eapply uinv_bind; [exact Hi|apply bound_unbind, (ui_bound _ _ _ _ _ Hi)]).
  destruct (Z.eqb_spec (us_peer s) 0) as [Ep|Hn].
  - exists (u_socks n). split_and!; [|done|auto]. constructor; [done|done|by rewrite insert_id|eauto].
  - destruct (lk_peer _ _ Hl _ _ Hs Hn) as (Hne & q & Hq & Eq). rewrite (get_ok n1 _ q), Ok_bind by done.
    eapply total_bind; [apply scrub_carried, sock_wf_unpeer, (lk_wf _ _ Hl _ _ Hq)|]. intros t (Ht & Ho & Hc).
    destruct (ring_only_links _ _ Ho) as [Hb1 Hp1 Hd1].
    exists (<[us_peer s := t]> (<[p := set_peer s 0]> (u_socks n))). split_and!; [|done|].
    + constructor; [|done| |].
      * apply (uinv_repeer B O _ _ _ p (us_peer s) s q); try done; [by right|left; by rewrite Hp1|apply sock_wf_unpeer, (lk_wf _ _ Hl _ _ Hs)].
      * cbn. apply map_eq. intros z. rewrite !lookup_insert. repeat case_decide; subst; try done; congruence.
      * exists (set_peer s 0). rewrite lookup_insert_ne, lookup_insert_eq by done. done.
    + intros G HG. eapply delivers_keep; [|by rewrite lookup_insert_ne|].
      * eapply delivers_keep; [done|done|by apply carried_same].
      * intros Hcq. apply Hc. apply (carried_same q); [by repeat split|done].
Qed.

Lemma unix_sock_close_ok O n p : inv O n -> p ∈ O -> 
  total (fun n' => step_ok (O ∖ {[p]}) n n' (fun G => G) True /\ u_socks n' !! p = None) (unix_sock_close p n).
Proof.
  intros Hi HpO. unfold unix_sock_close. destruct (held_get _ _ _ _ Hi HpO) as (s & Hs & Eg & -> & Hwf & Hp). rewrite Eg, Ok_bind.
  destruct (Z.eqb_spec (us_state s) US_CLOSED) as [E|]; [by destruct (sw_state _ Hwf)|]. cbv zeta.
  eapply total_bind; [exact (close_unlink O n p s Hi HpO Hs)|]. intros n1 (m1 & Hc1 & Eb1 & Hd1).
  eapply total_bind; [apply (refuse_pending_ok O p s _ 0 m1 n1 Hwf); [done|rewrite Z2Nat.id; [done|apply (sw_pend_cnt _ Hwf)]|exact Hc1]|].
  intros n2 (m2 & [Hi2 _ Es2 (sp & Hsp & Hpeer & Hkids & Hrx)] & Eb2 & Hd2).
  eapply total_bind; [by apply drop_scm_ok|]. intros n3 (Es3 & Eb3 & Eh3).
  assert (kfree_sock (unix_wake n3) p s = kfree_sock (unix_wake n3) p sp) as -> by (unfold kfree_sock; by rewrite Hrx).
  eapply post_conseq; [apply (kfree_sock_uinv B O (unix_wake n3) m2 p sp)|]; cbn; try done.
  - by rewrite Eb3, Eh3.
  - rewrite Eb3, Eb2, Eb1. cbn. apply (bound_unbind O); [exact (ui_bound _ _ _ _ _ Hi)|lia].
  - intros n4 (Hi4 & Es4 & Eb4). cbn in Es4, Eb4. assert (u_socks n4 = delete p m2) as E4 by (rewrite Es4, Es3, Es2; apply delete_insert_eq).
    rewrite E4, lookup_delete_eq. split; [|done]. split; [unfold UnixCalls.inv; by rewrite E4|]. intros _ G HG. rewrite E4. apply delivers_delete. auto.
Qed.

(** ** Pairs *)

Lemma held_fresh O n a : inv O n -> u_socks n !! a = None -> a ∉ O.
Proof. intros Hi Ha HO. destruct (lk_held _ _ (ui_links _ _ _ _ _ Hi) _ HO). congruence. Qed.

Lemma unix_socketpair_ok O n a b s t : inv O n -> a <> b -> u_socks n !! a = Some s -> u_socks n !! b = Some t ->
  us_peer s = 0 -> us_peer t = 0 ->
  total (fun '(r, n') => r = 0 /\ step_ok O n n' (fun G => G) True) (unix_socketpair a b n).
Proof.
  intros Hi Hab Ha Hb Hs Ht. pose proof (ui_links _ _ _ _ _ Hi) as Hl. pose proof (lk_ptr _ _ Hl _ _ Ha). pose proof (lk_ptr _ _ Hl _ _ Hb).
  unfold unix_socketpair. destruct (Z.eqb_spec a 0); [lia|]. destruct (Z.eqb_spec b 0); [lia|]. cbn [orb].
  rewrite (get_ok n a s), Ok_bind by done. cbv zeta. rewrite (get_ok _ b t), Ok_bind by (cbn; by rewrite lookup_insert_ne).
  rewrite (get_ok _ a (set_peer s b)), Ok_bind by (cbn; rewrite lookup_insert_ne by done; apply lookup_insert_eq).
  rewrite (get_ok _ b (set_peer t a)), Ok_bind by (cbn; rewrite lookup_insert_ne by done; apply lookup_insert_eq).
  split; [done|]. set (s' := fill_cred _ _). set (t' := set_cred _ _).
  assert (u_socks (put (put (put (put n a (set_peer s b)) b (set_peer t a)) a s') b t') = <[b := t']> (<[a := s']> (u_socks n))) as Es.
  { cbn. apply map_eq. intros z. rewrite !lookup_insert. repeat case_decide; subst; try done; congruence. }
  pose proof (lk_wf _ _ Hl _ _ Ha) as Hws. pose proof (lk_wf _ _ Hl _ _ Hb) as Hwt. split.
  - unfold UnixCalls.inv. rewrite Es. apply (uinv_repeer B O _ _ _ a b s t); try done; [by left|by right| |].
    + destruct Hws as [[]]. by constructor.
    + destruct Hwt as [[]]. by constructor.
  - intros _ G HG. rewrite Es. eapply delivers_keep; [|by rewrite lookup_insert_ne|by apply carried_same].
    eapply delivers_keep; [done|done|by apply carried_same].
Qed.

Lemma socketpair_socks_ok O n type : inv O n ->
  total (fun '(r, a, b, n') => if r =? 0 then step_ok ({[b]} ∪ ({[a]} ∪ O)) n n' (fun G => upd (upd G a no_log) b no_log) True
                               else step_ok O n n' (fun G => G) True) (socketpair_socks type n).
Proof.
  intros Hi. unfold socketpair_socks. eapply total_bind; [by apply unix_socket_create_ok|]. intros [a n1] [Hcr _]. unfold created in Hcr.
  destruct (Z.eqb_spec a 0) as [|Ha0]. { destruct Hcr as [Hi1 E1]. split; [done|]. intros _ G HG. by rewrite E1. }
  destruct Hcr as (s & Hi1 & Hfa & E1 & Hps & Hds & Hws & Hcs & _).
  eapply total_bind; [by apply unix_socket_create_ok|]. intros [b n2] [Hcr _]. unfold created in Hcr.
  destruct (Z.eqb_spec b 0) as [|Hb0].
  { destruct Hcr as [Hi2 E2]. eapply total_bind; [apply unix_sock_close_ok; [done|by apply elem_of_union_l, elem_of_singleton]|].
    intros n3 [[Hi3 Hd3] Hn3]. split; [|intros _ G HG].
    - by rewrite add_remove in Hi3 by (by eapply held_fresh).
    - eapply delivers_forget; [|exact Hn3]. apply Hd3; [done|]. rewrite E2, E1. by apply delivers_fresh. }
  destruct Hcr as (t & Hi2 & Hfb & E2 & Hpt & Hdt & Hwt & Hct & _). rewrite E1 in Hfb.
  assert (a <> b) as Hab by (intros ->; by rewrite lookup_insert_eq in Hfb).
  eapply total_bind; [apply (unix_socketpair_ok _ n2 a b s t Hi2 Hab); [rewrite E2, E1, lookup_insert_ne by done; apply lookup_insert_eq|rewrite E2; apply lookup_insert_eq|done|done]|].
  intros [r n3] [-> [Hi3 Hd3]]. split; [done|]. intros _ G HG. apply Hd3; [done|]. rewrite E2. apply delivers_fresh; [|done]. rewrite E1. by apply delivers_fresh.
Qed.
End links.
