(* ===== verification/UnixHeap.v ===== *)
(** * UnixHeap: the kernel heap as the allocator of the Unix sockets

    The model of mm/memory.c in [Heap] has the interface that the sockets
    rely on, for an arena that ends below 2^63. *)

From S2P Require Import Prelude Pmm Heap UnixSock.

Lemma live_size a l p s : nonneg l -> (p, s) ∈ live a l -> 0 <= s.
Proof.
  revert a. induction l as [|[s0 f0] l IH]; intros a Hn; cbn [live]; [by intros ?%not_elem_of_nil|].
  apply list.Forall_cons in Hn as [Hs0 Hn]. destruct f0; [by apply IH|]. intros [[= -> ->]|Hin]%elem_of_cons; [done|by eapply IH].
Qed.

Definition heap_live (h : heap) (L : gset Z) : Prop :=
  exists l, heap_inv h l /\ heap_end h < 2 ^ 63 /\ L = list_to_set (live (heap_start h) l).*1.

Lemma fst_mid {A B} (pre post : list (A * B)) p s : (pre ++ (p, s) :: post).*1 = pre.*1 ++ p :: post.*1.
Proof. by rewrite fmap_app. Qed.

Lemma kmalloc_live h L n : heap_live h L -> 0 <= n <= 2 ^ 62 ->
  total (fun '(p, h') => (p = 0 /\ heap_live h' L) \/ (0 < p < 2 ^ 64 /\ p ∉ L /\ heap_live h' ({[p]} ∪ L))) (kmalloc h n).
Proof.
  intros (l & Hi & He & ->) Hn. destruct (kmalloc_cases h l n Hi) as [[-> _]|(p & h' & l' & -> & Hi' & Hp & Ham & Es & Ee & _ & Hf)]; [lia|lia| |].
  { left. split; [done|]. by exists l. }
  right. destruct Hf as (s & pre & post & El & El' & Hs & _ & _ & Hps & Hap).
  assert (p ∉ (live (heap_start h) l).*1) as Hfresh.
  { intros ([q t] & -> & Hq)%list_elem_of_fmap. cbn in *. pose proof (live_size _ _ _ _ (heap_inv_nonneg _ _ Hi) Hq).
    destruct (Hap _ _ Hq); lia. }
  split_and!; [lia|lia|by rewrite elem_of_list_to_set|]. exists l'. split_and!; [done|lia|]. rewrite Es, El', El, fst_mid, fmap_app.
  apply set_eq. intros x. rewrite elem_of_union, elem_of_singleton, !elem_of_list_to_set, !elem_of_app, elem_of_cons. tauto.
Qed.

Lemma live_nodup a l : nonneg l -> NoDup (live a l).*1.
Proof.
  revert a. induction l as [|[s f] l IH]; intros a Hn; cbn [live]; [constructor|]. apply list.Forall_cons in Hn as [Hs Hn]. cbn in Hs.
  destruct f; [by apply IH|]. cbn. constructor; [|by apply IH]. intros ([q t] & E & Hq)%list_elem_of_fmap. cbn in E. subst.
  apply live_bounds in Hq; [lia|done].
Qed.

Lemma kfree_live h L p : heap_live h L -> p ∈ L -> total (fun h' => heap_live h' (L ∖ {[p]})) (kfree h p).
Proof.
  intros (l & Hi & He & ->) ([q s] & -> & Hq)%elem_of_list_to_set%list_elem_of_fmap. cbn [fst].
  destruct (kfree_refines h l q s Hi Hq) as (h' & -> & Hi' & Es & Ee & _).
  pose proof (heap_inv_nonneg _ _ Hi) as Hn. destruct (afree_live _ _ _ _ Hn Hq) as (pre & post & El & El').
  exists (afree (heap_start h) l q). split_and!; [done|lia|]. rewrite Es, El', El, fst_mid, fmap_app.
  pose proof (live_nodup (heap_start h) l Hn) as Hnd. rewrite El, fst_mid in Hnd. apply list.NoDup_app in Hnd as (_ & Hd & [Hq' _]%list.NoDup_cons).
  apply set_eq. intros x. rewrite elem_of_difference, elem_of_singleton, !elem_of_list_to_set, !elem_of_app, elem_of_cons. split.
  - intros [[Hx|[->|Hx]] Hne]; tauto.
  - intros [Hx|Hx]; (split; [tauto|]); intros ->; [|done]. apply (Hd q Hx). left.
Qed.

(** The bytes that a block happens to hold. *)
Fixpoint bytes_from (m : gmap Z Z) (a : Z) (n : nat) : list Z :=
  match n with
  | O => []
  | S n' => u8 (default 0 (m !! a)) :: bytes_from m (a + 1) n'
  end.

Definition heap_bytes (h : heap) (p n : Z) : list Z := bytes_from (bytes h) p (Z.to_nat n).

Lemma heap_bytes_ok h p n : 0 <= n -> zlen (heap_bytes h p n) = n /\ Forall is_byte (heap_bytes h p n).
Proof.
  intros Hn. unfold heap_bytes. rewrite <- (Z2Nat.id n) at 2 by done. generalize (Z.to_nat n) as k. intros k. revert p.
  unfold zlen. induction k as [|k IH]; intros p; cbn [bytes_from length]; [done|]. destruct (IH (p + 1)) as [E F].
  split; [lia|]. constructor; [apply u8_range|done].
Qed.

#[global] Instance memory_heap : KernelHeap heap := {
  kh_malloc := kmalloc;
  kh_free := kfree;
  kh_bytes := heap_bytes;
  kh_live := heap_live;
  kh_bytes_ok := heap_bytes_ok;
  kh_malloc_live := kmalloc_live;
  kh_free_live := kfree_live;
}.
