(* ===== verification/UnixCorrect.v ===== *)
(** * UnixCorrect: any sequence of calls on Unix sockets

    A run is a sequence of calls by processes that hold sockets. Runs stay
    memory safe and leak nothing, whatever is sent; runs that write to sockets
    the way their types ask for deliver every stream and every message in order. *)

From S2P Require Import Prelude Heap UnixSock UnixRing UnixInv UnixCalls UnixLinks UnixHeap.

(** The calls, with the sockets they are given. *)
Inductive ucall : Type :=
  | CSocket (type : Z)
  | CPair (type : Z)
  | CBind (p : Z) (path : list Z) (pathlen : Z)
  | CUnlink (path : list Z)
  | CListen (p backlog : Z)
  | CConnect (p : Z) (path : list Z) (pathlen : Z)
  | CAccept (p : Z)
  | CSend (p : Z) (buf : list Z)
  | CRecv (p len : Z)
  | CSendto (p : Z) (buf : list Z) (path : option (list Z)) (pathlen : Z)
  | CSendmsg (p : Z) (iv : list (list Z)) (fds : list Z)
  | CRecvmsg (p : Z) (lens : list Z)
  | CClose (p : Z).

Definition is_byteb (z : Z) : bool := (0 <=? z) && (z <? 256).

Section runs.
Context {H : Type} {KH : KernelHeap H}.

(** The network, the sockets that processes hold, and the logs. *)
Record world : Type := mk_world { w_net : unet H; w_held : gset Z; w_log : Z -> slog }.

(** Processes pass sockets they hold and buffers that exist. *)
Definition allowed (c : ucall) (w : world) : bool :=
  let held p := bool_decide (p ∈ w_held w) in
  match c with
  | CSocket _ | CPair _ | CUnlink _ => true
  | CBind p _ _ | CListen p _ | CConnect p _ _ | CAccept p | CRecv p _ | CClose p => held p
  | CSend p buf | CSendto p buf _ _ => held p && forallb is_byteb buf && (zlen buf <? 2 ^ 31)
  | CSendmsg p iv fds => held p && forallb (forallb is_byteb) iv && (zlen (concat iv) <? 2 ^ 62) && (zlen fds <=? UNIX_SCM_MAX)
  | CRecvmsg p lens => held p && forallb (Z.leb 0) lens && (foldr Z.add 0 lens <=? 2 ^ 62)
  end.

(** Bytes are written to stream sockets, datagrams are sent to framed ones. *)
Definition typed (c : ucall) (w : world) : bool :=
  match c with
  | CSend p _ => type_of (w_net w) (peer_of (w_net w) p) =? 1
  | CSendto p _ path pathlen => negb (type_of (w_net w) (sendto_dest (w_net w) p path pathlen) =? 1)
  | _ => true
  end.

Definition do_call (c : ucall) (w : world) : res world :=
  let n := w_net w in
  let O := w_held w in
  let G := w_log w in
  match c with
  | CSocket type =>
      '(p, n') ← unix_socket_create type n;
      Ok (if p =? 0 then mk_world n' O G else mk_world n' ({[p]} ∪ O) (upd G p no_log))
  | CPair type =>
      '(r, a, b, n') ← socketpair_socks type n;
      Ok (if r =? 0 then mk_world n' ({[b]} ∪ ({[a]} ∪ O)) (upd (upd G a no_log) b no_log) else mk_world n' O G)
  | CBind p path pathlen => '(_, n') ← unix_bind p path pathlen n; Ok (mk_world n' O G)
  | CUnlink path => Ok (mk_world (unix_unlink_path path n).2 O G)
  | CListen p backlog => '(_, n') ← unix_listen p backlog n; Ok (mk_world n' O G)
  | CConnect p path pathlen =>
      '(r, n') ← unix_connect p path pathlen n;
      Ok (mk_world n' O (if r =? 0 then upd G (peer_of n' p) no_log else G))
  | CAccept p => '(c, n') ← unix_accept p n; Ok (mk_world n' (if c =? 0 then O else {[c]} ∪ O) G)
  | CSend p buf => '(r, n') ← unix_send p buf (zlen buf) n; Ok (mk_world n' O (sent_log r (peer_of n p) buf G))
  | CRecv p len => '(r, d, n') ← unix_recv p len n; Ok (mk_world n' O (got_log r p (u32 len) d G))
  | CSendto p buf path pathlen =>
      '(r, n') ← unix_sendto_dgram p buf (zlen buf) path pathlen n;
      Ok (mk_world n' O (sent_log r (sendto_dest n p path pathlen) buf G))
  | CSendmsg p iv fds => '(r, n') ← unix_sendmsg p iv fds n; Ok (mk_world n' O (sent_log r (peer_of n p) (concat iv) G))
  | CRecvmsg p lens => '(r, data, _, n') ← unix_recvmsg p lens n; Ok (mk_world n' O (got_log r p (u32 (iov_total lens)) (concat data) G))
  | CClose p => n' ← unix_sock_close p n; Ok (mk_world n' (O ∖ {[p]}) G)
  end.

Fixpoint exec_calls (cs : list ucall) (w : world) : res world :=
  match cs with
  | [] => Ok w
  | c :: cs' => w ← do_call c w; exec_calls cs' w
  end.

(** [P] holds at each call of a run. *)
Fixpoint along (P : ucall -> world -> bool) (cs : list ucall) (w : world) : bool :=
  match cs with
  | [] => true
  | c :: cs' => P c w && match do_call c w with Ok w' => along P cs' w' | _ => true end
  end.

Definition no_name : bind_node := mk_bind [] 0 false 0.

(** No sockets: the heap holds the blocks of the rest of the kernel. *)
Definition boot (h : H) (tgid : Z) : world :=
  mk_world (mk_unet ∅ (replicate (Z.to_nat UNIX_BIND_MAX) no_name) h [] 0 tgid) ∅ (fun _ => no_log).

Context (B : gset Z).

Definition winv (w : world) : Prop := inv B (w_held w) (w_net w).

Lemma boot_inv h tgid : kh_live h B -> winv (boot h tgid).
Proof.
  intros Hh. constructor; cbn.
  - constructor; try (intros; set_solver). intros p [s Hs]. done.
  - apply Forall_replicate. done.
  - intros p s q t Hp. done.
  - exists B. split; [done|]. intros x. split; [by left|]. intros [|(p & s & Hp & _)]; done.
  - intros x (p & s & Hp & _). done.
Qed.

Lemma forallb_impl {A} (f : A -> bool) (P : A -> Prop) l : (forall x, f x = true -> P x) -> forallb f l = true -> Forall P l.
Proof. intros Hf. induction l as [|x l IH]; cbn [forallb]; [constructor|]. intros [Hx Hl]%andb_true_iff. constructor; auto. Qed.

Lemma is_byteb_Forall l : forallb is_byteb l = true -> Forall is_byte l.
Proof. apply forallb_impl. intros x. unfold is_byteb, is_byte. lia. Qed.

(** One call: it returns, keeps the links, and keeps the logs if it is typed. *)
Lemma do_call_ok c w : winv w -> allowed c w = true ->
  total (fun w' => winv w' /\ (typed c w = true -> delivers (w_log w) (u_socks (w_net w)) -> delivers (w_log w') (u_socks (w_net w')))) (do_call c w).
Proof.
  intros Hi Ha. destruct w as [n O G]. unfold winv in *. cbn [w_net w_held w_log] in *.
  destruct c; cbn [do_call allowed typed w_net w_held w_log] in *; rewrite ?andb_true_iff in Ha; rewrite ?bool_decide_eq_true in Ha.
  - eapply total_bind; [by apply unix_socket_create_ok|]. intros [p n'] [Hc _]. unfold created in Hc. cbn. destruct (p =? 0).
    + destruct Hc as [? E]. cbn. rewrite E. done.
    + destruct Hc as (t & ? & _ & E & _ & _ & _ & Ht & _). cbn. split; [done|]. intros _ HG. rewrite E. by apply delivers_fresh.
  - eapply total_bind; [by apply socketpair_socks_ok|]. intros [[[r a] b] n'] Hc. cbn. destruct (r =? 0); destruct Hc; cbn; auto.
  - eapply total_bind; [by apply unix_bind_ok|]. intros [r n'] [? Hd]. split; [done|]. intros _. by apply Hd.
  - destruct (unix_unlink_path_ok B O n path Hi) as [? Hd]. split; [done|]. intros _. by apply Hd.
  - eapply total_bind; [by apply unix_listen_ok|]. intros [r n'] [? Hd]. split; [done|]. intros _. by apply Hd.
  - eapply total_bind; [by apply unix_connect_ok|]. intros [r n'] [? Hd]. split; [done|]. intros _. by apply Hd.
  - eapply total_bind; [by apply unix_accept_ok|]. intros [r n'] [? Hd]. split; [done|]. intros _. by apply Hd.
  - destruct Ha as [[Hp Hb%is_byteb_Forall] Hl%Z.ltb_lt].
    eapply total_bind; [by apply unix_send_ok|]. intros [r n'] [? Hd]. split; [done|]. intros Ht%Z.eqb_eq. by apply Hd.
  - eapply total_bind; [by apply unix_recv_ok|]. intros [[r d] n'] [? Hd]. split; [done|]. intros _. by apply Hd.
  - destruct Ha as [[Hp Hb%is_byteb_Forall] Hl%Z.ltb_lt].
    eapply total_bind; [by apply unix_sendto_ok|]. intros [r n'] [? Hd]. split; [done|]. intros Ht%negb_true_iff%Z.eqb_neq. by apply Hd.
  - destruct Ha as [[[Hp Hb] Hl%Z.ltb_lt] Hf%Z.leb_le].
    assert (iov_ok iv) as Hiv by (eapply forallb_impl; [apply is_byteb_Forall|done]).
    eapply total_bind; [by apply unix_sendmsg_ok|]. intros [r n'] [? Hd]. split; [done|]. intros _. by apply Hd.
  - destruct Ha as [[Hp Hb] Hl%Z.leb_le].
    assert (Forall (fun l => 0 <= l) lens) as Hlens by (eapply forallb_impl; [apply Z.leb_le|done]).
    eapply total_bind; [by apply unix_recvmsg_ok|]. intros [[[r d] f] n'] [[? Hd] _]. split; [done|]. intros _. by apply Hd.
  - eapply total_bind; [by apply unix_sock_close_ok|]. intros n' [[? Hd] _]. split; [done|]. intros _. by apply Hd.
Qed.

Lemma exec_ok cs : forall w, winv w -> along allowed cs w = true ->
  total (fun w' => winv w' /\ (along typed cs w = true -> delivers (w_log w) (u_socks (w_net w)) -> delivers (w_log w') (u_socks (w_net w')))) (exec_calls cs w).
Proof.
  induction cs as [|c cs IH]; intros w Hw Ha; cbn [exec_calls along] in *; [done|].
  apply andb_true_iff in Ha as [Hc Ha]. pose proof (do_call_ok c w Hw Hc) as Hd. apply total_Ok in Hd as (w1 & E & Hw1 & Hd). rewrite E in *.
  rewrite Ok_bind. eapply post_conseq; [by apply IH|]. intros w2 [Hw2 Hd2]. split; [done|]. intros [Ht Ht2]%andb_true_iff HG. auto.
Qed.

(** Nothing is left when no process holds a socket. *)
Lemma nothing_held m b h : uinv B ∅ m b h -> m = ∅ /\ kh_live h B.
Proof.
  intros [Hl _ _ (L & HL & HLB) _]. assert (m = ∅) as Em.
  { apply map_empty. intros p. destruct (m !! p) as [s|] eqn:E; [|done].
    destruct (lk_cover _ _ Hl p ltac:(eauto)) as [?%not_elem_of_empty|(l & t & Ht & Hp)]; [done|].
    destruct (lk_cover _ _ Hl l ltac:(eauto)) as [?%not_elem_of_empty|(l' & t' & Ht' & Hl')]; [done|].
    destruct (lk_pend _ _ Hl _ _ _ Ht' Hl') as (_ & u & Hu & Eu). simplify_eq. rewrite Eu in Hp. by apply not_elem_of_nil in Hp. }
  split; [done|]. assert (L = B) as <-; [|done]. apply set_eq. intros x. rewrite HLB. split; [|by left]. intros [|(p & s & Hp & _)]; [done|].
  by rewrite Em in Hp.
Qed.
End runs.

(** ** Theorems *)

(** C7: any sequence of calls on Unix sockets, on sockets that processes hold
    and with any data, types, names and failing allocations, returns without an
    access to freed or foreign memory. Afterwards peers point at each other, every
    socket is held or waits at exactly one listener, and the heap has two blocks
    for each socket besides those of the rest of the kernel. When every socket is
    closed, nothing is left allocated. *)
Theorem unix_calls_safe {H : Type} {KH : KernelHeap H} (B : gset Z) (h : H) (tgid : Z) (cs : list ucall) :
  kh_live h B -> along allowed cs (boot h tgid) = true ->
  total (fun w => winv B w /\ (w_held w = ∅ -> u_socks (w_net w) = ∅ /\ kh_live (u_heap (w_net w)) B)) (exec_calls cs (boot h tgid)).
Proof.
  intros Hh Ha. eapply post_conseq; [by eapply exec_ok; [apply boot_inv|]|]. intros w [Hw _]. split; [done|].
  intros E. unfold winv, inv in Hw. rewrite E in Hw. by eapply nothing_held.
Qed.

(** C8: in any sequence of calls that writes bytes to stream sockets and
    datagrams to framed ones, for each socket that still exists, the bytes
    received from a stream and then those in its ring are the bytes sent to it, and
    the messages received from a framed socket, each cut to the room the receiver
    gave, and then those in its ring are the messages sent to it, in order; closing
    the sender loses none of them. *)
Theorem unix_delivery {H : Type} {KH : KernelHeap H} (B : gset Z) (h : H) (tgid : Z) (cs : list ucall) :
  kh_live h B -> along allowed cs (boot h tgid) = true -> along typed cs (boot h tgid) = true ->
  total (fun w => forall x s, u_socks (w_net w) !! x = Some s -> carried s (w_log w x)) (exec_calls cs (boot h tgid)).
Proof.
  intros Hh Ha Ht. eapply post_conseq; [by eapply exec_ok; [apply boot_inv|]|]. intros w [_ Hd].
  apply Hd; [done|]. intros x s Hx. done.
Qed.

(** ** A concrete heap and runs *)

Definition unix_arena : heap := mk_heap 4096 1052672 4096 {[4096 := mk_block 1048552 0 true HEAP_MAGIC]} ∅.

Lemma unix_arena_live : kh_live unix_arena ∅.
Proof.
  exists [(1048552, true)]. split_and!; [|done|done]. constructor; cbn; try done. by constructor; [|constructor].
Qed.

(** A server and a client: the client sends before it is accepted. *)
Definition server_run : list ucall :=
  [CSocket 1; CBind 4120 [47; 120] 2; CListen 4120 4; CSocket 1; CConnect 70688 [47; 120] 2; CSend 70688 [1; 2; 3; 4; 5];
   CAccept 4120; CRecv 137256 3; CPair 5; CSendmsg 203824 [[6]; [7; 8]] []; CSendto 203824 [9] None 0; CRecvmsg 270392 [1; 1]; CClose 203824].

Lemma unix_calls_safe_witness : along allowed (server_run ++ [CClose 4120; CClose 70688; CClose 137256; CClose 270392]) (boot unix_arena 7) = true /\
  total (fun w => winv ∅ w /\ (w_held w = ∅ -> u_socks (w_net w) = ∅ /\ kh_live (u_heap (w_net w)) ∅))
    (exec_calls (server_run ++ [CClose 4120; CClose 70688; CClose 137256; CClose 270392]) (boot unix_arena 7)).
Proof.
  assert (along allowed (server_run ++ [CClose 4120; CClose 70688; CClose 137256; CClose 270392]) (boot unix_arena 7) = true) as E
    by (vm_compute; reflexivity).
  exact (conj E (unix_calls_safe ∅ unix_arena 7 _ unix_arena_live E)).
Defined.

(** The logs of the accepted connection and of the second of the pair. *)
Definition server_logs : res (slog * slog) := w ← exec_calls server_run (boot unix_arena 7); Ok (w_log w 137256, w_log w 270392).

Lemma unix_delivery_witness :
  server_logs = Ok (mk_log [[1; 2; 3; 4; 5]] [(3, [1; 2; 3])], mk_log [[6; 7; 8]; [9]] [(2, [6; 7])]) /\
  total (fun w => forall x s, u_socks (w_net w) !! x = Some s -> carried s (w_log w x)) (exec_calls server_run (boot unix_arena 7)).
Proof.
  assert (along allowed server_run (boot unix_arena 7) = true) as E by (vm_compute; reflexivity).
  assert (along typed server_run (boot unix_arena 7) = true) as E' by (vm_compute; reflexivity).
  assert (server_logs = Ok (mk_log [[1; 2; 3; 4; 5]] [(3, [1; 2; 3])], mk_log [[6; 7; 8]; [9]] [(2, [6; 7])])) as E'' by (vm_compute; reflexivity).
  exact (conj E'' (unix_delivery ∅ unix_arena 7 _ unix_arena_live E E')).
Defined.

(** ** Departures *)

(** What a receiver of [k] bytes gets after a run. *)
Definition receive (cs : list ucall) (p k : Z) : res (Z * list (list Z) * list Z * list Z * Z) :=
  w ← exec_calls cs (boot unix_arena 7);
  '(r, data, fds, n) ← unix_recvmsg p [k] (w_net w);
  s ← get n p;
  Ok (r, data, fds, u_closed n, us_scm_cnt s).

(** The header at the front of the ring decides what is popped, whatever wrote
    it and whatever follows. *)
Lemma framed_pop_front s src d q cap len : holds s (rec_hdr (zlen d) src ++ d ++ q) -> us_msg_cnt s <> 0 ->
  0 <= src < 2 ^ 64 -> zlen d < 2 ^ 31 -> zlen d <= u32 len <= cap ->
  total (fun '(r, data, from, _) => r = zlen d /\ data = d /\ from = src) (framed_pop s cap len).
Proof.
  intros Hh Hc Hsrc Hd Hl. pose proof (zlen_nonneg d). unfold framed_pop. destruct (Z.eqb_spec (us_msg_cnt s) 0); [done|].
  eapply total_bind; [by apply (ring_read_holds s (rec_hdr (zlen d) src))|]. intros [h t] (-> & Ht & _).
  rewrite rec_hdr_len, Ok_bind, rec_hdr_src, Ok_bind by lia. cbv zeta.
  set (k := if zlen d <? u32 len then zlen d else u32 len).
  assert (k = zlen d) as -> by (subst k; destruct (Z.ltb_spec (zlen d) (u32 len)); lia).
  destruct (Z.ltb_spec cap (zlen d)); [lia|]. rewrite Z.sub_diag.
  eapply total_bind; [by apply (ring_read_holds _ d); [apply holds_set_msg_cnt|]|]. intros [data t1] (-> & _ & _).
  change (Z.to_nat 0) with O. cbn. split_and!; [unfold s32; mlia|done|done].
Qed.

(** A plain write appends to the peer's ring, a message of one buffer appends
    its header and the buffer. *)
Lemma send_appends {H : Type} {KH : KernelHeap H} (n : unet H) p s t q data :
  p <> 0 -> u_socks n !! p = Some s -> us_state s = US_CONNECTED -> us_peer s <> 0 -> u_socks n !! us_peer s = Some t ->
  holds t q -> Forall is_byte data -> zlen q + zlen data <= SZ ->
  total (fun '(_, n') => exists t', u_socks n' = <[us_peer s := t']> (u_socks n) /\ u_heap n' = u_heap n /\
     holds t' (q ++ data) /\ ring_only t t') (unix_send p data (zlen data) n).
Proof.
  intros Hp Hs Hst Hpe Ht Hq Hb Hf. pose proof (zlen_nonneg q). pose proof (zlen_nonneg data). unfold unix_send, get.
  destruct (Z.eqb_spec p 0); [done|]. rewrite Hs, Ok_bind, Hst, Z.eqb_refl. cbn [negb].
  destruct (Z.eqb_spec (us_peer s) 0); [done|]. rewrite Ht, Ok_bind, (holds_space _ _ Hq), u32_small by lia.
  destruct (Z.ltb_spec (SZ - zlen q) (zlen data)); [lia|].
  eapply total_bind; [by eapply ring_write_holds|]. intros t' [Ht' Ho]. exists t'. by split_and!.
Qed.

Lemma sendmsg_appends {H : Type} {KH : KernelHeap H} (n : unet H) p s t q d :
  p <> 0 -> u_socks n !! p = Some s -> us_state s = US_CONNECTED -> us_peer s <> 0 -> u_socks n !! us_peer s = Some t ->
  us_type t <> 1 -> holds t q -> Forall is_byte d -> zlen q + 16 + zlen d <= SZ ->
  total (fun '(_, n') => exists t', u_socks n' = <[us_peer s := set_msg_cnt t' (us_msg_cnt t + 1)]> (u_socks n) /\
     u_heap n' = u_heap n /\ holds t' (q ++ rec_hdr (zlen d) p ++ d) /\ ring_only t t') (unix_sendmsg p [d] [] n).
Proof.
  intros Hp Hs Hst Hpe Ht Hty Hq Hb Hf. pose proof (zlen_nonneg q). pose proof (zlen_nonneg d). unfold unix_sendmsg, get.
  destruct (Z.eqb_spec p 0); [done|]. rewrite Hs, Ok_bind, Hst, Z.eqb_refl. cbn [negb].
  destruct (Z.eqb_spec (us_peer s) 0); [done|]. rewrite Ht, Ok_bind. cbv zeta.
  rewrite iov_total_concat by (cbn [concat]; rewrite app_nil_r; lia). cbn [concat]. rewrite app_nil_r. unfold UNIX_RXBUF_SZ.
  destruct (Z.ltb_spec (SZ - 16) (zlen d)); [lia|]. destruct (Z.eqb_spec (us_type t) 1); [done|].
  rewrite (holds_space _ _ Hq), (rw_sz _ (ho_wf _ _ Hq)), (u32_small (zlen d)), u32_small by (unfold REC_HDR; lia).
  unfold REC_HDR at 1 2. destruct (Z.ltb_spec SZ (zlen d + 16)); [lia|]. destruct (Z.ltb_spec (SZ - zlen q) (zlen d + 16)); [lia|].
  eapply total_bind; [apply (ring_write_holds t q (rec_hdr (zlen d) p)); [done|apply bytes_rec_hdr|by rewrite zlen_rec_hdr|unfold REC_HDR; lia]|].
  intros t1 [Hh1 O1]. eapply total_bind; [apply (write_iov_holds [d] t1 _ Hh1); [by constructor|]|].
  { rewrite zlen_app, zlen_rec_hdr. cbn [concat]. rewrite app_nil_r. unfold REC_HDR. lia. }
  intros t2 [Hh2 O2]. cbn [concat] in Hh2. rewrite app_nil_r, <- app_assoc in Hh2.
  exists t2. pose proof (ring_only_trans _ _ _ O1 O2) as O3. split_and!; [|done|done|done].
  destruct O3 as (? & ? & ? & ? & ? & ->). done.
Qed.

(** C36: A plain write to a connected sequenced-packet (or datagram) socket puts
    its bytes in the peer's ring without a header, so they are taken for one.
    On any connection whose receiving ring is empty: a process writes the
    sixteen bytes of a header that announces sixteen bytes, and then sends any
    message that fits; the next receive of sixteen bytes at the other end
    returns (unless the heap is full) the kernel's own header of that message,
    and its last eight bytes are the kernel address of the sending socket. *)
Theorem write_to_framed_leaks_address {H : Type} {KH : KernelHeap H} (B O : gset Z) (n : unet H) p s t d :
  inv B O n -> u_socks n !! p = Some s -> us_peer s <> 0 -> u_socks n !! us_peer s = Some t -> us_type t <> 1 ->
  frames t [] -> Forall is_byte d -> zlen d <= UNIX_RXBUF_SZ - 32 ->
  total (fun '(r, data, _, _) => r = - L_ENOMEM \/ exists h, r = 16 /\ data = [h] /\ ld64 h 8 = Ok p)
    ('(_, n) ← unix_send p (rec_hdr 16 0) 16 n; '(_, n) ← unix_sendmsg p [d] [] n; unix_recvmsg (us_peer s) [16] n).
Proof.
  intros [Hlk _ _ (L & HL & _) _] Hs Hpe Ht Hty [Hh Hc _] Hb Hd. unfold UNIX_RXBUF_SZ in Hd.
  pose proof (lk_ptr _ _ Hlk _ _ Hs) as Hp. pose proof (sw_peer _ (lk_wf _ _ Hlk _ _ Hs) Hpe) as Hst.
  destruct (lk_peer _ _ Hlk _ _ Hs Hpe) as [Hne _]. set (q := us_peer s) in *.
  eapply total_bind; [apply (send_appends n p s t [] (rec_hdr 16 0)); [lia|done..|apply bytes_rec_hdr|done]|].
  intros [r1 n1] (t1 & E1 & Eh1 & Hh1 & (? & ? & ? & ? & ? & O1)). cbn [app] in Hh1. fold q in E1.
  eapply total_bind; [apply (sendmsg_appends n1 p s t1 (rec_hdr 16 0) d)|].
  { lia. } { by rewrite E1, lookup_insert_ne. } { done. } { done. } { fold q. by rewrite E1, lookup_insert_eq. } { by rewrite O1. }
  { done. } { done. } { rewrite zlen_rec_hdr. unfold REC_HDR. lia. }
  intros [r2 n2] (t2 & E2 & Eh2 & Hh2 & (? & ? & ? & ? & ? & O2)). fold q in E2.
  unfold unix_recvmsg, get. destruct (Z.eqb_spec q 0); [done|]. rewrite E2, lookup_insert_eq, Ok_bind. cbn [us_type us_msg_cnt set_msg_cnt].
  replace (us_type t2) with (us_type t) by by rewrite O2, O1. destruct (Z.eqb_spec (us_type t) 1); [done|].
  replace (us_msg_cnt t1 + 1) with 1 by (rewrite O1; cbn [us_msg_cnt set_rx]; rewrite Hc; done). cbn [Z.eqb]. change (iov_total [16]) with 16. cbn [Z.eqb].
  rewrite Eh2, Eh1. eapply total_bind; [by apply (kh_malloc_live _ L)|]. intros [stage h] Hm. cbv beta iota.
  destruct (Z.eqb_spec stage 0); [by left|]. destruct Hm as [[? _]|(_ & _ & Hm)]; [done|].
  eapply total_bind; [apply (framed_pop_front _ 0 (rec_hdr (zlen d) p) d 16 (s32 16)); [|done..]|].
  { apply holds_set_msg_cnt. by rewrite zlen_rec_hdr. }
  intros [[[r data] src] t3] (-> & -> & _). rewrite zlen_rec_hdr.
  eapply total_bind; [apply (kh_free_live _ _ _ Hm); set_solver|]. intros h' _. cbn. right.
  exists (rec_hdr (zlen d) p). split_and!; [done| |apply (rec_hdr_src (zlen d)); lia]. done.
Qed.

Lemma fresh_frames t : ring_wf t -> us_msg_cnt t = 0 -> us_head t = 0 -> us_tail t = 0 -> us_abs_head t = 0 -> us_abs_tail t = 0 ->
  frames t [].
Proof.
  intros Hw Hc Hh Ht Hah Hat. constructor; [|done|done]. constructor; rewrite ?Hh, ?Ht, ?Hah, ?Hat; try done.
  intros k Hk. change (zlen (concat (enc <$> []))) with 0 in Hk. lia.
Qed.

(** A pair of connected sequenced-packet sockets. *)
Definition pair_world := match exec_calls [CPair 5] (boot unix_arena 7) with Ok w => w | _ => boot unix_arena 7 end.

Lemma pair_world_inv : winv ∅ pair_world.
Proof.
  assert (along allowed [CPair 5] (boot unix_arena 7) = true) as E by (vm_compute; reflexivity).
  pose proof (exec_ok ∅ [CPair 5] (boot unix_arena 7) (boot_inv ∅ _ _ unix_arena_live) E) as X. unfold pair_world.
  apply total_Ok in X as (w & -> & Hw & _). exact Hw.
Qed.

Lemma write_to_framed_leaks_address_witness :
  total (fun '(r, data, _, _) => r = - L_ENOMEM \/ exists h, r = 16 /\ data = [h] /\ ld64 h 8 = Ok 4120)
    ('(_, n) ← unix_send 4120 (rec_hdr 16 0) 16 (w_net pair_world); '(_, n) ← unix_sendmsg 4120 [[65]] [] n; unix_recvmsg 70688 [16] n).
Proof.
  pose proof pair_world_inv as Hi.
  assert (us_peer <$> u_socks (w_net pair_world) !! 4120 = Some 70688) as Ep by (vm_compute; reflexivity).
  assert ((fun t => (us_type t, us_msg_cnt t, us_head t, us_tail t, us_abs_head t, us_abs_tail t)) <$> u_socks (w_net pair_world) !! 70688
    = Some (5, 0, 0, 0, 0, 0)) as Eq by (vm_compute; reflexivity).
  destruct (u_socks (w_net pair_world) !! 4120) as [s|] eqn:Es; [|discriminate Ep].
  destruct (u_socks (w_net pair_world) !! 70688) as [t|] eqn:Et; [|discriminate Eq].
  injection Ep as Ep. injection Eq as Ety Ec Eh Eta Eah Eat. rewrite <- Ep in Et |- *.
  apply (write_to_framed_leaks_address ∅ _ (w_net pair_world) 4120 s t [65] Hi Es).
  - rewrite Ep. discriminate.
  - exact Et.
  - rewrite Ety. discriminate.
  - exact (fresh_frames t (sw_ring _ (lk_wf _ _ (ui_links _ _ _ _ _ Hi) _ _ Et)) Ec Eh Eta Eah Eat).
  - by repeat constructor.
  - discriminate.
Defined.

(** references to files that are passed over a socket get lost. A receive
    that meets ten files delivers eight, and forgets the other two: they are
    neither delivered, nor queued, nor closed. A message to a framed socket and a
    listener that is closed forget theirs. *)
Theorem passed_files_lost :
  receive [CPair 1; CSendmsg 4120 [[1]] [11; 12; 13; 14; 15]; CSendmsg 4120 [[2]] [16; 17; 18; 19; 20]] 70688 2 =
    Ok (2, [[1; 2]], [11; 12; 13; 14; 15; 16; 17; 18], [], 0) /\
  receive [CPair 5; CSendmsg 4120 [[1]] [11]] 70688 1 = Ok (1, [[1]], [], [], 0) /\
  (w ← exec_calls [CSocket 1; CBind 4120 [47; 120] 2; CListen 4120 4; CSocket 1; CConnect 70688 [47; 120] 2; CSendmsg 70688 [[1]] [11]; CClose 4120]
         (boot unix_arena 7);
   Ok (u_closed (w_net w), elements (dom (u_socks (w_net w))))) = Ok ([], [70688]).
Proof. vm_compute. done. Qed.
