(* ===== verification/Blkdev.v ===== *)
(** * Blkdev: the block device layer of src/src/kernel/drivers/blkdev.c

    A driver is a class of operations on the state of a device, with the laws
    that its users rely on. [blkdev_read] and [blkdev_write] check the range of
    a transfer; a partition of a disk is again a driver, and the laws of the
    disk give those of the partition. [ramdisk] is a concrete device for
    examples, with sectors that fail. *)

From S2P Require Import Prelude.

Definition DISK_SECTOR_SIZE : Z := 512.

(** ** Drivers *)

(** The function pointers of [blkdev_t], and [disk_read_sector] of
    drivers/disk.c, which reads the boot disk by absolute sector. [None] and
    [false] stand for a result other than 0. *)
Class BlkDriver (D : Type) := {
  sector_count : D -> Z;
  drv_read : D -> Z -> Z -> option (list Z);
  drv_write : D -> Z -> Z -> list Z -> bool * D;
  disk_read_sector : D -> Z -> option (list Z);
}.

Section blkdev.
Context {D : Type} `{BlkDriver D}.

Definition blkdev_read (dev : D) (lba count : Z) : option (list Z) :=
  if count =? 0 then None
  else if (sector_count dev <=? lba) || (sector_count dev - lba <? count) then None
  else drv_read dev lba count.

Definition blkdev_write (dev : D) (lba count : Z) (buf : list Z) : bool * D :=
  if count =? 0 then (false, dev)
  else if (sector_count dev <=? lba) || (sector_count dev - lba <? count) then (false, dev)
  else drv_write dev lba count buf.
End blkdev.

(** What a driver promises: it is a sequence of sectors. A read that succeeds
    returns the sectors; a write changes no sector outside its range, and each
    one inside is, also when the write fails half way, the old or the new one. On
    a [sound] device no transfer fails, nor will one. *)
Definition sector_of (buf : list Z) (i : Z) : list Z :=
  take (Z.to_nat DISK_SECTOR_SIZE) (drop (Z.to_nat (DISK_SECTOR_SIZE * i)) buf).

Class BlkLaws (D : Type) `{BlkDriver D} := {
  sector : D -> Z -> list Z;
  dev_ok : D -> Prop;
  sector_count_range d : dev_ok d -> 0 <= sector_count d < 2 ^ 32;
  sector_len d i : dev_ok d -> zlen (sector d i) = DISK_SECTOR_SIZE;
  read_law d lba n l : dev_ok d -> 0 <= lba -> 0 < n -> lba + n <= sector_count d ->
    drv_read d lba n = Some l -> l = mjoin (sector d <$> seqZ lba n);
  write_law d lba n buf ok d' : dev_ok d -> 0 <= lba -> 0 < n -> lba + n <= sector_count d ->
    zlen buf = DISK_SECTOR_SIZE * n -> drv_write d lba n buf = (ok, d') ->
    dev_ok d' /\ sector_count d' = sector_count d /\
    (forall i, ~ (lba <= i < lba + n) -> sector d' i = sector d i) /\
    (forall i, 0 <= i < n -> sector d' (lba + i) = sector_of buf i \/
                             ok = false /\ sector d' (lba + i) = sector d (lba + i));
  sound : D -> Prop;
  sound_ok d : sound d -> dev_ok d;
  sound_read d lba n : sound d -> 0 <= lba -> 0 < n -> lba + n <= sector_count d ->
    is_Some (drv_read d lba n);
  sound_write d lba n buf : sound d -> 0 <= lba -> 0 < n -> lba + n <= sector_count d ->
    zlen buf = DISK_SECTOR_SIZE * n -> exists d', drv_write d lba n buf = (true, d') /\ sound d';
}.

(** ** Partitions *)

(** [part_priv_t] together with the disk it is on. *)
Record part_priv (D : Type) : Type := mk_part { p_parent : D; p_lba_start : Z; p_lba_count : Z; p_name : list Z }.
Arguments mk_part {D}.
Arguments p_parent {D}.
Arguments p_lba_start {D}.
Arguments p_lba_count {D}.
Arguments p_name {D}.

(** The list of registered devices, of any kind [X] with a name. *)
Section registry.
Context {X : Type} (name_of : X -> list Z).

Definition blkdev_register (dev : X) (devices : list X) : list X := dev :: devices.

Fixpoint blkdev_find (name : list Z) (devices : list X) : option X :=
  match devices with
  | [] => None
  | d :: devices' => if decide (name_of d = name) then Some d else blkdev_find name devices'
  end.
End registry.

Section partition.
Context {D : Type} `{BlkDriver D}.

Definition part_read (p : part_priv D) (lba count : Z) : option (list Z) :=
  if (p_lba_count p <=? lba) || (p_lba_count p - lba <? count) then None
  else blkdev_read (p_parent p) (u32 (p_lba_start p + lba)) count.

Definition part_write (p : part_priv D) (lba count : Z) (buf : list Z) : bool * part_priv D :=
  if (p_lba_count p <=? lba) || (p_lba_count p - lba <? count) then (false, p)
  else let (ok, d) := blkdev_write (p_parent p) (u32 (p_lba_start p + lba)) count buf in
       (ok, mk_part d (p_lba_start p) (p_lba_count p) (p_name p)).

#[global] Instance part_driver : BlkDriver (part_priv D) := {
  sector_count := p_lba_count;
  drv_read := part_read;
  drv_write := part_write;
  disk_read_sector p := disk_read_sector (p_parent p);
}.

(** The partition table: the first entry of type Linux that does not overlay
    the boot area, with its slot. *)
Definition mbr_entry (sec : list Z) (slot : Z) : res (option (Z * Z)) :=
  let e := 446 + slot * 16 in
  ty ← ld sec (e + 4);
  start ← ld32 sec (e + 8);
  count ← ld32 sec (e + 12);
  Ok (if (ty =? 131) && negb (count =? 0) && negb (start <? 2048) then Some (start, count) else None).

Fixpoint mbr_scan (sec : list Z) (n : nat) (slot : Z) : res (option (Z * Z * Z)) :=
  match n with
  | O => Ok None
  | S n' => e ← mbr_entry sec slot;
            match e with
            | Some (start, count) => Ok (Some (slot, start, count))
            | None => mbr_scan sec n' (slot + 1)
            end
  end.

(** The name in [p->name], twelve bytes with the final zero: ten characters of
    the disk's name, the letter p and the digit of the slot. [Fault] when the
    two [strcat] write past the end. *)
Definition part_name (disk_name : list Z) (slot : Z) : res (list Z) :=
  let name := take 10 disk_name ++ [112; 48 + slot + 1] in
  if 12 <=? zlen name then Fault else Ok name.

(** The partition of the first suitable entry, registered in [devices].
    [got_priv] and [got_dev] are the answers of the two [kmalloc]: [false] for
    NULL. The log lines are left out. *)
Definition mbr_first_linux (got_priv got_dev : bool) (disk : D) (disk_name : list Z) (devices : list (part_priv D)) :
    res (option (part_priv D) * list (part_priv D)) :=
  match blkdev_read disk 0 1 with
  | None => Ok (None, devices)
  | Some sec =>
      a ← ld sec 510;
      b ← ld sec 511;
      if negb (a =? 85) || negb (b =? 170) then Ok (None, devices) else
      r ← mbr_scan sec 4 0;
      match r with
      | None => Ok (None, devices)
      | Some (slot, start, count) =>
          if negb got_priv then Ok (None, devices) else
          name ← part_name disk_name slot;
          if negb got_dev then Ok (None, devices) else
          let dev := mk_part disk start count name in
          Ok (Some dev, blkdev_register dev devices)
      end
  end.
End partition.

(** ** A partition keeps to its sectors *)

Section partition_laws.
Context {D : Type} `{BlkLaws D}.

#[global] Program Instance part_laws : BlkLaws (part_priv D) := {
  sector p i := sector (p_parent p) (p_lba_start p + i);
  dev_ok p := dev_ok (p_parent p) /\ 0 <= p_lba_start p /\ 0 <= p_lba_count p < 2 ^ 32 /\
              p_lba_start p + p_lba_count p <= 2 ^ 32;
  sound p := sound (p_parent p) /\ 0 <= p_lba_start p /\ 0 <= p_lba_count p < 2 ^ 32 /\
             p_lba_start p + p_lba_count p <= sector_count (p_parent p);
}.
Next Obligation. intros p (_ & _ & Hc & _). exact Hc. Qed.
Next Obligation. intros p i (Hp & _). by apply sector_len. Qed.
Next Obligation.
  intros p lba n l (Hp & Hs & Hc & Hw) Hl Hn Hr. change (2 ^ 32) with 4294967296 in *. cbn in Hr |- *. unfold part_read.
  destruct (_ || _); [done|]. unfold blkdev_read. rewrite u32_small by lia.
  destruct (Z.eqb_spec n 0); [lia|].
  destruct (Z.leb_spec (sector_count (p_parent p)) (p_lba_start p + lba)); [done|].
  destruct (Z.ltb_spec (sector_count (p_parent p) - (p_lba_start p + lba)) n); [done|]. cbn.
  intros E. rewrite (read_law (p_parent p) (p_lba_start p + lba) n l) by (done || lia). f_equal.
  apply list_eq. intros k. rewrite !list_lookup_fmap.
  destruct (decide (Z.of_nat k < n)) as [Hk|Hk].
  - rewrite !lookup_seqZ_lt by lia. cbn. do 2 f_equal. lia.
  - by rewrite !lookup_seqZ_ge by lia.
Qed.
Next Obligation.
  intros [d0 s c nm] lba n buf ok p' (Hp & Hs & Hc & Hw) Hl Hn Hr Hb. change (2 ^ 32) with 4294967296 in *.
  cbn in * |-. assert (forall p, (false, p) = (ok, p') -> p = mk_part d0 s c nm -> ok = false /\ p' = mk_part d0 s c nm) as Hno.
  { by intros p [= <- <-] ->. }
  intros E. cut ((ok = false /\ p' = mk_part d0 s c nm) \/
                 exists d', drv_write d0 (s + lba) n buf = (ok, d') /\ p' = mk_part d' s c nm /\ s + lba + n <= sector_count d0).
  { intros [[-> ->]|(d' & Ew & -> & Hrange)]; cbn.
    - split_and!; try done; try lia. intros i Hi. by right.
    - destruct (write_law d0 (s + lba) n buf ok d' Hp ltac:(lia) Hn Hrange Hb Ew) as (Hp' & Hsc & Hout & Hin).
      split_and!; try done; try lia.
      + intros i Hi. apply Hout. lia.
      + intros i Hi. rewrite Z.add_assoc. by apply Hin. }
  revert E. change (drv_write (mk_part d0 s c nm)) with (part_write (mk_part d0 s c nm)). unfold part_write. cbn [p_lba_count p_lba_start p_parent].
  destruct (Z.leb_spec c lba); [lia|]. destruct (Z.ltb_spec (c - lba) n); [lia|]. cbn [orb].
  unfold blkdev_write. rewrite u32_small by lia. destruct (Z.eqb_spec n 0); [lia|].
  destruct (Z.leb_spec (sector_count d0) (s + lba)); cbn; [intros E; left; by eapply Hno|].
  destruct (Z.ltb_spec (sector_count d0 - (s + lba)) n); [intros E; left; by eapply Hno|].
  destruct (drv_write d0 (s + lba) n buf) as [ok' d'] eqn:E. intros [= <- <-]. right. exists d'. split_and!; [done|done|lia].
Qed.
Next Obligation.
  intros p (Hp & Hs & Hc & Hf). pose proof (sector_count_range _ (sound_ok _ Hp)). split_and!; try lia. by apply sound_ok.
Qed.
Next Obligation.
  intros [d0 s c nm] lba n (Hp & Hs & Hc & Hf) Hl Hn Hr. cbn in *. pose proof (sector_count_range _ (sound_ok _ Hp)) as Hsc.
  change (2 ^ 32) with 4294967296 in *. unfold part_read, blkdev_read. cbn. rewrite u32_small by lia.
  destruct (Z.leb_spec c lba); [lia|]. destruct (Z.ltb_spec (c - lba) n); [lia|]. destruct (Z.eqb_spec n 0); [lia|].
  destruct (Z.leb_spec (sector_count d0) (s + lba)); [lia|]. destruct (Z.ltb_spec (sector_count d0 - (s + lba)) n); [lia|]. cbn.
  apply sound_read; [done|lia..].
Qed.
Next Obligation.
  intros [d0 s c nm] lba n buf (Hp & Hs & Hc & Hf) Hl Hn Hr Hb. cbn in *. pose proof (sector_count_range _ (sound_ok _ Hp)) as Hsc.
  change (2 ^ 32) with 4294967296 in *. unfold part_write, blkdev_write. cbn. rewrite u32_small by lia.
  destruct (Z.leb_spec c lba); [lia|]. destruct (Z.ltb_spec (c - lba) n); [lia|]. destruct (Z.eqb_spec n 0); [lia|].
  destruct (Z.leb_spec (sector_count d0) (s + lba)); [lia|]. destruct (Z.ltb_spec (sector_count d0 - (s + lba)) n); [lia|]. cbn.
  destruct (sound_write d0 (s + lba) n buf) as (d' & E & Hd'); [done|lia..|]. rewrite E. eexists. split; [done|]. cbn.
  destruct (write_law d0 (s + lba) n buf true d') as (_ & -> & _); [by apply sound_ok|lia..|done|]. done.
Qed.
End partition_laws.

(** ** A disk in memory *)

(** Sectors that were never written are zero; a transfer that meets a sector of
    [rd_bad] fails there. *)
Record ramdisk : Type := mk_ramdisk { rd_count : Z; rd_data : gmap Z (list Z); rd_bad : list Z }.

Definition rd_sector (d : ramdisk) (i : Z) : list Z :=
  default (replicate (Z.to_nat DISK_SECTOR_SIZE) 0) (rd_data d !! i).

Definition rd_isbad (d : ramdisk) (i : Z) : bool := existsb (Z.eqb i) (rd_bad d).

Definition rd_read (d : ramdisk) (lba n : Z) : option (list Z) :=
  if existsb (rd_isbad d) (seqZ lba n) then None else Some (mjoin (rd_sector d <$> seqZ lba n)).

Fixpoint rd_write (n : nat) (d : ramdisk) (lba : Z) (buf : list Z) : bool * ramdisk :=
  match n with
  | O => (true, d)
  | S n' =>
      if rd_isbad d lba then (false, d)
      else rd_write n' (mk_ramdisk (rd_count d) (<[lba := sector_of buf 0]> (rd_data d)) (rd_bad d))
             (lba + 1) (drop (Z.to_nat DISK_SECTOR_SIZE) buf)
  end.

#[global] Instance ramdisk_driver : BlkDriver ramdisk := {
  sector_count := rd_count;
  drv_read := rd_read;
  drv_write d lba n buf := rd_write (Z.to_nat n) d lba buf;
  disk_read_sector d i := rd_read d i 1;
}.

Definition rd_ok (d : ramdisk) : Prop :=
  0 <= rd_count d < 2 ^ 32 /\ map_Forall (fun _ s => zlen s = DISK_SECTOR_SIZE) (rd_data d).

Lemma rd_sector_len d i : rd_ok d -> zlen (rd_sector d i) = DISK_SECTOR_SIZE.
Proof.
  intros [_ Hd]. unfold rd_sector. destruct (rd_data d !! i) as [s|] eqn:E; cbn; [by apply (Hd i)|].
  by rewrite zlen_replicate.
Qed.

Lemma sector_of_len buf i n : zlen buf = DISK_SECTOR_SIZE * n -> 0 <= i < n -> zlen (sector_of buf i) = DISK_SECTOR_SIZE.
Proof. unfold sector_of, DISK_SECTOR_SIZE, zlen. intros Hb Hi. rewrite length_take, length_drop. lia. Qed.

Lemma sector_of_drop buf i :
  0 <= i -> sector_of (drop (Z.to_nat DISK_SECTOR_SIZE) buf) i = sector_of buf (i + 1).
Proof. intros. unfold sector_of, DISK_SECTOR_SIZE. rewrite drop_drop. do 2 f_equal. lia. Qed.

Lemma rd_write_law n d lba buf ok d' :
  rd_ok d -> zlen buf = DISK_SECTOR_SIZE * Z.of_nat n -> rd_write n d lba buf = (ok, d') ->
  rd_ok d' /\ rd_count d' = rd_count d /\ rd_bad d' = rd_bad d /\
  (forall i, ~ (lba <= i < lba + Z.of_nat n) -> rd_sector d' i = rd_sector d i) /\
  (forall i, 0 <= i < Z.of_nat n -> rd_sector d' (lba + i) = sector_of buf i \/
                                    ok = false /\ rd_sector d' (lba + i) = rd_sector d (lba + i)).
Proof.
  revert d lba buf. induction n as [|n IH]; intros d lba buf Hd Hb; cbn [rd_write].
  { intros [= <- <-]. split_and!; try done. intros; lia. }
  destruct (rd_isbad d lba).
  { intros [= <- <-]. split_and!; try done. intros i Hi. by right. }
  set (d1 := mk_ramdisk _ _ _). intros E.
  assert (rd_sector d1 lba = sector_of buf 0) as H0 by (unfold rd_sector, d1; cbn; by rewrite lookup_insert_eq).
  assert (forall i, i <> lba -> rd_sector d1 i = rd_sector d i) as H1.
  { intros i Hi. unfold rd_sector, d1. cbn. by rewrite lookup_insert_ne. }
  assert (rd_ok d1) as Hd1.
  { destruct Hd as [? Hd]. split; [done|]. apply map_Forall_insert_2; [|done]. apply (sector_of_len buf 0 (Z.of_nat (S n))); lia. }
  destruct (IH d1 (lba + 1) (drop (Z.to_nat DISK_SECTOR_SIZE) buf) Hd1) as (Hok & Hc & Hbad & Hout & Hin); [|exact E|].
  { unfold zlen, DISK_SECTOR_SIZE in *. rewrite length_drop. lia. }
  split_and!; try done.
  - intros i Hi. rewrite Hout by lia. apply H1. lia.
  - intros i Hi. destruct (decide (i = 0)) as [->|Hne].
    + left. rewrite Z.add_0_r, Hout by lia. exact H0.
    + specialize (Hin (i - 1) ltac:(lia)). rewrite sector_of_drop in Hin by lia.
      replace (lba + 1 + (i - 1)) with (lba + i) in Hin by lia. replace (i - 1 + 1) with i in Hin by lia.
      rewrite H1 in Hin by lia. exact Hin.
Qed.

#[global] Program Instance ramdisk_laws : BlkLaws ramdisk := {
  sector := rd_sector;
  dev_ok := rd_ok;
  sound d := rd_ok d /\ rd_bad d = [];
}.
Next Obligation. by intros d [? _]. Qed.
Next Obligation. intros. by apply rd_sector_len. Qed.
Next Obligation. intros d lba n l _ _ _ _. cbn. unfold rd_read. destruct (existsb _ _); congruence. Qed.
Next Obligation.
  intros d lba n buf ok d' Hd Hl Hn Hr Hb E. cbn in E.
  assert (zlen buf = DISK_SECTOR_SIZE * Z.of_nat (Z.to_nat n)) as Hb' by (rewrite Z2Nat.id by lia; exact Hb).
  destruct (rd_write_law _ _ _ _ _ _ Hd Hb' E) as (? & ? & _ & Hout & Hin).
  rewrite Z2Nat.id in Hout, Hin by lia. done.
Qed.
Next Obligation. by intros d [? _]. Qed.
Next Obligation.
  intros d lba n [_ Hd] _ _ _. cbn. unfold rd_read. destruct (existsb _ _) eqn:E; [|by eexists].
  apply existsb_exists in E as (i & _ & Hi). unfold rd_isbad in Hi. by rewrite Hd in Hi.
Qed.
Next Obligation.
  intros d lba n buf [Hd Hbad] _ Hn _ Hb. cbn. destruct (rd_write (Z.to_nat n) d lba buf) as [ok d'] eqn:E.
  assert (zlen buf = DISK_SECTOR_SIZE * Z.of_nat (Z.to_nat n)) as Hb' by (rewrite Z2Nat.id by lia; exact Hb).
  destruct (rd_write_law _ _ _ _ _ _ Hd Hb' E) as (Hd' & _ & Hbad' & _). exists d'. rewrite Hbad' . split; [|done].
  f_equal. clear Hb Hb' Hd' Hbad' Hd Hn. revert d lba buf Hbad E. induction (Z.to_nat n) as [|k IH]; intros d lba buf Hbad; cbn.
  - by intros [= <- _].
  - unfold rd_isbad. rewrite Hbad. cbn. apply IH. done.
Qed.
