(* ===== verification/Ext2.v ===== *)
(** * Ext2: the ext2 file system of src/src/kernel/fs/ext2.c

    Block I/O, bitmaps, inodes, block mapping, directory entries, probe, the
    tree of a mount, reading, writing and creating files, and mkfs. The code
    runs in a state of the device and of the kernel heap, whose coming answers
    are a list of booleans. A computation of type [io D A] ends with a value, or
    with [None]: the C function's failure return (-1, 0 or NULL) or its [goto]
    to the exit that returns it. Scratch buffers are local values. *)

From S2P Require Import Prelude Blkdev.

(** ** Computations that may fail *)

Record world (D : Type) : Type := mk_world { w_dev : D; w_heap : list bool }.
Arguments mk_world {D}.
Arguments w_dev {D}.
Arguments w_heap {D}.

Definition io (D A : Type) : Type := world D -> res (option A * world D).

#[global] Instance io_ret (D : Type) : MRet (io D) := fun A a w => Ok (Some a, w).

#[global] Instance io_bind (D : Type) : MBind (io D) := fun A B f c w =>
  '(o, w') ← c w;
  match o with
  | Some a => f a w'
  | None => Ok (None, w')
  end.

Section computations.
Context {D : Type}.

Definition fail {A} : io D A := fun w => Ok (None, w).

Definition lift {A} (r : res A) : io D A := fun w => a ← r; Ok (Some a, w).

(** The result of [c] as a value: the caller looks at the return code. *)
Definition attempt {A} (c : io D A) : io D (option A) := fun w => '(o, w') ← c w; Ok (Some o, w').

Definition require (b : bool) : io D unit := if b then mret tt else fail.

(** A buffer from the heap; its size plays no part in the answer. *)
Definition heap_alloc : io D unit := fun w =>
  match w_heap w with
  | [] => Ok (Some tt, w)
  | true :: h => Ok (Some tt, mk_world (w_dev w) h)
  | false :: h => Ok (None, mk_world (w_dev w) h)
  end.
End computations.

(** ** Constants and the mount instance *)

Definition EXT2_SUPER_MAGIC : Z := 61267.
Definition EXT2_ROOT_INO : Z := 2.
Definition EXT2_LOSTFOUND_INO : Z := 11.
Definition EXT2_FT_REG_FILE : Z := 1.
Definition EXT2_FT_DIR : Z := 2.
Definition EXT2_S_IFDIR : Z := 16384.
Definition EXT2_S_IFREG : Z := 32768.
Definition EXT2_MAX_GROUPS : Z := 256.
Definition MAX_DIR_ENTRIES : Z := 2048.
Definition MKFS_BLOCK_SIZE : Z := 1024.
Definition MKFS_BLOCKS_PER_GROUP : Z := 8192.
Definition MKFS_INODES_PER_GROUP : Z := 2048.
Definition MKFS_INODE_SIZE : Z := 128.

(** [m_dev] says whether the device pointer is set. The fields of the graft
    point are those of the tree of fs.c and not part of this record. *)
Record ext2_mount : Type := mk_mount {
  m_dev : bool;
  m_writable : bool;
  m_ready : bool;
  m_inodes_count : Z;
  m_blocks_count : Z;
  m_first_data_block : Z;
  m_blocks_per_group : Z;
  m_inodes_per_group : Z;
  m_inode_size : Z;
  m_rev_level : Z;
  m_block_size : Z;
  m_spb : Z;
  m_gd_block : Z;
  m_ngroups : Z;
  m_block_bitmap : list Z;
  m_inode_bitmap : list Z;
  m_inode_table : list Z;
}.

Definition zeros (n : Z) : list Z := replicate (Z.to_nat n) 0.

Section ext2.
Context {D : Type} `{BlkDriver D}.
Notation io := (io D).

(** ** Block I/O *)

Definition m_read_block (m : ext2_mount) (block : Z) : io (list Z) := fun w =>
  let first_sector := u32 (block * m_spb m) in
  if m_dev m then Ok (blkdev_read (w_dev w) first_sector (m_spb m), w)
  else Ok (mjoin <$> mapM (fun s => disk_read_sector (w_dev w) (u32 (first_sector + s))) (seqZ 0 (m_spb m)), w).

Definition m_write_block (m : ext2_mount) (block : Z) (buffer : list Z) : io unit := fun w =>
  if m_dev m then
    let '(ok, d) := blkdev_write (w_dev w) (u32 (block * m_spb m)) (m_spb m) buffer in
    Ok (if ok then Some tt else None, mk_world d (w_heap w))
  else Ok (None, w).

(** ** Bitmaps *)

(** The first clear bit of a byte, from [bit] on. *)
Fixpoint clear_bit (n : nat) (v bit : Z) : option Z :=
  match n with
  | O => None
  | S n' => if Z.testbit v bit then clear_bit n' v (bit + 1) else Some bit
  end.

(** The bit that the inner loop takes, with the number it stands for. *)
Definition block_slot (m : ext2_mount) (g byte v : Z) : option (Z * Z) :=
  match clear_bit 8 v 0 with
  | None => None
  | Some bit =>
      let b := u32 (m_first_data_block m + g * m_blocks_per_group m + byte * 8 + bit) in
      if m_blocks_count m <=? b then None else Some (bit, b)
  end.

Fixpoint inode_bit (n : nat) (m : ext2_mount) (g byte v bit : Z) : option (Z * Z) :=
  match n with
  | O => None
  | S n' =>
      let idx := byte * 8 + bit in
      if m_inodes_per_group m <=? idx then None
      else if Z.testbit v bit then inode_bit n' m g byte v (bit + 1)
      else let ino := u32 (g * m_inodes_per_group m + idx + 1) in
           if m_inodes_count m <? ino then None else Some (bit, ino)
  end.

Definition inode_slot (m : ext2_mount) (g byte v : Z) : option (Z * Z) := inode_bit 8 m g byte v 0.

(** The loop over the bytes of one bitmap, [n] of them left from [byte]. A
    failed write leaves the bit set in the buffer and goes on. *)
Fixpoint scan_bytes (slot : Z -> Z -> option (Z * Z)) (m : ext2_mount) (blk : Z) (n : nat) (byte : Z) (bm : list Z) : io Z :=
  match n with
  | O => mret 0
  | S n' =>
      v ← lift (ld bm byte);
      if v =? 255 then scan_bytes slot m blk n' (byte + 1) bm else
      match slot byte v with
      | None => scan_bytes slot m blk n' (byte + 1) bm
      | Some (bit, r) =>
          bm ← lift (st bm byte (Z.lor v (Z.shiftl 1 bit)));
          ok ← attempt (m_write_block m blk bm);
          let result := match ok with Some _ => r | None => 0 end in
          if result =? 0 then scan_bytes slot m blk n' (byte + 1) bm else mret result
      end
  end.

(** The loop over the groups, from [g] on. *)
Fixpoint scan_groups (slot : Z -> Z -> Z -> option (Z * Z)) (m : ext2_mount) (table : list Z) (nbytes : Z) (n : nat) (g : Z) : io Z :=
  match n with
  | O => mret 0
  | S n' =>
      blk ← lift (ld table g);
      bm ← attempt (m_read_block m blk);
      match bm with
      | None => mret 0
      | Some bm =>
          result ← scan_bytes (slot g) m blk (Z.to_nat nbytes) 0 bm;
          if result =? 0 then scan_groups slot m table nbytes n' (g + 1) else mret result
      end
  end.

Definition m_alloc_block (m : ext2_mount) : io Z :=
  require (m_ready m && m_dev m);;
  heap_alloc;;
  result ← scan_groups (block_slot m) m (m_block_bitmap m) (m_block_size m) (Z.to_nat (m_ngroups m)) 0;
  if result =? 0 then fail else mret result.

Definition m_alloc_inode (m : ext2_mount) : io Z :=
  require (m_ready m && m_dev m);;
  heap_alloc;;
  result ← scan_groups (inode_slot m) m (m_inode_bitmap m) (u32 (m_inodes_per_group m + 7) / 8) (Z.to_nat (m_ngroups m)) 0;
  if result =? 0 then fail else mret result.

(** ** Inodes *)

Record ext2_inode : Type := mk_inode { i_mode : Z; i_size : Z; i_block : list Z }.

Definition zero_inode : ext2_inode := mk_inode 0 0 (zeros 15).

Definition m_inode_locate (m : ext2_mount) (ino : Z) : io (Z * Z) :=
  let group := u32 (ino - 1) / m_inodes_per_group m in
  let index := u32 (ino - 1) mod m_inodes_per_group m in
  if u32 (m_ngroups m) <=? group then fail else
  let byte_off := u32 (index * m_inode_size m) in
  table ← lift (ld (m_inode_table m) group);
  mret (u32 (table + byte_off / m_block_size m), byte_off mod m_block_size m).

Definition INO_OFF_MODE : Z := 0.
Definition INO_OFF_SIZE : Z := 4.
Definition INO_OFF_BLOCK : Z := 40.

Definition inode_decode (buf : list Z) (off : Z) : res ext2_inode :=
  mode ← ld16 buf (off + INO_OFF_MODE);
  size ← ld32 buf (off + INO_OFF_SIZE);
  block ← mapM (fun i => ld32 buf (off + INO_OFF_BLOCK + 4 * i)) (seqZ 0 15);
  Ok (mk_inode mode size block).

Definition inode_encode (buf : list Z) (off : Z) (i : ext2_inode) : res (list Z) :=
  buf ← splice buf (off + INO_OFF_MODE) (le16 (i_mode i));
  buf ← splice buf (off + INO_OFF_SIZE) (le32 (i_size i));
  splice buf (off + INO_OFF_BLOCK) (mjoin (le32 <$> i_block i)).

Definition m_read_inode (m : ext2_mount) (ino : Z) : io ext2_inode :=
  require (m_ready m && (1 <=? ino) && (ino <=? m_inodes_count m));;
  '(blk, off) ← m_inode_locate m ino;
  heap_alloc;;
  buf ← m_read_block m blk;
  lift (inode_decode buf off).

Definition m_write_inode (m : ext2_mount) (ino : Z) (i : ext2_inode) : io unit :=
  require (m_ready m && m_dev m);;
  '(blk, off) ← m_inode_locate m ino;
  heap_alloc;;
  buf ← m_read_block m blk;
  buf ← lift (inode_encode buf off i);
  m_write_block m blk buf.

(** ** Block mapping *)

Definition m_bmap (m : ext2_mount) (i_block : list Z) (bn : Z) : io Z :=
  let ppb := m_block_size m / 4 in
  if bn <? 12 then lift (ld i_block bn) else
  let bn := bn - 12 in
  if bn <? ppb then
    ind ← lift (ld i_block 12);
    if ind =? 0 then mret 0 else
    ibuf ← attempt (m_read_block m ind);
    match ibuf with
    | None => mret 0
    | Some ibuf => lift (ld32 ibuf (bn * 4))
    end
  else
    let bn := bn - ppb in
    if bn <? u32 (ppb * ppb) then
      dind ← lift (ld i_block 13);
      if dind =? 0 then mret 0 else
      ibuf ← attempt (m_read_block m dind);
      match ibuf with
      | None => mret 0
      | Some ibuf =>
          l1 ← lift (ld32 ibuf (bn / ppb * 4));
          if l1 =? 0 then mret 0 else
          ibuf ← attempt (m_read_block m l1);
          match ibuf with
          | None => mret 0
          | Some ibuf => lift (ld32 ibuf (bn mod ppb * 4))
          end
      end
    else mret 0.

Definition m_ind_get (m : ext2_mount) (blk idx : Z) : io Z :=
  ibuf ← m_read_block m blk;
  lift (ld32 ibuf (idx * 4)).

Definition m_ind_set (m : ext2_mount) (blk idx val : Z) : io unit :=
  ibuf ← m_read_block m blk;
  ibuf ← lift (splice ibuf (idx * 4) (le32 val));
  m_write_block m blk ibuf.

(** ** Directory entries *)

Definition dirent_min_len (name_len : Z) : Z := Z.land (8 + name_len + 3) 4294967292.

Definition dirent_put (buf : list Z) (slot ino rec_len : Z) (name : list Z) (ftype : Z) : res (list Z) :=
  let name_len := u8 (zlen name) in
  buf ← splice buf slot (le32 ino);
  buf ← splice buf (slot + 4) (le16 rec_len);
  buf ← st buf (slot + 6) name_len;
  buf ← st buf (slot + 7) ftype;
  splice buf (slot + 8) (take (Z.to_nat name_len) name).

(** The search of a block for room: the block with the new entry in it. *)
Fixpoint dirent_place (fuel : nat) (bs : Z) (dbuf : list Z) (off need : Z) (name : list Z) (child ftype : Z) : res (option (list Z)) :=
  match fuel with
  | O => Timeout
  | S fuel' =>
      if bs <? off + 8 then Ok None else
      ino0 ← ld32 dbuf off;
      rec_len ← ld16 dbuf (off + 4);
      if rec_len <? 8 then Ok None else
      nl ← ld dbuf (off + 6);
      if ino0 =? 0 then
        if need <=? rec_len then b ← dirent_put dbuf off child rec_len name ftype; Ok (Some b)
        else dirent_place fuel' bs dbuf (off + rec_len) need name child ftype
      else
        let mine := dirent_min_len nl in
        if mine + need <=? rec_len then
          dbuf ← splice dbuf (off + 4) (le16 (u16 mine));
          b ← dirent_put dbuf (off + mine) child (u16 (rec_len - mine)) name ftype;
          Ok (Some b)
        else dirent_place fuel' bs dbuf (off + rec_len) need name child ftype
  end.

(** An entry has at least 8 bytes. *)
Definition dirent_fuel (bs : Z) : nat := S (Z.to_nat (bs / 8)).

(** The loop over the blocks of the directory; [true] when the entry is in. *)
Fixpoint dir_scan (m : ext2_mount) (i_block : list Z) (n : nat) (b need : Z) (name : list Z) (child ftype : Z) : io bool :=
  match n with
  | O => mret false
  | S n' =>
      let next := dir_scan m i_block n' (b + 1) need name child ftype in
      phys ← m_bmap m i_block b;
      if phys =? 0 then next else
      dbuf ← attempt (m_read_block m phys);
      match dbuf with
      | None => next
      | Some dbuf =>
          r ← lift (dirent_place (dirent_fuel (m_block_size m)) (m_block_size m) dbuf 0 need name child ftype);
          match r with
          | None => next
          | Some dbuf =>
              ok ← attempt (m_write_block m phys dbuf);
              match ok with Some _ => mret true | None => next end
          end
      end
  end.

(** The pointers of the directory with the new block [nb] as block [bn]. *)
Definition dir_append (m : ext2_mount) (i_block : list Z) (bn nb : Z) : io (list Z) :=
  if bn <? 12 then lift (st i_block bn nb) else
  let l1 := bn - 12 in
  if l1 <? m_block_size m / 4 then
    ind ← lift (ld i_block 12);
    i_block ← (if ind =? 0 then
                 ind ← m_alloc_block m;
                 m_write_block m ind (zeros (m_block_size m));;
                 lift (st i_block 12 ind)
               else mret i_block);
    ind ← lift (ld i_block 12);
    m_ind_set m ind l1 nb;;
    mret i_block
  else fail.

Definition m_add_dirent (m : ext2_mount) (dir_ino : Z) (name : list Z) (child_ino ftype : Z) : io unit :=
  dir ← m_read_inode m dir_ino;
  require (truthy (Z.land (i_mode dir) EXT2_S_IFDIR));;
  require (negb (zlen name =? 0) && (zlen name <=? 255));;
  heap_alloc;; heap_alloc;;
  let bs := m_block_size m in
  let nblocks := u32 (i_size dir + bs - 1) / bs in
  found ← dir_scan m (i_block dir) (Z.to_nat nblocks) 0 (dirent_min_len (zlen name)) name child_ino ftype;
  if found : bool then mret tt else
  nb ← m_alloc_block m;
  dbuf ← lift (dirent_put (zeros bs) 0 child_ino (u16 bs) name ftype);
  m_write_block m nb dbuf;;
  blocks ← dir_append m (i_block dir) nblocks nb;
  m_write_inode m dir_ino (mk_inode (i_mode dir) (u32 (i_size dir + bs)) blocks).

(** ** Probe *)

Definition SB_OFF_INODES_COUNT : Z := 0.
Definition SB_OFF_BLOCKS_COUNT : Z := 4.
Definition SB_OFF_FIRST_DATA_BLOCK : Z := 20.
Definition SB_OFF_LOG_BLOCK_SIZE : Z := 24.
Definition SB_OFF_BLOCKS_PER_GROUP : Z := 32.
Definition SB_OFF_FRAGS_PER_GROUP : Z := 36.
Definition SB_OFF_INODES_PER_GROUP : Z := 40.
Definition SB_OFF_MAGIC : Z := 56.
Definition SB_OFF_STATE : Z := 58.
Definition SB_OFF_REV_LEVEL : Z := 76.
Definition SB_OFF_FIRST_INO : Z := 84.
Definition SB_OFF_INODE_SIZE : Z := 88.
Definition GD_OFF_BLOCK_BITMAP : Z := 0.
Definition GD_OFF_INODE_BITMAP : Z := 4.
Definition GD_OFF_INODE_TABLE : Z := 8.

Definition set_tables (m : ext2_mount) (bb ib it : list Z) : ext2_mount :=
  mk_mount (m_dev m) (m_writable m) (m_ready m) (m_inodes_count m) (m_blocks_count m) (m_first_data_block m)
    (m_blocks_per_group m) (m_inodes_per_group m) (m_inode_size m) (m_rev_level m) (m_block_size m) (m_spb m)
    (m_gd_block m) (m_ngroups m) bb ib it.

Definition set_ready (m : ext2_mount) : ext2_mount :=
  mk_mount (m_dev m) (m_writable m) true (m_inodes_count m) (m_blocks_count m) (m_first_data_block m)
    (m_blocks_per_group m) (m_inodes_per_group m) (m_inode_size m) (m_rev_level m) (m_block_size m) (m_spb m)
    (m_gd_block m) (m_ngroups m) (m_block_bitmap m) (m_inode_bitmap m) (m_inode_table m).

(** The loop that caches the group descriptors: [gb] holds block [cur_blk], and
    nothing before the first read. *)
Fixpoint load_gdt (m : ext2_mount) (n : nat) (g cur_blk : Z) (gb : list Z) : io ext2_mount :=
  match n with
  | O => mret m
  | S n' =>
      let gd_index := u32 (g * 32) in
      let blk := u32 (m_gd_block m + gd_index / m_block_size m) in
      let off := gd_index mod m_block_size m in
      gb ← (if blk =? cur_blk then mret gb else m_read_block m blk);
      b ← lift (ld32 gb (off + GD_OFF_BLOCK_BITMAP));
      i ← lift (ld32 gb (off + GD_OFF_INODE_BITMAP));
      t ← lift (ld32 gb (off + GD_OFF_INODE_TABLE));
      bb ← lift (st (m_block_bitmap m) g b);
      ib ← lift (st (m_inode_bitmap m) g i);
      it ← lift (st (m_inode_table m) g t);
      load_gdt (set_tables m bb ib it) n' (g + 1) blk gb
  end.

(** The fields taken from the superblock; [None] when the geometry is refused.
    [ngroups] is an [int] and compared as one. *)
Definition super_fields (m : ext2_mount) (buf : list Z) : res (option ext2_mount) :=
  magic ← ld16 buf SB_OFF_MAGIC;
  if negb (magic =? EXT2_SUPER_MAGIC) then Ok None else
  inodes_count ← ld32 buf SB_OFF_INODES_COUNT;
  blocks_count ← ld32 buf SB_OFF_BLOCKS_COUNT;
  first_data_block ← ld32 buf SB_OFF_FIRST_DATA_BLOCK;
  log_bs ← ld32 buf SB_OFF_LOG_BLOCK_SIZE;
  blocks_per_group ← ld32 buf SB_OFF_BLOCKS_PER_GROUP;
  inodes_per_group ← ld32 buf SB_OFF_INODES_PER_GROUP;
  rev_level ← ld32 buf SB_OFF_REV_LEVEL;
  if 6 <? log_bs then Ok None else
  let block_size := Z.shiftl 1024 log_bs in
  sb_inode_size ← ld16 buf SB_OFF_INODE_SIZE;
  let inode_size := if 1 <=? rev_level then sb_inode_size else 128 in
  if inode_size <? 128 then Ok None else
  if (blocks_per_group =? 0) || (8 * block_size <? blocks_per_group) || (inodes_per_group =? 0) then Ok None else
  let ngroups := s32 (u32 (blocks_count + blocks_per_group - 1) / blocks_per_group) in
  let ng_inodes := u32 (inodes_count + inodes_per_group - 1) / inodes_per_group in
  let ngroups := if u32 ngroups <? ng_inodes then s32 ng_inodes else ngroups in
  if EXT2_MAX_GROUPS <? ngroups then Ok None else
  Ok (Some (mk_mount (m_dev m) (m_writable m) (m_ready m) inodes_count blocks_count first_data_block
              blocks_per_group inodes_per_group inode_size rev_level block_size (block_size / DISK_SECTOR_SIZE)
              (u32 (first_data_block + 1)) ngroups
              (zeros EXT2_MAX_GROUPS) (zeros EXT2_MAX_GROUPS) (zeros EXT2_MAX_GROUPS))).

Definition ext2_probe_m (m : ext2_mount) : io ext2_mount :=
  buf ← (fun w => Ok (if m_dev m then blkdev_read (w_dev w) 2 1 else disk_read_sector (w_dev w) 2, w));
  r ← lift (super_fields m buf);
  match r with
  | None => fail
  | Some m =>
      heap_alloc;;
      m ← load_gdt m (Z.to_nat (m_ngroups m)) 0 4294967295 [];
      mret (set_ready m)
  end.

(** ** The tree of a mount *)

(** The part of [fs_entry_t] that the driver fills in. *)
Inductive fs_node : Type := Node (name : list Z) (is_dir : bool) (ino size : Z) (children : list fs_node).

(** The node, and for a directory its table of children. *)
Definition ext2_new_node (is_dir : bool) : io unit :=
  heap_alloc;;
  if is_dir then heap_alloc else mret tt.

(** The type of an entry; for an unknown one the inode is read. *)
Definition entry_is_dir (m : ext2_mount) (ino ftype : Z) : io bool :=
  if ftype =? EXT2_FT_DIR then mret true
  else if ftype =? EXT2_FT_REG_FILE then mret false
  else ci ← m_read_inode m ino;
       mret (truthy (Z.land (i_mode ci) EXT2_S_IFDIR)).

Definition file_size (m : ext2_mount) (ino : Z) (is_dir : bool) : io Z :=
  if is_dir then mret 0 else
  ci ← attempt (m_read_inode m ino);
  mret (match ci with Some ci => i_size ci | None => 0 end).

(** One entry: the children so far, with its node where it gets one. *)
Definition load_entry (load : Z -> io (list fs_node)) (m : ext2_mount) (name : list Z) (ino ftype : Z) (acc : list fs_node) : io (list fs_node) :=
  if bool_decide (name = [46]) || bool_decide (name = [46; 46]) then mret acc else
  t ← attempt (entry_is_dir m ino ftype);
  match t with
  | None => mret acc
  | Some is_dir =>
      size ← file_size m ino is_dir;
      node ← attempt (ext2_new_node is_dir);
      match node with
      | None => mret acc
      | Some _ =>
          children ← (if is_dir : bool then load ino else mret []);
          mret (acc ++ [Node name is_dir ino size children])
      end
  end.

Fixpoint load_entries (load : Z -> io (list fs_node)) (m : ext2_mount) (fuel : nat) (bbuf : list Z) (off : Z) (acc : list fs_node) : io (list fs_node) :=
  match fuel with
  | O => lift Timeout
  | S fuel' =>
      if (m_block_size m <? off + 8) || (MAX_DIR_ENTRIES <=? zlen acc) then mret acc else
      ino ← lift (ld32 bbuf off);
      rec_len ← lift (ld16 bbuf (off + 4));
      name_len ← lift (ld bbuf (off + 6));
      ftype ← lift (ld bbuf (off + 7));
      if rec_len <? 8 then mret acc else
      acc ← (if (ino =? 0) || (name_len =? 0) then mret acc else
             name ← lift (slice bbuf (off + 8) name_len);
             load_entry load m (c_string name) ino ftype acc);
      load_entries load m fuel' bbuf (off + rec_len) acc
  end.

Fixpoint load_blocks (load : Z -> io (list fs_node)) (m : ext2_mount) (i_block : list Z) (n : nat) (b : Z) (acc : list fs_node) : io (list fs_node) :=
  match n with
  | O => mret acc
  | S n' =>
      if MAX_DIR_ENTRIES <=? zlen acc then mret acc else
      phys ← m_bmap m i_block b;
      acc ← (if phys =? 0 then mret acc else
             bbuf ← attempt (m_read_block m phys);
             match bbuf with
             | None => mret acc
             | Some bbuf => load_entries load m (dirent_fuel (m_block_size m)) bbuf 0 acc
             end);
      load_blocks load m i_block n' (b + 1) acc
  end.

(** The children of directory [ino]; [depth] bounds the nesting. *)
Fixpoint ext2_load_dir_recursive (depth : nat) (m : ext2_mount) (ino : Z) : io (list fs_node) :=
  match depth with
  | O => lift Timeout
  | S depth' =>
      inode ← attempt (m_read_inode m ino);
      match inode with
      | None => mret []
      | Some inode =>
          if negb (truthy (Z.land (i_mode inode) EXT2_S_IFDIR)) then mret [] else
          bufs ← attempt (heap_alloc;; heap_alloc);
          match bufs with
          | None => mret []
          | Some _ =>
              let bs := m_block_size m in
              load_blocks (ext2_load_dir_recursive depth' m) m (i_block inode) (Z.to_nat (u32 (i_size inode + bs - 1) / bs)) 0 []
          end
      end
  end.

Definition ext2_build_tree_m (depth : nat) (m : ext2_mount) : io fs_node :=
  ext2_new_node true;;
  children ← ext2_load_dir_recursive depth m EXT2_ROOT_INO;
  mret (Node [47] true EXT2_ROOT_INO 0 children).

(** ** Reading a file *)

(** The loop of the read: [out] is what the buffer holds so far. *)
Fixpoint read_blocks (m : ext2_mount) (i_block : list Z) (size : Z) (n : nat) (b : Z) (out : list Z) : io (list Z) :=
  match n with
  | O => mret out
  | S n' =>
      let offset := zlen out in
      if size <=? offset then mret out else
      let copy := if size <? offset + m_block_size m then size - offset else m_block_size m in
      phys ← m_bmap m i_block b;
      if phys =? 0 then read_blocks m i_block size n' (b + 1) (out ++ zeros copy) else
      bbuf ← attempt (m_read_block m phys);
      match bbuf with
      | None => mret out
      | Some bbuf =>
          d ← lift (slice bbuf 0 copy);
          read_blocks m i_block size n' (b + 1) (out ++ d)
      end
  end.

(** The bytes put in the caller's buffer; their number is the return value. *)
Definition ext2_read_file_m (m : ext2_mount) (ino size : Z) : io (list Z) :=
  inode ← m_read_inode m ino;
  let size := if i_size inode <? size then i_size inode else size in
  heap_alloc;; heap_alloc;;
  let nblocks := u32 (u32 size + m_block_size m - 1) / m_block_size m in
  read_blocks m (i_block inode) size (Z.to_nat nblocks) 0 [].

Definition ext2_read_file_at (m : ext2_mount) (ino size : Z) : io (list Z) :=
  require (m_ready m);;
  ext2_read_file_m m ino size.

(** ** Writing a file *)

(** [inode.block[i]], allocated when it is 0. *)
Definition root_slot (m : ext2_mount) (i_block : list Z) (i : Z) : io (Z * list Z) :=
  phys ← lift (ld i_block i);
  if phys =? 0 then
    phys ← m_alloc_block m;
    i_block ← lift (st i_block i phys);
    mret (phys, i_block)
  else mret (phys, i_block).

(** Pointer [idx] of the indirect block [blk], allocated when it is 0. *)
Definition ind_slot (m : ext2_mount) (blk idx : Z) : io Z :=
  phys ← m_ind_get m blk idx;
  if phys =? 0 then
    phys ← m_alloc_block m;
    m_ind_set m blk idx phys;;
    mret phys
  else mret phys.

(** The block that holds logical block [bn]. *)
Definition write_map (m : ext2_mount) (i_block : list Z) (bn : Z) : io (Z * list Z) :=
  let ppb := m_block_size m / 4 in
  if bn <? 12 then root_slot m i_block bn else
  let l1 := bn - 12 in
  if l1 <? ppb then
    '(ind, i_block) ← root_slot m i_block 12;
    phys ← ind_slot m ind l1;
    mret (phys, i_block)
  else
    let l2 := l1 - ppb in
    if u32 (ppb * ppb) <=? l2 then fail else
    '(dind, i_block) ← root_slot m i_block 13;
    l1blk ← ind_slot m dind (l2 / ppb);
    phys ← ind_slot m l1blk (l2 mod ppb);
    mret (phys, i_block).

(** The scratch buffer: the piece of the data at [off], padded with zeros. *)
Definition file_chunk (bs : Z) (data : list Z) (off : Z) : list Z :=
  let piece := take (Z.to_nat bs) (drop (Z.to_nat off) data) in
  piece ++ zeros (bs - zlen piece).

Fixpoint write_blocks (m : ext2_mount) (data i_block : list Z) (n : nat) (bn : Z) : io (list Z) :=
  match n with
  | O => mret i_block
  | S n' =>
      '(phys, i_block) ← write_map m i_block bn;
      m_write_block m phys (file_chunk (m_block_size m) data (bn * m_block_size m));;
      write_blocks m data i_block n' (bn + 1)
  end.

Definition ext2_write_file (m : ext2_mount) (ino : Z) (data : list Z) : io Z :=
  require (m_ready m && m_writable m);;
  inode ← m_read_inode m ino;
  require (truthy (Z.land (i_mode inode) EXT2_S_IFREG));;
  heap_alloc;; heap_alloc;; heap_alloc;;
  let bs := m_block_size m in
  let nblocks := u32 ((zlen data + bs - 1) / bs) in
  blocks ← write_blocks m data (i_block inode) (Z.to_nat nblocks) 0;
  m_write_inode m ino (mk_inode (i_mode inode) (u32 (zlen data)) blocks);;
  mret (s32 (zlen data)).

(** ** Creating files and directories *)

Definition name_ok (name : list Z) : bool := negb (zlen name =? 0) && (zlen name <=? 255).

Definition ext2_create_file (m : ext2_mount) (dir_ino : Z) (name : list Z) : io Z :=
  require (m_ready m && m_writable m);;
  require (name_ok name);;
  ino ← m_alloc_inode m;
  m_write_inode m ino (mk_inode 33188 0 (zeros 15));;
  m_add_dirent m dir_ino name ino EXT2_FT_REG_FILE;;
  mret ino.

Definition dot : list Z := [46].
Definition dotdot : list Z := [46; 46].

Definition ext2_create_dir (m : ext2_mount) (dir_ino : Z) (name : list Z) : io Z :=
  require (m_ready m && m_writable m);;
  require (name_ok name);;
  ino ← m_alloc_inode m;
  blk ← m_alloc_block m;
  heap_alloc;;
  dbuf ← lift (dirent_put (zeros (m_block_size m)) 0 ino 12 dot EXT2_FT_DIR);
  dbuf ← lift (dirent_put dbuf 12 dir_ino (u16 (m_block_size m - 12)) dotdot EXT2_FT_DIR);
  m_write_block m blk dbuf;;
  m_write_inode m ino (mk_inode 16877 (m_block_size m) (<[0%nat := blk]> (zeros 15)));;
  m_add_dirent m dir_ino name ino EXT2_FT_DIR;;
  mret ino.

(** ** mkfs *)

(** The geometry of a device of [sectors] sectors; the tables of the groups
    follow the descriptor table, 258 blocks for each group. *)
Definition mkfs_ngroups (sectors : Z) : Z := (sectors / 2 + MKFS_BLOCKS_PER_GROUP - 1) / MKFS_BLOCKS_PER_GROUP.

Definition mkfs_gdt_blocks (sectors : Z) : Z := (mkfs_ngroups sectors * 32 + MKFS_BLOCK_SIZE - 1) / MKFS_BLOCK_SIZE.

Definition mkfs_meta_end (sectors : Z) : Z := 2 + mkfs_gdt_blocks sectors + mkfs_ngroups sectors * 258.

Definition mkfs_table (sectors k : Z) : list Z :=
  (fun g => if g <? mkfs_ngroups sectors then 2 + mkfs_gdt_blocks sectors + g * 258 + k else 0) <$> seqZ 0 EXT2_MAX_GROUPS.

Definition mkfs_mount (sectors : Z) : ext2_mount :=
  mk_mount true false true (mkfs_ngroups sectors * MKFS_INODES_PER_GROUP) (sectors / 2) 1 MKFS_BLOCKS_PER_GROUP
    MKFS_INODES_PER_GROUP MKFS_INODE_SIZE 1 MKFS_BLOCK_SIZE 2 0 (mkfs_ngroups sectors)
    (mkfs_table sectors 0) (mkfs_table sectors 1) (mkfs_table sectors 2).

(** The loop that zeroes the metadata; a failed write only ends it. *)
Fixpoint zero_blocks (m : ext2_mount) (n : nat) (b : Z) : io unit :=
  match n with
  | O => mret tt
  | S n' =>
      ok ← attempt (m_write_block m b (zeros MKFS_BLOCK_SIZE));
      match ok with
      | None => mret tt
      | Some _ => zero_blocks m n' (b + 1)
      end
  end.

(** The descriptors; [gd] is at first what the heap returned. *)
Fixpoint write_gdt (m : ext2_mount) (n : nat) (g : Z) (gd : list Z) : io unit :=
  match n with
  | O => mret tt
  | S n' =>
      let gd_index := g * 32 in
      let blk := 2 + gd_index / MKFS_BLOCK_SIZE in
      let off := gd_index mod MKFS_BLOCK_SIZE in
      b ← lift (ld (m_block_bitmap m) g);
      i ← lift (ld (m_inode_bitmap m) g);
      t ← lift (ld (m_inode_table m) g);
      gd ← lift (splice gd (off + GD_OFF_BLOCK_BITMAP) (le32 b));
      gd ← lift (splice gd (off + GD_OFF_INODE_BITMAP) (le32 i));
      gd ← lift (splice gd (off + GD_OFF_INODE_TABLE) (le32 t));
      if (g + 1 =? m_ngroups m) || ((g + 1) * 32 mod MKFS_BLOCK_SIZE =? 0) then
        m_write_block m blk gd;;
        write_gdt m n' (g + 1) (if g + 1 <? m_ngroups m then zeros MKFS_BLOCK_SIZE else gd)
      else write_gdt m n' (g + 1) gd
  end.

Definition set_bit (bm : list Z) (i : Z) : res (list Z) :=
  v ← ld bm (i / 8);
  st bm (i / 8) (Z.lor v (Z.shiftl 1 (i mod 8))).

(** The block bitmap of group [g]: metadata, root directory, lost+found and
    what is beyond the device are in use. *)
Definition mkfs_block_bitmap (m : ext2_mount) (meta_end g : Z) : res (list Z) :=
  for_ 0 MKFS_BLOCKS_PER_GROUP (fun i bm =>
    let b := m_first_data_block m + g * MKFS_BLOCKS_PER_GROUP + i in
    if (m_blocks_count m <=? b) || (b <? meta_end + 2) then set_bit bm i else Ok bm) (zeros MKFS_BLOCK_SIZE).

Definition mkfs_inode_bitmap (g : Z) : res (list Z) :=
  if g =? 0 then for_ 0 EXT2_LOSTFOUND_INO (fun i bm => set_bit bm i) (zeros MKFS_BLOCK_SIZE)
  else Ok (zeros MKFS_BLOCK_SIZE).

Fixpoint write_bitmaps (m : ext2_mount) (table : list Z) (bitmap : Z -> res (list Z)) (n : nat) (g : Z) : io unit :=
  match n with
  | O => mret tt
  | S n' =>
      bm ← lift (bitmap g);
      blk ← lift (ld table g);
      m_write_block m blk bm;;
      write_bitmaps m table bitmap n' (g + 1)
  end.

Definition lost_found : list Z := [108; 111; 115; 116; 43; 102; 111; 117; 110; 100].

Definition mkfs_root_dir : res (list Z) :=
  zb ← dirent_put (zeros MKFS_BLOCK_SIZE) 0 EXT2_ROOT_INO 12 dot EXT2_FT_DIR;
  zb ← dirent_put zb 12 EXT2_ROOT_INO 12 dotdot EXT2_FT_DIR;
  dirent_put zb 24 EXT2_LOSTFOUND_INO (u16 (MKFS_BLOCK_SIZE - 24)) lost_found EXT2_FT_DIR.

Definition mkfs_lost_found_dir : res (list Z) :=
  zb ← dirent_put (zeros MKFS_BLOCK_SIZE) 0 EXT2_LOSTFOUND_INO 12 dot EXT2_FT_DIR;
  dirent_put zb 12 EXT2_ROOT_INO (u16 (MKFS_BLOCK_SIZE - 12)) dotdot EXT2_FT_DIR.

(** A block of an inode table with one directory in it. *)
Definition mkfs_dir_inode (raw blk : Z) : res (list Z) :=
  zb ← splice (zeros MKFS_BLOCK_SIZE) (raw + INO_OFF_MODE) (le16 16877);
  zb ← splice zb (raw + INO_OFF_SIZE) (le32 MKFS_BLOCK_SIZE);
  splice zb (raw + INO_OFF_BLOCK) (le32 blk).

Definition mkfs_super (m : ext2_mount) : res (list Z) :=
  sb ← splice (zeros MKFS_BLOCK_SIZE) SB_OFF_INODES_COUNT (le32 (m_inodes_count m));
  sb ← splice sb SB_OFF_BLOCKS_COUNT (le32 (m_blocks_count m));
  sb ← splice sb SB_OFF_FIRST_DATA_BLOCK (le32 (m_first_data_block m));
  sb ← splice sb SB_OFF_LOG_BLOCK_SIZE (le32 0);
  sb ← splice sb SB_OFF_BLOCKS_PER_GROUP (le32 (m_blocks_per_group m));
  sb ← splice sb SB_OFF_FRAGS_PER_GROUP (le32 (m_blocks_per_group m));
  sb ← splice sb SB_OFF_INODES_PER_GROUP (le32 (m_inodes_per_group m));
  sb ← splice sb SB_OFF_MAGIC (le16 EXT2_SUPER_MAGIC);
  sb ← splice sb SB_OFF_STATE (le16 1);
  sb ← splice sb SB_OFF_REV_LEVEL (le32 1);
  sb ← splice sb SB_OFF_FIRST_INO (le32 11);
  splice sb SB_OFF_INODE_SIZE (le16 MKFS_INODE_SIZE).

(** From the zeroing of the metadata to the superblock. *)
Definition mkfs_write (m : ext2_mount) (meta_end : Z) (gd : list Z) : io unit :=
  zero_blocks m (Z.to_nat (meta_end - 1)) 1;;
  write_gdt m (Z.to_nat (m_ngroups m)) 0 gd;;
  write_bitmaps m (m_block_bitmap m) (mkfs_block_bitmap m meta_end) (Z.to_nat (m_ngroups m)) 0;;
  write_bitmaps m (m_inode_bitmap m) mkfs_inode_bitmap (Z.to_nat (m_ngroups m)) 0;;
  zb ← lift mkfs_root_dir;
  m_write_block m meta_end zb;;
  zb ← lift mkfs_lost_found_dir;
  m_write_block m (meta_end + 1) zb;;
  table ← lift (ld (m_inode_table m) 0);
  zb ← lift (mkfs_dir_inode 128 meta_end);
  m_write_block m table zb;;
  zb ← lift (mkfs_dir_inode 256 (meta_end + 1));
  m_write_block m (table + 1) zb;;
  sb ← lift (mkfs_super m);
  m_write_block m 1 sb.

(** [hosts_root] and [mounted]: the device holds the boot root or a live mount.
    [gd] is the memory that the heap returns for the descriptors. *)
Definition ext2_mkfs (hosts_root mounted force : bool) (gd : list Z) : io unit :=
  require (force || negb hosts_root);;
  require (negb mounted);;
  sectors ← (fun w => Ok (Some (sector_count (w_dev w)), w));
  require (16384 <=? sectors);;
  require (mkfs_ngroups sectors <=? EXT2_MAX_GROUPS);;
  let meta_end := mkfs_meta_end sectors in
  require (meta_end + 2 <? sectors / 2);;
  heap_alloc;; heap_alloc;; heap_alloc;; heap_alloc;; heap_alloc;;
  mkfs_write (mkfs_mount sectors) meta_end gd.
End ext2.
