(* ===== verification/Ext2Store.v ===== *)
(** * Ext2Store: the blocks of an ext2 device

    A calculus of weakest preconditions for the computations of Ext2.v, and the
    device as a function from block numbers to bytes ([sees]). Reads and
    writes of blocks are specified on that function, with every outcome of a
    transfer that fails: a block that was being written is a mixture of old and
    new sectors. *)

From S2P Require Import Prelude Blkdev Ext2.

(** ** Weakest preconditions *)

Section wp.
Context {D : Type}.

(** [c] ends in [w] without a fault, with an outcome and a state in [Q]. *)
Definition wp {A} (c : io D A) (Q : option A -> world D -> Prop) (w : world D) : Prop :=
  total (fun '(o, w') => Q o w') (c w).

Lemma wp_mono {A} (c : io D A) (Q Q' : option A -> world D -> Prop) w :
  wp c Q w -> (forall o w', Q o w' -> Q' o w') -> wp c Q' w.
Proof. unfold wp. intros Hc HQ. eapply post_conseq; [exact Hc|]. intros [o w']. apply HQ. Qed.

Lemma wp_ret {A} (a : A) Q w : Q (Some a) w -> wp (mret a) Q w.
Proof. done. Qed.

Lemma wp_fail {A} (Q : option A -> world D -> Prop) w : Q None w -> wp fail Q w.
Proof. done. Qed.

Lemma wp_bind {A B} (c : io D A) (f : A -> io D B) Q w :
  wp c (fun o w' => match o with Some a => wp (f a) Q w' | None => Q None w' end) w -> wp (c ≫= f) Q w.
Proof.
  unfold wp, total. cbn. unfold io_bind. intros Hc. eapply post_bind; [exact Hc|].
  intros [[a|] w'] Ha; exact Ha.
Qed.

Lemma wp_attempt {A} (c : io D A) Q w : wp c (fun o w' => Q (Some o) w') w -> wp (attempt c) Q w.
Proof. unfold wp, attempt. intros Hc. eapply total_bind; [exact Hc|]. by intros [o w']. Qed.

Lemma wp_lift {A} (r : res A) a Q w : r = Ok a -> Q (Some a) w -> wp (lift r) Q w.
Proof. unfold wp, lift. by intros -> HQ. Qed.

Lemma wp_require b Q w : (b = true -> Q (Some tt) w) -> (b = false -> Q None w) -> wp (require b) Q w.
Proof. destruct b; [intros HQ _; by apply HQ|intros _ HQ; by apply HQ]. Qed.

Lemma wp_result {A} (c : io D A) Q w : wp c Q w -> exists o w', c w = Ok (o, w') /\ Q o w'.
Proof. intros Hc. apply total_Ok in Hc as ([o w'] & E & HQ). by exists o, w'. Qed.

End wp.

(** ** Stores *)

Notation store := (Z -> list Z).

Definition upd (s : store) (b : Z) (x : list Z) : store := fun b' => if b' =? b then x else s b'.

Lemma upd_eq s b x : upd s b x b = x.
Proof. unfold upd. by rewrite Z.eqb_refl. Qed.

Lemma upd_ne s b x b' : b' <> b -> upd s b x b' = s b'.
Proof. unfold upd. intros. by destruct (Z.eqb_spec b' b). Qed.

(** The sectors of [x] are sectors of [old] or of [new]. *)
Definition mixed (old new x : list Z) : Prop :=
  zlen x = zlen old /\ forall k, 0 <= k -> 512 * k < zlen old -> sector_of x k = sector_of old k \/ sector_of x k = sector_of new k.

Lemma zget_sector_of l i : 0 <= i -> zget l i = zget (sector_of l (i / 512)) (i mod 512).
Proof.
  intros Hi. unfold sector_of, DISK_SECTOR_SIZE. rewrite zget_take by mlia. rewrite zget_drop by mlia. f_equal. mlia.
Qed.

Lemma mixed_zget old new x i : mixed old new x -> 0 <= i < zlen old -> zget x i = zget old i \/ zget x i = zget new i.
Proof.
  intros [_ Hx] Hi. rewrite !(zget_sector_of _ i) by lia.
  destruct (Hx (i / 512)) as [->| ->]; [mlia|mlia|by left|by right].
Qed.

(** A write that changes bytes of one sector only is atomic. *)
Lemma mixed_atomic old new x k :
  mixed old new x -> zlen new = zlen old -> (forall i, 0 <= i < zlen old -> i / 512 <> k -> zget new i = zget old i) ->
  x = old \/ x = new.
Proof.
  intros [Hlen Hx] Hn Hk. destruct (decide (0 <= k /\ 512 * k < zlen old)) as [Hr|Hr].
  - destruct (Hx k ltac:(lia) ltac:(lia)) as [E|E]; [left|right]; apply zget_ext; try lia; intros i Hi.
    + destruct (decide (i / 512 = k)) as [<-|Hne]; [by rewrite !(zget_sector_of _ i), E by lia|].
      destruct (mixed_zget old new x i) as [->| ->]; [by split|lia|done|apply Hk; lia].
    + destruct (decide (i / 512 = k)) as [<-|Hne]; [by rewrite !(zget_sector_of _ i), E by lia|].
      destruct (mixed_zget old new x i) as [->| ->]; [by split|lia|symmetry; apply Hk; lia|done].
  - left. apply zget_ext; [lia|]. intros i Hi. destruct (mixed_zget old new x i) as [->| ->]; [by split|lia|done|].
    apply Hk; [lia|]. intros <-. apply Hr. split; mlia.
Qed.

(** ** The device as a store *)

Section view.
Context {D : Type} {drv : BlkDriver D} {laws : BlkLaws D} (m : ext2_mount) (e : bool).

Definition blk (d : D) (b : Z) : list Z := mjoin (sector d <$> seqZ (b * m_spb m) (m_spb m)).

(** The block size is a positive number of sectors and of pointers, and the
    device holds the blocks of the file system. *)
Definition sized : Prop :=
  m_dev m = true /\ m_ready m = true /\ 2 <= m_spb m <= 128 /\ m_block_size m = 512 * m_spb m /\ 0 <= m_blocks_count m.

(** With [e] false, no transfer and no allocation of a buffer fails. *)
Definition reliable (w : world D) : Prop := e = false -> sound (w_dev w) /\ Forall (fun b => b = true) (w_heap w).

Definition sees (w : world D) (s : store) : Prop :=
  dev_ok (w_dev w) /\ m_blocks_count m * m_spb m <= sector_count (w_dev w) /\
  (forall b, 0 <= b < m_blocks_count m -> blk (w_dev w) b = s b) /\ reliable w.

Lemma mjoin_sectors_len d l : dev_ok d -> zlen (mjoin (sector d <$> l)) = 512 * zlen l.
Proof.
  intros Hd. induction l as [|i l IH]; [done|]. change (mjoin (sector d <$> i :: l)) with (sector d i ++ mjoin (sector d <$> l)).
  rewrite zlen_app, sector_len, IH by done.
  unfold zlen, DISK_SECTOR_SIZE. cbn [length]. lia.
Qed.

Lemma blk_len d b : sized -> dev_ok d -> zlen (blk d b) = m_block_size m.
Proof.
  intros (_ & _ & Hs & -> & _) Hd. unfold blk. rewrite mjoin_sectors_len by done.
  unfold zlen. rewrite length_seqZ. lia.
Qed.

Lemma sees_len w s b : sized -> sees w s -> 0 <= b < m_blocks_count m -> zlen (s b) = m_block_size m.
Proof. intros Hz (Hd & _ & Hs & _) Hb. rewrite <- Hs by done. by apply blk_len. Qed.

Lemma sector_of_join d l k i :
  dev_ok d -> l !! k = Some i -> sector_of (mjoin (sector d <$> l)) (Z.of_nat k) = sector d i.
Proof.
  intros Hd. revert k. induction l as [|j l IH]; intros [|k] Hk; try done;
    change (mjoin (sector d <$> j :: l)) with (sector d j ++ mjoin (sector d <$> l)).
  - injection Hk as ->. unfold sector_of. rewrite Z.mul_0_r. change (Z.to_nat 0) with 0%nat. rewrite drop_0.
    rewrite take_app_le; [|pose proof (sector_len d i Hd); unfold zlen in *; lia].
    apply take_ge. pose proof (sector_len d i Hd). unfold zlen in *. lia.
  - cbn in Hk. rewrite <- (IH k Hk). unfold sector_of. f_equal.
    pose proof (sector_len d j Hd) as Hj. unfold zlen, DISK_SECTOR_SIZE in *.
    rewrite drop_app_ge by lia. f_equal. lia.
Qed.

Lemma sector_of_blk d b i : dev_ok d -> 0 <= i < m_spb m -> sector_of (blk d b) i = sector d (b * m_spb m + i).
Proof.
  intros Hd Hi. unfold blk. rewrite <- (Z2Nat.id i) at 1 by lia. apply sector_of_join; [done|].
  rewrite lookup_seqZ_lt by lia. f_equal. lia.
Qed.

Lemma sectors_ext l l' n : zlen l = 512 * n -> zlen l' = 512 * n ->
  (forall k, 0 <= k < n -> sector_of l k = sector_of l' k) -> l = l'.
Proof.
  intros Hl Hl' Hk. apply zget_ext; [lia|]. intros i Hi. rewrite !(zget_sector_of _ i) by lia. rewrite Hk by mlia. done.
Qed.

Lemma wp_heap s Q w :
  sees w s -> (e = true -> forall w', sees w' s -> Q None w') -> (forall w', sees w' s -> Q (Some tt) w') -> wp heap_alloc Q w.
Proof.
  intros (Hd & Hc & Hs & He) HN HS. unfold wp, heap_alloc. destruct w as [d [|[] h]]; cbn in *.
  - by apply HS.
  - apply HS. split_and!; try done. intros E. destruct (He E) as [? Hh]. split; [done|]. by apply Forall_cons_1 in Hh as [_ Hh].
  - assert (e = true) as E.
    { destruct (bool_dec e false) as [E|E]; [|by destruct e]. destruct (He E) as [_ Hh]. by apply Forall_cons_1 in Hh as [? _]. }
    apply HN; [done|]. split_and!; try done. intros E'. congruence.
Qed.

Lemma wp_read b s Q w :
  sized -> sees w s -> 0 <= b < m_blocks_count m -> (e = true -> Q None w) -> Q (Some (s b)) w -> wp (m_read_block m b) Q w.
Proof.
  intros Hz (Hd & Hc & Hs & He) Hb HN HS. unfold wp, m_read_block. destruct Hz as (-> & _ & Hspb & Hbs & _). cbn.
  pose proof (sector_count_range _ Hd) as Hsc. change (2 ^ 32) with 4294967296 in Hsc.
  assert (b * m_spb m + m_spb m <= sector_count (w_dev w)) as Hfit by nia.
  rewrite u32_small by nia. unfold blkdev_read. destruct (Z.eqb_spec (m_spb m) 0); [lia|].
  destruct (Z.leb_spec (sector_count (w_dev w)) (b * m_spb m)); [nia|].
  destruct (Z.ltb_spec (sector_count (w_dev w) - b * m_spb m) (m_spb m)); [lia|]. cbn [orb].
  destruct (drv_read (w_dev w) (b * m_spb m) (m_spb m)) as [l|] eqn:E.
  - apply read_law in E; [|done|nia|lia|lia]. subst l. fold (blk (w_dev w) b). by rewrite Hs.
  - apply HN. destruct (bool_dec e false) as [E'|E']; [|by destruct e]. destruct (He E') as [Hsd _].
    destruct (sound_read _ (b * m_spb m) (m_spb m) Hsd) as [l Hl]; [nia|lia|lia|]. congruence.
Qed.

Lemma wp_write b buf s Q w :
  sized -> sees w s -> 0 <= b < m_blocks_count m -> zlen buf = m_block_size m ->
  (forall w', sees w' (upd s b buf) -> Q (Some tt) w') ->
  (e = true -> forall w' x, sees w' (upd s b x) -> mixed (s b) buf x -> Q None w') ->
  wp (m_write_block m b buf) Q w.
Proof.
  intros Hz (Hd & Hc & Hs & He) Hb Hl HS HN. unfold wp, m_write_block. pose proof Hz as (-> & _ & Hspb & Hbs & _).
  pose proof (sector_count_range _ Hd) as Hsc. change (2 ^ 32) with 4294967296 in Hsc.
  assert (b * m_spb m + m_spb m <= sector_count (w_dev w)) as Hfit by nia.
  rewrite u32_small by nia. unfold blkdev_write. destruct (Z.eqb_spec (m_spb m) 0); [lia|].
  destruct (Z.leb_spec (sector_count (w_dev w)) (b * m_spb m)); [nia|].
  destruct (Z.ltb_spec (sector_count (w_dev w) - b * m_spb m) (m_spb m)); [lia|]. cbn [orb].
  destruct (drv_write (w_dev w) (b * m_spb m) (m_spb m) buf) as [ok d'] eqn:E.
  destruct (write_law (w_dev w) (b * m_spb m) (m_spb m) buf ok d' Hd ltac:(nia) ltac:(lia) Hfit ltac:(unfold DISK_SECTOR_SIZE; lia) E) as (Hd' & Hc' & Hout & Hin).
  assert (e = false -> ok = true /\ sound d') as Hsnd.
  { intros E'. destruct (He E') as [Hsd _].
    destruct (sound_write _ (b * m_spb m) (m_spb m) buf Hsd) as (d2 & E2 & ?); [nia|lia|lia|unfold DISK_SECTOR_SIZE; lia|].
    rewrite E in E2. by injection E2 as -> ->. }
  assert (forall x, x = blk d' b -> sees (mk_world d' (w_heap w)) (upd s b x)) as Hsees.
  { intros x ->. split_and!; [done|cbn; lia| |intros E'; split; [by apply Hsnd|by apply He]]. intros b' Hb'. cbn. unfold upd. destruct (Z.eqb_spec b' b) as [->|Hne]; [done|].
    rewrite <- Hs by done. unfold blk. f_equal. apply list_fmap_ext. intros k i Hk. apply lookup_seqZ in Hk. apply Hout. nia. }
  pose proof (blk_len d' b Hz Hd') as Hlen'. cbn. destruct ok.
  - apply HS. apply Hsees. apply (sectors_ext _ _ (m_spb m)); [lia|lia|].
    intros k Hk. rewrite sector_of_blk by done. by destruct (Hin k Hk) as [->|[? _]].
  - apply (HN ltac:(destruct (bool_dec e false) as [E'|E']; [by destruct (Hsnd E')|by destruct e]) _ (blk d' b)); [by apply Hsees|]. rewrite <- Hs by done. split; [by rewrite !blk_len|].
    intros k Hk Hk'. rewrite blk_len in Hk' by done. rewrite !sector_of_blk by (done || lia).
    destruct (Hin k) as [->|[_ ->]]; [lia|by right|by left].
Qed.
End view.
