(* ===== verification/Ext2Alloc.v ===== *)
(** * Ext2Alloc: the layout of an ext2 device and its bitmaps

    Where the metadata lies ([layout]), what the bitmaps say, and the
    specification of [m_alloc_block] and [m_alloc_inode]: a successful call marks
    one clear bit, whatever transfers fail on the way no bit is ever cleared,
    and without failures a call fails only when every bit is set. *)

From S2P Require Import Prelude Blkdev Ext2 Ext2Store.

(** ** Bits of a bitmap *)

Definition bit (l : list Z) (i : Z) : bool := Z.testbit (default 0 (zget l (i / 8))) (i mod 8).

(** Every bit of [l] is one of [l']. *)
Definition sub_bits (l l' : list Z) : Prop := zlen l' = zlen l /\ forall i, bit l i = true -> bit l' i = true.

Lemma sub_bits_refl l : sub_bits l l.
Proof. done. Qed.

Lemma sub_bits_trans l1 l2 l3 : sub_bits l1 l2 -> sub_bits l2 l3 -> sub_bits l1 l3.
Proof. intros [? H1] [? H2]. split; [lia|auto]. Qed.

Lemma bit_zset l byte v k i :
  zget l byte = Some v -> 0 <= k < 8 ->
  bit (zset l byte (Z.lor v (Z.shiftl 1 k))) i = (i =? 8 * byte + k) || bit l i.
Proof.
  intros Hv Hk. pose proof (zget_Some_range _ _ _ Hv). unfold bit. rewrite zget_zset by lia.
  destruct (Z.eqb_spec byte (i / 8)) as [E|E].
  - rewrite <- E, Hv. cbn. rewrite Z.lor_spec, Z.shiftl_spec by mlia. rewrite orb_comm. f_equal.
    destruct (Z.eqb_spec i (8 * byte + k)) as [->|Hne].
    + replace ((8 * byte + k) mod 8 - k) with 0 by mlia. done.
    + destruct (decide (i mod 8 - k < 0)); [by rewrite Z.testbit_neg_r|].
      change 1 with (2 ^ 0). rewrite pow2_bits by lia. apply Z.eqb_neq. mlia.
  - destruct (Z.eqb_spec i (8 * byte + k)); [mlia|done].
Qed.

Lemma mixed_sub_bits old new x : zlen new = zlen old -> mixed old new x -> sub_bits old new -> sub_bits old x.
Proof.
  intros Hl Hm [_ Hs]. split; [apply Hm|]. intros i Hi. unfold bit in *.
  destruct (decide (0 <= i / 8 < zlen old)) as [Hr|Hr].
  - destruct (mixed_zget _ _ _ _ Hm Hr) as [->| ->]; [done|]. by apply Hs.
  - rewrite zget_out_of_range in Hi by done. cbn in Hi. by rewrite Z.bits_0 in Hi.
Qed.

Lemma clear_bit_spec n v bit k : clear_bit n v bit = Some k -> bit <= k < bit + Z.of_nat n /\ Z.testbit v k = false.
Proof.
  revert bit. induction n as [|n IH]; intros bit; cbn; [done|]. destruct (Z.testbit v bit) eqn:E.
  - intros Hk%IH. split; [lia|apply Hk].
  - intros [= <-]. split; [lia|done].
Qed.

Lemma clear_bit_None n v bit k : clear_bit n v bit = None -> bit <= k < bit + Z.of_nat n -> Z.testbit v k = true.
Proof.
  revert bit. induction n as [|n IH]; intros bit; cbn; [lia|]. destruct (Z.testbit v bit) eqn:E; [|done].
  intros Hn Hk. destruct (decide (k = bit)) as [->|]; [done|]. apply (IH (bit + 1)); [done|lia].
Qed.

(** ** Where the metadata lies *)

(** Superblock and descriptors, bitmaps, and the blocks of the inode tables. *)
Inductive role : Type :=
  | RFixed (k : Z)
  | RBlockBitmap (g : Z)
  | RInodeBitmap (g : Z)
  | RTable (g k : Z).

Section layout.
Context (m : ext2_mount).

Definition tab (l : list Z) (g : Z) : Z := default 0 (zget l g).

Lemma ld_tab l g : 0 <= g < zlen l -> ld l g = Ok (tab l g).
Proof. intros Hg. unfold tab. destruct (zget_in_range l g Hg) as [v Hv]. rewrite Hv. by apply ld_ok. Qed.

Definition fixed_blocks : Z := 1 + (32 * m_ngroups m + m_block_size m - 1) / m_block_size m.
Definition table_blocks : Z := (m_inodes_per_group m * m_inode_size m + m_block_size m - 1) / m_block_size m.

Definition loc (r : role) : Z :=
  match r with
  | RFixed k => m_first_data_block m + k
  | RBlockBitmap g => tab (m_block_bitmap m) g
  | RInodeBitmap g => tab (m_inode_bitmap m) g
  | RTable g k => tab (m_inode_table m) g + k
  end.

Definition valid_role (r : role) : Prop :=
  match r with
  | RFixed k => 0 <= k < fixed_blocks
  | RBlockBitmap g | RInodeBitmap g => 0 <= g < m_ngroups m
  | RTable g k => 0 <= g < m_ngroups m /\ 0 <= k < table_blocks
  end.

(** A layout as the write driver requires it: a bitmap is one block, inodes do
    not straddle sectors, and every block has at most one role. *)
Record layout : Prop := {
  lay_sized : sized m;
  lay_first : 1 <= m_first_data_block m;
  lay_groups : 0 < m_ngroups m <= EXT2_MAX_GROUPS;
  lay_bpg : m_blocks_per_group m = 8 * m_block_size m;
  lay_blocks : m_blocks_count m <= m_first_data_block m + m_ngroups m * m_blocks_per_group m < 2 ^ 32;
  lay_ipg : 0 < m_inodes_per_group m <= 8 * m_block_size m;
  lay_isz : 128 <= m_inode_size m /\ 512 mod m_inode_size m = 0;
  lay_inodes : 0 <= m_inodes_count m <= m_ngroups m * m_inodes_per_group m;
  lay_tabs : zlen (m_block_bitmap m) = EXT2_MAX_GROUPS /\ zlen (m_inode_bitmap m) = EXT2_MAX_GROUPS /\
             zlen (m_inode_table m) = EXT2_MAX_GROUPS;
  lay_range r : valid_role r -> m_first_data_block m <= loc r < m_blocks_count m;
  lay_inj r r' : valid_role r -> valid_role r' -> loc r = loc r' -> r = r';
}.

(** ** What the bitmaps say *)

Definition used (s : store) (b : Z) : bool :=
  let i := b - m_first_data_block m in
  bit (s (loc (RBlockBitmap (i / m_blocks_per_group m)))) (i mod m_blocks_per_group m).

Definition iused (s : store) (ino : Z) : bool :=
  bit (s (loc (RInodeBitmap ((ino - 1) / m_inodes_per_group m)))) ((ino - 1) mod m_inodes_per_group m).

Definition in_fs (b : Z) : Prop := m_first_data_block m <= b < m_blocks_count m.

Definition vino (ino : Z) : Prop := 1 <= ino <= m_inodes_count m.

Lemma group_range b : layout -> in_fs b -> 0 <= (b - m_first_data_block m) / m_blocks_per_group m < m_ngroups m.
Proof.
  intros L [Hb1 Hb2]. pose proof (lay_blocks L). pose proof (lay_bpg L) as Hbpg. destruct (lay_sized L) as (_ & _ & ? & ? & _).
  split; [apply Z.div_pos; lia|]. apply Z.div_lt_upper_bound; lia.
Qed.

Lemma igroup_range ino : layout -> vino ino -> 0 <= (ino - 1) / m_inodes_per_group m < m_ngroups m.
Proof.
  intros L [Hb1 Hb2]. pose proof (lay_inodes L). pose proof (lay_ipg L).
  split; [apply Z.div_pos; lia|]. apply Z.div_lt_upper_bound; lia.
Qed.
End layout.

Arguments lay_sized {m}.
Arguments lay_first {m}.
Arguments lay_groups {m}.
Arguments lay_bpg {m}.
Arguments lay_blocks {m}.
Arguments lay_ipg {m}.
Arguments lay_isz {m}.
Arguments lay_inodes {m}.
Arguments lay_tabs {m}.
Arguments lay_range {m}.
Arguments lay_inj {m}.

(** ** The search of the bitmaps *)

Section scan.
Context {D : Type} {drv : BlkDriver D} {laws : BlkLaws D} (m : ext2_mount) (e : bool).
Hypothesis L : layout m.

Lemma sees_ext (w : world D) s s' :
  sees m e w s -> (forall b, 0 <= b < m_blocks_count m -> s b = s' b) -> sees m e w s'.
Proof. intros (Hd & Hc & Hs & He) E. split_and!; try done. intros b Hb. rewrite Hs by done. by apply E. Qed.

Lemma sees_same (w : world D) s b : sees m e w s -> sees m e w (upd s b (s b)).
Proof. intros Hs. eapply sees_ext; [exact Hs|]. intros b' _. unfold upd. by destruct (Z.eqb_spec b' b) as [->|]. Qed.

(** What a search for a clear bit of the bitmap [old] ends with: its result and
    the bitmap on the device. [slot] gives the numbers of the bits. *)
Definition scan_post (slot : Z -> Z -> option (Z * Z)) (old : list Z) (lo n r : Z) (x : list Z) : Prop :=
  sub_bits old x /\
  (r <> 0 -> exists byte k v, lo <= byte < lo + n /\ 0 <= k < 8 /\ slot byte v = Some (k, r) /\
     bit old (8 * byte + k) = false /\ bit x (8 * byte + k) = true /\
     (e = false -> forall i, i <> 8 * byte + k -> bit x i = bit old i)) /\
  (r = 0 -> e = false -> x = old /\
     forall byte v, lo <= byte < lo + n -> zget old byte = Some v -> v = 255 \/ slot byte v = None).

Definition slot_ok (slot : Z -> Z -> option (Z * Z)) : Prop :=
  forall byte v k r, 0 <= byte < m_block_size m -> slot byte v = Some (k, r) -> 0 <= k < 8 /\ Z.testbit v k = false /\ r <> 0.

Lemma scan_post_next slot old lo n r x v :
  scan_post slot old (lo + 1) n r x -> zget old lo = Some v -> (e = false -> v = 255 \/ slot lo v = None) ->
  scan_post slot old lo (n + 1) r x.
Proof.
  intros (Hs & Hr & H0) Hv Hlo. split_and!; [done| |].
  - intros Hne. destruct (Hr Hne) as (byte & k & v' & ? & ?). exists byte, k, v'. split; [lia|done].
  - intros -> E. destruct (H0 eq_refl E) as [? Hall]. split; [done|]. intros byte v' Hb Hv'.
    destruct (decide (byte = lo)) as [->|]; [|by apply Hall; [lia|]].
    rewrite Hv in Hv'. injection Hv' as <-. by apply Hlo.
Qed.

Lemma scan_bytes_wp slot blk n byte bm s (w : world D) :
  slot_ok slot -> sees m e w s -> 0 <= blk < m_blocks_count m ->
  sub_bits (s blk) bm -> (e = false -> bm = s blk) -> 0 <= byte -> byte + Z.of_nat n <= m_block_size m ->
  wp (scan_bytes slot m blk n byte bm)
     (fun o w' => exists r x, o = Some r /\ sees m e w' (upd s blk x) /\ scan_post slot (s blk) byte (Z.of_nat n) r x) w.
Proof.
  intros Hslot Hsees Hblk. pose proof (lay_sized L) as Hz. pose proof (sees_len m e w s blk Hz Hsees Hblk) as Hlen.
  remember (s blk) as old eqn:Hold. assert (sees m e w (upd s blk old)) as Hsees' by (subst old; by apply sees_same).
  assert (sub_bits old old) as Hsub0 by done. clear Hsees.
  (* the block on the device, from here on, is some [cur] above [old] *)
  enough (forall cur w, sees m e w (upd s blk cur) -> sub_bits old cur -> (e = false -> cur = old) ->
     sub_bits old bm -> (e = false -> bm = old) -> 0 <= byte -> byte + Z.of_nat n <= m_block_size m ->
     wp (scan_bytes slot m blk n byte bm)
       (fun o w' => exists r x, o = Some r /\ sees m e w' (upd s blk x) /\ scan_post slot old byte (Z.of_nat n) r x) w) as Hgen.
  { intros. by apply (Hgen old). }
  clear w Hsees' Hsub0. revert byte bm.
  induction n as [|n IH]; intros byte bm cur w Hsees Hcur Hce Hbm Hbe Hb Hn; cbn [scan_bytes].
  { apply wp_ret. exists 0, cur. do 3 (split; [done|]). split; [by intros []|]. intros _ E. split; [by apply Hce|]. lia. }
  assert (exists v, zget bm byte = Some v) as [v Hv] by (apply zget_in_range; destruct Hbm; lia).
  apply wp_bind. apply (wp_lift _ v); [by apply ld_ok|].
  assert (exists v0, zget old byte = Some v0) as [v0 Hv0] by (apply zget_in_range; lia).
  assert (e = false -> v = v0) as Hvv by (intros E; rewrite (Hbe E) in Hv; congruence).
  assert (wp (scan_bytes slot m blk n (byte + 1) bm)
    (fun o w' => exists r x, o = Some r /\ sees m e w' (upd s blk x) /\ scan_post slot old (byte + 1) (Z.of_nat n) r x) w) as Hnext.
  { apply (IH _ _ cur); try done; lia. }
  destruct (Z.eqb_spec v 255) as [->|Hff].
  { eapply wp_mono; [exact Hnext|]. intros o w' (r & x & -> & ? & Hp). exists r, x. split_and!; try done.
    replace (Z.of_nat (S n)) with (Z.of_nat n + 1) by lia. eapply scan_post_next; eauto. intros E. left. by rewrite <- Hvv. }
  destruct (slot byte v) as [[k r]|] eqn:Es.
  2:{ eapply wp_mono; [exact Hnext|]. intros o w' (r & x & -> & ? & Hp). exists r, x. split_and!; try done.
      replace (Z.of_nat (S n)) with (Z.of_nat n + 1) by lia. eapply scan_post_next; eauto. intros E. right. by rewrite <- Hvv. }
  destruct (Hslot byte v k r ltac:(lia) Es) as (Hk & Hkv & Hr0).
  apply wp_bind. eapply wp_lift; [apply st_ok; destruct Hbm; lia|]. set (bm' := zset bm byte _).
  assert (forall i, bit bm' i = (i =? 8 * byte + k) || bit bm i) as Hbit by (intros; by apply bit_zset).
  assert (sub_bits old bm') as Hbm'.
  { split; [unfold bm'; rewrite zlen_zset; apply Hbm|]. intros i Hi. rewrite Hbit. destruct Hbm as [_ Hbm]. rewrite (Hbm i Hi). apply orb_true_r. }
  apply wp_bind, wp_attempt, (wp_write m e blk bm' (upd s blk cur)); [done|done|done|destruct Hbm'; lia| |].
  - intros w' Hw'. apply Z.eqb_neq in Hr0. rewrite Hr0. apply wp_ret. exists r, bm'. split; [done|]. split; [|split; [done|split]].
    + eapply sees_ext; [exact Hw'|]. intros b _. unfold upd. by destruct (b =? blk).
    + intros _. exists byte, k, v. do 3 (split; [done || lia|]). split; [|split; [by rewrite Hbit, Z.eqb_refl|]].
      * destruct (bit old (8 * byte + k)) eqn:Eo; [|done]. apply Hbm in Eo. revert Eo. unfold bit.
        replace ((8 * byte + k) / 8) with byte by mlia. replace ((8 * byte + k) mod 8) with k by mlia. rewrite Hv. cbn. congruence.
      * intros E i Hi. rewrite Hbit, (proj2 (Z.eqb_neq _ _) Hi). by rewrite (Hbe E).
    + intros ->. done.
  - intros He w' x Hw' Hx. rewrite upd_eq in Hx. change (0 =? 0) with true. cbn match.
    eapply wp_mono; [apply (IH (byte + 1) bm' x)|].
    + eapply sees_ext; [exact Hw'|]. intros b _. unfold upd. by destruct (b =? blk).
    + assert (sub_bits old x) as Hox; [|done]. split; [destruct Hx, Hcur; lia|]. intros i Hi.
      destruct (decide (0 <= i / 8 < zlen cur)) as [Hr|Hr].
      * unfold bit. destruct (mixed_zget _ _ _ _ Hx Hr) as [->| ->]; [by apply Hcur|by apply Hbm'].
      * unfold bit in Hi. rewrite zget_out_of_range in Hi by (destruct Hcur; lia). cbn in Hi. by rewrite Z.bits_0 in Hi.
    + congruence.
    + done.
    + congruence.
    + lia.
    + lia.
    + intros o w2 (r2 & x2 & -> & ? & Hp). exists r2, x2. split_and!; try done.
      replace (Z.of_nat (S n)) with (Z.of_nat n + 1) by lia. eapply scan_post_next; eauto. congruence.
Qed.

(** ** The search of the groups *)

(** Bits are only added, and only in the bitmaps [R]. *)
Definition grows (R : Z -> role) (s s' : store) : Prop :=
  (forall b, (forall g, 0 <= g < m_ngroups m -> b <> loc m (R g)) -> s' b = s b) /\
  (forall g, 0 <= g < m_ngroups m -> sub_bits (s (loc m (R g))) (s' (loc m (R g)))).

Lemma bits_grow_refl R s : grows R s s.
Proof. split; [done|]. intros. apply sub_bits_refl. Qed.

Lemma bits_grow_trans R s1 s2 s3 : grows R s1 s2 -> grows R s2 s3 -> grows R s1 s3.
Proof.
  intros [H1 H1'] [H2 H2']. split.
  - intros b Hb. by rewrite H2, H1.
  - intros g Hg. eapply sub_bits_trans; eauto.
Qed.

Lemma grows_upd R s g x : (forall h, valid_role m (R h) <-> 0 <= h < m_ngroups m) -> (forall h h', R h = R h' -> h = h') ->
  0 <= g < m_ngroups m -> sub_bits (s (loc m (R g))) x -> grows R s (upd s (loc m (R g)) x).
Proof.
  intros HV HI Hg Hx. split.
  - intros b Hb. apply upd_ne. by apply Hb.
  - intros h Hh. unfold upd. destruct (Z.eqb_spec (loc m (R h)) (loc m (R g))) as [E|E]; [|apply sub_bits_refl].
    by rewrite E.
Qed.

(** What a search of the groups from [lo] on ends with. *)
Definition groups_post (R : Z -> role) (slot : Z -> Z -> Z -> option (Z * Z)) (nbytes : Z) (s : store) (lo r : Z) (s' : store) : Prop :=
  grows R s s' /\
  (r <> 0 -> exists g byte k v, lo <= g < m_ngroups m /\ 0 <= byte < nbytes /\ 0 <= k < 8 /\ slot g byte v = Some (k, r) /\
     bit (s (loc m (R g))) (8 * byte + k) = false /\ bit (s' (loc m (R g))) (8 * byte + k) = true /\
     (e = false -> forall h i, 0 <= h < m_ngroups m -> (h, i) <> (g, 8 * byte + k) -> bit (s' (loc m (R h))) i = bit (s (loc m (R h))) i)) /\
  (r = 0 -> e = false -> (forall b, s' b = s b) /\
     forall g byte v, lo <= g < m_ngroups m -> 0 <= byte < nbytes -> zget (s (loc m (R g))) byte = Some v -> v = 255 \/ slot g byte v = None).

Section groups.
Context (R : Z -> role) (slot : Z -> Z -> Z -> option (Z * Z)) (table : list Z) (nbytes : Z).
Hypothesis HV : forall g, valid_role m (R g) <-> 0 <= g < m_ngroups m.
Hypothesis HI : forall g g', R g = R g' -> g = g'.
Hypothesis HT : forall g, 0 <= g < m_ngroups m -> ld table g = Ok (loc m (R g)).
Hypothesis HS : forall g, 0 <= g < m_ngroups m -> slot_ok (slot g).
Hypothesis HN : 0 <= nbytes <= m_block_size m.

Lemma role_block g : 0 <= g < m_ngroups m -> 0 <= loc m (R g) < m_blocks_count m.
Proof. intros Hg. pose proof (lay_first L). pose proof (lay_range L (R g) (proj2 (HV g) Hg)). lia. Qed.

Lemma role_loc_ne g h : 0 <= g < m_ngroups m -> 0 <= h < m_ngroups m -> g <> h -> loc m (R g) <> loc m (R h).
Proof. intros Hg Hh Hne E. apply Hne, HI, (lay_inj L); [by apply HV|by apply HV|done]. Qed.

Lemma scan_groups_wp n g s (w : world D) :
  sees m e w s -> 0 <= g -> g + Z.of_nat n = m_ngroups m ->
  wp (scan_groups slot m table nbytes n g)
     (fun o w' => exists r s', o = Some r /\ sees m e w' s' /\ groups_post R slot nbytes s g r s') w.
Proof.
  revert g s w. induction n as [|n IH]; intros g s w Hs Hg Hn; cbn [scan_groups].
  { apply wp_ret. exists 0, s. do 2 (split; [done|]). split; [apply bits_grow_refl|]. split; [by intros []|]. intros _ _. split; [done|lia]. }
  apply wp_bind. eapply wp_lift; [apply HT; lia|]. pose proof (role_block g ltac:(lia)) as Hb.
  apply wp_bind, wp_attempt, (wp_read m e _ s); [apply L|done|done| |].
  { intros E. apply wp_ret. exists 0, s. do 2 (split; [done|]). split; [apply bits_grow_refl|]. split; [by intros []|]. congruence. }
  apply wp_bind. eapply wp_mono; [apply (scan_bytes_wp (slot g)); try done|].
  { apply HS. lia. }
  { rewrite Z2Nat.id by lia. lia. }
  intros o w' (r & x & -> & Hs' & Hsub & Hr & H0). rewrite Z2Nat.id in Hr, H0 by lia.
  assert (grows R s (upd s (loc m (R g)) x)) as Hg1 by (apply grows_upd; [done|done|lia|done]).
  destruct (Z.eqb_spec r 0) as [->|Hr0].
  - eapply wp_mono; [apply (IH (g + 1) _ w' Hs'); lia|].
    intros o w2 (r & s' & -> & Hs2 & Hg2 & Hr2 & H02). exists r, s'. do 2 (split; [done|]). split; [by eapply bits_grow_trans|]. split.
    + intros Hne. destruct (Hr2 Hne) as (h & byte & k & v & Hh & Hby & Hk & Hsl & Hf & Ht & Honly).
      rewrite upd_ne in Hf by (apply role_loc_ne; lia). exists h, byte, k, v. do 4 (split; [done || lia|]). do 2 (split; [done|]).
      intros E h' i Hh' Hne'. rewrite (Honly E h' i Hh' Hne'). destruct (H0 eq_refl E) as [-> _].
      unfold upd. destruct (Z.eqb_spec (loc m (R h')) (loc m (R g))) as [->|]; done.
    + intros -> E. destruct (H02 eq_refl E) as [Hall Hsl]. destruct (H0 eq_refl E) as [-> Hsl0]. split.
      * intros b. rewrite Hall. unfold upd. by destruct (Z.eqb_spec b (loc m (R g))) as [->|].
      * intros h byte v Hh Hby Hv. destruct (decide (h = g)) as [->|Hne]; [by apply Hsl0; [lia|]|].
        apply (Hsl h byte v); [lia|done|]. by rewrite upd_ne by (apply role_loc_ne; lia).
  - apply wp_ret. exists r, (upd s (loc m (R g)) x). do 2 (split; [done|]). split; [done|]. split; [|done].
    intros _. destruct (Hr Hr0) as (byte & k & v & Hby & Hk & Hsl & Hf & Ht & Honly).
    exists g, byte, k, v. rewrite upd_eq. do 4 (split; [done || lia|]). do 2 (split; [done|]).
    intros E h i Hh Hne. destruct (decide (h = g)) as [->|].
    + rewrite upd_eq. apply (Honly E). congruence.
    + by rewrite upd_ne by (apply role_loc_ne; lia).
Qed.
End groups.
End scan.

(** ** Allocation *)

Lemma clear_bit_before n v bit k j : clear_bit n v bit = Some k -> bit <= j < k -> Z.testbit v j = true.
Proof.
  revert bit. induction n as [|n IH]; intros bit; cbn; [done|]. destruct (Z.testbit v bit) eqn:E.
  - intros Hk Hj. destruct (decide (j = bit)) as [->|]; [done|]. apply (IH (bit + 1)); [done|lia].
  - intros [= <-]. lia.
Qed.

Section alloc.
Context {D : Type} {drv : BlkDriver D} {laws : BlkLaws D} (m : ext2_mount) (e : bool).
Hypothesis L : layout m.

Lemma bs_pos : 1024 <= m_block_size m.
Proof. destruct (lay_sized L) as (_ & _ & ? & -> & _). lia. Qed.

Lemma used_grows s s' b : grows m RBlockBitmap s s' -> in_fs m b -> used m s b = true -> used m s' b = true.
Proof. intros [_ Hg] Hb. unfold used. apply Hg. by apply group_range. Qed.

Lemma iused_grows s s' ino : grows m RInodeBitmap s s' -> vino m ino -> iused m s ino = true -> iused m s' ino = true.
Proof. intros [_ Hg] Hi. unfold iused. apply Hg. by apply igroup_range. Qed.

Lemma block_slot_spec g byte v k b :
  0 <= g < m_ngroups m -> 0 <= byte < m_block_size m -> block_slot m g byte v = Some (k, b) ->
  0 <= k < 8 /\ Z.testbit v k = false /\ in_fs m b /\ b = m_first_data_block m + g * m_blocks_per_group m + (8 * byte + k).
Proof.
  intros Hg Hby. unfold block_slot. destruct (clear_bit 8 v 0) as [k'|] eqn:E; [|done].
  apply clear_bit_spec in E as [Hk Hv]. pose proof (lay_blocks L) as Hbl. rewrite (lay_bpg L) in *. pose proof (lay_first L).
  change (2 ^ 32) with 4294967296 in Hbl. rewrite u32_small by nia.
  destruct (Z.leb_spec (m_blocks_count m) (m_first_data_block m + g * (8 * m_block_size m) + byte * 8 + k')); [done|].
  intros [= -> <-]. unfold in_fs. split_and!; try done; nia.
Qed.

Lemma block_slot_full g byte v k :
  0 <= g < m_ngroups m -> 0 <= byte < m_block_size m -> 0 <= k < 8 -> v = 255 \/ block_slot m g byte v = None ->
  m_first_data_block m + g * m_blocks_per_group m + (8 * byte + k) < m_blocks_count m -> Z.testbit v k = true.
Proof.
  intros Hg Hby Hk Hor Hlt. destruct Hor as [->|Hn].
  { change 255 with (2 ^ 8 - 1). rewrite ones_bits by lia. apply Z.ltb_lt. lia. }
  revert Hn. unfold block_slot. destruct (clear_bit 8 v 0) as [k'|] eqn:E.
  2:{ intros _. by apply (clear_bit_None 8 v 0). }
  pose proof (clear_bit_spec _ _ _ _ E) as [Hk' _]. pose proof (lay_blocks L) as Hbl. rewrite (lay_bpg L) in *.
  change (2 ^ 32) with 4294967296 in Hbl. pose proof (lay_first L). rewrite u32_small by nia.
  destruct (Z.leb_spec (m_blocks_count m) (m_first_data_block m + g * (8 * m_block_size m) + byte * 8 + k')); [|done].
  intros _. apply (clear_bit_before 8 v 0 k'); [done|lia].
Qed.

Lemma used_at s g i :
  0 <= i < m_blocks_per_group m -> used m s (m_first_data_block m + g * m_blocks_per_group m + i) = bit (s (loc m (RBlockBitmap g))) i.
Proof.
  intros Hi. unfold used. replace (m_first_data_block m + g * m_blocks_per_group m + i - m_first_data_block m) with (g * m_blocks_per_group m + i) by lia.
  rewrite Z.div_add_l, Z.div_small, Z.add_0_r by lia. by rewrite Z.add_comm, Z.mod_add, Z.mod_small by lia.
Qed.

Lemma iused_at s g i :
  0 <= i < m_inodes_per_group m -> iused m s (g * m_inodes_per_group m + i + 1) = bit (s (loc m (RInodeBitmap g))) i.
Proof.
  intros Hi. unfold iused. replace (g * m_inodes_per_group m + i + 1 - 1) with (g * m_inodes_per_group m + i) by lia.
  rewrite Z.div_add_l, Z.div_small, Z.add_0_r by lia. by rewrite Z.add_comm, Z.mod_add, Z.mod_small by lia.
Qed.

(** The outcome of [m_alloc_block]. *)
Definition block_taken (s : store) (o : option Z) (s' : store) : Prop :=
  grows m RBlockBitmap s s' /\
  match o with
  | Some b => in_fs m b /\ used m s b = false /\ used m s' b = true /\
              (e = false -> forall b', in_fs m b' -> b' <> b -> used m s' b' = used m s b')
  | None => e = false -> forall b, in_fs m b -> used m s b = true
  end.

Lemma alloc_block_wp s (w : world D) :
  sees m e w s -> wp (m_alloc_block m) (fun o w' => exists s', sees m e w' s' /\ block_taken s o s') w.
Proof.
  intros Hs. unfold m_alloc_block. destruct (lay_sized L) as (-> & -> & Hspb & Hbs & _). apply wp_bind, wp_require; [intros _|done].
  apply wp_bind, (wp_heap m e s); [done| |].
  { intros E w' Hw'. exists s. split; [done|]. split; [apply bits_grow_refl|]. congruence. }
  clear w Hs. intros w Hs. apply wp_bind. eapply wp_mono; [apply (scan_groups_wp m e L RBlockBitmap)|]; try done.
  - by intros ? ? [= ->].
  - intros g Hg. apply ld_tab. pose proof (lay_groups L). destruct (lay_tabs L) as (-> & _). lia.
  - intros g Hg byte v k r Hby Hsl. apply block_slot_spec in Hsl as (? & ? & [? _] & _); [|done|done]. pose proof (lay_first L). split_and!; try done; lia.
  - lia.
  - pose proof (lay_groups L). rewrite Z2Nat.id by lia. lia.
  - intros o w' (r & s' & -> & Hs' & Hg & Hr & H0). destruct (Z.eqb_spec r 0) as [->|Hne].
    + apply wp_fail. exists s'. split; [done|]. split; [done|]. intros E b Hb. destruct (H0 eq_refl E) as [_ Hfull].
      pose proof (group_range m b L Hb) as Hgr. set (i := b - m_first_data_block m) in *.
      pose proof (lay_bpg L) as Hbpg. pose proof (Z.mod_pos_bound i (m_blocks_per_group m) ltac:(lia)) as Hmod.
      pose proof (Z.div_mod i (m_blocks_per_group m) ltac:(lia)) as Hdm. unfold used. fold i.
      set (g := i / m_blocks_per_group m) in *. set (j := i mod m_blocks_per_group m) in *.
      pose proof (role_block m L RBlockBitmap ltac:(done) g Hgr) as Hrb. pose proof (sees_len m e w s _ (lay_sized L) Hs Hrb) as Hl.
      unfold bit. destruct (zget_in_range (s (loc m (RBlockBitmap g))) (j / 8)) as [v Hv]; [mlia|]. rewrite Hv. cbn [default].
      apply (block_slot_full g (j / 8)); [done|mlia|mlia| |].
      * apply (Hfull g (j / 8) v); [done|mlia|done].
      * replace (8 * (j / 8) + j mod 8) with j by mlia. destruct Hb. nia.
    + apply wp_ret. exists s'. split; [done|]. split; [done|]. destruct (Hr Hne) as (g & byte & k & v & Hgr & Hby & Hk & Hsl & Hf & Ht & Honly).
      apply block_slot_spec in Hsl as (_ & _ & Hin & ->); [|done|lia]. pose proof (lay_bpg L) as Hbpg.
      split; [done|]. rewrite !used_at by lia. split; [done|]. split; [done|]. intros E b' Hb' Hne'. unfold used.
      apply (Honly E); [by apply group_range|]. intros [= Eg Ei]. apply Hne'. rewrite <- Eg, <- Ei.
      pose proof (Z.div_mod (b' - m_first_data_block m) (m_blocks_per_group m) ltac:(lia)). lia.
Qed.

Lemma inode_bit_spec n g byte v j k ino :
  inode_bit n m g byte v j = Some (k, ino) ->
  j <= k < j + Z.of_nat n /\ Z.testbit v k = false /\ byte * 8 + k < m_inodes_per_group m /\
  ino = u32 (g * m_inodes_per_group m + (byte * 8 + k) + 1) /\ ino <= m_inodes_count m.
Proof.
  revert j. induction n as [|n IH]; intros j; cbn; [done|].
  destruct (Z.leb_spec (m_inodes_per_group m) (byte * 8 + j)); [done|]. destruct (Z.testbit v j) eqn:Ev.
  - intros Hk%IH. split; [lia|apply Hk].
  - destruct (Z.ltb_spec (m_inodes_count m) (u32 (g * m_inodes_per_group m + (byte * 8 + j) + 1))); [done|].
    intros [= <- <-]. split_and!; try done; lia.
Qed.

Lemma inode_slot_spec g byte v k ino :
  0 <= g < m_ngroups m -> 0 <= byte -> inode_slot m g byte v = Some (k, ino) ->
  0 <= k < 8 /\ Z.testbit v k = false /\ 8 * byte + k < m_inodes_per_group m /\
  ino = g * m_inodes_per_group m + (8 * byte + k) + 1 /\ vino m ino.
Proof.
  intros Hg Hby Hs. apply inode_bit_spec in Hs as (Hk & Hv & Hi & -> & Hc). pose proof (lay_ipg L). pose proof (lay_groups L).
  destruct (lay_sized L) as (_ & _ & ? & ? & _). unfold EXT2_MAX_GROUPS in *. rewrite u32_small in * by nia. unfold vino.
  split_and!; try done; nia.
Qed.

Lemma inode_bit_None n g byte v j k : 0 <= g < m_ngroups m -> 0 <= byte -> 0 <= j -> inode_bit n m g byte v j = None ->
  j <= k < j + Z.of_nat n -> byte * 8 + k < m_inodes_per_group m -> g * m_inodes_per_group m + (byte * 8 + k) + 1 <= m_inodes_count m -> Z.testbit v k = true.
Proof.
  intros Hg Hby. pose proof (lay_ipg L). pose proof (lay_groups L). destruct (lay_sized L) as (_ & _ & ? & ? & _). unfold EXT2_MAX_GROUPS in *.
  revert j. induction n as [|n IH]; intros j Hj; cbn; [lia|]. destruct (Z.leb_spec (m_inodes_per_group m) (byte * 8 + j)); [lia|].
  destruct (Z.testbit v j) eqn:Ev.
  - intros Hn Hk Hi Hc. destruct (decide (k = j)) as [->|]; [done|]. apply (IH (j + 1)); [lia|done|lia|done|done].
  - rewrite u32_small by nia. destruct (Z.ltb_spec (m_inodes_count m) (g * m_inodes_per_group m + (byte * 8 + j) + 1)); [|done]. lia.
Qed.

Lemma inode_slot_full g byte v k : 0 <= g < m_ngroups m -> 0 <= byte -> 0 <= k < 8 -> v = 255 \/ inode_slot m g byte v = None ->
  8 * byte + k < m_inodes_per_group m -> g * m_inodes_per_group m + (8 * byte + k) + 1 <= m_inodes_count m -> Z.testbit v k = true.
Proof.
  intros Hg Hby Hk [->|Hn] Hi Hc.
  - change 255 with (Z.ones 8). by rewrite Z.ones_spec_low.
  - unfold inode_slot in Hn. apply (inode_bit_None 8 g byte v 0 k); try done; lia.
Qed.

(** The outcome of [m_alloc_inode]. *)
Definition inode_taken (s : store) (o : option Z) (s' : store) : Prop :=
  grows m RInodeBitmap s s' /\
  match o with
  | Some ino => vino m ino /\ iused m s ino = false /\ iused m s' ino = true
  | None => e = false -> forall ino, vino m ino -> iused m s ino = true
  end.

Lemma alloc_inode_wp s (w : world D) :
  sees m e w s -> wp (m_alloc_inode m) (fun o w' => exists s', sees m e w' s' /\ inode_taken s o s') w.
Proof.
  intros Hs. unfold m_alloc_inode. destruct (lay_sized L) as (-> & -> & Hspb & Hbs & _). apply wp_bind, wp_require; [intros _|done].
  apply wp_bind, (wp_heap m e s); [done| |].
  { intros E w' Hw'. exists s. split; [done|]. split; [apply bits_grow_refl|]. congruence. }
  clear w Hs. intros w Hs. apply wp_bind. pose proof (lay_ipg L).
  eapply wp_mono; [apply (scan_groups_wp m e L RInodeBitmap)|]; try done.
  - by intros ? ? [= ->].
  - intros g Hg. apply ld_tab. pose proof (lay_groups L). destruct (lay_tabs L) as (_ & -> & _). lia.
  - intros g Hg byte v k r Hby Hsl. apply inode_slot_spec in Hsl as (? & ? & _ & _ & [? _]); [|done|lia]. split_and!; try done; lia.
  - rewrite u32_small by nia. mlia.
  - pose proof (lay_groups L). rewrite Z2Nat.id by lia. lia.
  - intros o w' (r & s' & -> & Hs' & Hg & Hr & H0). destruct (Z.eqb_spec r 0) as [->|Hne].
    + apply wp_fail. exists s'. split; [done|]. split; [done|]. intros E ino Hv. destruct (H0 eq_refl E) as [_ Hfull].
      pose proof (igroup_range m ino L Hv) as Hgr. set (i := ino - 1) in *.
      pose proof (Z.mod_pos_bound i (m_inodes_per_group m) ltac:(lia)) as Hmod.
      pose proof (Z.div_mod i (m_inodes_per_group m) ltac:(lia)) as Hdm. unfold iused. fold i.
      set (g := i / m_inodes_per_group m) in *. set (j := i mod m_inodes_per_group m) in *.
      pose proof (role_block m L RInodeBitmap ltac:(done) g Hgr) as Hrb. pose proof (sees_len m e w s _ (lay_sized L) Hs Hrb) as Hl.
      unfold bit. destruct (zget_in_range (s (loc m (RInodeBitmap g))) (j / 8)) as [v Hv']; [mlia|]. rewrite Hv'. cbn [default].
      apply (inode_slot_full g (j / 8)); [done|mlia|mlia| | |].
      * apply (Hfull g (j / 8) v); [done| |done]. rewrite u32_small by nia. mlia.
      * mlia.
      * replace (8 * (j / 8) + j mod 8) with j by mlia. destruct Hv. lia.
    + apply wp_ret. exists s'. split; [done|]. split; [done|]. destruct (Hr Hne) as (g & byte & k & v & Hgr & Hby & Hk & Hsl & Hf & Ht & _).
      apply inode_slot_spec in Hsl as (_ & _ & Hi & -> & Hv); [|done|lia]. split; [done|]. rewrite !iused_at by lia. done.
Qed.
End alloc.
