(* ===== verification/Ext2Tree.v ===== *)
(** * Ext2Tree: the block trees of files

    The pointers of an inode and of its indirect blocks form a tree; [ptr] reads
    the pointer at a position of it. In a [forest], the trees of all inodes
    share no block. The lemmas say how the pointers change when a block is
    hung into a tree, when data is written, and when other blocks change. *)

From S2P Require Import Prelude Blkdev Ext2 Ext2Store Ext2Alloc.

(** ** Words of a block *)

Definition word (l : list Z) (k : Z) : Z := match ld32 l (k * 4) with Ok v => v | _ => 0 end.

Lemma ld32_word l k : 0 <= k -> k * 4 + 4 <= zlen l -> ld32 l (k * 4) = Ok (word l k).
Proof.
  intros Hk Hl. unfold word. pose proof (ld32_total l (k * 4) ltac:(lia) ltac:(lia)) as Ht.
  apply total_Ok in Ht as (v & -> & _). done.
Qed.

Lemma zget_zeros n i : 0 <= i < n -> zget (zeros n) i = Some 0.
Proof. intros Hi. unfold zeros. apply zget_replicate. lia. Qed.

Lemma zlen_zeros n : 0 <= n -> zlen (zeros n) = n.
Proof. intros. unfold zeros. rewrite zlen_replicate. lia. Qed.

Lemma word_zeros n k : 0 <= k -> k * 4 + 4 <= n -> word (zeros n) k = 0.
Proof.
  intros Hk Hn. unfold word, ld32. cbn [le_bytes]. unfold ld. rewrite !zget_zeros by lia. done.
Qed.

Lemma word_splice l l' k v j :
  splice l (k * 4) (le32 v) = Ok l' -> 0 <= v < 2 ^ 32 -> 0 <= k -> 0 <= j ->
  word l' j = if j =? k then v else word l j.
Proof.
  intros E Hv Hk Hj. destruct (decide (k * 4 + 4 <= zlen l)) as [Hl|Hl].
  - destruct (splice_ok l (k * 4) (le32 v)) as (x & E' & Hlen & Hin & Hout); [lia|rewrite zlen_le32; lia|].
    rewrite E in E'. injection E' as <-. rewrite zlen_le32 in Hin, Hout. unfold word, ld32.
    destruct (Z.eqb_spec j k) as [->|Hne].
    + rewrite (le_bytes_ext 4 l' (le32 v) (k * 4) 0) by (intros i Hi; apply Hin; lia).
      pose proof (ld32_at [] v [] Hv) as E0. cbn [app] in E0. rewrite app_nil_r in E0. unfold ld32 in E0. change (zlen []) with 0 in E0.
      by rewrite E0.
    + by rewrite (le_bytes_ext 4 l' l (j * 4) (j * 4)) by (intros i Hi; apply Hout; lia).
  - exfalso. unfold splice in E. rewrite zlen_le32 in E. destruct (Z.leb_spec 0 (k * 4)); [|lia].
    destruct (Z.leb_spec (k * 4 + 4) (zlen l)); [lia|done].
Qed.

(** ** Positions of a tree *)

(** The pointer below slot [i] of the inode that the indices [p] lead to, the
    last one first; 0 where there is none. *)
Fixpoint ptr (s : store) (ib : list Z) (i : Z) (p : list Z) : Z :=
  match p with
  | [] => default 0 (zget ib i)
  | k :: p' => let b := ptr s ib i p' in if b =? 0 then 0 else word (s b) k
  end.

(** Slots 0 to 11 point to data, 12 to an indirect block, 13 to a doubly
    indirect one. *)
Definition depth (i : Z) : nat := if i <? 12 then 0 else if i =? 12 then 1 else 2.

Section positions.
Context (ppb : Z).

Definition vpos (i : Z) (p : list Z) : Prop :=
  0 <= i < 14 /\ (length p <= depth i)%nat /\ Forall (fun k => 0 <= k < ppb) p.

Lemma vpos_parent i k p : vpos i (k :: p) -> vpos i p /\ 0 <= k < ppb.
Proof. intros (Hi & Hl & Hp). cbn in Hl. apply Forall_cons_1 in Hp as [Hk Hp]. split; [split_and!; try done; lia|done]. Qed.

Lemma vpos_slot i : 0 <= i < 14 -> vpos i [].
Proof. intros. split_and!; [lia|lia|cbn; lia|by apply Forall_nil]. Qed.

(** Changes of blocks that are not indirect blocks of the tree do not matter. *)
Lemma ptr_frame s s' ib i p :
  (forall k q, vpos i (k :: q) -> ptr s ib i q <> 0 -> s' (ptr s ib i q) = s (ptr s ib i q)) ->
  vpos i p -> ptr s' ib i p = ptr s ib i p.
Proof.
  intros Hs. induction p as [|k p IH]; intros Hp; [done|]. cbn. rewrite IH by apply (vpos_parent _ _ _ Hp).
  destruct (Z.eqb_spec (ptr s ib i p) 0); [done|]. by rewrite (Hs k p Hp).
Qed.

Lemma ptr_below s ib i k p : ptr s ib i p = 0 -> ptr s ib i (k :: p) = 0.
Proof. cbn. by intros ->. Qed.

(** A block [nb] put into an empty slot of the inode; as an indirect block it
    is zero. *)
Lemma ptr_link_root s ib i nb j p :
  0 <= i < zlen ib -> ptr s ib i [] = 0 -> nb <> 0 -> (forall k, vpos i [k] -> word (s nb) k = 0) -> vpos j p ->
  ptr s (zset ib i nb) j p = if decide ((j, p) = (i, [])) then nb else ptr s ib j p.
Proof.
  intros Hi H0 Hnb Hz. induction p as [|k p IH]; intros Hp.
  - cbn. rewrite zget_zset by done. destruct (Z.eqb_spec i j) as [->|Hne].
    + by rewrite decide_True.
    + rewrite decide_False by congruence. done.
  - rewrite decide_False by congruence. destruct (vpos_parent _ _ _ Hp) as [Hp' Hk]. cbn. rewrite (IH Hp').
    destruct (decide ((j, p) = (i, []))) as [[= -> ->]|]; [|done].
    rewrite H0. destruct (Z.eqb_spec nb 0); [done|]. by rewrite (Hz k Hp).
Qed.

(** A block [nb] put into word [k] of the indirect block at [(i, p)]; no other
    position of the tree leads to that block. *)
Lemma ptr_link_word s ib i p k nb x j q :
  let b := ptr s ib i p in
  b <> 0 -> word (s b) k = 0 -> nb <> 0 -> nb <> b -> vpos i (k :: p) ->
  (forall j q, vpos j q -> ptr s ib j q = b -> (j, q) = (i, p)) ->
  (forall k', vpos i (k' :: k :: p) -> word (s nb) k' = 0) ->
  (forall k', 0 <= k' < ppb -> word x k' = if k' =? k then nb else word (s b) k') ->
  vpos j q ->
  ptr (upd s b x) ib j q = if decide ((j, q) = (i, k :: p)) then nb else ptr s ib j q.
Proof.
  intros b Hb Hw Hnb Hne Hv Hinj Hz Hx. induction q as [|k' q IH]; intros Hq.
  - by rewrite decide_False by congruence.
  - destruct (vpos_parent _ _ _ Hq) as [Hq' Hk']. cbn [ptr]. rewrite (IH Hq').
    destruct (decide ((j, q) = (i, k :: p))) as [[= -> ->]|Hnp].
    + rewrite decide_False by (intros [= _ E]; apply (f_equal length) in E; cbn in E; lia).
      destruct (Z.eqb_spec nb 0); [done|]. rewrite upd_ne by done. rewrite (Hz k' Hq).
      change (ptr s ib i (k :: p)) with (if b =? 0 then 0 else word (s b) k). destruct (Z.eqb_spec b 0); [done|]. by rewrite Hw.
    + destruct (Z.eqb_spec (ptr s ib j q) 0) as [E0|E0].
      { rewrite decide_False; [done|]. intros [= -> -> ->]. by apply Hb. }
      unfold upd. destruct (Z.eqb_spec (ptr s ib j q) b) as [Eb|Eb].
      * pose proof (Hinj j q Hq' Eb) as [= -> ->]. rewrite (Hx k' Hk'). fold b. destruct (Z.eqb_spec k' k) as [->|Hkk].
        -- by rewrite decide_True.
        -- by rewrite decide_False by congruence.
      * rewrite decide_False; [done|]. intros [= -> -> ->]. by apply Eb.
Qed.
End positions.

(** ** Forests *)

Section forest.
Context (ppb : Z) (V : Z -> Prop).

(** The trees of the inodes [V] consist of blocks in [P] and share none. *)
Record forest (P : Z -> Prop) (s : store) (I : Z -> list Z) : Prop := {
  fo_ok ino i p : V ino -> vpos ppb i p -> ptr s (I ino) i p <> 0 -> P (ptr s (I ino) i p);
  fo_inj ino i p ino' i' p' : V ino -> V ino' -> vpos ppb i p -> vpos ppb i' p' ->
    ptr s (I ino) i p <> 0 -> ptr s (I ino) i p = ptr s (I ino') i' p' -> (ino, i, p) = (ino', i', p');
}.

(** Fewer pointers, all of them as before. *)
Lemma forest_sub (P P' : Z -> Prop) s I s' I' :
  forest P s I -> (forall b, P b -> P' b) ->
  (forall ino i p, V ino -> vpos ppb i p -> ptr s' (I' ino) i p = 0 \/ ptr s' (I' ino) i p = ptr s (I ino) i p) ->
  forest P' s' I'.
Proof.
  intros F HP Hsub. split.
  - intros ino i p Hv Hp Hne. destruct (Hsub ino i p Hv Hp) as [|E]; [done|]. rewrite E in *. by apply HP, (fo_ok _ _ _ F).
  - intros ino i p ino' i' p' Hv Hv' Hp Hp' Hne Heq. destruct (Hsub ino i p Hv Hp) as [|E]; [done|].
    destruct (Hsub ino' i' p' Hv' Hp') as [E'|E']; [congruence|]. apply (fo_inj _ _ _ F); congruence.
Qed.

(** One pointer more, to a block that was in no tree. *)
Lemma forest_link (P : Z -> Prop) s I s' I' nb ino0 i0 p0 :
  forest P s I -> P nb -> (forall ino i p, V ino -> vpos ppb i p -> ptr s (I ino) i p <> nb) ->
  (forall ino i p, V ino -> vpos ppb i p ->
     ptr s' (I' ino) i p = if decide ((ino, i, p) = (ino0, i0, p0)) then nb else ptr s (I ino) i p) ->
  forest P s' I'.
Proof.
  intros F HP Hnew Hptr. split.
  - intros ino i p Hv Hp. rewrite Hptr by done. destruct (decide _); [done|]. by apply (fo_ok _ _ _ F).
  - intros ino i p ino' i' p' Hv Hv' Hp Hp'. rewrite !Hptr by done.
    destruct (decide ((ino, i, p) = _)) as [->|], (decide ((ino', i', p') = _)) as [->|]; try done.
    + intros _ E. symmetry in E. by apply Hnew in E.
    + intros _ E. by apply Hnew in E.
    + by apply (fo_inj _ _ _ F).
Qed.
End forest.

Arguments fo_ok {ppb V P s I}.
Arguments fo_inj {ppb V P s I}.
