(* ===== verification/Ext2Inodes.v ===== *)
(** * Ext2Inodes: inodes in the tables of an ext2 device

    Encoding and decoding of inodes, where an inode lies, and the specification
    of [m_read_inode] and [m_write_inode]: a write replaces one inode, atomically
    also when the transfer fails, and leaves all the others. *)

From S2P Require Import Prelude Blkdev Ext2 Ext2Store Ext2Alloc Ext2Tree.

(** ** Encoding and decoding *)

Lemma mapM_Ok {A B} (f : A -> res B) (g : A -> B) l : (forall x, x ∈ l -> f x = Ok (g x)) -> mapM f l = Ok (g <$> l).
Proof.
  induction l as [|x l IH]; intros Hf; [done|]. cbn. rewrite Hf by set_solver. cbn. rewrite IH by set_solver. done.
Qed.

Definition w16 (l : list Z) (off : Z) : Z := match ld16 l off with Ok v => v | _ => 0 end.
Definition w32 (l : list Z) (off : Z) : Z := match ld32 l off with Ok v => v | _ => 0 end.

Definition decoded (l : list Z) (off : Z) : ext2_inode :=
  mk_inode (w16 l off) (w32 l (off + 4)) ((fun i => w32 l (off + 40 + 4 * i)) <$> seqZ 0 15).

Lemma ld16_w16 l off : 0 <= off -> off + 2 <= zlen l -> ld16 l off = Ok (w16 l off).
Proof. intros Ho Hl. unfold w16. by destruct (proj1 (total_Ok _ _) (ld16_total l off Ho Hl)) as (v & -> & _). Qed.

Lemma ld32_w32 l off : 0 <= off -> off + 4 <= zlen l -> ld32 l off = Ok (w32 l off).
Proof. intros Ho Hl. unfold w32. by destruct (proj1 (total_Ok _ _) (ld32_total l off Ho Hl)) as (v & -> & _). Qed.

Lemma inode_decode_ok l off : 0 <= off -> off + 100 <= zlen l -> inode_decode l off = Ok (decoded l off).
Proof.
  intros Ho Hl. unfold inode_decode, INO_OFF_MODE, INO_OFF_SIZE, INO_OFF_BLOCK, decoded.
  rewrite Z.add_0_r, ld16_w16 by lia. cbn [mbind res_bind]. rewrite ld32_w32 by lia. cbn [mbind res_bind].
  rewrite (mapM_Ok _ (fun i => w32 l (off + 40 + 4 * i))); [done|].
  intros i Hi%elem_of_seqZ. apply ld32_w32; lia.
Qed.

Lemma decoded_ext l l' off : (forall i, 0 <= i < 100 -> zget l (off + i) = zget l' (off + i)) -> decoded l off = decoded l' off.
Proof.
  intros E. assert (forall n o, 0 <= o -> o + Z.of_nat n <= 100 -> le_bytes n l (off + o) = le_bytes n l' (off + o)) as Hle.
  { intros n o Ho Hn. apply le_bytes_ext. intros i Hi. rewrite <- !Z.add_assoc. apply E. lia. }
  unfold decoded. f_equal.
  - unfold w16, ld16. pose proof (Hle 2%nat 0 ltac:(lia) ltac:(lia)) as E0. rewrite !Z.add_0_r in E0. by rewrite E0.
  - unfold w32, ld32. by rewrite (Hle 4%nat 4) by lia.
  - apply list_fmap_ext. intros k i Hi%lookup_seqZ. unfold w32, ld32. rewrite <- !Z.add_assoc. by rewrite (Hle 4%nat) by lia.
Qed.

Definition inode_ok (i : ext2_inode) : Prop :=
  0 <= i_mode i < 65536 /\ 0 <= i_size i < 2 ^ 32 /\ zlen (i_block i) = 15 /\ Forall (fun b => 0 <= b < 2 ^ 32) (i_block i).

Lemma zlen_words l : zlen (mjoin (le32 <$> l)) = 4 * zlen l.
Proof.
  induction l as [|x l IH]; [done|]. change (mjoin (le32 <$> x :: l)) with (le32 x ++ mjoin (le32 <$> l)).
  rewrite zlen_app, zlen_le32, IH. unfold zlen. cbn [length]. lia.
Qed.

Lemma ld32_words l k x : l !! k = Some x -> 0 <= x < 2 ^ 32 -> ld32 (mjoin (le32 <$> l)) (4 * Z.of_nat k) = Ok x.
Proof.
  intros Hk Hx. rewrite <- (take_drop_middle l k x Hk) at 1.
  rewrite fmap_app. change (mjoin ((le32 <$> take k l) ++ (le32 <$> x :: drop (S k) l)))
    with (mjoin ((le32 <$> take k l) ++ [le32 x] ++ (le32 <$> drop (S k) l))).
  rewrite !join_app. change (mjoin [le32 x]) with (le32 x ++ []). rewrite app_nil_r.
  pose proof (ld32_at (mjoin (le32 <$> take k l)) x (mjoin (le32 <$> drop (S k) l)) Hx) as E.
  rewrite zlen_words in E. apply lookup_lt_Some in Hk.
  assert (zlen (take k l) = Z.of_nat k) as Hl by (unfold zlen; rewrite length_take; lia). rewrite Hl in E. exact E.
Qed.

(** A field written into a buffer, with what is read there afterwards. *)
Lemma splice_field l off b : 0 <= off -> off + zlen b <= zlen l ->
  exists l', splice l off b = Ok l' /\ zlen l' = zlen l /\
    (forall i, i < off \/ off + zlen b <= i -> zget l' i = zget l i) /\
    (forall n o, 0 <= o -> o + Z.of_nat n <= zlen b -> le_bytes n l' (off + o) = le_bytes n b o).
Proof.
  intros Ho Hl. destruct (splice_ok l off b Ho Hl) as (l' & E & Hlen & Hin & Hout). exists l'. split_and!; try done.
  intros n o Ho' Hn. apply le_bytes_ext. intros i Hi. rewrite <- Z.add_assoc. apply Hin. lia.
Qed.

Lemma inode_encode_ok l off i : inode_ok i -> 0 <= off -> off + 100 <= zlen l ->
  exists l', inode_encode l off i = Ok l' /\ zlen l' = zlen l /\
    (forall j, j < off \/ off + 100 <= j -> zget l' j = zget l j) /\ decoded l' off = i.
Proof.
  intros (Hm & Hs & Hb & HB) Ho Hl. unfold inode_encode, INO_OFF_MODE, INO_OFF_SIZE, INO_OFF_BLOCK. rewrite Z.add_0_r.
  destruct (splice_field l off (le16 (i_mode i))) as (l1 & -> & Hl1 & Ho1 & Hr1); [lia|rewrite zlen_le16; lia|]. cbn [mbind res_bind].
  destruct (splice_field l1 (off + 4) (le32 (i_size i))) as (l2 & -> & Hl2 & Ho2 & Hr2); [lia|rewrite zlen_le32; lia|]. cbn [mbind res_bind].
  destruct (splice_field l2 (off + 40) (mjoin (le32 <$> i_block i))) as (l3 & -> & Hl3 & Ho3 & Hr3); [lia|rewrite zlen_words; lia|].
  rewrite zlen_le16 in *. rewrite zlen_le32 in *. rewrite zlen_words, Hb in *. exists l3. split; [done|]. split; [lia|]. split.
  { intros j Hj. by rewrite Ho3, Ho2, Ho1 by lia. }
  destruct i as [mode size blocks]; cbn [i_mode i_size i_block] in *. unfold decoded. f_equal.
  - unfold w16, ld16. rewrite (le_bytes_ext 2 l3 l1 off off) by (intros j Hj; rewrite Ho3, Ho2 by lia; done).
    pose proof (Hr1 2%nat 0 ltac:(lia) ltac:(lia)) as E. rewrite Z.add_0_r in E. rewrite E.
    pose proof (ld16_at [] mode [] Hm) as E0. cbn [app] in E0. rewrite app_nil_r in E0. unfold ld16 in E0. change (zlen []) with 0 in E0. by rewrite E0.
  - unfold w32, ld32. rewrite (le_bytes_ext 4 l3 l2 (off + 4) (off + 4)) by (intros j Hj; rewrite Ho3 by lia; done).
    pose proof (Hr2 4%nat 0 ltac:(lia) ltac:(lia)) as E. rewrite Z.add_0_r in E. rewrite E.
    pose proof (ld32_at [] size [] Hs) as E0. cbn [app] in E0. rewrite app_nil_r in E0. unfold ld32 in E0. change (zlen []) with 0 in E0. by rewrite E0.
  - apply list_eq. intros k. rewrite list_lookup_fmap. destruct (decide (k < 15)%nat) as [Hk|Hk].
    + rewrite lookup_seqZ_lt by lia. cbn [fmap option_fmap option_map]. destruct (lookup_lt_is_Some_2 blocks k) as [x Hx]; [unfold zlen in Hb; lia|].
      rewrite Hx. f_equal. unfold w32, ld32. rewrite Hr3 by lia.
      pose proof (ld32_words blocks k x Hx (Forall_lookup_1 _ _ _ _ HB Hx)) as E. unfold ld32 in E. rewrite Z.add_0_l. by rewrite E.
    + rewrite lookup_seqZ_ge by lia. cbn. rewrite lookup_ge_None_2; [done|unfold zlen in Hb; lia].
Qed.

(** ** Where an inode lies *)

Section location.
Context (m : ext2_mount).
Hypothesis L : layout m.

Definition irole (ino : Z) : role :=
  RTable ((ino - 1) / m_inodes_per_group m) ((ino - 1) mod m_inodes_per_group m * m_inode_size m / m_block_size m).

Definition ioff (ino : Z) : Z := (ino - 1) mod m_inodes_per_group m * m_inode_size m mod m_block_size m.

(** The inode that the tables hold. *)
Definition inode_of (s : store) (ino : Z) : ext2_inode := decoded (s (loc m (irole ino))) (ioff ino).

Lemma isz_cases : m_inode_size m = 128 \/ m_inode_size m = 256 \/ m_inode_size m = 512.
Proof.
  destruct (lay_isz L) as [H1 H2]. apply Z.mod_divide in H2 as [q Hq]; [|lia].
  assert (q = 1 \/ q = 2 \/ q = 3 \/ q = 4) as [->|[->|[->| ->]]] by nia; lia.
Qed.

Lemma isz_block : exists q, m_block_size m = m_inode_size m * q /\ 2 <= q.
Proof.
  destruct (lay_sized L) as (_ & _ & ? & -> & _). destruct isz_cases as [->|[->| ->]];
    [exists (4 * m_spb m)|exists (2 * m_spb m)|exists (m_spb m)]; lia.
Qed.

Lemma ioff_multiple ino : exists a, ioff ino = m_inode_size m * a.
Proof.
  destruct isz_block as (q & Hq & ?). unfold ioff. rewrite Hq, (Z.mul_comm _ (m_inode_size m)).
  pose proof (proj1 (lay_isz L)). rewrite Z.mul_mod_distr_l by lia. by eexists.
Qed.

Lemma ioff_range ino : 0 <= ioff ino /\ ioff ino + m_inode_size m <= m_block_size m.
Proof.
  destruct isz_block as (q & Hq & ?). destruct (ioff_multiple ino) as [a Ha]. pose proof (proj1 (lay_isz L)).
  pose proof (Z.mod_pos_bound ((ino - 1) mod m_inodes_per_group m * m_inode_size m) (m_block_size m) ltac:(nia)) as Hr.
  fold (ioff ino) in Hr. split; [lia|]. rewrite Ha, Hq in *.
  assert (a < q) by (apply (Z.mul_lt_mono_pos_l (m_inode_size m)); lia). nia.
Qed.

(** The bytes of an inode are in one sector. *)
Lemma ioff_sector ino i : 0 <= i < 128 -> (ioff ino + i) / 512 = ioff ino / 512.
Proof.
  intros Hi. destruct (ioff_multiple ino) as [a Ha]. rewrite Ha. destruct isz_cases as [E|[E|E]]; rewrite E; mlia.
Qed.

Lemma irole_valid ino : vino m ino -> valid_role m (irole ino).
Proof.
  intros Hv. split; [by apply igroup_range|]. pose proof (lay_ipg L). pose proof (proj1 (lay_isz L)).
  destruct isz_block as (q & Hq & ?). pose proof (Z.mod_pos_bound (ino - 1) (m_inodes_per_group m) ltac:(lia)) as Hr.
  split; [apply Z.div_pos; nia|]. unfold table_blocks.
  set (x := (ino - 1) mod m_inodes_per_group m) in *.
  assert (x * m_inode_size m + m_inode_size m <= m_inodes_per_group m * m_inode_size m) by nia.
  apply Z.div_lt_upper_bound; [nia|]. pose proof (Z.div_mod (m_inodes_per_group m * m_inode_size m + m_block_size m - 1) (m_block_size m) ltac:(nia)).
  pose proof (Z.mod_pos_bound (m_inodes_per_group m * m_inode_size m + m_block_size m - 1) (m_block_size m) ltac:(nia)). nia.
Qed.

(** Two inodes in one block do not overlap. *)
Lemma ioff_apart ino ino' : vino m ino -> vino m ino' -> ino <> ino' -> loc m (irole ino) = loc m (irole ino') ->
  ioff ino + 128 <= ioff ino' \/ ioff ino' + 128 <= ioff ino.
Proof.
  intros Hv Hv' Hne Heq. apply (lay_inj L) in Heq; [|by apply irole_valid|by apply irole_valid]. injection Heq as Hg Hk.
  pose proof (lay_ipg L). pose proof (proj1 (lay_isz L)). destruct isz_block as (q & Hq & ?).
  pose proof (Z.div_mod (ino - 1) (m_inodes_per_group m) ltac:(lia)). pose proof (Z.div_mod (ino' - 1) (m_inodes_per_group m) ltac:(lia)).
  destruct (ioff_multiple ino) as [a Ha]. destruct (ioff_multiple ino') as [a' Ha'].
  assert (ioff ino <> ioff ino') as Hoff.
  2:{ rewrite Ha, Ha' in *. destruct (Z.lt_trichotomy a a') as [Hlt|[->|Hlt]]; [left|done|right]; clear -H0 Hlt; nia. }
  intros Ho. unfold ioff in *.
  set (x := (ino - 1) mod m_inodes_per_group m) in *. set (x' := (ino' - 1) mod m_inodes_per_group m) in *.
  pose proof (Z.div_mod (x * m_inode_size m) (m_block_size m) ltac:(nia)) as E1.
  pose proof (Z.div_mod (x' * m_inode_size m) (m_block_size m) ltac:(nia)) as E2. rewrite Hk, Ho, <- E2 in E1.
  assert (x = x') by nia. apply Hne. nia.
Qed.

Lemma role_in_range r : valid_role m r -> 0 <= loc m r < m_blocks_count m.
Proof. intros Hr. pose proof (lay_range L r Hr). pose proof (lay_first L). lia. Qed.
End location.

(** ** Reading and writing inodes *)

Section inodes.
Context {D : Type} {drv : BlkDriver D} {laws : BlkLaws D} (m : ext2_mount) (e : bool).
Hypothesis L : layout m.

Lemma locate_wp ino Q (w : world D) : vino m ino -> Q (Some (loc m (irole m ino), ioff m ino)) w -> wp (m_inode_locate m ino) Q w.
Proof.
  intros Hv HQ. unfold m_inode_locate. pose proof (igroup_range m ino L Hv) as Hg. pose proof (lay_groups L) as Hng.
  pose proof (lay_ipg L) as Hipg. destruct (lay_sized L) as (_ & _ & Hspb & Hbs & _). unfold EXT2_MAX_GROUPS in *.
  pose proof (lay_inodes L) as Hin. pose proof Hv as [Hv1 Hv2]. pose proof (isz_cases m L) as Hisz.
  assert (m_ngroups m * m_inodes_per_group m < 2 ^ 28) as Hsmall by (change (2 ^ 28) with 268435456; nia). change (2 ^ 28) with 268435456 in Hsmall.
  rewrite (u32_small (ino - 1)), (u32_small (m_ngroups m)) by lia.
  destruct (Z.leb_spec (m_ngroups m) ((ino - 1) / m_inodes_per_group m)); [lia|].
  pose proof (Z.mod_pos_bound (ino - 1) (m_inodes_per_group m) ltac:(lia)) as Hmod.
  apply wp_bind. destruct (lay_tabs L) as (_ & _ & Ht). eapply wp_lift; [apply ld_tab; unfold EXT2_MAX_GROUPS in Ht; lia|].
  assert (0 <= (ino - 1) mod m_inodes_per_group m * m_inode_size m < 4294967296) as Hoff by (destruct Hisz as [->|[->| ->]]; nia).
  rewrite (u32_small _ Hoff). pose proof (role_in_range m L _ (irole_valid m L ino Hv)) as Hr. cbn [loc irole] in Hr.
  pose proof (lay_blocks L) as Hbl. change (2 ^ 32) with 4294967296 in Hbl. rewrite u32_small by lia. by apply wp_ret.
Qed.

Lemma read_inode_wp ino s Q (w : world D) :
  vino m ino -> sees m e w s -> (e = true -> forall w', sees m e w' s -> Q None w') ->
  (forall w', sees m e w' s -> Q (Some (inode_of m s ino)) w') -> wp (m_read_inode m ino) Q w.
Proof.
  intros Hv Hs HN HS. unfold m_read_inode. pose proof (lay_sized L) as Hz. pose proof Hz as (_ & -> & _). pose proof Hv as [Hv1 Hv2].
  apply wp_bind, wp_require; [intros _|rewrite !(proj2 (Z.leb_le _ _)) by lia; done].
  apply wp_bind, locate_wp; [done|]. apply wp_bind, (wp_heap m e s); [done|done|]. clear w Hs. intros w Hs.
  pose proof (role_in_range m L _ (irole_valid m L ino Hv)) as Hr.
  apply wp_bind, (wp_read m e _ s); [done|done|done|intros E; by apply HN|].
  eapply wp_lift; [|by apply HS]. destruct (ioff_range m L ino). pose proof (proj1 (lay_isz L)).
  apply inode_decode_ok; [lia|]. rewrite (sees_len m e w s) by done. lia.
Qed.

(** [s'] is [s] with inode [ino] replaced. *)
Definition stored (s : store) (ino : Z) (i : ext2_inode) (s' : store) : Prop :=
  (forall b, b <> loc m (irole m ino) -> s' b = s b) /\ inode_of m s' ino = i /\
  forall ino', vino m ino' -> ino' <> ino -> inode_of m s' ino' = inode_of m s ino'.

Lemma write_inode_wp ino i s (w : world D) :
  vino m ino -> inode_ok i -> sees m e w s ->
  wp (m_write_inode m ino i)
     (fun o w' => exists s', sees m e w' s' /\ (stored s ino i s' \/ s' = s /\ o = None) /\ (o = None -> e = true)) w.
Proof.
  intros Hv Hi Hs. unfold m_write_inode. pose proof (lay_sized L) as Hz. pose proof Hz as (-> & -> & _).
  apply wp_bind, wp_require; [intros _|done]. apply wp_bind, locate_wp; [done|].
  apply wp_bind, (wp_heap m e s); [done|intros E w' Hw'; exists s; auto|]. clear w Hs. intros w Hs.
  pose proof (role_in_range m L _ (irole_valid m L ino Hv)) as Hr. set (b := loc m (irole m ino)) in *.
  apply wp_bind, (wp_read m e _ s); [done|done|done|intros E; exists s; auto|].
  destruct (ioff_range m L ino) as [Ho1 Ho2]. pose proof (proj1 (lay_isz L)) as Hisz. pose proof (sees_len m e w s b Hz Hs Hr) as Hlen.
  destruct (inode_encode_ok (s b) (ioff m ino) i Hi) as (x & Ex & Hxl & Hxo & Hxd); [lia|lia|].
  assert (stored s ino i (upd s b x)) as Hst.
  { split; [intros; by apply upd_ne|]. unfold inode_of. fold b. rewrite upd_eq. split; [done|]. intros ino' Hv' Hne.
    unfold upd. destruct (Z.eqb_spec (loc m (irole m ino')) b) as [E|]; [|done]. rewrite E. apply decoded_ext.
    intros j Hj. apply Hxo. destruct (ioff_apart m L ino ino'); try done; lia. }
  apply wp_bind. eapply wp_lift; [exact Ex|]. apply (wp_write m e b x s); [done|done|done|lia| |].
  - intros w' Hw'. exists (upd s b x). split; [done|]. split; [by left|done].
  - intros E w' y Hw' Hy. destruct (mixed_atomic _ _ _ (ioff m ino / 512) Hy Hxl) as [->| ->].
    + intros j Hj Hsec. apply Hxo. destruct (decide (ioff m ino <= j < ioff m ino + 128)) as [Hin|]; [|lia].
      exfalso. apply Hsec. replace j with (ioff m ino + (j - ioff m ino)) by lia. apply ioff_sector; [done|lia].
    + exists s. split; [|auto]. eapply sees_ext; [exact Hw'|]. intros b' _. unfold upd. by destruct (Z.eqb_spec b' b) as [->|].
    + exists (upd s b x). auto.
Qed.
End inodes.
