(* ===== verification/Ext2Files.v ===== *)
(** * Ext2Files: reading and writing files on ext2

    The invariant of the file system ([fs_inv]), and the specification of
    [ext2_write_file] and [ext2_read_file_m] with every failure of a transfer and
    of the heap: whatever happens, the invariant holds afterwards and no other
    file changed; when the write succeeds, reading returns the data. *)

From S2P Require Import Prelude Blkdev Ext2 Ext2Store Ext2Alloc Ext2Tree Ext2Inodes.

Section invariant.
Context (m : ext2_mount).

Definition ppb : Z := m_block_size m / 4.

(** A block in use that is not metadata. *)
Definition owned (s : store) (b : Z) : Prop :=
  in_fs m b /\ used m s b = true /\ forall r, valid_role m r -> loc m r <> b.

Definition blocks_of (s : store) (ino : Z) : list Z := i_block (inode_of m s ino).

(** Metadata is in use, free blocks are zero, inodes are well formed and free
    ones have no blocks. *)
Definition base (s : store) : Prop :=
  (forall r, valid_role m r -> used m s (loc m r) = true) /\
  (forall b, in_fs m b -> used m s b = false -> s b = zeros (m_block_size m)) /\
  (forall ino, vino m ino -> inode_ok (inode_of m s ino)) /\
  (forall ino, vino m ino -> iused m s ino = false -> blocks_of s ino = zeros 15).

Definition trees (s : store) (I : Z -> list Z) : Prop := forest ppb (vino m) (owned s) s I.

(** The invariant of the file system. *)
Definition fs_inv (s : store) : Prop := base s /\ trees s (blocks_of s).

(** File [ino] has the same inode and the same blocks. *)
Definition same_file (s s' : store) (ino : Z) : Prop :=
  inode_of m s' ino = inode_of m s ino /\
  forall i p, vpos ppb i p -> ptr s (blocks_of s ino) i p <> 0 -> s' (ptr s (blocks_of s ino) i p) = s (ptr s (blocks_of s ino) i p).

Lemma same_file_refl s ino : same_file s s ino.
Proof. done. Qed.

Lemma same_file_ptr s s' ino i p : same_file s s' ino -> vpos ppb i p ->
  ptr s' (blocks_of s' ino) i p = ptr s (blocks_of s ino) i p.
Proof.
  intros [Hi Hb] Hp. unfold blocks_of. rewrite Hi. apply (ptr_frame ppb); [|done].
  intros k q Hq. apply Hb. apply (vpos_parent _ _ _ _ Hq).
Qed.

Lemma same_file_trans s1 s2 s3 ino : same_file s1 s2 ino -> same_file s2 s3 ino -> same_file s1 s3 ino.
Proof.
  intros H12 H23. pose proof H12 as [Hi1 Hb1]. pose proof H23 as [Hi2 Hb2]. split; [congruence|]. intros i p Hp Hne.
  pose proof (same_file_ptr _ _ _ _ _ H12 Hp) as E. rewrite <- (Hb1 i p Hp Hne). rewrite <- E in *. by apply Hb2.
Qed.

(** ** A file that is being written *)

Definition override (I : Z -> list Z) (ino : Z) (ib : list Z) : Z -> list Z := fun j => if j =? ino then ib else I j.

(** Between the read of inode [ino] in [s0] and the write of it: [ib] are the
    pointers in memory, ahead of those on the device. *)
Record opened (s0 : store) (ino : Z) (s : store) (ib : list Z) : Prop := {
  op_base : base s;
  op_trees : trees s (override (blocks_of s0) ino ib);
  op_len : zlen ib = 15;
  op_range : Forall (fun b => 0 <= b < 2 ^ 32) ib;
  op_meta r : valid_role m r -> (forall g, r <> RBlockBitmap g) -> s (loc m r) = s0 (loc m r);
  op_old i : 0 <= i < 14 -> ptr s (blocks_of s0 ino) i [] = 0 \/ ptr s (blocks_of s0 ino) i [] = ptr s ib i [];
  op_others j : vino m j -> j <> ino -> same_file s0 s j;
}.

(** Every block is in use. *)
Definition full (s : store) : Prop := forall b, in_fs m b -> used m s b = true.

(** The pointers of the file stay, and so does the data they point to. *)
Definition extends (s : store) (ib : list Z) (s' : store) (ib' : list Z) : Prop :=
  forall i p, vpos ppb i p -> ptr s ib i p <> 0 ->
    ptr s' ib' i p = ptr s ib i p /\ (length p = depth i -> s' (ptr s ib i p) = s (ptr s ib i p)).

Lemma tree_extends_refl s ib : extends s ib s ib.
Proof. done. Qed.

Lemma tree_extends_trans s1 i1 s2 i2 s3 i3 : extends s1 i1 s2 i2 -> extends s2 i2 s3 i3 -> extends s1 i1 s3 i3.
Proof.
  intros H12 H23 i p Hp Hne. destruct (H12 i p Hp Hne) as [E1 D1]. destruct (H23 i p Hp ltac:(congruence)) as [E2 D2].
  split; [congruence|]. intros Hd. rewrite <- (D1 Hd). rewrite E1 in D2. by apply D2.
Qed.

Context (L : layout m).

Lemma ppb_pos : 256 <= ppb.
Proof. destruct (lay_sized L) as (_ & _ & ? & Hbs & _). unfold ppb. rewrite Hbs. mlia. Qed.

Lemma ppb_block : ppb * 4 = m_block_size m.
Proof. destruct (lay_sized L) as (_ & _ & ? & Hbs & _). unfold ppb. rewrite Hbs. mlia. Qed.

Lemma owned_range s b : owned s b -> 0 < b < m_blocks_count m /\ b < 2 ^ 32.
Proof. intros ([Hb1 Hb2] & _). pose proof (lay_first L). pose proof (lay_blocks L). lia. Qed.

Lemma meta_in_fs r : valid_role m r -> in_fs m (loc m r).
Proof. apply (lay_range L). Qed.

(** The bitmaps do not change with a block that is not a bitmap. *)
Lemma used_upd s b x b' : in_fs m b' -> (forall r, valid_role m r -> loc m r <> b) -> used m (upd s b x) b' = used m s b'.
Proof.
  intros Hb' Hne. unfold used. rewrite upd_ne; [done|]. apply (Hne (RBlockBitmap _)). by apply group_range.
Qed.

Lemma iused_same s s' ino : vino m ino -> (forall g, 0 <= g < m_ngroups m -> s' (loc m (RInodeBitmap g)) = s (loc m (RInodeBitmap g))) ->
  iused m s' ino = iused m s ino.
Proof. intros Hv Hs. unfold iused. rewrite Hs; [done|]. by apply igroup_range. Qed.

Lemma inode_of_meta s s' ino : vino m ino -> s' (loc m (irole m ino)) = s (loc m (irole m ino)) -> inode_of m s' ino = inode_of m s ino.
Proof. intros _ E. unfold inode_of. by rewrite E. Qed.

Lemma op_inode s0 ino s ib j : opened s0 ino s ib -> vino m j -> inode_of m s j = inode_of m s0 j.
Proof. intros O Hj. apply inode_of_meta; [done|]. apply (op_meta _ _ _ _ O); [by apply irole_valid|done]. Qed.

Lemma opened_start s ino : fs_inv s -> vino m ino -> opened s ino s (blocks_of s ino).
Proof.
  intros [HB HF] Hv. destruct HB as (Hm & Hz & Hi & Hfr) eqn:EHB. destruct (Hi ino Hv) as (_ & _ & Hlen & Hrange). clear EHB. split; try done.
  - eapply forest_sub; [exact HF|done|]. intros j i p _ _. right. unfold override. by destruct (Z.eqb_spec j ino) as [->|].
  - by right.
Qed.

Lemma override_eq I ino ib : override I ino ib ino = ib.
Proof. unfold override. by rewrite Z.eqb_refl. Qed.

Lemma override_ne I ino ib j : j <> ino -> override I ino ib j = I j.
Proof. unfold override. by intros ->%Z.eqb_neq. Qed.

Lemma op_owned s0 ino s ib i p : opened s0 ino s ib -> vino m ino -> vpos ppb i p -> ptr s ib i p <> 0 -> owned s (ptr s ib i p).
Proof.
  intros O Hv Hp Hne. pose proof (fo_ok (op_trees _ _ _ _ O) ino i p Hv Hp) as H. rewrite override_eq in H. by apply H.
Qed.

Lemma op_unique s0 ino s ib i p j q : opened s0 ino s ib -> vino m ino -> vpos ppb i p -> vpos ppb j q ->
  ptr s ib i p <> 0 -> ptr s ib j q = ptr s ib i p -> (j, q) = (i, p).
Proof.
  intros O Hv Hp Hq Hne E. pose proof (fo_inj (op_trees _ _ _ _ O) ino j q ino i p Hv Hv Hq Hp) as H.
  rewrite override_eq in H. rewrite E in H. by injection (H Hne eq_refl) as -> ->.
Qed.

(** The blocks of another file, in the two states. *)
Lemma op_other_blocks s0 ino s ib j : opened s0 ino s ib -> vino m j -> blocks_of s j = blocks_of s0 j.
Proof. intros O Hj. unfold blocks_of. f_equal. by eapply op_inode. Qed.

Lemma op_apart s0 ino s ib i p j i' p' : opened s0 ino s ib -> vino m ino -> vino m j -> j <> ino -> vpos ppb i p -> vpos ppb i' p' ->
  ptr s ib i p <> 0 -> ptr s (blocks_of s j) i' p' <> ptr s ib i p.
Proof.
  intros O Hv Hj Hne Hp Hp' Hnz E. pose proof (fo_inj (op_trees _ _ _ _ O) ino i p j i' p' Hv Hj Hp Hp') as H.
  rewrite override_eq, override_ne, <- (op_other_blocks _ _ _ _ _ O Hj) in H by done. injection (H Hnz (eq_sym E)). congruence.
Qed.

(** An exit without the write of the inode. *)
Lemma opened_abandon s0 ino s ib : opened s0 ino s ib -> vino m ino -> fs_inv s.
Proof.
  intros O Hv. split; [apply O|]. eapply forest_sub; [apply O|done|]. intros j i p Hj Hp.
  assert (blocks_of s j = blocks_of s0 j) as -> by (unfold blocks_of; f_equal; by eapply op_inode).
  unfold override. destruct (Z.eqb_spec j ino) as [->|]; [|by right].
  induction p as [|k p IH]; [by apply (op_old _ _ _ _ O); destruct Hp|].
  destruct IH as [E|E]; [by apply (vpos_parent _ _ _ _ Hp)|left|right]; cbn [ptr]; by rewrite E.
Qed.

(** A bitmap gained bits. *)
Lemma base_grows s s' : base s -> grows m RBlockBitmap s s' -> base s' /\
  (forall b, (forall g, 0 <= g < m_ngroups m -> b <> loc m (RBlockBitmap g)) -> s' b = s b) /\ (forall b, owned s b -> owned s' b /\ s' b = s b).
Proof.
  intros (Hm & Hz & Hi & Hfr) G. pose proof G as [Gs Gb].
  assert (forall ino, vino m ino -> inode_of m s' ino = inode_of m s ino) as Hino.
  { intros ino Hv. apply inode_of_meta; [done|]. apply Gs. intros g Hg E. apply (lay_inj L) in E; [done|by apply irole_valid|done]. }
  split; [split; [|split; [|split]]|split].
  - intros r Hr. eapply used_grows; [done|done|by apply meta_in_fs|by apply Hm].
  - intros b Hb Hu. assert (used m s b = false) as Hu0.
    { destruct (used m s b) eqn:E; [|done]. by rewrite (used_grows m L s s' b G Hb E) in Hu. }
    rewrite Gs; [by apply Hz|]. intros g Hg ->. rewrite (Hm (RBlockBitmap g)) in Hu0 by done. done.
  - intros ino Hv. rewrite Hino by done. by apply Hi.
  - intros ino Hv. unfold blocks_of. rewrite Hino by done. rewrite (iused_same s); [by apply Hfr|done|].
    intros g Hg. apply Gs. intros h Hh E. by apply (lay_inj L) in E.
  - done.
  - intros b (Hb & Hu & Hr). split; [split_and!; try done; by eapply used_grows; eauto|]. apply Gs. intros g Hg ->. by apply (Hr (RBlockBitmap g)).
Qed.

Lemma opened_grows_ptr s0 ino s ib s' j p : opened s0 ino s ib -> vino m ino -> grows m RBlockBitmap s s' -> vpos ppb j p -> ptr s' ib j p = ptr s ib j p.
Proof.
  intros O Hv G Hp. destruct (base_grows s s' (op_base _ _ _ _ O) G) as (_ & _ & Hown). apply (ptr_frame ppb); [|done].
  intros k q Hq Hne. apply Hown. eapply op_owned; [done|done|apply (vpos_parent _ _ _ _ Hq)|done].
Qed.

Lemma opened_grows s0 ino s ib s' : opened s0 ino s ib -> vino m ino -> grows m RBlockBitmap s s' ->
  opened s0 ino s' ib /\ extends s ib s' ib.
Proof.
  intros O Hv G. destruct (base_grows s s' (op_base _ _ _ _ O) G) as (HB & Hout & Hown). pose proof (op_trees _ _ _ _ O) as F.
  assert (forall j i p, vino m j -> vpos ppb i p ->
    ptr s' (override (blocks_of s0) ino ib j) i p = ptr s (override (blocks_of s0) ino ib j) i p) as Hptr.
  { intros j i p Hj Hp. apply (ptr_frame ppb); [|done]. intros k q Hq Hne. apply Hown.
    apply (fo_ok F j i q Hj); [apply (vpos_parent _ _ _ _ Hq)|done]. }
  split.
  - split; try apply O; try done.
    + eapply forest_sub; [exact F|apply Hown|]. intros j i p Hj Hp. right. by apply Hptr.
    + intros r Hr Hne. rewrite <- (op_meta _ _ _ _ O r Hr Hne). apply Hout. intros g Hg E. apply (Hne g), (lay_inj L); done.
    + intros j Hj Hne. eapply same_file_trans; [by apply (op_others _ _ _ _ O)|]. split.
      * apply inode_of_meta; [done|]. apply Hout. intros g Hg E. apply (lay_inj L) in E; [done|by apply irole_valid|done].
      * intros i p Hp Hnz. apply Hown.
        assert (blocks_of s j = override (blocks_of s0) ino ib j) as E by (rewrite override_ne by done; by eapply op_other_blocks).
        rewrite E in *. by apply (fo_ok F).
  - intros i p Hp Hnz. pose proof (Hptr ino i p Hv Hp) as E. rewrite override_eq in E. split; [done|]. intros _. apply Hown. by eapply op_owned.
Qed.

(** ** Hanging a block into the tree *)

(** A block in use that no tree holds. *)
Definition fresh (s0 : store) (ino : Z) (s : store) (ib : list Z) (nb : Z) : Prop :=
  owned s nb /\ forall j i p, vino m j -> vpos ppb i p -> ptr s (override (blocks_of s0) ino ib j) i p <> nb.

Lemma zero_word l k : l = zeros (m_block_size m) -> 0 <= k < ppb -> word l k = 0.
Proof. intros -> Hk. pose proof ppb_block. apply word_zeros; lia. Qed.

Lemma opened_alloc e s0 ino s ib nb s' : opened s0 ino s ib -> vino m ino -> block_taken m e s (Some nb) s' ->
  opened s0 ino s' ib /\ extends s ib s' ib /\ fresh s0 ino s' ib nb /\ s' nb = zeros (m_block_size m) /\
  (forall nb', fresh s0 ino s ib nb' -> fresh s0 ino s' ib nb' /\ s' nb' = s nb') /\
  (forall j q, vpos ppb j q -> ptr s' ib j q = ptr s ib j q).
Proof.
  intros O Hv (G & Hin & Hu & Hu' & _). destruct (opened_grows s0 ino s ib s' O Hv G) as [O' Hext].
  destruct (base_grows s s' (op_base _ _ _ _ O) G) as (HB & Hout & Hown). split; [done|]. split; [done|].
  pose proof (op_base _ _ _ _ O) as (Hm & Hz & _). pose proof (op_trees _ _ _ _ O) as F.
  assert (forall r, valid_role m r -> loc m r <> nb) as Hnm by (intros r Hr <-; by rewrite (Hm r Hr) in Hu).
  assert (forall j i p, vino m j -> vpos ppb i p ->
    ptr s' (override (blocks_of s0) ino ib j) i p = ptr s (override (blocks_of s0) ino ib j) i p) as Hptr.
  { intros j i p Hj Hp. apply (ptr_frame ppb); [|done]. intros k q Hq Hne. apply Hown.
    apply (fo_ok F j i q Hj); [apply (vpos_parent _ _ _ _ Hq)|done]. }
  split; [split; [by split_and!|]|split; [|split]].
  - intros j i p Hj Hp E. rewrite Hptr in E by done. destruct Hin as [Hn _]. pose proof (lay_first L).
    pose proof (fo_ok F j i p Hj Hp) as Ho. rewrite E in Ho. destruct (Ho ltac:(lia)) as (_ & Hc & _). congruence.
  - rewrite Hout; [by apply Hz|]. intros g Hg E. by apply (Hnm (RBlockBitmap g)).
  - intros nb' [Ho Hn]. split; [split; [by apply Hown|]|by apply Hown]. intros j i p Hj Hp. rewrite Hptr by done. by apply Hn.
  - intros j q Hq. pose proof (Hptr ino j q Hv Hq) as E. by rewrite override_eq in E.
Qed.

(** A write to a block that no other file holds. *)
Lemma opened_block_write s0 ino s ib b x : opened s0 ino s ib -> owned s b ->
  (forall j i p, vino m j -> j <> ino -> vpos ppb i p -> ptr s (blocks_of s j) i p <> b) ->
  trees (upd s b x) (override (blocks_of s0) ino ib) -> opened s0 ino (upd s b x) ib.
Proof.
  intros O (Hin & Hu & Hr) Hapart F.
  assert (forall j, vino m j -> inode_of m (upd s b x) j = inode_of m s j) as Hino.
  { intros j Hj. apply inode_of_meta; [done|]. apply upd_ne, Hr. by apply irole_valid. }
  split; try apply O.
  - destruct (op_base _ _ _ _ O) as (Hm & Hz & Hi & Hfr). split; [|split; [|split]].
    + intros r Hr'. rewrite used_upd; [by apply Hm|by apply meta_in_fs|done].
    + intros b' Hb' Hu'. rewrite used_upd in Hu' by done. rewrite upd_ne by congruence. by apply Hz.
    + intros j Hj. rewrite Hino by done. by apply Hi.
    + intros j Hj. unfold blocks_of. rewrite Hino by done. rewrite (iused_same s); [by apply Hfr|done|].
      intros g Hg. apply upd_ne. by apply (Hr (RInodeBitmap g)).
  - done.
  - intros r Hr' Hnb. rewrite upd_ne by (by apply Hr). by apply O.
  - intros j Hj Hnj. eapply same_file_trans; [by apply (op_others _ _ _ _ O)|]. split; [by apply Hino|].
    intros i p Hp _. apply upd_ne. by apply Hapart.
Qed.

Lemma opened_own_write s0 ino s ib i p x : opened s0 ino s ib -> vino m ino -> vpos ppb i p -> ptr s ib i p <> 0 ->
  trees (upd s (ptr s ib i p) x) (override (blocks_of s0) ino ib) -> opened s0 ino (upd s (ptr s ib i p) x) ib.
Proof.
  intros O Hv Hp Hne. apply opened_block_write; [done|by eapply op_owned|].
  intros j i' p' Hj Hnj Hp'. by apply (op_apart _ _ _ _ _ _ _ _ _ O).
Qed.

(** Data written to a block that no tree holds yet. *)
Lemma opened_fresh_write s0 ino s ib nb x : opened s0 ino s ib -> vino m ino -> fresh s0 ino s ib nb ->
  opened s0 ino (upd s nb x) ib /\ extends s ib (upd s nb x) ib /\
  (forall nb', fresh s0 ino s ib nb' -> fresh s0 ino (upd s nb x) ib nb') /\
  (forall j q, vpos ppb j q -> ptr (upd s nb x) ib j q = ptr s ib j q).
Proof.
  intros O Hv Hf. pose proof Hf as [(Hin & Hu & Hr) Hnew]. pose proof (op_trees _ _ _ _ O) as F.
  assert (forall j i p, vino m j -> vpos ppb i p ->
    ptr (upd s nb x) (override (blocks_of s0) ino ib j) i p = ptr s (override (blocks_of s0) ino ib j) i p) as Hptr.
  { intros j i p Hj Hp. apply (ptr_frame ppb); [|done]. intros k q Hq Hne. apply upd_ne, Hnew; [done|apply (vpos_parent _ _ _ _ Hq)]. }
  assert (forall b, owned s b -> owned (upd s nb x) b) as Hown.
  { intros b (Hb & Hub & Hrb). split; [done|]. split; [by rewrite used_upd|done]. }
  split; [|split; [|split]].
  - apply opened_block_write; try done.
    + intros j i p Hj Hne Hp. pose proof (Hnew j i p Hj Hp) as H. rewrite override_ne, <- (op_other_blocks _ _ _ _ _ O Hj) in H by done. done.
    + eapply forest_sub; [exact F|done|]. intros j i p Hj Hp. right. by apply Hptr.
  - intros i p Hp Hne. pose proof (Hptr ino i p Hv Hp) as E. rewrite override_eq in E. split; [done|]. intros _. apply upd_ne.
    pose proof (Hnew ino i p Hv Hp) as H. by rewrite override_eq in H.
  - intros nb' [Ho Hn]. split; [by apply Hown|]. intros j i p Hj Hp. rewrite Hptr by done. by apply Hn.
  - intros j q Hq. pose proof (Hptr ino j q Hv Hq) as E. by rewrite override_eq in E.
Qed.

Lemma opened_link_root s0 ino s ib i nb : opened s0 ino s ib -> vino m ino -> fresh s0 ino s ib nb -> 0 <= i < 14 -> ptr s ib i [] = 0 ->
  (forall k, vpos ppb i [k] -> word (s nb) k = 0) ->
  opened s0 ino s (zset ib i nb) /\ extends s ib s (zset ib i nb) /\ ptr s (zset ib i nb) i [] = nb /\
  (forall nb', nb' <> nb -> fresh s0 ino s ib nb' -> fresh s0 ino s (zset ib i nb) nb') /\
  (forall j q, vpos ppb j q -> (j, q) <> (i, []) -> ptr s (zset ib i nb) j q = ptr s ib j q).
Proof.
  intros O Hv Hf Hi H0 Hz. pose proof (op_len _ _ _ _ O) as Hlen. pose proof Hf as (Hown & Hnew). pose proof (owned_range _ _ Hown).
  assert (forall j p, vpos ppb j p -> ptr s (zset ib i nb) j p = if decide ((j, p) = (i, [])) then nb else ptr s ib j p) as Hptr.
  { intros j p Hp. apply (ptr_link_root ppb); try done; lia. }
  split; [|split; [|split; [|split]]].
  - split; try apply O.
    + eapply (forest_link ppb (vino m) _ s _ s _ nb ino i []); [apply O|done|done|]. intros j i' p Hj Hp.
      destruct (decide (j = ino)) as [->|Hne].
      * rewrite !override_eq, Hptr by done. destruct (decide ((i', p) = (i, []))) as [[= -> ->]|]; [by rewrite decide_True|by rewrite decide_False by congruence].
      * rewrite !override_ne by done. by rewrite decide_False by congruence.
    + by rewrite zlen_zset.
    + apply Forall_zset; [apply O|]. lia.
    + intros j Hj. rewrite (Hptr j [] (vpos_slot ppb j Hj)). destruct (decide ((j, []) = (i, []))) as [[= ->]|]; [|by apply O].
      left. destruct (op_old _ _ _ _ O i Hi) as [|E]; [done|congruence].
  - intros j p Hp Hne. rewrite Hptr by done. rewrite decide_False by congruence. done.
  - rewrite Hptr by (by apply vpos_slot). by rewrite decide_True.
  - intros nb' Hne [Ho Hn]. split; [done|]. intros j i' p Hj Hp. destruct (decide (j = ino)) as [->|Hnj].
    + rewrite override_eq, Hptr by done. pose proof (Hn ino i' p Hv Hp) as Hx. rewrite override_eq in Hx. by destruct (decide _).
    + rewrite override_ne by done. pose proof (Hn j i' p Hj Hp) as Hx. by rewrite override_ne in Hx by done.
  - intros j q Hq Hne. rewrite Hptr by done. by rewrite decide_False.
Qed.

Lemma opened_link_word s0 ino s ib i p k nb x : opened s0 ino s ib -> vino m ino -> fresh s0 ino s ib nb ->
  vpos ppb i (k :: p) -> ptr s ib i p <> 0 -> word (s (ptr s ib i p)) k = 0 ->
  (forall k', vpos ppb i (k' :: k :: p) -> word (s nb) k' = 0) ->
  (forall k', 0 <= k' < ppb -> word x k' = if k' =? k then nb else word (s (ptr s ib i p)) k') ->
  let s' := upd s (ptr s ib i p) x in
  opened s0 ino s' ib /\ extends s ib s' ib /\ ptr s' ib i (k :: p) = nb /\
  (forall j q, vpos ppb j q -> (j, q) <> (i, k :: p) -> ptr s' ib j q = ptr s ib j q).
Proof.
  intros O Hv Hf Hk Hne Hw Hz Hx s'. pose proof Hf as (Hown & Hnew). pose proof (owned_range _ _ Hown).
  pose proof (vpos_parent _ _ _ _ Hk) as [Hp _].
  assert (forall j q, vpos ppb j q -> ptr s' ib j q = if decide ((j, q) = (i, k :: p)) then nb else ptr s ib j q) as Hptr.
  { intros j q Hq. apply (ptr_link_word ppb); try done; try lia.
    - pose proof (Hnew ino i p Hv Hp) as Hn. rewrite override_eq in Hn. congruence.
    - intros j' q' Hq' E. by eapply op_unique. }
  split; [|split; [|split]].
  - apply opened_own_write; try done.
    eapply (forest_link ppb (vino m) _ s _ _ _ nb ino i (k :: p)).
    + eapply forest_sub; [apply O| |by right]. intros b (Hb & Hu & Hr). split; [done|]. split; [|done].
      rewrite used_upd; [done|done|]. by apply (op_owned _ _ _ _ _ _ O Hv Hp Hne).
    + destruct Hown as (Hb & Hu & Hr). split; [done|]. split; [|done]. rewrite used_upd; [done|done|]. by apply (op_owned _ _ _ _ _ _ O Hv Hp Hne).
    + done.
    + intros j i' q Hj Hq. destruct (decide (j = ino)) as [->|Hnj].
      * rewrite !override_eq. fold s'. rewrite Hptr by done.
        destruct (decide ((i', q) = (i, k :: p))) as [[= -> ->]|]; [by rewrite decide_True|by rewrite decide_False by congruence].
      * rewrite !override_ne by done. rewrite decide_False by congruence. apply (ptr_frame ppb); [|done].
        intros k' q' Hq' _. apply upd_ne. rewrite <- (op_other_blocks _ _ _ _ _ O Hj).
        apply (op_apart _ _ _ _ _ _ _ _ _ O); try done. apply (vpos_parent _ _ _ _ Hq').
  - intros j q Hq Hnz. rewrite Hptr by done. rewrite decide_False.
    2:{ intros [= -> ->]. apply Hnz. cbn [ptr]. destruct (Z.eqb_spec (ptr s ib i p) 0); [done|]. exact Hw. }
    split; [done|]. intros Hd. apply upd_ne. intros E. pose proof (op_unique _ _ _ _ _ _ _ _ O Hv Hp Hq Hne E) as [= -> ->].
    destruct Hk as (_ & Hl & _). cbn in Hl. lia.
  - rewrite Hptr by done. by rewrite decide_True.
  - intros j q Hq Hnp. rewrite Hptr by done. by rewrite decide_False.
Qed.

(** Data written to a leaf: no pointer changes, nor other data of the file. *)
Lemma opened_data s0 ino s ib i p x : opened s0 ino s ib -> vino m ino -> vpos ppb i p -> length p = depth i -> ptr s ib i p <> 0 ->
  let s' := upd s (ptr s ib i p) x in
  opened s0 ino s' ib /\
  forall j q, vpos ppb j q -> ptr s' ib j q = ptr s ib j q /\ ((j, q) <> (i, p) -> ptr s ib j q <> 0 -> s' (ptr s ib j q) = s (ptr s ib j q)).
Proof.
  intros O Hv Hp Hd Hne s'.
  assert (forall j k q, vpos ppb j (k :: q) -> ptr s ib j q <> ptr s ib i p) as Hleaf.
  { intros j k q Hq E. pose proof (vpos_parent _ _ _ _ Hq) as [Hq' _]. pose proof (op_unique _ _ _ _ _ _ _ _ O Hv Hp Hq' Hne E) as [= -> ->].
    destruct Hq as (_ & Hl & _). cbn in Hl. lia. }
  split.
  - apply opened_own_write; try done. eapply forest_sub; [apply O| |].
    + intros b (Hb & Hu & Hr). split; [done|]. split; [|done]. rewrite used_upd; [done|done|]. by apply (op_owned _ _ _ _ _ _ O Hv Hp Hne).
    + intros j i' q Hj Hq. right. apply (ptr_frame ppb); [|done]. intros k' q' Hq' _. apply upd_ne.
      destruct (decide (j = ino)) as [->|Hnj].
      * rewrite override_eq. by eapply Hleaf.
      * rewrite override_ne, <- (op_other_blocks _ _ _ _ _ O Hj) by done. apply (op_apart _ _ _ _ _ _ _ _ _ O); try done. apply (vpos_parent _ _ _ _ Hq').
  - intros j q Hq. split.
    + apply (ptr_frame ppb); [|done]. intros k' q' Hq' _. apply upd_ne. by eapply Hleaf.
    + intros Hnp Hnz. apply upd_ne. intros E. by eapply Hnp, op_unique.
Qed.
End invariant.

(** ** The position of a logical block *)

Section leaves.
Context (m : ext2_mount).
Hypothesis L : layout m.
Notation ppb := (ppb m).

Definition leaf (bn : Z) : Z * list Z :=
  if bn <? 12 then (bn, [])
  else if bn - 12 <? ppb then (12, [bn - 12])
  else (13, [(bn - 12 - ppb) mod ppb; (bn - 12 - ppb) / ppb]).

(** The blocks that direct, singly and doubly indirect pointers reach. *)
Definition max_blocks : Z := 12 + ppb + ppb * ppb.

Lemma leaf_valid bn : 0 <= bn < max_blocks -> vpos ppb (leaf bn).1 (leaf bn).2 /\ length (leaf bn).2 = depth (leaf bn).1.
Proof.
  intros Hb. pose proof (ppb_pos m L). unfold max_blocks in Hb. unfold leaf. destruct (Z.ltb_spec bn 12); cbn.
  - split; [apply vpos_slot; lia|]. unfold depth. by destruct (Z.ltb_spec bn 12); [|lia].
  - destruct (Z.ltb_spec (bn - 12) ppb); cbn.
    + split; [|done]. split_and!; [lia|lia|cbn; lia|]. apply Forall_singleton. lia.
    + split; [|done]. split_and!; [lia|lia|cbn; lia|].
      pose proof (Z.mod_pos_bound (bn - 12 - ppb) ppb ltac:(lia)). repeat constructor; try lia.
      * apply Z.div_pos; lia.
      * apply Z.div_lt_upper_bound; lia.
Qed.

Lemma leaf_inj bn bn' : 0 <= bn < max_blocks -> 0 <= bn' < max_blocks -> leaf bn = leaf bn' -> bn = bn'.
Proof.
  intros Hb Hb'. pose proof (ppb_pos m L). unfold leaf.
  destruct (Z.ltb_spec bn 12), (Z.ltb_spec bn' 12); try (intros [= ->]; done);
    destruct (Z.ltb_spec (bn - 12) ppb); try destruct (Z.ltb_spec (bn' - 12) ppb); intros E; try (injection E; intros; lia).
  injection E as E1 E2. pose proof (Z.div_mod (bn - 12 - ppb) ppb ltac:(lia)). pose proof (Z.div_mod (bn' - 12 - ppb) ppb ltac:(lia)). nia.
Qed.

Lemma ppb_max : ppb <= 16384.
Proof. destruct (lay_sized L) as (_ & _ & ? & Hbs & _). unfold Ext2Files.ppb. rewrite Hbs. mlia. Qed.

Lemma ppb_square : u32 (ppb * ppb) = ppb * ppb.
Proof. pose proof (ppb_pos m L). pose proof ppb_max. apply u32_small. nia. Qed.
End leaves.

(** ** Writing *)

Section writing.
Context {D : Type} {drv : BlkDriver D} {laws : BlkLaws D} (m : ext2_mount) (e : bool).
Hypothesis L : layout m.
Notation ppb := (ppb m).

Lemma zget_default (l : list Z) i : 0 <= i < zlen l -> ld l i = Ok (default 0 (zget l i)).
Proof. intros Hi. destruct (zget_in_range l i Hi) as [v Hv]. rewrite (ld_ok _ _ _ Hv), Hv. done. Qed.

(** What the search for a pointer ends with: the pointer at position [(i, p)],
    or a failure, without failing transfers only on a full device. *)
Definition slot_post (s0 : store) (ino : Z) (s : store) (ib : list Z) (i : Z) (p : list Z) (o : option (Z * list Z)) (s' : store) : Prop :=
  match o with
  | Some (b, ib') => opened m s0 ino s' ib' /\ extends m s ib s' ib' /\ ptr s' ib' i p = b /\ b <> 0
  | None => (exists ib', opened m s0 ino s' ib') /\ (e = false -> full m s')
  end.

Lemma full_taken s s' : block_taken m e s None s' -> e = false -> full m s'.
Proof. intros [G Hf] E b Hb. eapply used_grows; [done|exact G|done|]. by apply Hf. Qed.

Lemma root_slot_wp s0 ino s ib i (w : world D) : opened m s0 ino s ib -> vino m ino -> sees m e w s -> 0 <= i < 14 ->
  wp (root_slot m ib i) (fun o w' => exists s', sees m e w' s' /\ slot_post s0 ino s ib i [] o s') w.
Proof.
  intros O Hv Hs Hi. unfold root_slot. pose proof (op_len _ _ _ _ _ O) as Hlen.
  apply wp_bind. eapply wp_lift; [apply zget_default; lia|]. destruct (Z.eqb_spec (default 0 (zget ib i)) 0) as [E0|E0].
  2:{ apply wp_ret. exists s. split; [done|]. split; [done|]. split; [apply tree_extends_refl|]. done. }
  apply wp_bind. eapply wp_mono; [by apply (alloc_block_wp m e L s)|]. intros [nb|] w' (s' & Hs' & Ht).
  - destruct (opened_alloc m L e s0 ino s ib nb s' O Hv Ht) as (O' & Hx & Hf & Hzero & _).
    destruct (opened_link_root m L s0 ino s' ib i nb O' Hv Hf Hi E0) as (O2 & Hx2 & Hp2 & _).
    { intros k [_ Hk]%vpos_parent. by eapply zero_word. }
    apply wp_bind. eapply wp_lift; [apply st_ok; lia|]. apply wp_ret. exists s'. split; [done|]. split; [done|].
    split; [by eapply tree_extends_trans|]. split; [done|]. destruct Hf as (Ho & _). pose proof (owned_range m L _ _ Ho). lia.
  - exists s'. split; [done|]. split; [|by apply full_taken with s]. exists ib. destruct Ht as [G _]. by eapply opened_grows.
Qed.

Lemma in_range_owned s b : owned m s b -> 0 <= b < m_blocks_count m.
Proof. intros Ho. pose proof (owned_range m L _ _ Ho). lia. Qed.

(** The word of an indirect block on a device. *)
Lemma ind_get_wp s b k Q (w : world D) : sees m e w s -> 0 <= b < m_blocks_count m -> 0 <= k < ppb ->
  (e = true -> Q None w) -> Q (Some (word (s b) k)) w -> wp (m_ind_get m b k) Q w.
Proof.
  intros Hs Hb Hk HN HS. unfold m_ind_get. pose proof (ppb_block m L). pose proof (sees_len m e w s b (lay_sized L) Hs Hb).
  apply wp_bind, (wp_read m e b s); [apply L|done|done|done|]. eapply wp_lift; [apply ld32_word; lia|done].
Qed.

Lemma ind_set_wp s b k v Q (w : world D) : sees m e w s -> 0 <= b < m_blocks_count m -> 0 <= k < ppb -> 0 <= v < 2 ^ 32 ->
  (e = true -> forall w', sees m e w' s -> Q None w') ->
  (forall w' x, sees m e w' (upd s b x) -> (forall k', 0 <= k' -> word x k' = if k' =? k then v else word (s b) k') ->
     Q (Some tt) w' /\ (e = true -> Q None w')) ->
  wp (m_ind_set m b k v) Q w.
Proof.
  intros Hs Hb Hk Hv HN HS. unfold m_ind_set. pose proof (ppb_block m L). pose proof (sees_len m e w s b (lay_sized L) Hs Hb) as Hlen.
  apply wp_bind, (wp_read m e b s); [apply L|done|done|intros E; by apply HN|].
  destruct (splice_ok (s b) (k * 4) (le32 v)) as (x & Ex & Hxl & _ & Hxo); [lia|rewrite zlen_le32; lia|]. rewrite zlen_le32 in Hxo.
  assert (forall k', 0 <= k' -> word x k' = if k' =? k then v else word (s b) k') as Hx by (intros; apply (word_splice (s b)); [done|done|lia|done]).
  apply wp_bind. eapply wp_lift; [exact Ex|]. apply (wp_write m e b x s); [apply L|done|done|lia| |].
  - intros w' Hw'. by apply (HS w' x).
  - intros E w' y Hw' Hy. destruct (mixed_atomic _ _ _ (k * 4 / 512) Hy Hxl) as [->| ->].
    + intros i Hi Hsec. apply Hxo. destruct (decide (k * 4 <= i < k * 4 + 4)) as [Hin|]; [|lia]. exfalso. apply Hsec. mlia.
    + apply HN; [done|]. eapply sees_ext; [exact Hw'|]. intros b' _. unfold upd. by destruct (Z.eqb_spec b' b) as [->|].
    + by apply (HS w' x).
Qed.

Lemma ind_slot_wp s0 ino s ib i p k (w : world D) : opened m s0 ino s ib -> vino m ino -> sees m e w s ->
  vpos ppb i (k :: p) -> ptr s ib i p <> 0 ->
  wp (ind_slot m (ptr s ib i p) k) (fun o w' => exists s', sees m e w' s' /\ slot_post s0 ino s ib i (k :: p) ((., ib) <$> o) s') w.
Proof.
  intros O Hv Hs Hk Hne. pose proof (vpos_parent _ _ _ _ Hk) as [Hp Hkr]. unfold ind_slot.
  pose proof (in_range_owned _ _ (op_owned m s0 ino s ib i p O Hv Hp Hne)) as Hb.
  apply wp_bind, (ind_get_wp s); try done.
  { intros E. exists s. split; [done|]. split; [by exists ib|congruence]. }
  assert (ptr s ib i (k :: p) = word (s (ptr s ib i p)) k) as Ew by (cbn [ptr]; by destruct (Z.eqb_spec (ptr s ib i p) 0)).
  destruct (Z.eqb_spec (word (s (ptr s ib i p)) k) 0) as [E0|E0].
  2:{ apply wp_ret. exists s. split; [done|]. split; [done|]. split; [apply tree_extends_refl|]. done. }
  apply wp_bind. eapply wp_mono; [by apply (alloc_block_wp m e L s)|]. intros [nb|] w' (s' & Hs' & Ht).
  2:{ exists s'. split; [done|]. split; [|by apply full_taken with s]. exists ib. destruct Ht as [G _]. by eapply opened_grows. }
  destruct (opened_alloc m L e s0 ino s ib nb s' O Hv Ht) as (O' & Hx & Hf & Hzero & _).
  destruct (Hx i p Hp Hne) as [Ep _]. pose proof Hf as (Ho & _). pose proof (owned_range m L _ _ Ho) as Hnb.
  assert (word (s' (ptr s ib i p)) k = 0) as E0'.
  { destruct (decide (word (s' (ptr s ib i p)) k = 0)) as [|Hn]; [done|]. destruct Ht as (G & _).
    destruct (base_grows m L s s' (op_base _ _ _ _ _ O) G) as (_ & _ & Hown).
    rewrite (proj2 (Hown _ (op_owned m s0 ino s ib i p O Hv Hp Hne))) in Hn. done. }
  apply wp_bind. rewrite <- Ep in *. apply (ind_set_wp s'); try done; [lia| |].
  - intros E w2 Hw2. exists s'. split; [done|]. split; [by exists ib|congruence].
  - intros w2 x Hw2 Hwx. destruct (opened_link_word m L s0 ino s' ib i p k nb x O' Hv Hf Hk Hne E0') as (O2 & Hx2 & Hp2 & _).
    { intros k' [_ Hk']%vpos_parent. by eapply zero_word. }
    { intros k' Hk'. apply Hwx. lia. }
    split.
    + apply wp_ret. eexists. split; [exact Hw2|]. split; [done|]. split; [by eapply tree_extends_trans|]. split; [done|lia].
    + intros E. eexists. split; [exact Hw2|]. split; [by exists ib|congruence].
Qed.

(** The outcome of a search for logical block [bn]. *)
Definition map_post (s0 : store) (ino : Z) (s : store) (ib : list Z) (bn : Z) (o : option (Z * list Z)) (s' : store) : Prop :=
  match o with
  | Some (b, ib') => opened m s0 ino s' ib' /\ extends m s ib s' ib' /\ ptr s' ib' (leaf m bn).1 (leaf m bn).2 = b /\ b <> 0 /\ bn < max_blocks m
  | None => (exists ib', opened m s0 ino s' ib') /\ (e = false -> full m s' \/ max_blocks m <= bn)
  end.

Lemma write_map_wp s0 ino s ib bn (w : world D) : opened m s0 ino s ib -> vino m ino -> sees m e w s -> 0 <= bn ->
  wp (write_map m ib bn) (fun o w' => exists s', sees m e w' s' /\ map_post s0 ino s ib bn o s') w.
Proof.
  intros O Hv Hs Hb. unfold write_map. fold ppb. pose proof (ppb_pos m L) as Hppb. rewrite (ppb_square m L).
  destruct (Z.ltb_spec bn 12) as [H12|H12].
  { eapply wp_mono; [apply (root_slot_wp s0 ino s ib bn); try done; lia|]. intros o w' (s' & Hs' & Hp). exists s'. split; [done|].
    unfold map_post, leaf, max_blocks. destruct (Z.ltb_spec bn 12); [|lia].
    destruct o as [[b ib']|]; destruct Hp as (? & Hp); [|split; [done|]; auto]. destruct Hp as (? & ? & ?). split_and!; try done; nia. }
  destruct (Z.ltb_spec (bn - 12) ppb) as [H1|H1].
  - apply wp_bind. eapply wp_mono; [apply (root_slot_wp s0 ino s ib 12); try done; lia|]. intros [[b ib1]|] w1 (s1 & Hs1 & Hp).
    2:{ exists s1. split; [done|]. destruct Hp as [? ?]. split; [done|]. auto. }
    destruct Hp as (O1 & X1 & <- & Hne). apply wp_bind.
    assert (vpos ppb 12 [bn - 12]) as Hpos by (split_and!; [lia|lia|cbn; lia|apply Forall_singleton; lia]).
    eapply wp_mono; [apply (ind_slot_wp s0 ino s1 ib1 12 [] (bn - 12)); try done|]. intros [b|] w2 (s2 & Hs2 & Hp2).
    2:{ exists s2. split; [done|]. destruct Hp2 as [? ?]. split; [done|]. auto. }
    destruct Hp2 as (O2 & X2 & E2 & Hne2). apply wp_ret. exists s2. split; [done|].
    unfold map_post, leaf, max_blocks. destruct (Z.ltb_spec bn 12); [lia|]. fold ppb. destruct (Z.ltb_spec (bn - 12) ppb); [|lia].
    split_and!; try done; [by eapply tree_extends_trans|nia].
  - destruct (Z.leb_spec (ppb * ppb) (bn - 12 - ppb)) as [H2|H2].
    { apply wp_fail. exists s. split; [done|]. split; [by exists ib|]. intros _. right. unfold max_blocks. fold ppb. lia. }
    set (l2 := bn - 12 - ppb) in *.
    assert (0 <= l2 / ppb < ppb) as Hd by (split; [apply Z.div_pos; lia|apply Z.div_lt_upper_bound; lia]).
    pose proof (Z.mod_pos_bound l2 ppb ltac:(lia)) as Hm.
    assert (vpos ppb 13 [l2 / ppb]) as Hpos1 by (split_and!; [lia|lia|cbn; lia|apply Forall_singleton; lia]).
    assert (vpos ppb 13 [l2 mod ppb; l2 / ppb]) as Hpos2 by (split_and!; [lia|lia|cbn; lia|repeat constructor; lia]).
    apply wp_bind. eapply wp_mono; [apply (root_slot_wp s0 ino s ib 13); try done; lia|]. intros [[b ib1]|] w1 (s1 & Hs1 & Hp).
    2:{ exists s1. split; [done|]. destruct Hp as [? ?]. split; [done|]. auto. }
    destruct Hp as (O1 & X1 & <- & Hne). apply wp_bind.
    eapply wp_mono; [apply (ind_slot_wp s0 ino s1 ib1 13 [] (l2 / ppb)); try done|]. intros [b|] w2 (s2 & Hs2 & Hp2).
    2:{ exists s2. split; [done|]. destruct Hp2 as [? ?]. split; [done|]. auto. }
    destruct Hp2 as (O2 & X2 & <- & Hne2). apply wp_bind.
    eapply wp_mono; [apply (ind_slot_wp s0 ino s2 ib1 13 [l2 / ppb] (l2 mod ppb)); try done|]. intros [b|] w3 (s3 & Hs3 & Hp3).
    2:{ exists s3. split; [done|]. destruct Hp3 as [? ?]. split; [done|]. auto. }
    destruct Hp3 as (O3 & X3 & E3 & Hne3). apply wp_ret. exists s3. split; [done|].
    unfold map_post, leaf, max_blocks. destruct (Z.ltb_spec bn 12); [lia|]. fold ppb. destruct (Z.ltb_spec (bn - 12) ppb); [lia|]. fold l2.
    split_and!; try done; [|lia]. eapply tree_extends_trans; [done|]. by eapply tree_extends_trans.
Qed.

(** Logical block [bn] of the tree is on the device and holds [c]. *)
Definition block_holds (s : store) (ib : list Z) (bn : Z) (c : list Z) : Prop :=
  ptr s ib (leaf m bn).1 (leaf m bn).2 <> 0 /\ s (ptr s ib (leaf m bn).1 (leaf m bn).2) = c.

Lemma block_holds_extends s ib s' ib' bn c : 0 <= bn < max_blocks m -> extends m s ib s' ib' -> block_holds s ib bn c -> block_holds s' ib' bn c.
Proof.
  intros Hb X [Hne Hc]. destruct (leaf_valid m L bn Hb) as [Hp Hd]. destruct (X _ _ Hp Hne) as [E D0]. unfold block_holds.
  rewrite E. split; [done|]. rewrite D0; done.
Qed.

Lemma zlen_file_chunk data off : 0 <= off -> zlen (file_chunk (m_block_size m) data off) = m_block_size m.
Proof.
  intros Ho. unfold file_chunk. rewrite zlen_app. pose proof (bs_pos m L).
  assert (zlen (take (Z.to_nat (m_block_size m)) (drop (Z.to_nat off) data)) <= m_block_size m) by (unfold zlen; rewrite length_take; lia).
  rewrite zlen_zeros by lia. lia.
Qed.

Lemma write_blocks_wp s0 ino data n s ib bn (w : world D) : opened m s0 ino s ib -> vino m ino -> sees m e w s -> 0 <= bn -> bn <= max_blocks m ->
  (forall k, 0 <= k < bn -> block_holds s ib k (file_chunk (m_block_size m) data (k * m_block_size m))) ->
  wp (write_blocks m data ib n bn)
     (fun o w' => exists s', sees m e w' s' /\
        match o with
        | Some ib' => opened m s0 ino s' ib' /\ bn + Z.of_nat n <= max_blocks m /\
            forall k, 0 <= k < bn + Z.of_nat n -> block_holds s' ib' k (file_chunk (m_block_size m) data (k * m_block_size m))
        | None => (exists ib', opened m s0 ino s' ib') /\ (e = false -> full m s' \/ max_blocks m < bn + Z.of_nat n)
        end) w.
Proof.
  revert s ib bn w. induction n as [|n IH]; intros s ib bn w O Hv Hs Hb Hmax Hold; cbn [write_blocks].
  { apply wp_ret. exists s. rewrite Z.add_0_r. done. }
  apply wp_bind. eapply wp_mono; [by apply (write_map_wp s0 ino s ib bn)|]. intros [[b ib1]|] w1 (s1 & Hs1 & Hp).
  2:{ exists s1. split; [done|]. destruct Hp as [? Hf]. split; [done|]. intros E. destruct (Hf E); [by left|right; lia]. }
  destruct Hp as (O1 & X1 & Eb & Hne & Hlt). destruct (leaf_valid m L bn ltac:(lia)) as [Hp Hd]. pose proof (bs_pos m L).
  pose proof (op_owned m s0 ino s1 ib1 _ _ O1 Hv Hp ltac:(congruence)) as Ho. rewrite Eb in Ho.
  set (c := file_chunk (m_block_size m) data (bn * m_block_size m)).
  apply wp_bind, (wp_write m e b c s1); [apply L|done|by eapply in_range_owned|apply zlen_file_chunk; nia| |]; rewrite <- Eb in Hne.
  - intros w2 Hs2. subst b. destruct (opened_data m L s0 ino s1 ib1 _ _ c O1 Hv Hp Hd Hne) as [O2 K2].
    set (s2 := upd s1 _ c) in *. eapply wp_mono; [apply (IH s2 ib1 (bn + 1) w2); try done; [lia|lia|]|].
    + intros k Hk. destruct (decide (k = bn)) as [->|Hkb].
      * destruct (K2 _ _ Hp) as [E _]. unfold block_holds. rewrite E. split; [done|]. unfold s2. by rewrite upd_eq.
      * destruct (leaf_valid m L k ltac:(lia)) as [Hpk _]. destruct (K2 _ _ Hpk) as [E K].
        destruct (block_holds_extends _ _ _ _ k _ ltac:(lia) X1 (Hold k ltac:(lia))) as [Hn1 Hc1].
        unfold block_holds. rewrite E. split; [done|]. rewrite K; [done| |done].
        intros [= E1 E2]. apply Hkb, (leaf_inj m L); [lia|lia|]. by apply injective_projections.
    + intros o w3 (s3 & Hs3 & Hpost). exists s3. split; [done|]. replace (bn + Z.of_nat (S n)) with (bn + 1 + Z.of_nat n) by lia. done.
  - intros E w2 x Hs2 _. subst b. destruct (opened_data m L s0 ino s1 ib1 _ _ x O1 Hv Hp Hd Hne) as [O2 _].
    eexists. split; [exact Hs2|]. split; [by exists ib1|congruence].
Qed.
End writing.

(** ** The contents of files *)

Section contents.
Context (m : ext2_mount).
Hypothesis L : layout m.
Notation ppb := (ppb m).

(** The device block of logical block [bn], 0 for a hole. *)
Definition block_at (s : store) (ib : list Z) (bn : Z) : Z :=
  if bn <? max_blocks m then ptr s ib (leaf m bn).1 (leaf m bn).2 else 0.

Definition block_data (s : store) (ib : list Z) (bn : Z) : list Z :=
  let b := block_at s ib bn in if b =? 0 then zeros (m_block_size m) else s b.

Definition blocks_for (size : Z) : Z := (size + m_block_size m - 1) / m_block_size m.

(** What the file holds, as its inode and blocks say. *)
Definition file_data (s : store) (ino : Z) : list Z :=
  let i := inode_of m s ino in
  take (Z.to_nat (i_size i)) (mjoin (block_data s (i_block i) <$> seqZ 0 (blocks_for (i_size i)))).

Lemma same_file_data s s' ino : same_file m s s' ino -> file_data s' ino = file_data s ino.
Proof.
  intros Hsf. pose proof Hsf as [Hi Hb]. unfold file_data. rewrite Hi. do 2 f_equal. apply list_fmap_ext.
  intros k bn Hk%lookup_seqZ. unfold block_data, block_at. destruct (Z.ltb_spec bn (max_blocks m)); [|done].
  destruct (leaf_valid m L bn ltac:(lia)) as [Hp _]. pose proof (same_file_ptr m s s' ino _ _ Hsf Hp) as E.
  unfold blocks_of in E. rewrite Hi in E. rewrite E. destruct (Z.eqb_spec (ptr s (i_block (inode_of m s ino)) (leaf m bn).1 (leaf m bn).2) 0); [done|].
  by apply Hb.
Qed.

Lemma block_holds_data s ib bn c : 0 <= bn < max_blocks m -> block_holds m s ib bn c -> block_data s ib bn = c.
Proof.
  intros Hb [Hne Hc]. unfold block_data, block_at. destruct (Z.ltb_spec bn (max_blocks m)); [|lia].
  by destruct (Z.eqb_spec (ptr s ib (leaf m bn).1 (leaf m bn).2) 0).
Qed.

(** The pieces put together again. *)
Lemma take_chunks bs data n : 0 < bs -> 0 <= n -> zlen data <= n * bs ->
  take (length data) (mjoin ((fun k => file_chunk bs data (k * bs)) <$> seqZ 0 n)) = data.
Proof.
  intros Hbs Hn Hlen.
  assert (forall k, 0 <= k -> exists z, mjoin ((fun k => file_chunk bs data (k * bs)) <$> seqZ 0 k) = take (Z.to_nat (k * bs)) data ++ z) as Hpre.
  { apply natlike_ind; [by exists []|]. intros k Hk [z Hz]. rewrite seqZ_succ by done. rewrite fmap_app, join_app, Hz. cbn [fmap list_fmap mjoin list_join].
    rewrite app_nil_r. unfold file_chunk. destruct (decide (zlen data <= k * bs)) as [Hfull|Hpart].
    - rewrite !(take_ge data) by (unfold zlen in *; lia). rewrite <- app_assoc. by eexists.
    - rewrite <- app_assoc. assert (z = []) as ->.
      { assert (zlen (take (Z.to_nat (k * bs)) data ++ z) = k * bs) as Hl.
        { rewrite <- Hz. clear Hz. clear -Hk Hbs. revert k Hk. apply natlike_ind; [done|]. intros k Hk IH.
          rewrite seqZ_succ, fmap_app, join_app, zlen_app, IH by done. cbn [fmap list_fmap mjoin list_join]. rewrite app_nil_r.
          unfold file_chunk. rewrite zlen_app.
          assert (zlen (take (Z.to_nat bs) (drop (Z.to_nat (k * bs)) data)) <= bs) by (unfold zlen; rewrite length_take; lia).
          rewrite zlen_zeros by lia. lia. }
        rewrite zlen_app in Hl. apply nil_length_inv. unfold zlen in *. rewrite length_take in Hl. lia. }
      cbn [app]. rewrite app_assoc. replace (Z.to_nat (Z.succ k * bs)) with (Z.to_nat (k * bs) + Z.to_nat bs)%nat by lia.
      rewrite take_take_drop. by eexists. }
  destruct (Hpre n Hn) as [z ->]. rewrite (take_ge data) by (unfold zlen in *; lia). apply take_app_length.
Qed.
End contents.

(** ** The whole write *)

Section write_file.
Context {D : Type} {drv : BlkDriver D} {laws : BlkLaws D} (m : ext2_mount) (e : bool).
Hypothesis L : layout m.
Notation ppb := (ppb m).

(** The superblock, the descriptors and the inode bitmaps stay. *)
Definition meta_kept (s s' : store) : Prop :=
  forall r, valid_role m r -> match r with RFixed _ | RInodeBitmap _ => s' (loc m r) = s (loc m r) | _ => True end.

(** Everything but file [ino] stays: its inode, pointers and data. *)
Definition only_file (s s' : store) (ino : Z) : Prop :=
  meta_kept s s' /\ forall j, vino m j -> j <> ino -> same_file m s s' j.

Lemma opened_only s0 ino s ib : opened m s0 ino s ib -> only_file s0 s ino.
Proof. intros O. split; [|apply O]. intros r Hr. destruct r; try done; by apply O. Qed.

(** The inode goes to its table. *)
Lemma opened_close s0 ino s ib i s' : opened m s0 ino s ib -> vino m ino -> iused m s0 ino = true -> inode_ok i -> i_block i = ib -> stored m s ino i s' ->
  fs_inv m s' /\ only_file s0 s' ino /\
  (forall b, owned m s b -> s' b = s b) /\
  (forall j p, vpos ppb j p -> ptr s' ib j p = ptr s ib j p).
Proof.
  intros O Hv Hiu Hi <- (Hout & Hnew & Hoth). pose proof (irole_valid m L ino Hv) as Hr. set (t := loc m (irole m ino)) in *.
  assert (forall b, owned m s b -> s' b = s b) as Hown by (intros b (_ & _ & Hn); apply Hout; intros ->; by apply (Hn (irole m ino))).
  assert (forall b, in_fs m b -> used m s' b = used m s b) as Hused.
  { intros b Hb. unfold used. rewrite Hout; [done|]. intros E. apply (lay_inj L) in E; [done| |done]. by apply group_range. }
  assert (forall j, vino m j -> blocks_of m s' j = override (blocks_of m s0) ino (i_block i) j) as Hbl.
  { intros j Hj. unfold blocks_of. destruct (decide (j = ino)) as [->|Hne].
    - by rewrite override_eq, Hnew.
    - rewrite override_ne, Hoth by done. f_equal. by eapply op_inode. }
  assert (forall j i' p, vino m j -> vpos ppb i' p ->
    ptr s' (override (blocks_of m s0) ino (i_block i) j) i' p = ptr s (override (blocks_of m s0) ino (i_block i) j) i' p) as Hptr.
  { intros j i' p Hj Hp. apply (ptr_frame ppb); [|done]. intros k q Hq Hne. apply Hown.
    apply (fo_ok (op_trees _ _ _ _ _ O)); [done|apply (vpos_parent _ _ _ _ Hq)|done]. }
  pose proof (op_base _ _ _ _ _ O) as (Hm & Hz & Hok & Hfr).
  assert (forall j, vino m j -> iused m s' j = iused m s j) as Hius.
  { intros j Hj. apply (iused_same m L); [done|]. intros g Hg. apply Hout. intros E. by apply (lay_inj L) in E. }
  split; [split; [split; [|split; [|split]]|]|split; [split|split]].
  - intros r Hr'. rewrite Hused by (by apply meta_in_fs). by apply Hm.
  - intros b Hb Hu. rewrite Hused in Hu by done. rewrite Hout; [by apply Hz|]. intros ->. unfold t in Hu. by rewrite (Hm _ Hr) in Hu.
  - intros j Hj. destruct (decide (j = ino)) as [->|Hne]; [by rewrite Hnew|]. rewrite Hoth by done. by apply Hok.
  - intros j Hj Hfree. rewrite Hius in Hfree by done. destruct (decide (j = ino)) as [->|Hne].
    + rewrite (iused_same m L s0) in Hfree; [congruence|done|]. intros g Hg. by apply O.
    + unfold blocks_of. rewrite Hoth by done. by apply Hfr.
  - eapply forest_sub; [apply O| |].
    + intros b (Hb & Hu & Hn). split; [done|]. split; [by rewrite Hused|done].
    + intros j i' p Hj Hp. right. rewrite Hbl by done. by apply Hptr.
  - intros r Hr'. destruct r; try done; rewrite <- (op_meta _ _ _ _ _ O) by done; apply Hout; intros E; by apply (lay_inj L) in E.
  - intros j Hj Hne. eapply same_file_trans; [by apply (op_others _ _ _ _ _ O)|]. split; [by apply Hoth|].
    intros i' p Hp Hnz. apply Hown. rewrite (op_other_blocks m L s0 ino s _ j O Hj) in *.
    rewrite <- (override_ne (blocks_of m s0) ino (i_block i) j Hne) in *. by apply (fo_ok (op_trees _ _ _ _ _ O)).
  - done.
  - intros j p Hp. pose proof (Hptr ino j p Hv Hp) as E. by rewrite override_eq in E.
Qed.

(** Why a write can fail although every transfer succeeds. *)
Definition write_refused (s s' : store) (ino size : Z) : Prop :=
  m_writable m = false \/ truthy (Z.land (i_mode (inode_of m s ino)) EXT2_S_IFREG) = false \/
  full m s' \/ max_blocks m * m_block_size m < size.

Lemma write_file_wp s ino data (w : world D) : fs_inv m s -> vino m ino -> iused m s ino = true -> zlen data < 2 ^ 32 -> sees m e w s ->
  wp (ext2_write_file m ino data)
     (fun o w' => exists s', sees m e w' s' /\ fs_inv m s' /\ only_file s s' ino /\
        match o with
        | Some n => n = s32 (zlen data) /\ file_data m s' ino = data /\
            i_mode (inode_of m s' ino) = i_mode (inode_of m s ino) /\ i_size (inode_of m s' ino) = zlen data
        | None => e = false -> write_refused s s' ino (zlen data) /\ inode_of m s' ino = inode_of m s ino
        end) w.
Proof.
  intros Hinv Hv Hiu Hlen Hs. change (2 ^ 32) with 4294967296 in Hlen. pose proof (zlen_nonneg data) as Hnn. pose proof (bs_pos m L) as Hbs.
  assert (forall w', sees m e w' s -> (e = false -> write_refused s s ino (zlen data)) ->
    exists s', sees m e w' s' /\ fs_inv m s' /\ only_file s s' ino /\ (e = false -> write_refused s s' ino (zlen data) /\ inode_of m s' ino = inode_of m s ino)) as Hquit.
  { intros w' Hw' Hwhy. exists s. split; [done|]. split; [done|]. split; [|intros E; split; [by apply Hwhy|done]]. split; [|done]. intros r _. by destruct r. }
  unfold ext2_write_file. destruct (lay_sized L) as (_ & -> & Hspb & Hbse & _).
  apply wp_bind, wp_require; [intros Hw|intros Hw; apply Hquit; [done|]; intros _; left; by destruct (m_writable m)].
  apply wp_bind, (read_inode_wp m e L ino s); [done|done|intros E w' Hw'; apply Hquit; [done|congruence]|]. clear w Hs. intros w Hs.
  apply wp_bind, wp_require; [intros Hreg|intros Hreg; apply Hquit; [done|]; intros _; right; by left].
  do 3 (apply wp_bind, (wp_heap m e s); [done|intros E w' Hw'; apply Hquit; [done|congruence]|]; clear w Hs; intros w Hs).
  fold (blocks_for m (zlen data)). assert (0 <= blocks_for m (zlen data) < 4294967296) as Hnb.
  { unfold blocks_for. split; [apply Z.div_pos; lia|]. apply Z.div_lt_upper_bound; nia. }
  rewrite (u32_small _ Hnb). set (n := blocks_for m (zlen data)) in *.
  assert (zlen data <= n * m_block_size m < zlen data + m_block_size m) as Hn.
  { unfold n, blocks_for. pose proof (Z.div_mod (zlen data + m_block_size m - 1) (m_block_size m) ltac:(lia)).
    pose proof (Z.mod_pos_bound (zlen data + m_block_size m - 1) (m_block_size m) ltac:(lia)). lia. }
  pose proof (opened_start m s ino Hinv Hv) as O. pose proof (ppb_pos m L).
  apply wp_bind. eapply wp_mono; [apply (write_blocks_wp m e L s ino data (Z.to_nat n) s (blocks_of m s ino) 0 w); try done; [unfold max_blocks; nia|intros; lia]|].
  rewrite Z2Nat.id by lia. rewrite Z.add_0_l. intros [ib|] w1 (s1 & Hs1 & Hp).
  2:{ destruct Hp as [[ib O1] Hwhy]. exists s1. split; [done|]. split; [by eapply opened_abandon|]. split; [by eapply opened_only|].
      intros E. split; [|by eapply op_inode]. right; right. destruct (Hwhy E) as [|Hbig]; [by left|]. right. nia. }
  destruct Hp as (O1 & Hmax & Hall). destruct Hinv as [(_ & _ & Hok & _) _]. destruct (Hok ino Hv) as (Hmode & _).
  rewrite (u32_small (zlen data)) by lia. set (i := mk_inode _ (zlen data) ib).
  assert (inode_ok i) as Hi.
  { unfold inode_ok, i. cbn [i_mode i_size i_block]. change (2 ^ 32) with 4294967296. do 2 (split; [lia|]). split; apply O1. }
  apply wp_bind. eapply wp_mono; [by apply (write_inode_wp m e L ino i s1)|]. intros o w2 (s2 & Hs2 & Hst & He).
  destruct o as [[]|].
  - apply wp_ret. exists s2. split; [done|]. destruct Hst as [Hst|[_ ?]]; [|done].
    destruct (opened_close s ino s1 ib i s2 O1 Hv Hiu Hi eq_refl Hst) as (Hinv2 & Honly & Hown & Hptr).
    do 2 (split; [done|]). split; [done|]. destruct Hst as (_ & Hnew & _). rewrite Hnew. split; [|done].
    unfold file_data. rewrite Hnew. cbn [i_size i_block i]. fold n.
    etransitivity; [|apply (take_chunks (m_block_size m) data n); lia]. unfold zlen at 1. rewrite Nat2Z.id. do 2 f_equal.
    apply list_fmap_ext. intros k bn Hk%lookup_seqZ. apply block_holds_data; [lia|].
    destruct (Hall bn ltac:(lia)) as [Hne Hc]. destruct (leaf_valid m L bn ltac:(lia)) as [Hpos _].
    unfold block_holds. rewrite Hptr by done. split; [done|]. rewrite Hown; [done|]. by eapply op_owned.
  - exists s2. split; [done|]. specialize (He eq_refl). destruct Hst as [Hst|[-> _]].
    + destruct (opened_close s ino s1 ib i s2 O1 Hv Hiu Hi eq_refl Hst) as (Hinv2 & Honly & _). split; [done|]. split; [done|congruence].
    + split; [by eapply opened_abandon|]. split; [by eapply opened_only|congruence].
Qed.
End write_file.

(** ** Reading *)

Section reading.
Context {D : Type} {drv : BlkDriver D} {laws : BlkLaws D} (m : ext2_mount) (e : bool).
Hypothesis L : layout m.
Notation ppb := (ppb m).

(** The pointers of a file lie on the device. *)
Definition on_device (s : store) (ib : list Z) : Prop :=
  zlen ib = 15 /\ forall i p, vpos ppb i p -> ptr s ib i p <> 0 -> 0 <= ptr s ib i p < m_blocks_count m.

Lemma inv_on_device s ino : fs_inv m s -> vino m ino -> on_device s (blocks_of m s ino).
Proof.
  intros [(_ & _ & Hok & _) F] Hv. split; [apply (Hok ino Hv)|]. intros i p Hp Hne.
  pose proof (fo_ok F ino i p Hv Hp Hne) as Ho. pose proof (owned_range m L _ _ Ho). lia.
Qed.

(** A failed read of an indirect block gives a hole. *)
Lemma bmap_wp s ib bn Q (w : world D) : sees m e w s -> on_device s ib -> 0 <= bn ->
  (e = true -> Q (Some 0) w) -> Q (Some (block_at m s ib bn)) w -> wp (m_bmap m ib bn) Q w.
Proof.
  intros Hs [Hlen Hdev] Hb HN HS. unfold m_bmap. fold ppb. rewrite (ppb_square m L). pose proof (ppb_pos m L). pose proof (ppb_block m L).
  unfold block_at, leaf in HS. fold ppb in HS. pose proof (lay_sized L) as Hz.
  destruct (Z.ltb_spec bn 12) as [H12|H12].
  { destruct (Z.ltb_spec bn (max_blocks m)); [|unfold max_blocks in *; nia]. eapply wp_lift; [apply zget_default; lia|done]. }
  destruct (Z.ltb_spec (bn - 12) ppb) as [H1|H1].
  - destruct (Z.ltb_spec bn (max_blocks m)); [|unfold max_blocks in *; nia]. cbn [fst snd ptr] in HS.
    apply wp_bind. eapply wp_lift; [apply zget_default; lia|]. pose proof (Hdev 12 [] (vpos_slot ppb 12 ltac:(lia))) as Hd. cbn [ptr] in Hd.
    destruct (Z.eqb_spec (default 0 (zget ib 12)) 0) as [E0|E0]; [by apply wp_ret|]. specialize (Hd E0).
    apply wp_bind, wp_attempt, (wp_read m e _ s); [done|done|done|intros E; apply wp_ret; by apply HN|].
    eapply wp_lift; [apply ld32_word; [lia|]|done]. rewrite (sees_len m e w s) by done. lia.
  - set (l2 := bn - 12 - ppb) in *. destruct (Z.ltb_spec l2 (ppb * ppb)) as [H2|H2].
    2:{ destruct (Z.ltb_spec bn (max_blocks m)); [unfold max_blocks in *; lia|]. by apply wp_ret. }
    destruct (Z.ltb_spec bn (max_blocks m)); [|unfold max_blocks in *; lia]. cbn [fst snd ptr] in HS.
    assert (0 <= l2 / ppb < ppb) as Hd by (split; [apply Z.div_pos; lia|apply Z.div_lt_upper_bound; lia]).
    pose proof (Z.mod_pos_bound l2 ppb ltac:(lia)) as Hm.
    assert (vpos ppb 13 [l2 / ppb]) as Hpos1 by (split_and!; [lia|lia|cbn; lia|apply Forall_singleton; lia]).
    apply wp_bind. eapply wp_lift; [apply zget_default; lia|]. pose proof (Hdev 13 [] (vpos_slot ppb 13 ltac:(lia))) as Hd0.
    pose proof (Hdev 13 _ Hpos1) as Hd1. cbn [ptr] in Hd0, Hd1.
    destruct (Z.eqb_spec (default 0 (zget ib 13)) 0) as [E0|E0]; [by apply wp_ret|]. specialize (Hd0 E0).
    apply wp_bind, wp_attempt, (wp_read m e _ s); [done|done|done|intros E; apply wp_ret; by apply HN|].
    apply wp_bind. eapply wp_lift; [apply ld32_word; [lia|]|]; [rewrite (sees_len m e w s) by done; lia|].
    destruct (Z.eqb_spec (word (s (default 0 (zget ib 13))) (l2 / ppb)) 0) as [E1|E1]; [by apply wp_ret|]. specialize (Hd1 E1).
    apply wp_bind, wp_attempt, (wp_read m e _ s); [done|done|done|intros E; apply wp_ret; by apply HN|].
    eapply wp_lift; [apply ld32_word; [lia|]|done]. rewrite (sees_len m e w s) by done. lia.
Qed.

Lemma block_at_dev s ib bn : on_device s ib -> 0 <= bn -> block_at m s ib bn <> 0 -> 0 <= block_at m s ib bn < m_blocks_count m.
Proof.
  intros [_ Hdev] Hb. unfold block_at. destruct (Z.ltb_spec bn (max_blocks m)); [|done]. apply Hdev. by apply leaf_valid.
Qed.

Lemma zlen_block_data s ib bn (w : world D) : sees m e w s -> on_device s ib -> 0 <= bn -> zlen (block_data m s ib bn) = m_block_size m.
Proof.
  intros Hs Hd Hb. pose proof (bs_pos m L). unfold block_data. destruct (Z.eqb_spec (block_at m s ib bn) 0); [by rewrite zlen_zeros by lia|].
  apply (sees_len m e w s); [apply L|done|by apply block_at_dev].
Qed.

Lemma zlen_blocks s ib n (w : world D) : sees m e w s -> on_device s ib -> 0 <= n ->
  zlen (mjoin (block_data m s ib <$> seqZ 0 n)) = n * m_block_size m.
Proof.
  intros Hs Hd. revert n. apply natlike_ind; [done|]. intros n Hn IH. rewrite seqZ_succ, fmap_app, join_app, zlen_app, IH by done.
  cbn [fmap list_fmap mjoin list_join]. rewrite app_nil_r, (zlen_block_data s ib n w) by done. lia.
Qed.

Lemma read_blocks_wp s ib size n b (w : world D) : sees m e w s -> on_device s ib -> 0 <= b -> 0 <= size ->
  size <= (b + Z.of_nat n) * m_block_size m -> (b + Z.of_nat n) * m_block_size m < size + m_block_size m -> forall out,
  zlen out = (if size <? b * m_block_size m then size else b * m_block_size m) ->
  (e = false -> out = take (Z.to_nat size) (mjoin (block_data m s ib <$> seqZ 0 b))) ->
  wp (read_blocks m ib size n b out)
     (fun o w' => sees m e w' s /\ (exists l, o = Some l /\ zlen l <= size) /\
        (e = false -> o = Some (take (Z.to_nat size) (mjoin (block_data m s ib <$> seqZ 0 (b + Z.of_nat n)))))) w.
Proof.
  revert b. induction n as [|n IH]; intros b Hs Hdev Hb Hsz Hend Hend' out Hout He; cbn [read_blocks].
  { apply wp_ret. split; [done|]. rewrite Z.add_0_r in *. split; [|intros E; by rewrite He].
    exists out. split; [done|]. destruct (Z.ltb_spec size (b * m_block_size m)); lia. }
  pose proof (bs_pos m L) as Hbs. assert (b * m_block_size m < size) as Hlt by nia.
  destruct (Z.ltb_spec size (b * m_block_size m)); [lia|]. destruct (Z.leb_spec size (zlen out)); [lia|]. rewrite Hout.
  set (copy := if size <? b * m_block_size m + m_block_size m then size - b * m_block_size m else m_block_size m).
  assert (0 <= copy <= m_block_size m /\ b * m_block_size m + copy = (if size <? (b + 1) * m_block_size m then size else (b + 1) * m_block_size m)) as [Hc1 Hc2].
  { unfold copy. replace ((b + 1) * m_block_size m) with (b * m_block_size m + m_block_size m) by lia.
    destruct (Z.ltb_spec size (b * m_block_size m + m_block_size m)); lia. }
  assert (e = false -> out ++ take (Z.to_nat copy) (block_data m s ib b) = take (Z.to_nat size) (mjoin (block_data m s ib <$> seqZ 0 (b + 1)))) as Hstep.
  { intros E. rewrite Z.add_1_r, seqZ_succ, fmap_app, join_app by done. cbn [fmap list_fmap mjoin list_join]. rewrite app_nil_r.
    pose proof (zlen_blocks s ib b w Hs Hdev Hb) as Hl. pose proof (zlen_block_data s ib b w Hs Hdev Hb) as Hl'. unfold zlen in Hl, Hl'.
    rewrite take_app. rewrite (He E). f_equal. unfold copy. destruct (Z.ltb_spec size (b * m_block_size m + m_block_size m)).
    - f_equal. lia.
    - rewrite !take_ge by lia. done. }
  assert (forall c, zlen c = copy -> (e = false -> c = take (Z.to_nat copy) (block_data m s ib b)) ->
    wp (read_blocks m ib size n (b + 1) (out ++ c)) (fun o w' => sees m e w' s /\ (exists l, o = Some l /\ zlen l <= size) /\
        (e = false -> o = Some (take (Z.to_nat size) (mjoin (block_data m s ib <$> seqZ 0 (b + Z.of_nat (S n))))))) w) as Hgo.
  { intros c Hc Hce. replace (b + Z.of_nat (S n)) with (b + 1 + Z.of_nat n) in * by lia. apply IH; try done; try lia.
    - rewrite zlen_app, Hout, Hc. lia.
    - intros E. rewrite (Hce E). by apply Hstep. }
  apply wp_bind, (bmap_wp s ib b); [done|done|done| |].
  { intros E. rewrite Z.eqb_refl. apply Hgo; [apply zlen_zeros; lia|congruence]. }
  destruct (Z.eqb_spec (block_at m s ib b) 0) as [E0|E0].
  { apply Hgo; [apply zlen_zeros; lia|]. intros _. unfold block_data. rewrite E0. cbn [Z.eqb]. unfold zeros. rewrite take_replicate. f_equal. lia. }
  apply wp_bind, wp_attempt, (wp_read m e _ s); [apply L|done|by apply block_at_dev| |].
  { intros E. apply wp_ret. split; [done|]. split; [exists out; split; [done|lia]|congruence]. }
  pose proof (block_at_dev s ib b Hdev Hb E0) as Hr. pose proof (sees_len m e w s _ (lay_sized L) Hs Hr) as Hl.
  destruct (slice_ok (s (block_at m s ib b)) 0 copy) as [Es Hsl]; [lia|lia|lia|].
  apply wp_bind. eapply wp_lift; [exact Es|]. apply Hgo; [done|]. intros _. unfold block_data.
  destruct (Z.eqb_spec (block_at m s ib b) 0); [done|]. done.
Qed.

Lemma take_blocks s ib size size' (w : world D) : sees m e w s -> on_device s ib -> 0 <= size <= size' ->
  take (Z.to_nat size) (mjoin (block_data m s ib <$> seqZ 0 (blocks_for m size))) =
  take (Z.to_nat size) (mjoin (block_data m s ib <$> seqZ 0 (blocks_for m size'))).
Proof.
  intros Hs Hd Hsz. pose proof (bs_pos m L) as Hbs. unfold blocks_for.
  pose proof (Z.div_le_mono (size + m_block_size m - 1) (size' + m_block_size m - 1) (m_block_size m) ltac:(lia) ltac:(lia)) as Hle.
  set (n := (size + m_block_size m - 1) / m_block_size m) in *. set (n' := (size' + m_block_size m - 1) / m_block_size m) in *.
  assert (0 <= n) as Hn by (apply Z.div_pos; lia).
  assert (size <= n * m_block_size m).
  { unfold n. pose proof (Z.div_mod (size + m_block_size m - 1) (m_block_size m) ltac:(lia)).
    pose proof (Z.mod_pos_bound (size + m_block_size m - 1) (m_block_size m) ltac:(lia)). lia. }
  replace n' with (n + (n' - n)) by lia. rewrite seqZ_app by lia. rewrite fmap_app, join_app.
  rewrite take_app_le; [done|]. pose proof (zlen_blocks s ib n w Hs Hd Hn) as Hl. unfold zlen in Hl. lia.
Qed.

Lemma read_file_wp s ino size (w : world D) : fs_inv m s -> vino m ino -> 0 <= size ->
  i_size (inode_of m s ino) + m_block_size m <= 2 ^ 32 -> sees m e w s ->
  wp (ext2_read_file_at m ino size)
     (fun o w' => sees m e w' s /\ (forall l, o = Some l -> zlen l <= size) /\
        (e = false -> o = Some (take (Z.to_nat size) (file_data m s ino)))) w.
Proof.
  intros Hinv Hv Hsz Hbig Hs. change (2 ^ 32) with 4294967296 in Hbig. unfold ext2_read_file_at, ext2_read_file_m.
  pose proof (lay_sized L) as (_ & -> & _). pose proof (bs_pos m L) as Hbs.
  apply wp_bind, wp_require; [intros _|done].
  apply wp_bind, (read_inode_wp m e L ino s); [done|done|intros E w' Hw'; split; [done|]; split; [done|congruence]|]. clear w Hs. intros w Hs.
  pose proof (inv_on_device s ino Hinv Hv) as Hdev. destruct Hinv as [(_ & _ & Hok & _) _]. destruct (Hok ino Hv) as (_ & His & _).
  do 2 (apply wp_bind, (wp_heap m e s); [done|intros E w' Hw'; split; [done|]; split; [done|congruence]|]; clear w Hs; intros w Hs).
  unfold blocks_of in Hdev. unfold file_data. set (i := inode_of m s ino) in *.
  set (sz := if i_size i <? size then i_size i else size).
  assert (0 <= sz <= i_size i /\ sz <= size) as [Hs1 Hs2] by (unfold sz; destruct (Z.ltb_spec (i_size i) size); lia).
  rewrite (u32_small sz), u32_small by lia. fold (blocks_for m sz).
  assert (0 <= blocks_for m sz) as Hnb by (apply Z.div_pos; lia).
  assert (sz <= blocks_for m sz * m_block_size m < sz + m_block_size m) as Hn.
  { unfold blocks_for. pose proof (Z.div_mod (sz + m_block_size m - 1) (m_block_size m) ltac:(lia)).
    pose proof (Z.mod_pos_bound (sz + m_block_size m - 1) (m_block_size m) ltac:(lia)). lia. }
  eapply wp_mono; [apply (read_blocks_wp s (i_block i) sz (Z.to_nat (blocks_for m sz)) 0 w); try done; try lia|].
  - destruct (Z.ltb_spec sz (0 * m_block_size m)); [lia|done].
  - intros _. symmetry. apply take_nil.
  - rewrite Z2Nat.id, Z.add_0_l by lia. intros o w' (Hw' & (l & -> & Hl) & He). split; [done|]. split; [intros ? [= <-]; lia|].
    intros E. rewrite (He E). f_equal. rewrite (take_blocks s (i_block i) sz (i_size i) w) by (done || lia). rewrite take_take. f_equal.
    unfold sz. destruct (Z.ltb_spec (i_size i) size); lia.
Qed.
End reading.
