(* ===== verification/Ext2Dirs.v ===== *)
(** * Ext2Dirs: directories on ext2

    A block of a directory as a list of entries, the search for room in it
    ([dirent_place]), and the specification of [m_add_dirent]: the new entry is
    added and the others stay. *)

From S2P Require Import Prelude Blkdev Ext2 Ext2Store Ext2Alloc Ext2Tree Ext2Inodes Ext2Files.

(** ** Entries *)

(** The body holds the name and what follows it up to the next entry. *)
Record dent : Type := mk_dent { de_ino : Z; de_nl : Z; de_ft : Z; de_body : list Z }.

Definition de_rec (d : dent) : Z := 8 + zlen (de_body d).

Definition de_bytes (d : dent) : list Z := le32 (de_ino d) ++ le16 (de_rec d) ++ [de_nl d; de_ft d] ++ de_body d.

Definition dents (ds : list dent) : list Z := mjoin (de_bytes <$> ds).

Definition dent_ok (d : dent) : Prop :=
  0 <= de_ino d < 2 ^ 32 /\ de_rec d < 65536 /\ 0 <= de_nl d < 256 /\ (de_ino d <> 0 -> de_nl d <= zlen (de_body d)).

(** What a reader of the directory sees of an entry. *)
Definition de_live (d : dent) : option (Z * list Z * Z) :=
  if (de_ino d =? 0) || (de_nl d =? 0) then None else Some (de_ino d, take (Z.to_nat (de_nl d)) (de_body d), de_ft d).

Definition live (ds : list dent) : list (Z * list Z * Z) := omap de_live ds.

(** [l'] is [l] with [x] put somewhere. *)
Definition inserted {A} (x : A) (l l' : list A) : Prop := exists l1 l2, l = l1 ++ l2 /\ l' = l1 ++ x :: l2.

Lemma zlen_de_bytes d : zlen (de_bytes d) = de_rec d.
Proof. unfold de_bytes, de_rec. rewrite !zlen_app, zlen_le32, zlen_le16. unfold zlen at 1. cbn [length]. lia. Qed.

Lemma dents_cons d ds : dents (d :: ds) = de_bytes d ++ dents ds.
Proof. done. Qed.

Lemma dents_app ds ds' : dents (ds ++ ds') = dents ds ++ dents ds'.
Proof. unfold dents. by rewrite fmap_app, join_app. Qed.

Lemma dents_length ds : 8 * Z.of_nat (length ds) <= zlen (dents ds).
Proof.
  induction ds as [|d ds IH]; [done|]. rewrite dents_cons, zlen_app, zlen_de_bytes. unfold de_rec. pose proof (zlen_nonneg (de_body d)). cbn [length]. lia.
Qed.

(** ** Storing into a buffer at a known place *)

Lemma splice_at P X S Y : zlen Y = zlen X -> splice (P ++ X ++ S) (zlen P) Y = Ok (P ++ Y ++ S).
Proof.
  intros E. unfold splice. pose proof (zlen_nonneg P). pose proof (zlen_nonneg S). rewrite !zlen_app, E.
  destruct (Z.leb_spec 0 (zlen P)); [|lia]. destruct (Z.leb_spec (zlen P + zlen X) (zlen P + (zlen X + zlen S))); [|lia]. cbn [andb].
  f_equal. unfold zlen in *. rewrite Nat2Z.id, take_app_length. do 2 f_equal.
  replace (Z.to_nat (Z.of_nat (length P) + Z.of_nat (length X))) with (length P + length X)%nat by lia.
  rewrite <- drop_drop, drop_app_length, drop_app_length. done.
Qed.

Lemma st_at (P : list Z) x S y : st (P ++ x :: S) (zlen P) y = Ok (P ++ y :: S).
Proof.
  pose proof (zlen_nonneg P). pose proof (zlen_nonneg S). rewrite st_ok by (rewrite zlen_app; unfold zlen in *; cbn [length]; lia).
  f_equal. unfold zset. destruct (Z.leb_spec 0 (zlen P)); [|lia]. unfold zlen. rewrite Nat2Z.id.
  rewrite insert_app_r_alt by lia. by rewrite Nat.sub_diag.
Qed.

Lemma dirent_put_at P X S ino rec name ft : zlen name <= 255 -> 8 + zlen name <= zlen X ->
  dirent_put (P ++ X ++ S) (zlen P) ino rec name ft =
  Ok (P ++ (le32 ino ++ le16 rec ++ [zlen name; ft] ++ name ++ drop (Z.to_nat (8 + zlen name)) X) ++ S).
Proof.
  intros Hn HX. pose proof (zlen_nonneg name) as Hn0.
  assert (exists a b c d n r, X = a ++ b ++ [c; d] ++ n ++ r /\ zlen a = 4 /\ zlen b = 2 /\ zlen n = zlen name /\ r = drop (Z.to_nat (8 + zlen name)) X)
    as (a & b & c & d & n & r & EX & Ha & Hb & Hnn & Hr).
  { destruct X as [|x0 [|x1 [|x2 [|x3 [|x4 [|x5 [|c [|d X]]]]]]]]; try (unfold zlen in *; cbn [length] in *; lia).
    exists [x0; x1; x2; x3], [x4; x5], c, d, (take (Z.to_nat (zlen name)) X), (drop (Z.to_nat (zlen name)) X).
    unfold zlen in *. cbn [length] in *. rewrite length_take. split_and!; try done; try lia.
    - cbn. by rewrite take_drop.
    - replace (Z.to_nat (8 + Z.of_nat (length name))) with (8 + Z.to_nat (Z.of_nat (length name)))%nat by lia. done. }
  rewrite <- Hr. clear Hr HX. subst X. unfold dirent_put. assert (u8 (zlen name) = zlen name) as -> by (apply Z.mod_small; lia).
  rewrite <- !app_assoc. rewrite splice_at by (by rewrite zlen_le32). rewrite Ok_bind.
  replace (zlen P + 4) with (zlen (P ++ le32 ino)) by (rewrite zlen_app, zlen_le32; done).
  rewrite (app_assoc P). rewrite splice_at by (by rewrite zlen_le16). rewrite Ok_bind.
  rewrite (app_assoc _ (le16 rec)). replace (zlen P + 6) with (zlen ((P ++ le32 ino) ++ le16 rec)) by (rewrite !zlen_app, zlen_le32, zlen_le16; lia).
  cbn [app]. rewrite st_at, Ok_bind.
  set (Q := (P ++ le32 ino) ++ le16 rec). replace (zlen P + 7) with (zlen (Q ++ [zlen name])) by (rewrite zlen_snoc; unfold Q; rewrite !zlen_app, zlen_le32, zlen_le16; lia).
  replace (Q ++ zlen name :: d :: n ++ r ++ S) with ((Q ++ [zlen name]) ++ d :: n ++ r ++ S) by (by rewrite <- app_assoc).
  rewrite st_at, Ok_bind. rewrite take_ge by (unfold zlen; lia).
  replace (zlen P + 8) with (zlen ((Q ++ [zlen name]) ++ [ft])) by (rewrite !zlen_snoc; unfold Q; rewrite !zlen_app, zlen_le32, zlen_le16; lia).
  replace ((Q ++ [zlen name]) ++ ft :: n ++ r ++ S) with (((Q ++ [zlen name]) ++ [ft]) ++ n ++ r ++ S) by (by rewrite <- !app_assoc).
  rewrite splice_at by done. f_equal. unfold Q. rewrite <- !app_assoc. done.
Qed.

(** Reading the fields of an entry. *)
Lemma de_fields P d S : dent_ok d ->
  ld32 (P ++ de_bytes d ++ S) (zlen P) = Ok (de_ino d) /\ ld16 (P ++ de_bytes d ++ S) (zlen P + 4) = Ok (de_rec d) /\
  ld (P ++ de_bytes d ++ S) (zlen P + 6) = Ok (de_nl d) /\ ld (P ++ de_bytes d ++ S) (zlen P + 7) = Ok (de_ft d) /\
  (de_nl d <= zlen (de_body d) -> slice (P ++ de_bytes d ++ S) (zlen P + 8) (de_nl d) = Ok (take (Z.to_nat (de_nl d)) (de_body d))).
Proof.
  intros (Hi & Hr & Hn & _). pose proof (zlen_nonneg (de_body d)). unfold de_bytes. rewrite <- !app_assoc. split; [by apply ld32_at|].
  set (A := le32 (de_ino d)). set (B := le16 (de_rec d)).
  assert (zlen A = 4) as HA by done. assert (zlen B = 2) as HB by done.
  split; [|split; [|split]].
  - replace (zlen P + 4) with (zlen (P ++ A)) by (rewrite zlen_app; lia). rewrite (app_assoc P). apply ld16_at. unfold de_rec in *. lia.
  - replace (zlen P + 6) with (zlen (P ++ A ++ B)) by (rewrite !zlen_app; lia). rewrite (app_assoc A), (app_assoc P). apply ld_at.
  - replace (zlen P + 7) with (zlen (P ++ A ++ B ++ [de_nl d])) by (rewrite !zlen_app; change (zlen [de_nl d]) with 1; lia).
    replace (P ++ A ++ B ++ [de_nl d; de_ft d] ++ de_body d ++ S) with ((P ++ A ++ B ++ [de_nl d]) ++ de_ft d :: de_body d ++ S) by (by rewrite <- !app_assoc).
    apply ld_at.
  - intros Hl. set (N := take (Z.to_nat (de_nl d)) (de_body d)). assert (zlen N = de_nl d) as HN by (unfold N, zlen in *; rewrite length_take; lia).
    pose proof (slice_at (P ++ A ++ B ++ [de_nl d; de_ft d]) N (drop (Z.to_nat (de_nl d)) (de_body d) ++ S)) as E.
    rewrite HN in E. replace (zlen (P ++ A ++ B ++ [de_nl d; de_ft d])) with (zlen P + 8) in E by (rewrite !zlen_app; change (zlen [de_nl d; de_ft d]) with 2; lia).
    rewrite <- E. f_equal. rewrite <- !app_assoc. unfold N. rewrite (app_assoc (take _ _)), take_drop. done.
Qed.

(** ** The search for room *)

Lemma min_len_bounds n : 0 <= n < 256 -> 8 + n <= dirent_min_len n <= 11 + n.
Proof.
  intros Hn. unfold dirent_min_len. change 4294967292 with (2 ^ 32 - 2 ^ 2). rewrite land_align; [|lia|].
  - change (2 ^ 2) with 4. mlia.
  - change (2 ^ 32) with 4294967296. lia.
Qed.

Lemma inserted_app {A} (x : A) pre l l' : inserted x l l' -> inserted x (pre ++ l) (pre ++ l').
Proof. intros (l1 & l2 & -> & ->). exists (pre ++ l1), l2. by rewrite !app_assoc. Qed.

(** A block of entries with the new one in it. *)
Definition placed (bs child : Z) (name : list Z) (ft : Z) (ds ds' : list dent) : Prop :=
  Forall dent_ok ds' /\ zlen (dents ds') = zlen (dents ds) /\ inserted (child, name, ft) (live ds) (live ds').

Section place.
Context (bs child : Z) (name : list Z) (ft : Z).
Hypothesis Hname : 0 < zlen name <= 255.
Hypothesis Hchild : 0 < child < 2 ^ 32.

Definition new_dent (tail : list Z) : dent := mk_dent child (zlen name) ft (name ++ tail).

Lemma new_dent_live tail : de_live (new_dent tail) = Some (child, name, ft).
Proof.
  unfold de_live, new_dent. cbn [de_ino de_nl de_body de_ft]. destruct (Z.eqb_spec child 0); [lia|]. destruct (Z.eqb_spec (zlen name) 0); [lia|]. cbn [orb].
  unfold zlen. by rewrite Nat2Z.id, take_app_length.
Qed.

Lemma new_dent_ok tail : de_rec (new_dent tail) < 65536 -> dent_ok (new_dent tail).
Proof.
  intros Hr. split_and!; cbn; try lia; try done. intros _. rewrite zlen_app. pose proof (zlen_nonneg tail). lia.
Qed.

(** The entry [d] is dead and makes room. *)
Lemma place_dead P d S : dent_ok d -> de_ino d = 0 -> dirent_min_len (zlen name) <= de_rec d ->
  exists n, dirent_put (P ++ de_bytes d ++ S) (zlen P) child (de_rec d) name ft = Ok (P ++ de_bytes n ++ S) /\
    dent_ok n /\ de_rec n = de_rec d /\ de_live n = Some (child, name, ft).
Proof.
  intros Hd H0 Hneed. pose proof (min_len_bounds (zlen name) ltac:(lia)). exists (new_dent (drop (Z.to_nat (8 + zlen name)) (de_bytes d))).
  assert (de_rec (new_dent (drop (Z.to_nat (8 + zlen name)) (de_bytes d))) = de_rec d) as Er.
  { unfold new_dent, de_rec at 1. cbn [de_body]. rewrite zlen_app. pose proof (zlen_de_bytes d) as E. unfold zlen in *. rewrite length_drop. lia. }
  rewrite dirent_put_at by (rewrite ?zlen_de_bytes; lia). split_and!; [|by apply new_dent_ok; rewrite Er; apply Hd|done|apply new_dent_live].
  do 3 f_equal. unfold de_bytes at 2. rewrite Er. done.
Qed.

(** The entry [d] is alive and its tail makes room. *)
Lemma place_live P d S : dent_ok d -> de_ino d <> 0 -> dirent_min_len (de_nl d) + dirent_min_len (zlen name) <= de_rec d ->
  exists l d' n, splice (P ++ de_bytes d ++ S) (zlen P + 4) (le16 (u16 (dirent_min_len (de_nl d)))) = Ok l /\
    dirent_put l (zlen P + dirent_min_len (de_nl d)) child (u16 (de_rec d - dirent_min_len (de_nl d))) name ft = Ok (P ++ (de_bytes d' ++ de_bytes n) ++ S) /\
    dent_ok d' /\ dent_ok n /\ de_rec d' + de_rec n = de_rec d /\ de_live d' = de_live d /\ de_live n = Some (child, name, ft).
Proof.
  intros Hd H0 Hneed. pose proof Hd as (Hi & Hr & Hnl & Hb). specialize (Hb H0). pose proof (min_len_bounds (zlen name) ltac:(lia)) as Hml.
  pose proof (min_len_bounds (de_nl d) ltac:(lia)) as Hmine. set (mine := dirent_min_len (de_nl d)) in *.
  set (B1 := take (Z.to_nat (mine - 8)) (de_body d)). set (B2 := drop (Z.to_nat (mine - 8)) (de_body d)).
  assert (zlen B1 = mine - 8) as HB1 by (unfold B1, de_rec, zlen in *; rewrite length_take; lia).
  assert (zlen B2 = de_rec d - mine) as HB2 by (unfold B2, de_rec, zlen in *; rewrite length_drop; lia).
  set (d' := mk_dent (de_ino d) (de_nl d) (de_ft d) B1). set (n := new_dent (drop (Z.to_nat (8 + zlen name)) B2)).
  assert (de_rec d' = mine) as Ed by (unfold d', de_rec; cbn [de_body]; lia).
  assert (de_rec n = de_rec d - mine) as En.
  { unfold n, new_dent, de_rec at 1. cbn [de_body]. rewrite zlen_app. unfold zlen in *. rewrite length_drop. lia. }
  exists (P ++ (le32 (de_ino d) ++ le16 mine ++ [de_nl d; de_ft d] ++ B1) ++ B2 ++ S), d', n.
  unfold u16. rewrite !Z.mod_small by lia. split; [|split; [|split; [|split; [|split; [lia|split]]]]].
  - unfold de_bytes. rewrite <- !app_assoc. replace (zlen P + 4) with (zlen (P ++ le32 (de_ino d))) by (rewrite zlen_app, zlen_le32; done).
    rewrite (app_assoc P), splice_at by done. f_equal. rewrite <- !app_assoc. do 4 f_equal. unfold B1, B2. by rewrite app_assoc, take_drop.
  - replace (zlen P + mine) with (zlen (P ++ le32 (de_ino d) ++ le16 mine ++ [de_nl d; de_ft d] ++ B1)).
    2:{ rewrite !zlen_app, zlen_le32, zlen_le16. change (zlen [de_nl d; de_ft d]) with 2. lia. }
    rewrite (app_assoc P), dirent_put_at by lia. f_equal. unfold de_bytes. rewrite Ed, En. unfold d', n, new_dent. cbn [de_ino de_nl de_ft de_body]. by rewrite <- !app_assoc.
  - split_and!; cbn; try lia.
  - apply new_dent_ok. fold n. lia.
  - unfold de_live, d'. cbn [de_ino de_nl de_body de_ft]. destruct (_ || _); [done|]. do 2 f_equal. unfold B1. rewrite take_take. do 2 f_equal. lia.
  - apply new_dent_live.
Qed.

Lemma place_spec fuel pre ds : Forall dent_ok ds -> zlen (dents pre ++ dents ds) = bs -> (length ds < fuel)%nat ->
  exists r, dirent_place fuel bs (dents pre ++ dents ds) (zlen (dents pre)) (dirent_min_len (zlen name)) name child ft = Ok r /\
    match r with None => True | Some l => exists ds', l = dents pre ++ dents ds' /\ placed bs child name ft ds ds' end.
Proof.
  revert pre ds. induction fuel as [|fuel IH]; intros pre ds Hok Hlen Hf; [lia|]. cbn [dirent_place]. rewrite zlen_app in Hlen.
  destruct ds as [|d ds].
  { change (dents []) with (@nil Z) in *. change (zlen []) with 0 in Hlen. destruct (Z.ltb_spec bs (zlen (dents pre) + 8)); [by exists None|lia]. }
  apply Forall_cons_1 in Hok as [Hd Hok]. rewrite dents_cons in *. rewrite zlen_app, zlen_de_bytes in Hlen.
  pose proof (zlen_nonneg (dents ds)) as Hz. pose proof (zlen_nonneg (de_body d)) as Hz'.
  destruct (Z.ltb_spec bs (zlen (dents pre) + 8)); [unfold de_rec in *; lia|].
  destruct (de_fields (dents pre) d (dents ds) Hd) as (-> & -> & -> & _ & _). rewrite !Ok_bind.
  destruct (Z.ltb_spec (de_rec d) 8); [unfold de_rec in *; lia|]. rewrite ?Ok_bind.
  assert (exists r, dirent_place fuel bs (dents pre ++ de_bytes d ++ dents ds) (zlen (dents pre) + de_rec d) (dirent_min_len (zlen name)) name child ft = Ok r /\
    match r with None => True | Some l => exists ds', l = dents pre ++ dents ds' /\ placed bs child name ft (d :: ds) ds' end) as Hnext.
  { destruct (IH (pre ++ [d]) ds Hok) as (r & Er & Hr); [rewrite dents_app, zlen_app, zlen_app; change (dents [d]) with (de_bytes d ++ []); rewrite app_nil_r, zlen_de_bytes; lia|cbn in Hf; lia|].
    rewrite dents_app in Er. change (dents [d]) with (de_bytes d ++ []) in Er. rewrite app_nil_r, <- app_assoc, zlen_app, zlen_de_bytes in Er.
    exists r. split; [exact Er|]. destruct r as [l|]; [|done]. destruct Hr as (ds' & -> & Hok' & Hl' & Hins). exists (d :: ds').
    split.
    { rewrite dents_app, dents_cons, <- app_assoc. change (dents [d]) with (de_bytes d ++ []). by rewrite app_nil_r. }
    split; [by apply Forall_cons_2|]. split; [by rewrite !dents_cons, !zlen_app, Hl'|].
    apply (inserted_app _ (live [d])) in Hins. unfold live in *. by rewrite <- !omap_app in Hins. }
  destruct (Z.eqb_spec (de_ino d) 0) as [Hi0|Hi0].
  - destruct (Z.leb_spec (dirent_min_len (zlen name)) (de_rec d)) as [Hfit|_]; [|exact Hnext].
    destruct (place_dead (dents pre) d (dents ds) Hd Hi0 Hfit) as (n & -> & Hn & Er & Hl). rewrite Ok_bind. eexists. split; [done|].
    exists (n :: ds). split; [by rewrite dents_cons|]. split; [by apply Forall_cons_2|]. split; [rewrite !dents_cons, !zlen_app, !zlen_de_bytes; lia|].
    exists [], (live ds). unfold live. cbn [omap list_omap]. rewrite Hl. unfold de_live. rewrite Hi0. done.
  - destruct (Z.leb_spec (dirent_min_len (de_nl d) + dirent_min_len (zlen name)) (de_rec d)) as [Hfit|_]; [|exact Hnext].
    destruct (place_live (dents pre) d (dents ds) Hd Hi0 Hfit) as (l & d' & n & -> & Ep & Hd' & Hn & Er & Hl1 & Hl2). rewrite Ok_bind, Ep, Ok_bind.
    eexists. split; [done|]. exists (d' :: n :: ds). split; [by rewrite !dents_cons, <- app_assoc|].
    split; [by repeat apply Forall_cons_2|]. split; [rewrite !dents_cons, !zlen_app, !zlen_de_bytes; lia|].
    exists (live [d]), (live ds). unfold live. cbn [omap list_omap]. rewrite Hl1, Hl2. destruct (de_live d); done.
Qed.
End place.

(** ** Directories *)

Section dirs.
Context {D : Type} {drv : BlkDriver D} {laws : BlkLaws D} (m : ext2_mount) (e : bool).
Hypothesis L : layout m.
Notation ppb := (ppb m).

Definition dir_block (ds : list dent) : Prop := Forall dent_ok ds /\ zlen (dents ds) = m_block_size m.

(** The blocks of a directory hold the entries [EE], and there are no more
    blocks. *)
Definition dir_holds (s : store) (ib : list Z) (EE : list (list dent)) : Prop :=
  Forall dir_block EE /\ Z.of_nat (length EE) <= 12 + ppb /\
  (forall k ds, EE !! k = Some ds -> block_holds m s ib (Z.of_nat k) (dents ds)) /\
  (forall bn, Z.of_nat (length EE) <= bn < max_blocks m -> ptr s ib (leaf m bn).1 (leaf m bn).2 = 0).

Definition entries (EE : list (list dent)) : list (Z * list Z * Z) := mjoin (live <$> EE).

Lemma dir_max (EE : list (list dent)) k : Z.of_nat (length EE) <= 12 + ppb -> 0 <= k < Z.of_nat (length EE) -> 0 <= k < max_blocks m.
Proof. intros. pose proof (ppb_pos m L). unfold max_blocks. nia. Qed.

Lemma entries_inserted EE k ds ds' x : EE !! k = Some ds -> inserted x (live ds) (live ds') -> inserted x (entries EE) (entries (<[k := ds']> EE)).
Proof.
  intros Hk (l1 & l2 & E1 & E2). unfold entries. rewrite insert_take_drop by (by eapply lookup_lt_Some). rewrite <- (take_drop_middle EE k ds Hk) at 1.
  rewrite !fmap_app, !join_app. cbn [fmap list_fmap mjoin list_join]. rewrite E1, E2.
  exists (mjoin (live <$> take k EE) ++ l1), (l2 ++ mjoin (live <$> drop (S k) EE)). by rewrite <- !app_assoc.
Qed.

Context (name : list Z) (child ft : Z).
Hypothesis Hname : 0 < zlen name <= 255.
Hypothesis Hchild : 0 < child < 2 ^ 32.

Lemma dir_fuel ds : dir_block ds -> (length ds < dirent_fuel (m_block_size m))%nat.
Proof. intros [_ Hl]. pose proof (dents_length ds). unfold dirent_fuel. mlia. Qed.

(** How the search of the blocks of the directory ends. *)
Definition scan_result (s0 : store) (dino : Z) (EE : list (list dent)) (ib : list Z) (s : store) (o : option bool) (w' : world D) : Prop :=
  exists found s', o = Some found /\ sees m e w' s' /\ opened m s0 dino s' ib /\
    (forall j q, vpos ppb j q -> ptr s' ib j q = ptr s ib j q) /\
    (e = false -> if found : bool then
       exists k ds ds', EE !! k = Some ds /\ placed (m_block_size m) child name ft ds ds' /\
         s' = upd s (ptr s ib (leaf m (Z.of_nat k)).1 (leaf m (Z.of_nat k)).2) (dents ds')
     else s' = s).

Lemma dir_scan_wp s0 dino EE ib n b s (w : world D) : opened m s0 dino s ib -> vino m dino -> sees m e w s ->
  Z.of_nat (length EE) <= 12 + ppb -> b + Z.of_nat n = Z.of_nat (length EE) -> 0 <= b ->
  (forall k ds, b <= Z.of_nat k -> EE !! k = Some ds -> dir_block ds /\ block_holds m s ib (Z.of_nat k) (dents ds)) ->
  wp (dir_scan m ib n b (dirent_min_len (zlen name)) name child ft) (scan_result s0 dino EE ib s) w.
Proof.
  intros O Hv Hs Hmax. revert b s w O Hs. induction n as [|n IH]; intros b s w O Hs Hn Hb Hall; cbn [dir_scan].
  { apply wp_ret. by exists false, s. }
  destruct (lookup_lt_is_Some_2 EE (Z.to_nat b)) as [ds Hds]; [lia|].
  destruct (Hall (Z.to_nat b) ds ltac:(lia) Hds) as [Hblk [Hne Hc]]. rewrite Z2Nat.id in Hne, Hc by lia.
  destruct (leaf_valid m L b) as [Hp Hd]; [apply (dir_max EE); lia|].
  assert (block_at m s ib b = ptr s ib (leaf m b).1 (leaf m b).2) as Eb.
  { unfold block_at. destruct (Z.ltb_spec b (max_blocks m)); [done|]. pose proof (dir_max EE b Hmax). lia. }
  assert (on_device m s ib) as Hdev.
  { split; [apply O|]. intros i p Hip Hnz. pose proof (op_owned m s0 dino s ib i p O Hv Hip Hnz) as Ho. pose proof (owned_range m L _ _ Ho). lia. }
  (* the loop goes on, with block [b] as before or torn *)
  assert (forall x w', sees m e w' (upd s (ptr s ib (leaf m b).1 (leaf m b).2) x) -> e = true ->
    wp (dir_scan m ib n (b + 1) (dirent_min_len (zlen name)) name child ft) (scan_result s0 dino EE ib s) w') as Htorn.
  { intros x w' Hw' E. destruct (opened_data m L s0 dino s ib _ _ x O Hv Hp Hd Hne) as [O' K].
    eapply wp_mono; [apply (IH (b + 1) _ w' O' Hw'); try lia|].
    - intros k ds' Hk Hds'. destruct (Hall k ds' ltac:(lia) Hds') as [? [Hnk Hck]]. split; [done|].
      destruct (leaf_valid m L (Z.of_nat k)) as [Hpk _]; [apply (dir_max EE); [done|]; apply lookup_lt_Some in Hds'; lia|].
      destruct (K _ _ Hpk) as [Ek Kk]. unfold block_holds. rewrite Ek. split; [done|]. rewrite Kk; [done| |done].
      intros [= E1 E2]. assert (Z.of_nat k = b); [|lia]. apply lookup_lt_Some in Hds'.
      apply (leaf_inj m L); [apply (dir_max EE); lia|apply (dir_max EE); lia|by apply injective_projections].
    - intros o w2 (found & s' & -> & ? & ? & Hpp & _). exists found, s'. do 3 (split; [done|]). split; [|congruence].
      intros j q Hq. rewrite Hpp by done. by apply K. }
  assert (forall w', sees m e w' s -> wp (dir_scan m ib n (b + 1) (dirent_min_len (zlen name)) name child ft) (scan_result s0 dino EE ib s) w') as Hnext.
  { intros w' Hw'. apply (IH (b + 1)); try done; try lia. intros k ds' Hk. apply Hall. lia. }
  apply wp_bind, (bmap_wp m e L s ib b); try done.
  { intros E. rewrite Z.eqb_refl. by apply Hnext. }
  rewrite Eb. destruct (Z.eqb_spec (ptr s ib (leaf m b).1 (leaf m b).2) 0); [done|].
  pose proof (op_owned m s0 dino s ib _ _ O Hv Hp Hne) as Ho. pose proof (in_range_owned m L _ _ Ho) as Hr.
  apply wp_bind, wp_attempt, (wp_read m e _ s); [apply L|done|done|intros E; by apply Hnext|]. rewrite Hc.
  destruct (place_spec (m_block_size m) child name ft Hname Hchild (dirent_fuel (m_block_size m)) [] ds) as (r & Er & Hres);
    [apply Hblk|apply Hblk|by apply dir_fuel|]. change (dents []) with (@nil Z) in Er, Hres. cbn [app] in Er. change (zlen []) with 0 in Er.
  apply wp_bind. eapply wp_lift; [exact Er|]. destruct r as [l|]; [|by apply Hnext]. destruct Hres as (ds' & -> & Hpl). cbn [app].
  apply wp_bind, wp_attempt, (wp_write m e _ (dents ds') s); [apply L|done|done| | |].
  { destruct Hpl as (_ & -> & _). apply Hblk. }
  - intros w' Hw'. apply wp_ret. destruct (opened_data m L s0 dino s ib _ _ (dents ds') O Hv Hp Hd Hne) as [O' K].
    exists true, (upd s (ptr s ib (leaf m b).1 (leaf m b).2) (dents ds')). do 3 (split; [done|]). split; [by apply K|]. intros _.
    exists (Z.to_nat b), ds, ds'. rewrite Z2Nat.id by lia. done.
  - intros E w' x Hw' _. by apply (Htorn x).
Qed.

(** The tree and the data of the directory are as before. *)
Definition tree_kept (s : store) (ib : list Z) (s' : store) : Prop :=
  extends m s ib s' ib /\ forall j q, vpos ppb j q -> ptr s' ib j q = ptr s ib j q.

Lemma tree_kept_trans s1 s2 s3 ib : tree_kept s1 ib s2 -> tree_kept s2 ib s3 -> tree_kept s1 ib s3.
Proof. intros [X1 P1] [X2 P2]. split; [by eapply tree_extends_trans|]. intros j q Hq. by rewrite P2, P1. Qed.

Lemma tree_kept_grows s0 dino s ib s' : opened m s0 dino s ib -> vino m dino -> grows m RBlockBitmap s s' -> tree_kept s ib s'.
Proof. intros O Hv G. split; [by eapply opened_grows|]. intros j q. by apply (opened_grows_ptr m L s0 dino). Qed.

(** A new block at the end of the directory. *)
Definition append_result (s0 : store) (dino : Z) (s : store) (ib : list Z) (bn nb : Z) (o : option (list Z)) (s' : store) : Prop :=
  match o with
  | Some ib' => opened m s0 dino s' ib' /\ extends m s ib s' ib' /\ ptr s' ib' (leaf m bn).1 (leaf m bn).2 = nb /\ s' nb = s nb /\
      bn < 12 + ppb /\
      (forall k, 0 <= k < max_blocks m -> k <> bn -> ptr s ib (leaf m k).1 (leaf m k).2 = 0 -> ptr s' ib' (leaf m k).1 (leaf m k).2 = 0)
  | None => (exists ib', opened m s0 dino s' ib') /\ (e = false -> (full m s' \/ 12 + ppb <= bn) /\ tree_kept s ib s')
  end.

Lemma leaf_ind k : 12 <= k < 12 + ppb -> leaf m k = (12, [k - 12]).
Proof. intros Hk. unfold leaf. destruct (Z.ltb_spec k 12); [lia|]. destruct (Z.ltb_spec (k - 12) ppb); [done|lia]. Qed.

Lemma leaf_direct k : k < 12 -> leaf m k = (k, []).
Proof. intros Hk. unfold leaf. by destruct (Z.ltb_spec k 12); [|lia]. Qed.

Lemma leaf_not_ind k : 0 <= k < max_blocks m -> leaf m k <> (12, []).
Proof. intros Hk. unfold leaf. destruct (Z.ltb_spec k 12); [|destruct (_ <? _)]; intros [= E]; lia. Qed.

(** The pointer to the new block goes into the indirect block. *)
Lemma append_indirect s0 dino s ib bn nb (w : world D) : opened m s0 dino s ib -> vino m dino -> sees m e w s ->
  fresh m s0 dino s ib nb -> 12 <= bn < 12 + ppb -> ptr s ib 12 [] <> 0 -> ptr s ib 12 [bn - 12] = 0 ->
  wp (m_ind_set m (ptr s ib 12 []) (bn - 12) nb;; mret ib)
     (fun o w' => exists s', sees m e w' s' /\ append_result s0 dino s ib bn nb o s' /\ (o = None -> e = true)) w.
Proof.
  intros O Hv Hs Hf Hbn Hne H0. pose proof (vpos_slot ppb 12 ltac:(lia)) as Hp.
  assert (vpos ppb 12 [bn - 12]) as Hpos by (split_and!; [lia|lia|cbn; lia|apply Forall_singleton; lia]).
  pose proof (op_owned m s0 dino s ib 12 [] O Hv Hp Hne) as Ho. pose proof (owned_range m L _ _ Ho) as Hr. pose proof Hf as [Hown Hnew].
  pose proof (owned_range m L _ _ Hown) as Hnb. assert (word (s (ptr s ib 12 [])) (bn - 12) = 0) as Hw.
  { revert H0. cbn [ptr]. cbn [ptr] in Hne. by destruct (Z.eqb_spec (default 0 (zget ib 12)) 0). }
  apply wp_bind, (ind_set_wp m e L s); try done; [lia|lia|lia| |].
  - intros E w' Hw'. exists s. split; [done|]. split; [split; [by exists ib|congruence]|done].
  - intros w' x Hw' Hx. destruct (opened_link_word m L s0 dino s ib 12 [] (bn - 12) nb x O Hv Hf Hpos Hne Hw) as (O' & X & Ep & Hother).
    { intros k' (_ & Hl & _). cbn in Hl. lia. }
    { intros k' Hk'. apply Hx. lia. }
    split; [|intros E; eexists; split; [exact Hw'|]; split; [split; [by exists ib|congruence]|done]].
    apply wp_ret. eexists. split; [exact Hw'|]. split; [|done]. unfold append_result. rewrite (leaf_ind bn) by lia. cbn [fst snd]. split_and!; try done; [|lia|].
    + apply upd_ne. pose proof (Hnew dino 12 [] Hv Hp) as Hn. rewrite override_eq in Hn. congruence.
    + intros k Hk Hne' Hk0. destruct (leaf_valid m L k Hk) as [Hpk _]. rewrite Hother; [done|done|].
      intros E. apply Hne', (leaf_inj m L); [done|unfold max_blocks; nia|]. rewrite (leaf_ind bn) by lia. rewrite <- E. by destruct (leaf m k).
Qed.

Lemma dir_append_wp s0 dino s ib bn nb (w : world D) : opened m s0 dino s ib -> vino m dino -> sees m e w s ->
  fresh m s0 dino s ib nb -> 0 <= bn -> (bn < max_blocks m -> ptr s ib (leaf m bn).1 (leaf m bn).2 = 0) ->
  wp (dir_append m ib bn nb) (fun o w' => exists s', sees m e w' s' /\ append_result s0 dino s ib bn nb o s') w.
Proof.
  intros O Hv Hs Hf Hb H0. unfold dir_append. fold ppb. pose proof (ppb_pos m L). pose proof (op_len _ _ _ _ _ O) as Hlen.
  destruct (Z.ltb_spec bn 12) as [H12|H12].
  { eapply wp_lift; [apply st_ok; lia|]. rewrite leaf_direct in H0 by done.
    destruct (opened_link_root m L s0 dino s ib bn nb O Hv Hf ltac:(lia) (H0 ltac:(unfold max_blocks; nia))) as (O' & X & Ep & _ & Hother).
    { intros k (_ & Hl & _). cbn in Hl. unfold depth in Hl. destruct (Z.ltb_spec bn 12); lia. }
    exists s. split; [done|]. unfold append_result. rewrite leaf_direct by done. split_and!; try done; [lia|].
    intros k Hk Hne Hk0. destruct (leaf_valid m L k Hk) as [Hpk _]. rewrite Hother; [done|done|].
    intros E. apply Hne, (leaf_inj m L); [done|unfold max_blocks; nia|]. rewrite (leaf_direct bn) by done. rewrite <- E. by destruct (leaf m k). }
  destruct (Z.ltb_spec (bn - 12) ppb) as [H1|H1].
  2:{ apply wp_fail. exists s. split; [done|]. split; [by exists ib|]. intros _. split; [right; lia|done]. }
  rewrite leaf_ind in H0 by lia. cbn [fst snd] in H0. specialize (H0 ltac:(unfold max_blocks; nia)).
  apply wp_bind. eapply wp_lift; [apply zget_default; lia|]. destruct (Z.eqb_spec (default 0 (zget ib 12)) 0) as [E0|E0].
  2:{ apply wp_bind, wp_ret, wp_bind. eapply wp_lift; [apply zget_default; lia|]. eapply wp_mono; [apply append_indirect; try done; lia|]. intros o w' (s' & ? & ? & _). by exists s'. }
  do 2 apply wp_bind. eapply wp_mono; [by apply (alloc_block_wp m e L s)|]. intros [ind|] w1 (s1 & Hs1 & Ht).
  2:{ exists s1. split; [done|]. pose proof Ht as [G _].
      split; [|intros E; split; [left; by apply (full_taken m e L s)|by eapply tree_kept_grows]]. exists ib. by eapply opened_grows. }
  destruct (opened_alloc m L e s0 dino s ib ind s1 O Hv Ht) as (O1 & X1 & Hf1 & _ & Hkeep & Hp1). destruct (Hkeep nb Hf) as [Hfn Hsn].
  assert (nb <> ind) as Hne. { intros ->. destruct Ht as (_ & _ & Hu & _). destruct Hf as [(_ & Hu' & _) _]. congruence. }
  pose proof (bs_pos m L) as Hbs. pose proof Hf1 as [Hoi _].
  apply wp_bind, (wp_write m e ind (zeros (m_block_size m)) s1); [apply L|done|by eapply in_range_owned|apply zlen_zeros; lia| |].
  2:{ intros E w2 x Hw2 _. destruct (opened_fresh_write m L s0 dino s1 ib ind x O1 Hv Hf1) as (O2 & _).
      eexists. split; [exact Hw2|]. split; [by exists ib|congruence]. }
  intros w2 Hs2. destruct (opened_fresh_write m L s0 dino s1 ib ind (zeros (m_block_size m)) O1 Hv Hf1) as (O2 & X2 & Hkeep2 & Hp2).
  set (s2 := upd s1 ind _) in *.
  destruct (opened_link_root m L s0 dino s2 ib 12 ind O2 Hv (Hkeep2 ind Hf1) ltac:(lia) E0) as (O3 & X3 & Ep3 & Hkeep3 & Hp3).
  { intros k [_ Hk]%vpos_parent. unfold s2. rewrite upd_eq. by eapply zero_word. }
  eapply wp_lift; [apply st_ok; lia|]. apply wp_bind. eapply wp_lift; [apply zget_default; rewrite zlen_zset; lia|].
  change (default 0 (zget (zset ib 12 ind) 12)) with (ptr s2 (zset ib 12 ind) 12 []).
  assert (vpos ppb 12 [bn - 12]) as Hpos by (split_and!; [lia|lia|cbn; lia|apply Forall_singleton; lia]).
  assert (extends m s ib s2 (zset ib 12 ind)) as X by (eapply tree_extends_trans; [exact X1|]; by eapply tree_extends_trans).
  eapply wp_mono; [apply (append_indirect s0 dino s2 (zset ib 12 ind) bn nb w2 O3 Hv Hs2)|].
  - apply Hkeep3; [done|]. by apply Hkeep2.
  - lia.
  - rewrite Ep3. pose proof (owned_range m L _ _ Hoi). lia.
  - rewrite Hp3 by (done || congruence). rewrite Hp2, Hp1 by done. exact H0.
  - intros o w3 (s3 & Hs3 & Hr & He). exists s3. split; [done|]. destruct o as [ib3|]; [|split; [apply Hr|intros E; specialize (He eq_refl); congruence]].
    destruct Hr as (O4 & X4 & Ep4 & Hn4 & Hlt & Hz4). split_and!; try done.
    + by eapply tree_extends_trans.
    + rewrite Hn4. unfold s2. rewrite upd_ne by done. done.
    + intros k Hk Hnk Hk0. apply Hz4; [done|done|]. destruct (leaf_valid m L k Hk) as [Hpk _].
      rewrite Hp3; [by rewrite Hp2, Hp1|done|]. pose proof (leaf_not_ind k Hk) as Hni. by destruct (leaf m k).
Qed.

(** ** Adding an entry *)

(** Inode [dino] is a directory with the entries [EE]. *)
Definition dir_ok (s : store) (dino : Z) (EE : list (list dent)) : Prop :=
  truthy (Z.land (i_mode (inode_of m s dino)) EXT2_S_IFDIR) = true /\
  i_size (inode_of m s dino) = m_block_size m * Z.of_nat (length EE) /\ dir_holds s (blocks_of m s dino) EE.

(** One block of the directory is written. *)
Lemma dir_holds_insert s0 dino s ib EE k ds ds' : opened m s0 dino s ib -> vino m dino -> dir_holds s ib EE -> EE !! k = Some ds ->
  placed (m_block_size m) child name ft ds ds' ->
  dir_holds (upd s (ptr s ib (leaf m (Z.of_nat k)).1 (leaf m (Z.of_nat k)).2) (dents ds')) ib (<[k := ds']> EE).
Proof.
  intros O Hv (Hok & Hmax & Hall & Hend) Hk (Hok' & Hlen' & _). pose proof (lookup_lt_Some _ _ _ Hk) as Hlt.
  destruct (leaf_valid m L (Z.of_nat k)) as [Hp Hd]; [apply (dir_max EE); lia|]. destruct (Hall k ds Hk) as [Hne Hc].
  destruct (opened_data m L s0 dino s ib _ _ (dents ds') O Hv Hp Hd Hne) as [_ K].
  split; [|split; [by rewrite length_insert|split]].
  - apply Forall_insert; [done|]. split; [done|]. rewrite Hlen'. by apply (Forall_lookup_1 _ _ _ _ Hok Hk).
  - intros k' ds1 Hk'. destruct (decide (k' = k)) as [->|Hne'].
    + rewrite list_lookup_insert_eq in Hk' by lia. injection Hk' as <-. unfold block_holds. rewrite (proj1 (K _ _ Hp)). split; [done|]. by rewrite upd_eq.
    + rewrite list_lookup_insert_ne in Hk' by done. destruct (Hall k' ds1 Hk') as [Hn1 Hc1]. pose proof (lookup_lt_Some _ _ _ Hk').
      destruct (leaf_valid m L (Z.of_nat k')) as [Hp' _]; [apply (dir_max EE); lia|]. destruct (K _ _ Hp') as [E K']. unfold block_holds. rewrite E.
      split; [done|]. rewrite K'; [done| |done]. intros [= E1 E2].
      assert (Z.of_nat k' = Z.of_nat k); [|lia]. apply (leaf_inj m L); [apply (dir_max EE); lia|apply (dir_max EE); lia|by apply injective_projections].
  - intros bn Hbn. rewrite length_insert in Hbn. destruct (leaf_valid m L bn) as [Hp' _]; [lia|]. rewrite (proj1 (K _ _ Hp')). by apply Hend.
Qed.

(** The entry alone in a new block. *)
Lemma first_entry : m_block_size m < 65536 ->
  exists ds, dirent_put (zeros (m_block_size m)) 0 child (u16 (m_block_size m)) name ft = Ok (dents ds) /\ dir_block ds /\ live ds = [(child, name, ft)].
Proof.
  intros Hbs. pose proof (bs_pos m L). assert (u16 (m_block_size m) = m_block_size m) as -> by (apply Z.mod_small; lia).
  set (X := zeros (m_block_size m)). assert (zlen X = m_block_size m) as HX by (apply zlen_zeros; lia).
  set (n := new_dent child name ft (drop (Z.to_nat (8 + zlen name)) X)). exists [n].
  assert (de_rec n = m_block_size m) as Er.
  { unfold n, new_dent, de_rec. cbn [de_body]. rewrite zlen_app. unfold zlen in *. rewrite length_drop. lia. }
  pose proof (dirent_put_at [] X [] child (m_block_size m) name ft ltac:(lia) ltac:(lia)) as E. cbn [app] in E. rewrite !app_nil_r in E.
  change (zlen []) with 0 in E. rewrite E. split; [|split; [split|]].
  - f_equal. change (dents [n]) with (de_bytes n ++ []). rewrite app_nil_r. unfold de_bytes. rewrite Er. done.
  - apply Forall_singleton. apply new_dent_ok; [done|done|]. fold n. lia.
  - change (dents [n]) with (de_bytes n ++ []). rewrite app_nil_r, zlen_de_bytes. done.
  - unfold live. cbn [omap list_omap]. unfold n. by rewrite new_dent_live.
Qed.

Lemma entries_snoc EE ds x : live ds = [x] -> inserted x (entries EE) (entries (EE ++ [ds])).
Proof.
  intros E. exists (entries EE), []. rewrite app_nil_r. split; [done|]. unfold entries. rewrite fmap_app, join_app. cbn [fmap list_fmap mjoin list_join].
  by rewrite E.
Qed.

Definition add_post (s : store) (dino : Z) (EE : list (list dent)) (o : option unit) (s' : store) : Prop :=
  fs_inv m s' /\ only_file m s s' dino /\
  match o with
  | Some _ => i_mode (inode_of m s' dino) = i_mode (inode_of m s dino) /\
      (e = false -> exists EE', dir_ok s' dino EE' /\ inserted (child, name, ft) (entries EE) (entries EE'))
  | None => e = false -> (full m s' \/ 12 + ppb <= Z.of_nat (length EE)) /\ dir_ok s' dino EE
  end.

Lemma dir_ok_kept s dino s' EE : tree_kept s (blocks_of m s dino) s' -> inode_of m s' dino = inode_of m s dino -> dir_ok s dino EE -> dir_ok s' dino EE.
Proof.
  intros [X P] Ei (Hmode & Hsize & Hok & Hmax & Hall & Hend). unfold dir_ok. assert (blocks_of m s' dino = blocks_of m s dino) as -> by (unfold blocks_of; by rewrite Ei).
  rewrite Ei. split; [done|]. split; [done|]. split; [done|]. split; [done|]. split.
  - intros k ds Hk. pose proof (lookup_lt_Some _ _ _ Hk). eapply block_holds_extends; [done| |exact X|by apply Hall]. apply (dir_max EE); lia.
  - intros bn Hbn. destruct (leaf_valid m L bn) as [Hp _]; [lia|]. rewrite P by done. by apply Hend.
Qed.

(** The end of [m_add_dirent]: a new block holds the entry. *)
Lemma add_block_wp s0 s dino EE (w : world D) : fs_inv m s0 -> vino m dino -> iused m s0 dino = true -> dir_ok s0 dino EE -> m_block_size m < 65536 ->
  m_block_size m * (Z.of_nat (length EE) + 1) < 2 ^ 32 -> opened m s0 dino s (blocks_of m s0 dino) ->
  (forall j q, vpos ppb j q -> ptr s (blocks_of m s0 dino) j q = ptr s0 (blocks_of m s0 dino) j q) -> (e = false -> s = s0) -> sees m e w s ->
  wp (nb ← m_alloc_block m;
      dbuf ← lift (dirent_put (zeros (m_block_size m)) 0 child (u16 (m_block_size m)) name ft);
      m_write_block m nb dbuf;;
      blocks ← dir_append m (blocks_of m s0 dino) (Z.of_nat (length EE)) nb;
      m_write_inode m dino (mk_inode (i_mode (inode_of m s0 dino)) (u32 (i_size (inode_of m s0 dino) + m_block_size m)) blocks))
     (fun o w' => exists s', sees m e w' s' /\ add_post s0 dino EE o s') w.
Proof.
  intros Hinv Hv Hiu (Hdir & Hsize & Hholds) Hbs Hbig O Hps Hes Hs. set (ib := blocks_of m s0 dino) in *.
  assert (forall o s' ib', opened m s0 dino s' ib' -> o = None -> (e = false -> (full m s' \/ 12 + ppb <= Z.of_nat (length EE)) /\ tree_kept s ib s') -> add_post s0 dino EE o s') as Hquit.
  { intros o s' ib' O' -> Hwhy. split; [by eapply opened_abandon|]. split; [by eapply opened_only|]. intros E. destruct (Hwhy E) as [Hr Hk]. split; [done|].
    apply (dir_ok_kept s0); [rewrite (Hes E) in Hk; exact Hk|by eapply op_inode|done]. }
  destruct (first_entry Hbs) as (ds & Eds & Hds & Hlive). pose proof (bs_pos m L) as Hbs0.
  apply wp_bind. eapply wp_mono; [by apply (alloc_block_wp m e L s)|]. intros [nb|] w1 (s1 & Hs1 & Ht).
  2:{ exists s1. split; [done|]. eapply (Hquit _ s1 ib); [|done|].
      - destruct Ht as [G _]. by eapply opened_grows.
      - intros E. split; [left; by apply (full_taken m e L s)|]. destruct Ht as [G _]. by eapply tree_kept_grows. }
  destruct (opened_alloc m L e s0 dino s ib nb s1 O Hv Ht) as (O1 & X1 & Hf1 & _ & _ & Hp1). pose proof Hf1 as [Ho1 _].
  apply wp_bind. eapply wp_lift; [exact Eds|].
  apply wp_bind, (wp_write m e nb (dents ds) s1); [apply L|done|by eapply in_range_owned|apply Hds| |].
  2:{ intros E w2 x Hw2 _. destruct (opened_fresh_write m L s0 dino s1 ib nb x O1 Hv Hf1) as (O2 & _).
      eexists. split; [exact Hw2|]. eapply Hquit; [exact O2|done|congruence]. }
  intros w2 Hs2. destruct (opened_fresh_write m L s0 dino s1 ib nb (dents ds) O1 Hv Hf1) as (O2 & X2 & Hkeep2 & Hp2). set (s2 := upd s1 nb _) in *.
  destruct Hholds as (Hok & Hmax & Hall & Hend). pose proof (ppb_pos m L) as Hppb. change (2 ^ 32) with 4294967296 in Hbig.
  assert (forall bn, 0 <= bn < max_blocks m -> ptr s2 ib (leaf m bn).1 (leaf m bn).2 = ptr s0 ib (leaf m bn).1 (leaf m bn).2) as Hptr.
  { intros bn Hbn. destruct (leaf_valid m L bn Hbn) as [Hp _]. by rewrite Hp2, Hp1, Hps. }
  apply wp_bind. eapply wp_mono; [apply (dir_append_wp s0 dino s2 ib (Z.of_nat (length EE)) nb w2 O2 Hv Hs2 (Hkeep2 nb Hf1))|]; [lia| |].
  { intros Hlt. rewrite Hptr by lia. apply Hend. lia. }
  intros [ib3|] w3 (s3 & Hs3 & Hr).
  2:{ destruct Hr as [[ib' O3] Hwhy]. exists s3. split; [done|]. eapply Hquit; [exact O3|done|]. intros E. destruct (Hwhy E) as [? ?]. split; [done|].
      do 2 (eapply tree_kept_trans; [split; [eassumption|assumption]|]). done. }
  destruct Hr as (O3 & X3 & Ep3 & Hn3 & Hlt3 & Hz3). destruct (proj2 (proj2 (proj1 Hinv))) as [Hiok _]. destruct (Hiok dino Hv) as (Hmode & _).
  rewrite Hsize. rewrite u32_small by lia. set (i := mk_inode _ _ ib3).
  assert (inode_ok i) as Hi.
  { unfold inode_ok, i. cbn [i_mode i_size i_block]. change (2 ^ 32) with 4294967296. do 2 (split; [lia|]). split; apply O3. }
  eapply wp_mono; [by apply (write_inode_wp m e L dino i s3)|]. intros o w4 (s4 & Hs4 & Hst & He). exists s4. split; [done|].
  destruct Hst as [Hst|[-> ->]]; [|eapply Hquit; [exact O3|done|]; specialize (He eq_refl); congruence].
  destruct (opened_close m L s0 dino s3 ib3 i s4 O3 Hv Hiu Hi eq_refl Hst) as (Hinv4 & Honly & Hown & Hp4).
  split; [done|]. split; [done|]. destruct o as [[]|]; [|specialize (He eq_refl); congruence].
  destruct Hst as (_ & Hnew & _). rewrite Hnew. split; [done|]. intros E. exists (EE ++ [ds]). split; [|by apply entries_snoc].
  unfold dir_ok. rewrite Hnew. unfold blocks_of. rewrite Hnew. cbn [i_mode i_size i_block i].
  split; [done|]. rewrite length_app. cbn [length]. split; [lia|].
  assert (0 <= Z.of_nat (length EE) < max_blocks m) as Hlm by (unfold max_blocks; nia).
  (* a block of the directory after the write of the inode *)
  assert (forall bn c, 0 <= bn < max_blocks m -> block_holds m s3 ib3 bn c -> block_holds m s4 ib3 bn c) as H34.
  { intros bn c Hbn [Hne Hc]. destruct (leaf_valid m L bn Hbn) as [Hp _]. unfold block_holds. rewrite Hp4 by done. split; [done|].
    rewrite Hown; [done|]. by eapply op_owned. }
  split; [|split; [|split]].
  - apply Forall_app_2; [done|]. by apply Forall_singleton.
  - rewrite length_app. cbn [length]. lia.
  - intros k ds1 Hk. apply lookup_app_Some in Hk as [Hk|[Hk1 Hk2]].
    + pose proof (lookup_lt_Some _ _ _ Hk). pose proof (dir_max EE (Z.of_nat k) Hmax ltac:(lia)) as Hkm.
      apply H34; [done|]. eapply block_holds_extends; [done|done|exact X3|]. eapply block_holds_extends; [done|done|exact X2|].
      eapply block_holds_extends; [done|done|exact X1|]. rewrite (Hes E). by apply Hall.
    + apply list_lookup_singleton_Some in Hk2 as [Hk0 <-]. replace (Z.of_nat k) with (Z.of_nat (length EE)) by lia. apply H34; [done|].
      unfold block_holds. rewrite Ep3. pose proof (owned_range m L _ _ Ho1). split; [lia|]. rewrite Hn3. unfold s2. by rewrite upd_eq.
  - intros bn Hbn. rewrite length_app in Hbn. cbn [length] in Hbn. destruct (leaf_valid m L bn ltac:(lia)) as [Hp _]. rewrite Hp4 by done.
    apply Hz3; [lia|lia|]. rewrite Hptr by lia. apply Hend. lia.
Qed.

Lemma add_dirent_wp s dino EE (w : world D) : fs_inv m s -> vino m dino -> iused m s dino = true -> dir_ok s dino EE -> m_block_size m < 65536 ->
  m_block_size m * (Z.of_nat (length EE) + 1) < 2 ^ 32 -> sees m e w s ->
  wp (m_add_dirent m dino name child ft) (fun o w' => exists s', sees m e w' s' /\ add_post s dino EE o s') w.
Proof.
  intros Hinv Hv Hiu Hdir Hbs Hbig Hs. pose proof (opened_start m s dino Hinv Hv) as O. pose proof Hdir as (Hmode & Hsize & Hholds).
  assert (forall w', sees m e w' s -> e = true -> exists s', sees m e w' s' /\ add_post s dino EE None s') as Hquit.
  { intros w' Hw' E. exists s. split; [done|]. split; [done|]. split; [by eapply opened_only|congruence]. }
  unfold m_add_dirent. apply wp_bind, (read_inode_wp m e L dino s); [done|done|intros; by apply Hquit|]. clear w Hs. intros w Hs.
  apply wp_bind, wp_require; [intros _|congruence].
  apply wp_bind, wp_require; [intros _|]. 2:{ destruct (Z.eqb_spec (zlen name) 0); [lia|]. destruct (Z.leb_spec (zlen name) 255); [done|lia]. }
  do 2 (apply wp_bind, (wp_heap m e s); [done|intros E w' Hw'; by apply Hquit|]; clear w Hs; intros w Hs).
  pose proof (bs_pos m L) as Hbs0. change (2 ^ 32) with 4294967296 in Hbig.
  assert (u32 (i_size (inode_of m s dino) + m_block_size m - 1) / m_block_size m = Z.of_nat (length EE)) as ->.
  { rewrite Hsize, u32_small by lia. replace (m_block_size m * Z.of_nat (length EE) + m_block_size m - 1) with (Z.of_nat (length EE) * m_block_size m + (m_block_size m - 1)) by lia.
    rewrite Z.div_add_l, Z.div_small by lia. lia. }
  rewrite Nat2Z.id. destruct Hholds as (Hok & Hmax & Hall & Hend).
  apply wp_bind. eapply wp_mono; [apply (dir_scan_wp s dino EE (blocks_of m s dino) (length EE) 0 s w O Hv Hs Hmax); try lia|].
  { intros k ds _ Hk. split; [by apply (Forall_lookup_1 _ _ _ _ Hok Hk)|by apply Hall]. }
  intros o w1 (found & s1 & -> & Hs1 & O1 & Hps & Hres). destruct found.
  - apply wp_ret. exists s1. split; [done|]. split; [by eapply opened_abandon|]. split; [by eapply opened_only|].
    pose proof (op_inode m L s dino s1 _ dino O1 Hv) as Ei. rewrite Ei. split; [done|]. intros E.
    assert (blocks_of m s1 dino = blocks_of m s dino) as Eb by (unfold blocks_of; by rewrite Ei).
    destruct (Hres E) as (k & ds & ds' & Hk & Hpl & Es1). exists (<[k := ds']> EE). split.
    + unfold dir_ok. rewrite Ei, Eb. split; [done|]. split; [by rewrite length_insert|]. rewrite Es1. by eapply dir_holds_insert.
    + eapply entries_inserted; [done|]. apply Hpl.
  - by apply (add_block_wp s s1).
Qed.
End dirs.
