(* ===== verification/Ext2Create.v ===== *)
(** * Ext2Create: new files and directories on ext2

    [ext2_create_file] and [ext2_create_dir]: the new inode was free, the
    directory gains exactly the new entry, and files in use stay as they are. *)

From S2P Require Import Prelude Blkdev Ext2 Ext2Store Ext2Alloc Ext2Tree Ext2Inodes Ext2Files Ext2Dirs.

Section create.
Context {D : Type} {drv : BlkDriver D} {laws : BlkLaws D} (m : ext2_mount) (e : bool).
Hypothesis L : layout m.
Notation ppb := (ppb m).

(** An inode bitmap gained bits. *)
Lemma inv_igrows s s' : fs_inv m s -> grows m RInodeBitmap s s' -> fs_inv m s' /\ (forall j, vino m j -> same_file m s s' j) /\
  (forall r, valid_role m r -> (forall g, r <> RInodeBitmap g) -> s' (loc m r) = s (loc m r)).
Proof.
  intros [(Hm & Hz & Hi & Hfr) F] G. pose proof G as [Gs _].
  assert (forall r, valid_role m r -> (forall g, r <> RInodeBitmap g) -> s' (loc m r) = s (loc m r)) as Hmeta.
  { intros r Hr Hne. apply Gs. intros g Hg E. apply (Hne g), (lay_inj L); done. }
  assert (forall b, in_fs m b -> used m s' b = used m s b) as Hused.
  { intros b Hb. unfold used. rewrite Hmeta; [done| |done]. by apply group_range. }
  assert (forall j, vino m j -> inode_of m s' j = inode_of m s j) as Hino.
  { intros j Hj. apply inode_of_meta; [done|]. apply Hmeta; [by apply irole_valid|done]. }
  assert (forall b, owned m s b -> owned m s' b /\ s' b = s b) as Hown.
  { intros b (Hb & Hu & Hr). split; [split; [done|]; split; [by rewrite Hused|done]|]. apply Gs. intros g Hg ->. by apply (Hr (RInodeBitmap g)). }
  assert (forall j i p, vino m j -> vpos ppb i p -> ptr s' (blocks_of m s' j) i p = ptr s (blocks_of m s j) i p) as Hptr.
  { intros j i p Hj Hp. unfold blocks_of. rewrite Hino by done. apply (ptr_frame ppb); [|done]. intros k q Hq Hne. apply Hown.
    apply (fo_ok F j i q Hj); [apply (vpos_parent _ _ _ _ Hq)|done]. }
  split; [split; [split; [|split; [|split]]|]|split; [|done]].
  - intros r Hr. rewrite Hused by (by apply (meta_in_fs m L)). by apply Hm.
  - intros b Hb Hu. rewrite Hused in Hu by done. rewrite Gs; [by apply Hz|]. intros g Hg ->. by rewrite (Hm (RInodeBitmap g)) in Hu.
  - intros j Hj. rewrite Hino by done. by apply Hi.
  - intros j Hj Hu. unfold blocks_of. rewrite Hino by done. apply Hfr; [done|].
    destruct (iused m s j) eqn:E; [|done]. by rewrite (iused_grows m L s s' j G Hj E) in Hu.
  - eapply forest_sub; [exact F|apply Hown|]. intros j i p Hj Hp. right. by apply Hptr.
  - intros j Hj. split; [by apply Hino|]. intros i p Hp Hne. apply Hown. by apply (fo_ok F).
Qed.

Lemma dir_ok_same s s' dino EE : same_file m s s' dino -> dir_ok m s dino EE -> dir_ok m s' dino EE.
Proof.
  intros Hsf (Hmode & Hsize & Hok & Hmax & Hall & Hend). pose proof Hsf as [Hi Hb]. unfold dir_ok. rewrite Hi. do 2 (split; [done|]).
  split; [done|]. split; [done|]. split.
  - intros k ds Hk. destruct (Hall k ds Hk) as [Hne Hc]. pose proof (lookup_lt_Some _ _ _ Hk).
    destruct (leaf_valid m L (Z.of_nat k)) as [Hp _]; [apply (dir_max m L EE); lia|].
    unfold block_holds. rewrite (same_file_ptr m s s' dino _ _ Hsf Hp). split; [done|]. by rewrite Hb.
  - intros bn Hbn. destruct (leaf_valid m L bn) as [Hp _]; [lia|]. rewrite (same_file_ptr m s s' dino _ _ Hsf Hp). by apply Hend.
Qed.

(** What creation leaves alone: the files in use, the directory apart. *)
Definition keeps_files (s s' : store) (dino : Z) : Prop :=
  forall j, vino m j -> iused m s j = true -> j <> dino -> same_file m s s' j.

Lemma iused_only s s' j ino : only_file m s s' ino -> vino m j -> iused m s' j = iused m s j.
Proof. intros [Hk _] Hj. apply (iused_same m L); [done|]. intros g Hg. by apply (Hk (RInodeBitmap g)). Qed.

Lemma zero_blocks_ok : zlen (zeros 15) = 15 /\ Forall (fun b => 0 <= b < 2 ^ 32) (zeros 15).
Proof. split; [done|]. apply Forall_replicate. lia. Qed.

(** Inodes in use stay in use. *)
Definition ikept (s s' : store) : Prop := forall j, vino m j -> iused m s j = true -> iused m s' j = true.

(** Why nothing can be created although every transfer succeeds. *)
Definition create_refused (s s' : store) (EE : list (list dent)) (name : list Z) : Prop :=
  m_writable m = false \/ name_ok name = false \/ (forall j, vino m j -> iused m s j = true) \/ full m s' \/ 12 + ppb <= Z.of_nat (length EE).

(** The outcome of the creation of [ino] with inode [i] under [name]. *)
Definition created (s : store) (dino : Z) (EE : list (list dent)) (name : list Z) (ft : Z) (i : Z -> ext2_inode -> Prop) (o : option Z) (s' : store) : Prop :=
  fs_inv m s' /\ keeps_files s s' dino /\ ikept s s' /\
  match o with
  | Some ino => vino m ino /\ iused m s ino = false /\ iused m s' ino = true /\ ino <> dino /\ i ino (inode_of m s' ino) /\
      (e = false -> exists EE', dir_ok m s' dino EE' /\ inserted (ino, name, ft) (entries EE) (entries EE'))
  | None => e = false -> create_refused s s' EE name /\ dir_ok m s' dino EE
  end.

Lemma ino_range ino : vino m ino -> 0 < ino < 2 ^ 32.
Proof.
  intros [H1 H2]. pose proof (lay_inodes L). pose proof (lay_ipg L). pose proof (lay_groups L). destruct (lay_sized L) as (_ & _ & ? & Hb & _).
  unfold EXT2_MAX_GROUPS in *. change (2 ^ 32) with 4294967296. nia.
Qed.

Section entry.
Context (name : list Z) (dino : Z) (EE : list (list dent)).
Hypothesis Hname : 0 < zlen name <= 255.
Hypothesis Hbs : m_block_size m < 65536.
Hypothesis Hbig : m_block_size m * (Z.of_nat (length EE) + 1) < 2 ^ 32.
Hypothesis Hv : vino m dino.

(** The last steps: the inode is in its table, the entry is added. *)
Lemma link_new_wp s s1 s2 ino ft (P : Z -> ext2_inode -> Prop) (w : world D) :
  iused m s dino = true -> dir_ok m s dino EE -> inode_taken m e s (Some ino) s1 ->
  (forall j, vino m j -> same_file m s s1 j) -> fs_inv m s2 -> only_file m s1 s2 ino -> P ino (inode_of m s2 ino) -> sees m e w s2 ->
  wp (m_add_dirent m dino name ino ft;; mret ino) (fun o w' => exists s', sees m e w' s' /\ created s dino EE name ft P o s' /\
     (forall x, o = Some x -> x = ino /\ only_file m s2 s' dino)) w.
Proof.
  intros Hiu Hdir (G & Hvi & Hfree & Htaken) H01 Hinv Honly HP Hs.
  assert (ino <> dino) as Hne by congruence.
  assert (iused m s2 dino = true) as Hiu2. { rewrite (iused_only s1 s2 dino ino) by done. by eapply iused_grows. }
  assert (same_file m s s2 dino) as Hsd by (eapply same_file_trans; [by apply H01|]; by apply Honly).
  apply wp_bind. eapply wp_mono; [apply (add_dirent_wp m e L name ino ft Hname (ino_range ino Hvi) s2 dino EE w); try done|].
  { by eapply dir_ok_same. }
  intros o w' (s3 & Hs3 & Hinv3 & Honly3 & Hres).
  assert (keeps_files s s3 dino) as Hkeep.
  { intros j Hj Hju Hjd. assert (j <> ino) by congruence. eapply same_file_trans; [by apply H01|].
    eapply same_file_trans; [by apply Honly|]. by apply Honly3. }
  assert (ikept s s3) as Hik.
  { intros j Hj Hju. rewrite (iused_only s2 s3 j dino), (iused_only s1 s2 j ino) by done. by eapply iused_grows. }
  destruct o as [[]|]; [apply wp_ret|]; exists s3; (split; [done|]); (split; [|by intros x [= <-] || done]).
  - split; [done|]. split; [done|]. split; [done|]. split; [done|]. split; [done|]. split.
    { rewrite (iused_only s2 s3 ino dino), (iused_only s1 s2 ino ino) by done. done. }
    split; [done|]. split; [by rewrite (proj1 (proj2 Honly3 ino Hvi Hne))|]. by intros E; apply Hres.
  - split; [done|]. split; [done|]. split; [done|]. intros E. destruct (Hres E) as [Hr Hd]. split; [|done]. unfold create_refused. tauto.
Qed.

(** An exit before the entry is added. *)
Lemma created_none s s1 s2 ino ft P : inode_taken m e s (Some ino) s1 -> (forall j, vino m j -> same_file m s s1 j) ->
  fs_inv m s2 -> only_file m s1 s2 ino -> iused m s dino = true -> dir_ok m s dino EE -> (e = false -> full m s2) -> created s dino EE name ft P None s2.
Proof.
  intros (G & _ & Hfree & _) H01 Hinv Honly Hiu Hdir Hwhy.
  assert (forall j, vino m j -> iused m s j = true -> same_file m s s2 j) as Hsf.
  { intros j Hj Hju. assert (j <> ino) by congruence. eapply same_file_trans; [by apply H01|]. by apply Honly. }
  split; [done|]. split; [intros j Hj Hju _; by apply Hsf|]. split.
  - intros j Hj Hju. rewrite (iused_only s1 s2 j ino) by done. by eapply iused_grows.
  - intros E. split; [|eapply dir_ok_same; [by apply Hsf|done]]. do 3 right. left. by apply Hwhy.
Qed.
End entry.

Lemma create_file_wp s dino EE name (w : world D) : fs_inv m s -> vino m dino -> iused m s dino = true -> dir_ok m s dino EE ->
  m_block_size m < 65536 -> m_block_size m * (Z.of_nat (length EE) + 1) < 2 ^ 32 -> sees m e w s ->
  wp (ext2_create_file m dino name)
     (fun o w' => exists s', sees m e w' s' /\
        created s dino EE name EXT2_FT_REG_FILE (fun _ i => i = mk_inode 33188 0 (zeros 15)) o s') w.
Proof.
  intros Hinv Hv Hiu Hdir Hbs Hbig Hs. unfold ext2_create_file.
  assert (forall w' s', sees m e w' s' -> fs_inv m s' -> (forall j, vino m j -> same_file m s s' j) -> ikept s s' ->
    (e = false -> create_refused s s' EE name) -> exists s', sees m e w' s' /\ created s dino EE name EXT2_FT_REG_FILE (fun _ i => i = mk_inode 33188 0 (zeros 15)) None s') as Hquit.
  { intros w' s' Hw' Hinv' Hsf Hik Hwhy. exists s'. split; [done|]. split; [done|]. split; [intros j Hj _ _; by apply Hsf|]. split; [done|].
    intros E. split; [by apply Hwhy|]. eapply dir_ok_same; [by apply Hsf|done]. }
  assert (m_ready m = true) as Hrdy by apply (lay_sized L). rewrite Hrdy. cbn [andb].
  apply wp_bind, wp_require; [intros _|intros Hw; apply (Hquit w s); [done|done|done|by intros j|intros _; by left]].
  apply wp_bind, wp_require; [intros Hn|intros Hn; apply (Hquit w s); [done|done|done|by intros j|intros _; right; by left]].
  assert (0 < zlen name <= 255) as Hname.
  { unfold name_ok in Hn. pose proof (zlen_nonneg name). destruct (Z.eqb_spec (zlen name) 0); [done|]. destruct (Z.leb_spec (zlen name) 255); [lia|done]. }
  apply wp_bind. eapply wp_mono; [by apply (alloc_inode_wp m e L s)|]. intros [ino|] w1 (s1 & Hs1 & Ht).
  2:{ destruct Ht as [G Hall]. destruct (inv_igrows s s1 Hinv G) as (Hinv1 & Hsf & _). apply (Hquit w1 s1); [done..|intros j Hj; by eapply iused_grows|].
      intros E. do 2 right. left. by apply Hall. }
  pose proof Ht as (G & Hvi & Hfree & Htaken). destruct (inv_igrows s s1 Hinv G) as (Hinv1 & Hsf & _).
  assert (blocks_of m s1 ino = zeros 15) as Hb0.
  { unfold blocks_of. rewrite (proj1 (Hsf ino Hvi)). destruct Hinv as [(_ & _ & _ & Hfr) _]. by apply Hfr. }
  pose proof (opened_start m s1 ino Hinv1 Hvi) as O. rewrite Hb0 in O. set (i := mk_inode 33188 0 (zeros 15)).
  assert (inode_ok i) as Hi by (split; [cbn; lia|split; [cbn; lia|apply zero_blocks_ok]]).
  apply wp_bind. eapply wp_mono; [by apply (write_inode_wp m e L ino i s1)|]. intros o w2 (s2 & Hs2 & Hst & He).
  assert (fs_inv m s2 /\ only_file m s1 s2 ino) as [Hinv2 Honly].
  { destruct Hst as [Hst|[-> _]]; [|split; [done|by eapply opened_only]].
    destruct (opened_close m L s1 ino s1 (zeros 15) i s2 O Hvi Htaken Hi eq_refl Hst) as (? & ? & _). done. }
  destruct o as [[]|]; [|exists s2; split; [done|]; eapply created_none; try done; intros E; specialize (He eq_refl); congruence].
  eapply wp_mono; [apply (link_new_wp name dino EE Hname Hbs Hbig Hv s s1 s2 ino EXT2_FT_REG_FILE (fun _ i => i = mk_inode 33188 0 (zeros 15))); try done|].
  - destruct Hst as [(_ & E & _)|[_ ?]]; [done|done].
  - intros o w' (s' & ? & ? & _). by exists s'.
Qed.

(** The first block of a directory. *)
Lemma dot_entries ino dino : 0 < ino < 2 ^ 32 -> 0 < dino < 2 ^ 32 -> m_block_size m < 65536 ->
  exists b1 ds, dirent_put (zeros (m_block_size m)) 0 ino 12 dot EXT2_FT_DIR = Ok b1 /\
    dirent_put b1 12 dino (u16 (m_block_size m - 12)) dotdot EXT2_FT_DIR = Ok (dents ds) /\ dir_block m ds /\
    live ds = [(ino, dot, EXT2_FT_DIR); (dino, dotdot, EXT2_FT_DIR)].
Proof.
  intros Hi Hd Hbs. pose proof (bs_pos m L). assert (u16 (m_block_size m - 12) = m_block_size m - 12) as -> by (apply Z.mod_small; lia).
  set (X := zeros (m_block_size m - 12)). assert (zlen X = m_block_size m - 12) as HX by (apply zlen_zeros; lia).
  assert (zeros (m_block_size m) = zeros 12 ++ X) as ->.
  { unfold X, zeros. rewrite <- replicate_add. f_equal. lia. }
  set (d1 := new_dent ino dot EXT2_FT_DIR [0; 0; 0]). set (d2 := new_dent dino dotdot EXT2_FT_DIR (drop (Z.to_nat (8 + zlen dotdot)) X)).
  assert (de_rec d2 = m_block_size m - 12) as Er.
  { unfold d2, new_dent, de_rec. cbn [de_body]. rewrite zlen_app. change (zlen dotdot) with 2. unfold zlen in *. rewrite length_drop. lia. }
  exists (de_bytes d1 ++ X), [d1; d2]. split; [|split; [|split; [split|]]].
  - pose proof (dirent_put_at [] (zeros 12) X ino 12 dot EXT2_FT_DIR) as E. cbn [app] in E. change (zlen []) with 0 in E.
    rewrite E by done. done.
  - pose proof (dirent_put_at (de_bytes d1) X [] dino (m_block_size m - 12) dotdot EXT2_FT_DIR) as E. rewrite !app_nil_r in E.
    rewrite zlen_de_bytes in E. change (de_rec d1) with 12 in E. rewrite E by (change (zlen dotdot) with 2; lia). f_equal.
    rewrite !dents_cons. change (dents []) with (@nil Z). rewrite app_nil_r. f_equal. unfold de_bytes. by rewrite Er.
  - repeat apply Forall_cons_2; [| |by apply Forall_nil_2]; apply new_dent_ok; try done; try (change (zlen dot) with 1; lia); try (change (zlen dotdot) with 2; lia).
    fold d2. lia.
  - rewrite !dents_cons. change (dents []) with (@nil Z). rewrite app_nil_r, zlen_app, !zlen_de_bytes, Er. change (de_rec d1) with 12. lia.
  - unfold live. cbn [omap list_omap]. unfold d1, d2. rewrite !new_dent_live by (change (zlen dot) with 1 || change (zlen dotdot) with 2; lia). done.
Qed.

(** The directory that is made: itself and its parent. *)
Definition fresh_dir (dino : Z) (s : store) (ino : Z) : Prop :=
  i_mode (inode_of m s ino) = 16877 /\
  exists EE, dir_ok m s ino EE /\ entries EE = [(ino, dot, EXT2_FT_DIR); (dino, dotdot, EXT2_FT_DIR)].

Lemma create_dir_wp s dino EE name (w : world D) : fs_inv m s -> vino m dino -> iused m s dino = true -> dir_ok m s dino EE ->
  m_block_size m < 65536 -> m_block_size m * (Z.of_nat (length EE) + 1) < 2 ^ 32 -> sees m e w s ->
  wp (ext2_create_dir m dino name)
     (fun o w' => exists s', sees m e w' s' /\ created s dino EE name EXT2_FT_DIR (fun _ i => i_mode i = 16877) o s' /\
        forall ino, o = Some ino -> fresh_dir dino s' ino) w.
Proof.
  intros Hinv Hv Hiu Hdir Hbs Hbig Hs. unfold ext2_create_dir.
  assert (forall w' s', sees m e w' s' -> fs_inv m s' -> (forall j, vino m j -> same_file m s s' j) -> ikept s s' ->
    (e = false -> create_refused s s' EE name) -> exists s', sees m e w' s' /\ created s dino EE name EXT2_FT_DIR (fun _ i => i_mode i = 16877) None s' /\
      forall ino, None = Some ino -> fresh_dir dino s' ino) as Hquit.
  { intros w' s' Hw' Hinv' Hsf Hik Hwhy. exists s'. split; [done|]. split; [|done]. split; [done|]. split; [intros j Hj _ _; by apply Hsf|]. split; [done|].
    intros E. split; [by apply Hwhy|]. eapply dir_ok_same; [by apply Hsf|done]. }
  assert (m_ready m = true) as Hrdy by apply (lay_sized L). rewrite Hrdy. cbn [andb].
  apply wp_bind, wp_require; [intros _|intros Hw; apply (Hquit w s); [done|done|done|by intros j|intros _; by left]].
  apply wp_bind, wp_require; [intros Hn|intros Hn; apply (Hquit w s); [done|done|done|by intros j|intros _; right; by left]].
  assert (0 < zlen name <= 255) as Hname.
  { unfold name_ok in Hn. pose proof (zlen_nonneg name). destruct (Z.eqb_spec (zlen name) 0); [done|]. destruct (Z.leb_spec (zlen name) 255); [lia|done]. }
  apply wp_bind. eapply wp_mono; [by apply (alloc_inode_wp m e L s)|]. intros [ino|] w1 (s1 & Hs1 & Ht).
  2:{ destruct Ht as [G Hall]. destruct (inv_igrows s s1 Hinv G) as (Hinv1 & Hsf & _). apply (Hquit w1 s1); [done..|intros j Hj; by eapply iused_grows|].
      intros E. do 2 right. left. by apply Hall. }
  pose proof Ht as (G & Hvi & Hfree & Htaken). destruct (inv_igrows s s1 Hinv G) as (Hinv1 & Hsf & _).
  assert (blocks_of m s1 ino = zeros 15) as Hb0.
  { unfold blocks_of. rewrite (proj1 (Hsf ino Hvi)). destruct Hinv as [(_ & _ & _ & Hfr) _]. by apply Hfr. }
  pose proof (opened_start m s1 ino Hinv1 Hvi) as O. rewrite Hb0 in O.
  assert (forall w' s' ib', sees m e w' s' -> opened m s1 ino s' ib' -> (e = false -> full m s') ->
    exists s', sees m e w' s' /\ created s dino EE name EXT2_FT_DIR (fun _ i => i_mode i = 16877) None s' /\
      forall ino, None = Some ino -> fresh_dir dino s' ino) as Hquit1.
  { intros w' s' ib' Hw' O' Hwhy. exists s'. split; [done|]. split; [|done]. eapply created_none; try done; [by eapply opened_abandon|by eapply opened_only]. }
  apply wp_bind. eapply wp_mono; [by apply (alloc_block_wp m e L s1)|]. intros [blk|] w2 (s2 & Hs2 & Hb).
  2:{ pose proof Hb as [Gb _]. destruct (opened_grows m L s1 ino s1 _ s2 O Hvi Gb) as [O' _]. eapply Hquit1; [done|exact O'|]. by apply (full_taken m e L s1). }
  destruct (opened_alloc m L e s1 ino s1 (zeros 15) blk s2 O Hvi Hb) as (O2 & _ & Hf2 & _ & _ & Hp2). pose proof Hf2 as [Ho2 _].
  apply wp_bind, (wp_heap m e s2); [done|intros E w' Hw'; eapply Hquit1; [done|exact O2|congruence]|]. clear w2 Hs2. intros w2 Hs2.
  destruct (dot_entries ino dino (ino_range ino Hvi) (ino_range dino Hv) Hbs) as (b1 & ds & E1 & E2 & Hds & Hlive).
  apply wp_bind. eapply wp_lift; [exact E1|]. apply wp_bind. eapply wp_lift; [exact E2|].
  apply wp_bind, (wp_write m e blk (dents ds) s2); [apply L|done|by eapply in_range_owned|apply Hds| |].
  2:{ intros E w3 x Hw3 _. destruct (opened_fresh_write m L s1 ino s2 (zeros 15) blk x O2 Hvi Hf2) as (O3 & _). eapply Hquit1; [done|exact O3|congruence]. }
  intros w3 Hs3. destruct (opened_fresh_write m L s1 ino s2 (zeros 15) blk (dents ds) O2 Hvi Hf2) as (O3 & _ & Hkeep3 & Hp3).
  set (s3 := upd s2 blk _) in *. pose proof (bs_pos m L) as Hbs0. pose proof (ppb_pos m L) as Hppb.
  destruct (opened_link_root m L s1 ino s3 (zeros 15) 0 blk O3 Hvi (Hkeep3 blk Hf2) ltac:(lia) eq_refl) as (O4 & _ & Ep4 & _ & Hp4).
  { intros k (_ & Hl & _). cbn in Hl. lia. }
  change (<[0%nat := blk]> (zeros 15)) with (zset (zeros 15) 0 blk). set (ib := zset (zeros 15) 0 blk) in *.
  set (i := mk_inode 16877 (m_block_size m) ib).
  assert (inode_ok i) as Hi.
  { unfold inode_ok, i. cbn [i_mode i_size i_block]. change (2 ^ 32) with 4294967296. do 2 (split; [lia|]). split; apply O4. }
  apply wp_bind. eapply wp_mono; [by apply (write_inode_wp m e L ino i s3)|]. intros o w4 (s4 & Hs4 & Hst & He).
  destruct Hst as [Hst|[-> ->]]; [|eapply Hquit1; [done|exact O4|]; specialize (He eq_refl); congruence].
  destruct (opened_close m L s1 ino s3 ib i s4 O4 Hvi Htaken Hi eq_refl Hst) as (Hinv4 & Honly4 & Hown4 & Hptr4). destruct Hst as (_ & Hnew & _).
  destruct o as [[]|]; [|exists s4; split; [done|]; split; [|done]; eapply created_none; try done; intros E; specialize (He eq_refl); congruence].
  assert (dir_ok m s4 ino [ds]) as Hdir4.
  { unfold dir_ok, blocks_of. rewrite Hnew. cbn [i_mode i_size i_block i length]. split; [done|]. split; [lia|].
    assert (forall k, 0 < k < max_blocks m -> ptr s4 ib (leaf m k).1 (leaf m k).2 = 0) as Hz.
    { intros k Hk. destruct (leaf_valid m L k) as [Hp _]; [lia|]. rewrite Hptr4, Hp4 by first [done|intros E; assert (k = 0); [apply (leaf_inj m L); [lia|lia|]; destruct (leaf m k); cbn in E; by rewrite E|lia]].
      rewrite Hp3, Hp2 by done. unfold leaf. destruct (Z.ltb_spec k 12); cbn [fst snd ptr]; [by rewrite zget_zeros by lia|].
      destruct (_ <? _); cbn [fst snd ptr]; by rewrite zget_zeros by lia. }
    split; [by apply Forall_singleton|]. split; [cbn; lia|]. split; [|intros bn Hbn; apply Hz; cbn in Hbn; lia].
    intros k ds' Hk. apply list_lookup_singleton_Some in Hk as [-> <-]. unfold block_holds. change (leaf m (Z.of_nat 0)) with (0, @nil Z). cbn [fst snd].
    rewrite Hptr4 by (apply vpos_slot; lia). rewrite Ep4. pose proof (owned_range m L _ _ Ho2). split; [lia|].
    rewrite Hown4; [unfold s3; by rewrite upd_eq|]. destruct (Hkeep3 blk Hf2) as [Ho3 _]. done. }
  eapply wp_mono; [apply (link_new_wp name dino EE Hname Hbs Hbig Hv s s1 s4 ino EXT2_FT_DIR (fun _ i => i_mode i = 16877)); try done|].
  { by rewrite Hnew. }
  intros o w5 (s5 & Hs5 & Hc & Honly5). exists s5. split; [done|]. split; [done|]. intros ino' ->.
  destruct (Honly5 ino' eq_refl) as [-> Honly]. destruct Hc as (_ & _ & _ & _ & _ & _ & Hne & Hm & _). split; [done|].
  exists [ds]. split; [|unfold entries; cbn [fmap list_fmap mjoin list_join]; by rewrite app_nil_r].
  eapply dir_ok_same; [|exact Hdir4]. by apply Honly.
Qed.
End create.
