(* ===== verification/Ext2Mkfs.v ===== *)
(** * Ext2Mkfs: making a file system and mounting it

    [ext2_mkfs] on a blank device that does not fail makes a file system with
    the invariant of Ext2Files.v and an empty root directory, and
    [ext2_probe_m] reads the geometry back. *)

From S2P Require Import Prelude Blkdev Ext2 Ext2Store Ext2Alloc Ext2Tree Ext2Inodes Ext2Files Ext2Dirs Ext2Create.

(** ** The layout *)

Section geometry.
Context (sc : Z).

Notation ng := (mkfs_ngroups sc).
Notation gdt := (mkfs_gdt_blocks sc).
Notation meta_end := (mkfs_meta_end sc).

(** The sizes that [ext2_mkfs] accepts. *)
Definition mkfs_fits : Prop := 16384 <= sc < 2 ^ 32 /\ ng <= 256 /\ meta_end + 2 < sc / 2.

(** The mount that [ext2_probe_m] makes of it. *)
Definition mkfs_mounted (writable : bool) : ext2_mount :=
  mk_mount true writable true (ng * 2048) (sc / 2) 1 8192 2048 128 1 1024 2 2 ng (mkfs_table sc 0) (mkfs_table sc 1) (mkfs_table sc 2).

Hypothesis F : mkfs_fits.

Lemma fits_bounds : 1 <= ng <= 256 /\ 1 <= gdt <= 8 /\ sc / 2 <= ng * 8192 < sc / 2 + 8192 /\ 32 * ng <= gdt * 1024 < 32 * ng + 1024 /\
  meta_end = 2 + gdt + ng * 258 /\ meta_end + 2 < sc / 2 < 2 ^ 31.
Proof.
  destruct F as ([H1 H1'] & H2 & H3). change (2 ^ 32) with 4294967296 in H1'. change (2 ^ 31) with 2147483648.
  unfold mkfs_meta_end, mkfs_gdt_blocks, mkfs_ngroups, MKFS_BLOCKS_PER_GROUP, MKFS_BLOCK_SIZE in *.
  split_and!; try mlia; try done.
Qed.

Lemma zget_mkfs_table k g : 0 <= g < 256 -> zget (mkfs_table sc k) g = Some (if g <? ng then 2 + gdt + g * 258 + k else 0).
Proof.
  intros Hg. unfold zget, mkfs_table. destruct (Z.leb_spec 0 g); [|lia]. rewrite list_lookup_fmap, lookup_seqZ_lt by (unfold EXT2_MAX_GROUPS; lia).
  cbn. by rewrite Z2Nat.id by lia.
Qed.

Lemma zlen_mkfs_table k : zlen (mkfs_table sc k) = 256.
Proof. unfold zlen, mkfs_table. rewrite length_fmap, length_seqZ. done. Qed.

Lemma tab_mkfs k g : 0 <= g < ng -> tab (mkfs_table sc k) g = 2 + gdt + g * 258 + k.
Proof.
  intros Hg. pose proof fits_bounds. unfold tab. rewrite zget_mkfs_table by lia. by destruct (Z.ltb_spec g ng); [|lia].
Qed.

Lemma mkfs_layout wr : layout (mkfs_mounted wr).
Proof.
  pose proof fits_bounds as (Hng & Hgdt & Hbc & Hgd & Hme & Hfit & Hsc). change (2 ^ 31) with 2147483648 in Hsc.
  assert (fixed_blocks (mkfs_mounted wr) = 1 + gdt) as Hfix.
  { unfold fixed_blocks, mkfs_mounted. cbn [m_ngroups m_block_size]. mlia. }
  assert (table_blocks (mkfs_mounted wr) = 256) as Htab by done.
  assert (forall r, valid_role (mkfs_mounted wr) r -> loc (mkfs_mounted wr) r =
     match r with RFixed k => 1 + k | RBlockBitmap g => 2 + gdt + g * 258 | RInodeBitmap g => 2 + gdt + g * 258 + 1 | RTable g k => 2 + gdt + g * 258 + 2 + k end) as Hloc.
  { intros [k|g|g|g k]; cbn [valid_role loc mkfs_mounted m_first_data_block m_block_bitmap m_inode_bitmap m_inode_table m_ngroups]; intros Hr;
      [done|rewrite tab_mkfs by done; lia|by rewrite tab_mkfs by done|by rewrite tab_mkfs by lia]. }
  split.
  - split_and!; cbn; try done; lia.
  - cbn. lia.
  - cbn. unfold EXT2_MAX_GROUPS. lia.
  - done.
  - cbn. lia.
  - cbn. lia.
  - cbn. done.
  - cbn. lia.
  - cbn [m_block_bitmap m_inode_bitmap m_inode_table mkfs_mounted]. by rewrite !zlen_mkfs_table.
  - intros r Hr. rewrite Hloc by done. destruct r; cbn in Hr |- *; rewrite ?Hfix, ?Htab in Hr; lia.
  - intros r r' Hr Hr'. rewrite !Hloc by done. destruct r, r'; cbn in Hr, Hr' |- *; rewrite ?Hfix, ?Htab in Hr, Hr'; intros E; try lia; f_equal; lia.
Qed.
End geometry.

(** ** The contents of the metadata *)

Lemma bit_zeros n i : bit (zeros n) i = false.
Proof.
  unfold bit, zeros. destruct (zget (replicate (Z.to_nat n) 0) (i / 8)) as [v|] eqn:E; cbn; [|apply Z.bits_0].
  unfold zget in E. destruct (_ <=? _); [|done]. apply lookup_replicate in E as [-> _]. apply Z.bits_0.
Qed.

Lemma set_bit_ok bm i : 0 <= i < 8 * zlen bm ->
  exists bm', set_bit bm i = Ok bm' /\ zlen bm' = zlen bm /\ forall j, bit bm' j = (j =? i) || bit bm j.
Proof.
  intros Hi. unfold set_bit. destruct (zget_in_range bm (i / 8)) as [v Hv]; [mlia|]. rewrite (ld_ok _ _ _ Hv), Ok_bind, st_ok by mlia.
  eexists. split; [done|]. split; [apply zlen_zset|]. intros j. rewrite bit_zset by (done || mlia). do 2 f_equal. mlia.
Qed.

(** A loop that sets the bits that satisfy [c]. *)
Lemma set_bits_ok (c : Z -> bool) n body : 0 <= n <= 8 * MKFS_BLOCK_SIZE ->
  (forall i bm, body i bm = if c i then set_bit bm i else Ok bm) ->
  exists bm, for_ 0 n body (zeros MKFS_BLOCK_SIZE) = Ok bm /\ zlen bm = 1024 /\ forall i, bit bm i = (0 <=? i) && (i <? n) && c i.
Proof.
  intros Hn Hb.
  pose proof (for_post (fun j bm => zlen bm = 1024 /\ forall i, bit bm i = (0 <=? i) && (i <? j) && c i) (fun _ => False) 0 n body (zeros MKFS_BLOCK_SIZE)) as H.
  cbv beta in H. assert (total (fun bm => zlen bm = 1024 /\ forall i, bit bm i = (0 <=? i) && (i <? n) && c i) (for_ 0 n body (zeros MKFS_BLOCK_SIZE))) as Ht.
  { apply H; [lia| |].
    - split; [done|]. intros i. rewrite bit_zeros. destruct (Z.leb_spec 0 i), (Z.ltb_spec i 0); try lia; done.
    - intros j bm Hj [Hl Hbm]. rewrite Hb. destruct (c j) eqn:Ec.
      + destruct (set_bit_ok bm j) as (bm' & -> & Hl' & Hbit); [unfold MKFS_BLOCK_SIZE in *; lia|]. split; [lia|]. intros i. rewrite Hbit, Hbm.
        destruct (Z.eqb_spec i j) as [->|]; [rewrite Ec|]; zcases; try done; try lia.
      + split; [done|]. intros i. rewrite Hbm. destruct (Z.eqb_spec i j) as [->|]; [rewrite Ec, !andb_false_r; done|]. zcases; try done; try lia. }
  apply total_Ok in Ht as (bm & E & Hl & Hbm). by exists bm.
Qed.

Lemma block_bitmap_ok m meta_end g : exists bm, mkfs_block_bitmap m meta_end g = Ok bm /\ zlen bm = 1024 /\
  forall i, 0 <= i < 8192 -> bit bm i = (m_blocks_count m <=? m_first_data_block m + g * 8192 + i) || (m_first_data_block m + g * 8192 + i <? meta_end + 2).
Proof.
  unfold mkfs_block_bitmap, MKFS_BLOCKS_PER_GROUP.
  destruct (set_bits_ok (fun i => (m_blocks_count m <=? m_first_data_block m + g * 8192 + i) || (m_first_data_block m + g * 8192 + i <? meta_end + 2)) 8192
    (fun i bm => if (m_blocks_count m <=? m_first_data_block m + g * 8192 + i) || (m_first_data_block m + g * 8192 + i <? meta_end + 2) then set_bit bm i else Ok bm))
    as (bm & E & Hl & Hb); [unfold MKFS_BLOCK_SIZE; lia|done|]. exists bm. split; [exact E|]. split; [done|]. intros i Hi. rewrite Hb.
  destruct (Z.leb_spec 0 i); [|lia]. destruct (Z.ltb_spec i 8192); [|lia]. done.
Qed.

Lemma inode_bitmap_ok g : exists bm, mkfs_inode_bitmap g = Ok bm /\ zlen bm = 1024 /\ forall i, 0 <= i -> bit bm i = (g =? 0) && (i <? 11).
Proof.
  unfold mkfs_inode_bitmap. destruct (Z.eqb_spec g 0) as [->|Hg].
  - destruct (set_bits_ok (fun _ => true) EXT2_LOSTFOUND_INO (fun i bm => set_bit bm i)) as (bm & E & Hl & Hb); [unfold EXT2_LOSTFOUND_INO, MKFS_BLOCK_SIZE; lia|done|].
    exists bm. split; [exact E|]. split; [done|]. intros i Hi. rewrite Hb. destruct (Z.leb_spec 0 i); [|lia]. by rewrite andb_true_r.
  - exists (zeros MKFS_BLOCK_SIZE). split; [done|]. split; [done|]. intros i _. by rewrite bit_zeros.
Qed.

(** A block of a table with one directory in it. *)
Lemma dir_inode_ok raw b : 0 <= raw -> raw + 128 <= 1024 -> 0 <= b < 2 ^ 32 ->
  exists l, mkfs_dir_inode raw b = Ok l /\ zlen l = 1024 /\ decoded l raw = mk_inode 16877 1024 (b :: zeros 14) /\
    forall j, 0 <= j < 1024 -> j < raw \/ raw + 100 <= j -> zget l j = Some 0.
Proof.
  intros Hr1 Hr2 Hb. unfold mkfs_dir_inode, INO_OFF_MODE, INO_OFF_SIZE, INO_OFF_BLOCK. rewrite Z.add_0_r.
  set (z := zeros MKFS_BLOCK_SIZE). assert (zlen z = 1024) as Hz by done.
  destruct (splice_field z raw (le16 16877)) as (l1 & -> & Hl1 & Ho1 & Hf1); [lia|rewrite zlen_le16; lia|]. rewrite Ok_bind.
  destruct (splice_field l1 (raw + 4) (le32 MKFS_BLOCK_SIZE)) as (l2 & -> & Hl2 & Ho2 & Hf2); [lia|rewrite zlen_le32; lia|]. rewrite Ok_bind.
  destruct (splice_field l2 (raw + 40) (le32 b)) as (l3 & -> & Hl3 & Ho3 & Hf3); [lia|rewrite zlen_le32; lia|].
  rewrite zlen_le16 in *. rewrite zlen_le32 in *. exists l3. split; [done|]. split; [lia|].
  assert (forall j, 0 <= j < 1024 -> (j < raw \/ raw + 2 <= j < raw + 4 \/ raw + 8 <= j < raw + 40 \/ raw + 44 <= j) -> zget l3 j = Some 0) as Hzero.
  { intros j Hj Hout. rewrite Ho3, Ho2, Ho1 by lia. by apply zget_zeros. }
  split; [|intros j Hj Hout; apply Hzero; lia]. unfold decoded. f_equal.
  - unfold w16, ld16. rewrite (le_bytes_ext 2 l3 l1 raw raw) by (intros j Hj; rewrite Ho3, Ho2 by lia; done).
    pose proof (Hf1 2%nat 0 ltac:(lia) ltac:(lia)) as E. rewrite Z.add_0_r in E. by rewrite E.
  - unfold w32, ld32. rewrite (le_bytes_ext 4 l3 l2 (raw + 4) (raw + 4)) by (intros j Hj; rewrite Ho3 by lia; done).
    pose proof (Hf2 4%nat 0 ltac:(lia) ltac:(lia)) as E. rewrite Z.add_0_r in E. by rewrite E.
  - change (seqZ 0 15) with (0 :: seqZ 1 14). cbn [fmap list_fmap]. f_equal.
    + rewrite Z.mul_0_r, Z.add_0_r. unfold w32, ld32. pose proof (Hf3 4%nat 0 ltac:(lia) ltac:(lia)) as E. rewrite Z.add_0_r in E. rewrite E.
      pose proof (ld32_at [] b [] Hb) as E0. cbn [app] in E0. rewrite app_nil_r in E0. unfold ld32 in E0. change (zlen []) with 0 in E0. by rewrite E0.
    + apply list_eq. intros k. unfold zeros. rewrite list_lookup_fmap. destruct (decide (k < 14)%nat) as [Hk|Hk].
      * rewrite lookup_seqZ_lt by lia. rewrite lookup_replicate_2 by lia. cbn [fmap option_fmap option_map]. f_equal. unfold w32, ld32.
        cbn [le_bytes]. unfold ld. rewrite !Hzero by lia. done.
      * rewrite lookup_seqZ_ge by lia. cbn. symmetry. apply lookup_replicate_None. lia.
Qed.

Lemma le_bytes_zero n l o : (forall i, 0 <= i < Z.of_nat n -> zget l (o + i) = Some 0) -> le_bytes n l o = Ok 0.
Proof.
  revert o. induction n as [|n IH]; intros o Hz; [done|]. cbn [le_bytes]. pose proof (Hz 0 ltac:(lia)) as E. rewrite Z.add_0_r in E.
  rewrite (ld_ok _ _ _ E), Ok_bind, IH; [done|]. intros i Hi. rewrite <- Z.add_assoc. apply Hz. lia.
Qed.

Lemma decoded_zeros l off : (forall i, 0 <= i < 100 -> zget l (off + i) = Some 0) -> decoded l off = mk_inode 0 0 (zeros 15).
Proof.
  intros Hz. assert (forall n o, 0 <= o -> o + Z.of_nat n <= 100 -> le_bytes n l (off + o) = Ok 0) as Hle.
  { intros n o Ho Hn. apply le_bytes_zero. intros i Hi. rewrite <- Z.add_assoc. apply Hz. lia. }
  unfold decoded. f_equal.
  - unfold w16, ld16. pose proof (Hle 2%nat 0 ltac:(lia) ltac:(lia)) as E. rewrite Z.add_0_r in E. by rewrite E.
  - unfold w32, ld32. by rewrite Hle by lia.
  - apply list_eq. intros k. unfold zeros. rewrite list_lookup_fmap. destruct (decide (k < 15)%nat) as [Hk|Hk].
    + rewrite lookup_seqZ_lt by lia. rewrite lookup_replicate_2 by lia. cbn [fmap option_fmap option_map]. f_equal.
      unfold w32, ld32. rewrite <- Z.add_assoc. by rewrite Hle by lia.
    + rewrite lookup_seqZ_ge by lia. cbn. symmetry. apply lookup_replicate_None. lia.
Qed.

(** An entry put behind the entries of a block. *)
Lemma put_next ds n ino rec name ft : Forall dent_ok ds -> 0 < ino < 2 ^ 32 -> 0 < zlen name <= 255 -> 8 + zlen name <= rec <= n -> rec < 65536 ->
  exists d, dirent_put (dents ds ++ zeros n) (zlen (dents ds)) ino rec name ft = Ok (dents (ds ++ [d]) ++ zeros (n - rec)) /\
    dent_ok d /\ de_rec d = rec /\ de_live d = Some (ino, name, ft).
Proof.
  intros Hok Hi Hn Hr Hr'. set (X := zeros rec). assert (zlen X = rec) as HX by (apply zlen_zeros; lia).
  assert (zeros n = X ++ zeros (n - rec)) as ->. { unfold X, zeros. rewrite <- replicate_add. f_equal. lia. }
  set (d := new_dent ino name ft (drop (Z.to_nat (8 + zlen name)) X)). exists d.
  assert (de_rec d = rec) as Er. { unfold d, new_dent, de_rec. cbn [de_body]. rewrite zlen_app. unfold zlen in *. rewrite length_drop. lia. }
  rewrite dirent_put_at by lia. split; [|split; [|split; [done|by apply new_dent_live]]].
  - f_equal. rewrite dents_app, <- (app_assoc (dents ds) (dents [d])). f_equal. change (dents [d]) with (de_bytes d ++ []). rewrite app_nil_r. unfold de_bytes. rewrite Er.
    unfold d, new_dent. cbn [de_ino de_nl de_ft de_body]. by rewrite <- ?app_assoc.
  - apply new_dent_ok; [done|done|]. fold d. lia.
Qed.

Lemma dents_len_snoc ds d : zlen (dents (ds ++ [d])) = zlen (dents ds) + de_rec d.
Proof. rewrite dents_app, zlen_app. change (dents [d]) with (de_bytes d ++ []). by rewrite app_nil_r, zlen_de_bytes. Qed.

Lemma root_dir_ok : exists ds, mkfs_root_dir = Ok (dents ds) /\ Forall dent_ok ds /\ zlen (dents ds) = 1024 /\
  live ds = [(EXT2_ROOT_INO, dot, EXT2_FT_DIR); (EXT2_ROOT_INO, dotdot, EXT2_FT_DIR); (EXT2_LOSTFOUND_INO, lost_found, EXT2_FT_DIR)].
Proof.
  unfold mkfs_root_dir. change MKFS_BLOCK_SIZE with 1024.
  destruct (put_next [] 1024 EXT2_ROOT_INO 12 dot EXT2_FT_DIR) as (d1 & E1 & H1 & R1 & V1); [by apply Forall_nil|done|done|done|done|].
  cbn [app] in E1. change (dents []) with (@nil Z) in E1. cbn [app] in E1. change (zlen []) with 0 in E1. rewrite E1, Ok_bind.
  destruct (put_next [d1] (1024 - 12) EXT2_ROOT_INO 12 dotdot EXT2_FT_DIR) as (d2 & E2 & H2 & R2 & V2); [by apply Forall_singleton|done|done|done|done|].
  assert (zlen (dents [d1]) = 12) as L1 by (change [d1] with ([] ++ [d1]); rewrite dents_len_snoc, R1; done). rewrite L1 in E2. rewrite E2, Ok_bind. cbn [app].
  destruct (put_next [d1; d2] (1024 - 12 - 12) EXT2_LOSTFOUND_INO (u16 (1024 - 24)) lost_found EXT2_FT_DIR) as (d3 & E3 & H3 & R3 & V3); [by repeat apply Forall_cons_2|done|done|done|done|].
  assert (zlen (dents [d1; d2]) = 24) as L2 by (change [d1; d2] with ([d1] ++ [d2]); rewrite dents_len_snoc, L1, R2; done). rewrite L2 in E3. rewrite E3.
  exists [d1; d2; d3]. cbn [app]. change (zeros (1024 - 12 - 12 - u16 (1024 - 24))) with (@nil Z). rewrite app_nil_r. split; [done|].
  split; [by repeat apply Forall_cons_2|]. split; [change [d1; d2; d3] with ([d1; d2] ++ [d3]); rewrite dents_len_snoc, L2, R3; done|].
  unfold live. cbn [omap list_omap]. by rewrite V1, V2, V3.
Qed.

Lemma lost_found_dir_ok : exists ds, mkfs_lost_found_dir = Ok (dents ds) /\ Forall dent_ok ds /\ zlen (dents ds) = 1024 /\
  live ds = [(EXT2_LOSTFOUND_INO, dot, EXT2_FT_DIR); (EXT2_ROOT_INO, dotdot, EXT2_FT_DIR)].
Proof.
  unfold mkfs_lost_found_dir. change MKFS_BLOCK_SIZE with 1024.
  destruct (put_next [] 1024 EXT2_LOSTFOUND_INO 12 dot EXT2_FT_DIR) as (d1 & E1 & H1 & R1 & V1); [by apply Forall_nil|done|done|done|done|].
  cbn [app] in E1. change (dents []) with (@nil Z) in E1. cbn [app] in E1. change (zlen []) with 0 in E1. rewrite E1, Ok_bind.
  destruct (put_next [d1] (1024 - 12) EXT2_ROOT_INO (u16 (1024 - 12)) dotdot EXT2_FT_DIR) as (d2 & E2 & H2 & R2 & V2); [by apply Forall_singleton|done|done|done|done|].
  assert (zlen (dents [d1]) = 12) as L1 by (change [d1] with ([] ++ [d1]); rewrite dents_len_snoc, R1; done). rewrite L1 in E2. rewrite E2.
  exists [d1; d2]. cbn [app]. change (zeros (1024 - 12 - u16 (1024 - 12))) with (@nil Z). rewrite app_nil_r. split; [done|].
  split; [by repeat apply Forall_cons_2|]. split; [change [d1; d2] with ([d1] ++ [d2]); rewrite dents_len_snoc, L1, R2; done|].
  unfold live. cbn [omap list_omap]. by rewrite V1, V2.
Qed.

(** A field of a block is set: it reads back, and the others stay. *)
Lemma put32 l o v : 0 <= o -> o + 4 <= zlen l -> 0 <= v < 2 ^ 32 ->
  exists l', splice l o (le32 v) = Ok l' /\ zlen l' = zlen l /\ ld32 l' o = Ok v /\
    forall n p, p + Z.of_nat n <= o \/ o + 4 <= p -> le_bytes n l' p = le_bytes n l p.
Proof.
  intros Ho Hl Hv. destruct (splice_field l o (le32 v)) as (l' & -> & Hl' & Hout & Hin); [lia|rewrite zlen_le32; lia|]. rewrite zlen_le32 in *.
  exists l'. split; [done|]. split; [done|]. split.
  - pose proof (Hin 4%nat 0 ltac:(lia) ltac:(lia)) as E. rewrite Z.add_0_r in E. unfold ld32. rewrite E.
    pose proof (ld32_at [] v [] Hv) as E0. cbn [app] in E0. rewrite app_nil_r in E0. exact E0.
  - intros n p Hp. apply le_bytes_ext. intros i Hi. apply Hout. lia.
Qed.

Lemma put16 l o v : 0 <= o -> o + 2 <= zlen l -> 0 <= v < 65536 ->
  exists l', splice l o (le16 v) = Ok l' /\ zlen l' = zlen l /\ ld16 l' o = Ok v /\
    forall n p, p + Z.of_nat n <= o \/ o + 2 <= p -> le_bytes n l' p = le_bytes n l p.
Proof.
  intros Ho Hl Hv. destruct (splice_field l o (le16 v)) as (l' & -> & Hl' & Hout & Hin); [lia|rewrite zlen_le16; lia|]. rewrite zlen_le16 in *.
  exists l'. split; [done|]. split; [done|]. split.
  - pose proof (Hin 2%nat 0 ltac:(lia) ltac:(lia)) as E. rewrite Z.add_0_r in E. unfold ld16. rewrite E.
    pose proof (ld16_at [] v [] Hv) as E0. cbn [app] in E0. rewrite app_nil_r in E0. exact E0.
  - intros n p Hp. apply le_bytes_ext. intros i Hi. apply Hout. lia.
Qed.

(** The fields of the superblock that [ext2_probe_m] reads. *)
Definition super_block (ic bc : Z) (sb : list Z) : Prop :=
  ld16 sb SB_OFF_MAGIC = Ok EXT2_SUPER_MAGIC /\ ld32 sb SB_OFF_INODES_COUNT = Ok ic /\ ld32 sb SB_OFF_BLOCKS_COUNT = Ok bc /\
  ld32 sb SB_OFF_FIRST_DATA_BLOCK = Ok 1 /\ ld32 sb SB_OFF_LOG_BLOCK_SIZE = Ok 0 /\ ld32 sb SB_OFF_BLOCKS_PER_GROUP = Ok 8192 /\
  ld32 sb SB_OFF_INODES_PER_GROUP = Ok 2048 /\ ld32 sb SB_OFF_REV_LEVEL = Ok 1 /\ ld16 sb SB_OFF_INODE_SIZE = Ok 128.

Ltac put_field L := let l := fresh "l" in let H := fresh "K" in
  destruct L as (l & -> & ? & ? & H); [lia|lia|done || lia|]; rewrite ?Ok_bind.

Lemma super_ok m : 0 <= m_inodes_count m < 2 ^ 32 -> 0 <= m_blocks_count m < 2 ^ 32 ->
  m_first_data_block m = 1 -> m_blocks_per_group m = 8192 -> m_inodes_per_group m = 2048 ->
  exists sb, mkfs_super m = Ok sb /\ zlen sb = 1024 /\ super_block (m_inodes_count m) (m_blocks_count m) sb.
Proof.
  intros Hi Hb E1 E2 E3. unfold mkfs_super. rewrite E1, E2, E3.
  set (z := zeros MKFS_BLOCK_SIZE). assert (zlen z = 1024) as Hz by done. clearbody z.
  unfold SB_OFF_INODES_COUNT, SB_OFF_BLOCKS_COUNT, SB_OFF_FIRST_DATA_BLOCK, SB_OFF_LOG_BLOCK_SIZE, SB_OFF_BLOCKS_PER_GROUP, SB_OFF_FRAGS_PER_GROUP,
    SB_OFF_INODES_PER_GROUP, SB_OFF_MAGIC, SB_OFF_STATE, SB_OFF_REV_LEVEL, SB_OFF_FIRST_INO, SB_OFF_INODE_SIZE.
  put_field (put32 z 0 (m_inodes_count m)). put_field (put32 l 4 (m_blocks_count m)). put_field (put32 l0 20 1). put_field (put32 l1 24 0).
  put_field (put32 l2 32 8192). put_field (put32 l3 36 8192). put_field (put32 l4 40 2048). put_field (put16 l5 56 EXT2_SUPER_MAGIC).
  put_field (put16 l6 58 1). put_field (put32 l7 76 1). put_field (put32 l8 84 11). put_field (put16 l9 88 MKFS_INODE_SIZE).
  exists l10. split; [done|]. split; [lia|]. unfold super_block, SB_OFF_MAGIC, SB_OFF_INODES_COUNT, SB_OFF_BLOCKS_COUNT, SB_OFF_FIRST_DATA_BLOCK, SB_OFF_LOG_BLOCK_SIZE,
    SB_OFF_BLOCKS_PER_GROUP, SB_OFF_INODES_PER_GROUP, SB_OFF_REV_LEVEL, SB_OFF_INODE_SIZE, ld16, ld32 in *.
  split_and!; try done; repeat first [eassumption | match goal with K : forall n p, _ -> le_bytes n ?x p = _ |- context [le_bytes _ ?x _] => rewrite K by lia end].
Qed.

(** ** The phases of mkfs *)

Section phases.
Context {D : Type} {drv : BlkDriver D} {laws : BlkLaws D} (sc : Z) (F : mkfs_fits sc).

Notation m := (mkfs_mount sc).
Notation seen := (sees m false).
Notation ng := (mkfs_ngroups sc).

Lemma mkfs_sized : sized m.
Proof. pose proof (fits_bounds sc F). split_and!; cbn; try done; lia. Qed.

Lemma write_sure b buf s Q (w : world D) : seen w s -> 0 <= b < sc / 2 -> zlen buf = 1024 ->
  (forall w', seen w' (upd s b buf) -> Q (Some tt) w') -> wp (m_write_block m b buf) Q w.
Proof. intros Hs Hb Hl HQ. by apply (wp_write m false b buf s Q w mkfs_sized Hs Hb Hl). Qed.

Lemma zero_blocks_wp n b s (w : world D) : seen w s -> 0 <= b -> b + Z.of_nat n <= sc / 2 ->
  wp (zero_blocks m n b) (fun o w' => o = Some tt /\ exists s', seen w' s' /\
    (forall x, b <= x < b + Z.of_nat n -> s' x = zeros 1024) /\ (forall x, ~ b <= x < b + Z.of_nat n -> s' x = s x)) w.
Proof.
  revert b s w. induction n as [|n IH]; intros b s w Hs Hb Hn; cbn [zero_blocks].
  { apply wp_ret. split; [done|]. exists s. split; [done|]. split; [lia|done]. }
  apply wp_bind, wp_attempt, (write_sure b (zeros 1024) s); [done|lia|done|]. intros w1 Hs1.
  eapply wp_mono; [apply (IH (b + 1) _ w1 Hs1); lia|]. intros o w' (-> & s' & Hs' & Hin & Hout). split; [done|]. exists s'. split; [done|]. split.
  - intros x Hx. destruct (decide (x = b)) as [->|Hne]; [rewrite Hout by lia; apply upd_eq|apply Hin; lia].
  - intros x Hx. rewrite Hout by lia. apply upd_ne. lia.
Qed.

(** A bitmap for each group, at the blocks of a table. *)
Lemma write_bitmaps_wp k (bitmap : Z -> res (list Z)) (P : Z -> list Z -> Prop) n g s (w : world D) :
  0 <= k < 2 -> (forall h, 0 <= h < ng -> exists bm, bitmap h = Ok bm /\ zlen bm = 1024 /\ P h bm) -> seen w s -> 0 <= g -> g + Z.of_nat n = ng ->
  wp (write_bitmaps m (mkfs_table sc k) bitmap n g) (fun o w' => o = Some tt /\ exists s', seen w' s' /\
    (forall h, g <= h < ng -> P h (s' (tab (mkfs_table sc k) h))) /\
    (forall x, (forall h, g <= h < ng -> x <> tab (mkfs_table sc k) h) -> s' x = s x)) w.
Proof.
  intros Hk Hbm. pose proof (fits_bounds sc F) as (Hng & Hgdt & _ & _ & Hme & Hfit & Hsc).
  revert g s w. induction n as [|n IH]; intros g s w Hs Hg Hn; cbn [write_bitmaps].
  { apply wp_ret. split; [done|]. exists s. split; [done|]. split; [lia|done]. }
  destruct (Hbm g ltac:(lia)) as (bm & E & Hl & HP). apply wp_bind. eapply wp_lift; [exact E|].
  apply wp_bind. eapply wp_lift; [apply ld_tab; rewrite zlen_mkfs_table; lia|].
  apply wp_bind, (write_sure _ bm s); [done|rewrite tab_mkfs by (done || lia); lia|done|]. intros w1 Hs1.
  eapply wp_mono; [apply (IH (g + 1) _ w1 Hs1); lia|]. intros o w' (-> & s' & Hs' & Hin & Hout). split; [done|]. exists s'. split; [done|]. split.
  - intros h Hh. destruct (decide (h = g)) as [->|Hne]; [|apply Hin; lia]. rewrite Hout; [by rewrite upd_eq|].
    intros h Hh'. rewrite !tab_mkfs by (done || lia). lia.
  - intros x Hx. rewrite Hout by (intros h Hh; apply Hx; lia). apply upd_ne. apply Hx. lia.
Qed.

(** ** The descriptors *)

Definition desc (l : list Z) (g : Z) : Prop :=
  forall k, 0 <= k < 3 -> ld32 l (g * 32 mod 1024 + 4 * k) = Ok (tab (mkfs_table sc k) g).

Lemma table_word k g : 0 <= k < 3 -> 0 <= g < ng -> 0 <= tab (mkfs_table sc k) g < 2 ^ 32.
Proof.
  intros Hk Hg. pose proof (fits_bounds sc F) as (Hng & Hgdt & _ & _ & Hme & Hfit & Hsc). rewrite tab_mkfs by done.
  change (2 ^ 32) with 4294967296. change (2 ^ 31) with 2147483648 in Hsc. lia.
Qed.

Lemma desc_put gd g : zlen gd = 1024 -> 0 <= g < ng ->
  exists g1 g2 g3, splice gd (g * 32 mod 1024 + 0) (le32 (tab (mkfs_table sc 0) g)) = Ok g1 /\
    splice g1 (g * 32 mod 1024 + 4) (le32 (tab (mkfs_table sc 1) g)) = Ok g2 /\
    splice g2 (g * 32 mod 1024 + 8) (le32 (tab (mkfs_table sc 2) g)) = Ok g3 /\
    zlen g3 = 1024 /\ desc g3 g /\ forall h, 0 <= h -> h / 32 = g / 32 -> h <> g -> desc gd h -> desc g3 h.
Proof.
  intros Hl Hg. set (o := g * 32 mod 1024). assert (0 <= o /\ o + 32 <= 1024) as [Ho Ho'] by (subst o; mlia).
  destruct (put32 gd (o + 0) (tab (mkfs_table sc 0) g)) as (g1 & E1 & L1 & R1 & K1); [lia|lia|by apply table_word|].
  destruct (put32 g1 (o + 4) (tab (mkfs_table sc 1) g)) as (g2 & E2 & L2 & R2 & K2); [lia|lia|by apply table_word|].
  destruct (put32 g2 (o + 8) (tab (mkfs_table sc 2) g)) as (g3 & E3 & L3 & R3 & K3); [lia|lia|by apply table_word|].
  exists g1, g2, g3. split; [done|]. split; [done|]. split; [done|]. split; [lia|]. unfold ld32 in *. split.
  - intros k Hk. fold o. unfold ld32. assert (k = 0 \/ k = 1 \/ k = 2) as [->|[->| ->]] by lia.
    + by rewrite K3, K2 by lia.
    + by rewrite K3 by lia.
    + done.
  - intros h Hh Hb Hne Hd k Hk. unfold ld32. rewrite K3, K2, K1; [by apply Hd|..]; subst o; mlia.
Qed.

Lemma write_gdt_wp n g gd s (w : world D) : seen w s -> 0 <= g -> g + Z.of_nat n = ng -> zlen gd = 1024 ->
  (forall h, 0 <= h < g -> h / 32 < g / 32 \/ g = ng -> desc (s (2 + h / 32)) h) ->
  (forall h, 0 <= h < g -> h / 32 = g / 32 -> g < ng -> desc gd h) ->
  wp (write_gdt m n g gd) (fun o w' => o = Some tt /\ exists s', seen w' s' /\
    (forall h, 0 <= h < ng -> desc (s' (2 + h / 32)) h) /\ (forall x, ~ 2 <= x < 2 + mkfs_gdt_blocks sc -> s' x = s x)) w.
Proof.
  pose proof (fits_bounds sc F) as (Hng & Hgdt & _ & Hgb & Hme & Hfit & Hsc).
  revert g gd s w. induction n as [|n IH]; intros g gd s w Hs Hg Hn Hl HA HB; cbn [write_gdt].
  { apply wp_ret. split; [done|]. exists s. split; [done|]. split; [|done]. intros h Hh. apply HA; lia. }
  unfold GD_OFF_BLOCK_BITMAP, GD_OFF_INODE_BITMAP, GD_OFF_INODE_TABLE, MKFS_BLOCK_SIZE.
  destruct (desc_put gd g Hl ltac:(lia)) as (g1 & g2 & g3 & E1 & E2 & E3 & L3 & Hd & Hk).
  do 3 (apply wp_bind; eapply wp_lift; [apply ld_tab; cbn; rewrite zlen_mkfs_table; lia|]).
  apply wp_bind; eapply wp_lift; [exact E1|]. apply wp_bind; eapply wp_lift; [exact E2|]. apply wp_bind; eapply wp_lift; [exact E3|].
  assert (forall h, 0 <= h < g + 1 -> h / 32 = g / 32 -> desc g3 h) as Hg3.
  { intros h Hh Hb. destruct (decide (h = g)) as [->|Hne]; [done|]. apply Hk; [lia|done|done|]. apply HB; lia. }
  destruct ((g + 1 =? m_ngroups m) || ((g + 1) * 32 mod 1024 =? 0)) eqn:Efl.
  - assert (g + 1 = ng \/ (g + 1) * 32 mod 1024 = 0) as Hfl.
    { apply orb_prop in Efl as [Efl|Efl]; apply Z.eqb_eq in Efl; [by left|by right]. }
    assert (2 + g * 32 / 1024 = 2 + g / 32) as -> by mlia. apply wp_bind, (write_sure _ g3 s); [done|mlia|done|]. intros w1 Hs1.
    eapply wp_mono; [apply (IH (g + 1) _ _ w1 Hs1)|]; [lia|lia| | | |].
    + destruct (_ <? _); done.
    + intros h Hh _. destruct (decide (h / 32 = g / 32)) as [E|E]; [rewrite E, upd_eq; by apply Hg3|].
      rewrite upd_ne by lia. apply HA; mlia.
    + intros h Hh E Hlt. exfalso. destruct Hfl as [Hfl|Hfl]; mlia.
    + intros o w' (-> & s' & Hs' & Hin & Hout). split; [done|]. exists s'. split; [done|]. split; [done|].
      intros x Hx. rewrite Hout by done. apply upd_ne. mlia.
  - apply orb_false_iff in Efl as [Ef1 Ef2]. apply Z.eqb_neq in Ef1, Ef2. cbn [m_ngroups mkfs_mount] in Ef1.
    assert ((g + 1) / 32 = g / 32) as Eb by mlia.
    eapply wp_mono; [apply (IH (g + 1) g3 s w Hs)|]; [lia|lia|lia| | |done].
    + intros h Hh [Hlt|?]; [|lia]. apply HA; [mlia|left; lia].
    + intros h Hh Eh _. apply Hg3; [done|lia].
Qed.
End phases.

(** ** The file system that mkfs writes *)

Section made.
Context (sc : Z).

Notation ng := (mkfs_ngroups sc).
Notation meta_end := (mkfs_meta_end sc).

(** A block of an inode table with the directory at [blk] at [raw]. *)
Definition dir_slot (raw blk : Z) (l : list Z) : Prop :=
  decoded l raw = mk_inode 16877 1024 (blk :: zeros 14) /\ forall j, 0 <= j < 1024 -> j < raw \/ raw + 100 <= j -> zget l j = Some 0.

Record made (dr dl : list dent) (s0 s : store) : Prop := {
  md_super : super_block (ng * 2048) (sc / 2) (s 1);
  md_desc g : 0 <= g < ng -> desc sc (s (2 + g / 32)) g;
  md_blocks g i : 0 <= g < ng -> 0 <= i < 8192 ->
    bit (s (tab (mkfs_table sc 0) g)) i = (sc / 2 <=? 1 + g * 8192 + i) || (1 + g * 8192 + i <? meta_end + 2);
  md_inodes g i : 0 <= g < ng -> 0 <= i -> bit (s (tab (mkfs_table sc 1) g)) i = (g =? 0) && (i <? 11);
  md_root : s meta_end = dents dr;
  md_lost : s (meta_end + 1) = dents dl;
  md_root_inode : dir_slot 128 meta_end (s (tab (mkfs_table sc 2) 0));
  md_lost_inode : dir_slot 256 (meta_end + 1) (s (tab (mkfs_table sc 2) 0 + 1));
  md_tables g k : 0 <= g < ng -> 0 <= k < 256 -> g <> 0 \/ 2 <= k -> s (tab (mkfs_table sc 2) g + k) = zeros 1024;
  md_rest b : meta_end + 2 <= b < sc / 2 -> s b = s0 b;
}.
End made.

Section mkfs.
Context {D : Type} {drv : BlkDriver D} {laws : BlkLaws D} (sc : Z) (F : mkfs_fits sc).

Notation m := (mkfs_mount sc).
Notation seen := (sees m false).
Notation ng := (mkfs_ngroups sc).
Notation meta_end := (mkfs_meta_end sc).

Lemma mkfs_write_wp gd s (w : world D) : seen w s -> zlen gd = 1024 ->
  exists dr dl, mkfs_root_dir = Ok (dents dr) /\ mkfs_lost_found_dir = Ok (dents dl) /\
  wp (mkfs_write m meta_end gd) (fun o w' => o = Some tt /\ exists s', seen w' s' /\ made sc dr dl s s') w.
Proof.
  intros Hs Hgd. pose proof (fits_bounds sc F) as (Hng & Hgdt & _ & Hgb & Hme & Hfit & Hsc).
  destruct root_dir_ok as (dr & Er & _ & Hlr & _). destruct lost_found_dir_ok as (dl & El & _ & Hll & _).
  exists dr, dl. split; [done|]. split; [done|]. unfold mkfs_write.
  destruct (dir_inode_ok 128 meta_end) as (ir & Eir & Hir & Hdr & Hzr); [lia|lia|change (2 ^ 31) with 2147483648 in Hsc; change (2 ^ 32) with 4294967296; lia|].
  destruct (dir_inode_ok 256 (meta_end + 1)) as (il & Eil & Hil & Hdl & Hzl); [lia|lia|change (2 ^ 31) with 2147483648 in Hsc; change (2 ^ 32) with 4294967296; lia|].
  destruct (super_ok m) as (sb & Esb & Hsb & Hsup); [change (2 ^ 32) with 4294967296; cbn; unfold MKFS_INODES_PER_GROUP; lia|change (2 ^ 32) with 4294967296; change (2 ^ 31) with 2147483648 in Hsc; cbn; lia|done|done|done|].
  assert (forall k g, 0 <= g < ng -> tab (mkfs_table sc k) g = 2 + mkfs_gdt_blocks sc + g * 258 + k) as Htab by (intros; by apply tab_mkfs).
  apply wp_bind. eapply wp_mono; [apply (zero_blocks_wp sc F _ 1 s); [done|lia|lia]|]. intros ? w1 (-> & s1 & Hs1 & Z1 & R1).
  apply wp_bind. eapply wp_mono; [apply (write_gdt_wp sc F _ 0 gd s1); [done|lia|cbn; lia|done|lia|lia]|]. intros ? w2 (-> & s2 & Hs2 & G2 & R2).
  apply wp_bind. eapply wp_mono; [apply (write_bitmaps_wp sc F 0 _ (fun h bm => forall i, 0 <= i < 8192 -> bit bm i = (sc / 2 <=? 1 + h * 8192 + i) || (1 + h * 8192 + i <? meta_end + 2)) _ 0 s2);
    [lia|intros h _; apply (block_bitmap_ok m meta_end h)|done|lia|cbn; lia]|]. intros ? w3 (-> & s3 & Hs3 & B3 & R3).
  apply wp_bind. eapply wp_mono; [apply (write_bitmaps_wp sc F 1 _ (fun h bm => forall i, 0 <= i -> bit bm i = (h =? 0) && (i <? 11)) _ 0 s3);
    [lia|intros h _; apply (inode_bitmap_ok h)|done|lia|cbn; lia]|]. intros ? w4 (-> & s4 & Hs4 & I4 & R4).
  apply wp_bind. eapply wp_lift; [exact Er|]. apply wp_bind, (write_sure sc F _ _ s4); [done|lia|done|]. intros w5 Hs5.
  apply wp_bind. eapply wp_lift; [exact El|]. apply wp_bind. eapply write_sure; [done|exact Hs5|lia|done|]. intros w6 Hs6.
  apply wp_bind. eapply wp_lift; [apply ld_tab; cbn; rewrite zlen_mkfs_table; lia|]. cbn [m_inode_table mkfs_mount].
  apply wp_bind. eapply wp_lift; [exact Eir|]. apply wp_bind. eapply write_sure; [done|exact Hs6|rewrite Htab by lia; lia|done|]. intros w7 Hs7.
  apply wp_bind. eapply wp_lift; [exact Eil|]. apply wp_bind. eapply write_sure; [done|exact Hs7|rewrite Htab by lia; lia|done|]. intros w8 Hs8.
  apply wp_bind. eapply wp_lift; [exact Esb|]. eapply write_sure; [done|exact Hs8|lia|done|]. intros w9 Hs9.
  split; [done|]. eexists. split; [exact Hs9|]. rewrite Htab by lia.
  split; intros.
  - by rewrite upd_eq.
  - rewrite !upd_ne by mlia. rewrite R4, R3 by (intros h Hh; rewrite Htab by done; mlia). by apply G2.
  - rewrite Htab by lia. rewrite !upd_ne by lia. rewrite R4 by (intros h Hh; rewrite Htab by done; lia). rewrite <- (Htab 0 g) by lia. by apply B3.
  - rewrite Htab by lia. rewrite !upd_ne by lia. rewrite <- (Htab 1 g) by lia. by apply I4.
  - rewrite !upd_ne by lia. apply upd_eq.
  - rewrite !upd_ne by lia. apply upd_eq.
  - rewrite Htab by lia. rewrite !upd_ne by lia. by rewrite upd_eq.
  - rewrite Htab by lia. rewrite upd_ne by lia. by rewrite upd_eq.
  - rewrite Htab by lia. rewrite !upd_ne by lia. rewrite R4, R3 by (intros h Hh; rewrite Htab by done; lia). rewrite R2 by lia. apply Z1. lia.
  - rewrite !upd_ne by lia. rewrite R4, R3 by (intros h Hh; rewrite Htab by done; lia). rewrite R2 by lia. apply R1. lia.
Qed.
End mkfs.

(** ** The invariant holds of it *)

Section made_inv.
Context (sc : Z) (wr : bool) (F : mkfs_fits sc) (dr dl : list dent) (s0 s : store) (M : made sc dr dl s0 s).
Hypothesis Hblank : forall b, mkfs_meta_end sc + 2 <= b < sc / 2 -> s0 b = zeros 1024.

Notation m := (mkfs_mounted sc wr).
Notation ng := (mkfs_ngroups sc).
Notation meta_end := (mkfs_meta_end sc).

Lemma made_used b : in_fs m b -> used m s b = (b <? meta_end + 2).
Proof.
  intros Hb. pose proof (group_range m b (mkfs_layout sc F wr) Hb) as Hg. destruct Hb as [Hb1 Hb2].
  unfold used. cbn [m_first_data_block m_blocks_per_group m_ngroups m_blocks_count mkfs_mounted loc m_block_bitmap] in *.
  rewrite (md_blocks _ _ _ _ _ M) by (done || apply Z.mod_pos_bound; lia).
  replace (1 + (b - 1) / 8192 * 8192 + (b - 1) mod 8192) with b by mlia. destruct (Z.leb_spec (sc / 2) b); [lia|done].
Qed.

Lemma made_iused ino : vino m ino -> iused m s ino = (ino <=? 11).
Proof.
  intros Hv. pose proof (igroup_range m ino (mkfs_layout sc F wr) Hv) as Hg. destruct Hv as [H1 H2].
  unfold iused. cbn [m_inodes_per_group m_ngroups m_inodes_count mkfs_mounted loc m_inode_bitmap] in *.
  rewrite (md_inodes _ _ _ _ _ M) by (done || apply Z.mod_pos_bound; lia).
  destruct (Z.eqb_spec ((ino - 1) / 2048) 0), (Z.ltb_spec ((ino - 1) mod 2048) 11), (Z.leb_spec ino 11); cbn; try done; mlia.
Qed.

Definition first_inode (ino : Z) : ext2_inode :=
  if ino =? 2 then mk_inode 16877 1024 (meta_end :: zeros 14)
  else if ino =? 11 then mk_inode 16877 1024 (meta_end + 1 :: zeros 14) else zero_inode.

Lemma made_inode ino : vino m ino -> inode_of m s ino = first_inode ino.
Proof.
  intros Hv. pose proof (igroup_range m ino (mkfs_layout sc F wr) Hv) as Hg. destruct Hv as [H1 H2].
  unfold inode_of, irole, ioff. cbn [m_inodes_per_group m_ngroups m_inodes_count mkfs_mounted loc m_inode_table m_inode_size m_block_size] in *.
  assert (forall l off b raw, dir_slot raw b l -> 0 <= off -> off + 128 <= 1024 -> off + 128 <= raw \/ raw + 128 <= off -> decoded l off = zero_inode) as Hother.
  { intros l off b raw [_ Hz] Ho Ho' Ha. apply decoded_zeros. intros i Hi. apply Hz; lia. }
  set (g := (ino - 1) / 2048) in *. set (k := (ino - 1) mod 2048 * 128 / 1024). set (off := (ino - 1) mod 2048 * 128 mod 1024).
  assert (0 <= k < 256 /\ 0 <= off /\ off + 128 <= 1024 /\ ino - 1 = g * 2048 + k * 8 + off / 128 /\ off mod 128 = 0) as (Hk & Ho & Ho' & Ei & Ea) by (subst g k off; mlia).
  clearbody g k off. unfold first_inode. destruct (decide (g = 0 /\ k < 2)) as [[-> Hk2]|Hn].
  - assert (k = 0 \/ k = 1) as [->| ->] by lia.
    + rewrite Z.add_0_r. destruct (Z.eqb_spec ino 2) as [->|Hne].
      * assert (off = 128) as -> by mlia. apply (md_root_inode _ _ _ _ _ M).
      * destruct (Z.eqb_spec ino 11); [mlia|]. eapply Hother; [apply M|lia|lia|mlia].
    + destruct (Z.eqb_spec ino 2); [mlia|]. destruct (Z.eqb_spec ino 11) as [->|Hne].
      * assert (off = 256) as -> by mlia. apply (md_lost_inode _ _ _ _ _ M).
      * eapply Hother; [apply M|lia|lia|mlia].
  - destruct (Z.eqb_spec ino 2); [mlia|]. destruct (Z.eqb_spec ino 11); [mlia|].
    rewrite (md_tables _ _ _ _ _ M) by lia. apply decoded_zeros. intros i Hi. apply zget_zeros. lia.
Qed.

Lemma slot0_ptr b i p : vpos (ppb m) i p -> ptr s (b :: zeros 14) i p <> 0 -> i = 0 /\ p = [].
Proof.
  intros (Hi & Hl & _) Hne. destruct (decide (i = 0)) as [->|Hi0].
  - split; [done|]. destruct p; [done|]. cbn in Hl. lia.
  - exfalso. apply Hne. clear Hne Hl. induction p as [|k p IH]; [|by apply ptr_below]. cbn [ptr].
    assert (zget (b :: zeros 14) i = Some 0) as ->; [|done].
    unfold zget. destruct (Z.leb_spec 0 i); [|lia]. replace (Z.to_nat i) with (S (Z.to_nat (i - 1))) by lia. cbn [lookup list_lookup].
    apply lookup_replicate_2. lia.
Qed.

Lemma made_ptr ino i p : vino m ino -> vpos (ppb m) i p -> ptr s (blocks_of m s ino) i p <> 0 ->
  i = 0 /\ p = [] /\ (ino = 2 /\ ptr s (blocks_of m s ino) i p = meta_end \/ ino = 11 /\ ptr s (blocks_of m s ino) i p = meta_end + 1).
Proof.
  intros Hv Hp. unfold blocks_of. rewrite made_inode by done. unfold first_inode.
  destruct (Z.eqb_spec ino 2) as [->|]; [|destruct (Z.eqb_spec ino 11) as [->|]]; cbn [i_block]; intros Hne.
  - destruct (slot0_ptr _ _ _ Hp Hne) as [-> ->]. split; [done|]. split; [done|]. by left.
  - destruct (slot0_ptr _ _ _ Hp Hne) as [-> ->]. split; [done|]. split; [done|]. by right.
  - change (i_block zero_inode) with (0 :: zeros 14) in *. destruct (slot0_ptr _ _ _ Hp Hne) as [-> ->]. by destruct Hne.
Qed.

Lemma made_roles r : valid_role m r -> loc m r < meta_end.
Proof.
  intros Hr. pose proof (fits_bounds sc F) as (Hng & Hgdt & Hbc & Hgd & Hme & Hfit & Hsc).
  destruct r as [k|g|g|g k]; cbn [valid_role loc mkfs_mounted m_first_data_block m_block_bitmap m_inode_bitmap m_inode_table m_ngroups] in *;
    rewrite ?tab_mkfs by (done || lia); try lia.
  - unfold fixed_blocks in Hr. cbn in Hr. enough ((32 * ng + 1024 - 1) / 1024 <= mkfs_gdt_blocks sc) by lia. mlia.
  - change (table_blocks m) with 256 in Hr. lia.
Qed.

Lemma made_inv : fs_inv m s.
Proof.
  pose proof (fits_bounds sc F) as (Hng & Hgdt & Hbc & Hgd & Hme & Hfit & Hsc). change (2 ^ 31) with 2147483648 in Hsc.
  assert (in_fs m meta_end /\ in_fs m (meta_end + 1)) as [Hin1 Hin2] by (split; split; cbn; lia).
  split; [split; [|split; [|split]]|split].
  - intros r Hr. rewrite made_used by (by apply (lay_range (mkfs_layout sc F wr))). pose proof (made_roles r Hr). apply Z.ltb_lt. lia.
  - intros b Hb Hu. rewrite made_used in Hu by done. apply Z.ltb_ge in Hu. destruct Hb as [_ Hb]. cbn in Hb.
    rewrite (md_rest _ _ _ _ _ M) by lia. by apply Hblank.
  - intros ino Hv. rewrite made_inode by done. unfold first_inode, inode_ok. change (2 ^ 32) with 4294967296.
    destruct (ino =? 2); [|destruct (ino =? 11)]; cbn [i_mode i_size i_block zero_inode];
      (split; [lia|split; [lia|split; [done|]]]); [apply Forall_cons_2; [lia|]..|]; apply Forall_replicate; lia.
  - intros ino Hv Hf. rewrite made_iused in Hf by done. apply Z.leb_gt in Hf. unfold blocks_of. rewrite made_inode by done. unfold first_inode.
    destruct (Z.eqb_spec ino 2); [lia|]. by destruct (Z.eqb_spec ino 11); [lia|].
  - intros ino i p Hv Hp Hne. destruct (made_ptr ino i p Hv Hp Hne) as (_ & _ & [[_ ->]|[_ ->]]); (split; [done|]; split; [rewrite made_used by done; apply Z.ltb_lt; lia|]);
      intros r Hr; pose proof (made_roles r Hr); lia.
  - intros ino i p ino' i' p' Hv Hv' Hp Hp' Hne E. destruct (made_ptr ino i p Hv Hp Hne) as (-> & -> & H1).
    rewrite E in Hne. destruct (made_ptr ino' i' p' Hv' Hp' Hne) as (-> & -> & H2). rewrite E in H1.
    destruct H1 as [[-> H1]|[-> H1]], H2 as [[-> H2]|[-> H2]]; try done; lia.
Qed.

Lemma made_dir ino b ds : vino m ino -> first_inode ino = mk_inode 16877 1024 (b :: zeros 14) -> b <> 0 -> s b = dents ds -> Forall dent_ok ds -> zlen (dents ds) = 1024 ->
  dir_ok m s ino [ds].
Proof.
  intros Hv Ei Hb Hs Hok Hl. unfold dir_ok, blocks_of. rewrite made_inode, Ei by done. cbn [i_mode i_size i_block length]. split; [done|]. split; [done|].
  split; [by apply Forall_singleton|]. split; [done|]. split.
  - intros [|k] ds' Hk; [|done]. injection Hk as <-. done.
  - intros bn Hbn. change (1 <= bn < max_blocks m) in Hbn. destruct (leaf_valid m (mkfs_layout sc F wr) bn) as [Hp _]; [lia|].
    destruct (decide (ptr s (b :: zeros 14) (leaf m bn).1 (leaf m bn).2 = 0)) as [|Hne]; [done|].
    destruct (slot0_ptr _ _ _ Hp Hne) as [E1 E2]. exfalso.
    assert (leaf m bn = leaf m 0) as El by (destruct (leaf m bn); cbn in E1, E2; by subst).
    apply (leaf_inj m (mkfs_layout sc F wr)) in El; lia.
Qed.
End made_inv.

(** ** The whole of mkfs, and the probe of its result *)

Section mkfs_probe.
Context {D : Type} {drv : BlkDriver D} {laws : BlkLaws D}.

Lemma blank_block sc (d : D) b : (forall i, 2 * b <= i < 2 * b + 2 -> sector d i = zeros 512) -> blk (mkfs_mount sc) d b = zeros 1024.
Proof.
  intros Hz. unfold blk. cbn [m_spb mkfs_mount]. change (seqZ (b * 2) 2) with [0 + b * 2; 1 + b * 2]. cbn [fmap list_fmap mjoin list_join].
  rewrite !Hz by lia. done.
Qed.

Definition mkfs_accepts (hosts_root mounted force : bool) (sc : Z) : bool :=
  (force || negb hosts_root) && negb mounted && (16384 <=? sc) && (mkfs_ngroups sc <=? EXT2_MAX_GROUPS) && (mkfs_meta_end sc + 2 <? sc / 2).

Lemma mkfs_wp hosts_root mounted force gd (w : world D) : sound (w_dev w) -> Forall (fun b => b = true) (w_heap w) -> zlen gd = 1024 ->
  let sc := sector_count (w_dev w) in
  wp (ext2_mkfs hosts_root mounted force gd) (fun o w' =>
    if mkfs_accepts hosts_root mounted force sc then
      o = Some tt /\ exists dr dl s, mkfs_root_dir = Ok (dents dr) /\ mkfs_lost_found_dir = Ok (dents dl) /\
        sees (mkfs_mount sc) false w' s /\ made sc dr dl (blk (mkfs_mount sc) (w_dev w)) s
    else o = None /\ w' = w) w.
Proof.
  intros Hd Hh Hgd sc. pose proof (sector_count_range _ (sound_ok _ Hd)) as Hsc. unfold ext2_mkfs, mkfs_accepts.
  apply wp_bind, wp_require; intros ->; [|done]. apply wp_bind, wp_require; intros ->; [|done]. apply wp_bind. unfold wp at 1. cbn [total post]. fold sc. cbn [andb].
  apply wp_bind, wp_require; intros E1; rewrite E1; [|done]. apply wp_bind, wp_require; intros E2; rewrite E2; [|done].
  apply wp_bind, wp_require; intros E3; rewrite E3; [|done]. cbn [andb].
  apply Z.leb_le in E1, E2. apply Z.ltb_lt in E3. assert (mkfs_fits sc) as F by (split; [subst sc; lia|split; [exact E2|exact E3]]).
  assert (sees (mkfs_mount sc) false w (blk (mkfs_mount sc) (w_dev w))) as Hs.
  { split; [by apply sound_ok|]. split; [cbn; fold sc; mlia|]. split; [done|]. intros _. done. }
  do 5 (apply wp_bind, (wp_heap (mkfs_mount sc) false _ _ _ Hs); [done|]; clear Hs; let w' := fresh "w'" in intros w' Hs).
  destruct (mkfs_write_wp sc F gd _ _ Hs Hgd) as (dr & dl & E4 & E5 & Hw). eapply wp_mono; [exact Hw|].
  intros o w'' (-> & s' & Hs' & M). split; [done|]. by exists dr, dl, s'.
Qed.

(** The tables after the descriptors of [g] groups. *)
Definition table_upto (sc k g : Z) : list Z := (fun h => if h <? g then tab (mkfs_table sc k) h else 0) <$> seqZ 0 EXT2_MAX_GROUPS.

Lemma zget_table_upto sc k g h : zget (table_upto sc k g) h = if (0 <=? h) && (h <? 256) then Some (if h <? g then tab (mkfs_table sc k) h else 0) else None.
Proof.
  unfold zget, table_upto. destruct (Z.leb_spec 0 h); [|done]. cbn [andb]. rewrite list_lookup_fmap. unfold EXT2_MAX_GROUPS. destruct (Z.ltb_spec h 256).
  - rewrite lookup_seqZ_lt by lia. cbn. rewrite Z2Nat.id by lia. done.
  - by rewrite lookup_seqZ_ge by lia.
Qed.

Lemma zlen_table_upto sc k g : zlen (table_upto sc k g) = 256.
Proof. unfold zlen, table_upto. rewrite length_fmap, length_seqZ. done. Qed.

Lemma table_upto_0 sc k : table_upto sc k 0 = zeros EXT2_MAX_GROUPS.
Proof.
  apply zget_ext; [by rewrite zlen_table_upto|]. rewrite zlen_table_upto. intros i Hi. rewrite zget_table_upto, zget_zeros by (unfold EXT2_MAX_GROUPS; lia).
  destruct (Z.leb_spec 0 i), (Z.ltb_spec i 256), (Z.ltb_spec i 0); try lia; done.
Qed.

Lemma table_upto_st sc k g : 0 <= g < 256 -> st (table_upto sc k g) g (tab (mkfs_table sc k) g) = Ok (table_upto sc k (g + 1)).
Proof.
  intros Hg. rewrite st_ok by (rewrite zlen_table_upto; lia). f_equal. apply zget_ext; [by rewrite zlen_zset, !zlen_table_upto|].
  rewrite zlen_zset, zlen_table_upto. intros i Hi. rewrite zget_zset by (rewrite zlen_table_upto; lia). rewrite !zget_table_upto.
  destruct (Z.leb_spec 0 i), (Z.ltb_spec i 256), (Z.eqb_spec g i), (Z.ltb_spec i g), (Z.ltb_spec i (g + 1)); subst; try lia; done.
Qed.

Lemma table_upto_all sc k : mkfs_fits sc -> table_upto sc k (mkfs_ngroups sc) = mkfs_table sc k.
Proof.
  intros F. apply zget_ext; [by rewrite zlen_table_upto, zlen_mkfs_table|]. rewrite zlen_table_upto. intros i Hi.
  rewrite zget_table_upto, zget_mkfs_table by lia. destruct (Z.leb_spec 0 i); [|lia]. destruct (Z.ltb_spec i 256); [|lia]. cbn [andb].
  destruct (Z.ltb_spec i (mkfs_ngroups sc)); [|done]. by rewrite tab_mkfs by (done || lia).
Qed.

Section probe.
Context (sc : Z) (wr rdy : bool) (F : mkfs_fits sc) (dr dl : list dent) (s0 s : store) (M : made sc dr dl s0 s).

Notation ng := (mkfs_ngroups sc).

Definition probing (g : Z) : ext2_mount :=
  mk_mount true wr rdy (ng * 2048) (sc / 2) 1 8192 2048 128 1 1024 2 2 ng (table_upto sc 0 g) (table_upto sc 1 g) (table_upto sc 2 g).

Lemma load_gdt_wp n g cur gb (w : world D) : sees (mkfs_mount sc) false w s -> 0 <= g -> g + Z.of_nat n = ng -> (cur < sc / 2 -> gb = s cur) ->
  wp (load_gdt (probing g) n g cur gb) (fun o w' => o = Some (probing ng) /\ sees (mkfs_mount sc) false w' s) w.
Proof.
  pose proof (fits_bounds sc F) as (Hng & Hgdt & _ & Hgb & Hme & Hfit & Hsc).
  revert g cur gb w. induction n as [|n IH]; intros g cur gb w Hs Hg Hn Hcur; cbn [load_gdt].
  { apply wp_ret. replace g with ng by lia. done. }
  cbn [m_gd_block m_block_size probing]. rewrite (u32_small (g * 32)) by lia. rewrite u32_small by mlia.
  assert (2 + g * 32 / 1024 = 2 + g / 32) as -> by mlia. assert (0 <= 2 + g / 32 < sc / 2) as Hb by mlia.
  apply wp_bind. cut (wp (if 2 + g / 32 =? cur then mret gb else m_read_block (probing g) (2 + g / 32))
    (fun o w' => o = Some (s (2 + g / 32)) /\ sees (mkfs_mount sc) false w' s) w).
  { intros H. eapply wp_mono; [exact H|]. clear w Hs H. intros o w (-> & Hs).
    pose proof (md_desc _ _ _ _ _ M g ltac:(lia)) as Hd. unfold GD_OFF_BLOCK_BITMAP, GD_OFF_INODE_BITMAP, GD_OFF_INODE_TABLE.
    apply wp_bind. eapply wp_lift; [apply (Hd 0); lia|]. apply wp_bind. eapply wp_lift; [apply (Hd 1); lia|]. apply wp_bind. eapply wp_lift; [apply (Hd 2); lia|].
    cbn [m_block_bitmap m_inode_bitmap m_inode_table probing].
    do 3 (apply wp_bind; eapply wp_lift; [apply table_upto_st; lia|]). apply (IH (g + 1)); [done|lia|lia|done]. }
  destruct (Z.eqb_spec (2 + g / 32) cur) as [E|_]; [apply wp_ret; rewrite Hcur by lia; by rewrite E|].
  by apply (wp_read (mkfs_mount sc) false (2 + g / 32) s _ w (mkfs_sized sc F) Hs Hb).
Qed.

Lemma super_fields_ok m buf : super_block (ng * 2048) (sc / 2) buf -> m_dev m = true -> m_writable m = wr -> m_ready m = rdy ->
  super_fields m buf = Ok (Some (probing 0)).
Proof.
  intros (E1 & E2 & E3 & E4 & E5 & E6 & E7 & E8 & E9) Hd Hw Hr. unfold super_fields.
  pose proof (fits_bounds sc F) as (Hng & Hgdt & Hbc & _ & Hme & Hfit & Hsc). change (2 ^ 31) with 2147483648 in Hsc.
  rewrite E1, Ok_bind. change (negb (EXT2_SUPER_MAGIC =? EXT2_SUPER_MAGIC)) with false. cbv iota.
  rewrite E2, Ok_bind, E3, Ok_bind, E4, Ok_bind, E5, Ok_bind, E6, Ok_bind, E7, Ok_bind, E8, Ok_bind, E9, Ok_bind. cbn zeta.
  assert (s32 (u32 (sc / 2 + 8192 - 1) / 8192) = ng) as ->.
  { rewrite u32_small by lia. unfold mkfs_ngroups, MKFS_BLOCKS_PER_GROUP in *. unfold s32. mlia. }
  assert (u32 (ng * 2048 + 2048 - 1) / 2048 = ng) as -> by (rewrite u32_small by lia; mlia).
  rewrite (u32_small ng) by lia. rewrite !(Z.ltb_irrefl ng). destruct (Z.ltb_spec EXT2_MAX_GROUPS ng); [unfold EXT2_MAX_GROUPS in *; lia|].
  rewrite Hd, Hw, Hr. unfold probing. by rewrite !table_upto_0.
Qed.

Lemma probe_wp m (w : world D) : m_dev m = true -> m_writable m = wr -> m_ready m = rdy -> sees (mkfs_mount sc) false w s ->
  wp (ext2_probe_m m) (fun o w' => o = Some (mkfs_mounted sc wr) /\ sees (mkfs_mount sc) false w' s) w.
Proof.
  intros Hd Hw Hr Hs. pose proof (fits_bounds sc F) as (Hng & Hgdt & Hbc & _ & Hme & Hfit & Hsc). unfold ext2_probe_m. rewrite Hd.
  pose proof Hs as (Hdok & Hcnt & Hblk & Hrel). cbn in Hcnt. destruct (Hrel eq_refl) as [Hsd _].
  destruct (sound_read (w_dev w) 2 1 Hsd) as [l El]; [lia|lia|lia|].
  assert (blkdev_read (w_dev w) 2 1 = Some l) as E.
  { unfold blkdev_read. cbn [Z.eqb]. destruct (Z.leb_spec (sector_count (w_dev w)) 2); [lia|]. by destruct (Z.ltb_spec (sector_count (w_dev w) - 2) 1); [lia|]. }
  apply wp_bind. unfold wp at 1. rewrite E. cbn [total post].
  apply read_law in El; [|done|lia|lia|lia]. change (seqZ 2 1) with [2] in El. cbn [fmap list_fmap mjoin list_join] in El. rewrite app_nil_r in El.
  assert (l = sector_of (s 1) 0) as ->.
  { rewrite El. rewrite <- (Hblk 1) by (cbn; lia). by rewrite (sector_of_blk (mkfs_mount sc) (w_dev w) 1 0 Hdok) by (cbn; lia). }
  apply wp_bind. eapply wp_lift; [apply super_fields_ok; [|done..]|].
  { pose proof (md_super _ _ _ _ _ M) as Hsb. assert (forall n o, 0 <= o -> o + Z.of_nat n <= 512 -> le_bytes n (sector_of (s 1) 0) o = le_bytes n (s 1) o) as Hle.
    { intros n o Ho Hn. apply le_bytes_ext. intros i Hi. unfold sector_of, DISK_SECTOR_SIZE. rewrite zget_take by lia. by rewrite zget_drop by lia. }
    unfold super_block, ld16, ld32 in *. by rewrite !Hle by (unfold SB_OFF_INODES_COUNT, SB_OFF_BLOCKS_COUNT, SB_OFF_FIRST_DATA_BLOCK, SB_OFF_LOG_BLOCK_SIZE,
      SB_OFF_BLOCKS_PER_GROUP, SB_OFF_INODES_PER_GROUP, SB_OFF_MAGIC, SB_OFF_REV_LEVEL, SB_OFF_INODE_SIZE; lia). }
  apply wp_bind, (wp_heap (mkfs_mount sc) false s _ w Hs); [done|]. intros w1 Hs1. cbn [m_ngroups probing].
  apply wp_bind. eapply wp_mono; [apply (load_gdt_wp _ 0 _ _ w1 Hs1); [lia|lia|]|].
  { change (2 ^ 31) with 2147483648 in Hsc. lia. }
  intros o w' (-> & Hs'). apply wp_ret. split; [|done]. unfold probing, set_ready, mkfs_mounted. cbn. by rewrite !table_upto_all.
Qed.
End probe.
End mkfs_probe.
