(* ===== verification/Ext2Spec.v ===== *)
(** * Ext2Spec: what the file system promises

    An abstract file system is a finite map from inode numbers to files and
    directories. Programs that create, write and read ([prog]) run on the
    driver of Ext2.v and on the map; [represents] relates the two, and on a
    device that does not fail every run of the driver is one of the map. *)

From S2P Require Import Prelude Blkdev Ext2 Ext2Store Ext2Alloc Ext2Tree Ext2Inodes Ext2Files Ext2Dirs Ext2Create Ext2Mkfs.

(** ** The abstract file system *)

Inductive node : Type :=
  | AFile (data : list Z)
  | ADir (es : list (Z * list Z * Z)).

Notation afs := (gmap Z node).

Inductive fs_op : Type :=
  | OpWrite (ino : Z) (data : list Z)
  | OpRead (ino size : Z)
  | OpCreate (dir : Z) (name : list Z)
  | OpMkdir (dir : Z) (name : list Z).

Inductive reply : Type := RFail | RInt (n : Z) | RData (l : list Z).

(** The steps of the specification. A write that is refused leaves the file
    with some contents; a creation that is refused changes nothing. *)
Inductive fs_step : fs_op -> afs -> reply -> afs -> Prop :=
  | step_write ino data d (A : afs) : A !! ino = Some (AFile d) ->
      fs_step (OpWrite ino data) A (RInt (s32 (zlen data))) (<[ino := AFile data]> A)
  | step_write_fail ino data d d' (A : afs) : A !! ino = Some (AFile d) ->
      fs_step (OpWrite ino data) A RFail (<[ino := AFile d']> A)
  | step_read ino size d (A : afs) : A !! ino = Some (AFile d) ->
      fs_step (OpRead ino size) A (RData (take (Z.to_nat size) d)) A
  | step_create dir name ino es es' (A : afs) : A !! dir = Some (ADir es) -> A !! ino = None ->
      inserted (ino, name, EXT2_FT_REG_FILE) es es' ->
      fs_step (OpCreate dir name) A (RInt ino) (<[ino := AFile []]> (<[dir := ADir es']> A))
  | step_mkdir dir name ino es es' (A : afs) : A !! dir = Some (ADir es) -> A !! ino = None ->
      inserted (ino, name, EXT2_FT_DIR) es es' ->
      fs_step (OpMkdir dir name) A (RInt ino)
        (<[ino := ADir [(ino, dot, EXT2_FT_DIR); (dir, dotdot, EXT2_FT_DIR)]]> (<[dir := ADir es']> A))
  | step_create_fail dir name (A : afs) : fs_step (OpCreate dir name) A RFail A
  | step_mkdir_fail dir name (A : afs) : fs_step (OpMkdir dir name) A RFail A.

(** Callers pass inodes of the right kind; sizes are [uint32_t] with room for
    the rounding to blocks. *)
Definition allowed (bs : Z) (A : afs) (op : fs_op) : Prop :=
  match op with
  | OpWrite ino data => (exists d, A !! ino = Some (AFile d)) /\ zlen data + bs <= 2 ^ 32
  | OpRead ino size => (exists d, A !! ino = Some (AFile d)) /\ 0 <= size
  | OpCreate dir _ | OpMkdir dir _ => exists es, A !! dir = Some (ADir es)
  end.

(** A program chooses the next operation from the last reply. *)
Inductive prog : Type :=
  | Done
  | Do (op : fs_op) (k : reply -> prog).

Fixpoint safe (bs : Z) (A : afs) (p : prog) : Prop :=
  match p with
  | Done => True
  | Do op k => allowed bs A op /\ forall r A', fs_step op A r A' -> safe bs A' (k r)
  end.

Inductive fs_steps : prog -> afs -> list reply -> afs -> Prop :=
  | steps_done A : fs_steps Done A [] A
  | steps_do op k A r A' rs A'' : fs_step op A r A' -> fs_steps (k r) A' rs A'' -> fs_steps (Do op k) A (r :: rs) A''.

(** ** The driver *)

Section driver.
Context {D : Type} {drv : BlkDriver D} (m : ext2_mount).

Definition reply_of {A} (f : A -> reply) (c : io D A) : io D reply :=
  o ← attempt c; mret (match o with Some a => f a | None => RFail end).

Definition exec (op : fs_op) : io D reply :=
  match op with
  | OpWrite ino data => reply_of RInt (ext2_write_file m ino data)
  | OpRead ino size => reply_of RData (ext2_read_file_at m ino size)
  | OpCreate dir name => reply_of RInt (ext2_create_file m dir name)
  | OpMkdir dir name => reply_of RInt (ext2_create_dir m dir name)
  end.

Fixpoint run (p : prog) : io D (list reply) :=
  match p with
  | Done => mret []
  | Do op k => r ← exec op; rs ← run (k r); mret (r :: rs)
  end.
End driver.

(** ** The relation *)

Section relation.
Context {D : Type} {drv : BlkDriver D} {laws : BlkLaws D} (m : ext2_mount).
Hypothesis L : layout m.
Hypothesis Hbs : m_block_size m < 65536.

Definition node_holds (s : store) (ino : Z) (n : node) : Prop :=
  match n with
  | AFile d => truthy (Z.land (i_mode (inode_of m s ino)) EXT2_S_IFREG) = true /\ file_data m s ino = d /\
               i_size (inode_of m s ino) + m_block_size m <= 2 ^ 32
  | ADir es => exists EE, dir_ok m s ino EE /\ entries EE = es
  end.

Definition represents (A : afs) (s : store) : Prop :=
  fs_inv m s /\ forall ino n, A !! ino = Some n -> vino m ino /\ iused m s ino = true /\ node_holds s ino n.

Lemma node_holds_same s s' ino n : same_file m s s' ino -> node_holds s ino n -> node_holds s' ino n.
Proof.
  intros Hsf. destruct n as [d|es]; cbn [node_holds].
  - rewrite (same_file_data m L s s' ino Hsf), (proj1 Hsf). done.
  - intros (EE & Hd & He). exists EE. split; [|done]. by eapply dir_ok_same.
Qed.

(** A directory never comes near the limit of its size. *)
Lemma dir_small s ino EE : dir_ok m s ino EE -> m_block_size m * (Z.of_nat (length EE) + 1) < 2 ^ 32.
Proof.
  intros (_ & _ & _ & Hmax & _). pose proof (bs_pos m L). pose proof (ppb_block m L). pose proof (ppb_max m L). change (2 ^ 32) with 4294967296. nia.
Qed.

(** One entry of the map changes, one may be new. *)
Lemma represents_insert A s s' ino n : represents A s -> fs_inv m s' -> ikept m s s' -> vino m ino -> iused m s' ino = true -> node_holds s' ino n ->
  (forall j, vino m j -> iused m s j = true -> j <> ino -> is_Some (A !! j) -> same_file m s s' j) -> represents (<[ino := n]> A) s'.
Proof.
  intros [_ HA] Hinv Hik Hv Hu Hn Hsf. split; [done|]. intros j nj [[<- <-]|[Hne Hj]]%lookup_insert_Some; [done|].
  destruct (HA j nj Hj) as (Hvj & Huj & Hnj). split; [done|]. split; [by apply Hik|]. eapply node_holds_same; [|done]. by apply Hsf.
Qed.

Lemma only_file_ikept s s' ino : only_file m s s' ino -> ikept m s s'.
Proof. intros Ho j Hj Hju. by rewrite (iused_only m L s s' j ino). Qed.

Lemma sim_write A s ino data (w : world D) : represents A s -> allowed (m_block_size m) A (OpWrite ino data) -> sees m false w s ->
  wp (exec m (OpWrite ino data)) (fun o w' => exists r A' s', o = Some r /\ fs_step (OpWrite ino data) A r A' /\ sees m false w' s' /\ represents A' s') w.
Proof.
  intros HR [[d Hd] Hlen] Hs. pose proof HR as [Hinv HA]. destruct (HA _ _ Hd) as (Hv & Hu & Hm & Hdata & Hsize). pose proof (bs_pos m L).
  apply wp_bind, wp_attempt. eapply wp_mono; [apply (write_file_wp m false L s ino data w Hinv Hv Hu); [lia|done]|].
  intros o w' (s' & Hs' & Hinv' & Honly & Hres). apply wp_ret.
  assert (forall d', node_holds s' ino (AFile d') -> represents (<[ino := AFile d']> A) s') as Hins.
  { intros d' Hn. eapply (represents_insert A s); [done|done|by eapply only_file_ikept|done|by eapply only_file_ikept|done|].
    intros j Hj _ Hne _. by apply Honly. }
  destruct o as [n|]; cbn.
  - destruct Hres as (-> & Hdata' & Hmode & Hsz). eexists _, _, s'. split; [done|]. split; [by eapply step_write|]. split; [done|].
    apply Hins. cbn [node_holds]. rewrite Hmode, Hsz. done.
  - destruct (Hres eq_refl) as [_ Ei]. eexists _, _, s'. split; [done|]. split; [by eapply (step_write_fail _ _ _ (file_data m s' ino))|]. split; [done|].
    apply Hins. cbn [node_holds]. rewrite Ei. done.
Qed.

Lemma sim_read A s ino size (w : world D) : represents A s -> allowed (m_block_size m) A (OpRead ino size) -> sees m false w s ->
  wp (exec m (OpRead ino size)) (fun o w' => exists r A' s', o = Some r /\ fs_step (OpRead ino size) A r A' /\ sees m false w' s' /\ represents A' s') w.
Proof.
  intros HR [[d Hd] Hsz] Hs. pose proof HR as [Hinv HA]. destruct (HA _ _ Hd) as (Hv & Hu & Hm & Hdata & Hsize).
  apply wp_bind, wp_attempt. eapply wp_mono; [by apply (read_file_wp m false L s ino size w Hinv Hv)|].
  intros o w' (Hs' & _ & He). apply wp_ret. rewrite (He eq_refl), Hdata. eexists _, _, s. split; [done|]. split; [by apply step_read|]. done.
Qed.

(** What [created] means for the map. *)
Lemma created_represents A s s' dir es EE name ft P ino n : represents A s -> A !! dir = Some (ADir es) -> entries EE = es -> dir_ok m s dir EE ->
  created m false s dir EE name ft P (Some ino) s' -> node_holds s' ino n ->
  exists es', A !! ino = None /\ inserted (ino, name, ft) es es' /\ represents (<[ino := n]> (<[dir := ADir es']> A)) s'.
Proof.
  intros HR Hd He Hdir (Hinv' & Hkeep & Hik & Hvi & Hfree & Hused & Hne & _ & Hent) Hn. destruct (Hent eq_refl) as (EE' & Hdir' & Hins). rewrite He in Hins.
  exists (entries EE'). pose proof HR as [_ HA]. destruct (HA _ _ Hd) as (Hvd & Hud & _).
  assert (A !! ino = None) as Hnone.
  { destruct (A !! ino) as [n'|] eqn:E; [|done]. destruct (HA _ _ E) as (_ & Hu & _). congruence. }
  split; [done|]. split; [done|]. split; [done|]. intros j nj [[<- <-]|[Hnj Hj]]%lookup_insert_Some; [done|].
  apply lookup_insert_Some in Hj as [[<- <-]|[Hnd Hj]].
  - split; [done|]. split; [by apply Hik|]. by exists EE'.
  - destruct (HA j nj Hj) as (Hvj & Huj & Hnode). split; [done|]. split; [by apply Hik|]. eapply node_holds_same; [|done]. by apply Hkeep.
Qed.

Lemma created_fail A s s' dir EE name ft P : represents A s -> A !! dir = Some (ADir (entries EE)) -> created m false s dir EE name ft P None s' -> represents A s'.
Proof.
  intros [_ HA] Hd (Hinv' & Hkeep & Hik & Hwhy). destruct (Hwhy eq_refl) as [_ Hdir]. split; [done|]. intros j nj Hj.
  destruct (HA j nj Hj) as (Hvj & Huj & Hnode). split; [done|]. split; [by apply Hik|]. destruct (decide (j = dir)) as [->|Hne].
  - rewrite Hd in Hj. injection Hj as <-. by exists EE.
  - eapply node_holds_same; [|done]. by apply Hkeep.
Qed.

Lemma sim_create A s dir name (w : world D) : represents A s -> allowed (m_block_size m) A (OpCreate dir name) -> sees m false w s ->
  wp (exec m (OpCreate dir name)) (fun o w' => exists r A' s', o = Some r /\ fs_step (OpCreate dir name) A r A' /\ sees m false w' s' /\ represents A' s') w.
Proof.
  intros HR [es Hd] Hs. pose proof HR as [Hinv HA]. destruct (HA _ _ Hd) as (Hv & Hu & EE & Hdir & He).
  apply wp_bind, wp_attempt. eapply wp_mono; [by apply (create_file_wp m false L s dir EE name w Hinv Hv Hu Hdir Hbs (dir_small _ _ _ Hdir))|].
  intros o w' (s' & Hs' & Hc). apply wp_ret. destruct o as [ino|]; cbn.
  - destruct (created_represents A s s' dir es EE name _ _ ino (AFile []) HR Hd He Hdir Hc) as (es' & Hno & Hins & HR').
    { destruct Hc as (_ & _ & _ & _ & _ & _ & _ & Hi & _). cbn [node_holds]. unfold file_data. rewrite Hi. cbn. split; [done|]. split; [done|]. change (2 ^ 32) with 4294967296. lia. }
    eexists _, _, s'. split; [done|]. split; [by eapply step_create|]. done.
  - eexists _, _, s'. split; [done|]. split; [apply step_create_fail|]. split; [done|]. subst es. by eapply created_fail.
Qed.

Lemma sim_mkdir A s dir name (w : world D) : represents A s -> allowed (m_block_size m) A (OpMkdir dir name) -> sees m false w s ->
  wp (exec m (OpMkdir dir name)) (fun o w' => exists r A' s', o = Some r /\ fs_step (OpMkdir dir name) A r A' /\ sees m false w' s' /\ represents A' s') w.
Proof.
  intros HR [es Hd] Hs. pose proof HR as [Hinv HA]. destruct (HA _ _ Hd) as (Hv & Hu & EE & Hdir & He).
  apply wp_bind, wp_attempt. eapply wp_mono; [by apply (create_dir_wp m false L s dir EE name w Hinv Hv Hu Hdir Hbs (dir_small _ _ _ Hdir))|].
  intros o w' (s' & Hs' & Hc & Hfresh). apply wp_ret. destruct o as [ino|]; cbn.
  - destruct (Hfresh ino eq_refl) as (_ & EE' & Hdir' & He').
    destruct (created_represents A s s' dir es EE name _ _ ino (ADir [(ino, dot, EXT2_FT_DIR); (dir, dotdot, EXT2_FT_DIR)]) HR Hd He Hdir Hc) as (es' & Hno & Hins & HR'); [by exists EE'|].
    eexists _, _, s'. split; [done|]. split; [by eapply step_mkdir|]. done.
  - eexists _, _, s'. split; [done|]. split; [apply step_mkdir_fail|]. split; [done|]. subst es. by eapply created_fail.
Qed.

Lemma run_refines p A s (w : world D) : represents A s -> safe (m_block_size m) A p -> sees m false w s ->
  wp (run m p) (fun o w' => exists rs A' s', o = Some rs /\ fs_steps p A rs A' /\ sees m false w' s' /\ represents A' s') w.
Proof.
  revert A s w. induction p as [|op k IH]; intros A s w HR Hp Hs; cbn [run].
  { apply wp_ret. exists [], A, s. split; [done|]. split; [constructor|done]. }
  destruct Hp as [Ha Hk]. apply wp_bind.
  assert (wp (exec m op) (fun o w' => exists r A' s', o = Some r /\ fs_step op A r A' /\ sees m false w' s' /\ represents A' s') w) as Hop.
  { destruct op; [by apply (sim_write A s)|by apply (sim_read A s)|by apply (sim_create A s)|by apply (sim_mkdir A s)]. }
  eapply wp_mono; [exact Hop|]. intros o w1 (r & A1 & s1 & -> & Hst & Hs1 & HR1).
  apply wp_bind. eapply wp_mono; [by apply (IH r A1 s1 w1 HR1 (Hk _ _ Hst))|]. intros o w2 (rs & A2 & s2 & -> & Hsts & Hs2 & HR2).
  apply wp_ret. exists (r :: rs), A2, s2. split; [done|]. split; [by econstructor|]. done.
Qed.
End relation.
