(* ===== verification/Ext2Correct.v ===== *)
(** * Ext2Correct: the theorems of the ext2 driver

    The properties of mkfs, probe, and of the operations on files and
    directories, on devices that fail and on devices that do not, and the
    disks on which the driver does not keep them. *)

From S2P Require Import Prelude Blkdev Ext2 Ext2Store Ext2Alloc Ext2Tree Ext2Inodes Ext2Files Ext2Dirs Ext2Create Ext2Mkfs Ext2Spec.

(** ** A new file system *)

(** What mkfs makes: the root directory with lost+found. *)
Definition empty_fs : afs :=
  <[EXT2_ROOT_INO := ADir [(EXT2_ROOT_INO, dot, EXT2_FT_DIR); (EXT2_ROOT_INO, dotdot, EXT2_FT_DIR); (EXT2_LOSTFOUND_INO, lost_found, EXT2_FT_DIR)]]>
    {[EXT2_LOSTFOUND_INO := ADir [(EXT2_LOSTFOUND_INO, dot, EXT2_FT_DIR); (EXT2_ROOT_INO, dotdot, EXT2_FT_DIR)]]}.

Section formatted.
Context {D : Type} {drv : BlkDriver D} {laws : BlkLaws D}.

(** The part of the device behind the metadata is zero. *)
Definition blank (d : D) : Prop :=
  forall i, 2 * (mkfs_meta_end (sector_count d) + 2) <= i < sector_count d -> sector d i = zeros 512.

Lemma made_represents sc wr dr dl s0 s : mkfs_fits sc -> mkfs_root_dir = Ok (dents dr) -> mkfs_lost_found_dir = Ok (dents dl) ->
  made sc dr dl s0 s -> (forall b, mkfs_meta_end sc + 2 <= b < sc / 2 -> s0 b = zeros 1024) -> represents (mkfs_mounted sc wr) empty_fs s.
Proof.
  intros F Er El M Hz. pose proof (fits_bounds sc F) as (Hng & Hgdt & Hbc & Hgd & Hme & Hfit & Hsc).
  destruct root_dir_ok as (dr' & Er' & Hokr & Hlr & Hvr). destruct lost_found_dir_ok as (dl' & El' & Hokl & Hll & Hvl).
  assert (dents dr' = dents dr) as Edr by congruence. assert (dents dl' = dents dl) as Edl by congruence.
  assert (vino (mkfs_mounted sc wr) 2 /\ vino (mkfs_mounted sc wr) 11) as [V2 V11] by (split; split; cbn; lia).
  split; [by eapply made_inv|]. unfold empty_fs. intros ino n [[<- <-]|[_ [<- <-]%lookup_singleton_Some]]%lookup_insert_Some.
  - split; [done|]. split; [by rewrite (made_iused sc wr F dr dl s0 s M)|]. exists [dr']. split.
    + eapply made_dir; [done|exact M|done|done|lia|rewrite (md_root _ _ _ _ _ M); congruence|done|done].
    + unfold entries. cbn [fmap list_fmap mjoin list_join]. by rewrite app_nil_r.
  - split; [done|]. split; [by rewrite (made_iused sc wr F dr dl s0 s M)|]. exists [dl']. split.
    + eapply made_dir; [done|exact M|done|done|lia|rewrite (md_lost _ _ _ _ _ M); congruence|done|done].
    + unfold entries. cbn [fmap list_fmap mjoin list_join]. by rewrite app_nil_r.
Qed.

Lemma format_wp hosts_root mounted force gd m0 (w : world D) :
  let sc := sector_count (w_dev w) in let m := mkfs_mounted sc (m_writable m0) in
  sound (w_dev w) -> Forall (fun b => b = true) (w_heap w) -> blank (w_dev w) -> zlen gd = 1024 -> m_dev m0 = true ->
  wp (ext2_mkfs hosts_root mounted force gd;; ext2_probe_m m0)
     (fun o w' => if mkfs_accepts hosts_root mounted force sc
                  then o = Some m /\ layout m /\ exists s, sees m false w' s /\ represents m empty_fs s
                  else o = None /\ w' = w) w.
Proof.
  intros sc m Hd Hh Hz Hgd Hdev. apply wp_bind. eapply wp_mono; [by apply mkfs_wp|]. fold sc. intros o w1.
  destruct (mkfs_accepts hosts_root mounted force sc) eqn:Eacc; [|by intros [-> ->]]. intros (-> & dr & dl & s & Er & El & Hs & M).
  assert (mkfs_fits sc) as F.
  { pose proof (sector_count_range _ (sound_ok _ Hd)) as Hsc. unfold mkfs_accepts in Eacc. rewrite !andb_true_iff in Eacc.
    destruct Eacc as [[[[_ _] E1] E2] E3]. apply Z.leb_le in E1, E2. apply Z.ltb_lt in E3. split; [subst sc; lia|]. split; [exact E2|exact E3]. }
  eapply wp_mono; [by apply (probe_wp sc (m_writable m0) (m_ready m0) F dr dl _ s M m0 w1)|]. intros o w2 (-> & Hs2). split; [done|].
  split; [by apply mkfs_layout|]. exists s. split; [exact Hs2|]. eapply made_represents; [done|done|done|exact M|].
  intros b Hb. apply blank_block. intros i Hi. apply Hz. fold sc. mlia.
Qed.
End formatted.

(** C17: Formatting and mounting round trip. On a device that does not fail and
    whose data area is zero, [ext2_mkfs] followed by [ext2_probe_m] gives the
    geometry that mkfs computed, and the device then holds, with the invariant
    of the file system, exactly an empty root directory and lost+found. A
    device that is too small, too large, mounted or (without force) the boot
    root is refused and not touched. *)
Theorem mkfs_probe_roundtrip {D : Type} {drv : BlkDriver D} {laws : BlkLaws D} hosts_root mounted force gd m0 (w : world D) :
  sound (w_dev w) -> Forall (fun b => b = true) (w_heap w) -> blank (w_dev w) -> zlen gd = 1024 -> m_dev m0 = true ->
  let m := mkfs_mounted (sector_count (w_dev w)) (m_writable m0) in
  wp (ext2_mkfs hosts_root mounted force gd;; ext2_probe_m m0)
     (fun o w' => if mkfs_accepts hosts_root mounted force (sector_count (w_dev w))
                  then o = Some m /\ layout m /\ exists s, sees m false w' s /\ represents m empty_fs s
                  else o = None /\ w' = w) w.
Proof. intros Hd Hh Hz Hgd Hdev. by apply format_wp. Qed.

(** ** The example of the witnesses: a file on a disk of 8 MiB *)

Definition disk0 : ramdisk := mk_ramdisk 16384 ∅ [].
Definition world0 : world ramdisk := mk_world disk0 [].
Definition mount0 : ext2_mount := mk_mount true true false 0 0 0 0 0 0 0 0 0 0 0 [] [] [].
Notation mount1 := (mkfs_mounted 16384 true).

Lemma disk0_sound : sound disk0.
Proof. split; [|done]. split; [done|]. apply map_Forall_empty. Qed.

Lemma disk0_blank : blank disk0.
Proof. intros i _. change (sector disk0 i) with (rd_sector disk0 i). unfold rd_sector, disk0. cbn [rd_data]. by rewrite lookup_empty. Qed.

Lemma disk0_accepted : mkfs_accepts false false false 16384 = true.
Proof. vm_compute. reflexivity. Qed.

Lemma mkfs_probe_roundtrip_witness : mkfs_accepts false false false 16384 = true /\
  wp (ext2_mkfs false false false (zeros 1024);; ext2_probe_m mount0)
     (fun o w' => o = Some mount1 /\ layout mount1 /\ exists s, sees mount1 false w' s /\ represents mount1 empty_fs s) world0.
Proof.
  split; [exact disk0_accepted|].
  pose proof (mkfs_probe_roundtrip false false false (zeros 1024) mount0 world0 disk0_sound (Forall_nil_2 _) disk0_blank eq_refl eq_refl) as H.
  change (sector_count (w_dev world0)) with 16384 in H. rewrite disk0_accepted in H. exact H.
Defined.

(** ** Refinement *)

Lemma formatted : exists w s, (ext2_mkfs false false false (zeros 1024);; ext2_probe_m mount0) world0 = Ok (Some mount1, w) /\
  layout mount1 /\ sees mount1 false w s /\ represents mount1 empty_fs s.
Proof.
  pose proof (format_wp false false false (zeros 1024) mount0 world0 disk0_sound (Forall_nil_2 _) disk0_blank eq_refl eq_refl) as H.
  lazy zeta in H. change (sector_count (w_dev world0)) with 16384 in H. rewrite disk0_accepted in H.
  destruct (wp_result _ _ _ H) as (o & w & E & -> & HL & s & Hs & HR). exists w, s.
  exact (conj E (conj HL (conj Hs HR))).
Qed.

(** C5: The driver refines the abstract file system. On a device that does not
    fail, a program of creations of files and directories, writes and reads
    that starts in a state representing a map of files and directories always
    ends, without a fault, with the replies that the map gives: a read returns
    what was last written to that file and nothing else, a new entry appears in
    its directory and in no other, a refused creation changes nothing, and the
    final state represents the final map. *)
Theorem ext2_refinement {D : Type} {drv : BlkDriver D} {laws : BlkLaws D} m (A : afs) s p (w : world D) :
  layout m -> m_block_size m < 65536 -> represents m A s -> safe (m_block_size m) A p -> sees m false w s ->
  wp (run m p) (fun o w' => exists rs A' s', o = Some rs /\ fs_steps p A rs A' /\ sees m false w' s' /\ represents m A' s') w.
Proof. intros L Hbs HR Hp Hs. by eapply run_refines. Qed.

(** A file is made, written and read. *)
Definition demo : prog :=
  Do (OpCreate EXT2_ROOT_INO [97]) (fun r =>
    match r with
    | RInt i => Do (OpWrite i [1; 2; 3]) (fun _ => Do (OpRead i 10) (fun _ => Done))
    | _ => Done
    end).

Lemma empty_fs_root : exists es, empty_fs !! EXT2_ROOT_INO = Some (ADir es).
Proof. eexists. unfold empty_fs. by rewrite lookup_insert_eq. Qed.

Lemma demo_safe : safe 1024 empty_fs demo.
Proof.
  split; [apply empty_fs_root|]. intros r A' Hst. inversion Hst as [| | | ? ? ino ? ? ? ? Hno ? | | |]; subst; [|done]. cbn [safe].
  split; [split; [eexists; by rewrite lookup_insert_eq|done]|]. intros r A' Hw. split; [|done]. split; [|done].
  inversion Hw; subst; eexists; by rewrite lookup_insert_eq.
Qed.

Lemma ext2_refinement_witness : exists w s, sees mount1 false w s /\ represents mount1 empty_fs s /\ safe 1024 empty_fs demo /\
  wp (run mount1 demo) (fun o w' => exists rs A' s', o = Some rs /\ fs_steps demo empty_fs rs A' /\ sees mount1 false w' s' /\ represents mount1 A' s') w.
Proof.
  destruct formatted as (w & s & _ & HL & Hs & HR). exists w, s. split; [exact Hs|]. split; [exact HR|]. split; [exact demo_safe|].
  exact (ext2_refinement mount1 empty_fs s demo w HL eq_refl HR demo_safe Hs).
Defined.

(** A disk with a file of inode 12. *)
Definition new_file : prog := Do (OpCreate EXT2_ROOT_INO [97]) (fun _ => Done).

Lemma new_file_reply : match (ext2_mkfs false false false (zeros 1024);; ext2_probe_m mount0) world0 with
  | Ok (Some m, w) => match run m new_file w with Ok (Some rs, _) => rs | _ => [] end
  | _ => []
  end = [RInt 12].
Proof. vm_compute. reflexivity. Qed.

Lemma with_file : exists (w : world ramdisk) s A, sees mount1 false w s /\ represents mount1 A s /\ A !! 12 = Some (AFile []) /\ exists es, A !! EXT2_ROOT_INO = Some (ADir es).
Proof.
  destruct formatted as (w & s & E & HL & Hs & HR). pose proof new_file_reply as Hr. rewrite E in Hr.
  assert (safe 1024 empty_fs new_file) as Hsafe by (split; [apply empty_fs_root|done]).
  pose proof (run_refines mount1 HL eq_refl new_file empty_fs s w HR Hsafe Hs) as H.
  destruct (wp_result _ _ _ H) as (o & w' & E' & rs & A' & s' & -> & Hst & Hs' & HR'). rewrite E' in Hr. subst rs.
  exists w', s', A'. split; [done|]. split; [done|]. inversion Hst as [|? ? ? ? A1 ? ? H1 H2]; subst. inversion H2; subst. inversion H1; subst.
  split; [by rewrite lookup_insert_eq|]. eexists. rewrite lookup_insert_ne by done. by rewrite lookup_insert_eq.
Qed.

(** ** Devices that fail *)

(** C6: A write is safe whatever fails. On a device whose transfers and with a
    heap whose allocations may fail at any point (a block being written is then
    a mixture of old and new sectors), [ext2_write_file] ends without a fault,
    keeps the invariant of the file system (no block is shared between files or
    with metadata, every block in use is marked), and leaves inode, pointers
    and data of every other file as they were. When it reports success the file
    holds the data; on a reliable device it fails only when the mount is
    read-only, the inode is not a regular file, the device is full or the file
    is larger than the doubly indirect block reaches. *)
Theorem write_file_failure_safe {D : Type} {drv : BlkDriver D} {laws : BlkLaws D} m e s ino data (w : world D) :
  layout m -> fs_inv m s -> vino m ino -> iused m s ino = true -> zlen data < 2 ^ 32 -> sees m e w s ->
  wp (ext2_write_file m ino data)
     (fun o w' => exists s', sees m e w' s' /\ fs_inv m s' /\ only_file m s s' ino /\
        match o with
        | Some n => n = s32 (zlen data) /\ file_data m s' ino = data
        | None => e = false -> write_refused m s s' ino (zlen data)
        end) w.
Proof.
  intros L Hinv Hv Hu Hlen Hs. eapply wp_mono; [by apply (write_file_wp m e L s)|]. intros o w' (s' & Hs' & Hinv' & Honly & Hres).
  exists s'. do 3 (split; [done|]). destruct o as [n|]; [by destruct Hres as (? & ? & _)|]. intros E. by apply Hres.
Qed.

Lemma sees_any (w : world ramdisk) m e s : sees m false w s -> sees m e w s.
Proof. intros (Hd & Hc & Hs & Hr). split; [done|]. split; [done|]. split; [done|]. intros _. by apply Hr. Qed.

Lemma write_file_failure_safe_witness : exists (w : world ramdisk) s, sees mount1 true w s /\ file_data mount1 s 12 = [] /\
  wp (ext2_write_file mount1 12 [1; 2; 3])
     (fun o w' => exists s', sees mount1 true w' s' /\ fs_inv mount1 s' /\ only_file mount1 s s' 12 /\
        match o with
        | Some n => n = s32 3 /\ file_data mount1 s' 12 = [1; 2; 3]
        | None => true = false -> write_refused mount1 s s' 12 3
        end) w.
Proof.
  destruct with_file as (w & s & A & Hs & [Hinv HA] & H12 & _). destruct formatted as (_ & _ & _ & HL & _).
  destruct (HA _ _ H12) as (Hv & Hu & _ & Hd & _). exists w, s. split; [exact (sees_any _ _ _ _ Hs)|]. split; [exact Hd|].
  exact (write_file_failure_safe mount1 true s 12 [1; 2; 3] w HL Hinv Hv Hu eq_refl (sees_any _ _ _ _ Hs)).
Defined.

(** C16: Creation is safe whatever fails. [ext2_create_file] and
    [ext2_create_dir] end without a fault, keep the invariant and every file
    and directory other than the parent, and never reuse an inode in use. On
    success the new inode was free and holds an empty file, or a directory with
    exactly its two dot entries. On a reliable device the parent gains exactly
    the new entry, a failure leaves the parent's entries as they were, and
    happens only for a read-only mount, a bad name, no free inode, a full
    device or a parent at its largest size. *)
Theorem create_failure_safe {D : Type} {drv : BlkDriver D} {laws : BlkLaws D} m e s dir EE name (w : world D) :
  layout m -> m_block_size m < 65536 -> fs_inv m s -> vino m dir -> iused m s dir = true -> dir_ok m s dir EE -> sees m e w s ->
  wp (ext2_create_file m dir name)
     (fun o w' => exists s', sees m e w' s' /\ created m e s dir EE name EXT2_FT_REG_FILE (fun _ i => i = mk_inode 33188 0 (zeros 15)) o s') w /\
  wp (ext2_create_dir m dir name)
     (fun o w' => exists s', sees m e w' s' /\ created m e s dir EE name EXT2_FT_DIR (fun _ i => i_mode i = 16877) o s' /\
        forall ino, o = Some ino -> fresh_dir m dir s' ino) w.
Proof.
  intros L Hbs Hinv Hv Hu Hdir Hs. pose proof (dir_small m L Hbs s dir EE Hdir) as Hbig.
  split; [by apply (create_file_wp m e L s dir EE)|by apply (create_dir_wp m e L s dir EE)].
Qed.

Lemma create_failure_safe_witness : exists (w : world ramdisk) s EE, sees mount1 true w s /\ dir_ok mount1 s 2 EE /\
  wp (ext2_create_file mount1 2 [98])
     (fun o w' => exists s', sees mount1 true w' s' /\ created mount1 true s 2 EE [98] EXT2_FT_REG_FILE (fun _ i => i = mk_inode 33188 0 (zeros 15)) o s') w /\
  wp (ext2_create_dir mount1 2 [98])
     (fun o w' => exists s', sees mount1 true w' s' /\ created mount1 true s 2 EE [98] EXT2_FT_DIR (fun _ i => i_mode i = 16877) o s' /\
        forall ino, o = Some ino -> fresh_dir mount1 2 s' ino) w.
Proof.
  destruct with_file as (w & s & A & Hs & [Hinv HA] & _ & es & H2). destruct formatted as (_ & _ & _ & HL & _).
  destruct (HA _ _ H2) as (Hv & Hu & EE & Hd & _). exists w, s, EE. split; [exact (sees_any _ _ _ _ Hs)|]. split; [exact Hd|].
  exact (create_failure_safe mount1 true s 2 EE [98] w HL eq_refl Hinv Hv Hu Hd (sees_any _ _ _ _ Hs)).
Defined.
