(* ===== verification/Ext2Disks.v ===== *)
(** * Ext2Disks: disks as they come

    Partition tables and superblocks that nobody vouches for: partitions keep
    to their sectors, a probe ends and gives a mount whose fields have their C
    types; and the disks on which the drivers go wrong. *)

From S2P Require Import Prelude Blkdev Ext2 Ext2Store Ext2Alloc Ext2Tree Ext2Inodes Ext2Files Ext2Mkfs Ext2Correct.

(** ** Partitions *)

Lemma mbr_scan_spec sec n slot k start count : mbr_scan sec n slot = Ok (Some (k, start, count)) ->
  2048 <= start /\ count <> 0 /\ ld32 sec (446 + k * 16 + 8) = Ok start /\ ld32 sec (446 + k * 16 + 12) = Ok count.
Proof.
  revert slot. induction n as [|n IH]; intros slot; cbn [mbr_scan]; [done|]. unfold mbr_entry.
  destruct (ld sec (446 + slot * 16 + 4)) as [ty| | |]; cbn [mbind res_bind]; try done. destruct (ld32 sec (446 + slot * 16 + 8)) as [st0| | |] eqn:E1; cbn [mbind res_bind]; try done.
  destruct (ld32 sec (446 + slot * 16 + 12)) as [ct0| | |] eqn:E2; cbn [mbind res_bind]; try done.
  destruct (Z.eqb_spec ty 131), (Z.eqb_spec ct0 0), (Z.ltb_spec st0 2048); cbn [mbind res_bind negb andb]; try apply IH.
  intros [= <- <- <-]. done.
Qed.

Section partitions.
Context {D : Type} {drv : BlkDriver D} {laws : BlkLaws D}.

(** C33: A Linux partition keeps to its sectors. The partition that
    [mbr_first_linux] finds (for any answers of the heap and any list of
    devices) is registered and starts behind the boot area. When the partition ends within the
    32-bit sector numbers, a write through it, with any sector number and
    count, changes no sector outside it, boot area and partition table
    included, whatever fails; a write that succeeds lies inside and puts the
    sectors of the buffer in place; a read that succeeds returns the sectors
    of the partition. *)
Theorem partition_isolated a1 a2 (disk : D) disk_name devices p devices' :
  dev_ok disk -> mbr_first_linux a1 a2 disk disk_name devices = Ok (Some p, devices') ->
  p_parent p = disk /\ devices' = p :: devices /\ 2048 <= p_lba_start p /\ 0 <> p_lba_count p /\
  (0 <= p_lba_count p < 2 ^ 32 -> p_lba_start p + p_lba_count p <= 2 ^ 32 -> forall lba n buf, 0 <= lba -> 0 < n -> zlen buf = DISK_SECTOR_SIZE * n ->
     (forall ok p', part_write p lba n buf = (ok, p') ->
        (forall i, ~ (p_lba_start p <= i < p_lba_start p + p_lba_count p) -> sector (p_parent p') i = sector disk i) /\
        (ok = true -> lba + n <= p_lba_count p /\ forall k, 0 <= k < n -> sector (p_parent p') (p_lba_start p + lba + k) = sector_of buf k)) /\
     (forall l, part_read p lba n = Some l -> lba + n <= p_lba_count p /\ l = mjoin (sector disk <$> seqZ (p_lba_start p + lba) n))).
Proof.
  intros Hd Hm. assert (p_parent p = disk /\ devices' = p :: devices /\ 2048 <= p_lba_start p /\ p_lba_count p <> 0) as (Ep & Ed & Hst & Hct).
  { revert Hm. unfold mbr_first_linux. destruct (blkdev_read disk 0 1) as [sec|]; [|done].
    destruct (ld sec 510) as [a| | |]; cbn [mbind res_bind]; try done. destruct (ld sec 511) as [b| | |]; cbn [mbind res_bind]; try done. destruct (_ || _); [done|].
    destruct (mbr_scan sec 4 0) as [[[[k st0] ct0]|]| | |] eqn:E; cbn [mbind res_bind]; try done. destruct a1; [|done]. cbn [negb].
    destruct (part_name disk_name k) as [nm| | |]; cbn [mbind res_bind]; try done. destruct a2; [|done]. cbn [negb].
    intros [= <- <-]. apply mbr_scan_spec in E. cbn. tauto. }
  split; [done|]. split; [done|]. split; [done|]. split; [done|]. intros Hc Hw lba n buf Hl Hn Hb. change (2 ^ 32) with 4294967296 in *. subst disk.
  unfold part_write, part_read. destruct (Z.leb_spec (p_lba_count p) lba); cbn [orb]; [split; [by intros ok p' [= <- <-]|done]|].
  destruct (Z.ltb_spec (p_lba_count p - lba) n); [split; [by intros ok p' [= <- <-]|done]|].
  unfold blkdev_write, blkdev_read. rewrite u32_small by lia. destruct (Z.eqb_spec n 0); [lia|].
  destruct (Z.leb_spec (sector_count (p_parent p)) (p_lba_start p + lba)); cbn [orb]; [split; [by intros ok p' [= <- <-]|done]|].
  destruct (Z.ltb_spec (sector_count (p_parent p) - (p_lba_start p + lba)) n); [split; [by intros ok p' [= <- <-]|done]|]. split.
  - intros ok p'. destruct (drv_write (p_parent p) (p_lba_start p + lba) n buf) as [ok' d'] eqn:E. intros [= <- <-]. cbn [p_parent].
    destruct (write_law (p_parent p) (p_lba_start p + lba) n buf ok' d' Hd ltac:(lia) Hn ltac:(lia) Hb E) as (_ & _ & Hout & Hin). split; [intros i Hi; apply Hout; lia|].
    intros ->. split; [lia|]. intros k Hk. by destruct (Hin k Hk) as [?|[? _]].
  - intros l E. split; [lia|]. by apply read_law in E; [|done|lia..].
Qed.
End partitions.

(** A disk with one Linux partition of 1000 sectors at 2048. *)
Definition mbr_sector (start count : Z) : list Z := zeros 450 ++ [131] ++ zeros 3 ++ le32 start ++ le32 count ++ zeros 48 ++ [85; 170].

Definition mbr_disk (start count : Z) : ramdisk := mk_ramdisk 4096 {[0 := mbr_sector start count]} [].

Lemma mbr_disk_ok start count : dev_ok (mbr_disk start count).
Proof. split; [done|]. apply map_Forall_singleton. done. Qed.

(** It is found as sd0p1. *)
Definition sd0p1 : part_priv ramdisk := mk_part (mbr_disk 2048 1000) 2048 1000 [115; 100; 48; 112; 49].

Lemma partition_isolated_witness :
  mbr_first_linux true true (mbr_disk 2048 1000) [115; 100; 48] [] = Ok (Some sd0p1, [sd0p1]) /\
  blkdev_find p_name [115; 100; 48; 112; 49] [sd0p1] = Some sd0p1 /\
  forall buf ok p', zlen buf = 512 -> part_write sd0p1 7 1 buf = (ok, p') -> sector (p_parent p') 0 = mbr_sector 2048 1000.
Proof.
  assert (mbr_first_linux true true (mbr_disk 2048 1000) [115; 100; 48] [] = Ok (Some sd0p1, [sd0p1])) as E by (vm_compute; reflexivity).
  split; [exact E|]. split; [vm_compute; reflexivity|]. intros buf ok p' Hb Hw.
  destruct (partition_isolated true true (mbr_disk 2048 1000) [115; 100; 48] [] _ _ (mbr_disk_ok _ _) E) as (_ & _ & _ & _ & H).
  cbn [p_lba_start p_lba_count sd0p1] in H. destruct (H ltac:(lia) ltac:(lia) 7 1 buf ltac:(lia) ltac:(lia) Hb) as [H1 _].
  destruct (H1 _ _ Hw) as [H2 _]. rewrite H2 by lia. vm_compute. reflexivity.
Defined.

(** A partition that reaches beyond the 32-bit sector numbers does not keep
    to its sectors: the sum of start and sector wraps around. The partition of
    this table is accepted, although it lies outside the disk, and a write of
    its sector 1 replaces sector 0 of the disk, the partition table. *)
Theorem partition_wraps_around : exists p buf p',
  mbr_first_linux true true (mbr_disk 4294967295 16) [115; 100; 48] [] = Ok (Some p, [p]) /\ p_lba_start p = 4294967295 /\
  part_write p 1 1 buf = (true, p') /\ sector (p_parent p') 0 = buf /\ sector (p_parent p) 0 <> buf.
Proof.
  exists (mk_part (mbr_disk 4294967295 16) 4294967295 16 [115; 100; 48; 112; 49]), (zeros 512).
  eexists. split; [vm_compute; reflexivity|]. split; [done|]. split; [vm_compute; reflexivity|]. split; [vm_compute; reflexivity|]. vm_compute. discriminate.
Qed.

(** The name of a partition overflows its twelve bytes when the disk's name has
    ten characters or more; the drivers register names of three. *)
Lemma part_name_bound name slot : 0 <= slot < 4 ->
  total (fun n => zlen n < 12) (part_name name slot) <-> zlen name < 10.
Proof.
  intros Hs. unfold part_name. rewrite zlen_app. change (zlen [112; 48 + slot + 1]) with 2.
  assert (zlen (take 10 name) = Z.min 10 (zlen name)) as -> by (unfold zlen; rewrite length_take; lia).
  destruct (Z.leb_spec 12 (Z.min 10 (zlen name) + 2)); cbn [total post]; [split; [done|lia]|]. rewrite zlen_app.
  change (zlen [112; 48 + slot + 1]) with 2.
  assert (zlen (take 10 name) = Z.min 10 (zlen name)) as -> by (unfold zlen; rewrite length_take; lia). lia.
Qed.

(** ** Probing any disk *)

Lemma le_bytes_range n l o v : Forall is_byte l -> le_bytes n l o = Ok v -> 0 <= v < 2 ^ (8 * Z.of_nat n).
Proof.
  intros Hl. revert o v. induction n as [|n IH]; intros o v; cbn [le_bytes]; [intros [= <-]; done|].
  unfold ld. destruct (zget l o) as [b|] eqn:E; cbn [mbind res_bind]; [|done].
  destruct (le_bytes n l (o + 1)) as [r| | |] eqn:Er; cbn [mbind res_bind]; try done. intros [= <-]. apply IH in Er.
  assert (is_byte b) as [? ?].
  { unfold zget in E. destruct (0 <=? o); [|done]. by apply (Forall_lookup_1 _ _ _ _ Hl E). }
  replace (8 * Z.of_nat (S n)) with (8 + 8 * Z.of_nat n) by lia. rewrite Z.pow_add_r by lia. change (2 ^ 8) with 256. nia.
Qed.

Lemma ld16_typed l o : Forall is_byte l -> 0 <= o -> o + 2 <= zlen l -> exists v, ld16 l o = Ok v /\ 0 <= v < 65536.
Proof.
  intros Hl Ho Hn. destruct (proj1 (total_Ok _ _) (ld16_total l o Ho Hn)) as (v & E & _). exists v. split; [done|]. by apply le_bytes_range in E.
Qed.

Lemma ld32_typed l o : Forall is_byte l -> 0 <= o -> o + 4 <= zlen l -> exists v, ld32 l o = Ok v /\ 0 <= v < 2 ^ 32.
Proof.
  intros Hl Ho Hn. destruct (proj1 (total_Ok _ _) (ld32_total l o Ho Hn)) as (v & E & _). exists v. split; [done|]. by apply le_bytes_range in E.
Qed.

Definition words (l : list Z) : Prop := zlen l = EXT2_MAX_GROUPS /\ Forall (fun v => 0 <= v < 2 ^ 32) l.

Lemma words_st l g v : words l -> 0 <= g < 256 -> 0 <= v < 2 ^ 32 -> exists l', st l g v = Ok l' /\ words l'.
Proof.
  intros [Hl Hw] Hg Hv. rewrite st_ok by (rewrite Hl; unfold EXT2_MAX_GROUPS; lia). eexists. split; [done|]. split; [by rewrite zlen_zset|].
  by apply Forall_zset.
Qed.

(** The fields of a mount as their C types and the checks of the probe have
    them; the number of groups is an [int]. *)
Record typed (m : ext2_mount) : Prop := {
  ty_inodes : 0 <= m_inodes_count m < 2 ^ 32;
  ty_blocks : 0 <= m_blocks_count m < 2 ^ 32;
  ty_first : 0 <= m_first_data_block m < 2 ^ 32;
  ty_rev : 0 <= m_rev_level m < 2 ^ 32;
  ty_size : exists k, 0 <= k <= 6 /\ m_block_size m = 1024 * 2 ^ k;
  ty_spb : m_block_size m = 512 * m_spb m;
  ty_bpg : 0 < m_blocks_per_group m <= 8 * m_block_size m;
  ty_ipg : 0 < m_inodes_per_group m < 2 ^ 32;
  ty_isize : 128 <= m_inode_size m < 65536;
  ty_gd : 0 <= m_gd_block m < 2 ^ 32;
  ty_groups : - 2 ^ 31 <= m_ngroups m <= EXT2_MAX_GROUPS;
  ty_bb : words (m_block_bitmap m);
  ty_ib : words (m_inode_bitmap m);
  ty_it : words (m_inode_table m);
}.

Lemma s32_bounds z : - 2 ^ 31 <= s32 z.
Proof. unfold s32. change (2 ^ 31) with 2147483648. mlia. Qed.

Lemma words_zeros : words (zeros EXT2_MAX_GROUPS).
Proof. split; [done|]. apply Forall_replicate. lia. Qed.

Lemma super_fields_typed m buf : Forall is_byte buf -> zlen buf = 512 ->
  exists o, super_fields m buf = Ok o /\ forall m', o = Some m' -> typed m' /\ m_dev m' = m_dev m /\ m_writable m' = m_writable m /\
    (ld32 buf SB_OFF_FIRST_DATA_BLOCK <> Ok 4294967294 -> 4294967295 <> m_gd_block m').
Proof.
  intros Hb Hl. unfold super_fields, SB_OFF_INODES_COUNT, SB_OFF_BLOCKS_COUNT, SB_OFF_FIRST_DATA_BLOCK, SB_OFF_LOG_BLOCK_SIZE, SB_OFF_BLOCKS_PER_GROUP,
    SB_OFF_INODES_PER_GROUP, SB_OFF_MAGIC, SB_OFF_REV_LEVEL, SB_OFF_INODE_SIZE.
  destruct (ld16_typed buf 56 Hb) as (mg & -> & _); [lia|lia|]. rewrite Ok_bind. destruct (negb _); [by eexists|].
  destruct (ld32_typed buf 0 Hb) as (ic & -> & Hic); [lia|lia|]. rewrite Ok_bind. destruct (ld32_typed buf 4 Hb) as (bc & -> & Hbc); [lia|lia|]. rewrite Ok_bind.
  destruct (ld32_typed buf 20 Hb) as (fd & Efd & Hfd); [lia|lia|]. rewrite Efd, Ok_bind. destruct (ld32_typed buf 24 Hb) as (lb & -> & Hlb); [lia|lia|]. rewrite Ok_bind.
  destruct (ld32_typed buf 32 Hb) as (bpg & -> & Hbpg); [lia|lia|]. rewrite Ok_bind. destruct (ld32_typed buf 40 Hb) as (ipg & -> & Hipg); [lia|lia|]. rewrite Ok_bind.
  destruct (ld32_typed buf 76 Hb) as (rev & -> & Hrev); [lia|lia|]. rewrite Ok_bind. destruct (Z.ltb_spec 6 lb) as [?|Hlb6]; [by eexists|].
  destruct (ld16_typed buf 88 Hb) as (isz & -> & Hisz); [lia|lia|]. rewrite Ok_bind. cbn zeta.
  set (isize := if 1 <=? rev then isz else 128). assert (isize < 65536) as His by (unfold isize; destruct (1 <=? rev); lia).
  destruct (Z.ltb_spec isize 128); [by eexists|]. destruct (Z.eqb_spec bpg 0), (Z.ltb_spec (8 * Z.shiftl 1024 lb) bpg), (Z.eqb_spec ipg 0); cbn [orb]; try (by eexists).
  set (ng := if u32 _ <? _ then s32 _ else s32 _). destruct (Z.ltb_spec EXT2_MAX_GROUPS ng) as [?|Hng]; [by eexists|]. eexists. split; [done|].
  intros m' [= <-]. split; [|split; [done|split; [done|]]].
  2:{ cbn [m_gd_block]. change (2 ^ 32) with 4294967296 in Hfd. intros Hne. assert (fd <> 4294967294) by congruence. unfold u32. mlia. }
  rewrite Z.shiftl_mul_pow2 in * by lia.
  assert (- 2 ^ 31 <= ng) by (unfold ng; destruct (_ <? _); apply s32_bounds).
  split; cbn [m_inodes_count m_blocks_count m_first_data_block m_rev_level m_block_size m_spb m_blocks_per_group m_inodes_per_group m_inode_size m_gd_block m_ngroups
    m_block_bitmap m_inode_bitmap m_inode_table]; try done; try apply words_zeros; try lia.
  - exists lb. split; [lia|done].
  - unfold DISK_SECTOR_SIZE. replace (1024 * 2 ^ lb) with (2 * 2 ^ lb * 512) by lia. rewrite Z.div_mul by done. lia.
  - apply Z.mod_pos_bound. done.
Qed.

Section probe.
Context {D : Type} {drv : BlkDriver D} {laws : BlkLaws D}.

Lemma block_bytes m b (w : world D) : dev_ok (w_dev w) -> (forall i, Forall is_byte (sector (w_dev w) i)) -> m_dev m = true -> 0 < m_spb m ->
  wp (m_read_block m b) (fun o w' => w' = w /\ forall l, o = Some l -> zlen l = 512 * m_spb m /\ Forall is_byte l) w.
Proof.
  intros Hd Hby Hdev Hs. unfold wp, m_read_block. rewrite Hdev. split; [done|]. intros l. unfold blkdev_read.
  assert (0 <= u32 (b * m_spb m)) by (apply Z.mod_pos_bound; lia).
  destruct (_ =? 0); [done|]. destruct (Z.leb_spec (sector_count (w_dev w)) (u32 (b * m_spb m))); [done|].
  destruct (Z.ltb_spec (sector_count (w_dev w) - u32 (b * m_spb m)) (m_spb m)); [done|]. cbn [orb].
  intros E. apply read_law in E as ->; [|done|lia..]. split.
  - rewrite (mjoin_sectors_len (w_dev w)) by done. unfold zlen. rewrite length_seqZ. lia.
  - apply Forall_join, Forall_fmap, Forall_true. intros i. apply Hby.
Qed.

Lemma load_gdt_typed n m g cur gb (w : world D) : dev_ok (w_dev w) -> (forall i, Forall is_byte (sector (w_dev w) i)) -> m_dev m = true -> typed m ->
  0 <= g -> g + Z.of_nat n <= 256 -> g = 0 /\ cur <> m_gd_block m \/ zlen gb = m_block_size m /\ Forall is_byte gb ->
  wp (load_gdt m n g cur gb) (fun o w' => w' = w /\ forall m', o = Some m' -> typed m' /\ m_dev m' = true /\ m_writable m' = m_writable m) w.
Proof.
  intros Hd Hby. revert m g cur gb. induction n as [|n IH]; intros m g cur gb Hdev T Hg Hn Hgb; cbn [load_gdt].
  { apply wp_ret. split; [done|]. by intros m' [= <-]. }
  rewrite (u32_small (g * 32)) by lia. set (blk := u32 _). destruct (ty_size _ T) as (k & Hk & Hbs). pose proof (ty_spb _ T) as Hspb.
  assert (1024 <= m_block_size m /\ m_block_size m mod 32 = 0) as [Hb1 Hb2].
  { rewrite Hbs. pose proof (Z.pow_pos_nonneg 2 k ltac:(lia) ltac:(lia)). split; [lia|]. replace (1024 * 2 ^ k) with (32 * 2 ^ k * 32) by lia. by rewrite Z.mod_mul. }
  apply wp_bind. cut (wp (if blk =? cur then mret gb else m_read_block m blk) (fun o w' => w' = w /\ forall l, o = Some l -> zlen l = m_block_size m /\ Forall is_byte l) w).
  { intros H. eapply wp_mono; [exact H|]. intros [l|] w' (-> & Hl'); [|done]. destruct (Hl' l eq_refl) as [Hlen Hlb]. set (off := g * 32 mod m_block_size m).
    assert (0 <= off /\ off + 32 <= m_block_size m) as [Ho Ho'].
    { unfold off. apply Z.mod_divide in Hb2 as [q Hq]; [|done]. rewrite Hq, Z.mul_mod_distr_r by lia. pose proof (Z.mod_pos_bound g q). lia. }
    unfold GD_OFF_BLOCK_BITMAP, GD_OFF_INODE_BITMAP, GD_OFF_INODE_TABLE.
    destruct (ld32_typed l (off + 0) Hlb) as (b & Eb & Hb); [lia|lia|]. destruct (ld32_typed l (off + 4) Hlb) as (i & Ei & Hi); [lia|lia|].
    destruct (ld32_typed l (off + 8) Hlb) as (t & Et & Ht); [lia|lia|].
    destruct (words_st (m_block_bitmap m) g b (ty_bb _ T)) as (bb & Ebb & Hbb); [lia|done|]. destruct (words_st (m_inode_bitmap m) g i (ty_ib _ T)) as (ib & Eib & Hib); [lia|done|].
    destruct (words_st (m_inode_table m) g t (ty_it _ T)) as (it & Eit & Hit); [lia|done|].
    apply wp_bind; eapply wp_lift; [exact Eb|]. apply wp_bind; eapply wp_lift; [exact Ei|]. apply wp_bind; eapply wp_lift; [exact Et|].
    apply wp_bind; eapply wp_lift; [exact Ebb|]. apply wp_bind; eapply wp_lift; [exact Eib|]. apply wp_bind; eapply wp_lift; [exact Eit|].
    apply (IH (set_tables m bb ib it)); [done| |lia|lia|by right]. destruct T. by split. }
  destruct (Z.eqb_spec blk cur) as [E|E].
  - apply wp_ret. split; [done|]. intros l [= <-]. destruct Hgb as [[-> Hne]|?]; [|done]. exfalso. apply Hne. rewrite <- E. unfold blk.
    rewrite Z.mul_0_l, Z.div_0_l, Z.add_0_r by lia. apply u32_small. pose proof (ty_gd _ T). done.
  - rewrite Hspb. apply block_bytes; [done|done|done|lia].
Qed.
End probe.

Lemma wp_heap_any {D : Type} (w : world D) (Q : option unit -> world D -> Prop) :
  (forall w', w_dev w' = w_dev w -> Q None w') -> (forall w', w_dev w' = w_dev w -> Q (Some tt) w') -> wp heap_alloc Q w.
Proof. intros HN HS. unfold wp, heap_alloc. destruct w as [d [|[] h]]; [by apply HS|by apply HS|by apply HN]. Qed.

(** C32: A probe of any disk is well typed. Whatever the bytes of the device and
    whichever transfers fail, [ext2_probe_m] ends without a fault and without
    writing, and a mount it returns is ready and has its fields in the range of
    their C types and of the checks: a block size of 1024 to 65536 bytes, a
    bitmap per group that fits in a block, inodes of at least 128 bytes, tables
    of 256 entries. (The first data block 4294967294 is excluded: the block of
    the descriptors then equals the mark for no block, and the buffer is used
    before it is read.) *)
Theorem probe_typed {D : Type} {drv : BlkDriver D} {laws : BlkLaws D} m (w : world D) :
  dev_ok (w_dev w) -> (forall i, Forall is_byte (sector (w_dev w) i)) -> m_dev m = true -> ld32 (sector (w_dev w) 2) SB_OFF_FIRST_DATA_BLOCK <> Ok 4294967294 ->
  wp (ext2_probe_m m) (fun o w' => w_dev w' = w_dev w /\
    forall m', o = Some m' -> typed m' /\ m_ready m' = true /\ m_dev m' = true /\ m_writable m' = m_writable m) w.
Proof.
  intros Hd Hby Hdev Hfd. unfold ext2_probe_m. rewrite Hdev. apply wp_bind. unfold wp at 1. cbn [total post].
  destruct (blkdev_read (w_dev w) 2 1) as [buf|] eqn:E; [|done].
  assert (buf = sector (w_dev w) 2) as ->.
  { revert E. unfold blkdev_read. cbn [Z.eqb]. destruct (Z.leb_spec (sector_count (w_dev w)) 2); [done|].
    destruct (Z.ltb_spec (sector_count (w_dev w) - 2) 1); [done|]. cbn [orb]. intros E. apply read_law in E; [|done|lia..].
    change (seqZ 2 1) with [2] in E. cbn [fmap list_fmap mjoin list_join] in E. by rewrite app_nil_r in E. }
  destruct (super_fields_typed m (sector (w_dev w) 2)) as (o & Eo & Ho); [done|by apply sector_len|].
  apply wp_bind. eapply wp_lift; [exact Eo|]. destruct o as [m1|]; [|done]. destruct (Ho m1 eq_refl) as (T & Hd1 & Hw1 & Hgd). specialize (Hgd Hfd).
  pose proof (ty_groups _ T) as [_ Hng]. unfold EXT2_MAX_GROUPS in Hng.
  apply wp_bind. apply (wp_heap_any w); [done|]. intros w1 Hw1'. apply wp_bind.
  eapply wp_mono; [apply (load_gdt_typed _ m1 0 _ [] w1)|]; rewrite ?Hw1'; [done|done|congruence|done|lia|lia|by left|].
  intros [m2|] w2 (-> & H2); [|done]. apply wp_ret. split; [done|]. intros m' [= <-]. destruct (H2 m2 eq_refl) as (T2 & Hd2 & Hw2).
  split; [destruct T2; by split|]. cbn. split; [done|]. split; [done|congruence].
Qed.

(** ** Superblocks that are not checked *)

(** A superblock with one inode per group and as many groups as blocks. *)
Definition super_sector (inodes blocks : Z) : list Z :=
  le32 inodes ++ le32 blocks ++ zeros 12 ++ le32 1 ++ le32 0 ++ zeros 4 ++ le32 1 ++ zeros 4 ++ le32 1 ++ zeros 12 ++
  le16 EXT2_SUPER_MAGIC ++ zeros 18 ++ le32 1 ++ zeros 8 ++ le16 128 ++ zeros 422.

Definition super_disk (inodes blocks : Z) : ramdisk := mk_ramdisk 4096 {[2 := super_sector inodes blocks]} [].

Definition unprobed : ext2_mount := mk_mount true true false 0 0 0 0 0 0 0 0 0 0 0 [] [] [].

Lemma super_disk_ok inodes blocks : dev_ok (super_disk inodes blocks).
Proof. split; [done|]. apply map_Forall_singleton. done. Qed.

Lemma super_disk_bytes inodes blocks i : Forall is_byte (sector (super_disk inodes blocks) i).
Proof.
  change (sector (super_disk inodes blocks) i) with (rd_sector (super_disk inodes blocks) i). unfold rd_sector, super_disk. cbn [rd_data].
  destruct (decide (i = 2)) as [->|Hne].
  - rewrite lookup_singleton_eq. cbn [default]. unfold super_sector, zeros. repeat apply Forall_app_2; try apply bytes_le32; try apply bytes_le16; apply Forall_replicate; done.
  - rewrite lookup_singleton_ne by done. cbn. apply Forall_replicate. done.
Qed.

Lemma probe_typed_witness : wp (ext2_probe_m unprobed) (fun o w' => w_dev w' = super_disk 1000 2147483648 /\
    forall m', o = Some m' -> typed m' /\ m_ready m' = true /\ m_dev m' = true /\ m_writable m' = true) (mk_world (super_disk 1000 2147483648) []).
Proof.
  apply (probe_typed unprobed (mk_world (super_disk 1000 2147483648) [])); [apply super_disk_ok|intros i; apply super_disk_bytes|reflexivity|vm_compute; discriminate].
Defined.

(** A superblock can make the driver read beyond its tables. The number of
    groups is kept in an [int] and compared with the limit as one: 2147483648
    groups are a negative number and accepted. The probe of this disk succeeds,
    and reading inode 300 then takes entry 299 of the table of 256 groups. *)
Theorem probe_accepts_negative_groups : exists m w,
  ext2_probe_m unprobed (mk_world (super_disk 1000 2147483648) []) = Ok (Some m, w) /\
  m_ngroups m = - 2 ^ 31 /\ m_read_inode m 300 w = Fault.
Proof. eexists _, _. split; [vm_compute; reflexivity|]. split; vm_compute; reflexivity. Qed.

(** ** Blocks that are not cleared *)

(** C35: Old contents of a free block are taken for block numbers.  The
    allocation of an indirect block in [ext2_write_file] does not clear it (and
    mkfs does not clear free blocks).  Let a file have no indirect block yet,
    let the allocator choose block [nb] for it, and let the word of [nb] that
    belongs to logical block [bn] hold the number [c] of a block of the volume.
    Then writing [bn], on a device that does not fail, succeeds and puts the
    data of the file in block [c], whatever [c] is - the superblock, a bitmap, a
    block of another file - while only [nb] is marked as used. *)
Theorem stale_indirect_block {D : Type} {drv : BlkDriver D} {laws : BlkLaws D} m s (w w1 : world D) nb ib data bn :
  layout m -> sees m false w s -> (forall g, 0 <= g < m_ngroups m -> used m s (loc m (RBlockBitmap g)) = true) ->
  m_alloc_block m w = Ok (Some nb, w1) -> zlen ib = 15 -> zget ib 12 = Some 0 -> 12 <= bn < 12 + m_block_size m / 4 ->
  let c := word (s nb) (bn - 12) in 0 < c < m_blocks_count m ->
  wp (write_blocks m data ib 1 bn)
     (fun o w' => o = Some (zset ib 12 nb) /\ exists s', block_taken m false s (Some nb) s' /\
        sees m false w' (upd s' c (file_chunk (m_block_size m) data (bn * m_block_size m)))) w.
Proof.
  intros L Hs Hbits Hal Hlen Hib Hbn c Hc. pose proof (alloc_block_wp m false L s w Hs) as Ha. unfold wp in Ha. rewrite Hal in Ha.
  destruct Ha as (s1 & Hs1 & Ht). pose proof Ht as ([Hsame _] & Hin & Hfree & _).
  assert (s1 nb = s nb) as Enb.
  { apply Hsame. intros g Hg ->. by rewrite Hbits in Hfree. }
  assert (0 <= nb < m_blocks_count m) as Hnb by (destruct Hin; pose proof (lay_first L); lia).
  cbn [write_blocks]. apply wp_bind. unfold write_map. destruct (Z.ltb_spec bn 12); [lia|].
  destruct (Z.ltb_spec (bn - 12) (m_block_size m / 4)); [|lia]. apply wp_bind. unfold root_slot.
  apply wp_bind. eapply wp_lift; [unfold ld; by rewrite Hib|]. cbn [Z.eqb].
  apply wp_bind. unfold wp at 1. rewrite Hal. cbn [total post].
  apply wp_bind. eapply wp_lift; [apply st_ok; lia|]. apply wp_ret. apply wp_bind. unfold ind_slot.
  apply wp_bind, (ind_get_wp m false L s1); [done|done|unfold ppb; lia|done|]. rewrite Enb. fold c. destruct (Z.eqb_spec c 0); [lia|].
  apply wp_ret, wp_ret. pose proof (zlen_file_chunk m L data (bn * m_block_size m)) as Hz.
  pose proof (bs_pos m L). apply wp_bind, (wp_write m false c _ s1); [apply L|done|lia|apply Hz; nia| |done].
  intros w2 Hw2. apply wp_ret. split; [done|]. by exists s1.
Qed.

(** A blank disk but for one word, in the block that will be the first one
    free; formatted and mounted. *)
Definition stale_world : res (option ext2_mount * world ramdisk) :=
  (ext2_mkfs false false false (zeros 1024);; ext2_probe_m unprobed) (mk_world (mk_ramdisk 16384 {[526 := le32 1 ++ zeros 508]} []) []).

Definition stale_formatted : world ramdisk :=
  match stale_world with Ok (_, w) => w | _ => mk_world (mk_ramdisk 0 ∅ []) [] end.

(** Block 12 of a new file goes to block 1, the superblock. *)
Lemma stale_indirect_block_witness :
  wp (write_blocks (mkfs_mounted 16384 true) (replicate 13312 7) (zeros 15) 1 12)
     (fun o w' => o = Some (zset (zeros 15) 12 263) /\ exists s' s, block_taken (mkfs_mounted 16384 true) false s (Some 263) s' /\
        sees (mkfs_mounted 16384 true) false w' (upd s' 1 (file_chunk 1024 (replicate 13312 7) 12288))) stale_formatted.
Proof.
  destruct formatted as (_ & _ & _ & HL & _ & _). set (m := mkfs_mounted 16384 true) in *.
  set (s := blk m (w_dev stale_formatted)).
  assert (dev_ok (w_dev stale_formatted)) as Hd.
  { split; [vm_compute; done|]. apply (bool_decide_unpack _). vm_compute. exact I. }
  assert (word (s 263) (12 - 12) = 1) as Ec by (vm_compute; reflexivity).
  assert (match m_alloc_block m stale_formatted with Ok (Some b, _) => b =? 263 | _ => false end = true) as X by (vm_compute; reflexivity).
  destruct (m_alloc_block m stale_formatted) as [[[nb|] w1]| | |] eqn:Ea; try discriminate X.
  assert (nb = 263) as -> by (apply Z.eqb_eq; exact X).
  eapply wp_mono; [apply (stale_indirect_block m s stale_formatted w1 263 (zeros 15) (replicate 13312 7) 12 HL)|].
  - split; [exact Hd|]. split; [vm_compute; discriminate|]. split; [reflexivity|]. intros _. split; [split; [exact Hd|reflexivity]|constructor].
  - intros g Hg. change (m_ngroups m) with 1 in Hg. assert (g = 0) as -> by lia. vm_compute. reflexivity.
  - exact Ea.
  - reflexivity.
  - reflexivity.
  - vm_compute. split; [discriminate|reflexivity].
  - rewrite Ec. vm_compute. split; reflexivity.
  - rewrite Ec. intros o w' (Eo & s' & Ht & Hs'). split; [exact Eo|]. exists s', s. split; [exact Ht|exact Hs'].
Defined.

(** What this does to a disk: it is zero but for one word in block 275; formatting,
    mounting, creating a file and writing 13 blocks all succeed, and the file
    system cannot be mounted again. *)
Definition stale_disk : ramdisk := mk_ramdisk 16384 {[550 := le32 1 ++ zeros 508]} [].

Definition stale_run : io ramdisk ext2_mount :=
  ext2_mkfs false false false (zeros 1024);;
  m ← ext2_probe_m unprobed;
  ino ← ext2_create_file m EXT2_ROOT_INO [97];
  ext2_write_file m ino (replicate 13312 7);;
  mret m.

Lemma stale_run_result : match stale_run (mk_world stale_disk []) with
  | Ok (Some m, w) => match ext2_probe_m unprobed w with Ok (None, _) => true | _ => false end
  | _ => false
  end = true.
Proof. vm_compute. reflexivity. Qed.
